(* ===== verification/_CoqProject ===== *)
-Q . S2P
Prelude.v
Text.v
Float.v
BTree.v
Json.v
Capability.v
Lifecycle.v
Device.v
Command.v
Policy.v
MatterState.v
CommandStore.v
MatterOperation.v
MatterStore.v
Effects.v
CommandService.v
MatterCommands.v
CommandCost.v
CommandLog.v
DispatchTokens.v
CommandSystem.v
CommandFixture.v
CommandProps.v
MatterProps.v
DomainProps.v
Automation.v
Identity.v
FoundationStore.v
Reconciliation.v
Application.v
Authentication.v
MatterDescriptor.v
MatterProjection.v
MatterController.v
MatterSimulator.v
MatterCommandAdapter.v
MatterRepository.v
MatterHistory.v
MatterAdministration.v
MatterFabricWorkflow.v
MatterNodeWorkflow.v
MatterSubscription.v
MatterExecution.v
MatterTokens.v
MatterSystem.v
AutomationStore.v
AutomationInvariant.v
AutomationCompiler.v
AutomationEvaluator.v
AutomationPlan.v
AutomationFixture.v
AutomationProps.v
AutomationRuntime.v
AutomationMoves.v
AutomationPotential.v
AutomationRefine.v
AutomationStoreProps.v
AutomationSimulator.v
AutomationScheduler.v
AutomationEngine.v
AutomationLifecycle.v
AutomationSimulatorProps.v
AutomationSchedulerProps.v
AutomationAdmission.v
AutomationLifecycleProps.v
AutomationTasks.v
AutomationSystem.v
ApplicationFixture.v
ReconciliationProps.v
FoundationProps.v
ApplicationProps.v
ApplicationFaults.v
MatterHome.v
MatterSimulatorProps.v
MatterWorkflowProps.v
ShellyProtocol.v
ShellyScanner.v
ShellyCommand.v
ShellySession.v
ShellyProps.v
