(* ===== verification/Prelude.v ===== *)
(** * HomeMagic: devices, the governed command path and the automation engine

    This library models the parts of HomeMagic ([src/crates], Rust) that decide
    what is known about a device and what reaches it: the device service with its
    registry, reconciliation and durable foundation, the command service with its
    policy, admission limits and durable log, the Matter desired-state coordination
    in front of it, the workflows that administer Matter fabrics and nodes with the
    controller they are tested on, and the engine that compiles, simulates,
    schedules and interprets automations.

    ** The program and its files

    Values of the domain ([homemagic-domain/src]):
    - [Capability] (capability.rs), [Lifecycle] (lifecycle.rs, repair.rs), [Device]
      (device.rs, configuration.rs, observation.rs), [Command] (command.rs),
      [Identity] (event.rs, identity.rs), [MatterState] (matter/state.rs),
      [MatterOperation] (matter/operation.rs), [MatterDescriptor]
      (matter/descriptor.rs, matter/event.rs), [Automation] (automation.rs). Records are the structs, inductive types the enums, and a
      Module of the type's name holds its methods.

    Tables ([homemagic-storage/src]): [FoundationStore] (repository.rs, with the
    repository in memory of homemagic-application/src/memory.rs), [CommandStore]
    (command_repository.rs), [MatterStore] (matter_repository.rs, the
    desired-state part), [MatterRepository] (matter_repository.rs, fabrics, nodes,
    subscriptions, operations and repairs), [AutomationStore]
    (automation_repository.rs). A table is a finite map or a list of payloads, and
    a function of the repository is the body of one transaction: from a database to
    the next one, or to an error that changes nothing.

    Services ([homemagic-application/src]): [Reconciliation] (registry.rs,
    reconciliation.rs), [Application] (lib.rs, with the sink of
    live observations in Module [LiveSink]), [Authentication]
    (authentication.rs), [Policy] (policy.rs), [CommandService]
    (command_service.rs), [MatterCommands] (matter_commands.rs),
    [AutomationCompiler] (automation_compiler.rs), [AutomationEvaluator]
    (automation_evaluator.rs), [AutomationRuntime] (automation_runtime.rs),
    [AutomationSimulator] (automation_simulator.rs), [AutomationScheduler]
    (automation_scheduler.rs), [AutomationEngine] (automation_events.rs,
    automation_engine.rs), [AutomationLifecycle] (automation_lifecycle.rs). For
    Matter: [MatterProjection] (matter_projection.rs), [MatterController]
    (matter_controller.rs), [MatterAdministration] (matter_administration.rs),
    [MatterFabricWorkflow] and [MatterNodeWorkflow] (the files of these names),
    [MatterSubscription] (matter_subscription.rs, matter_subscription_repair.rs),
    [MatterExecution] (matter_execution.rs, matter_inventory.rs,
    matter_diagnostics.rs).

    Adapters ([homemagic-matter/src]): [MatterSimulator] (simulator.rs, script.rs,
    fixture.rs, clock.rs), the deterministic controller, and [MatterCommandAdapter]
    (command.rs), the dispatch and confirmation of commands over a controller.

    The Shelly adapter ([homemagic-shelly/src]): [ShellyProtocol] (auth.rs,
    notification.rs), digest authentication, notifications, the status cache and the
    replay filter; [ShellyScanner] (lib.rs), discovery, the reads of a device and
    the projection of its status; [ShellyCommand] (command.rs), the calls and the
    confirmation of commands; [ShellySession] (session.rs, websocket.rs), the
    supervisor, its reconnects and one live session.

    Foundations: this file (results, machine integers, instants, tactics), [Text]
    (Rust text, hexadecimal), [Float] (binary64 numbers and durations), [BTree]
    (ordered maps, the stable sort), [Json] and [Effects].

    ** How the parts are put together

    An async function is a [Prog]: a tree of the operations it awaits, pure in
    between. Each service declares its operations as an inductive type with the
    type of every answer ([AppOp], [AuthOp], [CmdOp], [RtOp], [ScOp], [AeOp],
    [EnOp], [LcOp], [MatterOp], [AdapterOp], [ScanOp], [ShellyOp], [SupervisorOp],
    [SuperviseOp], [SocketOp]). A call
    of another service is either an operation of its own ([Rt_execute]) or an
    embedded program (the stages of [AutomationEngine], the scheduler under
    [AutomationLifecycle.catch_up]). The interface of the dispatch control is a
    record the command service is parametric in, which [MatterCommands] implements;
    the evaluation context is a class with one instance for the interpreter and one
    for the simulator. Four ways of reading a program are used:
    - [run] and [alone]: alone over a handler, for concrete executions and what holds
      of all of them ([MatterHome] runs the Matter workflows over the simulated
      controller and proves each run one of [MatterSystem]);
    - [wp]: under arbitrary answers, with tokens that record what was learnt. Every
      operation must be justified by them; since this holds at each operation it
      covers a task that is dropped at any of them;
    - [always]: with an environment that may move between any two operations, where
      an operation may answer anything its states allow ([ApplicationProps]);
    - a system of many tasks over one database, interleaved at every operation, with
      failing, lost and crashed operations ([CommandSystem], [AutomationTasks],
      [MatterSystem]); its tasks are the programs themselves.

    The compiler and the simulator are state monads ([AutomationCompiler],
    [StepInterpreter.Sim]).

    ** What the theorems show

    - The command path ([CommandProps] over [CommandSystem], [CommandLog],
      [DispatchTokens] and [CommandCost]): at most one dispatch of a command, each
      authorised before; a complete audit page; replays of an idempotency key; dry
      runs; recovery; termination, for a recovery on pages of at most the length
      that was asked for, as the store's are. [Policy]: default deny, and the limits
      for windows shorter than the configured one by what the clocks lag.
      [CommandProps]: the canonical request hash.
    - Matter ([MatterProps], [MatterOperation]): the projected state, the single use
      of an unlock authorization, the slot a cancelled command leaves, the
      lifecycle of operations.
    - The Matter services ([MatterHistory], [MatterTokens], [MatterSystem],
      [MatterWorkflowProps]): one effect on the controller per operation, after its
      first move and under its grant; complete histories; the node a removal does not
      free; the commissioning that a long log of the controller blocks.
    - The simulated controller ([MatterSimulatorProps]): exports that are restored, a
      log read without a gap, and the lock command no report confirms.
    - Shelly devices ([ShellyProps]): the status cache reports exactly what changed;
      the replay filter is a window over the accepted events; projected capabilities,
      calls and confirmations fit each other; what a dispatch sends and on which
      challenge it authorises it; the bounds of reconnects; the silent session that
      blocks the supervisor.
    - Devices ([ReconciliationProps], [FoundationProps], [ApplicationProps],
      [ApplicationFaults]): reconciliation against a reference
      definition and its idempotence; what a foundation write stores, keeps and
      erases; nothing is shown before it is committed; the registry follows the
      repository; what an evaluation of freshness does and when it is refused; the
      update a concurrent evaluation reverts.
    - Credentials ([Authentication]): which bearers are read, issued and accepted,
      and the disabling a concurrent rotation reverts.
    - Domain values ([DomainProps]): observations, freshness, chronology, commands.
    - The compiler ([AutomationPlan], [AutomationProps]): the
      shape of compiled plans, approval, exact findings, reduction, fuel.
    - The automation tables ([AutomationInvariant], [AutomationStoreProps]): the
      invariant of every reachable database, what a transaction does to one row,
      evidence behind activation, exclusive commits, immutable versions.
    - The interpreter ([AutomationMoves], [AutomationPotential], [AutomationRefine],
      [AutomationTasks], [AutomationSystem]): an abstract machine of positions in a
      plan and the bound on its moves; one step of the program refines it; every row
      ever stored of a run follows it while any number of interpreters, schedulers
      and cancellations race over the store, so a run changes its position only so
      often; command keys, long traces.
    - The simulator ([AutomationSimulatorProps]): it always ends; budget, trace, and
      intents that are complete executions of commands; where it departs from the
      interpreter.
    - The stages of the engine ([AutomationSchedulerProps], [AutomationAdmission],
      [AutomationEngine], [AutomationLifecycleProps], [AutomationSimulatorProps]):
      admission by run mode, delivery of events, authority of every write; and the
      gaps: the recovery page that fills, the run a crash leaves uncounted, the
      identity any other actor can take over, the guard that is not enforced.

    [CommandFixture], [AutomationFixture],
    [ApplicationFixture] and [MatterHome] hold the concrete installations, documents, databases
    and instances of the parameters the witnesses use.

    ** Bounds and fuel

    Machine integers are [N] or [Z] with saturating, checked and wrapping operations
    written out; [to_i64] is the bound of SQLite's integers. Fuel appears where the
    program recurses or loops over data that is no subterm: the compilation of
    nested actions (their height, [compile_action_fuel]), the simulator
    ([simulation_fuel], one more than the trace budget: every node consumes one step
    of it; the loops of a wait and of a duration take one unit per change that is
    left; [simulation_sound] proves that none runs out), and the pages of a trace in
    [AutomationLifecycle.next_trace_sequence], a parameter of the call. The loops of
    a live Shelly session have no bound, as they read what a device sends: their
    fuel ([loop_for]) is the number of rounds, and what is proved of them holds for
    every number.

    ** What is assumed of other code

    Parameters, as classes, with the laws the code relies on: the UUID library
    ([Uuids], [UuidText]), the password hash ([Argon2]), SHA-256 ([Sha256]), the encoders ([AutomationEncoding],
    [TraceEncoding], [InputEncoding], [RequestDigest], [MatterRequestDigest],
    [SimulatorCodec]), header values ([HttpHeaders]), what the JSON library decodes
    ([ShellyDecoding], [FrameDecoding], [ShellyJson]), durations of the date library
    ([TimeDeltas]), time zones and local times
    ([Calendar]), cron ([CronInstants]), checked addition of instants ([Chrono]),
    JSON numbers ([SerdeJson]).

    ** Abstractions

    - Rows are payloads: encoding to and decoding from JSON never fails, and columns
      that repeat a payload are read from it.
    - Timestamps in SQL are compared as text; [text_rank] gives that order where the
      program stores instants beyond the year 9999.
    - The limits of the policy are one state behind one lock.
    - The calls of the simulated controller are taken one after the other; the
      barriers that delay them are left out.
    - [CommandSystem], [AutomationTasks] and [MatterSystem] over-approximate: an operation may fail
      before or after its effect, a task may be dropped between any two, an external
      transaction may run at any point. All carry history fields that no program
      reads. In [AutomationTasks] a retention may delete rows at any point, but the
      identity of a deleted run and the number of a deleted version are not used
      again.
    - Additions of a duration to an instant that would panic are excluded by the
      compiler's bound on windows; a depth beyond [u16] is not reached.
    - The two reads of a Shelly device, which the scanner joins, are made one after the
      other; the tasks of a scan meet in the order they end.
    - The texts of errors that carry no decision are left out.

    ** Not modelled

    The HTTP API (routing and serialisation over the services above), the transport
    to the Matter sidecar (framing over pipes and process supervision) and the
    fallback of the Shelly discovery that reads the output of a macOS tool are not
    modelled. Secret stores, migrations, backups, the command-line program, scripts
    and documentation are input and output around the decisions above.

    ** This file

    The result type and error monad of Rust's [Result], machine-width arithmetic
    ([u16], [u32], [u64], [i64]), instants, and the automation (tactics, hint
    database) every component file uses. *)

From stdpp Require Export base tactics gmap strings list list_numbers pretty sets.
From Stdlib Require Export ZArith NArith Lia.

#[export] Set Default Goal Selector "!".

Declare Scope hm_scope.
Delimit Scope hm_scope with hm.

Create HintDb hm discriminated.


(** ** Results *)

(** Rust's [Result<A, E>]. *)
Inductive result (A E : Type) : Type :=
| Ok (value : A)
| Err (error : E).
Arguments Ok {A E} value.
Arguments Err {A E} error.

Definition result_bind {A B E : Type} (m : result A E) (k : A -> result B E) : result B E :=
  match m with Ok a => k a | Err e => Err e end.

Definition result_ok {A E : Type} (m : result A E) : option A :=
  match m with Ok a => Some a | Err _ => None end.

Definition is_ok {A E : Type} (m : result A E) : bool :=
  match m with Ok _ => true | Err _ => false end.

Definition ok_or {A E : Type} (o : option A) (e : E) : result A E :=
  match o with Some a => Ok a | None => Err e end.

Definition map_err {A E F : Type} (f : E -> F) (m : result A E) : result A F :=
  match m with Ok a => Ok a | Err e => Err (f e) end.

Notation "'let?' x ':=' m 'in' k" := (result_bind m (fun x => k))
  (at level 10, x pattern, m at level 100, k at level 200) : hm_scope.
Notation "'guard?' b 'else' e 'in' k" := (if b then k else Err e)
  (at level 10, b at level 100, e at level 100, k at level 200) : hm_scope.
Open Scope hm_scope.

#[export] Instance result_eq_dec {A E : Type} `{EqDecision A, EqDecision E} :
  EqDecision (result A E).
Proof. solve_decision. Defined.

Lemma result_bind_ok {A B E} (m : result A E) (k : A -> result B E) b :
  result_bind m k = Ok b -> exists a, m = Ok a /\ k a = Ok b.
Proof. destruct m as [a|e]; simpl; [eauto | discriminate]. Qed.

Lemma ok_or_ok {A E} (o : option A) (e : E) a : ok_or o e = Ok a -> o = Some a.
Proof. destruct o; simpl; congruence. Qed.

(** A [for] loop that carries a state and leaves at the first error. *)
Fixpoint try_fold {A S E : Type} (f : S -> A -> result S E) (s : S) (l : list A) : result S E :=
  match l with
  | [] => Ok s
  | a :: l => let? s := f s a in try_fold f s l
  end.

Lemma try_fold_app {A S E} (f : S -> A -> result S E) s l k :
  try_fold f s (l ++ k) = let? s := try_fold f s l in try_fold f s k.
Proof. revert s. induction l as [|a l IH]; intros s; simpl; [done|]. destruct (f s a); [apply IH|done]. Qed.

(** What every round establishes from a preserved relation to the start. *)
Lemma try_fold_rel {A S E} (f : S -> A -> result S E) (R : S -> S -> Prop) :
  (forall s, R s s) -> (forall s t u, R s t -> R t u -> R s u) ->
  (forall s a t, f s a = Ok t -> R s t) ->
  forall l s t, try_fold f s l = Ok t -> R s t.
Proof.
  intros Hr Ht Hf l. induction l as [|a l IH]; simpl; intros s t H; [by injection H as <-|].
  apply result_bind_ok in H as (u & Hu & H). eauto.
Qed.

Lemma try_fold_inv {A S E} (f : S -> A -> result S E) (I : S -> Prop) l :
  (forall s a t, In a l -> I s -> f s a = Ok t -> I t) ->
  forall s t, I s -> try_fold f s l = Ok t -> I t.
Proof.
  induction l as [|a l IH]; simpl; intros Hf s t Hs H; [by injection H as <-|].
  apply result_bind_ok in H as (u & Hu & H). eapply IH; [|by eapply Hf; [left|..]|done].
  intros. eapply Hf; eauto.
Qed.

(** The derived [PartialEq] of [Vec] and [Option]. *)
Fixpoint list_eqb {A : Type} (eqb : A -> A -> bool) (l k : list A) : bool :=
  match l, k with
  | [], [] => true
  | a :: l, b :: k => eqb a b && list_eqb eqb l k
  | _, _ => false
  end.

Definition option_eqb {A : Type} (eqb : A -> A -> bool) (a b : option A) : bool :=
  match a, b with
  | None, None => true
  | Some a, Some b => eqb a b
  | _, _ => false
  end.

(** Inversion of a computation that returned [Ok], and of boolean tests. *)
Ltac ok_step :=
  match goal with
  | H : result_bind _ _ = Ok _ |- _ => apply result_bind_ok in H as (? & ? & H)
  | H : ok_or _ _ = Ok _ |- _ => apply ok_or_ok in H
  | H : (if ?b then _ else Err _) = Ok _ |- _ =>
      let E := fresh "E" in destruct b eqn:E; [|discriminate H]
  | H : (if ?b then Err _ else _) = Ok _ |- _ =>
      let E := fresh "E" in destruct b eqn:E; [discriminate H|]
  | H : Ok _ = Ok _ |- _ => injection H; clear H; intros; subst
  | H : Err _ = Ok _ |- _ => discriminate H
  | x : unit |- _ => destruct x
  end.
Ltac ok_inv := repeat ok_step.

Ltac bool_step :=
  match goal with
  | H : negb _ = true |- _ => apply negb_true_iff in H
  | H : negb _ = false |- _ => apply negb_false_iff in H
  | H : andb _ _ = true |- _ => apply andb_true_iff in H as [? ?]
  | H : orb _ _ = false |- _ => apply orb_false_iff in H as [? ?]
  | H : andb _ _ = false |- _ => apply andb_false_iff in H
  | H : orb _ _ = true |- _ => apply orb_true_iff in H
  | H : bool_decide _ = true |- _ => apply bool_decide_eq_true in H
  | H : bool_decide _ = false |- _ => apply bool_decide_eq_false in H
  | H : String.eqb _ _ = true |- _ => apply String.eqb_eq in H
  | H : String.eqb _ _ = false |- _ => apply String.eqb_neq in H
  | H : N.eqb _ _ = true |- _ => apply N.eqb_eq in H
  | H : N.eqb _ _ = false |- _ => apply N.eqb_neq in H
  | H : Z.eqb _ _ = true |- _ => apply Z.eqb_eq in H
  | H : Z.leb _ _ = true |- _ => apply Z.leb_le in H
  | H : Z.leb _ _ = false |- _ => apply Z.leb_gt in H
  | H : Z.ltb _ _ = true |- _ => apply Z.ltb_lt in H
  | H : Z.ltb _ _ = false |- _ => apply Z.ltb_ge in H
  | H : N.leb _ _ = true |- _ => apply N.leb_le in H
  | H : N.leb _ _ = false |- _ => apply N.leb_gt in H
  | H : N.ltb _ _ = true |- _ => apply N.ltb_lt in H
  | H : N.ltb _ _ = false |- _ => apply N.ltb_ge in H
  end.
Ltac bool_inv := repeat bool_step.

(** ** Machine integers *)

Definition u16_max : N := 65535.
Definition u32_max : N := 4294967295.
Definition u64_max : N := 18446744073709551615.
Definition i64_max : Z := 9223372036854775807.
Definition i64_min : Z := -9223372036854775808.

(** [u64::saturating_add], [u32::saturating_add], [u16::saturating_add]. *)
Definition u64_saturating_add (a b : N) : N := N.min (a + b) u64_max.
Definition u32_saturating_add (a b : N) : N := N.min (a + b) u32_max.
Definition u16_saturating_add (a b : N) : N := N.min (a + b) u16_max.

(** [u64::saturating_mul] and [u8::saturating_add]. *)
Definition u64_saturating_mul (a b : N) : N := N.min (a * b) u64_max.
Definition u8_saturating_add (a b : N) : N := N.min (a + b) 255.

(** [u64::checked_add]. *)
Definition u64_checked_add (a b : N) : option N :=
  if N.leb (a + b) u64_max then Some (a + b)%N else None.

(** The [+] operator on [u16], as a release build executes it. *)
Definition u16_wrapping_add (a b : N) : N := N.modulo (a + b) 65536.

(** [i64::try_from(u64)]. *)
Definition i64_try_from_u64 (a : N) : option Z :=
  if Z.leb (Z.of_N a) i64_max then Some (Z.of_N a) else None.

(** [u32::try_from(usize)] and [u16::try_from(usize)]. *)
Definition u32_try_from_usize (a : nat) : option N :=
  if N.leb (N.of_nat a) u32_max then Some (N.of_nat a) else None.
Definition u16_try_from_usize (a : nat) : option N :=
  if N.leb (N.of_nat a) u16_max then Some (N.of_nat a) else None.

(** [u64::try_from(i64)]. *)
Definition u64_try_from_i64 (a : Z) : option N :=
  if Z.leb 0 a then Some (Z.to_N a) else None.

Lemma u64_saturating_add_le a b : (u64_saturating_add a b <= u64_max)%N.
Proof. unfold u64_saturating_add. lia. Qed.

Lemma u64_saturating_succ a : (a < u64_max)%N -> u64_saturating_add a 1 = (a + 1)%N.
Proof. unfold u64_saturating_add. lia. Qed.

#[export] Hint Resolve u64_saturating_add_le : hm.

(** ** Instants *)

(** A [DateTime<Utc>] or a [TimeDelta]: nanoseconds, from the Unix epoch for
    an instant.  Comparison and subtraction are the integer operations. *)
Abbreviation Instant := Z.
Abbreviation TimeDelta := Z.

Definition nanos_per_milli : Z := 1000000.
Definition nanos_per_second : Z := 1000000000.

(** [TimeDelta::milliseconds] and [TimeDelta::seconds]. *)
Definition delta_millis (ms : Z) : TimeDelta := (ms * nanos_per_milli)%Z.
Definition delta_seconds (s : Z) : TimeDelta := (s * nanos_per_second)%Z.

(** [TimeDelta::num_seconds] truncates toward zero. *)
Definition num_seconds (d : TimeDelta) : Z := Z.quot d nanos_per_second.

(** [DateTime::timestamp_millis] floors. *)
Definition timestamp_millis (t : Instant) : Z := Z.div t nanos_per_milli.

(** The date library's checked addition.  It is third-party code: the
    development only relies on a successful result being the exact sum. *)
Class Chrono := {
  checked_add_signed : Instant -> TimeDelta -> option Instant;
  checked_add_signed_exact :
    forall t d r, checked_add_signed t d = Some r -> r = (t + d)%Z
}.

(** The documented range of the date library, used by the witnesses. *)
Definition chrono_min : Z := -8334601228800000000000.
Definition chrono_max : Z := 8210266876799999999999.

Definition ranged_add (t : Instant) (d : TimeDelta) : option Instant :=
  if (Z.leb chrono_min (t + d) && Z.leb (t + d) chrono_max)%bool
  then Some (t + d)%Z else None.

Lemma ranged_add_exact t d r : ranged_add t d = Some r -> r = (t + d)%Z.
Proof. unfold ranged_add. case_match; congruence. Qed.

Definition ranged_chrono : Chrono :=
  {| checked_add_signed := ranged_add; checked_add_signed_exact := ranged_add_exact |}.
