(* ===== verification/Text.v ===== *)
(** Rust text.  A [String] or [&str] is its UTF-8 bytes, as Stdlib's
    [string]; operations that work on [char]s decode it first.  Holds the
    string operations of the Rust standard library the program uses, the
    lemmas on them the components share, and the hexadecimal rendering of
    digests (the function [hex] of
    [crates/homemagic-application/src/command_service.rs] and of
    [crates/homemagic-domain/src/automation.rs]) with its inverse; the digest
    itself is a parameter. *)

From Stdlib Require Export Ascii.
From S2P Require Import Prelude.

Local Open Scope N_scope.

Definition byte_of (a : ascii) : N := N_of_ascii a.

Fixpoint bytes (s : string) : list N :=
  match s with
  | EmptyString => []
  | String a s => byte_of a :: bytes s
  end.

Definition continuation (b : N) : bool := (128 <=? b) && (b <? 192).

Fixpoint take_continuation (n : nat) (acc : N) (bs : list N) : N :=
  match n, bs with
  | S n, b :: bs => take_continuation n (acc * 64 + N.modulo b 64) bs
  | _, _ => acc
  end.

(** [str::chars]: the scalar value of every character, read at each lead
    byte of (valid) UTF-8; continuation bytes start no character. *)
Fixpoint chars_of (bs : list N) : list N :=
  match bs with
  | [] => []
  | b :: rest =>
      if b <? 128 then b :: chars_of rest
      else if b <? 192 then chars_of rest
      else if b <? 224 then take_continuation 1 (N.modulo b 32) rest :: chars_of rest
      else if b <? 240 then take_continuation 2 (N.modulo b 16) rest :: chars_of rest
      else take_continuation 3 (N.modulo b 8) rest :: chars_of rest
  end.

Definition chars (s : string) : list N := chars_of (bytes s).

(** [char::is_control]: the general category Cc. *)
Definition is_control (c : N) : bool := (c <? 32) || ((127 <=? c) && (c <? 160)).

(** [char::is_whitespace]: the Unicode property White_Space. *)
Definition is_whitespace (c : N) : bool :=
  ((9 <=? c) && (c <=? 13)) || (c =? 32) || (c =? 133) || (c =? 160) || (c =? 5760)
  || ((8192 <=? c) && (c <=? 8202)) || (c =? 8232) || (c =? 8233) || (c =? 8239)
  || (c =? 8287) || (c =? 12288).

(** [value.trim().is_empty()]. *)
Definition trim_is_empty (s : string) : bool := forallb is_whitespace (chars s).

(** The text of every character, by the lead bytes of (valid) UTF-8. *)
Fixpoint pieces (s : string) : list string :=
  match s with
  | EmptyString => []
  | String a s =>
      match pieces s with
      | String b p :: ps =>
          if continuation (byte_of b) then String a (String b p) :: ps
          else String a EmptyString :: String b p :: ps
      | ps => String a EmptyString :: ps
      end
  end.

Fixpoint drop_whitespace (ps : list string) : list string :=
  match ps with
  | [] => []
  | p :: rest => if trim_is_empty p then drop_whitespace rest else ps
  end.

(** [str::trim]. *)
Definition trim (s : string) : string :=
  foldr String.append EmptyString
    (rev (drop_whitespace (rev (drop_whitespace (pieces s))))).

(** [str::split_whitespace().count()]: the maximal runs of other characters. *)
Fixpoint count_words (inside : bool) (cs : list N) : nat :=
  match cs with
  | [] => 0
  | c :: cs =>
      if is_whitespace c then count_words false cs
      else if inside then count_words true cs else S (count_words true cs)
  end.

Definition split_whitespace_count (s : string) : nat := count_words false (chars s).

(** [u8::is_ascii_digit], [u8::is_ascii_uppercase], [u8::is_ascii_hexdigit]. *)
Definition is_ascii_digit (b : N) : bool := (48 <=? b) && (b <=? 57).
Definition is_ascii_uppercase (b : N) : bool := (65 <=? b) && (b <=? 90).
Definition is_ascii_hexdigit (b : N) : bool :=
  is_ascii_digit b || ((97 <=? b) && (b <=? 102)) || ((65 <=? b) && (b <=? 70)).

(** [str::to_ascii_lowercase]. *)
Definition ascii_lower (a : ascii) : ascii :=
  if is_ascii_uppercase (byte_of a) then ascii_of_N (byte_of a + 32) else a.

Fixpoint to_ascii_lowercase (s : string) : string :=
  match s with
  | EmptyString => EmptyString
  | String a s => String (ascii_lower a) (to_ascii_lowercase s)
  end.

(** [str::starts_with], [str::strip_prefix], [str::contains], [str::ends_with]. *)
Definition starts_with (p s : string) : bool := String.prefix p s.

Fixpoint strip_prefix (p s : string) : option string :=
  match p, s with
  | EmptyString, _ => Some s
  | String a p, String b s => if Ascii.eqb a b then strip_prefix p s else None
  | String _ _, EmptyString => None
  end.

Fixpoint contains (needle s : string) : bool :=
  String.prefix needle s
  || match s with EmptyString => false | String _ s => contains needle s end.

Fixpoint ends_with (suffix s : string) : bool :=
  String.eqb suffix s
  || match s with EmptyString => false | String _ s => ends_with suffix s end.

Fixpoint strip_suffix (suffix s : string) : option string :=
  if String.eqb suffix s then Some EmptyString
  else match s with
       | EmptyString => None
       | String a s => String a <$> strip_suffix suffix s
       end.

(** [str::split(char)]: the pieces between the separators. *)
Fixpoint split_on (sep : ascii) (s : string) : list string :=
  match s with
  | EmptyString => [EmptyString]
  | String a s =>
      if Ascii.eqb a sep then EmptyString :: split_on sep s
      else match split_on sep s with
           | piece :: pieces => String a piece :: pieces
           | [] => [String a EmptyString]
           end
  end.

(** [str::replace(char, &str)]. *)
Fixpoint replace_char (c : ascii) (by_ : string) (s : string) : string :=
  match s with
  | EmptyString => EmptyString
  | String a s =>
      if Ascii.eqb a c then by_ +:+ replace_char c by_ s
      else String a (replace_char c by_ s)
  end.

(** Byte-wise comparison, the [Ord] of [str] and of canonical UUID text. *)
Definition str_ltb (a b : string) : bool := String.ltb a b.
Definition str_leb (a b : string) : bool := String.leb a b.

(** Decimal rendering of an unsigned integer, as [format!] prints it. *)
Definition show_N (n : N) : string := pretty n.
Definition show_nat (n : nat) : string := pretty (N.of_nat n).
Definition show_Z (z : Z) : string := pretty z.

(** ** Lemmas *)

Lemma bytes_app s t : bytes (s +:+ t) = bytes s ++ bytes t.
Proof. induction s as [|a s IH]; simpl; [done | by rewrite IH]. Qed.

Lemma strip_prefix_app p s : strip_prefix p (p +:+ s) = Some s.
Proof. induction p as [|a p IH]; simpl; [done | by rewrite Ascii.eqb_refl]. Qed.

Lemma byte_of_inj a b : byte_of a = byte_of b -> a = b.
Proof.
  unfold byte_of. intros H. rewrite <- (ascii_N_embedding a), <- (ascii_N_embedding b).
  by rewrite H.
Qed.

Lemma bytes_inj s t : bytes s = bytes t -> s = t.
Proof.
  revert t. induction s as [|a s IH]; intros [|b t]; simpl; try congruence.
  intros [= Hb Hs]. f_equal; [by apply byte_of_inj | by apply IH].
Qed.

Lemma chars_ascii s :
  Forall (fun b => b < 128) (bytes s) -> chars s = bytes s.
Proof.
  unfold chars. induction (bytes s) as [|b bs IH]; [done|].
  intros [Hb Hbs]%Forall_cons. simpl.
  assert ((b <? 128) = true) as -> by (by apply N.ltb_lt). by rewrite IH.
Qed.

(** The pieces of a text between its separators put together again. *)
Fixpoint join_on (sep : ascii) (pieces : list string) : string :=
  match pieces with
  | [] => EmptyString
  | [piece] => piece
  | piece :: pieces => piece +:+ String sep (join_on sep pieces)
  end.

Lemma split_on_nonempty sep s : split_on sep s <> [].
Proof. destruct s as [|a s]; simpl; [done|]. destruct (Ascii.eqb a sep); [done|]. by destruct (split_on sep s). Qed.

Lemma join_split_on sep s : join_on sep (split_on sep s) = s.
Proof.
  induction s as [|a s IH]; [done|]. simpl.
  pose proof (split_on_nonempty sep s) as Hne.
  destruct (Ascii.eqb_spec a sep) as [->|_]; destruct (split_on sep s) as [|q qs]; try done.
  - simpl in *. by rewrite IH.
  - rewrite <- IH. by destruct qs.
Qed.

Lemma split_on_app sep s t : split_on sep (s +:+ String sep t) = split_on sep s ++ split_on sep t.
Proof.
  induction s as [|a s IH]; simpl; [by rewrite Ascii.eqb_refl|].
  rewrite IH. destruct (Ascii.eqb a sep); [done|].
  pose proof (split_on_nonempty sep s). by destruct (split_on sep s).
Qed.

Lemma split_on_none sep s :
  Forall (fun b => b <> byte_of sep) (bytes s) -> split_on sep s = [s].
Proof.
  induction s as [|a s IH]; simpl; [done|]. intros [Ha Hs]%Forall_cons.
  destruct (Ascii.eqb_spec a sep) as [->|_]; [done|]. by rewrite IH.
Qed.

Example chars_two : chars (String "226" (String "130" (String "172" "x"))) = [8364; 120].
Proof. reflexivity. Qed.
Example trim_two : trim_is_empty (String "194" (String "160" "  ")) = true.
Proof. reflexivity. Qed.
Example words_two : split_whitespace_count " 0 18  * * *" = 5%nat.
Proof. reflexivity. Qed.

Local Close Scope N_scope.

(** The SHA-256 of the digest library: 32 bytes. *)
Class Sha256 := {
  sha256 : list N -> list N;
  sha256_length : forall l, length (sha256 l) = 32;
  sha256_bytes : forall l, Forall (fun b => (b < 256)%N) (sha256 l)
}.

(** [hex]: two lower-case digits per byte. *)
Definition hex_digit (n : N) : ascii :=
  match String.get (N.to_nat n) "0123456789abcdef" with Some a => a | None => "0"%char end.

Definition hex (bytes : list N) : string :=
  String.string_of_list_ascii (flat_map (fun byte =>
    [hex_digit (N.shiftr byte 4); hex_digit (N.land byte 15)]) bytes).

(** ** Lemmas *)

(** Reading hexadecimal digits back. *)
Definition unhex_digit (a : ascii) : N :=
  let n := byte_of a in if (n <? 58)%N then (n - 48)%N else (n - 87)%N.

Fixpoint unhex (text : string) : list N :=
  match text with
  | String high (String low text) => (unhex_digit high * 16 + unhex_digit low)%N :: unhex text
  | _ => []
  end.

(** A property of bytes that evaluates to true on each of them. *)
Lemma every_byte (f : N -> bool) :
  forallb f (map N.of_nat (seq 0 256)) = true -> forall b, (b < 256)%N -> f b = true.
Proof.
  intros Hf b Hb. rewrite forallb_forall in Hf. apply Hf, in_map_iff.
  exists (N.to_nat b). split; [apply N2Nat.id|]. apply in_seq. lia.
Qed.

Definition digit_ok (a : ascii) : bool :=
  is_ascii_hexdigit (byte_of a) && negb (is_ascii_uppercase (byte_of a)).

Definition high_digit (b : N) : ascii := hex_digit (N.shiftr b 4).
Definition low_digit (b : N) : ascii := hex_digit (N.land b 15).

Lemma hex_cons b bs : hex (b :: bs) = String (high_digit b) (String (low_digit b) (hex bs)).
Proof. reflexivity. Qed.

Lemma digits_ok b :
  (b < 256)%N ->
  digit_ok (high_digit b) = true /\ digit_ok (low_digit b) = true /\
  (unhex_digit (high_digit b) * 16 + unhex_digit (low_digit b))%N = b.
Proof.
  intros Hb. pose proof (every_byte (fun b => digit_ok (high_digit b) && digit_ok (low_digit b)
    && N.eqb (unhex_digit (high_digit b) * 16 + unhex_digit (low_digit b)) b)
    ltac:(vm_compute; reflexivity) b Hb) as H. simpl in H. bool_inv. done.
Qed.

Lemma lower_digit a : digit_ok a = true -> ascii_lower a = a.
Proof. unfold digit_ok, ascii_lower. intros [_ Hu%negb_true_iff]%andb_true_iff. by rewrite Hu. Qed.

Lemma hex_length bs : String.length (hex bs) = 2 * length bs.
Proof. induction bs as [|b bs IH]; [done|]. rewrite hex_cons. simpl String.length. rewrite IH. simpl. lia. Qed.

Lemma unhex_hex bs : Forall (fun b => (b < 256)%N) bs -> unhex (hex bs) = bs.
Proof.
  induction 1 as [|b bs Hb _ IH]; [done|]. rewrite hex_cons. simpl unhex.
  destruct (digits_ok b Hb) as (_ & _ & Hd). by rewrite IH, Hd.
Qed.

Lemma hex_lower bs : Forall (fun b => (b < 256)%N) bs -> to_ascii_lowercase (hex bs) = hex bs.
Proof.
  induction 1 as [|b bs Hb _ IH]; [done|]. rewrite hex_cons. simpl to_ascii_lowercase.
  destruct (digits_ok b Hb) as (H1 & H2 & _). by rewrite IH, !lower_digit.
Qed.

Lemma hex_bytes bs :
  Forall (fun b => (b < 256)%N) bs ->
  forallb is_ascii_hexdigit (bytes (hex bs)) = true /\
  existsb is_ascii_uppercase (bytes (hex bs)) = false.
Proof.
  induction 1 as [|b bs Hb _ [IH1 IH2]]; [done|]. rewrite hex_cons.
  destruct (digits_ok b Hb) as (H1 & H2 & _). unfold digit_ok in *. bool_inv.
  cbn [bytes forallb existsb].
  split; [by rewrite IH1; repeat match goal with H : _ = true |- _ => rewrite H end|].
  by rewrite IH2; repeat match goal with H : is_ascii_uppercase _ = false |- _ => rewrite H end.
Qed.

Lemma digit_back a : digit_ok a = true -> (unhex_digit a < 16)%N /\ hex_digit (unhex_digit a) = a.
Proof.
  intros Ha.
  pose proof (every_byte (fun b => negb (digit_ok (ascii_of_N b)) ||
    ((unhex_digit (ascii_of_N b) <? 16)%N
     && Ascii.eqb (hex_digit (unhex_digit (ascii_of_N b))) (ascii_of_N b)))
    ltac:(vm_compute; reflexivity) (N_of_ascii a) (N_ascii_bounded a)) as H.
  cbv beta in H. rewrite ascii_N_embedding, Ha in H. cbn [negb orb] in H.
  apply andb_true_iff in H as [H1%N.ltb_lt H2%Ascii.eqb_eq]. done.
Qed.

Lemma nibbles (h l : N) : (h < 16)%N -> (l < 16)%N ->
  N.shiftr (h * 16 + l) 4 = h /\ N.land (h * 16 + l) 15 = l.
Proof.
  intros Hh Hl. rewrite N.shiftr_div_pow2. change 15%N with (N.ones 4). rewrite N.land_ones.
  change (2 ^ 4)%N with 16%N. split.
  - rewrite N.div_add_l by done. by rewrite (N.div_small l 16), N.add_0_r.
  - rewrite N.add_comm, N.Div0.mod_add. by apply N.mod_small.
Qed.

(** Lower-case digits of an even number are the digits of their bytes. *)
Lemma hex_unhex n text :
  String.length text = 2 * n ->
  forallb is_ascii_hexdigit (bytes text) = true -> existsb is_ascii_uppercase (bytes text) = false ->
  hex (unhex text) = text /\ length (unhex text) = n /\ Forall (fun b => (b < 256)%N) (unhex text).
Proof.
  revert text. induction n as [|n IH]; intros [|a [|b text]] Hlen Hd Hu; cbn [String.length] in Hlen; try lia.
  - by repeat split.
  - cbn [bytes forallb existsb] in Hd, Hu.
    apply andb_true_iff in Hd as [Ha [Hb Hd]%andb_true_iff].
    apply orb_false_iff in Hu as [Ha' [Hb' Hu]%orb_false_iff].
    destruct (IH text) as (IH1 & IH2 & IH3); [lia|done..|].
    destruct (digit_back a) as [Hla Hba]; [unfold digit_ok; by rewrite Ha, Ha'|].
    destruct (digit_back b) as [Hlb Hbb]; [unfold digit_ok; by rewrite Hb, Hb'|].
    destruct (nibbles _ _ Hla Hlb) as [H1 H2].
    cbn [unhex length]. rewrite hex_cons. unfold high_digit, low_digit.
    rewrite H1, H2, Hba, Hbb, IH1. split; [done|]. split; [lia|]. constructor; [lia|done].
Qed.

Lemma hex_no_dot bs : Forall (fun b => (b < 256)%N) bs -> split_on "." (hex bs) = [hex bs].
Proof.
  intros [H _]%hex_bytes. apply split_on_none, Forall_forall. intros b Hb ->.
  rewrite forallb_forall in H. apply list_elem_of_In in Hb. apply H in Hb. by vm_compute in Hb.
Qed.
