(* ===== verification/Float.v ===== *)
(** Rust's [f64] and [Duration].  A number is a binary64 of the Standard
    Library's [SpecFloat], rounded to nearest with ties to even; as data it is its
    bit pattern.  Holds parsing ([str::parse::<f64>]), comparison
    ([f64::partial_cmp]), the shortest decimal text of [Display], and the
    durations of the Rust standard library with their conversions. *)

From Stdlib Require Import SpecFloat.
From S2P Require Import Prelude Text.

Abbreviation f64 := spec_float (only parsing).

Definition f64_prec : Z := 53.
Definition f64_emax : Z := 1024.

(** The value of a run of digits, their number, and the rest. *)
Fixpoint take_digits (value : N) (count : nat) (bs : list N) : N * nat * list N :=
  match bs with
  | b :: rest => if is_ascii_digit b then take_digits (10 * value + (b - 48)) (S count) rest
                 else (value, count, bs)
  | [] => (value, count, [])
  end.

(** The digits of an exponent; a value beyond 16 bits stops growing. *)
Fixpoint exponent_digits (value : N) (bs : list N) : option N :=
  match bs with
  | [] => Some value
  | b :: rest =>
      if is_ascii_digit b
      then exponent_digits (if N.ltb value 65536 then 10 * value + (b - 48) else value)%N rest
      else None
  end.

(** A leading [-] or [+]. *)
Definition take_sign (bs : list N) : bool * list N :=
  match bs with
  | 45%N :: rest => (true, rest)
  | 43%N :: rest => (false, rest)
  | _ => (false, bs)
  end.

(** The exponent part after the mantissa, which ends the text. *)
Definition parse_exponent (bs : list N) : option Z :=
  match bs with
  | [] => Some 0%Z
  | b :: rest =>
      if N.eqb b 101 || N.eqb b 69 then
        let '(negative, rest) := take_sign rest in
        match rest with
        | [] => None
        | _ => value ← exponent_digits 0 rest;
               Some (if negative then - Z.of_N value else Z.of_N value)%Z
        end
      else None
  end.

(** [parse_number]: the decimal mantissa and exponent. *)
Definition parse_number (bs : list N) : option (N * Z) :=
  let '(integral, before, rest) := take_digits 0 0 bs in
  let '(mantissa, fraction, rest) :=
    match rest with
    | 46%N :: rest => let '(mantissa, after, rest) := take_digits integral 0 rest in (mantissa, after, rest)
    | _ => (integral, 0, rest)
    end in
  if (before + fraction =? 0) then None
  else exponent ← parse_exponent rest; Some (mantissa, (exponent - Z.of_nat fraction)%Z).

(** The nearest binary64 of [mantissa * 10 ^ exponent]. *)
Definition f64_of_decimal (negative : bool) (mantissa : N) (exponent : Z) : f64 :=
  match mantissa with
  | 0%N => S754_zero negative
  | Npos m =>
      if (0 <=? exponent)%Z then
        binary_normalize f64_prec f64_emax
          ((if negative then Z.neg m else Z.pos m) * 10 ^ exponent)%Z 0 negative
      else match (10 ^ (- exponent))%Z with
           | Zpos d => SFdiv f64_prec f64_emax (S754_finite negative m 0) (S754_finite false d 0)
           | _ => S754_nan
           end
  end.

Definition parse_inf_nan (bs : list N) (negative : bool) : option f64 :=
  let lower := map (fun b => if (65 <=? b)%N && (b <=? 90)%N then (b + 32)%N else b) bs in
  if bool_decide (lower = bytes "nan") then Some S754_nan
  else if bool_decide (lower = bytes "inf") || bool_decide (lower = bytes "infinity")
  then Some (S754_infinity negative) else None.

Definition parse_f64 (text : string) : option f64 :=
  let '(negative, bs) := take_sign (bytes text) in
  match bs with
  | [] => None
  | _ => match parse_number bs with
         | Some (mantissa, exponent) => Some (f64_of_decimal negative mantissa exponent)
         | None => parse_inf_nan bs negative
         end
  end.

Definition partial_cmp (a b : f64) : option comparison := SFcompare a b.

Example parse_tenth : parse_f64 "0.1" = Some (S754_finite false 7205759403792794 (-56)).
Proof. vm_compute. reflexivity. Qed.

Example parse_edges : map parse_f64 ["-"; "1e"; "."; "-.5E1"; "-inf"; "1e400"; "5e-324"] =
  [None; None; None; Some (S754_finite true 5629499534213120 (-50)); Some (S754_infinity true);
   Some (S754_infinity false); Some (S754_finite false 1 (-1074))].
Proof. vm_compute. reflexivity. Qed.

(** Texts of different decimals can denote one number. *)
Example parse_collapses : parse_f64 "0.1" = parse_f64 "0.10000000000000000001".
Proof. vm_compute. reflexivity. Qed.

(** ** Bit patterns *)

Definition f64_of_bits (bits : N) : f64 :=
  let negative := N.testbit bits 63 in
  let exponent := N.modulo (bits / 2 ^ 52) 2048 in
  let fraction := N.modulo bits (2 ^ 52) in
  if N.eqb exponent 2047 then
    if N.eqb fraction 0 then S754_infinity negative else S754_nan
  else if N.eqb exponent 0 then
    match fraction with
    | 0%N => S754_zero negative
    | Npos m => S754_finite negative m (-1074)
    end
  else match (fraction + 2 ^ 52)%N with
       | 0%N => S754_nan
       | Npos m => S754_finite negative m (Z.of_N exponent - 1075)
       end.

Definition bits_of_f64 (x : f64) : N :=
  let sign (negative : bool) := if negative then (2 ^ 63)%N else 0%N in
  match x with
  | S754_zero s => sign s
  | S754_infinity s => sign s + 2047 * 2 ^ 52
  | S754_nan => 2047 * 2 ^ 52 + 2 ^ 51
  | S754_finite s m e =>
      sign s + (if N.ltb (Npos m) (2 ^ 52) then Npos m
                else Z.to_N (e + 1075) * 2 ^ 52 + (Npos m - 2 ^ 52))
  end%N.

(** ** Arithmetic and comparison *)

Definition f64_of_Z (z : Z) : f64 := binary_normalize f64_prec f64_emax z 0 false.
Definition f64_of_N (n : N) : f64 := f64_of_Z (Z.of_N n).
Definition f64_add : f64 -> f64 -> f64 := SFadd f64_prec f64_emax.
Definition f64_sub : f64 -> f64 -> f64 := SFsub f64_prec f64_emax.
Definition f64_mul : f64 -> f64 -> f64 := SFmul f64_prec f64_emax.
Definition f64_div : f64 -> f64 -> f64 := SFdiv f64_prec f64_emax.
Definition f64_abs : f64 -> f64 := SFabs.

(** A comparison with a NaN is false. *)
Definition f64_leb (a b : f64) : bool := SFleb a b.
Definition f64_ltb (a b : f64) : bool := SFltb a b.

Definition f64_is_finite (x : f64) : bool :=
  match x with S754_zero _ | S754_finite _ _ _ => true | _ => false end.

(** [f64::clamp(low, high)] keeps a NaN. *)
Definition f64_clamp (low high x : f64) : f64 :=
  if f64_ltb x low then low else if f64_ltb high x then high else x.

Definition f64_half : f64 := f64_of_decimal false 5 (-1).
Definition f64_one : f64 := f64_of_N 1.

(** ** Decimal text *)

(** The decimal exponent [p] of a positive fraction: [10 ^ (p - 1) <= n / d < 10 ^ p]. *)
Fixpoint small_exponent (fuel : nat) (n d : Z) : Z :=
  match fuel with
  | O => 0
  | S fuel => if (d <=? n * 10)%Z then 0%Z else (small_exponent fuel (n * 10) d - 1)%Z
  end.

Definition decimal_exponent (n d : Z) : Z :=
  if (d <=? n)%Z then Z.of_nat (String.length (show_Z (n / d))) else small_exponent 400 n d.

Definition f64_same (x y : f64) : bool :=
  match x, y with
  | S754_finite s m e, S754_finite s' m' e' => Bool.eqb s s' && Pos.eqb m m' && Z.eqb e e'
  | _, _ => false
  end.

(** The decimal with [k] digits that reads back as [n / d], the nearer of the
    two around it. *)
Definition decimal_with (x : f64) (n d p : Z) (k : Z) : option (Z * Z) :=
  let exponent := (p - k)%Z in
  let '(n, d) := if (0 <=? exponent)%Z then (n, d * 10 ^ exponent)%Z
                 else (n * 10 ^ (- exponent), d)%Z in
  let below := (n / d)%Z in
  let reads q := (0 <? q)%Z && f64_same (f64_of_decimal false (Z.to_N q) exponent) x in
  let near_above := (d <=? 2 * (n mod d))%Z in
  match reads below, reads (below + 1)%Z with
  | true, true => Some (if near_above then below + 1 else below, exponent)%Z
  | true, false => Some (below, exponent)
  | false, true => Some (below + 1, exponent)%Z
  | false, false => None
  end.

Fixpoint shortest (fuel : nat) (x : f64) (n d p k : Z) : option (Z * Z) :=
  match fuel with
  | O => None
  | S fuel => match decimal_with x n d p k with
              | Some found => Some found
              | None => shortest fuel x n d p (k + 1)
              end
  end.

Fixpoint zeros (n : nat) : string :=
  match n with O => EmptyString | S n => String "0" (zeros n) end.

(** Digits with a decimal point, and no exponent. *)
Definition render_decimal (digits : string) (exponent : Z) : string :=
  let length := Z.of_nat (String.length digits) in
  let point := (length + exponent)%Z in
  if (0 <=? exponent)%Z then digits +:+ zeros (Z.to_nat exponent)
  else if (point <=? 0)%Z then "0." +:+ zeros (Z.to_nat (- point)) +:+ digits
  else String.substring 0 (Z.to_nat point) digits +:+ "."
       +:+ String.substring (Z.to_nat point) (Z.to_nat (- exponent)) digits.

(** [Display]: the shortest decimal that reads back; seventeen digits always
    do. *)
Definition show_f64 (x : f64) : string :=
  let signed (negative : bool) text := if negative then "-" +:+ text else text in
  match x with
  | S754_nan => "NaN"
  | S754_infinity s => signed s "inf"
  | S754_zero s => signed s "0"
  | S754_finite s m e =>
      let '(n, d) := if (0 <=? e)%Z then (Z.pos m * 2 ^ e, 1)%Z else (Z.pos m, 2 ^ (- e))%Z in
      match shortest 17 (S754_finite false m e) n d (decimal_exponent n d) 1 with
      | Some (q, exponent) => signed s (render_decimal (show_Z q) exponent)
      | None => EmptyString
      end
  end.

Example shown_numbers :
  map (fun text => show_f64 <$> parse_f64 text)
    ["0.1"; "1700000000.25"; "-12.5"; "1e21"; "5e-7"; "9007199254740993"; "-0"; "123456789.10"] =
  [Some "0.1"; Some "1700000000.25"; Some "-12.5"; Some "1000000000000000000000"; Some "0.0000005";
   Some "9007199254740992"; Some "-0"; Some "123456789.1"]%string.
Proof. vm_compute. reflexivity. Qed.

Example bits_read :
  map (fun text => f64_of_bits <$> (bits_of_f64 <$> parse_f64 text)) ["0.1"; "-2"; "5e-324"; "inf"; "0"] =
  map parse_f64 ["0.1"; "-2"; "5e-324"; "inf"; "0"].
Proof. vm_compute. reflexivity. Qed.

(** ** Durations *)

(** A [Duration] is its nanoseconds: at most [u64::MAX] seconds and 999999999. *)
Abbreviation Duration := N (only parsing).

Definition nanos_in_second : N := 1000000000.
Definition duration_max : Duration := (u64_max * nanos_in_second + 999999999)%N.

Definition duration_secs (seconds : N) : Duration := (seconds * nanos_in_second)%N.

Definition duration_checked_mul (d : Duration) (factor : N) : option Duration :=
  if (d * factor <=? duration_max)%N then Some (d * factor)%N else None.

Definition duration_saturating_add (a b : Duration) : Duration := N.min (a + b) duration_max.

Definition as_secs_f64 (d : Duration) : f64 :=
  f64_add (f64_of_N (d / nanos_in_second))
          (f64_div (f64_of_N (d mod nanos_in_second)) (f64_of_N nanos_in_second)).

(** [n / d], ties to even. *)
Definition round_half_even (n d : Z) : Z :=
  let q := (n / d)%Z in
  match Z.compare (2 * (n mod d)) d with
  | Lt => q
  | Gt => q + 1
  | Eq => if Z.even q then q else q + 1
  end%Z.

(** [Duration::try_from_secs_f64]: a negative number, a NaN and [2 ^ 64] seconds or
    more have no duration. *)
Definition try_from_secs_f64 (x : f64) : option Duration :=
  match x with
  | S754_zero _ => Some 0%N
  | S754_finite false m e =>
      let nanos := (Z.pos m * Z.of_N nanos_in_second)%Z in
      if (0 <=? e)%Z then
        if (Z.pos m * 2 ^ e <? 2 ^ 64)%Z then Some (Z.to_N (nanos * 2 ^ e)) else None
      else if (Z.pos m <? 2 ^ 64 * 2 ^ (- e))%Z
      then Some (Z.to_N (round_half_even nanos (2 ^ (- e)))) else None
  | _ => None
  end.

(** [Duration::mul_f64] panics where there is no duration. *)
Definition duration_mul_f64 (d : Duration) (factor : f64) : option Duration :=
  try_from_secs_f64 (f64_mul factor (as_secs_f64 d)).

Example durations :
  map (fun text => x ← parse_f64 text; try_from_secs_f64 x) ["1.5"; "-0"; "-1"; "1e-10"; "18446744073709551616"]
  = [Some 1500000000%N; Some 0%N; None; Some 0%N; None] /\
  (x ← parse_f64 "0.25"; duration_mul_f64 (duration_secs 60) x) = Some (duration_secs 15).
Proof. vm_compute. split; reflexivity. Qed.

(** ** Magnitudes *)

(** A number that is not negative and below [2 ^ k]. *)
Definition below (k : Z) (x : f64) : Prop :=
  match x with
  | S754_zero _ => True
  | S754_finite false m e => (Zpos (digits2_pos m) + e <= k)%Z
  | _ => False
  end.

Lemma below_mono k k' x : (k <= k')%Z -> below k x -> below k' x.
Proof. destruct x as [| | |[] m e]; simpl; try done. lia. Qed.

Section Magnitude.
Local Open Scope Z_scope.

Lemma digits2_size p : digits2_pos p = Pos.size p.
Proof. induction p as [p IH|p IH|]; simpl; [by rewrite IH..|done]. Qed.

Lemma digits_bounds z : 0 < z -> 2 ^ (Zdigits2 z - 1) <= z < 2 ^ Zdigits2 z /\ 0 < Zdigits2 z.
Proof.
  destruct z as [|p|p]; try lia. intros _. simpl. rewrite digits2_size.
  assert (Zpos (Pos.size p) = Z.log2 (Zpos p) + 1) as -> by (destruct p; simpl; lia).
  pose proof (Z.log2_spec (Zpos p) ltac:(lia)). pose proof (Z.log2_nonneg (Zpos p)).
  split; [|lia]. replace (Z.log2 (Zpos p) + 1 - 1) with (Z.log2 (Zpos p)) by lia.
  by rewrite Z.add_1_r.
Qed.

Lemma digits_nonneg z : 0 <= Zdigits2 z.
Proof. by destruct z. Qed.

Lemma digits_le z k : 0 <= z < 2 ^ k -> 0 <= k -> Zdigits2 z <= k.
Proof.
  intros [Hz Hk] H0. destruct (decide (z = 0)) as [->|Hne]; [done|].
  destruct (digits_bounds z) as [[Hl _] Hp]; [lia|].
  assert (Zdigits2 z - 1 < k); [|lia]. apply (Z.pow_lt_mono_r_iff 2); lia.
Qed.

Lemma digits_below z : 0 <= z -> z < 2 ^ Zdigits2 z.
Proof. intros Hz. destruct (decide (z = 0)) as [->|Hne]; [done|]. apply digits_bounds. lia. Qed.

Lemma digits_succ z : 0 <= z -> Zdigits2 (z + 1) <= Zdigits2 z + 1.
Proof.
  intros Hz. pose proof (digits_nonneg z). apply digits_le; [|lia].
  pose proof (digits_below z Hz). rewrite Z.pow_add_r by lia. lia.
Qed.

Lemma digits_mul a b : 0 <= a -> 0 <= b -> Zdigits2 (a * b) <= Zdigits2 a + Zdigits2 b.
Proof.
  intros Ha Hb. pose proof (digits_nonneg a). pose proof (digits_nonneg b). apply digits_le; [|lia].
  pose proof (digits_below a Ha). pose proof (digits_below b Hb). rewrite Z.pow_add_r by lia. nia.
Qed.

Lemma digits_div z n : 0 <= z -> 0 <= n -> Zdigits2 (z / 2 ^ n) <= Z.max 0 (Zdigits2 z - n).
Proof.
  intros Hz Hn. pose proof (digits_below z Hz) as Hd. pose proof (digits_nonneg z) as H0.
  assert (0 < 2 ^ n) as Hp by (apply Z.pow_pos_nonneg; lia).
  apply digits_le; [|lia]. split; [by apply Z.div_pos|]. apply Z.div_lt_upper_bound; [done|].
  destruct (decide (n <= Zdigits2 z)) as [Hle|Hgt].
  - rewrite Z.max_r by lia. rewrite <- Z.pow_add_r by lia. by replace (n + (Zdigits2 z - n)) with (Zdigits2 z) by lia.
  - rewrite Z.max_l by lia. rewrite Z.mul_1_r. eapply Z.lt_trans; [exact Hd|]. apply Z.pow_lt_mono_r; lia.
Qed.

Lemma shr_1_half mrs : 0 <= shr_m mrs -> shr_m (shr_1 mrs) = shr_m mrs / 2.
Proof.
  destruct mrs as [m r s]. simpl. intros Hm. destruct m as [|[p|p|]|p]; try done; simpl.
  - rewrite Pos2Z.inj_xI. symmetry. rewrite Z.mul_comm, Z.div_add_l by lia. by rewrite Z.add_0_r.
  - rewrite Pos2Z.inj_xO, Z.mul_comm. by rewrite Z.div_mul.
Qed.

Lemma shr_iter p mrs : 0 <= shr_m mrs -> shr_m (SpecFloat.iter_pos shr_1 p mrs) = shr_m mrs / 2 ^ Zpos p.
Proof.
  assert (forall a n m, 0 <= a -> 0 <= n -> 0 <= m -> a / 2 ^ n / 2 ^ m = a / 2 ^ (n + m)) as Hdd.
  { intros a n m Ha Hn Hm. rewrite Z.div_div, Z.pow_add_r; try lia; apply Z.pow_pos_nonneg; lia. }
  assert (forall a n, 0 <= a -> 0 <= a / 2 ^ n) as Hpos.
  { intros a n Ha. destruct (decide (0 <= n)); [apply Z.div_pos; [done|apply Z.pow_pos_nonneg; lia]|].
    rewrite Z.pow_neg_r by lia. by rewrite Z.div_0_r. }
  revert mrs. induction p as [p IH|p IH|]; intros mrs Hm; cbn [SpecFloat.iter_pos].
  - assert (0 <= shr_m (shr_1 mrs)) as H1 by (rewrite shr_1_half by done; by apply (Hpos _ 1)).
    rewrite !IH, shr_1_half; try done; [|by rewrite IH; [apply Hpos|]].
    change (shr_m mrs / 2) with (shr_m mrs / 2 ^ 1). rewrite !Hdd; try lia; [|by apply Hpos].
    f_equal. f_equal. lia.
  - rewrite !IH; try done; [|by rewrite IH; [apply Hpos|]]. rewrite !Hdd by lia. f_equal. f_equal. lia.
  - by rewrite shr_1_half.
Qed.

(** A shift to the exponent of the format keeps the magnitude. *)
Lemma shr_fexp_bound m e l mrs e' :
  0 <= m -> shr_fexp f64_prec f64_emax m e l = (mrs, e') ->
  0 <= shr_m mrs /\ Zdigits2 (shr_m mrs) <= Z.max 0 (Zdigits2 m + e - e') /\
  -1074 <= e' <= Z.max e (Z.max (Zdigits2 m + e - 53) (-1074)).
Proof.
  intros Hm. unfold shr_fexp. assert (shr_m (shr_record_of_loc m l) = m) as Hl by (by destruct l as [|[]]).
  assert (fexp f64_prec f64_emax (Zdigits2 m + e) = Z.max (Zdigits2 m + e - 53) (-1074)) as -> by reflexivity.
  unfold shr. destruct (Z.max _ _ - e) as [|p|p] eqn:En; intros [= <- <-].
  - rewrite Hl. pose proof (digits_nonneg m). lia.
  - rewrite shr_iter, Hl by (by rewrite Hl).
    pose proof (digits_div m (Zpos p) Hm ltac:(lia)).
    split; [apply Z.div_pos; [done|apply Z.pow_pos_nonneg; lia]|]. lia.
  - rewrite Hl. pose proof (digits_nonneg m). lia.
Qed.

Lemma round_bound m mrs :
  m = shr_m mrs -> 0 <= m ->
  0 <= round_nearest_even m (loc_of_shr_record mrs) <= m + 1.
Proof.
  intros -> Hm. unfold round_nearest_even. destruct (loc_of_shr_record mrs) as [|[]]; try lia.
  destruct (Z.even _); lia.
Qed.

(** Rounding raises the magnitude by one at most. *)
Lemma round_aux_below m e l k :
  0 <= m -> Zdigits2 m + e <= k -> -1021 <= k <= 900 ->
  below (k + 1) (binary_round_aux f64_prec f64_emax false m e l).
Proof.
  intros Hm Hk Hb. unfold binary_round_aux.
  destruct (shr_fexp f64_prec f64_emax m e l) as [mrs e1] eqn:E1.
  destruct (shr_fexp_bound _ _ _ _ _ Hm E1) as (Hm1 & Hd1 & He1).
  pose proof (round_bound _ mrs eq_refl Hm1) as [Hr0 Hr1].
  set (r := round_nearest_even _ _) in *.
  assert (Zdigits2 r <= Z.max 0 (Zdigits2 m + e - e1) + 1) as Hdr.
  { destruct (decide (r = 0)) as [->|Hne]; [simpl; lia|].
    destruct (decide (r <= shr_m mrs)) as [Hle|Hgt].
    - transitivity (Zdigits2 (shr_m mrs)); [|lia]. apply digits_le; [|apply digits_nonneg].
      pose proof (digits_below _ Hm1). lia.
    - replace r with (shr_m mrs + 1) by lia. pose proof (digits_succ _ Hm1). lia. }
  destruct (shr_fexp f64_prec f64_emax r e1 loc_Exact) as [mrs2 e2] eqn:E2.
  destruct (shr_fexp_bound _ _ _ _ _ Hr0 E2) as (Hm2 & Hd2 & He2). pose proof (digits_nonneg m) as Hdm.
  destruct (shr_m mrs2) as [|p|p]; [done| |lia].
  assert (Z.leb e2 (f64_emax - f64_prec) = true) as ->
    by (apply Z.leb_le; unfold f64_emax, f64_prec; lia).
  simpl in Hd2 |- *. lia.
Qed.

Lemma shl_align_bound m e e' mz ez :
  shl_align m e e' = (mz, ez) -> Zpos (digits2_pos mz) + ez = Zpos (digits2_pos m) + e.
Proof.
  unfold shl_align. destruct (e' - e) as [|d|d] eqn:Ed; intros [= <- <-]; try done.
  assert (forall d, Zpos (digits2_pos (Pos.iter xO m d)) = Zpos (digits2_pos m) + Zpos d) as ->; [|lia].
  clear. intros d. induction d as [|d IH] using Pos.peano_ind; simpl; [lia|].
  rewrite Pos.iter_succ. simpl. lia.
Qed.

Lemma binary_round_below m e k :
  Zpos (digits2_pos m) + e <= k -> -1021 <= k <= 900 ->
  below (k + 1) (binary_round f64_prec f64_emax false m e).
Proof.
  intros Hk Hb. unfold binary_round. destruct (shl_align _ _ _) as [mz ez] eqn:E.
  apply shl_align_bound in E. apply round_aux_below; [done| |done]. simpl. lia.
Qed.

Lemma f64_of_Z_below z k : 0 <= z -> Zdigits2 z <= k -> k <= 900 -> below (k + 1) (f64_of_Z z).
Proof.
  intros Hz Hk Hb. destruct z as [|m|m]; [done| |lia]. apply binary_round_below; simpl in *; lia.
Qed.

Lemma f64_mul_below a b x y :
  below a x -> below b y -> -1021 <= a + b <= 900 -> below (a + b + 1) (f64_mul x y).
Proof.
  destruct x as [| | |[] m e], y as [| | |[] m' e']; simpl; try done. intros Hx Hy Hb.
  apply round_aux_below; [lia| |done]. pose proof (digits_mul (Zpos m) (Zpos m') ltac:(lia) ltac:(lia)).
  change (Zpos (m * m')) with (Zpos m * Zpos m'). simpl in *. lia.
Qed.

Lemma f64_add_below a x y :
  below a x -> below a y -> -1022 <= a <= 899 -> below (a + 2) (f64_add x y).
Proof.
  destruct x as [[]| | |[] m e], y as [[]| | |[] m' e']; simpl; try done; try (intros; lia).
  intros Hx Hy Hb. set (ez := Z.min e e').
  assert (forall m e, Zpos (digits2_pos m) + e <= a -> ez <= e ->
    exists p, fst (shl_align m e ez) = p /\ Zpos (digits2_pos p) + ez <= a) as Halign.
  { intros n f Hn Hle. destruct (shl_align n f ez) as [p q] eqn:E. exists p. split; [done|].
    pose proof (shl_align_bound _ _ _ _ _ E) as Hp. revert E. unfold shl_align.
    destruct (ez - f) eqn:Ed; intros [= <- <-]; lia. }
  destruct (Halign m e Hx) as (p & -> & Hp); [unfold ez; lia|].
  destruct (Halign m' e' Hy) as (q & -> & Hq); [unfold ez; lia|].
  replace (a + 2) with (a + 1 + 1) by lia. apply binary_round_below; [|lia].
  change (Zpos (digits2_pos (p + q))) with (Zdigits2 (Zpos (p + q))).
  assert (Zdigits2 (Zpos (p + q)) <= a - ez + 1); [|lia]. apply digits_le; [|lia].
  destruct (digits_bounds (Zpos p)) as [[_ Hp2] _], (digits_bounds (Zpos q)) as [[_ Hq2] _]; try lia.
  simpl in Hp2, Hq2. split; [done|]. rewrite Z.pow_add_r by lia.
  assert (2 ^ Zpos (digits2_pos p) <= 2 ^ (a - ez)) by (apply Z.pow_le_mono_r; lia).
  assert (2 ^ Zpos (digits2_pos q) <= 2 ^ (a - ez)) by (apply Z.pow_le_mono_r; lia). lia.
Qed.

Lemma f64_div_below a b x m e :
  below a x -> b <= Zpos (digits2_pos m) + e -> -1022 <= a - b <= 899 ->
  below (a - b + 2) (f64_div x (S754_finite false m e)).
Proof.
  destruct x as [| | |[] n f]; simpl; try done. intros Hx Hm Hb.
  unfold f64_div, SFdiv, SFdiv_core_binary. cbn [xorb].
  set (e' := Z.min _ _). assert (0 <= f - e - e') as Hs by (unfold e'; lia).
  set (n' := match f - e - e' with Z0 => Zpos n | Zpos _ => Z.shiftl (Zpos n) (f - e - e') | Zneg _ => 0 end).
  assert (n' = Zpos n * 2 ^ (f - e - e')) as Hn'.
  { unfold n'. destruct (f - e - e') eqn:E; [by rewrite Z.mul_1_r|by rewrite Z.shiftl_mul_pow2 by lia|lia]. }
  destruct (Z.div_eucl n' (Zpos m)) as [q r] eqn:Eq.
  assert (q = n' / Zpos m) as Hq by (unfold Z.div; by rewrite Eq).
  destruct (digits_bounds (Zpos n)) as [[_ Hn2] _]; [lia|].
  destruct (digits_bounds (Zpos m)) as [[Hm2 _] Hm3]; [lia|]. simpl in Hn2, Hm2, Hm3.
  assert (0 < 2 ^ (f - e - e')) as Hpow by (apply Z.pow_pos_nonneg; lia).
  assert (0 <= q) as Hq0 by (subst q; apply Z.div_pos; [subst n'; nia|lia]).
  replace (a - b + 2) with (a - b + 1 + 1) by lia. apply round_aux_below; [done| |lia].
  set (dn := Zpos (digits2_pos n)) in *. set (dm := Zpos (digits2_pos m)) in *.
  set (s := f - e - e') in *.
  assert (Zdigits2 q <= Z.max 0 (dn + s - dm + 1)) as Hdq.
  { apply digits_le; [|lia]. split; [done|]. subst q. apply Z.div_lt_upper_bound; [lia|]. rewrite Hn'.
    assert (Zpos n * 2 ^ s < 2 ^ (dn + s)) as Hlt by (rewrite Z.pow_add_r by lia; nia).
    eapply Z.lt_le_trans; [exact Hlt|].
    transitivity (2 ^ (dm - 1) * 2 ^ Z.max 0 (dn + s - dm + 1)).
    - rewrite <- Z.pow_add_r by lia. apply Z.pow_le_mono_r; lia.
    - apply Z.mul_le_mono_nonneg_r; [apply Z.pow_nonneg; lia|done]. }
  assert (e' <= dn + f - (dm + e) - 53 \/ e' <= -1074) as He.
  { unfold e', fexp, emin. fold f64_prec f64_emax. subst dn dm. simpl. unfold f64_prec, f64_emax. lia. }
  subst s. lia.
Qed.

(** ** Durations of two to the 32 seconds or less *)

Lemma secs_below d : (d <= duration_secs (2 ^ 32))%N -> below 36 (as_secs_f64 d).
Proof.
  intros Hd. unfold duration_secs, nanos_in_second in Hd. unfold as_secs_f64.
  change 36 with (34 + 2). apply f64_add_below; [| |lia].
  - apply (f64_of_Z_below _ 33); [apply N2Z.is_nonneg| |lia]. apply digits_le; [|lia]. split; [apply N2Z.is_nonneg|].
    assert (d / nanos_in_second <= 2 ^ 32)%N by (apply N.Div0.div_le_upper_bound; unfold nanos_in_second; lia).
    change (2 ^ 33) with 8589934592. change (2 ^ 32)%N with 4294967296%N in *.
    set (q := (d / nanos_in_second)%N) in *. lia.
  - assert (f64_of_N nanos_in_second = S754_finite false 8388608000000000 (-23)) as -> by (vm_compute; reflexivity).
    apply (below_mono (31 - 30 + 2)); [lia|]. apply f64_div_below; [|by vm_compute|lia].
    apply (f64_of_Z_below _ 30); [apply N2Z.is_nonneg| |lia]. apply digits_le; [|lia]. split; [apply N2Z.is_nonneg|].
    pose proof (N.mod_lt d nanos_in_second ltac:(done)) as Hm. set (q := (d mod nanos_in_second)%N) in *.
    unfold nanos_in_second in Hm. change (2 ^ 30) with 1073741824. lia.
Qed.

Lemma below_duration k x : below k x -> k <= 63 -> is_Some (try_from_secs_f64 x).
Proof.
  destruct x as [| | |[] m e]; try done. intros Hk Hb. simpl in Hk. unfold try_from_secs_f64.
  destruct (digits_bounds (Zpos m)) as [[_ Hm] _]; [lia|]. simpl in Hm.
  destruct (Z.leb_spec 0 e) as [He|He].
  - assert ((Zpos m * 2 ^ e <? 2 ^ 64) = true) as ->; [|done]. apply Z.ltb_lt.
    apply (Z.lt_le_trans _ (2 ^ (Zpos (digits2_pos m) + e))).
    + rewrite Z.pow_add_r by lia. pose proof (Z.pow_pos_nonneg 2 e ltac:(lia) He). nia.
    + apply Z.pow_le_mono_r; lia.
  - assert ((Zpos m <? 2 ^ 64 * 2 ^ (- e)) = true) as ->; [|done]. apply Z.ltb_lt.
    eapply Z.lt_le_trans; [exact Hm|]. rewrite <- Z.pow_add_r by lia. apply Z.pow_le_mono_r; lia.
Qed.

Lemma compare_cont_le m c :
  match Pos.compare_cont Eq m c with Gt => false | _ => true end = true -> Zpos m <= Zpos c.
Proof.
  pose proof (Pos.compare_spec m c) as Hs. unfold Pos.compare in Hs.
  destruct Hs; intros Hle; [subst; lia|lia|discriminate Hle].
Qed.

(** The format of a number below one, or of one. *)
Lemma canonical_below m e c :
  canonical_mantissa f64_prec f64_emax m e = true ->
  e < -52 \/ (e = -52 /\ Zpos m <= c /\ c < 2 ^ 53) -> Zpos (digits2_pos m) + e <= 1.
Proof.
  unfold canonical_mantissa, fexp, emin, f64_prec, f64_emax. intros Hc%Z.eqb_eq [He|(-> & Hm & H53)]; [lia|].
  assert (Zdigits2 (Zpos m) <= 53) as Hd by (apply digits_le; lia). simpl in Hd. lia.
Qed.

Lemma f64_one_is : f64_one = S754_finite false 4503599627370496 (-52).
Proof. vm_compute. reflexivity. Qed.

(** A valid number that is not negative and at most a number of the format of one. *)
Lemma unit_below c x :
  Zpos c < 2 ^ 53 -> valid_binary f64_prec f64_emax x = true -> f64_leb (S754_zero false) x = true ->
  f64_leb x (S754_finite false c (-52)) = true -> below 1 x.
Proof.
  intros H53. destruct x as [|[]| |[] m e]; try done.
  intros Hv _. unfold valid_binary, bounded in Hv. apply andb_true_iff in Hv as [Hcan _].
  unfold f64_leb, SFleb, SFcompare. intros Hle. apply (canonical_below _ _ (Zpos c) Hcan).
  destruct (Z.compare_spec e (-52)) as [->|Hlt|Hgt]; [|by left|discriminate Hle].
  right. split; [done|]. split; [|done]. apply compare_cont_le. by destruct (Pos.compare_cont Eq m c).
Qed.

Lemma not_above c x :
  x <> S754_nan -> f64_ltb (S754_finite false c (-52)) x = false ->
  f64_leb x (S754_finite false c (-52)) = true.
Proof.
  destruct x as [[]|[]| |[] m e]; try done. intros _.
  unfold f64_ltb, SFltb, f64_leb, SFleb, SFcompare. rewrite (Z.compare_antisym e).
  destruct (e ?= -52); simpl; try done. pose proof (Pos.compare_antisym m c) as Ha.
  unfold Pos.compare in Ha. rewrite Ha. by destruct (Pos.compare_cont Eq m c).
Qed.

Lemma clamp_unit x :
  valid_binary f64_prec f64_emax x = true -> x <> S754_nan ->
  below 1 (f64_clamp (f64_of_N 0) f64_one x).
Proof.
  intros Hv Hn. change (f64_of_N 0) with (S754_zero false). rewrite f64_one_is. unfold f64_clamp.
  destruct (f64_ltb x _) eqn:E0; [done|]. destruct (f64_ltb _ x) eqn:E1; [by vm_compute|].
  eapply unit_below; [|done| |by apply not_above]; [by vm_compute|].
  by destruct x as [[]|[]| |[] m e].
Qed.
End Magnitude.
