(* ===== verification/BTree.v ===== *)
(** Ordered collections of the Rust standard library: the stable
    [slice::sort_by], as an insertion sort over a boolean order, and
    [BTreeMap<String, V>], an association list kept in strictly increasing byte
    order of its keys, so that iteration has the order of the program.  Holds
    the operations the program uses and the lemmas that let a component reason
    by lookup. *)

From stdpp Require Import sorting.
From Stdlib Require Import Sorted OrdersEx.
From S2P Require Import Prelude Text.

Section Sort.
Context {A : Type} (le : A -> A -> bool).

Fixpoint insert_sorted (a : A) (l : list A) : list A :=
  match l with
  | [] => [a]
  | b :: l => if le a b then a :: b :: l else b :: insert_sorted a l
  end.

Fixpoint sort_by (l : list A) : list A :=
  match l with
  | [] => []
  | a :: l => insert_sorted a (sort_by l)
  end.

Lemma insert_sorted_perm a l : insert_sorted a l ≡ₚ a :: l.
Proof.
  induction l as [|b l IH]; simpl; [done|]. destruct (le a b); [done|].
  by rewrite IH, Permutation_swap.
Qed.

Lemma sort_by_perm l : sort_by l ≡ₚ l.
Proof. induction l as [|a l IH]; simpl; [done|]. by rewrite insert_sorted_perm, IH. Qed.

(** A list that is in order stays as it is. *)
Lemma sort_by_sorted l :
  (forall i a b, l !! i = Some a -> l !! S i = Some b -> le a b = true) -> sort_by l = l.
Proof.
  induction l as [|a l IH]; intros Hl; simpl; [done|].
  rewrite IH by (intros i; apply (Hl (S i))).
  destruct l as [|b l]; simpl; [done|]. by rewrite (Hl 0 a b).
Qed.

(** ** Orders that respect a rank *)

Section Rank.
Variable rank : A -> Z.
Hypothesis le_rank : forall a b, le a b = true -> (rank a <= rank b)%Z.
Hypothesis not_le_rank : forall a b, le a b = false -> (rank b <= rank a)%Z.

Lemma insert_sorted_ranked a l :
  StronglySorted (fun a b => rank a <= rank b)%Z l ->
  StronglySorted (fun a b => rank a <= rank b)%Z (insert_sorted a l).
Proof.
  induction 1 as [|b l Hl IH Hb]; simpl; [by repeat constructor|].
  destruct (le a b) eqn:E; constructor.
  - by constructor.
  - apply le_rank in E. constructor; [done|]. eapply Forall_impl; [exact Hb|]. simpl. lia.
  - done.
  - rewrite insert_sorted_perm. constructor; [by apply not_le_rank|done].
Qed.

Lemma sort_by_ranked l : StronglySorted (fun a b => rank a <= rank b)%Z (sort_by l).
Proof. induction l; simpl; [constructor|by apply insert_sorted_ranked]. Qed.

(** Among the first [n] rows of a list there is none with [n] rows before it. *)
Lemma sort_by_starved n l before a :
  NoDup before -> n <= length before ->
  (forall b, b ∈ before -> b ∈ l /\ (rank b < rank a)%Z) ->
  a ∉ take n (sort_by l).
Proof.
  intros Hnd Hlen Hb (i & Hi & Hin)%elem_of_take.
  assert (Hsub : before ⊆ take i (sort_by l)).
  { intros b [Hbl Hr]%Hb. rewrite <- sort_by_perm in Hbl.
    pose proof (sort_by_ranked l) as Hs. apply take_drop_middle in Hi. rewrite <- Hi in Hbl, Hs.
    rewrite elem_of_app, elem_of_cons in Hbl. destruct Hbl as [|[->|Hbl]]; [done|lia|].
    apply StronglySorted_app_1_r in Hs. apply StronglySorted_cons in Hs as [Hs _].
    rewrite Forall_forall in Hs. specialize (Hs _ Hbl). simpl in Hs. lia. }
  apply NoDup_submseteq in Hsub; [|done]. apply submseteq_length in Hsub.
  rewrite length_take in Hsub. lia.
Qed.
End Rank.
End Sort.

(** ** The order of keys *)

Lemma str_compare a b : String.compare a b = String_as_OT.compare a b.
Proof.
  revert b. induction a as [|x a IH]; intros [|y b]; simpl; [done..|]. by rewrite IH.
Qed.

Lemma str_ltb_lt a b : str_ltb a b = true <-> String_as_OT.lt a b.
Proof.
  unfold str_ltb, String.ltb, String_as_OT.lt. rewrite str_compare.
  by destruct (String_as_OT.compare a b).
Qed.

Lemma str_ltb_irrefl a : str_ltb a a = false.
Proof.
  apply not_true_iff_false. intros Hlt%str_ltb_lt.
  by apply (StrictOrder_Irreflexive (R := String_as_OT.lt) a).
Qed.

Lemma str_ltb_trans a b c : str_ltb a b = true -> str_ltb b c = true -> str_ltb a c = true.
Proof. rewrite !str_ltb_lt. apply (StrictOrder_Transitive (R := String_as_OT.lt)). Qed.

Lemma str_ltb_total a b : str_ltb a b = false -> a <> b -> str_ltb b a = true.
Proof.
  intros Hlt Hne. apply str_ltb_lt. destruct (String_as_OT.compare_spec a b) as [|Hab|]; [done| |done].
  apply str_ltb_lt in Hab. congruence.
Qed.

Lemma find_app {A} (f : A -> bool) l k :
  List.find f (l ++ k) = match List.find f l with Some a => Some a | None => List.find f k end.
Proof. induction l as [|a l IH]; simpl; [done|]. by destruct (f a). Qed.

Section BTreeMap.
Context {V : Type}.

Fixpoint bget (k : string) (m : list (string * V)) : option V :=
  match m with
  | [] => None
  | (k', v) :: m => if String.eqb k k' then Some v else bget k m
  end.

(** Inserts or replaces, keeping the key order. *)
Fixpoint binsert (k : string) (v : V) (m : list (string * V)) : list (string * V) :=
  match m with
  | [] => [(k, v)]
  | (k', v') :: rest =>
      if String.eqb k k' then (k, v) :: rest
      else if str_ltb k k' then (k, v) :: m
      else (k', v') :: binsert k v rest
  end.

(** [Iterator::collect] into a map: a later entry replaces an earlier one. *)
Definition bcollect (l : list (string * V)) : list (string * V) :=
  fold_left (fun m kv => binsert kv.1 kv.2 m) l [].

Definition bkeys (m : list (string * V)) : list string := map fst m.

Lemma bget_binsert_eq k v m : bget k (binsert k v m) = Some v.
Proof.
  induction m as [|[k' v'] m IH]; simpl.
  - by rewrite String.eqb_refl.
  - destruct (String.eqb k k') eqn:E; simpl; [by rewrite String.eqb_refl|].
    destruct (str_ltb k k'); simpl; [by rewrite String.eqb_refl | by rewrite E].
Qed.

Lemma bget_binsert_ne k k2 v m : k <> k2 -> bget k2 (binsert k v m) = bget k2 m.
Proof.
  intros Hne. assert (String.eqb k2 k = false) as E2.
  { apply String.eqb_neq. congruence. }
  induction m as [|[k' v'] m IH]; simpl; [by rewrite E2|].
  destruct (String.eqb k k') eqn:E; simpl.
  - apply String.eqb_eq in E as <-. by rewrite E2.
  - destruct (str_ltb k k'); simpl; [by rewrite E2 | by rewrite IH].
Qed.

Lemma bget_binsert k k2 v m :
  bget k2 (binsert k v m) = if String.eqb k k2 then Some v else bget k2 m.
Proof.
  destruct (String.eqb k k2) eqn:E.
  - apply String.eqb_eq in E as <-. apply bget_binsert_eq.
  - apply bget_binsert_ne. by apply String.eqb_neq.
Qed.

Lemma bget_In k v m : bget k m = Some v -> In (k, v) m.
Proof.
  induction m as [|[k' v'] m IH]; simpl; [done|].
  destruct (String.eqb k k') eqn:E.
  - apply String.eqb_eq in E as <-. intros [= ->]. by left.
  - intros H. right. by apply IH.
Qed.

Lemma bget_In_keys k m : In k (bkeys m) <-> is_Some (bget k m).
Proof.
  induction m as [|[k' v'] m IH]; simpl.
  - split; [done | by intros [? ?]].
  - destruct (String.eqb k k') eqn:E.
    + apply String.eqb_eq in E as <-. split; [eauto | by left].
    + rewrite <- IH. apply String.eqb_neq in E. firstorder congruence.
Qed.

Lemma bget_bcollect_nodup l k v :
  List.NoDup (map fst l) -> In (k, v) l -> bget k (bcollect l) = Some v.
Proof.
  intros Hnd Hin. unfold bcollect.
  enough (forall m, bget k (fold_left (fun m kv => binsert kv.1 kv.2 m) l m) = Some v) by auto.
  assert (Hfresh : forall l (m : list (string * V)), ~ In k (map fst l) -> bget k m = Some v ->
    bget k (fold_left (fun m kv => binsert kv.1 kv.2 m) l m) = Some v).
  { clear Hnd Hin l. intros l. induction l as [|[k' v'] l IH]; simpl; [done|].
    intros m Hn Hk. apply IH; [tauto|]. rewrite bget_binsert_ne; [done | tauto]. }
  induction l as [|[k' v'] l IH]; simpl in *; [done|].
  inversion Hnd as [|? ? Hn Hnd']; subst. intros m.
  destruct Hin as [[= -> ->]|Hin].
  - apply Hfresh; [done | apply bget_binsert_eq].
  - by apply IH.
Qed.

(** ** Sorted maps *)

Definition bsorted (m : list (string * V)) : Prop :=
  StronglySorted (fun a b => str_ltb a.1 b.1 = true) m.

Lemma bget_below k (m : list (string * V)) :
  List.Forall (fun kv => str_ltb k kv.1 = true) m -> bget k m = None.
Proof.
  induction 1 as [|[k' v'] m Hlt _ IH]; simpl in *; [done|].
  destruct (String.eqb k k') eqn:E; [|done]. apply String.eqb_eq in E as ->.
  by rewrite str_ltb_irrefl in Hlt.
Qed.

Lemma binsert_keys k v m kv : In kv (binsert k v m) -> kv = (k, v) \/ In kv m.
Proof.
  induction m as [|[k' v'] m IH]; simpl; [intuition|].
  destruct (String.eqb k k'); simpl; [intuition|]. destruct (str_ltb k k'); simpl; intuition.
Qed.

Lemma binsert_sorted k v m : bsorted m -> bsorted (binsert k v m).
Proof.
  induction 1 as [|[k' v'] m Hm IH Hall]; simpl; [by repeat constructor|].
  destruct (String.eqb k k') eqn:E.
  - apply String.eqb_eq in E as <-. by constructor.
  - destruct (str_ltb k k') eqn:El; constructor; try done.
    + by constructor.
    + constructor; [done|]. rewrite List.Forall_forall in *. intros kv Hkv.
      eapply str_ltb_trans; [exact El|]. by apply Hall.
    + rewrite List.Forall_forall in *. intros kv [->|Hkv]%binsert_keys; [|by apply Hall].
      apply str_ltb_total; [done|]. by apply String.eqb_neq.
Qed.

Lemma fold_binsert_sorted {A} (key : A -> string) (value : A -> V) l m :
  bsorted m -> bsorted (fold_left (fun m a => binsert (key a) (value a) m) l m).
Proof. revert m. induction l as [|a l IH]; intros m Hm; simpl; [done|]. by apply IH, binsert_sorted. Qed.

Lemma bcollect_sorted l : bsorted (bcollect l).
Proof. unfold bcollect. apply (fold_binsert_sorted fst snd). constructor. Qed.

Lemma bsorted_In k v m : bsorted m -> In (k, v) m <-> bget k m = Some v.
Proof.
  intros Hm. split; [|apply bget_In]. induction Hm as [|[k' v'] m Hm IH Hall]; simpl; [done|].
  intros [[= -> ->]|Hin]; [by rewrite String.eqb_refl|].
  rewrite List.Forall_forall in Hall. specialize (Hall _ Hin). simpl in Hall.
  destruct (String.eqb k k') eqn:E; [|by apply IH].
  apply String.eqb_eq in E as ->. by rewrite str_ltb_irrefl in Hall.
Qed.

Lemma bcollect_In l kv : In kv (bcollect l) -> In kv l.
Proof.
  unfold bcollect.
  enough (forall m : list (string * V),
    In kv (fold_left (fun m kv => binsert kv.1 kv.2 m) l m) -> In kv l \/ In kv m) as He
    by (intros [|[]]%He; done).
  induction l as [|[k v] l IH]; simpl; [tauto|]. intros m [|[->|]%binsert_keys]%IH; tauto.
Qed.

Lemma bcollect_lookup l k v :
  List.NoDup (map fst l) -> bget k (bcollect l) = Some v <-> In (k, v) l.
Proof.
  intros Hnd. split; [|by apply bget_bcollect_nodup]. intros Hb. by apply bcollect_In, bget_In.
Qed.

Lemma bsorted_ext m m' : bsorted m -> bsorted m' -> (forall k, bget k m = bget k m') -> m = m'.
Proof.
  intros Hm. revert m'. induction Hm as [|[k v] m Hm IH Hall]; intros m' Hm' Heq.
  - destruct m' as [|[k' v'] m']; [done|]. specialize (Heq k'). simpl in Heq.
    by rewrite String.eqb_refl in Heq.
  - destruct Hm' as [|[k' v'] m' Hm' Hall'].
    { specialize (Heq k). simpl in Heq. by rewrite String.eqb_refl in Heq. }
    pose proof (Heq k) as Hk. pose proof (Heq k') as Hk'. simpl in Hk, Hk'.
    rewrite String.eqb_refl in Hk, Hk'.
    assert (k = k') as <-.
    { destruct (String.eqb k k') eqn:E; [by apply String.eqb_eq|]. apply String.eqb_neq in E as Hne.
      rewrite String.eqb_sym, E in Hk'. destruct (str_ltb k k') eqn:El.
      - rewrite bget_below in Hk; [done|]. eapply List.Forall_impl; [|exact Hall'].
        intros kv. by apply str_ltb_trans.
      - apply str_ltb_total in El; [|done]. rewrite bget_below in Hk'; [done|].
        eapply List.Forall_impl; [|exact Hall]. intros kv. by apply str_ltb_trans. }
    rewrite String.eqb_refl in Hk. injection Hk as <-. f_equal. apply IH; [done|].
    intros k2. specialize (Heq k2). simpl in Heq. destruct (String.eqb k2 k) eqn:E; [|done].
    apply String.eqb_eq in E as ->. by rewrite !bget_below.
Qed.

(** Insertion of values under a key they hold: the last of a key wins. *)
Lemma bget_fold_binsert (key : V -> string) l m k :
  bget k (fold_left (fun m v => binsert (key v) v m) l m)
  = match List.find (fun v => String.eqb (key v) k) (rev l) with
    | Some v => Some v
    | None => bget k m
    end.
Proof.
  revert m. induction l as [|v l IH]; intros m; simpl; [done|]. rewrite IH, find_app. simpl.
  destruct (List.find _ (rev l)); [done|]. rewrite bget_binsert. by destruct (String.eqb (key v) k).
Qed.

(** A map whose values hold their key is extended by the values of another. *)
Lemma bget_fold_values (key : V -> string) changed m k :
  bsorted changed -> (forall k v, In (k, v) changed -> key v = k) ->
  bget k (fold_left (fun m v => binsert (key v) v m) (map snd changed) m)
  = match bget k changed with Some v => Some v | None => bget k m end.
Proof.
  intros Hs Hkey. rewrite bget_fold_binsert.
  destruct (List.find _ _) as [v|] eqn:E.
  - apply List.find_some in E as [Hin Hk]. apply String.eqb_eq in Hk.
    apply List.in_rev, in_map_iff in Hin as ([k' v'] & Heq & Hin). simpl in Heq. subst v'.
    rewrite <- (Hkey _ _ Hin) in Hin. rewrite Hk in Hin. apply bsorted_In in Hin; [|done].
    by rewrite Hin.
  - destruct (bget k changed) as [v|] eqn:Ev; [|done]. exfalso. apply bget_In in Ev.
    pose proof (Hkey _ _ Ev) as Hk. apply (in_map snd) in Ev. simpl in Ev. apply List.in_rev in Ev.
    apply (List.find_none _ _ E) in Ev. by rewrite Hk, String.eqb_refl in Ev.
Qed.

End BTreeMap.


#[export] Hint Resolve bget_binsert_eq : hm.
