(* ===== verification/Json.v ===== *)
(** JSON values as [serde_json::Value] holds them.  A JSON number is a value of
    the JSON library: its representation is a parameter ([SerdeJson]), of which
    the program uses equality, [as_i64] and the decimal rendering. *)

From S2P Require Import Prelude.

Class SerdeJson := {
  Number : Type;
  Number_eq_dec :: EqDecision Number;
  number_as_i64 : Number -> option Z;
  number_to_string : Number -> string
}.

Section Json.
Context `{SerdeJson}.

#[warnings="-register-all"]
Inductive Json : Type :=
| JNull
| JBool (value : bool)
| JNumber (value : Number)
| JString (value : string)
| JArray (values : list Json)
| JObject (fields : list (string * Json)).

(** Induction that reaches into arrays and objects. *)
Fixpoint Json_nested_ind (P : Json -> Prop)
  (HN : P JNull) (HB : forall b, P (JBool b)) (Hn : forall n, P (JNumber n))
  (HS : forall s, P (JString s)) (HA : forall l, Forall P l -> P (JArray l))
  (HO : forall l, Forall (fun kv => P kv.2) l -> P (JObject l)) (j : Json) : P j :=
  match j with
  | JNull => HN
  | JBool b => HB b
  | JNumber n => Hn n
  | JString s => HS s
  | JArray l =>
      HA l ((fix go (l : list Json) : Forall P l :=
        match l with
        | [] => List.Forall_nil P
        | x :: l => List.Forall_cons P x l (Json_nested_ind P HN HB Hn HS HA HO x) (go l)
        end) l)
  | JObject l =>
      HO l ((fix go (l : list (string * Json)) : Forall (fun kv => P kv.2) l :=
        match l with
        | [] => List.Forall_nil (fun kv => P kv.2)
        | x :: l => List.Forall_cons (fun kv => P kv.2) x l
                      (Json_nested_ind P HN HB Hn HS HA HO x.2) (go l)
        end) l)
  end.

(** The structural equality of [Value]. *)
Fixpoint json_eqb (a b : Json) : bool :=
  match a, b with
  | JNull, JNull => true
  | JBool x, JBool y => Bool.eqb x y
  | JNumber x, JNumber y => bool_decide (x = y)
  | JString x, JString y => String.eqb x y
  | JArray xs, JArray ys =>
      (fix go (xs ys : list Json) : bool :=
        match xs, ys with
        | [], [] => true
        | x :: xs, y :: ys => json_eqb x y && go xs ys
        | _, _ => false
        end) xs ys
  | JObject xs, JObject ys =>
      (fix go (xs ys : list (string * Json)) : bool :=
        match xs, ys with
        | [], [] => true
        | x :: xs, y :: ys => String.eqb x.1 y.1 && json_eqb x.2 y.2 && go xs ys
        | _, _ => false
        end) xs ys
  | _, _ => false
  end.

Lemma json_eqb_eq a b : json_eqb a b = true <-> a = b.
Proof.
  revert b. induction a as [|x|x|x|xs IH|xs IH] using Json_nested_ind; intros [|y|y|y|ys|ys];
    simpl; try (split; discriminate); try tauto.
  - rewrite Bool.eqb_true_iff. split; congruence.
  - rewrite bool_decide_eq_true. split; congruence.
  - rewrite String.eqb_eq. split; congruence.
  - enough (forall ys, (fix go (xs ys : list Json) : bool :=
        match xs, ys with
        | [], [] => true
        | x :: xs, y :: ys => json_eqb x y && go xs ys
        | _, _ => false
        end) xs ys = true <-> xs = ys) as -> by (split; congruence).
    clear ys. induction IH as [|x xs Hx Hxs IH]; intros [|y ys]; try (split; congruence).
    rewrite andb_true_iff, Hx, IH. split; [intros [-> ->] | intros [= -> ->]]; done.
  - enough (forall ys, (fix go (xs ys : list (string * Json)) : bool :=
        match xs, ys with
        | [], [] => true
        | x :: xs, y :: ys => String.eqb x.1 y.1 && json_eqb x.2 y.2 && go xs ys
        | _, _ => false
        end) xs ys = true <-> xs = ys) as -> by (split; congruence).
    clear ys. induction IH as [|[k x] xs Hx Hxs IH]; intros [|[k' y] ys]; try (split; congruence).
    simpl in *. rewrite !andb_true_iff, String.eqb_eq, Hx, IH.
    split; [intros [[-> ->] ->] | intros [= -> -> ->]]; done.
Qed.

#[export] Instance Json_eq_dec : EqDecision Json.
Proof.
  intros a b. destruct (json_eqb a b) eqn:E; [left | right].
  - by apply json_eqb_eq.
  - intros Heq. apply json_eqb_eq in Heq. congruence.
Defined.

End Json.

(** The instance the witnesses use: numbers are integers. *)
Definition integer_json : SerdeJson :=
  {| Number := Z; number_as_i64 := Some; number_to_string := pretty |}.
