(* ===== verification/Capability.v ===== *)
(** Capability contracts, [crates/homemagic-domain/src/capability.rs]: risk
    classes and their order, versioned descriptors, and the current value of a
    normalized capability with its schema name. *)

From S2P Require Import Prelude Text.

(** An [f64] held as data: its binary64 bit pattern. *)
Abbreviation F64 := N.

(** The [PartialEq] of [f64]: a NaN equals nothing, and the two zeros are equal. *)
Definition f64_is_nan (bits : F64) : bool :=
  N.ltb 0x7ff0000000000000 (N.land bits 0x7fffffffffffffff).
Definition f64_eqb (a b : F64) : bool :=
  negb (f64_is_nan a) && negb (f64_is_nan b)
  && (N.eqb a b || (N.eqb (N.land a 0x7fffffffffffffff) 0 && N.eqb (N.land b 0x7fffffffffffffff) 0)).

Inductive RiskClass := Risk_Observe | Risk_Comfort | Risk_Mechanical | Risk_Security.
#[export] Instance RiskClass_eq_dec : EqDecision RiskClass.
Proof. solve_decision. Defined.

Module RiskClass.
Definition rank (self : RiskClass) : N :=
  match self with
  | Risk_Observe => 0 | Risk_Comfort => 1 | Risk_Mechanical => 2 | Risk_Security => 3
  end.

Definition permits (self requested : RiskClass) : bool :=
  N.leb (rank requested) (rank self).
End RiskClass.

Record CapabilityDescriptor := mk_descriptor {
  cd_name : string;
  cd_version : N;
  cd_risk : RiskClass
}.
#[export] Instance CapabilityDescriptor_eq_dec : EqDecision CapabilityDescriptor.
Proof. solve_decision. Defined.

Inductive CapabilityDescriptorError := EmptyName | InvalidVersion.

Module CapabilityDescriptor.
Definition new (name : string) (version : N) (risk : RiskClass) :
  result CapabilityDescriptor CapabilityDescriptorError :=
  guard? negb (trim_is_empty name) else EmptyName in
  guard? negb (N.eqb version 0) else InvalidVersion in
  Ok (mk_descriptor name version risk).

Definition schema (self : CapabilityDescriptor) : string :=
  cd_name self +:+ ".v" +:+ show_N (cd_version self).
End CapabilityDescriptor.

Inductive CapabilitySnapshot :=
| Snapshot_Availability (online : bool)
| Snapshot_OnOff (on : bool) (risk : RiskClass)
| Snapshot_AccessControl (locked : option bool)
| Snapshot_Level (percent : F64) (risk : RiskClass)
| Snapshot_Position (percent : option F64) (motion : option string) (risk : RiskClass)
| Snapshot_Power (watts volts amperes : option F64)
| Snapshot_Energy (watt_hours : F64)
| Snapshot_Diagnostics (firmware_version : option string) (errors : list string).

Module CapabilitySnapshot.
Definition schema (self : CapabilitySnapshot) : string :=
  match self with
  | Snapshot_Availability _ => "availability.v1"
  | Snapshot_OnOff _ _ => "on_off.v1"
  | Snapshot_AccessControl _ => "access_control.v1"
  | Snapshot_Level _ _ => "level.v1"
  | Snapshot_Position _ _ _ => "position.v1"
  | Snapshot_Power _ _ _ => "power.v1"
  | Snapshot_Energy _ => "energy.v1"
  | Snapshot_Diagnostics _ _ => "diagnostics.v1"
  end.

(** [trim_end_matches(".v1")] removes the suffix as often as it occurs; the
    fuel is the length of the text, and every removal shortens it. *)
Fixpoint trim_end_v1 (fuel : nat) (s : string) : string :=
  match fuel with
  | O => s
  | S fuel =>
      match strip_suffix ".v1" s with
      | Some s => trim_end_v1 fuel s
      | None => s
      end
  end.

Definition descriptor (self : CapabilitySnapshot) : CapabilityDescriptor :=
  let trimmed := trim_end_v1 (String.length (schema self)) (schema self) in
  let '(name, risk) :=
    match self with
    | Snapshot_Availability _ | Snapshot_Power _ _ _ | Snapshot_Energy _
    | Snapshot_Diagnostics _ _ => (trimmed, Risk_Observe)
    | Snapshot_OnOff _ risk | Snapshot_Level _ risk | Snapshot_Position _ _ risk =>
        (trimmed, risk)
    | Snapshot_AccessControl _ => ("access_control"%string, Risk_Security)
    end in
  mk_descriptor name 1 risk.

(** The derived [PartialEq]. *)
Definition eqb (a b : CapabilitySnapshot) : bool :=
  match a, b with
  | Snapshot_Availability x, Snapshot_Availability y => Bool.eqb x y
  | Snapshot_OnOff x r, Snapshot_OnOff y q => Bool.eqb x y && bool_decide (r = q)
  | Snapshot_AccessControl x, Snapshot_AccessControl y => bool_decide (x = y)
  | Snapshot_Level x r, Snapshot_Level y q => f64_eqb x y && bool_decide (r = q)
  | Snapshot_Position x m r, Snapshot_Position y n q =>
      option_eqb f64_eqb x y && bool_decide (m = n) && bool_decide (r = q)
  | Snapshot_Power w v i, Snapshot_Power w' v' i' =>
      option_eqb f64_eqb w w' && option_eqb f64_eqb v v' && option_eqb f64_eqb i i'
  | Snapshot_Energy x, Snapshot_Energy y => f64_eqb x y
  | Snapshot_Diagnostics f e, Snapshot_Diagnostics g d => bool_decide (f = g) && bool_decide (e = d)
  | _, _ => false
  end.
End CapabilitySnapshot.

(** ** Lemmas *)

Lemma permits_refl r : RiskClass.permits r r = true.
Proof. unfold RiskClass.permits. apply N.leb_refl. Qed.

Lemma permits_trans a b c :
  RiskClass.permits a b = true -> RiskClass.permits b c = true ->
  RiskClass.permits a c = true.
Proof. unfold RiskClass.permits. rewrite !N.leb_le. lia. Qed.

#[export] Hint Resolve permits_refl : hm.

Lemma snapshot_descriptor_schema s :
  CapabilityDescriptor.schema (CapabilitySnapshot.descriptor s)
  = CapabilitySnapshot.schema s.
Proof. by destruct s. Qed.

Lemma descriptor_new_schema name version risk d :
  CapabilityDescriptor.new name version risk = Ok d ->
  cd_name d = name /\ cd_version d = version /\ cd_risk d = risk /\ (0 < version)%N.
Proof.
  unfold CapabilityDescriptor.new. repeat case_match; try discriminate.
  intros [= <-]. simpl. repeat split; try done.
  destruct (N.eqb_spec version 0); [discriminate | lia].
Qed.
