(* ===== verification/Lifecycle.v ===== *)
(** Device enrolment lifecycle, availability, timestamps and freshness
    ([crates/homemagic-domain/src/lifecycle.rs]) and operational repairs
    ([repair.rs]). *)

From S2P Require Import Prelude Text.

(** ** Enrolment lifecycle *)

Inductive DeviceLifecycle := Candidate | Enrolled | Stale | Removed.
#[export] Instance DeviceLifecycle_eq_dec : EqDecision DeviceLifecycle.
Proof. solve_decision. Defined.

Inductive LifecycleTrigger := Enroll | MarkStale | Rediscover | Remove.
#[export] Instance LifecycleTrigger_eq_dec : EqDecision LifecycleTrigger.
Proof. solve_decision. Defined.

Record LifecycleTransitionError := mk_lifecycle_error {
  lte_current : DeviceLifecycle;
  lte_trigger : LifecycleTrigger
}.

Module DeviceLifecycle.
Definition transition (self : DeviceLifecycle) (trigger : LifecycleTrigger) :
  result DeviceLifecycle LifecycleTransitionError :=
  match self, trigger with
  | Candidate, Enroll
  | (Enrolled | Stale | Removed), Rediscover => Ok Enrolled
  | (Candidate | Enrolled | Stale), Remove => Ok Removed
  | Enrolled, MarkStale => Ok Stale
  | _, _ => Err (mk_lifecycle_error self trigger)
  end.
End DeviceLifecycle.

(** ** Availability *)

Inductive AvailabilityState :=
| Av_Unknown | Av_Online | Av_Degraded | Av_Offline | Av_Sleeping.
#[export] Instance AvailabilityState_eq_dec : EqDecision AvailabilityState.
Proof. solve_decision. Defined.

Record Availability := mk_availability {
  av_state : AvailabilityState;
  av_since : Instant;
  av_reason : option string
}.
#[export] Instance Availability_eq_dec : EqDecision Availability.
Proof. solve_decision. Defined.

Module Availability.
Definition unknown (at_ : Instant) : Availability := mk_availability Av_Unknown at_ None.

Definition transition (self : Availability) (state : AvailabilityState) (at_ : Instant)
  (reason : option string) : Availability :=
  if bool_decide (av_state self = state) && bool_decide (av_reason self = reason)
  then self
  else mk_availability state at_ reason.
End Availability.

(** ** Timestamps *)

Record DeviceTimestamps := mk_timestamps {
  ts_first_seen : Instant;
  ts_last_seen : Instant;
  ts_last_success : option Instant
}.
#[export] Instance DeviceTimestamps_eq_dec : EqDecision DeviceTimestamps.
Proof. solve_decision. Defined.

Record TimestampError := mk_timestamp_error {
  tse_first_seen : Instant;
  tse_attempted : Instant
}.

Module DeviceTimestamps.
Definition first_seen (at_ : Instant) : DeviceTimestamps := mk_timestamps at_ at_ None.

Definition validate (self : DeviceTimestamps) (at_ : Instant) : result unit TimestampError :=
  if Z.ltb at_ (ts_first_seen self)
  then Err (mk_timestamp_error (ts_first_seen self) at_)
  else Ok tt.

Definition record_seen (self : DeviceTimestamps) (at_ : Instant) :
  result DeviceTimestamps TimestampError :=
  let? _ := validate self at_ in
  Ok (mk_timestamps (ts_first_seen self) (Z.max (ts_last_seen self) at_)
        (ts_last_success self)).

Definition record_success (self : DeviceTimestamps) (at_ : Instant) :
  result DeviceTimestamps TimestampError :=
  let? self := record_seen self at_ in
  Ok (mk_timestamps (ts_first_seen self) (ts_last_seen self)
        (Some (match ts_last_success self with
               | None => at_
               | Some current => Z.max current at_
               end))).

(** The chronology every value built by these operations respects. *)
Definition wf (self : DeviceTimestamps) : Prop :=
  (ts_first_seen self <= ts_last_seen self)%Z /\
  match ts_last_success self with
  | None => True
  | Some t => (ts_first_seen self <= t <= ts_last_seen self)%Z
  end.
End DeviceTimestamps.

(** ** Freshness *)

Record FreshnessPolicy := mk_freshness {
  fp_stale_after_seconds : Z;
  fp_offline_after_seconds : Z
}.

Inductive FreshnessState := Fr_Unknown | Fr_Fresh | Fr_Stale | Fr_Offline | Fr_Sleeping.
#[export] Instance FreshnessState_eq_dec : EqDecision FreshnessState.
Proof. solve_decision. Defined.

Inductive FreshnessPolicyError := freshness_policy_error.

Module FreshnessPolicy.
Definition default : FreshnessPolicy := mk_freshness 120 300.

Definition new (stale_after offline_after : Z) : result FreshnessPolicy FreshnessPolicyError :=
  if (stale_after <=? 0)%Z || (offline_after <=? stale_after)%Z
  then Err freshness_policy_error
  else Ok (mk_freshness stale_after offline_after).

Definition stale_at `{Chrono} (self : FreshnessPolicy) (last_success : option Instant) :
  option Instant :=
  last_success ≫= fun at_ => checked_add_signed at_ (delta_seconds (fp_stale_after_seconds self)).

Definition offline_at `{Chrono} (self : FreshnessPolicy) (last_success : option Instant) :
  option Instant :=
  last_success ≫= fun at_ => checked_add_signed at_ (delta_seconds (fp_offline_after_seconds self)).

Definition evaluate (self : FreshnessPolicy) (last_success : option Instant)
  (availability : AvailabilityState) (now : Instant) : FreshnessState :=
  if bool_decide (availability = Av_Sleeping) then Fr_Sleeping
  else match last_success with
       | None => if bool_decide (availability = Av_Offline) then Fr_Offline else Fr_Unknown
       | Some last_success =>
           let elapsed := Z.max (num_seconds (now - last_success)) 0 in
           if (fp_offline_after_seconds self <=? elapsed)%Z then Fr_Offline
           else if (fp_stale_after_seconds self <=? elapsed)%Z then Fr_Stale
           else Fr_Fresh
       end.

(** What [new] and [default] establish. *)
Definition wf (self : FreshnessPolicy) : Prop :=
  (0 < fp_stale_after_seconds self < fp_offline_after_seconds self)%Z.
End FreshnessPolicy.

(** ** Repairs *)

Inductive RepairKind :=
| IdentityCollision (integration_id native_id : string) (conflicting_device_ids : list string)
| CredentialsMissing
| CredentialsRejected
| SecretStoreUnavailable (backend : string)
| SessionFailed (code : string).
#[export] Instance RepairKind_eq_dec : EqDecision RepairKind.
Proof. solve_decision. Defined.

Inductive RepairStatus := Rs_Open | Rs_Resolved | Rs_Dismissed.
#[export] Instance RepairStatus_eq_dec : EqDecision RepairStatus.
Proof. solve_decision. Defined.

Record RepairRecord := mk_repair {
  rr_id : string;
  rr_device_id : option string;
  rr_kind : RepairKind;
  rr_summary : string;
  rr_created_at : Instant;
  rr_status : RepairStatus;
  rr_closed_at : option Instant
}.

Inductive RepairTransitionError := AlreadyClosed | BeforeCreation.

Module RepairRecord.
(** [id] is the random identity [RepairId::new] draws. *)
Definition new (id : string) (device_id : option string) (kind : RepairKind)
  (summary : string) (created_at : Instant) : RepairRecord :=
  mk_repair id device_id kind summary created_at Rs_Open None.

Definition close (self : RepairRecord) (status : RepairStatus) (at_ : Instant) :
  result RepairRecord RepairTransitionError :=
  guard? bool_decide (rr_status self = Rs_Open) else AlreadyClosed in
  guard? negb (at_ <? rr_created_at self)%Z else BeforeCreation in
  Ok (mk_repair (rr_id self) (rr_device_id self) (rr_kind self) (rr_summary self)
        (rr_created_at self) status (Some at_)).

Definition resolve (self : RepairRecord) (at_ : Instant) := close self Rs_Resolved at_.
Definition dismiss (self : RepairRecord) (at_ : Instant) := close self Rs_Dismissed at_.
End RepairRecord.

(** ** Lemmas *)

Lemma num_seconds_ge d s : (0 < s)%Z -> (s <= num_seconds d <-> delta_seconds s <= d)%Z.
Proof.
  intros Hs. unfold num_seconds, delta_seconds, nanos_per_second.
  destruct (Z.le_gt_cases 0 d) as [Hd|Hd].
  - rewrite Z.quot_div_nonneg by lia. split; intros H.
    + pose proof (Z.mul_div_le d 1000000000 ltac:(lia)). lia.
    + apply Z.div_le_lower_bound; lia.
  - split; intros H; [|lia].
    pose proof (Z.quot_opp_l d 1000000000 ltac:(lia)) as Hq.
    pose proof (Z.quot_pos (-d) 1000000000 ltac:(lia) ltac:(lia)). lia.
Qed.

Lemma freshness_new_wf a b p : FreshnessPolicy.new a b = Ok p -> FreshnessPolicy.wf p.
Proof.
  unfold FreshnessPolicy.new, FreshnessPolicy.wf. case_match eqn:E; [discriminate|].
  intros [= <-]. apply orb_false_iff in E as [E1 E2]. simpl. lia.
Qed.

Lemma evaluate_thresholds p t av now :
  FreshnessPolicy.wf p -> av <> Av_Sleeping ->
  FreshnessPolicy.evaluate p (Some t) av now =
    (if (t + delta_seconds (fp_offline_after_seconds p) <=? now)%Z then Fr_Offline
     else if (t + delta_seconds (fp_stale_after_seconds p) <=? now)%Z then Fr_Stale
     else Fr_Fresh).
Proof.
  intros [Hs Ho] Hav. unfold FreshnessPolicy.evaluate.
  rewrite bool_decide_eq_false_2 by done.
  assert (Hlift : forall s, (0 < s)%Z ->
    (s <=? Z.max (num_seconds (now - t)) 0)%Z = (t + delta_seconds s <=? now)%Z).
  { intros s Hpos. pose proof (num_seconds_ge (now - t) s Hpos). lia. }
  rewrite !Hlift by lia. done.
Qed.

Lemma record_success_wf ts at_ ts' :
  DeviceTimestamps.wf ts -> DeviceTimestamps.record_success ts at_ = Ok ts' ->
  DeviceTimestamps.wf ts' /\ ts_first_seen ts' = ts_first_seen ts /\
  (ts_last_seen ts <= ts_last_seen ts')%Z /\ (at_ <= ts_last_seen ts')%Z.
Proof.
  unfold DeviceTimestamps.record_success, DeviceTimestamps.record_seen,
    DeviceTimestamps.validate, DeviceTimestamps.wf.
  intros [H1 H2] H. destruct (Z.ltb_spec at_ (ts_first_seen ts)); [discriminate|].
  simpl in H. injection H as <-. simpl.
  destruct (ts_last_success ts); simpl; lia.
Qed.
