(* ===== verification/Device.v ===== *)
(** Device aggregates ([crates/homemagic-domain/src/device.rs]), durable
    configuration ([configuration.rs]) and partial observations
    ([observation.rs]). *)

From S2P Require Import Prelude Text BTree Json Capability Lifecycle.

(** Identities are UUIDs, held as their canonical lower-case text, whose byte
    order is the order of the UUIDs; endpoint identities are adapter text. *)
Abbreviation DeviceId := string (only parsing).
Abbreviation EndpointId := string (only parsing).
Abbreviation IntegrationId := string (only parsing).
Abbreviation InstallationId := string (only parsing).
Abbreviation SpaceId := string (only parsing).
Abbreviation SecretRef := string (only parsing).

(** ** Configuration *)

Record Installation := mk_installation {
  in_id : InstallationId;
  in_name : string;
  in_created_at : Instant
}.

Record IntegrationInstance := mk_integration {
  ii_id : IntegrationId;
  ii_installation_id : InstallationId;
  ii_adapter : string;
  ii_instance_key : string;
  ii_name : string;
  ii_credential_ref : option SecretRef
}.

Record Space := mk_space {
  sp_id : SpaceId;
  sp_installation_id : InstallationId;
  sp_parent_id : option SpaceId;
  sp_name : string;
  sp_aliases : gset string
}.

(** ** Snapshots *)

Record EndpointSnapshot := mk_endpoint {
  es_id : EndpointId;
  es_name : option string;
  es_capabilities : list CapabilitySnapshot
}.

Record NetworkLocation := mk_network {
  nl_host : string;
  nl_port : N
}.

Section Device.
Context `{SerdeJson}.

Record DeviceSnapshot := mk_snapshot {
  ds_id : DeviceId;
  ds_native_id : string;
  ds_integration : string;
  ds_name : string;
  ds_manufacturer : string;
  ds_model : string;
  ds_network : list NetworkLocation;
  ds_endpoints : list EndpointSnapshot;
  ds_observed_at : Instant;
  ds_vendor_data : list (string * Json)
}.

Record DiscoveryCandidate := mk_candidate {
  dc_installation_id : InstallationId;
  dc_integration_id : IntegrationId;
  dc_snapshot : DeviceSnapshot;
  dc_discovered_at : Instant;
  dc_repairs : list RepairRecord
}.

Record DeviceRecord := mk_device {
  dr_installation_id : InstallationId;
  dr_integration_id : IntegrationId;
  dr_snapshot : DeviceSnapshot;
  dr_lifecycle : DeviceLifecycle;
  dr_availability : Availability;
  dr_timestamps : DeviceTimestamps;
  dr_aliases : gset string;
  dr_spaces : gset SpaceId;
  dr_capability_descriptors : list (EndpointId * list CapabilityDescriptor)
}.

(** The derived [PartialEq] of the aggregate. *)
Definition endpoint_eqb (a b : EndpointSnapshot) : bool :=
  String.eqb (es_id a) (es_id b) && bool_decide (es_name a = es_name b)
  && list_eqb CapabilitySnapshot.eqb (es_capabilities a) (es_capabilities b).

Definition network_eqb (a b : NetworkLocation) : bool :=
  String.eqb (nl_host a) (nl_host b) && N.eqb (nl_port a) (nl_port b).

Definition snapshot_eqb (a b : DeviceSnapshot) : bool :=
  String.eqb (ds_id a) (ds_id b) && String.eqb (ds_native_id a) (ds_native_id b)
  && String.eqb (ds_integration a) (ds_integration b) && String.eqb (ds_name a) (ds_name b)
  && String.eqb (ds_manufacturer a) (ds_manufacturer b) && String.eqb (ds_model a) (ds_model b)
  && list_eqb network_eqb (ds_network a) (ds_network b)
  && list_eqb endpoint_eqb (ds_endpoints a) (ds_endpoints b)
  && Z.eqb (ds_observed_at a) (ds_observed_at b)
  && bool_decide (ds_vendor_data a = ds_vendor_data b).

Definition device_eqb (a b : DeviceRecord) : bool :=
  String.eqb (dr_installation_id a) (dr_installation_id b)
  && String.eqb (dr_integration_id a) (dr_integration_id b)
  && snapshot_eqb (dr_snapshot a) (dr_snapshot b)
  && bool_decide (dr_lifecycle a = dr_lifecycle b)
  && bool_decide (dr_availability a = dr_availability b)
  && bool_decide (dr_timestamps a = dr_timestamps b)
  && bool_decide (dr_aliases a = dr_aliases b)
  && bool_decide (dr_spaces a = dr_spaces b)
  && bool_decide (dr_capability_descriptors a = dr_capability_descriptors b).

Definition descriptors (snapshot : DeviceSnapshot) :
  list (EndpointId * list CapabilityDescriptor) :=
  bcollect (map (fun endpoint =>
    (es_id endpoint, map CapabilitySnapshot.descriptor (es_capabilities endpoint)))
    (ds_endpoints snapshot)).

Definition candidate (installation_id : InstallationId) (integration_id : IntegrationId)
  (snapshot : DeviceSnapshot) (first_seen : Instant) : DeviceRecord :=
  mk_device installation_id integration_id snapshot Candidate
    (Availability.unknown first_seen) (DeviceTimestamps.first_seen first_seen) ∅ ∅
    (descriptors snapshot).

Definition replace_snapshot (self : DeviceRecord) (snapshot : DeviceSnapshot) : DeviceRecord :=
  let snapshot := mk_snapshot (ds_id (dr_snapshot self)) (ds_native_id snapshot)
    (ds_integration snapshot) (ds_name snapshot) (ds_manufacturer snapshot)
    (ds_model snapshot) (ds_network snapshot) (ds_endpoints snapshot)
    (ds_observed_at snapshot) (ds_vendor_data snapshot) in
  mk_device (dr_installation_id self) (dr_integration_id self) snapshot (dr_lifecycle self)
    (dr_availability self) (dr_timestamps self) (dr_aliases self) (dr_spaces self)
    (descriptors snapshot).

Definition transition (self : DeviceRecord) (trigger : LifecycleTrigger) :
  result DeviceRecord LifecycleTransitionError :=
  let? lifecycle := DeviceLifecycle.transition (dr_lifecycle self) trigger in
  Ok (mk_device (dr_installation_id self) (dr_integration_id self) (dr_snapshot self)
        lifecycle (dr_availability self) (dr_timestamps self) (dr_aliases self)
        (dr_spaces self) (dr_capability_descriptors self)).

Definition freshness_at (self : DeviceRecord) (policy : FreshnessPolicy) (now : Instant) :
  FreshnessState :=
  FreshnessPolicy.evaluate policy (ts_last_success (dr_timestamps self))
    (av_state (dr_availability self)) now.

(** ** Observations *)

Record ObservedValue := mk_observed {
  ov_value : Json;
  ov_observed_at : Instant
}.
#[export] Instance ObservedValue_eq_dec : EqDecision ObservedValue.
Proof. solve_decision. Defined.

Inductive ObservationSourceKind := Src_FullStatus | Src_Notification | Src_Event | Src_RefreshFallback.

Record ObservationSource := mk_source {
  os_integration_id : IntegrationId;
  os_kind : ObservationSourceKind;
  os_sequence : option N
}.

Record CapabilityObservation := mk_observation {
  co_device_id : DeviceId;
  co_endpoint_id : EndpointId;
  co_capability : CapabilityDescriptor;
  co_values : list (string * ObservedValue);
  co_received_at : Instant;
  co_source : ObservationSource
}.

Inductive ObservationMergeError := TargetMismatch.

(** One iteration of the merge loop: the values so far and the changed fields. *)
Definition merge_field (acc : list (string * ObservedValue) * list string)
  (entry : string * ObservedValue) : list (string * ObservedValue) * list string :=
  let '(values, changed) := acc in
  let '(field, incoming) := entry in
  let should_replace :=
    match bget field values with
    | None => true
    | Some existing => (ov_observed_at existing <=? ov_observed_at incoming)%Z
    end in
  if should_replace then
    let value_changed := negb (bool_decide (bget field values = Some incoming)) in
    (binsert field incoming values,
     if value_changed then changed ++ [field] else changed)
  else (values, changed).

Definition merge_partial (self patch : CapabilityObservation) :
  result (CapabilityObservation * list string) ObservationMergeError :=
  if negb (String.eqb (co_device_id self) (co_device_id patch))
     || negb (String.eqb (co_endpoint_id self) (co_endpoint_id patch))
     || negb (bool_decide (co_capability self = co_capability patch))
     || negb (String.eqb (os_integration_id (co_source self))
                         (os_integration_id (co_source patch)))
  then Err TargetMismatch
  else
    let '(values, changed) := fold_left merge_field (co_values patch) (co_values self, []) in
    if bool_decide (changed = [])
    then Ok (mk_observation (co_device_id self) (co_endpoint_id self) (co_capability self)
               values (co_received_at self) (co_source self), changed)
    else Ok (mk_observation (co_device_id self) (co_endpoint_id self) (co_capability self)
               values (Z.max (co_received_at self) (co_received_at patch)) (co_source patch),
             changed).

(** The value a field has after a merge: the later timestamp wins, the patch on a tie. *)
Definition newer (current incoming : option ObservedValue) : option ObservedValue :=
  match current, incoming with
  | _, None => current
  | None, Some _ => incoming
  | Some c, Some i => if (ov_observed_at c <=? ov_observed_at i)%Z then Some i else Some c
  end.

(** ** Lemmas *)

Lemma merge_field_lookup values changed field incoming k :
  bget k (merge_field (values, changed) (field, incoming)).1
  = newer (bget k values) (if String.eqb field k then Some incoming else None).
Proof.
  unfold merge_field. destruct (String.eqb field k) eqn:E.
  - apply String.eqb_eq in E as ->. destruct (bget k values) as [c|] eqn:Ec; simpl.
    + destruct (Z.leb _ _); simpl; [apply bget_binsert_eq | done].
    + apply bget_binsert_eq.
  - destruct (bget field values) as [c|]; [destruct (Z.leb _ _)|]; simpl;
      rewrite ?bget_binsert, ?E; by destruct (bget k values).
Qed.

Lemma merge_field_changed values changed field incoming k :
  In k (merge_field (values, changed) (field, incoming)).2 <->
  In k changed \/
  (k = field /\ bget k (merge_field (values, changed) (field, incoming)).1 <> bget k values).
Proof.
  pose proof (merge_field_lookup values changed field incoming k) as Hl.
  destruct (String.eqb_spec field k) as [->|Hne].
  - rewrite Hl. clear Hl. unfold merge_field, newer.
    destruct (bget k values) as [c|] eqn:Ec;
      [destruct (ov_observed_at c <=? ov_observed_at incoming)%Z|]; simpl;
      try case_bool_decide; simpl; rewrite ?in_app_iff; simpl; intuition congruence.
  - rewrite Hl. unfold newer.
    assert (Hin : In k (merge_field (values, changed) (field, incoming)).2 <-> In k changed).
    { clear Hl. unfold merge_field. destruct (bget field values) as [c|];
        [destruct (ov_observed_at c <=? ov_observed_at incoming)%Z|]; simpl;
        try case_bool_decide; simpl; rewrite ?in_app_iff; simpl; intuition congruence. }
    rewrite Hin. intuition congruence.
Qed.

Lemma merge_fold_lookup patch values changed k :
  List.NoDup (map fst patch) ->
  bget k (fold_left merge_field patch (values, changed)).1
  = newer (bget k values) (bget k patch).
Proof.
  revert values changed. induction patch as [|[f i] patch IH]; intros values changed Hnd;
    cbn [fold_left bget fst].
  - by destruct (bget k values).
  - inversion Hnd as [|? ? Hn Hnd']; subst.
    destruct (merge_field (values, changed) (f, i)) as [values' changed'] eqn:Em.
    rewrite IH by done. pose proof (merge_field_lookup values changed f i k) as Hl.
    rewrite Em in Hl. simpl in Hl. rewrite Hl. rewrite String.eqb_sym.
    destruct (String.eqb k f) eqn:E; [|by destruct (bget k values)].
    apply String.eqb_eq in E as ->. destruct (bget f patch) as [x|] eqn:Ex.
    + exfalso. apply Hn. apply bget_In_keys. by rewrite Ex.
    + destruct (newer (bget f values) (Some i)); done.
Qed.

Lemma newer_none_r o : newer o None = o.
Proof. by destruct o. Qed.

Lemma merge_fold_changed patch values changed k :
  List.NoDup (map fst patch) ->
  In k (fold_left merge_field patch (values, changed)).2 <->
  In k changed \/ newer (bget k values) (bget k patch) <> bget k values.
Proof.
  revert values changed. induction patch as [|[f i] patch IH]; intros values changed Hnd;
    cbn [fold_left bget snd].
  - rewrite newer_none_r. intuition congruence.
  - inversion Hnd as [|? ? Hn Hnd']; subst.
    pose proof (merge_field_lookup values changed f i k) as Hl.
    pose proof (merge_field_changed values changed f i k) as Hc.
    destruct (merge_field (values, changed) (f, i)) as [values' changed']. simpl in *.
    rewrite IH, Hc, Hl by done. rewrite String.eqb_sym.
    destruct (String.eqb_spec k f) as [->|Hne].
    + assert (bget f patch = None) as ->.
      { destruct (bget f patch) eqn:Ex; [|done]. exfalso. apply Hn. apply bget_In_keys. by rewrite Ex. }
      rewrite newer_none_r. tauto.
    + rewrite newer_none_r. tauto.
Qed.

Lemma newer_idemp a b : newer (newer a b) b = newer a b.
Proof.
  unfold newer. destruct a as [a|], b as [b|]; simpl; try done.
  - destruct (Z.leb_spec (ov_observed_at a) (ov_observed_at b)); simpl.
    + by rewrite Z.leb_refl.
    + destruct (Z.leb_spec (ov_observed_at a) (ov_observed_at b)); [lia | done].
  - by rewrite Z.leb_refl.
Qed.

End Device.
