(* ===== verification/Command.v ===== *)
(** The command contract, [crates/homemagic-domain/src/command.rs]: actors and
    grants, typed payloads, the durable command aggregate with its state
    machine, failure codes, audit evidence and the policy data types. *)

From S2P Require Import Prelude Text Capability Lifecycle Device.

Abbreviation ActorId := string (only parsing).
Abbreviation CommandId := string (only parsing).
Abbreviation GrantId := string (only parsing).
Abbreviation AuditId := string (only parsing).
Abbreviation CorrelationId := string (only parsing).
Abbreviation EventId := string (only parsing).
Abbreviation AutomationId := string (only parsing).
Abbreviation AutomationRunId := string (only parsing).

(** ** Actors *)

Inductive ActorKind := Ak_Legacy | Ak_User | Ak_Agent | Ak_Automation | Ak_Service.
#[export] Instance ActorKind_eq_dec : EqDecision ActorKind.
Proof. solve_decision. Defined.

Record Actor := mk_actor {
  ac_id : ActorId;
  ac_installation_id : InstallationId;
  ac_kind : ActorKind;
  ac_name : string;
  ac_enabled : bool;
  ac_created_at : Instant
}.
#[export] Instance Actor_eq_dec : EqDecision Actor.
Proof. solve_decision. Defined.

(** ** Idempotency keys *)

(** The newtype over the caller's text. *)
Record IdempotencyKey := mk_key { key_text : string }.
#[export] Instance IdempotencyKey_eq_dec : EqDecision IdempotencyKey.
Proof. solve_decision. Defined.

Inductive IdempotencyKeyError := Ik_Empty | Ik_TooLong | Ik_ControlCharacter.
#[export] Instance IdempotencyKeyError_eq_dec : EqDecision IdempotencyKeyError.
Proof. solve_decision. Defined.

Module IdempotencyKey.
Definition new (value : string) : result IdempotencyKey IdempotencyKeyError :=
  guard? negb (trim_is_empty value) else Ik_Empty in
  guard? negb (128 <? length (chars value)) else Ik_TooLong in
  guard? negb (existsb is_control (chars value)) else Ik_ControlCharacter in
  Ok (mk_key value).
End IdempotencyKey.

(** ** Failure codes *)

Inductive CommandErrorCode :=
| Ce_CapabilityMismatch | Ce_ValueOutOfRange | Ce_TransitionTooLong | Ce_DeadlineExceeded
| Ce_StaleObservation | Ce_UnsupportedConstraint | Ce_IdempotencyConflict | Ce_PolicyDenied
| Ce_SupersededBeforeDispatch | Ce_RateLimited | Ce_DeviceBusy | Ce_AdapterRejected
| Ce_TransportFailure | Ce_ProtectionActive | Ce_ObstructionDetected | Ce_Overtemperature
| Ce_ConfirmationMismatch | Ce_IndeterminateAfterRestart.
#[export] Instance CommandErrorCode_eq_dec : EqDecision CommandErrorCode.
Proof. solve_decision. Defined.

(** ** Payloads *)

Inductive AccessControlCommand := Ac_Lock | Ac_Unlock.
#[export] Instance AccessControlCommand_eq_dec : EqDecision AccessControlCommand.
Proof. solve_decision. Defined.

Inductive OnOffCommand := Oo_Set (on : bool) | Oo_Toggle.
#[export] Instance OnOffCommand_eq_dec : EqDecision OnOffCommand.
Proof. solve_decision. Defined.

Record LevelCommand := mk_level {
  lc_percent : N;
  lc_transition_ms : option N
}.
#[export] Instance LevelCommand_eq_dec : EqDecision LevelCommand.
Proof. solve_decision. Defined.

Inductive PositionCommand := Pos_Open | Pos_Close | Pos_Stop | Pos_GoTo (percent : N).
#[export] Instance PositionCommand_eq_dec : EqDecision PositionCommand.
Proof. solve_decision. Defined.

Inductive CommandPayload :=
| Pl_OnOff (command : OnOffCommand)
| Pl_Level (command : LevelCommand)
| Pl_Position (command : PositionCommand)
| Pl_AccessControl (command : AccessControlCommand).
#[export] Instance CommandPayload_eq_dec : EqDecision CommandPayload.
Proof. solve_decision. Defined.

Module CommandPayload.
Definition schema (self : CommandPayload) : string :=
  match self with
  | Pl_OnOff _ => "on_off.v1"
  | Pl_Level _ => "level.v1"
  | Pl_Position _ => "position.v1"
  | Pl_AccessControl _ => "access_control.v1"
  end.

Definition validate (self : CommandPayload) : result unit CommandErrorCode :=
  match self with
  | Pl_OnOff _ | Pl_AccessControl _
  | Pl_Position (Pos_Open | Pos_Close | Pos_Stop) => Ok tt
  | Pl_Level (mk_level percent transition_ms) =>
      if N.ltb 100 percent then Err Ce_ValueOutOfRange
      else if match transition_ms with
              | Some value => N.ltb 3600000 value
              | None => false
              end
      then Err Ce_TransitionTooLong
      else Ok tt
  | Pl_Position (Pos_GoTo percent) =>
      if N.ltb 100 percent then Err Ce_ValueOutOfRange else Ok tt
  end.
End CommandPayload.

(** ** Envelopes *)

(** [crates/homemagic-domain/src/event.rs]. *)
Record AutomationCausation := mk_causation {
  cz_automation_id : AutomationId;
  cz_version : N;
  cz_run_id : AutomationRunId
}.
#[export] Instance AutomationCausation_eq_dec : EqDecision AutomationCausation.
Proof. solve_decision. Defined.

Record ExpectedObservation := mk_expected { eo_observed_at : Instant }.
#[export] Instance ExpectedObservation_eq_dec : EqDecision ExpectedObservation.
Proof. solve_decision. Defined.

Record CommandEnvelope := mk_envelope {
  ce_id : CommandId;
  ce_actor_id : ActorId;
  ce_device_id : DeviceId;
  ce_endpoint_id : EndpointId;
  ce_capability : CapabilityDescriptor;
  ce_payload : CommandPayload;
  ce_idempotency_key : IdempotencyKey;
  ce_deadline : Instant;
  ce_expected : option ExpectedObservation;
  ce_dry_run : bool;
  ce_correlation_id : CorrelationId;
  ce_causation_event_id : option EventId;
  ce_automation_causation : option AutomationCausation;
  ce_received_at : Instant
}.
#[export] Instance CommandEnvelope_eq_dec : EqDecision CommandEnvelope.
Proof. solve_decision. Defined.

Module CommandEnvelope.
Definition validate (self : CommandEnvelope) (now : Instant) : result unit CommandErrorCode :=
  guard? negb (ce_deadline self <=? now)%Z else Ce_DeadlineExceeded in
  guard? String.eqb (CapabilityDescriptor.schema (ce_capability self))
                    (CommandPayload.schema (ce_payload self)) else Ce_CapabilityMismatch in
  CommandPayload.validate (ce_payload self).
End CommandEnvelope.

(** ** The command state machine *)

Inductive CommandState :=
| Cs_Received | Cs_Validated | Cs_Rejected | Cs_Dispatched | Cs_Acknowledged
| Cs_Confirmed | Cs_Failed | Cs_TimedOut | Cs_Cancelled.
#[export] Instance CommandState_eq_dec : EqDecision CommandState.
Proof. solve_decision. Defined.
#[export] Instance CommandState_countable : Countable CommandState.
Proof.
  refine (inj_countable'
    (fun s => match s with | Cs_Received => 0 | Cs_Validated => 1 | Cs_Rejected => 2 | Cs_Dispatched => 3 | Cs_Acknowledged => 4 | Cs_Confirmed => 5 | Cs_Failed => 6 | Cs_TimedOut => 7 | Cs_Cancelled => 8 end)
    (fun n => match n with | 0 => Cs_Received | 1 => Cs_Validated | 2 => Cs_Rejected | 3 => Cs_Dispatched | 4 => Cs_Acknowledged | 5 => Cs_Confirmed | 6 => Cs_Failed | 7 => Cs_TimedOut | _ => Cs_Cancelled end) _).
  by intros [].
Defined.

Module CommandState.
Definition is_terminal (self : CommandState) : bool :=
  match self with
  | Cs_Rejected | Cs_Confirmed | Cs_Failed | Cs_TimedOut | Cs_Cancelled => true
  | _ => false
  end.

Definition allows_transition_to (self next : CommandState) : bool :=
  match self, next with
  | Cs_Received, (Cs_Validated | Cs_Rejected | Cs_TimedOut | Cs_Cancelled)
  | Cs_Validated, (Cs_Dispatched | Cs_Rejected | Cs_TimedOut | Cs_Cancelled)
  | Cs_Dispatched, (Cs_Acknowledged | Cs_Confirmed | Cs_Failed | Cs_TimedOut)
  | Cs_Acknowledged, (Cs_Confirmed | Cs_Failed | Cs_TimedOut) => true
  | _, _ => false
  end.
End CommandState.

Record AdapterAcknowledgement := mk_ack {
  aa_acknowledged_at : Instant;
  aa_code : string
}.

Record ObservedConfirmation := mk_confirmation {
  oc_confirmed_at : Instant;
  oc_observation_at : Instant
}.

Record CommandFailure := mk_failure {
  cf_code : CommandErrorCode;
  cf_detail : option string
}.

(** ** Grants and policy data *)

Inductive CommandAction :=
| Act_Validate | Act_Execute | Act_Cancel | Act_ReadAudit | Act_ApproveUnlock
| Act_MatterRead | Act_MatterCreateFabric | Act_MatterCommissionNode
| Act_MatterCancelOperation | Act_MatterRemoveNode | Act_MatterExportFabric
| Act_MatterRestoreFabric | Act_MatterRepairSubscription.
#[export] Instance CommandAction_eq_dec : EqDecision CommandAction.
Proof. solve_decision. Defined.
#[export] Instance CommandAction_countable : Countable CommandAction.
Proof.
  refine (inj_countable'
    (fun s => match s with | Act_Validate => 0 | Act_Execute => 1 | Act_Cancel => 2 | Act_ReadAudit => 3 | Act_ApproveUnlock => 4 | Act_MatterRead => 5 | Act_MatterCreateFabric => 6 | Act_MatterCommissionNode => 7 | Act_MatterCancelOperation => 8 | Act_MatterRemoveNode => 9 | Act_MatterExportFabric => 10 | Act_MatterRestoreFabric => 11 | Act_MatterRepairSubscription => 12 end)
    (fun n => match n with | 0 => Act_Validate | 1 => Act_Execute | 2 => Act_Cancel | 3 => Act_ReadAudit | 4 => Act_ApproveUnlock | 5 => Act_MatterRead | 6 => Act_MatterCreateFabric | 7 => Act_MatterCommissionNode | 8 => Act_MatterCancelOperation | 9 => Act_MatterRemoveNode | 10 => Act_MatterExportFabric | 11 => Act_MatterRestoreFabric | _ => Act_MatterRepairSubscription end) _).
  by intros [].
Defined.

Inductive GrantScope :=
| Scope_Installation (installation_id : InstallationId)
| Scope_Space (space_id : SpaceId)
| Scope_Device (device_id : DeviceId)
| Scope_Capability (device_id : DeviceId) (endpoint_id : EndpointId) (schema : string).

Record ActorGrant := mk_grant {
  ag_id : GrantId;
  ag_actor_id : ActorId;
  ag_actions : gset CommandAction;
  ag_scope : GrantScope;
  ag_maximum_risk : RiskClass;
  ag_enabled : bool
}.

Inductive ConstraintState := Con_Available | Con_Unavailable.
#[export] Instance ConstraintState_eq_dec : EqDecision ConstraintState.
Proof. solve_decision. Defined.

Inductive CapacityState := Cap_Available | Cap_Exhausted.
#[export] Instance CapacityState_eq_dec : EqDecision CapacityState.
Proof. solve_decision. Defined.

Record PolicyInput := mk_policy_input {
  pi_actor : Actor;
  pi_action : CommandAction;
  pi_device_id : DeviceId;
  pi_endpoint_id : EndpointId;
  pi_schema : string;
  pi_risk : RiskClass;
  pi_spaces : gset SpaceId;
  pi_freshness : FreshnessState;
  pi_constraint : ConstraintState;
  pi_rate_capacity : CapacityState;
  pi_device_capacity : CapacityState;
  pi_dry_run : bool;
  pi_evaluated_at : Instant
}.

Inductive PolicyReason :=
| Pr_ActorDisabled | Pr_NoMatchingGrant | Pr_RiskExceedsGrant | Pr_MechanicalGrantRequired
| Pr_SecurityExactGrantRequired | Pr_InteractiveUserRequired | Pr_StateNotFresh
| Pr_ConstraintUnavailable | Pr_RateLimitExceeded | Pr_DeviceConcurrencyExceeded
| Pr_AllowedByGrant.
#[export] Instance PolicyReason_eq_dec : EqDecision PolicyReason.
Proof. solve_decision. Defined.
#[export] Instance PolicyReason_countable : Countable PolicyReason.
Proof.
  refine (inj_countable'
    (fun s => match s with | Pr_ActorDisabled => 0 | Pr_NoMatchingGrant => 1 | Pr_RiskExceedsGrant => 2 | Pr_MechanicalGrantRequired => 3 | Pr_SecurityExactGrantRequired => 4 | Pr_InteractiveUserRequired => 5 | Pr_StateNotFresh => 6 | Pr_ConstraintUnavailable => 7 | Pr_RateLimitExceeded => 8 | Pr_DeviceConcurrencyExceeded => 9 | Pr_AllowedByGrant => 10 end)
    (fun n => match n with | 0 => Pr_ActorDisabled | 1 => Pr_NoMatchingGrant | 2 => Pr_RiskExceedsGrant | 3 => Pr_MechanicalGrantRequired | 4 => Pr_SecurityExactGrantRequired | 5 => Pr_InteractiveUserRequired | 6 => Pr_StateNotFresh | 7 => Pr_ConstraintUnavailable | 8 => Pr_RateLimitExceeded | 9 => Pr_DeviceConcurrencyExceeded | _ => Pr_AllowedByGrant end) _).
  by intros [].
Defined.

Record PolicyDecision := mk_decision {
  pd_policy_version : N;
  pd_allowed : bool;
  pd_reasons : gset PolicyReason;
  pd_evaluated_at : Instant
}.

(** ** The durable aggregate *)

(** Decisions, acknowledgements, confirmations and failures are compared by the
    stores and the tests of the model. *)
#[export] Instance PolicyDecision_eq_dec : EqDecision PolicyDecision.
Proof. solve_decision. Defined.
#[export] Instance AdapterAcknowledgement_eq_dec : EqDecision AdapterAcknowledgement.
Proof. solve_decision. Defined.
#[export] Instance ObservedConfirmation_eq_dec : EqDecision ObservedConfirmation.
Proof. solve_decision. Defined.
#[export] Instance CommandFailure_eq_dec : EqDecision CommandFailure.
Proof. solve_decision. Defined.

Record CommandAggregate := mk_command {
  ca_envelope : CommandEnvelope;
  ca_state : CommandState;
  ca_version : N;
  ca_policy : option PolicyDecision;
  ca_acknowledgement : option AdapterAcknowledgement;
  ca_confirmation : option ObservedConfirmation;
  ca_failure : option CommandFailure;
  ca_updated_at : Instant
}.

Record CommandTransitionError := mk_transition_error {
  cte_from : CommandState;
  cte_to : CommandState
}.

Record CommandAuditRecord := mk_audit {
  au_id : AuditId;
  au_command_id : CommandId;
  au_sequence : N;
  au_from : option CommandState;
  au_to : CommandState;
  au_actor_id : ActorId;
  au_policy : option PolicyDecision;
  au_failure : option CommandFailure;
  au_acknowledgement : option AdapterAcknowledgement;
  au_confirmation : option ObservedConfirmation;
  au_correlation_id : CorrelationId;
  au_causation_event_id : option EventId;
  au_occurred_at : Instant
}.

Module CommandAggregate.
Definition received (envelope : CommandEnvelope) : CommandAggregate :=
  mk_command envelope Cs_Received 0 None None None None (ce_received_at envelope).

Definition transition (self : CommandAggregate) (next : CommandState) (at_ : Instant) :
  result CommandAggregate CommandTransitionError :=
  if CommandState.allows_transition_to (ca_state self) next
  then Ok (mk_command (ca_envelope self) next (u64_saturating_add (ca_version self) 1)
             (ca_policy self) (ca_acknowledgement self) (ca_confirmation self)
             (ca_failure self) at_)
  else Err (mk_transition_error (ca_state self) next).

Definition is_terminal (self : CommandAggregate) : bool :=
  CommandState.is_terminal (ca_state self)
  || (ce_dry_run (ca_envelope self) && bool_decide (ca_state self = Cs_Validated)).

(** Field updates of the aggregate ([command.policy = ..] and so on). *)
Definition set_policy (self : CommandAggregate) (p : option PolicyDecision) :=
  mk_command (ca_envelope self) (ca_state self) (ca_version self) p
    (ca_acknowledgement self) (ca_confirmation self) (ca_failure self) (ca_updated_at self).
Definition set_acknowledgement (self : CommandAggregate) (a : option AdapterAcknowledgement) :=
  mk_command (ca_envelope self) (ca_state self) (ca_version self) (ca_policy self)
    a (ca_confirmation self) (ca_failure self) (ca_updated_at self).
Definition set_confirmation (self : CommandAggregate) (c : option ObservedConfirmation) :=
  mk_command (ca_envelope self) (ca_state self) (ca_version self) (ca_policy self)
    (ca_acknowledgement self) c (ca_failure self) (ca_updated_at self).
Definition set_failure (self : CommandAggregate) (f : option CommandFailure) :=
  mk_command (ca_envelope self) (ca_state self) (ca_version self) (ca_policy self)
    (ca_acknowledgement self) (ca_confirmation self) f (ca_updated_at self).
End CommandAggregate.

(** ** Lemmas *)

(** Progress of a command through its lifecycle: every edge strictly increases it. *)
Definition command_rank (s : CommandState) : N :=
  match s with
  | Cs_Received => 0
  | Cs_Validated => 1
  | Cs_Dispatched => 2
  | Cs_Acknowledged => 3
  | _ => 4
  end.

Lemma allows_transition_rank s t :
  CommandState.allows_transition_to s t = true -> (command_rank s < command_rank t)%N.
Proof. by destruct s, t. Qed.

Lemma terminal_no_transition s t :
  CommandState.is_terminal s = true -> CommandState.allows_transition_to s t = false.
Proof. by destruct s, t. Qed.

Lemma transition_ok c next at_ c' :
  CommandAggregate.transition c next at_ = Ok c' ->
  CommandState.allows_transition_to (ca_state c) next = true /\
  ca_envelope c' = ca_envelope c /\ ca_state c' = next /\
  ca_version c' = u64_saturating_add (ca_version c) 1 /\
  ca_policy c' = ca_policy c /\ ca_acknowledgement c' = ca_acknowledgement c /\
  ca_confirmation c' = ca_confirmation c /\ ca_failure c' = ca_failure c /\
  ca_updated_at c' = at_.
Proof.
  unfold CommandAggregate.transition. case_match; [|discriminate].
  intros [= <-]. simpl. tauto.
Qed.

#[export] Hint Resolve allows_transition_rank : hm.
