(* ===== verification/Policy.v ===== *)
(** Default-deny command policy and bounded admission,
    [crates/homemagic-application/src/policy.rs]. *)

From Stdlib Require Import Sorting.Sorted.
From S2P Require Import Prelude Text Capability Lifecycle Device Command.

Definition POLICY_VERSION : N := 1.

Definition scope_matches (scope : GrantScope) (input : PolicyInput) : bool :=
  match scope with
  | Scope_Installation installation_id =>
      String.eqb installation_id (ac_installation_id (pi_actor input))
  | Scope_Space space_id => bool_decide (space_id ∈ pi_spaces input)
  | Scope_Device device_id => String.eqb device_id (pi_device_id input)
  | Scope_Capability device_id endpoint_id schema =>
      String.eqb device_id (pi_device_id input)
      && String.eqb endpoint_id (pi_endpoint_id input)
      && String.eqb schema (pi_schema input)
  end.

Module PolicyEvaluator.
(** The grants that apply to the request, and those that cover its risk. *)
Definition scoped (input : PolicyInput) (grants : list ActorGrant) : list ActorGrant :=
  List.filter (fun grant => scope_matches (ag_scope grant) input)
    (List.filter (fun grant => bool_decide (pi_action input ∈ ag_actions grant))
      (List.filter (fun grant =>
         String.eqb (ag_actor_id grant) (ac_id (pi_actor input)) && ag_enabled grant) grants)).

Definition risk_matched (input : PolicyInput) (grants : list ActorGrant) : list ActorGrant :=
  List.filter (fun grant => RiskClass.permits (ag_maximum_risk grant) (pi_risk input))
    (scoped input grants).

Definition is_exact (input : PolicyInput) (grant : ActorGrant) : bool :=
  match ag_scope grant with
  | Scope_Capability device_id endpoint_id schema =>
      String.eqb device_id (pi_device_id input)
      && String.eqb endpoint_id (pi_endpoint_id input)
      && String.eqb schema (pi_schema input)
  | _ => false
  end.

Definition add_if (b : bool) (r : PolicyReason) (reasons : gset PolicyReason) :
  gset PolicyReason := if b then {[r]} ∪ reasons else reasons.

(** The denial reasons, in the order the evaluator inserts them. *)
Definition denials (input : PolicyInput) (grants : list ActorGrant) : gset PolicyReason :=
  let scoped_grants := scoped input grants in
  let matched := risk_matched input grants in
  let reasons := ∅ in
  let reasons := add_if (negb (ac_enabled (pi_actor input))) Pr_ActorDisabled reasons in
  let reasons := add_if (bool_decide (pi_action input = Act_ApproveUnlock)
                         && negb (bool_decide (ac_kind (pi_actor input) = Ak_User)))
                   Pr_InteractiveUserRequired reasons in
  let reasons :=
    if bool_decide (length scoped_grants = 0) then add_if true Pr_NoMatchingGrant reasons
    else add_if (bool_decide (length matched = 0)) Pr_RiskExceedsGrant reasons in
  let reasons :=
    match pi_risk input with
    | Risk_Observe | Risk_Comfort => reasons
    | Risk_Mechanical =>
        let reasons := add_if (bool_decide (length matched = 0))
                         Pr_MechanicalGrantRequired reasons in
        let reasons := add_if (negb (bool_decide (pi_freshness input = Fr_Fresh)))
                         Pr_StateNotFresh reasons in
        add_if (negb (bool_decide (pi_constraint input = Con_Available)))
          Pr_ConstraintUnavailable reasons
    | Risk_Security =>
        add_if (negb (existsb (is_exact input) matched))
          Pr_SecurityExactGrantRequired reasons
    end in
  let reasons := add_if (bool_decide (pi_rate_capacity input = Cap_Exhausted))
                   Pr_RateLimitExceeded reasons in
  add_if (bool_decide (pi_device_capacity input = Cap_Exhausted))
    Pr_DeviceConcurrencyExceeded reasons.

Definition evaluate (input : PolicyInput) (grants : list ActorGrant) : PolicyDecision :=
  let reasons := denials input grants in
  let allowed := bool_decide (reasons = ∅)
                 && negb (bool_decide (length (risk_matched input grants) = 0)) in
  mk_decision POLICY_VERSION allowed (add_if allowed Pr_AllowedByGrant reasons)
    (pi_evaluated_at input).
End PolicyEvaluator.

(** ** Admission limits *)

Record CommandLimitConfig := mk_limits {
  cl_actor_requests : nat;
  cl_actor_window : TimeDelta;
  cl_device_concurrency : nat
}.

Inductive CommandLimitConfigError := command_limit_config_error.

Module CommandLimitConfig.
Definition new (actor_requests : nat) (actor_window : TimeDelta) (device_concurrency : nat) :
  result CommandLimitConfig CommandLimitConfigError :=
  if (actor_requests =? 0) || (actor_window <=? 0)%Z || (device_concurrency =? 0)
  then Err command_limit_config_error
  else Ok (mk_limits actor_requests actor_window device_concurrency).

Definition default : CommandLimitConfig := mk_limits 60 (delta_seconds 60) 1.
End CommandLimitConfig.

(** Request instants per actor, oldest first, and the free permits of every
    device semaphore that was created. *)
Record LimitState := mk_limit_state {
  ls_actor_requests : gmap string (list Instant);
  ls_devices : gmap string nat
}.

Record CommandLimitCapacities := mk_capacities {
  cc_rate : CapacityState;
  cc_device : CapacityState;
  cc_permit : bool
}.

Module CommandLimits.
(** [while requests.front() <= cutoff { pop_front }]. *)
Fixpoint drop_expired (cutoff : Instant) (requests : list Instant) : list Instant :=
  match requests with
  | at_ :: rest => if (at_ <=? cutoff)%Z then drop_expired cutoff rest else requests
  | [] => []
  end.

(** [try_acquire] between two interleaving points: the state lock is held
    for the rate window, and no other task takes a permit in between. *)
Definition try_acquire (config : CommandLimitConfig) (state : LimitState)
  (actor_id : ActorId) (device_id : DeviceId) (now : Instant) :
  CommandLimitCapacities * LimitState :=
  let requests := default [] (ls_actor_requests state !! actor_id) in
  let cutoff := (now - cl_actor_window config)%Z in
  let requests := drop_expired cutoff requests in
  let '(rate_capacity, requests) :=
    if length requests <? cl_actor_requests config
    then (Cap_Available, requests ++ [now])
    else (Cap_Exhausted, requests) in
  let device := default (cl_device_concurrency config) (ls_devices state !! device_id) in
  let device_was_available := 0 <? device in
  let permit := bool_decide (rate_capacity = Cap_Available) && (0 <? device) in
  let device_capacity :=
    if permit || device_was_available then Cap_Available else Cap_Exhausted in
  (mk_capacities rate_capacity device_capacity permit,
   mk_limit_state (<[actor_id := requests]> (ls_actor_requests state))
     (<[device_id := if permit then device - 1 else device]> (ls_devices state))).

(** Dropping a held [CommandPermit] returns it to its device. *)
Definition release (state : LimitState) (device_id : DeviceId) : LimitState :=
  mk_limit_state (ls_actor_requests state)
    (alter S device_id (ls_devices state)).
End CommandLimits.

(** ** Lemmas *)

Lemma add_if_empty b r reasons :
  PolicyEvaluator.add_if b r reasons = ∅ <-> b = false /\ reasons = ∅.
Proof.
  unfold PolicyEvaluator.add_if. destruct b; [|tauto].
  split; [|intros [? _]; discriminate]. intros H. exfalso.
  apply (not_elem_of_empty (C := gset PolicyReason) r). rewrite <- H.
  apply elem_of_union_l. by apply elem_of_singleton.
Qed.

Lemma In_scoped input grants g :
  In g (PolicyEvaluator.scoped input grants) <->
  In g grants /\ ag_actor_id g = ac_id (pi_actor input) /\ ag_enabled g = true /\
  pi_action input ∈ ag_actions g /\ scope_matches (ag_scope g) input = true.
Proof.
  unfold PolicyEvaluator.scoped.
  rewrite !filter_In, andb_true_iff, String.eqb_eq, bool_decide_eq_true. tauto.
Qed.

Lemma In_risk_matched input grants g :
  In g (PolicyEvaluator.risk_matched input grants) <->
  In g (PolicyEvaluator.scoped input grants) /\
  RiskClass.permits (ag_maximum_risk g) (pi_risk input) = true.
Proof. unfold PolicyEvaluator.risk_matched. apply filter_In. Qed.

Lemma length_0_false {A} (l : list A) :
  bool_decide (length l = 0) = false <-> exists x, In x l.
Proof.
  rewrite bool_decide_eq_false. destruct l as [|x l]; simpl.
  - split; [lia | by intros [? ?]].
  - split; [eauto | lia].
Qed.

Lemma drop_expired_length cutoff l : length (CommandLimits.drop_expired cutoff l) <= length l.
Proof. induction l as [|a l IH]; simpl; [lia|]. case_match; simpl; lia. Qed.

Lemma drop_expired_suffix cutoff l :
  exists dropped, l = dropped ++ CommandLimits.drop_expired cutoff l /\
  Forall (fun t => (t <= cutoff)%Z) dropped.
Proof.
  induction l as [|a l (dr & Heq & Hdr)]; simpl; [by exists []|].
  destruct (Z.leb_spec a cutoff).
  - exists (a :: dr). simpl. split; [congruence | by constructor].
  - by exists [].
Qed.

Lemma drop_expired_recent cutoff l :
  StronglySorted Z.le l ->
  Forall (fun t => (cutoff < t)%Z) (CommandLimits.drop_expired cutoff l).
Proof.
  intros Hs. induction Hs as [|a l Hs IH Ha]; simpl; [constructor|].
  destruct (Z.leb_spec a cutoff); [done|]. constructor; [done|].
  eapply Forall_impl; [exact Ha|]. simpl. intros; lia.
Qed.

(** * Properties of the policy evaluator and of the admission limits. *)

(** ** What the evaluator allows *)

(** A grant applies to a request: it belongs to the actor, is enabled, names the
    action, covers the target and permits the risk. *)
Definition grant_applies (input : PolicyInput) (g : ActorGrant) : Prop :=
  ag_actor_id g = ac_id (pi_actor input) /\ ag_enabled g = true /\
  pi_action input ∈ ag_actions g /\ scope_matches (ag_scope g) input = true /\
  RiskClass.permits (ag_maximum_risk g) (pi_risk input) = true.

(** The default-deny contract of the policy. *)
Record policy_permits (input : PolicyInput) (grants : list ActorGrant) : Prop := {
  pp_enabled : ac_enabled (pi_actor input) = true;
  pp_interactive : pi_action input = Act_ApproveUnlock -> ac_kind (pi_actor input) = Ak_User;
  pp_grant : exists g, In g grants /\ grant_applies input g;
  pp_mechanical : pi_risk input = Risk_Mechanical ->
    pi_freshness input = Fr_Fresh /\ pi_constraint input = Con_Available;
  pp_security : pi_risk input = Risk_Security ->
    exists g, In g grants /\ grant_applies input g /\
      ag_scope g = Scope_Capability (pi_device_id input) (pi_endpoint_id input) (pi_schema input);
  pp_rate : pi_rate_capacity input = Cap_Available;
  pp_device : pi_device_capacity input = Cap_Available
}.

Lemma In_matched input grants g :
  In g (PolicyEvaluator.risk_matched input grants) <-> In g grants /\ grant_applies input g.
Proof. rewrite In_risk_matched, In_scoped. unfold grant_applies. tauto. Qed.

Lemma is_exact_iff input g :
  PolicyEvaluator.is_exact input g = true <->
  ag_scope g = Scope_Capability (pi_device_id input) (pi_endpoint_id input) (pi_schema input).
Proof.
  unfold PolicyEvaluator.is_exact. destruct (ag_scope g); try (split; discriminate).
  rewrite !andb_true_iff, !String.eqb_eq. split; [intros [[-> ->] ->]; done | by intros [= -> -> ->]].
Qed.

Lemma matched_nonempty input grants :
  bool_decide (length (PolicyEvaluator.risk_matched input grants) = 0) = false <->
  exists g, In g grants /\ grant_applies input g.
Proof. rewrite length_0_false. by setoid_rewrite In_matched. Qed.

Lemma exact_matched input grants :
  existsb (PolicyEvaluator.is_exact input) (PolicyEvaluator.risk_matched input grants) = true <->
  exists g, In g grants /\ grant_applies input g /\
    ag_scope g = Scope_Capability (pi_device_id input) (pi_endpoint_id input) (pi_schema input).
Proof.
  rewrite existsb_exists. setoid_rewrite In_matched. setoid_rewrite is_exact_iff. naive_solver.
Qed.

Lemma available_iff c : bool_decide (c = Cap_Exhausted) = false <-> c = Cap_Available.
Proof. by destruct c. Qed.

(** The reasons of a denial are empty exactly when the contract holds. *)
Lemma denials_empty input grants :
  PolicyEvaluator.denials input grants = ∅ <-> policy_permits input grants.
Proof.
  unfold PolicyEvaluator.denials. cbn zeta. rewrite !add_if_empty, !available_iff.
  pose proof (matched_nonempty input grants) as Hm. pose proof (exact_matched input grants) as Hx.
  assert (bool_decide (length (PolicyEvaluator.scoped input grants) = 0) = true ->
    bool_decide (length (PolicyEvaluator.risk_matched input grants) = 0) = true) as Hs.
  { rewrite !bool_decide_eq_true. unfold PolicyEvaluator.risk_matched. intros H0%nil_length_inv.
    by rewrite H0. }
  set (matched := bool_decide (length (PolicyEvaluator.risk_matched input grants) = 0)) in *.
  set (exact := existsb _ _) in *.
  assert (forall reasons, (if bool_decide (length (PolicyEvaluator.scoped input grants) = 0)
      then PolicyEvaluator.add_if true Pr_NoMatchingGrant reasons
      else PolicyEvaluator.add_if matched Pr_RiskExceedsGrant reasons) = ∅ <->
      matched = false /\ reasons = ∅) as Hgrant.
  { intros reasons. case_match; rewrite add_if_empty; [|done].
    split; [by intros [? _] | intros [Hf _]]. by rewrite Hs in Hf. }
  split.
  - intros (Hd & Hr & H0).
    assert (matched = false /\ ac_enabled (pi_actor input) = true /\
      (pi_action input = Act_ApproveUnlock -> ac_kind (pi_actor input) = Ak_User) /\
      (pi_risk input = Risk_Mechanical ->
        pi_freshness input = Fr_Fresh /\ pi_constraint input = Con_Available) /\
      (pi_risk input = Risk_Security -> exact = true)) as (Hmf & He & Hi & Hmech & Hsec).
    { destruct (pi_risk input); rewrite ?add_if_empty in H0;
        repeat match goal with H : _ /\ _ |- _ => destruct H end; bool_inv;
        try (match goal with H : _ = ∅ |- _ => apply Hgrant in H as [? H]; rewrite !add_if_empty in H end);
        repeat match goal with H : _ /\ _ |- _ => destruct H end; bool_inv;
        repeat split; try done; try (intros Ha;
          match goal with H : _ \/ _ |- _ => destruct H as [H|H] end; by bool_inv). }
    split; try done.
    + by apply Hm.
    + intros Hrisk. by apply Hx, Hsec.
  - intros [He Hi Hg Hmech Hsec Hr Hd]. apply Hm in Hg. split; [done|]. split; [done|].
    assert (forall reasons, reasons = ∅ ->
      (if bool_decide (length (PolicyEvaluator.scoped input grants) = 0)
       then PolicyEvaluator.add_if true Pr_NoMatchingGrant reasons
       else PolicyEvaluator.add_if matched Pr_RiskExceedsGrant reasons) = ∅) as Hgr
      by (intros; by apply Hgrant).
    assert (PolicyEvaluator.add_if
      (bool_decide (pi_action input = Act_ApproveUnlock)
       && negb (bool_decide (ac_kind (pi_actor input) = Ak_User))) Pr_InteractiveUserRequired
      (PolicyEvaluator.add_if (negb (ac_enabled (pi_actor input))) Pr_ActorDisabled ∅) = ∅) as H0.
    { rewrite !add_if_empty, He. split; [|done]. destruct (decide (pi_action input = Act_ApproveUnlock)).
      - rewrite (bool_decide_true (ac_kind _ = _)) by auto. apply andb_false_r.
      - by rewrite bool_decide_false. }
    destruct (pi_risk input); rewrite ?add_if_empty; try by apply Hgr.
    + destruct (Hmech eq_refl) as [-> ->]. split; [done|]. split; [done|]. split; [done|]. by apply Hgr.
    + split; [|by apply Hgr]. apply negb_false_iff. by apply Hx, Hsec.
Qed.

Lemma evaluate_allowed_iff input grants :
  pd_allowed (PolicyEvaluator.evaluate input grants) = true <-> policy_permits input grants.
Proof.
  unfold PolicyEvaluator.evaluate. cbn [pd_allowed]. rewrite andb_true_iff, bool_decide_eq_true.
  rewrite negb_true_iff, matched_nonempty, denials_empty. split; [tauto|].
  intros Hp. split; [done | apply (pp_grant _ _ Hp)].
Qed.

Lemma not_in_add_if b r r' reasons :
  r' <> r -> r' ∉ reasons -> r' ∉ PolicyEvaluator.add_if b r reasons.
Proof. unfold PolicyEvaluator.add_if. destruct b; set_solver. Qed.

Lemma denials_no_allow input grants : Pr_AllowedByGrant ∉ PolicyEvaluator.denials input grants.
Proof.
  unfold PolicyEvaluator.denials. cbn zeta.
  repeat (apply not_in_add_if; [done|]). destruct (pi_risk input);
    repeat (apply not_in_add_if; [done|]); case_match;
    repeat (apply not_in_add_if; [done|]); set_solver.
Qed.

(** C8: Default deny.  The policy allows a request exactly when its actor is
    enabled (and interactive, to approve an unlock), an enabled grant of the
    actor covers action, target and risk, a mechanical request finds fresh state
    and an available constraint, a security request holds a grant for exactly
    its capability, and both limits have capacity.  The reasons are the single
    permission then, and otherwise a non-empty set of denials. *)
Theorem policy_default_deny input grants :
  let decision := PolicyEvaluator.evaluate input grants in
  (pd_allowed decision = true <-> policy_permits input grants) /\
  (pd_allowed decision = true -> pd_reasons decision = {[Pr_AllowedByGrant]}) /\
  (pd_allowed decision = false ->
   pd_reasons decision <> ∅ /\ Pr_AllowedByGrant ∉ pd_reasons decision).
Proof.
  cbn zeta. pose proof (evaluate_allowed_iff input grants) as Hiff. split; [done|].
  unfold PolicyEvaluator.evaluate in *. cbn [pd_allowed pd_reasons] in *.
  split; intros Ha; rewrite Ha; simpl.
  - apply Hiff, denials_empty in Ha. rewrite Ha. set_solver.
  - split; [|apply denials_no_allow]. intros H0%denials_empty.
    apply Hiff in H0. congruence.
Qed.

(** ** Admission limits *)

(** The calls that reach the limits, in the order the lock serialises them. *)
Inductive LimitCall :=
| Lc_acquire (actor_id : ActorId) (device_id : DeviceId) (now : Instant)
| Lc_release (device_id : DeviceId).

(** A trace: the admitted requests, newest first, and the permits held.  A call
    reads its clock before it waits for the lock, so the instants of the calls may
    run backwards: the trace keeps the latest of them and how far, at most, one
    lay behind an earlier one. *)
Record LimitTrace := mk_trace {
  lt_state : LimitState;
  lt_admitted : list (ActorId * Instant);
  lt_held : gmap string nat;
  lt_latest : option Instant;
  lt_lag : TimeDelta
}.

Definition empty_trace : LimitTrace := mk_trace (mk_limit_state ∅ ∅) [] ∅ None 0.

(** The latest instant and the greatest lag after a call at [now]. *)
Definition latest_of (t : LimitTrace) (now : Instant) : Instant :=
  match lt_latest t with Some latest => Z.max latest now | None => now end.
Definition lag_of (t : LimitTrace) (now : Instant) : TimeDelta :=
  Z.max (lt_lag t) (latest_of t now - now).

Definition held (t : LimitTrace) (d : DeviceId) : nat := default 0 (lt_held t !! d).

(** One call; only a holder releases, by dropping its permit. *)
Definition limit_call (config : CommandLimitConfig) (t : LimitTrace) (call : LimitCall) :
  option LimitTrace :=
  match call with
  | Lc_acquire actor device now =>
      let '(c, state) := CommandLimits.try_acquire config (lt_state t) actor device now in
      Some (mk_trace state
        (if bool_decide (cc_rate c = Cap_Available) then (actor, now) :: lt_admitted t
         else lt_admitted t)
        (if cc_permit c then <[device := S (held t device)]> (lt_held t) else lt_held t)
        (Some (latest_of t now)) (lag_of t now))
  | Lc_release device =>
      match held t device with
      | O => None
      | S n => Some (mk_trace (CommandLimits.release (lt_state t) device) (lt_admitted t)
                 (<[device := n]> (lt_held t)) (lt_latest t) (lt_lag t))
      end
  end.

Fixpoint limit_calls (config : CommandLimitConfig) (t : LimitTrace) (calls : list LimitCall) :
  option LimitTrace :=
  match calls with
  | [] => Some t
  | call :: calls => t ← limit_call config t call; limit_calls config t calls
  end.

(** The requests of an actor admitted within the period that ends at [at_]. *)
Definition in_window (period : TimeDelta) (t : LimitTrace) (actor : ActorId) (at_ : Instant) :
  list (ActorId * Instant) :=
  List.filter (fun r => String.eqb r.1 actor && (at_ - period <? r.2)%Z && (r.2 <=? at_)%Z)
    (lt_admitted t).

(** The instants at which an actor was admitted, newest first. *)
Definition admitted (t : LimitTrace) (actor : ActorId) : list Instant :=
  map snd (List.filter (fun r => String.eqb r.1 actor) (lt_admitted t)).

Definition window (period : TimeDelta) (at_ s : Instant) : bool :=
  (at_ - period <? s)%Z && (s <=? at_)%Z.

Lemma in_window_length period t actor at_ :
  length (in_window period t actor at_) =
  length (List.filter (window period at_) (admitted t actor)).
Proof.
  unfold in_window, admitted, window. induction (lt_admitted t) as [|[a s] l IH]; simpl; [done|].
  destruct (String.eqb a actor); simpl; [|done]. case_match; simpl; congruence.
Qed.

(** A shorter period holds fewer requests. *)
Lemma window_shorter period period' at_ l :
  (period' <= period)%Z ->
  length (List.filter (window period' at_) l) <= length (List.filter (window period at_) l).
Proof.
  intros Hle. induction l as [|s l IH]; simpl; [lia|].
  destruct (window period' at_ s) eqn:Hw; unfold window in *; bool_inv.
  - assert ((at_ - period <? s)%Z = true) as -> by (apply Z.ltb_lt; lia).
    assert ((s <=? at_)%Z = true) as -> by (apply Z.leb_le; lia). simpl. lia.
  - case_match; simpl; lia.
Qed.

Section Limits.
Context (config : CommandLimitConfig).

Definition queue (t : LimitTrace) (actor : ActorId) : list Instant :=
  default [] (ls_actor_requests (lt_state t) !! actor).

(** Nothing lies before the first call. *)
Definition elapsed (t : LimitTrace) (s : Instant) : Prop :=
  match lt_latest t with Some latest => (s <= latest)%Z | None => False end.

Record limits_inv (t : LimitTrace) : Prop := {
  li_queue : forall a, exists dropped, admitted t a = rev (queue t a) ++ dropped /\
    Forall (fun s => elapsed t (s + cl_actor_window config)) dropped;
  li_lag : (0 <= lt_lag t)%Z;
  li_bound : forall a, length (queue t a) <= cl_actor_requests config;
  li_window : forall a at_, length (in_window (cl_actor_window config - lt_lag t) t a at_)
    <= cl_actor_requests config;
  li_permits : forall d, match ls_devices (lt_state t) !! d with
    | Some n => n + held t d = cl_device_concurrency config
    | None => held t d = 0
    end
}.

Lemma filter_length_le {A} (f : A -> bool) l : length (List.filter f l) <= length l.
Proof. induction l as [|a l IH]; simpl; [lia|]. case_match; simpl; lia. Qed.

Lemma filter_none {A} (f : A -> bool) l : Forall (fun a => f a = false) l -> List.filter f l = [].
Proof. induction 1 as [|a l Ha Hl IH]; simpl; [done|]. by rewrite Ha. Qed.

Lemma elapsed_latest t now s : elapsed t s -> (s <= latest_of t now)%Z.
Proof. unfold elapsed, latest_of. destruct (lt_latest t); [lia|done]. Qed.

(** What a call no longer remembers lies a window behind the latest instant. *)
Lemma dropped_queue t a now :
  limits_inv t ->
  let q := CommandLimits.drop_expired (now - cl_actor_window config) (queue t a) in
  exists dropped, admitted t a = rev q ++ dropped /\
    Forall (fun s => (s + cl_actor_window config <= latest_of t now)%Z) dropped.
Proof.
  intros Hi q. destruct (li_queue _ Hi a) as (d & Had & Hd).
  destruct (drop_expired_suffix (now - cl_actor_window config) (queue t a)) as (e & He & Hold).
  exists (rev e ++ d). split.
  - rewrite Had, He at 1. by rewrite rev_app_distr, <- app_assoc.
  - apply Forall_app. split.
    + apply Forall_rev. eapply Forall_impl; [exact Hold|]. simpl. intros s Hs.
      unfold latest_of. destruct (lt_latest t); lia.
    + eapply Forall_impl; [exact Hd|]. simpl. intros s Hs. by apply elapsed_latest.
Qed.

(** A window shortened by the lag that ends after the call holds only requests
    the call still remembers. *)
Lemma window_bound t a now at_ :
  limits_inv t -> (now <= at_)%Z ->
  length (List.filter (window (cl_actor_window config - lag_of t now) at_) (admitted t a)) <=
  length (CommandLimits.drop_expired (now - cl_actor_window config) (queue t a)).
Proof.
  intros Hi Hat. destruct (dropped_queue t a now Hi) as (d & -> & Hd).
  rewrite List.filter_app, length_app, (filter_none _ d), Nat.add_0_r.
  - etransitivity; [apply filter_length_le|]. by rewrite length_rev.
  - eapply Forall_impl; [exact Hd|]. simpl. intros s Hs. unfold window, lag_of.
    apply andb_false_iff. left. apply Z.ltb_ge. lia.
Qed.

(** The state after an acquisition. *)
Lemma acquired_inv t actor device now :
  limits_inv t ->
  let q := CommandLimits.drop_expired (now - cl_actor_window config) (queue t actor) in
  let admit_call := length q <? cl_actor_requests config in
  let free := default (cl_device_concurrency config) (ls_devices (lt_state t) !! device) in
  limits_inv (mk_trace
    (mk_limit_state
       (<[actor := if admit_call then q ++ [now] else q]> (ls_actor_requests (lt_state t)))
       (<[device := if admit_call && (0 <? free) then free - 1 else free]> (ls_devices (lt_state t))))
    (if admit_call then (actor, now) :: lt_admitted t else lt_admitted t)
    (if admit_call && (0 <? free) then <[device := S (held t device)]> (lt_held t) else lt_held t)
    (Some (latest_of t now)) (lag_of t now)).
Proof.
  intros Hi q admit_call free.
  assert (forall a, admitted (mk_trace (lt_state t)
    (if admit_call then (actor, now) :: lt_admitted t else lt_admitted t) (lt_held t) (lt_latest t) (lt_lag t)) a =
    if admit_call && String.eqb actor a then now :: admitted t a else admitted t a) as Hadm.
  { intros a. unfold admitted. simpl. destruct admit_call; simpl; [|done]. by destruct (String.eqb actor a). }
  unfold admitted in Hadm. simpl in Hadm. fold (admitted t) in Hadm.
  split; unfold queue, held, elapsed; simpl.
  - intros a. unfold admitted. simpl. rewrite Hadm. destruct (decide (actor = a)) as [<-|Hne].
    + rewrite lookup_insert_eq, String.eqb_refl, andb_true_r. simpl.
      destruct (dropped_queue t actor now Hi) as (d & Hd & Hold). fold q in Hd. exists d.
      split; [|done]. fold (admitted t actor). rewrite Hd.
      destruct admit_call; [by rewrite rev_app_distr | done].
    + rewrite lookup_insert_ne by done. apply String.eqb_neq in Hne. rewrite Hne, andb_false_r.
      destruct (li_queue _ Hi a) as (d & Hd & Hold). exists d. split; [done|].
      eapply Forall_impl; [exact Hold|]. intros s Hs. by apply elapsed_latest.
  - pose proof (li_lag _ Hi). unfold lag_of. lia.
  - intros a. destruct (decide (actor = a)) as [<-|Hne].
    + rewrite lookup_insert_eq. simpl. destruct admit_call eqn:Hl; unfold admit_call in Hl.
      * apply Nat.ltb_lt in Hl. rewrite length_app. simpl. lia.
      * etransitivity; [apply drop_expired_length|]. apply (li_bound _ Hi).
    + rewrite lookup_insert_ne by done. apply (li_bound _ Hi).
  - intros a at_. rewrite in_window_length. unfold admitted. simpl. rewrite Hadm.
    fold (admitted t a). pose proof (li_window _ Hi a at_) as Hold. rewrite in_window_length in Hold.
    assert (cl_actor_window config - lag_of t now <= cl_actor_window config - lt_lag t)%Z as Hlag
      by (unfold lag_of; lia).
    pose proof (window_shorter _ _ at_ (admitted t a) Hlag) as Hshort.
    destruct (admit_call && String.eqb actor a) eqn:Hnew; [|lia].
    apply andb_true_iff in Hnew as [Hadmit ->%String.eqb_eq]. simpl.
    destruct (window _ at_ now) eqn:Hw; [|lia]. unfold window in Hw. bool_inv. simpl.
    pose proof (window_bound t a now at_ Hi ltac:(lia)) as Hb. fold q in Hb.
    unfold admit_call in Hadmit. apply Nat.ltb_lt in Hadmit. lia.
  - intros d. pose proof (li_permits _ Hi d) as Hd. unfold held in Hd. subst free.
    destruct (decide (device = d)) as [<-|Hne].
    + rewrite lookup_insert_eq. destruct (ls_devices (lt_state t) !! device) as [n|] eqn:Hl; simpl.
      * destruct (admit_call && (0 <? n)) eqn:Hg; [|done]. rewrite lookup_insert_eq. simpl.
        apply andb_true_iff in Hg as [_ Hg%Nat.ltb_lt]. unfold held. lia.
      * destruct (admit_call && (0 <? cl_device_concurrency config)) eqn:Hg.
        -- rewrite lookup_insert_eq. simpl. apply andb_true_iff in Hg as [_ Hg%Nat.ltb_lt].
           unfold held. lia.
        -- lia.
    + rewrite lookup_insert_ne by done.
      destruct (admit_call && _); [rewrite lookup_insert_ne by done|]; exact Hd.
Qed.

Lemma acquire_inv t actor device now t' :
  limits_inv t -> limit_call config t (Lc_acquire actor device now) = Some t' -> limits_inv t'.
Proof.
  intros Hi Hc. simpl in Hc.
  set (q := CommandLimits.drop_expired (now - cl_actor_window config) (queue t actor)) in *.
  set (admit_call := length q <? cl_actor_requests config).
  set (free := default (cl_device_concurrency config) (ls_devices (lt_state t) !! device)).
  assert (t' = mk_trace
    (mk_limit_state
       (<[actor := if admit_call then q ++ [now] else q]> (ls_actor_requests (lt_state t)))
       (<[device := if admit_call && (0 <? free) then free - 1 else free]> (ls_devices (lt_state t))))
    (if admit_call then (actor, now) :: lt_admitted t else lt_admitted t)
    (if admit_call && (0 <? free) then <[device := S (held t device)]> (lt_held t) else lt_held t)
    (Some (latest_of t now)) (lag_of t now)) as ->.
  { revert Hc. unfold CommandLimits.try_acquire. fold (queue t actor). fold q. fold free. fold admit_call.
    destruct admit_call; simpl; by intros [= <-]. }
  clear Hc. by apply acquired_inv.
Qed.

Lemma release_inv t device t' :
  limits_inv t -> limit_call config t (Lc_release device) = Some t' -> limits_inv t'.
Proof.
  intros Hi Hc. simpl in Hc. destruct (held t device) as [|n] eqn:Hh; [discriminate|].
  injection Hc as <-. split; try apply Hi. intros d. simpl. unfold held. simpl.
  pose proof (li_permits _ Hi d) as Hd. unfold held in Hd, Hh.
  destruct (decide (d = device)) as [->|Hne].
  - rewrite lookup_alter_eq, lookup_insert_eq. rewrite Hh in Hd.
    destruct (ls_devices (lt_state t) !! device); simpl in *; lia.
  - rewrite lookup_alter_ne, lookup_insert_ne by done. exact Hd.
Qed.

Lemma empty_trace_inv : limits_inv empty_trace.
Proof.
  split; unfold queue, held; simpl; intros; rewrite ?lookup_empty; simpl; try lia.
  by exists [].
Qed.

Lemma limit_calls_inv t calls t' :
  limits_inv t -> limit_calls config t calls = Some t' -> limits_inv t'.
Proof.
  revert t. induction calls as [|call calls IH]; intros t Hi; simpl; [by intros [= <-]|].
  destruct (limit_call config t call) as [t1|] eqn:Hc; [|discriminate]. apply IH.
  destruct call; [by eapply acquire_inv | by eapply release_inv].
Qed.
End Limits.

(** C9: Admission bounds.  From a fresh state, whatever calls the lock of the
    limits serialises, and however far their clocks, read before the lock, run
    backwards: no actor is admitted more often than configured within any window
    that is shorter than the configured one by the greatest such lag, which is the
    whole window when the instants come in order; and no device hands out more
    permits at once than its concurrency. *)
Theorem limits_hold config requests period concurrency calls t actor device at_ :
  CommandLimitConfig.new requests period concurrency = Ok config ->
  limit_calls config empty_trace calls = Some t ->
  length (in_window (period - lt_lag t) t actor at_) <= requests /\ held t device <= concurrency.
Proof.
  unfold CommandLimitConfig.new. intros Hc Ht. case_match eqn:Hg; [discriminate|].
  injection Hc as <-. bool_inv.
  assert (limits_inv (mk_limits requests period concurrency) t) as Hi.
  { eapply limit_calls_inv; [apply empty_trace_inv | exact Ht]. }
  split; [apply (li_window _ _ Hi)|]. pose proof (li_permits _ _ Hi device) as Hd. simpl in Hd.
  destruct (ls_devices (lt_state t) !! device); lia.
Qed.

(** ** Witnesses *)

Definition burst : list LimitCall :=
  [Lc_acquire "a" "lamp" 10; Lc_acquire "a" "lamp" 20; Lc_release "lamp";
   Lc_acquire "a" "lamp" 30; Lc_acquire "a" "lamp" 120].

(** A call whose clock was read long before it got the lock: the window of a
    hundred that ends at 100 holds three admissions, one of thirty only two. *)
Definition late_burst : list LimitCall :=
  [Lc_acquire "a" "lamp" 10; Lc_acquire "a" "lamp" 20; Lc_acquire "a" "lamp" 120;
   Lc_acquire "a" "lamp" 50].

Lemma limits_hold_witness :
  (exists t, limit_calls (mk_limits 2 100 1) empty_trace burst = Some t /\
    length (lt_admitted t) = 3 /\ lt_lag t = 0%Z /\
    length (in_window (100 - lt_lag t) t "a" 120) <= 2 /\ held t "lamp" <= 1)
  /\ (exists t, limit_calls (mk_limits 2 100 1) empty_trace late_burst = Some t /\
    lt_lag t = 70%Z /\ length (in_window 100 t "a" 100) = 3 /\
    length (in_window (100 - lt_lag t) t "a" 100) <= 2).
Proof.
  split; eexists; (split; [vm_compute; reflexivity|]).
  - split; [reflexivity|]. split; [reflexivity|].
    apply (limits_hold (mk_limits 2 100 1) 2 100 1 burst); vm_compute; reflexivity.
  - split; [reflexivity|]. split; [vm_compute; reflexivity|].
    apply (limits_hold (mk_limits 2 100 1) 2 100 1 late_burst _ "a" "lamp"); vm_compute; reflexivity.
Defined.
