(* ===== verification/MatterState.v ===== *)
(** Desired and reported Matter state, [crates/homemagic-domain/src/matter/state.rs],
    its durable projection record and the functions of
    [crates/homemagic-application/src/matter_projection.rs] that move it. *)

From S2P Require Import Prelude Capability Device.

Abbreviation MatterProjectionId := string (only parsing).
Abbreviation MatterFabricId := string (only parsing).
Abbreviation MatterUnlockAuthorizationId := string (only parsing).

Inductive MatterStateError :=
| Mse_ZeroRevision | Mse_PercentOutOfRange | Mse_ObservationAfterReceipt
| Mse_ConfirmedRevisionAhead | Mse_ConfirmationWithoutDesiredState
| Mse_ConfirmedConvergenceMismatch | Mse_DesiredStateConvergenceMismatch.
#[export] Instance MatterStateError_eq_dec : EqDecision MatterStateError.
Proof. solve_decision. Defined.

Record MatterStateRevision := mk_revision { rev_get : N }.
#[export] Instance MatterStateRevision_eq_dec : EqDecision MatterStateRevision.
Proof. solve_decision. Defined.

Module MatterStateRevision.
Definition new (value : N) : result MatterStateRevision MatterStateError :=
  if N.eqb value 0 then Err Mse_ZeroRevision else Ok (mk_revision value).
End MatterStateRevision.

Inductive MatterLockState := Ml_Locked | Ml_Unlocked | Ml_NotFullyLocked | Ml_Unknown.
#[export] Instance MatterLockState_eq_dec : EqDecision MatterLockState.
Proof. solve_decision. Defined.

Inductive MatterStateValue :=
| Mv_OnOff (on : bool)
| Mv_LevelPercent (value : N)
| Mv_PositionPercent (value : N)
| Mv_Lock (state : MatterLockState).
#[export] Instance MatterStateValue_eq_dec : EqDecision MatterStateValue.
Proof. solve_decision. Defined.

Module MatterStateValue.
Definition validate (self : MatterStateValue) : result unit MatterStateError :=
  match self with
  | Mv_LevelPercent value | Mv_PositionPercent value =>
      if N.ltb 100 value then Err Mse_PercentOutOfRange else Ok tt
  | _ => Ok tt
  end.
End MatterStateValue.

Record MatterDesiredState := mk_desired {
  md_revision : MatterStateRevision;
  md_value : MatterStateValue;
  md_requested_at : Instant
}.
#[export] Instance MatterDesiredState_eq_dec : EqDecision MatterDesiredState.
Proof. solve_decision. Defined.

Module MatterDesiredState.
Definition new (revision : MatterStateRevision) (value : MatterStateValue)
  (requested_at : Instant) : result MatterDesiredState MatterStateError :=
  let? _ := MatterStateValue.validate value in
  Ok (mk_desired revision value requested_at).
End MatterDesiredState.

Record MatterReportedState := mk_reported {
  mr_value : MatterStateValue;
  mr_data_version : option N;
  mr_report_sequence : N;
  mr_observed_at : Instant;
  mr_received_at : Instant
}.
#[export] Instance MatterReportedState_eq_dec : EqDecision MatterReportedState.
Proof. solve_decision. Defined.

Module MatterReportedState.
Definition new (value : MatterStateValue) (data_version : option N) (report_sequence : N)
  (observed_at received_at : Instant) : result MatterReportedState MatterStateError :=
  let? _ := MatterStateValue.validate value in
  guard? negb (received_at <? observed_at)%Z else Mse_ObservationAfterReceipt in
  Ok (mk_reported value data_version report_sequence observed_at received_at).
End MatterReportedState.

Inductive MatterStateFreshness := Mf_Unknown | Mf_Fresh | Mf_Stale.
#[export] Instance MatterStateFreshness_eq_dec : EqDecision MatterStateFreshness.
Proof. solve_decision. Defined.

Inductive MatterConvergence :=
| Mc_NoDesiredState | Mc_Pending | Mc_Confirmed | Mc_Diverged | Mc_Indeterminate.
#[export] Instance MatterConvergence_eq_dec : EqDecision MatterConvergence.
Proof. solve_decision. Defined.

Inductive MatterStateUncertainty :=
| Mu_SubscriptionLost | Mu_ReportGap | Mu_ReadFailed | Mu_DescriptorChanged
| Mu_InFlightOutcomeUnknown.
#[export] Instance MatterStateUncertainty_eq_dec : EqDecision MatterStateUncertainty.
Proof. solve_decision. Defined.

Record MatterProjectedState := mk_projected {
  mp_projection_id : MatterProjectionId;
  mp_desired : option MatterDesiredState;
  mp_reported : option MatterReportedState;
  mp_confirmed_revision : option MatterStateRevision;
  mp_freshness : MatterStateFreshness;
  mp_convergence : MatterConvergence;
  mp_uncertainty : option MatterStateUncertainty
}.
#[export] Instance MatterProjectedState_eq_dec : EqDecision MatterProjectedState.
Proof. solve_decision. Defined.

Module MatterProjectedState.
Definition new (projection_id : MatterProjectionId) (desired : option MatterDesiredState)
  (reported : option MatterReportedState) (confirmed_revision : option MatterStateRevision)
  (freshness : MatterStateFreshness) (convergence : MatterConvergence)
  (uncertainty : option MatterStateUncertainty) :
  result MatterProjectedState MatterStateError :=
  let? _ :=
    match desired with
    | Some desired =>
        let? _ := MatterStateValue.validate (md_value desired) in
        guard? negb match confirmed_revision with
                    | Some confirmed => N.ltb (rev_get (md_revision desired)) (rev_get confirmed)
                    | None => false
                    end else Mse_ConfirmedRevisionAhead in
        Ok tt
    | None =>
        if bool_decide (is_Some confirmed_revision)
        then Err Mse_ConfirmationWithoutDesiredState else Ok tt
    end in
  guard? negb (bool_decide (convergence = Mc_Confirmed)
               && negb (bool_decide (confirmed_revision = (md_revision <$> desired))))
    else Mse_ConfirmedConvergenceMismatch in
  guard? negb (bool_decide (convergence = Mc_NoDesiredState) && bool_decide (is_Some desired))
    else Mse_DesiredStateConvergenceMismatch in
  Ok (mk_projected projection_id desired reported confirmed_revision freshness convergence
        uncertainty).
End MatterProjectedState.
Arguments MatterProjectedState.new : simpl never.

(** ** Movement of the projected state ([matter_projection.rs]) *)

(** [MatterReportCausation]; only the desired revision is read here. *)
Record MatterReportCausation := mk_report_causation {
  rc_desired_revision : option N
}.

Definition mark_matter_projection_stale (state : MatterProjectedState)
  (uncertainty : MatterStateUncertainty) : result MatterProjectedState MatterStateError :=
  MatterProjectedState.new (mp_projection_id state) (mp_desired state) (mp_reported state)
    (mp_confirmed_revision state) Mf_Stale
    (match mp_convergence state with
     | Mc_Confirmed => if bool_decide (is_Some (mp_desired state)) then Mc_Pending else Mc_Confirmed
     | convergence => convergence
     end) (Some uncertainty).

Definition advance_matter_projected_state (state : MatterProjectedState)
  (reported : MatterReportedState) (causation : MatterReportCausation) :
  result MatterProjectedState MatterStateError :=
  let '(confirmed_revision, convergence) :=
    match mp_desired state with
    | None => (None, Mc_NoDesiredState)
    | Some desired =>
        if bool_decide (md_value desired = mr_value reported)
           && bool_decide (rc_desired_revision causation = Some (rev_get (md_revision desired)))
        then (Some (md_revision desired), Mc_Confirmed)
        else if bool_decide (md_value desired = mr_value reported)
        then (mp_confirmed_revision state, Mc_Pending)
        else (mp_confirmed_revision state, Mc_Diverged)
    end in
  MatterProjectedState.new (mp_projection_id state) (mp_desired state) (Some reported)
    confirmed_revision Mf_Fresh convergence None.

Definition advance_matter_desired_state (state : MatterProjectedState)
  (desired : MatterDesiredState) : result MatterProjectedState MatterStateError :=
  MatterProjectedState.new (mp_projection_id state) (Some desired) (mp_reported state)
    (mp_confirmed_revision state) (mp_freshness state) Mc_Pending (mp_uncertainty state).

(** ** The durable projection ([matter_repository.rs]) *)

Record StoredMatterProjection := mk_projection {
  sp_installation_id : InstallationId;
  sp_fabric_id : MatterFabricId;
  sp_node_id : N;
  sp_endpoint_number : N;
  sp_projection_id : MatterProjectionId;
  sp_device_id : DeviceId;
  sp_endpoint_id : EndpointId;
  sp_capability_schema : string;
  sp_projection_revision : N;
  sp_state : MatterProjectedState;
  sp_revision : N;
  sp_updated_at : Instant
}.

(** ** Lemmas *)

(** What every projected state that [new] accepts satisfies. *)
Definition projected_wf (s : MatterProjectedState) : Prop :=
  match mp_desired s with
  | Some desired =>
      MatterStateValue.validate (md_value desired) = Ok tt /\
      (forall c, mp_confirmed_revision s = Some c ->
         (rev_get c <= rev_get (md_revision desired))%N)
  | None => mp_confirmed_revision s = None
  end /\
  (mp_convergence s = Mc_Confirmed -> mp_confirmed_revision s = (md_revision <$> mp_desired s)) /\
  (mp_convergence s = Mc_NoDesiredState -> mp_desired s = None).

Lemma projected_new_ok id d r c f v u s :
  MatterProjectedState.new id d r c f v u = Ok s ->
  s = mk_projected id d r c f v u /\ projected_wf s.
Proof.
  unfold MatterProjectedState.new. intros (x & Hx & H)%result_bind_ok.
  destruct (negb (bool_decide (v = Mc_Confirmed) && _)) eqn:H1; [|discriminate].
  destruct (negb (bool_decide (v = Mc_NoDesiredState) && _)) eqn:H2; [|discriminate].
rewrite negb_true_iff, andb_false_iff in H1, H2.
  rewrite negb_false_iff, bool_decide_eq_false, bool_decide_eq_true in H1.
  rewrite !bool_decide_eq_false in H2.
  injection H as <-. split; [done|]. unfold projected_wf. simpl. split; [|split].
  - destruct d as [d|].
    + apply result_bind_ok in Hx as ([] & Hv & Hc). split; [done|]. intros c' ->. simpl in Hc.
      destruct (N.ltb_spec (rev_get (md_revision d)) (rev_get c')) as [Hlt|Hge]; [discriminate | done].
    + case_bool_decide as Hs; [discriminate|]. by apply eq_None_not_Some.
  - intros ->. naive_solver.
  - intros ->. apply eq_None_not_Some. naive_solver.
Qed.

(** [new] accepts exactly the well-formed states. *)
Lemma projected_new_total id d r c f v u :
  projected_wf (mk_projected id d r c f v u) ->
  MatterProjectedState.new id d r c f v u = Ok (mk_projected id d r c f v u).
Proof.
  unfold projected_wf, MatterProjectedState.new. simpl. intros (Hd & Hc & Hn).
  assert (bool_decide (v = Mc_NoDesiredState) && bool_decide (is_Some d) = false) as ->.
  { apply andb_false_iff. rewrite !bool_decide_eq_false, <- eq_None_not_Some.
    destruct (decide (v = Mc_NoDesiredState)); auto. }
  assert (bool_decide (v = Mc_Confirmed) && negb (bool_decide (c = md_revision <$> d)) = false) as ->.
  { apply andb_false_iff. rewrite negb_false_iff, bool_decide_eq_false, bool_decide_eq_true.
    destruct (decide (v = Mc_Confirmed)); auto. }
  destruct d as [d|].
  - destruct Hd as [-> Hle]. destruct c as [c|]; simpl; [|done].
    specialize (Hle c eq_refl). by rewrite (proj2 (N.ltb_ge _ _) Hle).
  - subst c. by rewrite bool_decide_false by (by intros [? ?]).
Qed.
