(* ===== verification/CommandStore.v ===== *)
(** The durable command repository,
    [crates/homemagic-storage/src/command_repository.rs], over the tables of the
    SQLite migrations: actors, credentials and grants, the commands with their
    idempotency keys, and the append-only audit log.  A write runs in one
    transaction, so a failed operation leaves the database unchanged. *)

From stdpp Require Import sorting.
From S2P Require Import Prelude Text Capability Lifecycle Device Command MatterState.

(** Failures of a repository operation: the ones the code raises, the row that
    a query required, and a violated table constraint. *)
Inductive StorageError :=
| Se_InvalidCommand (reason : string)
| Se_CommandVersionConflict (expected found : N)
| Se_MatterRevisionConflict (resource : string) (expected found : option N)
| Se_InvalidMatter (reason : string)
| Se_InvalidAutomation (reason : string)
| Se_AutomationDraftConflict (expected found : option N)
| Se_AutomationIdentityConflict (expected found : N)
| Se_AutomationRunConflict (expected found : N)
| Se_AutomationEventCursorConflict (expected found : N)
| Se_InvalidEventCursor (value : Z)
| Se_NumericOverflow
| Se_Json
| Se_NoRows
| Se_Constraint.
#[export] Instance StorageError_eq_dec : EqDecision StorageError.
Proof. solve_decision. Defined.

(** ** Contract data of the port, [crates/homemagic-application/src/ports.rs] *)

Record ActorCredential := mk_credential {
  cr_actor_id : ActorId;
  cr_token_hash : string;
  cr_rotated_at : Instant
}.

Record ActorSecurity := mk_security {
  as_actor : Actor;
  as_credential : option ActorCredential;
  as_grants : list ActorGrant
}.

Record CanonicalRequestHash := mk_hash { hash_text : string }.
#[export] Instance CanonicalRequestHash_eq_dec : EqDecision CanonicalRequestHash.
Proof. solve_decision. Defined.

Inductive CanonicalRequestHashError := canonical_request_hash_error.

Module CanonicalRequestHash.
Definition new (value : string) : result CanonicalRequestHash CanonicalRequestHashError :=
  if negb (String.length value =? 64)
     || negb (forallb is_ascii_hexdigit (bytes value))
     || existsb is_ascii_uppercase (bytes value)
  then Err canonical_request_hash_error
  else Ok (mk_hash value).
End CanonicalRequestHash.

Inductive CommandCreateOutcome :=
| Created (command : CommandAggregate)
| ExistingEquivalent (command : CommandAggregate)
| Conflict (existing : CommandId).

Record CommandRetention := mk_retention {
  re_installation_id : InstallationId;
  re_terminal_before : Instant;
  re_maximum_terminal_commands : nat;
  re_audit_before : Instant;
  re_maximum_audit_records : nat
}.

Record CommandRetentionResult := mk_retention_result {
  rt_commands_removed : nat;
  rt_audit_records_removed : nat
}.

(** ** Tables *)

Record ActorRow := mk_actor_row {
  ar_installation_id : InstallationId;
  ar_enabled : bool;
  ar_created_at : Instant;
  ar_payload : Actor
}.

Record CommandRow := mk_command_row {
  cm_installation_id : InstallationId;
  cm_actor_id : ActorId;
  cm_device_id : DeviceId;
  cm_idempotency_key : string;
  cm_request_hash : string;
  cm_state : CommandState;
  cm_version : Z;
  cm_terminal : bool;
  cm_received_at : Instant;
  cm_updated_at : Instant;
  cm_payload : CommandAggregate
}.

Record AuditRow := mk_audit_row {
  ax_cursor : N;
  ax_installation_id : InstallationId;
  ax_payload : CommandAuditRecord
}.

(** Row of [matter_projections]. *)
Record ProjectionRow := mk_projection_row {
  pj_installation_id : InstallationId;
  pj_revision : Z;
  pj_converged : bool;
  pj_payload : StoredMatterProjection
}.

(** Row of [matter_desired_command_slots]. *)
Record DesiredSlotRow := mk_slot_row {
  sl_desired_revision : Z;
  sl_command_id : CommandId;
  sl_dispatched_at : option Instant;
  sl_updated_at : Instant
}.

(** Row of [matter_unlock_authorizations] joined with its binding row. *)
Record UnlockRow := mk_unlock_row {
  ul_command_id : CommandId;
  ul_requester : ActorId;
  ul_approver : ActorId;
  ul_projection_id : MatterProjectionId;
  ul_desired_revision : Z;
  ul_policy_revision : Z;
  ul_issued_at : Instant;
  ul_expires_at : Instant;
  ul_consumed_at : option Instant;
  ul_request_hash : string;
  ul_device_id : DeviceId;
  ul_endpoint_id : EndpointId;
  ul_capability_schema : string;
  ul_action : string
}.

(** The tables the command path reads and writes, by primary key.  [db_audit] is
    in cursor order, and [db_cursor] the next automatic key; a desired slot
    references its command with [ON DELETE RESTRICT], authorizations and
    supersessions theirs with [ON DELETE CASCADE]. *)
Record Db := mk_db {
  db_installations : gset string;
  db_actors : gmap string ActorRow;
  db_credentials : gmap string (string * Instant);
  db_grants : gmap string ActorGrant;
  db_devices : gmap string InstallationId;
  db_endpoints : gset (string * string);
  db_commands : gmap string CommandRow;
  db_audit : list AuditRow;
  db_cursor : N;
  db_matter_endpoints : gset (string * N * N);
  db_projections : gmap string ProjectionRow;
  db_slots : gmap string DesiredSlotRow;
  db_unlocks : gmap string UnlockRow;
  db_supersessions : gmap string (CommandId * MatterProjectionId * Instant)
}.

Definition set_security (db : Db) (actors : gmap string ActorRow)
  (credentials : gmap string (string * Instant)) (grants : gmap string ActorGrant) : Db :=
  mk_db (db_installations db) actors credentials grants (db_devices db) (db_endpoints db)
    (db_commands db) (db_audit db) (db_cursor db) (db_matter_endpoints db) (db_projections db)
    (db_slots db) (db_unlocks db) (db_supersessions db).
Definition set_commands (db : Db) (commands : gmap string CommandRow) : Db :=
  mk_db (db_installations db) (db_actors db) (db_credentials db) (db_grants db) (db_devices db)
    (db_endpoints db) commands (db_audit db) (db_cursor db) (db_matter_endpoints db)
    (db_projections db) (db_slots db) (db_unlocks db) (db_supersessions db).
Definition set_audit (db : Db) (audit : list AuditRow) (cursor : N) : Db :=
  mk_db (db_installations db) (db_actors db) (db_credentials db) (db_grants db) (db_devices db)
    (db_endpoints db) (db_commands db) audit cursor (db_matter_endpoints db)
    (db_projections db) (db_slots db) (db_unlocks db) (db_supersessions db).
Definition set_projections (db : Db) (projections : gmap string ProjectionRow) : Db :=
  mk_db (db_installations db) (db_actors db) (db_credentials db) (db_grants db) (db_devices db)
    (db_endpoints db) (db_commands db) (db_audit db) (db_cursor db) (db_matter_endpoints db)
    projections (db_slots db) (db_unlocks db) (db_supersessions db).
Definition set_desired (db : Db) (slots : gmap string DesiredSlotRow)
  (unlocks : gmap string UnlockRow)
  (supersessions : gmap string (CommandId * MatterProjectionId * Instant)) : Db :=
  mk_db (db_installations db) (db_actors db) (db_credentials db) (db_grants db) (db_devices db)
    (db_endpoints db) (db_commands db) (db_audit db) (db_cursor db) (db_matter_endpoints db)
    (db_projections db) slots unlocks supersessions.

Definition MAX_QUERY_PAGE : nat := 1000.

Definition to_i64 (value : N) : result Z StorageError :=
  ok_or (i64_try_from_u64 value) Se_NumericOverflow.

Definition to_u64 (value : Z) : result N StorageError :=
  ok_or (u64_try_from_i64 value) Se_NumericOverflow.

Definition bounded_limit (limit : nat) : result nat StorageError :=
  Ok (Nat.min limit MAX_QUERY_PAGE).

(** ** Actors and grants *)

Definition store_actor (db : Db) (actor : Actor) (credential : option ActorCredential) :
  result Db StorageError :=
  if match credential with
     | Some value => negb (String.eqb (cr_actor_id value) (ac_id actor))
     | None => false
     end
  then Err (Se_InvalidCommand "credential actor mismatch")
  else
    let? actors :=
      match db_actors db !! ac_id actor with
      | None =>
          guard? bool_decide (ac_installation_id actor ∈ db_installations db)
            else Se_Constraint in
          Ok (<[ac_id actor := mk_actor_row (ac_installation_id actor) (ac_enabled actor)
                                 (ac_created_at actor) actor]> (db_actors db))
      | Some row =>
          if String.eqb (ar_installation_id row) (ac_installation_id actor)
          then Ok (<[ac_id actor := mk_actor_row (ar_installation_id row) (ac_enabled actor)
                                      (ar_created_at row) actor]> (db_actors db))
          else Err (Se_InvalidCommand "actor installation is immutable")
      end in
    Ok (set_security db actors
          (match credential with
           | Some value => <[ac_id actor := (cr_token_hash value, cr_rotated_at value)]>
                             (db_credentials db)
           | None => db_credentials db
           end)
          (db_grants db)).

Fixpoint insert_grants (actor_id : ActorId) (grants : list ActorGrant)
  (table : gmap string ActorGrant) : result (gmap string ActorGrant) StorageError :=
  match grants with
  | [] => Ok table
  | grant :: grants =>
      match table !! ag_id grant with
      | Some _ => Err Se_Constraint
      | None => insert_grants actor_id grants (<[ag_id grant := grant]> table)
      end
  end.

Definition replace_actor_grants (db : Db) (actor_id : ActorId) (grants : list ActorGrant) :
  result Db StorageError :=
  if existsb (fun grant => negb (String.eqb (ag_actor_id grant) actor_id)) grants
  then Err (Se_InvalidCommand "grant actor mismatch")
  else
    guard? bool_decide (grants = [] \/ is_Some (db_actors db !! actor_id)) else Se_Constraint in
    let? table := insert_grants actor_id grants
      (filter (fun kv => ag_actor_id kv.2 <> actor_id) (db_grants db)) in
    Ok (set_security db (db_actors db) (db_credentials db) table).

(** Rows ordered by their text key. *)
Definition key_le {A : Type} (a b : string * A) : Prop := str_leb a.1 b.1 = true.
#[export] Instance key_le_dec {A : Type} : RelDecision (@key_le A).
Proof. intros a b. unfold key_le. apply _. Defined.

Definition load_actor_security (db : Db) (actor_id : ActorId) : option ActorSecurity :=
  row ← db_actors db !! actor_id;
  Some (mk_security (ar_payload row)
    ((fun c : string * Instant => mk_credential actor_id c.1 c.2) <$> db_credentials db !! actor_id)
    (map snd (merge_sort key_le
      (map_to_list (filter (fun kv => ag_actor_id kv.2 = actor_id) (db_grants db)))))).

(** ** The audit log *)

Definition insert_audit (db : Db) (installation_id : InstallationId) (audit : CommandAuditRecord) :
  result Db StorageError :=
  let? _ := to_i64 (au_sequence audit) in
  if existsb (fun row =>
       String.eqb (au_id (ax_payload row)) (au_id audit)
       || (String.eqb (au_command_id (ax_payload row)) (au_command_id audit)
           && N.eqb (au_sequence (ax_payload row)) (au_sequence audit))) (db_audit db)
  then Err Se_Constraint
  else Ok (set_audit db (db_audit db ++ [mk_audit_row (db_cursor db) installation_id audit])
             (db_cursor db + 1)).

(** ** Creation *)

Definition validate_receipt (command : CommandAggregate) (audit : CommandAuditRecord) :
  result unit StorageError :=
  if negb (bool_decide (ca_state command = Cs_Received)) || negb (N.eqb (ca_version command) 0)
     || CommandAggregate.is_terminal command
  then Err (Se_InvalidCommand "command is not an initial receipt")
  else if negb (String.eqb (au_command_id audit) (ce_id (ca_envelope command)))
     || negb (String.eqb (au_actor_id audit) (ce_actor_id (ca_envelope command)))
     || negb (N.eqb (au_sequence audit) 0)
     || bool_decide (is_Some (au_from audit))
     || negb (bool_decide (au_to audit = Cs_Received))
     || negb (String.eqb (au_correlation_id audit) (ce_correlation_id (ca_envelope command)))
  then Err (Se_InvalidCommand "receipt audit mismatch")
  else Ok tt.

(** The row holding an actor's idempotency key, by the table's UNIQUE index. *)
Definition holds_key (actor_id : ActorId) (key : string) (row : CommandRow) : bool :=
  String.eqb (cm_actor_id row) actor_id && String.eqb (cm_idempotency_key row) key.

Definition find_by_key (commands : gmap string CommandRow) (actor_id : ActorId) (key : string) :
  option (string * CommandRow) :=
  List.find (fun kv => holds_key actor_id key kv.2) (map_to_list commands).

(** The CHECK constraint of the [request_hash] column. *)
Definition request_hash_check (hash : string) : bool :=
  (String.length hash =? 64) && String.eqb hash (to_ascii_lowercase hash).

Definition create_command (db : Db) (command : CommandAggregate)
  (request_hash : CanonicalRequestHash) (audit : CommandAuditRecord) :
  result (Db * CommandCreateOutcome) StorageError :=
  let envelope := ca_envelope command in
  match find_by_key (db_commands db) (ce_actor_id envelope)
          (key_text (ce_idempotency_key envelope)) with
  | Some (_, row) =>
      Ok (db, if String.eqb (cm_request_hash row) (hash_text request_hash)
              then ExistingEquivalent (cm_payload row)
              else Conflict (ce_id (ca_envelope (cm_payload row))))
  | None =>
      let? _ := validate_receipt command audit in
      let? actor_row := ok_or (db_actors db !! ce_actor_id envelope) Se_NoRows in
      let? device_installation_id := ok_or (db_devices db !! ce_device_id envelope) Se_NoRows in
      guard? String.eqb (ar_installation_id actor_row) device_installation_id
        else Se_InvalidCommand "actor and device installations differ" in
      let? version := to_i64 (ca_version command) in
      guard? bool_decide (db_commands db !! ce_id envelope = None)
             && request_hash_check (hash_text request_hash) else Se_Constraint in
      let row := mk_command_row (ar_installation_id actor_row) (ce_actor_id envelope)
        (ce_device_id envelope) (key_text (ce_idempotency_key envelope)) (hash_text request_hash)
        (ca_state command) version (CommandAggregate.is_terminal command)
        (ce_received_at envelope) (ca_updated_at command) command in
      let? db := insert_audit (set_commands db (<[ce_id envelope := row]> (db_commands db)))
                   (ar_installation_id actor_row) audit in
      Ok (db, Created command)
  end.

(** ** Lookup *)

Definition load_command (db : Db) (command_id : CommandId) : option CommandAggregate :=
  cm_payload <$> db_commands db !! command_id.

Definition command_request_hash (db : Db) (command_id : CommandId) :
  result (option CanonicalRequestHash) StorageError :=
  match db_commands db !! command_id with
  | None => Ok None
  | Some row =>
      match CanonicalRequestHash.new (cm_request_hash row) with
      | Ok hash => Ok (Some hash)
      | Err _ => Err (Se_InvalidCommand "invalid canonical request hash")
      end
  end.

(** [ORDER BY received_at DESC, id DESC] and [ORDER BY updated_at, id]. *)
Definition newest_first (a b : string * CommandRow) : Prop :=
  (cm_received_at b.2 < cm_received_at a.2)%Z \/
  (cm_received_at a.2 = cm_received_at b.2 /\ str_leb b.1 a.1 = true).
#[export] Instance newest_first_dec : RelDecision newest_first.
Proof. intros a b. unfold newest_first. apply _. Defined.

Definition oldest_update_first (a b : string * CommandRow) : Prop :=
  (cm_updated_at a.2 < cm_updated_at b.2)%Z \/
  (cm_updated_at a.2 = cm_updated_at b.2 /\ str_leb a.1 b.1 = true).
#[export] Instance oldest_update_first_dec : RelDecision oldest_update_first.
Proof. intros a b. unfold oldest_update_first. apply _. Defined.

Definition load_actor_commands (db : Db) (actor_id : ActorId) (limit : nat) :
  list CommandAggregate :=
  let limit := Nat.max 1 (Nat.min limit MAX_QUERY_PAGE) in
  map (fun kv => cm_payload kv.2)
    (take limit (merge_sort newest_first
      (List.filter (fun kv => String.eqb (cm_actor_id kv.2) actor_id)
        (map_to_list (db_commands db))))).

Definition load_recoverable_commands (db : Db) (limit : nat) :
  result (list CommandAggregate) StorageError :=
  let? limit := bounded_limit limit in
  Ok (map (fun kv => cm_payload kv.2)
    (take limit (merge_sort oldest_update_first
      (List.filter (fun kv => negb (cm_terminal kv.2)) (map_to_list (db_commands db)))))).

Definition sequence_le (a b : AuditRow) : Prop :=
  (au_sequence (ax_payload a) <= au_sequence (ax_payload b))%N.
#[export] Instance sequence_le_dec : RelDecision sequence_le.
Proof. intros a b. unfold sequence_le. apply _. Defined.

Definition load_command_audit (db : Db) (command_id : CommandId) (after_sequence : option N)
  (limit : nat) : result (list CommandAuditRecord) StorageError :=
  let? after := match after_sequence with None => Ok (-1)%Z | Some s => to_i64 s end in
  let? limit := bounded_limit limit in
  Ok (map ax_payload (take limit (merge_sort sequence_le
    (List.filter (fun row => String.eqb (au_command_id (ax_payload row)) command_id
                        && (after <? Z.of_N (au_sequence (ax_payload row)))%Z) (db_audit db))))).

(** ** Transitions *)

Definition validate_transition (current next : CommandAggregate) (audit : CommandAuditRecord) :
  result unit StorageError :=
  if negb (bool_decide (ca_envelope next = ca_envelope current))
     || negb (N.eqb (ca_version next) (u64_saturating_add (ca_version current) 1))
  then Err (Se_InvalidCommand "immutable envelope or version changed")
  else if negb (CommandState.allows_transition_to (ca_state current) (ca_state next))
  then Err (Se_InvalidCommand "invalid command state transition")
  else if negb (String.eqb (au_command_id audit) (ce_id (ca_envelope next)))
     || negb (String.eqb (au_actor_id audit) (ce_actor_id (ca_envelope next)))
     || negb (N.eqb (au_sequence audit) (ca_version next))
     || negb (bool_decide (au_from audit = Some (ca_state current)))
     || negb (bool_decide (au_to audit = ca_state next))
     || negb (String.eqb (au_correlation_id audit) (ce_correlation_id (ca_envelope next)))
  then Err (Se_InvalidCommand "transition audit mismatch")
  else if match ca_state next with
          | Cs_Dispatched | Cs_Acknowledged | Cs_Confirmed =>
              negb (match ca_policy next with Some d => pd_allowed d | None => false end)
          | _ => false
          end
  then Err (Se_InvalidCommand "dispatchable command lacks an allowed policy decision")
  else Ok tt.

Definition update_row (row : CommandRow) (command : CommandAggregate) (version : Z) : CommandRow :=
  mk_command_row (cm_installation_id row) (cm_actor_id row) (cm_device_id row)
    (cm_idempotency_key row) (cm_request_hash row) (ca_state command) version
    (CommandAggregate.is_terminal command) (cm_received_at row) (ca_updated_at command) command.

Definition transition_command (db : Db) (command : CommandAggregate) (expected_version : N)
  (audit : CommandAuditRecord) : result Db StorageError :=
  let? row := ok_or (db_commands db !! ce_id (ca_envelope command)) Se_NoRows in
  let current := cm_payload row in
  guard? N.eqb (ca_version current) expected_version
    else Se_CommandVersionConflict expected_version (ca_version current) in
  let? _ := validate_transition current command audit in
  let? version := to_i64 (ca_version command) in
  let? expected := to_i64 expected_version in
  guard? Z.eqb (cm_version row) expected
    else Se_CommandVersionConflict expected_version (ca_version current) in
  insert_audit (set_commands db (<[ce_id (ca_envelope command) := update_row row command version]>
                                   (db_commands db)))
    (cm_installation_id row) audit.

(** ** Retention *)

Definition newest_update_first (a b : string * CommandRow) : Prop :=
  (cm_updated_at b.2 < cm_updated_at a.2)%Z \/
  (cm_updated_at a.2 = cm_updated_at b.2 /\ str_leb b.1 a.1 = true).
#[export] Instance newest_update_first_dec : RelDecision newest_update_first.
Proof. intros a b. unfold newest_update_first. apply _. Defined.

Definition newest_audit_first (a b : AuditRow) : Prop :=
  (au_occurred_at (ax_payload b) < au_occurred_at (ax_payload a))%Z \/
  (au_occurred_at (ax_payload a) = au_occurred_at (ax_payload b) /\
   (ax_cursor b <= ax_cursor a)%N).
#[export] Instance newest_audit_first_dec : RelDecision newest_audit_first.
Proof. intros a b. unfold newest_audit_first. apply _. Defined.

Definition retain_commands (db : Db) (policy : CommandRetention) :
  result (Db * CommandRetentionResult) StorageError :=
  let installation_id := re_installation_id policy in
  let of_installation row := String.eqb (cm_installation_id row) installation_id in
  let expired row := of_installation row && cm_terminal row
                     && (cm_updated_at row <? re_terminal_before policy)%Z in
  let commands := db_commands db in
  let removed1 := List.filter (fun kv => expired kv.2) (map_to_list commands) in
  let commands1 := filter (fun kv => expired kv.2 = false) commands in
  let surplus := drop (re_maximum_terminal_commands policy)
    (merge_sort newest_update_first
      (List.filter (fun kv => of_installation kv.2 && cm_terminal kv.2)
        (map_to_list commands1))) in
  let commands2 := filter (fun kv => kv.1 ∉ map fst surplus) commands1 in
  let audit_expired row := String.eqb (ax_installation_id row) installation_id
                           && (au_occurred_at (ax_payload row) <? re_audit_before policy)%Z in
  let audit1 := List.filter (fun row => negb (audit_expired row)) (db_audit db) in
  let audit_surplus := drop (re_maximum_audit_records policy)
    (merge_sort newest_audit_first
      (List.filter (fun row => String.eqb (ax_installation_id row) installation_id) audit1)) in
  let audit2 := List.filter (fun row =>
    negb (existsb (fun s => N.eqb (ax_cursor s) (ax_cursor row)) audit_surplus)) audit1 in
  let removed := map fst removed1 ++ map fst surplus in
  guard? forallb (fun kv => bool_decide (sl_command_id kv.2 ∉ removed)) (map_to_list (db_slots db))
    else Se_Constraint in
  let db := set_desired db (db_slots db)
    (filter (fun kv => ul_command_id kv.2 ∉ removed) (db_unlocks db))
    (filter (fun kv => (kv.1 ∉ removed) /\ (kv.2.1.1 ∉ removed)) (db_supersessions db)) in
  Ok (set_audit (set_commands db commands2) audit2 (db_cursor db),
      mk_retention_result (length removed1 + length surplus)
        ((length (db_audit db) - length audit1) + length audit_surplus)).

(** ** Lemmas *)

Lemma to_i64_ok n z : to_i64 n = Ok z -> z = Z.of_N n /\ (Z.of_N n <= i64_max)%Z.
Proof.
  unfold to_i64, i64_try_from_u64. case_match eqn:Hle; simpl; [|discriminate].
  intros [= <-]. by apply Z.leb_le in Hle.
Qed.

(** The audit records an insertion collides with. *)
Definition audit_clash (audit : CommandAuditRecord) (row : AuditRow) : Prop :=
  au_id (ax_payload row) = au_id audit \/
  (au_command_id (ax_payload row) = au_command_id audit /\
   au_sequence (ax_payload row) = au_sequence audit).

Lemma insert_audit_ok db installation_id audit db' :
  insert_audit db installation_id audit = Ok db' ->
  db' = set_audit db (db_audit db ++ [mk_audit_row (db_cursor db) installation_id audit])
          (db_cursor db + 1) /\
  Forall (fun row => ~ audit_clash audit row) (db_audit db).
Proof.
  unfold insert_audit. intros Hi. ok_inv. split; [done|].
  rewrite Forall_forall. intros row Hin Hc. apply not_true_iff_false in E. apply E.
  apply existsb_exists. exists row. split; [by apply list_elem_of_In|].
  destruct Hc as [Hc|[Hc1 Hc2]].
  - by rewrite Hc, String.eqb_refl.
  - by rewrite Hc1, Hc2, String.eqb_refl, N.eqb_refl, orb_true_r.
Qed.

Lemma validate_receipt_ok command audit :
  validate_receipt command audit = Ok tt ->
  ca_state command = Cs_Received /\ ca_version command = 0%N /\
  CommandAggregate.is_terminal command = false /\
  au_command_id audit = ce_id (ca_envelope command) /\
  au_actor_id audit = ce_actor_id (ca_envelope command) /\
  au_sequence audit = 0%N /\ au_from audit = None /\ au_to audit = Cs_Received.
Proof.
  unfold validate_receipt. intros Hv. ok_inv. bool_inv.
  repeat split; try done. by apply eq_None_not_Some.
Qed.

Definition dispatchable (s : CommandState) : bool :=
  match s with Cs_Dispatched | Cs_Acknowledged | Cs_Confirmed => true | _ => false end.

Definition is_allowed (policy : option PolicyDecision) : bool :=
  match policy with Some d => pd_allowed d | None => false end.

Lemma validate_transition_ok current next audit :
  validate_transition current next audit = Ok tt ->
  ca_envelope next = ca_envelope current /\
  ca_version next = u64_saturating_add (ca_version current) 1 /\
  CommandState.allows_transition_to (ca_state current) (ca_state next) = true /\
  au_command_id audit = ce_id (ca_envelope next) /\
  au_actor_id audit = ce_actor_id (ca_envelope next) /\
  au_sequence audit = ca_version next /\
  au_from audit = Some (ca_state current) /\ au_to audit = ca_state next /\
  (dispatchable (ca_state next) = true -> is_allowed (ca_policy next) = true).
Proof.
  unfold validate_transition. intros Hv. ok_inv. bool_inv. repeat split; try done.
  intros Hd. destruct (ca_state next); simpl in *; try discriminate; by apply negb_false_iff.
Qed.

(** The tables outside the command log are those of before. *)
Definition same_desired (db db' : Db) : Prop :=
  db_slots db' = db_slots db /\ db_unlocks db' = db_unlocks db /\
  db_supersessions db' = db_supersessions db /\ db_projections db' = db_projections db.

Definition same_commands (db db' : Db) : Prop :=
  db_commands db' = db_commands db /\ db_audit db' = db_audit db /\ db_cursor db' = db_cursor db.

#[export] Instance same_commands_refl : Reflexive same_commands.
Proof. by intros db. Qed.
#[export] Instance same_commands_trans : Transitive same_commands.
Proof. intros a b c (?&?&?) (?&?&?). repeat split; congruence. Qed.

(** What an accepted transition does to the store. *)
Record transitioned (db : Db) (c : CommandAggregate) (v : N) (a : CommandAuditRecord) (db' : Db)
  (row : CommandRow) : Prop := {
  tr_row : db_commands db !! ce_id (ca_envelope c) = Some row;
  tr_version : ca_version (cm_payload row) = v;
  tr_column : cm_version row = Z.of_N v;
  tr_valid : validate_transition (cm_payload row) c a = Ok tt;
  tr_commands : db_commands db' =
    <[ce_id (ca_envelope c) := update_row row c (Z.of_N (ca_version c))]> (db_commands db);
  tr_audit : db_audit db' =
    db_audit db ++ [mk_audit_row (db_cursor db) (cm_installation_id row) a];
  tr_cursor : db_cursor db' = (db_cursor db + 1)%N;
  tr_fresh : Forall (fun row => ~ audit_clash a row) (db_audit db);
  tr_desired : same_desired db db'
}.

Lemma transition_command_ok db c v a db' :
  transition_command db c v a = Ok db' -> exists row, transitioned db c v a db' row.
Proof.
  unfold transition_command. intros Ht.
  apply result_bind_ok in Ht as (row & Hrow%ok_or_ok & Ht). cbn zeta in Ht.
  destruct (N.eqb (ca_version (cm_payload row)) v) eqn:Hv; [|discriminate].
  apply N.eqb_eq in Hv. apply result_bind_ok in Ht as ([] & Hval & Ht).
  apply result_bind_ok in Ht as (z & [-> Hz]%to_i64_ok & Ht).
  apply result_bind_ok in Ht as (ze & [-> Hze]%to_i64_ok & Ht).
  destruct (Z.eqb (cm_version row) (Z.of_N v)) eqn:Hcol; [|discriminate].
  apply Z.eqb_eq in Hcol. apply insert_audit_ok in Ht as [-> Hf]. exists row. by split.
Qed.

(** What an accepted creation does to the store. *)
Record created (db : Db) (c : CommandAggregate) (h : CanonicalRequestHash)
  (a : CommandAuditRecord) (db' : Db) (row : CommandRow) : Prop := {
  cr_key_free : find_by_key (db_commands db) (ce_actor_id (ca_envelope c))
                  (key_text (ce_idempotency_key (ca_envelope c))) = None;
  cr_valid : validate_receipt c a = Ok tt;
  cr_id_free : db_commands db !! ce_id (ca_envelope c) = None;
  cr_row : row = mk_command_row (cm_installation_id row) (ce_actor_id (ca_envelope c))
    (ce_device_id (ca_envelope c)) (key_text (ce_idempotency_key (ca_envelope c))) (hash_text h)
    (ca_state c) (Z.of_N (ca_version c)) (CommandAggregate.is_terminal c)
    (ce_received_at (ca_envelope c)) (ca_updated_at c) c;
  cr_commands : db_commands db' = <[ce_id (ca_envelope c) := row]> (db_commands db);
  cr_audit : db_audit db' =
    db_audit db ++ [mk_audit_row (db_cursor db) (cm_installation_id row) a];
  cr_cursor : db_cursor db' = (db_cursor db + 1)%N;
  cr_fresh : Forall (fun row => ~ audit_clash a row) (db_audit db);
  cr_desired : same_desired db db'
}.

Lemma create_command_ok db c h a db' outcome :
  create_command db c h a = Ok (db', outcome) ->
  (outcome = Created c /\ exists row, created db c h a db' row) \/
  (db' = db /\ exists id row,
     find_by_key (db_commands db) (ce_actor_id (ca_envelope c))
       (key_text (ce_idempotency_key (ca_envelope c))) = Some (id, row) /\
     outcome = if String.eqb (cm_request_hash row) (hash_text h)
               then ExistingEquivalent (cm_payload row)
               else Conflict (ce_id (ca_envelope (cm_payload row)))).
Proof.
  unfold create_command. intros Hc.
  destruct (find_by_key _ _ _) as [[id row]|] eqn:Hfind.
  { right. injection Hc as <- <-. eauto 10. }
  left. apply result_bind_ok in Hc as ([] & Hval & Hc).
  apply result_bind_ok in Hc as (actor_row & _ & Hc).
  apply result_bind_ok in Hc as (device_installation & _ & Hc).
  destruct (String.eqb _ _); [|discriminate].
  apply result_bind_ok in Hc as (z & [-> Hz]%to_i64_ok & Hc).
  destruct (bool_decide _) eqn:Hfree; [|discriminate]. apply bool_decide_eq_true in Hfree.
  destruct (request_hash_check _); [|discriminate]. cbn [andb] in Hc.
  apply result_bind_ok in Hc as (db1 & [-> Hf]%insert_audit_ok & [= <- <-]).
  split; [done|]. eexists. split; try done; simpl; try reflexivity; apply Hf.
Qed.

Lemma sublist_list_filter {A} (f : A -> bool) l : List.filter f l `sublist_of` l.
Proof. induction l as [|a l IH]; simpl; [constructor|]. by case_match; constructor. Qed.

(** A row the surplus of a sorted and filtered table names. *)
Lemma surplus_row {A} (R : string * A -> string * A -> Prop) `{!RelDecision R} (f : string * A -> bool)
  n (m : gmap string A) id :
  id ∈ map fst (drop n (merge_sort R (List.filter f (map_to_list m)))) ->
  exists row, m !! id = Some row /\ f (id, row) = true.
Proof.
  intros ([id' row] & -> & Hin)%list_elem_of_fmap. exists row. simpl.
  assert ((id', row) ∈ merge_sort R (List.filter f (map_to_list m))) as Hs.
  { rewrite <- (take_drop n). apply elem_of_app. by right. }
  rewrite merge_sort_Permutation in Hs. apply list_elem_of_In, filter_In in Hs as [Hs Hf].
  split; [|done]. by apply elem_of_map_to_list, list_elem_of_In.
Qed.

(** Retention only removes commands, terminal ones, and audit records. *)
Lemma retain_commands_ok db policy db' outcome :
  retain_commands db policy = Ok (db', outcome) ->
  db_commands db' ⊆ db_commands db /\ db_audit db' `sublist_of` db_audit db /\
  db_slots db' = db_slots db /\ db_cursor db' = db_cursor db /\
  (forall id row, db_commands db !! id = Some row -> db_commands db' !! id = None ->
     cm_terminal row = true).
Proof.
  unfold retain_commands. cbn zeta. intros Hr.
  destruct (forallb _ _); [|discriminate]. injection Hr as <- _. cbn.
  set (commands1 := filter _ (db_commands db)). split; [|split; [|split; [|split]]]; try done.
  - etransitivity; apply map_filter_subseteq.
  - etransitivity; apply sublist_list_filter.
  - intros id row Hrow Hnone. destruct (cm_terminal row) eqn:Ht; [done|]. exfalso.
    assert (commands1 !! id = Some row) as H1.
    { apply map_lookup_filter_Some. split; [done|]. simpl. by rewrite Ht, andb_false_r. }
    apply map_lookup_filter_None in Hnone as [Hnone|Hout]; [congruence|].
    specialize (Hout _ H1). apply dec_stable, surplus_row in Hout as (row' & Hrow' & Hf).
    simpl in Hf. assert (row' = row) as -> by (apply (inj Some); by rewrite <- Hrow', <- H1).
    by rewrite Ht, andb_false_r in Hf.
Qed.
