(* ===== verification/MatterOperation.v ===== *)
(** Durable Matter controller operations,
    [crates/homemagic-domain/src/matter/operation.rs]: the phases of every kind
    of operation, their transitions and the validation of a persisted
    aggregate. *)

From S2P Require Import Prelude Capability Device MatterState.

Abbreviation MatterOperationId := string (only parsing).
Abbreviation MatterNodeId := N (only parsing).

Inductive MatterOperationKind :=
| Mk_CreateFabric | Mk_CommissionNode | Mk_CancelCommissioning | Mk_RemoveNode | Mk_ExportFabric
| Mk_RestoreFabric | Mk_RepairSubscription.
#[export] Instance MatterOperationKind_eq_dec : EqDecision MatterOperationKind.
Proof. solve_decision. Defined.

Inductive MatterOperationPhase :=
| Mph_Requested | Mph_CreatingFabric | Mph_ValidatingSetup | Mph_Discovering
| Mph_EstablishingSession | Mph_Commissioning | Mph_Projecting | Mph_Subscribing | Mph_Cancelling
| Mph_RemovingNode | Mph_CleaningSecrets | Mph_Exporting | Mph_Restoring | Mph_LoadingFabric
| Mph_ReadingGap | Mph_Completed | Mph_Cancelled | Mph_Failed | Mph_RepairRequired.
#[export] Instance MatterOperationPhase_eq_dec : EqDecision MatterOperationPhase.
Proof. solve_decision. Defined.

Module MatterOperationPhase.
Definition is_terminal (self : MatterOperationPhase) : bool :=
  match self with
  | Mph_Completed | Mph_Cancelled | Mph_Failed | Mph_RepairRequired => true
  | _ => false
  end.
End MatterOperationPhase.

Inductive MatterOperationTarget :=
| Mt_Fabric (fabric_id : MatterFabricId)
| Mt_Operation (fabric_id : MatterFabricId) (operation_id : MatterOperationId)
| Mt_Node (fabric_id : MatterFabricId) (node_id : MatterNodeId).

Inductive MatterOperationTransitionError :=
| Mte_TimeMovedBackwards
| Mte_AlreadyTerminal
| Mte_InvalidPhase (kind : MatterOperationKind) (from to : MatterOperationPhase)
| Mte_RevisionExhausted
| Mte_ZeroRevision
| Mte_RequestedRevisionMismatch
| Mte_PhaseRevisionMismatch
| Mte_InvalidPersistedPhase (kind : MatterOperationKind) (phase : MatterOperationPhase).

Record MatterOperation := mk_operation {
  mo_id : MatterOperationId;
  mo_kind : MatterOperationKind;
  mo_target : MatterOperationTarget;
  mo_phase : MatterOperationPhase;
  mo_revision : N;
  mo_created_at : Instant;
  mo_updated_at : Instant
}.

(** ** Phases *)

Definition phase_allowed (kind : MatterOperationKind) (phase : MatterOperationPhase) : bool :=
  if MatterOperationPhase.is_terminal phase || bool_decide (phase = Mph_Requested) then true
  else
    match kind with
    | Mk_CreateFabric => bool_decide (phase = Mph_CreatingFabric)
    | Mk_CommissionNode =>
        match phase with
        | Mph_ValidatingSetup | Mph_Discovering | Mph_EstablishingSession | Mph_Commissioning
        | Mph_Projecting | Mph_Subscribing => true
        | _ => false
        end
    | Mk_CancelCommissioning => bool_decide (phase = Mph_Cancelling)
    | Mk_RemoveNode => match phase with Mph_RemovingNode | Mph_CleaningSecrets => true | _ => false end
    | Mk_ExportFabric => bool_decide (phase = Mph_Exporting)
    | Mk_RestoreFabric => match phase with Mph_Restoring | Mph_LoadingFabric => true | _ => false end
    | Mk_RepairSubscription => match phase with Mph_ReadingGap | Mph_Subscribing => true | _ => false end
    end.

Definition valid_create_fabric_transition (from to : MatterOperationPhase) : bool :=
  match from, to with
  | Mph_Requested, Mph_CreatingFabric | Mph_CreatingFabric, Mph_Completed => true
  | _, _ => false
  end.

Definition valid_commission_transition (from to : MatterOperationPhase) : bool :=
  match from, to with
  | Mph_Requested, Mph_ValidatingSetup | Mph_ValidatingSetup, Mph_Discovering
  | Mph_Discovering, Mph_EstablishingSession | Mph_EstablishingSession, Mph_Commissioning
  | Mph_Commissioning, Mph_Projecting | Mph_Projecting, Mph_Subscribing
  | Mph_Subscribing, Mph_Completed => true
  | _, _ => false
  end.

Definition valid_cancel_transition (from to : MatterOperationPhase) : bool :=
  match from, to with
  | Mph_Requested, Mph_Cancelling | Mph_Cancelling, Mph_Completed => true
  | _, _ => false
  end.

Definition valid_remove_transition (from to : MatterOperationPhase) : bool :=
  match from, to with
  | Mph_Requested, Mph_RemovingNode | Mph_RemovingNode, Mph_CleaningSecrets
  | Mph_CleaningSecrets, Mph_Completed => true
  | _, _ => false
  end.

Definition valid_export_transition (from to : MatterOperationPhase) : bool :=
  match from, to with
  | Mph_Requested, Mph_Exporting | Mph_Exporting, Mph_Completed => true
  | _, _ => false
  end.

Definition valid_restore_transition (from to : MatterOperationPhase) : bool :=
  match from, to with
  | Mph_Requested, Mph_Restoring | Mph_Restoring, Mph_LoadingFabric
  | Mph_LoadingFabric, Mph_Completed => true
  | _, _ => false
  end.

Definition valid_subscription_transition (from to : MatterOperationPhase) : bool :=
  match from, to with
  | Mph_Requested, Mph_ReadingGap | Mph_ReadingGap, Mph_Subscribing
  | Mph_Subscribing, Mph_Completed => true
  | _, _ => false
  end.

Definition valid_transition (kind : MatterOperationKind) (from to : MatterOperationPhase) : bool :=
  match to with
  | Mph_Failed | Mph_RepairRequired => true
  | Mph_Cancelled =>
      match kind with Mk_CommissionNode | Mk_CancelCommissioning => true | _ => false end
  | _ =>
      match kind with
      | Mk_CreateFabric => valid_create_fabric_transition from to
      | Mk_CommissionNode => valid_commission_transition from to
      | Mk_CancelCommissioning => valid_cancel_transition from to
      | Mk_RemoveNode => valid_remove_transition from to
      | Mk_ExportFabric => valid_export_transition from to
      | Mk_RestoreFabric => valid_restore_transition from to
      | Mk_RepairSubscription => valid_subscription_transition from to
      end
  end.

(** ** The aggregate *)

Module MatterOperation.
(** The identity is a fresh UUID. *)
Definition new (id : MatterOperationId) (kind : MatterOperationKind)
  (target : MatterOperationTarget) (created_at : Instant) : MatterOperation :=
  mk_operation id kind target Mph_Requested 1 created_at created_at.

Definition transition (self : MatterOperation) (next : MatterOperationPhase) (at_ : Instant) :
  result MatterOperation MatterOperationTransitionError :=
  guard? negb (at_ <? mo_updated_at self)%Z else Mte_TimeMovedBackwards in
  guard? negb (MatterOperationPhase.is_terminal (mo_phase self)) else Mte_AlreadyTerminal in
  guard? valid_transition (mo_kind self) (mo_phase self) next
    else Mte_InvalidPhase (mo_kind self) (mo_phase self) next in
  let? revision := ok_or (u64_checked_add (mo_revision self) 1) Mte_RevisionExhausted in
  Ok (mk_operation (mo_id self) (mo_kind self) (mo_target self) next revision
        (mo_created_at self) at_).

Definition validate_persisted (self : MatterOperation) :
  result unit MatterOperationTransitionError :=
  guard? negb (N.eqb (mo_revision self) 0) else Mte_ZeroRevision in
  guard? negb (mo_updated_at self <? mo_created_at self)%Z else Mte_TimeMovedBackwards in
  guard? negb (bool_decide (mo_phase self = Mph_Requested) && negb (N.eqb (mo_revision self) 1))
    else Mte_RequestedRevisionMismatch in
  guard? negb (negb (bool_decide (mo_phase self = Mph_Requested)) && N.ltb (mo_revision self) 2)
    else Mte_PhaseRevisionMismatch in
  guard? phase_allowed (mo_kind self) (mo_phase self)
    else Mte_InvalidPersistedPhase (mo_kind self) (mo_phase self) in
  Ok tt.
End MatterOperation.

(** ** Properties *)

(** A sequence of transitions. *)
Fixpoint operation_steps (operation : MatterOperation)
  (steps : list (MatterOperationPhase * Instant)) :
  result MatterOperation MatterOperationTransitionError :=
  match steps with
  | [] => Ok operation
  | (next, at_) :: steps =>
      let? operation := MatterOperation.transition operation next at_ in
      operation_steps operation steps
  end.

(** The longest way on from a phase. *)
Definition operation_rank (kind : MatterOperationKind) (phase : MatterOperationPhase) : nat :=
  match phase with
  | Mph_Requested =>
      match kind with
      | Mk_CommissionNode => 7
      | Mk_RemoveNode | Mk_RestoreFabric | Mk_RepairSubscription => 3
      | _ => 2
      end
  | Mph_ValidatingSetup => 6 | Mph_Discovering => 5 | Mph_EstablishingSession => 4
  | Mph_Commissioning => 3 | Mph_Projecting => 2
  | Mph_RemovingNode | Mph_Restoring | Mph_ReadingGap => 2
  | Mph_CreatingFabric | Mph_Subscribing | Mph_Cancelling | Mph_CleaningSecrets | Mph_Exporting
  | Mph_LoadingFabric => 1
  | Mph_Completed | Mph_Cancelled | Mph_Failed | Mph_RepairRequired => 0
  end.

Lemma valid_transition_rank kind from to :
  MatterOperationPhase.is_terminal from = false -> phase_allowed kind from = true ->
  valid_transition kind from to = true ->
  operation_rank kind to < operation_rank kind from /\ phase_allowed kind to = true /\
  to <> Mph_Requested.
Proof. destruct kind, from; try done; destruct to; try done; intros _ _ _; cbn; (split; [lia | done]). Qed.

(** What the deserialiser accepts. *)
Lemma validate_persisted_iff operation :
  MatterOperation.validate_persisted operation = Ok tt <->
  (mo_created_at operation <= mo_updated_at operation)%Z /\
  (if bool_decide (mo_phase operation = Mph_Requested) then mo_revision operation = 1%N
   else (2 <= mo_revision operation)%N) /\
  phase_allowed (mo_kind operation) (mo_phase operation) = true.
Proof.
  unfold MatterOperation.validate_persisted.
  split.
  - intros Hv. ok_inv.
    destruct (bool_decide (mo_phase operation = Mph_Requested)); simpl in *; bool_inv; (split; [lia|]);
      (split; [lia | done]).
  - intros (Ht & Hr & ->). destruct (bool_decide (mo_phase operation = Mph_Requested)); simpl in *.
    + rewrite Hr. simpl. assert ((mo_updated_at operation <? mo_created_at operation)%Z = false) as -> by (apply Z.ltb_ge; lia). done.
    + assert (N.eqb (mo_revision operation) 0 = false) as -> by (apply N.eqb_neq; lia).
      assert ((mo_updated_at operation <? mo_created_at operation)%Z = false) as -> by (apply Z.ltb_ge; lia).
      assert (N.ltb (mo_revision operation) 2 = false) as -> by (apply N.ltb_ge; lia). done.
Qed.

(** What a record is about, which no transition changes. *)
Definition same_operation (a b : MatterOperation) : Prop :=
  mo_id b = mo_id a /\ mo_kind b = mo_kind a /\ mo_target b = mo_target a /\
  mo_created_at b = mo_created_at a.

#[export] Instance same_operation_preorder : PreOrder same_operation.
Proof. split; unfold same_operation; [done|]. intros a b c. naive_solver congruence. Qed.

Lemma operation_transition_ok operation next at_ operation' :
  MatterOperation.transition operation next at_ = Ok operation' ->
  MatterOperation.validate_persisted operation = Ok tt ->
  MatterOperation.validate_persisted operation' = Ok tt /\
  same_operation operation operation' /\ (mo_updated_at operation <= mo_updated_at operation')%Z /\
  mo_phase operation' = next /\ mo_updated_at operation' = at_ /\
  operation_rank (mo_kind operation) (mo_phase operation') <
    operation_rank (mo_kind operation) (mo_phase operation) /\
  mo_revision operation' = (mo_revision operation + 1)%N.
Proof.
  rewrite !validate_persisted_iff. unfold MatterOperation.transition. intros Ht (Hc & Hr & Ha). ok_inv. bool_inv.
  match goal with H : u64_checked_add _ _ = Some _ |- _ =>
    unfold u64_checked_add in H; destruct (N.leb _ _); simplify_eq end. simpl.
  destruct (valid_transition_rank (mo_kind operation) (mo_phase operation) next) as (Hlt & Hal & Hne); [done..|].
  rewrite bool_decide_eq_false_2 by done. split.
  - split; [lia|]. split; [|done]. destruct (bool_decide (mo_phase operation = Mph_Requested)); lia.
  - split; [done|]. split; [lia|done].
Qed.

Lemma operation_steps_ok operation steps operation' :
  operation_steps operation steps = Ok operation' ->
  MatterOperation.validate_persisted operation = Ok tt ->
  MatterOperation.validate_persisted operation' = Ok tt /\
  same_operation operation operation' /\
  match last steps with
  | Some (phase, at_) => mo_phase operation' = phase /\ mo_updated_at operation' = at_
  | None => operation' = operation
  end /\
  length steps + operation_rank (mo_kind operation) (mo_phase operation') <=
    operation_rank (mo_kind operation) (mo_phase operation) /\
  mo_revision operation' = (mo_revision operation + N.of_nat (length steps))%N.
Proof.
  revert operation. induction steps as [|[next at_] steps IH]; intros operation Hs Hv; simpl in *.
  { injection Hs as <-. split; [done|]. split; [done|]. split; [done|]. split; lia. }
  ok_inv. match goal with H : MatterOperation.transition _ _ _ = Ok _ |- _ => rename H into Ht end.
  destruct (operation_transition_ok _ _ _ _ Ht Hv) as (Hv' & Hsame & _ & Hph & Hat & Hr & Hrev).
  destruct (IH _ Hs Hv') as (Hv2 & Hsame2 & Hlast & Hr2 & Hrev2).
  destruct (Hsame) as (_ & Hk & _). rewrite Hk in *.
  split; [done|]. split; [by etrans|]. split; [|split; lia].
  destruct steps as [|step steps]; [simpl in Hlast |- *; by rewrite Hlast|].
  change (last ((next, at_) :: step :: steps)) with (last (step :: steps)).
  destruct (last (step :: steps)) as [[phase at2]|] eqn:E; [exact Hlast|by apply last_None in E].
Qed.

(** C23: A controller operation that was created and moved by any sequence of
    transitions is always one the deserialiser accepts again; it keeps the
    identity, the kind, the target and the creation time it was created with,
    stands at the phase and time of the last transition, and counted one revision
    per transition; no kind of operation makes more than seven, and it can be moved
    on exactly while its phase is not terminal. *)
Theorem operation_lifecycle id kind target created_at steps operation :
  operation_steps (MatterOperation.new id kind target created_at) steps = Ok operation ->
  MatterOperation.validate_persisted operation = Ok tt /\
  mo_id operation = id /\ mo_kind operation = kind /\ mo_target operation = target /\
  mo_created_at operation = created_at /\
  (mo_phase operation, mo_updated_at operation) = default (Mph_Requested, created_at) (last steps) /\
  mo_revision operation = (1 + N.of_nat (length steps))%N /\ length steps <= 7 /\
  (MatterOperationPhase.is_terminal (mo_phase operation) = true <->
   forall next at_, exists error, MatterOperation.transition operation next at_ = Err error).
Proof.
  intros Hs. destruct (operation_steps_ok _ _ _ Hs) as (Hv & (Hi & Hk & Htg & Hc) & Hlast & Hr & Hrev).
  { apply validate_persisted_iff. simpl. split; [lia|]. split; [done | by destruct kind]. }
  simpl in Hi, Hk, Htg, Hc, Hr, Hrev.
  assert (length steps <= 7) as Hlen by (destruct kind; simpl in Hr; lia).
  do 5 (split; [done|]).
  split; [destruct (last steps) as [[phase at_]|]; [by destruct Hlast as [-> ->]|by subst operation]|].
  split; [lia|]. split; [done|]. unfold MatterOperation.transition. split.
  - intros Hend next at_. rewrite Hend. destruct (negb (at_ <? _)%Z); simpl; eauto.
  - intros Hstuck. destruct (Hstuck Mph_Failed (mo_updated_at operation)) as [error He].
    rewrite Z.ltb_irrefl in He. simpl in He.
    destruct (MatterOperationPhase.is_terminal _) eqn:Ht; [done|]. exfalso. simpl in He.
    unfold u64_checked_add in He. rewrite Hrev in He.
    assert (N.leb (1 + N.of_nat (length steps) + 1) u64_max = true) as Hle
      by (apply N.leb_le; unfold u64_max; lia).
    by rewrite Hle in He.
Qed.

Lemma operation_lifecycle_witness :
  exists operation,
    operation_steps (MatterOperation.new "op" Mk_RepairSubscription (Mt_Node "fabric" 7) 0)
      [(Mph_ReadingGap, 5%Z); (Mph_Subscribing, 9%Z); (Mph_Completed, 9%Z)] = Ok operation /\
    MatterOperation.validate_persisted operation = Ok tt /\ mo_id operation = "op"%string.
Proof.
  eexists. split; [reflexivity|].
  destruct (operation_lifecycle "op" Mk_RepairSubscription (Mt_Node "fabric" 7) 0
    [(Mph_ReadingGap, 5%Z); (Mph_Subscribing, 9%Z); (Mph_Completed, 9%Z)] _ eq_refl) as (Hv & Hi & _).
  exact (conj Hv Hi).
Defined.
