(* ===== verification/MatterStore.v ===== *)
(** Desired-state coordination in the Matter tables,
    [crates/homemagic-storage/src/matter_repository.rs]: projections, desired
    command slots, supersessions and unlock authorizations.  Every function is
    the body of one transaction. *)

From S2P Require Import Prelude Text Capability Lifecycle Device Command MatterState CommandStore.

(** ** Contract data of the port ([matter_repository.rs] of the application) *)

Record MatterDesiredCommandSlot := mk_slot {
  ms_projection_id : MatterProjectionId;
  ms_desired_revision : N;
  ms_command_id : CommandId;
  ms_dispatched_at : option Instant;
  ms_updated_at : Instant
}.

Record MatterSupersededCommand := mk_superseded {
  su_command : CommandAggregate;
  su_expected_version : N;
  su_audit : CommandAuditRecord
}.

Record MatterDesiredStateWrite := mk_desired_write {
  dw_slot : MatterDesiredCommandSlot;
  dw_projection : StoredMatterProjection;
  dw_superseded : option MatterSupersededCommand
}.

Record MatterDispatchWrite := mk_dispatch_write {
  pw_projection_id : MatterProjectionId;
  pw_command : CommandAggregate;
  pw_expected_version : N;
  pw_audit : CommandAuditRecord;
  pw_dispatched_at : Instant
}.

Record MatterUnlockAuthorization := mk_authorization {
  ua_id : MatterUnlockAuthorizationId;
  ua_command_id : CommandId;
  ua_canonical_request_hash : CanonicalRequestHash;
  ua_requesting_actor_id : ActorId;
  ua_approving_actor_id : ActorId;
  ua_projection_id : MatterProjectionId;
  ua_device_id : DeviceId;
  ua_endpoint_id : EndpointId;
  ua_capability_schema : string;
  ua_action : AccessControlCommand;
  ua_desired_revision : N;
  ua_policy_revision : N;
  ua_issued_at : Instant;
  ua_expires_at : Instant;
  ua_consumed_at : option Instant
}.

Inductive MatterUnlockConsumption :=
| Uc_Consumed | Uc_NotFound | Uc_AlreadyConsumed | Uc_Expired | Uc_BindingMismatch.

(** ** Projections *)

Definition validate_revision (resource : string) (found expected : option N) (next : N) :
  result unit StorageError :=
  if negb (bool_decide (found = expected))
     || negb (N.eqb next (u64_saturating_add (default 0%N expected) 1))
  then Err (Se_MatterRevisionConflict resource expected found)
  else Ok tt.

Definition current_revision (db : Db) (id : string) : result (option N) StorageError :=
  match db_projections db !! id with
  | None => Ok None
  | Some row => let? revision := to_u64 (pj_revision row) in Ok (Some revision)
  end.

Definition load_projection (db : Db) (id : MatterProjectionId) : option StoredMatterProjection :=
  pj_payload <$> db_projections db !! id.

Definition load_projection_required (db : Db) (id : MatterProjectionId) :
  result StoredMatterProjection StorageError :=
  ok_or (load_projection db id) (Se_InvalidMatter "Matter projection not found").

Definition load_command_required (db : Db) (id : CommandId) :
  result CommandAggregate StorageError :=
  ok_or (load_command db id) (Se_InvalidMatter "command not found").

Definition same_stable_identity (stored projection : StoredMatterProjection) : bool :=
  String.eqb (sp_installation_id stored) (sp_installation_id projection)
  && String.eqb (sp_fabric_id stored) (sp_fabric_id projection)
  && N.eqb (sp_node_id stored) (sp_node_id projection)
  && N.eqb (sp_endpoint_number stored) (sp_endpoint_number projection)
  && String.eqb (sp_device_id stored) (sp_device_id projection)
  && String.eqb (sp_endpoint_id stored) (sp_endpoint_id projection).

(** The UNIQUE index over (fabric, node, endpoint, schema), for the row [id]. *)
Definition projection_unique (db : Db) (id : MatterProjectionId)
  (projection : StoredMatterProjection) : bool :=
  forallb (fun kv =>
    String.eqb kv.1 id
    || negb (String.eqb (sp_fabric_id (pj_payload kv.2)) (sp_fabric_id projection)
             && N.eqb (sp_node_id (pj_payload kv.2)) (sp_node_id projection)
             && N.eqb (sp_endpoint_number (pj_payload kv.2)) (sp_endpoint_number projection)
             && String.eqb (sp_capability_schema (pj_payload kv.2))
                           (sp_capability_schema projection)))
    (map_to_list (db_projections db)).

Definition store_projection (db : Db) (projection : StoredMatterProjection)
  (expected_revision : option N) : result Db StorageError :=
  guard? String.eqb (mp_projection_id (sp_state projection)) (sp_projection_id projection)
    else Se_InvalidMatter "projection state identity mismatch" in
  let id := sp_projection_id projection in
  let? found := current_revision db id in
  let? _ := validate_revision "projection" found expected_revision (sp_revision projection) in
  guard? match load_projection db id with
         | Some stored => same_stable_identity stored projection
         | None => true
         end else Se_InvalidMatter "projection stable identity changed" in
  let converged :=
    match mp_convergence (sp_state projection) with
    | Mc_Confirmed | Mc_NoDesiredState => true
    | _ => false
    end in
  let? _ := to_i64 (sp_node_id projection) in
  let? projection_revision := to_i64 (sp_projection_revision projection) in
  let? revision := to_i64 (sp_revision projection) in
  guard? (0 <? projection_revision)%Z && (0 <? revision)%Z && projection_unique db id projection
    else Se_Constraint in
  guard? match load_projection db id with
         | Some _ => true
         | None =>
             bool_decide (sp_installation_id projection ∈ db_installations db)
             && bool_decide ((sp_fabric_id projection, sp_node_id projection,
                              sp_endpoint_number projection) ∈ db_matter_endpoints db)
             && bool_decide ((sp_device_id projection, sp_endpoint_id projection)
                             ∈ db_endpoints db)
         end else Se_Constraint in
  Ok (set_projections db
        (<[id := mk_projection_row (sp_installation_id projection) revision converged projection]>
           (db_projections db))).

(** The first row the target index yields. *)
Definition matter_projection_for_target (db : Db) (device_id : DeviceId)
  (endpoint_id : EndpointId) (capability_schema : string) : option StoredMatterProjection :=
  (fun kv => pj_payload kv.2) <$>
    List.find (fun kv =>
      String.eqb (sp_device_id (pj_payload kv.2)) device_id
      && String.eqb (sp_endpoint_id (pj_payload kv.2)) endpoint_id
      && String.eqb (sp_capability_schema (pj_payload kv.2)) capability_schema)
      (map_to_list (db_projections db)).

(** ** Desired slots *)

Definition matter_desired_slot (db : Db) (projection_id : MatterProjectionId) :
  result (option MatterDesiredCommandSlot) StorageError :=
  match db_slots db !! projection_id with
  | None => Ok None
  | Some row =>
      let? revision := to_u64 (sl_desired_revision row) in
      Ok (Some (mk_slot projection_id revision (sl_command_id row) (sl_dispatched_at row)
                  (sl_updated_at row)))
  end.

Definition validate_command_target (command : CommandAggregate)
  (projection : StoredMatterProjection) : result unit StorageError :=
  guard? String.eqb (ce_device_id (ca_envelope command)) (sp_device_id projection)
         && String.eqb (ce_endpoint_id (ca_envelope command)) (sp_endpoint_id projection)
    else Se_InvalidMatter "command projection target mismatch" in
  Ok tt.

Definition is_pre_dispatch (state : CommandState) : bool :=
  match state with Cs_Received | Cs_Validated => true | _ => false end.

(** The replaced command, when it had not been dispatched. *)
Definition supersede (db : Db) (slot : MatterDesiredCommandSlot) (current_command_id : CommandId)
  (dispatched_at : option Instant) (superseded : option MatterSupersededCommand) :
  result (Db * option CommandId) StorageError :=
  match dispatched_at, superseded with
  | None, None => Err (Se_InvalidMatter "missing superseded command transition")
  | None, Some replacement =>
      let id := ce_id (ca_envelope (su_command replacement)) in
      guard? String.eqb id current_command_id
             && bool_decide (ca_state (su_command replacement) = Cs_Cancelled)
        else Se_InvalidMatter "superseded command mismatch" in
      let? db := transition_command db (su_command replacement) (su_expected_version replacement)
                   (su_audit replacement) in
      guard? bool_decide (db_supersessions db !! current_command_id = None) else Se_Constraint in
      Ok (set_desired db (db_slots db) (db_unlocks db)
            (<[current_command_id := (ms_command_id slot, ms_projection_id slot,
                                      ms_updated_at slot)]> (db_supersessions db)),
          Some id)
  | Some _, Some _ => Err (Se_InvalidMatter "dispatched command must remain historical")
  | Some _, None => Ok (db, None)
  end.

(** [DELETE FROM matter_unlock_authorizations WHERE command_id = .. AND consumed_at IS NULL]. *)
Definition drop_pending_unlocks (db : Db) (command_id : CommandId) : Db :=
  set_desired db (db_slots db)
    (filter (fun kv => ~ (ul_command_id kv.2 = command_id /\ ul_consumed_at kv.2 = None))
       (db_unlocks db))
    (db_supersessions db).

Definition replace_desired_slot (db : Db) (slot : MatterDesiredCommandSlot)
  (superseded : option MatterSupersededCommand) : result (Db * option CommandId) StorageError :=
  if N.eqb (ms_desired_revision slot) 0 || bool_decide (is_Some (ms_dispatched_at slot))
  then Err (Se_InvalidMatter "new desired slot is invalid")
  else
    let? projection := load_projection_required db (ms_projection_id slot) in
    let? command := load_command_required db (ms_command_id slot) in
    let? _ := validate_command_target command projection in
    guard? is_pre_dispatch (ca_state command)
      else Se_InvalidMatter "new desired command is not pre-dispatch" in
    let? (db, superseded_command_id) :=
      match db_slots db !! ms_projection_id slot with
      | Some row =>
          let? current_revision := to_u64 (sl_desired_revision row) in
          guard? negb (N.leb (ms_desired_revision slot) current_revision)
            else Se_InvalidMatter "desired revision did not advance" in
          if negb (String.eqb (sl_command_id row) (ms_command_id slot)) then
            let? (db, id) := supersede db slot (sl_command_id row) (sl_dispatched_at row)
                               superseded in
            Ok (drop_pending_unlocks db (sl_command_id row), id)
          else if bool_decide (is_Some superseded)
          then Err (Se_InvalidMatter "unexpected superseded command")
          else Ok (db, None)
      | None =>
          if bool_decide (is_Some superseded)
          then Err (Se_InvalidMatter "unexpected superseded command")
          else Ok (db, None)
      end in
    let? revision := to_i64 (ms_desired_revision slot) in
    Ok (set_desired db
          (<[ms_projection_id slot := mk_slot_row revision (ms_command_id slot) None
                                        (ms_updated_at slot)]> (db_slots db))
          (db_unlocks db) (db_supersessions db),
        superseded_command_id).

Definition replace_matter_desired_state (db : Db) (write : MatterDesiredStateWrite) :
  result (Db * option CommandId) StorageError :=
  let projection := dw_projection write in
  let slot := dw_slot write in
  guard? String.eqb (sp_projection_id projection) (ms_projection_id slot)
         && match mp_desired (sp_state projection) with
            | Some desired => N.eqb (rev_get (md_revision desired)) (ms_desired_revision slot)
            | None => false
            end else Se_InvalidMatter "desired slot and projection state mismatch" in
  let? (db, outcome) := replace_desired_slot db slot (dw_superseded write) in
  guard? negb (N.eqb (sp_revision projection) 0)
    else Se_InvalidMatter "invalid projection revision" in
  let? db := store_projection db projection (Some (sp_revision projection - 1)%N) in
  Ok (db, outcome).

Definition record_dispatch (db : Db) (write : MatterDispatchWrite) : result Db StorageError :=
  let id := ce_id (ca_envelope (pw_command write)) in
  guard? bool_decide (ca_state (pw_command write) = Cs_Dispatched)
    else Se_InvalidMatter "dispatch aggregate is not dispatched" in
  match db_slots db !! pw_projection_id write with
  | Some (mk_slot_row revision command_id None updated_at) =>
      guard? String.eqb command_id id else Se_InvalidMatter "dispatch slot command mismatch" in
      let? db := transition_command db (pw_command write) (pw_expected_version write)
                   (pw_audit write) in
      Ok (set_desired db
            (<[pw_projection_id write := mk_slot_row revision command_id
                 (Some (pw_dispatched_at write)) (pw_dispatched_at write)]> (db_slots db))
            (db_unlocks db) (db_supersessions db))
  | _ => Err Se_NoRows
  end.

(** ** Unlock authorizations *)

Definition current_slot_matches (db : Db) (authorization : MatterUnlockAuthorization) :
  result bool StorageError :=
  match db_slots db !! ua_projection_id authorization with
  | Some (mk_slot_row revision command_id None _) =>
      if String.eqb command_id (ua_command_id authorization)
      then let? revision := to_u64 revision in
           Ok (N.eqb revision (ua_desired_revision authorization))
      else Ok false
  | _ => Ok false
  end.

(** The last audit record of a command, by its sequence. *)
Definition latest_audit (db : Db) (command_id : CommandId) : option CommandAuditRecord :=
  foldl (fun best row =>
    let record := ax_payload row in
    if String.eqb (au_command_id record) command_id
    then match best with
         | Some b => if N.ltb (au_sequence b) (au_sequence record) then Some record else best
         | None => Some record
         end
    else best) None (db_audit db).

Definition command_policy_matches (db : Db) (authorization : MatterUnlockAuthorization) : bool :=
  match latest_audit db (ua_command_id authorization) with
  | None => false
  | Some audit =>
      match au_policy audit with
      | Some policy => pd_allowed policy
                       && N.eqb (pd_policy_version policy) (ua_policy_revision authorization)
      | None => false
      end
  end.

Definition is_unlock_scope (authorization : MatterUnlockAuthorization) (scope : GrantScope) : bool :=
  match scope with
  | Scope_Capability device_id endpoint_id schema =>
      String.eqb device_id (ua_device_id authorization)
      && String.eqb endpoint_id (ua_endpoint_id authorization)
      && String.eqb schema (ua_capability_schema authorization)
  | _ => false
  end.

Definition actor_has_exact_unlock_grant (db : Db) (authorization : MatterUnlockAuthorization) :
  bool :=
  match db_actors db !! ua_approving_actor_id authorization with
  | None => false
  | Some row =>
      let actor := ar_payload row in
      ac_enabled actor && bool_decide (ac_kind actor = Ak_User)
      && existsb (fun kv =>
           String.eqb (ag_actor_id kv.2) (ua_approving_actor_id authorization)
           && ag_enabled kv.2
           && RiskClass.permits (ag_maximum_risk kv.2) Risk_Security
           && bool_decide (Act_ApproveUnlock ∈ ag_actions kv.2)
           && is_unlock_scope authorization (ag_scope kv.2)) (map_to_list (db_grants db))
  end.

Definition unlock_payload : CommandPayload := Pl_AccessControl Ac_Unlock.

(** The desired value an authorization of [revision] unlocks. *)
Definition desires_unlock (projection : StoredMatterProjection) (revision : N) : bool :=
  match mp_desired (sp_state projection) with
  | Some desired => N.eqb (rev_get (md_revision desired)) revision
                    && bool_decide (md_value desired = Mv_Lock Ml_Unlocked)
  | None => false
  end.

Definition create_authorization (db : Db) (authorization : MatterUnlockAuthorization) :
  result Db StorageError :=
  if N.eqb (ua_desired_revision authorization) 0
     || N.eqb (ua_policy_revision authorization) 0
     || (ua_expires_at authorization <=? ua_issued_at authorization)%Z
     || bool_decide (is_Some (ua_consumed_at authorization))
     || negb (String.eqb (ua_capability_schema authorization) "access_control.v1")
     || negb (bool_decide (ua_action authorization = Ac_Unlock))
  then Err (Se_InvalidMatter "invalid unlock authorization")
  else
    let? projection := ok_or (load_projection db (ua_projection_id authorization)) Se_NoRows in
    let? row := ok_or (db_commands db !! ua_command_id authorization) Se_NoRows in
    let command := cm_payload row in
    let envelope := ca_envelope command in
    let request_hash := hash_text (ua_canonical_request_hash authorization) in
    let mismatch := Se_InvalidMatter "unlock authorization binding mismatch" in
    guard? bool_decide (ca_state command = Cs_Validated)
           && String.eqb (ce_actor_id envelope) (ua_requesting_actor_id authorization)
           && String.eqb (ce_device_id envelope) (sp_device_id projection)
           && String.eqb (ce_endpoint_id envelope) (sp_endpoint_id projection)
           && String.eqb (ce_device_id envelope) (ua_device_id authorization)
           && String.eqb (ce_endpoint_id envelope) (ua_endpoint_id authorization)
           && bool_decide (ce_payload envelope = unlock_payload)
           && String.eqb (CommandPayload.schema (ce_payload envelope))
                         (ua_capability_schema authorization)
           && String.eqb (cm_request_hash row) request_hash
           && String.eqb (sp_projection_id projection) (ua_projection_id authorization)
           && String.eqb (sp_capability_schema projection) (ua_capability_schema authorization)
           && bool_decide (mp_freshness (sp_state projection) = Mf_Fresh)
           && desires_unlock projection (ua_desired_revision authorization) else mismatch in
    let? slot_matches := current_slot_matches db authorization in
    guard? slot_matches && command_policy_matches db authorization
           && actor_has_exact_unlock_grant db authorization else mismatch in
    let? desired_revision := to_i64 (ua_desired_revision authorization) in
    let? policy_revision := to_i64 (ua_policy_revision authorization) in
    guard? bool_decide (db_unlocks db !! ua_id authorization = None)
           && bool_decide (is_Some (db_actors db !! ua_requesting_actor_id authorization))
           && request_hash_check request_hash else Se_Constraint in
    Ok (set_desired db (db_slots db)
          (<[ua_id authorization := mk_unlock_row (ua_command_id authorization)
               (ua_requesting_actor_id authorization) (ua_approving_actor_id authorization)
               (ua_projection_id authorization) desired_revision policy_revision
               (ua_issued_at authorization) (ua_expires_at authorization) None request_hash
               (ua_device_id authorization) (ua_endpoint_id authorization)
               (ua_capability_schema authorization) "unlock"]> (db_unlocks db))
          (db_supersessions db)).

Definition consume (row : UnlockRow) (consumed_at : Instant) : UnlockRow :=
  mk_unlock_row (ul_command_id row) (ul_requester row) (ul_approver row) (ul_projection_id row)
    (ul_desired_revision row) (ul_policy_revision row) (ul_issued_at row) (ul_expires_at row)
    (Some consumed_at) (ul_request_hash row) (ul_device_id row) (ul_endpoint_id row)
    (ul_capability_schema row) (ul_action row).

(** [UPDATE .. SET consumed_at = ?1 WHERE id = ?2 AND consumed_at IS NULL AND expires_at > ?1]. *)
Definition claim (db : Db) (id : MatterUnlockAuthorizationId) (consumed_at : Instant) : option Db :=
  match db_unlocks db !! id with
  | Some row =>
      if bool_decide (ul_consumed_at row = None) && (consumed_at <? ul_expires_at row)%Z
      then Some (set_desired db (db_slots db) (<[id := consume row consumed_at]> (db_unlocks db))
                   (db_supersessions db))
      else None
  | None => None
  end.

Definition consume_authorization (db : Db) (authorization_id : MatterUnlockAuthorizationId)
  (command_id : CommandId) (projection_id : MatterProjectionId) (consumed_at : Instant) :
  Db * MatterUnlockConsumption :=
  match db_unlocks db !! authorization_id with
  | None => (db, Uc_NotFound)
  | Some row =>
      if negb (String.eqb (ul_command_id row) command_id)
         || negb (String.eqb (ul_projection_id row) projection_id)
      then (db, Uc_BindingMismatch)
      else if bool_decide (is_Some (ul_consumed_at row)) then (db, Uc_AlreadyConsumed)
      else if (ul_expires_at row <=? consumed_at)%Z then (db, Uc_Expired)
      else match claim db authorization_id consumed_at with
           | Some db => (db, Uc_Consumed)
           | None => (db, Uc_AlreadyConsumed)
           end
  end.

(** The authorization a stored row stands for, at the dispatch of [write]. *)
Definition stored_authorization (id : MatterUnlockAuthorizationId) (stored : UnlockRow)
  (write : MatterDispatchWrite) : result MatterUnlockAuthorization StorageError :=
  let envelope := ca_envelope (pw_command write) in
  let? hash := map_err (fun _ => Se_InvalidMatter "invalid stored unlock request hash")
                 (CanonicalRequestHash.new (ul_request_hash stored)) in
  let? desired_revision := to_u64 (ul_desired_revision stored) in
  let? policy_revision := to_u64 (ul_policy_revision stored) in
  Ok (mk_authorization id (ce_id envelope) hash (ul_requester stored) (ul_approver stored)
        (pw_projection_id write) (ce_device_id envelope) (ce_endpoint_id envelope)
        (ul_capability_schema stored) Ac_Unlock desired_revision policy_revision
        (ul_issued_at stored) (ul_expires_at stored) None).

Definition unlock_binding_matches (stored : UnlockRow) (stored_request_hash : string)
  (command : CommandAggregate) (projection : StoredMatterProjection)
  (write : MatterDispatchWrite) : bool :=
  let envelope := ca_envelope (pw_command write) in
  String.eqb (ul_command_id stored) (ce_id envelope)
  && String.eqb (ul_projection_id stored) (pw_projection_id write)
  && String.eqb (ul_device_id stored) (ce_device_id envelope)
  && String.eqb (ul_endpoint_id stored) (ce_endpoint_id envelope)
  && String.eqb (ul_capability_schema stored) "access_control.v1"
  && String.eqb (ul_action stored) "unlock"
  && String.eqb stored_request_hash (ul_request_hash stored)
  && bool_decide (ca_state command = Cs_Validated)
  && bool_decide (ce_payload (ca_envelope command) = unlock_payload)
  && bool_decide (mp_freshness (sp_state projection) = Mf_Fresh)
  && N.eqb (pw_expected_version write) (ca_version command).

Definition authorize_and_record_unlock_dispatch (db : Db)
  (authorization_id : MatterUnlockAuthorizationId) (write : MatterDispatchWrite) :
  result (Db * MatterUnlockConsumption) StorageError :=
  match db_unlocks db !! authorization_id with
  | None => Ok (db, Uc_NotFound)
  | Some stored =>
      if bool_decide (is_Some (ul_consumed_at stored)) then Ok (db, Uc_AlreadyConsumed)
      else if (ul_expires_at stored <=? pw_dispatched_at write)%Z then Ok (db, Uc_Expired)
      else
        let id := ce_id (ca_envelope (pw_command write)) in
        let? command := load_command_required db id in
        let? projection := load_projection_required db (pw_projection_id write) in
        let? row := ok_or (db_commands db !! id) Se_NoRows in
        let? authorization := stored_authorization authorization_id stored write in
        if negb (unlock_binding_matches stored (cm_request_hash row) command projection write)
        then Ok (db, Uc_BindingMismatch)
        else
          let? slot_matches := current_slot_matches db authorization in
          if negb (slot_matches && command_policy_matches db authorization
                   && actor_has_exact_unlock_grant db authorization)
          then Ok (db, Uc_BindingMismatch)
          else
            match claim db authorization_id (pw_dispatched_at write) with
            | None => Ok (db, Uc_AlreadyConsumed)
            | Some db =>
                let? db := record_dispatch db write in
                Ok (db, Uc_Consumed)
            end
  end.

(** ** Lemmas *)

(** The effect of a transaction on the command log: nothing, or one accepted
    transition. *)
Inductive moved (db db' : Db) : option CommandAggregate -> Prop :=
| moved_none : same_commands db db' -> moved db db' None
| moved_one db1 c v a db2 :
    same_commands db db1 -> transition_command db1 c v a = Ok db2 -> same_commands db2 db' ->
    moved db db' (Some c).

Lemma moved_then_same db db1 db' m : moved db db1 m -> same_commands db1 db' -> moved db db' m.
Proof.
  intros [Hs|db2 c v a db3 Ha Hb Hc] Hd; [constructor | econstructor; [done..|]]; by etransitivity.
Qed.

Lemma same_then_moved db db1 db' m : same_commands db db1 -> moved db1 db' m -> moved db db' m.
Proof.
  intros Ha [Hs|db2 c v a db3 Hb Hc Hd]; [constructor | econstructor; [|done..]]; by etransitivity.
Qed.

(** Every slot's command is [id], or was in a slot before. *)
Definition slots_within (db db' : Db) (id : option CommandId) : Prop :=
  forall p row, db_slots db' !! p = Some row ->
    id = Some (sl_command_id row) \/
    exists p0 row0, db_slots db !! p0 = Some row0 /\ sl_command_id row0 = sl_command_id row.

Lemma slots_within_same db db' id : db_slots db' = db_slots db -> slots_within db db' id.
Proof. intros Hs p row. rewrite Hs. eauto. Qed.

Lemma slots_within_insert db db' p row id :
  db_slots db' = <[p := row]> (db_slots db) ->
  (id = Some (sl_command_id row) \/
   exists p0 row0, db_slots db !! p0 = Some row0 /\ sl_command_id row0 = sl_command_id row) ->
  slots_within db db' id.
Proof.
  intros Hs Hrow p' row' Hl. rewrite Hs in Hl.
  apply lookup_insert_Some in Hl as [[<- <-]|[_ Hl]]; [done | eauto].
Qed.

Lemma transition_same_slots db c v a db' :
  transition_command db c v a = Ok db' -> db_slots db' = db_slots db.
Proof. intros (row & Ht)%transition_command_ok. apply Ht. Qed.

Lemma supersede_ok db slot id dispatched_at superseded db' outcome :
  supersede db slot id dispatched_at superseded = Ok (db', outcome) ->
  db_slots db' = db_slots db /\
  exists m, moved db db' m /\ forall c, m = Some c -> ca_state c = Cs_Cancelled.
Proof.
  unfold supersede. destruct dispatched_at as [d|], superseded as [s|]; intros Hs; try discriminate.
  - injection Hs as <- <-. split; [done|]. exists None. split; [by constructor | done].
  - ok_inv. bool_inv. cbn. split.
    + by eapply transition_same_slots.
    + exists (Some (su_command s)). split; [|by intros c [= <-]]. by econstructor.
Qed.

Lemma replace_desired_slot_ok db slot superseded db' outcome :
  replace_desired_slot db slot superseded = Ok (db', outcome) ->
  (exists row, sl_command_id row = ms_command_id slot /\
     db_slots db' = <[ms_projection_id slot := row]> (db_slots db)) /\
  exists m, moved db db' m /\ forall c, m = Some c -> ca_state c = Cs_Cancelled.
Proof.
  unfold replace_desired_slot. intros Hr. case_match; [discriminate|].
  apply result_bind_ok in Hr as (projection & _ & Hr).
  apply result_bind_ok in Hr as (command & _ & Hr).
  apply result_bind_ok in Hr as (u & _ & Hr). case_match; [|discriminate].
  apply result_bind_ok in Hr as ([db1 id] & H1 & Hr).
  apply result_bind_ok in Hr as (revision & _ & [= <- <-]).
  assert (db_slots db1 = db_slots db /\ exists m, moved db db1 m /\
            forall c, m = Some c -> ca_state c = Cs_Cancelled) as [Hslots Hm].
  { assert (forall b : bool, (if b then Err (Se_InvalidMatter "unexpected superseded command")
        else Ok (db, None)) = Ok (db1, id) -> db1 = db) as Hsame.
    { intros [|]; [discriminate|]. by intros [= -> _]. }
    destruct (db_slots db !! ms_projection_id slot) as [row|].
    - apply result_bind_ok in H1 as (current & _ & H1).
      destruct (negb (N.leb _ _)); [|discriminate].
      destruct (negb (String.eqb _ _)).
      + apply result_bind_ok in H1 as ([db2 id2] & Hs & [= <- <-]).
        apply supersede_ok in Hs as (Hslots & m & Hm & Hc). split; [done|]. exists m.
        split; [|done]. by eapply moved_then_same.
      + apply Hsame in H1 as ->. split; [done|]. exists None. split; [by constructor | done].
    - apply Hsame in H1 as ->. split; [done|]. exists None. split; [by constructor | done]. }
  split.
  - eexists. split; [|cbn; by rewrite Hslots]. done.
  - destruct Hm as (m & Hm & Hc). exists m. split; [|done]. by eapply moved_then_same.
Qed.

Lemma store_projection_ok db projection expected db' :
  store_projection db projection expected = Ok db' ->
  same_commands db db' /\ db_slots db' = db_slots db.
Proof.
  unfold store_projection. cbn zeta. intros Hs. ok_inv. done.
Qed.

Lemma replace_matter_desired_state_split db write db' outcome :
  replace_matter_desired_state db write = Ok (db', outcome) ->
  exists db1, replace_desired_slot db (dw_slot write) (dw_superseded write) = Ok (db1, outcome) /\
    same_commands db1 db' /\ db_slots db' = db_slots db1.
Proof.
  unfold replace_matter_desired_state. cbn zeta. intros Hr. case_match; [|discriminate].
  apply result_bind_ok in Hr as ([db1 id] & Hr1 & Hr). case_match; [|discriminate].
  apply result_bind_ok in Hr as (db2 & [Hsame Hslots]%store_projection_ok & [= <- <-]). by exists db1.
Qed.

Lemma replace_matter_desired_state_ok db write db' outcome :
  replace_matter_desired_state db write = Ok (db', outcome) ->
  slots_within db db' (Some (ms_command_id (dw_slot write))) /\
  exists m, moved db db' m /\ forall c, m = Some c -> ca_state c = Cs_Cancelled.
Proof.
  intros (db1 & ((row & Hid & Hrow) & m & Hm & Hc)%replace_desired_slot_ok & Hsame & Hslots)%replace_matter_desired_state_split.
  split.
  - eapply slots_within_insert; [by rewrite Hslots | left; by rewrite Hid].
  - exists m. split; [|done]. by eapply moved_then_same.
Qed.

Lemma record_dispatch_ok db write db' :
  record_dispatch db write = Ok db' ->
  ca_state (pw_command write) = Cs_Dispatched /\ moved db db' (Some (pw_command write)) /\
  slots_within db db' None.
Proof.
  unfold record_dispatch. cbn zeta. intros Hr. case_match eqn:Hs; [|discriminate].
  apply bool_decide_eq_true in Hs. destruct (db_slots db !! _) as [[r id [d|] u]|] eqn:Hrow; try discriminate.
  case_match; [|discriminate]. apply result_bind_ok in Hr as (db1 & Ht & [= <-]).
  split; [done|]. split; [by econstructor|].
  eapply slots_within_insert; [cbn; by erewrite transition_same_slots|]. right. by eexists _, _.
Qed.

Lemma claim_ok db id now db' :
  claim db id now = Some db' ->
  same_commands db db' /\ db_slots db' = db_slots db /\
  exists row, db_unlocks db !! id = Some row /\ ul_consumed_at row = None /\
    (now < ul_expires_at row)%Z /\ db_unlocks db' = <[id := consume row now]> (db_unlocks db).
Proof.
  unfold claim. intros Hc. destruct (db_unlocks db !! id) as [row|] eqn:Hrow; [|discriminate].
  case_match; [|discriminate]. bool_inv. injection Hc as <-.
  repeat split. by exists row.
Qed.

Lemma create_authorization_ok db authorization db' :
  create_authorization db authorization = Ok db' ->
  same_commands db db' /\ db_slots db' = db_slots db.
Proof.
  unfold create_authorization. cbn zeta. intros Hc. ok_inv. done.
Qed.

(** Consumption dispatches, and every other outcome leaves the store as it was. *)
Lemma authorize_dispatch_ok db id write db' outcome :
  authorize_and_record_unlock_dispatch db id write = Ok (db', outcome) ->
  (outcome = Uc_Consumed /\ ca_state (pw_command write) = Cs_Dispatched /\
   moved db db' (Some (pw_command write)) /\ slots_within db db' None) \/
  (outcome <> Uc_Consumed /\ db' = db).
Proof.
  unfold authorize_and_record_unlock_dispatch. intros Ha.
  destruct (db_unlocks db !! id) as [stored|]; [|right; by simplify_eq].
  repeat (case_match; [right; by simplify_eq|]). cbn zeta in Ha.
  repeat (apply result_bind_ok in Ha as (? & _ & Ha)). case_match; [right; by simplify_eq|].
  apply result_bind_ok in Ha as (? & _ & Ha). case_match; [right; by simplify_eq|].
  destruct (claim db id _) as [db1|] eqn:Hclaim; [|right; by simplify_eq].
  apply claim_ok in Hclaim as (Hsame & Hslots & _).
  apply result_bind_ok in Ha as (db2 & (Hs & Hm & Hw)%record_dispatch_ok & [= <- <-]).
  left. split; [done|]. split; [done|]. split.
  - by eapply same_then_moved.
  - intros p row Hp. destruct (Hw p row Hp) as [|(p0 & row0 & Hp0 & Hid)]; [by left|].
    right. rewrite Hslots in Hp0. eauto.
Qed.
