(* ===== verification/Effects.v ===== *)
(** Effectful programs.  An [async] function of the program is a finite tree of
    the operations it awaits ([Prog]): the code between two awaits is pure, and
    other tasks may run at every operation.  The file gives the monad, the
    error bind of [?], the token logic that follows a permission through a
    program ([wp]) and the bound on the operations a program performs. *)

From stdpp Require Import relations.
From S2P Require Import Prelude.

Section Prog.
Context {Op : Type} {resp : Op -> Type}.

Inductive Prog (A : Type) : Type :=
| Ret (value : A)
| Io (op : Op) (k : resp op -> Prog A).
Arguments Ret {A} value.
Arguments Io {A} op k.

Fixpoint bind {A B : Type} (m : Prog A) (f : A -> Prog B) : Prog B :=
  match m with
  | Ret a => f a
  | Io op k => Io op (fun r => bind (k r) f)
  end.

Definition perform (op : Op) : Prog (resp op) := Io op Ret.

(** [m?]: an error ends the function. *)
Definition try_bind {A B E : Type} (m : Prog (result A E)) (f : A -> Prog (result B E)) :
  Prog (result B E) :=
  bind m (fun r => match r with Ok a => f a | Err e => Ret (Err e) end).

(** Runs [release] after [m], whatever [m] returned: the drop of a value. *)
Definition finally {A : Type} (m : Prog A) (release : Prog unit) : Prog A :=
  bind m (fun a => bind release (fun _ => Ret a)).

(** A [for] loop whose body may end the function with an error. *)
Fixpoint for_each {A E : Type} (l : list A) (f : A -> Prog (result unit E)) :
  Prog (result unit E) :=
  match l with
  | [] => Ret (Ok tt)
  | a :: l => try_bind (f a) (fun _ => for_each l f)
  end.

(** ** Execution of one task alone *)

Section Run.
Context {W : Type} (exec : forall op : Op, W -> resp op * W).

Fixpoint run {A : Type} (m : Prog A) (w : W) : A * W :=
  match m with
  | Ret a => (a, w)
  | Io op k => let '(r, w) := exec op w in run (k r) w
  end.

Lemma run_bind {A B} (m : Prog A) (f : A -> Prog B) w :
  run (bind m f) w = let '(a, w) := run m w in run (f a) w.
Proof. revert w. induction m as [a|op k IH]; intros w; simpl; [done|]. destruct (exec op w). apply IH. Qed.
End Run.

(** ** Tokens *)

(** [needs] is what an operation requires of the tokens its task holds,
    [gives] the tokens it holds after a response, and [assumes] what the
    environment promises of a response and of the tokens held then. *)
Section Wp.
Context {T : Type} (needs : forall op : Op, T -> Prop) (gives : forall op : Op, resp op -> T -> T)
  (assumes : forall op : Op, resp op -> T -> Prop).

Fixpoint wp {A : Type} (m : Prog A) (t : T) (Q : A -> T -> Prop) : Prop :=
  match m with
  | Ret a => Q a t
  | Io op k => needs op t /\ forall r, assumes op r (gives op r t) -> wp (k r) (gives op r t) Q
  end.

Lemma wp_mono {A} (m : Prog A) t (Q R : A -> T -> Prop) :
  wp m t Q -> (forall a t, Q a t -> R a t) -> wp m t R.
Proof.
  intros Hm HQR. revert t Hm. induction m as [a|op k IH]; intros t; simpl; [auto|].
  intros [Hn Hk]. split; [done|]. intros r Hr. by apply IH, Hk.
Qed.

(** A relation every operation respects holds between the tokens of the start
    and the end. *)
Lemma wp_frame {A} (R : T -> T -> Prop) `{!Reflexive R, !Transitive R} (m : Prog A) t Q :
  (forall op r t, R t (gives op r t)) -> wp m t Q -> wp m t (fun a t' => Q a t' /\ R t t').
Proof.
  intros HR. revert t. induction m as [a|op k IH]; intros t; simpl; [done|].
  intros [Hn Hk]. split; [done|]. intros r Hr. eapply wp_mono; [apply IH, Hk, Hr|].
  intros a t' [HQ Ht']. split; [done|]. by transitivity (gives op r t).
Qed.

Lemma wp_bind {A B} (m : Prog A) (f : A -> Prog B) t Q :
  wp m t (fun a t => wp (f a) t Q) -> wp (bind m f) t Q.
Proof.
  revert t. induction m as [a|op k IH]; intros t; simpl; [done|].
  intros [Hn Hk]. split; [done|]. intros r Hr. by apply IH, Hk.
Qed.

Lemma wp_try {A B E} (m : Prog (result A E)) (f : A -> Prog (result B E)) t Q :
  wp m t (fun r t => match r with Ok a => wp (f a) t Q | Err e => Q (Err e) t end) ->
  wp (try_bind m f) t Q.
Proof. intros Hm. apply wp_bind. eapply wp_mono; [exact Hm|]. intros [a|e] t' H; exact H. Qed.

Lemma wp_finally {A} (m : Prog A) release t Q :
  wp m t (fun a t => wp release t (fun _ t => Q a t)) -> wp (finally m release) t Q.
Proof.
  intros Hm. apply wp_bind. eapply wp_mono; [exact Hm|].
  intros a t' Hr. apply wp_bind. eapply wp_mono; [exact Hr|]. auto.
Qed.

Lemma wp_for_each {A E} (l : list A) (f : A -> Prog (result unit E)) t (I : T -> Prop)
  (Q : result unit E -> T -> Prop) :
  I t -> (forall a t, In a l -> I t -> wp (f a) t (fun r t => I t /\ match r with Ok _ => True | Err e => Q (Err e) t end)) ->
  (forall t, I t -> Q (Ok tt) t) -> wp (for_each l f) t Q.
Proof.
  intros Ht Hf HQ. revert t Ht. induction l as [|a l IH]; intros t Ht; simpl; [by apply HQ|].
  apply wp_try. eapply wp_mono; [apply Hf; [by left | done]|].
  intros [u|e] t' [Ht' He]; [|done]. apply IH; [|done]. intros b t'' Hb. apply Hf. by right.
Qed.
End Wp.

(** ** Tasks with tokens *)

(** Every task holds tokens under which it runs safely, apart from the others. *)
Section Tasks.
Context {W T : Type} (needs : forall op : Op, T -> Prop) (gives : forall op : Op, resp op -> T -> T)
  (assumes : forall op : Op, resp op -> T -> Prop) (holds : W -> T -> Prop) (apart : T -> T -> Prop)
  (nothing : T).

Abbreviation safe m t := (wp needs gives assumes m t (fun _ _ => True)).

Record tasks_ok (w : W) (tasks : list (Prog unit)) (toks : list T) : Prop := {
  tk_tasks : Forall2 (fun m t => holds w t /\ safe m t) tasks toks;
  tk_apart : forall i j t u, i <> j -> toks !! i = Some t -> toks !! j = Some u -> apart t u
}.

Lemma tasks_ok_world w w' tasks toks :
  tasks_ok w tasks toks -> (forall t, holds w t -> holds w' t) -> tasks_ok w' tasks toks.
Proof.
  intros Hk Hw. split; [|apply Hk]. eapply Forall2_impl; [apply Hk|]. naive_solver.
Qed.

Lemma tasks_ok_nil w : tasks_ok w [] [].
Proof. split; [constructor | done]. Qed.

Context (apart_sym : forall t u, apart t u -> apart u t).
Context (nothing_apart : forall t, apart t nothing) (nothing_ok : forall w, holds w nothing).

(** Replacing the task at [i], and its tokens, when the others are kept. *)
Lemma tasks_ok_insert w w' tasks toks i m t t' :
  tasks_ok w tasks toks -> toks !! i = Some t -> holds w' t' -> safe m t' ->
  (forall u, holds w u -> apart t u -> holds w' u /\ apart t' u) ->
  tasks_ok w' (<[i := m]> tasks) (<[i := t']> toks).
Proof.
  intros Hk Hi Ht' Hm Hothers. pose proof (tk_tasks _ _ _ Hk) as Hf.
  assert (forall j u, j <> i -> toks !! j = Some u -> holds w' u /\ apart t' u) as Hj.
  { intros j u Hne Hu. destruct (Forall2_lookup_r _ _ _ _ _ Hf Hu) as (mj & _ & Hok & _).
    apply Hothers; [done|]. by apply (tk_apart _ _ _ Hk i j). }
  split.
  - apply Forall2_same_length_lookup. rewrite !length_insert.
    split; [by eapply Forall2_length|]. intros j x y.
    destruct (decide (j = i)) as [->|Hne].
    + pose proof (lookup_lt_Some _ _ _ Hi) as Hlt. pose proof (Forall2_length _ _ _ Hf) as Hlen.
      rewrite !list_lookup_insert_eq by lia. naive_solver.
    + rewrite !list_lookup_insert_ne by done. intros Hx Hy. split; [by eapply Hj|].
      by eapply Forall2_lookup_lr in Hf as [_ ?].
  - intros j k u v Hne. destruct (decide (j = i)) as [->|Hji]; destruct (decide (k = i)) as [->|Hki].
    + done.
    + rewrite (list_lookup_insert_ne _ _ k) by done. intros Hu Hv.
      pose proof (lookup_lt_Some _ _ _ Hi). rewrite list_lookup_insert_eq in Hu by done.
      injection Hu as <-. by eapply Hj.
    + rewrite (list_lookup_insert_ne _ _ j) by done. intros Hu Hv.
      pose proof (lookup_lt_Some _ _ _ Hi). rewrite list_lookup_insert_eq in Hv by done.
      injection Hv as <-. apply apart_sym. by eapply Hj.
    + rewrite !list_lookup_insert_ne by done. by apply (tk_apart _ _ _ Hk).
Qed.

(** A new task starts without tokens. *)
Lemma tasks_ok_spawn w tasks toks m :
  tasks_ok w tasks toks -> safe m nothing -> tasks_ok w (tasks ++ [m]) (toks ++ [nothing]).
Proof.
  intros Hk Hm. split.
  - apply Forall2_app; [apply Hk|]. constructor; [by split | constructor].
  - intros i j t u Hne Ht Hu.
    apply lookup_app_Some in Ht as [Ht|[Hi Ht]], Hu as [Hu|[Hj Hu]].
    + by apply (tk_apart _ _ _ Hk i j).
    + apply list_lookup_singleton_Some in Hu as [_ <-]. apply nothing_apart.
    + apply list_lookup_singleton_Some in Ht as [_ <-]. apply apart_sym, nothing_apart.
    + apply list_lookup_singleton_Some in Ht as [? _], Hu as [? _]. lia.
Qed.

(** A dropped task holds nothing. *)
Lemma tasks_ok_drop w w' tasks toks i :
  tasks_ok w tasks toks -> (forall u, holds w u -> holds w' u) ->
  exists toks', tasks_ok w' (<[i := Ret tt]> tasks) toks'.
Proof.
  intros Hk Hw. destruct (toks !! i) as [t|] eqn:Ht.
  - exists (<[i := nothing]> toks). eapply tasks_ok_insert; try done.
    intros u Hok _. split; [by apply Hw | apply apart_sym, nothing_apart].
  - exists toks. rewrite list_insert_ge; [by eapply tasks_ok_world|].
    rewrite (Forall2_length _ _ _ (tk_tasks _ _ _ Hk)). by apply lookup_ge_None.
Qed.

(** The operation at the head of a task is justified by its tokens, and its
    answer leaves the task safe. *)
Lemma tasks_ok_head w tasks toks i op (k : resp op -> Prog unit) :
  tasks_ok w tasks toks -> tasks !! i = Some (Io op k) ->
  exists t, toks !! i = Some t /\ holds w t /\ needs op t /\
    forall r, assumes op r (gives op r t) -> safe (k r) (gives op r t).
Proof.
  intros Hk Hi. destruct (Forall2_lookup_l _ _ _ _ _ (tk_tasks _ _ _ Hk) Hi) as (t & Ht & Hok & Hn & Hr).
  by exists t.
Qed.
End Tasks.

(** ** One task in a shared world *)

(** [legal] is what the world can answer an operation, and [after] the world it
    leaves; [always] holds of every outcome of a task that runs alone. *)
Section World.
Context {W : Type} (legal : forall op : Op, resp op -> W -> Prop)
  (after : forall op : Op, resp op -> W -> W).

Fixpoint always {A : Type} (m : Prog A) (w : W) (Q : A -> W -> Prop) : Prop :=
  match m with
  | Ret a => Q a w
  | Io op k => forall r, legal op r w -> always (k r) (after op r w) Q
  end.

Lemma always_mono {A} (m : Prog A) w (Q R : A -> W -> Prop) :
  always m w Q -> (forall a w, Q a w -> R a w) -> always m w R.
Proof.
  intros Hm HQR. revert w Hm. induction m as [a|op k IH]; intros w; simpl; [auto|].
  intros Hk r Hr. by apply IH, Hk.
Qed.

Lemma always_bind {A B} (m : Prog A) (f : A -> Prog B) w Q :
  always m w (fun a w => always (f a) w Q) -> always (bind m f) w Q.
Proof.
  revert w. induction m as [a|op k IH]; intros w; simpl; [done|].
  intros Hk r Hr. by apply IH, Hk.
Qed.

Lemma always_try {A B E} (m : Prog (result A E)) (f : A -> Prog (result B E)) w Q :
  always m w (fun r w => match r with Ok a => always (f a) w Q | Err e => Q (Err e) w end) ->
  always (try_bind m f) w Q.
Proof. intros Hm. apply always_bind. eapply always_mono; [exact Hm|]. intros [a|e] w' H; exact H. Qed.

Lemma always_for_each {A E} (l : list A) (f : A -> Prog (result unit E)) w
  (Q : result unit E -> W -> Prop) :
  (forall a w, In a l -> Q (Ok tt) w -> always (f a) w Q) -> Q (Ok tt) w ->
  always (for_each l f) w Q.
Proof.
  revert w. induction l as [|a l IH]; intros w Hf Hw; simpl; [done|].
  apply always_try. eapply always_mono; [apply Hf; [by left|done]|].
  intros [[]|e] w' HQ; [|done]. apply IH; [|done]. intros b w'' Hb. apply Hf. by right.
Qed.
(** Tasks interleave at their operations. *)
Inductive world_step {A : Type} : W * list (Prog A) -> W * list (Prog A) -> Prop :=
| world_step_op i op k (r : resp op) w tasks :
    tasks !! i = Some (Io op k) -> legal op r w ->
    world_step (w, tasks) (after op r w, <[i := k r]> tasks).

Lemma world_steps {A : Type} i op (k : resp op -> Prog A) r w tasks state :
  tasks !! i = Some (Io op k) -> legal op r w ->
  rtc world_step (after op r w, <[i := k r]> tasks) state -> rtc world_step (w, tasks) state.
Proof. intros Hi Hr Hs. eapply rtc_l; [by eapply world_step_op|exact Hs]. Qed.
End World.

(** ** One task alone *)

(** Every outcome of a task whose operations [exec] answers. *)
Section Alone.
Context {W : Type} (exec : forall op : Op, W -> resp op * W).

Definition alone {A : Type} (m : Prog A) (w : W) (Q : A -> W -> Prop) : Prop :=
  always (fun op r w => r = (exec op w).1) (fun op _ w => (exec op w).2) m w Q.

Lemma alone_run {A} (m : Prog A) w (Q : A -> W -> Prop) :
  alone m w Q -> Q (run exec m w).1 (run exec m w).2.
Proof.
  unfold alone. revert w. induction m as [a|op k IH]; intros w Hm; [exact Hm|].
  cbn in *. specialize (Hm _ eq_refl). destruct (exec op w) as [r w']. by apply IH.
Qed.

Lemma alone_ret {A} (a : A) w (Q : A -> W -> Prop) : Q a w -> alone (Ret a) w Q.
Proof. done. Qed.

Lemma alone_op op w (Q : resp op -> W -> Prop) :
  Q (exec op w).1 (exec op w).2 -> alone (perform op) w Q.
Proof. by intros HQ r ->. Qed.

Lemma alone_mono {A} (m : Prog A) w (Q R : A -> W -> Prop) :
  alone m w Q -> (forall a w, Q a w -> R a w) -> alone m w R.
Proof. apply always_mono. Qed.

Lemma alone_bind {A B} (m : Prog A) (f : A -> Prog B) w Q :
  alone m w (fun a w => alone (f a) w Q) -> alone (bind m f) w Q.
Proof. apply always_bind. Qed.

Lemma alone_try {A B E} (m : Prog (result A E)) (f : A -> Prog (result B E)) w Q :
  alone m w (fun r w => match r with Ok a => alone (f a) w Q | Err e => Q (Err e) w end) ->
  alone (try_bind m f) w Q.
Proof. apply always_try. Qed.
End Alone.

(** ** Bounds *)

(** The program performs at most [n] operations, whatever they return. *)
Fixpoint bounded {A : Type} (n : nat) (m : Prog A) {struct m} : Prop :=
  match m with
  | Ret _ => True
  | Io op k => match n with O => False | S n => forall r, bounded n (k r) end
  end.

Lemma bounded_mono {A} (m : Prog A) n n' : n <= n' -> bounded n m -> bounded n' m.
Proof.
  revert n n'. induction m as [a|op k IH]; intros n n' Hle; simpl; [intros _; exact I|].
  destruct n as [|n]; [done|]. destruct n' as [|n']; [lia|].
  intros Hk r. apply (IH r n); [lia | apply Hk].
Qed.

Lemma bounded_bind {A B} (m : Prog A) (f : A -> Prog B) n n' :
  bounded n m -> (forall a, bounded n' (f a)) -> bounded (n + n') (bind m f).
Proof.
  intros Hm Hf. revert n Hm. induction m as [a|op k IH]; intros n Hm; simpl.
  - eapply bounded_mono; [|apply Hf]. lia.
  - destruct n as [|n]; simpl in *; [done|]. intros r. by apply IH.
Qed.

Lemma bounded_try {A B E} (m : Prog (result A E)) (f : A -> Prog (result B E)) n n' :
  bounded n m -> (forall a, bounded n' (f a)) -> bounded (n + n') (try_bind m f).
Proof. intros Hm Hf. apply bounded_bind; [done|]. intros [a|e]; [apply Hf | exact I]. Qed.

Lemma bounded_finally {A} (m : Prog A) release n n' :
  bounded n m -> bounded n' release -> bounded (n + n') (finally m release).
Proof.
  intros Hm Hr. apply bounded_bind; [done|]. intros a.
  rewrite <- (Nat.add_0_r n'). apply bounded_bind; [done|]. intros []. exact I.
Qed.

Lemma bounded_for_each {A E} (l : list A) (f : A -> Prog (result unit E)) n :
  (forall a, bounded n (f a)) -> bounded (length l * n) (for_each l f).
Proof.
  intros Hf. induction l as [|a l IH]; simpl; [exact I|].
  apply bounded_try; [apply Hf | done].
Qed.

(** The same while every answer is one the operation promises. *)
Section BoundedUnder.
Context (promised : forall op : Op, resp op -> Prop).

Fixpoint bounded_under {A : Type} (n : nat) (m : Prog A) {struct m} : Prop :=
  match m with
  | Ret _ => True
  | Io op k => match n with O => False | S n => forall r, promised op r -> bounded_under n (k r) end
  end.

Lemma bounded_promised {A} (m : Prog A) n n' : n <= n' -> bounded n m -> bounded_under n' m.
Proof.
  revert n n'. induction m as [a|op k IH]; intros n n' Hle; simpl; [intros _; exact I|].
  destruct n as [|n]; [done|]. destruct n' as [|n']; [lia|].
  intros Hk r _. apply (IH r n); [lia|apply Hk].
Qed.
End BoundedUnder.

(** Every operation the program may perform satisfies [P], and every value it
    may return [Q]. *)
Fixpoint all_ops (P : Op -> Prop) {A : Type} (m : Prog A) (Q : A -> Prop) : Prop :=
  match m with
  | Ret a => Q a
  | Io op k => P op /\ forall r, all_ops P (k r) Q
  end.

Lemma all_ops_mono (P : Op -> Prop) {A} (m : Prog A) (Q R : A -> Prop) :
  all_ops P m Q -> (forall a, Q a -> R a) -> all_ops P m R.
Proof.
  intros Hm HQ. induction m as [a|op k IH]; simpl in *; [by apply HQ|].
  destruct Hm as [Hp Hk]. split; [done|]. intros r. by apply IH.
Qed.

Lemma all_ops_bind (P : Op -> Prop) {A B} (m : Prog A) (f : A -> Prog B) (Q : B -> Prop) :
  all_ops P m (fun a => all_ops P (f a) Q) -> all_ops P (bind m f) Q.
Proof.
  intros Hm. induction m as [a|op k IH]; simpl in *; [done|].
  destruct Hm as [Hp Hk]. split; [done|]. intros r. by apply IH.
Qed.

Lemma all_ops_try (P : Op -> Prop) {A B E} (m : Prog (result A E)) (f : A -> Prog (result B E))
  (Q : result B E -> Prop) :
  all_ops P m (fun r => match r with Ok a => all_ops P (f a) Q | Err e => Q (Err e) end) ->
  all_ops P (try_bind m f) Q.
Proof. intros Hm. apply all_ops_bind. eapply all_ops_mono; [exact Hm|]. by intros [a|e]. Qed.

Lemma all_ops_finally (P : Op -> Prop) {A} (m : Prog A) release (Q : A -> Prop) :
  all_ops P m Q -> all_ops P release (fun _ => True) -> all_ops P (finally m release) Q.
Proof.
  intros Hm Hr. apply all_ops_bind. eapply all_ops_mono; [exact Hm|]. intros a Ha.
  apply all_ops_bind. eapply all_ops_mono; [exact Hr|]. by intros [] _.
Qed.

End Prog.

Arguments Prog {Op} resp A.
Arguments Ret {Op resp A} value.
Arguments Io {Op resp A} op k.

Notation "'let!' x ':=' m 'in' k" := (bind m (fun x => k))
  (at level 10, x pattern, m at level 100, k at level 200) : hm_scope.
Notation "'try!' x ':=' m 'in' k" := (try_bind m (fun x => k))
  (at level 10, x pattern, m at level 100, k at level 200) : hm_scope.
Notation "'guard!' b 'else' e 'in' k" := (if b then k else Ret (Err e))
  (at level 10, b at level 100, e at level 100, k at level 200) : hm_scope.
