(* ===== verification/CommandService.v ===== *)
(** The governed command path,
    [crates/homemagic-application/src/command_service.rs]: the operations the
    service awaits ([CmdOp]), its functions as programs over them, and the
    interface of the optional dispatch control. *)

From S2P Require Import Prelude Text BTree Json Capability Lifecycle Device Command Policy MatterState CommandStore MatterStore Effects.

Definition RECOVERY_PAGE : nat := 256.
Definition MAX_COMMAND_QUERY_PAGE : nat := 256.
Definition MAX_AUDIT_QUERY_PAGE : nat := 256.

(** [matter_commands.rs]. *)
Inductive MatterCommandControlError :=
| Mce_RevisionExhausted | Mce_PriorCommandMissing | Mce_PriorCommandNotCancellable
| Mce_DesiredSlotMissing | Mce_InvalidDispatchTransition | Mce_RegistrationFailed
| Mce_UnsupportedDesiredState | Mce_InvalidUnlockApproval | Mce_UnlockApprovalExpired
| Mce_UnlockApprovalRejected.

(** A boxed error: a repository failure, the failure of the worker or transport
    that carries an operation, an error of the dispatch control, or one of the
    live-observation sink. *)
Inductive BoxError :=
| Be_Storage (error : StorageError)
| Be_Transport
| Be_Control (error : MatterCommandControlError)
| Be_MatterState (error : MatterStateError)
| Be_Timestamp (error : TimestampError)
| Be_RefreshChannelClosed.

Inductive CommandServiceError :=
| Cse_DeviceNotFound | Cse_CommandNotFound | Cse_ActorNotFound | Cse_ActorMismatch
| Cse_NotCancellable | Cse_IdempotencyConflict (existing : CommandId)
| Cse_Repository (error : BoxError) | Cse_AuditPublication (error : BoxError)
| Cse_Confirmation (error : BoxError) | Cse_CanonicalSerialization | Cse_InvalidDescriptor
| Cse_InvalidTransition | Cse_UnlockApprovalUnavailable | Cse_UnlockNotPending
| Cse_UnlockApprovalDenied.

Record CommandRequest := mk_request {
  rq_device_id : DeviceId;
  rq_endpoint_id : EndpointId;
  rq_payload : CommandPayload;
  rq_idempotency_key : IdempotencyKey;
  rq_deadline : Instant;
  rq_expected : option ExpectedObservation;
  rq_dry_run : bool;
  rq_correlation_id : CorrelationId;
  rq_causation_event_id : option EventId;
  rq_automation_causation : option AutomationCausation
}.

(** [ports.rs]. *)
Inductive CommandConfirmationOutcome :=
| Co_Confirmed (confirmation : ObservedConfirmation)
| Co_Pending
| Co_Failed (failure : CommandFailure).

(** [matter_commands.rs]. *)
Inductive DesiredStateRegistration :=
| Ds_Unmanaged
| Ds_Managed (projection_id : string) (desired_revision : N)
    (superseded_audit : option CommandAuditRecord).

Inductive MatterDispatchAdmission :=
| Md_Unmanaged
| Md_Committed (command : CommandAggregate) (audit : CommandAuditRecord)
| Md_Superseded (durable : CommandAggregate)
| Md_AwaitingUnlockAuthorization.

(** The serialisation and digest of a canonical request are library code: 32
    digest bytes, or a serialisation failure. *)
Class RequestDigest := {
  request_digest : ActorId * DeviceId * EndpointId * CommandPayload * Instant
                   * option ExpectedObservation * bool -> option (list N);
  request_digest_length : forall v d, request_digest v = Some d -> length d = 32;
  request_digest_bytes : forall v d, request_digest v = Some d -> Forall (fun b => (b < 256)%N) d
}.

Section CommandService.
Context `{SerdeJson} `{RequestDigest}.

(** [ports.rs]: the projection a foundation repository loads. *)
Record FoundationSnapshot := mk_foundation {
  fs_installations : list Installation;
  fs_integrations : list IntegrationInstance;
  fs_spaces : list Space;
  fs_devices : list DeviceRecord;
  fs_observations : list CapabilityObservation;
  fs_repairs : list RepairRecord;
  fs_event_cursor : option N
}.

(** ** Awaited operations *)

Inductive CmdOp :=
| Op_load
| Op_create_command (command : CommandAggregate) (hash : CanonicalRequestHash)
    (audit : CommandAuditRecord)
| Op_command (command_id : CommandId)
| Op_actor_commands (actor_id : ActorId) (limit : nat)
| Op_command_audit (command_id : CommandId) (after_sequence : option N) (limit : nat)
| Op_recoverable_commands (limit : nat)
| Op_transition_command (command : CommandAggregate) (expected_version : N)
    (audit : CommandAuditRecord)
| Op_actor_security (actor_id : ActorId)
| Op_publish (audit : CommandAuditRecord)
| Op_dispatch (envelope : CommandEnvelope)
| Op_confirm (command : CommandAggregate)
| Op_try_acquire (actor_id : ActorId) (device_id : DeviceId) (now : Instant)
| Op_release (device_id : DeviceId)
| Op_request_hash (command_id : CommandId)
| Op_projection_for_target (device_id : DeviceId) (endpoint_id : EndpointId) (schema : string)
| Op_desired_slot (projection_id : MatterProjectionId)
| Op_replace_desired_state (write : MatterDesiredStateWrite)
| Op_record_dispatch (write : MatterDispatchWrite)
| Op_create_authorization (authorization : MatterUnlockAuthorization)
| Op_authorize_dispatch (id : MatterUnlockAuthorizationId) (write : MatterDispatchWrite)
| Op_now
| Op_new_uuid.

Definition cmd_resp (op : CmdOp) : Type :=
  match op with
  | Op_load => result FoundationSnapshot BoxError
  | Op_create_command _ _ _ => result CommandCreateOutcome BoxError
  | Op_command _ => result (option CommandAggregate) BoxError
  | Op_actor_commands _ _ => result (list CommandAggregate) BoxError
  | Op_command_audit _ _ _ => result (list CommandAuditRecord) BoxError
  | Op_recoverable_commands _ => result (list CommandAggregate) BoxError
  | Op_transition_command _ _ _ => result unit BoxError
  | Op_actor_security _ => result (option ActorSecurity) BoxError
  | Op_publish _ => result unit BoxError
  | Op_dispatch _ => result AdapterAcknowledgement CommandFailure
  | Op_confirm _ => result CommandConfirmationOutcome BoxError
  | Op_try_acquire _ _ _ => CommandLimitCapacities
  | Op_release _ => unit
  | Op_request_hash _ => result (option CanonicalRequestHash) BoxError
  | Op_projection_for_target _ _ _ => result (option StoredMatterProjection) BoxError
  | Op_desired_slot _ => result (option MatterDesiredCommandSlot) BoxError
  | Op_replace_desired_state _ => result (option CommandId) BoxError
  | Op_record_dispatch _ => result unit BoxError
  | Op_create_authorization _ => result unit BoxError
  | Op_authorize_dispatch _ _ => result MatterUnlockConsumption BoxError
  | Op_now => Instant
  | Op_new_uuid => string
  end.

Abbreviation CmdProg A := (Prog cmd_resp A).
Abbreviation ServiceResult A := (CmdProg (result A CommandServiceError)).

(** [.await.map_err(wrap)]. *)
Definition call {A E F : Type} (m : CmdProg (result A E)) (wrap : E -> F) : CmdProg (result A F) :=
  let! r := m in Ret (map_err wrap r).

(** The trait [CommandDispatchControl]: its methods are programs too. *)
Record DispatchControl := mk_control {
  ctl_register_desired : CommandAggregate -> Instant ->
    CmdProg (result DesiredStateRegistration BoxError);
  ctl_commit_dispatch : CommandAggregate -> Instant ->
    CmdProg (result MatterDispatchAdmission BoxError);
  ctl_authorize_unlock : Actor -> CommandAggregate -> PolicyDecision -> Instant ->
    CmdProg (result MatterDispatchAdmission BoxError)
}.

(** The fields of the service that are not reached by operations. *)
Record CommandService := mk_service {
  svc_freshness : FreshnessPolicy;
  svc_dispatch_control : option DispatchControl
}.

(** ** Pure helpers *)

Definition find_device (snapshot : FoundationSnapshot) (device_id : DeviceId) : option DeviceRecord :=
  List.find (fun device => String.eqb (ds_id (dr_snapshot device)) device_id) (fs_devices snapshot).

Definition requested_descriptor (payload : CommandPayload) :
  result CapabilityDescriptor CommandServiceError :=
  let '(name, risk) :=
    match payload with
    | Pl_OnOff _ => ("on_off"%string, Risk_Comfort)
    | Pl_Level _ => ("level"%string, Risk_Comfort)
    | Pl_Position _ => ("position"%string, Risk_Mechanical)
    | Pl_AccessControl (Ac_Lock | Ac_Unlock) => ("access_control"%string, Risk_Security)
    end in
  map_err (fun _ => Cse_InvalidDescriptor) (CapabilityDescriptor.new name 1 risk).

Definition is_calibrated_position (capability : CapabilitySnapshot) : bool :=
  match capability with Snapshot_Position (Some _) _ _ => true | _ => false end.

Definition constraint_state (payload : CommandPayload) (endpoint_id : EndpointId)
  (device : DeviceRecord) : ConstraintState :=
  match payload with
  | Pl_Position (Pos_GoTo _) =>
      let calibrated :=
        existsb is_calibrated_position
          (flat_map es_capabilities
            (List.filter (fun endpoint => String.eqb (es_id endpoint) endpoint_id)
              (ds_endpoints (dr_snapshot device)))) in
      if calibrated then Con_Available else Con_Unavailable
  | _ => Con_Available
  end.

Definition validate_target (command : CommandAggregate) (device : DeviceRecord) (now : Instant) :
  result unit CommandErrorCode :=
  let envelope := ca_envelope command in
  let? _ := CommandEnvelope.validate envelope now in
  let descriptor_exists :=
    match bget (ce_endpoint_id envelope) (dr_capability_descriptors device) with
    | Some descriptors => bool_decide (ce_capability envelope ∈ descriptors)
    | None => false
    end in
  guard? descriptor_exists else Ce_CapabilityMismatch in
  guard? match ce_expected envelope with
         | Some expected => (eo_observed_at expected =? ds_observed_at (dr_snapshot device))%Z
         | None => true
         end else Ce_StaleObservation in
  guard? negb (bool_decide (ce_payload envelope = Pl_OnOff Oo_Toggle)) else Ce_StaleObservation in
  guard? negb (bool_decide
      (constraint_state (ce_payload envelope) (ce_endpoint_id envelope) device = Con_Unavailable))
    else Ce_UnsupportedConstraint in
  Ok tt.

Fixpoint find_map {A B : Type} (f : A -> option B) (l : list A) : option B :=
  match l with
  | [] => None
  | a :: l => match f a with Some b => Some b | None => find_map f l end
  end.

Definition effective_payload (payload : CommandPayload) (endpoint_id : EndpointId)
  (device : DeviceRecord) (freshness : FreshnessPolicy) (now : Instant) : CommandPayload :=
  if negb (bool_decide (payload = Pl_OnOff Oo_Toggle))
     || negb (bool_decide (freshness_at device freshness now = Fr_Fresh))
  then payload
  else
    match
      endpoint ← List.find (fun endpoint => String.eqb (es_id endpoint) endpoint_id)
                   (ds_endpoints (dr_snapshot device));
      find_map (fun capability =>
        match capability with Snapshot_OnOff on _ => Some (negb on) | _ => None end)
        (es_capabilities endpoint)
    with
    | None => payload
    | Some on => Pl_OnOff (Oo_Set on)
    end.

Definition canonical_hash (actor : Actor) (request : CommandRequest) :
  result CanonicalRequestHash CommandServiceError :=
  match request_digest (ac_id actor, rq_device_id request, rq_endpoint_id request,
          rq_payload request, rq_deadline request, rq_expected request, rq_dry_run request) with
  | None => Err Cse_CanonicalSerialization
  | Some digest =>
      map_err (fun _ => Cse_InvalidDescriptor) (CanonicalRequestHash.new (hex digest))
  end.

(** [command_audit] of [matter_commands.rs]: evidence of the current state. *)
Definition audit (command : CommandAggregate) (from : option CommandState) :
  CmdProg CommandAuditRecord :=
  let! id := perform Op_new_uuid in
  Ret (mk_audit id (ce_id (ca_envelope command)) (ca_version command) from (ca_state command)
    (ce_actor_id (ca_envelope command)) (ca_policy command) (ca_failure command)
    (ca_acknowledgement command) (ca_confirmation command)
    (ce_correlation_id (ca_envelope command)) (ce_causation_event_id (ca_envelope command))
    (ca_updated_at command)).

(** ** Transitions *)

Definition publish (record : CommandAuditRecord) : ServiceResult unit :=
  call (perform (Op_publish record)) Cse_AuditPublication.

(** [transition(&mut command, ..)]: the updated aggregate is returned. *)
Definition transition (command : CommandAggregate) (next : CommandState) (now : Instant) :
  ServiceResult CommandAggregate :=
  let from := ca_state command in
  let expected_version := ca_version command in
  match CommandAggregate.transition command next now with
  | Err _ => Ret (Err Cse_InvalidTransition)
  | Ok command =>
      let! record := audit command (Some from) in
      try! _ := call (perform (Op_transition_command command expected_version record))
                  Cse_Repository in
      try! _ := publish record in
      Ret (Ok command)
  end.

Definition reject (command : CommandAggregate) (code : CommandErrorCode) (now : Instant)
  (policy : option PolicyDecision) : ServiceResult CommandAggregate :=
  let command := match policy with
                 | Some _ => CommandAggregate.set_policy command policy
                 | None => command
                 end in
  let command := CommandAggregate.set_failure command (Some (mk_failure code None)) in
  transition command Cs_Rejected now.

Definition timeout (command : CommandAggregate) (now : Instant) : ServiceResult CommandAggregate :=
  let command :=
    CommandAggregate.set_failure command (Some (mk_failure Ce_DeadlineExceeded None)) in
  transition command Cs_TimedOut now.

Definition confirm (command : CommandAggregate) (now : Instant) : ServiceResult CommandAggregate :=
  try! outcome := call (perform (Op_confirm command)) Cse_Confirmation in
  match outcome with
  | Co_Confirmed confirmation =>
      transition (CommandAggregate.set_confirmation command (Some confirmation)) Cs_Confirmed now
  | Co_Failed failure =>
      transition (CommandAggregate.set_failure command (Some failure)) Cs_Failed now
  | Co_Pending =>
      if (ce_deadline (ca_envelope command) <=? now)%Z then timeout command now
      else Ret (Ok command)
  end.

Definition dispatch_committed (command : CommandAggregate) : ServiceResult CommandAggregate :=
  let! dispatched := perform (Op_dispatch (ca_envelope command)) in
  match dispatched with
  | Ok acknowledgement =>
      let command := CommandAggregate.set_acknowledgement command (Some acknowledgement) in
      let! after_dispatch := perform Op_now in
      if (ce_deadline (ca_envelope command) <=? after_dispatch)%Z
      then timeout command after_dispatch
      else
        try! command := transition command Cs_Acknowledged after_dispatch in
        let! now := perform Op_now in
        confirm command now
  | Err failure =>
      let command := CommandAggregate.set_failure command (Some failure) in
      let! now := perform Op_now in
      transition command Cs_Failed now
  end.

Section Service.
Context (service : CommandService).

Definition dispatch (command : CommandAggregate) (now : Instant) : ServiceResult CommandAggregate :=
  if (ce_deadline (ca_envelope command) <=? now)%Z then timeout command now
  else
    match svc_dispatch_control service with
    | Some control =>
        try! registration := call (ctl_register_desired control command now) Cse_Repository in
        try! _ := match registration with
                  | Ds_Unmanaged | Ds_Managed _ _ None => Ret (Ok tt)
                  | Ds_Managed _ _ (Some record) => publish record
                  end in
        try! admission := call (ctl_commit_dispatch control command now) Cse_Repository in
        match admission with
        | Md_Unmanaged =>
            try! command := transition command Cs_Dispatched now in
            dispatch_committed command
        | Md_Committed dispatched record =>
            try! _ := publish record in
            dispatch_committed dispatched
        | Md_Superseded durable => Ret (Ok durable)
        | Md_AwaitingUnlockAuthorization => Ret (Ok command)
        end
    | None =>
        try! command := transition command Cs_Dispatched now in
        dispatch_committed command
    end.

(** Dropping the held permit when its owner returns. *)
Definition release_permit (capacities : CommandLimitCapacities) (device_id : DeviceId) :
  CmdProg unit :=
  if cc_permit capacities then perform (Op_release device_id) else Ret tt.

Definition policy_input (actor : Actor) (command : CommandAggregate) (device : DeviceRecord)
  (capacities : CommandLimitCapacities) (now : Instant) : PolicyInput :=
  let envelope := ca_envelope command in
  mk_policy_input actor Act_Execute (ce_device_id envelope) (ce_endpoint_id envelope)
    (CapabilityDescriptor.schema (ce_capability envelope)) (cd_risk (ce_capability envelope))
    (dr_spaces device) (freshness_at device (svc_freshness service) now)
    (constraint_state (ce_payload envelope) (ce_endpoint_id envelope) device)
    (cc_rate capacities) (cc_device capacities) (ce_dry_run envelope) now.

Definition continue_received (command : CommandAggregate) (authenticated_actor : Actor)
  (device : DeviceRecord) (now : Instant) : ServiceResult CommandAggregate :=
  match validate_target command device now with
  | Err code => reject command code now None
  | Ok _ =>
      try! security := call (perform (Op_actor_security (ac_id authenticated_actor)))
                         Cse_Repository in
      match security with
      | None => Ret (Err Cse_ActorNotFound)
      | Some security =>
          let! capacities := perform (Op_try_acquire (ac_id (as_actor security))
                               (ce_device_id (ca_envelope command)) now) in
          finally
            (let decision := PolicyEvaluator.evaluate
               (policy_input (as_actor security) command device capacities now)
               (as_grants security) in
             let command := CommandAggregate.set_policy command (Some decision) in
             if negb (pd_allowed decision)
             then reject command Ce_PolicyDenied now (Some decision)
             else
               try! command := transition command Cs_Validated now in
               if ce_dry_run (ca_envelope command) then Ret (Ok command)
               else dispatch command now)
            (release_permit capacities (ce_device_id (ca_envelope command)))
      end
  end.

(** ** The service operations *)

Definition execute (actor : Actor) (request : CommandRequest) (now : Instant) :
  ServiceResult CommandAggregate :=
  try! snapshot := call (perform Op_load) Cse_Repository in
  match find_device snapshot (rq_device_id request) with
  | None => Ret (Err Cse_DeviceNotFound)
  | Some device =>
      match requested_descriptor (rq_payload request) with
      | Err error => Ret (Err error)
      | Ok fallback =>
          let descriptor :=
            default fallback
              (descriptors ← bget (rq_endpoint_id request) (dr_capability_descriptors device);
               List.find (fun descriptor =>
                 String.eqb (CapabilityDescriptor.schema descriptor)
                            (CommandPayload.schema (rq_payload request))) descriptors) in
          let payload := effective_payload (rq_payload request) (rq_endpoint_id request) device
                           (svc_freshness service) now in
          let! id := perform Op_new_uuid in
          let envelope := mk_envelope id (ac_id actor) (rq_device_id request)
            (rq_endpoint_id request) descriptor payload (rq_idempotency_key request)
            (rq_deadline request) (rq_expected request) (rq_dry_run request)
            (rq_correlation_id request) (rq_causation_event_id request)
            (rq_automation_causation request) now in
          let command := CommandAggregate.received envelope in
          match canonical_hash actor request with
          | Err error => Ret (Err error)
          | Ok request_hash =>
              let! receipt := audit command None in
              try! outcome := call (perform (Op_create_command command request_hash receipt))
                                Cse_Repository in
              match outcome with
              | ExistingEquivalent existing => Ret (Ok existing)
              | Conflict existing => Ret (Err (Cse_IdempotencyConflict existing))
              | Created _ =>
                  try! _ := publish receipt in
                  continue_received command actor device now
              end
          end
      end
  end.

Definition get (actor_id : ActorId) (command_id : CommandId) :
  ServiceResult (option CommandAggregate) :=
  try! command := call (perform (Op_command command_id)) Cse_Repository in
  match command with
  | Some command =>
      if negb (String.eqb (ce_actor_id (ca_envelope command)) actor_id)
      then Ret (Err Cse_ActorMismatch)
      else Ret (Ok (Some command))
  | None => Ret (Ok None)
  end.

Definition clamp (low high n : nat) : nat := Nat.max low (Nat.min n high).

Definition list_commands (actor_id : ActorId) (limit : nat) : ServiceResult (list CommandAggregate) :=
  call (perform (Op_actor_commands actor_id (clamp 1 MAX_COMMAND_QUERY_PAGE limit))) Cse_Repository.

Definition audit_page (actor_id : ActorId) (command_id : CommandId) (after_sequence : option N)
  (limit : nat) : ServiceResult (list CommandAuditRecord) :=
  try! command := get actor_id command_id in
  match command with
  | None => Ret (Err Cse_CommandNotFound)
  | Some _ =>
      call (perform (Op_command_audit command_id after_sequence
              (clamp 1 MAX_AUDIT_QUERY_PAGE limit))) Cse_Repository
  end.

Definition cancel (actor_id : ActorId) (command_id : CommandId) (now : Instant) :
  ServiceResult CommandAggregate :=
  try! command := get actor_id command_id in
  match command with
  | None => Ret (Err Cse_CommandNotFound)
  | Some command =>
      if CommandAggregate.is_terminal command
         || negb (bool_decide (ca_state command = Cs_Received)
                  || bool_decide (ca_state command = Cs_Validated))
      then Ret (Err Cse_NotCancellable)
      else transition command Cs_Cancelled now
  end.

(** [.await?;] discards the value. *)
Definition discard {A : Type} (m : ServiceResult A) : ServiceResult unit :=
  try! _ := m in Ret (Ok tt).

Definition recover_one (command : CommandAggregate) (now : Instant) : ServiceResult unit :=
  let envelope := ca_envelope command in
  match ca_state command with
  | Cs_Received =>
      if (ce_deadline envelope <=? now)%Z then discard (timeout command now)
      else
        try! snapshot := call (perform Op_load) Cse_Repository in
        match find_device snapshot (ce_device_id envelope) with
        | None => Ret (Err Cse_DeviceNotFound)
        | Some device =>
            try! security := call (perform (Op_actor_security (ce_actor_id envelope)))
                               Cse_Repository in
            match security with
            | None => Ret (Err Cse_ActorNotFound)
            | Some security => discard (continue_received command (as_actor security) device now)
            end
        end
  | Cs_Validated =>
      if (ce_deadline envelope <=? now)%Z then discard (timeout command now)
      else
        try! snapshot := call (perform Op_load) Cse_Repository in
        match find_device snapshot (ce_device_id envelope) with
        | None => Ret (Err Cse_DeviceNotFound)
        | Some device =>
            try! security := call (perform (Op_actor_security (ce_actor_id envelope)))
                               Cse_Repository in
            match security with
            | None => Ret (Err Cse_ActorNotFound)
            | Some security =>
                let! capacities := perform (Op_try_acquire (ce_actor_id envelope)
                                     (ce_device_id envelope) now) in
                finally
                  (let decision := PolicyEvaluator.evaluate
                     (policy_input (as_actor security) command device capacities now)
                     (as_grants security) in
                   if pd_allowed decision then discard (dispatch command now)
                   else discard (reject command Ce_PolicyDenied now (Some decision)))
                  (release_permit capacities (ce_device_id envelope))
            end
        end
  | Cs_Dispatched | Cs_Acknowledged => discard (confirm command now)
  | _ => Ret (Ok tt)
  end.

Definition recover (now : Instant) : ServiceResult nat :=
  try! commands := call (perform (Op_recoverable_commands RECOVERY_PAGE)) Cse_Repository in
  try! _ := for_each commands (fun command => recover_one command now) in
  Ret (Ok (length commands)).

Definition is_unlock (payload : CommandPayload) : bool :=
  match payload with Pl_AccessControl Ac_Unlock => true | _ => false end.

Definition approve_unlock (approver : Actor) (command_id : CommandId) (now : Instant) :
  ServiceResult CommandAggregate :=
  try! command := call (perform (Op_command command_id)) Cse_Repository in
  match command with
  | None => Ret (Err Cse_CommandNotFound)
  | Some command =>
      let envelope := ca_envelope command in
      if negb (bool_decide (ca_state command = Cs_Validated))
         || (ce_deadline envelope <=? now)%Z
         || negb (is_unlock (ce_payload envelope))
      then Ret (Err Cse_UnlockNotPending)
      else
        try! security := call (perform (Op_actor_security (ac_id approver))) Cse_Repository in
        match security with
        | None => Ret (Err Cse_ActorNotFound)
        | Some security =>
            try! snapshot := call (perform Op_load) Cse_Repository in
            match find_device snapshot (ce_device_id envelope) with
            | None => Ret (Err Cse_DeviceNotFound)
            | Some device =>
                let approval := PolicyEvaluator.evaluate
                  (mk_policy_input (as_actor security) Act_ApproveUnlock (ce_device_id envelope)
                    (ce_endpoint_id envelope)
                    (CapabilityDescriptor.schema (ce_capability envelope)) Risk_Security
                    (dr_spaces device) (freshness_at device (svc_freshness service) now)
                    Con_Available Cap_Available Cap_Available false now)
                  (as_grants security) in
                if negb (pd_allowed approval) then Ret (Err Cse_UnlockApprovalDenied)
                else
                  match svc_dispatch_control service with
                  | None => Ret (Err Cse_UnlockApprovalUnavailable)
                  | Some control =>
                      try! admission := call (ctl_authorize_unlock control (as_actor security)
                                               command approval now) Cse_Repository in
                      match admission with
                      | Md_Committed dispatched record =>
                          try! _ := publish record in
                          dispatch_committed dispatched
                      | Md_Superseded durable => Ret (Ok durable)
                      | Md_Unmanaged | Md_AwaitingUnlockAuthorization =>
                          Ret (Err Cse_UnlockApprovalUnavailable)
                      end
                  end
            end
        end
  end.

End Service.
End CommandService.

Arguments CmdOp : clear implicits.
