(* ===== verification/MatterCommands.v ===== *)
(** The Matter dispatch control,
    [crates/homemagic-application/src/matter_commands.rs]: replaceable desired
    state in front of the adapter dispatch, as an implementation of
    [DispatchControl]. *)

From S2P Require Import Prelude Text BTree Json Capability Lifecycle Device Command Policy MatterState CommandStore MatterStore Effects CommandService.

Definition DESIRED_REGISTRATION_ATTEMPTS : nat := 4.

Definition is_replaceable (payload : CommandPayload) : bool :=
  match payload with
  | Pl_OnOff (Oo_Set _) | Pl_AccessControl (Ac_Lock | Ac_Unlock) => true
  | _ => false
  end.

Definition desired_value (payload : CommandPayload) : option MatterStateValue :=
  match payload with
  | Pl_OnOff (Oo_Set on) => Some (Mv_OnOff on)
  | Pl_AccessControl Ac_Lock => Some (Mv_Lock Ml_Locked)
  | Pl_AccessControl Ac_Unlock => Some (Mv_Lock Ml_Unlocked)
  | Pl_OnOff Oo_Toggle | Pl_Level _ | Pl_Position _ => None
  end.

Section MatterCommands.
Context `{SerdeJson} `{RequestDigest}.

Abbreviation CmdProg A := (Prog cmd_resp A).
Abbreviation Boxed A := (CmdProg (result A BoxError)).

(** [.ok_or(MatterCommandControlError::..)?]. *)
Definition require {A : Type} (o : option A) (e : MatterCommandControlError) :
  result A BoxError := ok_or o (Be_Control e).

Definition projection_for (command : CommandAggregate) : Boxed (option StoredMatterProjection) :=
  let envelope := ca_envelope command in
  if negb (is_replaceable (ce_payload envelope)) then Ret (Ok None)
  else perform (Op_projection_for_target (ce_device_id envelope) (ce_endpoint_id envelope)
                  (CapabilityDescriptor.schema (ce_capability envelope))).

(** The next revision of the slot and the projection that carries it. *)
Definition next_desired (projection : StoredMatterProjection)
  (current : option MatterDesiredCommandSlot) (payload : CommandPayload) (now : Instant) :
  result (N * StoredMatterProjection) BoxError :=
  let? desired_revision :=
    match current with
    | None => Ok 1%N
    | Some slot => require (u64_checked_add (ms_desired_revision slot) 1) Mce_RevisionExhausted
    end in
  let? revision := map_err Be_MatterState (MatterStateRevision.new desired_revision) in
  let? value := require (desired_value payload) Mce_UnsupportedDesiredState in
  let? desired := map_err Be_MatterState (MatterDesiredState.new revision value now) in
  let? state := map_err Be_MatterState (advance_matter_desired_state (sp_state projection) desired) in
  let? row := require (u64_checked_add (sp_revision projection) 1) Mce_RevisionExhausted in
  Ok (desired_revision,
      mk_projection (sp_installation_id projection) (sp_fabric_id projection)
        (sp_node_id projection) (sp_endpoint_number projection) (sp_projection_id projection)
        (sp_device_id projection) (sp_endpoint_id projection) (sp_capability_schema projection)
        (sp_projection_revision projection) state row now).

(** The cancellation of the command an undispatched slot holds. *)
Definition superseded_command (current : option MatterDesiredCommandSlot) (now : Instant) :
  Boxed (option MatterSupersededCommand) :=
  match current with
  | Some (mk_slot _ _ command_id None _) =>
      try! prior := perform (Op_command command_id) in
      match prior with
      | None => Ret (Err (Be_Control Mce_PriorCommandMissing))
      | Some prior =>
          let expected_version := ca_version prior in
          let from := ca_state prior in
          let prior := CommandAggregate.set_failure prior
                         (Some (mk_failure Ce_SupersededBeforeDispatch None)) in
          match CommandAggregate.transition prior Cs_Cancelled now with
          | Err _ => Ret (Err (Be_Control Mce_PriorCommandNotCancellable))
          | Ok prior =>
              let! record := audit prior (Some from) in
              Ret (Ok (Some (mk_superseded prior expected_version record)))
          end
      end
  | _ => Ret (Ok None)
  end.

Definition register_next (command : CommandAggregate) (now : Instant)
  (projection : StoredMatterProjection) (current : option MatterDesiredCommandSlot) :
  Boxed DesiredStateRegistration :=
  match next_desired projection current (ce_payload (ca_envelope command)) now with
  | Err error => Ret (Err error)
  | Ok (desired_revision, projection) =>
      try! superseded := superseded_command current now in
      let superseded_audit := su_audit <$> superseded in
      try! _ := perform (Op_replace_desired_state
                  (mk_desired_write
                    (mk_slot (sp_projection_id projection) desired_revision
                       (ce_id (ca_envelope command)) None now)
                    projection superseded)) in
      Ret (Ok (Ds_Managed (sp_projection_id projection) desired_revision superseded_audit))
  end.

Definition register_once (command : CommandAggregate) (now : Instant) :
  Boxed DesiredStateRegistration :=
  try! projection := projection_for command in
  match projection with
  | None => Ret (Ok Ds_Unmanaged)
  | Some projection =>
      try! current := perform (Op_desired_slot (sp_projection_id projection)) in
      match current with
      | Some slot =>
          if String.eqb (ms_command_id slot) (ce_id (ca_envelope command))
          then Ret (Ok (Ds_Managed (sp_projection_id projection) (ms_desired_revision slot) None))
          else register_next command now projection current
      | None => register_next command now projection None
      end
  end.

Fixpoint register_attempts (attempts : nat) (command : CommandAggregate) (now : Instant)
  (last_error : option BoxError) : Boxed DesiredStateRegistration :=
  match attempts with
  | O => Ret (Err (default (Be_Control Mce_RegistrationFailed) last_error))
  | S attempts =>
      let! registration := register_once command now in
      match registration with
      | Ok registration => Ret (Ok registration)
      | Err error => register_attempts attempts command now (Some error)
      end
  end.

Definition register_desired (command : CommandAggregate) (now : Instant) :
  Boxed DesiredStateRegistration :=
  register_attempts DESIRED_REGISTRATION_ATTEMPTS command now None.

(** The slot that must exist for [projection], and the durable command when a
    newer one took it. *)
Definition load_slot (projection : StoredMatterProjection) : Boxed MatterDesiredCommandSlot :=
  try! slot := perform (Op_desired_slot (sp_projection_id projection)) in
  Ret (require slot Mce_DesiredSlotMissing).

Definition load_superseded (command_id : CommandId) : Boxed MatterDispatchAdmission :=
  try! durable := perform (Op_command command_id) in
  Ret (let? durable := require durable Mce_PriorCommandMissing in Ok (Md_Superseded durable)).

Definition commit_dispatch (command : CommandAggregate) (now : Instant) :
  Boxed MatterDispatchAdmission :=
  try! projection := projection_for command in
  match projection with
  | None => Ret (Ok Md_Unmanaged)
  | Some projection =>
      try! slot := load_slot projection in
      if negb (String.eqb (ms_command_id slot) (ce_id (ca_envelope command)))
      then load_superseded (ce_id (ca_envelope command))
      else if is_unlock (ce_payload (ca_envelope command))
      then Ret (Ok Md_AwaitingUnlockAuthorization)
      else
        match CommandAggregate.transition command Cs_Dispatched now with
        | Err _ => Ret (Err (Be_Control Mce_InvalidDispatchTransition))
        | Ok dispatched =>
            let! record := audit dispatched (Some (ca_state command)) in
            try! _ := perform (Op_record_dispatch
                        (mk_dispatch_write (sp_projection_id projection) dispatched
                           (ca_version command) record now)) in
            Ret (Ok (Md_Committed dispatched record))
        end
  end.

Definition unlock_authorization (id : MatterUnlockAuthorizationId) (approver : Actor)
  (command : CommandAggregate) (approval : PolicyDecision) (hash : CanonicalRequestHash)
  (projection : StoredMatterProjection) (slot : MatterDesiredCommandSlot)
  (now expires_at : Instant) : MatterUnlockAuthorization :=
  let envelope := ca_envelope command in
  mk_authorization id (ce_id envelope) hash (ce_actor_id envelope) (ac_id approver)
    (sp_projection_id projection) (ce_device_id envelope) (ce_endpoint_id envelope)
    (CapabilityDescriptor.schema (ce_capability envelope)) Ac_Unlock (ms_desired_revision slot)
    (pd_policy_version approval) now expires_at None.

Definition authorize_unlock (approver : Actor) (command : CommandAggregate)
  (approval : PolicyDecision) (now : Instant) : Boxed MatterDispatchAdmission :=
  let envelope := ca_envelope command in
  if negb (pd_allowed approval) || negb (is_unlock (ce_payload envelope))
  then Ret (Err (Be_Control Mce_InvalidUnlockApproval))
  else
    try! projection := projection_for command in
    match projection with
    | None => Ret (Err (Be_Control Mce_DesiredSlotMissing))
    | Some projection =>
        try! slot := load_slot projection in
        if negb (String.eqb (ms_command_id slot) (ce_id envelope))
        then load_superseded (ce_id envelope)
        else
          try! request_hash := perform (Op_request_hash (ce_id envelope)) in
          match request_hash with
          | None => Ret (Err (Be_Control Mce_PriorCommandMissing))
          | Some request_hash =>
              let expires_at := Z.min (now + delta_seconds 60) (ce_deadline envelope) in
              if (expires_at <=? now)%Z then Ret (Err (Be_Control Mce_UnlockApprovalExpired))
              else
                let! authorization_id := perform Op_new_uuid in
                try! _ := perform (Op_create_authorization
                  (unlock_authorization authorization_id approver command approval request_hash
                     projection slot now expires_at)) in
                match CommandAggregate.transition command Cs_Dispatched now with
                | Err _ => Ret (Err (Be_Control Mce_InvalidDispatchTransition))
                | Ok dispatched =>
                    let! record := audit dispatched (Some (ca_state command)) in
                    try! outcome := perform (Op_authorize_dispatch authorization_id
                      (mk_dispatch_write (sp_projection_id projection) dispatched
                         (ca_version command) record now)) in
                    match outcome with
                    | Uc_Consumed => Ret (Ok (Md_Committed dispatched record))
                    | _ => Ret (Err (Be_Control Mce_UnlockApprovalRejected))
                    end
                end
          end
    end.

Definition matter_control : DispatchControl :=
  mk_control register_desired commit_dispatch authorize_unlock.

End MatterCommands.
