(* ===== verification/CommandCost.v ===== *)
(** What the calls of the command service may do at all, whatever the operations
    answer: how many operations they perform, and which of them never dispatch. *)

From S2P Require Import Prelude Text BTree Json Capability Lifecycle Device Command Policy MatterState CommandStore MatterStore Effects CommandService MatterCommands.

Section Cost.
Context `{SerdeJson} `{RequestDigest}.

Abbreviation CmdProg A := (Prog cmd_resp A).

(** ** Bounds *)

(** Bounds of a dispatch control: its three methods end within [n] operations. *)
Class BoundedControl (control : DispatchControl) (n : nat) : Prop := {
  register_bounded : forall c now, bounded n (ctl_register_desired control c now);
  commit_bounded : forall c now, bounded n (ctl_commit_dispatch control c now);
  authorize_bounded : forall actor c approval now,
    bounded n (ctl_authorize_unlock control actor c approval now)
}.

Lemma bounded_ret {A} (a : A) n : bounded n (Ret a : CmdProg A).
Proof. exact I. Qed.

Lemma bounded_call {A E F} (m : CmdProg (result A E)) (wrap : E -> F) n :
  bounded n m -> bounded n (call m wrap).
Proof.
  intros Hm. rewrite <- (Nat.add_0_r n). apply bounded_bind; [done|]. intros a. exact I.
Qed.

(** A program of one operation. *)
Ltac one_op := try apply bounded_call; intros ?; exact I.

Lemma bounded_transition c next now : bounded 3 (transition c next now).
Proof.
  unfold transition. destruct (CommandAggregate.transition c next now); [|exact I].
  intros id [[]|e]; [|exact I]. intros [[]|e]; exact I.
Qed.

Lemma bounded_confirm c now : bounded 4 (confirm c now).
Proof.
  apply (bounded_try _ _ 1 3); [one_op|].
  intros [conf| |failure]; try apply bounded_transition. case_match; [apply bounded_transition | exact I].
Qed.

Lemma bounded_dispatch_committed c : bounded 10 (dispatch_committed c).
Proof.
  apply (bounded_bind _ _ 1 9); [one_op|].
  intros [ack|failure]; apply (bounded_bind _ _ 1 8); try one_op; intros now.
  - case_match; [eapply bounded_mono; [|apply bounded_transition]; lia|].
    apply (bounded_try _ _ 3 5); [apply bounded_transition|]. intros c'.
    apply (bounded_bind _ _ 1 4); [one_op|]. intros now'. apply bounded_confirm.
  - eapply bounded_mono; [|apply bounded_transition]. lia.
Qed.

Section Service.
Context (service : CommandService) (n : nat).
Context (Hc : forall control, svc_dispatch_control service = Some control -> BoundedControl control n).

Lemma bounded_dispatch c now : bounded (2 * n + 14) (dispatch service c now).
Proof.
  unfold dispatch. case_match; [eapply bounded_mono; [|apply bounded_transition]; lia|].
  assert (forall k, 13 <= k -> bounded k (try! command := transition c Cs_Dispatched now in
    dispatch_committed command)) as Hplain.
  { intros k Hk. eapply bounded_mono; [|apply (bounded_try _ _ 3 10)]; [lia | apply bounded_transition|].
    apply bounded_dispatch_committed. }
  destruct (svc_dispatch_control service) as [control|] eqn:Hs; [|apply Hplain; lia].
  destruct (Hc control eq_refl) as [Hr Hm _].
  replace (2 * n + 14) with (n + (1 + (n + 13))) by lia.
  apply bounded_try; [apply bounded_call, Hr|]. intros registration. apply bounded_try.
  { destruct registration as [|? ? [record|]]; try exact I. one_op. }
  intros []. apply bounded_try; [apply bounded_call, Hm|].
  intros [|d record|durable|]; [by apply Hplain | | exact I..].
  apply (bounded_mono _ 11); [lia|]. apply (bounded_try _ _ 1 10); [one_op|].
  intros []. apply bounded_dispatch_committed.
Qed.

Lemma bounded_release capacities device_id : bounded 1 (release_permit capacities device_id).
Proof. unfold release_permit. case_match; [intros ?; exact I | exact I]. Qed.

Lemma bounded_continue c actor device now :
  bounded (2 * n + 20) (continue_received service c actor device now).
Proof.
  unfold continue_received. destruct (validate_target c device now) as [?|code];
    [|eapply bounded_mono; [|apply bounded_transition]; lia].
  replace (2 * n + 20) with (1 + (1 + (3 + (2 * n + 14) + 1))) by lia.
  apply bounded_try; [one_op|]. intros [security|]; [|exact I].
  apply bounded_bind; [one_op|]. intros capacities.
  apply bounded_finally; [|apply bounded_release]. cbn zeta. case_match.
  { eapply bounded_mono; [|apply bounded_transition]. lia. }
  apply bounded_try; [apply bounded_transition|]. intros c'. case_match; [exact I|].
  apply bounded_dispatch.
Qed.

Lemma bounded_execute actor request now : bounded (2 * n + 25) (execute service actor request now).
Proof.
  replace (2 * n + 25) with (1 + (1 + (1 + (1 + (1 + (2 * n + 20)))))) by lia.
  apply bounded_try; [one_op|]. intros snapshot. cbn zeta.
  destruct (find_device _ _) as [device|]; [|exact I].
  destruct (requested_descriptor _) as [fallback|error]; [|exact I].
  apply bounded_bind; [one_op|]. intros id. cbn zeta.
  destruct (canonical_hash _ _) as [hash|error]; [|exact I].
  apply (bounded_bind _ _ 1); [intros ?; exact I|]. intros receipt.
  apply (bounded_try _ _ 1); [one_op|].
  intros [c|c|existing]; [|exact I..].
  apply (bounded_try _ _ 1); [one_op|]. intros [].
  apply bounded_continue.
Qed.

Lemma bounded_get actor_id id : bounded 1 (get actor_id id).
Proof.
  apply (bounded_try _ _ 1 0); [one_op|].
  intros [c|]; [case_match|]; exact I.
Qed.

Lemma bounded_cancel actor_id id now : bounded 4 (cancel actor_id id now).
Proof.
  apply (bounded_try _ _ 1 3); [apply bounded_get|]. intros [c|]; [|exact I].
  case_match; [exact I | apply bounded_transition].
Qed.

Lemma bounded_recover_one c now : bounded (2 * n + 22) (recover_one service c now).
Proof.
  unfold recover_one. assert (forall k (m : CmdProg (result CommandAggregate CommandServiceError)),
    bounded k m -> bounded k (discard m)) as Hd.
  { intros k m Hm. rewrite <- (Nat.add_0_r k). apply bounded_try; [done|]. intros ?. exact I. }
  destruct (ca_state c); try exact I.
  - case_match; [apply Hd; eapply bounded_mono; [|apply bounded_transition]; lia|].
    replace (2 * n + 22) with (1 + (1 + (2 * n + 20))) by lia.
    apply bounded_try; [one_op|]. intros snapshot.
    destruct (find_device _ _); [|exact I].
    apply bounded_try; [one_op|]. intros [security|]; [|exact I].
    apply Hd, bounded_continue.
  - case_match; [apply Hd; eapply bounded_mono; [|apply bounded_transition]; lia|].
    replace (2 * n + 22) with (1 + (1 + (1 + (2 * n + 18 + 1)))) by lia.
    apply bounded_try; [one_op|]. intros snapshot.
    destruct (find_device _ _); [|exact I].
    apply bounded_try; [one_op|]. intros [security|]; [|exact I].
    apply bounded_bind; [one_op|]. intros capacities.
    apply bounded_finally; [|apply bounded_release]. cbn zeta. case_match; apply Hd.
    + eapply bounded_mono; [|apply bounded_dispatch]. lia.
    + eapply bounded_mono; [|apply bounded_transition]. lia.
  - apply Hd. eapply bounded_mono; [|apply bounded_confirm]. lia.
  - apply Hd. eapply bounded_mono; [|apply bounded_confirm]. lia.
Qed.

Lemma bounded_list_commands actor_id limit : bounded 1 (list_commands actor_id limit).
Proof. unfold list_commands. one_op. Qed.

Lemma bounded_audit_page actor_id id after limit : bounded 2 (audit_page actor_id id after limit).
Proof. apply (bounded_try _ _ 1 1); [apply bounded_get|]. intros [c|]; [one_op|exact I]. Qed.

(** A page of recoverable commands has at most the rows that were asked for. *)
Definition paged (op : CmdOp) : cmd_resp op -> Prop :=
  match op return cmd_resp op -> Prop with
  | Op_recoverable_commands limit => fun r => forall page, r = Ok page -> length page <= limit
  | _ => fun _ => True
  end.

Lemma recoverable_paged db limit :
  paged (Op_recoverable_commands limit) (map_err Be_Storage (load_recoverable_commands db limit)).
Proof.
  intros page [= <-]. rewrite length_map, length_take. lia.
Qed.

(** A recovery costs its page, and every command of the page once. *)
Lemma bounded_recover now :
  bounded_under paged (1 + RECOVERY_PAGE * (2 * n + 22)) (recover service now).
Proof.
  unfold recover, call, try_bind. generalize RECOVERY_PAGE as limit. intros limit.
  simpl. intros [page|error] Hpage; simpl; [|exact I].
  eapply bounded_promised with (n := length page * (2 * n + 22) + 0).
  - rewrite Nat.add_0_r. apply Nat.mul_le_mono_r. by apply Hpage.
  - apply bounded_try; [|intros ?; exact I]. apply bounded_for_each. intros c. apply bounded_recover_one.
Qed.

Lemma bounded_approve approver id now : bounded (n + 14) (approve_unlock service approver id now).
Proof.
  replace (n + 14) with (1 + (1 + (1 + (n + 11)))) by lia.
  apply bounded_try; [one_op|]. intros [c|]; [|exact I].
  cbn zeta. case_match; [exact I|].
  apply bounded_try; [one_op|]. intros [security|]; [|exact I].
  apply bounded_try; [one_op|]. intros snapshot.
  destruct (find_device _ _) as [device|]; [|exact I].
  match goal with |- context [negb ?b] => destruct (negb b); [exact I|] end.
  destruct (svc_dispatch_control service) as [control|] eqn:Hs; [|exact I].
  destruct (Hc control eq_refl) as [_ _ Ha].
  apply bounded_try; [apply bounded_call, Ha|]. intros [|d record|durable|]; try exact I.
  apply (bounded_try _ _ 1 10); [one_op|].
  intros []. apply bounded_dispatch_committed.
Qed.
End Service.

(** ** The Matter control *)

Lemma bounded_projection_for c : bounded 1 (projection_for c).
Proof. unfold projection_for. case_match; [exact I | one_op]. Qed.

Lemma bounded_register_once c now : bounded 5 (register_once c now).
Proof.
  apply (bounded_try _ _ 1 4); [apply bounded_projection_for|]. intros [p|]; [|exact I].
  apply (bounded_try _ _ 1 3); [one_op|].
  assert (forall current, bounded 3 (register_next c now p current)) as Hnext.
  { intros current. unfold register_next. destruct (next_desired _ _ _ _) as [[? ?]|]; [|exact I].
    apply (bounded_try _ _ 2 1).
    - unfold superseded_command. destruct current as [[? ? id [|] ?]|]; try exact I.
      apply (bounded_try _ _ 1 1); [one_op|]. intros [prior|]; [|exact I]. cbn zeta.
      destruct (CommandAggregate.transition _ _ _); [|exact I]. intros ?. exact I.
    - intros sup. apply (bounded_try _ _ 1 0); [one_op|]. intros ?. exact I. }
  intros [slot|]; [case_match; [exact I|]|]; apply Hnext.
Qed.

Lemma bounded_register_attempts k c now last : bounded (k * 5) (register_attempts k c now last).
Proof.
  revert last. induction k as [|k IH]; intros last; [exact I|].
  apply (bounded_bind _ _ 5 (k * 5)); [apply bounded_register_once|].
  intros [r|e]; [exact I | apply IH].
Qed.

Lemma bounded_load_slot p : bounded 1 (load_slot p).
Proof. apply (bounded_try _ _ 1 0); [one_op|]. intros ?. exact I. Qed.

Lemma bounded_load_superseded id : bounded 1 (load_superseded id).
Proof. apply (bounded_try _ _ 1 0); [one_op|]. intros ?. exact I. Qed.

#[export] Instance matter_control_bounded : BoundedControl matter_control 20.
Proof.
  split.
  - intros c now. exact (bounded_register_attempts 4 c now None).
  - intros c now. apply (bounded_mono _ 4); [lia|].
    apply (bounded_try _ _ 1 3); [apply bounded_projection_for|]. intros [p|]; [|exact I].
    apply (bounded_try _ _ 1 2); [apply bounded_load_slot|]. intros slot.
    case_match; [eapply bounded_mono; [|apply bounded_load_superseded]; lia|].
    case_match; [exact I|]. destruct (CommandAggregate.transition _ _ _); [|exact I].
    apply (bounded_bind _ _ 1 1); [intros ?; exact I|]. intros record.
    apply (bounded_try _ _ 1 0); [one_op|]. intros ?. exact I.
  - intros actor c approval now. unfold matter_control, ctl_authorize_unlock, authorize_unlock.
    cbn zeta. case_match; [exact I|]. apply (bounded_mono _ 7); [lia|].
    apply (bounded_try _ _ 1 6); [apply bounded_projection_for|]. intros [p|]; [|exact I].
    apply (bounded_try _ _ 1 5); [apply bounded_load_slot|]. intros slot.
    case_match; [eapply bounded_mono; [|apply bounded_load_superseded]; lia|].
    apply (bounded_try _ _ 1 4); [one_op|]. intros [hash|]; [|exact I].
    case_match; [exact I|]. apply (bounded_bind _ _ 1 3); [one_op|]. intros id.
    apply (bounded_try _ _ 1 2); [one_op|]. intros u.
    destruct (CommandAggregate.transition _ _ _); [|exact I].
    apply (bounded_bind _ _ 1 1); [intros ?; exact I|]. intros record.
    apply (bounded_try _ _ 1 0); [one_op|]. intros []; exact I.
Qed.
(** ** Programs that never dispatch *)

(** Neither the physical dispatch nor a durable move to [Cs_Dispatched]. *)
Definition no_dispatch (op : CmdOp) : Prop :=
  match op with
  | Op_dispatch _ | Op_record_dispatch _ | Op_authorize_dispatch _ _ => False
  | Op_transition_command c _ _ => ca_state c <> Cs_Dispatched
  | _ => True
  end.

Abbreviation quiet m Q := (all_ops no_dispatch m Q).

Lemma quiet_op {A} (op : CmdOp) (k : cmd_resp op -> CmdProg A) Q :
  no_dispatch op -> (forall r, quiet (k r) Q) -> quiet (Io op k) Q.
Proof. by split. Qed.

(** The result of a transition is the aggregate it computed. *)
Lemma quiet_transition c next now (Q : result CommandAggregate CommandServiceError -> Prop) :
  next <> Cs_Dispatched -> (forall e, Q (Err e)) ->
  (forall c', ca_envelope c' = ca_envelope c -> Q (Ok c')) -> quiet (transition c next now) Q.
Proof.
  intros Hn He HQ. unfold transition. destruct (CommandAggregate.transition c next now) as [c'|] eqn:Ht;
    [|apply He].
  apply transition_ok in Ht as (_ & Henv & Hs & _).
  split; [exact I|]. intros id. split; [simpl; by rewrite Hs|]. intros [[]|e]; [|apply He].
  split; [exact I|]. intros [[]|e]; [by apply HQ | apply He].
Qed.

Lemma quiet_move c next now :
  next <> Cs_Dispatched -> quiet (transition c next now) (fun _ => True).
Proof. intros Hn. by apply quiet_transition. Qed.

Lemma quiet_confirm c now : quiet (confirm c now) (fun _ => True).
Proof.
  split; [exact I|]. intros [[conf| |failure]|e]; cbn -[transition timeout];
    try exact I; try by apply quiet_move.
  case_match; [by apply quiet_move | exact I].
Qed.

Lemma quiet_continue_dry service c actor device now :
  ce_dry_run (ca_envelope c) = true ->
  quiet (continue_received service c actor device now) (fun _ => True).
Proof.
  intros Hd. unfold continue_received.
  destruct (validate_target c device now) as [?|code]; [|by apply quiet_move].
  split; [exact I|]. intros [[security|]|e]; [|exact I..].
  split; [exact I|]. intros capacities.
  apply all_ops_finally; [|unfold release_permit; case_match; [by split | exact I]].
  cbn zeta. case_match; [by apply quiet_move|].
  apply all_ops_try, quiet_transition; [done..|]. intros c' ->. simpl. by rewrite Hd.
Qed.

Lemma quiet_execute_dry service actor request now :
  rq_dry_run request = true -> quiet (execute service actor request now) (fun _ => True).
Proof.
  intros Hd. split; [exact I|]. intros [snapshot|e]; [|exact I].
  cbn -[find_device requested_descriptor effective_payload canonical_hash continue_received bget].
  destruct (find_device _ _) as [device|]; [|exact I].
  destruct (requested_descriptor _) as [fallback|error]; [|exact I].
  split; [exact I|]. intros id.
  destruct (canonical_hash _ _) as [hash|error]; [|exact I].
  split; [exact I|]. intros audit_id. split; [exact I|].
  intros [[c|c|existing]|e]; [|exact I..]. split; [exact I|]. intros [[]|e]; [|exact I].
  by apply quiet_continue_dry.
Qed.

Lemma quiet_recover_sent service c now :
  ca_state c = Cs_Dispatched \/ ca_state c = Cs_Acknowledged ->
  quiet (recover_one service c now) (fun _ => True).
Proof.
  unfold recover_one, discard. intros [-> | ->]; apply all_ops_try;
    (eapply all_ops_mono; [apply quiet_confirm | by intros [?|?]]).
Qed.
End Cost.
