(* ===== verification/CommandLog.v ===== *)
(** The invariant of the command tables and its preservation by every write of
    the repository: rows agree with their payload, an actor uses an idempotency
    key once, and the audit log holds a linked chain of legal transitions that
    ends in the current state of every stored command. *)

From stdpp Require Import sorting.
From S2P Require Import Prelude Text Capability Lifecycle Device Command MatterState CommandStore MatterStore.

(** The columns of a row are those of its payload. *)
Record row_ok (id : string) (row : CommandRow) : Prop := {
  ro_id : ce_id (ca_envelope (cm_payload row)) = id;
  ro_actor : cm_actor_id row = ce_actor_id (ca_envelope (cm_payload row));
  ro_device : cm_device_id row = ce_device_id (ca_envelope (cm_payload row));
  ro_key : cm_idempotency_key row =
    key_text (ce_idempotency_key (ca_envelope (cm_payload row)));
  ro_state : cm_state row = ca_state (cm_payload row);
  ro_version : cm_version row = Z.of_N (ca_version (cm_payload row));
  ro_terminal : cm_terminal row = CommandAggregate.is_terminal (cm_payload row);
  ro_rank : (ca_version (cm_payload row) <= command_rank (ca_state (cm_payload row)))%N
}.

(** An audit record is a receipt or a legal transition. *)
Definition edge_ok (a : CommandAuditRecord) : Prop :=
  (au_sequence a = 0%N /\ au_from a = None /\ au_to a = Cs_Received) \/
  ((0 < au_sequence a)%N /\ exists s, au_from a = Some s /\
   CommandState.allows_transition_to s (au_to a) = true).

Definition audit_key (row : AuditRow) : string * N :=
  (au_command_id (ax_payload row), au_sequence (ax_payload row)).

Record db_inv (db : Db) : Prop := {
  di_rows : forall id row, db_commands db !! id = Some row -> row_ok id row;
  di_keys : forall id id' row row', db_commands db !! id = Some row ->
    db_commands db !! id' = Some row' -> cm_actor_id row = cm_actor_id row' ->
    cm_idempotency_key row = cm_idempotency_key row' -> id = id';
  di_edges : forall r, In r (db_audit db) -> edge_ok (ax_payload r);
  di_unique : NoDup (map audit_key (db_audit db));
  di_linked : forall r r', In r (db_audit db) -> In r' (db_audit db) ->
    au_command_id (ax_payload r) = au_command_id (ax_payload r') ->
    au_sequence (ax_payload r') = (au_sequence (ax_payload r) + 1)%N ->
    au_from (ax_payload r') = Some (au_to (ax_payload r));
  di_last : forall r row, In r (db_audit db) ->
    db_commands db !! au_command_id (ax_payload r) = Some row ->
    (au_sequence (ax_payload r) <= ca_version (cm_payload row))%N /\
    (au_sequence (ax_payload r) = ca_version (cm_payload row) ->
     au_to (ax_payload r) = ca_state (cm_payload row))
}.

(** Nothing was removed: every version of a stored command left its record. *)
Definition audit_complete (db : Db) : Prop :=
  forall id row n, db_commands db !! id = Some row -> (n <= ca_version (cm_payload row))%N ->
    exists r, In r (db_audit db) /\ audit_key r = (id, n).

Lemma db_inv_empty db : db_commands db = ∅ -> db_audit db = [] -> db_inv db.
Proof.
  intros Hc Ha. split; rewrite ?Hc, ?Ha; simpl; try done; try (intros; by rewrite lookup_empty in *).
  constructor.
Qed.

Lemma command_rank_le s : (command_rank s <= 4)%N.
Proof. destruct s; simpl; lia. Qed.

Lemma row_version_next id row c a :
  row_ok id row -> validate_transition (cm_payload row) c a = Ok tt ->
  ca_version c = (ca_version (cm_payload row) + 1)%N /\
  (ca_version c <= command_rank (ca_state c))%N.
Proof.
  intros Hrow (_ & Hv & Ht & _)%validate_transition_ok. pose proof (ro_rank _ _ Hrow) as Hr.
  pose proof (command_rank_le (ca_state (cm_payload row))) as Hmax.
  apply allows_transition_rank in Ht. rewrite u64_saturating_succ in Hv.
  - rewrite Hv. lia.
  - unfold u64_max. lia.
Qed.

(** A transition moves the row of its command, and no other. *)
Lemma update_row_ok id row c a :
  row_ok id row -> validate_transition (cm_payload row) c a = Ok tt ->
  row_ok id (update_row row c (Z.of_N (ca_version c))).
Proof.
  intros Hrow Hv. pose proof (row_version_next _ _ _ _ Hrow Hv) as [_ Hrank].
  apply validate_transition_ok in Hv as (He & _). destruct Hrow.
  split; simpl; rewrite ?He; done.
Qed.

Lemma transitioned_inv db c v a db' row :
  db_inv db -> transitioned db c v a db' row -> db_inv db'.
Proof.
  intros Hi Ht. set (id := ce_id (ca_envelope c)).
  pose proof (di_rows _ Hi _ _ (tr_row _ _ _ _ _ _ Ht)) as Hrow.
  pose proof (row_version_next _ _ _ _ Hrow (tr_valid _ _ _ _ _ _ Ht)) as [Hnext _].
  pose proof (validate_transition_ok _ _ _ (tr_valid _ _ _ _ _ _ Ht))
    as (He & _ & Hal & Hcmd & _ & Hseq & Hfrom & Hto & _).
  assert (forall r, In r (db_audit db) -> au_command_id (ax_payload r) = id ->
    (au_sequence (ax_payload r) < ca_version c)%N) as Hold.
  { intros r Hr Hid. assert (db_commands db !! au_command_id (ax_payload r) = Some row) as Hl
      by (rewrite Hid; apply Ht). pose proof (di_last _ Hi r row Hr Hl). lia. }
  assert (forall r, In r (db_audit db') -> In r (db_audit db) \/ ax_payload r = a) as Hin.
  { intros r. rewrite (tr_audit _ _ _ _ _ _ Ht), in_app_iff. intros [?|[<-|[]]]; auto. }
  split.
  - intros id' row'. rewrite (tr_commands _ _ _ _ _ _ Ht), lookup_insert_Some.
    intros [[<- <-]|[_ Hl]]; [|by apply (di_rows _ Hi)].
    apply update_row_ok with (a := a); [done | apply Ht].
  - intros i i' r r'. rewrite (tr_commands _ _ _ _ _ _ Ht), !lookup_insert_Some.
    pose proof (di_keys _ Hi) as Hk. pose proof (tr_row _ _ _ _ _ _ Ht) as Hl.
    intros [[<- <-]|[? ?]] [[<- <-]|[? ?]] Ha Hkey; simpl in *; try done; by eapply Hk.
  - intros r [Hr| ->]%Hin; [by apply (di_edges _ Hi)|]. right.
    split; [rewrite Hseq; lia|]. exists (ca_state (cm_payload row)). by rewrite Hto.
  - rewrite (tr_audit _ _ _ _ _ _ Ht), map_app. apply NoDup_app.
    split; [apply (di_unique _ Hi)|]. split; [|apply NoDup_singleton].
    intros k Hk Hnew. apply list_elem_of_singleton in Hnew.
    apply list_elem_of_fmap in Hk as (r & -> & Hr). apply list_elem_of_In in Hr.
    unfold audit_key in Hnew. simpl in Hnew. injection Hnew as Hc Hs.
    rewrite Hcmd in Hc. pose proof (Hold r Hr Hc). lia.
  - intros r r' [Hr| Hr]%Hin [Hr'| Hr']%Hin Hc Hs.
    + by apply (di_linked _ Hi).
    + rewrite Hr' in *. rewrite Hcmd in Hc.
      assert (db_commands db !! au_command_id (ax_payload r) = Some row) as Hl
        by (rewrite Hc; apply Ht).
      destruct (di_last _ Hi r row Hr Hl) as [_ Hlast]. rewrite Hfrom, Hlast; [done | lia].
    + rewrite Hr in *. rewrite Hcmd in Hc. pose proof (Hold r' Hr' (eq_sym Hc)). lia.
    + rewrite Hr, Hr' in Hs. lia.
  - intros r row' [Hr| Hr]%Hin; rewrite (tr_commands _ _ _ _ _ _ Ht), lookup_insert_Some.
    + intros [[Hid <-]|[_ Hl]]; [|by apply (di_last _ Hi)]. simpl.
      pose proof (Hold r Hr (eq_sym Hid)). split; [lia|]. intros; lia.
    + rewrite Hr, Hcmd. intros [[_ <-]|[Hne _]]; [|done]. simpl. rewrite Hseq. split; [lia|].
      by intros _.
Qed.

Lemma find_by_key_none commands actor key :
  find_by_key commands actor key = None ->
  forall id row, commands !! id = Some row -> cm_actor_id row = actor ->
    cm_idempotency_key row = key -> False.
Proof.
  unfold find_by_key. intros Hf id row Hl <- <-.
  assert (In (id, row) (map_to_list commands)) as Hin
    by by apply list_elem_of_In, elem_of_map_to_list.
  pose proof (find_none _ _ Hf _ Hin) as Hh. unfold holds_key in Hh. simpl in Hh.
  by rewrite !String.eqb_refl in Hh.
Qed.

(** A receipt starts the log of an identifier that has none. *)
Lemma created_inv db c h a db' row :
  db_inv db -> created db c h a db' row ->
  (forall r, In r (db_audit db) -> au_command_id (ax_payload r) <> ce_id (ca_envelope c)) ->
  db_inv db'.
Proof.
  intros Hi Hc Hnew. set (id := ce_id (ca_envelope c)).
  pose proof (validate_receipt_ok _ _ (cr_valid _ _ _ _ _ _ Hc))
    as (Hs & Hv & Ht & Hcmd & _ & Hseq & Hfrom & Hto).
  assert (row_ok id row) as Hrow.
  { rewrite (cr_row _ _ _ _ _ _ Hc). split; simpl; try done. rewrite Hv, Hs. simpl. lia. }
  assert (cm_payload row = c) as Hpay by by rewrite (cr_row _ _ _ _ _ _ Hc).
  assert (forall r, In r (db_audit db') -> In r (db_audit db) \/ ax_payload r = a) as Hin.
  { intros r. rewrite (cr_audit _ _ _ _ _ _ Hc), in_app_iff. intros [?|[<-|[]]]; auto. }
  assert (forall i r, db_commands db !! i = Some r -> cm_actor_id r = cm_actor_id row ->
    cm_idempotency_key r = cm_idempotency_key row -> False) as Hfree.
  { intros i r Hl Ha Hk. eapply find_by_key_none; [apply (cr_key_free _ _ _ _ _ _ Hc)|exact Hl|..].
    - by rewrite Ha, (cr_row _ _ _ _ _ _ Hc).
    - by rewrite Hk, (cr_row _ _ _ _ _ _ Hc). }
  split.
  - intros id' row'. rewrite (cr_commands _ _ _ _ _ _ Hc), lookup_insert_Some.
    intros [[<- <-]|[_ Hl]]; [done | by apply (di_rows _ Hi)].
  - intros i i' r r'. rewrite (cr_commands _ _ _ _ _ _ Hc), !lookup_insert_Some.
    intros [[<- <-]|[? ?]] [[<- <-]|[? ?]] Ha Hk; try done.
    + by destruct (Hfree i' r').
    + by destruct (Hfree i r).
    + by eapply (di_keys _ Hi).
  - intros r [Hr| ->]%Hin; [by apply (di_edges _ Hi) | by left].
  - rewrite (cr_audit _ _ _ _ _ _ Hc), map_app. apply NoDup_app.
    split; [apply (di_unique _ Hi)|]. split; [|apply NoDup_singleton].
    intros k Hk Hk'. apply list_elem_of_singleton in Hk'.
    apply list_elem_of_fmap in Hk as (r & -> & Hr). apply list_elem_of_In in Hr.
    unfold audit_key in Hk'. simpl in Hk'. injection Hk' as Hid _.
    apply (Hnew r Hr). by rewrite Hid.
  - intros r r' [Hr| Hr]%Hin [Hr'| Hr']%Hin Hid Hs'.
    + by apply (di_linked _ Hi).
    + rewrite Hr' in Hid. destruct (Hnew r Hr). by rewrite Hid.
    + rewrite Hr in Hid. destruct (Hnew r' Hr'). by rewrite <- Hid.
    + rewrite Hr, Hr' in Hs'. lia.
  - intros r row' [Hr| Hr]%Hin; rewrite (cr_commands _ _ _ _ _ _ Hc), lookup_insert_Some.
    + intros [[Hid <-]|[_ Hl]]; [by destruct (Hnew r Hr) | by apply (di_last _ Hi)].
    + rewrite Hr, Hcmd. intros [[_ <-]|[Hne _]]; [|done]. rewrite Hpay, Hseq, Hv.
      split; [lia|]. by rewrite Hto.
Qed.

Lemma sublist_map {A B} (f : A -> B) l l' : l `sublist_of` l' -> map f l `sublist_of` map f l'.
Proof. induction 1; simpl; by constructor. Qed.

(** Removing commands and records keeps the invariant. *)
Lemma removed_inv db db' :
  db_inv db -> db_commands db' ⊆ db_commands db -> db_audit db' `sublist_of` db_audit db ->
  db_inv db'.
Proof.
  intros Hi Hsub Haud.
  assert (forall r, In r (db_audit db') -> In r (db_audit db)) as Hin.
  { intros r. rewrite <- !list_elem_of_In. intros Hr.
    eapply elem_of_submseteq; [exact Hr | by apply sublist_submseteq]. }
  assert (forall id row, db_commands db' !! id = Some row -> db_commands db !! id = Some row) as Hl.
  { intros id row Hl. by eapply lookup_weaken. }
  split.
  - intros id row ?%Hl. by apply (di_rows _ Hi).
  - intros id id' row row' ?%Hl ?%Hl. by eapply (di_keys _ Hi).
  - intros r ?%Hin. by apply (di_edges _ Hi).
  - eapply sublist_NoDup; [apply (di_unique _ Hi)|]. by apply sublist_map.
  - intros r r' ?%Hin ?%Hin. by apply (di_linked _ Hi).
  - intros r row ?%Hin ?%Hl. by apply (di_last _ Hi).
Qed.

Lemma same_commands_inv db db' : db_inv db -> same_commands db db' -> db_inv db'.
Proof.
  intros Hi (Hc & Ha & _). apply (removed_inv db); [done | by rewrite Hc | by rewrite Ha].
Qed.

Lemma moved_inv db db' m : db_inv db -> moved db db' m -> db_inv db'.
Proof.
  intros Hi [Hs|db1 c v a db2 Hs Ht Hs']; [by eapply same_commands_inv|].
  apply transition_command_ok in Ht as (row & Ht).
  eapply same_commands_inv; [|exact Hs']. eapply transitioned_inv; [|exact Ht].
  by eapply same_commands_inv.
Qed.

(** ** Completeness *)

Lemma transitioned_complete db c v a db' row :
  db_inv db -> transitioned db c v a db' row -> audit_complete db -> audit_complete db'.
Proof.
  intros Hi Ht Hcomp id row' n. pose proof (tr_row _ _ _ _ _ _ Ht) as Hl.
  pose proof (row_version_next _ _ _ _ (di_rows _ Hi _ _ Hl) (tr_valid _ _ _ _ _ _ Ht)) as [Hn _].
  pose proof (validate_transition_ok _ _ _ (tr_valid _ _ _ _ _ _ Ht))
    as (_ & _ & _ & Hcmd & _ & Hseq & _).
  rewrite (tr_commands _ _ _ _ _ _ Ht), (tr_audit _ _ _ _ _ _ Ht), lookup_insert_Some.
  intros [[<- <-]|[_ Hl']] Hle; simpl in Hle.
  - destruct (decide (n = ca_version c)) as [->|Hne].
    + eexists. split; [apply in_app_iff; right; by left|]. unfold audit_key. simpl. congruence.
    + destruct (Hcomp _ _ n Hl) as (r & Hr & Hk); [lia|].
      exists r. split; [apply in_app_iff; by left | done].
  - destruct (Hcomp _ _ n Hl') as (r & Hr & Hk); [lia|].
    exists r. split; [apply in_app_iff; by left | done].
Qed.

Lemma created_complete db c h a db' row :
  created db c h a db' row -> audit_complete db -> audit_complete db'.
Proof.
  intros Hc Hcomp id row' n.
  pose proof (validate_receipt_ok _ _ (cr_valid _ _ _ _ _ _ Hc))
    as (_ & Hv & _ & Hcmd & _ & Hseq & _).
  rewrite (cr_commands _ _ _ _ _ _ Hc), (cr_audit _ _ _ _ _ _ Hc), lookup_insert_Some.
  intros [[<- <-]|[_ Hl']] Hle.
  - rewrite (cr_row _ _ _ _ _ _ Hc) in Hle. simpl in Hle. rewrite Hv in Hle.
    eexists. split; [apply in_app_iff; right; by left|]. unfold audit_key. simpl.
    rewrite Hcmd, Hseq. f_equal. lia.
  - destruct (Hcomp _ _ n Hl') as (r & Hr & Hk); [lia|].
    exists r. split; [apply in_app_iff; by left | done].
Qed.

Lemma same_commands_complete db db' :
  same_commands db db' -> audit_complete db -> audit_complete db'.
Proof. intros (Hc & Ha & _) Hcomp id row n. rewrite Hc, Ha. apply Hcomp. Qed.

Lemma moved_complete db db' m :
  db_inv db -> moved db db' m -> audit_complete db -> audit_complete db'.
Proof.
  intros Hi [Hs|db1 c v a db2 Hs Ht Hs'] Hcomp; [by eapply same_commands_complete|].
  apply transition_command_ok in Ht as (row & Ht).
  eapply same_commands_complete; [exact Hs'|].
  eapply transitioned_complete; [|exact Ht|by eapply same_commands_complete].
  by eapply same_commands_inv.
Qed.

(** The recovery page holds unfinished commands of the table. *)
Lemma recoverable_terminal db limit l :
  db_inv db -> load_recoverable_commands db limit = Ok l ->
  Forall (fun c => CommandAggregate.is_terminal c = false) l /\
  forall c, In c l -> exists id row, db_commands db !! id = Some row /\ cm_payload row = c.
Proof.
  intros Hi Hl. unfold load_recoverable_commands in Hl. simpl in Hl. injection Hl as <-.
  assert (forall kv, kv ∈ take (Nat.min limit MAX_QUERY_PAGE) (merge_sort oldest_update_first
    (List.filter (fun kv => negb (cm_terminal kv.2)) (map_to_list (db_commands db)))) ->
    db_commands db !! kv.1 = Some kv.2 /\ cm_terminal kv.2 = false) as Hin.
  { intros kv Hk. assert (kv ∈ merge_sort oldest_update_first
      (List.filter (fun kv => negb (cm_terminal kv.2)) (map_to_list (db_commands db)))) as Hs.
    { rewrite <- (take_drop (Nat.min limit MAX_QUERY_PAGE)). apply elem_of_app. by left. }
    rewrite merge_sort_Permutation in Hs. apply list_elem_of_In, filter_In in Hs as [Hs Hf].
    apply list_elem_of_In in Hs. destruct kv as [id row]. apply elem_of_map_to_list in Hs.
    split; [done|]. by apply negb_true_iff. }
  split.
  - apply Forall_forall. intros c (kv & -> & Hk)%list_elem_of_fmap.
    destruct (Hin kv Hk) as [Hrow Ht]. by rewrite <- (ro_terminal _ _ (di_rows _ Hi _ _ Hrow)).
  - intros c Hc. apply list_elem_of_In, list_elem_of_fmap in Hc as (kv & -> & Hk).
    destruct (Hin kv Hk) as [Hrow _]. eauto.
Qed.

(** ** The audit page of a command *)

(** A list of records that is a legal path of the state machine. *)
Fixpoint legal_path (from : option CommandState) (records : list CommandAuditRecord)
  (final : CommandState) : Prop :=
  match records with
  | [] => from = Some final
  | a :: records =>
      au_from a = from /\
      match from with
      | None => au_to a = Cs_Received
      | Some s => CommandState.allows_transition_to s (au_to a) = true
      end /\ legal_path (Some (au_to a)) records final
  end.

(** A strictly increasing list that holds exactly an interval. *)
Lemma increasing_interval (l : list N) a k :
  StronglySorted N.lt l -> (forall n, In n l <-> (a <= n < a + N.of_nat k)%N) ->
  l = map (fun i => a + N.of_nat i)%N (seq 0 k).
Proof.
  revert a l. induction k as [|k IH]; intros a l Hs Hin.
  - destruct l as [|x l]; [done|]. specialize (Hin x). simpl in Hin. lia.
  - destruct l as [|x l]; [specialize (Hin a); simpl in Hin; lia|].
    apply StronglySorted_inv in Hs as [Hs Hx]. rewrite Forall_forall in Hx.
    assert (forall y, In y l -> (x < y)%N) as Hlt by (intros; apply Hx; by apply list_elem_of_In).
    assert (x = a) as ->.
    { destruct (proj2 (Hin a)) as [|Ha]; [lia|done|]. pose proof (Hlt _ Ha).
      pose proof (proj1 (Hin x) (or_introl eq_refl)). lia. }
    simpl. f_equal; [lia|]. rewrite (IH (a + 1)%N l Hs).
    + rewrite <- seq_shift, map_map. apply map_ext. intros; lia.
    + intros n. specialize (Hin n). simpl in Hin. split.
      * intros Hn. pose proof (Hlt _ Hn). destruct Hin as [Hin _]. specialize (Hin (or_intror Hn)). lia.
      * intros Hn. destruct Hin as [_ Hin]. destruct Hin as [Hin|Hin]; [lia|lia|done].
Qed.

Lemma sorted_strict (l : list AuditRow) :
  StronglySorted sequence_le l -> NoDup (map (fun r => au_sequence (ax_payload r)) l) ->
  StronglySorted N.lt (map (fun r => au_sequence (ax_payload r)) l).
Proof.
  induction 1 as [|r l Hs IH Hr]; simpl; [constructor|].
  intros [Hnin Hnd]%NoDup_cons. constructor; [by apply IH|].
  apply Forall_forall. intros n (r' & -> & Hr')%list_elem_of_fmap.
  rewrite Forall_forall in Hr. specialize (Hr r' Hr'). unfold sequence_le in Hr.
  assert (au_sequence (ax_payload r) <> au_sequence (ax_payload r')); [|lia].
  intros Heq. apply Hnin, list_elem_of_fmap. by exists r'.
Qed.

#[local] Instance sequence_le_total : Total sequence_le.
Proof. intros a b. unfold sequence_le. lia. Qed.
#[local] Instance sequence_le_trans : Transitive sequence_le.
Proof. intros a b c. unfold sequence_le. lia. Qed.

(** The rows of a command in the order of their sequences. *)
Definition command_rows (db : Db) (id : CommandId) : list AuditRow :=
  merge_sort sequence_le
    (List.filter (fun row => String.eqb (au_command_id (ax_payload row)) id) (db_audit db)).

Lemma command_rows_in db id r :
  In r (command_rows db id) <-> In r (db_audit db) /\ au_command_id (ax_payload r) = id.
Proof.
  unfold command_rows. rewrite <- list_elem_of_In, merge_sort_Permutation, list_elem_of_In, filter_In.
  by rewrite String.eqb_eq.
Qed.

Lemma command_rows_sequences db id row :
  db_inv db -> audit_complete db -> db_commands db !! id = Some row ->
  map (fun r => au_sequence (ax_payload r)) (command_rows db id) =
  map N.of_nat (seq 0 (S (N.to_nat (ca_version (cm_payload row))))).
Proof.
  intros Hi Hcomp Hl.
  rewrite (increasing_interval _ 0 (S (N.to_nat (ca_version (cm_payload row))))); [done|..].
  - apply sorted_strict; [by apply StronglySorted_merge_sort; apply _|].
    unfold command_rows. rewrite merge_sort_Permutation.
    pose proof (di_unique _ Hi) as Hnd. revert Hnd.
    induction (db_audit db) as [|r l IH]; simpl; [constructor|].
    intros [Hnin Hnd]%NoDup_cons. destruct (String.eqb_spec (au_command_id (ax_payload r)) id) as [He|];
      [|by apply IH]. simpl. apply NoDup_cons. split; [|by apply IH].
    intros (r' & Hs & Hr')%list_elem_of_fmap. apply list_elem_of_In, filter_In in Hr' as [Hr' He'].
    apply String.eqb_eq in He'. apply Hnin, list_elem_of_fmap. exists r'.
    rewrite list_elem_of_In. unfold audit_key. by rewrite He, He', Hs.
  - intros n. rewrite in_map_iff. split.
    + intros (r & <- & [Hr Hid]%command_rows_in). subst id.
      destruct (di_last _ Hi r row Hr Hl). lia.
    + intros [_ Hn]. destruct (Hcomp id row n Hl) as (r & Hr & Hk); [lia|].
      unfold audit_key in Hk. injection Hk as Hid Hs. exists r. by rewrite command_rows_in.
Qed.

(** Linked rows with consecutive sequences are a legal path. *)
Lemma rows_legal_path db id row a prev l :
  db_inv db -> db_commands db !! id = Some row ->
  (forall r, In r (prev :: l) -> In r (db_audit db) /\ au_command_id (ax_payload r) = id) ->
  au_sequence (ax_payload prev) = N.of_nat a ->
  map (fun r => au_sequence (ax_payload r)) l = map N.of_nat (seq (S a) (length l)) ->
  (a + length l)%nat = N.to_nat (ca_version (cm_payload row)) ->
  legal_path (Some (au_to (ax_payload prev))) (map ax_payload l) (ca_state (cm_payload row)).
Proof.
  intros Hi Hl. revert a prev. induction l as [|r l IH]; intros a prev Hin Ha Hseq Hlast; simpl.
  - destruct (Hin prev) as [Hp <-]; [by left|].
    destruct (di_last _ Hi prev row Hp Hl) as [_ ->]; [done|]. rewrite Ha. simpl in Hlast. lia.
  - simpl in Hseq. injection Hseq as Hr Hseq.
    destruct (Hin prev) as [Hp Hpid]; [by left|]. destruct (Hin r) as [Hrin Hrid]; [by right; left|].
    assert (au_from (ax_payload r) = Some (au_to (ax_payload prev))) as Hfrom.
    { apply (di_linked _ Hi); [done..|congruence|]. rewrite Ha, Hr. lia. }
    split; [done|]. split.
    + destruct (di_edges _ Hi r Hrin) as [(_ & Hn & _)|(_ & s & Hs & Hal)]; [congruence|].
      rewrite Hfrom in Hs. by injection Hs as <-.
    + apply (IH (S a)); [|done..|simpl in Hlast; lia].
      intros r' Hr'. apply Hin. by right.
Qed.

Lemma load_command_audit_all db id limit row :
  db_inv db -> audit_complete db -> db_commands db !! id = Some row -> 5 <= limit ->
  load_command_audit db id None limit = Ok (map ax_payload (command_rows db id)).
Proof.
  intros Hi Hcomp Hl Hlim. unfold load_command_audit. simpl.
  rewrite (filter_ext_in _ (fun row => String.eqb (au_command_id (ax_payload row)) id)).
  - fold (command_rows db id). rewrite firstn_all2; [done|].
    pose proof (command_rows_sequences db id row Hi Hcomp Hl) as Hs.
    apply (f_equal length) in Hs. rewrite !length_map, length_seq in Hs. rewrite Hs.
    pose proof (ro_rank _ _ (di_rows _ Hi _ _ Hl)).
    pose proof (command_rank_le (ca_state (cm_payload row))). unfold MAX_QUERY_PAGE. lia.
  - intros r _. destruct (String.eqb _ _); [|done]. simpl. apply Z.ltb_lt. lia.
Qed.

(** The page of a stored command is the whole path to its current state. *)
Lemma audit_page_path db id row :
  db_inv db -> audit_complete db -> db_commands db !! id = Some row ->
  legal_path None (map ax_payload (command_rows db id)) (ca_state (cm_payload row)) /\
  N.of_nat (length (command_rows db id)) = (ca_version (cm_payload row) + 1)%N.
Proof.
  intros Hi Hcomp Hl. pose proof (command_rows_sequences db id row Hi Hcomp Hl) as Hs.
  assert (forall r, In r (command_rows db id) ->
    In r (db_audit db) /\ au_command_id (ax_payload r) = id) as Hin by (intros; by apply command_rows_in).
  destruct (command_rows db id) as [|r l]; [done|].
  pose proof (f_equal length Hs) as Hlen. simpl in Hlen. rewrite !length_map, length_seq in Hlen.
  simpl in Hs. injection Hs as Hr Hs. split; [|simpl; lia]. simpl.
  destruct (Hin r) as [Hrin Hrid]; [by left|].
  destruct (di_edges _ Hi r Hrin) as [(_ & Hf & Ht)|(Hpos & _)]; [|lia].
  split; [done|]. split; [done|]. apply (rows_legal_path db id row 0); try done.
  - rewrite Hs. do 2 f_equal. lia.
  - lia.
Qed.
