(* ===== verification/DispatchTokens.v ===== *)
(** The permission to dispatch, followed through the programs of the command
    service.  A task that moved a command to [Cs_Dispatched] in the store holds
    one token for it, which the physical dispatch consumes; the file proves that
    every operation of the service, with a dispatch control that keeps the
    contract [SafeControl], dispatches nothing it holds no token for, and that
    the Matter control keeps the contract. *)

From S2P Require Import Prelude Text BTree Json Capability Lifecycle Device Command Policy MatterState CommandStore MatterStore Effects CommandService MatterCommands.

(** What a task holds: identifiers it generated ([tk_fresh]), commands it moved
    to [Cs_Dispatched] and did not send yet ([tk_dispatch]), envelopes of
    created commands it saw ([tk_known]) and commands a desired slot held
    ([tk_live]). *)
Record Tokens := mk_tokens {
  tk_fresh : gset string;
  tk_dispatch : gmap string CommandAggregate;
  tk_known : list CommandEnvelope;
  tk_live : gset string
}.

Definition no_tokens : Tokens := mk_tokens ∅ ∅ [] ∅.

Definition add_fresh (id : string) (t : Tokens) : Tokens :=
  mk_tokens ({[id]} ∪ tk_fresh t) (tk_dispatch t) (tk_known t) (tk_live t).
Definition drop_fresh (id : string) (t : Tokens) : Tokens :=
  mk_tokens (tk_fresh t ∖ {[id]}) (tk_dispatch t) (tk_known t) (tk_live t).
Definition add_dispatch (c : CommandAggregate) (t : Tokens) : Tokens :=
  mk_tokens (tk_fresh t) (<[ce_id (ca_envelope c) := c]> (tk_dispatch t)) (tk_known t) (tk_live t).
Definition drop_dispatch (id : string) (t : Tokens) : Tokens :=
  mk_tokens (tk_fresh t) (delete id (tk_dispatch t)) (tk_known t) (tk_live t).
Definition add_known (l : list CommandEnvelope) (t : Tokens) : Tokens :=
  mk_tokens (tk_fresh t) (tk_dispatch t) (l ++ tk_known t) (tk_live t).
Definition add_live (id : string) (t : Tokens) : Tokens :=
  mk_tokens (tk_fresh t) (tk_dispatch t) (tk_known t) ({[id]} ∪ tk_live t).

(** A dispatch may be committed before the deadline, for a real command. *)
Definition may_commit (c : CommandAggregate) : Prop :=
  ca_state c = Cs_Dispatched ->
  (ca_updated_at c < ce_deadline (ca_envelope c))%Z /\ ce_dry_run (ca_envelope c) = false.

Section Tokens.
Context `{SerdeJson} `{RequestDigest}.

Abbreviation CmdProg A := (Prog cmd_resp A).

Definition needs (op : CmdOp) (t : Tokens) : Prop :=
  match op with
  | Op_create_command command _ _ => ce_id (ca_envelope command) ∈ tk_fresh t
  | Op_transition_command command _ _ => may_commit command
  | Op_record_dispatch write | Op_authorize_dispatch _ write => may_commit (pw_command write)
  | Op_replace_desired_state write =>
      exists e, In e (tk_known t) /\ ce_id e = ms_command_id (dw_slot write) /\
        ce_dry_run e = false
  | Op_dispatch envelope =>
      exists c, tk_dispatch t !! ce_id envelope = Some c /\ ca_envelope c = envelope
  | _ => True
  end.

(** The token of a successful write of [c]. *)
Definition committed (c : CommandAggregate) (t : Tokens) : Tokens :=
  if bool_decide (ca_state c = Cs_Dispatched) then add_dispatch c t else t.

Definition gives (op : CmdOp) : cmd_resp op -> Tokens -> Tokens :=
  match op with
  | Op_create_command command _ _ => fun r t =>
      let t := drop_fresh (ce_id (ca_envelope command)) t in
      match r with Ok (Created _) => add_known [ca_envelope command] t | _ => t end
  | Op_transition_command command _ _ => fun r t =>
      match r with Ok _ => committed command t | Err _ => t end
  | Op_record_dispatch write => fun r t =>
      match r with Ok _ => committed (pw_command write) t | Err _ => t end
  | Op_authorize_dispatch _ write => fun r t =>
      match r with Ok Uc_Consumed => committed (pw_command write) t | _ => t end
  | Op_dispatch envelope => fun _ t => drop_dispatch (ce_id envelope) t
  | Op_command _ => fun r t =>
      match r with Ok (Some c) => add_known [ca_envelope c] t | _ => t end
  | Op_recoverable_commands _ => fun r t =>
      match r with Ok l => add_known (map ca_envelope l) t | _ => t end
  | Op_desired_slot _ => fun r t =>
      match r with Ok (Some slot) => add_live (ms_command_id slot) t | _ => t end
  | Op_new_uuid => fun r t => add_fresh r t
  | _ => fun _ t => t
  end.

(** A command a desired slot held is not a dry run, and recoverable commands
    are not terminal. *)
Definition tokens_valid (t : Tokens) : Prop :=
  forall e, In e (tk_known t) -> ce_id e ∈ tk_live t -> ce_dry_run e = false.

Definition assumes (op : CmdOp) : cmd_resp op -> Tokens -> Prop :=
  match op with
  | Op_recoverable_commands _ => fun r t =>
      tokens_valid t /\
      match r with Ok l => Forall (fun c => CommandAggregate.is_terminal c = false) l | _ => True end
  | _ => fun _ t => tokens_valid t
  end.

Definition grows (t t' : Tokens) : Prop :=
  (forall e, In e (tk_known t) -> In e (tk_known t')) /\ tk_live t ⊆ tk_live t'.

#[local] Instance grows_refl : Reflexive grows.
Proof. intros t. split; [auto | set_solver]. Qed.
#[local] Instance grows_trans : Transitive grows.
Proof. intros a b c [H1 H2] [H3 H4]. split; [auto | set_solver]. Qed.

Lemma gives_grows op r t : grows t (gives op r t).
Proof.
  destruct op; simpl; repeat case_match; subst; unfold committed; try case_bool_decide;
    split; simpl; intros; rewrite ?in_app_iff; try set_solver; eauto.
Qed.

Definition svc_wp {A : Type} (m : CmdProg A) (t : Tokens) (Q : A -> Tokens -> Prop) : Prop :=
  wp needs gives assumes m t Q.

(** The common postcondition: the program may end anywhere. *)
Definition done {A : Type} (_ : A) (_ : Tokens) : Prop := True.

(** The postcondition of a program that may have committed a dispatch. *)
Definition commits (c : CommandAggregate) (t : Tokens) : Prop :=
  exists d, tk_dispatch t !! ce_id (ca_envelope c) = Some d /\ ca_envelope d = ca_envelope c.

Definition admits (r : result MatterDispatchAdmission BoxError) (t : Tokens) : Prop :=
  match r with Ok (Md_Committed d _) => commits d t | _ => True end.

(** ** The contract of a dispatch control *)

Class SafeControl (control : DispatchControl) : Prop := {
  register_safe : forall c now t,
    In (ca_envelope c) (tk_known t) -> ce_dry_run (ca_envelope c) = false ->
    svc_wp (ctl_register_desired control c now) t done;
  commit_safe : forall c now t,
    (now < ce_deadline (ca_envelope c))%Z -> ce_dry_run (ca_envelope c) = false ->
    svc_wp (ctl_commit_dispatch control c now) t admits;
  authorize_safe : forall actor c approval now t,
    In (ca_envelope c) (tk_known t) -> (now < ce_deadline (ca_envelope c))%Z ->
    svc_wp (ctl_authorize_unlock control actor c approval now) t admits
}.

Definition safe_service (service : CommandService) : Prop :=
  match svc_dispatch_control service with
  | Some control => SafeControl control
  | None => True
  end.

(** ** The service keeps its tokens *)

Lemma svc_ret {A} (a : A) t (Q : A -> Tokens -> Prop) : Q a t -> svc_wp (Ret a) t Q.
Proof. done. Qed.

Lemma svc_mono {A} (m : CmdProg A) t (Q R : A -> Tokens -> Prop) :
  svc_wp m t Q -> (forall a t, Q a t -> R a t) -> svc_wp m t R.
Proof. apply wp_mono. Qed.

Lemma svc_bind {A B} (m : CmdProg A) (f : A -> CmdProg B) t Q :
  svc_wp m t (fun a t => svc_wp (f a) t Q) -> svc_wp (bind m f) t Q.
Proof. apply wp_bind. Qed.

Lemma svc_try {A B E} (m : CmdProg (result A E)) (f : A -> CmdProg (result B E)) t
  (Q : result B E -> Tokens -> Prop) :
  svc_wp m t (fun r t => match r with Ok a => svc_wp (f a) t Q | Err e => Q (Err e) t end) ->
  svc_wp (try_bind m f) t Q.
Proof. apply wp_try. Qed.

Lemma svc_op (op : CmdOp) t (Q : cmd_resp op -> Tokens -> Prop) :
  needs op t -> (forall r, assumes op r (gives op r t) -> Q r (gives op r t)) ->
  svc_wp (perform op) t Q.
Proof. intros Hn HQ. split; [exact Hn|]. exact HQ. Qed.

Lemma svc_call {A E F} (m : CmdProg (result A E)) (wrap : E -> F) t
  (Q : result A F -> Tokens -> Prop) :
  svc_wp m t (fun r t => Q (map_err wrap r) t) -> svc_wp (call m wrap) t Q.
Proof. intros Hm. apply svc_bind. eapply svc_mono; [exact Hm|]. auto. Qed.

(** The facts a program knows at its start stay known. *)
Lemma svc_grows {A} (m : CmdProg A) t (Q : A -> Tokens -> Prop) :
  svc_wp m t Q -> svc_wp m t (fun a t' => Q a t' /\ grows t t').
Proof.
  intros Hm. eapply wp_frame; [exact grows_refl | exact grows_trans | exact gives_grows | exact Hm].
Qed.

Lemma svc_publish record t (Q : result unit CommandServiceError -> Tokens -> Prop) :
  (forall r, Q r t) -> svc_wp (publish record) t Q.
Proof. intros HQ. apply svc_call, svc_op; [exact I|]. intros r _. apply HQ. Qed.

Lemma svc_audit c from t (Q : CommandAuditRecord -> Tokens -> Prop) :
  (forall record id, Q record (add_fresh id t)) -> svc_wp (audit c from) t Q.
Proof. intros HQ. apply svc_bind, svc_op; [exact I|]. intros id _. apply svc_ret, HQ. Qed.

(** A transition commits a dispatch only when it moves to [Cs_Dispatched]. *)
Definition moved_to (c : CommandAggregate) (next : CommandState)
  (r : result CommandAggregate CommandServiceError) (t : Tokens) : Prop :=
  match r with
  | Ok c' => ca_envelope c' = ca_envelope c /\ (next = Cs_Dispatched -> commits c' t)
  | Err _ => True
  end.

Lemma committed_commits c t : ca_state c = Cs_Dispatched -> commits c (committed c t).
Proof.
  intros Hs. exists c. unfold committed. rewrite bool_decide_true by done.
  simpl. by rewrite lookup_insert_eq.
Qed.

Lemma svc_transition c next now t :
  (next = Cs_Dispatched ->
   (now < ce_deadline (ca_envelope c))%Z /\ ce_dry_run (ca_envelope c) = false) ->
  svc_wp (transition c next now) t (moved_to c next).
Proof.
  intros Hnext. unfold transition. destruct (CommandAggregate.transition c next now) as [c'|] eqn:Ht;
    [|exact I].
  apply transition_ok in Ht as (_ & He & Hs & _ & _ & _ & _ & _ & Hu).
  apply svc_bind, svc_audit. intros record id. apply svc_try, svc_call, svc_op.
  { intros Hd. rewrite He, Hu. apply Hnext. congruence. }
  intros [[]|error] _; cbn [map_err gives]; [|exact I]. apply svc_try, svc_publish.
  intros [[]|error]; [|exact I]. apply svc_ret. split; [done|]. intros ->.
  by apply committed_commits.
Qed.

Lemma svc_move c next now t (Q : result CommandAggregate CommandServiceError -> Tokens -> Prop) :
  next <> Cs_Dispatched -> (forall r t', Q r t') -> svc_wp (transition c next now) t Q.
Proof. intros Hn HQ. eapply svc_mono; [by apply svc_transition|]. auto. Qed.

Lemma svc_reject c code now policy t : svc_wp (reject c code now policy) t done.
Proof. by apply svc_move. Qed.

Lemma svc_timeout c now t : svc_wp (timeout c now) t done.
Proof. by apply svc_move. Qed.

Lemma svc_confirm c now t : svc_wp (confirm c now) t done.
Proof.
  apply svc_try, svc_call, svc_op; [exact I|].
  intros [[confirmation| |failure]|error] _; cbn [map_err].
  - by apply svc_move.
  - case_match; [apply svc_timeout | exact I].
  - by apply svc_move.
  - exact I.
Qed.

Lemma svc_dispatch_committed c t : commits c t -> svc_wp (dispatch_committed c) t done.
Proof.
  intros (d & Hd & He). apply svc_bind, svc_op; [by exists d|].
  intros [ack|failure] _; apply svc_bind, svc_op; try exact I; intros now _.
  - case_match; [apply svc_timeout|].
    apply svc_try, svc_move; [done|]. intros [c'|error] t'; [|exact I].
    apply svc_bind, svc_op; [exact I|]. intros now' _. apply svc_confirm.
  - by apply svc_move.
Qed.

Section Service.
Context (service : CommandService) (Hsafe : safe_service service).

Lemma svc_dispatch_plain c now t :
  (now < ce_deadline (ca_envelope c))%Z -> ce_dry_run (ca_envelope c) = false ->
  svc_wp (try! command := transition c Cs_Dispatched now in dispatch_committed command) t done.
Proof.
  intros Hlt Hd. apply svc_try. eapply svc_mono; [by apply svc_transition|].
  intros [c'|error] t' Hm; [|exact I]. apply svc_dispatch_committed. by apply Hm.
Qed.

Lemma svc_dispatch c now t :
  In (ca_envelope c) (tk_known t) -> ce_dry_run (ca_envelope c) = false ->
  svc_wp (dispatch service c now) t done.
Proof.
  intros Hk Hd. unfold dispatch, safe_service in *.
  destruct (Z.leb_spec (ce_deadline (ca_envelope c)) now) as [|Hlt]; [apply svc_timeout|].
  destruct (svc_dispatch_control service) as [control|]; [|by apply svc_dispatch_plain].
  apply svc_try, svc_call. eapply svc_mono; [by apply register_safe|].
  intros [registration|error] t' _; [|exact I]. cbn [map_err]. apply svc_try.
  eapply (svc_mono _ _ (fun _ _ => True)).
  { destruct registration as [|projection revision [record|]]; [done | by apply svc_publish | done]. }
  intros [[]|error] t'' _; [|exact I]. apply svc_try, svc_call.
  eapply svc_mono; [by apply commit_safe|]. intros [[|d record|durable|]|error] t3 Ha;
    [by apply svc_dispatch_plain | | exact I..].
  apply svc_try, svc_publish. intros [[]|error]; [|exact I]. by apply svc_dispatch_committed.
Qed.

Lemma svc_release capacities device_id t (Q : unit -> Tokens -> Prop) :
  (forall r, Q r t) -> svc_wp (release_permit capacities device_id) t Q.
Proof.
  intros HQ. unfold release_permit. case_match; [|apply HQ]. apply svc_op; [exact I|]. auto.
Qed.

Lemma svc_finally {A} (m : CmdProg A) capacities device_id t :
  svc_wp m t done -> svc_wp (finally m (release_permit capacities device_id)) t done.
Proof.
  intros Hm. apply wp_finally. eapply svc_mono; [exact Hm|]. intros a t' _.
  by apply svc_release.
Qed.

Lemma svc_continue_received c actor device now t :
  In (ca_envelope c) (tk_known t) -> svc_wp (continue_received service c actor device now) t done.
Proof.
  intros Hk. unfold continue_received. destruct (validate_target c device now) as [?|code];
    [|apply svc_reject].
  apply svc_try, svc_call, svc_op; [exact I|]. intros [[security|]|error] _; [|exact I..].
  apply svc_bind, svc_op; [exact I|]. intros capacities _. apply svc_finally.
  cbn zeta. case_match; [apply svc_reject|].
  apply svc_try. eapply svc_mono; [apply svc_grows; by apply svc_transition|].
  intros [c'|error] t' [Hm Hg]; [|exact I]. destruct Hm as [He _].
  destruct (ce_dry_run (ca_envelope c')) eqn:Hd; [exact I|].
  apply svc_dispatch; [|done]. rewrite He. by apply Hg.
Qed.

Lemma svc_execute actor request now t : svc_wp (execute service actor request now) t done.
Proof.
  apply svc_try, svc_call, svc_op; [exact I|]. intros [snapshot|error] _; [|exact I].
  cbn [map_err]. destruct (find_device snapshot _) as [device|]; [|exact I].
  destruct (requested_descriptor _) as [fallback|error]; [|exact I].
  cbn zeta. apply svc_bind, svc_op; [exact I|]. intros id _. cbn beta.
  destruct (canonical_hash _ _) as [hash|error]; [|exact I].
  apply svc_bind, svc_audit. intros receipt audit_id. apply svc_try, svc_call, svc_op.
  { simpl. set_solver. }
  intros [[c|c|existing]|error] _; cbn [map_err]; [|exact I..].
  apply svc_try, svc_publish. intros [[]|error]; [|exact I].
  apply svc_continue_received. by left.
Qed.

Lemma svc_get actor_id command_id t
  (Q : result (option CommandAggregate) CommandServiceError -> Tokens -> Prop) :
  (forall r t', Q r t') -> svc_wp (get actor_id command_id) t Q.
Proof.
  intros HQ. apply svc_try, svc_call, svc_op; [exact I|].
  intros [[c|]|error] _; cbn [map_err]; [case_match|..]; apply HQ.
Qed.

Lemma svc_cancel actor_id command_id now t : svc_wp (cancel actor_id command_id now) t done.
Proof.
  apply svc_try, svc_get. intros [[c|]|error] t'; [|exact I..].
  case_match; [exact I | by apply svc_move].
Qed.

Lemma svc_list_commands actor_id limit t : svc_wp (list_commands actor_id limit) t done.
Proof. by apply svc_call, svc_op. Qed.

Lemma svc_audit_page actor_id command_id after limit t :
  svc_wp (audit_page actor_id command_id after limit) t done.
Proof.
  apply svc_try, svc_get. intros [[c|]|error] t'; [|exact I..]. by apply svc_call, svc_op.
Qed.

Lemma svc_discard {A} (m : CmdProg (result A CommandServiceError)) t :
  svc_wp m t done -> svc_wp (discard m) t done.
Proof. intros Hm. apply svc_try. eapply svc_mono; [exact Hm|]. by intros [a|e] t' _. Qed.

Lemma svc_recover_one c now t :
  In (ca_envelope c) (tk_known t) -> CommandAggregate.is_terminal c = false ->
  svc_wp (recover_one service c now) t done.
Proof.
  intros Hk Ht. unfold recover_one.
  destruct (ca_state c) eqn:Hs; try exact I.
  - case_match; [apply svc_discard, svc_timeout|].
    apply svc_try, svc_call, svc_op; [exact I|]. intros [snapshot|error] _; [|exact I].
    cbn [map_err gives]. destruct (find_device snapshot _) as [device|]; [|exact I].
    apply svc_try, svc_call, svc_op; [exact I|]. intros [[security|]|error] _; [|exact I..].
    by apply svc_discard, svc_continue_received.
  - case_match; [apply svc_discard, svc_timeout|].
    apply svc_try, svc_call, svc_op; [exact I|]. intros [snapshot|error] _; [|exact I].
    cbn [map_err gives]. destruct (find_device snapshot _) as [device|]; [|exact I].
    apply svc_try, svc_call, svc_op; [exact I|]. intros [[security|]|error] _; [|exact I..].
    apply svc_bind, svc_op; [exact I|]. intros capacities _. apply svc_finally. cbn zeta.
    case_match; apply svc_discard; [|apply svc_reject]. apply svc_dispatch; [done|].
    unfold CommandAggregate.is_terminal in Ht. rewrite Hs, bool_decide_true, andb_true_r in Ht by done.
    exact Ht.
  - apply svc_discard, svc_confirm.
  - apply svc_discard, svc_confirm.
Qed.

Lemma svc_recover now t : svc_wp (recover service now) t done.
Proof.
  apply svc_try, svc_call, svc_op; [exact I|].
  intros [commands|error] [_ Hc]; [|exact I]. cbn [map_err gives].
  apply svc_try. rewrite Forall_forall in Hc.
  apply (wp_for_each _ _ _ _ _ _ (fun t => forall c, In c commands -> In (ca_envelope c) (tk_known t))).
  - intros c Hin. apply in_or_app. left. by apply in_map.
  - intros c t' Hin Hk. eapply svc_mono.
    { apply svc_grows, svc_recover_one; [by apply Hk | by apply Hc, list_elem_of_In]. }
    intros r t'' [_ Hg]. split; [|by destruct r]. intros c' Hc'. by apply Hg, Hk.
  - intros t' _. exact I.
Qed.

Lemma svc_approve_unlock approver command_id now t :
  svc_wp (approve_unlock service approver command_id now) t done.
Proof.
  apply svc_try, svc_call, svc_op; [exact I|]. intros [[c|]|error] _; [|exact I..].
  cbn [map_err gives]. case_match eqn:Hg; [exact I|].
  apply orb_false_iff in Hg as [[_ Hdl]%orb_false_iff _]. apply Z.leb_gt in Hdl.
  apply svc_try, svc_call, svc_op; [exact I|]. intros [[security|]|error] _; [|exact I..].
  cbn [map_err gives].
  apply svc_try, svc_call, svc_op; [exact I|]. intros [snapshot|error] _; [|exact I].
  cbn [map_err gives]. destruct (find_device snapshot _) as [device|]; [|exact I].
  cbn zeta. case_match; [exact I|]. unfold safe_service in Hsafe.
  destruct (svc_dispatch_control service) as [control|]; [|exact I].
  apply svc_try, svc_call. eapply svc_mono; [apply authorize_safe; [by left | done]|].
  intros [[|d record|durable|]|error] t' Ha; try exact I.
  apply svc_try, svc_publish. intros [[]|error]; [|exact I]. by apply svc_dispatch_committed.
Qed.
End Service.

(** ** The Matter control keeps the contract *)

Lemma svc_projection_for c t
  (Q : result (option StoredMatterProjection) BoxError -> Tokens -> Prop) :
  (forall r, Q r t) -> svc_wp (projection_for c) t Q.
Proof.
  intros HQ. unfold projection_for. case_match; [apply HQ|]. apply svc_op; [exact I|]. auto.
Qed.

Lemma svc_superseded_command current now t :
  svc_wp (superseded_command current now) t done.
Proof.
  unfold superseded_command. destruct current as [[? ? id [|] ?]|]; try exact I.
  apply svc_try, svc_op; [exact I|]. intros [[prior|]|error] _; try exact I. cbn [gives].
  destruct (CommandAggregate.transition _ _ _); [|exact I]. by apply svc_bind, svc_audit.
Qed.

Lemma svc_register_next c now projection current t :
  In (ca_envelope c) (tk_known t) -> ce_dry_run (ca_envelope c) = false ->
  svc_wp (register_next c now projection current) t done.
Proof.
  intros Hk Hd. unfold register_next. destruct (next_desired _ _ _ _) as [[revision p]|]; [|exact I].
  apply svc_try. eapply svc_mono; [apply svc_grows, svc_superseded_command|].
  intros [superseded|error] t' [_ Hg]; [|exact I]. cbn zeta. apply svc_try, svc_op.
  - exists (ca_envelope c). split; [by apply Hg | done].
  - by intros [outcome|error] _.
Qed.

Lemma svc_register_once c now t :
  In (ca_envelope c) (tk_known t) -> ce_dry_run (ca_envelope c) = false ->
  svc_wp (register_once c now) t done.
Proof.
  intros Hk Hd. apply svc_try, svc_projection_for. intros [[projection|]|error]; [|exact I..].
  apply svc_try, svc_op; [exact I|]. intros [[slot|]|error] _; [| |exact I]; cbn [gives].
  - case_match; [exact I|]. by apply svc_register_next.
  - by apply svc_register_next.
Qed.

Lemma svc_register_attempts n c now last t :
  In (ca_envelope c) (tk_known t) -> ce_dry_run (ca_envelope c) = false ->
  svc_wp (register_attempts n c now last) t done.
Proof.
  revert last t. induction n as [|n IH]; intros last t Hk Hd; [exact I|]. simpl.
  apply svc_bind. eapply svc_mono; [by apply svc_grows, svc_register_once|].
  intros [r|error] t' [_ Hg]; [exact I|]. apply IH; [by apply Hg | done].
Qed.

(** The slot names the live command of its projection. *)
Lemma svc_load_slot projection t
  (Q : result MatterDesiredCommandSlot BoxError -> Tokens -> Prop) :
  (forall slot, tokens_valid (add_live (ms_command_id slot) t) ->
     Q (Ok slot) (add_live (ms_command_id slot) t)) ->
  (forall e t', Q (Err e) t') -> svc_wp (load_slot projection) t Q.
Proof.
  intros Hok Herr. apply svc_try, svc_op; [exact I|].
  intros [[slot|]|error] Hv; [by apply Hok | apply Herr..].
Qed.

Lemma svc_load_superseded id t : svc_wp (load_superseded id) t admits.
Proof. apply svc_try, svc_op; [exact I|]. by intros [[durable|]|error] _. Qed.

Lemma may_commit_dispatched c c' now :
  CommandAggregate.transition c Cs_Dispatched now = Ok c' ->
  (now < ce_deadline (ca_envelope c))%Z -> ce_dry_run (ca_envelope c) = false ->
  may_commit c' /\ ca_state c' = Cs_Dispatched.
Proof.
  intros (_ & He & Hs & _ & _ & _ & _ & _ & Hu)%transition_ok Hlt Hd.
  split; [|done]. intros _. by rewrite He, Hu.
Qed.

Lemma svc_commit_dispatch c now t :
  (now < ce_deadline (ca_envelope c))%Z -> ce_dry_run (ca_envelope c) = false ->
  svc_wp (commit_dispatch c now) t admits.
Proof.
  intros Hlt Hd. apply svc_try, svc_projection_for. intros [[projection|]|error]; [|exact I..].
  apply svc_try, svc_load_slot; [|by intros]. intros slot _.
  case_match; [apply svc_load_superseded|]. case_match; [exact I|].
  destruct (CommandAggregate.transition c Cs_Dispatched now) as [d|] eqn:Ht; [|exact I].
  destruct (may_commit_dispatched _ _ _ Ht Hlt Hd) as [Hm Hs].
  apply svc_bind, svc_audit. intros record id. apply svc_try, svc_op; [done|].
  intros [[]|error] _; [|exact I]. apply svc_ret. by apply committed_commits.
Qed.

Lemma svc_authorize_unlock approver c approval now t :
  In (ca_envelope c) (tk_known t) -> (now < ce_deadline (ca_envelope c))%Z ->
  svc_wp (authorize_unlock approver c approval now) t admits.
Proof.
  intros Hk Hlt. unfold authorize_unlock. cbn zeta. case_match; [exact I|].
  apply svc_try, svc_projection_for. intros [[projection|]|error]; [|exact I..].
  apply svc_try, svc_load_slot; [|by intros]. intros slot Hv.
  case_match eqn:Heq; [apply svc_load_superseded|].
  apply negb_false_iff, String.eqb_eq in Heq.
  assert (ce_dry_run (ca_envelope c) = false) as Hd.
  { apply Hv; [done|]. rewrite <- Heq. simpl. set_solver. }
  apply svc_try, svc_op; [exact I|]. intros [[hash|]|error] _; [|exact I..]. cbn [gives].
  case_match; [exact I|]. apply svc_bind, svc_op; [exact I|]. intros id _.
  apply svc_try, svc_op; [exact I|]. intros [[]|error] _; [|exact I]. cbn [gives].
  destruct (CommandAggregate.transition c Cs_Dispatched now) as [d|] eqn:Ht; [|exact I].
  destruct (may_commit_dispatched _ _ _ Ht Hlt Hd) as [Hm Hs].
  apply svc_bind, svc_audit. intros record audit_id. apply svc_try, svc_op; [done|].
  intros [[]|error] _; try exact I. apply svc_ret. by apply committed_commits.
Qed.

#[export] Instance matter_control_safe : SafeControl matter_control.
Proof.
  split.
  - intros c now t. apply svc_register_attempts.
  - intros c now t. apply svc_commit_dispatch.
  - intros actor c approval now t. apply svc_authorize_unlock.
Qed.

End Tokens.

Arguments svc_wp : simpl never.
