(* ===== verification/CommandSystem.v ===== *)
(** The command service as a running system: any number of tasks, each the
    program of one call, interleaved at every awaited operation, over the shared
    database, admission limits and devices.  Operations fail before or after
    their effect, tasks are dropped, the process crashes and restarts, other
    components change their tables, and retention removes old commands.  The
    file defines the system and proves its invariant. *)

From S2P Require Import Prelude Text BTree Json Capability Lifecycle Device Command Policy MatterState CommandStore MatterStore Effects CommandService MatterCommands CommandLog DispatchTokens.

Section System.
Context `{SerdeJson} `{RequestDigest}.
Context (config : CommandLimitConfig).

Abbreviation CmdProg A := (Prog cmd_resp A).

(** The shared state; [w_dispatched] and [w_published] are what left the process,
    newest first, and the last three fields its history: the identifiers
    generated, the envelopes created and the aggregates committed as dispatched. *)
Record World := mk_world {
  w_db : Db;
  w_foundation : FoundationSnapshot;
  w_limits : LimitState;
  w_dispatched : list CommandEnvelope;
  w_published : list CommandAuditRecord;
  w_issued : gset string;
  w_created : list CommandEnvelope;
  w_commits : list CommandAggregate
}.

Definition with_db (w : World) (db : Db) : World :=
  mk_world db (w_foundation w) (w_limits w) (w_dispatched w) (w_published w) (w_issued w)
    (w_created w) (w_commits w).
Definition with_foundation (w : World) (snapshot : FoundationSnapshot) : World :=
  mk_world (w_db w) snapshot (w_limits w) (w_dispatched w) (w_published w) (w_issued w)
    (w_created w) (w_commits w).
Definition with_limits (w : World) (limits : LimitState) : World :=
  mk_world (w_db w) (w_foundation w) limits (w_dispatched w) (w_published w) (w_issued w)
    (w_created w) (w_commits w).
Definition sent (w : World) (envelope : CommandEnvelope) : World :=
  mk_world (w_db w) (w_foundation w) (w_limits w) (envelope :: w_dispatched w) (w_published w)
    (w_issued w) (w_created w) (w_commits w).
Definition published (w : World) (record : CommandAuditRecord) : World :=
  mk_world (w_db w) (w_foundation w) (w_limits w) (w_dispatched w) (record :: w_published w)
    (w_issued w) (w_created w) (w_commits w).
Definition issued (w : World) (id : string) : World :=
  mk_world (w_db w) (w_foundation w) (w_limits w) (w_dispatched w) (w_published w)
    ({[id]} ∪ w_issued w) (w_created w) (w_commits w).
Definition note_created (c : CommandAggregate) (w : World) : World :=
  mk_world (w_db w) (w_foundation w) (w_limits w) (w_dispatched w) (w_published w) (w_issued w)
    (ca_envelope c :: w_created w) (w_commits w).
Definition note_moved (c : CommandAggregate) (w : World) : World :=
  if bool_decide (ca_state c = Cs_Dispatched)
  then mk_world (w_db w) (w_foundation w) (w_limits w) (w_dispatched w) (w_published w)
         (w_issued w) (w_created w) (c :: w_commits w)
  else w.

(** ** The operations *)

Definition read_step {A : Type} (w : World) (v : result A StorageError)
  (r : result A BoxError) (w' : World) : Prop :=
  w' = w /\ (r = map_err Be_Storage v \/ r = Err Be_Transport).

(** A write commits and answers, commits while its answer is lost, is refused,
    or never reaches the database. *)
Definition write_step {A : Type} (w : World) (m : result (Db * A) StorageError)
  (note : A -> World -> World) (r : result A BoxError) (w' : World) : Prop :=
  (w' = w /\ r = Err Be_Transport) \/
  match m with
  | Ok (db, a) => w' = note a (with_db w db) /\ (r = Ok a \/ r = Err Be_Transport)
  | Err e => w' = w /\ r = Err (Be_Storage e)
  end.

Definition silent {A : Type} (_ : A) (w : World) : World := w.
Definition unit_write (m : result Db StorageError) : result (Db * unit) StorageError :=
  let? db := m in Ok (db, tt).

Definition op_step (w : World) (op : CmdOp) : cmd_resp op -> World -> Prop :=
  match op with
  | Op_load => fun r w' => read_step w (Ok (w_foundation w)) r w'
  | Op_create_command c hash record => fun r w' =>
      write_step w (create_command (w_db w) c hash record)
        (fun o => match o with Created c => note_created c | _ => silent o end) r w'
  | Op_command id => fun r w' => read_step w (Ok (load_command (w_db w) id)) r w'
  | Op_actor_commands actor_id limit => fun r w' =>
      read_step w (Ok (load_actor_commands (w_db w) actor_id limit)) r w'
  | Op_command_audit id after limit => fun r w' =>
      read_step w (load_command_audit (w_db w) id after limit) r w'
  | Op_recoverable_commands limit => fun r w' =>
      read_step w (load_recoverable_commands (w_db w) limit) r w'
  | Op_transition_command c version record => fun r w' =>
      write_step w (unit_write (transition_command (w_db w) c version record))
        (fun _ => note_moved c) r w'
  | Op_actor_security id => fun r w' => read_step w (Ok (load_actor_security (w_db w) id)) r w'
  | Op_publish record => fun r w' => w' = published w record \/ w' = w
  | Op_dispatch envelope => fun r w' => w' = sent w envelope
  | Op_confirm _ => fun r w' => w' = w
  | Op_try_acquire actor_id device_id now => fun r w' =>
      let '(capacities, limits) :=
        CommandLimits.try_acquire config (w_limits w) actor_id device_id now in
      r = capacities /\ w' = with_limits w limits
  | Op_release device_id => fun r w' =>
      w' = with_limits w (CommandLimits.release (w_limits w) device_id)
  | Op_request_hash id => fun r w' => read_step w (command_request_hash (w_db w) id) r w'
  | Op_projection_for_target device_id endpoint_id schema => fun r w' =>
      read_step w (Ok (matter_projection_for_target (w_db w) device_id endpoint_id schema)) r w'
  | Op_desired_slot id => fun r w' => read_step w (matter_desired_slot (w_db w) id) r w'
  | Op_replace_desired_state write => fun r w' =>
      write_step w (replace_matter_desired_state (w_db w) write) silent r w'
  | Op_record_dispatch write => fun r w' =>
      write_step w (unit_write (record_dispatch (w_db w) write))
        (fun _ => note_moved (pw_command write)) r w'
  | Op_create_authorization authorization => fun r w' =>
      write_step w (unit_write (create_authorization (w_db w) authorization)) silent r w'
  | Op_authorize_dispatch id write => fun r w' =>
      write_step w (authorize_and_record_unlock_dispatch (w_db w) id write)
        (fun o => match o with Uc_Consumed => note_moved (pw_command write) | _ => silent o end) r w'
  | Op_now => fun r w' => w' = w
  | Op_new_uuid => fun r w' => r ∉ w_issued w /\ w' = issued w r
  end.

(** ** The calls of the service *)

Inductive ApiCall :=
| Call_execute (actor : Actor) (request : CommandRequest) (now : Instant)
| Call_get (actor_id : ActorId) (command_id : CommandId)
| Call_list (actor_id : ActorId) (limit : nat)
| Call_audit (actor_id : ActorId) (command_id : CommandId) (after : option N) (limit : nat)
| Call_cancel (actor_id : ActorId) (command_id : CommandId) (now : Instant)
| Call_recover (now : Instant)
| Call_approve_unlock (approver : Actor) (command_id : CommandId) (now : Instant).

Definition forget {A : Type} (m : CmdProg A) : CmdProg unit := bind m (fun _ => Ret tt).

Definition call_program (service : CommandService) (call : ApiCall) : CmdProg unit :=
  match call with
  | Call_execute actor request now => forget (execute service actor request now)
  | Call_get actor_id command_id => forget (get actor_id command_id)
  | Call_list actor_id limit => forget (list_commands actor_id limit)
  | Call_audit actor_id command_id after limit => forget (audit_page actor_id command_id after limit)
  | Call_cancel actor_id command_id now => forget (cancel actor_id command_id now)
  | Call_recover now => forget (recover service now)
  | Call_approve_unlock approver command_id now => forget (approve_unlock service approver command_id now)
  end.

(** ** Steps of the system *)

Record System := mk_system { sy_world : World; sy_tasks : list (CmdProg unit) }.

(** What other components may do to the database: everything but change the
    command log; a desired slot only goes with its projection. *)
Definition foreign_change (db db' : Db) : Prop :=
  same_commands db db' /\ db_slots db' ⊆ db_slots db.

Inductive sys_step (service : CommandService) (retention : bool) : System -> System -> Prop :=
| Sys_call w tasks call :
    sys_step service retention (mk_system w tasks)
      (mk_system w (tasks ++ [call_program service call]))
| Sys_op w tasks i op k r w' :
    tasks !! i = Some (Io op k) -> op_step w op r w' ->
    sys_step service retention (mk_system w tasks) (mk_system w' (<[i := k r]> tasks))
| Sys_drop w tasks i limits :
    sys_step service retention (mk_system w tasks)
      (mk_system (with_limits w limits) (<[i := Ret tt]> tasks))
| Sys_crash w tasks :
    sys_step service retention (mk_system w tasks)
      (mk_system (with_limits w (mk_limit_state ∅ ∅)) [])
| Sys_foundation w tasks snapshot :
    sys_step service retention (mk_system w tasks) (mk_system (with_foundation w snapshot) tasks)
| Sys_foreign w tasks db :
    foreign_change (w_db w) db ->
    sys_step service retention (mk_system w tasks) (mk_system (with_db w db) tasks)
| Sys_retain w tasks policy db outcome :
    retention = true -> retain_commands (w_db w) policy = Ok (db, outcome) ->
    sys_step service retention (mk_system w tasks) (mk_system (with_db w db) tasks).

(** A first start: no command was ever received. *)
Definition initial (s : System) : Prop :=
  db_commands (w_db (sy_world s)) = ∅ /\ db_audit (w_db (sy_world s)) = [] /\
  db_slots (w_db (sy_world s)) = ∅ /\ w_dispatched (sy_world s) = [] /\
  w_created (sy_world s) = [] /\ w_commits (sy_world s) = [] /\ sy_tasks s = [].

Inductive reachable (service : CommandService) (retention : bool) : System -> Prop :=
| Reach_start s : initial s -> reachable service retention s
| Reach_step s s' :
    reachable service retention s -> sys_step service retention s s' ->
    reachable service retention s'.

(** ** The invariant *)

Definition command_id (c : CommandAggregate) : CommandId := ce_id (ca_envelope c).
Definition sent_ids (w : World) : list CommandId := map ce_id (w_dispatched w).
Definition commit_ids (w : World) : list CommandId := map command_id (w_commits w).

(** What was checked before a dispatch was committed. *)
Definition commit_ok (c : CommandAggregate) : Prop :=
  ca_state c = Cs_Dispatched /\ is_allowed (ca_policy c) = true /\
  (ca_updated_at c < ce_deadline (ca_envelope c))%Z /\ ce_dry_run (ca_envelope c) = false.

Record world_inv (w : World) : Prop := {
  wi_db : db_inv (w_db w);
  wi_rows : forall id row, db_commands (w_db w) !! id = Some row ->
    In (ca_envelope (cm_payload row)) (w_created w);
  wi_audit : forall r, In r (db_audit (w_db w)) ->
    exists e, In e (w_created w) /\ ce_id e = au_command_id (ax_payload r);
  wi_issued : forall e, In e (w_created w) -> ce_id e ∈ w_issued w;
  wi_created : NoDup (map ce_id (w_created w));
  wi_slots : forall p row, db_slots (w_db w) !! p = Some row ->
    exists e, In e (w_created w) /\ ce_id e = sl_command_id row /\ ce_dry_run e = false;
  wi_commits : forall c, In c (w_commits w) ->
    commit_ok c /\ In (ca_envelope c) (w_created w) /\
    forall row, db_commands (w_db w) !! command_id c = Some row ->
      is_pre_dispatch (ca_state (cm_payload row)) = false;
  wi_commits_once : NoDup (commit_ids w);
  wi_sent : forall e, In e (w_dispatched w) -> exists c, In c (w_commits w) /\ ca_envelope c = e;
  wi_sent_once : NoDup (sent_ids w)
}.

(** The tokens of one task, in the world. *)
Record tokens_ok (w : World) (t : Tokens) : Prop := {
  to_fresh : forall id, id ∈ tk_fresh t -> id ∈ w_issued w /\
    forall e, In e (w_created w) -> ce_id e <> id;
  to_dispatch : forall id c, tk_dispatch t !! id = Some c ->
    In c (w_commits w) /\ command_id c = id /\ id ∉ sent_ids w;
  to_known : forall e, In e (tk_known t) -> In e (w_created w);
  to_live : forall id, id ∈ tk_live t ->
    exists e, In e (w_created w) /\ ce_id e = id /\ ce_dry_run e = false
}.

(** Two tasks never hold the same permission. *)
Definition apart (t u : Tokens) : Prop :=
  tk_fresh t ## tk_fresh u /\
  forall id, tk_dispatch t !! id = None \/ tk_dispatch u !! id = None.

Lemma apart_sym t u : apart t u -> apart u t.
Proof. intros [Hf Hd]. split; [set_solver|]. intros id. destruct (Hd id); auto. Qed.

Lemma created_unique w e e' :
  world_inv w -> In e (w_created w) -> In e' (w_created w) -> ce_id e = ce_id e' -> e = e'.
Proof.
  intros Hi He He' Hid. pose proof (wi_created _ Hi) as Hnd.
  apply list_elem_of_In, list_elem_of_lookup in He as [i He].
  apply list_elem_of_In, list_elem_of_lookup in He' as [j He'].
  assert (i = j) as ->; [|congruence].
  eapply (NoDup_lookup _ _ _ (ce_id e) Hnd); rewrite list_lookup_fmap.
  - by rewrite He.
  - by rewrite He', Hid.
Qed.

Lemma tokens_ok_valid w t : world_inv w -> tokens_ok w t -> tokens_valid t.
Proof.
  intros Hi Ht e He Hid. destruct (to_live _ _ Ht _ Hid) as (e' & He' & Heq & Hd).
  by rewrite (created_unique w e e' Hi (to_known _ _ Ht _ He) He' (eq_sym Heq)).
Qed.

(** The change of the world and of the task's tokens keeps everything. *)
Definition step_ok (w : World) (t : Tokens) (w' : World) (t' : Tokens) : Prop :=
  world_inv w' /\ tokens_ok w' t' /\
  forall u, tokens_ok w u -> apart t u -> tokens_ok w' u /\ apart t' u.

(** *** A step that neither creates, commits nor sends *)

Record benign (w w' : World) : Prop := {
  be_commands : same_commands (w_db w) (w_db w');
  be_slots : db_slots (w_db w') ⊆ db_slots (w_db w);
  be_sent : w_dispatched w' = w_dispatched w;
  be_created : w_created w' = w_created w;
  be_commits : w_commits w' = w_commits w;
  be_issued : w_issued w ⊆ w_issued w'
}.

Lemma benign_inv w w' : world_inv w -> benign w w' -> world_inv w'.
Proof.
  intros Hi Hb. pose proof (be_commands _ _ Hb) as (Hc & Ha & _).
  split; unfold sent_ids, commit_ids;
    rewrite ?Hc, ?Ha, ?(be_sent _ _ Hb), ?(be_created _ _ Hb),
      ?(be_commits _ _ Hb); try apply Hi.
  - eapply same_commands_inv; [apply Hi | apply Hb].
  - intros e He. by apply (be_issued _ _ Hb), (wi_issued _ Hi).
  - intros p row Hp. apply (wi_slots _ Hi p). by eapply lookup_weaken, (be_slots _ _ Hb).
Qed.

Lemma benign_tokens w w' t : tokens_ok w t -> benign w w' -> tokens_ok w' t.
Proof.
  intros Ht Hb. split; unfold sent_ids; rewrite ?(be_sent _ _ Hb), ?(be_created _ _ Hb),
    ?(be_commits _ _ Hb); try apply Ht.
  intros id Hid. destruct (to_fresh _ _ Ht _ Hid). split; [by apply (be_issued _ _ Hb) | done].
Qed.

Lemma benign_step w w' t : world_inv w -> tokens_ok w t -> benign w w' -> step_ok w t w' t.
Proof.
  intros Hi Ht Hb. split; [by eapply benign_inv|]. split; [by eapply benign_tokens|].
  intros u Hu Hau. split; [by eapply benign_tokens | done].
Qed.

#[local] Instance benign_refl : Reflexive benign.
Proof. intros w. by split. Qed.

(** *** A step that moves a command *)

Definition note_move (m : option CommandAggregate) (w : World) : World :=
  match m with Some c => note_moved c w | None => w end.

Lemma pre_dispatch_next s s' :
  CommandState.allows_transition_to s s' = true -> is_pre_dispatch s = false ->
  is_pre_dispatch s' = false.
Proof. by destruct s, s'. Qed.

(** The one row a moved store changed. *)
Lemma moved_rows db db' m :
  moved db db' m ->
  (m = None /\ db_commands db' = db_commands db /\ db_audit db' = db_audit db) \/
  (exists c a row row', m = Some c /\ db_commands db !! command_id c = Some row /\
     validate_transition (cm_payload row) c a = Ok tt /\ cm_payload row' = c /\
     db_commands db' = <[command_id c := row']> (db_commands db) /\
     exists r, db_audit db' = db_audit db ++ [r] /\ ax_payload r = a).
Proof.
  intros [(Hc & Ha & _)|db1 c v a db2 (Hc & Ha & _) Ht (Hc' & Ha' & _)]; [by left|].
  right. apply transition_command_ok in Ht as (row & Ht). exists c, a, row.
  eexists. split; [done|]. rewrite Hc', Ha', (tr_commands _ _ _ _ _ _ Ht), (tr_audit _ _ _ _ _ _ Ht),
    <- Hc, <- Ha.
  split; [apply Ht|]. split; [apply Ht|]. split; [|split; [done | by eexists]]. done.
Qed.

Lemma note_move_fields m w :
  w_db (note_move m w) = w_db w /\ w_dispatched (note_move m w) = w_dispatched w /\
  w_created (note_move m w) = w_created w /\ w_issued (note_move m w) = w_issued w /\
  (w_commits (note_move m w) = w_commits w \/
   exists c, m = Some c /\ ca_state c = Cs_Dispatched /\
     w_commits (note_move m w) = c :: w_commits w).
Proof.
  destruct m as [c|]; simpl; [|eauto 10]. unfold note_moved. case_bool_decide; simpl; eauto 10.
Qed.

(** The states of the rows only move forward past the dispatch. *)
Lemma moved_pre_dispatch db db' m id row' :
  moved db db' m -> db_commands db' !! id = Some row' ->
  is_pre_dispatch (ca_state (cm_payload row')) = true ->
  exists row, db_commands db !! id = Some row /\
    is_pre_dispatch (ca_state (cm_payload row)) = true.
Proof.
  intros [(_ & Hc & _)|(c & a & row & r' & _ & Hrow & Hv & Hp & Hc & _)]%moved_rows; rewrite Hc.
  { eauto. }
  rewrite lookup_insert_Some. intros [[<- <-]|[_ Hl]] Hpre; [|eauto].
  exists row. split; [done|]. apply validate_transition_ok in Hv as (_ & _ & Hal & _).
  apply not_false_iff_true. intros Hf. rewrite Hp in Hpre.
  by rewrite (pre_dispatch_next _ _ Hal Hf) in Hpre.
Qed.

(** A command commits its dispatch once. *)
Lemma moved_dispatch_new w db' c :
  world_inv w -> moved (w_db w) db' (Some c) -> ca_state c = Cs_Dispatched ->
  command_id c ∉ commit_ids w /\ In (ca_envelope c) (w_created w) /\
  is_allowed (ca_policy c) = true /\
  exists row', db_commands db' !! command_id c = Some row' /\ cm_payload row' = c.
Proof.
  intros Hi [(? & _)|(c' & a & row & row' & [= <-] & Hrow & Hv & Hp & Hc & _)]%moved_rows Hs; [done|].
  apply validate_transition_ok in Hv as (He & _ & Hal & _ & _ & _ & _ & _ & Hpol).
  rewrite Hs in Hal, Hpol. split; [|split; [|split]].
  - intros (c0 & Hid & Hin)%list_elem_of_fmap. apply list_elem_of_In in Hin.
    destruct (wi_commits _ Hi c0 Hin) as (_ & _ & Hpre). rewrite <- Hid in Hpre.
    specialize (Hpre _ Hrow). by destruct (ca_state (cm_payload row)).
  - rewrite He. by eapply (wi_rows _ Hi).
  - by apply Hpol.
  - exists row'. by rewrite Hc, lookup_insert_eq.
Qed.

Section Move.
Context (w : World) (db' : Db) (m : option CommandAggregate) (sid : option CommandId).
Context (Hi : world_inv w) (Hm : moved (w_db w) db' m).
Context (Hmay : forall c, m = Some c -> may_commit c).
Context (Hslots : slots_within (w_db w) db' sid).
Context (Hsid : forall id, sid = Some id ->
  exists e, In e (w_created w) /\ ce_id e = id /\ ce_dry_run e = false).

Abbreviation w' := (note_move m (with_db w db')).

Lemma move_fields :
  w_db w' = db' /\ w_dispatched w' = w_dispatched w /\ w_created w' = w_created w /\
  w_issued w' = w_issued w /\
  (w_commits w' = w_commits w \/
   exists c, m = Some c /\ ca_state c = Cs_Dispatched /\ w_commits w' = c :: w_commits w).
Proof. exact (note_move_fields m (with_db w db')). Qed.

Lemma move_inv : world_inv w'.
Proof.
  destruct move_fields as (Hdb & Hsent & Hcr & His & Hco).
  split; unfold sent_ids, commit_ids; rewrite ?Hdb, ?Hsent, ?Hcr, ?His.
  - eapply moved_inv; [apply Hi | exact Hm].
  - intros id row Hl. destruct (moved_rows _ _ _ Hm) as
      [(_ & Hc & _)|(c & a & row0 & row' & _ & Hrow & Hv & Hp & Hc & _)]; rewrite Hc in Hl.
    { by eapply (wi_rows _ Hi). }
    apply lookup_insert_Some in Hl as [[<- <-]|[_ Hl]]; [|by eapply (wi_rows _ Hi)].
    apply validate_transition_ok in Hv as (He & _). rewrite Hp, He. by eapply (wi_rows _ Hi).
  - intros r Hr. destruct (moved_rows _ _ _ Hm) as
      [(_ & _ & Ha)|(c & a & row0 & row' & _ & Hrow & Hv & _ & _ & r' & Ha & Hr')]; rewrite Ha in Hr.
    { by apply (wi_audit _ Hi). }
    apply in_app_iff in Hr as [Hr|[<-|[]]]; [by apply (wi_audit _ Hi)|].
    apply validate_transition_ok in Hv as (He & _ & _ & Hid & _). exists (ca_envelope c).
    rewrite Hr', Hid. split; [|done]. rewrite He. by eapply (wi_rows _ Hi).
  - apply Hi.
  - apply Hi.
  - intros p row Hl. destruct (Hslots p row Hl) as [Hs|(p0 & row0 & Hl0 & Hid)]; [by apply Hsid|].
    rewrite <- Hid. by eapply (wi_slots _ Hi).
  - assert (forall c row, In c (w_commits w) -> db_commands db' !! command_id c = Some row ->
      is_pre_dispatch (ca_state (cm_payload row)) = false) as Hpost.
    { intros c row Hc Hl. apply not_true_iff_false. intros Hp.
      destruct (moved_pre_dispatch _ _ _ _ _ Hm Hl Hp) as (row0 & Hl0 & Hp0).
      destruct (wi_commits _ Hi c Hc) as (_ & _ & Hpre). by rewrite (Hpre _ Hl0) in Hp0. }
    intros c Hc. assert (In c (w_commits w) -> commit_ok c /\ In (ca_envelope c) (w_created w) /\
      forall row, db_commands db' !! command_id c = Some row ->
        is_pre_dispatch (ca_state (cm_payload row)) = false) as Hold.
    { intros Hin. destruct (wi_commits _ Hi c Hin) as (Hok & Hcre & _).
      split; [done|]. split; [done|]. intros row. by apply Hpost. }
    destruct Hco as [Hco|(c0 & -> & Hs & Hco)]; rewrite Hco in Hc; [by apply Hold|].
    destruct Hc as [<-|Hc]; [|by apply Hold].
    destruct (moved_dispatch_new _ _ _ Hi Hm Hs) as (_ & Hcre & Hal & row' & Hl & Hp).
    split; [|split; [done|]].
    + destruct (Hmay c0 eq_refl Hs). by repeat split.
    + intros row Hrow. assert (row = row') as -> by congruence. by rewrite Hp, Hs.
  - destruct Hco as [Hco|(c0 & -> & Hs & Hco)]; rewrite Hco; [apply Hi|]. simpl.
    apply NoDup_cons. split; [|apply Hi]. by apply (moved_dispatch_new _ _ _ Hi Hm Hs).
  - intros e He. destruct (wi_sent _ Hi e He) as (c & Hc & Hec). exists c. split; [|done].
    destruct Hco as [Hco|(c0 & _ & _ & Hco)]; rewrite Hco; [done | by right].
  - apply Hi.
Qed.

Lemma move_tokens t : tokens_ok w t -> tokens_ok w' t.
Proof.
  destruct move_fields as (_ & Hsent & Hcr & His & Hco). intros Ht.
  split; unfold sent_ids; rewrite ?Hsent, ?Hcr, ?His; try apply Ht.
  intros id c Hd. destruct (to_dispatch _ _ Ht _ _ Hd) as (Hc & ? & ?). split; [|done].
  destruct Hco as [Hco|(c0 & _ & _ & Hco)]; rewrite Hco; [done | by right].
Qed.

Lemma move_step t : tokens_ok w t -> step_ok w t w' t.
Proof.
  intros Ht. split; [apply move_inv|]. split; [by apply move_tokens|].
  intros u Hu Ha. split; [by apply move_tokens | done].
Qed.

(** The mover gets the token. *)
Lemma move_commit_step c t :
  m = Some c -> tokens_ok w t -> step_ok w t w' (committed c t).
Proof.
  intros Hmc Ht. unfold committed. case_bool_decide as Hs; [|by apply move_step].
  pose proof Hm as Hm0. rewrite Hmc in Hm0.
  destruct (moved_dispatch_new _ _ _ Hi Hm0 Hs) as (Hnew & _).
  assert (forall u id d, tokens_ok w u -> tk_dispatch u !! id = Some d -> id <> command_id c) as Hfree.
  { intros u id d Hu Hd ->. destruct (to_dispatch _ _ Hu _ _ Hd) as (Hc & Hid & _).
    apply Hnew, list_elem_of_fmap. exists d. by rewrite list_elem_of_In. }
  split; [apply move_inv|]. split.
  - pose proof (move_tokens t Ht) as Ht'. split; simpl; try apply Ht'.
    intros id d. rewrite lookup_insert_Some. intros [[<- <-]|[_ Hd]]; [|by apply (to_dispatch _ _ Ht')].
    split; [|split; [done|]].
    + rewrite Hmc. simpl. unfold note_moved. rewrite bool_decide_true by done. by left.
    + destruct move_fields as (_ & Hsent & _). unfold sent_ids. rewrite Hsent.
      intros (e & Hid & He)%list_elem_of_fmap. apply list_elem_of_In in He.
      destruct (wi_sent _ Hi e He) as (d & Hd & Hed).
      apply Hnew, list_elem_of_fmap. exists d. rewrite list_elem_of_In. split; [|done].
      unfold command_id in *. by rewrite Hed.
  - intros u Hu [Hf Hd]. split; [by apply move_tokens|]. split; [done|].
    intros id. simpl. destruct (decide (id = command_id c)) as [->|Hne].
    + right. destruct (tk_dispatch u !! command_id c) eqn:Hl; [|done].
      by destruct (Hfree u _ _ Hu Hl).
    + destruct (Hd id) as [Hn|Hn]; [left | by right]. by rewrite lookup_insert_ne.
Qed.
End Move.

(** *** A step that creates a command *)

Lemma create_step w t c h a db' row :
  world_inv w -> tokens_ok w t -> command_id c ∈ tk_fresh t ->
  created (w_db w) c h a db' row ->
  step_ok w t (note_created c (with_db w db')) (drop_fresh (command_id c) t).
Proof.
  intros Hi Ht Hf Hc. destruct (to_fresh _ _ Ht _ Hf) as [His Hnew].
  assert (forall r, In r (db_audit (w_db w)) ->
    au_command_id (ax_payload r) <> ce_id (ca_envelope c)) as Haud.
  { intros r Hr. destruct (wi_audit _ Hi r Hr) as (e & He & <-). by apply Hnew. }
  assert (forall id row', db_commands db' !! id = Some row' ->
    (id = command_id c /\ cm_payload row' = c) \/
    (db_commands (w_db w) !! id = Some row')) as Hrows.
  { intros id row'. rewrite (cr_commands _ _ _ _ _ _ Hc), lookup_insert_Some.
    intros [[<- <-]|[_ Hl]]; [left; split; [done|] | by right].
    by rewrite (cr_row _ _ _ _ _ _ Hc). }
  split; [|split].
  - split; unfold sent_ids, commit_ids; simpl; try apply Hi.
    + by eapply created_inv; [apply Hi | exact Hc | exact Haud].
    + intros id row' [[-> ->]|Hl]%Hrows; [by left | right; by eapply (wi_rows _ Hi)].
    + intros r. rewrite (cr_audit _ _ _ _ _ _ Hc), in_app_iff. intros [Hr|[<-|[]]].
      * destruct (wi_audit _ Hi r Hr) as (e & He & Hid). exists e. auto.
      * exists (ca_envelope c). split; [by left|].
        destruct (validate_receipt_ok _ _ (cr_valid _ _ _ _ _ _ Hc)) as (_ & _ & _ & Hid & _).
        by rewrite <- Hid.
    + intros e [<-|He]; [done | by apply (wi_issued _ Hi)].
    + apply NoDup_cons. split; [|apply Hi]. intros (e & Hid & He)%list_elem_of_fmap.
      apply list_elem_of_In in He. by apply (Hnew e He).
    + intros p row'. destruct (cr_desired _ _ _ _ _ _ Hc) as (-> & _). intros Hl.
      destruct (wi_slots _ Hi _ _ Hl) as (e & He & Hid & Hd). exists e. auto.
    + intros d Hd. destruct (wi_commits _ Hi d Hd) as (Hok & Hcre & Hpre).
      split; [done|]. split; [by right|]. intros row' [[Hid _]|Hl]%Hrows; [|by apply Hpre].
      by destruct (Hnew _ Hcre).
  - split; simpl; try apply Ht.
    + intros id Hid. apply elem_of_difference in Hid as [Hid Hne].
      destruct (to_fresh _ _ Ht _ Hid). split; [done|]. intros e [<-|He]; [set_solver | auto].
    + intros e He. right. by apply (to_known _ _ Ht).
    + intros id Hid. destruct (to_live _ _ Ht _ Hid) as (e & He & ?). exists e. auto.
  - intros u Hu [Hfu Hdu]. split; [|split; [simpl; set_solver | done]].
    split; simpl; try apply Hu.
    + intros id Hid. destruct (to_fresh _ _ Hu _ Hid). split; [done|].
      intros e [<-|He]; [|auto]. unfold command_id in Hf. set_solver.
    + intros e He. right. by apply (to_known _ _ Hu).
    + intros id Hid. destruct (to_live _ _ Hu _ Hid) as (e & He & ?). exists e. auto.
Qed.

(** *** A step that sends a command *)

Lemma send_step w t c :
  world_inv w -> tokens_ok w t -> tk_dispatch t !! command_id c = Some c ->
  step_ok w t (sent w (ca_envelope c)) (drop_dispatch (command_id c) t).
Proof.
  intros Hi Ht Hd. destruct (to_dispatch _ _ Ht _ _ Hd) as (Hc & _ & Hnew).
  split; [|split].
  - split; unfold sent_ids; simpl; try apply Hi.
    + intros e [<-|He]; [by exists c | by apply (wi_sent _ Hi)].
    + apply NoDup_cons. split; [done | apply Hi].
  - split; unfold sent_ids; simpl; try apply Ht.
    intros id d. rewrite lookup_delete_Some. intros [Hne Hl].
    destruct (to_dispatch _ _ Ht _ _ Hl) as (? & ? & ?). split; [done|]. split; [done|].
    rewrite elem_of_cons. intros [->|]; [by apply Hne | done].
  - intros u Hu [Hf Hdu]. split.
    + split; unfold sent_ids; simpl; try apply Hu.
      intros id d Hl. destruct (to_dispatch _ _ Hu _ _ Hl) as (? & ? & ?).
      split; [done|]. split; [done|]. rewrite elem_of_cons. intros [->|]; [|done].
      destruct (Hdu (ce_id (ca_envelope c))) as [Hn|Hn]; unfold command_id in Hd; congruence.
    + split; [done|]. intros id. simpl. destruct (Hdu id) as [Hn|Hn]; [left | by right].
      destruct (decide (command_id c = id)) as [<-|Hne];
        [apply lookup_delete_eq | by rewrite lookup_delete_ne].
Qed.

(** *** Tokens a response adds *)

Lemma step_known w t w' t' l :
  step_ok w t w' t' -> (forall e, In e l -> In e (w_created w')) -> step_ok w t w' (add_known l t').
Proof.
  intros (Hi & Ht & Hu) Hl. split; [done|]. split; [|done].
  split; simpl; try apply Ht. intros e [He|He]%in_app_iff; [auto | by apply (to_known _ _ Ht)].
Qed.

Lemma step_live w t w' t' id :
  step_ok w t w' t' ->
  (exists e, In e (w_created w') /\ ce_id e = id /\ ce_dry_run e = false) ->
  step_ok w t w' (add_live id t').
Proof.
  intros (Hi & Ht & Hu) Hl. split; [done|]. split; [|done].
  split; simpl; try apply Ht. intros id' [->%elem_of_singleton|Hid]%elem_of_union; [done|].
  by apply (to_live _ _ Ht).
Qed.

Lemma issue_step w t id :
  world_inv w -> tokens_ok w t -> id ∉ w_issued w -> step_ok w t (issued w id) (add_fresh id t).
Proof.
  intros Hi Ht Hid. assert (benign w (issued w id)) as Hb by (split; simpl; done || set_solver).
  pose proof (benign_tokens _ _ _ Ht Hb) as Ht'.
  split; [by eapply benign_inv|]. split.
  - split; simpl; try apply Ht'. intros i [->%elem_of_singleton|Hin]%elem_of_union;
      [|by apply (to_fresh _ _ Ht')].
    split; [set_solver|]. intros e He Heq. apply Hid. rewrite <- Heq. by apply (wi_issued _ Hi).
  - intros u Hu [Hf Hd]. split; [by eapply benign_tokens|]. split; [|done]. simpl.
    assert (id ∉ tk_fresh u); [|set_solver]. intros Hin. by destruct (to_fresh _ _ Hu _ Hin).
Qed.

(** *** Every operation keeps the invariant *)

(** The operations that do not touch tokens. *)
Lemma read_benign {A} w (v : result A StorageError) r w' : read_step w v r w' -> benign w w'.
Proof. intros [-> _]. done. Qed.

Lemma unit_write_ok m db u : unit_write m = Ok (db, u) -> m = Ok db.
Proof. unfold unit_write. intros (d & -> & [= <- _])%result_bind_ok. done. Qed.

(** A write whose transaction moves [m]; the mover keeps the token only when
    the answer reached it. *)
Lemma move_write w t c db' (b : bool) :
  world_inv w -> tokens_ok w t -> may_commit c -> moved (w_db w) db' (Some c) ->
  slots_within (w_db w) db' None ->
  step_ok w t (note_moved c (with_db w db')) (if b then committed c t else t).
Proof.
  intros Hi Ht Hmay Hm Hs. destruct b.
  - eapply (move_commit_step w db' (Some c) None); try done. by intros c' [= <-].
  - eapply (move_step w db' (Some c) None); try done. by intros c' [= <-].
Qed.

Lemma transition_moved db c v a db' :
  transition_command db c v a = Ok db' -> moved db db' (Some c) /\ slots_within db db' None.
Proof.
  intros Ht. split; [by econstructor|]. by eapply slots_within_same, transition_same_slots.
Qed.

(** The lost answer of a creation leaves the identifier unused. *)
Lemma lost_create_step w t id :
  world_inv w -> tokens_ok w t -> step_ok w t w (drop_fresh id t).
Proof.
  intros Hi Ht. split; [done|]. split.
  - split; simpl; try apply Ht. intros i Hin. apply (to_fresh _ _ Ht). set_solver.
  - intros u Hu [Hf Hd]. split; [done|]. split; [simpl; set_solver | done].
Qed.

Lemma write_benign {A} w t w' (m : result (Db * A) StorageError) (r : result A BoxError) :
  world_inv w -> tokens_ok w t ->
  (forall db a, m = Ok (db, a) -> same_commands (w_db w) db /\ db_slots db = db_slots (w_db w)) ->
  write_step w m silent r w' -> step_ok w t w' t.
Proof.
  intros Hi Ht Hm [[-> _]|Hw]; [by apply benign_step|].
  destruct m as [[db a]|e]; [|destruct Hw as [-> _]; by apply benign_step].
  destruct Hw as [-> _], (Hm db a eq_refl) as [Hc Hs]. apply benign_step; [done..|].
  split; try done. simpl. by rewrite Hs.
Qed.

Lemma with_db_same w : with_db w (w_db w) = w.
Proof. by destruct w. Qed.

Section Cases.
Context (w w' : World) (t : Tokens) (Hi : world_inv w) (Ht : tokens_ok w t).

Lemma create_case c h a r :
  needs (Op_create_command c h a) t -> op_step w (Op_create_command c h a) r w' ->
  step_ok w t w' (gives (Op_create_command c h a) r t).
Proof.
  intros Hn. simpl in *. intros [[-> ->]|Hw]; [by apply lost_create_step|].
  destruct (create_command (w_db w) c h a) as [[db o]|e] eqn:Hc;
    [|destruct Hw as [-> ->]; by apply lost_create_step].
  apply create_command_ok in Hc as [[-> [row Hrow]]|(-> & id & row & _ & Ho)].
  - destruct Hw as [-> Hr]. pose proof (create_step w t c h a db row Hi Ht Hn Hrow) as Hs.
    destruct Hr as [->| ->]; [|done]. apply step_known; [done|]. intros e [<-|[]]. by left.
  - assert (w' = w) as -> by (destruct Hw as [-> _], w; rewrite Ho; by case_match).
    assert (forall x, Ok o = r \/ Err Be_Transport = r ->
      match r with Ok (Created _) => add_known x (drop_fresh (command_id c) t)
      | _ => drop_fresh (command_id c) t end = drop_fresh (command_id c) t) as Heq.
    { intros x [<-|<-]; [|done]. rewrite Ho. by destruct (String.eqb _ _). }
    unfold command_id in Heq. rewrite Heq by (destruct Hw as [_ [-> | ->]]; auto).
    by apply lost_create_step.
Qed.

Lemma move_case c m note r :
  may_commit c ->
  (forall db u, m = Ok (db, u) -> moved (w_db w) db (Some c) /\ slots_within (w_db w) db None) ->
  note = (fun _ : unit => note_moved c) ->
  write_step w m note r w' ->
  step_ok w t w' (match r with Ok _ => committed c t | Err _ => t end).
Proof.
  intros Hmay Hm -> [[-> ->]|Hw]; [by apply benign_step|].
  destruct m as [[db u]|e]; [|destruct Hw as [-> ->]; by apply benign_step].
  destruct (Hm db u eq_refl) as [Hmv Hsl]. destruct Hw as [-> [-> | ->]].
  - by apply (move_write w t c db true).
  - by apply (move_write w t c db false).
Qed.

Lemma authorize_case id write r :
  needs (Op_authorize_dispatch id write) t -> op_step w (Op_authorize_dispatch id write) r w' ->
  step_ok w t w' (gives (Op_authorize_dispatch id write) r t).
Proof.
  intros Hn. simpl in *. intros [[-> ->]|Hw]; [by apply benign_step|].
  destruct (authorize_and_record_unlock_dispatch (w_db w) id write) as [[db o]|e] eqn:Ha;
    [|destruct Hw as [-> ->]; by apply benign_step].
  apply authorize_dispatch_ok in Ha as [(-> & _ & Hmv & Hsl)|(Hne & ->)].
  - destruct Hw as [-> [-> | ->]].
    + by apply (move_write w t (pw_command write) db true).
    + by apply (move_write w t (pw_command write) db false).
  - rewrite with_db_same in Hw. destruct Hw as [-> Hr].
    destruct Hr as [-> | ->], o; try done; by apply benign_step.
Qed.

Lemma replace_case write r :
  needs (Op_replace_desired_state write) t -> op_step w (Op_replace_desired_state write) r w' ->
  step_ok w t w' t.
Proof.
  intros (e & He & Hid & Hd). simpl. intros [[-> _]|Hw]; [by apply benign_step|].
  destruct (replace_matter_desired_state (w_db w) write) as [[db o]|err] eqn:Hr;
    [|destruct Hw as [-> _]; by apply benign_step].
  destruct Hw as [-> _].
  apply replace_matter_desired_state_ok in Hr as (Hsl & m & Hmv & Hc).
  assert (note_move m (with_db w db) = with_db w db) as Hnote.
  { destruct m as [c|]; [|done]. simpl. unfold note_moved. rewrite bool_decide_false; [done|].
    by rewrite (Hc c). }
  unfold silent. rewrite <- Hnote.
  eapply (move_step w db m (Some (ms_command_id (dw_slot write)))); try done.
  - intros c Hcm Hs. by rewrite (Hc c) in Hs.
  - intros i [= <-]. exists e. split; [by apply (to_known _ _ Ht) | done].
Qed.

Lemma slot_case id r :
  op_step w (Op_desired_slot id) r w' -> step_ok w t w' (gives (Op_desired_slot id) r t).
Proof.
  simpl. intros [-> Hr]. assert (step_ok w t w t) as Hs by by apply benign_step.
  destruct r as [[slot|]|e]; try done. destruct Hr as [Hr|]; [|done].
  unfold matter_desired_slot in Hr. destruct (db_slots (w_db w) !! id) as [row|] eqn:Hl; [|done].
  destruct (to_u64 (sl_desired_revision row)); [|done]. simpl in Hr. injection Hr as ->.
  apply step_live; [done|]. by eapply (wi_slots _ Hi).
Qed.

Lemma command_case id r :
  op_step w (Op_command id) r w' -> step_ok w t w' (gives (Op_command id) r t).
Proof.
  simpl. intros [-> Hr]. assert (step_ok w t w t) as Hs by by apply benign_step.
  destruct r as [[c|]|e]; try done. destruct Hr as [Hr|]; [|done].
  simpl in Hr. unfold load_command in Hr. destruct (db_commands (w_db w) !! id) as [row|] eqn:Hl; [|done].
  injection Hr as ->. apply step_known; [done|]. intros e [<-|[]]. by eapply (wi_rows _ Hi).
Qed.

Lemma recoverable_case limit r :
  op_step w (Op_recoverable_commands limit) r w' ->
  step_ok w t w' (gives (Op_recoverable_commands limit) r t) /\
  assumes (Op_recoverable_commands limit) r (gives (Op_recoverable_commands limit) r t).
Proof.
  simpl. intros [-> Hr]. assert (step_ok w t w t) as Hs by by apply benign_step.
  destruct r as [l|e]; [|split; [done|]; split; [by eapply tokens_ok_valid | done]].
  destruct Hr as [Hr|]; [|done].
  destruct (load_recoverable_commands (w_db w) limit) as [l'|] eqn:Hl; [|done].
  injection Hr as ->. apply recoverable_terminal in Hl as [Hterm Hrows]; [|apply Hi].
  assert (step_ok w t w (add_known (map ca_envelope l') t)) as Hs'.
  { apply step_known; [done|]. intros e He. apply in_map_iff in He as (c & <- & Hc).
    destruct (Hrows c Hc) as (id & row & Hrow & <-). by eapply (wi_rows _ Hi). }
  split; [done|]. split; [|done]. destruct Hs' as (? & ? & _). by eapply tokens_ok_valid.
Qed.
End Cases.

(** The response of an operation fits what its program assumes. *)
Lemma op_preserves w op r w' t :
  world_inv w -> tokens_ok w t -> needs op t -> op_step w op r w' ->
  step_ok w t w' (gives op r t) /\ assumes op r (gives op r t).
Proof.
  intros Hi Ht Hn Hop.
  assert (forall t', step_ok w t w' t' -> step_ok w t w' t' /\ tokens_valid t') as Hvalid.
  { intros t' Hs. split; [done|]. destruct Hs as (Hi' & Ht' & _). by eapply tokens_ok_valid. }
  assert (benign w w' -> step_ok w t w' t) as Hben by (intros; by apply benign_step).
  destruct op; try (apply recoverable_case; done); apply Hvalid;
    try (apply Hben; by eapply read_benign); try (apply Hben; simpl in Hop; by subst).
  - by apply create_case.
  - by apply command_case.
  - eapply move_case; [done..| |done|exact Hop]. intros db u Hm%unit_write_ok.
    by eapply transition_moved.
  - apply Hben. destruct Hop as [-> | ->]; by split.
  - destruct Hn as (c & Hd & He). simpl in Hop. subst. by apply send_step.
  - simpl in Hop. destruct (CommandLimits.try_acquire _ _ _ _ _). destruct Hop as [_ ->].
    apply Hben. by split.
  - by apply slot_case.
  - by eapply replace_case.
  - eapply move_case; [done..| |done|exact Hop]. intros db u Hm%unit_write_ok.
    apply record_dispatch_ok in Hm as (_ & Hm & Hs). done.
  - eapply write_benign; [done..| |exact Hop]. intros db u Hm%unit_write_ok.
    by eapply create_authorization_ok.
  - by apply authorize_case.
  - destruct Hop as [Hf ->]. by apply issue_step.
Qed.

(** ** The invariant of the running system *)

Section Running.
Context (service : CommandService) (Hsafe : safe_service service).

Lemma call_program_wp call t : svc_wp (call_program service call) t done.
Proof.
  destruct call; apply svc_bind; (eapply svc_mono; [|by intros ? ? _]).
  - by apply svc_execute.
  - apply (svc_get _ _ _ done). by intros.
  - apply svc_list_commands.
  - apply svc_audit_page.
  - apply svc_cancel.
  - by apply svc_recover.
  - by apply svc_approve_unlock.
Qed.

Definition sys_inv (s : System) : Prop :=
  world_inv (sy_world s) /\ exists toks, tasks_ok needs gives assumes tokens_ok apart (sy_world s) (sy_tasks s) toks.

Lemma no_tokens_ok w : tokens_ok w no_tokens.
Proof. split; simpl; try done; set_solver. Qed.

Lemma no_tokens_apart t : apart t no_tokens.
Proof. split; [set_solver | by right]. Qed.

(** Removed commands stay removed, and nothing else depends on them. *)
Lemma retain_inv w policy db outcome :
  world_inv w -> retain_commands (w_db w) policy = Ok (db, outcome) -> world_inv (with_db w db).
Proof.
  intros Hi (Hsub & Haud & Hslots & _ & _)%retain_commands_ok.
  assert (forall id row, db_commands db !! id = Some row ->
    db_commands (w_db w) !! id = Some row) as Hl by (intros; by eapply lookup_weaken).
  split; unfold sent_ids, commit_ids; simpl; rewrite ?Hslots; try apply Hi.
  - eapply removed_inv; [apply Hi | done..].
  - intros id row Hr%Hl. by eapply (wi_rows _ Hi).
  - intros r Hr. apply (wi_audit _ Hi). rewrite <- list_elem_of_In in *.
    eapply elem_of_submseteq; [exact Hr | by apply sublist_submseteq].
  - intros c Hc. destruct (wi_commits _ Hi c Hc) as (? & ? & Hpre). split; [done|].
    split; [done|]. intros row Hr%Hl. by apply Hpre.
Qed.

Lemma sys_step_inv retention s s' :
  sys_inv s -> sys_step service retention s s' -> sys_inv s'.
Proof.
  intros [Hw [toks Hk]] Hs. destruct Hs; simpl in *; (split; simpl).
  - done.
  - exists (toks ++ [no_tokens]).
    apply tasks_ok_spawn; auto using apart_sym, no_tokens_ok, no_tokens_apart. apply call_program_wp.
  - destruct (tasks_ok_head _ _ _ _ _ _ _ _ _ _ _ Hk H1) as (t & Ht & Hok & Hn & Hr).
    by destruct (op_preserves w op r w' t Hw Hok Hn H2) as [(Hi' & _ & _) _].
  - destruct (tasks_ok_head _ _ _ _ _ _ _ _ _ _ _ Hk H1) as (t & Ht & Hok & Hn & Hr).
    destruct (op_preserves w op r w' t Hw Hok Hn H2) as [(_ & Ht' & Hu) Has].
    exists (<[i := gives op r t]> toks). eapply tasks_ok_insert; eauto using apart_sym.
  - eapply benign_inv; [exact Hw|]. by split.
  - eapply tasks_ok_drop; eauto using apart_sym, no_tokens_ok, no_tokens_apart.
    intros u Hu. eapply benign_tokens; [exact Hu | by split].
  - eapply benign_inv; [exact Hw|]. by split.
  - exists []. apply tasks_ok_nil.
  - eapply benign_inv; [exact Hw|]. by split.
  - exists toks. eapply tasks_ok_world; [exact Hk|]. intros u Hu.
    eapply benign_tokens; [exact Hu | by split].
  - eapply benign_inv; [exact Hw|]. destruct H1. by split.
  - exists toks. eapply tasks_ok_world; [exact Hk|]. intros u Hu.
    eapply benign_tokens; [exact Hu|]. destruct H1. by split.
  - by eapply retain_inv.
  - exists toks. eapply tasks_ok_world; [exact Hk|]. intros u Hu. by split; apply Hu.
Qed.

Lemma initial_inv s : initial s -> sys_inv s.
Proof.
  intros (Hc & Ha & Hs & Hd & Hcr & Hco & Ht). split; [|exists []].
  - split; unfold sent_ids, commit_ids; rewrite ?Hc, ?Ha, ?Hs, ?Hd, ?Hcr, ?Hco; simpl;
      try done; try constructor; try (intros; by rewrite lookup_empty in * ).
    all: by apply db_inv_empty.
  - rewrite Ht. apply tasks_ok_nil.
Qed.

Lemma reachable_inv retention s : reachable service retention s -> sys_inv s.
Proof. induction 1; [by apply initial_inv | by eapply sys_step_inv]. Qed.

(** ** The whole audit log *)

(** What one operation does to the command log. *)
Lemma op_log_effect w op r w' :
  op_step w op r w' ->
  (exists m, moved (w_db w) (w_db w') m) \/
  (exists c h a row, created (w_db w) c h a (w_db w') row).
Proof.
  assert (forall m w0, w_db (note_moved m w0) = w_db w0) as Hnote
    by (intros m w0; unfold note_moved; by case_match).
  assert (w_db w' = w_db w -> exists m, moved (w_db w) (w_db w') m) as Hsame
    by (intros ->; exists None; by constructor).
  destruct op; simpl; intros Hop;
    try (left; apply Hsame; destruct Hop as [-> _]; done);
    try (left; apply Hsame; subst; done).
  - destruct Hop as [[-> _]|Hw]; [left; by apply Hsame|].
    destruct (create_command (w_db w) command hash audit) as [[db o]|e] eqn:Hc;
      [|left; apply Hsame; by destruct Hw as [-> _]].
    destruct Hw as [-> _]. apply create_command_ok in Hc as [[-> [row Hrow]]|(-> & id & row & _ & Ho)].
    + right. by exists command, hash, audit, row.
    + left. apply Hsame. rewrite Ho. by destruct (String.eqb _ _).
  - destruct Hop as [[-> _]|Hw]; [left; by apply Hsame|]. left.
    destruct (unit_write _) as [[db u]|e] eqn:Hm; [|apply Hsame; by destruct Hw as [-> _]].
    destruct Hw as [-> _]. apply unit_write_ok in Hm. rewrite Hnote.
    exists (Some command). by apply transition_moved in Hm as [Hm _].
  - left. apply Hsame. by destruct Hop as [-> | ->].
  - destruct (CommandLimits.try_acquire _ _ _ _ _). destruct Hop as [_ ->]. left. by apply Hsame.
  - destruct Hop as [[-> _]|Hw]; [left; by apply Hsame|]. left.
    destruct (replace_matter_desired_state _ _) as [[db o]|e] eqn:Hm;
      [|apply Hsame; by destruct Hw as [-> _]].
    destruct Hw as [-> _]. apply replace_matter_desired_state_ok in Hm as (_ & m & Hm & _). by exists m.
  - destruct Hop as [[-> _]|Hw]; [left; by apply Hsame|]. left.
    destruct (unit_write _) as [[db u]|e] eqn:Hm; [|apply Hsame; by destruct Hw as [-> _]].
    destruct Hw as [-> _]. apply unit_write_ok, record_dispatch_ok in Hm as (_ & Hm & _).
    rewrite Hnote. by eexists.
  - destruct Hop as [[-> _]|Hw]; [left; by apply Hsame|]. left.
    destruct (unit_write _) as [[db u]|e] eqn:Hm; [|apply Hsame; by destruct Hw as [-> _]].
    destruct Hw as [-> _]. apply unit_write_ok, create_authorization_ok in Hm as [Hm _].
    exists None. by constructor.
  - destruct Hop as [[-> _]|Hw]; [left; by apply Hsame|]. left.
    destruct (authorize_and_record_unlock_dispatch _ _ _) as [[db o]|e] eqn:Hm;
      [|apply Hsame; by destruct Hw as [-> _]].
    destruct Hw as [-> _]. apply authorize_dispatch_ok in Hm as [(-> & _ & Hm & _)|(Hne & ->)].
    + rewrite Hnote. by eexists.
    + apply Hsame. by destruct o.
  - left. apply Hsame. by destruct Hop as [_ ->].
Qed.

Lemma reachable_complete s : reachable service false s -> audit_complete (w_db (sy_world s)).
Proof.
  induction 1 as [s Hinit|s s' Hr IH Hstep].
  - destruct Hinit as (Hc & _). intros id row n. by rewrite Hc, lookup_empty.
  - pose proof (reachable_inv _ _ Hr) as [Hw _]. pose proof (wi_db _ Hw) as Hdb.
    destruct Hstep as [| w tasks i op k r w' _ Hop | | | | w tasks db Hf | w tasks policy db o He _];
      simpl in *; try done.
    + destruct (op_log_effect _ _ _ _ Hop) as [[m Hm]|(c & h & a & row & Hc)].
      * by eapply moved_complete.
      * by eapply created_complete.
    + destruct Hf as [Hs _]. by eapply same_commands_complete.
Qed.

End Running.
End System.
