(* ===== verification/CommandFixture.v ===== *)
(** A fault-free scheduler of the command system, for concrete runs (every
    operation takes the branch in which the infrastructure works, the adapter
    answers with [adapter], the device with [device] and the clock with [clock]),
    and the small installation the witnesses run in: a user with full grants, a
    lamp, and a lock that a Matter projection owns. *)

From S2P Require Import Prelude Text BTree Json Capability Lifecycle Device Command Policy MatterState CommandStore MatterStore Effects CommandService MatterCommands CommandLog DispatchTokens CommandSystem.

Section Exec.
Context `{SerdeJson} `{RequestDigest}.
Context (config : CommandLimitConfig).
Context (adapter : CommandEnvelope -> result AdapterAcknowledgement CommandFailure)
  (device : CommandAggregate -> CommandConfirmationOutcome) (clock : Instant).

Definition answered {A : Type} (w : World) (m : result (Db * A) StorageError)
  (note : A -> World -> World) : result A BoxError * World :=
  match m with
  | Ok (db, a) => (Ok a, note a (with_db w db))
  | Err e => (Err (Be_Storage e), w)
  end.

Definition exec_op (op : CmdOp) (w : World) : cmd_resp op * World :=
  match op with
  | Op_load => (Ok (w_foundation w), w)
  | Op_create_command c hash record =>
      answered w (create_command (w_db w) c hash record)
        (fun o => match o with Created c => note_created c | _ => silent o end)
  | Op_command id => (Ok (load_command (w_db w) id), w)
  | Op_actor_commands actor_id limit => (Ok (load_actor_commands (w_db w) actor_id limit), w)
  | Op_command_audit id after limit =>
      (map_err Be_Storage (load_command_audit (w_db w) id after limit), w)
  | Op_recoverable_commands limit =>
      (map_err Be_Storage (load_recoverable_commands (w_db w) limit), w)
  | Op_transition_command c version record =>
      answered w (unit_write (transition_command (w_db w) c version record))
        (fun _ => note_moved c)
  | Op_actor_security id => (Ok (load_actor_security (w_db w) id), w)
  | Op_publish record => (Ok tt, published w record)
  | Op_dispatch envelope => (adapter envelope, sent w envelope)
  | Op_confirm c => (Ok (device c), w)
  | Op_try_acquire actor_id device_id now =>
      let '(capacities, limits) :=
        CommandLimits.try_acquire config (w_limits w) actor_id device_id now in
      (capacities, with_limits w limits)
  | Op_release device_id =>
      (tt, with_limits w (CommandLimits.release (w_limits w) device_id))
  | Op_request_hash id => (map_err Be_Storage (command_request_hash (w_db w) id), w)
  | Op_projection_for_target device_id endpoint_id schema =>
      (Ok (matter_projection_for_target (w_db w) device_id endpoint_id schema), w)
  | Op_desired_slot id => (map_err Be_Storage (matter_desired_slot (w_db w) id), w)
  | Op_replace_desired_state write =>
      answered w (replace_matter_desired_state (w_db w) write) silent
  | Op_record_dispatch write =>
      answered w (unit_write (record_dispatch (w_db w) write))
        (fun _ => note_moved (pw_command write))
  | Op_create_authorization authorization =>
      answered w (unit_write (create_authorization (w_db w) authorization)) silent
  | Op_authorize_dispatch id write =>
      answered w (authorize_and_record_unlock_dispatch (w_db w) id write)
        (fun o => match o with Uc_Consumed => note_moved (pw_command write) | _ => silent o end)
  | Op_now => (clock, w)
  | Op_new_uuid => let id := fresh (w_issued w) in (id, issued w id)
  end.

Lemma answered_step {A} w (m : result (Db * A) StorageError) note :
  write_step w m note (answered w m note).1 (answered w m note).2.
Proof. right. destruct m as [[db a]|e]; simpl; auto. Qed.

Lemma exec_op_step op w : op_step config w op (exec_op op w).1 (exec_op op w).2.
Proof.
  destruct op; simpl; try (split; [done | by left]); try done; try apply answered_step; auto.
  - by destruct (CommandLimits.try_acquire _ _ _ _ _).
  - split; [apply is_fresh | done].
Qed.

(** Task [i] runs alone for at most [fuel] operations. *)
Fixpoint run_task (fuel : nat) (i : nat) (s : System) : System :=
  match fuel with
  | O => s
  | S fuel =>
      match sy_tasks s !! i with
      | Some (Io op k) =>
          let '(r, w) := exec_op op (sy_world s) in
          run_task fuel i (mk_system w (<[i := k r]> (sy_tasks s)))
      | _ => s
      end
  end.

Definition start_call (service : CommandService) (call : ApiCall) (s : System) : System :=
  mk_system (sy_world s) (sy_tasks s ++ [call_program service call]).

Lemma run_task_reachable service retention fuel i s :
  reachable config service retention s -> reachable config service retention (run_task fuel i s).
Proof.
  revert s. induction fuel as [|fuel IH]; intros s Hs; simpl; [done|].
  destruct (sy_tasks s !! i) as [[?|op k]|] eqn:Ht; try done.
  pose proof (exec_op_step op (sy_world s)) as Hop. destruct (exec_op op (sy_world s)) as [r w].
  apply IH. eapply Reach_step; [exact Hs|]. destruct s as [w0 tasks].
  by apply Sys_op with (op := op).
Qed.

Lemma start_call_reachable service retention call s :
  reachable config service retention s ->
  reachable config service retention (start_call service call s).
Proof. intros Hs. eapply Reach_step; [exact Hs|]. destruct s. apply Sys_call. Qed.

End Exec.

#[local] Existing Instance integer_json.

(** A digest that depends on the payload alone. *)
Definition fixture_digest : RequestDigest.
Proof.
  refine {| request_digest := fun '(_, _, _, payload, _, _, _) =>
    Some (repeat (match payload with Pl_OnOff (Oo_Set true) => 17%N | Pl_OnOff _ => 18%N
                  | Pl_AccessControl Ac_Lock => 19%N | _ => 20%N end) 32) |}.
  - intros [[[[[[? ?] ?] ?] ?] ?] ?] d [= <-]. reflexivity.
  - intros [[[[[[? ?] ?] ?] ?] ?] ?] d [= <-]. apply List.Forall_forall.
    intros byte Hin. destruct Hin as [<-|Hin]; [by repeat case_match|].
    by repeat (destruct Hin as [<-|Hin]; [by repeat case_match|]).
Defined.
#[local] Existing Instance fixture_digest.

Definition now0 : Instant := delta_seconds 1000.

Definition alice : Actor := mk_actor "alice" "home" Ak_User "Alice" true 0.

Definition all_actions : gset CommandAction :=
  list_to_set [Act_Validate; Act_Execute; Act_Cancel; Act_ReadAudit; Act_ApproveUnlock].

Definition house_grant : ActorGrant :=
  mk_grant "g1" "alice" all_actions (Scope_Installation "home") Risk_Mechanical true.
Definition lock_grant : ActorGrant :=
  mk_grant "g2" "alice" all_actions (Scope_Capability "lock" "door" "access_control.v1")
    Risk_Security true.

Definition lamp_snapshot : DeviceSnapshot :=
  mk_snapshot "lamp" "n1" "shelly" "Lamp" "M" "X" []
    [mk_endpoint "main" None [Snapshot_OnOff false Risk_Comfort]] now0 [].
Definition lock_snapshot : DeviceSnapshot :=
  mk_snapshot "lock" "n2" "matter" "Lock" "M" "Y" []
    [mk_endpoint "door" None [Snapshot_AccessControl (Some true)]] now0 [].

Definition record_of (snapshot : DeviceSnapshot) : DeviceRecord :=
  mk_device "home" "integration" snapshot Enrolled (mk_availability Av_Online 0 None)
    (mk_timestamps 0 now0 (Some now0)) ∅ ∅ (descriptors snapshot).

Definition lock_projection : StoredMatterProjection :=
  mk_projection "home" "fabric" 7 1 "projection" "lock" "door" "access_control.v1" 1
    (mk_projected "projection" None None None Mf_Fresh Mc_NoDesiredState None) 1 0.

Definition db0 : Db :=
  mk_db {["home"%string]}
    {["alice"%string := mk_actor_row "home" true 0 alice]}
    ∅ {["g1"%string := house_grant; "g2"%string := lock_grant]}
    {["lamp"%string := "home"%string; "lock"%string := "home"%string]}
    {[("lamp"%string, "main"%string); ("lock"%string, "door"%string)]}
    ∅ [] 1 {[("fabric"%string, 7%N, 1%N)]}
    {["projection"%string := mk_projection_row "home" 1 true lock_projection]}
    ∅ ∅ ∅.

Definition foundation0 : FoundationSnapshot :=
  mk_foundation [] [] [] [record_of lamp_snapshot; record_of lock_snapshot] [] [] None.

Definition world0 : World :=
  mk_world db0 foundation0 (mk_limit_state ∅ ∅) [] [] ∅ [] [].

Definition system0 : System := mk_system world0 [].

Definition service0 : CommandService := mk_service FreshnessPolicy.default (Some matter_control).

Definition request (device endpoint : string) (payload : CommandPayload) (key : string)
  (dry_run : bool) : CommandRequest :=
  mk_request device endpoint payload (mk_key key) (now0 + delta_seconds 30) None dry_run
    "correlation" None None.

Definition lamp_on : CommandRequest := request "lamp" "main" (Pl_OnOff (Oo_Set true)) "k1" false.
Definition lock_now : CommandRequest :=
  request "lock" "door" (Pl_AccessControl Ac_Lock) "k2" false.
Definition unlock_now : CommandRequest :=
  request "lock" "door" (Pl_AccessControl Ac_Unlock) "k3" false.

Definition acknowledge (_ : CommandEnvelope) : result AdapterAcknowledgement CommandFailure :=
  Ok (mk_ack now0 "ok").
Definition pending (_ : CommandAggregate) : CommandConfirmationOutcome := Co_Pending.

Definition run_call (call : ApiCall) (s : System) : System :=
  run_task CommandLimitConfig.default acknowledge pending now0 200 (length (sy_tasks s))
    (start_call service0 call s).

(** Alice switches the lamp twice with one key, locks the door and asks to
    unlock it; the last command awaits its authorization. *)
Definition demo : System :=
  run_call (Call_execute alice unlock_now now0)
    (run_call (Call_execute alice lock_now now0)
      (run_call (Call_execute alice lamp_on now0)
        (run_call (Call_execute alice lamp_on now0) system0))).

Lemma system0_initial : initial system0.
Proof. by repeat split. Qed.

Lemma service0_safe : safe_service service0.
Proof. exact matter_control_safe. Qed.

Lemma run_call_reachable retention call s :
  reachable CommandLimitConfig.default service0 retention s ->
  reachable CommandLimitConfig.default service0 retention (run_call call s).
Proof. intros Hs. by apply run_task_reachable, start_call_reachable. Qed.

Lemma demo_reachable retention : reachable CommandLimitConfig.default service0 retention demo.
Proof. unfold demo. do 4 apply run_call_reachable. apply Reach_start, system0_initial. Qed.

(** What the run did: two commands left the process, the second request was a
    replay, and the unlock still waits. *)
Example demo_outcome :
  (map (fun e => (ce_device_id e, ce_payload e)) (w_dispatched (sy_world demo)),
   map (fun kv => (ce_device_id (ca_envelope (cm_payload kv.2)), ca_state (cm_payload kv.2)))
     (map_to_list (db_commands (w_db (sy_world demo)))),
   length (db_audit (w_db (sy_world demo)))) =
  ([("lock"%string, Pl_AccessControl Ac_Lock); ("lamp"%string, Pl_OnOff (Oo_Set true))],
   [("lock"%string, Cs_Acknowledged); ("lock"%string, Cs_Validated);
    ("lamp"%string, Cs_Acknowledged)], 10).
Proof. vm_compute. reflexivity. Qed.
