(* ===== verification/CommandProps.v ===== *)
(** The properties of the governed command path, proved from the invariant of
    the running system, the command log and the bounds of its programs; and the
    canonical request hash: lower-case hexadecimal text that the contract and the
    table constraint accept, from which the digest can be read back. *)

From S2P Require Import Prelude Text BTree Json Capability Lifecycle Device Command Policy MatterState CommandStore MatterStore Effects CommandService MatterCommands CommandCost CommandLog DispatchTokens CommandSystem CommandFixture.

Section Hash.
Context `{SerdeJson} `{RequestDigest}.

Definition digest_of (actor : Actor) (request : CommandRequest) : option (list N) :=
  request_digest (ac_id actor, rq_device_id request, rq_endpoint_id request,
    rq_payload request, rq_deadline request, rq_expected request, rq_dry_run request).

(** Canonical request hash.  Hashing fails only when the request cannot be
    serialised.  Otherwise the text satisfies the contract's constructor and the
    CHECK of its column, and the digest can be read back from it, so two requests
    share a hash exactly when they share a digest. *)
Theorem canonical_hash_faithful actor request :
  match digest_of actor request with
  | None => canonical_hash actor request = Err Cse_CanonicalSerialization
  | Some digest => exists hash, canonical_hash actor request = Ok hash /\
      CanonicalRequestHash.new (hash_text hash) = Ok hash /\
      request_hash_check (hash_text hash) = true /\ unhex (hash_text hash) = digest /\
      forall actor' request', canonical_hash actor' request' = Ok hash <->
        digest_of actor' request' = Some digest
  end.
Proof.
  assert (forall digest actor request, digest_of actor request = Some digest ->
    CanonicalRequestHash.new (hex digest) = Ok (mk_hash (hex digest)) /\
    String.length (hex digest) = 64 /\ Forall (fun b => (b < 256)%N) digest) as Hnew.
  { intros digest a r Hd. pose proof (request_digest_length _ _ Hd) as Hlen.
    pose proof (request_digest_bytes _ _ Hd) as Hb. destruct (hex_bytes _ Hb) as [H1' H2'].
    assert (String.length (hex digest) = 64) as Hl by (rewrite hex_length, Hlen; reflexivity).
    split; [|done]. unfold CanonicalRequestHash.new. by rewrite Hl, H1', H2'. }
  assert (forall a r, canonical_hash a r = match digest_of a r with
    | None => Err Cse_CanonicalSerialization
    | Some digest => Ok (mk_hash (hex digest)) end) as Hhash.
  { intros a r. unfold canonical_hash. fold (digest_of a r).
    destruct (digest_of a r) as [digest|] eqn:Hd; [|done].
    destruct (Hnew _ _ _ Hd) as [-> _]. done. }
  rewrite Hhash. destruct (digest_of actor request) as [digest|] eqn:Hd; [|done].
  destruct (Hnew _ _ _ Hd) as (Hn & Hl & Hb). exists (mk_hash (hex digest)).
  split; [done|]. split; [done|]. split; [|split; [by apply unhex_hex|]].
  - unfold request_hash_check. cbn [hash_text]. rewrite Hl, hex_lower by done. apply String.eqb_refl.
  - intros a r. rewrite Hhash. destruct (digest_of a r) as [d|] eqn:Hd'; [|done].
    destruct (Hnew _ _ _ Hd') as (_ & _ & Hb'). split; [|by intros [= ->]].
    intros [= Heq]. by rewrite <- (unhex_hex d Hb'), Heq, unhex_hex.
Qed.
End Hash.

Section Props.
Context `{SerdeJson} `{RequestDigest}.

(** C1: At most once.  Whatever calls run, interleave, fail, are dropped or are
    replayed after crashes, no command is sent to a device twice. *)
Theorem dispatch_at_most_once config service retention s :
  safe_service service -> reachable config service retention s ->
  NoDup (map ce_id (w_dispatched (sy_world s))).
Proof. intros Hsafe Hr. apply (wi_sent_once _ (proj1 (reachable_inv _ _ Hsafe _ _ Hr))). Qed.

(** C2: Authorised dispatch.  Every envelope sent to a device is the envelope of
    an aggregate that was durably moved to dispatched before: under an allowed
    policy decision, before its deadline, and not as a dry run; its stored
    command, while it is retained, has left the states before the dispatch. *)
Theorem dispatch_authorised config service retention s e :
  safe_service service -> reachable config service retention s ->
  In e (w_dispatched (sy_world s)) ->
  exists c, In c (w_commits (sy_world s)) /\ ca_envelope c = e /\
    ca_state c = Cs_Dispatched /\ is_allowed (ca_policy c) = true /\
    (ca_updated_at c < ce_deadline e)%Z /\ ce_dry_run e = false /\
    forall stored, load_command (w_db (sy_world s)) (ce_id e) = Some stored ->
      ca_envelope stored = e /\ is_pre_dispatch (ca_state stored) = false.
Proof.
  intros Hsafe Hr He. pose proof (proj1 (reachable_inv _ _ Hsafe _ _ Hr)) as Hi.
  destruct (wi_sent _ Hi e He) as (c & Hc & <-).
  destruct (wi_commits _ Hi c Hc) as ((Hs & Hp & Hd & Hdry) & Hin & Hpre).
  exists c. repeat (split; [done|]). intros stored Hl. unfold load_command in Hl.
  apply fmap_Some in Hl as (row & Hrow & ->). split; [|by apply Hpre].
  eapply created_unique; [exact Hi | by eapply (wi_rows _ Hi) | exact Hin |].
  apply (ro_id _ _ (di_rows _ (wi_db _ Hi) _ _ Hrow)).
Qed.

(** C3: Complete audit.  In every reachable state without retention, the audit
    page of a stored command is the whole legal path of its lifecycle, from the
    receipt to its current state, one record per version. *)
Theorem audit_page_complete config service s id row limit :
  safe_service service -> reachable config service false s ->
  db_commands (w_db (sy_world s)) !! id = Some row -> 5 <= limit ->
  exists page, load_command_audit (w_db (sy_world s)) id None limit = Ok page /\
    legal_path None page (ca_state (cm_payload row)) /\
    N.of_nat (length page) = (ca_version (cm_payload row) + 1)%N.
Proof.
  intros Hsafe Hr Hl Hlim. pose proof (wi_db _ (proj1 (reachable_inv _ _ Hsafe _ _ Hr))) as Hi.
  pose proof (reachable_complete _ _ Hsafe _ Hr) as Hcomp.
  exists (map ax_payload (command_rows (w_db (sy_world s)) id)).
  split; [by eapply load_command_audit_all|]. rewrite length_map. by apply audit_page_path.
Qed.

(** C4: Idempotent receipt.  When the key of an actor is in use, receiving
    another command under it changes nothing: it answers with the stored command
    as it is now if the canonical request is the same, and with a conflict that
    names it otherwise. *)
Theorem create_command_replay config service retention s id row c h a :
  safe_service service -> reachable config service retention s ->
  db_commands (w_db (sy_world s)) !! id = Some row ->
  ce_actor_id (ca_envelope (cm_payload row)) = ce_actor_id (ca_envelope c) ->
  ce_idempotency_key (ca_envelope (cm_payload row)) = ce_idempotency_key (ca_envelope c) ->
  create_command (w_db (sy_world s)) c h a =
    Ok (w_db (sy_world s),
        if String.eqb (cm_request_hash row) (hash_text h)
        then ExistingEquivalent (cm_payload row) else Conflict id).
Proof.
  intros Hsafe Hr Hl Ha Hk. pose proof (wi_db _ (proj1 (reachable_inv _ _ Hsafe _ _ Hr))) as Hi.
  pose proof (di_rows _ Hi _ _ Hl) as Hrow. unfold create_command.
  assert (find_by_key (db_commands (w_db (sy_world s))) (ce_actor_id (ca_envelope c))
    (key_text (ce_idempotency_key (ca_envelope c))) = Some (id, row)) as ->;
    [|by rewrite (ro_id _ _ Hrow)].
  destruct (find_by_key _ _ _) as [[id' row']|] eqn:Hf.
  - apply find_some in Hf as [Hin Hh]. apply list_elem_of_In, elem_of_map_to_list in Hin.
    apply andb_true_iff in Hh as [Ha' Hk']. apply String.eqb_eq in Ha', Hk'. simpl in *.
    assert (id' = id) as ->; [|by simplify_eq].
    eapply (di_keys _ Hi); [exact Hin | exact Hl | |].
    + by rewrite Ha', (ro_actor _ _ Hrow).
    + by rewrite Hk', (ro_key _ _ Hrow), Hk.
  - exfalso. eapply (find_by_key_none _ _ _ Hf id row Hl).
    + by rewrite (ro_actor _ _ Hrow).
    + by rewrite (ro_key _ _ Hrow), Hk.
Qed.

(** C5: Dry runs.  Executing a dry run performs neither a physical dispatch nor
    a durable move to dispatched, whatever its operations answer. *)
Theorem dry_run_never_dispatches service actor request now :
  rq_dry_run request = true ->
  all_ops no_dispatch (execute service actor request now) (fun _ => True).
Proof. apply quiet_execute_dry. Qed.

(** Recovery.  A command that was already dispatched when the process
    stopped is only confirmed, timed out or failed by recovery, never sent
    again. *)
Theorem recovery_never_redispatches service c now :
  ca_state c = Cs_Dispatched \/ ca_state c = Cs_Acknowledged ->
  all_ops no_dispatch (recover_one service c now) (fun _ => True).
Proof. apply quiet_recover_sent. Qed.

(** C7: Termination.  With the Matter control, every public call of the service
    ends after a bounded number of operations, whatever they answer; a recovery
    after one operation and 62 for every command of its page, when the page has at
    most the 256 commands that were asked for, as the pages of the store have. *)
Theorem calls_terminate freshness actor request id after limit now :
  let service := mk_service freshness (Some matter_control) in
  bounded 65 (execute service actor request now) /\
  bounded 1 (get (ac_id actor) id) /\
  bounded 1 (list_commands (ac_id actor) limit) /\
  bounded 2 (audit_page (ac_id actor) id after limit) /\
  bounded 4 (cancel (ac_id actor) id now) /\
  bounded 34 (approve_unlock service actor id now) /\
  bounded_under paged (1 + RECOVERY_PAGE * 62) (recover service now) /\
  (forall db, paged (Op_recoverable_commands RECOVERY_PAGE)
     (map_err Be_Storage (load_recoverable_commands db RECOVERY_PAGE))).
Proof.
  intros service. assert (forall control, svc_dispatch_control service = Some control ->
    BoundedControl control 20) as Hc by (intros control [= <-]; apply matter_control_bounded).
  split; [exact (bounded_execute service 20 Hc actor request now)|].
  split; [apply bounded_get|]. split; [apply bounded_list_commands|]. split; [apply bounded_audit_page|].
  split; [apply bounded_cancel|].
  split; [exact (bounded_approve service 20 Hc actor id now)|].
  split; [exact (bounded_recover service 20 Hc now)|].
  intros db. apply recoverable_paged.
Qed.

End Props.

(** ** Witnesses *)

#[local] Existing Instance integer_json.
#[local] Existing Instance fixture_digest.

Lemma dispatch_at_most_once_witness :
  length (w_dispatched (sy_world demo)) = 2 /\ NoDup (map ce_id (w_dispatched (sy_world demo))).
Proof.
  split; [vm_compute; reflexivity|].
  exact (dispatch_at_most_once _ _ true demo service0_safe (demo_reachable true)).
Defined.

Definition demo_sent : CommandEnvelope :=
  match w_dispatched (sy_world demo) with
  | e :: _ => e
  | [] => mk_envelope "" "" "" "" (mk_descriptor "" 1 Risk_Observe) (Pl_OnOff Oo_Toggle)
            (mk_key "") 0 None true "" None None 0
  end.

Lemma demo_sent_in : In demo_sent (w_dispatched (sy_world demo)).
Proof.
  assert (length (w_dispatched (sy_world demo)) = 2) as Hlen by (vm_compute; reflexivity).
  unfold demo_sent. destruct (w_dispatched (sy_world demo)); [discriminate | by left].
Qed.

Lemma dispatch_authorised_witness :
  exists c, In c (w_commits (sy_world demo)) /\ ca_envelope c = demo_sent /\
    ca_state c = Cs_Dispatched /\ is_allowed (ca_policy c) = true /\
    (ca_updated_at c < ce_deadline demo_sent)%Z /\ ce_dry_run demo_sent = false /\
    forall stored, load_command (w_db (sy_world demo)) (ce_id demo_sent) = Some stored ->
      ca_envelope stored = demo_sent /\ is_pre_dispatch (ca_state stored) = false.
Proof.
  exact (dispatch_authorised _ _ true demo demo_sent service0_safe (demo_reachable true) demo_sent_in).
Defined.

Definition demo_row : string * CommandRow :=
  match map_to_list (db_commands (w_db (sy_world demo))) with
  | kv :: _ => kv
  | [] => (""%string, mk_command_row "" "" "" "" "" Cs_Received 0 false 0 0
            (CommandAggregate.received demo_sent))
  end.

Lemma demo_row_stored : db_commands (w_db (sy_world demo)) !! demo_row.1 = Some demo_row.2.
Proof. vm_compute. reflexivity. Qed.

Lemma audit_page_complete_witness :
  exists page, load_command_audit (w_db (sy_world demo)) demo_row.1 None 10 = Ok page /\
    legal_path None page (ca_state (cm_payload demo_row.2)) /\
    N.of_nat (length page) = (ca_version (cm_payload demo_row.2) + 1)%N.
Proof.
  apply (audit_page_complete _ _ demo demo_row.1 demo_row.2 10 service0_safe
           (demo_reachable false) demo_row_stored). lia.
Defined.

Lemma create_command_replay_witness :
  create_command (w_db (sy_world demo)) (cm_payload demo_row.2) (mk_hash "other")
    (mk_audit "" "" 0 None Cs_Received "" None None None None "" None 0) =
  Ok (w_db (sy_world demo), Conflict demo_row.1).
Proof.
  rewrite (create_command_replay _ _ true demo demo_row.1 demo_row.2 (cm_payload demo_row.2)
    (mk_hash "other") _ service0_safe (demo_reachable true) demo_row_stored eq_refl eq_refl).
  vm_compute. reflexivity.
Defined.

Lemma dry_run_never_dispatches_witness :
  all_ops no_dispatch
    (execute service0 alice (request "lamp" "main" (Pl_OnOff (Oo_Set true)) "dry" true) now0)
    (fun _ => True).
Proof.
  exact (dry_run_never_dispatches service0 alice
           (request "lamp" "main" (Pl_OnOff (Oo_Set true)) "dry" true) now0 eq_refl).
Defined.

Lemma recovery_never_redispatches_witness :
  all_ops no_dispatch (recover_one service0 (cm_payload demo_row.2) now0) (fun _ => True).
Proof.
  refine (recovery_never_redispatches service0 (cm_payload demo_row.2) now0 (or_intror _)).
  vm_compute. reflexivity.
Defined.
