(* ===== verification/MatterProps.v ===== *)
(** Properties of the Matter desired-state coordination: the movement of the
    projected state, the single and bound use of an unlock authorization, and the
    desired slot that a cancelled command leaves behind. *)

From S2P Require Import Prelude Text BTree Json Capability Lifecycle Device Command Policy MatterState CommandStore MatterStore Effects CommandService MatterCommands CommandLog DispatchTokens CommandSystem CommandFixture.

(** ** Movement of the projected state *)

(** Projected state.  Each move of a well-formed state returns a
    well-formed one: a new desire is pending and keeps the report, staleness
    keeps desire and report, and a report confirms exactly when it carries the
    desired value under the desired revision. *)
Theorem projected_moves s desired reported causation uncertainty :
  projected_wf s -> MatterStateValue.validate (md_value desired) = Ok tt ->
  (forall c, mp_confirmed_revision s = Some c -> (rev_get c <= rev_get (md_revision desired))%N) ->
  (exists s', advance_matter_desired_state s desired = Ok s' /\ projected_wf s' /\
     mp_desired s' = Some desired /\ mp_reported s' = mp_reported s /\
     mp_convergence s' = Mc_Pending) /\
  (exists s', mark_matter_projection_stale s uncertainty = Ok s' /\ projected_wf s' /\
     mp_desired s' = mp_desired s /\ mp_reported s' = mp_reported s /\
     mp_freshness s' = Mf_Stale /\
     (mp_desired s <> None -> mp_convergence s' <> Mc_Confirmed)) /\
  (exists s', advance_matter_projected_state s reported causation = Ok s' /\ projected_wf s' /\
     mp_desired s' = mp_desired s /\ mp_reported s' = Some reported /\
     mp_freshness s' = Mf_Fresh /\ mp_uncertainty s' = None /\
     (mp_convergence s' = Mc_Confirmed <->
      exists d, mp_desired s = Some d /\ md_value d = mr_value reported /\
        rc_desired_revision causation = Some (rev_get (md_revision d)))).
Proof.
  intros Hwf Hv Hrev. destruct s as [id d r c f v u]. simpl in *.
  pose proof Hwf as (Hd & Hc & Hn). simpl in *. split; [|split].
  - eexists. split; [by apply projected_new_total; repeat split|]. by repeat split.
  - unfold mark_matter_projection_stale. simpl.
    destruct v, d as [d|]; simpl; try (by specialize (Hn eq_refl));
      (eexists; split; [apply projected_new_total|]; simpl);
      repeat split; simpl; try done; naive_solver.
  - unfold advance_matter_projected_state. simpl. destruct d as [d|].
    + destruct Hd as [Hvd Hle].
      case_bool_decide as H1; simpl; [case_bool_decide as H2; simpl|];
        (eexists; split; [apply projected_new_total|]; simpl);
        repeat split; simpl; try done; naive_solver lia.
    + eexists. split; [by apply projected_new_total|]. simpl. split; [by split|]. naive_solver.
Qed.

(** ** Unlock authorizations *)

(** The evidence an unlock is dispatched under: a stored authorization that is
    unused and in time, bound to the validated unlock command, its request hash,
    target and projection with fresh state; the current slot and revision; the
    latest policy decision; and an approver who is an enabled user with a grant
    for exactly this capability. *)
Record unlock_evidence (db : Db) (id : MatterUnlockAuthorizationId) (write : MatterDispatchWrite)
  (row : UnlockRow) (command : CommandAggregate) (projection : StoredMatterProjection) : Prop := {
  ue_stored : db_unlocks db !! id = Some row;
  ue_unused : ul_consumed_at row = None;
  ue_in_time : (pw_dispatched_at write < ul_expires_at row)%Z;
  ue_command : load_command db (ul_command_id row) = Some command;
  ue_same_command : ul_command_id row = ce_id (ca_envelope (pw_command write));
  ue_validated : ca_state command = Cs_Validated;
  ue_unlocks : ce_payload (ca_envelope command) = Pl_AccessControl Ac_Unlock;
  ue_version : ca_version command = pw_expected_version write;
  ue_hash : exists c, db_commands db !! ul_command_id row = Some c /\
    cm_request_hash c = ul_request_hash row;
  ue_target : ul_device_id row = ce_device_id (ca_envelope (pw_command write)) /\
    ul_endpoint_id row = ce_endpoint_id (ca_envelope (pw_command write)) /\
    ul_capability_schema row = "access_control.v1"%string /\ ul_action row = "unlock"%string;
  ue_projection : load_projection db (ul_projection_id row) = Some projection;
  ue_same_projection : ul_projection_id row = pw_projection_id write;
  ue_fresh : mp_freshness (sp_state projection) = Mf_Fresh;
  ue_slot : exists slot, db_slots db !! ul_projection_id row = Some slot /\
    sl_command_id slot = ul_command_id row /\ sl_dispatched_at slot = None /\
    sl_desired_revision slot = ul_desired_revision row;
  ue_policy : exists record decision, latest_audit db (ul_command_id row) = Some record /\
    au_policy record = Some decision /\ pd_allowed decision = true /\
    Z.of_N (pd_policy_version decision) = ul_policy_revision row;
  ue_approver : exists actor grant_id grant, db_actors db !! ul_approver row = Some actor /\
    ac_enabled (ar_payload actor) = true /\ ac_kind (ar_payload actor) = Ak_User /\
    db_grants db !! grant_id = Some grant /\ ag_actor_id grant = ul_approver row /\
    ag_enabled grant = true /\ Act_ApproveUnlock ∈ ag_actions grant /\
    RiskClass.permits (ag_maximum_risk grant) Risk_Security = true /\
    ag_scope grant = Scope_Capability (ul_device_id row) (ul_endpoint_id row)
                       (ul_capability_schema row)
}.

Lemma to_u64_ok z n : to_u64 z = Ok n -> Z.of_N n = z.
Proof.
  unfold to_u64, u64_try_from_i64. intros Hz%ok_or_ok. case_match; [|discriminate].
  injection Hz as <-. bool_inv. lia.
Qed.

Lemma is_unlock_scope_ok a scope :
  is_unlock_scope a scope = true ->
  scope = Scope_Capability (ua_device_id a) (ua_endpoint_id a) (ua_capability_schema a).
Proof. unfold is_unlock_scope. intros Hs. destruct scope; try discriminate. bool_inv. congruence. Qed.

Lemma exact_unlock_grant db a :
  actor_has_exact_unlock_grant db a = true ->
  exists actor grant_id grant, db_actors db !! ua_approving_actor_id a = Some actor /\
    ac_enabled (ar_payload actor) = true /\ ac_kind (ar_payload actor) = Ak_User /\
    db_grants db !! grant_id = Some grant /\ ag_actor_id grant = ua_approving_actor_id a /\
    ag_enabled grant = true /\ Act_ApproveUnlock ∈ ag_actions grant /\
    RiskClass.permits (ag_maximum_risk grant) Risk_Security = true /\
    ag_scope grant = Scope_Capability (ua_device_id a) (ua_endpoint_id a) (ua_capability_schema a).
Proof.
  unfold actor_has_exact_unlock_grant. intros Hg.
  destruct (db_actors db !! _) as [row|]; [|discriminate].
  apply andb_true_iff in Hg as [Hu Hg]. apply existsb_exists in Hg as ([gid g] & Hin & Hg).
  apply list_elem_of_In, elem_of_map_to_list in Hin. bool_inv.
  exists row, gid, g. repeat (split; [done|]). by apply is_unlock_scope_ok.
Qed.

Lemma slot_matches_ok db a :
  current_slot_matches db a = Ok true ->
  exists slot, db_slots db !! ua_projection_id a = Some slot /\
    sl_command_id slot = ua_command_id a /\ sl_dispatched_at slot = None /\
    sl_desired_revision slot = Z.of_N (ua_desired_revision a).
Proof.
  unfold current_slot_matches. intros Hs.
  destruct (db_slots db !! _) as [[revision id [d|] u]|] eqn:Hslot; try discriminate.
  destruct (String.eqb id _) eqn:Hid; [|discriminate].
  apply result_bind_ok in Hs as (n & <-%to_u64_ok & Hs). injection Hs as Hs. bool_inv.
  eexists. split; [done|]. simpl. by rewrite Hs.
Qed.

Lemma policy_matches_ok db a :
  command_policy_matches db a = true ->
  exists record decision, latest_audit db (ua_command_id a) = Some record /\
    au_policy record = Some decision /\ pd_allowed decision = true /\
    pd_policy_version decision = ua_policy_revision a.
Proof.
  unfold command_policy_matches. intros Hp.
  destruct (latest_audit _ _) as [record|]; [|discriminate].
  destruct (au_policy record) as [d|] eqn:Hd; [|discriminate]. bool_inv. eauto 10.
Qed.

Lemma unlock_dispatch_evidence db id write db' :
  authorize_and_record_unlock_dispatch db id write = Ok (db', Uc_Consumed) ->
  (exists row command projection, unlock_evidence db id write row command projection) /\
  exists db1, claim db id (pw_dispatched_at write) = Some db1 /\ record_dispatch db1 write = Ok db'.
Proof.
  unfold authorize_and_record_unlock_dispatch. intros Ha.
  destruct (db_unlocks db !! id) as [row|] eqn:Hrow; [|discriminate].
  destruct (bool_decide (is_Some (ul_consumed_at row))) eqn:Hused; [discriminate|].
  destruct (Z.leb (ul_expires_at row) _) eqn:Htime; [discriminate|]. cbn zeta in Ha.
  apply result_bind_ok in Ha as (command & Hcommand%ok_or_ok & Ha).
  apply result_bind_ok in Ha as (projection & Hprojection%ok_or_ok & Ha).
  apply result_bind_ok in Ha as (c & Hc%ok_or_ok & Ha).
  apply result_bind_ok in Ha as (authorization & Hauth & Ha).
  destruct (unlock_binding_matches _ _ _ _ _) eqn:Hbind; [|discriminate].
  apply result_bind_ok in Ha as (slot_matches & Hslot & Ha).
  destruct (slot_matches && _ && _) eqn:Hok; [|discriminate].
  apply andb_true_iff in Hok as [[-> Hpolicy]%andb_true_iff Hgrant].
  destruct (claim db id _) as [db1|] eqn:Hclaim; [|discriminate].
  apply result_bind_ok in Ha as (db2 & Hrecord & [= <-]). split; [|by exists db1].
  exists row, command, projection. unfold unlock_binding_matches in Hbind. bool_inv.
  unfold stored_authorization in Hauth.
  apply result_bind_ok in Hauth as (hash & _ & Hauth).
  apply result_bind_ok in Hauth as (revision & Hrev%to_u64_ok & Hauth).
  apply result_bind_ok in Hauth as (policy & Hpol%to_u64_ok & [= <-]).
  apply slot_matches_ok in Hslot. apply policy_matches_ok in Hpolicy as (r & d & Hr & Hd & Had & Hv).
  apply exact_unlock_grant in Hgrant. simpl in *.
  assert (Hid : ul_command_id row = ce_id (ca_envelope (pw_command write))) by done.
  assert (Hpid : ul_projection_id row = pw_projection_id write) by done.
  split; rewrite ?Hid, ?Hpid; try done; try lia.
  - by apply eq_None_not_Some.
  - exists c. split; [done|]. congruence.
  - by rewrite <- Hrev.
  - exists r, d. repeat (split; [done|]). by rewrite Hv.
  - destruct Hgrant as (actor & gid & g & Hg). exists actor, gid, g.
    by repeat match goal with H : ul_device_id row = _ |- _ => rewrite H
      | H : ul_endpoint_id row = _ |- _ => rewrite H end.
Qed.

(** C10: Authorised and single unlock.  A dispatch that consumes an unlock
    authorization rests on the whole evidence, moves exactly that command to
    dispatched, marks the slot dispatched and the authorization used; and an
    authorization that is marked used never dispatches again. *)
Theorem unlock_dispatch_authorised db id write db' :
  authorize_and_record_unlock_dispatch db id write = Ok (db', Uc_Consumed) ->
  exists row command projection, unlock_evidence db id write row command projection /\
    load_command db' (ul_command_id row) = Some (pw_command write) /\
    ca_state (pw_command write) = Cs_Dispatched /\
    ca_envelope (pw_command write) = ca_envelope command /\
    (exists slot, db_slots db' !! ul_projection_id row = Some slot /\
       sl_dispatched_at slot = Some (pw_dispatched_at write)) /\
    db_unlocks db' !! id = Some (consume row (pw_dispatched_at write)) /\
    forall later write', db_unlocks later !! id = db_unlocks db' !! id ->
      authorize_and_record_unlock_dispatch later id write' = Ok (later, Uc_AlreadyConsumed).
Proof.
  intros Ha. apply unlock_dispatch_evidence in Ha as ((row & command & projection & He) & db1 & Hc & Hr).
  exists row, command, projection. split; [done|].
  apply claim_ok in Hc as ((Hcommands & _) & Hslots & row' & Hrow' & _ & _ & Hunlocks).
  rewrite (ue_stored _ _ _ _ _ _ He) in Hrow'. injection Hrow' as <-.
  pose proof (ue_same_command _ _ _ _ _ _ He) as Hid. pose proof (ue_same_projection _ _ _ _ _ _ He) as Hpid.
  unfold record_dispatch in Hr. cbn zeta in Hr. rewrite <- Hid, <- Hpid in Hr.
  case_match eqn:Hs; [|discriminate]. apply bool_decide_eq_true in Hs.
  destruct (db_slots db1 !! _) as [[r c [d|] u]|]; try discriminate.
  case_match; [|discriminate]. apply result_bind_ok in Hr as (db2 & Ht & [= <-]).
  apply transition_command_ok in Ht as (current & Ht). pose proof (tr_desired _ _ _ _ _ _ Ht) as (_ & Hu & _ & _).
  assert (db_unlocks db2 !! id = Some (consume row (pw_dispatched_at write))) as Hused
    by by rewrite Hu, Hunlocks, lookup_insert_eq.
  split; [|split; [done|split; [|split; [|split; [done|]]]]].
  - unfold load_command. simpl. by rewrite (tr_commands _ _ _ _ _ _ Ht), <- Hid, lookup_insert_eq.
  - pose proof (tr_row _ _ _ _ _ _ Ht) as Hrow. rewrite Hcommands, <- Hid in Hrow.
    pose proof (ue_command _ _ _ _ _ _ He) as Hcmd. unfold load_command in Hcmd.
    rewrite Hrow in Hcmd. injection Hcmd as <-. apply (validate_transition_ok _ _ _ (tr_valid _ _ _ _ _ _ Ht)).
  - eexists. split; [apply lookup_insert_eq | done].
  - intros later write' Hl. unfold authorize_and_record_unlock_dispatch. simpl in Hl. by rewrite Hl, Hused.
Qed.


(** ** The desired slot of a cancelled command *)

(** The slot of projection [p] still names the undispatched command [id], which
    has ended. *)
Definition abandoned (db : Db) (p : MatterProjectionId) (id : CommandId) : Prop :=
  (exists slot, db_slots db !! p = Some slot /\ sl_command_id slot = id /\
     sl_dispatched_at slot = None) /\
  exists row, db_commands db !! id = Some row /\
    CommandState.is_terminal (ca_state (cm_payload row)) = true.

(** An ended command is never moved again. *)
Lemma moved_ended db db' m id row :
  moved db db' m -> db_commands db !! id = Some row ->
  CommandState.is_terminal (ca_state (cm_payload row)) = true ->
  db_commands db' !! id = Some row.
Proof.
  intros [(_ & -> & _)|(c & a & row0 & row' & _ & Hrow & Hv & _ & -> & _)]%moved_rows Hl Ht; [done|].
  destruct (decide (command_id c = id)) as [<-|Hne]; [|by rewrite lookup_insert_ne].
  exfalso. rewrite Hrow in Hl. injection Hl as ->.
  apply validate_transition_ok in Hv as (_ & _ & Ha & _). by rewrite terminal_no_transition in Ha.
Qed.

Lemma abandoned_moved db db' m p id :
  abandoned db p id -> moved db db' m -> db_slots db' !! p = db_slots db !! p ->
  abandoned db' p id.
Proof.
  intros [Hs (row & Hrow & Ht)] Hm Hp. split; [by rewrite Hp|]. exists row. split; [|done].
  by eapply moved_ended.
Qed.

Lemma no_transition_of_ended db c v a db' row :
  db_commands db !! ce_id (ca_envelope c) = Some row ->
  CommandState.is_terminal (ca_state (cm_payload row)) = true ->
  transition_command db c v a <> Ok db'.
Proof.
  intros Hrow Ht (row' & Htr)%transition_command_ok.
  rewrite (tr_row _ _ _ _ _ _ Htr) in Hrow. injection Hrow as ->.
  destruct (validate_transition_ok _ _ _ (tr_valid _ _ _ _ _ _ Htr)) as (_ & _ & Ha & _).
  by rewrite terminal_no_transition in Ha.
Qed.

(** No registration replaces the abandoned slot. *)
Lemma replace_abandoned_slot db slot superseded db' outcome p id :
  abandoned db p id -> replace_desired_slot db slot superseded = Ok (db', outcome) ->
  ms_projection_id slot <> p.
Proof.
  intros [(row & Hp & Hid & Hd) (c & Hc & Ht)] Hr <-. unfold replace_desired_slot in Hr.
  case_match; [discriminate|]. apply result_bind_ok in Hr as (projection & _ & Hr).
  apply result_bind_ok in Hr as (command & Hcommand & Hr).
  apply result_bind_ok in Hr as (u & _ & Hr).
  destruct (is_pre_dispatch (ca_state command)) eqn:Hpre; [|discriminate].
  rewrite Hp in Hr. apply result_bind_ok in Hr as ([db1 o1] & Hr & _).
  apply result_bind_ok in Hr as (revision & _ & Hr). case_match; [|discriminate].
  rewrite Hid, Hd in Hr. destruct (String.eqb id (ms_command_id slot)) eqn:Heq; simpl in Hr.
  - apply String.eqb_eq in Heq. unfold load_command_required, load_command in Hcommand.
    rewrite <- Heq, Hc in Hcommand. injection Hcommand as <-. by destruct (ca_state (cm_payload c)).
  - apply result_bind_ok in Hr as ([db2 o2] & Hs & _). unfold supersede in Hs.
    destruct superseded as [s|]; [|discriminate]. case_match eqn:Hm; [|discriminate].
    bool_inv. apply result_bind_ok in Hs as (db3 & Htr & _).
    eapply no_transition_of_ended; [|exact Ht|exact Htr]. congruence.
Qed.

Lemma record_dispatch_slot db write db' p :
  record_dispatch db write = Ok db' ->
  db_slots db' !! p = db_slots db !! p \/
  (p = pw_projection_id write /\ exists db1 row,
     db_slots db !! p = Some row /\ sl_command_id row = ce_id (ca_envelope (pw_command write)) /\
     transition_command db (pw_command write) (pw_expected_version write) (pw_audit write) = Ok db1).
Proof.
  unfold record_dispatch. cbn zeta. intros Hr. case_match; [|discriminate].
  destruct (db_slots db !! pw_projection_id write) as [[r id [d|] u]|] eqn:Hrow; try discriminate.
  destruct (String.eqb id _) eqn:Hid; [|discriminate]. apply String.eqb_eq in Hid.
  apply result_bind_ok in Hr as (db1 & Ht & [= <-]).
  destruct (decide (p = pw_projection_id write)) as [->|Hne]; [right; eauto 10 | left].
  simpl. rewrite lookup_insert_ne by done. by erewrite transition_same_slots.
Qed.

(** A dispatch never is the one of the abandoned slot. *)
Lemma record_dispatch_abandoned db write db' p id :
  abandoned db p id -> record_dispatch db write = Ok db' -> abandoned db' p id.
Proof.
  intros Ha Hr. pose proof Hr as (_ & Hm & _)%record_dispatch_ok.
  apply (record_dispatch_slot _ _ _ p) in Hr as [Hs|(-> & db1 & row & Hrow & Hid & Ht)];
    [by eapply abandoned_moved|].
  exfalso. destruct Ha as [(slot & Hslot & Hsid & _) (c & Hc & Hend)].
  rewrite Hslot in Hrow. injection Hrow as ->.
  eapply no_transition_of_ended; [|exact Hend|exact Ht]. congruence.
Qed.

Lemma abandoned_same db db' p id :
  abandoned db p id -> same_commands db db' -> db_slots db' = db_slots db -> abandoned db' p id.
Proof. intros Ha Hc Hs. eapply abandoned_moved; [exact Ha | by constructor | by rewrite Hs]. Qed.

Lemma replace_state_abandoned db write db' outcome p id :
  abandoned db p id -> replace_matter_desired_state db write = Ok (db', outcome) ->
  abandoned db' p id.
Proof.
  intros Ha (db1 & Hr & Hsame & Hslots)%replace_matter_desired_state_split.
  pose proof (replace_abandoned_slot _ _ _ _ _ _ _ Ha Hr) as Hne.
  apply replace_desired_slot_ok in Hr as ((row & _ & Hrow) & m & Hm & _).
  eapply abandoned_same; [|exact Hsame|exact Hslots]. eapply abandoned_moved; [exact Ha|exact Hm|].
  by rewrite Hrow, lookup_insert_ne.
Qed.

Lemma create_abandoned db c h a db' row p id :
  abandoned db p id -> created db c h a db' row -> abandoned db' p id.
Proof.
  intros [Hs (row' & Hrow & Ht)] Hc. destruct (cr_desired _ _ _ _ _ _ Hc) as (Hslots & _).
  split; [by rewrite Hslots|]. exists row'. split; [|done].
  rewrite (cr_commands _ _ _ _ _ _ Hc), lookup_insert_ne; [done|]. intros Heq.
  rewrite <- Heq, (cr_id_free _ _ _ _ _ _ Hc) in Hrow. discriminate.
Qed.

Lemma authorize_abandoned db id write db' outcome p c :
  abandoned db p c -> authorize_and_record_unlock_dispatch db id write = Ok (db', outcome) ->
  abandoned db' p c.
Proof.
  intros Ha Hd. pose proof Hd as [(-> & _)|(_ & ->)]%authorize_dispatch_ok; [|done].
  apply unlock_dispatch_evidence in Hd as (_ & db1 & (Hsame & Hslots & _)%claim_ok & Hr).
  eapply record_dispatch_abandoned; [|exact Hr]. by eapply abandoned_same.
Qed.

(** Retention keeps the commands the slots reference. *)
Lemma retain_abandoned db policy db' outcome p id :
  abandoned db p id -> retain_commands db policy = Ok (db', outcome) -> abandoned db' p id.
Proof.
  intros [(slot & Hp & <- & Hd) (row & Hrow & Ht)]. unfold retain_commands. cbn zeta. intros Hr.
  destruct (forallb _ (map_to_list (db_slots db))) eqn:Hall; [|discriminate].
  injection Hr as <- _. split; [by exists slot|]. exists row. split; [|done]. cbn.
  rewrite forallb_forall in Hall. specialize (Hall (p, slot)).
  rewrite <- list_elem_of_In, elem_of_map_to_list, bool_decide_eq_true, elem_of_app in Hall.
  specialize (Hall Hp). simpl in Hall.
  apply map_lookup_filter_Some. split; [|by auto].
  apply map_lookup_filter_Some. split; [done|]. simpl. apply not_true_iff_false. intros He.
  apply Hall. left. apply list_elem_of_fmap. exists (sl_command_id slot, row). split; [done|].
  apply list_elem_of_In, filter_In. split; [|done]. by apply list_elem_of_In, elem_of_map_to_list.
Qed.

Section Abandoned.
Context `{SerdeJson} `{RequestDigest}.

Lemma write_abandoned {A} w (m : result (Db * A) StorageError) note r w' p id :
  (forall a w0, w_db (note a w0) = w_db w0) ->
  (forall db a, m = Ok (db, a) -> abandoned db p id) ->
  abandoned (w_db w) p id -> write_step w m note r w' -> abandoned (w_db w') p id.
Proof.
  intros Hn Hm Ha [[-> _]|Hw]; [done|]. destruct m as [[db a]|e]; destruct Hw as [-> _]; [|done].
  rewrite Hn. by eapply Hm.
Qed.

Lemma op_abandoned config w op r w' p id :
  op_step config w op r w' -> abandoned (w_db w) p id -> abandoned (w_db w') p id.
Proof.
  assert (forall m w0, w_db (note_moved m w0) = w_db w0) as Hnote
    by (intros m w0; unfold note_moved; by case_match).
  destruct op; simpl; intros Hop Ha; try (by destruct Hop as [-> _]); try (by subst);
    try (eapply write_abandoned; [| |exact Ha|exact Hop]; [try done|]; simpl).
  - intros o w0. by destruct o.
  - intros db o [[_ [row Hrow]]|(-> & _)]%create_command_ok; [|done]. by eapply create_abandoned.
  - intros _. apply Hnote.
  - intros db u Ht%unit_write_ok. pose proof Ht as [Hm _]%transition_moved.
    eapply abandoned_moved; [exact Ha|exact Hm|]. by erewrite transition_same_slots.
  - by destruct Hop as [-> | ->].
  - destruct (CommandLimits.try_acquire _ _ _ _ _). by destruct Hop as [_ ->].
  - intros db o Hr. by eapply replace_state_abandoned.
  - intros _. apply Hnote.
  - intros db u Hr%unit_write_ok. by eapply record_dispatch_abandoned.
  - intros db u [Hs1 Hs2]%unit_write_ok%create_authorization_ok. by eapply abandoned_same.
  - intros o w0. destruct o; simpl; rewrite ?Hnote; done.
  - intros db o Hr. by eapply authorize_abandoned.
  - by destruct Hop as [_ ->].
Qed.

(** A step of the system that keeps the row of the slot of [p]. *)
Definition keeps_slot config (service : CommandService) (retention : bool) (p : MatterProjectionId)
  (s s' : System) : Prop :=
  sys_step config service retention s s' /\ is_Some (db_slots (w_db (sy_world s')) !! p).

Lemma step_abandoned config service retention p id s s' :
  keeps_slot config service retention p s s' ->
  abandoned (w_db (sy_world s)) p id -> abandoned (w_db (sy_world s')) p id.
Proof.
  intros [Hs [slot Hslot]] Ha. destruct Hs; simpl in *; try done.
  - by eapply op_abandoned.
  - destruct H1 as [Hsame Hsub]. eapply abandoned_moved; [exact Ha | by constructor|].
    pose proof (lookup_weaken _ _ _ _ Hslot Hsub) as Hp. by rewrite Hp.
  - by eapply retain_abandoned.
Qed.

(** C11: A blocked lock.  When a command ends before its dispatch while it holds
    the desired slot of a projection (a pending unlock that is cancelled or times
    out), the slot stays as it is for as long as its row exists, whatever runs,
    and every later registration of a desired state of that projection fails. *)
Theorem abandoned_slot_blocks config service retention p id s s' :
  abandoned (w_db (sy_world s)) p id ->
  rtc (keeps_slot config service retention p) s s' ->
  abandoned (w_db (sy_world s')) p id /\
  forall write, ms_projection_id (dw_slot write) = p ->
    exists e, replace_matter_desired_state (w_db (sy_world s')) write = Err e.
Proof.
  intros Ha Hsteps. assert (abandoned (w_db (sy_world s')) p id) as Ha'.
  { induction Hsteps; [done|]. apply IHHsteps. by eapply step_abandoned. }
  split; [done|]. intros write Hp.
  destruct (replace_matter_desired_state _ write) as [[db o]|e] eqn:Hr; [|eauto]. exfalso.
  apply replace_matter_desired_state_split in Hr as (db1 & Hr & _).
  exact (replace_abandoned_slot _ _ _ _ _ _ _ Ha' Hr Hp).
Qed.
End Abandoned.

(** ** Witnesses *)

#[local] Existing Instance integer_json.
#[local] Existing Instance fixture_digest.

Lemma run_task_keeps config adapter device clock service retention fuel i p id s :
  abandoned (w_db (sy_world s)) p id ->
  rtc (keeps_slot config service retention p) s (run_task config adapter device clock fuel i s).
Proof.
  revert s. induction fuel as [|fuel IH]; intros s Ha; simpl; [done|].
  destruct (sy_tasks s !! i) as [[?|op k]|] eqn:Ht; try done.
  pose proof (exec_op_step config adapter device clock op (sy_world s)) as Hop.
  destruct (exec_op _ _ _ _ op (sy_world s)) as [r w].
  pose proof (op_abandoned _ _ _ _ _ _ _ Hop Ha) as Ha'.
  eapply rtc_l; [|by apply IH]. split; [|by destruct Ha' as [(slot & Hs & _) _]].
  destruct s as [w0 tasks]. by apply Sys_op with (op := op).
Qed.

Lemma run_call_keeps retention call p id s :
  abandoned (w_db (sy_world s)) p id ->
  rtc (keeps_slot CommandLimitConfig.default service0 retention p) s (run_call call s).
Proof.
  intros Ha. eapply rtc_l; [|by eapply run_task_keeps]. split.
  - destruct s. apply Sys_call.
  - by destruct Ha as [(slot & Hs & _) _].
Qed.

(** The pending unlock of the demonstration. *)
Definition demo_db : Db := w_db (sy_world demo).

Definition pending_unlock : CommandAggregate :=
  match List.find (fun kv => bool_decide (ca_state (cm_payload kv.2) = Cs_Validated))
          (map_to_list (db_commands demo_db)) with
  | Some kv => cm_payload kv.2
  | None => CommandAggregate.received
      (mk_envelope "" "" "" "" (mk_descriptor "" 1 Risk_Observe) (Pl_OnOff Oo_Toggle)
         (mk_key "") 0 None true "" None None 0)
  end.

Definition pending_id : CommandId := ce_id (ca_envelope pending_unlock).

(** It is cancelled; then Alice asks to lock the door. *)
Definition demo_cancelled : System := run_call (Call_cancel "alice" pending_id now0) demo.
Definition demo_blocked : System :=
  run_call (Call_execute alice (request "lock" "door" (Pl_AccessControl Ac_Lock) "k4" false) now0)
    demo_cancelled.

Definition ended_slot (db : Db) (p : MatterProjectionId) (id : CommandId) : bool :=
  match db_slots db !! p, db_commands db !! id with
  | Some slot, Some row =>
      String.eqb (sl_command_id slot) id && bool_decide (sl_dispatched_at slot = None)
      && CommandState.is_terminal (ca_state (cm_payload row))
  | _, _ => false
  end.

Lemma ended_slot_abandoned db p id : ended_slot db p id = true -> abandoned db p id.
Proof.
  unfold ended_slot. intros He. destruct (db_slots db !! p) as [slot|] eqn:Hs; [|discriminate].
  destruct (db_commands db !! id) as [row|] eqn:Hr; [|discriminate]. bool_inv.
  split; [by exists slot | by exists row].
Qed.

Lemma demo_abandoned : abandoned (w_db (sy_world demo_cancelled)) "projection" pending_id.
Proof. apply ended_slot_abandoned. vm_compute. reflexivity. Qed.

Lemma demo_keeps :
  rtc (keeps_slot CommandLimitConfig.default service0 true "projection")
    demo_cancelled demo_blocked.
Proof. unfold demo_blocked. apply (run_call_keeps true _ _ pending_id), demo_abandoned. Qed.

(** The request to lock the door was validated and never left the process. *)
Lemma abandoned_slot_blocks_witness :
  (map (fun kv => ca_state (cm_payload kv.2)) (map_to_list (db_commands (w_db (sy_world demo_blocked)))),
   length (w_dispatched (sy_world demo_blocked))) =
    ([Cs_Acknowledged; Cs_Validated; Cs_Cancelled; Cs_Acknowledged], 2) /\
  abandoned (w_db (sy_world demo_blocked)) "projection" pending_id /\
  forall write, ms_projection_id (dw_slot write) = "projection"%string ->
    exists e, replace_matter_desired_state (w_db (sy_world demo_blocked)) write = Err e.
Proof.
  split; [vm_compute; reflexivity|].
  exact (abandoned_slot_blocks CommandLimitConfig.default service0 true "projection" pending_id
           demo_cancelled demo_blocked demo_abandoned demo_keeps).
Defined.

(** The authorization and the write of an approval by Alice. *)
Definition demo_authorization : MatterUnlockAuthorization :=
  mk_authorization "authorization" pending_id
    (mk_hash (match db_commands demo_db !! pending_id with Some row => cm_request_hash row | None => "" end))
    "alice" "alice" "projection" "lock" "door" "access_control.v1" Ac_Unlock 2
    (match ca_policy pending_unlock with Some d => pd_policy_version d | None => 0%N end)
    now0 (now0 + delta_seconds 20) None.

Definition demo_authorized : Db :=
  match create_authorization demo_db demo_authorization with Ok db => db | Err _ => demo_db end.

Definition demo_write : MatterDispatchWrite :=
  let c := match CommandAggregate.transition pending_unlock Cs_Dispatched now0 with
           | Ok c => c | Err _ => pending_unlock end in
  mk_dispatch_write "projection" c (ca_version pending_unlock)
    (mk_audit "record" pending_id (ca_version c) (Some Cs_Validated) Cs_Dispatched "alice"
       (ca_policy c) None None None "correlation" None now0) now0.

Definition consumed_db (r : result (Db * MatterUnlockConsumption) StorageError) : option Db :=
  match r with Ok (db, Uc_Consumed) => Some db | _ => None end.

Lemma consumed_db_ok r db : consumed_db r = Some db -> r = Ok (db, Uc_Consumed).
Proof. destruct r as [[? []]|]; simpl; congruence. Qed.

Lemma demo_consumes :
  exists db, consumed_db (authorize_and_record_unlock_dispatch demo_authorized "authorization"
                            demo_write) = Some db.
Proof. eexists. vm_compute. reflexivity. Qed.

Lemma unlock_dispatch_authorised_witness :
  exists db row command projection,
    authorize_and_record_unlock_dispatch demo_authorized "authorization" demo_write =
      Ok (db, Uc_Consumed) /\
    unlock_evidence demo_authorized "authorization" demo_write row command projection /\
    authorize_and_record_unlock_dispatch db "authorization" demo_write = Ok (db, Uc_AlreadyConsumed).
Proof.
  destruct demo_consumes as [db Hdb]. apply consumed_db_ok in Hdb.
  destruct (unlock_dispatch_authorised _ _ _ _ Hdb)
    as (row & command & projection & He & _ & _ & _ & _ & _ & Hagain).
  exists db, row, command, projection. split; [exact Hdb|]. split; [exact He|].
  by apply Hagain.
Defined.

(** A lock that is asked to unlock, reports open and loses its subscription. *)
Definition unlocking : MatterDesiredState := mk_desired (mk_revision 2) (Mv_Lock Ml_Unlocked) now0.
Definition opened : MatterReportedState :=
  mk_reported (Mv_Lock Ml_Unlocked) None 1 now0 now0.
Definition locked_state : MatterProjectedState :=
  mk_projected "projection" (Some (mk_desired (mk_revision 1) (Mv_Lock Ml_Locked) now0)) None
    (Some (mk_revision 1)) Mf_Fresh Mc_Confirmed None.

Lemma projected_moves_witness :
  exists s', advance_matter_desired_state locked_state unlocking = Ok s' /\
    mp_convergence s' = Mc_Pending.
Proof.
  destruct (projected_moves locked_state unlocking opened (mk_report_causation (Some 2%N))
    Mu_SubscriptionLost) as [(s' & Hs & _ & _ & _ & Hc) _].
  - repeat split; simpl; try done. by intros c [= <-].
  - reflexivity.
  - simpl. intros c [= <-]. simpl. lia.
  - by exists s'.
Defined.
