(* ===== verification/DomainProps.v ===== *)
(** Properties of the domain values: the merge of partial observations, the
    freshness timeline, the chronology of a device and the lifecycle of a
    command. *)

From S2P Require Import Prelude Text BTree Json Capability Lifecycle Device Command CommandFixture.

(** ** Observations *)

Section Merge.
Context `{SerdeJson}.

(** Observation merge.  Merging a patch for the same target gives every
    field its latest value, the patch winning ties; it reports exactly the fields
    whose value changed; it takes the patch's provenance exactly when one did;
    and merging the patch again changes nothing. *)
Theorem merge_partial_latest self patch merged changed :
  List.NoDup (bkeys (co_values patch)) ->
  merge_partial self patch = Ok (merged, changed) ->
  (forall k, bget k (co_values merged) = newer (bget k (co_values self)) (bget k (co_values patch))) /\
  (forall k, In k changed <-> bget k (co_values merged) <> bget k (co_values self)) /\
  (co_received_at self <= co_received_at merged)%Z /\
  co_source merged = (if bool_decide (changed = []) then co_source self else co_source patch) /\
  exists again, merge_partial merged patch = Ok (again, []) /\
    forall k, bget k (co_values again) = bget k (co_values merged).
Proof.
  intros Hnd Hm. unfold merge_partial in Hm. case_match eqn:Ht; [discriminate|].
  destruct (fold_left merge_field (co_values patch) (co_values self, [])) as [values fields] eqn:Hf.
  pose proof (fun k => merge_fold_lookup (co_values patch) (co_values self) [] k Hnd) as Hl.
  pose proof (fun k => merge_fold_changed (co_values patch) (co_values self) [] k Hnd) as Hc.
  rewrite Hf in Hl, Hc. cbn [fst snd] in Hl, Hc.
  assert (co_values merged = values /\ changed = fields /\
    (co_received_at self <= co_received_at merged)%Z /\
    co_source merged = (if bool_decide (fields = []) then co_source self else co_source patch) /\
    co_device_id merged = co_device_id self /\ co_endpoint_id merged = co_endpoint_id self /\
    co_capability merged = co_capability self /\
    os_integration_id (co_source merged) = os_integration_id (co_source self))
    as (Hv & -> & Hr & Hs & Hd & He & Hcap & Hi).
  { bool_inv. case_bool_decide; injection Hm as <- <-; simpl; repeat split; try done; lia. }
  split; [by rewrite Hv|]. split; [|split; [done|split; [done|]]].
  { intros k. rewrite Hc, Hv, Hl. intuition. }
  unfold merge_partial. rewrite Hd, He, Hcap, Hi, Ht, Hv.
  destruct (fold_left merge_field (co_values patch) (values, [])) as [values' fields'] eqn:Hf'.
  pose proof (fun k => merge_fold_lookup (co_values patch) values [] k Hnd) as Hl'.
  pose proof (fun k => merge_fold_changed (co_values patch) values [] k Hnd) as Hc'.
  rewrite Hf' in Hl', Hc'. cbn [fst snd] in Hl', Hc'.
  assert (fields' = []) as ->.
  { destruct fields' as [|k fields']; [done|]. exfalso.
    destruct (proj1 (Hc' k)) as [[]|Hne]; [by left|]. apply Hne. rewrite Hl. apply newer_idemp. }
  rewrite bool_decide_true by done. eexists. split; [done|]. simpl.
  intros k. rewrite Hl', Hl. apply newer_idemp.
Qed.
End Merge.

(** ** Freshness *)

(** Freshness timeline.  Under an accepted policy a device that answered at
    [t] is fresh until the stale deadline, stale until the offline deadline and
    offline from then on, and these deadlines are the ones the scheduler is told. *)
Theorem freshness_timeline `{Chrono} stale_after offline_after p t availability now :
  FreshnessPolicy.new stale_after offline_after = Ok p -> availability <> Av_Sleeping ->
  let state := FreshnessPolicy.evaluate p (Some t) availability now in
  (state = Fr_Fresh <-> (now < t + delta_seconds stale_after)%Z) /\
  (state = Fr_Stale <->
   (t + delta_seconds stale_after <= now < t + delta_seconds offline_after)%Z) /\
  (state = Fr_Offline <-> (t + delta_seconds offline_after <= now)%Z) /\
  (forall s, FreshnessPolicy.stale_at p (Some t) = Some s ->
     FreshnessPolicy.evaluate p (Some t) availability s = Fr_Stale /\
     FreshnessPolicy.evaluate p (Some t) availability (s - 1) = Fr_Fresh) /\
  (forall o, FreshnessPolicy.offline_at p (Some t) = Some o ->
     FreshnessPolicy.evaluate p (Some t) availability o = Fr_Offline /\
     FreshnessPolicy.evaluate p (Some t) availability (o - 1) = Fr_Stale).
Proof.
  intros Hn Ha. pose proof (freshness_new_wf _ _ _ Hn) as Hwf. cbn zeta.
  assert (fp_stale_after_seconds p = stale_after /\ fp_offline_after_seconds p = offline_after) as [Hs Ho].
  { unfold FreshnessPolicy.new in Hn. case_match; [discriminate|]. by injection Hn as <-. }
  unfold FreshnessPolicy.wf in Hwf. rewrite Hs, Ho in Hwf. destruct Hwf as [Hpos Hlt].
  assert (delta_seconds 1 <= delta_seconds stale_after)%Z as Hd by (unfold delta_seconds, nanos_per_second; lia).
  assert (delta_seconds stale_after + delta_seconds 1 <= delta_seconds offline_after)%Z as Hd'
    by (unfold delta_seconds, nanos_per_second; lia).
  assert (1 <= delta_seconds 1)%Z as H1 by (vm_compute; discriminate).
  assert (forall n, FreshnessPolicy.evaluate p (Some t) availability n =
    if (t + delta_seconds offline_after <=? n)%Z then Fr_Offline
    else if (t + delta_seconds stale_after <=? n)%Z then Fr_Stale else Fr_Fresh) as He.
  { intros n. rewrite evaluate_thresholds, Hs, Ho; [done| |done]. split; [by rewrite Hs | by rewrite Hs, Ho]. }
  rewrite He. split; [|split; [|split]].
  1-3: destruct (Z.leb_spec (t + delta_seconds offline_after) now);
    [|destruct (Z.leb_spec (t + delta_seconds stale_after) now)];
    (split; [intros; try discriminate; lia | intros; first [done | lia]]).
  assert (forall s x, checked_add_signed t (delta_seconds x) = Some s -> s = (t + delta_seconds x)%Z) as Hc
    by (intros s x; apply checked_add_signed_exact).
  unfold FreshnessPolicy.stale_at, FreshnessPolicy.offline_at. rewrite Hs, Ho. cbn [option_bind mbind].
  split; intros x Hx; simpl in Hx; apply Hc in Hx as ->; rewrite !He; split;
    repeat match goal with |- context [(?a <=? ?b)%Z] => destruct (Z.leb_spec a b) end;
    first [done | lia].
Qed.

(** ** Device chronology *)

(** What the program reports of a device. *)
Inductive Sighting := Seen (at_ : Instant) | Succeeded (at_ : Instant).

Definition sight (ts : DeviceTimestamps) (s : Sighting) : result DeviceTimestamps TimestampError :=
  match s with
  | Seen at_ => DeviceTimestamps.record_seen ts at_
  | Succeeded at_ => DeviceTimestamps.record_success ts at_
  end.

Definition sighted_at (s : Sighting) : Instant := match s with Seen t | Succeeded t => t end.

(** A rejected sighting changes nothing. *)
Definition sight_all (ts : DeviceTimestamps) (l : list Sighting) : DeviceTimestamps :=
  fold_left (fun ts s => match sight ts s with Ok ts => ts | Err _ => ts end) l ts.

Definition successes (first : Instant) (l : list Sighting) : list Instant :=
  omap (fun s => match s with Succeeded t => if (first <=? t)%Z then Some t else None | Seen _ => None end) l.

(** The latest of the instants and of an earlier one. *)
Definition latest_of (current : option Instant) (l : list Instant) : option Instant :=
  match current, l with
  | None, [] => None
  | None, t :: l => Some (fold_left Z.max l t)
  | Some c, l => Some (fold_left Z.max l c)
  end.

Lemma latest_of_cons current t l :
  latest_of current (t :: l) =
  latest_of (Some (match current with None => t | Some c => Z.max c t end)) l.
Proof. by destruct current. Qed.

Lemma sight_step ts s :
  sight ts s =
    if (sighted_at s <? ts_first_seen ts)%Z
    then Err (mk_timestamp_error (ts_first_seen ts) (sighted_at s))
    else Ok (mk_timestamps (ts_first_seen ts) (Z.max (ts_last_seen ts) (sighted_at s))
               match s with
               | Seen _ => ts_last_success ts
               | Succeeded t => latest_of (ts_last_success ts) [t]
               end).
Proof.
  destruct s as [t|t]; simpl; unfold DeviceTimestamps.record_success, DeviceTimestamps.record_seen,
    DeviceTimestamps.validate; destruct (Z.ltb t (ts_first_seen ts)); simpl; try done.
  by destruct (ts_last_success ts).
Qed.

Lemma sight_all_latest l ts :
  (ts_first_seen ts <= ts_last_seen ts)%Z ->
  sight_all ts l = mk_timestamps (ts_first_seen ts)
    (fold_left Z.max (map sighted_at l) (ts_last_seen ts))
    (latest_of (ts_last_success ts) (successes (ts_first_seen ts) l)).
Proof.
  unfold sight_all. revert ts. induction l as [|s l IH]; intros ts Hts.
  { destruct ts as [f la [su|]]; reflexivity. }
  cbn [fold_left map]. rewrite sight_step. destruct (Z.ltb_spec (sighted_at s) (ts_first_seen ts)).
  - rewrite IH by done. rewrite (Z.max_l (ts_last_seen ts)) by lia. f_equal.
    unfold successes. simpl. destruct s as [t|t]; simpl in *; [done|].
    by rewrite (proj2 (Z.leb_gt _ _)) by lia.
  - rewrite IH by (simpl; lia). simpl. f_equal.
    unfold successes. simpl. destruct s as [t|t]; simpl in *; [done|].
    rewrite (proj2 (Z.leb_le _ _)) by lia. rewrite latest_of_cons. by destruct (ts_last_success ts).
Qed.

Lemma sight_all_wf l ts : DeviceTimestamps.wf ts -> DeviceTimestamps.wf (sight_all ts l).
Proof.
  unfold sight_all. revert ts. induction l as [|s l IH]; intros ts Hts; [done|].
  cbn [fold_left]. apply IH. rewrite sight_step.
  destruct (Z.ltb_spec (sighted_at s) (ts_first_seen ts)); [done|].
  destruct Hts as [H1 H2]. split; simpl; [lia|].
  destruct s as [t|t], (ts_last_success ts); simpl in *; lia.
Qed.

(** Device chronology.  Whatever is reported in whatever order, the first
    sighting is kept, the last one is the latest report, and the last success
    the latest success that is not before the first sighting. *)
Theorem device_chronology first l :
  let ts := sight_all (DeviceTimestamps.first_seen first) l in
  ts_first_seen ts = first /\
  ts_last_seen ts = fold_left Z.max (map sighted_at l) first /\
  ts_last_success ts = latest_of None (successes first l) /\
  DeviceTimestamps.wf ts.
Proof.
  cbn zeta. pose proof (sight_all_wf l (DeviceTimestamps.first_seen first)) as Hwf.
  rewrite sight_all_latest in * by (simpl; lia). split; [done|]. split; [done|]. split; [done|].
  apply Hwf. split; simpl; [lia | done].
Qed.

(** ** The command lifecycle *)

Fixpoint transitions (c : CommandAggregate) (steps : list (CommandState * Instant)) :
  result CommandAggregate CommandTransitionError :=
  match steps with
  | [] => Ok c
  | (next, at_) :: steps =>
      let? c := CommandAggregate.transition c next at_ in transitions c steps
  end.

Lemma transitions_rank steps c c' :
  transitions c steps = Ok c' ->
  ca_envelope c' = ca_envelope c /\
  (command_rank (ca_state c) + N.of_nat (length steps) <= command_rank (ca_state c'))%N /\
  (ca_version c + N.of_nat (length steps) <= u64_max ->
   ca_version c' = ca_version c + N.of_nat (length steps))%N.
Proof.
  revert c. induction steps as [|[next at_] steps IH]; intros c; simpl.
  { intros [= <-]. repeat split; lia. }
  intros (c1 & (Ha & He & Hs & Hv & _)%transition_ok & Ht)%result_bind_ok.
  destruct (IH _ Ht) as (He' & Hr & Hv'). apply allows_transition_rank in Ha. rewrite Hs in Hr.
  split; [congruence|]. split; [lia|]. intros Hmax.
  rewrite Hv in Hv'. unfold u64_saturating_add in Hv'. rewrite Hv'; lia.
Qed.

(** Command lifecycle.  From its receipt a command moves at most four
    times, each move counts one version and keeps the envelope, and it can move
    on exactly while its state is not terminal. *)
Theorem command_lifecycle envelope steps c :
  transitions (CommandAggregate.received envelope) steps = Ok c ->
  length steps <= 4 /\ ca_version c = N.of_nat (length steps) /\ ca_envelope c = envelope /\
  (CommandState.is_terminal (ca_state c) = true <->
   forall next at_, exists e, CommandAggregate.transition c next at_ = Err e).
Proof.
  intros Ht. destruct (transitions_rank _ _ _ Ht) as (He & Hr & Hv). simpl in *.
  assert (command_rank (ca_state c) <= 4)%N as H4 by (by destruct (ca_state c)).
  split; [lia|]. split; [rewrite Hv; [done | unfold u64_max; lia]|]. split; [done|].
  unfold CommandAggregate.transition. split.
  - intros Hend next at_. rewrite terminal_no_transition by done. eauto.
  - intros Hstuck. destruct (ca_state c) eqn:Hs; try done; exfalso;
      [destruct (Hstuck Cs_Cancelled 0%Z) | destruct (Hstuck Cs_Cancelled 0%Z)
      |destruct (Hstuck Cs_Failed 0%Z) | destruct (Hstuck Cs_Failed 0%Z)]; discriminate.
Qed.

(** ** Witnesses *)

#[local] Existing Instance integer_json.
#[local] Existing Instance ranged_chrono.

Definition meter (values : list (string * ObservedValue)) (received : Instant)
  (kind : ObservationSourceKind) : CapabilityObservation :=
  mk_observation "plug" "main" (mk_descriptor "power" 1 Risk_Observe) values received
    (mk_source "shelly" kind None).

Definition status : CapabilityObservation :=
  meter [("amperes"%string, mk_observed (JBool false) 10); ("watts"%string, mk_observed (JBool true) 20)]
    20 Src_FullStatus.
Definition notification : CapabilityObservation :=
  meter [("volts"%string, mk_observed JNull 30); ("watts"%string, mk_observed (JBool false) 15)]
    30 Src_Notification.

Lemma merge_partial_latest_witness :
  exists merged, merge_partial status notification = Ok (merged, ["volts"%string]) /\
    bget "watts" (co_values merged) = Some (mk_observed (JBool true) 20) /\
    exists again, merge_partial merged notification = Ok (again, []) /\
      forall k, bget k (co_values again) = bget k (co_values merged).
Proof.
  eexists. split; [vm_compute; reflexivity|]. split; [reflexivity|].
  apply (merge_partial_latest status notification _ ["volts"%string]); [|vm_compute; reflexivity].
  by apply NoDup_ListNoDup, (bool_decide_unpack (NoDup ["volts"%string; "watts"%string])).
Defined.

Lemma freshness_timeline_witness :
  FreshnessPolicy.evaluate (mk_freshness 120 300) (Some 0%Z) Av_Online (delta_seconds 120) = Fr_Stale.
Proof.
  destruct (freshness_timeline 120 300 (mk_freshness 120 300) 0 Av_Online (delta_seconds 120))
    as (_ & [_ Hstale] & _).
  - vm_compute. reflexivity.
  - discriminate.
  - apply Hstale. unfold delta_seconds, nanos_per_second. lia.
Defined.

Lemma command_lifecycle_witness :
  exists c, transitions (CommandAggregate.received (mk_envelope "c" "a" "d" "e"
      (mk_descriptor "on_off" 1 Risk_Comfort) (Pl_OnOff Oo_Toggle) (mk_key "k") 9 None false "x"
      None None 0)) [(Cs_Validated, 1%Z); (Cs_Dispatched, 2%Z); (Cs_Confirmed, 3%Z)] = Ok c /\
    ca_version c = 3%N /\ forall next at_, exists e, CommandAggregate.transition c next at_ = Err e.
Proof.
  eexists. split; [vm_compute; reflexivity|]. split; [reflexivity|].
  eapply (command_lifecycle _ [(Cs_Validated, 1%Z); (Cs_Dispatched, 2%Z); (Cs_Confirmed, 3%Z)]);
    vm_compute; reflexivity.
Defined.
