(* ===== verification/Automation.v ===== *)
(** Declarative automation contracts, [crates/homemagic-domain/src/automation.rs]:
    authored documents, normalized plans, lifecycle state machines and the
    durable run aggregates.  Newtypes over integers are the integers. *)

From S2P Require Import Prelude Text BTree Json Capability Lifecycle Device Command.

Abbreviation AutomationApprovalId := string (only parsing).
Abbreviation AutomationOccurrenceId := string (only parsing).
Abbreviation AutomationTimerId := string (only parsing).
Abbreviation AutomationTraceId := string (only parsing).
Abbreviation AutomationVersion := N (only parsing).
Abbreviation AutomationPlanNodeId := N (only parsing).
Abbreviation AutomationRegistryRevision := N (only parsing).

(** ** Bounds *)

Definition MAX_AUTOMATION_DOCUMENT_BYTES : N := 262144.
Definition MAX_AUTOMATION_PLAN_NODES : N := 2048.
Definition MAX_AUTOMATION_NESTING_DEPTH : N := 32.
Definition MAX_AUTOMATION_PARALLEL_WIDTH : N := 32.
Definition MAX_AUTOMATION_QUEUE_LENGTH : N := 1024.
Definition MAX_AUTOMATION_RETRIES : N := 16.
Definition MAX_AUTOMATION_TIMER_MILLIS : N := 31536000000.
Definition MAX_AUTOMATION_RUN_MILLIS : N := 31536000000.
Definition MAX_AUTOMATION_TRACE_STEPS : N := 100000.

(** ** Versions *)

Inductive AutomationVersionError := automation_version_error.
Inductive AutomationVersionOverflow := automation_version_overflow.

Module AutomationVersion.
Definition new (value : N) : result AutomationVersion AutomationVersionError :=
  if N.eqb value 0 then Err automation_version_error else Ok value.

Definition next (self : AutomationVersion) : result AutomationVersion AutomationVersionOverflow :=
  match u64_checked_add self 1 with
  | Some value => Ok value
  | None => Err automation_version_overflow
  end.
End AutomationVersion.

(** ** Content hashes *)

Record AutomationContentHash := mk_content_hash { content_hash_text : string }.
#[export] Instance AutomationContentHash_eq_dec : EqDecision AutomationContentHash.
Proof. solve_decision. Defined.

Inductive AutomationContentHashError := automation_content_hash_error.

Module AutomationContentHash.
Definition new (value : string) : result AutomationContentHash AutomationContentHashError :=
  let valid := (String.length value =? 64)
               && forallb (fun byte => is_ascii_digit byte
                                       || ((97 <=? byte)%N && (byte <=? 102)%N)) (bytes value) in
  if valid then Ok (mk_content_hash value) else Err automation_content_hash_error.
End AutomationContentHash.

(** The message of the serialisation error is the library's. *)
Inductive CanonicalAutomationError :=
| Cae_Serialization (message : string)
| Cae_InvalidDigest.

(** The error's [Display]. *)
Definition canonical_error_text (error : CanonicalAutomationError) : string :=
  match error with
  | Cae_Serialization _ => "automation contract serialization failed"
  | Cae_InvalidDigest => "automation digest construction failed"
  end.

(** [encoded] is the result of [serde_json::to_vec]. *)
Definition canonical_automation_hash `{Sha256} (encoded : result (list N) string) :
  result AutomationContentHash CanonicalAutomationError :=
  let? encoded := map_err Cae_Serialization encoded in
  let digest := sha256 encoded in
  map_err (fun _ => Cae_InvalidDigest) (AutomationContentHash.new (hex digest)).

(** ** Values and expressions *)

Record AutomationProvenance := mk_provenance {
  pv_author_id : ActorId;
  pv_agent_id : option string;
  pv_source_request : string;
  pv_rationale : string
}.
#[export] Instance AutomationProvenance_eq_dec : EqDecision AutomationProvenance.
Proof. solve_decision. Defined.

Inductive AutomationDeviceReference :=
| Ref_Device (device_id : DeviceId)
| Ref_Alias (alias : string)
| Ref_Space (space_id : SpaceId).
#[export] Instance AutomationDeviceReference_eq_dec : EqDecision AutomationDeviceReference.
Proof. solve_decision. Defined.

Record AutomationTargetReference := mk_target {
  tr_device : AutomationDeviceReference;
  tr_endpoint_id : option EndpointId;
  tr_capability : string
}.
#[export] Instance AutomationTargetReference_eq_dec : EqDecision AutomationTargetReference.
Proof. solve_decision. Defined.

Inductive AutomationValueType :=
| Vt_Null | Vt_Boolean | Vt_Integer | Vt_Decimal | Vt_String | Vt_Timestamp | Vt_DurationMillis.
#[export] Instance AutomationValueType_eq_dec : EqDecision AutomationValueType.
Proof. solve_decision. Defined.

Inductive AutomationValue :=
| Val_Null
| Val_Boolean (value : bool)
| Val_Integer (value : Z)
| Val_Decimal (value : string)
| Val_String (value : string)
| Val_Timestamp (value : Instant)
| Val_DurationMillis (value : N).
#[export] Instance AutomationValue_eq_dec : EqDecision AutomationValue.
Proof. solve_decision. Defined.

Module AutomationValue.
Definition value_type (self : AutomationValue) : AutomationValueType :=
  match self with
  | Val_Null => Vt_Null
  | Val_Boolean _ => Vt_Boolean
  | Val_Integer _ => Vt_Integer
  | Val_Decimal _ => Vt_Decimal
  | Val_String _ => Vt_String
  | Val_Timestamp _ => Vt_Timestamp
  | Val_DurationMillis _ => Vt_DurationMillis
  end.
End AutomationValue.

Record AutomationVariableDefinition := mk_variable {
  vd_value_type : AutomationValueType;
  vd_initial : option AutomationValue
}.
#[export] Instance AutomationVariableDefinition_eq_dec : EqDecision AutomationVariableDefinition.
Proof. solve_decision. Defined.

Inductive AutomationExpression :=
| Ex_Literal (value : AutomationValue)
| Ex_Variable (name : string)
| Ex_Observation (target : AutomationTargetReference) (field : string).
#[export] Instance AutomationExpression_eq_dec : EqDecision AutomationExpression.
Proof. solve_decision. Defined.

Inductive AutomationComparison :=
| Cmp_Equal | Cmp_NotEqual | Cmp_LessThan | Cmp_LessThanOrEqual | Cmp_GreaterThan
| Cmp_GreaterThanOrEqual.
#[export] Instance AutomationComparison_eq_dec : EqDecision AutomationComparison.
Proof. solve_decision. Defined.

#[warnings="-register-all"]
Inductive AutomationCondition :=
| Cond_Literal (value : bool)
| Cond_Compare (left : AutomationExpression) (operator : AutomationComparison)
    (right : AutomationExpression)
| Cond_All (conditions : list AutomationCondition)
| Cond_Any (conditions : list AutomationCondition)
| Cond_Not (condition : AutomationCondition)
| Cond_TimeWindow (timezone start end_ : string)
| Cond_StateDuration (condition : AutomationCondition) (duration_ms : N).
#[export] Instance AutomationCondition_eq_dec : EqDecision AutomationCondition.
Proof.
  unfold EqDecision, RelDecision. fix go 1. intros a b. unfold Decision. decide equality;
    first [apply (list_eq_dec (dec := go)) | apply go | solve_decision].
Defined.

(** ** Triggers and actions *)

Record AutomationSchedule := mk_schedule {
  as_cron : string;
  as_timezone : string;
  as_occurrence_window_ms : N
}.
#[export] Instance AutomationSchedule_eq_dec : EqDecision AutomationSchedule.
Proof. solve_decision. Defined.

Inductive AutomationTrigger :=
| Trig_ObservationChanged (target : AutomationTargetReference) (field : option string)
| Trig_DeviceEvent (target : AutomationTargetReference) (event : string)
| Trig_Schedule (schedule : AutomationSchedule)
| Trig_CommandOutcome (target : option AutomationTargetReference) (states : gset CommandState).
#[export] Instance AutomationTrigger_eq_dec : EqDecision AutomationTrigger.
Proof. solve_decision. Defined.

Record AutomationRetryPolicy := mk_retry {
  rp_maximum_retries : N;
  rp_backoff_ms : N;
  rp_retryable_command_errors : list CommandErrorCode
}.
#[export] Instance AutomationRetryPolicy_eq_dec : EqDecision AutomationRetryPolicy.
Proof. solve_decision. Defined.

#[warnings="-register-all"]
Inductive AutomationAction :=
| Do_Command (target : AutomationTargetReference) (payload : CommandPayload)
    (retry : AutomationRetryPolicy) (on_failure : AutomationFailurePolicy)
| Do_Delay (duration_ms : N)
| Do_Wait (condition : AutomationCondition) (timeout_ms : N) (on_timeout : AutomationFailurePolicy)
| Do_SetVariable (name : string) (value : AutomationExpression)
| Do_Sequence (actions : list AutomationAction)
| Do_If (condition : AutomationCondition) (then_actions else_actions : list AutomationAction)
| Do_Parallel (branches : list (list AutomationAction)) (maximum_parallel : N)
| Do_Race (branches : list (list AutomationAction)) (maximum_parallel : N)
with AutomationFailurePolicy :=
| Fail_StopRun
| Fail_StopBranch
| Fail_Continue
| Fail_Fallback (actions : list AutomationAction).
#[export] Instance AutomationAction_eq_dec : EqDecision AutomationAction.
Proof.
  unfold EqDecision, RelDecision.
  fix go 1 with (go_policy (p q : AutomationFailurePolicy) {struct p} : Decision (p = q)).
  - intros a b. unfold Decision. decide equality;
      first [apply (list_eq_dec (dec := go)) | apply (list_eq_dec (dec := list_eq_dec (dec := go)))
            | apply go_policy | solve_decision].
  - intros p q. unfold Decision. decide equality. apply (list_eq_dec (dec := go)).
Defined.

Inductive AutomationPlanFailurePolicy :=
| Pf_StopRun | Pf_StopBranch | Pf_Continue | Pf_Fallback (entry : option AutomationPlanNodeId).
#[export] Instance AutomationPlanFailurePolicy_eq_dec : EqDecision AutomationPlanFailurePolicy.
Proof. solve_decision. Defined.

Inductive AutomationRunMode :=
| Mode_Single | Mode_Restart | Mode_Queued (capacity : N) | Mode_Parallel (maximum_parallel : N).
#[export] Instance AutomationRunMode_eq_dec : EqDecision AutomationRunMode.
Proof. solve_decision. Defined.

Inductive AutomationSelfTriggerPolicy :=
| Self_SuppressSameVersion | Self_SuppressSameCorrelation | Self_Allow.
#[export] Instance AutomationSelfTriggerPolicy_eq_dec : EqDecision AutomationSelfTriggerPolicy.
Proof. solve_decision. Defined.

(** ** Budgets *)

Record AutomationResourceBudget := mk_budget {
  bu_maximum_nodes : N;
  bu_maximum_nesting_depth : N;
  bu_maximum_parallel_width : N;
  bu_maximum_queue_length : N;
  bu_maximum_trace_steps : N;
  bu_maximum_run_duration_ms : N
}.
#[export] Instance AutomationResourceBudget_eq_dec : EqDecision AutomationResourceBudget.
Proof. solve_decision. Defined.

Inductive AutomationResourceBudgetError :=
| Bu_MaximumNodes | Bu_MaximumNestingDepth | Bu_MaximumParallelWidth | Bu_MaximumQueueLength
| Bu_MaximumTraceSteps | Bu_MaximumRunDuration.

Module AutomationResourceBudget.
Definition default : AutomationResourceBudget := mk_budget 512 16 8 128 10000 604800000.

Definition outside (value maximum : N) : bool := N.eqb value 0 || N.ltb maximum value.

Definition validate (self : AutomationResourceBudget) :
  result unit AutomationResourceBudgetError :=
  if outside (bu_maximum_nodes self) MAX_AUTOMATION_PLAN_NODES then Err Bu_MaximumNodes
  else if outside (bu_maximum_nesting_depth self) MAX_AUTOMATION_NESTING_DEPTH
  then Err Bu_MaximumNestingDepth
  else if outside (bu_maximum_parallel_width self) MAX_AUTOMATION_PARALLEL_WIDTH
  then Err Bu_MaximumParallelWidth
  else if outside (bu_maximum_queue_length self) MAX_AUTOMATION_QUEUE_LENGTH
  then Err Bu_MaximumQueueLength
  else if outside (bu_maximum_trace_steps self) MAX_AUTOMATION_TRACE_STEPS
  then Err Bu_MaximumTraceSteps
  else if outside (bu_maximum_run_duration_ms self) MAX_AUTOMATION_RUN_MILLIS
  then Err Bu_MaximumRunDuration
  else Ok tt.
End AutomationResourceBudget.

(** ** Documents *)

Record AutomationDocument := mk_document {
  do_id : AutomationId;
  do_version : AutomationVersion;
  do_name : string;
  do_provenance : AutomationProvenance;
  do_variables : list (string * AutomationVariableDefinition);
  do_triggers : list AutomationTrigger;
  do_condition : option AutomationCondition;
  do_actions : list AutomationAction;
  do_run_mode : AutomationRunMode;
  do_self_trigger : AutomationSelfTriggerPolicy;
  do_budget : AutomationResourceBudget;
  do_created_at : Instant
}.
#[export] Instance AutomationDocument_eq_dec : EqDecision AutomationDocument.
Proof. solve_decision. Defined.

(** ** Safety *)

Inductive AutomationSafetyProfile :=
| Sp_Comfort | Sp_ComfortMotion | Sp_AccessControl | Sp_FlowControl | Sp_Security.
#[export] Instance AutomationSafetyProfile_eq_dec : EqDecision AutomationSafetyProfile.
Proof. solve_decision. Defined.
#[export] Instance AutomationSafetyProfile_countable : Countable AutomationSafetyProfile.
Proof.
  refine (inj_countable'
    (fun s => match s with Sp_Comfort => 0 | Sp_ComfortMotion => 1 | Sp_AccessControl => 2 | Sp_FlowControl => 3 | Sp_Security => 4 end)
    (fun n => match n with 0 => Sp_Comfort | 1 => Sp_ComfortMotion | 2 => Sp_AccessControl | 3 => Sp_FlowControl | _ => Sp_Security end) _).
  by intros [].
Defined.

Inductive AutomationSafetyRequirement :=
| Rq_FreshState | Rq_Calibration | Rq_StopSupport | Rq_Position | Rq_Presence
| Rq_ExplicitApproval.
#[export] Instance AutomationSafetyRequirement_eq_dec : EqDecision AutomationSafetyRequirement.
Proof. solve_decision. Defined.
#[export] Instance AutomationSafetyRequirement_countable : Countable AutomationSafetyRequirement.
Proof.
  refine (inj_countable'
    (fun s => match s with Rq_FreshState => 0 | Rq_Calibration => 1 | Rq_StopSupport => 2 | Rq_Position => 3 | Rq_Presence => 4 | Rq_ExplicitApproval => 5 end)
    (fun n => match n with 0 => Rq_FreshState | 1 => Rq_Calibration | 2 => Rq_StopSupport | 3 => Rq_Position | 4 => Rq_Presence | _ => Rq_ExplicitApproval end) _).
  by intros [].
Defined.

Inductive AutomationApprovalRequirement := Apr_ActivationGrant | Apr_ExplicitUserApproval.
#[export] Instance AutomationApprovalRequirement_eq_dec : EqDecision AutomationApprovalRequirement.
Proof. solve_decision. Defined.

(** ** Normalized plans *)

Record ResolvedAutomationTarget := mk_resolved {
  rt_device_id : DeviceId;
  rt_endpoint_id : EndpointId;
  rt_capability : string
}.
#[export] Instance ResolvedAutomationTarget_eq_dec : EqDecision ResolvedAutomationTarget.
Proof. solve_decision. Defined.

Inductive ResolvedAutomationExpression :=
| Rx_Literal (value : AutomationValue)
| Rx_Variable (name : string)
| Rx_Observation (targets : list ResolvedAutomationTarget) (field : string).
#[export] Instance ResolvedAutomationExpression_eq_dec : EqDecision ResolvedAutomationExpression.
Proof. solve_decision. Defined.

#[warnings="-register-all"]
Inductive ResolvedAutomationCondition :=
| Rc_Literal (value : bool)
| Rc_Compare (left : ResolvedAutomationExpression) (operator : AutomationComparison)
    (right : ResolvedAutomationExpression)
| Rc_All (conditions : list ResolvedAutomationCondition)
| Rc_Any (conditions : list ResolvedAutomationCondition)
| Rc_Not (condition : ResolvedAutomationCondition)
| Rc_TimeWindow (timezone start end_ : string)
| Rc_StateDuration (condition : ResolvedAutomationCondition) (duration_ms : N).
#[export] Instance ResolvedAutomationCondition_eq_dec : EqDecision ResolvedAutomationCondition.
Proof.
  unfold EqDecision, RelDecision. fix go 1. intros a b. unfold Decision. decide equality;
    first [apply (list_eq_dec (dec := go)) | apply go | solve_decision].
Defined.

Inductive ResolvedAutomationTrigger :=
| Rt_ObservationChanged (targets : list ResolvedAutomationTarget) (field : option string)
| Rt_DeviceEvent (targets : list ResolvedAutomationTarget) (event : string)
| Rt_Schedule (schedule : AutomationSchedule)
| Rt_CommandOutcome (targets : option (list ResolvedAutomationTarget)) (states : gset CommandState).
#[export] Instance ResolvedAutomationTrigger_eq_dec : EqDecision ResolvedAutomationTrigger.
Proof. solve_decision. Defined.

Inductive AutomationPlanNodeKind :=
| Node_Command (targets : list ResolvedAutomationTarget) (payload : CommandPayload)
    (reduction_segment : N) (retry : AutomationRetryPolicy)
    (on_failure : AutomationPlanFailurePolicy) (next : option AutomationPlanNodeId)
| Node_Delay (duration_ms : N) (next : option AutomationPlanNodeId)
| Node_Wait (condition : ResolvedAutomationCondition) (timeout_ms : N)
    (on_timeout : AutomationPlanFailurePolicy) (next : option AutomationPlanNodeId)
| Node_SetVariable (name : string) (value : ResolvedAutomationExpression)
    (next : option AutomationPlanNodeId)
| Node_Branch (condition : ResolvedAutomationCondition)
    (then_node else_node join : option AutomationPlanNodeId)
| Node_Parallel (branches : list AutomationPlanNodeId) (maximum_parallel : N)
    (join : option AutomationPlanNodeId)
| Node_Race (branches : list AutomationPlanNodeId) (maximum_parallel : N)
    (join : option AutomationPlanNodeId)
| Node_Join (next : option AutomationPlanNodeId)
| Node_Complete.
#[export] Instance AutomationPlanNodeKind_eq_dec : EqDecision AutomationPlanNodeKind.
Proof. solve_decision. Defined.

Record AutomationPlanNode := mk_node {
  nd_id : AutomationPlanNodeId;
  nd_order : N;
  nd_kind : AutomationPlanNodeKind
}.
#[export] Instance AutomationPlanNode_eq_dec : EqDecision AutomationPlanNode.
Proof. solve_decision. Defined.

Record AutomationExecutionPlan := mk_plan {
  pl_automation_id : AutomationId;
  pl_automation_version : AutomationVersion;
  pl_document_hash : AutomationContentHash;
  pl_plan_hash : AutomationContentHash;
  pl_registry_revision : AutomationRegistryRevision;
  pl_variables : list (string * AutomationVariableDefinition);
  pl_triggers : list ResolvedAutomationTrigger;
  pl_condition : option ResolvedAutomationCondition;
  pl_run_mode : AutomationRunMode;
  pl_self_trigger : AutomationSelfTriggerPolicy;
  pl_entry : AutomationPlanNodeId;
  pl_nodes : list AutomationPlanNode;
  pl_safety_profiles : gset AutomationSafetyProfile;
  pl_safety_requirements : gset AutomationSafetyRequirement;
  pl_approval : AutomationApprovalRequirement;
  pl_budget : AutomationResourceBudget
}.
#[export] Instance AutomationExecutionPlan_eq_dec : EqDecision AutomationExecutionPlan.
Proof. solve_decision. Defined.

(** The contracts whose serialisation is hashed: documents, plans without
    their own hash ([HashablePlan]), and timed conditions. *)
Record HashablePlan := mk_hashable {
  hp_automation_id : AutomationId;
  hp_automation_version : AutomationVersion;
  hp_document_hash : AutomationContentHash;
  hp_registry_revision : AutomationRegistryRevision;
  hp_variables : list (string * AutomationVariableDefinition);
  hp_triggers : list ResolvedAutomationTrigger;
  hp_condition : option ResolvedAutomationCondition;
  hp_run_mode : AutomationRunMode;
  hp_self_trigger : AutomationSelfTriggerPolicy;
  hp_entry : AutomationPlanNodeId;
  hp_nodes : list AutomationPlanNode;
  hp_safety_profiles : gset AutomationSafetyProfile;
  hp_safety_requirements : gset AutomationSafetyRequirement;
  hp_approval : AutomationApprovalRequirement;
  hp_budget : AutomationResourceBudget
}.

(** [serde_json::to_vec] of each contract: the bytes, or a message. *)
Class AutomationEncoding := {
  encode_document : AutomationDocument -> result (list N) string;
  encode_plan : HashablePlan -> result (list N) string;
  encode_timed_condition : ResolvedAutomationCondition * N -> result (list N) string
}.

Definition canonical_automation_plan_hash `{Sha256, AutomationEncoding}
  (plan : AutomationExecutionPlan) : result AutomationContentHash CanonicalAutomationError :=
  canonical_automation_hash (encode_plan
    (mk_hashable (pl_automation_id plan) (pl_automation_version plan) (pl_document_hash plan)
      (pl_registry_revision plan) (pl_variables plan) (pl_triggers plan) (pl_condition plan)
      (pl_run_mode plan) (pl_self_trigger plan) (pl_entry plan) (pl_nodes plan)
      (pl_safety_profiles plan) (pl_safety_requirements plan) (pl_approval plan)
      (pl_budget plan))).

(** ** Validation findings *)

Inductive AutomationValidationCode :=
| Vc_UnsupportedSchema | Vc_DocumentTooLarge | Vc_RequiredValueMissing | Vc_ReferenceMissing
| Vc_ReferenceAmbiguous | Vc_ReferenceStale | Vc_CapabilityIncompatible | Vc_TypeMismatch
| Vc_CycleDetected | Vc_ImpossibleBranch | Vc_ResourceBoundExceeded | Vc_InvalidSchedule
| Vc_InvalidDecimal | Vc_SafetyConstraintUnavailable.
#[export] Instance AutomationValidationCode_eq_dec : EqDecision AutomationValidationCode.
Proof. solve_decision. Defined.

Record AutomationValidationError := mk_finding {
  ve_code : AutomationValidationCode;
  ve_path : string;
  ve_reason : string;
  ve_remediation : option string;
  ve_reference : option string
}.
#[export] Instance AutomationValidationError_eq_dec : EqDecision AutomationValidationError.
Proof. solve_decision. Defined.

(** ** State machines *)

Inductive AutomationVersionState :=
| Vs_Draft | Vs_Validated | Vs_Simulated | Vs_AwaitingApproval | Vs_Ready | Vs_Rejected
| Vs_Retired.
#[export] Instance AutomationVersionState_eq_dec : EqDecision AutomationVersionState.
Proof. solve_decision. Defined.

Module AutomationVersionState.
Definition allows_transition_to (self next : AutomationVersionState) : bool :=
  match self, next with
  | Vs_Draft, (Vs_Validated | Vs_Retired)
  | Vs_Validated, (Vs_Simulated | Vs_Retired)
  | Vs_Simulated, (Vs_AwaitingApproval | Vs_Ready | Vs_Retired)
  | Vs_AwaitingApproval, (Vs_Ready | Vs_Rejected | Vs_Retired)
  | (Vs_Ready | Vs_Rejected), Vs_Retired => true
  | _, _ => false
  end.
End AutomationVersionState.

Inductive AutomationOperationalState := Op_Inactive | Op_Active | Op_Disabled | Op_Retired.
#[export] Instance AutomationOperationalState_eq_dec : EqDecision AutomationOperationalState.
Proof. solve_decision. Defined.

Module AutomationOperationalState.
Definition allows_transition_to (self next : AutomationOperationalState) : bool :=
  match self, next with
  | (Op_Inactive | Op_Disabled), (Op_Active | Op_Retired)
  | Op_Active, (Op_Disabled | Op_Retired) => true
  | _, _ => false
  end.
End AutomationOperationalState.

Inductive AutomationRunState :=
| Run_Pending | Run_Running | Run_Waiting | Run_Completed | Run_Failed | Run_Cancelled
| Run_Suppressed.
#[export] Instance AutomationRunState_eq_dec : EqDecision AutomationRunState.
Proof. solve_decision. Defined.

Module AutomationRunState.
Definition is_terminal (self : AutomationRunState) : bool :=
  match self with
  | Run_Completed | Run_Failed | Run_Cancelled | Run_Suppressed => true
  | _ => false
  end.

Definition allows_transition_to (self next : AutomationRunState) : bool :=
  match self, next with
  | Run_Pending, (Run_Running | Run_Cancelled | Run_Suppressed)
  | Run_Running, (Run_Waiting | Run_Completed | Run_Failed | Run_Cancelled)
  | Run_Waiting, (Run_Running | Run_Failed | Run_Cancelled) => true
  | _, _ => false
  end.

Definition allows_revision_to (self next : AutomationRunState) : bool :=
  (bool_decide (self = next) && negb (is_terminal self)) || allows_transition_to self next.
End AutomationRunState.

Inductive AutomationOccurrenceState := Occ_Scheduled | Occ_Accepted | Occ_MissedSkipped | Occ_Suppressed.
#[export] Instance AutomationOccurrenceState_eq_dec : EqDecision AutomationOccurrenceState.
Proof. solve_decision. Defined.

Module AutomationOccurrenceState.
Definition allows_transition_to (self next : AutomationOccurrenceState) : bool :=
  match self, next with
  | Occ_Scheduled, (Occ_Accepted | Occ_MissedSkipped | Occ_Suppressed) => true
  | _, _ => false
  end.
End AutomationOccurrenceState.

Inductive AutomationTimerState := Tm_Pending | Tm_Ready | Tm_Consumed | Tm_Cancelled.
#[export] Instance AutomationTimerState_eq_dec : EqDecision AutomationTimerState.
Proof. solve_decision. Defined.

Module AutomationTimerState.
Definition allows_transition_to (self next : AutomationTimerState) : bool :=
  match self, next with
  | Tm_Pending, (Tm_Ready | Tm_Cancelled)
  | Tm_Ready, (Tm_Consumed | Tm_Cancelled) => true
  | _, _ => false
  end.
End AutomationTimerState.

Inductive AutomationTimerKind := Tk_Delay | Tk_WaitTimeout | Tk_CommandRetry | Tk_StateDuration.
#[export] Instance AutomationTimerKind_eq_dec : EqDecision AutomationTimerKind.
Proof. solve_decision. Defined.

Module AutomationTimerKind.
Definition scope_key (self : AutomationTimerKind) : string :=
  match self with
  | Tk_Delay => "delay"
  | Tk_WaitTimeout => "wait_timeout"
  | Tk_CommandRetry => "command_retry"
  | Tk_StateDuration => "state_duration"
  end.
End AutomationTimerKind.

Inductive AutomationApprovalState := Ap_NotRequired | Ap_Pending | Ap_Approved | Ap_Rejected.
#[export] Instance AutomationApprovalState_eq_dec : EqDecision AutomationApprovalState.
Proof. solve_decision. Defined.

Module AutomationApprovalState.
Definition allows_transition_to (self next : AutomationApprovalState) : bool :=
  match self, next with
  | Ap_Pending, (Ap_Approved | Ap_Rejected) => true
  | _, _ => false
  end.
End AutomationApprovalState.

(** ** Durable run aggregates *)

Inductive AutomationConditionDurationPhase := Dur_Pending | Dur_Mature.
#[export] Instance AutomationConditionDurationPhase_eq_dec :
  EqDecision AutomationConditionDurationPhase.
Proof. solve_decision. Defined.

Record AutomationConditionDuration := mk_duration {
  cdu_node_id : AutomationPlanNodeId;
  cdu_condition_hash : AutomationContentHash;
  cdu_duration_ms : N;
  cdu_ready_at : Instant;
  cdu_timer_id : AutomationTimerId;
  cdu_phase : AutomationConditionDurationPhase
}.
#[export] Instance AutomationConditionDuration_eq_dec : EqDecision AutomationConditionDuration.
Proof. solve_decision. Defined.

Inductive AutomationCommandAttemptPhase := At_AwaitingOutcome | At_Backoff | At_Dispatch.
#[export] Instance AutomationCommandAttemptPhase_eq_dec :
  EqDecision AutomationCommandAttemptPhase.
Proof. solve_decision. Defined.

Record AutomationCommandAttempt := mk_attempt {
  cat_node_id : AutomationPlanNodeId;
  cat_attempt : N;
  cat_target_indices : list N;
  cat_command_ids : list CommandId;
  cat_phase : AutomationCommandAttemptPhase;
  cat_retry_ready_at : option Instant
}.
#[export] Instance AutomationCommandAttempt_eq_dec : EqDecision AutomationCommandAttempt.
Proof. solve_decision. Defined.

Inductive AutomationRunContinuationKind := Ck_Parallel | Ck_Race.
#[export] Instance AutomationRunContinuationKind_eq_dec :
  EqDecision AutomationRunContinuationKind.
Proof. solve_decision. Defined.

Record AutomationRunContinuation := mk_continuation {
  cn_group_node_id : AutomationPlanNodeId;
  cn_kind : AutomationRunContinuationKind;
  cn_join_node_id : AutomationPlanNodeId;
  cn_remaining_branches : list AutomationPlanNodeId;
  cn_current_branch_failed : bool;
  cn_maximum_parallel : N
}.
#[export] Instance AutomationRunContinuation_eq_dec : EqDecision AutomationRunContinuation.
Proof. solve_decision. Defined.

Record AutomationRun := mk_run {
  ru_id : AutomationRunId;
  ru_automation_id : AutomationId;
  ru_version : AutomationVersion;
  ru_occurrence_id : AutomationOccurrenceId;
  ru_actor_id : ActorId;
  ru_state : AutomationRunState;
  ru_revision : N;
  ru_node_id : option AutomationPlanNodeId;
  ru_variables : list (string * AutomationValue);
  ru_command_ids : list CommandId;
  ru_command_attempt : option AutomationCommandAttempt;
  ru_condition_durations : list AutomationConditionDuration;
  ru_continuations : list AutomationRunContinuation;
  ru_correlation_id : CorrelationId;
  ru_causation_event_id : option EventId;
  ru_created_at : Instant;
  ru_updated_at : Instant
}.
#[export] Instance AutomationRun_eq_dec : EqDecision AutomationRun.
Proof. solve_decision. Defined.

Record AutomationTimer := mk_timer {
  tm_id : AutomationTimerId;
  tm_run_id : AutomationRunId;
  tm_node_id : AutomationPlanNodeId;
  tm_kind : AutomationTimerKind;
  tm_ready_at : Instant;
  tm_state : AutomationTimerState
}.
#[export] Instance AutomationTimer_eq_dec : EqDecision AutomationTimer.
Proof. solve_decision. Defined.

Inductive AutomationTraceKind :=
| Tr_Trigger | Tr_Condition | Tr_Branch | Tr_Reduction | Tr_Command | Tr_Timer | Tr_Variable
| Tr_Suppression | Tr_Outcome.
#[export] Instance AutomationTraceKind_eq_dec : EqDecision AutomationTraceKind.
Proof. solve_decision. Defined.

Record AutomationTraceStep := mk_trace_step {
  tt_id : AutomationTraceId;
  tt_run_id : AutomationRunId;
  tt_sequence : N;
  tt_node_id : option AutomationPlanNodeId;
  tt_kind : AutomationTraceKind;
  tt_details : list (string * AutomationValue);
  tt_occurred_at : Instant;
  tt_correlation_id : CorrelationId;
  tt_causation_event_id : option EventId
}.
#[export] Instance AutomationTraceStep_eq_dec : EqDecision AutomationTraceStep.
Proof. solve_decision. Defined.

Record AutomationCatchUp := mk_catch_up {
  cu_missed_occurrence_id : AutomationOccurrenceId;
  cu_requested_by : ActorId;
  cu_idempotency_key : IdempotencyKey;
  cu_requested_at : Instant
}.
#[export] Instance AutomationCatchUp_eq_dec : EqDecision AutomationCatchUp.
Proof. solve_decision. Defined.

Record AutomationOccurrence := mk_occurrence {
  oc_id : AutomationOccurrenceId;
  oc_automation_id : AutomationId;
  oc_version : AutomationVersion;
  oc_occurred_at : Instant;
  oc_window_ends_at : Instant;
  oc_state : AutomationOccurrenceState;
  oc_event_cursor : option N;
  oc_correlation_id : CorrelationId;
  oc_causation_event_id : option EventId;
  oc_catch_up : option AutomationCatchUp
}.
#[export] Instance AutomationOccurrence_eq_dec : EqDecision AutomationOccurrence.
Proof. solve_decision. Defined.

Record AutomationApprovalRecord := mk_approval {
  apv_id : AutomationApprovalId;
  apv_automation_id : AutomationId;
  apv_version : AutomationVersion;
  apv_document_hash : AutomationContentHash;
  apv_plan_hash : AutomationContentHash;
  apv_actor_id : ActorId;
  apv_state : AutomationApprovalState;
  apv_rationale : option string;
  apv_decided_at : Instant
}.
#[export] Instance AutomationApprovalRecord_eq_dec : EqDecision AutomationApprovalRecord.
Proof. solve_decision. Defined.
