(* ===== verification/Identity.v ===== *)
(** Derived identities, [crates/homemagic-domain/src/identity.rs], and domain
    events, event.rs.  An identity is the text of its UUID; the UUID library
    itself is a parameter. *)

From S2P Require Import Prelude Text Capability Lifecycle Device Command MatterState MatterOperation Automation.

(** The UUID library: the random identity of every draw, and the identity derived
    from a namespace and a name. *)
Class Uuids := {
  uuid_v4 : nat -> string;
  uuid_v5 : N -> string -> string
}.

Definition DEVICE_NAMESPACE : N := 0x91d041aa328c5ba1aaf6e11681a10cc9.
Definition INTEGRATION_NAMESPACE : N := 0xa75ddbe00bd85ed49ff23af9a4d6eb65.
Definition REPAIR_NAMESPACE : N := 0x36bf970260d45a68aaf78a85276b693b.
Definition AUTOMATION_TRACE_NAMESPACE : N := 0x6af5981c13175fb7aa737a667c987fc1.
Definition AUTOMATION_OCCURRENCE_NAMESPACE : N := 0x0797c1342a9558729f84ef690fb6b8aa.
Definition AUTOMATION_RUN_NAMESPACE : N := 0x4956eaca1fa9597d921977cbd73eeaf5.
Definition AUTOMATION_TIMER_NAMESPACE : N := 0x6a52b56801745c089f45b9c0ee6d8bc5.
Definition CORRELATION_NAMESPACE : N := 0xb5b55d91a4a05411afb29ec2d2546032.
Definition MATTER_PROJECTION_NAMESPACE : N := 0x889a276a0df85d0a9daf3399d2246948.
Definition MATTER_SUBSCRIPTION_NAMESPACE : N := 0xa3dc597014c95c2e9d682bd55080aa50.
Definition MATTER_CONTROLLER_EVENT_NAMESPACE : N := 0x01dd63a7126955ee8b87f84dfda84477.
Definition MATTER_FABRIC_NAMESPACE : N := 0xc5fac01d30255b0eb2b18f689b937fb4.

(** [format!] with [:] between the parts. *)
Fixpoint colon_join (parts : list string) : string :=
  match parts with
  | [] => ""
  | [part] => part
  | part :: parts => part +:+ ":" +:+ colon_join parts
  end.

Module IntegrationId.
Definition from_native `{Uuids} (installation_id : InstallationId) (adapter instance_key : string) :
  IntegrationId :=
  uuid_v5 INTEGRATION_NAMESPACE (colon_join [installation_id; adapter; instance_key]).
End IntegrationId.

Module DeviceId.
Definition from_integration `{Uuids} (integration_id : IntegrationId) (native_id : string) : DeviceId :=
  uuid_v5 DEVICE_NAMESPACE (colon_join [integration_id; native_id]).
End DeviceId.

Module RepairId.
Definition from_condition `{Uuids} (device_id : DeviceId) (condition : string) : string :=
  uuid_v5 REPAIR_NAMESPACE (colon_join [device_id; condition]).
End RepairId.

(** [RepairRecord::for_device_condition], [repair.rs]. *)
Definition repair_for_device_condition `{Uuids} (device_id : DeviceId) (condition : string)
  (kind : RepairKind) (summary : string) (created_at : Instant) : RepairRecord :=
  mk_repair (RepairId.from_condition device_id condition) (Some device_id) kind summary created_at
    Rs_Open None.

Module CorrelationId.
Definition from_key `{Uuids} (key : string) : CorrelationId := uuid_v5 CORRELATION_NAMESPACE key.
End CorrelationId.

(** The names under which automation work is stored again after a restart. *)
Definition occurrence_name (automation_id : AutomationId) (version : N) (source_key : string) : string :=
  colon_join [automation_id; show_N version; source_key].
Definition timer_name (run_id : AutomationRunId) (node_id : N) (scope : string)
  (ready_at_millis : Z) : string :=
  colon_join [run_id; show_N node_id; scope; show_Z ready_at_millis].
Definition trace_name (run_id : AutomationRunId) (sequence : N) : string :=
  colon_join [run_id; show_N sequence].

Module AutomationOccurrenceId.
Definition from_key `{Uuids} (automation_id : AutomationId) (version : N) (source_key : string) :
  AutomationOccurrenceId :=
  uuid_v5 AUTOMATION_OCCURRENCE_NAMESPACE (occurrence_name automation_id version source_key).
End AutomationOccurrenceId.

Module AutomationRunId.
Definition from_occurrence `{Uuids} (occurrence_id : AutomationOccurrenceId) : AutomationRunId :=
  uuid_v5 AUTOMATION_RUN_NAMESPACE occurrence_id.
End AutomationRunId.

Module AutomationTimerId.
Definition from_scoped_key `{Uuids} (run_id : AutomationRunId) (node_id : N) (scope : string)
  (ready_at_millis : Z) : AutomationTimerId :=
  uuid_v5 AUTOMATION_TIMER_NAMESPACE (timer_name run_id node_id scope ready_at_millis).

Definition from_key `{Uuids} (run_id : AutomationRunId) (node_id : N) (ready_at_millis : Z) :
  AutomationTimerId := from_scoped_key run_id node_id "generic" ready_at_millis.
End AutomationTimerId.

Module AutomationTraceId.
Definition from_run_sequence `{Uuids} (run_id : AutomationRunId) (sequence : N) : AutomationTraceId :=
  uuid_v5 AUTOMATION_TRACE_NAMESPACE (trace_name run_id sequence).
End AutomationTraceId.

Module MatterFabricId.
Definition from_installation `{Uuids} (installation_id : InstallationId) : MatterFabricId :=
  uuid_v5 MATTER_FABRIC_NAMESPACE installation_id.
End MatterFabricId.

Module MatterControllerEventId.
Definition from_sequence `{Uuids} (fabric_id : MatterFabricId) (sequence : N) : string :=
  uuid_v5 MATTER_CONTROLLER_EVENT_NAMESPACE (colon_join [fabric_id; show_N sequence]).
End MatterControllerEventId.

Module MatterProjectionId.
Definition from_key `{Uuids} (fabric_id : MatterFabricId) (node_id endpoint : N) (rule : string)
  (version : N) : MatterProjectionId :=
  uuid_v5 MATTER_PROJECTION_NAMESPACE
    (colon_join [fabric_id; show_N node_id; show_N endpoint; rule; show_N version]).
End MatterProjectionId.

Module MatterSubscriptionId.
Definition from_node `{Uuids} (fabric_id : MatterFabricId) (node_id : N) : string :=
  uuid_v5 MATTER_SUBSCRIPTION_NAMESPACE (colon_join [fabric_id; show_N node_id]).
End MatterSubscriptionId.

(** ** Names tell work apart *)

Definition no_colon (s : string) : bool := forallb (fun b => negb (N.eqb b 58)) (bytes s).

Lemma no_colon_app s t : no_colon (s +:+ t) = no_colon s && no_colon t.
Proof. unfold no_colon. by rewrite bytes_app, forallb_app. Qed.

Lemma no_colon_cons a s : no_colon (String a s) = negb (N.eqb (byte_of a) 58) && no_colon s.
Proof. reflexivity. Qed.

Lemma colon_split a b s t :
  no_colon a = true -> no_colon b = true -> a +:+ ":" +:+ s = b +:+ ":" +:+ t -> a = b /\ s = t.
Proof.
  revert b. induction a as [|x a IH]; intros [|y b] Ha Hb; simpl; intros Heq; simplify_eq; try done.
  rewrite no_colon_cons in Ha, Hb. bool_inv. by destruct (IH b) as [-> ->].
Qed.

Lemma pretty_no_colon_go x s : no_colon s = true -> no_colon (pretty_N_go x s) = true.
Proof.
  revert s. induction (N.lt_wf_0 x) as [x _ IH]; intros s Hs.
  destruct (decide (0 < x)%N) as [Hx|Hx].
  - rewrite pretty_N_go_step by done. apply IH; [by apply N.div_lt|].
    rewrite no_colon_cons, Hs, andb_true_r. unfold pretty_N_char. by repeat case_match.
  - assert (x = 0)%N as -> by lia. by rewrite pretty_N_go_0.
Qed.

Lemma show_N_no_colon n : no_colon (show_N n) = true.
Proof.
  unfold show_N, pretty, pretty_N. case_decide; [done|]. by apply pretty_no_colon_go.
Qed.

Lemma show_N_inj a b : show_N a = show_N b -> a = b.
Proof. apply (inj pretty). Qed.

Lemma show_Z_inj a b : show_Z a = show_Z b -> a = b.
Proof. apply (inj pretty). Qed.

(** Timer names differ in run, node, scope or instant. *)
Lemma timer_name_inj run node scope millis run' node' scope' millis' :
  no_colon run = true -> no_colon run' = true -> no_colon scope = true -> no_colon scope' = true ->
  timer_name run node scope millis = timer_name run' node' scope' millis' ->
  run = run' /\ node = node' /\ scope = scope' /\ millis = millis'.
Proof.
  intros Hr Hr' Hs Hs' Heq. unfold timer_name in Heq. simpl in Heq.
  apply colon_split in Heq as [-> Heq]; [|done..].
  apply colon_split in Heq as [Hn Heq]; [|apply show_N_no_colon..].
  apply colon_split in Heq as [-> Heq]; [|done..].
  by apply show_N_inj in Hn as ->; apply show_Z_inj in Heq as ->.
Qed.

Lemma trace_name_inj run sequence run' sequence' :
  no_colon run = true -> no_colon run' = true ->
  trace_name run sequence = trace_name run' sequence' -> run = run' /\ sequence = sequence'.
Proof.
  intros Hr Hr' Heq. unfold trace_name in Heq. simpl in Heq.
  apply colon_split in Heq as [-> Heq]; [|done..]. by apply show_N_inj in Heq as ->.
Qed.

Lemma scope_key_no_colon kind : no_colon (AutomationTimerKind.scope_key kind) = true.
Proof. by destruct kind. Qed.

Lemma scope_key_inj kind kind' :
  AutomationTimerKind.scope_key kind = AutomationTimerKind.scope_key kind' -> kind = kind'.
Proof. by destruct kind, kind'. Qed.

Record CausationMetadata := mk_metadata {
  cm_correlation_id : CorrelationId;
  cm_causation_event_id : option EventId;
  cm_actor : option string;
  cm_automation : option AutomationCausation
}.

Inductive DomainEventKind :=
| Ev_LifecycleChanged (from to : DeviceLifecycle) (trigger : LifecycleTrigger)
| Ev_AvailabilityChanged (from to : AvailabilityState) (reason : option string)
| Ev_ObservationChanged (endpoint_id : EndpointId) (capability : CapabilityDescriptor)
    (changed_fields : list string)
| Ev_DeviceEvent (endpoint_id : EndpointId) (event : string)
| Ev_RepairChanged (repair_id : string)
| Ev_MetadataChanged (fields : list string)
| Ev_CommandTransitioned (command_id : CommandId) (from : option CommandState) (to : CommandState)
    (sequence : N) (endpoint_id : option EndpointId) (capability : option string)
| Ev_MatterOperationTransitioned (operation_id : MatterOperationId)
    (operation_kind : MatterOperationKind) (from : option MatterOperationPhase)
    (to : MatterOperationPhase) (revision : N)
| Ev_AutomationVersionTransitioned (automation_id : AutomationId) (version : AutomationVersion)
    (from : option AutomationVersionState) (to : AutomationVersionState)
| Ev_AutomationOperationalTransitioned (automation_id : AutomationId)
    (active_version : option AutomationVersion) (from to : AutomationOperationalState)
    (revision : N)
| Ev_AutomationRunTransitioned (automation_id : AutomationId) (version : AutomationVersion)
    (run_id : AutomationRunId) (from : option AutomationRunState) (to : AutomationRunState)
    (revision : N).

Record DomainEvent := mk_event {
  ev_id : EventId;
  ev_device_id : option DeviceId;
  ev_occurred_at : Instant;
  ev_causation : CausationMetadata;
  ev_kind : DomainEventKind
}.
