(* ===== verification/FoundationStore.v ===== *)
(** The device foundation behind its port
    ([crates/homemagic-application/src/ports.rs]): the SQLite repository
    ([crates/homemagic-storage/src/repository.rs]) and the in-memory one
    ([crates/homemagic-application/src/memory.rs]).

    The database extends the tables of the command path ([CommandStore.Db]): the
    [devices] table is split between [db_devices] (its installation, which
    commands read) and [fd_devices] (the rest), the keys of [endpoints] are
    [db_endpoints], and the rows of [matter_projections], which reference
    endpoints with [ON DELETE RESTRICT], are [db_projections].  Columns that
    repeat a field of the payload and that no statement reads are left out. *)

From stdpp Require Import sorting.
From S2P Require Import Prelude Text BTree Json Capability Lifecycle Device Command MatterState CommandStore CommandService Identity.

(** ** Contract data of the port *)

Record CursorEvent := mk_cursor_event {
  cev_cursor : N;
  cev_event : DomainEvent
}.

Record EventPage := mk_event_page {
  evp_earliest_cursor : option N;
  evp_latest_cursor : option N;
  evp_events : list CursorEvent
}.

Record RepositoryHealth := mk_repository_health {
  rh_backend : string;
  rh_schema_version : option N;
  rh_integrity : string;
  rh_wal_enabled : option bool;
  rh_earliest_event_cursor : option N;
  rh_latest_event_cursor : option N
}.

(** [homemagic-storage/src/lib.rs]: what the pragmas of the connection answer. *)
Record StorageHealth := mk_storage_health {
  sh_schema_version : N;
  sh_integrity : string;
  sh_wal_enabled : bool
}.

(** The rows of the event table, in the order of their cursors. *)
Definition load_events_after (events : list CursorEvent) (cursor : N) (limit : nat) :
  result EventPage StorageError :=
  let? _ := ok_or (i64_try_from_u64 cursor) (Se_InvalidEventCursor i64_max) in
  Ok (mk_event_page (cev_cursor <$> head events) (cev_cursor <$> last events)
        (take limit (List.filter (fun row => N.ltb cursor (cev_cursor row)) events))).

Section FoundationStore.
Context `{SerdeJson}.

Record FoundationWrite := mk_foundation_write {
  fw_installations : list Installation;
  fw_integrations : list IntegrationInstance;
  fw_spaces : list Space;
  fw_devices : list DeviceRecord;
  fw_observations : list CapabilityObservation;
  fw_events : list DomainEvent;
  fw_repairs : list RepairRecord
}.

(** [FoundationWrite { devices, observations, events, repairs, ..default() }]. *)
Definition device_write (devices : list DeviceRecord) (observations : list CapabilityObservation)
  (events : list DomainEvent) (repairs : list RepairRecord) : FoundationWrite :=
  mk_foundation_write [] [] [] devices observations events repairs.

(** ** Tables *)

Record IntegrationRow := mk_integration_row {
  ir_installation_id : InstallationId;
  ir_payload : IntegrationInstance
}.

(** The columns an update leaves as they are, and the payload. *)
Record DeviceRow := mk_device_row {
  dv_integration_id : IntegrationId;
  dv_native_id : string;
  dv_payload : DeviceRecord
}.

Record CapabilityRow := mk_capability_row {
  cp_descriptor : CapabilityDescriptor;
  cp_snapshot : option CapabilitySnapshot
}.

Abbreviation EndpointKey := (string * string)%type (only parsing).
Abbreviation CapabilityKey := (string * string * string * N)%type (only parsing).

Record FoundationDb := mk_foundation_db {
  fd_db : Db;
  fd_installations : gmap string Installation;
  fd_integrations : gmap string IntegrationRow;
  fd_spaces : gmap string Space;
  fd_devices : gmap string DeviceRow;
  fd_capabilities : gmap (string * string * string * N) CapabilityRow;
  fd_aliases : gset (string * string);
  fd_device_spaces : gset (string * string);
  fd_observations : gmap (string * string * string * N) CapabilityObservation;
  fd_events : list CursorEvent;
  fd_sequence : N;
  fd_repairs : gmap string RepairRecord
}.

Definition set_subjects (db : Db) (installations : gset string)
  (devices : gmap string InstallationId) (endpoints : gset (string * string)) : Db :=
  mk_db installations (db_actors db) (db_credentials db) (db_grants db) devices endpoints
    (db_commands db) (db_audit db) (db_cursor db) (db_matter_endpoints db) (db_projections db)
    (db_slots db) (db_unlocks db) (db_supersessions db).

Definition set_installations (db : FoundationDb) (base : Db)
  (installations : gmap string Installation) : FoundationDb :=
  mk_foundation_db base installations (fd_integrations db) (fd_spaces db) (fd_devices db)
    (fd_capabilities db) (fd_aliases db) (fd_device_spaces db) (fd_observations db)
    (fd_events db) (fd_sequence db) (fd_repairs db).
Definition set_integrations (db : FoundationDb) (integrations : gmap string IntegrationRow) :
  FoundationDb :=
  mk_foundation_db (fd_db db) (fd_installations db) integrations (fd_spaces db) (fd_devices db)
    (fd_capabilities db) (fd_aliases db) (fd_device_spaces db) (fd_observations db)
    (fd_events db) (fd_sequence db) (fd_repairs db).
Definition set_spaces (db : FoundationDb) (spaces : gmap string Space) : FoundationDb :=
  mk_foundation_db (fd_db db) (fd_installations db) (fd_integrations db) spaces (fd_devices db)
    (fd_capabilities db) (fd_aliases db) (fd_device_spaces db) (fd_observations db)
    (fd_events db) (fd_sequence db) (fd_repairs db).
Definition set_devices (db : FoundationDb) (base : Db) (devices : gmap string DeviceRow) :
  FoundationDb :=
  mk_foundation_db base (fd_installations db) (fd_integrations db) (fd_spaces db) devices
    (fd_capabilities db) (fd_aliases db) (fd_device_spaces db) (fd_observations db)
    (fd_events db) (fd_sequence db) (fd_repairs db).
Definition set_children (db : FoundationDb) (base : Db)
  (capabilities : gmap (string * string * string * N) CapabilityRow)
  (aliases device_spaces : gset (string * string))
  (observations : gmap (string * string * string * N) CapabilityObservation) : FoundationDb :=
  mk_foundation_db base (fd_installations db) (fd_integrations db) (fd_spaces db) (fd_devices db)
    capabilities aliases device_spaces observations (fd_events db) (fd_sequence db) (fd_repairs db).
Definition set_events (db : FoundationDb) (events : list CursorEvent) (sequence : N) : FoundationDb :=
  mk_foundation_db (fd_db db) (fd_installations db) (fd_integrations db) (fd_spaces db)
    (fd_devices db) (fd_capabilities db) (fd_aliases db) (fd_device_spaces db)
    (fd_observations db) events sequence (fd_repairs db).
Definition set_repairs (db : FoundationDb) (repairs : gmap string RepairRecord) : FoundationDb :=
  mk_foundation_db (fd_db db) (fd_installations db) (fd_integrations db) (fd_spaces db)
    (fd_devices db) (fd_capabilities db) (fd_aliases db) (fd_device_spaces db)
    (fd_observations db) (fd_events db) (fd_sequence db) repairs.

(** ** Upserts *)

Definition upsert_installation (db : FoundationDb) (installation : Installation) :
  result FoundationDb StorageError :=
  let base := fd_db db in
  Ok (set_installations db
        (set_subjects base ({[ in_id installation ]} ∪ db_installations base) (db_devices base)
           (db_endpoints base))
        (<[in_id installation := installation]> (fd_installations db))).

(** The index [UNIQUE (installation_id, adapter, instance_key)]. *)
Definition integration_unique (db : FoundationDb) (id installation_id : string)
  (integration : IntegrationInstance) : bool :=
  forallb (fun kv =>
    String.eqb kv.1 id
    || negb (String.eqb (ir_installation_id kv.2) installation_id
             && String.eqb (ii_adapter (ir_payload kv.2)) (ii_adapter integration)
             && String.eqb (ii_instance_key (ir_payload kv.2)) (ii_instance_key integration)))
    (map_to_list (fd_integrations db)).

Definition upsert_integration (db : FoundationDb) (integration : IntegrationInstance) :
  result FoundationDb StorageError :=
  let id := ii_id integration in
  let? installation_id :=
    match fd_integrations db !! id with
    | Some row => Ok (ir_installation_id row)
    | None =>
        guard? bool_decide (ii_installation_id integration ∈ db_installations (fd_db db))
          else Se_Constraint in
        Ok (ii_installation_id integration)
    end in
  guard? integration_unique db id installation_id integration else Se_Constraint in
  Ok (set_integrations db
        (<[id := mk_integration_row installation_id integration]> (fd_integrations db))).

Definition upsert_space (db : FoundationDb) (space : Space) : result FoundationDb StorageError :=
  let id := Device.sp_id space in
  guard? match fd_spaces db !! id with
         | Some _ => true
         | None => bool_decide (Device.sp_installation_id space ∈ db_installations (fd_db db))
         end else Se_Constraint in
  guard? match sp_parent_id space with
         | None => true
         | Some parent => String.eqb parent id || bool_decide (is_Some (fd_spaces db !! parent))
         end else Se_Constraint in
  Ok (set_spaces db (<[id := space]> (fd_spaces db))).

(** [PRIMARY KEY (device_id, endpoint_id, name, version)], [CHECK (version > 0)]. *)
Definition insert_capability (db : FoundationDb) (device_id endpoint_id : string)
  (descriptor : CapabilityDescriptor) (snapshot : option CapabilitySnapshot) :
  result FoundationDb StorageError :=
  let key := (device_id, endpoint_id, cd_name descriptor, cd_version descriptor) in
  guard? (0 <? cd_version descriptor)%N && bool_decide (fd_capabilities db !! key = None)
    else Se_Constraint in
  Ok (set_children db (fd_db db)
        (<[key := mk_capability_row descriptor snapshot]> (fd_capabilities db))
        (fd_aliases db) (fd_device_spaces db) (fd_observations db)).

(** The row of the device: a new one references its installation and integration
    and keeps [UNIQUE (integration_id, native_id)]; an update keeps those columns. *)
Definition upsert_device_row (db : FoundationDb) (device : DeviceRecord) :
  result FoundationDb StorageError :=
  let device_id := ds_id (dr_snapshot device) in
  let base := fd_db db in
  match fd_devices db !! device_id with
  | Some row =>
      Ok (set_devices db base
            (<[device_id := mk_device_row (dv_integration_id row) (dv_native_id row) device]>
               (fd_devices db)))
  | None =>
      guard? bool_decide (dr_installation_id device ∈ db_installations base)
             && bool_decide (is_Some (fd_integrations db !! dr_integration_id device))
             && forallb (fun kv =>
                  negb (String.eqb (dv_integration_id kv.2) (dr_integration_id device)
                        && String.eqb (dv_native_id kv.2) (ds_native_id (dr_snapshot device))))
                  (map_to_list (fd_devices db))
        else Se_Constraint in
      Ok (set_devices db
            (set_subjects base (db_installations base)
               (<[device_id := dr_installation_id device]> (db_devices base)) (db_endpoints base))
            (<[device_id := mk_device_row (dr_integration_id device)
                              (ds_native_id (dr_snapshot device)) device]> (fd_devices db)))
  end.

(** A projection that references an endpoint of the device. *)
Definition endpoint_referenced (base : Db) (device_id : string) : bool :=
  existsb (fun kv =>
    let projection := pj_payload kv.2 in
    String.eqb (sp_device_id projection) device_id
    && bool_decide ((sp_device_id projection, sp_endpoint_id projection) ∈ db_endpoints base))
    (map_to_list (db_projections base)).

(** The three [DELETE] statements: the capabilities and observations of an
    endpoint reference it with [ON DELETE CASCADE]. *)
Definition delete_children (db : FoundationDb) (device_id : string) :
  result FoundationDb StorageError :=
  let base := fd_db db in
  guard? negb (endpoint_referenced base device_id) else Se_Constraint in
  Ok (set_children db
        (set_subjects base (db_installations base) (db_devices base)
           (filter (fun key => key.1 <> device_id) (db_endpoints base)))
        (filter (fun kv => kv.1.1.1.1 <> device_id) (fd_capabilities db))
        (filter (fun key => key.1 <> device_id) (fd_aliases db))
        (filter (fun key => key.1 <> device_id) (fd_device_spaces db))
        (filter (fun kv => kv.1.1.1.1 <> device_id) (fd_observations db))).

Definition insert_endpoint (device : DeviceRecord) (db : FoundationDb) (endpoint : EndpointSnapshot) :
  result FoundationDb StorageError :=
  let device_id := ds_id (dr_snapshot device) in
  let key := (device_id, es_id endpoint) in
  let base := fd_db db in
  guard? bool_decide (key ∉ db_endpoints base) else Se_Constraint in
  let db :=
    set_children db
      (set_subjects base (db_installations base) (db_devices base) ({[ key ]} ∪ db_endpoints base))
      (fd_capabilities db) (fd_aliases db) (fd_device_spaces db) (fd_observations db) in
  try_fold (fun db descriptor =>
    insert_capability db device_id (es_id endpoint) descriptor
      (List.find (fun candidate => bool_decide (CapabilitySnapshot.descriptor candidate = descriptor))
         (es_capabilities endpoint)))
    db (default [] (bget (es_id endpoint) (dr_capability_descriptors device))).

Definition insert_alias (device_id : string) (db : FoundationDb) (alias : string) :
  result FoundationDb StorageError :=
  Ok (set_children db (fd_db db) (fd_capabilities db)
        ({[ (device_id, alias) ]} ∪ fd_aliases db) (fd_device_spaces db) (fd_observations db)).

Definition insert_device_space (device_id : string) (db : FoundationDb) (space_id : string) :
  result FoundationDb StorageError :=
  guard? bool_decide (is_Some (fd_spaces db !! space_id)) else Se_Constraint in
  Ok (set_children db (fd_db db) (fd_capabilities db) (fd_aliases db)
        ({[ (device_id, space_id) ]} ∪ fd_device_spaces db) (fd_observations db)).

Definition upsert_device (db : FoundationDb) (device : DeviceRecord) :
  result FoundationDb StorageError :=
  let device_id := ds_id (dr_snapshot device) in
  let? db := upsert_device_row db device in
  let? db := delete_children db device_id in
  let? db := try_fold (insert_endpoint device) db (ds_endpoints (dr_snapshot device)) in
  let? db := try_fold (insert_alias device_id) db (elements (dr_aliases device)) in
  try_fold (insert_device_space device_id) db (elements (dr_spaces device)).

(** ** The write *)

Definition observation_key (observation : CapabilityObservation) : string * string * string * N :=
  (co_device_id observation, co_endpoint_id observation, cd_name (co_capability observation),
   cd_version (co_capability observation)).

Definition upsert_observation (db : FoundationDb) (observation : CapabilityObservation) :
  result FoundationDb StorageError :=
  let key := observation_key observation in
  guard? match fd_observations db !! key with
         | Some _ => true
         | None => bool_decide ((co_device_id observation, co_endpoint_id observation)
                                ∈ db_endpoints (fd_db db))
         end else Se_Constraint in
  Ok (set_children db (fd_db db) (fd_capabilities db) (fd_aliases db) (fd_device_spaces db)
        (<[key := observation]> (fd_observations db))).

(** [cursor INTEGER PRIMARY KEY AUTOINCREMENT], [id TEXT UNIQUE]. *)
Definition insert_event (db : FoundationDb) (event : DomainEvent) : result FoundationDb StorageError :=
  guard? match ev_device_id event with
         | None => true
         | Some device_id => bool_decide (is_Some (fd_devices db !! device_id))
         end else Se_Constraint in
  guard? forallb (fun row => negb (String.eqb (ev_id (cev_event row)) (ev_id event))) (fd_events db)
    else Se_Constraint in
  guard? (Z.of_N (fd_sequence db) <? i64_max)%Z else Se_Constraint in
  let cursor := (fd_sequence db + 1)%N in
  Ok (set_events db (fd_events db ++ [mk_cursor_event cursor event]) cursor).

Definition upsert_repair (db : FoundationDb) (repair : RepairRecord) :
  result FoundationDb StorageError :=
  guard? match fd_repairs db !! rr_id repair, rr_device_id repair with
         | None, Some device_id => bool_decide (is_Some (fd_devices db !! device_id))
         | _, _ => true
         end else Se_Constraint in
  Ok (set_repairs db (<[rr_id repair := repair]> (fd_repairs db))).

(** One transaction: an error leaves the database as it was. *)
Definition apply (db : FoundationDb) (write : FoundationWrite) : result FoundationDb StorageError :=
  let? db := try_fold upsert_installation db (fw_installations write) in
  let? db := try_fold upsert_integration db (fw_integrations write) in
  let? db := try_fold upsert_space db (fw_spaces write) in
  let? db := try_fold upsert_device db (fw_devices write) in
  let? db := try_fold upsert_observation db (fw_observations write) in
  let? db := try_fold insert_event db (fw_events write) in
  try_fold upsert_repair db (fw_repairs write).

(** ** Reading *)

(** [ORDER BY id]. *)
Definition ordered {A : Type} (table : gmap string A) : list A :=
  map snd (merge_sort key_le (map_to_list table)).

(** [ORDER BY device_id, endpoint_id, capability_name, capability_version]. *)
Definition observation_le (a b : (string * string * string * N) * CapabilityObservation) : Prop :=
  let '(d1, e1, n1, v1) := a.1 in
  let '(d2, e2, n2, v2) := b.1 in
  str_ltb d1 d2 = true \/
  (d1 = d2 /\ (str_ltb e1 e2 = true \/
    (e1 = e2 /\ (str_ltb n1 n2 = true \/ (n1 = n2 /\ (v1 <= v2)%N))))).
#[export] Instance observation_le_dec : RelDecision observation_le.
Proof. intros [[[[? ?] ?] ?] ?] [[[[? ?] ?] ?] ?]. unfold observation_le. simpl. apply _. Defined.

Definition load_event_cursor (db : FoundationDb) : option N := cev_cursor <$> last (fd_events db).

Definition load (db : FoundationDb) : FoundationSnapshot :=
  mk_foundation (ordered (fd_installations db)) (map ir_payload (ordered (fd_integrations db)))
    (ordered (fd_spaces db)) (map dv_payload (ordered (fd_devices db)))
    (map snd (merge_sort observation_le (map_to_list (fd_observations db))))
    (ordered (fd_repairs db)) (load_event_cursor db).

Definition repository_health (db : FoundationDb) (health : StorageHealth) :
  result RepositoryHealth StorageError :=
  let? page := load_events_after (fd_events db) 0 0 in
  Ok (mk_repository_health "sqlite" (Some (sh_schema_version health)) (sh_integrity health)
        (Some (sh_wal_enabled health)) (evp_earliest_cursor page) (evp_latest_cursor page)).
End FoundationStore.

(** ** The in-memory repository *)

Module MemoryFoundation.
Section Memory.
Context `{SerdeJson}.

Record MemoryState := mk_memory {
  mem_snapshot : FoundationSnapshot;
  mem_events : list CursorEvent
}.

(** A table is drained into an ordered map, extended, and refilled. *)
Definition upsert_by {A : Type} (key : A -> string) (current incoming : list A) : list A :=
  map snd (fold_left (fun values value => binsert (key value) value values) incoming
    (bcollect (map (fun value => (key value, value)) current))).

Definition upsert_installations := upsert_by in_id.
Definition upsert_integrations := upsert_by ii_id.
Definition upsert_spaces := upsert_by Device.sp_id.
Definition upsert_devices := upsert_by (fun value : DeviceRecord => ds_id (dr_snapshot value)).
Definition upsert_repairs := upsert_by rr_id.

Definition same_target (current observation : CapabilityObservation) : bool :=
  String.eqb (co_device_id current) (co_device_id observation)
  && String.eqb (co_endpoint_id current) (co_endpoint_id observation)
  && bool_decide (co_capability current = co_capability observation).

(** The first observation of the target is replaced, or a new one is pushed. *)
Fixpoint upsert_observation (observations : list CapabilityObservation)
  (observation : CapabilityObservation) : list CapabilityObservation :=
  match observations with
  | [] => [observation]
  | current :: rest =>
      if same_target current observation then observation :: rest
      else current :: upsert_observation rest observation
  end.

Fixpoint push_events (current offset : N) (events : list DomainEvent) : list CursorEvent :=
  match events with
  | [] => []
  | event :: events =>
      mk_cursor_event (u64_saturating_add (u64_saturating_add current offset) 1) event
        :: push_events current (u64_saturating_add offset 1) events
  end.

Definition apply (state : MemoryState) (write : FoundationWrite) : MemoryState :=
  let s := mem_snapshot state in
  let current := default 0%N (fs_event_cursor s) in
  let events := mem_events state ++ push_events current 0 (fw_events write) in
  mk_memory
    (mk_foundation
       (upsert_installations (fs_installations s) (fw_installations write))
       (upsert_integrations (fs_integrations s) (fw_integrations write))
       (upsert_spaces (fs_spaces s) (fw_spaces write))
       (upsert_devices (fs_devices s) (fw_devices write))
       (fold_left upsert_observation (fw_observations write) (fs_observations s))
       (upsert_repairs (fs_repairs s) (fw_repairs write))
       (match fw_events write with
        | [] => fs_event_cursor s
        | _ => cev_cursor <$> last events
        end))
    events.

Definition load (state : MemoryState) : FoundationSnapshot := mem_snapshot state.

Definition health (state : MemoryState) : RepositoryHealth :=
  mk_repository_health "memory" None "ok" None (cev_cursor <$> head (mem_events state))
    (cev_cursor <$> last (mem_events state)).

Definition events_after (state : MemoryState) (cursor : N) (limit : nat) : EventPage :=
  mk_event_page (cev_cursor <$> head (mem_events state)) (cev_cursor <$> last (mem_events state))
    (take limit (List.filter (fun row => N.ltb cursor (cev_cursor row)) (mem_events state))).
End Memory.
End MemoryFoundation.
