(* ===== verification/Reconciliation.v ===== *)
(** The in-memory device projection,
    [crates/homemagic-application/src/registry.rs]: records in the order of their
    identities behind one lock, so every method is one atomic step; and the
    reconciliation of discovered candidates with the known devices,
    reconciliation.rs.  The random identities that function draws are a supply
    [draws], numbered in the order of the draws. *)

From S2P Require Import Prelude Text BTree Json Capability Lifecycle Device Command CommandService Identity.

Module DeviceRegistry.
Section Registry.
Context `{SerdeJson}.

Abbreviation Records := (list (string * DeviceRecord)) (only parsing).

Definition record_id (record : DeviceRecord) : DeviceId := ds_id (dr_snapshot record).

Definition load (records : list DeviceRecord) : list (string * DeviceRecord) :=
  bcollect (map (fun record => (record_id record, record)) records).

Definition upsert_all (registry : list (string * DeviceRecord)) (records : list DeviceRecord) :
  list (string * DeviceRecord) :=
  fold_left (fun registry record => binsert (record_id record) record registry) records registry.

Definition list_ (registry : list (string * DeviceRecord)) : list DeviceSnapshot :=
  map (fun kv => dr_snapshot kv.2) registry.

Definition records (registry : list (string * DeviceRecord)) : list DeviceRecord := map snd registry.

Definition get (registry : list (string * DeviceRecord)) (id : DeviceId) : option DeviceSnapshot :=
  dr_snapshot <$> bget id registry.

Definition get_record (registry : list (string * DeviceRecord)) (id : DeviceId) :
  option DeviceRecord := bget id registry.
End Registry.
End DeviceRegistry.

(** An invariant failure holds the text of the error it wraps. *)
Inductive InvariantError :=
| Inv_MissingDevice
| Inv_Timestamp (error : TimestampError)
| Inv_Lifecycle (error : LifecycleTransitionError).

(** [lib.rs]. *)
Inductive ApplicationError :=
| Ap_Integration (integration : string) (source : BoxError)
| Ap_Repository (operation : string) (source : BoxError)
| Ap_EventDelivery (source : BoxError)
| Ap_DomainInvariant (error : InvariantError)
| Ap_DeviceNotFound (device_id : DeviceId)
| Ap_SpaceNotFound (space_id : SpaceId)
| Ap_InvalidMetadata (field reason : string)
| Ap_CursorExpired (requested earliest : N)
| Ap_Session (operation : string) (source : BoxError).

Section Reconciliation.
Context `{SerdeJson} `{Uuids}.

Record ReconciliationOutcome := mk_outcome {
  ro_devices : list DeviceRecord;
  ro_events : list DomainEvent;
  ro_repairs : list RepairRecord;
  ro_accepted : nat
}.

(** The local variables of the function, and the draws it has made. *)
Record Reconciling := mk_reconciling {
  rc_records : list (string * DeviceRecord);
  rc_native : gmap (string * string) DeviceId;
  rc_changed : list (string * DeviceRecord);
  rc_events : list DomainEvent;
  rc_repairs : list RepairRecord;
  rc_accepted : nat;
  rc_draws : nat
}.

Definition set_repairs (s : Reconciling) (repairs : list RepairRecord) (draws : nat) : Reconciling :=
  mk_reconciling (rc_records s) (rc_native s) (rc_changed s) (rc_events s) repairs (rc_accepted s)
    draws.

Definition with_availability (record : DeviceRecord) (availability : Availability) : DeviceRecord :=
  mk_device (dr_installation_id record) (dr_integration_id record) (dr_snapshot record)
    (dr_lifecycle record) availability (dr_timestamps record) (dr_aliases record)
    (dr_spaces record) (dr_capability_descriptors record).

Definition with_timestamps (record : DeviceRecord) (timestamps : DeviceTimestamps) : DeviceRecord :=
  mk_device (dr_installation_id record) (dr_integration_id record) (dr_snapshot record)
    (dr_lifecycle record) (dr_availability record) timestamps (dr_aliases record)
    (dr_spaces record) (dr_capability_descriptors record).

Definition timestamps_error {A : Type} (r : result A TimestampError) : result A ApplicationError :=
  map_err (fun error => Ap_DomainInvariant (Inv_Timestamp error)) r.

Definition lifecycle_error {A : Type} (r : result A LifecycleTransitionError) :
  result A ApplicationError :=
  map_err (fun error => Ap_DomainInvariant (Inv_Lifecycle error)) r.

Definition identity_collision (id : string) (candidate : DiscoveryCandidate) (conflicting : DeviceId) :
  RepairRecord :=
  RepairRecord.new id (Some conflicting)
    (IdentityCollision (dc_integration_id candidate) (ds_native_id (dc_snapshot candidate))
       [conflicting; ds_id (dc_snapshot candidate)])
    "Integration-native identity collision requires operator review" (dc_discovered_at candidate).

Definition lifecycle_event (id : EventId) (record : DeviceRecord) (from : DeviceLifecycle)
  (trigger : LifecycleTrigger) (causation : CausationMetadata) : DomainEvent :=
  mk_event id (Some (ds_id (dr_snapshot record))) (ds_observed_at (dr_snapshot record)) causation
    (Ev_LifecycleChanged from (dr_lifecycle record) trigger).

Definition availability_event (id : EventId) (record : DeviceRecord) (from : AvailabilityState)
  (causation : CausationMetadata) : DomainEvent :=
  mk_event id (Some (ds_id (dr_snapshot record))) (ds_observed_at (dr_snapshot record)) causation
    (Ev_AvailabilityChanged from (av_state (dr_availability record)) (av_reason (dr_availability record))).

(** [record.availability.transition(Online, record.snapshot.observed_at, None)]. *)
Definition online (record : DeviceRecord) : DeviceRecord :=
  with_availability record
    (Availability.transition (dr_availability record) Av_Online
       (ds_observed_at (dr_snapshot record)) None).

Section Draws.
Context (draws : nat -> string) (causation : CausationMetadata).

(** Returns the record, the events it pushes and the number of draws. *)
Definition update_record (record : DeviceRecord) (candidate : DiscoveryCandidate) (n : nat) :
  result (DeviceRecord * list DomainEvent * nat) ApplicationError :=
  let previous_lifecycle := dr_lifecycle record in
  let previous_availability := av_state (dr_availability record) in
  let record := replace_snapshot record (dc_snapshot candidate) in
  let? timestamps := timestamps_error
    (DeviceTimestamps.record_seen (dr_timestamps record) (dc_discovered_at candidate)) in
  let? timestamps := timestamps_error
    (DeviceTimestamps.record_success timestamps (ds_observed_at (dr_snapshot record))) in
  let record := with_timestamps record timestamps in
  let? (record, events, n) :=
    if bool_decide (dr_lifecycle record = Enrolled) then Ok (record, [], n)
    else
      let trigger := if bool_decide (dr_lifecycle record = Candidate) then Enroll else Rediscover in
      let? record := lifecycle_error (Device.transition record trigger) in
      Ok (record, [lifecycle_event (draws n) record previous_lifecycle trigger causation], S n) in
  let record := online record in
  if bool_decide (previous_availability = av_state (dr_availability record))
  then Ok (record, events, n)
  else Ok (record, events ++ [availability_event (draws n) record previous_availability causation], S n).

(** The record of a candidate that is not known yet. *)
Definition enroll_candidate (candidate : DiscoveryCandidate) : result DeviceRecord ApplicationError :=
  let first_seen := Z.min (dc_discovered_at candidate) (ds_observed_at (dc_snapshot candidate)) in
  let record := Device.candidate (dc_installation_id candidate) (dc_integration_id candidate)
    (dc_snapshot candidate) first_seen in
  let? record := lifecycle_error (Device.transition record Enroll) in
  let? timestamps := timestamps_error
    (DeviceTimestamps.record_success (dr_timestamps record) (ds_observed_at (dr_snapshot record))) in
  Ok (online (with_timestamps record timestamps)).

(** The body of the loop. *)
Definition reconcile_candidate (s : Reconciling) (candidate : DiscoveryCandidate) :
  result Reconciling ApplicationError :=
  let n := rc_draws s in
  let repairs := rc_repairs s ++ dc_repairs candidate in
  let snapshot := dc_snapshot candidate in
  let expected_id := DeviceId.from_integration (dc_integration_id candidate) (ds_native_id snapshot) in
  if negb (String.eqb (ds_id snapshot) expected_id)
  then Ok (set_repairs s (repairs ++ [identity_collision (draws n) candidate expected_id]) (S n))
  else
    let native_key := (dc_integration_id candidate, ds_native_id snapshot) in
    match rc_native s !! native_key with
    | Some id =>
        let? record := ok_or (bget id (rc_records s)) (Ap_DomainInvariant Inv_MissingDevice) in
        let known_id := ds_id (dr_snapshot record) in
        if negb (String.eqb known_id (ds_id snapshot))
        then Ok (set_repairs s (repairs ++ [identity_collision (draws n) candidate known_id]) (S n))
        else
          let? (updated, events, n) := update_record record candidate n in
          let changed :=
            if device_eqb updated record then rc_changed s
            else binsert known_id updated (rc_changed s) in
          Ok (mk_reconciling (binsert id updated (rc_records s)) (rc_native s) changed
                (rc_events s ++ events) repairs (S (rc_accepted s)) n)
    | None =>
        let? record := enroll_candidate candidate in
        let id := ds_id (dr_snapshot record) in
        let events :=
          [lifecycle_event (draws n) record Candidate Enroll causation;
           availability_event (draws (S n)) record Av_Unknown causation] in
        Ok (mk_reconciling (binsert id record (rc_records s)) (<[native_key := id]> (rc_native s))
              (binsert id record (rc_changed s)) (rc_events s ++ events) repairs
              (S (rc_accepted s)) (S (S n)))
    end.
End Draws.

Definition native_key (record : DeviceRecord) : string * string :=
  (dr_integration_id record, ds_native_id (dr_snapshot record)).

(** The maps the function builds from the known devices. *)
Definition index_records (existing : list DeviceRecord) : list (string * DeviceRecord) :=
  bcollect (map (fun record => (ds_id (dr_snapshot record), record)) existing).

Definition index_natives (records : list (string * DeviceRecord)) : gmap (string * string) DeviceId :=
  fold_left (fun index kv => <[native_key kv.2 := ds_id (dr_snapshot kv.2)]> index) records ∅.

Definition discovery_causation (correlation_id : string) : CausationMetadata :=
  mk_metadata correlation_id None (Some "system:discovery"%string) None.

Definition reconcile (draws : nat -> string) (existing : list DeviceRecord)
  (candidates : list DiscoveryCandidate) : result ReconciliationOutcome ApplicationError :=
  let records := index_records existing in
  let start := mk_reconciling records (index_natives records) [] [] [] 0 1 in
  let? s := try_fold (reconcile_candidate draws (discovery_causation (draws 0))) start candidates in
  Ok (mk_outcome (map snd (rc_changed s)) (rc_events s) (rc_repairs s) (rc_accepted s)).
End Reconciliation.
