(* ===== verification/Application.v ===== *)
(** The device application service,
    [crates/homemagic-application/src/lib.rs]: the operations it awaits
    ([AppOp]) and its calls as programs over them, with the sink through which
    device sessions deliver live observations. *)

From stdpp Require Import sorting.
From S2P Require Import Prelude Text BTree Json Capability Lifecycle Device Command Effects CommandStore CommandService Identity FoundationStore Reconciliation.

(** The elements of a [BTreeSet<String>], in order. *)
Definition str_le (a b : string) : Prop := str_leb a b = true.
#[export] Instance str_le_dec : RelDecision str_le.
Proof. intros a b. unfold str_le. apply _. Defined.
Definition btree_elements (s : gset string) : list string := merge_sort str_le (elements s).

Record IntegrationRefresh := mk_integration_refresh {
  ir_integration : string;
  ir_devices : nat;
  ir_repairs : nat
}.

Record DeviceMetadataUpdate := mk_metadata_update {
  mu_name : option string;
  mu_aliases : option (gset string);
  mu_spaces : option (gset SpaceId);
  mu_actor : option string
}.

Record ConnectionSummary := mk_connection {
  cs_availability : AvailabilityState;
  cs_reason : option string;
  cs_freshness : FreshnessState;
  cs_last_seen : option Instant;
  cs_last_success : option Instant
}.

(** [try_send] on the bounded channel of refresh requests. *)
Inductive TrySend := Send_Ok | Send_Full | Send_Closed.

Definition name_error {A : Type} (field reason : string) : result A ApplicationError :=
  Err (Ap_InvalidMetadata field reason).

Definition validated_name (name : string) : result string ApplicationError :=
  let name := trim name in
  guard? negb (String.eqb name "") else Ap_InvalidMetadata "name" "empty" in
  guard? (length (chars name) <=? 128) else Ap_InvalidMetadata "name" "too_long" in
  Ok name.

Definition validated_alias (aliases : gset string) (alias : string) :
  result (gset string) ApplicationError :=
  let alias := trim alias in
  guard? negb (String.eqb alias "") else Ap_InvalidMetadata "aliases" "empty" in
  guard? (length (chars alias) <=? 128) else Ap_InvalidMetadata "aliases" "too_long" in
  Ok ({[ alias ]} ∪ aliases).

Definition validated_aliases (aliases : gset string) : result (gset string) ApplicationError :=
  guard? (size aliases <=? 32) else Ap_InvalidMetadata "aliases" "too_many" in
  try_fold validated_alias ∅ (btree_elements aliases).

Section Application.
Context `{SerdeJson} `{Uuids}.

Record DeviceDetails := mk_device_details {
  dd_device : DeviceRecord;
  dd_connection : ConnectionSummary;
  dd_observations : list CapabilityObservation;
  dd_repairs : list RepairRecord
}.

Record LiveObservationBatch := mk_batch {
  lb_observations : list CapabilityObservation;
  lb_events : list DomainEvent
}.

(** ** Awaited operations *)

(** The repository, the event sink, the scanners (by their position), the
    sessions, the locked registry and repair map, the clock, the random
    identities drawn up to the next operation, and the refresh channel. *)
Inductive AppOp :=
| Ao_load
| Ao_apply (write : FoundationWrite)
| Ao_health
| Ao_events_after (cursor : N) (limit : nat)
| Ao_publish (events : list DomainEvent)
| Ao_scan (scanner : nat)
| Ao_session_start (device : DeviceRecord)
| Ao_session_stop (device_id : DeviceId)
| Ao_session_shutdown
| Ao_registry_load (records : list DeviceRecord)
| Ao_records
| Ao_get_record (device_id : DeviceId)
| Ao_upsert_all (records : list DeviceRecord)
| Ao_new_repairs (repairs : list RepairRecord)
| Ao_repairs
| Ao_repair (repair_id : string)
| Ao_extend_repairs (repairs : list RepairRecord)
| Ao_now
| Ao_draws
| Ao_try_send (device_id : DeviceId).

Definition app_resp (op : AppOp) : Type :=
  match op with
  | Ao_load => result FoundationSnapshot BoxError
  | Ao_apply _ => result unit BoxError
  | Ao_health => result RepositoryHealth BoxError
  | Ao_events_after _ _ => result EventPage BoxError
  | Ao_publish _ => result unit BoxError
  | Ao_scan _ => result (list DiscoveryCandidate) BoxError
  | Ao_session_start _ | Ao_session_stop _ | Ao_session_shutdown => result unit BoxError
  | Ao_records => list DeviceRecord
  | Ao_get_record _ => option DeviceRecord
  | Ao_registry_load _ | Ao_upsert_all _ | Ao_new_repairs _ | Ao_extend_repairs _ => unit
  | Ao_repairs => list RepairRecord
  | Ao_repair _ => option RepairRecord
  | Ao_now => Instant
  | Ao_draws => nat -> string
  | Ao_try_send _ => TrySend
  end.

Abbreviation AppProg A := (Prog app_resp A).
Abbreviation AppResult A := (Prog app_resp (result A ApplicationError)).

Definition io (op : AppOp) : AppProg (app_resp op) := perform op.

(** [.await.map_err(wrap)]. *)
Definition app_call {A E F : Type} (m : AppProg (result A E)) (wrap : E -> F) :
  AppProg (result A F) :=
  let! r := m in Ret (map_err wrap r).

Definition app_apply (write : FoundationWrite) (operation : string) : AppResult unit :=
  app_call (io (Ao_apply write)) (Ap_Repository operation).

Definition app_publish (events : list DomainEvent) : AppResult unit :=
  app_call (io (Ao_publish events)) Ap_EventDelivery.

(** The fields of the service that are not reached by operations: the names of
    its scanners, whether sessions are attached, and its thresholds. *)
Record HomeMagicApplication := mk_application {
  app_scanners : list string;
  app_sessions : bool;
  app_freshness_policy : FreshnessPolicy
}.

Definition with_sessions (self : HomeMagicApplication) : HomeMagicApplication :=
  mk_application (app_scanners self) true (app_freshness_policy self).

Definition with_freshness_policy (self : HomeMagicApplication) (policy : FreshnessPolicy) :
  HomeMagicApplication :=
  mk_application (app_scanners self) (app_sessions self) policy.

Definition from_repository (scanners : list string) : AppResult HomeMagicApplication :=
  try! snapshot := app_call (io Ao_load) (Ap_Repository "load") in
  let! _ := io (Ao_registry_load (fs_devices snapshot)) in
  let! _ := io (Ao_new_repairs (fs_repairs snapshot)) in
  Ret (Ok (mk_application scanners false FreshnessPolicy.default)).

Section Calls.
Context (self : HomeMagicApplication).

(** ** Reads *)

Definition repairs : AppProg (list RepairRecord) := io Ao_repairs.

Definition repair (id : string) : AppProg (option RepairRecord) := io (Ao_repair id).

Definition device_freshness (device : DeviceRecord) (now : Instant) : FreshnessState :=
  freshness_at device (app_freshness_policy self) now.

Definition repository_health : AppResult RepositoryHealth :=
  app_call (io Ao_health) (Ap_Repository "health").

Definition events_after (cursor : N) (limit : nat) : AppResult EventPage :=
  try! page :=
    app_call (io (Ao_events_after cursor (Nat.max 1 (Nat.min limit 128))))
      (Ap_Repository "events_after") in
  match evp_earliest_cursor page with
  | Some earliest =>
      guard! negb (u64_saturating_add cursor 1 <? earliest)%N
        else Ap_CursorExpired cursor earliest in
      Ret (Ok page)
  | None => Ret (Ok page)
  end.

Definition device_details (id : DeviceId) (now : Instant) : AppResult DeviceDetails :=
  let! found := io (Ao_get_record id) in
  match found with
  | None => Ret (Err (Ap_DeviceNotFound id))
  | Some device =>
      try! snapshot := app_call (io Ao_load) (Ap_Repository "device_details") in
      let connection :=
        mk_connection (av_state (dr_availability device)) (av_reason (dr_availability device))
          (freshness_at device (app_freshness_policy self) now)
          (Some (ts_last_seen (dr_timestamps device))) (ts_last_success (dr_timestamps device)) in
      Ret (Ok (mk_device_details device connection
        (List.filter (fun observation => String.eqb (co_device_id observation) id)
           (fs_observations snapshot))
        (List.filter (fun repair => bool_decide (rr_device_id repair = Some id))
           (fs_repairs snapshot))))
  end.

(** ** Metadata *)

Definition with_name (device : DeviceRecord) (name : string) : DeviceRecord :=
  let s := dr_snapshot device in
  mk_device (dr_installation_id device) (dr_integration_id device)
    (mk_snapshot (ds_id s) (ds_native_id s) (ds_integration s) name (ds_manufacturer s)
       (ds_model s) (ds_network s) (ds_endpoints s) (ds_observed_at s) (ds_vendor_data s))
    (dr_lifecycle device) (dr_availability device) (dr_timestamps device) (dr_aliases device)
    (dr_spaces device) (dr_capability_descriptors device).

Definition with_aliases (device : DeviceRecord) (aliases : gset string) : DeviceRecord :=
  mk_device (dr_installation_id device) (dr_integration_id device) (dr_snapshot device)
    (dr_lifecycle device) (dr_availability device) (dr_timestamps device) aliases
    (dr_spaces device) (dr_capability_descriptors device).

Definition with_spaces (device : DeviceRecord) (spaces : gset SpaceId) : DeviceRecord :=
  mk_device (dr_installation_id device) (dr_integration_id device) (dr_snapshot device)
    (dr_lifecycle device) (dr_availability device) (dr_timestamps device) (dr_aliases device)
    spaces (dr_capability_descriptors device).

(** The device so far and the fields changed so far. *)
Definition rename (device : DeviceRecord) (name : option string) :
  result (DeviceRecord * list string) ApplicationError :=
  match name with
  | None => Ok (device, [])
  | Some name =>
      let? name := validated_name name in
      if String.eqb (ds_name (dr_snapshot device)) name then Ok (device, [])
      else Ok (with_name device name, ["name"%string])
  end.

Definition replace_aliases (device : DeviceRecord) (fields : list string)
  (aliases : option (gset string)) : result (DeviceRecord * list string) ApplicationError :=
  match aliases with
  | None => Ok (device, fields)
  | Some aliases =>
      let? aliases := validated_aliases aliases in
      if bool_decide (dr_aliases device = aliases) then Ok (device, fields)
      else Ok (with_aliases device aliases, fields ++ ["aliases"%string])
  end.

(** The first assigned space that the snapshot does not hold. *)
Definition unknown_space (snapshot : FoundationSnapshot) (spaces : gset SpaceId) : option SpaceId :=
  List.find (fun space =>
    negb (existsb (fun known => String.eqb (Device.sp_id known) space) (fs_spaces snapshot)))
    (btree_elements spaces).

Definition replace_spaces (device : DeviceRecord) (fields : list string)
  (spaces : option (gset SpaceId)) : AppResult (DeviceRecord * list string) :=
  match spaces with
  | None => Ret (Ok (device, fields))
  | Some spaces =>
      try! snapshot := app_call (io Ao_load) (Ap_Repository "validate_spaces") in
      match unknown_space snapshot spaces with
      | Some space => Ret (Err (Ap_SpaceNotFound space))
      | None =>
          if bool_decide (dr_spaces device = spaces) then Ret (Ok (device, fields))
          else Ret (Ok (with_spaces device spaces, fields ++ ["spaces"%string]))
      end
  end.

Definition update_device_metadata (id : DeviceId) (update : DeviceMetadataUpdate) :
  AppResult DeviceRecord :=
  let! found := io (Ao_get_record id) in
  match found with
  | None => Ret (Err (Ap_DeviceNotFound id))
  | Some device =>
      try! (device, fields) := Ret (rename device (mu_name update)) in
      try! (device, fields) := Ret (replace_aliases device fields (mu_aliases update)) in
      try! (device, fields) := replace_spaces device fields (mu_spaces update) in
      match fields with
      | [] => Ret (Ok device)
      | _ =>
          let! draws := io Ao_draws in
          let! now := io Ao_now in
          let event := mk_event (draws 0) (Some id) now
            (mk_metadata (draws 1) None (mu_actor update) None) (Ev_MetadataChanged fields) in
          try! _ := app_apply (device_write [device] [] [event] []) "update_device_metadata" in
          let! _ := io (Ao_upsert_all [device]) in
          try! _ := app_publish [event] in
          Ret (Ok device)
      end
  end.

(** ** Discovery *)

Definition start_sessions (devices : list DeviceRecord) : AppResult unit :=
  if app_sessions self then
    for_each devices (fun device =>
      if bool_decide (dr_lifecycle device = Enrolled)
      then app_call (io (Ao_session_start device)) (Ap_Session "start")
      else Ret (Ok tt))
  else Ret (Ok tt).

(** One round of the loop over the scanners. *)
Definition refresh_integration (scanner : nat) (integration : string) :
  AppResult IntegrationRefresh :=
  try! candidates := app_call (io (Ao_scan scanner)) (Ap_Integration integration) in
  let! known := io Ao_records in
  let! draws := io Ao_draws in
  try! outcome := Ret (reconcile draws known candidates) in
  try! _ := app_apply (device_write (ro_devices outcome) [] (ro_events outcome) (ro_repairs outcome))
              "reconcile" in
  let! _ := io (Ao_upsert_all (ro_devices outcome)) in
  try! _ := start_sessions (ro_devices outcome) in
  let! _ := io (Ao_extend_repairs (ro_repairs outcome)) in
  try! _ := app_publish (ro_events outcome) in
  Ret (Ok (mk_integration_refresh integration (ro_accepted outcome) (length (ro_repairs outcome)))).

Fixpoint refresh_from (scanner : nat) (integrations : list string)
  (summaries : list IntegrationRefresh) : AppResult (list IntegrationRefresh) :=
  match integrations with
  | [] => Ret (Ok summaries)
  | integration :: integrations =>
      try! summary := refresh_integration scanner integration in
      refresh_from (S scanner) integrations (summaries ++ [summary])
  end.

Definition refresh : AppResult (list IntegrationRefresh) := refresh_from 0 (app_scanners self) [].

(** ** Removal and shutdown *)

Definition remove_device (id : DeviceId) (actor : option string) : AppResult unit :=
  let! found := io (Ao_get_record id) in
  match found with
  | None => Ret (Err (Ap_DeviceNotFound id))
  | Some record =>
      if bool_decide (dr_lifecycle record = Removed) then Ret (Ok tt)
      else
        let from := dr_lifecycle record in
        try! record := Ret (lifecycle_error (Device.transition record Remove)) in
        let availability_from := av_state (dr_availability record) in
        let! now := io Ao_now in
        let record := with_availability record
          (Availability.transition (dr_availability record) Av_Offline now (Some "removed"%string)) in
        let! draws := io Ao_draws in
        let causation := mk_metadata (draws 0) None actor None in
        let events :=
          [mk_event (draws 1) (Some id) now causation (Ev_LifecycleChanged from Removed Remove);
           mk_event (draws 2) (Some id) now causation
             (Ev_AvailabilityChanged availability_from Av_Offline (Some "removed"%string))] in
        try! _ := app_apply (device_write [record] [] events []) "remove_device" in
        let! _ := io (Ao_upsert_all [record]) in
        try! _ :=
          (if app_sessions self then app_call (io (Ao_session_stop id)) (Ap_Session "stop")
           else Ret (Ok tt)) in
        app_publish events
  end.

Definition shutdown : AppResult unit :=
  if app_sessions self
  then app_call (io Ao_session_shutdown) (Ap_Session "shutdown")
  else Ret (Ok tt).

(** ** Freshness *)

(** The device after its assessment; [None] where the loop continues. *)
Definition assess (policy : FreshnessPolicy) (now : Instant) (device : DeviceRecord) :
  result (option DeviceRecord) ApplicationError :=
  if bool_decide (dr_lifecycle device = Candidate) || bool_decide (dr_lifecycle device = Removed)
  then Ok None
  else
    let leave_when lifecycle trigger device :=
      if bool_decide (dr_lifecycle device = lifecycle)
      then lifecycle_error (Device.transition device trigger) else Ok device in
    let becomes state reason device :=
      with_availability device (Availability.transition (dr_availability device) state now reason) in
    match freshness_at device policy now with
    | Fr_Unknown | Fr_Sleeping => Ok None
    | Fr_Fresh =>
        let? device := leave_when Stale Rediscover device in
        Ok (Some (becomes Av_Online None device))
    | Fr_Stale =>
        let? device := leave_when Enrolled MarkStale device in
        Ok (Some (becomes Av_Degraded (Some "stale"%string) device))
    | Fr_Offline =>
        let? device := leave_when Enrolled MarkStale device in
        Ok (Some (becomes Av_Offline (Some "freshness_timeout"%string) device))
    end.

(** The events between the record before and after, from draw [n] on. *)
Definition assessment_events (draws : nat -> string) (causation : CausationMetadata) (now : Instant)
  (before device : DeviceRecord) (n : nat) : list DomainEvent :=
  let id := Some (ds_id (dr_snapshot device)) in
  let lifecycle :=
    if bool_decide (dr_lifecycle device = dr_lifecycle before) then []
    else [mk_event (draws n) id now causation
            (Ev_LifecycleChanged (dr_lifecycle before) (dr_lifecycle device)
               (if bool_decide (dr_lifecycle device = Stale) then MarkStale else Rediscover))] in
  let n := n + length lifecycle in
  lifecycle ++
    (if bool_decide (av_state (dr_availability device) = av_state (dr_availability before)) then []
     else [mk_event (draws n) id now causation
             (Ev_AvailabilityChanged (av_state (dr_availability before))
                (av_state (dr_availability device)) (av_reason (dr_availability device)))]).

(** The changed devices, the events, and the draws made. *)
Definition freshness_round (draws : nat -> string) (causation : CausationMetadata)
  (policy : FreshnessPolicy) (now : Instant)
  (acc : list DeviceRecord * list DomainEvent * nat) (before : DeviceRecord) :
  result (list DeviceRecord * list DomainEvent * nat) ApplicationError :=
  let '(changed, events, n) := acc in
  let? assessed := assess policy now before in
  match assessed with
  | None => Ok acc
  | Some device =>
      let news := assessment_events draws causation now before device n in
      Ok (if bool_decide (news = []) then changed else changed ++ [device],
          events ++ news, n + length news)
  end.

Definition evaluate_freshness (policy : FreshnessPolicy) (now : Instant) : AppResult nat :=
  let! draws := io Ao_draws in
  let causation := mk_metadata (draws 0) None (Some "system:freshness"%string) None in
  let! known := io Ao_records in
  try! (changed, events, n) :=
    Ret (try_fold (freshness_round draws causation policy now) ([], [], 1) known) in
  match changed with
  | [] => Ret (Ok 0)
  | _ =>
      try! _ := app_apply (device_write changed [] events []) "freshness" in
      let! _ := io (Ao_upsert_all changed) in
      try! _ := app_publish events in
      Ret (Ok (length changed))
  end.
End Calls.

End Application.

(** ** The live-observation sink *)

Module LiveSink.
Section LiveSink.
Context `{SerdeJson} `{Uuids}.

Abbreviation AppProg A := (Prog app_resp A).

(** Which optional parts are attached. *)
Record RepositoryLiveObservationSink := mk_live_sink {
  ls_refresh_requests : bool;
  ls_registry : bool
}.

Definition new : RepositoryLiveObservationSink := mk_live_sink false false.

(** [values().map(observed_at).max().unwrap_or(received_at)]. *)
Definition observed_at (observation : CapabilityObservation) : Instant :=
  match map (fun kv => ov_observed_at kv.2) (co_values observation) with
  | [] => co_received_at observation
  | first :: rest => fold_left Z.max rest first
  end.

Definition record_latest (successes : list (string * Instant)) (observation : CapabilityObservation) :
  list (string * Instant) :=
  let observed_at := observed_at observation in
  binsert (co_device_id observation)
    (match bget (co_device_id observation) successes with
     | Some current => Z.max current observed_at
     | None => observed_at
     end) successes.

Definition successes (observations : list CapabilityObservation) : list (string * Instant) :=
  fold_left record_latest observations [].

Definition reached (device : DeviceRecord) (observed_at : Instant) : result DeviceRecord BoxError :=
  let? timestamps :=
    map_err Be_Timestamp (DeviceTimestamps.record_success (dr_timestamps device) observed_at) in
  let device := with_timestamps device timestamps in
  Ok (if bool_decide (av_state (dr_availability device) = Av_Sleeping) then device
      else with_availability device
             (Availability.transition (dr_availability device) Av_Online observed_at None)).

Fixpoint reached_devices (successes : list (string * Instant)) (devices : list DeviceRecord) :
  AppProg (result (list DeviceRecord) BoxError) :=
  match successes with
  | [] => Ret (Ok devices)
  | (device_id, observed_at) :: successes =>
      let! found := io (Ao_get_record device_id) in
      match found with
      | None => reached_devices successes devices
      | Some device =>
          try! device := Ret (reached device observed_at) in
          reached_devices successes (devices ++ [device])
      end
  end.

Definition publish (self : RepositoryLiveObservationSink) (batch : LiveObservationBatch) :
  AppProg (result unit BoxError) :=
  try! devices :=
    (if ls_registry self then reached_devices (successes (lb_observations batch)) []
     else Ret (Ok [])) in
  try! _ := io (Ao_apply (device_write devices (lb_observations batch) (lb_events batch) [])) in
  let! _ := (if ls_registry self then io (Ao_upsert_all devices) else Ret tt) in
  io (Ao_publish (lb_events batch)).

Definition request_refresh (self : RepositoryLiveObservationSink) (device_id : DeviceId) :
  AppProg (result unit BoxError) :=
  if ls_refresh_requests self then
    let! sent := io (Ao_try_send device_id) in
    match sent with
    | Send_Ok | Send_Full => Ret (Ok tt)
    | Send_Closed => Ret (Err Be_RefreshChannelClosed)
    end
  else Ret (Ok tt).
End LiveSink.
End LiveSink.
