(* ===== verification/Authentication.v ===== *)
(** Actor credentials, [crates/homemagic-application/src/authentication.rs]: the
    bearer token, its issue and its check, as programs over the operations they
    await.  The password hash (argon2) and the parser of UUID text are parameters. *)

From stdpp Require Import relations.
From S2P Require Import Prelude Text Json Capability Lifecycle Device Command CommandStore Effects CommandService CommandFixture.

(** The password hash of a secret under a salt, [None] when hashing fails, and
    its check against a stored hash; a hash verifies the secret it was made of. *)
Class Argon2 := {
  argon2_hash : string -> list N -> option string;
  argon2_verify : string -> string -> bool;
  argon2_verify_hash : forall secret salt encoded,
    argon2_hash secret salt = Some encoded -> argon2_verify secret encoded = true
}.

(** [Uuid::parse_str], which yields the canonical text of what it reads; no form
    of a UUID contains a dot. *)
Class UuidText := {
  parse_uuid : string -> option string;
  parse_uuid_canonical : forall text id, parse_uuid text = Some id -> parse_uuid id = Some id;
  parse_uuid_dotless : forall text id, parse_uuid text = Some id -> split_on "." text = [text]
}.

Definition TOKEN_PREFIX : string := "hm1".
Definition SECRET_BYTES : nat := 32.
Definition SALT_BYTES : nat := 16.

Record ActorToken := mk_token { expose : string }.

Inductive ActorAuthenticationError := invalid_credentials.

Inductive ActorManagementError :=
| Ame_Repository (error : BoxError) | Ame_NotFound | Ame_Hashing.

Record ParsedToken := mk_parsed { pt_actor_id : ActorId; pt_secret : string }.

Section Token.
Context `{UuidText}.

Definition parse_token (value : string) : result ParsedToken ActorAuthenticationError :=
  match split_on "." value with
  | prefix :: actor :: secret :: rest =>
      if negb (String.eqb prefix TOKEN_PREFIX)
         || negb (bool_decide (rest = []))
         || negb (String.length secret =? SECRET_BYTES * 2)
         || negb (forallb is_ascii_hexdigit (bytes secret))
         || existsb is_ascii_uppercase (bytes secret)
      then Err invalid_credentials
      else
        let? actor_id := ok_or (parse_uuid actor) invalid_credentials in
        Ok (mk_parsed actor_id secret)
  | _ => Err invalid_credentials
  end.
End Token.

(** [format!("{TOKEN_PREFIX}.{}.{}", actor.id, secret)]. *)
Definition format_token (actor_id : ActorId) (secret : string) : ActorToken :=
  mk_token (TOKEN_PREFIX +:+ "." +:+ actor_id +:+ "." +:+ secret).

(** ** Awaited operations *)

(** The repository, the clock, random identities and bytes, and the two blocking
    tasks, which answer [None] when they do not join. *)
Inductive AuthOp :=
| Au_new_id
| Au_now
| Au_random (count : nat)
| Au_hash (secret : string) (salt : list N)
| Au_verify (secret encoded : string)
| Au_store_actor (actor : Actor) (credential : option ActorCredential)
| Au_replace_grants (actor_id : ActorId) (grants : list ActorGrant)
| Au_actor_security (actor_id : ActorId).

Definition auth_resp (op : AuthOp) : Type :=
  match op with
  | Au_new_id => string
  | Au_now => Instant
  | Au_random _ => list N
  | Au_hash _ _ => option (result string ActorManagementError)
  | Au_verify _ _ => option bool
  | Au_store_actor _ _ | Au_replace_grants _ _ => result unit BoxError
  | Au_actor_security _ => result (option ActorSecurity) BoxError
  end.

Abbreviation AuthProg A := (Prog auth_resp A).

Definition ask (op : AuthOp) : AuthProg (auth_resp op) := perform op.

(** [.await.map_err(ActorManagementError::Repository)]. *)
Definition stored {A : Type} (m : AuthProg (result A BoxError)) :
  AuthProg (result A ActorManagementError) :=
  let! r := m in Ret (map_err Ame_Repository r).

(** ** Issue *)

Section Hashing.
Context `{Argon2}.

Definition hash (secret : string) (salt : list N) : result string ActorManagementError :=
  ok_or (argon2_hash secret salt) Ame_Hashing.

Definition verify (secret encoded : string) : bool := argon2_verify secret encoded.
End Hashing.

Definition issue_credential (actor : Actor) :
  AuthProg (result (ActorToken * ActorCredential) ActorManagementError) :=
  let! secret := ask (Au_random SECRET_BYTES) in
  let! salt := ask (Au_random SALT_BYTES) in
  let secret := hex secret in
  let token := format_token (ac_id actor) secret in
  let! joined := ask (Au_hash secret salt) in
  match joined with
  | None => Ret (Err Ame_Hashing)
  | Some hashed =>
      try! token_hash := Ret hashed in
      let! now := ask Au_now in
      Ret (Ok (token, mk_credential (ac_id actor) token_hash now))
  end.

Definition bootstrap_principal (installation_id : InstallationId) (name : string)
  (kind : ActorKind) : AuthProg (result (Actor * ActorToken) ActorManagementError) :=
  let! id := ask Au_new_id in
  let! now := ask Au_now in
  let actor := mk_actor id installation_id kind name true now in
  try! (token, credential) := issue_credential actor in
  try! _ := stored (ask (Au_store_actor actor (Some credential))) in
  Ret (Ok (actor, token)).

Definition bootstrap (installation_id : InstallationId) (name : string) :
  AuthProg (result (Actor * ActorToken) ActorManagementError) :=
  bootstrap_principal installation_id name Ak_User.

(** [actor_security(..).await.map_err(..)?.ok_or(NotFound)?]. *)
Definition known_security (actor_id : ActorId) :
  AuthProg (result ActorSecurity ActorManagementError) :=
  try! found := stored (ask (Au_actor_security actor_id)) in
  Ret (ok_or found Ame_NotFound).

Definition rotate (actor_id : ActorId) : AuthProg (result ActorToken ActorManagementError) :=
  try! security := known_security actor_id in
  try! (token, credential) := issue_credential (as_actor security) in
  try! _ := stored (ask (Au_store_actor (as_actor security) (Some credential))) in
  Ret (Ok token).

Definition disabled (actor : Actor) : Actor :=
  mk_actor (ac_id actor) (ac_installation_id actor) (ac_kind actor) (ac_name actor) false
    (ac_created_at actor).

Definition disable (actor_id : ActorId) : AuthProg (result unit ActorManagementError) :=
  try! security := known_security actor_id in
  stored (ask (Au_store_actor (disabled (as_actor security)) None)).

Definition replace_grants (actor_id : ActorId) (grants : list ActorGrant) :
  AuthProg (result unit ActorManagementError) :=
  stored (ask (Au_replace_grants actor_id grants)).

(** ** Check *)

Section Authenticate.
Context `{UuidText}.

Definition authenticate (bearer : string) : AuthProg (result Actor ActorAuthenticationError) :=
  try! parsed := Ret (parse_token bearer) in
  let! answer := ask (Au_actor_security (pt_actor_id parsed)) in
  match answer with
  | Err _ | Ok None => Ret (Err invalid_credentials)
  | Ok (Some security) =>
      guard! ac_enabled (as_actor security) else invalid_credentials in
      match as_credential security with
      | None => Ret (Err invalid_credentials)
      | Some credential =>
          let! joined := ask (Au_verify (pt_secret parsed) (cr_token_hash credential)) in
          match joined with
          | Some true => Ret (Ok (as_actor security))
          | Some false | None => Ret (Err invalid_credentials)
          end
      end
  end.
End Authenticate.

(** * The actor credentials in their database: the tokens the parser reads are
    exactly those that are issued; the token of a bootstrap or rotation
    authenticates its actor and no other bearer changes; a disabled actor is
    refused; and the disabling that a concurrent rotation reverts. *)

Section Props.
Context `{Argon2} `{UuidText}.

(** ** The token *)

(** A bearer is read exactly when it is the text of a token: the prefix, a UUID
    and the digits of 32 bytes. *)
Lemma parse_token_spec bearer parsed :
  parse_token bearer = Ok parsed <->
  exists text secret, parse_uuid text = Some (pt_actor_id parsed) /\
    length secret = SECRET_BYTES /\ Forall (fun b => (b < 256)%N) secret /\
    pt_secret parsed = hex secret /\ bearer = expose (format_token text (hex secret)).
Proof.
  split.
  - unfold parse_token. pose proof (join_split_on "." bearer) as Hj.
    destruct (split_on "." bearer) as [|prefix [|actor [|secret rest]]]; try discriminate.
    destruct (negb _ || _ || _ || _ || _) eqn:Hc; [discriminate|].
    apply orb_false_iff in Hc as [Hc Hu].
    apply orb_false_iff in Hc as [Hc Hd%negb_false_iff].
    apply orb_false_iff in Hc as [Hc Hl%negb_false_iff%Nat.eqb_eq].
    apply orb_false_iff in Hc as [Hp%negb_false_iff%String.eqb_eq Hr%negb_false_iff%bool_decide_eq_true].
    subst prefix rest. ok_inv. intros. ok_inv. simplify_eq.
    destruct (hex_unhex SECRET_BYTES secret) as (Hs & Hn & Hb); [lia|done..|].
    exists actor, (unhex secret). rewrite Hs. cbn [pt_actor_id pt_secret]. done.
  - intros (text & secret & Hp & Hl & Hb & Hs & ->).
    destruct parsed as [id digits]. cbn [pt_actor_id pt_secret] in *. subst digits.
    unfold parse_token, format_token. cbn [expose].
    change (TOKEN_PREFIX +:+ "." +:+ text +:+ "." +:+ hex secret)
      with (TOKEN_PREFIX +:+ String "." (text +:+ String "." (hex secret))).
    rewrite !split_on_app, hex_no_dot, (parse_uuid_dotless _ _ Hp) by done.
    cbn [split_on TOKEN_PREFIX Ascii.eqb Bool.eqb app].
    destruct (hex_bytes _ Hb) as [-> ->]. rewrite hex_length, Hl, Hp. reflexivity.
Qed.

(** ** The database *)

(** What the environment answers; a write that fails leaves no trace. *)
Definition legal (op : AuthOp) : auth_resp op -> Db -> Prop :=
  match op with
  | Au_new_id => fun id db => parse_uuid id = Some id /\ db_actors db !! id = None
  | Au_now => fun _ _ => True
  | Au_random count => fun bs _ => length bs = count /\ Forall (fun b => (b < 256)%N) bs
  | Au_hash secret salt => fun r _ => r = None \/ r = Some (hash secret salt)
  | Au_verify secret encoded => fun r _ => r = None \/ r = Some (verify secret encoded)
  | Au_store_actor actor credential => fun r db =>
      match r with Ok _ => is_ok (store_actor db actor credential) = true | Err _ => True end
  | Au_replace_grants id grants => fun r db =>
      match r with Ok _ => is_ok (replace_actor_grants db id grants) = true | Err _ => True end
  | Au_actor_security id => fun r db =>
      match r with Ok s => s = load_actor_security db id | Err _ => True end
  end.

Definition after (op : AuthOp) : auth_resp op -> Db -> Db :=
  match op with
  | Au_store_actor actor credential => fun r db =>
      match r, store_actor db actor credential with Ok _, Ok db' => db' | _, _ => db end
  | Au_replace_grants id grants => fun r db =>
      match r, replace_actor_grants db id grants with Ok _, Ok db' => db' | _, _ => db end
  | _ => fun _ db => db
  end.

Abbreviation alone m db Q := (always legal after m db Q).

(** The actor a credential check of the secret yields. *)
Definition accepts_secret (db : Db) (id : ActorId) (secret : string) : option Actor :=
  row ← db_actors db !! id;
  credential ← db_credentials db !! id;
  if ac_enabled (ar_payload row) && verify secret credential.1 then Some (ar_payload row) else None.

(** The actor a bearer stands for. *)
Definition accepts (db : Db) (bearer : string) : option Actor :=
  parsed ← result_ok (parse_token bearer); accepts_secret db (pt_actor_id parsed) (pt_secret parsed).

(** Every actor is stored under its identity and in its installation. *)
Definition actors_ok (db : Db) : Prop :=
  forall id row, db_actors db !! id = Some row ->
    ac_id (ar_payload row) = id /\ parse_uuid id = Some id /\
    ar_installation_id row = ac_installation_id (ar_payload row).

(** Without failures the check answers with that actor, else with the one error. *)
Definition serve (op : AuthOp) : Db -> auth_resp op * Db :=
  match op with
  | Au_actor_security id => fun db => (Ok (load_actor_security db id), db)
  | Au_verify secret encoded => fun db => (Some (verify secret encoded), db)
  | Au_new_id => fun db => (""%string, db)
  | Au_now => fun db => (0%Z, db)
  | Au_random _ => fun db => ([], db)
  | Au_hash _ _ => fun db => (None, db)
  | Au_store_actor _ _ | Au_replace_grants _ _ => fun db => (Ok tt, db)
  end.

Lemma authenticate_accepts db bearer :
  run serve (authenticate bearer) db = (ok_or (accepts db bearer) invalid_credentials, db).
Proof.
  unfold authenticate, accepts. destruct (parse_token bearer) as [parsed|[]]; [|done].
  unfold accepts_secret. cbn. unfold load_actor_security.
  destruct (db_actors db !! pt_actor_id parsed) as [row|]; [|done]. cbn.
  destruct (db_credentials db !! pt_actor_id parsed) as [[encoded at_]|]; cbn;
    destruct (ac_enabled (ar_payload row)); cbn; try done.
  by destruct (verify (pt_secret parsed) encoded).
Qed.

Lemma authenticate_sound db bearer :
  alone (authenticate bearer) db (fun r db' => db' = db /\
    forall actor, r = Ok actor -> accepts db bearer = Some actor).
Proof.
  unfold authenticate, accepts. destruct (parse_token bearer) as [parsed|[]]; [|done].
  cbn. intros [found|e]; [|done]. intros ->. unfold load_actor_security, accepts_secret.
  destruct (db_actors db !! pt_actor_id parsed) as [row|]; [|done]. cbn.
  destruct (db_credentials db !! pt_actor_id parsed) as [[encoded at_]|]; cbn;
    destruct (ac_enabled (ar_payload row)); cbn; try done.
  intros r [->| ->]; [done|]. destruct (verify (pt_secret parsed) encoded); [|done].
  split; [done|]. by intros actor [= ->].
Qed.
(** ** The calls *)

Inductive AuthCall :=
| Call_bootstrap (installation_id : InstallationId) (name : string) (kind : ActorKind)
| Call_rotate (actor_id : ActorId)
| Call_disable (actor_id : ActorId)
| Call_replace_grants (actor_id : ActorId) (grants : list ActorGrant).

(** What a call returns: the actor of a bootstrap, and a token. *)
Abbreviation AuthResult := (result (option Actor * option ActorToken) ActorManagementError).

Definition perform_call (call : AuthCall) : AuthProg AuthResult :=
  match call with
  | Call_bootstrap installation_id name kind =>
      try! (actor, token) := bootstrap_principal installation_id name kind in
      Ret (Ok (Some actor, Some token))
  | Call_rotate id => try! token := rotate id in Ret (Ok (None, Some token))
  | Call_disable id => try! _ := disable id in Ret (Ok (None, None))
  | Call_replace_grants id grants => try! _ := replace_grants id grants in Ret (Ok (None, None))
  end.

(** The bearers that name [id] are answered by [answer], the others as before. *)
Definition answers_for (db db' : Db) (id : ActorId) (answer : string -> option Actor) : Prop :=
  forall bearer, accepts db' bearer =
    match parse_token bearer with
    | Ok parsed => if String.eqb (pt_actor_id parsed) id then answer (pt_secret parsed)
                   else accepts db bearer
    | Err _ => None
    end.

(** From now on the actor is checked against the hash of this token alone. *)
Definition issued (db db' : Db) (actor : Actor) (token : ActorToken) : Prop :=
  accepts db' (expose token) = (if ac_enabled actor then Some actor else None) /\
  exists secret salt encoded,
    token = format_token (ac_id actor) (hex secret) /\ length secret = SECRET_BYTES /\
    argon2_hash (hex secret) salt = Some encoded /\
    answers_for db db' (ac_id actor) (fun secret =>
      if ac_enabled actor && verify secret encoded then Some actor else None).

Definition outcome (call : AuthCall) (db : Db) (r : AuthResult) (db' : Db) : Prop :=
  match r with
  | Err _ => db' = db
  | Ok (actor, token) =>
      match call with
      | Call_bootstrap installation_id name kind =>
          exists id now token', let created := mk_actor id installation_id kind name true now in
            actor = Some created /\ token = Some token' /\ db_actors db !! id = None /\
            issued db db' created token'
      | Call_rotate id =>
          exists row token', db_actors db !! id = Some row /\ token = Some token' /\
            issued db db' (ar_payload row) token'
      | Call_disable id => is_Some (db_actors db !! id) /\ answers_for db db' id (fun _ => None)
      | Call_replace_grants id _ => forall bearer, accepts db' bearer = accepts db bearer
      end
  end.

Lemma store_actor_ok db actor credential db' :
  store_actor db actor credential = Ok db' ->
  exists row, ar_payload row = actor /\ ar_installation_id row = ac_installation_id actor /\
    db_actors db' = <[ac_id actor := row]> (db_actors db) /\
    db_credentials db' = match credential with
      | Some value => <[ac_id actor := (cr_token_hash value, cr_rotated_at value)]> (db_credentials db)
      | None => db_credentials db end.
Proof.
  unfold store_actor. destruct (match credential with Some _ => _ | None => _ end); [discriminate|].
  intros Hok. ok_inv. destruct (db_actors db !! ac_id actor) as [row|] eqn:Hrow.
  - destruct (String.eqb_spec (ar_installation_id row) (ac_installation_id actor)) as [Hi|]; [|discriminate].
    ok_inv. simplify_eq. eexists. do 2 (split; [shelve|]). by split. Unshelve. all: done.
  - ok_inv. simplify_eq. eexists. do 2 (split; [shelve|]). by split. Unshelve. all: done.
Qed.

Lemma store_actor_keeps db actor credential db' :
  store_actor db actor credential = Ok db' -> parse_uuid (ac_id actor) = Some (ac_id actor) ->
  actors_ok db -> actors_ok db'.
Proof.
  intros (row & Hp & Hi & Ha & _)%store_actor_ok Hid Hok id row'. rewrite Ha.
  intros [[<- <-]|[_ Hr]]%lookup_insert_Some; [|by apply Hok]. by rewrite Hp, Hi.
Qed.

Lemma accepts_elsewhere db db' id row :
  db_actors db' = <[id := row]> (db_actors db) ->
  (forall other, other <> id -> db_credentials db' !! other = db_credentials db !! other) ->
  answers_for db db' id (fun secret => accepts_secret db' id secret).
Proof.
  intros Ha Hc bearer. unfold accepts. destruct (parse_token bearer) as [parsed|]; [|done]. simpl.
  destruct (String.eqb_spec (pt_actor_id parsed) id) as [->|Hne]; [done|].
  unfold accepts_secret. by rewrite Ha, lookup_insert_ne, Hc by congruence.
Qed.
(** A token together with the hash its credential stores. *)
Definition minted (actor : Actor) (token : ActorToken) (credential : ActorCredential) : Prop :=
  cr_actor_id credential = ac_id actor /\
  exists secret salt, token = format_token (ac_id actor) (hex secret) /\
    length secret = SECRET_BYTES /\ Forall (fun b => (b < 256)%N) secret /\
    argon2_hash (hex secret) salt = Some (cr_token_hash credential).

Lemma issue_minted actor db :
  alone (issue_credential actor) db (fun r db' => db' = db /\
    match r with Ok (token, credential) => minted actor token credential | Err _ => True end).
Proof.
  cbn. intros secret [Hl Hb] salt _ joined [->| ->]; [done|].
  unfold hash. destruct (argon2_hash (hex secret) salt) as [encoded|] eqn:He; [|done].
  cbn. intros now _. split; [done|]. split; [done|]. by exists secret, salt.
Qed.

Lemma store_issued db actor token credential db' :
  minted actor token credential -> parse_uuid (ac_id actor) = Some (ac_id actor) ->
  store_actor db actor (Some credential) = Ok db' -> issued db db' actor token.
Proof.
  intros (_ & secret & salt & -> & Hl & Hb & He) Hid (row & Hp & _ & Ha & Hc)%store_actor_ok.
  assert (Hs : forall secret, accepts_secret db' (ac_id actor) secret
    = if ac_enabled actor && verify secret (cr_token_hash credential) then Some actor else None).
  { intros text. unfold accepts_secret. rewrite Ha, Hc, !lookup_insert_eq. simpl. by rewrite Hp. }
  assert (Hall : answers_for db db' (ac_id actor) (accepts_secret db' (ac_id actor))).
  { eapply accepts_elsewhere; [done|]. intros other Hne. by rewrite Hc, lookup_insert_ne. }
  split.
  - rewrite (Hall _).
    assert (parse_token (expose (format_token (ac_id actor) (hex secret)))
      = Ok (mk_parsed (ac_id actor) (hex secret))) as ->.
    { apply parse_token_spec. by exists (ac_id actor), secret. }
    cbn [pt_actor_id pt_secret]. rewrite String.eqb_refl, Hs.
    unfold verify. rewrite (argon2_verify_hash _ _ _ He). by rewrite andb_true_r.
  - exists secret, salt, (cr_token_hash credential). do 3 (split; [done|]).
    intros bearer. rewrite (Hall bearer). destruct (parse_token bearer) as [parsed|]; [|done].
    by destruct (String.eqb _ _); [rewrite Hs|].
Qed.

Lemma known_security_found id db :
  actors_ok db ->
  alone (known_security id) db (fun r db' => db' = db /\
    match r with
    | Ok security => exists row, db_actors db !! id = Some row /\ as_actor security = ar_payload row
        /\ ac_id (ar_payload row) = id /\ parse_uuid id = Some id
    | Err _ => True
    end).
Proof.
  intros Hok. cbn. intros [found|e]; [|done]. intros ->. cbn.
  unfold load_actor_security. destruct (db_actors db !! id) as [row|] eqn:Hr; [|done].
  cbn. split; [done|]. exists row. destruct (Hok _ _ Hr) as (Hi & Hp & _). done.
Qed.

Lemma alone_ask {B} op db (k : auth_resp op -> AuthProg B) Q :
  (forall r, legal op r db -> alone (k r) (after op r db) Q) -> alone (bind (ask op) k) db Q.
Proof. exact id. Qed.

(** The write at the end of a call. *)
Lemma alone_store {B} actor credential db (k : result unit ActorManagementError -> AuthProg B) Q :
  (forall e, alone (k (Err e)) db Q) ->
  (forall db', store_actor db actor credential = Ok db' -> alone (k (Ok tt)) db' Q) ->
  alone (bind (stored (ask (Au_store_actor actor credential))) k) db Q.
Proof.
  intros He Hk. cbn. intros [[]|e]; [|intros _; apply He]. cbn.
  destruct (store_actor db actor credential) as [db'|] eqn:Hs; [|done]. intros _. by apply Hk.
Qed.

Lemma replace_actor_grants_frame db id grants db' :
  replace_actor_grants db id grants = Ok db' ->
  db_actors db' = db_actors db /\ db_credentials db' = db_credentials db.
Proof.
  unfold replace_actor_grants. destruct (existsb _ grants); [discriminate|]. intros Hok. ok_inv.
  by simplify_eq.
Qed.

Definition settled (call : AuthCall) (db : Db) (r : AuthResult) (db' : Db) : Prop :=
  actors_ok db' /\ outcome call db r db'.

Lemma bootstrap_settled installation_id name kind db :
  actors_ok db ->
  alone (perform_call (Call_bootstrap installation_id name kind)) db
    (settled (Call_bootstrap installation_id name kind) db).
Proof.
  intros Hok. cbn [perform_call]. apply always_try.
  apply alone_ask. intros id [Hid Hnew]. apply alone_ask. intros now _. apply always_try.
  eapply always_mono; [apply issue_minted|]. intros [[token credential]|e] ? [-> Hm]; [|done].
  apply alone_store; [done|]. intros db' Hs. cbn. split.
  - eapply store_actor_keeps; [exact Hs|exact Hid|done].
  - exists id, now, token. do 3 (split; [done|]). by eapply store_issued.
Qed.

Lemma rotate_settled id db :
  actors_ok db -> alone (perform_call (Call_rotate id)) db (settled (Call_rotate id) db).
Proof.
  intros Hok. cbn [perform_call]. apply always_try, always_try.
  eapply always_mono; [by apply known_security_found|].
  intros [security|e] ? [-> Hf]; [|done]. destruct Hf as (row & Hr & Hsec & Hi & Hp).
  apply always_try. eapply always_mono; [apply issue_minted|].
  intros [[token credential]|e] ? [-> Hm]; [|done].
  rewrite Hsec in *. apply alone_store; [done|]. intros db' Hs. cbn.
  rewrite <- Hi in Hp. split; [by eapply store_actor_keeps|].
  exists row, token. do 2 (split; [done|]). by eapply store_issued.
Qed.

Lemma disable_settled id db :
  actors_ok db -> alone (perform_call (Call_disable id)) db (settled (Call_disable id) db).
Proof.
  intros Hok. cbn [perform_call]. apply always_try, always_try.
  eapply always_mono; [by apply known_security_found|].
  intros [security|e] ? [-> Hf]; [|done]. destruct Hf as (row & Hr & Hsec & Hi & Hp).
  apply alone_store; [done|]. intros db' Hs. cbn. rewrite Hsec in Hs. split.
  - eapply store_actor_keeps; [exact Hs|cbn [disabled ac_id]; by rewrite Hi|done].
  - split; [by eexists|]. apply store_actor_ok in Hs as (row' & Hp' & _ & Ha & Hc).
    cbn [disabled ac_id] in Ha. rewrite Hi in Ha.
    intros bearer. rewrite (accepts_elsewhere db db' id row' Ha) by (intros; by rewrite Hc).
    destruct (parse_token bearer) as [parsed|]; [|done]. destruct (String.eqb _ _); [|done].
    unfold accepts_secret. rewrite Ha, lookup_insert_eq. simpl. rewrite Hp'. simpl.
    by destruct (db_credentials db' !! id).
Qed.

Lemma replace_grants_settled id grants db :
  actors_ok db ->
  alone (perform_call (Call_replace_grants id grants)) db (settled (Call_replace_grants id grants) db).
Proof.
  intros Hok. cbn. intros [[]|e]; [|done]. cbn.
  destruct (replace_actor_grants db id grants) as [db'|] eqn:Hr; [|done]. intros _.
  apply replace_actor_grants_frame in Hr as [Ha Hc]. split.
  - intros other row. rewrite Ha. apply Hok.
  - intros bearer. unfold accepts, accepts_secret. by rewrite Ha, Hc.
Qed.

(** C13: a bearer is read exactly when it is the text of a token with 32 secret
    bytes; and whatever the operations of a call answer, a call that fails changes
    nothing, the token of a bootstrap or a rotation is accepted for exactly its
    actor while this one is enabled, from then on a bearer naming the actor is
    checked against the hash of this token alone, a disabled actor is refused
    whatever the bearer, and the answer to every bearer naming another actor, and
    to all after a change of grants, stays what it was. *)
Theorem credential_roundtrip call db :
  (forall bearer parsed, parse_token bearer = Ok parsed <->
    exists text secret, parse_uuid text = Some (pt_actor_id parsed) /\
      length secret = SECRET_BYTES /\ Forall (fun b => (b < 256)%N) secret /\
      pt_secret parsed = hex secret /\ bearer = expose (format_token text (hex secret))) /\
  (forall bearer, run serve (authenticate bearer) db
    = (ok_or (accepts db bearer) invalid_credentials, db)) /\
  (actors_ok db -> alone (perform_call call) db (fun r db' => actors_ok db' /\ outcome call db r db')).
Proof.
  split; [exact parse_token_spec|]. split; [apply authenticate_accepts|]. intros Hok.
  destruct call; [by apply bootstrap_settled|by apply rotate_settled|by apply disable_settled|
    by apply replace_grants_settled].
Qed.
End Props.

(** ** A small installation *)

(** A hash that is its secret, and identities that are any text without a dot. *)
Definition plain_argon2 : Argon2.
Proof.
  refine {| argon2_hash := fun secret _ => Some secret; argon2_verify := String.eqb |}.
  intros secret _ encoded [= ->]. apply String.eqb_refl.
Defined.

Definition plain_uuid_text : UuidText.
Proof.
  refine {| parse_uuid := fun text => if decide (split_on "." text = [text]) then Some text else None |}.
  - intros text id. destruct (decide _) as [Hd|]; [|done]. intros [= <-]. by destruct (decide _).
  - intros text id. by destruct (decide _).
Defined.

#[local] Existing Instances plain_argon2 plain_uuid_text.

Definition owner : Actor := mk_actor "owner" "home" Ak_User "Owner" true now0.

(** The owner, whose secret is known. *)
Definition old_secret : list N := repeat 7%N 32.
Definition new_secret : list N := repeat 9%N 32.
Definition salt_bytes : list N := repeat 1%N 16.

Definition home_db : Db :=
  mk_db {["home"%string]} ∅ ∅ ∅ ∅ ∅ ∅ [] 1 ∅ ∅ ∅ ∅ ∅.

Definition actor_db : Db :=
  match store_actor home_db owner (Some (mk_credential "owner" (hex old_secret) now0)) with
  | Ok db => db | Err _ => home_db end.

Definition old_token : string := expose (format_token "owner" (hex old_secret)).
Definition new_token : string := expose (format_token "owner" (hex new_secret)).

Lemma actor_db_ok : actors_ok actor_db.
Proof.
  intros id row. assert (Ha : db_actors actor_db = {["owner"%string := mk_actor_row "home" true now0 owner]})
    by reflexivity.
  rewrite Ha. intros [<- <-]%lookup_singleton_Some. done.
Qed.

Lemma credential_roundtrip_witness :
  accepts actor_db old_token = Some owner /\
  always legal after (perform_call (Call_disable "owner")) actor_db
    (fun r db' => is_ok r = true -> accepts db' old_token = None).
Proof.
  split; [vm_compute; reflexivity|].
  eapply always_mono;
    [exact (proj2 (proj2 (credential_roundtrip (Call_disable "owner") actor_db)) actor_db_ok)|].
  intros [[actor token]|e] db' [_ Hout]; [|done]. intros _. destruct Hout as [_ Hall].
  rewrite (Hall old_token). reflexivity.
Defined.

(** ** Rotation against disabling *)

Definition finished {A E : Type} (m : AuthProg (result A E)) : AuthProg bool :=
  let! r := m in Ret (is_ok r).

(** The owner is disabled while a rotation that has read the enabled actor is
    under way: both succeed, and the new token is accepted. *)
Lemma disable_reverted :
  exists db', rtc (world_step legal after) (actor_db, [finished (rotate "owner"); finished (disable "owner")])
      (db', [Ret true; Ret true]) /\
    accepts db' new_token = Some owner.
Proof.
  eexists. split.
  - eapply (world_steps _ _ 0); [reflexivity|by instantiate (1 := Ok (load_actor_security actor_db "owner"))|].
    eapply (world_steps _ _ 1); [reflexivity|by instantiate (1 := Ok (load_actor_security actor_db "owner"))|].
    eapply (world_steps _ _ 1); [reflexivity|instantiate (1 := Ok tt); vm_compute; reflexivity|].
    eapply (world_steps _ _ 0); [reflexivity|instantiate (1 := new_secret); by repeat constructor|].
    eapply (world_steps _ _ 0); [reflexivity|instantiate (1 := salt_bytes); by repeat constructor|].
    eapply (world_steps _ _ 0); [reflexivity|right; reflexivity|].
    eapply (world_steps _ _ 0); [reflexivity|instantiate (1 := now0); exact I|].
    eapply (world_steps _ _ 0); [reflexivity|instantiate (1 := Ok tt); vm_compute; reflexivity|].
    apply rtc_refl.
  - vm_compute. reflexivity.
Qed.
