(* ===== verification/MatterDescriptor.v ===== *)
(** What a Matter controller describes and reports,
    [crates/homemagic-domain/src/matter]: descriptors of nodes
    (descriptor.rs), failures (error.rs), attribute reports and controller
    events (event.rs). *)

From S2P Require Import Prelude Text Capability Device MatterState MatterOperation.

Abbreviation MatterEndpointNumber := N (only parsing).
Abbreviation MatterSubscriptionId := string (only parsing).

(** ** Descriptors *)

Definition MAX_MATTER_ENDPOINTS_PER_NODE : nat := 256.
Definition MAX_MATTER_DEVICE_TYPES_PER_ENDPOINT : nat := 16.
Definition MAX_MATTER_CLUSTERS_PER_ENDPOINT : nat := 128.
Definition MAX_MATTER_COMMANDS_PER_CLUSTER : nat := 128.
Definition MAX_MATTER_ATTRIBUTES_PER_CLUSTER : nat := 256.

Inductive MatterDescriptorCollection :=
| Mdc_Endpoints | Mdc_DeviceTypes | Mdc_ServerClusters | Mdc_ClientClusters | Mdc_Commands
| Mdc_Attributes.

Inductive MatterDescriptorError :=
| Mde_ZeroNodeId
| Mde_ZeroRevision
| Mde_TooManyItems (collection : MatterDescriptorCollection) (maximum : nat)
| Mde_DuplicateIdentifier (collection : MatterDescriptorCollection).

Module MatterNodeId.
Definition new (value : N) : result MatterNodeId MatterDescriptorError :=
  if N.eqb value 0 then Err Mde_ZeroNodeId else Ok value.
End MatterNodeId.

Module MatterDescriptorRevision.
Definition new (value : N) : result N MatterDescriptorError :=
  if N.eqb value 0 then Err Mde_ZeroRevision else Ok value.
End MatterDescriptorRevision.

(** [items.iter().any(|item| !seen.insert(key(item)))]. *)
Fixpoint repeated (seen keys : list N) : bool :=
  match keys with
  | [] => false
  | key :: keys => bool_decide (key ∈ seen) || repeated (key :: seen) keys
  end.

Definition ensure_bounded_unique_by {T : Type} (items : list T) (maximum : nat)
  (collection : MatterDescriptorCollection) (key : T -> N) : result unit MatterDescriptorError :=
  if maximum <? length items then Err (Mde_TooManyItems collection maximum)
  else if repeated [] (map key items) then Err (Mde_DuplicateIdentifier collection)
  else Ok tt.

Definition ensure_bounded_unique (items : list N) (maximum : nat)
  (collection : MatterDescriptorCollection) : result unit MatterDescriptorError :=
  ensure_bounded_unique_by items maximum collection (fun item => item).

Record MatterDeviceType := mk_device_type { dt_id : N; dt_revision : N }.
#[export] Instance MatterDeviceType_eq_dec : EqDecision MatterDeviceType.
Proof. solve_decision. Defined.

Module MatterDeviceType.
Definition new (id revision : N) : result MatterDeviceType MatterDescriptorError :=
  if N.eqb revision 0 then Err Mde_ZeroRevision else Ok (mk_device_type id revision).
End MatterDeviceType.

Record MatterClusterDescriptor := mk_cluster {
  cl_id : N;
  cl_revision : N;
  cl_feature_map : N;
  cl_accepted_commands : list N;
  cl_attributes : list N
}.
#[export] Instance MatterClusterDescriptor_eq_dec : EqDecision MatterClusterDescriptor.
Proof. solve_decision. Defined.

Module MatterClusterDescriptor.
Definition with_attributes (id revision feature_map : N) (accepted_commands attributes : list N) :
  result MatterClusterDescriptor MatterDescriptorError :=
  if N.eqb revision 0 then Err Mde_ZeroRevision
  else
    let? _ := ensure_bounded_unique accepted_commands MAX_MATTER_COMMANDS_PER_CLUSTER Mdc_Commands in
    let? _ := ensure_bounded_unique attributes MAX_MATTER_ATTRIBUTES_PER_CLUSTER Mdc_Attributes in
    Ok (mk_cluster id revision feature_map accepted_commands attributes).

Definition new (id revision feature_map : N) (accepted_commands : list N) :
  result MatterClusterDescriptor MatterDescriptorError :=
  with_attributes id revision feature_map accepted_commands [].
End MatterClusterDescriptor.

Record MatterEndpointDescriptor := mk_endpoint_descriptor {
  ep_number : MatterEndpointNumber;
  ep_device_types : list MatterDeviceType;
  ep_server_clusters : list MatterClusterDescriptor;
  ep_client_clusters : list MatterClusterDescriptor
}.
#[export] Instance MatterEndpointDescriptor_eq_dec : EqDecision MatterEndpointDescriptor.
Proof. solve_decision. Defined.

Module MatterEndpointDescriptor.
Definition new (number : MatterEndpointNumber) (device_types : list MatterDeviceType)
  (server_clusters client_clusters : list MatterClusterDescriptor) :
  result MatterEndpointDescriptor MatterDescriptorError :=
  let? _ := ensure_bounded_unique_by device_types MAX_MATTER_DEVICE_TYPES_PER_ENDPOINT
              Mdc_DeviceTypes dt_id in
  let? _ := ensure_bounded_unique_by server_clusters MAX_MATTER_CLUSTERS_PER_ENDPOINT
              Mdc_ServerClusters cl_id in
  let? _ := ensure_bounded_unique_by client_clusters MAX_MATTER_CLUSTERS_PER_ENDPOINT
              Mdc_ClientClusters cl_id in
  Ok (mk_endpoint_descriptor number device_types server_clusters client_clusters).
End MatterEndpointDescriptor.

Record MatterNodeDescriptor := mk_node_descriptor {
  nd_fabric_id : MatterFabricId;
  nd_node_id : MatterNodeId;
  nd_endpoints : list MatterEndpointDescriptor;
  nd_descriptor_revision : N
}.
#[export] Instance MatterNodeDescriptor_eq_dec : EqDecision MatterNodeDescriptor.
Proof. solve_decision. Defined.

Module MatterNodeDescriptor.
Definition new (fabric_id : MatterFabricId) (node_id : MatterNodeId)
  (endpoints : list MatterEndpointDescriptor) (descriptor_revision : N) :
  result MatterNodeDescriptor MatterDescriptorError :=
  let? _ := ensure_bounded_unique_by endpoints MAX_MATTER_ENDPOINTS_PER_NODE Mdc_Endpoints
              ep_number in
  Ok (mk_node_descriptor fabric_id node_id endpoints descriptor_revision).
End MatterNodeDescriptor.

(** ** Failures *)

Inductive MatterControllerErrorCategory :=
| Cat_Validation | Cat_Discovery | Cat_Transport | Cat_Attestation | Cat_Authentication
| Cat_Conflict | Cat_NotFound | Cat_Unsupported | Cat_Timeout | Cat_Cancelled | Cat_SecretStore
| Cat_Persistence | Cat_Protocol | Cat_Internal.
#[export] Instance MatterControllerErrorCategory_eq_dec : EqDecision MatterControllerErrorCategory.
Proof. solve_decision. Defined.

Inductive MatterControllerErrorCode :=
| Code_InvalidRequest | Code_InvalidSetupPayload | Code_FabricNotFound | Code_FabricConflict
| Code_NodeNotFound | Code_DescriptorChanged | Code_DiscoveryTimeout | Code_SessionUnavailable
| Code_AttestationFailed | Code_AuthenticationFailed | Code_SubscriptionLost | Code_ReadFailed
| Code_InvokeFailed | Code_OutcomeIndeterminate | Code_UnsupportedOperation
| Code_SecretUnavailable | Code_PersistenceFailed | Code_DeadlineExceeded | Code_Cancelled
| Code_InternalInvariant.
#[export] Instance MatterControllerErrorCode_eq_dec : EqDecision MatterControllerErrorCode.
Proof. solve_decision. Defined.

Inductive MatterRetryability := Retry_Never | Retry_Safe | Retry_AfterRepair.
#[export] Instance MatterRetryability_eq_dec : EqDecision MatterRetryability.
Proof. solve_decision. Defined.

Inductive MatterAffectedResource :=
| Res_Controller
| Res_Fabric (fabric_id : MatterFabricId)
| Res_Node (fabric_id : MatterFabricId) (node_id : MatterNodeId)
| Res_Endpoint (fabric_id : MatterFabricId) (node_id : MatterNodeId) (endpoint : MatterEndpointNumber)
| Res_Operation (operation_id : MatterOperationId).
#[export] Instance MatterAffectedResource_eq_dec : EqDecision MatterAffectedResource.
Proof. solve_decision. Defined.

Inductive MatterRepairAction :=
| Rep_CheckLocalNetwork | Rep_RestoreSecretStore | Rep_RecommissionDevice | Rep_RefreshDescriptor
| Rep_ReviewPartialCleanup | Rep_UpdateControllerAdapter.
#[export] Instance MatterRepairAction_eq_dec : EqDecision MatterRepairAction.
Proof. solve_decision. Defined.

Record MatterControllerError := mk_controller_error {
  cer_category : MatterControllerErrorCategory;
  cer_code : MatterControllerErrorCode;
  cer_retryability : MatterRetryability;
  cer_resource : option MatterAffectedResource;
  cer_repair : option MatterRepairAction
}.
#[export] Instance MatterControllerError_eq_dec : EqDecision MatterControllerError.
Proof. solve_decision. Defined.

(** ** Reports and events *)

Definition MAX_MATTER_TEXT_BYTES : nat := 1024.
Definition MAX_MATTER_OCTETS : nat := 4096.

Inductive MatterValueError := Mve_TextTooLong | Mve_OctetsTooLong.

Module MatterText.
Definition new (value : string) : result string MatterValueError :=
  if MAX_MATTER_TEXT_BYTES <? String.length value then Err Mve_TextTooLong else Ok value.
End MatterText.

Module MatterOctets.
Definition new (value : list N) : result (list N) MatterValueError :=
  if MAX_MATTER_OCTETS <? length value then Err Mve_OctetsTooLong else Ok value.
End MatterOctets.

Inductive MatterAttributeValue :=
| Mav_Null
| Mav_Boolean (value : bool)
| Mav_Unsigned (value : N)
| Mav_Signed (value : Z)
| Mav_Text (value : string)
| Mav_Octets (value : list N).
#[export] Instance MatterAttributeValue_eq_dec : EqDecision MatterAttributeValue.
Proof. solve_decision. Defined.

Record MatterAttributePath := mk_path {
  path_node_id : MatterNodeId;
  path_endpoint : MatterEndpointNumber;
  path_cluster_id : N;
  path_attribute_id : N
}.
#[export] Instance MatterAttributePath_eq_dec : EqDecision MatterAttributePath.
Proof. solve_decision. Defined.

Record MatterAttributeReport := mk_report {
  rp_path : MatterAttributePath;
  rp_value : MatterAttributeValue;
  rp_data_version : option N;
  rp_report_sequence : N;
  rp_observed_at : Instant
}.
#[export] Instance MatterAttributeReport_eq_dec : EqDecision MatterAttributeReport.
Proof. solve_decision. Defined.

Inductive MatterSubscriptionLossReason :=
| Loss_SessionClosed | Loss_ReportGap | Loss_TimedOut | Loss_DescriptorChanged
| Loss_ControllerRestarted.
#[export] Instance MatterSubscriptionLossReason_eq_dec : EqDecision MatterSubscriptionLossReason.
Proof. solve_decision. Defined.

Inductive MatterControllerEventKind :=
| Mek_AttributeReport (fabric_id : MatterFabricId) (report : MatterAttributeReport)
| Mek_SubscriptionLost (subscription_id : MatterSubscriptionId) (reason : MatterSubscriptionLossReason)
| Mek_DescriptorChanged (fabric_id : MatterFabricId) (node_id : MatterNodeId)
    (descriptor_revision : N)
| Mek_OperationProgress (operation_id : MatterOperationId) (phase : MatterOperationPhase).

Record MatterControllerEvent := mk_controller_event {
  mce_id : string;
  mce_occurred_at : Instant;
  mce_kind : MatterControllerEventKind
}.

(** ** Lemmas *)

Lemma repeated_false seen keys :
  repeated seen keys = false <-> NoDup keys /\ forall key, key ∈ keys -> key ∉ seen.
Proof.
  revert seen. induction keys as [|key keys IH]; intros seen; cbn [repeated].
  - split; [|done]. split; [constructor|]. intros key Hk. by apply elem_of_nil in Hk.
  - rewrite orb_false_iff, bool_decide_eq_false, IH, NoDup_cons. split.
    + intros [Hn [Hd Hs]]. split; [split; [|done]|].
      * intros Hin. apply (Hs _ Hin). by apply elem_of_cons; left.
      * intros other [->|Hin]%elem_of_cons; [done|]. intros Ho. apply (Hs _ Hin).
        by apply elem_of_cons; right.
    + intros [[Hn Hd] Hs]. split; [apply Hs; by apply elem_of_cons; left|]. split; [done|].
      intros other Hin [->|Ho]%elem_of_cons; [done|]. by apply (Hs other); [apply elem_of_cons; right|].
Qed.

Lemma ensure_bounded_unique_by_ok {T} (items : list T) maximum collection key :
  ensure_bounded_unique_by items maximum collection key = Ok tt <->
  length items <= maximum /\ NoDup (map key items).
Proof.
  unfold ensure_bounded_unique_by. destruct (Nat.ltb_spec maximum (length items)) as [Hl|Hl].
  - split; [done|]. intros [Hle _]. lia.
  - destruct (repeated [] (map key items)) eqn:Hr.
    + split; [done|]. intros [_ Hd]. apply not_false_iff_true in Hr. destruct Hr.
      apply repeated_false. split; [done|]. intros k _ Hk. by apply elem_of_nil in Hk.
    + apply repeated_false in Hr as [Hd _]. by split.
Qed.
