(* ===== verification/MatterProjection.v ===== *)
(** The projection of Matter nodes onto capabilities and the order of their
    reports, [crates/homemagic-application/src/matter_projection.rs].  The
    functions that move a projected state are in [MatterState]. *)

From S2P Require Import Prelude Text Json Capability Lifecycle Device Command Identity MatterState MatterOperation MatterDescriptor.

Definition MATTER_ON_OFF_CLUSTER_ID : N := 6.
Definition MATTER_LEVEL_CONTROL_CLUSTER_ID : N := 8.
Definition MATTER_DOOR_LOCK_CLUSTER_ID : N := 257.
Definition MATTER_WINDOW_COVERING_CLUSTER_ID : N := 258.

Definition ON_OFF_ATTRIBUTE_ID : N := 0.
Definition LOCK_STATE_ATTRIBUTE_ID : N := 0.
Definition OFF_COMMAND_ID : N := 0.
Definition ON_COMMAND_ID : N := 1.
Definition LOCK_COMMAND_ID : N := 0.
Definition UNLOCK_COMMAND_ID : N := 1.
Definition ON_OFF_LIGHT_DEVICE_TYPE : N := 256.
Definition DIMMABLE_LIGHT_DEVICE_TYPE : N := 257.
Definition DOOR_LOCK_DEVICE_TYPE : N := 10.

Inductive MatterProjectionRule :=
| Rule_OnOffV1 | Rule_AccessControlV1 | Rule_LevelV1LaterFixture | Rule_PositionV1LaterFixture.
#[export] Instance MatterProjectionRule_eq_dec : EqDecision MatterProjectionRule.
Proof. solve_decision. Defined.

Module MatterProjectionRule.
Definition capability_schema (self : MatterProjectionRule) : option string :=
  match self with
  | Rule_OnOffV1 => Some "on_off.v1"%string
  | Rule_AccessControlV1 => Some "access_control.v1"%string
  | Rule_LevelV1LaterFixture | Rule_PositionV1LaterFixture => None
  end.

Definition key (self : MatterProjectionRule) : string :=
  match self with
  | Rule_OnOffV1 => "on_off"
  | Rule_AccessControlV1 => "access_control"
  | Rule_LevelV1LaterFixture => "level"
  | Rule_PositionV1LaterFixture => "position"
  end.

Definition VERSION : N := 1.
End MatterProjectionRule.

Inductive MatterClusterRole := Role_Server | Role_Client.

Record MatterDiagnosticProjection := mk_diagnostic {
  dg_namespace : string;
  dg_role : MatterClusterRole;
  dg_revision : N;
  dg_feature_map : N;
  dg_attributes : list N;
  dg_accepted_commands : list N
}.

Record MatterCapabilityProjection := mk_capability_projection {
  cpj_integration_id : IntegrationId;
  cpj_device_id : DeviceId;
  cpj_endpoint_id : EndpointId;
  cpj_projection_id : MatterProjectionId;
  cpj_rule : MatterProjectionRule;
  cpj_capability : CapabilityDescriptor;
  cpj_report_path : MatterAttributePath;
  cpj_projection_revision : N;
  cpj_cluster_revision : N;
  cpj_feature_map : N
}.

Record MatterNodeProjection := mk_node_projection {
  np_device_id : DeviceId;
  np_capabilities : list MatterCapabilityProjection;
  np_diagnostics : list MatterDiagnosticProjection
}.

Definition projection_for (self : MatterNodeProjection) (path : MatterAttributePath) :
  option MatterCapabilityProjection :=
  List.find (fun projection => bool_decide (cpj_report_path projection = path))
    (np_capabilities self).

(** ** The projection of a node *)

Definition has_device_type (device_types : list MatterDeviceType) (eligible : list N) : bool :=
  existsb (fun device_type => bool_decide (dt_id device_type ∈ eligible)) device_types.

Definition eligible_server_cluster (endpoint : MatterEndpointDescriptor) (cluster_id : N)
  (attributes commands : list N) : option MatterClusterDescriptor :=
  List.find (fun cluster =>
      N.eqb (cl_id cluster) cluster_id
      && forallb (fun attribute => bool_decide (attribute ∈ cl_attributes cluster)) attributes
      && forallb (fun command => bool_decide (command ∈ cl_accepted_commands cluster)) commands)
    (ep_server_clusters endpoint).

(** [{:08x}] of a 32-bit number. *)
Definition hex_u32 (n : N) : string :=
  hex [N.land (N.shiftr n 24) 255; N.land (N.shiftr n 16) 255; N.land (N.shiftr n 8) 255;
       N.land n 255].

Definition diagnostic (endpoint : MatterEndpointDescriptor) (cluster : MatterClusterDescriptor)
  (role : MatterClusterRole) : MatterDiagnosticProjection :=
  mk_diagnostic
    ("matter.diagnostics.v1.endpoint." +:+ show_N (ep_number endpoint) +:+ ".cluster."
       +:+ hex_u32 (cl_id cluster))
    role (cl_revision cluster) (cl_feature_map cluster) (cl_attributes cluster)
    (cl_accepted_commands cluster).

Section Projection.
Context `{Uuids}.

Definition projection (integration_id : IntegrationId) (device_id : DeviceId)
  (node : MatterNodeDescriptor) (endpoint : MatterEndpointDescriptor)
  (cluster : MatterClusterDescriptor) (rule : MatterProjectionRule) (attribute_id : N)
  (risk : RiskClass) : option MatterCapabilityProjection :=
  schema ← MatterProjectionRule.capability_schema rule;
  name ← strip_suffix ".v1" schema;
  capability ← result_ok (CapabilityDescriptor.new name MatterProjectionRule.VERSION risk);
  Some (mk_capability_projection integration_id device_id
    ("matter:" +:+ show_N (ep_number endpoint))
    (MatterProjectionId.from_key (nd_fabric_id node) (nd_node_id node) (ep_number endpoint)
       (MatterProjectionRule.key rule) MatterProjectionRule.VERSION)
    rule capability
    (mk_path (nd_node_id node) (ep_number endpoint) (cl_id cluster) attribute_id)
    (nd_descriptor_revision node) (cl_revision cluster) (cl_feature_map cluster)).

Definition project_on_off (integration_id : IntegrationId) (device_id : DeviceId)
  (node : MatterNodeDescriptor) (endpoint : MatterEndpointDescriptor) :
  option MatterCapabilityProjection :=
  if negb (has_device_type (ep_device_types endpoint)
             [ON_OFF_LIGHT_DEVICE_TYPE; DIMMABLE_LIGHT_DEVICE_TYPE]) then None
  else
    cluster ← eligible_server_cluster endpoint MATTER_ON_OFF_CLUSTER_ID [ON_OFF_ATTRIBUTE_ID]
                [OFF_COMMAND_ID; ON_COMMAND_ID];
    projection integration_id device_id node endpoint cluster Rule_OnOffV1 ON_OFF_ATTRIBUTE_ID
      Risk_Comfort.

Definition project_access_control (integration_id : IntegrationId) (device_id : DeviceId)
  (node : MatterNodeDescriptor) (endpoint : MatterEndpointDescriptor) :
  option MatterCapabilityProjection :=
  if negb (has_device_type (ep_device_types endpoint) [DOOR_LOCK_DEVICE_TYPE]) then None
  else
    cluster ← eligible_server_cluster endpoint MATTER_DOOR_LOCK_CLUSTER_ID
                [LOCK_STATE_ATTRIBUTE_ID] [LOCK_COMMAND_ID; UNLOCK_COMMAND_ID];
    projection integration_id device_id node endpoint cluster Rule_AccessControlV1
      LOCK_STATE_ATTRIBUTE_ID Risk_Security.

(** The capabilities of one endpoint, with the clusters they map. *)
Definition project_endpoint (integration_id : IntegrationId) (device_id : DeviceId)
  (descriptor : MatterNodeDescriptor) (endpoint : MatterEndpointDescriptor) :
  list ((N * N) * MatterCapabilityProjection) :=
  match project_on_off integration_id device_id descriptor endpoint with
  | Some projection => [((ep_number endpoint, MATTER_ON_OFF_CLUSTER_ID), projection)]
  | None => []
  end ++
  match project_access_control integration_id device_id descriptor endpoint with
  | Some projection => [((ep_number endpoint, MATTER_DOOR_LOCK_CLUSTER_ID), projection)]
  | None => []
  end.

Definition project_matter_node (installation_id : InstallationId)
  (descriptor : MatterNodeDescriptor) : MatterNodeProjection :=
  let integration_id :=
    IntegrationId.from_native installation_id "matter" (nd_fabric_id descriptor) in
  let device_id :=
    DeviceId.from_integration integration_id ("node:" +:+ show_N (nd_node_id descriptor)) in
  let mapped := flat_map (project_endpoint integration_id device_id descriptor)
                  (nd_endpoints descriptor) in
  let mapped_clusters := map fst mapped in
  mk_node_projection device_id (map snd mapped)
    (flat_map (fun endpoint =>
        map (fun cluster => diagnostic endpoint cluster Role_Server)
          (List.filter (fun cluster =>
              negb (bool_decide ((ep_number endpoint, cl_id cluster) ∈ mapped_clusters)))
            (ep_server_clusters endpoint))
        ++ map (fun cluster => diagnostic endpoint cluster Role_Client)
             (ep_client_clusters endpoint))
      (nd_endpoints descriptor)).
End Projection.

Inductive MatterProjectionValidity := Pv_Current | Pv_Invalidated.

Definition projection_validity (cached : MatterCapabilityProjection)
  (rediscovered : MatterNodeProjection) : MatterProjectionValidity :=
  match List.find (fun candidate =>
            String.eqb (cpj_projection_id candidate) (cpj_projection_id cached))
          (np_capabilities rediscovered) with
  | Some candidate =>
      if bool_decide (cpj_report_path candidate = cpj_report_path cached)
         && N.eqb (cpj_projection_revision candidate) (cpj_projection_revision cached)
         && N.eqb (cpj_cluster_revision candidate) (cpj_cluster_revision cached)
         && N.eqb (cpj_feature_map candidate) (cpj_feature_map cached)
         && bool_decide (cpj_capability candidate = cpj_capability cached)
      then Pv_Current else Pv_Invalidated
  | None => Pv_Invalidated
  end.

Definition initial_stored_matter_projection (installation_id : InstallationId)
  (fabric_id : MatterFabricId) (projection : MatterCapabilityProjection) (now : Instant) :
  result StoredMatterProjection MatterStateError :=
  let? state := MatterProjectedState.new (cpj_projection_id projection) None None None Mf_Unknown
                  Mc_NoDesiredState None in
  Ok (mk_projection installation_id fabric_id (path_node_id (cpj_report_path projection))
        (path_endpoint (cpj_report_path projection)) (cpj_projection_id projection)
        (cpj_device_id projection) (cpj_endpoint_id projection)
        (CapabilityDescriptor.schema (cpj_capability projection))
        (cpj_projection_revision projection) state 1 now).

(** ** Reports *)

Section Reports.
Context `{SerdeJson}.

Inductive MatterReportRejection :=
| Rej_TargetMismatch | Rej_StaleSequence | Rej_ConflictingDuplicate | Rej_StaleDataVersion
| Rej_IncompatibleValue | Rej_InvalidTime.

Inductive MatterReportDecision :=
| Dec_Applied (reported : MatterReportedState) (observation : CapabilityObservation)
    (causation : MatterReportCausation)
| Dec_Duplicate
| Dec_Rejected (rejection : MatterReportRejection).

(** [u32::wrapping_sub]. *)
Definition u32_wrapping_sub (a b : N) : N := N.modulo (a + 4294967296 - b) 4294967296.

Definition data_version_advances (current : MatterReportedState) (report : MatterAttributeReport)
  (next_value : MatterStateValue) : bool :=
  match mr_data_version current, rp_data_version report with
  | Some previous, Some next =>
      if N.eqb previous next then bool_decide (mr_value current = next_value)
      else (u32_wrapping_sub next previous <? 2147483648)%N
  | _, _ => true
  end.

Definition lock_state_of (raw : N) : MatterLockState :=
  match raw with
  | 1%N => Ml_NotFullyLocked
  | 2%N => Ml_Unlocked
  | 3%N => Ml_Locked
  | _ => Ml_Unknown
  end.

Definition locked_of (state : MatterLockState) : option bool :=
  match state with
  | Ml_Locked => Some true
  | Ml_Unlocked => Some false
  | Ml_NotFullyLocked | Ml_Unknown => None
  end.

Definition lock_state_name (state : MatterLockState) : string :=
  match state with
  | Ml_Locked => "locked"
  | Ml_Unlocked => "unlocked"
  | Ml_NotFullyLocked => "not_fully_locked"
  | Ml_Unknown => "unknown"
  end.

(** The ordered fields of the observation. *)
Definition map_report_value (rule : MatterProjectionRule) (value : MatterAttributeValue)
  (observed_at : Instant) : option (MatterStateValue * list (string * ObservedValue)) :=
  match rule, value with
  | Rule_OnOffV1, Mav_Boolean on =>
      Some (Mv_OnOff on, [("on"%string, mk_observed (JBool on) observed_at)])
  | Rule_AccessControlV1, Mav_Unsigned raw =>
      let state := lock_state_of raw in
      let locked := match locked_of state with Some locked => JBool locked | None => JNull end in
      Some (Mv_Lock state,
        [("locked"%string, mk_observed locked observed_at);
         ("state"%string, mk_observed (JString (lock_state_name state)) observed_at)])
  | _, _ => None
  end.

Definition normalize_matter_report (projection : MatterCapabilityProjection)
  (report : MatterAttributeReport) (received_at : Instant) (current : option MatterReportedState)
  (source_kind : ObservationSourceKind) (causation : MatterReportCausation) :
  MatterReportDecision :=
  if negb (bool_decide (rp_path report = cpj_report_path projection))
  then Dec_Rejected Rej_TargetMismatch
  else
    match map_report_value (cpj_rule projection) (rp_value report) (rp_observed_at report) with
    | None => Dec_Rejected Rej_IncompatibleValue
    | Some (state_value, values) =>
        let applied :=
          match MatterReportedState.new state_value (rp_data_version report)
                  (rp_report_sequence report) (rp_observed_at report) received_at with
          | Err _ => Dec_Rejected Rej_InvalidTime
          | Ok reported =>
              Dec_Applied reported
                (mk_observation (cpj_device_id projection) (cpj_endpoint_id projection)
                   (cpj_capability projection) values received_at
                   (mk_source (cpj_integration_id projection) source_kind
                      (Some (rp_report_sequence report))))
                causation
          end in
        if (received_at <? rp_observed_at report)%Z then Dec_Rejected Rej_InvalidTime
        else
          match current with
          | None => applied
          | Some current =>
              if (rp_report_sequence report <? mr_report_sequence current)%N
              then Dec_Rejected Rej_StaleSequence
              else if N.eqb (rp_report_sequence report) (mr_report_sequence current) then
                if bool_decide (mr_value current = state_value)
                   && bool_decide (mr_data_version current = rp_data_version report)
                then Dec_Duplicate else Dec_Rejected Rej_ConflictingDuplicate
              else if negb (data_version_advances current report state_value)
              then Dec_Rejected Rej_StaleDataVersion
              else applied
          end
    end.
End Reports.

Definition matter_subscription_id `{Uuids} (fabric_id : MatterFabricId) (node_id : MatterNodeId) :
  MatterSubscriptionId := MatterSubscriptionId.from_node fabric_id node_id.
