(* ===== verification/MatterController.v ===== *)
(** The contract of a Matter controller,
    [crates/homemagic-application/src/matter_controller.rs]: the requests that are
    sent to it, with the bounds their constructors check, and its answers. *)

From S2P Require Import Prelude Capability Device MatterState MatterOperation MatterDescriptor.

Abbreviation SecretRef := string (only parsing).
Abbreviation SecretValue := (list N) (only parsing).

Definition MAX_MATTER_ATTRIBUTE_PATHS_PER_REQUEST : nat := 256.
Definition MAX_MATTER_CONTROLLER_RESPONSE_ITEMS : nat := 256.

Inductive MatterControllerContractError :=
| Mcc_EmptyAttributeSelection | Mcc_TooManyAttributePaths | Mcc_DuplicateAttributePath
| Mcc_InvalidSubscriptionInterval | Mcc_PercentOutOfRange | Mcc_TooManyResponseItems
| Mcc_SimulatorExportNotImportable.

Module MatterControllerItems.
Definition new {T : Type} (items : list T) : result (list T) MatterControllerContractError :=
  if MAX_MATTER_CONTROLLER_RESPONSE_ITEMS <? length items then Err Mcc_TooManyResponseItems
  else Ok items.
End MatterControllerItems.

(** ** Fabrics *)

Inductive MatterFabricState := Fs_Active | Fs_Unavailable | Fs_RepairRequired.
#[export] Instance MatterFabricState_eq_dec : EqDecision MatterFabricState.
Proof. solve_decision. Defined.

Record MatterFabricStatus := mk_fabric_status {
  fs_fabric_id : MatterFabricId;
  fs_state : MatterFabricState;
  fs_node_count : nat;
  fs_verified_at : Instant
}.

Record MatterFabricSecretRefs := mk_secret_refs {
  sr_root_ca_key : SecretRef;
  sr_operational_key : SecretRef;
  sr_controller_state : SecretRef
}.
#[export] Instance MatterFabricSecretRefs_eq_dec : EqDecision MatterFabricSecretRefs.
Proof. solve_decision. Defined.

Record MatterCreateFabricRequest := mk_create_fabric {
  cf_operation_id : MatterOperationId;
  cf_fabric_id : MatterFabricId;
  cf_secrets : MatterFabricSecretRefs
}.

Record MatterCommissioningRequest := mk_commissioning {
  cmr_operation_id : MatterOperationId;
  cmr_fabric_id : MatterFabricId;
  cmr_setup_payload : SecretValue
}.

(** ** Attributes *)

Module MatterAttributeSelection.
Definition new (paths : list MatterAttributePath) :
  result (list MatterAttributePath) MatterControllerContractError :=
  if bool_decide (paths = []) then Err Mcc_EmptyAttributeSelection
  else if MAX_MATTER_ATTRIBUTE_PATHS_PER_REQUEST <? length paths
  then Err Mcc_TooManyAttributePaths
  else if negb (length (remove_dups paths) =? length paths) then Err Mcc_DuplicateAttributePath
  else Ok paths.
End MatterAttributeSelection.

Record MatterSubscriptionRequest := mk_subscription_request {
  sq_subscription_id : MatterSubscriptionId;
  sq_fabric_id : MatterFabricId;
  sq_node_id : MatterNodeId;
  sq_selection : list MatterAttributePath;
  sq_minimum_interval_millis : N;
  sq_maximum_interval_millis : N
}.

Module MatterSubscriptionRequest.
Definition new (subscription_id : MatterSubscriptionId) (fabric_id : MatterFabricId)
  (node_id : MatterNodeId) (selection : list MatterAttributePath)
  (minimum_interval_millis maximum_interval_millis : N) :
  result MatterSubscriptionRequest MatterControllerContractError :=
  if N.eqb maximum_interval_millis 0 || (maximum_interval_millis <? minimum_interval_millis)%N
  then Err Mcc_InvalidSubscriptionInterval
  else Ok (mk_subscription_request subscription_id fabric_id node_id selection
             minimum_interval_millis maximum_interval_millis).
End MatterSubscriptionRequest.

Record MatterSubscriptionStatus := mk_subscription_status {
  ss_subscription_id : MatterSubscriptionId;
  ss_established : bool;
  ss_report_sequence : N;
  ss_verified_at : Instant
}.

Record MatterReadRequest := mk_read {
  rd_fabric_id : MatterFabricId;
  rd_node_id : MatterNodeId;
  rd_selection : list MatterAttributePath
}.

(** ** Commands *)

Inductive MatterControllerCommand :=
| Mcmd_SetOnOff (on : bool)
| Mcmd_SetLevelPercent (value : N)
| Mcmd_SetPositionPercent (value : N)
| Mcmd_Stop
| Mcmd_SetLock (state : MatterLockState).

Module MatterControllerCommand.
Definition validate (self : MatterControllerCommand) : result unit MatterControllerContractError :=
  match self with
  | Mcmd_SetLevelPercent value | Mcmd_SetPositionPercent value =>
      if (100 <? value)%N then Err Mcc_PercentOutOfRange else Ok tt
  | _ => Ok tt
  end.
End MatterControllerCommand.

Record MatterInvokeRequest := mk_invoke {
  iv_projection_id : MatterProjectionId;
  iv_fabric_id : MatterFabricId;
  iv_node_id : MatterNodeId;
  iv_endpoint : MatterEndpointNumber;
  iv_desired_revision : MatterStateRevision;
  iv_command : MatterControllerCommand
}.

Module MatterInvokeRequest.
Definition new (projection_id : MatterProjectionId) (fabric_id : MatterFabricId)
  (node_id : MatterNodeId) (endpoint : MatterEndpointNumber)
  (desired_revision : MatterStateRevision) (command : MatterControllerCommand) :
  result MatterInvokeRequest MatterControllerContractError :=
  let? _ := MatterControllerCommand.validate command in
  Ok (mk_invoke projection_id fabric_id node_id endpoint desired_revision command).
End MatterInvokeRequest.

(** ** Removal, cancellation and backup *)

Record MatterRemoveNodeRequest := mk_remove_node {
  rn_operation_id : MatterOperationId;
  rn_fabric_id : MatterFabricId;
  rn_node_id : MatterNodeId
}.

Inductive MatterRemovalOutcome := Rm_Removed | Rm_NotPresent | Rm_PartialOutcome.
Inductive MatterCancellationOutcome := Cn_Cancelled | Cn_AlreadyCompleted | Cn_OutcomeUnknown.

Record MatterExportRequest := mk_export_request {
  xr_operation_id : MatterOperationId;
  xr_fabric_id : MatterFabricId
}.

Inductive MatterFabricExportFormat := Xf_SimulatorV1 | Xf_ProtectedV1.
#[export] Instance MatterFabricExportFormat_eq_dec : EqDecision MatterFabricExportFormat.
Proof. solve_decision. Defined.

Definition ensure_protected (self : MatterFabricExportFormat) :
  result unit MatterControllerContractError :=
  match self with
  | Xf_SimulatorV1 => Err Mcc_SimulatorExportNotImportable
  | Xf_ProtectedV1 => Ok tt
  end.

Record MatterFabricExport := mk_fabric_export {
  fx_format : MatterFabricExportFormat;
  fx_envelope : SecretValue;
  fx_recovery_key : SecretValue
}.

Record MatterRestoreRequest := mk_restore {
  rs_operation_id : MatterOperationId;
  rs_expected_fabric_id : MatterFabricId;
  rs_format : MatterFabricExportFormat;
  rs_envelope : SecretValue;
  rs_recovery_key : SecretValue
}.

Definition ensure_protected_format (self : MatterRestoreRequest) :
  result unit MatterControllerContractError := ensure_protected (rs_format self).

(** ** Events *)

Record MatterCursorEvent := mk_matter_cursor_event {
  mcv_cursor : N;
  mcv_event : MatterControllerEvent
}.

Record MatterEventPage := mk_matter_event_page {
  mev_earliest_cursor : option N;
  mev_latest_cursor : option N;
  mev_events : list MatterCursorEvent
}.

Module MatterEventPage.
Definition new (earliest_cursor latest_cursor : option N) (events : list MatterCursorEvent) :
  result MatterEventPage MatterControllerContractError :=
  let? events := MatterControllerItems.new events in
  Ok (mk_matter_event_page earliest_cursor latest_cursor events).
End MatterEventPage.
