(* ===== verification/MatterSimulator.v ===== *)
(** The deterministic controller, [crates/homemagic-matter/src]: the scripted faults
    and the trace (script.rs), the built-in devices (fixture.rs), the virtual clock
    (clock.rs) and the simulator (simulator.rs).  A call of the controller is a
    computation over the clock and the state; the calls are taken one after the
    other.  The encoders of exports and of checkpoints are parameters. *)

From S2P Require Import Prelude Text BTree Capability Device MatterState MatterOperation Identity MatterDescriptor MatterController.

(** ** The script *)

Inductive SimulatorOperation :=
| Smo_FabricStatus | Smo_CreateFabric | Smo_Commission | Smo_CancelCommissioning | Smo_Nodes
| Smo_Node | Smo_Subscribe | Smo_Read | Smo_Invoke | Smo_RemoveNode | Smo_ExportFabric
| Smo_RestoreFabric | Smo_EventsAfter.
#[export] Instance SimulatorOperation_eq_dec : EqDecision SimulatorOperation.
Proof. solve_decision. Defined.

Inductive SimulatorReportFault :=
| Rf_Drop | Rf_Duplicate | Rf_Delay (by_ : TimeDelta) | Rf_OutOfOrder.

Inductive SimulatorFault :=
| Sf_FailNext (operation : SimulatorOperation) (error : MatterControllerError)
| Sf_Report (fault : SimulatorReportFault)
| Sf_SubscriptionLoss (reason : MatterSubscriptionLossReason)
| Sf_PartialRemoval
| Sf_UnknownCancellation
| Sf_RestartAt (phase : MatterOperationPhase).

Record SimulatorRestartCheckpoint := mk_restart_checkpoint {
  rk_operation_id : MatterOperationId;
  rk_phase : MatterOperationPhase;
  rk_occurred_at : Instant;
  rk_state : list N
}.

Inductive SimulatorTraceKind :=
| Stk_FaultInjected (name : string)
| Stk_FabricCreated (fabric_id : MatterFabricId)
| Stk_OperationPhase (operation_id : MatterOperationId) (phase : MatterOperationPhase)
| Stk_NodeCommissioned (fabric_id : MatterFabricId) (node_id : N) (fixture : string)
| Stk_SubscriptionEstablished (subscription_id : string)
| Stk_ReadCompleted (report_count : nat)
| Stk_InvocationAcknowledged (projection_id : string) (desired_revision : N)
| Stk_ReportScheduled (report_sequence : N) (delay_millis : Z)
| Stk_ReportDropped (report_sequence : N)
| Stk_ReportDelivered (report_sequence : N)
| Stk_SubscriptionLost (reason : MatterSubscriptionLossReason)
| Stk_NodeRemoved (fabric_id : MatterFabricId) (node_id : N)
| Stk_FabricExported (fabric_id : MatterFabricId)
| Stk_FabricRestored (fabric_id : MatterFabricId)
| Stk_Restarted (operation_id : MatterOperationId) (phase : MatterOperationPhase).

Record SimulatorTraceEntry := mk_trace_entry {
  ste_sequence : N;
  ste_occurred_at : Instant;
  ste_kind : SimulatorTraceKind
}.

(** ** Built-in devices *)

Definition ON_OFF_CLUSTER_ID : N := 6.
Definition ON_OFF_ATTRIBUTE_ID : N := 0.
Definition DOOR_LOCK_CLUSTER_ID : N := 257.
Definition DOOR_LOCK_STATE_ATTRIBUTE_ID : N := 0.

Inductive SimulatorFixture := LightV1 | DoorLockV1.
#[export] Instance SimulatorFixture_eq_dec : EqDecision SimulatorFixture.
Proof. solve_decision. Defined.

Definition fixture_key (self : SimulatorFixture) : string :=
  match self with LightV1 => "light-v1" | DoorLockV1 => "door-lock-v1" end.

Definition fixture_node_id (self : SimulatorFixture) : N :=
  match self with LightV1 => 4097 | DoorLockV1 => 8193 end.

Record SimulatorAttribute := mk_sim_attribute {
  sat_path : MatterAttributePath;
  sat_value : MatterAttributeValue;
  sat_data_version : N
}.
#[export] Instance SimulatorAttribute_eq_dec : EqDecision SimulatorAttribute.
Proof. solve_decision. Defined.

Record MaterializedFixture := mk_materialized {
  mz_fixture : SimulatorFixture;
  mz_descriptor : MatterNodeDescriptor;
  mz_attributes : list (MatterAttributePath * MatterAttributeValue)
}.

Definition materialize (self : SimulatorFixture) (fabric_id : MatterFabricId) :
  result MaterializedFixture MatterDescriptorError :=
  let? node_id := MatterNodeId.new (fixture_node_id self) in
  let endpoint := 1%N in
  let '(device_type, cluster_id, accepted_commands, initial_value) :=
    match self with
    | LightV1 => (256%N, ON_OFF_CLUSTER_ID, [0; 1]%N, Mav_Boolean false)
    | DoorLockV1 => (10%N, DOOR_LOCK_CLUSTER_ID, [0; 1]%N, Mav_Unsigned 1)
    end in
  let? device_type := MatterDeviceType.new device_type 1 in
  let? cluster := MatterClusterDescriptor.with_attributes cluster_id 1 0 accepted_commands [0%N] in
  let? endpoint_descriptor := MatterEndpointDescriptor.new endpoint [device_type] [cluster] [] in
  let? revision := MatterDescriptorRevision.new 1 in
  let? descriptor := MatterNodeDescriptor.new fabric_id node_id [endpoint_descriptor] revision in
  Ok (mk_materialized self descriptor [(mk_path node_id endpoint cluster_id 0, initial_value)]).

Definition SIMULATOR_LIGHT_SETUP : list N := bytes "homemagic-simulator-light-v1".
Definition SIMULATOR_LOCK_SETUP : list N := bytes "homemagic-simulator-lock-v1".

Definition fixture_from_setup (setup : list N) : option SimulatorFixture :=
  if bool_decide (setup = SIMULATOR_LIGHT_SETUP) then Some LightV1
  else if bool_decide (setup = SIMULATOR_LOCK_SETUP) then Some DoorLockV1
  else None.

(** ** The state *)

Record SimulatorNode := mk_sim_node {
  smn_fixture : SimulatorFixture;
  smn_descriptor : MatterNodeDescriptor;
  smn_attributes : list SimulatorAttribute
}.
#[export] Instance SimulatorNode_eq_dec : EqDecision SimulatorNode.
Proof. solve_decision. Defined.

Record SimulatorFabric := mk_sim_fabric {
  sfb_id : MatterFabricId;
  sfb_secrets : MatterFabricSecretRefs;
  sfb_nodes : list SimulatorNode
}.
#[export] Instance SimulatorFabric_eq_dec : EqDecision SimulatorFabric.
Proof. solve_decision. Defined.

Record SimulatorSubscription := mk_sim_subscription {
  ssb_id : MatterSubscriptionId;
  ssb_fabric_id : MatterFabricId;
  ssb_node_id : MatterNodeId;
  ssb_paths : list MatterAttributePath
}.

Record ScheduledReport := mk_scheduled {
  sch_deliver_at : Instant;
  sch_order : N;
  sch_fabric_id : MatterFabricId;
  sch_report : MatterAttributeReport
}.

Record SimulatorState := mk_sim_state {
  sms_fabrics : list SimulatorFabric;
  sms_subscriptions : list SimulatorSubscription;
  sms_events : list MatterControllerEvent;
  sms_pending_reports : list ScheduledReport;
  sms_next_report_sequence : N;
  sms_next_schedule_order : N;
  sms_next_trace_sequence : N;
  sms_trace : list SimulatorTraceEntry;
  sms_completed_commissioning : gset string;
  sms_operation_fabrics : list (MatterOperationId * MatterFabricId);
  sms_faults : list SimulatorFault;
  sms_restart_checkpoint : option SimulatorRestartCheckpoint
}.

(** The clock and the state behind its lock. *)
Record Simulator := mk_simulator { sm_now : Instant; sm_state : SimulatorState }.

Definition SimulatorState_default : SimulatorState :=
  mk_sim_state [] [] [] [] 0 0 0 [] ∅ [] [] None.

(** [DeterministicMatterSimulator::new]. *)
Definition new (started_at : Instant) : Simulator := mk_simulator started_at SimulatorState_default.

Definition with_fabrics (s : SimulatorState) (fabrics : list SimulatorFabric) : SimulatorState :=
  mk_sim_state fabrics (sms_subscriptions s) (sms_events s) (sms_pending_reports s)
    (sms_next_report_sequence s) (sms_next_schedule_order s) (sms_next_trace_sequence s) (sms_trace s)
    (sms_completed_commissioning s) (sms_operation_fabrics s) (sms_faults s) (sms_restart_checkpoint s).
Definition with_subscriptions (s : SimulatorState) (subscriptions : list SimulatorSubscription) :
  SimulatorState :=
  mk_sim_state (sms_fabrics s) subscriptions (sms_events s) (sms_pending_reports s)
    (sms_next_report_sequence s) (sms_next_schedule_order s) (sms_next_trace_sequence s) (sms_trace s)
    (sms_completed_commissioning s) (sms_operation_fabrics s) (sms_faults s) (sms_restart_checkpoint s).
Definition with_events (s : SimulatorState) (events : list MatterControllerEvent) : SimulatorState :=
  mk_sim_state (sms_fabrics s) (sms_subscriptions s) events (sms_pending_reports s)
    (sms_next_report_sequence s) (sms_next_schedule_order s) (sms_next_trace_sequence s) (sms_trace s)
    (sms_completed_commissioning s) (sms_operation_fabrics s) (sms_faults s) (sms_restart_checkpoint s).
Definition with_pending (s : SimulatorState) (pending : list ScheduledReport) (order : N) :
  SimulatorState :=
  mk_sim_state (sms_fabrics s) (sms_subscriptions s) (sms_events s) pending
    (sms_next_report_sequence s) order (sms_next_trace_sequence s) (sms_trace s)
    (sms_completed_commissioning s) (sms_operation_fabrics s) (sms_faults s) (sms_restart_checkpoint s).
Definition with_sequence (s : SimulatorState) (sequence : N) : SimulatorState :=
  mk_sim_state (sms_fabrics s) (sms_subscriptions s) (sms_events s) (sms_pending_reports s)
    sequence (sms_next_schedule_order s) (sms_next_trace_sequence s) (sms_trace s)
    (sms_completed_commissioning s) (sms_operation_fabrics s) (sms_faults s) (sms_restart_checkpoint s).
Definition with_commissioned (s : SimulatorState) (operation_id : MatterOperationId)
  (fabric_id : MatterFabricId) : SimulatorState :=
  mk_sim_state (sms_fabrics s) (sms_subscriptions s) (sms_events s) (sms_pending_reports s)
    (sms_next_report_sequence s) (sms_next_schedule_order s) (sms_next_trace_sequence s) (sms_trace s)
    ({[operation_id]} ∪ sms_completed_commissioning s)
    (sms_operation_fabrics s ++ [(operation_id, fabric_id)]) (sms_faults s) (sms_restart_checkpoint s).
Definition with_faults (s : SimulatorState) (faults : list SimulatorFault) : SimulatorState :=
  mk_sim_state (sms_fabrics s) (sms_subscriptions s) (sms_events s) (sms_pending_reports s)
    (sms_next_report_sequence s) (sms_next_schedule_order s) (sms_next_trace_sequence s) (sms_trace s)
    (sms_completed_commissioning s) (sms_operation_fabrics s) faults (sms_restart_checkpoint s).
Definition with_restart (s : SimulatorState) (checkpoint : option SimulatorRestartCheckpoint) :
  SimulatorState :=
  mk_sim_state (sms_fabrics s) (sms_subscriptions s) (sms_events s) (sms_pending_reports s)
    (sms_next_report_sequence s) (sms_next_schedule_order s) (sms_next_trace_sequence s) (sms_trace s)
    (sms_completed_commissioning s) (sms_operation_fabrics s) (sms_faults s) checkpoint.

(** Replaces the first element that satisfies [p]: [iter_mut().find(p)]. *)
Fixpoint update_first {A : Type} (p : A -> bool) (f : A -> A) (l : list A) : list A :=
  match l with
  | [] => []
  | a :: l => if p a then f a :: l else a :: update_first p f l
  end.

(** [position] and [remove] of the first fault [f] matches. *)
Fixpoint take_fault {A : Type} (f : SimulatorFault -> option A) (faults : list SimulatorFault) :
  option (A * list SimulatorFault) :=
  match faults with
  | [] => None
  | fault :: faults =>
      match f fault with
      | Some a => Some (a, faults)
      | None => '(a, rest) ← take_fault f faults; Some (a, fault :: rest)
      end
  end.

Definition take_report_fault (s : SimulatorState) : option SimulatorReportFault * SimulatorState :=
  match take_fault (fun fault => match fault with Sf_Report r => Some r | _ => None end)
          (sms_faults s) with
  | Some (fault, faults) => (Some fault, with_faults s faults)
  | None => (None, s)
  end.

Definition take_subscription_loss (s : SimulatorState) :
  option MatterSubscriptionLossReason * SimulatorState :=
  match take_fault (fun fault => match fault with Sf_SubscriptionLoss r => Some r | _ => None end)
          (sms_faults s) with
  | Some (reason, faults) => (Some reason, with_faults s faults)
  | None => (None, s)
  end.

Definition take_simple_fault (s : SimulatorState) (predicate : SimulatorFault -> bool) :
  bool * SimulatorState :=
  match take_fault (fun fault => if predicate fault then Some tt else None) (sms_faults s) with
  | Some (_, faults) => (true, with_faults s faults)
  | None => (false, s)
  end.

(** ** Names in the trace: the derived [Debug] of the enumerations *)

Definition operation_debug (operation : SimulatorOperation) : string :=
  match operation with
  | Smo_FabricStatus => "FabricStatus" | Smo_CreateFabric => "CreateFabric"
  | Smo_Commission => "Commission" | Smo_CancelCommissioning => "CancelCommissioning"
  | Smo_Nodes => "Nodes" | Smo_Node => "Node" | Smo_Subscribe => "Subscribe" | Smo_Read => "Read"
  | Smo_Invoke => "Invoke" | Smo_RemoveNode => "RemoveNode" | Smo_ExportFabric => "ExportFabric"
  | Smo_RestoreFabric => "RestoreFabric" | Smo_EventsAfter => "EventsAfter"
  end.

Definition loss_debug (reason : MatterSubscriptionLossReason) : string :=
  match reason with
  | Loss_SessionClosed => "SessionClosed" | Loss_ReportGap => "ReportGap"
  | Loss_TimedOut => "TimedOut" | Loss_DescriptorChanged => "DescriptorChanged"
  | Loss_ControllerRestarted => "ControllerRestarted"
  end.

Definition phase_debug (phase : MatterOperationPhase) : string :=
  match phase with
  | Mph_Requested => "Requested" | Mph_CreatingFabric => "CreatingFabric"
  | Mph_ValidatingSetup => "ValidatingSetup" | Mph_Discovering => "Discovering"
  | Mph_EstablishingSession => "EstablishingSession" | Mph_Commissioning => "Commissioning"
  | Mph_Projecting => "Projecting" | Mph_Subscribing => "Subscribing"
  | Mph_Cancelling => "Cancelling" | Mph_RemovingNode => "RemovingNode"
  | Mph_CleaningSecrets => "CleaningSecrets" | Mph_Exporting => "Exporting"
  | Mph_Restoring => "Restoring" | Mph_LoadingFabric => "LoadingFabric"
  | Mph_ReadingGap => "ReadingGap" | Mph_Completed => "Completed" | Mph_Cancelled => "Cancelled"
  | Mph_Failed => "Failed" | Mph_RepairRequired => "RepairRequired"
  end.

(** [fault_name]; [debug] prints a duration. *)
Definition fault_name (debug : TimeDelta -> string) (fault : SimulatorFault) : string :=
  match fault with
  | Sf_FailNext operation _ => "fail_next:" +:+ operation_debug operation
  | Sf_Report Rf_Drop => "report:Drop"
  | Sf_Report Rf_Duplicate => "report:Duplicate"
  | Sf_Report (Rf_Delay value) => "report:Delay(" +:+ debug value +:+ ")"
  | Sf_Report Rf_OutOfOrder => "report:OutOfOrder"
  | Sf_SubscriptionLoss reason => "subscription_loss:" +:+ loss_debug reason
  | Sf_PartialRemoval => "partial_removal"
  | Sf_UnknownCancellation => "unknown_cancellation"
  | Sf_RestartAt phase => "restart_at:" +:+ phase_debug phase
  end.

(** ** Errors *)

(** [SimulatorControlError]; the last two are those of the clock. *)
Inductive SimulatorControlError :=
| Sce_UnsupportedCheckpoint | Sce_Serialization | Sce_TimeMovedBackwards | Sce_TimestampOverflow.
#[export] Instance SimulatorControlError_eq_dec : EqDecision SimulatorControlError.
Proof. solve_decision. Defined.

Definition fabric_error (fabric_id : MatterFabricId) (category : MatterControllerErrorCategory)
  (code : MatterControllerErrorCode) : MatterControllerError :=
  mk_controller_error category code Retry_Never (Some (Res_Fabric fabric_id)) None.

Definition fabric_not_found (fabric_id : MatterFabricId) : MatterControllerError :=
  fabric_error fabric_id Cat_NotFound Code_FabricNotFound.

Definition node_not_found (fabric_id : MatterFabricId) (node_id : MatterNodeId) :
  MatterControllerError :=
  mk_controller_error Cat_NotFound Code_NodeNotFound Retry_Never
    (Some (Res_Node fabric_id node_id)) None.

Definition invalid_invoke (request : MatterInvokeRequest) : MatterControllerError :=
  mk_controller_error Cat_Validation Code_InvalidRequest Retry_Never
    (Some (Res_Endpoint (iv_fabric_id request) (iv_node_id request) (iv_endpoint request))) None.

Definition internal_error : MatterControllerError :=
  mk_controller_error Cat_Internal Code_InternalInvariant Retry_Never (Some Res_Controller)
    (Some Rep_UpdateControllerAdapter).

(** ** The state's own operations *)

Definition fabric (s : SimulatorState) (fabric_id : MatterFabricId) : option SimulatorFabric :=
  List.find (fun fabric => String.eqb (sfb_id fabric) fabric_id) (sms_fabrics s).

Definition node_of (fabric : SimulatorFabric) (node_id : MatterNodeId) : option SimulatorNode :=
  List.find (fun node => N.eqb (nd_node_id (smn_descriptor node)) node_id) (sfb_nodes fabric).

Definition attribute_of (node : SimulatorNode) (path : MatterAttributePath) :
  option SimulatorAttribute :=
  List.find (fun attribute => bool_decide (sat_path attribute = path)) (smn_attributes node).

Definition trace (s : SimulatorState) (occurred_at : Instant) (kind : SimulatorTraceKind) :
  SimulatorState :=
  let sequence := u64_saturating_add (sms_next_trace_sequence s) 1 in
  mk_sim_state (sms_fabrics s) (sms_subscriptions s) (sms_events s) (sms_pending_reports s)
    (sms_next_report_sequence s) (sms_next_schedule_order s) sequence
    (sms_trace s ++ [mk_trace_entry sequence occurred_at kind])
    (sms_completed_commissioning s) (sms_operation_fabrics s) (sms_faults s)
    (sms_restart_checkpoint s).

Definition emit_event `{Uuids} (s : SimulatorState) (fabric_id : MatterFabricId)
  (occurred_at : Instant) (kind : MatterControllerEventKind) : SimulatorState :=
  let sequence := default u64_max (u64_checked_add (N.of_nat (length (sms_events s))) 1) in
  with_events s (sms_events s ++
    [mk_controller_event (MatterControllerEventId.from_sequence fabric_id sequence) occurred_at kind]).

Definition report_delay (fault : option SimulatorReportFault) : TimeDelta :=
  match fault with
  | Some (Rf_Delay value) => if (0 <? value)%Z then value else 0%Z
  | Some Rf_OutOfOrder => delta_millis 1
  | _ => 0%Z
  end.

(** One more copy of a pending report. *)
Definition push_report (s : SimulatorState) (deliver_at : Instant) (fabric_id : MatterFabricId)
  (report : MatterAttributeReport) : SimulatorState :=
  let order := u64_saturating_add (sms_next_schedule_order s) 1 in
  with_pending s (sms_pending_reports s ++ [mk_scheduled deliver_at order fabric_id report]) order.

Definition schedule_report `{Chrono} (s : SimulatorState) (fabric_id : MatterFabricId)
  (report : MatterAttributeReport) (fault : option SimulatorReportFault) (now : Instant) :
  SimulatorState :=
  match fault with
  | Some Rf_Drop => trace s now (Stk_ReportDropped (rp_report_sequence report))
  | _ =>
      let delay := report_delay fault in
      let deliver_at := default now (checked_add_signed now delay) in
      let s := push_report s deliver_at fabric_id report in
      let s := match fault with
               | Some Rf_Duplicate => push_report s deliver_at fabric_id report
               | _ => s
               end in
      trace s now (Stk_ReportScheduled (rp_report_sequence report) (Z.quot delay nanos_per_milli))
  end.

(** [sort_by_key(|report| (report.deliver_at, report.order))]. *)
Definition report_le (a b : ScheduledReport) : bool :=
  match Z.compare (sch_deliver_at a) (sch_deliver_at b) with
  | Lt => true
  | Eq => (sch_order a <=? sch_order b)%N
  | Gt => false
  end.

Definition deliver_report `{Uuids} (s : SimulatorState) (scheduled : ScheduledReport) :
  SimulatorState :=
  let s := emit_event s (sch_fabric_id scheduled) (sch_deliver_at scheduled)
             (Mek_AttributeReport (sch_fabric_id scheduled) (sch_report scheduled)) in
  trace s (sch_deliver_at scheduled)
    (Stk_ReportDelivered (rp_report_sequence (sch_report scheduled))).

Definition flush_due_reports `{Uuids} (s : SimulatorState) (now : Instant) : SimulatorState :=
  let reports := sort_by report_le (sms_pending_reports s) in
  let due := List.filter (fun report => (sch_deliver_at report <=? now)%Z) reports in
  let pending := List.filter (fun report => negb (sch_deliver_at report <=? now)%Z) reports in
  fold_left deliver_report due (with_pending s pending (sms_next_schedule_order s)).

Definition lose_subscriptions `{Uuids} (s : SimulatorState) (now : Instant)
  (reason : MatterSubscriptionLossReason) : SimulatorState :=
  let subscriptions := sms_subscriptions s in
  let s := fold_left (fun s subscription =>
      emit_event s (ssb_fabric_id subscription) now (Mek_SubscriptionLost (ssb_id subscription) reason))
    subscriptions (with_subscriptions s []) in
  trace s now (Stk_SubscriptionLost reason).

Definition clone_without_runtime_faults (s : SimulatorState) : SimulatorState :=
  with_restart (with_faults s []) None.

(** [u32::checked_add]. *)
Definition u32_checked_add (a b : N) : option N :=
  if (a + b <=? u32_max)%N then Some (a + b)%N else None.

(** Changes the attribute the command names; the report of the change. *)
Definition mutate_for_invoke (s : SimulatorState) (request : MatterInvokeRequest) (now : Instant)
  (report_sequence : N) : result MatterAttributeReport MatterControllerError * SimulatorState :=
  match fabric s (iv_fabric_id request) with
  | None => (Err (fabric_not_found (iv_fabric_id request)), s)
  | Some found =>
      match node_of found (iv_node_id request) with
      | None => (Err (node_not_found (iv_fabric_id request) (iv_node_id request)), s)
      | Some node =>
          match
            match iv_command request with
            | Mcmd_SetOnOff value => Some (ON_OFF_CLUSTER_ID, ON_OFF_ATTRIBUTE_ID, Mav_Boolean value)
            | Mcmd_SetLock Ml_Locked =>
                Some (DOOR_LOCK_CLUSTER_ID, DOOR_LOCK_STATE_ATTRIBUTE_ID, Mav_Unsigned 1)
            | Mcmd_SetLock Ml_Unlocked =>
                Some (DOOR_LOCK_CLUSTER_ID, DOOR_LOCK_STATE_ATTRIBUTE_ID, Mav_Unsigned 2)
            | _ => None
            end
          with
          | None => (Err (invalid_invoke request), s)
          | Some (cluster_id, attribute_id, value) =>
              let path := mk_path (iv_node_id request) (iv_endpoint request) cluster_id attribute_id in
              match attribute_of node path with
              | None => (Err (invalid_invoke request), s)
              | Some attribute =>
                  let version := u32_checked_add (sat_data_version attribute) 1 in
                  let changed := mk_sim_attribute path value
                                   (default (sat_data_version attribute) version) in
                  let node' node := mk_sim_node (smn_fixture node) (smn_descriptor node)
                    (update_first (fun attribute => bool_decide (sat_path attribute = path))
                       (fun _ => changed) (smn_attributes node)) in
                  let fabric' fabric := mk_sim_fabric (sfb_id fabric) (sfb_secrets fabric)
                    (update_first (fun node => N.eqb (nd_node_id (smn_descriptor node))
                                                 (iv_node_id request)) node' (sfb_nodes fabric)) in
                  let s := with_fabrics s
                    (update_first (fun fabric => String.eqb (sfb_id fabric) (iv_fabric_id request))
                       fabric' (sms_fabrics s)) in
                  match version with
                  | None => (Err internal_error, s)
                  | Some version =>
                      (Ok (mk_report path value (Some version) report_sequence now), s)
                  end
              end
          end
      end
  end.

(** ** The controller *)

(** A call: the answer and the simulator it leaves. *)
Abbreviation Sim A := (Simulator -> A * Simulator).
Abbreviation SimResult A := (Sim (result A MatterControllerError)).

Definition sim_try {A B : Type} (m : SimResult A) (f : A -> SimResult B) : SimResult B :=
  fun s => match m s with (Ok a, s) => f a s | (Err e, s) => (Err e, s) end.

(** A step on the state, at the time of the clock. *)
Definition locked {A : Type} (f : Instant -> SimulatorState -> A * SimulatorState) : Sim A :=
  fun s => let '(a, state) := f (sm_now s) (sm_state s) in (a, mk_simulator (sm_now s) state).

Declare Scope simulator_scope.
Notation "'sim!' x ':=' m 'in' k" := (sim_try m (fun x => k))
  (at level 10, x pattern, m at level 100, k at level 200) : simulator_scope.
Local Open Scope simulator_scope.

(** The clock of the simulator. *)
Definition advance_clock `{Chrono} (by_ : TimeDelta) (s : Simulator) :
  result Simulator SimulatorControlError :=
  if (by_ <? 0)%Z then Err Sce_TimeMovedBackwards
  else
    let? now := ok_or (checked_add_signed (sm_now s) by_) Sce_TimestampOverflow in
    Ok (mk_simulator now (sm_state s)).

(** [advance]: the clock moves, then what is due is delivered. *)
Definition advance `{Uuids} `{Chrono} (by_ : TimeDelta) (s : Simulator) :
  result Simulator SimulatorControlError :=
  let? s := advance_clock by_ s in
  Ok (mk_simulator (sm_now s) (flush_due_reports (sm_state s) (sm_now s))).

Definition flush_reports `{Uuids} : Sim unit :=
  locked (fun now state => (tt, flush_due_reports state now)).

(** The encoders: a fabric in an export, the whole state in a checkpoint.  Scripted faults
    and a restart checkpoint are not encoded ([#[serde(skip)]]). *)
Class SimulatorCodec := {
  encode_fabric : SimulatorFabric -> option (list N);
  decode_fabric : list N -> option SimulatorFabric;
  encode_state : Instant * SimulatorState -> option (list N);
  decode_state : list N -> option (Instant * SimulatorState);
  decode_encode_fabric : forall f l, encode_fabric f = Some l -> decode_fabric l = Some f;
  decode_encode_state : forall now s l,
    encode_state (now, s) = Some l -> decode_state l = Some (now, clone_without_runtime_faults s)
}.

Definition CHECKPOINT_FORMAT : string := "homemagic-matter-simulator-checkpoint-v1".
Definition EXPORT_PREFIX : list N := bytes "HOMEMAGIC_SIMULATOR_EXPORT_V1" ++ [0%N].
Definition RECOVERY_KEY : list N := bytes "SIMULATOR-NON-SECRET-RECOVERY-KEY-V1".
Definition MAX_EVENT_PAGE : nat := 256.

Section Controller.
Context `{Uuids} `{Chrono} `{SimulatorCodec}.

Definition checkpoint (s : Simulator) : result (string * list N) SimulatorControlError :=
  let? state := ok_or (encode_state (sm_now s, clone_without_runtime_faults (sm_state s)))
                  Sce_Serialization in
  Ok (CHECKPOINT_FORMAT, state).

Definition from_checkpoint (checkpoint : string * list N) : result Simulator SimulatorControlError :=
  if negb (String.eqb checkpoint.1 CHECKPOINT_FORMAT) then Err Sce_UnsupportedCheckpoint
  else
    let? (now, state) := ok_or (decode_state checkpoint.2) Sce_Serialization in
    Ok (mk_simulator now state).

Definition from_restart_checkpoint (checkpoint : SimulatorRestartCheckpoint) :
  result Simulator SimulatorControlError :=
  let? (now, state) := ok_or (decode_state (rk_state checkpoint)) Sce_Serialization in
  Ok (mk_simulator now state).

Definition take_restart_checkpoint : Sim (option SimulatorRestartCheckpoint) :=
  locked (fun _ state => (sms_restart_checkpoint state, with_restart state None)).

Definition fail_if_scripted (operation : SimulatorOperation) : SimResult unit :=
  locked (fun _ state =>
    match take_fault (fun fault => match fault with
            | Sf_FailNext item error => if bool_decide (item = operation) then Some error else None
            | _ => None
            end) (sms_faults state) with
    | Some (error, faults) => (Err error, with_faults state faults)
    | None => (Ok tt, state)
    end).

Definition operation_phase (fabric_id : MatterFabricId) (operation_id : MatterOperationId)
  (phase : MatterOperationPhase) : SimResult unit :=
  locked (fun now state =>
    let state := trace state now (Stk_OperationPhase operation_id phase) in
    let state := emit_event state fabric_id now (Mek_OperationProgress operation_id phase) in
    match take_simple_fault state (fun fault =>
            match fault with Sf_RestartAt item => bool_decide (item = phase) | _ => false end) with
    | (false, state) => (Ok tt, state)
    | (true, state) =>
        match encode_state (now, clone_without_runtime_faults state) with
        | None => (Err internal_error, state)
        | Some payload =>
            let state := with_restart state
              (Some (mk_restart_checkpoint operation_id phase now payload)) in
            let state := trace state now (Stk_Restarted operation_id phase) in
            (Err (mk_controller_error Cat_Persistence Code_OutcomeIndeterminate Retry_AfterRepair
                    (Some (Res_Operation operation_id)) (Some Rep_ReviewPartialCleanup)), state)
        end
    end).

Definition implementation : string := "homemagic-deterministic-simulator".

Definition fabric_status (fabric_id : MatterFabricId) : SimResult (option MatterFabricStatus) :=
  sim! _ := fail_if_scripted Smo_FabricStatus in
  locked (fun now state =>
    (Ok ((fun fabric => mk_fabric_status (sfb_id fabric) Fs_Active (length (sfb_nodes fabric)) now)
           <$> fabric state fabric_id), state)).

Definition create_fabric (request : MatterCreateFabricRequest) : SimResult MatterFabricStatus :=
  let fabric_id := cf_fabric_id request in
  sim! _ := fail_if_scripted Smo_CreateFabric in
  sim! _ := operation_phase fabric_id (cf_operation_id request) Mph_CreatingFabric in
  locked (fun now state =>
    match fabric state fabric_id with
    | Some _ => (Err (fabric_error fabric_id Cat_Conflict Code_FabricConflict), state)
    | None =>
        let state := with_fabrics state
          (sms_fabrics state ++ [mk_sim_fabric fabric_id (cf_secrets request) []]) in
        (Ok (mk_fabric_status fabric_id Fs_Active 0 now), trace state now (Stk_FabricCreated fabric_id))
    end).

(** [for phase in [..]]. *)
Fixpoint operation_phases (fabric_id : MatterFabricId) (operation_id : MatterOperationId)
  (phases : list MatterOperationPhase) : SimResult unit :=
  match phases with
  | [] => fun s => (Ok tt, s)
  | phase :: phases =>
      sim! _ := operation_phase fabric_id operation_id phase in
      operation_phases fabric_id operation_id phases
  end.

(** The node joins its fabric. *)
Definition join_fabric (fixture : SimulatorFixture) (materialized : MaterializedFixture)
  (request : MatterCommissioningRequest) : SimResult MatterNodeDescriptor :=
  let fabric_id := cmr_fabric_id request in
  let descriptor := mz_descriptor materialized in
  locked (fun now state =>
    match fabric state fabric_id with
    | None => (Err (fabric_not_found fabric_id), state)
    | Some found =>
        if bool_decide (is_Some (node_of found (nd_node_id descriptor))) then
          (Err (mk_controller_error Cat_Conflict Code_FabricConflict Retry_Never
                  (Some (Res_Node fabric_id (nd_node_id descriptor))) None), state)
        else
          let node := mk_sim_node (mz_fixture materialized) descriptor
            (map (fun kv => mk_sim_attribute kv.1 kv.2 1) (mz_attributes materialized)) in
          let state := with_fabrics state
            (update_first (fun fabric => String.eqb (sfb_id fabric) fabric_id)
               (fun fabric => mk_sim_fabric (sfb_id fabric) (sfb_secrets fabric)
                  (sfb_nodes fabric ++ [node])) (sms_fabrics state)) in
          let state := with_commissioned state (cmr_operation_id request) fabric_id in
          (Ok descriptor,
           trace state now (Stk_NodeCommissioned fabric_id (nd_node_id descriptor) (fixture_key fixture)))
    end).

Definition commission (request : MatterCommissioningRequest) : SimResult MatterNodeDescriptor :=
  let fabric_id := cmr_fabric_id request in
  sim! _ := fail_if_scripted Smo_Commission in
  match fixture_from_setup (cmr_setup_payload request) with
  | None => fun s => (Err (fabric_error fabric_id Cat_Validation Code_InvalidSetupPayload), s)
  | Some fixture =>
      sim! _ := operation_phases fabric_id (cmr_operation_id request)
        [Mph_ValidatingSetup; Mph_Discovering; Mph_EstablishingSession; Mph_Commissioning;
         Mph_Projecting; Mph_Subscribing] in
      match materialize fixture fabric_id with
      | Err _ => fun s => (Err internal_error, s)
      | Ok materialized => join_fabric fixture materialized request
      end
  end.

(** The fabric of the operation, or the first one. *)
Definition cancelled_fabric (state : SimulatorState) (operation_id : MatterOperationId) :
  option MatterFabricId :=
  match List.find (fun entry => String.eqb entry.1 operation_id) (sms_operation_fabrics state) with
  | Some entry => Some entry.2
  | None => sfb_id <$> head (sms_fabrics state)
  end.

Definition cancel_commissioning (operation_id : MatterOperationId) :
  SimResult MatterCancellationOutcome :=
  sim! _ := fail_if_scripted Smo_CancelCommissioning in
  sim! fabric_id := (fun s => (ok_or (cancelled_fabric (sm_state s) operation_id) internal_error, s)) in
  sim! _ := operation_phase fabric_id operation_id Mph_Cancelling in
  locked (fun _ state =>
    match take_simple_fault state (fun fault =>
            match fault with Sf_UnknownCancellation => true | _ => false end) with
    | (true, state) => (Ok Cn_OutcomeUnknown, state)
    | (false, state) =>
        (Ok (if bool_decide (operation_id ∈ sms_completed_commissioning state)
             then Cn_AlreadyCompleted else Cn_Cancelled), state)
    end).

Definition nodes (fabric_id : MatterFabricId) : SimResult (list MatterNodeDescriptor) :=
  sim! _ := fail_if_scripted Smo_Nodes in
  locked (fun _ state =>
    (let? fabric := ok_or (fabric state fabric_id) (fabric_not_found fabric_id) in
     map_err (fun _ => internal_error)
       (MatterControllerItems.new (map smn_descriptor (sfb_nodes fabric))), state)).

Definition node (fabric_id : MatterFabricId) (node_id : MatterNodeId) :
  SimResult (option MatterNodeDescriptor) :=
  sim! _ := fail_if_scripted Smo_Node in
  locked (fun _ state =>
    (let? fabric := ok_or (fabric state fabric_id) (fabric_not_found fabric_id) in
     Ok (smn_descriptor <$> node_of fabric node_id), state)).

(** [fabric.nodes.iter().find(..)] with its errors. *)
Definition found_node (state : SimulatorState) (fabric_id : MatterFabricId) (node_id : MatterNodeId) :
  result SimulatorNode MatterControllerError :=
  let? fabric := ok_or (fabric state fabric_id) (fabric_not_found fabric_id) in
  ok_or (node_of fabric node_id) (node_not_found fabric_id node_id).

Definition subscribe (request : MatterSubscriptionRequest) : SimResult MatterSubscriptionStatus :=
  let fabric_id := sq_fabric_id request in
  let node_id := sq_node_id request in
  let id := sq_subscription_id request in
  sim! _ := fail_if_scripted Smo_Subscribe in
  locked (fun now state =>
    match found_node state fabric_id node_id with
    | Err error => (Err error, state)
    | Ok node =>
        if negb (forallb (fun path => bool_decide (is_Some (attribute_of node path)))
                   (sq_selection request)) then
          (Err (mk_controller_error Cat_Validation Code_InvalidRequest Retry_Never
                  (Some (Res_Node fabric_id node_id)) None), state)
        else
          let report_sequence := sms_next_report_sequence state in
          let state := with_subscriptions state
            (List.filter (fun item => negb (String.eqb (ssb_id item) id)) (sms_subscriptions state)
             ++ [mk_sim_subscription id fabric_id node_id (sq_selection request)]) in
          (Ok (mk_subscription_status id true report_sequence now),
           trace state now (Stk_SubscriptionEstablished id))
    end).

Definition read_attribute (state : SimulatorState) (fabric_id : MatterFabricId)
  (node_id : MatterNodeId) (node : SimulatorNode) (now : Instant) (path : MatterAttributePath) :
  result MatterAttributeReport MatterControllerError :=
  let? attribute := ok_or (attribute_of node path) (node_not_found fabric_id node_id) in
  Ok (mk_report path (sat_value attribute) (Some (sat_data_version attribute))
        (sms_next_report_sequence state) now).

Definition read (request : MatterReadRequest) : SimResult (list MatterAttributeReport) :=
  let fabric_id := rd_fabric_id request in
  let node_id := rd_node_id request in
  sim! _ := fail_if_scripted Smo_Read in
  locked (fun now state =>
    let reports :=
      let? node := found_node state fabric_id node_id in
      try_fold (fun reports path =>
          let? report := read_attribute state fabric_id node_id node now path in
          Ok (reports ++ [report])) [] (rd_selection request) in
    match reports with
    | Err error => (Err error, state)
    | Ok reports =>
        (map_err (fun _ => internal_error) (MatterControllerItems.new reports),
         trace state now (Stk_ReadCompleted (length reports)))
    end).

(** The dispatch barriers, which only delay, are left out. *)
Definition invoke (request : MatterInvokeRequest) : SimResult Instant :=
  sim! _ := fail_if_scripted Smo_Invoke in
  locked (fun now state =>
    match u64_checked_add (sms_next_report_sequence state) 1 with
    | None => (Err internal_error, state)
    | Some report_sequence =>
        match mutate_for_invoke (with_sequence state report_sequence) request now report_sequence with
        | (Err error, state) => (Err error, state)
        | (Ok report, state) =>
            let '(report_fault, state) := take_report_fault state in
            let '(subscription_loss, state) := take_subscription_loss state in
            let state := trace state now
              (Stk_InvocationAcknowledged (iv_projection_id request) (rev_get (iv_desired_revision request))) in
            (Ok now,
             match subscription_loss with
             | Some reason => lose_subscriptions state now reason
             | None => flush_due_reports
                         (schedule_report state (iv_fabric_id request) report report_fault now) now
             end)
        end
    end).

(** The node leaves its fabric. *)
Definition leave_fabric (request : MatterRemoveNodeRequest) : SimResult MatterRemovalOutcome :=
  locked (fun _ state =>
    match take_simple_fault state (fun fault =>
            match fault with Sf_PartialRemoval => true | _ => false end) with
    | (true, state) => (Ok Rm_PartialOutcome, state)
    | (false, state) =>
        match fabric state (rn_fabric_id request) with
        | None => (Ok Rm_NotPresent, state)
        | Some found =>
            let remaining := List.filter (fun node =>
              negb (N.eqb (nd_node_id (smn_descriptor node)) (rn_node_id request))) (sfb_nodes found) in
            if length remaining =? length (sfb_nodes found) then (Ok Rm_NotPresent, state)
            else (Ok Rm_Removed, with_fabrics state
                    (update_first (fun fabric => String.eqb (sfb_id fabric) (rn_fabric_id request))
                       (fun fabric => mk_sim_fabric (sfb_id fabric) (sfb_secrets fabric) remaining)
                       (sms_fabrics state)))
        end
    end).

Definition remove_node (request : MatterRemoveNodeRequest) : SimResult MatterRemovalOutcome :=
  let fabric_id := rn_fabric_id request in
  sim! _ := fail_if_scripted Smo_RemoveNode in
  sim! _ := operation_phase fabric_id (rn_operation_id request) Mph_RemovingNode in
  sim! outcome := leave_fabric request in
  match outcome with
  | Rm_Removed =>
      sim! _ := operation_phase fabric_id (rn_operation_id request) Mph_CleaningSecrets in
      locked (fun now state =>
        (Ok Rm_Removed, trace state now (Stk_NodeRemoved fabric_id (rn_node_id request))))
  | outcome => fun s => (Ok outcome, s)
  end.

Definition export_fabric (request : MatterExportRequest) : SimResult MatterFabricExport :=
  let fabric_id := xr_fabric_id request in
  sim! _ := fail_if_scripted Smo_ExportFabric in
  sim! _ := operation_phase fabric_id (xr_operation_id request) Mph_Exporting in
  locked (fun now state =>
    match fabric state fabric_id with
    | None => (Err (fabric_not_found fabric_id), state)
    | Some found =>
        match encode_fabric found with
        | None => (Err internal_error, state)
        | Some encoded =>
            (Ok (mk_fabric_export Xf_SimulatorV1 (EXPORT_PREFIX ++ encoded) RECOVERY_KEY),
             trace state now (Stk_FabricExported fabric_id))
        end
    end).

(** [envelope.starts_with(EXPORT_PREFIX)]. *)
Definition is_export (envelope : list N) : bool :=
  bool_decide (firstn (length EXPORT_PREFIX) envelope = EXPORT_PREFIX).

Definition restore_fabric (request : MatterRestoreRequest) : SimResult MatterFabricStatus :=
  let expected := rs_expected_fabric_id request in
  let operation_id := rs_operation_id request in
  sim! _ := fail_if_scripted Smo_RestoreFabric in
  if negb (bool_decide (rs_format request = Xf_SimulatorV1))
     || negb (bool_decide (rs_recovery_key request = RECOVERY_KEY))
     || negb (is_export (rs_envelope request))
  then fun s => (Err (fabric_error expected Cat_Unsupported Code_UnsupportedOperation), s)
  else
    sim! _ := operation_phase expected operation_id Mph_Restoring in
    match decode_fabric (skipn (length EXPORT_PREFIX) (rs_envelope request)) with
    | None => fun s => (Err internal_error, s)
    | Some restored =>
        if negb (String.eqb (sfb_id restored) expected)
        then fun s => (Err (fabric_error expected Cat_Conflict Code_FabricConflict), s)
        else
          sim! _ := operation_phase expected operation_id Mph_LoadingFabric in
          locked (fun now state =>
            match fabric state (sfb_id restored) with
            | Some _ => (Err (fabric_error (sfb_id restored) Cat_Conflict Code_FabricConflict), state)
            | None =>
                let state := with_fabrics state (sms_fabrics state ++ [restored]) in
                (Ok (mk_fabric_status (sfb_id restored) Fs_Active (length (sfb_nodes restored)) now),
                 trace state now (Stk_FabricRestored (sfb_id restored)))
            end)
    end.

(** The events are numbered from one. *)
Definition events_after (cursor : N) (limit : nat) : SimResult MatterEventPage :=
  sim! _ := fail_if_scripted Smo_EventsAfter in
  locked (fun _ state =>
    let latest := N.of_nat (length (sms_events state)) in
    let numbered := imap (fun index event =>
      mk_matter_cursor_event (N.of_nat index + 1) event) (sms_events state) in
    let events := firstn (Nat.min limit MAX_EVENT_PAGE)
      (List.filter (fun event => (cursor <? mcv_cursor event)%N) numbered) in
    let some := negb (bool_decide (sms_events state = [])) in
    (map_err (fun _ => internal_error)
       (MatterEventPage.new (if some then Some 1%N else None) (if some then Some latest else None)
          events), state)).

(** ** The script of faults *)

Definition inject_fault (debug : TimeDelta -> string) (fault : SimulatorFault) : Sim unit :=
  locked (fun now state =>
    let state := trace state now (Stk_FaultInjected (fault_name debug fault)) in
    (tt, with_faults state (sms_faults state ++ [fault]))).
End Controller.
