(* ===== verification/MatterCommandAdapter.v ===== *)
(** Commands over the Matter controller,
    [crates/homemagic-matter/src/command.rs]: the dispatch of a governed command to
    the controller and the confirmation of its effect from a fresh report, as
    programs over the operations they await. *)

From S2P Require Import MatterSimulator.
From S2P Require Import Prelude Text BTree Json Capability Lifecycle Device Command MatterState CommandStore MatterOperation MatterStore Identity Effects CommandService MatterDescriptor MatterProjection MatterController.

(** The causes behind the [BoxError] of a confirmation. *)
Inductive MatterCommandAdapterError :=
| Ade_Invariant
| Ade_Repository (error : BoxError)
| Ade_State (error : MatterStateError)
| Ade_Contract (error : MatterControllerContractError).

(** ** Awaited operations: the clock, the repository and the controller *)

Inductive AdapterOp :=
| Ado_now
| Ado_projection_for_target (device_id : DeviceId) (endpoint_id : EndpointId) (schema : string)
| Ado_desired_slot (projection_id : MatterProjectionId)
| Ado_store_projection (projection : StoredMatterProjection) (expected_revision : option N)
| Ado_invoke (request : MatterInvokeRequest)
| Ado_read (request : MatterReadRequest).

Definition adapter_resp (op : AdapterOp) : Type :=
  match op with
  | Ado_now => Instant
  | Ado_projection_for_target _ _ _ => result (option StoredMatterProjection) BoxError
  | Ado_desired_slot _ => result (option MatterDesiredCommandSlot) BoxError
  | Ado_store_projection _ _ => result unit BoxError
  | Ado_invoke _ => result Instant MatterControllerError
  | Ado_read _ => result (list MatterAttributeReport) MatterControllerError
  end.

Abbreviation AdapterProg A := (Prog adapter_resp A).

Definition aask (op : AdapterOp) : AdapterProg (adapter_resp op) := perform op.

(** [.await.map_err(f)]. *)
Definition adapted {A E F : Type} (f : E -> F) (m : AdapterProg (result A E)) :
  AdapterProg (result A F) :=
  let! r := m in Ret (map_err f r).

(** ** Pure parts *)

Definition failure (code : CommandErrorCode) : CommandFailure := mk_failure code None.

Definition failed (code : CommandErrorCode) : CommandConfirmationOutcome := Co_Failed (failure code).

Definition confirmed (reported : MatterReportedState) (confirmed_at : Instant) :
  CommandConfirmationOutcome :=
  Co_Confirmed (mk_confirmation confirmed_at (mr_observed_at reported)).

Definition map_command (payload : CommandPayload) : result MatterControllerCommand CommandFailure :=
  match payload with
  | Pl_OnOff (Oo_Set on) => Ok (Mcmd_SetOnOff on)
  | Pl_AccessControl Ac_Lock => Ok (Mcmd_SetLock Ml_Locked)
  | Pl_AccessControl Ac_Unlock => Ok (Mcmd_SetLock Ml_Unlocked)
  | _ => Err (failure Ce_CapabilityMismatch)
  end.

Definition expected_state (payload : CommandPayload) : option MatterStateValue :=
  match payload with
  | Pl_OnOff (Oo_Set on) => Some (Mv_OnOff on)
  | Pl_AccessControl Ac_Lock => Some (Mv_Lock Ml_Locked)
  | Pl_AccessControl Ac_Unlock => Some (Mv_Lock Ml_Unlocked)
  | _ => None
  end.

Definition map_controller_error (error : MatterControllerError) : CommandFailure :=
  failure
    (if bool_decide (cer_code error = Code_OutcomeIndeterminate) then Ce_IndeterminateAfterRestart
     else match cer_category error with
          | Cat_Timeout => Ce_DeadlineExceeded
          | Cat_Validation | Cat_Unsupported | Cat_Protocol => Ce_AdapterRejected
          | _ => Ce_TransportFailure
          end).

Definition map_confirmation_error (error : MatterControllerError) : CommandErrorCode :=
  if bool_decide (cer_code error = Code_OutcomeIndeterminate) then Ce_IndeterminateAfterRestart
  else Ce_TransportFailure.

Section Adapter.
Context `{SerdeJson} `{Uuids}.

Definition capability_projection (stored : StoredMatterProjection) (command : CommandEnvelope) :
  result MatterCapabilityProjection MatterCommandAdapterError :=
  let? (rule, cluster_id, attribute_id) :=
    if String.eqb (sp_capability_schema stored) "on_off.v1"
    then Ok (Rule_OnOffV1, ON_OFF_CLUSTER_ID, ON_OFF_ATTRIBUTE_ID)
    else if String.eqb (sp_capability_schema stored) "access_control.v1"
    then Ok (Rule_AccessControlV1, DOOR_LOCK_CLUSTER_ID, DOOR_LOCK_STATE_ATTRIBUTE_ID)
    else Err Ade_Invariant in
  Ok (mk_capability_projection
        (IntegrationId.from_native (sp_installation_id stored) "matter" (sp_fabric_id stored))
        (sp_device_id stored) (sp_endpoint_id stored) (sp_projection_id stored) rule
        (ce_capability command)
        (mk_path (sp_node_id stored) (sp_endpoint_number stored) cluster_id attribute_id)
        (sp_projection_revision stored) 1 0).

(** ** The adapter *)

Definition projection (command : CommandEnvelope) :
  AdapterProg (result (option StoredMatterProjection) BoxError) :=
  aask (Ado_projection_for_target (ce_device_id command) (ce_endpoint_id command)
          (CapabilityDescriptor.schema (ce_capability command))).

Definition dispatch (command : CommandEnvelope) :
  AdapterProg (result AdapterAcknowledgement CommandFailure) :=
  try! controller_command := Ret (map_command (ce_payload command)) in
  try! found := adapted (fun _ => failure Ce_TransportFailure) (projection command) in
  try! projection := Ret (ok_or found (failure Ce_CapabilityMismatch)) in
  try! found := adapted (fun _ => failure Ce_TransportFailure)
    (aask (Ado_desired_slot (sp_projection_id projection))) in
  try! slot := Ret (ok_or
    (slot ← found;
     if String.eqb (ms_command_id slot) (ce_id command) && bool_decide (is_Some (ms_dispatched_at slot))
     then Some slot else None) (failure Ce_DeviceBusy)) in
  try! revision := Ret (map_err (fun _ => failure Ce_AdapterRejected)
    (MatterStateRevision.new (ms_desired_revision slot))) in
  try! request := Ret (map_err (fun _ => failure Ce_AdapterRejected)
    (MatterInvokeRequest.new (sp_projection_id projection) (sp_fabric_id projection)
       (sp_node_id projection) (sp_endpoint_number projection) revision controller_command)) in
  try! acknowledged_at := adapted map_controller_error (aask (Ado_invoke request)) in
  Ret (Ok (mk_ack acknowledged_at "matter.invoke.accepted")).

(** The stored report already shows the expected state. *)
Definition already_confirmed (state : MatterProjectedState) (received_at : Instant)
  (expected : MatterStateValue) : option MatterReportedState :=
  match mp_reported state with
  | Some reported =>
      if bool_decide (mp_freshness state = Mf_Fresh)
         && (received_at <=? mr_observed_at reported)%Z
         && bool_decide (mr_value reported = expected)
      then Some reported else None
  | None => None
  end.

(** The report is stored, and decides the outcome. *)
Definition apply_report (command : CommandEnvelope) (stored : StoredMatterProjection)
  (reported : MatterReportedState) (causation : MatterReportCausation) (now : Instant)
  (expected : MatterStateValue) :
  AdapterProg (result CommandConfirmationOutcome MatterCommandAdapterError) :=
  try! state := Ret (map_err Ade_State
    (advance_matter_projected_state (sp_state stored) reported causation)) in
  try! revision := Ret (ok_or (u64_checked_add (sp_revision stored) 1) Ade_Invariant) in
  try! _ := adapted Ade_Repository (aask (Ado_store_projection
    (mk_projection (sp_installation_id stored) (sp_fabric_id stored) (sp_node_id stored)
       (sp_endpoint_number stored) (sp_projection_id stored) (sp_device_id stored)
       (sp_endpoint_id stored) (sp_capability_schema stored) (sp_projection_revision stored)
       state revision now) (Some (sp_revision stored)))) in
  Ret (Ok (match mp_reported state with
           | None => Co_Pending
           | Some reported =>
               if (ce_received_at command <=? mr_observed_at reported)%Z
                  && bool_decide (mr_value reported = expected)
               then confirmed reported now else failed Ce_ConfirmationMismatch
           end)).

Definition confirm (command : CommandAggregate) :
  AdapterProg (result CommandConfirmationOutcome MatterCommandAdapterError) :=
  let envelope := ca_envelope command in
  try! found := adapted Ade_Repository (projection envelope) in
  match found with
  | None => Ret (Ok (failed Ce_CapabilityMismatch))
  | Some stored =>
      try! expected := Ret (ok_or (expected_state (ce_payload envelope)) Ade_Invariant) in
      match already_confirmed (sp_state stored) (ce_received_at envelope) expected with
      | Some reported => let! now := aask Ado_now in Ret (Ok (confirmed reported now))
      | None =>
          try! rule := Ret (capability_projection stored envelope) in
          try! selection := Ret (map_err Ade_Contract
            (MatterAttributeSelection.new [cpj_report_path rule])) in
          let! read := aask (Ado_read (mk_read (sp_fabric_id stored) (sp_node_id stored) selection)) in
          match read with
          | Err error => Ret (Ok (failed (map_confirmation_error error)))
          | Ok reports =>
              match List.find (fun report => bool_decide (rp_path report = cpj_report_path rule))
                      reports with
              | None => Ret (Ok Co_Pending)
              | Some report =>
                  try! slot := adapted Ade_Repository (aask (Ado_desired_slot (sp_projection_id stored))) in
                  let causation := mk_report_causation
                    (slot ← slot;
                     if String.eqb (ms_command_id slot) (ce_id envelope)
                     then Some (ms_desired_revision slot) else None) in
                  let! now := aask Ado_now in
                  match normalize_matter_report rule report now (mp_reported (sp_state stored))
                          Src_RefreshFallback causation with
                  | Dec_Applied reported _ _ =>
                      apply_report envelope stored reported causation now expected
                  | Dec_Duplicate =>
                      match mp_reported (sp_state stored) with
                      | Some reported => apply_report envelope stored reported causation now expected
                      | None => Ret (Ok Co_Pending)
                      end
                  | Dec_Rejected _ => Ret (Ok (failed Ce_ConfirmationMismatch))
                  end
              end
          end
      end
  end.
End Adapter.
