(* ===== verification/MatterRepository.v ===== *)
(** Durable Matter controller state: the contract data of
    [crates/homemagic-application/src/matter_repository.rs] and the tables of
    [crates/homemagic-storage/src/matter_repository.rs] that hold fabrics, nodes,
    subscriptions, operations and repairs.  Projections, desired slots and unlock
    authorizations are in [MatterStore].  Every function is the body of one
    transaction. *)

From stdpp Require Import sorting.
From S2P Require Import Prelude Text Json Capability Lifecycle Device Command MatterState CommandStore MatterOperation MatterStore Identity FoundationStore MatterDescriptor MatterController.

(** ** Contract data *)

Inductive MatterFabricStageState := Fst_PendingSecrets | Fst_SecretsReady | Fst_CleanupRequired.
#[export] Instance MatterFabricStageState_eq_dec : EqDecision MatterFabricStageState.
Proof. solve_decision. Defined.

Record MatterFabricStage := mk_stage {
  sg_installation_id : InstallationId;
  sg_fabric_id : MatterFabricId;
  sg_actor_id : ActorId;
  sg_secrets : MatterFabricSecretRefs;
  sg_state : MatterFabricStageState;
  sg_revision : N;
  sg_updated_at : Instant
}.

Record StoredMatterFabric := mk_fabric {
  sf_installation_id : InstallationId;
  sf_fabric_id : MatterFabricId;
  sf_state : MatterFabricState;
  sf_secrets : MatterFabricSecretRefs;
  sf_revision : N;
  sf_updated_at : Instant
}.

Record StoredMatterNode := mk_node {
  sn_installation_id : InstallationId;
  sn_device_id : DeviceId;
  sn_descriptor : MatterNodeDescriptor;
  sn_revision : N;
  sn_updated_at : Instant
}.

Inductive StoredMatterSubscriptionState := Sst_Pending | Sst_Established | Sst_Stale | Sst_RepairRequired.
#[export] Instance StoredMatterSubscriptionState_eq_dec : EqDecision StoredMatterSubscriptionState.
Proof. solve_decision. Defined.

Record StoredMatterSubscriptionRecovery := mk_recovery {
  sv_gap_reason : option MatterSubscriptionLossReason;
  sv_sleepy : bool;
  sv_gap_reads : N;
  sv_maximum_gap_reads : N;
  sv_subscribe_attempts : N;
  sv_maximum_subscribe_attempts : N;
  sv_retry_at : option Instant;
  sv_last_gap_read_at : option Instant;
  sv_sleepy_read_interval_millis : N
}.

Module StoredMatterSubscriptionRecovery.
Definition default : StoredMatterSubscriptionRecovery :=
  mk_recovery None false 0 1 0 5 None None 60000.
End StoredMatterSubscriptionRecovery.

Record StoredMatterSubscription := mk_subscription {
  sb_subscription_id : MatterSubscriptionId;
  sb_fabric_id : MatterFabricId;
  sb_node_id : MatterNodeId;
  sb_state : StoredMatterSubscriptionState;
  sb_report_sequence : N;
  sb_stale_after : Instant;
  sb_recovery : StoredMatterSubscriptionRecovery;
  sb_revision : N;
  sb_updated_at : Instant
}.

Record MatterOperationProgress := mk_progress {
  pg_operation_id : MatterOperationId;
  pg_revision : N;
  pg_phase : MatterOperationPhase;
  pg_error : option MatterControllerError;
  pg_occurred_at : Instant
}.

Record MatterOperationNodeResult := mk_node_result {
  nr_operation_id : MatterOperationId;
  nr_fabric_id : MatterFabricId;
  nr_node_id : MatterNodeId;
  nr_device_id : DeviceId;
  nr_created_at : Instant
}.

Inductive MatterRepairStatus := Mrs_Open | Mrs_InProgress | Mrs_Resolved.
#[export] Instance MatterRepairStatus_eq_dec : EqDecision MatterRepairStatus.
Proof. solve_decision. Defined.

Record MatterRepairRecord := mk_matter_repair {
  mx_id : string;
  mx_operation_id : MatterOperationId;
  mx_status : MatterRepairStatus;
  mx_error : MatterControllerError;
  mx_revision : N;
  mx_created_at : Instant;
  mx_updated_at : Instant
}.

(** [MatterOperationBinding], [matter_administration.rs]. *)
Record MatterOperationBinding := mk_binding {
  bd_operation_id : MatterOperationId;
  bd_actor_id : ActorId;
  bd_installation_id : InstallationId;
  bd_action : CommandAction;
  bd_idempotency_key : IdempotencyKey;
  bd_request_hash : CanonicalRequestHash;
  bd_policy_version : N
}.

Definition action_for_kind (kind : MatterOperationKind) : CommandAction :=
  match kind with
  | Mk_CreateFabric => Act_MatterCreateFabric
  | Mk_CommissionNode => Act_MatterCommissionNode
  | Mk_CancelCommissioning => Act_MatterCancelOperation
  | Mk_RemoveNode => Act_MatterRemoveNode
  | Mk_ExportFabric => Act_MatterExportFabric
  | Mk_RestoreFabric => Act_MatterRestoreFabric
  | Mk_RepairSubscription => Act_MatterRepairSubscription
  end.

Inductive MatterOperationCreateOutcome :=
| Oc_Created (operation : MatterOperation)
| Oc_ExistingEquivalent (operation : MatterOperation)
| Oc_Conflict (operation_id : MatterOperationId).

Record MatterSubscriptionProjectionWrite := mk_projection_write {
  jw_projection : StoredMatterProjection;
  jw_expected_revision : N
}.

Record MatterRecovery := mk_matter_recovery {
  rv_operations : list MatterOperation;
  rv_subscriptions : list StoredMatterSubscription;
  rv_projections : list StoredMatterProjection;
  rv_repairs : list MatterRepairRecord
}.

Record MatterRetention := mk_matter_retention {
  mrt_installation_id : InstallationId;
  mrt_now : Instant;
  mrt_terminal_before : Instant;
  mrt_resolved_repair_before : Instant;
  mrt_authorization_before : Instant;
  mrt_maximum_terminal_operations : nat
}.

Record MatterRetentionResult := mk_matter_retention_result {
  mrr_operations_removed : nat;
  mrr_repairs_removed : nat;
  mrr_authorizations_removed : nat
}.

Section Commits.
Context `{SerdeJson}.

Record MatterSubscriptionRepairCommit := mk_repair_commit {
  rpc_operation : MatterOperation;
  rpc_expected_operation_revision : N;
  rpc_progress : MatterOperationProgress;
  rpc_subscription : StoredMatterSubscription;
  rpc_expected_subscription_revision : N;
  rpc_projections : list MatterSubscriptionProjectionWrite;
  rpc_repair : option MatterRepairRecord
}.

Record MatterNodeInventoryRecord := mk_inventory {
  iy_node : StoredMatterNode;
  iy_device : DeviceRecord;
  iy_projections : list StoredMatterProjection;
  iy_subscription : option StoredMatterSubscription;
  iy_commissioning_result : option MatterOperationNodeResult
}.

Record MatterNodeRemovalCommit := mk_removal_commit {
  rmc_device : DeviceRecord;
  rmc_fabric_id : MatterFabricId;
  rmc_node_id : MatterNodeId;
  rmc_operation : MatterOperation;
  rmc_progress : MatterOperationProgress
}.

Record MatterCommissioningCommit := mk_commissioning_commit {
  cc_integration : IntegrationInstance;
  cc_device : DeviceRecord;
  cc_node : StoredMatterNode;
  cc_projections : list StoredMatterProjection;
  cc_subscription : StoredMatterSubscription;
  cc_result : MatterOperationNodeResult;
  cc_operation : MatterOperation;
  cc_progress : MatterOperationProgress
}.

Record MatterCancellationCommit := mk_cancellation_commit {
  xc_commissioning : MatterOperation;
  xc_expected_commissioning_revision : N;
  xc_commissioning_progress : MatterOperationProgress;
  xc_commissioning_repair : option MatterRepairRecord;
  xc_cancellation : MatterOperation;
  xc_expected_cancellation_revision : N;
  xc_cancellation_progress : MatterOperationProgress;
  xc_cancellation_repair : option MatterRepairRecord
}.

(** ** Tables *)

(** A row keeps the columns an update leaves as they are beside the payload. *)
Record StageRow := mk_stage_row { sgr_installation_id : InstallationId; sgr_payload : MatterFabricStage }.

Record SubscriptionRow := mk_subscription_row {
  sbr_installation_id : InstallationId;
  sbr_fabric_id : MatterFabricId;
  sbr_node_id : MatterNodeId;
  sbr_payload : StoredMatterSubscription
}.

Record OperationRow := mk_operation_row {
  opr_installation_id : InstallationId;
  opr_fabric_id : MatterFabricId;
  opr_payload : MatterOperation
}.

Record MatterRepairRow := mk_matter_repair_row {
  mxr_installation_id : InstallationId;
  mxr_operation_id : MatterOperationId;
  mxr_payload : MatterRepairRecord
}.

(** Progress is in cursor order; the endpoints of nodes are [db_matter_endpoints]
    and the projections [db_projections] of the base. *)
Record MatterDb := mk_matter_db {
  md_foundation : FoundationDb;
  md_fabrics : gmap string StoredMatterFabric;
  md_stages : gmap string StageRow;
  md_nodes : gmap (string * N) StoredMatterNode;
  md_subscriptions : gmap string SubscriptionRow;
  md_operations : gmap string OperationRow;
  md_progress : list MatterOperationProgress;
  md_repairs : gmap string MatterRepairRow;
  md_bindings : gmap string MatterOperationBinding;
  md_results : gmap string MatterOperationNodeResult
}.

Definition set_foundation (db : MatterDb) (foundation : FoundationDb) : MatterDb :=
  mk_matter_db foundation (md_fabrics db) (md_stages db) (md_nodes db) (md_subscriptions db)
    (md_operations db) (md_progress db) (md_repairs db) (md_bindings db) (md_results db).
Definition set_fabrics (db : MatterDb) (fabrics : gmap string StoredMatterFabric)
  (stages : gmap string StageRow) : MatterDb :=
  mk_matter_db (md_foundation db) fabrics stages (md_nodes db) (md_subscriptions db)
    (md_operations db) (md_progress db) (md_repairs db) (md_bindings db) (md_results db).
Definition set_nodes (db : MatterDb) (nodes : gmap (string * N) StoredMatterNode)
  (subscriptions : gmap string SubscriptionRow) : MatterDb :=
  mk_matter_db (md_foundation db) (md_fabrics db) (md_stages db) nodes subscriptions
    (md_operations db) (md_progress db) (md_repairs db) (md_bindings db) (md_results db).
Definition set_operations (db : MatterDb) (operations : gmap string OperationRow)
  (progress : list MatterOperationProgress) (repairs : gmap string MatterRepairRow)
  (bindings : gmap string MatterOperationBinding)
  (results : gmap string MatterOperationNodeResult) : MatterDb :=
  mk_matter_db (md_foundation db) (md_fabrics db) (md_stages db) (md_nodes db)
    (md_subscriptions db) operations progress repairs bindings results.

(** The tables that are shared with commands and devices. *)
Definition base (db : MatterDb) : Db := fd_db (md_foundation db).

Definition set_base (db : MatterDb) (b : Db) : MatterDb :=
  set_foundation db (FoundationStore.set_devices (md_foundation db) b (fd_devices (md_foundation db))).

(** [ON DELETE CASCADE] of a projection: its desired slot, the authorizations of
    its unlocks and its supersessions go with it. *)
Definition delete_projections (b : Db) (gone : StoredMatterProjection -> bool) : Db :=
  let removed id := match db_projections b !! id with
                    | Some row => gone (pj_payload row) | None => false end in
  let b' := set_projections b (filter (fun kv => gone (pj_payload kv.2) = false) (db_projections b)) in
  set_desired b'
    (filter (fun kv => removed kv.1 = false) (db_slots b))
    (filter (fun kv => removed (ul_projection_id kv.2) = false) (db_unlocks b))
    (filter (fun kv => removed kv.2.1.2 = false) (db_supersessions b)).

Definition set_matter_endpoints (b : Db) (endpoints : gset (string * N * N)) : Db :=
  mk_db (db_installations b) (db_actors b) (db_credentials b) (db_grants b) (db_devices b)
    (db_endpoints b) (db_commands b) (db_audit b) (db_cursor b) endpoints (db_projections b)
    (db_slots b) (db_unlocks b) (db_supersessions b).

(** ** Fabrics *)

Definition store_fabric_stage (db : MatterDb) (stage : MatterFabricStage)
  (expected_revision : option N) : result MatterDb StorageError :=
  let id := sg_fabric_id stage in
  let current := md_stages db !! id in
  let? _ := validate_revision "fabric stage" ((fun row => sg_revision (sgr_payload row)) <$> current)
              expected_revision (sg_revision stage) in
  let? _ := to_i64 (sg_revision stage) in
  let? installation_id :=
    match current with
    | Some row => Ok (sgr_installation_id row)
    | None =>
        guard? bool_decide (sg_installation_id stage ∈ db_installations (base db))
               && bool_decide (is_Some (db_actors (base db) !! sg_actor_id stage))
               && forallb (fun kv => negb (String.eqb (sgr_installation_id kv.2)
                                             (sg_installation_id stage)))
                    (map_to_list (md_stages db))
          else Se_Constraint in
        Ok (sg_installation_id stage)
    end in
  Ok (set_fabrics db (md_fabrics db) (<[id := mk_stage_row installation_id stage]> (md_stages db))).

Definition matter_fabric_stage (db : MatterDb) (fabric_id : MatterFabricId) :
  option MatterFabricStage := sgr_payload <$> md_stages db !! fabric_id.

Definition delete_attached_stage (db : MatterDb) (fabric_id : MatterFabricId) :
  result MatterDb StorageError :=
  guard? bool_decide (is_Some (md_fabrics db !! fabric_id))
    else Se_InvalidMatter "fabric stage cannot be removed before attachment" in
  Ok (set_fabrics db (md_fabrics db) (delete fabric_id (md_stages db))).

Definition store_fabric (db : MatterDb) (fabric : StoredMatterFabric)
  (expected_revision : option N) : result MatterDb StorageError :=
  let id := sf_fabric_id fabric in
  let current := md_fabrics db !! id in
  let? _ := validate_revision "fabric" (sf_revision <$> current) expected_revision
              (sf_revision fabric) in
  guard? match current with
         | Some stored => String.eqb (sf_installation_id stored) (sf_installation_id fabric)
         | None => true
         end else Se_InvalidMatter "fabric installation changed" in
  let? _ := to_i64 (sf_revision fabric) in
  guard? match current with
         | Some _ => true
         | None => bool_decide (sf_installation_id fabric ∈ db_installations (base db))
         end else Se_Constraint in
  Ok (set_fabrics db (<[id := fabric]> (md_fabrics db)) (md_stages db)).

Definition matter_fabric (db : MatterDb) (fabric_id : MatterFabricId) : option StoredMatterFabric :=
  md_fabrics db !! fabric_id.

Definition installation_for_fabric (db : MatterDb) (fabric_id : MatterFabricId) :
  result InstallationId StorageError :=
  ok_or (sf_installation_id <$> md_fabrics db !! fabric_id) Se_NoRows.

(** ** Nodes *)

Definition node_key (node : StoredMatterNode) : string * N :=
  (nd_fabric_id (sn_descriptor node), nd_node_id (sn_descriptor node)).

(** The node row, before its endpoints. *)
Definition store_node_row (db : MatterDb) (node : StoredMatterNode)
  (expected_revision : option N) : result MatterDb StorageError :=
  let key := node_key node in
  let? node_id := to_i64 key.2 in
  let current := md_nodes db !! key in
  let? _ := validate_revision "node" (sn_revision <$> current) expected_revision
              (sn_revision node) in
  guard? match current with
         | Some stored => String.eqb (sn_installation_id stored) (sn_installation_id node)
                          && String.eqb (sn_device_id stored) (sn_device_id node)
         | None => true
         end else Se_InvalidMatter "node stable identity changed" in
  let? descriptor_revision := to_i64 (nd_descriptor_revision (sn_descriptor node)) in
  let? _ := to_i64 (sn_revision node) in
  guard? (0 <? node_id)%Z && (0 <? descriptor_revision)%Z
         && match current with
            | Some _ => true
            | None =>
                bool_decide (is_Some (md_fabrics db !! key.1))
                && bool_decide (sn_installation_id node ∈ db_installations (base db))
                && bool_decide (is_Some (db_devices (base db) !! sn_device_id node))
                && forallb (fun kv => negb (String.eqb kv.1.1 key.1
                                            && String.eqb (sn_device_id kv.2) (sn_device_id node)))
                     (map_to_list (md_nodes db))
            end else Se_Constraint in
  Ok (set_nodes db (<[key := node]> (md_nodes db)) (md_subscriptions db)).

(** Its endpoints: those of the descriptor are upserted, all others deleted, with
    the projections that reference them. *)
Definition store_endpoints (b : Db) (descriptor : MatterNodeDescriptor) : Db :=
  let of_node (key : string * N * N) :=
    bool_decide (key.1 = (nd_fabric_id descriptor, nd_node_id descriptor)) in
  let retained n := existsb (fun endpoint => N.eqb (ep_number endpoint) n) (nd_endpoints descriptor) in
  let upserted := list_to_set (map (fun endpoint =>
      (nd_fabric_id descriptor, nd_node_id descriptor, ep_number endpoint)) (nd_endpoints descriptor)) in
  let b := delete_projections b (fun projection =>
      of_node (sp_fabric_id projection, sp_node_id projection, sp_endpoint_number projection)
      && negb (retained (sp_endpoint_number projection))) in
  set_matter_endpoints b
    (filter (fun key => of_node key && negb (retained key.2) = false)
       (db_matter_endpoints b ∪ upserted)).

Definition store_node (db : MatterDb) (node : StoredMatterNode) (expected_revision : option N) :
  result MatterDb StorageError :=
  let? db := store_node_row db node expected_revision in
  Ok (set_base db (store_endpoints (base db) (sn_descriptor node))).

(** [store_projection] on the shared tables. *)
Definition store_matter_projection (db : MatterDb) (projection : StoredMatterProjection)
  (expected_revision : option N) : result MatterDb StorageError :=
  let? b := store_projection (base db) projection expected_revision in
  Ok (set_base db b).

(** ** Subscriptions *)

Definition recovery_budget_valid (recovery : StoredMatterSubscriptionRecovery) : bool :=
  negb (N.eqb (sv_maximum_gap_reads recovery) 0
        || N.eqb (sv_maximum_subscribe_attempts recovery) 0
        || N.eqb (sv_sleepy_read_interval_millis recovery) 0
        || (sv_maximum_gap_reads recovery <? sv_gap_reads recovery)%N
        || (sv_maximum_subscribe_attempts recovery <? sv_subscribe_attempts recovery)%N).

Definition store_subscription (db : MatterDb) (subscription : StoredMatterSubscription)
  (expected_revision : option N) : result MatterDb StorageError :=
  guard? recovery_budget_valid (sb_recovery subscription)
    else Se_InvalidMatter "subscription recovery budget is invalid" in
  let id := sb_subscription_id subscription in
  let current := md_subscriptions db !! id in
  let? _ := validate_revision "subscription"
              ((fun row => sb_revision (sbr_payload row)) <$> current) expected_revision
              (sb_revision subscription) in
  let? installation_id := installation_for_fabric db (sb_fabric_id subscription) in
  let? _ := to_i64 (sb_node_id subscription) in
  let? _ := to_i64 (sb_report_sequence subscription) in
  let? _ := to_i64 (sb_revision subscription) in
  let key := (sb_fabric_id subscription, sb_node_id subscription) in
  let? row :=
    match current with
    | Some row => Ok (mk_subscription_row (sbr_installation_id row) (sbr_fabric_id row)
                        (sbr_node_id row) subscription)
    | None =>
        guard? bool_decide (is_Some (md_nodes db !! key))
               && forallb (fun kv => negb (bool_decide ((sbr_fabric_id kv.2, sbr_node_id kv.2) = key)))
                    (map_to_list (md_subscriptions db))
          else Se_Constraint in
        Ok (mk_subscription_row installation_id key.1 key.2 subscription)
    end in
  Ok (set_nodes db (md_nodes db) (<[id := row]> (md_subscriptions db))).

(** ** Operations *)

(** Decoding a stored operation validates it. *)
Definition decode_operation (operation : MatterOperation) : result MatterOperation StorageError :=
  match MatterOperation.validate_persisted operation with
  | Ok _ => Ok operation
  | Err _ => Err Se_Json
  end.

Definition load_operation (db : MatterDb) (id : MatterOperationId) :
  result (option MatterOperation) StorageError :=
  match md_operations db !! id with
  | None => Ok None
  | Some row => let? operation := decode_operation (opr_payload row) in Ok (Some operation)
  end.

Definition operation_fabric_id (operation : MatterOperation) : MatterFabricId :=
  match mo_target operation with
  | Mt_Fabric fabric_id | Mt_Operation fabric_id _ | Mt_Node fabric_id _ => fabric_id
  end.

(** [UNIQUE (operation_id, revision)]; the operation exists. *)
Definition insert_progress (db : MatterDb) (progress : MatterOperationProgress) :
  result MatterDb StorageError :=
  let? revision := to_i64 (pg_revision progress) in
  guard? (0 <? revision)%Z
         && bool_decide (is_Some (md_operations db !! pg_operation_id progress))
         && forallb (fun row => negb (String.eqb (pg_operation_id row) (pg_operation_id progress)
                                      && N.eqb (pg_revision row) (pg_revision progress)))
              (md_progress db)
    else Se_Constraint in
  Ok (set_operations db (md_operations db) (md_progress db ++ [progress]) (md_repairs db)
        (md_bindings db) (md_results db)).

(** [event_id] is the fresh identity of the event. *)
Definition append_operation_event `{Uuids} (db : MatterDb) (event_id : EventId)
  (operation : MatterOperation) (from : option MatterOperationPhase) (actor : option string) :
  result MatterDb StorageError :=
  let event := mk_event event_id None (mo_updated_at operation)
    (mk_metadata (CorrelationId.from_key (mo_id operation)) None actor None)
    (Ev_MatterOperationTransitioned (mo_id operation) (mo_kind operation) from (mo_phase operation)
       (mo_revision operation)) in
  let? foundation := insert_event (md_foundation db) event in
  Ok (set_foundation db foundation).

Definition create_operation (db : MatterDb) (operation : MatterOperation)
  (progress : MatterOperationProgress) : result MatterDb StorageError :=
  guard? negb (negb (N.eqb (mo_revision operation) 1)
               || MatterOperationPhase.is_terminal (mo_phase operation)
               || negb (String.eqb (pg_operation_id progress) (mo_id operation))
               || negb (N.eqb (pg_revision progress) (mo_revision operation))
               || negb (bool_decide (pg_phase progress = mo_phase operation)))
    else Se_InvalidMatter "invalid initial operation progress" in
  let fabric_id := operation_fabric_id operation in
  let? installation_id := installation_for_fabric db fabric_id in
  guard? bool_decide (md_operations db !! mo_id operation = None) else Se_Constraint in
  insert_progress
    (set_operations db
       (<[mo_id operation := mk_operation_row installation_id fabric_id operation]>
          (md_operations db))
       (md_progress db) (md_repairs db) (md_bindings db) (md_results db)) progress.

Definition create_matter_operation `{Uuids} (db : MatterDb) (event_id : EventId)
  (operation : MatterOperation) (progress : MatterOperationProgress) :
  result MatterDb StorageError :=
  let? db := create_operation db operation progress in
  append_operation_event db event_id operation None None.

Definition binding_of_key (db : MatterDb) (actor_id : ActorId) (key : IdempotencyKey) :
  option MatterOperationBinding :=
  snd <$> List.find (fun kv => String.eqb (bd_actor_id kv.2) actor_id
                               && bool_decide (bd_idempotency_key kv.2 = key))
            (map_to_list (md_bindings db)).

(** The CHECKs and references of a new binding row. *)
Definition insert_binding (db : MatterDb) (binding : MatterOperationBinding) :
  result MatterDb StorageError :=
  let length := length (chars (key_text (bd_idempotency_key binding))) in
  guard? bool_decide (is_Some (md_operations db !! bd_operation_id binding))
         && bool_decide (is_Some (db_actors (base db) !! bd_actor_id binding))
         && bool_decide (bd_installation_id binding ∈ db_installations (base db))
         && (1 <=? length) && (length <=? 128)
         && request_hash_check (hash_text (bd_request_hash binding))
         && bool_decide (md_bindings db !! bd_operation_id binding = None)
         && bool_decide (binding_of_key db (bd_actor_id binding) (bd_idempotency_key binding) = None)
    else Se_Constraint in
  Ok (set_operations db (md_operations db) (md_progress db) (md_repairs db)
        (<[bd_operation_id binding := binding]> (md_bindings db)) (md_results db)).

Definition create_administration_operation `{Uuids} (db : MatterDb) (event_id : EventId)
  (operation : MatterOperation) (binding : MatterOperationBinding)
  (progress : MatterOperationProgress) :
  result (MatterDb * MatterOperationCreateOutcome) StorageError :=
  guard? String.eqb (bd_operation_id binding) (mo_id operation)
         && negb (N.eqb (bd_policy_version binding) 0)
         && bool_decide (bd_action binding = action_for_kind (mo_kind operation))
    else Se_InvalidMatter "invalid Matter operation actor binding" in
  let? installation_id := installation_for_fabric db (operation_fabric_id operation) in
  guard? String.eqb (bd_installation_id binding) installation_id
    else Se_InvalidMatter "Matter operation installation binding mismatch" in
  match binding_of_key db (bd_actor_id binding) (bd_idempotency_key binding) with
  | Some existing =>
      let? found := load_operation db (bd_operation_id existing) in
      let? stored := ok_or found
        (Se_InvalidMatter "Matter operation binding references missing operation") in
      Ok (db, if bool_decide (bd_request_hash existing = bd_request_hash binding)
              then Oc_ExistingEquivalent stored else Oc_Conflict (bd_operation_id existing))
  | None =>
      let? db := create_operation db operation progress in
      let? db := insert_binding db binding in
      let? db := append_operation_event db event_id operation None (Some (bd_actor_id binding)) in
      Ok (db, Oc_Created operation)
  end.

Definition load_administration_operation (db : MatterDb) (id : MatterOperationId) :
  result (option (MatterOperation * MatterOperationBinding)) StorageError :=
  match md_operations db !! id, md_bindings db !! id with
  | Some row, Some binding =>
      let? operation := decode_operation (opr_payload row) in Ok (Some (operation, binding))
  | _, _ => Ok None
  end.

(** ** Repairs *)

Definition store_repair (db : MatterDb) (repair : MatterRepairRecord)
  (expected_revision : option N) : result MatterDb StorageError :=
  let id := mx_id repair in
  let current := md_repairs db !! id in
  let? _ := validate_revision "repair" ((fun row => mx_revision (mxr_payload row)) <$> current)
              expected_revision (mx_revision repair) in
  let? installation_id :=
    ok_or (opr_installation_id <$> md_operations db !! mx_operation_id repair) Se_NoRows in
  let? _ := to_i64 (mx_revision repair) in
  let row :=
    match current with
    | Some row => mk_matter_repair_row (mxr_installation_id row) (mxr_operation_id row) repair
    | None => mk_matter_repair_row installation_id (mx_operation_id repair) repair
    end in
  Ok (set_operations db (md_operations db) (md_progress db) (<[id := row]> (md_repairs db))
        (md_bindings db) (md_results db)).

(** ** Transitions *)

(** A repair record belongs to exactly the move into repair-required, with the
    same error. *)
Definition repair_evidence (phase : MatterOperationPhase) (progress : MatterOperationProgress)
  (repair : option MatterRepairRecord) : result unit StorageError :=
  match bool_decide (phase = Mph_RepairRequired), repair with
  | true, Some repair =>
      guard? bool_decide (pg_error progress = Some (mx_error repair))
        else Se_InvalidMatter "repair-required transition lacks matching repair evidence" in Ok tt
  | true, None =>
      Err (Se_InvalidMatter "repair-required transition lacks matching repair evidence")
  | false, Some _ => Err (Se_InvalidMatter "repair record requires repair-required operation")
  | false, None => Ok tt
  end.

Definition transition_operation `{Uuids} (db : MatterDb) (event_id : EventId)
  (operation : MatterOperation) (expected_revision : N) (progress : MatterOperationProgress)
  (repair : option MatterRepairRecord) : result MatterDb StorageError :=
  let id := mo_id operation in
  let? found := load_operation db id in
  let? current := ok_or found (Se_InvalidMatter "Matter operation is missing") in
  let? row := ok_or (md_operations db !! id) Se_NoRows in
  let? _ := validate_revision "operation" (Some (mo_revision (opr_payload row)))
              (Some expected_revision) (mo_revision operation) in
  guard? String.eqb (pg_operation_id progress) id
         && N.eqb (pg_revision progress) (mo_revision operation)
         && bool_decide (pg_phase progress = mo_phase operation)
    else Se_InvalidMatter "operation progress mismatch" in
  let? _ := repair_evidence (mo_phase operation) progress repair in
  let? _ := to_i64 (mo_revision operation) in
  let db :=
    set_operations db
      (<[id := mk_operation_row (opr_installation_id row) (opr_fabric_id row) operation]>
         (md_operations db))
      (md_progress db) (md_repairs db) (md_bindings db) (md_results db) in
  let? db := insert_progress db progress in
  let? db :=
    match repair with
    | None => Ok db
    | Some repair =>
        guard? String.eqb (mx_operation_id repair) id
          else Se_InvalidMatter "repair operation mismatch" in
        store_repair db repair None
    end in
  append_operation_event db event_id operation (Some (mo_phase current))
    (bd_actor_id <$> md_bindings db !! id).

(** ** Commits *)

Definition on_foundation (db : MatterDb) (f : FoundationDb -> result FoundationDb StorageError) :
  result MatterDb StorageError :=
  let? foundation := f (md_foundation db) in Ok (set_foundation db foundation).

Definition of_node (fabric_id : MatterFabricId) (node_id : MatterNodeId)
  (projection : StoredMatterProjection) : bool :=
  String.eqb (sp_fabric_id projection) fabric_id && N.eqb (sp_node_id projection) node_id.

Definition commissioning_coherent (commit : MatterCommissioningCommit) : bool :=
  let descriptor := sn_descriptor (cc_node commit) in
  let operation := cc_operation commit in
  let node := cc_node commit in
  bool_decide (mo_kind operation = Mk_CommissionNode)
  && bool_decide (mo_phase operation = Mph_Completed)
  && String.eqb (pg_operation_id (cc_progress commit)) (mo_id operation)
  && N.eqb (pg_revision (cc_progress commit)) (mo_revision operation)
  && bool_decide (pg_phase (cc_progress commit) = mo_phase operation)
  && String.eqb (nr_operation_id (cc_result commit)) (mo_id operation)
  && String.eqb (nr_fabric_id (cc_result commit)) (nd_fabric_id descriptor)
  && N.eqb (nr_node_id (cc_result commit)) (nd_node_id descriptor)
  && String.eqb (nr_device_id (cc_result commit)) (sn_device_id node)
  && String.eqb (ds_id (dr_snapshot (cc_device commit))) (sn_device_id node)
  && String.eqb (dr_integration_id (cc_device commit)) (ii_id (cc_integration commit))
  && String.eqb (dr_installation_id (cc_device commit)) (sn_installation_id node)
  && String.eqb (ii_installation_id (cc_integration commit)) (sn_installation_id node)
  && String.eqb (sb_fabric_id (cc_subscription commit)) (nd_fabric_id descriptor)
  && N.eqb (sb_node_id (cc_subscription commit)) (nd_node_id descriptor)
  && forallb (fun projection =>
       String.eqb (sp_installation_id projection) (sn_installation_id node)
       && of_node (nd_fabric_id descriptor) (nd_node_id descriptor) projection
       && String.eqb (sp_device_id projection) (sn_device_id node)) (cc_projections commit).

(** The row of the result references its operation, device and node. *)
Definition insert_node_result (db : MatterDb) (value : MatterOperationNodeResult) :
  result MatterDb StorageError :=
  let? node_id := to_i64 (nr_node_id value) in
  guard? (0 <? node_id)%Z
         && bool_decide (md_results db !! nr_operation_id value = None)
         && bool_decide (is_Some (md_operations db !! nr_operation_id value))
         && bool_decide (is_Some (db_devices (base db) !! nr_device_id value))
         && bool_decide (is_Some (md_nodes db !! (nr_fabric_id value, nr_node_id value)))
    else Se_Constraint in
  Ok (set_operations db (md_operations db) (md_progress db) (md_repairs db) (md_bindings db)
        (<[nr_operation_id value := value]> (md_results db))).

Definition commit_commissioning `{Uuids} (db : MatterDb) (event_id : EventId)
  (commit : MatterCommissioningCommit) (expected_operation_revision : N) :
  result MatterDb StorageError :=
  guard? commissioning_coherent commit
    else Se_InvalidMatter "commissioning projection commit is inconsistent" in
  let? db := on_foundation db (fun f => upsert_integration f (cc_integration commit)) in
  let? db := on_foundation db (fun f => upsert_device f (cc_device commit)) in
  let? db := store_node db (cc_node commit) None in
  let? db := try_fold (fun db projection => store_matter_projection db projection None) db
               (cc_projections commit) in
  let? db := store_subscription db (cc_subscription commit) None in
  let? db := insert_node_result db (cc_result commit) in
  transition_operation db event_id (cc_operation commit) expected_operation_revision
    (cc_progress commit) None.

Definition commit_matter_cancellation `{Uuids} (db : MatterDb)
  (commissioning_event cancellation_event : EventId) (commit : MatterCancellationCommit) :
  result MatterDb StorageError :=
  let? db := transition_operation db commissioning_event (xc_commissioning commit)
               (xc_expected_commissioning_revision commit) (xc_commissioning_progress commit)
               (xc_commissioning_repair commit) in
  transition_operation db cancellation_event (xc_cancellation commit)
    (xc_expected_cancellation_revision commit) (xc_cancellation_progress commit)
    (xc_cancellation_repair commit).

Definition commit_matter_node_removal `{Uuids} (db : MatterDb) (event_id : EventId)
  (commit : MatterNodeRemovalCommit) (expected_operation_revision : N) :
  result MatterDb StorageError :=
  let operation := rmc_operation commit in
  let fabric_id := rmc_fabric_id commit in
  let node_id := rmc_node_id commit in
  guard? bool_decide (mo_kind operation = Mk_RemoveNode)
         && bool_decide (mo_phase operation = Mph_Completed)
    else Se_InvalidMatter "removal commit operation mismatch" in
  guard? match mo_target operation with
         | Mt_Node target_fabric target_node =>
             String.eqb target_fabric fabric_id && N.eqb target_node node_id
         | _ => false
         end else Se_InvalidMatter "removal commit target mismatch" in
  let? _ := to_i64 node_id in
  let? device_id := ok_or (sn_device_id <$> md_nodes db !! (fabric_id, node_id)) Se_NoRows in
  guard? String.eqb device_id (ds_id (dr_snapshot (rmc_device commit)))
    else Se_InvalidMatter "removal device identity mismatch" in
  let db := set_nodes db (md_nodes db)
              (filter (fun kv => (sbr_fabric_id kv.2, sbr_node_id kv.2) <> (fabric_id, node_id))
                 (md_subscriptions db)) in
  let db := set_base db (delete_projections (base db) (of_node fabric_id node_id)) in
  let? db := on_foundation db (fun f => upsert_device f (rmc_device commit)) in
  transition_operation db event_id operation expected_operation_revision (rmc_progress commit) None.

Definition commit_matter_subscription_repair `{Uuids} (db : MatterDb) (event_id : EventId)
  (commit : MatterSubscriptionRepairCommit) : result MatterDb StorageError :=
  let operation := rpc_operation commit in
  let subscription := rpc_subscription commit in
  guard? bool_decide (mo_kind operation = Mk_RepairSubscription)
    else Se_InvalidMatter "subscription repair operation mismatch" in
  match mo_target operation with
  | Mt_Node fabric_id node_id =>
      guard? String.eqb fabric_id (sb_fabric_id subscription)
             && N.eqb node_id (sb_node_id subscription)
        else Se_InvalidMatter "subscription repair resource mismatch" in
      let? db :=
        try_fold (fun db write =>
            guard? of_node fabric_id node_id (jw_projection write)
              else Se_InvalidMatter "subscription repair projection mismatch" in
            store_matter_projection db (jw_projection write) (Some (jw_expected_revision write)))
          db (rpc_projections commit) in
      let? db := store_subscription db subscription (Some (rpc_expected_subscription_revision commit)) in
      transition_operation db event_id operation (rpc_expected_operation_revision commit)
        (rpc_progress commit) (rpc_repair commit)
  | _ => Err (Se_InvalidMatter "subscription repair target mismatch")
  end.

(** ** Reading *)

Definition lex {A : Type} (cmp : A -> A -> comparison) (rest : A -> A -> bool) (a b : A) : bool :=
  match cmp a b with Lt => true | Eq => rest a b | Gt => false end.

(** [ORDER BY endpoint_number ASC, capability_schema ASC, id ASC]. *)
Definition inventory_le (a b : StoredMatterProjection) : Prop :=
  lex (fun a b => N.compare (sp_endpoint_number a) (sp_endpoint_number b))
    (lex (fun a b => String.compare (sp_capability_schema a) (sp_capability_schema b))
       (fun a b => str_leb (sp_projection_id a) (sp_projection_id b))) a b = true.
#[export] Instance inventory_le_dec : RelDecision inventory_le.
Proof. intros a b. unfold inventory_le. apply _. Defined.

(** [ORDER BY created_at ASC, operation_id ASC]. *)
Definition result_le (a b : MatterOperationNodeResult) : Prop :=
  lex (fun a b => Z.compare (nr_created_at a) (nr_created_at b))
    (fun a b => str_leb (nr_operation_id a) (nr_operation_id b)) a b = true.
#[export] Instance result_le_dec : RelDecision result_le.
Proof. intros a b. unfold result_le. apply _. Defined.

Definition payloads {A B : Type} (table : gmap string A) (payload : A -> B) : list B :=
  map (fun kv => payload kv.2) (map_to_list table).

Definition inventory_coherent (record : MatterNodeInventoryRecord) : bool :=
  let node := iy_node record in
  let '(fabric_id, node_id) := node_key node in
  forallb (fun projection =>
    String.eqb (sp_installation_id projection) (sn_installation_id node)
    && of_node fabric_id node_id projection
    && String.eqb (sp_device_id projection) (sn_device_id node)) (iy_projections record)
  && String.eqb (ds_id (dr_snapshot (iy_device record))) (sn_device_id node)
  && String.eqb (dr_installation_id (iy_device record)) (sn_installation_id node)
  && match iy_subscription record with
     | Some subscription => String.eqb (sb_fabric_id subscription) fabric_id
                            && N.eqb (sb_node_id subscription) node_id
     | None => true
     end
  && match iy_commissioning_result record with
     | Some value => String.eqb (nr_fabric_id value) fabric_id && N.eqb (nr_node_id value) node_id
                     && String.eqb (nr_device_id value) (sn_device_id node)
     | None => true
     end.

Definition load_node_inventory_record (db : MatterDb) (node : StoredMatterNode) :
  result MatterNodeInventoryRecord StorageError :=
  let '(fabric_id, node_id) := node_key node in
  let? _ := to_i64 node_id in
  let? device := ok_or (dv_payload <$> fd_devices (md_foundation db) !! sn_device_id node)
                   (Se_InvalidMatter "node device is missing") in
  let projections := merge_sort inventory_le
    (List.filter (of_node fabric_id node_id) (payloads (db_projections (base db)) pj_payload)) in
  let subscription :=
    (fun kv => sbr_payload kv.2) <$>
      List.find (fun kv => String.eqb (sbr_fabric_id kv.2) fabric_id
                           && N.eqb (sbr_node_id kv.2) node_id) (map_to_list (md_subscriptions db)) in
  let commissioning_result := head (merge_sort result_le
    (List.filter (fun value => String.eqb (nr_fabric_id value) fabric_id
                               && N.eqb (nr_node_id value) node_id)
       (payloads (md_results db) (fun value => value)))) in
  let record := mk_inventory node device projections subscription commissioning_result in
  guard? inventory_coherent record
    else Se_InvalidMatter "node inventory relations are inconsistent" in
  Ok record.

(** [ORDER BY node_id ASC]. *)
Definition node_le (a b : (string * N) * StoredMatterNode) : Prop := (a.1.2 <= b.1.2)%N.
#[export] Instance node_le_dec : RelDecision node_le.
Proof. intros a b. unfold node_le. apply _. Defined.

Definition matter_node_inventory (db : MatterDb) (installation_id : InstallationId)
  (fabric_id : MatterFabricId) (limit : nat) : result (list MatterNodeInventoryRecord) StorageError :=
  guard? negb ((limit =? 0) || (MAX_QUERY_PAGE <? limit))
    else Se_InvalidMatter "invalid node inventory limit" in
  let nodes := map snd (firstn limit (merge_sort node_le
    (List.filter (fun kv => String.eqb (sn_installation_id kv.2) installation_id
                            && String.eqb kv.1.1 fabric_id) (map_to_list (md_nodes db))))) in
  try_fold (fun records node =>
      let? record := load_node_inventory_record db node in Ok (records ++ [record])) [] nodes.

Definition matter_node_inventory_item (db : MatterDb) (installation_id : InstallationId)
  (fabric_id : MatterFabricId) (node_id : MatterNodeId) :
  result (option MatterNodeInventoryRecord) StorageError :=
  let? _ := to_i64 node_id in
  match md_nodes db !! (fabric_id, node_id) with
  | Some node =>
      if negb (String.eqb (sn_installation_id node) installation_id) then Ok None
      else let? record := load_node_inventory_record db node in Ok (Some record)
  | None => Ok None
  end.

Definition matter_operation_node_result (db : MatterDb) (operation_id : MatterOperationId) :
  option MatterOperationNodeResult := md_results db !! operation_id.

(** [ORDER BY updated_at, id], ascending. *)
Definition recovery_le {A : Type} (key : A -> Instant * string) (a b : A) : Prop :=
  lex (fun a b => Z.compare (key a).1 (key b).1) (fun a b => str_leb (key a).2 (key b).2) a b = true.
#[export] Instance recovery_le_dec {A : Type} (key : A -> Instant * string) :
  RelDecision (recovery_le key).
Proof. intros a b. unfold recovery_le. apply _. Defined.

Definition page {A : Type} (key : A -> Instant * string) (limit : nat) (rows : list A) : list A :=
  firstn (Nat.min limit MAX_QUERY_PAGE) (merge_sort (recovery_le key) rows).

Definition operation_order (operation : MatterOperation) : Instant * string :=
  (mo_updated_at operation, mo_id operation).

Definition decode_all (operations : list MatterOperation) : result (list MatterOperation) StorageError :=
  try_fold (fun done operation =>
      let? operation := decode_operation operation in Ok (done ++ [operation])) [] operations.

(** The newest operations of an actor first. *)
Definition actor_operations (db : MatterDb) (actor_id : ActorId) (limit : nat) :
  result (list MatterOperation) StorageError :=
  decode_all (firstn (Nat.min limit MAX_QUERY_PAGE)
    (rev (merge_sort (recovery_le operation_order)
      (List.filter (fun operation =>
          match md_bindings db !! mo_id operation with
          | Some binding => String.eqb (bd_actor_id binding) actor_id
          | None => false
          end) (payloads (md_operations db) opr_payload))))).

Definition recover (db : MatterDb) (installation_id : InstallationId) (now : Instant) (limit : nat) :
  result MatterRecovery StorageError :=
  let? operations := decode_all (page operation_order limit
    (map opr_payload (List.filter (fun row =>
         String.eqb (opr_installation_id row) installation_id
         && negb (MatterOperationPhase.is_terminal (mo_phase (opr_payload row))))
       (payloads (md_operations db) (fun row => row))))) in
  let subscriptions := page (fun s => (sb_updated_at s, sb_subscription_id s)) limit
    (map sbr_payload (List.filter (fun row =>
         String.eqb (sbr_installation_id row) installation_id
         && (negb (bool_decide (sb_state (sbr_payload row) = Sst_Established))
             || (sb_stale_after (sbr_payload row) <=? now)%Z))
       (payloads (md_subscriptions db) (fun row => row)))) in
  let projections := page (fun p => (sp_updated_at p, sp_projection_id p)) limit
    (map pj_payload (List.filter (fun row =>
         String.eqb (pj_installation_id row) installation_id && negb (pj_converged row))
       (payloads (db_projections (base db)) (fun row => row)))) in
  let repairs := page (fun r => (mx_updated_at r, mx_id r)) limit
    (map mxr_payload (List.filter (fun row =>
         String.eqb (mxr_installation_id row) installation_id
         && negb (bool_decide (mx_status (mxr_payload row) = Mrs_Resolved)))
       (payloads (md_repairs db) (fun row => row)))) in
  Ok (mk_matter_recovery operations subscriptions projections repairs).

(** ** Retention *)

(** [ON DELETE CASCADE]: progress, repairs, bindings and results of a deleted
    operation go with it. *)
Definition delete_operations (db : MatterDb) (gone : OperationRow -> bool) : MatterDb :=
  let removed id := match md_operations db !! id with Some row => gone row | None => false end in
  set_operations db
    (filter (fun kv => gone kv.2 = false) (md_operations db))
    (List.filter (fun progress => negb (removed (pg_operation_id progress))) (md_progress db))
    (filter (fun kv => removed (mxr_operation_id kv.2) = false) (md_repairs db))
    (filter (fun kv => removed kv.1 = false) (md_bindings db))
    (filter (fun kv => removed kv.1 = false) (md_results db)).

Definition unresolved_repair (db : MatterDb) (id : MatterOperationId) : bool :=
  existsb (fun kv => String.eqb (mxr_operation_id kv.2) id
                     && negb (bool_decide (mx_status (mxr_payload kv.2) = Mrs_Resolved)))
    (map_to_list (md_repairs db)).

(** A terminal operation of the installation without an unresolved repair. *)
Definition removable (db : MatterDb) (installation_id : InstallationId) (row : OperationRow) : bool :=
  String.eqb (opr_installation_id row) installation_id
  && MatterOperationPhase.is_terminal (mo_phase (opr_payload row))
  && negb (unresolved_repair db (mo_id (opr_payload row))).

Definition authorization_expired (b : Db) (policy : MatterRetention) (row : UnlockRow) : bool :=
  match ul_consumed_at row with
  | Some consumed_at => (consumed_at <? mrt_authorization_before policy)%Z
  | None => (ul_expires_at row <=? mrt_now policy)%Z
            && (ul_expires_at row <? mrt_authorization_before policy)%Z
  end
  && match db_projections b !! ul_projection_id row with
     | Some projection => String.eqb (pj_installation_id projection) (mrt_installation_id policy)
     | None => false
     end.

Definition retain (db : MatterDb) (policy : MatterRetention) : MatterDb * MatterRetentionResult :=
  let installation_id := mrt_installation_id policy in
  let b := base db in
  let unlocks := filter (fun kv => authorization_expired b policy kv.2 = false) (db_unlocks b) in
  let authorizations_removed := size (db_unlocks b) - size unlocks in
  let db := set_base db (set_desired b (db_slots b) unlocks (db_supersessions b)) in
  let repairs := filter (fun kv =>
      String.eqb (mxr_installation_id kv.2) installation_id
      && bool_decide (mx_status (mxr_payload kv.2) = Mrs_Resolved)
      && (mx_updated_at (mxr_payload kv.2) <? mrt_resolved_repair_before policy)%Z = false)
    (md_repairs db) in
  let repairs_removed := size (md_repairs db) - size repairs in
  let db := set_operations db (md_operations db) (md_progress db) repairs (md_bindings db)
              (md_results db) in
  let before := size (md_operations db) in
  let db := delete_operations db (fun row =>
    removable db installation_id row
    && (mo_updated_at (opr_payload row) <? mrt_terminal_before policy)%Z) in
  let excess := skipn (mrt_maximum_terminal_operations policy)
    (rev (merge_sort (recovery_le operation_order)
      (map opr_payload (List.filter (removable db installation_id)
         (payloads (md_operations db) (fun row => row)))))) in
  let db := delete_operations db (fun row =>
    bool_decide (mo_id (opr_payload row) ∈ map mo_id excess)) in
  (db, mk_matter_retention_result (before - size (md_operations db)) repairs_removed
         authorizations_removed).
End Commits.
