(* ===== verification/MatterHistory.v ===== *)
(** The history of Matter operations in the repository: what every transaction
    does to the operations and their progress, and the invariant that the
    progress of a stored operation is its complete, legal history. *)

From S2P Require Import Prelude Text Json Capability Lifecycle Device Command MatterState CommandStore MatterOperation MatterStore Identity FoundationStore MatterDescriptor MatterController MatterRepository.

(** One step of an operation. *)
Definition legal_move (from to : MatterOperation) : Prop :=
  exists next now, MatterOperation.transition from next now = Ok to.

Lemma legal_move_facts from to :
  legal_move from to ->
  MatterOperationPhase.is_terminal (mo_phase from) = false /\
  valid_transition (mo_kind from) (mo_phase from) (mo_phase to) = true /\
  mo_id to = mo_id from /\ mo_kind to = mo_kind from /\ mo_target to = mo_target from /\
  mo_revision to = (mo_revision from + 1)%N.
Proof.
  intros (next & now & H). unfold MatterOperation.transition in H. ok_inv. bool_inv. subst.
  unfold u64_checked_add in *. case_match; [|done]. simplify_eq. cbn. by repeat split.
Qed.

Section History.
Context `{SerdeJson}.

(** ** What the transactions touch *)

(** The tables of operations are untouched. *)
Definition same_history (db db' : MatterDb) : Prop :=
  md_operations db' = md_operations db /\ md_progress db' = md_progress db /\
  md_bindings db' = md_bindings db.

#[export] Instance same_history_refl : Reflexive same_history.
Proof. done. Qed.
#[export] Instance same_history_trans : Transitive same_history.
Proof. intros a b c (H1 & H2 & H3) (H4 & H5 & H6). unfold same_history. by rewrite H4, H5, H6. Qed.

Lemma same_set_foundation db f : same_history db (set_foundation db f).
Proof. done. Qed.

Ltac same := intros; ok_inv; simplify_eq/=; try done.

Lemma store_fabric_stage_same db stage e db' :
  store_fabric_stage db stage e = Ok db' -> same_history db db'.
Proof. unfold store_fabric_stage. same. Qed.

Lemma delete_stage_same db id db' : delete_attached_stage db id = Ok db' -> same_history db db'.
Proof. unfold delete_attached_stage. same. Qed.

Lemma store_fabric_same db fabric e db' : store_fabric db fabric e = Ok db' -> same_history db db'.
Proof. unfold store_fabric. same. Qed.

Lemma store_node_same db node e db' : store_node db node e = Ok db' -> same_history db db'.
Proof. unfold store_node, store_node_row. same. Qed.

Lemma store_matter_projection_same db projection e db' :
  store_matter_projection db projection e = Ok db' -> same_history db db'.
Proof. unfold store_matter_projection. same. Qed.

Lemma store_subscription_same db subscription e db' :
  store_subscription db subscription e = Ok db' -> same_history db db'.
Proof. unfold store_subscription. cbv zeta. same. Qed.

Lemma on_foundation_same db f db' : on_foundation db f = Ok db' -> same_history db db'.
Proof. unfold on_foundation. same. Qed.

Lemma insert_node_result_same db value db' :
  insert_node_result db value = Ok db' -> same_history db db'.
Proof. unfold insert_node_result. same. Qed.

Lemma store_repair_same db repair e db' : store_repair db repair e = Ok db' -> same_history db db'.
Proof. unfold store_repair. same. Qed.

Lemma append_event_same `{Uuids} db id o from actor db' :
  append_operation_event db id o from actor = Ok db' -> same_history db db'.
Proof. unfold append_operation_event. cbv zeta. same. Qed.

(** *** A written step *)

Record op_written (db : MatterDb) (o : MatterOperation) (expected : N)
  (p : MatterOperationProgress) (db' : MatterDb) : Prop := {
  ow_row : exists row, md_operations db !! mo_id o = Some row /\
    MatterOperation.validate_persisted (opr_payload row) = Ok tt /\
    mo_revision (opr_payload row) = expected /\
    md_operations db' =
      <[mo_id o := mk_operation_row (opr_installation_id row) (opr_fabric_id row) o]> (md_operations db);
  ow_progress : md_progress db' = md_progress db ++ [p];
  ow_unique : forall r, In r (md_progress db) ->
    (pg_operation_id r, pg_revision r) <> (pg_operation_id p, pg_revision p);
  ow_id : pg_operation_id p = mo_id o;
  ow_revision : pg_revision p = mo_revision o;
  ow_phase : pg_phase p = mo_phase o;
  ow_bindings : md_bindings db' = md_bindings db
}.

(** Transactions around a step that do not touch the history. *)
Lemma op_written_around db db1 db2 db3 o expected p :
  same_history db db1 -> op_written db1 o expected p db2 -> same_history db2 db3 ->
  op_written db o expected p db3.
Proof.
  intros (H1 & H2 & H3) Hw (H4 & H5 & H6). destruct Hw as [Hrow Hp Hu Hi Hr Hph Hb].
  split; rewrite <- ?H1, <- ?H2, ?H4, ?H5, ?H6; try done. by rewrite Hb, H3.
Qed.

Lemma load_operation_ok db id o :
  load_operation db id = Ok (Some o) -> exists row, md_operations db !! id = Some row /\
    opr_payload row = o /\ MatterOperation.validate_persisted o = Ok tt.
Proof.
  unfold load_operation, decode_operation.
  destruct (md_operations db !! id) as [row|]; [|done]. intros Hl. ok_inv.
  destruct (MatterOperation.validate_persisted (opr_payload row)) as [[]|] eqn:Hv; ok_inv.
  by exists row.
Qed.

Lemma insert_progress_ok db p db' :
  insert_progress db p = Ok db' ->
  md_operations db' = md_operations db /\ md_progress db' = md_progress db ++ [p] /\
  md_bindings db' = md_bindings db /\
  forall r, In r (md_progress db) -> (pg_operation_id r, pg_revision r) <> (pg_operation_id p, pg_revision p).
Proof.
  unfold insert_progress. intros. ok_inv. bool_inv. repeat split; try done.
  match goal with Hf : forallb _ _ = true |- _ => rename Hf into Hall end.
  rewrite forallb_forall in Hall. intros r Hr [= H1' H2']. specialize (Hall r Hr).
  by rewrite H1', H2', String.eqb_refl, N.eqb_refl in Hall.
Qed.

Lemma transition_operation_written `{Uuids} db event o expected p repair db' :
  transition_operation db event o expected p repair = Ok db' -> op_written db o expected p db'.
Proof.
  unfold transition_operation. intros Ht. ok_inv. bool_inv.
  match goal with Hl : load_operation _ _ = Ok ?x, Hs : ?x = Some _ |- _ => rewrite Hs in Hl;
    apply load_operation_ok in Hl as (row & Hrow & Hpay & Hval) end.
  match goal with Hi : insert_progress _ _ = Ok _ |- _ =>
    apply insert_progress_ok in Hi as (Hops & Hprog & Hbind & Huniq) end.
  assert (x1 = row) as -> by congruence. cbn in Hops, Hprog, Hbind, Huniq.
  match goal with Hv : validate_revision _ _ _ _ = Ok _ |- _ => unfold validate_revision in Hv end.
  ok_inv. bool_inv. simplify_eq.
  assert (same_history x5 x6) as Hrep.
  { destruct repair as [repair|]; ok_inv; [|simplify_eq; reflexivity]. by eapply store_repair_same. }
  match goal with He : append_operation_event _ _ _ _ _ = Ok _ |- _ => apply append_event_same in He as Hev end.
  assert (same_history x5 db') as (E1 & E2 & E3) by (by transitivity x6).
  split; rewrite ?E1, ?E2, ?E3; try done. by exists row.
Qed.

Lemma commit_commissioning_written `{Uuids} db event commit expected db' :
  commit_commissioning db event commit expected = Ok db' ->
  op_written db (cc_operation commit) expected (cc_progress commit) db'.
Proof.
  unfold commit_commissioning. intros Hc. ok_inv.
  match goal with Ht : transition_operation _ _ _ _ _ _ = Ok _ |- _ =>
    apply transition_operation_written in Ht end.
  eapply op_written_around; [|eassumption|reflexivity].
  repeat match goal with
  | Hf : on_foundation _ _ = Ok _ |- _ => apply on_foundation_same in Hf
  | Hn : store_node _ _ _ = Ok _ |- _ => apply store_node_same in Hn
  | Hs : store_subscription _ _ _ = Ok _ |- _ => apply store_subscription_same in Hs
  | Hr : insert_node_result _ _ = Ok _ |- _ => apply insert_node_result_same in Hr
  | Hf : try_fold _ _ _ = Ok _ |- _ =>
      apply (try_fold_rel _ same_history) in Hf;
        [|done|by intros ??? ->|intros ???; apply store_matter_projection_same]
  end.
  repeat (etransitivity; [eassumption|]). done.
Qed.

Lemma commit_removal_written `{Uuids} db event commit expected db' :
  commit_matter_node_removal db event commit expected = Ok db' ->
  op_written db (rmc_operation commit) expected (rmc_progress commit) db'.
Proof.
  unfold commit_matter_node_removal. intros Hc. ok_inv.
  match goal with Ht : transition_operation _ _ _ _ _ _ = Ok _ |- _ =>
    apply transition_operation_written in Ht end.
  eapply op_written_around; [|eassumption|reflexivity].
  match goal with Hf : on_foundation _ _ = Ok _ |- _ => by apply on_foundation_same in Hf end.
Qed.

Lemma commit_repair_written `{Uuids} db event commit db' :
  commit_matter_subscription_repair db event commit = Ok db' ->
  op_written db (rpc_operation commit) (rpc_expected_operation_revision commit)
    (rpc_progress commit) db'.
Proof.
  unfold commit_matter_subscription_repair. intros Hc. ok_inv.
  destruct (mo_target (rpc_operation commit)); ok_inv.
  match goal with Ht : transition_operation _ _ _ _ _ _ = Ok _ |- _ =>
    apply transition_operation_written in Ht end.
  eapply op_written_around; [|eassumption|reflexivity].
  match goal with Hs : store_subscription _ _ _ = Ok _ |- _ => apply store_subscription_same in Hs end.
  etransitivity; [|eassumption].
  match goal with Hf : try_fold _ _ _ = Ok _ |- _ =>
    apply (try_fold_rel _ same_history) in Hf;
      [done|done|by intros ??? ->|intros ???] end.
  intros; ok_inv. by eapply store_matter_projection_same.
Qed.

Lemma commit_cancellation_written `{Uuids} db event event' commit db' :
  commit_matter_cancellation db event event' commit = Ok db' ->
  exists db1,
    op_written db (xc_commissioning commit) (xc_expected_commissioning_revision commit)
      (xc_commissioning_progress commit) db1 /\
    op_written db1 (xc_cancellation commit) (xc_expected_cancellation_revision commit)
      (xc_cancellation_progress commit) db'.
Proof.
  unfold commit_matter_cancellation. intros Hc. ok_inv.
  eexists. split; by eapply transition_operation_written.
Qed.

(** *** A new operation *)

Record op_created (db : MatterDb) (o : MatterOperation) (db' : MatterDb) : Prop := {
  on_new : md_operations db !! mo_id o = None;
  on_row : exists installation_id fabric_id, md_operations db' =
    <[mo_id o := mk_operation_row installation_id fabric_id o]> (md_operations db);
  on_progress : exists p, md_progress db' = md_progress db ++ [p] /\
    pg_operation_id p = mo_id o /\ pg_revision p = mo_revision o /\ pg_phase p = mo_phase o;
  on_revision : mo_revision o = 1%N
}.

Lemma create_operation_created db o p db' :
  create_operation db o p = Ok db' -> op_created db o db' /\ md_bindings db' = md_bindings db.
Proof.
  unfold create_operation. intros Hc. ok_inv. bool_inv.
  match goal with Hi : insert_progress _ _ = Ok _ |- _ =>
    apply insert_progress_ok in Hi as (Hops & Hprog & Hbind & _) end.
  cbn in Hops, Hprog, Hbind. split; [|done]. split; try done; eauto.
Qed.

Lemma create_administration_created `{Uuids} db event o b p db' outcome :
  create_administration_operation db event o b p = Ok (db', outcome) ->
  (db' = db /\ forall created, outcome <> Oc_Created created) \/
  op_created db o db' /\ bd_operation_id b = mo_id o /\
    md_bindings db' = <[mo_id o := b]> (md_bindings db) /\ outcome = Oc_Created o.
Proof.
  unfold create_administration_operation. intros Hc. ok_inv. bool_inv.
  destruct (binding_of_key _ _ _); ok_inv; simplify_eq; [left; by case_bool_decide|]. right.
  match goal with Hi : create_operation _ _ _ = Ok _ |- _ =>
    apply create_operation_created in Hi as [Hn Hb] end.
  match goal with He : append_operation_event _ _ _ _ _ = Ok _ |- _ =>
    apply append_event_same in He as (E1 & E2 & E3) end.
  match goal with Hi : insert_binding _ _ = Ok _ |- _ => unfold insert_binding in Hi; ok_inv end.
  simplify_eq. cbn in *.
  split; [|split; [done|split; [congruence|done]]].
  split; rewrite ?E1, ?E2; apply Hn.
Qed.

(** *** Deletions *)

Definition progress_of (db : MatterDb) (id : MatterOperationId) : list MatterOperationProgress :=
  List.filter (fun p => String.eqb (pg_operation_id p) id) (md_progress db).

(** Operations only disappear, each with all its progress. *)
Record shrinks (db db' : MatterDb) : Prop := {
  sh_operations : md_operations db' ⊆ md_operations db;
  sh_bindings : md_bindings db' ⊆ md_bindings db;
  sh_progress : forall id, is_Some (md_operations db' !! id) -> progress_of db' id = progress_of db id;
  sh_rows : forall p, In p (md_progress db') -> In p (md_progress db) /\
    (is_Some (md_operations db !! pg_operation_id p) -> is_Some (md_operations db' !! pg_operation_id p))
}.

Lemma same_shrinks db db' : same_history db db' -> shrinks db db'.
Proof. intros (H1 & H2 & H3). split; unfold progress_of; by rewrite ?H1, ?H2, ?H3. Qed.

#[export] Instance shrinks_trans : Transitive shrinks.
Proof.
  intros a b c [H1 H2 H3 H4] [H5 H6 H7 H8]. split.
  - by transitivity (md_operations b).
  - by transitivity (md_bindings b).
  - intros id Hid. rewrite H7 by done. apply H3. destruct Hid as [row Hrow]. exists row.
    by eapply lookup_weaken.
  - intros p [[Hp Hb]%H4 Hc]%H8. auto.
Qed.

Lemma delete_operations_shrinks db gone : shrinks db (delete_operations db gone).
Proof.
  split; cbn.
  - apply map_filter_subseteq.
  - apply map_filter_subseteq.
  - intros id [row [Hrow Hg]%map_lookup_filter_Some]. unfold progress_of. cbn.
    induction (md_progress db) as [|q l IH]; simpl; [done|].
    destruct (String.eqb_spec (pg_operation_id q) id) as [Hq|Hq].
    + rewrite Hq, Hrow. cbn in Hg. rewrite Hg. simpl. rewrite Hq, String.eqb_refl. by f_equal.
    + destruct (negb _); simpl; [|done]. by destruct (String.eqb_spec (pg_operation_id q) id).
  - intros q [Hq Hr]%filter_In. split; [done|]. intros [row Hrow]. exists row.
    apply map_lookup_filter_Some. split; [done|]. cbn. rewrite Hrow in Hr. by destruct (gone row).
Qed.

Lemma retain_shrinks db policy : shrinks db (retain db policy).1.
Proof.
  unfold retain. cbv zeta. cbn [fst].
  etransitivity; [|apply delete_operations_shrinks].
  etransitivity; [|apply delete_operations_shrinks].
  by apply same_shrinks.
Qed.

(** ** Complete histories *)

Definition records (p : MatterOperationProgress) (o : MatterOperation) : Prop :=
  pg_operation_id p = mo_id o /\ pg_revision p = mo_revision o /\ pg_phase p = mo_phase o.

(** The progress is one row per version of the operation, from its request
    through legal moves. *)
Inductive recorded : list MatterOperationProgress -> MatterOperation -> Prop :=
| Recorded_new p o :
    mo_phase o = Mph_Requested -> mo_revision o = 1%N -> records p o -> recorded [p] o
| Recorded_move l o p o' :
    recorded l o -> legal_move o o' -> records p o' -> recorded (l ++ [p]) o'.

Lemma recorded_length l o : recorded l o -> mo_revision o = N.of_nat (length l).
Proof.
  induction 1 as [p o _ Hr _|l o p o' Hl IH Hm _]; [done|].
  apply legal_move_facts in Hm as (_ & _ & _ & _ & _ & ->). rewrite IH, length_app. cbn. lia.
Qed.

(** The rows are numbered from one without a gap. *)
Lemma recorded_revisions l o :
  recorded l o -> map pg_revision l = map N.of_nat (seq 1 (length l)).
Proof.
  induction 1 as [p o _ Hr (_ & Hp & _)|l o p o' Hl IH Hm (_ & Hp & _)]; [cbn; by rewrite Hp, Hr|].
  apply recorded_length in Hl. apply legal_move_facts in Hm as (_ & _ & _ & _ & _ & Hm).
  rewrite length_app, seq_app, !map_app, IH. cbn. do 2 f_equal. rewrite Hp, Hm, Hl. lia.
Qed.

Lemma recorded_id l o : recorded l o -> Forall (fun p => pg_operation_id p = mo_id o) l.
Proof.
  induction 1 as [p o _ _ (Hp & _)|l o p o' Hl IH Hm (Hp & _)]; [by constructor|].
  apply legal_move_facts in Hm as (_ & _ & Hid & _). apply Forall_app. split; [|by constructor].
  by rewrite Hid.
Qed.

Record history_inv (db : MatterDb) : Prop := {
  hi_row : forall id row, md_operations db !! id = Some row ->
    mo_id (opr_payload row) = id /\ recorded (progress_of db id) (opr_payload row);
  hi_progress : forall p, In p (md_progress db) -> is_Some (md_operations db !! pg_operation_id p);
  hi_binding : forall id b, md_bindings db !! id = Some b -> bd_operation_id b = id
}.

Lemma history_shrinks db db' : history_inv db -> shrinks db db' -> history_inv db'.
Proof.
  intros Hi Hs. split.
  - intros id row Hrow. rewrite (sh_progress _ _ Hs) by by eexists. apply Hi.
    by eapply lookup_weaken, (sh_operations _ _ Hs).
  - intros p [Hp Hr]%(sh_rows _ _ Hs). by apply Hr, Hi.
  - intros id b Hb. apply (hi_binding _ Hi). by eapply lookup_weaken, (sh_bindings _ _ Hs).
Qed.

Lemma progress_of_app db db' p id :
  md_progress db' = md_progress db ++ [p] ->
  progress_of db' id =
    progress_of db id ++ (if String.eqb (pg_operation_id p) id then [p] else []).
Proof. unfold progress_of. intros ->. by rewrite List.filter_app. Qed.

Lemma history_written db o expected p db' :
  history_inv db -> op_written db o expected p db' ->
  (forall row, md_operations db !! mo_id o = Some row -> legal_move (opr_payload row) o) ->
  history_inv db'.
Proof.
  intros Hi Hw Hl. destruct (ow_row _ _ _ _ _ Hw) as (row & Hrow & _ & _ & Hops). split.
  - intros id row'. rewrite Hops, lookup_insert_Some, (progress_of_app _ _ _ _ (ow_progress _ _ _ _ _ Hw)),
      (ow_id _ _ _ _ _ Hw).
    intros [[<- <-]|[Hne Hr]]; cbn.
    + rewrite String.eqb_refl. split; [done|]. eapply Recorded_move; [by eapply Hi | by apply Hl|].
      split; [|split]; apply Hw.
    + rewrite (proj2 (String.eqb_neq _ _) Hne), app_nil_r. by apply Hi.
  - intros q. rewrite (ow_progress _ _ _ _ _ Hw), Hops, lookup_insert_is_Some. intros [Hq|[<-|[]]]%in_app_iff.
    + destruct (decide (mo_id o = pg_operation_id q)) as [|Hne]; [by left|]. right. split; [done|]. by apply Hi.
    + left. by rewrite (ow_id _ _ _ _ _ Hw).
  - rewrite (ow_bindings _ _ _ _ _ Hw). apply Hi.
Qed.

Lemma history_created db o db' :
  history_inv db -> op_created db o db' -> mo_phase o = Mph_Requested ->
  (forall id b, md_bindings db' !! id = Some b -> bd_operation_id b = id) -> history_inv db'.
Proof.
  intros Hi Hc Hp Hb. destruct (on_row _ _ _ Hc) as (installation_id & fabric_id & Hops).
  destruct (on_progress _ _ _ Hc) as (p & Hprog & Hpid & Hrev & Hph). split; [| |done].
  - intros id row'. rewrite Hops, lookup_insert_Some, (progress_of_app _ _ _ _ Hprog), Hpid.
    intros [[<- <-]|[Hne Hr]]; cbn.
    + rewrite String.eqb_refl. split; [done|].
      assert (progress_of db (mo_id o) = []) as ->.
      { unfold progress_of. destruct (List.filter _ (md_progress db)) as [|q l] eqn:Hf; [done|].
        assert (In q (q :: l)) as Hq by (by left). rewrite <- Hf in Hq.
        apply filter_In in Hq as [Hq Hid%String.eqb_eq].
        apply (hi_progress _ Hi) in Hq as [row Hq]. by rewrite Hid, (on_new _ _ _ Hc) in Hq. }
      apply Recorded_new; [done | apply Hc | done].
    + rewrite (proj2 (String.eqb_neq _ _) Hne), app_nil_r. by apply Hi.
  - intros q. rewrite Hprog, Hops, lookup_insert_is_Some. intros [Hq|[<-|[]]]%in_app_iff.
    + destruct (decide (mo_id o = pg_operation_id q)) as [|Hne]; [by left|]. right. split; [done|]. by apply Hi.
    + by left.
Qed.
End History.
