(* ===== verification/MatterAdministration.v ===== *)
(** Authenticated admission of Matter operations,
    [crates/homemagic-application/src/matter_administration.rs], and the awaited
    operations of all Matter workflows: the repositories, the controller, the
    secret store and random identities.  The digest of a canonical request is a
    parameter. *)

From S2P Require Import Prelude Text Json Capability Lifecycle Device Command MatterState CommandStore MatterOperation MatterStore Identity Effects CommandService MatterDescriptor MatterController MatterRepository.

(** Serialisation and digest of [CanonicalRequest]: 32 bytes, or a failure. *)
Class MatterRequestDigest := {
  matter_request_digest : ActorId * MatterOperationKind * MatterOperationTarget -> option (list N);
  matter_request_digest_length : forall v d, matter_request_digest v = Some d -> length d = 32;
  matter_request_digest_bytes : forall v d,
    matter_request_digest v = Some d -> Forall (fun b => (b < 256)%N) d
}.

Definition MATTER_ADMINISTRATION_POLICY_VERSION : N := 1.
Definition MAX_OPERATION_PAGE : nat := 256.

Record MatterAdministrationRequest := mk_administration_request {
  mar_kind : MatterOperationKind;
  mar_target : MatterOperationTarget;
  mar_idempotency_key : IdempotencyKey
}.

Inductive MatterAdministrationError :=
| Mae_ActorNotFound | Mae_FabricNotFound | Mae_InvalidTarget | Mae_InstallationMismatch
| Mae_Denied | Mae_OperationNotFound | Mae_NotCancellable | Mae_InvalidTransition
| Mae_InvalidPageLimit | Mae_CanonicalSerialization | Mae_CanonicalHash
| Mae_Repository (error : BoxError).

(** [ports.rs]. *)
Record SecretStoreError := mk_secret_error {
  sse_backend : string;
  sse_operation : string;
  sse_code : string
}.

(** ** Awaited operations *)

Section Operations.
Context `{SerdeJson}.

Inductive MatterOp :=
(* the clock, identities and random bytes *)
| Wo_now
| Wo_new_id
| Wo_random (count : nat)
(* the command repository *)
| Wo_actor_security (actor_id : ActorId)
(* the Matter repository *)
| Wo_fabric_stage (fabric_id : MatterFabricId)
| Wo_store_fabric_stage (stage : MatterFabricStage) (expected_revision : option N)
| Wo_delete_attached_stage (fabric_id : MatterFabricId)
| Wo_fabric (fabric_id : MatterFabricId)
| Wo_store_fabric (fabric : StoredMatterFabric) (expected_revision : option N)
| Wo_create_administration_operation (operation : MatterOperation)
    (binding : MatterOperationBinding) (progress : MatterOperationProgress)
| Wo_administration_operation (operation_id : MatterOperationId)
| Wo_actor_operations (actor_id : ActorId) (limit : nat)
| Wo_operation_node_result (operation_id : MatterOperationId)
| Wo_transition_operation (operation : MatterOperation) (expected_revision : N)
    (progress : MatterOperationProgress) (repair : option MatterRepairRecord)
| Wo_node_inventory (installation_id : InstallationId) (fabric_id : MatterFabricId) (limit : nat)
| Wo_node_inventory_item (installation_id : InstallationId) (fabric_id : MatterFabricId)
    (node_id : MatterNodeId)
| Wo_commit_commissioning (commit : MatterCommissioningCommit) (expected_revision : N)
| Wo_commit_cancellation (commit : MatterCancellationCommit)
| Wo_commit_node_removal (commit : MatterNodeRemovalCommit) (expected_revision : N)
| Wo_commit_subscription_repair (commit : MatterSubscriptionRepairCommit)
| Wo_store_subscription (subscription : StoredMatterSubscription) (expected_revision : option N)
| Wo_recover_matter (installation_id : InstallationId) (now : Instant) (limit : nat)
(* the secret store *)
| Wo_put_secret (reference : SecretRef) (value : SecretValue)
(* the controller *)
| Wo_implementation
| Wo_fabric_status (fabric_id : MatterFabricId)
| Wo_create_fabric (request : MatterCreateFabricRequest)
| Wo_commission (request : MatterCommissioningRequest)
| Wo_cancel_commissioning (operation_id : MatterOperationId)
| Wo_nodes (fabric_id : MatterFabricId)
| Wo_node (fabric_id : MatterFabricId) (node_id : MatterNodeId)
| Wo_subscribe (request : MatterSubscriptionRequest)
| Wo_read (request : MatterReadRequest)
| Wo_remove_node (request : MatterRemoveNodeRequest)
| Wo_export_fabric (request : MatterExportRequest)
| Wo_restore_fabric (request : MatterRestoreRequest)
| Wo_events_after (cursor : N) (limit : nat).

Definition matter_resp (op : MatterOp) : Type :=
  match op with
  | Wo_now => Instant
  | Wo_new_id => string
  | Wo_random _ => list N
  | Wo_actor_security _ => result (option ActorSecurity) BoxError
  | Wo_fabric_stage _ => result (option MatterFabricStage) BoxError
  | Wo_fabric _ => result (option StoredMatterFabric) BoxError
  | Wo_create_administration_operation _ _ _ => result MatterOperationCreateOutcome BoxError
  | Wo_administration_operation _ =>
      result (option (MatterOperation * MatterOperationBinding)) BoxError
  | Wo_actor_operations _ _ => result (list MatterOperation) BoxError
  | Wo_operation_node_result _ => result (option MatterOperationNodeResult) BoxError
  | Wo_node_inventory _ _ _ => result (list MatterNodeInventoryRecord) BoxError
  | Wo_node_inventory_item _ _ _ => result (option MatterNodeInventoryRecord) BoxError
  | Wo_store_fabric_stage _ _ | Wo_delete_attached_stage _ | Wo_store_fabric _ _
  | Wo_transition_operation _ _ _ _ | Wo_commit_commissioning _ _ | Wo_commit_cancellation _
  | Wo_commit_node_removal _ _ | Wo_commit_subscription_repair _ | Wo_store_subscription _ _ =>
      result unit BoxError
  | Wo_recover_matter _ _ _ => result MatterRecovery BoxError
  | Wo_put_secret _ _ => result unit SecretStoreError
  | Wo_implementation => string
  | Wo_fabric_status _ => result (option MatterFabricStatus) MatterControllerError
  | Wo_create_fabric _ | Wo_restore_fabric _ => result MatterFabricStatus MatterControllerError
  | Wo_commission _ => result MatterNodeDescriptor MatterControllerError
  | Wo_cancel_commissioning _ => result MatterCancellationOutcome MatterControllerError
  | Wo_nodes _ => result (list MatterNodeDescriptor) MatterControllerError
  | Wo_node _ _ => result (option MatterNodeDescriptor) MatterControllerError
  | Wo_subscribe _ => result MatterSubscriptionStatus MatterControllerError
  | Wo_read _ => result (list MatterAttributeReport) MatterControllerError
  | Wo_remove_node _ => result MatterRemovalOutcome MatterControllerError
  | Wo_export_fabric _ => result MatterFabricExport MatterControllerError
  | Wo_events_after _ _ => result MatterEventPage MatterControllerError
  end.
End Operations.

Abbreviation MatterProg A := (Prog matter_resp A).

Definition wask `{SerdeJson} (op : MatterOp) : MatterProg (matter_resp op) := perform op.

(** [.await.map_err(f)]. *)
Definition mapped `{SerdeJson} {A E F : Type} (f : E -> F) (m : MatterProg (result A E)) :
  MatterProg (result A F) :=
  let! r := m in Ret (map_err f r).

(** ** Authorisation *)

Definition authorize (actor : Actor) (grants : list ActorGrant) (action : CommandAction) :
  result unit MatterAdministrationError :=
  if ac_enabled actor
     && existsb (fun grant =>
          ag_enabled grant
          && String.eqb (ag_actor_id grant) (ac_id actor)
          && bool_decide (action ∈ ag_actions grant)
          && RiskClass.permits (ag_maximum_risk grant) Risk_Security
          && match ag_scope grant with
             | Scope_Installation installation_id =>
                 String.eqb installation_id (ac_installation_id actor)
             | _ => false
             end) grants
  then Ok tt else Err Mae_Denied.

Definition is_matter_administration_action (action : CommandAction) : bool :=
  match action with
  | Act_MatterRead | Act_MatterCreateFabric | Act_MatterCommissionNode
  | Act_MatterCancelOperation | Act_MatterRemoveNode | Act_MatterExportFabric
  | Act_MatterRestoreFabric | Act_MatterRepairSubscription => true
  | _ => false
  end.

Definition target_fabric (target : MatterOperationTarget) : MatterFabricId :=
  match target with
  | Mt_Fabric fabric_id | Mt_Operation fabric_id _ | Mt_Node fabric_id _ => fabric_id
  end.

Definition validate_target (kind : MatterOperationKind) (target : MatterOperationTarget) :
  result unit MatterAdministrationError :=
  match kind, target with
  | (Mk_CreateFabric | Mk_CommissionNode | Mk_ExportFabric | Mk_RestoreFabric), Mt_Fabric _
  | Mk_CancelCommissioning, Mt_Operation _ _
  | (Mk_RemoveNode | Mk_RepairSubscription), Mt_Node _ _ => Ok tt
  | _, _ => Err Mae_InvalidTarget
  end.

Definition canonical_hash `{MatterRequestDigest} (actor_id : ActorId)
  (request : MatterAdministrationRequest) :
  result CanonicalRequestHash MatterAdministrationError :=
  match matter_request_digest (actor_id, mar_kind request, mar_target request) with
  | None => Err Mae_CanonicalSerialization
  | Some digest => map_err (fun _ => Mae_CanonicalHash) (CanonicalRequestHash.new (hex digest))
  end.

Definition progress (operation : MatterOperation) (error : option MatterControllerError) :
  MatterOperationProgress :=
  mk_progress (mo_id operation) (mo_revision operation) (mo_phase operation) error
    (mo_updated_at operation).

(** ** The service *)

Section Administration.
Context `{SerdeJson}.

Abbreviation AdmResult A := (MatterProg (result A MatterAdministrationError)).

Definition repository {A : Type} (m : MatterProg (result A BoxError)) : AdmResult A :=
  mapped Mae_Repository m.

Definition security (actor : Actor) : AdmResult ActorSecurity :=
  try! found := repository (wask (Wo_actor_security (ac_id actor))) in
  Ret (ok_or found Mae_ActorNotFound).

(** [authorize(&security.actor, &security.grants, action)]. *)
Definition authorized (security : ActorSecurity) (action : CommandAction) :
  result unit MatterAdministrationError :=
  authorize (as_actor security) (as_grants security) action.

Definition authorize_installation_action (actor : Actor) (action : CommandAction) :
  AdmResult InstallationId :=
  guard! is_matter_administration_action action else Mae_Denied in
  try! security := security actor in
  try! _ := Ret (authorized security action) in
  Ret (Ok (ac_installation_id (as_actor security))).

(** [MatterAdministrationService::admit]. *)
Definition admit_operation `{MatterRequestDigest} (actor : Actor) (request : MatterAdministrationRequest)
  (now : Instant) : AdmResult MatterOperationCreateOutcome :=
  try! security := security actor in
  try! _ := Ret (validate_target (mar_kind request) (mar_target request)) in
  let action := action_for_kind (mar_kind request) in
  try! found := repository (wask (Wo_fabric (target_fabric (mar_target request)))) in
  try! fabric := Ret (ok_or found Mae_FabricNotFound) in
  guard! String.eqb (ac_installation_id (as_actor security)) (sf_installation_id fabric)
    else Mae_InstallationMismatch in
  try! _ := Ret (authorized security action) in
  try! request_hash := Ret (canonical_hash (ac_id (as_actor security)) request) in
  let! id := wask Wo_new_id in
  let operation := MatterOperation.new id (mar_kind request) (mar_target request) now in
  let binding := mk_binding (mo_id operation) (ac_id (as_actor security))
    (sf_installation_id fabric) action (mar_idempotency_key request) request_hash
    MATTER_ADMINISTRATION_POLICY_VERSION in
  repository (wask (Wo_create_administration_operation operation binding (progress operation None))).

Definition get (actor : Actor) (operation_id : MatterOperationId) :
  AdmResult (option MatterOperation) :=
  try! security := security actor in
  try! _ := Ret (authorized security Act_MatterRead) in
  try! found := repository (wask (Wo_administration_operation operation_id)) in
  Ret (Ok (match found with
           | Some (operation, binding) =>
               if String.eqb (bd_actor_id binding) (ac_id (as_actor security))
               then Some operation else None
           | None => None
           end)).

Definition list_operations (actor : Actor) (limit : nat) : AdmResult (list MatterOperation) :=
  guard! negb ((limit =? 0) || (MAX_OPERATION_PAGE <? limit)) else Mae_InvalidPageLimit in
  try! security := security actor in
  try! _ := Ret (authorized security Act_MatterRead) in
  repository (wask (Wo_actor_operations (ac_id (as_actor security)) limit)).

(** [matter_administration_operation(id)?.ok_or(OperationNotFound)?]. *)
Definition bound_operation (operation_id : MatterOperationId) :
  AdmResult (MatterOperation * MatterOperationBinding) :=
  try! found := repository (wask (Wo_administration_operation operation_id)) in
  Ret (ok_or found Mae_OperationNotFound).

Definition cancel_requested (actor : Actor) (operation_id : MatterOperationId) (now : Instant) :
  AdmResult MatterOperation :=
  try! security := security actor in
  try! _ := Ret (authorized security Act_MatterCancelOperation) in
  try! (operation, binding) := bound_operation operation_id in
  guard! String.eqb (bd_actor_id binding) (ac_id (as_actor security)) else Mae_OperationNotFound in
  guard! bool_decide (mo_kind operation = Mk_CommissionNode)
         && bool_decide (mo_phase operation = Mph_Requested) else Mae_NotCancellable in
  let expected_revision := mo_revision operation in
  try! operation := Ret (map_err (fun _ => Mae_NotCancellable)
                           (MatterOperation.transition operation Mph_Cancelled now)) in
  try! _ := repository (wask (Wo_transition_operation operation expected_revision
                                (progress operation None) None)) in
  Ret (Ok operation).

(** A failure that leaves something to repair. *)
Definition repair_required (error : MatterControllerError) : bool :=
  bool_decide (cer_retryability error = Retry_AfterRepair)
  || bool_decide (is_Some (cer_repair error))
  || bool_decide (cer_code error = Code_OutcomeIndeterminate).

Definition open_repair (id : string) (operation : MatterOperation) (error : MatterControllerError)
  (now : Instant) : MatterRepairRecord :=
  mk_matter_repair id (mo_id operation) Mrs_Open error 1 now now.

Definition record_controller_failure (actor : Actor) (operation_id : MatterOperationId)
  (error : MatterControllerError) (now : Instant) : AdmResult MatterOperation :=
  try! security := security actor in
  try! (operation, binding) := bound_operation operation_id in
  guard! String.eqb (bd_actor_id binding) (ac_id (as_actor security)) else Mae_OperationNotFound in
  try! _ := Ret (authorized security (bd_action binding)) in
  let next := if repair_required error then Mph_RepairRequired else Mph_Failed in
  let expected_revision := mo_revision operation in
  try! operation := Ret (map_err (fun _ => Mae_InvalidTransition)
                           (MatterOperation.transition operation next now)) in
  let transition repair :=
    try! _ := repository (wask (Wo_transition_operation operation expected_revision
                                  (progress operation (Some error)) repair)) in
    Ret (Ok operation) in
  if repair_required error
  then let! id := wask Wo_new_id in transition (Some (open_repair id operation error now))
  else transition None.

Definition owned_operation_for_action (actor : Actor) (operation_id : MatterOperationId)
  (action : CommandAction) : AdmResult MatterOperation :=
  try! security := security actor in
  try! _ := Ret (authorized security action) in
  try! (operation, binding) := bound_operation operation_id in
  if String.eqb (bd_actor_id binding) (ac_id (as_actor security))
     && bool_decide (bd_action binding = action)
  then Ret (Ok operation) else Ret (Err Mae_OperationNotFound).

Definition owned_commissioning_for_cancellation (actor : Actor)
  (operation_id : MatterOperationId) : AdmResult MatterOperation :=
  try! security := security actor in
  try! _ := Ret (authorized security Act_MatterCancelOperation) in
  try! (operation, binding) := bound_operation operation_id in
  if String.eqb (bd_actor_id binding) (ac_id (as_actor security))
     && bool_decide (bd_action binding = Act_MatterCommissionNode)
     && bool_decide (mo_kind operation = Mk_CommissionNode)
  then Ret (Ok operation) else Ret (Err Mae_OperationNotFound).
End Administration.
