(* ===== verification/MatterFabricWorkflow.v ===== *)
(** The life of a fabric,
    [crates/homemagic-application/src/matter_fabric_workflow.rs]: provisioning of
    its secrets, creation, export and restore.  A workflow moves its operation in
    the repository before and after it asks the controller. *)

From S2P Require Import Prelude Text Json Capability Lifecycle Device Command MatterState CommandStore MatterOperation MatterStore Identity Effects CommandService MatterDescriptor MatterController MatterRepository MatterAdministration.

Definition SIMULATOR_IMPLEMENTATION : string := "homemagic-deterministic-simulator".
Definition FABRIC_SECRET_BYTES : nat := 32.

Inductive MatterWorkflowEvidence := DeterministicSimulator.

Record MatterFabricMetadata := mk_fabric_metadata {
  fm_fabric_id : MatterFabricId;
  fm_state : MatterFabricState;
  fm_revision : N;
  fm_updated_at : Instant
}.

Definition metadata_of (fabric : StoredMatterFabric) : MatterFabricMetadata :=
  mk_fabric_metadata (sf_fabric_id fabric) (sf_state fabric) (sf_revision fabric)
    (sf_updated_at fabric).

Record MatterFabricWorkflowStatus := mk_workflow_status {
  fw_durable : option MatterFabricMetadata;
  fw_controller : option MatterFabricStatus;
  fw_evidence : MatterWorkflowEvidence
}.

Inductive MatterWorkflowOutcome (T : Type) :=
| Wf_Completed (operation : MatterOperation) (value : T)
| Wf_Terminal (operation : MatterOperation).
Arguments Wf_Completed {T} operation value.
Arguments Wf_Terminal {T} operation.

Record MatterSimulatorExport := mk_simulator_export {
  se_export : MatterFabricExport;
  se_evidence : MatterWorkflowEvidence
}.

Record MatterSimulatorRestoreInput := mk_restore_input {
  ri_envelope : SecretValue;
  ri_recovery_key : SecretValue
}.

Inductive MatterFabricWorkflowError :=
| Fwe_Administration (error : MatterAdministrationError)
| Fwe_Repository (error : BoxError)
| Fwe_SecretStore (error : SecretStoreError)
| Fwe_Controller (error : MatterControllerError)
| Fwe_FabricNotFound | Fwe_InvalidOperationState | Fwe_RevisionExhausted | Fwe_SimulatorOnly
| Fwe_UnexpectedExportFormat | Fwe_InvalidFabricStage.

Definition indeterminate_operation_error (operation : MatterOperation) : MatterControllerError :=
  mk_controller_error Cat_Persistence Code_OutcomeIndeterminate Retry_AfterRepair
    (Some (Res_Operation (mo_id operation))) (Some Rep_ReviewPartialCleanup).

(** A fabric the controller already has. *)
Definition fabric_conflict (fabric_id : MatterFabricId) : MatterControllerError :=
  mk_controller_error Cat_Conflict Code_FabricConflict Retry_Never (Some (Res_Fabric fabric_id)) None.

(** ** Steps the workflows share *)

Section Shared.
Context `{SerdeJson} {E : Type} (administration : MatterAdministrationError -> E)
  (repository : BoxError -> E) (invalid_state simulator_only : E).

(** Moves the operation in the repository, at its revision. *)
Definition move_operation (operation : MatterOperation) (next : MatterOperationPhase)
  (now : Instant) : MatterProg (result MatterOperation E) :=
  let expected_revision := mo_revision operation in
  try! operation := Ret (map_err (fun _ => invalid_state)
                           (MatterOperation.transition operation next now)) in
  try! _ := mapped repository (wask (Wo_transition_operation operation expected_revision
                                       (progress operation None) None)) in
  Ret (Ok operation).

Definition end_with_error {T : Type} (actor : Actor) (operation : MatterOperation)
  (error : MatterControllerError) (now : Instant) :
  MatterProg (result (MatterWorkflowOutcome T) E) :=
  try! terminal := mapped administration
    (record_controller_failure actor (mo_id operation) error now) in
  Ret (Ok (Wf_Terminal terminal)).

Definition check_simulator : MatterProg (result unit E) :=
  let! implementation := wask Wo_implementation in
  if String.eqb implementation SIMULATOR_IMPLEMENTATION then Ret (Ok tt)
  else Ret (Err simulator_only).
End Shared.

(** ** The service *)

Section Fabric.
Context `{SerdeJson} `{MatterRequestDigest} `{Uuids}.

Abbreviation FwResult A := (MatterProg (result A MatterFabricWorkflowError)).

Definition transition (operation : MatterOperation) (next : MatterOperationPhase) (now : Instant) :
  FwResult MatterOperation :=
  move_operation Fwe_Repository Fwe_InvalidOperationState operation next now.

Definition terminal_controller_error {T : Type} (actor : Actor) (operation : MatterOperation)
  (error : MatterControllerError) (now : Instant) : FwResult (MatterWorkflowOutcome T) :=
  end_with_error Fwe_Administration actor operation error now.

Definition ensure_simulator : FwResult unit := check_simulator Fwe_SimulatorOnly.

Definition stored_fabric (fabric_id : MatterFabricId) : FwResult (option StoredMatterFabric) :=
  mapped Fwe_Repository (wask (Wo_fabric fabric_id)).

Definition status (actor : Actor) : FwResult MatterFabricWorkflowStatus :=
  try! _ := ensure_simulator in
  try! installation_id :=
    mapped Fwe_Administration (authorize_installation_action actor Act_MatterRead) in
  let fabric_id := MatterFabricId.from_installation installation_id in
  try! durable := stored_fabric fabric_id in
  try! controller := mapped Fwe_Controller (wask (Wo_fabric_status fabric_id)) in
  Ret (Ok (mk_workflow_status (metadata_of <$> durable) controller DeterministicSimulator)).

Definition transition_stage (stage : MatterFabricStage) (next_state : MatterFabricStageState)
  (now : Instant) : FwResult MatterFabricStage :=
  let expected_revision := sg_revision stage in
  try! revision := Ret (ok_or (u64_checked_add (sg_revision stage) 1) Fwe_RevisionExhausted) in
  let stage := mk_stage (sg_installation_id stage) (sg_fabric_id stage) (sg_actor_id stage)
    (sg_secrets stage) next_state revision now in
  try! _ := mapped Fwe_Repository (wask (Wo_store_fabric_stage stage (Some expected_revision))) in
  Ret (Ok stage).

(** Three references are drawn for a new stage. *)
Definition new_stage (actor : Actor) (installation_id : InstallationId)
  (fabric_id : MatterFabricId) (now : Instant) : FwResult MatterFabricStage :=
  let! root_ca_key := wask Wo_new_id in
  let! operational_key := wask Wo_new_id in
  let! controller_state := wask Wo_new_id in
  let stage := mk_stage installation_id fabric_id (ac_id actor)
    (mk_secret_refs root_ca_key operational_key controller_state) Fst_PendingSecrets 1 now in
  try! _ := mapped Fwe_Repository (wask (Wo_store_fabric_stage stage None)) in
  Ret (Ok stage).

(** One secret; a failure leaves the stage for cleanup. *)
Definition put_secret (stage : MatterFabricStage) (now : Instant) (reference : SecretRef) :
  FwResult unit :=
  let! value := wask (Wo_random FABRIC_SECRET_BYTES) in
  let! stored := wask (Wo_put_secret reference value) in
  match stored with
  | Ok _ => Ret (Ok tt)
  | Err error =>
      try! _ := transition_stage stage Fst_CleanupRequired now in
      Ret (Err (Fwe_SecretStore error))
  end.

Definition provision_durable_fabric (actor : Actor) (installation_id : InstallationId)
  (fabric_id : MatterFabricId) (now : Instant) : FwResult unit :=
  try! found := mapped Fwe_Repository (wask (Wo_fabric_stage fabric_id)) in
  try! stage :=
    match found with
    | Some stage =>
        if String.eqb (sg_installation_id stage) installation_id then Ret (Ok stage)
        else Ret (Err Fwe_InvalidFabricStage)
    | None => new_stage actor installation_id fabric_id now
    end in
  let refs := sg_secrets stage in
  try! _ :=
    if bool_decide (sg_state stage = Fst_SecretsReady) then Ret (Ok tt)
    else
      try! _ := for_each [sr_root_ca_key refs; sr_operational_key refs; sr_controller_state refs]
                  (put_secret stage now) in
      try! _ := transition_stage stage Fst_SecretsReady now in
      Ret (Ok tt) in
  mapped Fwe_Repository (wask (Wo_store_fabric
    (mk_fabric installation_id fabric_id Fs_Unavailable refs 1 now) None)).

Definition start_create (actor : Actor) (idempotency_key : IdempotencyKey) (now : Instant) :
  FwResult MatterOperationCreateOutcome :=
  try! _ := ensure_simulator in
  try! installation_id :=
    mapped Fwe_Administration (authorize_installation_action actor Act_MatterCreateFabric) in
  let fabric_id := MatterFabricId.from_installation installation_id in
  try! durable := stored_fabric fabric_id in
  try! _ := match durable with
            | None => provision_durable_fabric actor installation_id fabric_id now
            | Some _ => Ret (Ok tt)
            end in
  try! _ := mapped Fwe_Repository (wask (Wo_delete_attached_stage fabric_id)) in
  mapped Fwe_Administration
    (admit_operation actor (mk_administration_request Mk_CreateFabric (Mt_Fabric fabric_id) idempotency_key)
       now).

Definition activate_fabric (fabric_id : MatterFabricId) (state : MatterFabricState)
  (now : Instant) : FwResult unit :=
  try! found := stored_fabric fabric_id in
  try! fabric := Ret (ok_or found Fwe_FabricNotFound) in
  if bool_decide (sf_state fabric = state) then Ret (Ok tt)
  else
    let expected_revision := sf_revision fabric in
    try! revision := Ret (ok_or (u64_checked_add (sf_revision fabric) 1) Fwe_RevisionExhausted) in
    let fabric := mk_fabric (sf_installation_id fabric) (sf_fabric_id fabric) state
      (sf_secrets fabric) revision now in
    mapped Fwe_Repository (wask (Wo_store_fabric fabric (Some expected_revision))).

(** The last steps of a creation and of a restore. *)
Definition complete_fabric (actor : Actor) (operation : MatterOperation)
  (fabric_id : MatterFabricId) (live : MatterFabricStatus) (now : Instant) :
  FwResult (MatterWorkflowOutcome MatterFabricWorkflowStatus) :=
  try! _ := activate_fabric fabric_id (fs_state live) now in
  try! operation := transition operation Mph_Completed now in
  try! value := status actor in
  Ret (Ok (Wf_Completed operation value)).

Definition run_create (actor : Actor) (operation_id : MatterOperationId) (now : Instant) :
  FwResult (MatterWorkflowOutcome MatterFabricWorkflowStatus) :=
  try! _ := ensure_simulator in
  try! operation := mapped Fwe_Administration
    (owned_operation_for_action actor operation_id Act_MatterCreateFabric) in
  if bool_decide (mo_phase operation = Mph_Completed) then
    try! value := status actor in Ret (Ok (Wf_Completed operation value))
  else
    let starting_now := bool_decide (mo_phase operation = Mph_Requested) in
    try! operation := if starting_now then transition operation Mph_CreatingFabric now
                      else Ret (Ok operation) in
    guard! bool_decide (mo_phase operation = Mph_CreatingFabric) else Fwe_InvalidOperationState in
    let fabric_id := operation_fabric_id operation in
    let! found := wask (Wo_fabric_status fabric_id) in
    match found with
    | Ok (Some live) =>
        if starting_now
        then terminal_controller_error actor operation (fabric_conflict fabric_id) now
        else complete_fabric actor operation fabric_id live now
    | Ok None =>
        if starting_now then
          try! durable := stored_fabric fabric_id in
          try! fabric := Ret (ok_or durable Fwe_FabricNotFound) in
          let! created := wask (Wo_create_fabric
            (mk_create_fabric (mo_id operation) fabric_id (sf_secrets fabric))) in
          match created with
          | Ok live => complete_fabric actor operation fabric_id live now
          | Err error => terminal_controller_error actor operation error now
          end
        else terminal_controller_error actor operation (indeterminate_operation_error operation) now
    | Err error => terminal_controller_error actor operation error now
    end.

Definition start_existing_fabric_operation (actor : Actor) (kind : MatterOperationKind)
  (idempotency_key : IdempotencyKey) (now : Instant) : FwResult MatterOperationCreateOutcome :=
  try! _ := ensure_simulator in
  try! installation_id :=
    mapped Fwe_Administration (authorize_installation_action actor (action_for_kind kind)) in
  let fabric_id := MatterFabricId.from_installation installation_id in
  try! durable := stored_fabric fabric_id in
  guard! bool_decide (is_Some durable) else Fwe_FabricNotFound in
  mapped Fwe_Administration
    (admit_operation actor (mk_administration_request kind (Mt_Fabric fabric_id) idempotency_key) now).

Definition start_export (actor : Actor) (idempotency_key : IdempotencyKey) (now : Instant) :
  FwResult MatterOperationCreateOutcome :=
  start_existing_fabric_operation actor Mk_ExportFabric idempotency_key now.

Definition run_export (actor : Actor) (operation_id : MatterOperationId) (now : Instant) :
  FwResult (MatterWorkflowOutcome MatterSimulatorExport) :=
  try! _ := ensure_simulator in
  try! operation := mapped Fwe_Administration
    (owned_operation_for_action actor operation_id Act_MatterExportFabric) in
  let starting_now := bool_decide (mo_phase operation = Mph_Requested) in
  try! operation := if starting_now then transition operation Mph_Exporting now
                    else Ret (Ok operation) in
  guard! bool_decide (mo_phase operation = Mph_Exporting) else Fwe_InvalidOperationState in
  if negb starting_now then
    terminal_controller_error actor operation (indeterminate_operation_error operation) now
  else
    let! exported := wask (Wo_export_fabric
      (mk_export_request (mo_id operation) (operation_fabric_id operation))) in
    match exported with
    | Ok export =>
        guard! bool_decide (fx_format export = Xf_SimulatorV1) else Fwe_UnexpectedExportFormat in
        try! operation := transition operation Mph_Completed now in
        Ret (Ok (Wf_Completed operation (mk_simulator_export export DeterministicSimulator)))
    | Err error => terminal_controller_error actor operation error now
    end.

Definition start_restore (actor : Actor) (idempotency_key : IdempotencyKey) (now : Instant) :
  FwResult MatterOperationCreateOutcome :=
  start_existing_fabric_operation actor Mk_RestoreFabric idempotency_key now.

(** The restored fabric is loaded, activated and completed. *)
Definition load_restored (actor : Actor) (operation : MatterOperation)
  (fabric_id : MatterFabricId) (live : MatterFabricStatus) (now : Instant) :
  FwResult (MatterWorkflowOutcome MatterFabricWorkflowStatus) :=
  try! operation := if bool_decide (mo_phase operation = Mph_Restoring)
                    then transition operation Mph_LoadingFabric now else Ret (Ok operation) in
  complete_fabric actor operation fabric_id live now.

Definition run_simulator_restore (actor : Actor) (operation_id : MatterOperationId)
  (input : MatterSimulatorRestoreInput) (now : Instant) :
  FwResult (MatterWorkflowOutcome MatterFabricWorkflowStatus) :=
  try! _ := ensure_simulator in
  try! operation := mapped Fwe_Administration
    (owned_operation_for_action actor operation_id Act_MatterRestoreFabric) in
  let starting_now := bool_decide (mo_phase operation = Mph_Requested) in
  try! operation := if starting_now then transition operation Mph_Restoring now
                    else Ret (Ok operation) in
  guard! bool_decide (mo_phase operation = Mph_Restoring)
         || bool_decide (mo_phase operation = Mph_LoadingFabric) else Fwe_InvalidOperationState in
  let fabric_id := operation_fabric_id operation in
  let! found := wask (Wo_fabric_status fabric_id) in
  match found with
  | Ok (Some live) =>
      if starting_now
      then terminal_controller_error actor operation (fabric_conflict fabric_id) now
      else load_restored actor operation fabric_id live now
  | Ok None =>
      if starting_now then
        let! restored := wask (Wo_restore_fabric
          (mk_restore (mo_id operation) fabric_id Xf_SimulatorV1 (ri_envelope input)
             (ri_recovery_key input))) in
        match restored with
        | Ok live => load_restored actor operation fabric_id live now
        | Err error => terminal_controller_error actor operation error now
        end
      else terminal_controller_error actor operation (indeterminate_operation_error operation) now
  | Err error => terminal_controller_error actor operation error now
  end.

Definition validate_production_restore_format (format : MatterFabricExportFormat) :
  result unit MatterControllerContractError := ensure_protected format.
End Fabric.
