(* ===== verification/MatterNodeWorkflow.v ===== *)
(** The life of a node,
    [crates/homemagic-application/src/matter_node_workflow.rs]: commissioning, its
    cancellation and recovery, and removal. *)

From S2P Require Import Prelude Text BTree Json Capability Lifecycle Device Command MatterState CommandStore MatterOperation MatterStore Identity Effects CommandService MatterDescriptor MatterProjection MatterController MatterRepository MatterAdministration MatterFabricWorkflow.

Definition CONTROLLER_EVENT_PAGE : nat := 256.
Definition SUBSCRIPTION_MINIMUM_INTERVAL_MILLIS : N := 1000.
Definition SUBSCRIPTION_MAXIMUM_INTERVAL_MILLIS : N := 60000.
Definition COMMISSIONING_PHASES : list MatterOperationPhase :=
  [Mph_ValidatingSetup; Mph_Discovering; Mph_EstablishingSession; Mph_Commissioning;
   Mph_Projecting; Mph_Subscribing].

Record MatterCommissioningInput := mk_commissioning_input { ci_setup_payload : SecretValue }.

Inductive MatterCancellationStartOutcome :=
| Cs_LocalCancelled (operation : MatterOperation)
| Cs_Operation (outcome : MatterOperationCreateOutcome).

Inductive MatterCancellationResolution :=
| Cr_Cancelled | Cr_AlreadyCompletedRequiresRepair | Cr_OutcomeUnknown.

Record MatterCancellationResult := mk_cancellation_result {
  cx_commissioning : MatterOperation;
  cx_cancellation : MatterOperation;
  cx_resolution : MatterCancellationResolution
}.

Inductive MatterNodeWorkflowError :=
| Nwe_Administration (error : MatterAdministrationError)
| Nwe_Repository (error : BoxError)
| Nwe_FabricNotFound | Nwe_FabricNotActive | Nwe_NodeNotFound | Nwe_CommissioningResultMissing
| Nwe_InvalidOperationState | Nwe_InvalidOperationTarget | Nwe_TimeOverflow
| Nwe_InvalidDeviceState | Nwe_SimulatorOnly.

(** ** Pure parts *)

Definition commissioning_fabric_id (operation : MatterOperation) :
  result MatterFabricId MatterNodeWorkflowError :=
  match mo_target operation with
  | Mt_Fabric fabric_id => Ok fabric_id
  | _ => Err Nwe_InvalidOperationTarget
  end.

Definition commissioning_error (fabric_id : MatterFabricId)
  (category : MatterControllerErrorCategory) (code : MatterControllerErrorCode)
  (retryability : MatterRetryability) : MatterControllerError :=
  mk_controller_error category code retryability (Some (Res_Fabric fabric_id))
    (if bool_decide (retryability = Retry_AfterRepair) then Some Rep_ReviewPartialCleanup else None).

Definition indeterminate_node_error (fabric_id : MatterFabricId) (node_id : MatterNodeId) :
  MatterControllerError :=
  mk_controller_error Cat_Persistence Code_OutcomeIndeterminate Retry_AfterRepair
    (Some (Res_Node fabric_id node_id)) (Some Rep_ReviewPartialCleanup).

Definition valid_commissioning_progress (phases : list MatterOperationPhase) : bool :=
  bool_decide (phases = COMMISSIONING_PHASES).

Definition capability_snapshot (value : MatterStateValue) (schema : string) :
  option CapabilitySnapshot :=
  match value with
  | Mv_OnOff on =>
      if String.eqb schema "on_off.v1" then Some (Snapshot_OnOff on Risk_Comfort) else None
  | Mv_Lock state =>
      if String.eqb schema "access_control.v1" then Some (Snapshot_AccessControl (locked_of state))
      else None
  | _ => None
  end.

(** The snapshots of the projections, by endpoint. *)
Definition snapshot_endpoints (projections : list StoredMatterProjection) :
  list (EndpointId * list CapabilitySnapshot) :=
  fold_left (fun endpoints projection =>
      match (reported ← mp_reported (sp_state projection);
             capability_snapshot (mr_value reported) (sp_capability_schema projection)) with
      | Some snapshot =>
          binsert (sp_endpoint_id projection)
            (default [] (bget (sp_endpoint_id projection) endpoints) ++ [snapshot]) endpoints
      | None => endpoints
      end) projections [].

Section Device.
Context `{SerdeJson} `{Uuids}.

Definition commissioned_device (installation_id : InstallationId)
  (integration : IntegrationInstance) (descriptor : MatterNodeDescriptor)
  (projections : list StoredMatterProjection) (now : Instant) : option DeviceRecord :=
  let native_id := "node:" +:+ show_N (nd_node_id descriptor) in
  let device := Device.candidate installation_id (ii_id integration)
    (mk_snapshot
       match head projections with
       | Some projection => sp_device_id projection
       | None => DeviceId.from_integration (ii_id integration) native_id
       end
       native_id "matter" ("Matter node " +:+ show_N (nd_node_id descriptor)) "Matter"
       "Commissioned node" []
       (map (fun entry => mk_endpoint entry.1 None entry.2) (snapshot_endpoints projections))
       now []) now in
  device ← result_ok (Device.transition device Enroll);
  timestamps ← result_ok (DeviceTimestamps.record_success (dr_timestamps device) now);
  Some (mk_device (dr_installation_id device) (dr_integration_id device) (dr_snapshot device)
    (dr_lifecycle device)
    (Availability.transition (dr_availability device) Av_Online now (Some "commissioned"))
    timestamps (dr_aliases device) (dr_spaces device) (dr_capability_descriptors device)).

(** The tombstone of a removed node. *)
Definition removed_device (device : DeviceRecord) (now : Instant) :
  result DeviceRecord MatterNodeWorkflowError :=
  let? device := if bool_decide (dr_lifecycle device = Removed) then Ok device
                 else map_err (fun _ => Nwe_InvalidDeviceState) (Device.transition device Remove) in
  let snapshot := dr_snapshot device in
  Ok (mk_device (dr_installation_id device) (dr_integration_id device)
    (mk_snapshot (ds_id snapshot) (ds_native_id snapshot) (ds_integration snapshot)
       (ds_name snapshot) (ds_manufacturer snapshot) (ds_model snapshot) (ds_network snapshot) []
       (ds_observed_at snapshot) (ds_vendor_data snapshot))
    (dr_lifecycle device)
    (Availability.transition (dr_availability device) Av_Offline now (Some "removed"))
    (dr_timestamps device) (dr_aliases device) (dr_spaces device) []).
End Device.

Record PreparedCommissioning `{SerdeJson} := mk_prepared {
  pp_integration : IntegrationInstance;
  pp_device : DeviceRecord;
  pp_node : StoredMatterNode;
  pp_projections : list StoredMatterProjection;
  pp_subscription_request : MatterSubscriptionRequest
}.

(** ** The service *)

Section Node.
Context `{SerdeJson} `{MatterRequestDigest} `{Uuids} `{Chrono}.

Abbreviation NwResult A := (MatterProg (result A MatterNodeWorkflowError)).

Definition transition (operation : MatterOperation) (next : MatterOperationPhase) (now : Instant) :
  NwResult MatterOperation :=
  move_operation Nwe_Repository Nwe_InvalidOperationState operation next now.

Definition terminal_controller_error {T : Type} (actor : Actor) (operation : MatterOperation)
  (error : MatterControllerError) (now : Instant) : NwResult (MatterWorkflowOutcome T) :=
  end_with_error Nwe_Administration actor operation error now.

Definition ensure_simulator : NwResult unit := check_simulator Nwe_SimulatorOnly.

(** ** Commissioning *)

Definition start_commission (actor : Actor) (idempotency_key : IdempotencyKey) (now : Instant) :
  NwResult MatterOperationCreateOutcome :=
  try! _ := ensure_simulator in
  try! installation_id :=
    mapped Nwe_Administration (authorize_installation_action actor Act_MatterCommissionNode) in
  let fabric_id := MatterFabricId.from_installation installation_id in
  try! found := mapped Nwe_Repository (wask (Wo_fabric fabric_id)) in
  try! fabric := Ret (ok_or found Nwe_FabricNotFound) in
  guard! bool_decide (sf_state fabric = Fs_Active) else Nwe_FabricNotActive in
  mapped Nwe_Administration
    (admit_operation actor (mk_administration_request Mk_CommissionNode (Mt_Fabric fabric_id) idempotency_key)
       now).

(** The phases the controller reported for the operation. *)
Definition reported_phases (operation_id : MatterOperationId) (page : MatterEventPage) :
  list MatterOperationPhase :=
  omap (fun event =>
    match mce_kind (mcv_event event) with
    | Mek_OperationProgress candidate phase =>
        if String.eqb candidate operation_id then Some phase else None
    | _ => None
    end) (mev_events page).

Definition commissioning_progress (operation_id : MatterOperationId) :
  MatterProg (result (list MatterOperationPhase) MatterControllerError) :=
  try! events := wask (Wo_events_after 0 CONTROLLER_EVENT_PAGE) in
  let phases := reported_phases operation_id events in
  if valid_commissioning_progress phases then Ret (Ok phases)
  else Ret (Err (mk_controller_error Cat_Persistence Code_OutcomeIndeterminate Retry_AfterRepair
                   (Some (Res_Operation operation_id)) (Some Rep_ReviewPartialCleanup))).

(** The stored projection of a capability, with its first report. *)
Definition prepare_projection (operation : MatterOperation) (installation_id : InstallationId)
  (fabric_id : MatterFabricId) (reports : list MatterAttributeReport) (now : Instant)
  (projection : MatterCapabilityProjection) : result StoredMatterProjection MatterControllerError :=
  let unknown := indeterminate_operation_error operation in
  let? report :=
    ok_or (List.find (fun report => bool_decide (rp_path report = cpj_report_path projection))
             reports) unknown in
  let? stored := map_err (fun _ => unknown)
    (initial_stored_matter_projection installation_id fabric_id projection now) in
  let causation := mk_report_causation None in
  match normalize_matter_report projection report now None Src_FullStatus causation with
  | Dec_Applied reported _ _ =>
      let? state := map_err (fun _ => unknown)
        (advance_matter_projected_state (sp_state stored) reported causation) in
      Ok (mk_projection (sp_installation_id stored) (sp_fabric_id stored) (sp_node_id stored)
            (sp_endpoint_number stored) (sp_projection_id stored) (sp_device_id stored)
            (sp_endpoint_id stored) (sp_capability_schema stored) (sp_projection_revision stored)
            state (sp_revision stored) (sp_updated_at stored))
  | _ => Err unknown
  end.

Definition prepare_projections (operation : MatterOperation) (installation_id : InstallationId)
  (fabric_id : MatterFabricId) (reports : list MatterAttributeReport) (now : Instant)
  (capabilities : list MatterCapabilityProjection) :
  result (list StoredMatterProjection) MatterControllerError :=
  try_fold (fun stored projection =>
      let? projection :=
        prepare_projection operation installation_id fabric_id reports now projection in
      Ok (stored ++ [projection])) [] capabilities.

Definition matter_integration (installation_id : InstallationId) (fabric_id : MatterFabricId) :
  IntegrationInstance :=
  mk_integration (IntegrationId.from_native installation_id "matter" fabric_id) installation_id
    "matter" fabric_id "Matter" None.

Definition prepare_commissioning_projection (operation : MatterOperation)
  (descriptor : MatterNodeDescriptor) (now : Instant) :
  MatterProg (result PreparedCommissioning MatterControllerError) :=
  let unknown := indeterminate_operation_error operation in
  match mo_target operation with
  | Mt_Fabric fabric_id =>
      try! found := mapped (fun _ => unknown)
        (wask (Wo_administration_operation (mo_id operation))) in
      try! (_, binding) := Ret (ok_or found unknown) in
      let installation_id := bd_installation_id binding in
      let projected := project_matter_node installation_id descriptor in
      guard! negb (bool_decide (length (np_capabilities projected) = 0))
        else commissioning_error fabric_id Cat_Unsupported Code_UnsupportedOperation Retry_Never in
      try! selection := Ret (map_err (fun _ => unknown)
        (MatterAttributeSelection.new (map cpj_report_path (np_capabilities projected)))) in
      try! reports := wask (Wo_read (mk_read fabric_id (nd_node_id descriptor) selection)) in
      try! projections := Ret (prepare_projections operation installation_id fabric_id reports now
                                 (np_capabilities projected)) in
      let integration := matter_integration installation_id fabric_id in
      try! device := Ret (ok_or
        (commissioned_device installation_id integration descriptor projections now) unknown) in
      let node := mk_node installation_id (np_device_id projected) descriptor 1 now in
      try! subscription_request := Ret (map_err (fun _ => unknown)
        (MatterSubscriptionRequest.new
           (MatterSubscriptionId.from_node fabric_id (nd_node_id descriptor)) fabric_id
           (nd_node_id descriptor) selection SUBSCRIPTION_MINIMUM_INTERVAL_MILLIS
           SUBSCRIPTION_MAXIMUM_INTERVAL_MILLIS)) in
      Ret (Ok (mk_prepared _ integration device node projections subscription_request))
  | _ => Ret (Err unknown)
  end.

(** What is committed when the subscription stands. *)
Definition commissioning_commit (operation : MatterOperation) (fabric_id : MatterFabricId)
  (prepared : PreparedCommissioning) (status : MatterSubscriptionStatus) (stale_after now : Instant) :
  MatterCommissioningCommit :=
  let node := pp_node prepared in
  let node_id := nd_node_id (sn_descriptor node) in
  mk_commissioning_commit (pp_integration prepared) (pp_device prepared) node
    (pp_projections prepared)
    (mk_subscription (ss_subscription_id status) fabric_id node_id Sst_Established
       (ss_report_sequence status) stale_after StoredMatterSubscriptionRecovery.default 1 now)
    (mk_node_result (mo_id operation) fabric_id node_id (sn_device_id node) now)
    operation (progress operation None).

Definition complete_commissioning (actor : Actor) (operation : MatterOperation)
  (descriptor : MatterNodeDescriptor) (now : Instant) :
  NwResult (MatterWorkflowOutcome MatterOperationNodeResult) :=
  try! fabric_id := Ret (commissioning_fabric_id operation) in
  let! prepared := prepare_commissioning_projection operation descriptor now in
  match prepared with
  | Err error => terminal_controller_error actor operation error now
  | Ok prepared =>
      try! operation :=
        if bool_decide (mo_phase operation = Mph_Projecting)
        then transition operation Mph_Subscribing now
        else Ret (if bool_decide (mo_phase operation = Mph_Subscribing) then Ok operation
                  else Err Nwe_InvalidOperationState) in
      let! subscribed := wask (Wo_subscribe (pp_subscription_request prepared)) in
      match subscribed with
      | Err error => terminal_controller_error actor operation error now
      | Ok status =>
          if negb (ss_established status) then
            terminal_controller_error actor operation
              (commissioning_error fabric_id Cat_Persistence Code_OutcomeIndeterminate
                 Retry_AfterRepair) now
          else
            let expected_revision := mo_revision operation in
            try! operation := Ret (map_err (fun _ => Nwe_InvalidOperationState)
                                     (MatterOperation.transition operation Mph_Completed now)) in
            try! stale_after := Ret (ok_or
              (checked_add_signed (ss_verified_at status)
                 (delta_millis (Z.of_N SUBSCRIPTION_MAXIMUM_INTERVAL_MILLIS))) Nwe_TimeOverflow) in
            let commit := commissioning_commit operation fabric_id prepared status stale_after now in
            try! _ := mapped Nwe_Repository (wask (Wo_commit_commissioning commit expected_revision)) in
            Ret (Ok (Wf_Completed operation (cc_result commit)))
      end
  end.

(** [for phase in phases]. *)
Fixpoint move_through (operation : MatterOperation) (phases : list MatterOperationPhase)
  (now : Instant) : NwResult MatterOperation :=
  match phases with
  | [] => Ret (Ok operation)
  | phase :: phases =>
      try! operation := transition operation phase now in move_through operation phases now
  end.

(** The stored result of a completed commissioning. *)
Definition completed_result (operation : MatterOperation) (operation_id : MatterOperationId) :
  NwResult (MatterWorkflowOutcome MatterOperationNodeResult) :=
  try! found := mapped Nwe_Repository (wask (Wo_operation_node_result operation_id)) in
  try! value := Ret (ok_or found Nwe_CommissioningResultMissing) in
  Ret (Ok (Wf_Completed operation value)).

Definition run_commission (actor : Actor) (operation_id : MatterOperationId)
  (input : MatterCommissioningInput) (now : Instant) :
  NwResult (MatterWorkflowOutcome MatterOperationNodeResult) :=
  try! _ := ensure_simulator in
  try! operation := mapped Nwe_Administration
    (owned_operation_for_action actor operation_id Act_MatterCommissionNode) in
  if bool_decide (mo_phase operation = Mph_Completed) then completed_result operation operation_id
  else
    guard! bool_decide (mo_phase operation = Mph_Requested) else Nwe_InvalidOperationState in
    try! operation := transition operation Mph_ValidatingSetup now in
    try! fabric_id := Ret (commissioning_fabric_id operation) in
    let! commissioned := wask (Wo_commission
      (mk_commissioning (mo_id operation) fabric_id (ci_setup_payload input))) in
    match commissioned with
    | Err error => terminal_controller_error actor operation error now
    | Ok descriptor =>
        if negb (String.eqb (nd_fabric_id descriptor) fabric_id) then
          terminal_controller_error actor operation
            (commissioning_error fabric_id Cat_Validation Code_InvalidRequest Retry_Never) now
        else
          let! progressed := commissioning_progress (mo_id operation) in
          match progressed with
          | Err error => terminal_controller_error actor operation error now
          | Ok phases =>
              try! operation := move_through operation (firstn 4 (skipn 1 phases)) now in
              complete_commissioning actor operation descriptor now
          end
    end.

Definition recover_commissioning (actor : Actor) (operation_id : MatterOperationId)
  (now : Instant) : NwResult (MatterWorkflowOutcome MatterOperationNodeResult) :=
  try! _ := ensure_simulator in
  try! operation := mapped Nwe_Administration
    (owned_operation_for_action actor operation_id Act_MatterCommissionNode) in
  if bool_decide (mo_phase operation = Mph_Completed) then completed_result operation operation_id
  else if MatterOperationPhase.is_terminal (mo_phase operation)
  then Ret (Ok (Wf_Terminal operation))
  else
    guard! negb (bool_decide (mo_phase operation = Mph_Requested)
                 || negb (bool_decide (mo_phase operation ∈ COMMISSIONING_PHASES)))
      else Nwe_InvalidOperationState in
    try! fabric_id := Ret (commissioning_fabric_id operation) in
    let! _ := wask (Wo_events_after 0 CONTROLLER_EVENT_PAGE) in
    let! _ := wask (Wo_nodes fabric_id) in
    terminal_controller_error actor operation (indeterminate_operation_error operation) now.

(** ** Cancellation *)

Definition start_cancel_commissioning (actor : Actor)
  (commissioning_operation_id : MatterOperationId) (idempotency_key : IdempotencyKey)
  (now : Instant) : NwResult MatterCancellationStartOutcome :=
  try! _ := ensure_simulator in
  try! commissioning := mapped Nwe_Administration
    (owned_commissioning_for_cancellation actor commissioning_operation_id) in
  if bool_decide (mo_phase commissioning = Mph_Requested) then
    try! cancelled := mapped Nwe_Administration
      (cancel_requested actor commissioning_operation_id now) in
    Ret (Ok (Cs_LocalCancelled cancelled))
  else
    guard! negb (MatterOperationPhase.is_terminal (mo_phase commissioning))
      else Nwe_InvalidOperationState in
    try! fabric_id := Ret (commissioning_fabric_id commissioning) in
    try! outcome := mapped Nwe_Administration
      (admit_operation actor (mk_administration_request Mk_CancelCommissioning
                      (Mt_Operation fabric_id (mo_id commissioning)) idempotency_key) now) in
    Ret (Ok (Cs_Operation outcome)).

Definition moved (operation : MatterOperation) (next : MatterOperationPhase) (now : Instant) :
  result MatterOperation MatterNodeWorkflowError :=
  map_err (fun _ => Nwe_InvalidOperationState) (MatterOperation.transition operation next now).

(** Both operations after the answer of the controller, with their errors. *)
Definition resolve_cancellation (commissioning cancellation : MatterOperation)
  (outcome : result MatterCancellationOutcome MatterControllerError) (now : Instant) :
  result (MatterOperation * MatterOperation * MatterCancellationResolution
          * option MatterControllerError * option MatterControllerError)
         MatterNodeWorkflowError :=
  match outcome with
  | Ok Cn_Cancelled =>
      let? commissioning := moved commissioning Mph_Cancelled now in
      let? cancellation := moved cancellation Mph_Completed now in
      Ok (commissioning, cancellation, Cr_Cancelled, None, None)
  | Ok Cn_AlreadyCompleted =>
      let error := indeterminate_operation_error commissioning in
      let? commissioning := moved commissioning Mph_RepairRequired now in
      let? cancellation := moved cancellation Mph_Completed now in
      Ok (commissioning, cancellation, Cr_AlreadyCompletedRequiresRepair, Some error, None)
  | Ok Cn_OutcomeUnknown | Err _ =>
      let commissioning_failure := indeterminate_operation_error commissioning in
      let cancellation_failure := indeterminate_operation_error cancellation in
      let? commissioning := moved commissioning Mph_RepairRequired now in
      let? cancellation := moved cancellation Mph_RepairRequired now in
      Ok (commissioning, cancellation, Cr_OutcomeUnknown, Some commissioning_failure,
          Some cancellation_failure)
  end.

(** [error.clone().map(|error| repair(operation, error, now))]. *)
Definition repair_of (operation : MatterOperation) (error : option MatterControllerError)
  (now : Instant) : MatterProg (option MatterRepairRecord) :=
  match error with
  | Some error => let! id := wask Wo_new_id in Ret (Some (open_repair id operation error now))
  | None => Ret None
  end.

Definition run_cancel_commissioning (actor : Actor) (cancellation_operation_id : MatterOperationId)
  (now : Instant) : NwResult MatterCancellationResult :=
  try! _ := ensure_simulator in
  try! cancellation := mapped Nwe_Administration
    (owned_operation_for_action actor cancellation_operation_id Act_MatterCancelOperation) in
  match mo_target cancellation with
  | Mt_Operation _ commissioning_id =>
      try! commissioning := mapped Nwe_Administration
        (owned_commissioning_for_cancellation actor commissioning_id) in
      guard! negb (MatterOperationPhase.is_terminal (mo_phase commissioning))
        else Nwe_InvalidOperationState in
      try! cancellation :=
        if bool_decide (mo_phase cancellation = Mph_Requested)
        then transition cancellation Mph_Cancelling now
        else Ret (if bool_decide (mo_phase cancellation = Mph_Cancelling) then Ok cancellation
                  else Err Nwe_InvalidOperationState) in
      let! outcome := wask (Wo_cancel_commissioning (mo_id commissioning)) in
      let expected_commissioning_revision := mo_revision commissioning in
      let expected_cancellation_revision := mo_revision cancellation in
      try! (commissioning, cancellation, resolution, commissioning_error, cancellation_error) :=
        Ret (resolve_cancellation commissioning cancellation outcome now) in
      let! commissioning_repair := repair_of commissioning commissioning_error now in
      let! cancellation_repair := repair_of cancellation cancellation_error now in
      try! _ := mapped Nwe_Repository (wask (Wo_commit_cancellation
        (mk_cancellation_commit commissioning expected_commissioning_revision
           (progress commissioning commissioning_error) commissioning_repair
           cancellation expected_cancellation_revision
           (progress cancellation cancellation_error) cancellation_repair))) in
      Ret (Ok (mk_cancellation_result commissioning cancellation resolution))
  | _ => Ret (Err Nwe_InvalidOperationTarget)
  end.

(** ** Removal *)

Definition start_remove_node (actor : Actor) (node_id : MatterNodeId)
  (idempotency_key : IdempotencyKey) (now : Instant) : NwResult MatterOperationCreateOutcome :=
  try! _ := ensure_simulator in
  try! installation_id :=
    mapped Nwe_Administration (authorize_installation_action actor Act_MatterRemoveNode) in
  let fabric_id := MatterFabricId.from_installation installation_id in
  try! found := mapped Nwe_Repository
    (wask (Wo_node_inventory_item installation_id fabric_id node_id)) in
  try! record := Ret (ok_or found Nwe_NodeNotFound) in
  guard! negb (bool_decide (dr_lifecycle (iy_device record) = Removed)) else Nwe_NodeNotFound in
  mapped Nwe_Administration
    (admit_operation actor (mk_administration_request Mk_RemoveNode (Mt_Node fabric_id node_id)
                    idempotency_key) now).

Definition complete_node_removal (actor : Actor) (operation : MatterOperation) (now : Instant) :
  NwResult (MatterWorkflowOutcome unit) :=
  match mo_target operation with
  | Mt_Node fabric_id node_id =>
      try! installation_id :=
        mapped Nwe_Administration (authorize_installation_action actor Act_MatterRemoveNode) in
      try! found := mapped Nwe_Repository
        (wask (Wo_node_inventory_item installation_id fabric_id node_id)) in
      try! record := Ret (ok_or found Nwe_NodeNotFound) in
      try! device := Ret (removed_device (iy_device record) now) in
      let expected_revision := mo_revision operation in
      try! operation := Ret (moved operation Mph_Completed now) in
      try! _ := mapped Nwe_Repository (wask (Wo_commit_node_removal
        (mk_removal_commit device fabric_id node_id operation (progress operation None))
        expected_revision)) in
      Ret (Ok (Wf_Completed operation tt))
  | _ => Ret (Err Nwe_InvalidOperationTarget)
  end.

(** Asks the controller for the removal; an error is checked against its nodes. *)
Definition removal_proved (operation : MatterOperation) (fabric_id : MatterFabricId)
  (node_id : MatterNodeId) : MatterProg bool :=
  let! outcome := wask (Wo_remove_node (mk_remove_node (mo_id operation) fabric_id node_id)) in
  match outcome with
  | Ok (Rm_Removed | Rm_NotPresent) => Ret true
  | Ok Rm_PartialOutcome => Ret false
  | Err _ =>
      let! found := wask (Wo_node fabric_id node_id) in
      Ret (match found with Ok None => true | _ => false end)
  end.

Definition run_remove_node (actor : Actor) (operation_id : MatterOperationId) (now : Instant) :
  NwResult (MatterWorkflowOutcome unit) :=
  try! _ := ensure_simulator in
  try! operation := mapped Nwe_Administration
    (owned_operation_for_action actor operation_id Act_MatterRemoveNode) in
  if bool_decide (mo_phase operation = Mph_Completed) then Ret (Ok (Wf_Completed operation tt))
  else if MatterOperationPhase.is_terminal (mo_phase operation)
  then Ret (Ok (Wf_Terminal operation))
  else
    match mo_target operation with
    | Mt_Node fabric_id node_id =>
        (* continues when the node is gone *)
        let continue (operation : MatterOperation) (gone : bool) :=
          if gone then
            try! operation := transition operation Mph_CleaningSecrets now in
            complete_node_removal actor operation now
          else terminal_controller_error actor operation
                 (indeterminate_node_error fabric_id node_id) now in
        if bool_decide (mo_phase operation = Mph_Requested) then
          try! operation := transition operation Mph_RemovingNode now in
          let! gone := removal_proved operation fabric_id node_id in
          continue operation gone
        else if bool_decide (mo_phase operation = Mph_RemovingNode) then
          let! found := wask (Wo_node fabric_id node_id) in
          continue operation (match found with Ok None => true | _ => false end)
        else
          guard! bool_decide (mo_phase operation = Mph_CleaningSecrets)
            else Nwe_InvalidOperationState in
          complete_node_removal actor operation now
    | _ => Ret (Err Nwe_InvalidOperationTarget)
    end.
End Node.
