(* ===== verification/MatterSubscription.v ===== *)
(** Recovery of Matter subscriptions,
    [crates/homemagic-application/src/matter_subscription.rs]: the retry policy,
    the status derived from a stored subscription and the restart-safe recovery
    machine.  SHA-256 and the date library are parameters. *)

From S2P Require Import Prelude Text Json Capability Lifecycle Device Command MatterState CommandStore MatterOperation MatterStore Effects CommandService Identity MatterDescriptor MatterProjection MatterController MatterRepository MatterAdministration MatterFabricWorkflow.

Record MatterSubscriptionRecoveryPolicy := mk_recovery_policy {
  py_maximum_subscribe_attempts : N;
  py_maximum_gap_reads : N;
  py_base_delay_millis : N;
  py_maximum_delay_millis : N;
  py_jitter_millis : N;
  py_sleepy_read_interval_millis : N
}.

Inductive MatterSubscriptionRecoveryPolicyError := recovery_policy_error.

Module MatterSubscriptionRecoveryPolicy.
Definition new (maximum_subscribe_attempts maximum_gap_reads base_delay_millis
                maximum_delay_millis jitter_millis sleepy_read_interval_millis : N) :
  result MatterSubscriptionRecoveryPolicy MatterSubscriptionRecoveryPolicyError :=
  if N.eqb maximum_subscribe_attempts 0
     || N.eqb maximum_gap_reads 0
     || N.eqb base_delay_millis 0
     || (maximum_delay_millis <? base_delay_millis)%N
     || (maximum_delay_millis <? jitter_millis)%N
     || N.eqb sleepy_read_interval_millis 0
  then Err recovery_policy_error
  else Ok (mk_recovery_policy maximum_subscribe_attempts maximum_gap_reads base_delay_millis
             maximum_delay_millis jitter_millis sleepy_read_interval_millis).

Definition default : MatterSubscriptionRecoveryPolicy :=
  mk_recovery_policy 5 1 500 30000 250 60000.
End MatterSubscriptionRecoveryPolicy.

Inductive MatterSubscriptionDiagnosticState :=
| Sds_Established | Sds_Stale | Sds_Waiting | Sds_Exhausted | Sds_RepairRequired.

Inductive MatterSubscriptionRemediation :=
| Srm_None | Srm_WaitForRetry | Srm_WaitForSleepyRead | Srm_RequestGapRepair
| Srm_RequestResubscribe | Srm_RetryBudgetExhausted | Srm_ExplicitRepairRequired.

Record MatterSubscriptionRecoveryStatus := mk_recovery_status {
  srs_state : MatterSubscriptionDiagnosticState;
  srs_remediation : MatterSubscriptionRemediation;
  srs_stale : bool;
  srs_subscribe_attempts : N;
  srs_maximum_subscribe_attempts : N;
  srs_gap_reads : N;
  srs_maximum_gap_reads : N;
  srs_retry_at : option Instant;
  srs_next_gap_read_at : option Instant
}.

(** ** Deadlines *)

Section Deadlines.
Context `{Chrono}.

Definition add_millis (time : Instant) (millis : N) : option Instant :=
  millis ← i64_try_from_u64 millis;
  checked_add_signed time (delta_millis millis).

(** [now < deadline] for an optional deadline. *)
Definition before (now : Instant) (deadline : option Instant) : bool :=
  match deadline with Some deadline => (now <? deadline)%Z | None => false end.

Definition matter_subscription_status (stored : StoredMatterSubscription) (now : Instant) :
  MatterSubscriptionRecoveryStatus :=
  let recovery := sb_recovery stored in
  let is_stale := negb (bool_decide (sb_state stored = Sst_Established))
                  || (sb_stale_after stored <=? now)%Z in
  let next_gap_read_at :=
    if sv_sleepy recovery then
      last ← sv_last_gap_read_at recovery;
      add_millis last (sv_sleepy_read_interval_millis recovery)
    else None in
  let invalid_budget := N.eqb (sv_maximum_subscribe_attempts recovery) 0
    || N.eqb (sv_maximum_gap_reads recovery) 0
    || N.eqb (sv_sleepy_read_interval_millis recovery) 0 in
  let '(state, remediation) :=
    if bool_decide (sb_state stored = Sst_RepairRequired) || invalid_budget
    then (Sds_RepairRequired, Srm_ExplicitRepairRequired)
    else if negb is_stale then (Sds_Established, Srm_None)
    else if (sv_maximum_subscribe_attempts recovery <=? sv_subscribe_attempts recovery)%N
    then (Sds_Exhausted, Srm_RetryBudgetExhausted)
    else if before now (sv_retry_at recovery) then (Sds_Waiting, Srm_WaitForRetry)
    else if before now next_gap_read_at then (Sds_Waiting, Srm_WaitForSleepyRead)
    else if (sv_maximum_gap_reads recovery <=? sv_gap_reads recovery)%N
    then (Sds_Stale, Srm_RequestResubscribe)
    else (Sds_Stale, Srm_RequestGapRepair) in
  mk_recovery_status state remediation is_stale (sv_subscribe_attempts recovery)
    (sv_maximum_subscribe_attempts recovery) (sv_gap_reads recovery)
    (sv_maximum_gap_reads recovery) (sv_retry_at recovery) next_gap_read_at.
End Deadlines.

(** ** Retries *)

(** [u64::from_be_bytes]. *)
Definition be_bytes (bytes : list N) : N := fold_left (fun n b => (n * 256 + b)%N) bytes 0%N.

Section Retry.
Context `{Chrono} `{Sha256}.

Definition deterministic_jitter (subscription_id : MatterSubscriptionId) (attempt maximum : N) : N :=
  if N.eqb maximum 0 then 0
  else
    let digest := sha256 (bytes (subscription_id +:+ ":" +:+ show_N attempt)) in
    N.modulo (be_bytes (firstn 8 digest)) (u64_saturating_add maximum 1).

(** The exponential delay of an attempt, with its jitter and ceiling. *)
Definition retry_delay (subscription_id : MatterSubscriptionId) (attempt : N)
  (policy : MatterSubscriptionRecoveryPolicy) : N :=
  let exponent := N.min (attempt - 1) 31 in
  let base := u64_saturating_mul (py_base_delay_millis policy) (N.shiftl 1 exponent) in
  let jitter := deterministic_jitter subscription_id attempt (py_jitter_millis policy) in
  N.min (u64_saturating_add base jitter) (py_maximum_delay_millis policy).

Definition matter_subscription_retry_at (subscription_id : MatterSubscriptionId) (attempt : N)
  (now : Instant) (policy : MatterSubscriptionRecoveryPolicy) : option Instant :=
  add_millis now (retry_delay subscription_id attempt policy).
End Retry.

(** ** The recovery machine *)

Inductive MatterSubscriptionRecoveryAction :=
| Rac_MarkStale (reason : MatterSubscriptionLossReason)
| Rac_GapRead (request : MatterReadRequest)
| Rac_Resubscribe (request : MatterSubscriptionRequest)
| Rac_WaitUntil (deadline : Instant)
| Rac_RepairRequired
| Rac_Complete.

Inductive MatterSubscriptionRecoveryOutcome :=
| Rou_StalePersisted | Rou_GapReadCompleted | Rou_GapReadFailed | Rou_Resubscribed
| Rou_ResubscribeFailed.

Inductive RecoveryPhase :=
| Rph_MarkStale | Rph_GapRead | Rph_Resubscribe | Rph_Waiting | Rph_Complete | Rph_RepairRequired.
#[export] Instance RecoveryPhase_eq_dec : EqDecision RecoveryPhase.
Proof. solve_decision. Defined.

Inductive MatterSubscriptionRecoveryError := Sre_UnexpectedOutcome.

Record MatterSubscriptionRecovery := mk_machine {
  mc_subscription_id : MatterSubscriptionId;
  mc_fabric_id : MatterFabricId;
  mc_node_id : MatterNodeId;
  mc_selection : list MatterAttributePath;
  mc_minimum_interval_millis : N;
  mc_maximum_interval_millis : N;
  mc_loss_reason : MatterSubscriptionLossReason;
  mc_sleepy : bool;
  mc_last_gap_read_at : option Instant;
  mc_gap_reads : N;
  mc_subscribe_attempts : N;
  mc_retry_at : option Instant;
  mc_phase : RecoveryPhase;
  mc_policy : MatterSubscriptionRecoveryPolicy
}.

(** The parts of the machine its steps change. *)
Definition advance (self : MatterSubscriptionRecovery) (last_gap_read_at : option Instant)
  (gap_reads subscribe_attempts : N) (retry_at : option Instant) (phase : RecoveryPhase) :
  MatterSubscriptionRecovery :=
  mk_machine (mc_subscription_id self) (mc_fabric_id self) (mc_node_id self) (mc_selection self)
    (mc_minimum_interval_millis self) (mc_maximum_interval_millis self) (mc_loss_reason self)
    (mc_sleepy self) last_gap_read_at gap_reads subscribe_attempts retry_at phase (mc_policy self).

Module MatterSubscriptionRecovery.
Definition after_loss (subscription_id : MatterSubscriptionId) (fabric_id : MatterFabricId)
  (node_id : MatterNodeId) (selection : list MatterAttributePath)
  (minimum_interval_millis maximum_interval_millis : N) (reason : MatterSubscriptionLossReason)
  (sleepy : bool) (last_gap_read_at : option Instant)
  (policy : MatterSubscriptionRecoveryPolicy) : MatterSubscriptionRecovery :=
  mk_machine subscription_id fabric_id node_id selection minimum_interval_millis
    maximum_interval_millis reason sleepy last_gap_read_at 0 0 None Rph_MarkStale policy.

Definition from_stored (stored : StoredMatterSubscription) (selection : list MatterAttributePath)
  (minimum_interval_millis maximum_interval_millis : N)
  (policy : MatterSubscriptionRecoveryPolicy) : MatterSubscriptionRecovery :=
  let recovery := sb_recovery stored in
  let policy := mk_recovery_policy (sv_maximum_subscribe_attempts recovery)
    (sv_maximum_gap_reads recovery) (py_base_delay_millis policy) (py_maximum_delay_millis policy)
    (py_jitter_millis policy) (sv_sleepy_read_interval_millis recovery) in
  let loss_reason :=
    default (if bool_decide (sb_state stored = Sst_Established) then Loss_ControllerRestarted
             else Loss_ReportGap) (sv_gap_reason recovery) in
  let phase :=
    match sb_state stored with
    | Sst_Established => Rph_MarkStale
    | Sst_RepairRequired => Rph_RepairRequired
    | Sst_Pending | Sst_Stale =>
        if bool_decide (is_Some (sv_retry_at recovery)) then Rph_Waiting
        else if (sv_gap_reads recovery <? sv_maximum_gap_reads recovery)%N then Rph_GapRead
        else Rph_Resubscribe
    end in
  mk_machine (sb_subscription_id stored) (sb_fabric_id stored) (sb_node_id stored) selection
    minimum_interval_millis maximum_interval_millis loss_reason (sv_sleepy recovery)
    (sv_last_gap_read_at recovery) (sv_gap_reads recovery) (sv_subscribe_attempts recovery)
    (sv_retry_at recovery) phase policy.

Definition checkpoint (self : MatterSubscriptionRecovery) : StoredMatterSubscriptionRecovery :=
  mk_recovery
    (if negb (bool_decide (mc_phase self = Rph_Complete)) then Some (mc_loss_reason self) else None)
    (mc_sleepy self) (mc_gap_reads self) (py_maximum_gap_reads (mc_policy self))
    (mc_subscribe_attempts self) (py_maximum_subscribe_attempts (mc_policy self))
    (mc_retry_at self) (mc_last_gap_read_at self) (py_sleepy_read_interval_millis (mc_policy self)).

Section Steps.
Context `{Chrono} `{Sha256}.

Definition gap_read_allowed (self : MatterSubscriptionRecovery) (now : Instant) : bool :=
  if (py_maximum_gap_reads (mc_policy self) <=? mc_gap_reads self)%N then false
  else negb (mc_sleepy self)
       || match mc_last_gap_read_at self with
          | None => true
          | Some last =>
              match add_millis last (py_sleepy_read_interval_millis (mc_policy self)) with
              | None => true
              | Some allowed_at => (allowed_at <=? now)%Z
              end
          end.

Definition retry_delay_millis (self : MatterSubscriptionRecovery) : N :=
  retry_delay (mc_subscription_id self) (mc_subscribe_attempts self) (mc_policy self).

(** The machine after the call, which may leave [Waiting], and its action. *)
Definition next_action (self : MatterSubscriptionRecovery) (now : Instant) :
  MatterSubscriptionRecovery * MatterSubscriptionRecoveryAction :=
  let waiting := bool_decide (mc_phase self = Rph_Waiting) in
  if waiting && before now (mc_retry_at self)
  then (self, Rac_WaitUntil (default now (mc_retry_at self)))
  else
    let self := if waiting
                then advance self (mc_last_gap_read_at self) (mc_gap_reads self)
                       (mc_subscribe_attempts self) (mc_retry_at self) Rph_Resubscribe
                else self in
    (self,
     match mc_phase self with
     | Rph_MarkStale => Rac_MarkStale (mc_loss_reason self)
     | Rph_GapRead =>
         if gap_read_allowed self now
         then Rac_GapRead (mk_read (mc_fabric_id self) (mc_node_id self) (mc_selection self))
         else Rac_WaitUntil (default now
                (last ← mc_last_gap_read_at self;
                 add_millis last (py_sleepy_read_interval_millis (mc_policy self))))
     | Rph_Resubscribe =>
         match MatterSubscriptionRequest.new (mc_subscription_id self) (mc_fabric_id self)
                 (mc_node_id self) (mc_selection self) (mc_minimum_interval_millis self)
                 (mc_maximum_interval_millis self) with
         | Ok request => Rac_Resubscribe request
         | Err _ => Rac_RepairRequired
         end
     | Rph_Waiting => Rac_WaitUntil now
     | Rph_Complete => Rac_Complete
     | Rph_RepairRequired => Rac_RepairRequired
     end).

Definition record_outcome (self : MatterSubscriptionRecovery)
  (outcome : MatterSubscriptionRecoveryOutcome) (now : Instant) :
  result MatterSubscriptionRecovery MatterSubscriptionRecoveryError :=
  match mc_phase self, outcome with
  | Rph_MarkStale, Rou_StalePersisted =>
      Ok (advance self (mc_last_gap_read_at self) (mc_gap_reads self) (mc_subscribe_attempts self)
            (mc_retry_at self) Rph_GapRead)
  | Rph_GapRead, (Rou_GapReadCompleted | Rou_GapReadFailed) =>
      Ok (advance self (Some now) (u8_saturating_add (mc_gap_reads self) 1)
            (mc_subscribe_attempts self) (mc_retry_at self) Rph_Resubscribe)
  | Rph_Resubscribe, Rou_Resubscribed =>
      Ok (advance self (mc_last_gap_read_at self) 0 0 None Rph_Complete)
  | Rph_Resubscribe, Rou_ResubscribeFailed =>
      let attempts := u8_saturating_add (mc_subscribe_attempts self) 1 in
      let tried := advance self (mc_last_gap_read_at self) (mc_gap_reads self) attempts
                     (mc_retry_at self) (mc_phase self) in
      if (py_maximum_subscribe_attempts (mc_policy self) <=? attempts)%N
      then Ok (advance tried (mc_last_gap_read_at tried) (mc_gap_reads tried) attempts
                 (mc_retry_at tried) Rph_RepairRequired)
      else Ok (advance tried (mc_last_gap_read_at tried) (mc_gap_reads tried) attempts
                 (add_millis now (retry_delay_millis tried)) Rph_Waiting)
  | _, _ => Err Sre_UnexpectedOutcome
  end.
End Steps.
End MatterSubscriptionRecovery.

(** * The explicit repair of a subscription,
    [crates/homemagic-application/src/matter_subscription_repair.rs]: it marks the
    node stale, reads the gap, and subscribes with a bounded number of attempts
    that are reserved durably before each call. *)

Definition SUBSCRIPTION_MINIMUM_INTERVAL_MILLIS : N := 1000.
Definition SUBSCRIPTION_MAXIMUM_INTERVAL_MILLIS : N := 60000.

Inductive MatterSubscriptionRepairOutcome :=
| Sro_Waiting (operation : MatterOperation) (retry_at : Instant)
| Sro_Completed (operation : MatterOperation)
| Sro_RepairRequired (operation : MatterOperation).

Inductive MatterSubscriptionRepairError :=
| Spe_Administration (error : MatterAdministrationError)
| Spe_OperationNotFound | Spe_SubscriptionNotFound | Spe_InvalidPhase | Spe_InvalidProjection
| Spe_InvalidRetryDeadline
| Spe_Repository (error : BoxError).

(** ** The durable writes of each step *)

Section Writes.
Context `{SerdeJson}.

(** The subscription with a new state, recovery and revision. *)
Definition updated (subscription : StoredMatterSubscription) (state : StoredMatterSubscriptionState)
  (report_sequence : N) (stale_after : Instant) (recovery : StoredMatterSubscriptionRecovery)
  (now : Instant) : StoredMatterSubscription :=
  mk_subscription (sb_subscription_id subscription) (sb_fabric_id subscription)
    (sb_node_id subscription) state report_sequence stale_after recovery
    (u64_saturating_add (sb_revision subscription) 1) now.

(** The recovery facts, with other counts and times. *)
Definition recovery_with (recovery : StoredMatterSubscriptionRecovery) (attempts : N)
  (retry_at last_gap_read_at : option Instant) : StoredMatterSubscriptionRecovery :=
  mk_recovery (sv_gap_reason recovery) (sv_sleepy recovery) (sv_gap_reads recovery)
    (sv_maximum_gap_reads recovery) attempts (sv_maximum_subscribe_attempts recovery) retry_at
    last_gap_read_at (sv_sleepy_read_interval_millis recovery).

(** Recovery facts at the bounds of the policy. *)
Definition fresh_recovery (policy : MatterSubscriptionRecoveryPolicy)
  (recovery : StoredMatterSubscriptionRecovery) (gap_reason : option MatterSubscriptionLossReason)
  (gap_reads : N) : StoredMatterSubscriptionRecovery :=
  mk_recovery gap_reason (sv_sleepy recovery) gap_reads (py_maximum_gap_reads policy) 0
    (py_maximum_subscribe_attempts policy) None (sv_last_gap_read_at recovery)
    (py_sleepy_read_interval_millis policy).

Definition begun_subscription (policy : MatterSubscriptionRecoveryPolicy)
  (subscription : StoredMatterSubscription) (now : Instant) : StoredMatterSubscription :=
  updated subscription Sst_RepairRequired (sb_report_sequence subscription)
    (sb_stale_after subscription)
    (fresh_recovery policy (sb_recovery subscription) (Some Loss_ReportGap) 1) now.

Definition read_subscription (subscription : StoredMatterSubscription) (now : Instant) :
  StoredMatterSubscription :=
  updated subscription (sb_state subscription) (sb_report_sequence subscription)
    (sb_stale_after subscription) (recovery_with (sb_recovery subscription) 1 None (Some now)) now.

(** A consumed attempt; the deadline is cleared before the call. *)
Definition reserved_subscription (subscription : StoredMatterSubscription) (now : Instant) :
  StoredMatterSubscription :=
  let recovery := sb_recovery subscription in
  updated subscription (sb_state subscription) (sb_report_sequence subscription)
    (sb_stale_after subscription)
    (recovery_with recovery (u8_saturating_add (sv_subscribe_attempts recovery) 1) None
       (sv_last_gap_read_at recovery)) now.

Definition waiting_subscription (subscription : StoredMatterSubscription) (retry_at now : Instant) :
  StoredMatterSubscription :=
  let recovery := sb_recovery subscription in
  updated subscription (sb_state subscription) (sb_report_sequence subscription)
    (sb_stale_after subscription)
    (recovery_with recovery (sv_subscribe_attempts recovery) (Some retry_at)
       (sv_last_gap_read_at recovery)) now.

Definition exhausted_subscription (subscription : StoredMatterSubscription) (now : Instant) :
  StoredMatterSubscription :=
  let recovery := sb_recovery subscription in
  updated subscription Sst_RepairRequired (sb_report_sequence subscription)
    (sb_stale_after subscription)
    (recovery_with recovery (sv_subscribe_attempts recovery) None (sv_last_gap_read_at recovery)) now.

(** A projection at its next revision. *)
Definition projection_write (stored : StoredMatterProjection) (state : MatterProjectedState)
  (now : Instant) : MatterSubscriptionProjectionWrite :=
  mk_projection_write
    (mk_projection (sp_installation_id stored) (sp_fabric_id stored) (sp_node_id stored)
       (sp_endpoint_number stored) (sp_projection_id stored) (sp_device_id stored)
       (sp_endpoint_id stored) (sp_capability_schema stored) (sp_projection_revision stored) state
       (u64_saturating_add (sp_revision stored) 1) now)
    (sp_revision stored).

Definition invalid_projection {A E : Type} (r : result A E) :
  result A MatterSubscriptionRepairError := map_err (fun _ => Spe_InvalidProjection) r.

Definition stale_write (now : Instant) (stored : StoredMatterProjection) :
  result MatterSubscriptionProjectionWrite MatterSubscriptionRepairError :=
  let? state := invalid_projection (mark_matter_projection_stale (sp_state stored) Mu_ReportGap) in
  Ok (projection_write stored state now).

(** The state of a projection after the gap read. *)
Definition gap_state (capabilities : list MatterCapabilityProjection)
  (reports : option (list MatterAttributeReport)) (now : Instant) (stored : StoredMatterProjection) :
  result MatterProjectedState MatterSubscriptionRepairError :=
  let state := sp_state stored in
  let? rule := ok_or (List.find (fun candidate =>
      String.eqb (cpj_projection_id candidate) (sp_projection_id stored)) capabilities)
      Spe_InvalidProjection in
  let report := items ← reports;
    List.find (fun report => bool_decide (rp_path report = cpj_report_path rule)) items in
  match report with
  | None => invalid_projection (mark_matter_projection_stale state Mu_ReadFailed)
  | Some report =>
      let causation := mk_report_causation None in
      match normalize_matter_report rule report now (mp_reported state) Src_RefreshFallback
              causation with
      | Dec_Applied reported _ _ =>
          invalid_projection (advance_matter_projected_state state reported causation)
      | Dec_Duplicate =>
          match mp_reported state with
          | Some reported => invalid_projection (advance_matter_projected_state state reported causation)
          | None => Ok state
          end
      | Dec_Rejected _ => Ok state
      end
  end.

Definition gap_write (capabilities : list MatterCapabilityProjection)
  (reports : option (list MatterAttributeReport)) (now : Instant) (stored : StoredMatterProjection) :
  result MatterSubscriptionProjectionWrite MatterSubscriptionRepairError :=
  let? state := gap_state capabilities reports now stored in
  Ok (projection_write stored state now).

(** [collect::<Result<Vec<_>, _>>()]. *)
Definition collect_writes
  (f : StoredMatterProjection -> result MatterSubscriptionProjectionWrite MatterSubscriptionRepairError)
  (projections : list StoredMatterProjection) :
  result (list MatterSubscriptionProjectionWrite) MatterSubscriptionRepairError :=
  try_fold (fun writes stored => let? write := f stored in Ok (writes ++ [write])) [] projections.

(** The paths of all capabilities of a node. *)
Definition node_selection (projected : MatterNodeProjection) :
  result (list MatterAttributePath) MatterSubscriptionRepairError :=
  invalid_projection (MatterAttributeSelection.new (map cpj_report_path (np_capabilities projected))).

Definition subscription_lost (subscription : StoredMatterSubscription) : MatterControllerError :=
  mk_controller_error Cat_Protocol Code_SubscriptionLost Retry_Safe
    (Some (Res_Node (sb_fabric_id subscription) (sb_node_id subscription))) None.

Definition ambiguous_dispatch (operation : MatterOperation) : MatterControllerError :=
  mk_controller_error Cat_Conflict Code_OutcomeIndeterminate Retry_AfterRepair
    (Some (Res_Operation (mo_id operation))) None.
End Writes.

(** ** The service *)

Section Repair.
Context `{SerdeJson} `{MatterRequestDigest} `{Uuids} `{Chrono} `{Sha256}.
Context (policy : MatterSubscriptionRecoveryPolicy).

Abbreviation SpResult A := (MatterProg (result A MatterSubscriptionRepairError)).

Definition stored_record (installation_id : InstallationId) (fabric_id : MatterFabricId)
  (node_id : MatterNodeId) : SpResult (MatterNodeInventoryRecord * StoredMatterSubscription) :=
  try! found := mapped Spe_Repository
    (wask (Wo_node_inventory_item installation_id fabric_id node_id)) in
  try! record := Ret (ok_or found Spe_SubscriptionNotFound) in
  try! subscription := Ret (ok_or (iy_subscription record) Spe_SubscriptionNotFound) in
  Ret (Ok (record, subscription)).

Definition start (actor : Actor) (fabric_id : MatterFabricId) (node_id : MatterNodeId)
  (idempotency_key : IdempotencyKey) (now : Instant) : SpResult MatterOperationCreateOutcome :=
  try! installation_id :=
    mapped Spe_Administration (authorize_installation_action actor Act_MatterRepairSubscription) in
  try! _ := stored_record installation_id fabric_id node_id in
  mapped Spe_Administration
    (admit_operation actor (mk_administration_request Mk_RepairSubscription (Mt_Node fabric_id node_id)
                    idempotency_key) now).

Definition inventory (actor : Actor) (operation : MatterOperation) :
  SpResult (MatterNodeInventoryRecord * StoredMatterSubscription) :=
  match mo_target operation with
  | Mt_Node fabric_id node_id =>
      try! installation_id := mapped Spe_Administration
        (authorize_installation_action actor Act_MatterRepairSubscription) in
      stored_record installation_id fabric_id node_id
  | _ => Ret (Err Spe_InvalidPhase)
  end.

Definition commit (operation : MatterOperation) (expected_operation_revision : N)
  (subscription : StoredMatterSubscription) (expected_subscription_revision : N)
  (projections : list MatterSubscriptionProjectionWrite) (repair : option MatterRepairRecord) :
  SpResult unit :=
  mapped Spe_Repository (wask (Wo_commit_subscription_repair
    (mk_repair_commit operation expected_operation_revision
       (progress operation (mx_error <$> repair)) subscription expected_subscription_revision
       projections repair))).

Definition moved (operation : MatterOperation) (next : MatterOperationPhase) (now : Instant) :
  result MatterOperation MatterSubscriptionRepairError :=
  map_err (fun _ => Spe_InvalidPhase) (MatterOperation.transition operation next now).

Definition begin_gap (actor : Actor) (operation : MatterOperation) (now : Instant) :
  SpResult MatterOperation :=
  try! (record, subscription) := inventory actor operation in
  try! projections := Ret (collect_writes (stale_write now) (iy_projections record)) in
  try! next := Ret (moved operation Mph_ReadingGap now) in
  try! _ := commit next (mo_revision operation) (begun_subscription policy subscription now)
              (sb_revision subscription) projections None in
  Ret (Ok next).

Definition read_gap (actor : Actor) (operation : MatterOperation) (now : Instant) :
  SpResult MatterOperation :=
  try! (record, subscription) := inventory actor operation in
  let projected :=
    project_matter_node (sn_installation_id (iy_node record)) (sn_descriptor (iy_node record)) in
  guard! negb (bool_decide (length (np_capabilities projected) = 0)) else Spe_InvalidProjection in
  try! selection := Ret (node_selection projected) in
  let! read := wask (Wo_read (mk_read (sb_fabric_id subscription) (sb_node_id subscription) selection)) in
  try! projections := Ret (collect_writes
    (gap_write (np_capabilities projected) (result_ok read) now) (iy_projections record)) in
  try! next := Ret (moved operation Mph_Subscribing now) in
  try! _ := commit next (mo_revision operation) (read_subscription subscription now)
              (sb_revision subscription) projections None in
  Ret (Ok next).

(** The operation ends with the evidence of what is to be repaired. *)
Definition end_repair (operation : MatterOperation) (subscription : StoredMatterSubscription)
  (error : MatterControllerError) (now : Instant) : SpResult MatterSubscriptionRepairOutcome :=
  try! next := Ret (moved operation Mph_RepairRequired now) in
  let! id := wask Wo_new_id in
  try! _ := commit next (mo_revision operation) (exhausted_subscription subscription now)
              (sb_revision subscription) [] (Some (open_repair id next error now)) in
  Ret (Ok (Sro_RepairRequired next)).

Definition record_subscribe_failure (operation : MatterOperation)
  (subscription : StoredMatterSubscription) (error : MatterControllerError) (now : Instant) :
  SpResult MatterSubscriptionRepairOutcome :=
  let recovery := sb_recovery subscription in
  if (sv_maximum_subscribe_attempts recovery <=? sv_subscribe_attempts recovery)%N
  then end_repair operation subscription error now
  else
    try! retry_at := Ret (ok_or
      (matter_subscription_retry_at (sb_subscription_id subscription)
         (sv_subscribe_attempts recovery) now policy) Spe_InvalidRetryDeadline) in
    try! _ := mapped Spe_Repository (wask (Wo_store_subscription
      (waiting_subscription subscription retry_at now) (Some (sb_revision subscription)))) in
    Ret (Ok (Sro_Waiting operation retry_at)).

Definition record_ambiguous_dispatch (actor : Actor) (operation : MatterOperation)
  (now : Instant) : SpResult MatterSubscriptionRepairOutcome :=
  try! (_, subscription) := inventory actor operation in
  end_repair operation subscription (ambiguous_dispatch operation) now.

Definition established_subscription (subscription : StoredMatterSubscription)
  (status : MatterSubscriptionStatus) (now : Instant) : StoredMatterSubscription :=
  updated subscription Sst_Established (ss_report_sequence status)
    (default (ss_verified_at status)
       (checked_add_signed (ss_verified_at status)
          (delta_millis (Z.of_N SUBSCRIPTION_MAXIMUM_INTERVAL_MILLIS))))
    (fresh_recovery policy (sb_recovery subscription) None 0) now.

(** The call whose attempt is already reserved. *)
Definition dispatch_subscribe (operation : MatterOperation) (record : MatterNodeInventoryRecord)
  (subscription : StoredMatterSubscription) (now : Instant) :
  SpResult MatterSubscriptionRepairOutcome :=
  let projected :=
    project_matter_node (sn_installation_id (iy_node record)) (sn_descriptor (iy_node record)) in
  try! selection := Ret (node_selection projected) in
  try! request := Ret (invalid_projection
    (MatterSubscriptionRequest.new (sb_subscription_id subscription) (sb_fabric_id subscription)
       (sb_node_id subscription) selection SUBSCRIPTION_MINIMUM_INTERVAL_MILLIS
       SUBSCRIPTION_MAXIMUM_INTERVAL_MILLIS)) in
  let! answer := wask (Wo_subscribe request) in
  match answer with
  | Err error => record_subscribe_failure operation subscription error now
  | Ok status =>
      if negb (ss_established status)
      then record_subscribe_failure operation subscription (subscription_lost subscription) now
      else
        try! next := Ret (moved operation Mph_Completed now) in
        try! _ := commit next (mo_revision operation)
                    (established_subscription subscription status now) (sb_revision subscription)
                    [] None in
        Ret (Ok (Sro_Completed next))
  end.

Definition subscribe (actor : Actor) (operation : MatterOperation) (now : Instant)
  (reserved_attempt : bool) : SpResult MatterSubscriptionRepairOutcome :=
  try! (record, subscription) := inventory actor operation in
  match sv_retry_at (sb_recovery subscription) with
  | Some retry_at =>
      if (now <? retry_at)%Z then Ret (Ok (Sro_Waiting operation retry_at))
      else
        let reserved := reserved_subscription subscription now in
        try! _ := mapped Spe_Repository (wask (Wo_store_subscription reserved
                    (Some (sb_revision subscription)))) in
        dispatch_subscribe operation record reserved now
  | None =>
      if reserved_attempt then dispatch_subscribe operation record subscription now
      else record_ambiguous_dispatch actor operation now
  end.

Definition run (actor : Actor) (operation_id : MatterOperationId) (now : Instant) :
  SpResult MatterSubscriptionRepairOutcome :=
  try! operation := mapped Spe_Administration
    (owned_operation_for_action actor operation_id Act_MatterRepairSubscription) in
  guard! bool_decide (mo_kind operation = Mk_RepairSubscription) else Spe_OperationNotFound in
  match mo_phase operation with
  | Mph_Requested =>
      try! operation := begin_gap actor operation now in
      try! operation := read_gap actor operation now in
      subscribe actor operation now true
  | Mph_ReadingGap => record_ambiguous_dispatch actor operation now
  | Mph_Subscribing =>
      try! (_, subscription) := inventory actor operation in
      if bool_decide (is_Some (sv_retry_at (sb_recovery subscription)))
      then subscribe actor operation now false
      else record_ambiguous_dispatch actor operation now
  | Mph_Completed => Ret (Ok (Sro_Completed operation))
  | Mph_RepairRequired => Ret (Ok (Sro_RepairRequired operation))
  | _ => Ret (Err Spe_InvalidPhase)
  end.
End Repair.
