(* ===== verification/MatterExecution.v ===== *)
(** The service boundary of Matter operations: the reads of Matter state
    (the inventory of nodes,
    [crates/homemagic-application/src/matter_inventory.rs], and the diagnostics,
    matter_diagnostics.rs; neither writes nor shows secrets) and the execution,
    matter_execution.rs: the bounded queue between the transport and the daemon,
    and the worker that runs one request at a time. *)

From S2P Require Import Prelude Text Json Capability Lifecycle Device Command MatterState CommandStore MatterOperation MatterStore Effects CommandService Identity MatterDescriptor MatterController MatterRepository MatterAdministration MatterFabricWorkflow MatterNodeWorkflow MatterSubscription.

Definition MAX_NODE_INVENTORY_PAGE : nat := 256.
Definition MAX_DIAGNOSTIC_PAGE : nat := 256.

(** [matter_node_workflow.rs]. *)
Record MatterNodeSummary := mk_node_summary {
  nsm_fabric_id : MatterFabricId;
  nsm_node_id : MatterNodeId;
  nsm_device_id : DeviceId;
  nsm_descriptor_revision : N;
  nsm_revision : N;
  nsm_projection_ids : list MatterProjectionId;
  nsm_subscription_id : option MatterSubscriptionId;
  nsm_commissioning_operation_id : option MatterOperationId;
  nsm_updated_at : Instant
}.

Record MatterNodeProjectionMetadata := mk_projection_metadata {
  npm_projection_id : MatterProjectionId;
  npm_endpoint_id : EndpointId;
  npm_capability_schema : string;
  npm_projection_revision : N;
  npm_revision : N;
  npm_updated_at : Instant
}.

Record MatterNodeSubscriptionMetadata := mk_subscription_metadata {
  nbm_subscription_id : MatterSubscriptionId;
  nbm_state : StoredMatterSubscriptionState;
  nbm_report_sequence : N;
  nbm_stale_after : Instant;
  nbm_revision : N;
  nbm_updated_at : Instant
}.

Record MatterNodeDetail := mk_node_detail {
  ndt_summary : MatterNodeSummary;
  ndt_descriptor : MatterNodeDescriptor;
  ndt_projections : list MatterNodeProjectionMetadata;
  ndt_subscription : option MatterNodeSubscriptionMetadata
}.

Inductive MatterNodeInventoryError :=
| Nie_Administration (error : MatterAdministrationError)
| Nie_InvalidPageLimit | Nie_InvalidState
| Nie_Repository (error : BoxError).

Section Inventory.
Context `{SerdeJson}.

Abbreviation NiResult A := (MatterProg (result A MatterNodeInventoryError)).

Definition summary (record : MatterNodeInventoryRecord) :
  result MatterNodeSummary MatterNodeInventoryError :=
  let node := iy_node record in
  let descriptor := sn_descriptor node in
  guard? forallb (fun projection =>
           String.eqb (sp_installation_id projection) (sn_installation_id node)
           && of_node (nd_fabric_id descriptor) (nd_node_id descriptor) projection
           && String.eqb (sp_device_id projection) (sn_device_id node)) (iy_projections record)
    else Nie_InvalidState in
  Ok (mk_node_summary (nd_fabric_id descriptor) (nd_node_id descriptor) (sn_device_id node)
        (nd_descriptor_revision descriptor) (sn_revision node)
        (map sp_projection_id (iy_projections record)) (sb_subscription_id <$> iy_subscription record)
        (nr_operation_id <$> iy_commissioning_result record) (sn_updated_at node)).

Definition detail (record : MatterNodeInventoryRecord) :
  result MatterNodeDetail MatterNodeInventoryError :=
  let? summary := summary record in
  Ok (mk_node_detail summary (sn_descriptor (iy_node record))
    (map (fun projection =>
       mk_projection_metadata (sp_projection_id projection) (sp_endpoint_id projection)
         (sp_capability_schema projection) (sp_projection_revision projection)
         (sp_revision projection) (sp_updated_at projection)) (iy_projections record))
    ((fun subscription =>
       mk_subscription_metadata (sb_subscription_id subscription) (sb_state subscription)
         (sb_report_sequence subscription) (sb_stale_after subscription) (sb_revision subscription)
         (sb_updated_at subscription)) <$> iy_subscription record)).

Definition summaries (records : list MatterNodeInventoryRecord) :
  result (list MatterNodeSummary) MatterNodeInventoryError :=
  try_fold (fun done record => let? summary := summary record in Ok (done ++ [summary])) [] records.

Definition list_nodes (actor : Actor) (fabric_id : MatterFabricId) (limit : nat) :
  NiResult (list MatterNodeSummary) :=
  guard! negb ((limit =? 0) || (MAX_NODE_INVENTORY_PAGE <? limit)) else Nie_InvalidPageLimit in
  try! installation_id :=
    mapped Nie_Administration (authorize_installation_action actor Act_MatterRead) in
  try! records := mapped Nie_Repository (wask (Wo_node_inventory installation_id fabric_id limit)) in
  Ret (summaries records).

Definition get_node (actor : Actor) (fabric_id : MatterFabricId) (node_id : MatterNodeId) :
  NiResult (option MatterNodeDetail) :=
  try! installation_id :=
    mapped Nie_Administration (authorize_installation_action actor Act_MatterRead) in
  try! found := mapped Nie_Repository
    (wask (Wo_node_inventory_item installation_id fabric_id node_id)) in
  match found with
  | None => Ret (Ok None)
  | Some record => try! detail := Ret (detail record) in Ret (Ok (Some detail))
  end.
End Inventory.

(** ** Diagnostics *)

Inductive MatterSubscriptionFreshness := Sfr_Fresh | Sfr_Stale.
#[export] Instance MatterSubscriptionFreshness_eq_dec : EqDecision MatterSubscriptionFreshness.
Proof. solve_decision. Defined.

Record MatterSubscriptionBudgetDiagnostic := mk_budget {
  bg_used : N;
  bg_maximum : N;
  bg_remaining : N
}.

Record MatterSubscriptionDiagnostic := mk_subscription_diagnostic {
  sd_state : StoredMatterSubscriptionState;
  sd_status : MatterSubscriptionDiagnosticState;
  sd_freshness : MatterSubscriptionFreshness;
  sd_stale : bool;
  sd_repair_eligible : bool;
  sd_report_sequence : N;
  sd_gap_reason : option MatterSubscriptionLossReason;
  sd_gap_reads : MatterSubscriptionBudgetDiagnostic;
  sd_subscribe_attempts : MatterSubscriptionBudgetDiagnostic;
  sd_next_action_at : option Instant;
  sd_remediation : MatterSubscriptionRemediation;
  sd_stale_after : Instant;
  sd_updated_at : Instant
}.

Record MatterNodeDiagnostic := mk_node_diagnostic {
  nz_device_id : DeviceId;
  nz_descriptor_revision : N;
  nz_endpoint_count : nat;
  nz_capability_schemas : list string;
  nz_subscription : option MatterSubscriptionDiagnostic;
  nz_updated_at : Instant
}.

Record MatterOperationDiagnostic := mk_operation_diagnostic {
  oz_operation_id : MatterOperationId;
  oz_kind : MatterOperationKind;
  oz_phase : MatterOperationPhase;
  oz_revision : N;
  oz_updated_at : Instant
}.

Record MatterControllerDiagnostic := mk_controller_diagnostic {
  cz_available : bool;
  cz_node_count : option nat;
  cz_verified_at : option Instant
}.

Record MatterDiagnostics := mk_diagnostics {
  mz_schema : string;
  mz_fabric : option MatterFabricMetadata;
  mz_controller : MatterControllerDiagnostic;
  mz_nodes : list MatterNodeDiagnostic;
  mz_operations : list MatterOperationDiagnostic;
  mz_unresolved_repairs : nat;
  mz_evaluated_at : Instant
}.

Inductive MatterDiagnosticsError :=
| Dge_Administration (error : MatterAdministrationError)
| Dge_InvalidPageLimit
| Dge_Repository (error : BoxError).

Definition budget (used maximum : N) : MatterSubscriptionBudgetDiagnostic :=
  mk_budget used maximum (maximum - used).

Section Diagnostics.
Context `{SerdeJson} `{Uuids} `{Chrono}.

Definition diagnose_subscription (subscription : StoredMatterSubscription) (now : Instant) :
  MatterSubscriptionDiagnostic :=
  let recovery := sb_recovery subscription in
  let status := matter_subscription_status subscription now in
  let freshness :=
    if bool_decide (sb_state subscription = Sst_Established)
       && (now <? sb_stale_after subscription)%Z then Sfr_Fresh else Sfr_Stale in
  mk_subscription_diagnostic (sb_state subscription) (srs_state status) freshness
    (bool_decide (freshness = Sfr_Stale))
    match srs_remediation status with
    | Srm_RequestGapRepair | Srm_RequestResubscribe | Srm_RetryBudgetExhausted
    | Srm_ExplicitRepairRequired => true
    | _ => false
    end
    (sb_report_sequence subscription) (sv_gap_reason recovery)
    (budget (sv_gap_reads recovery) (sv_maximum_gap_reads recovery))
    (budget (sv_subscribe_attempts recovery) (sv_maximum_subscribe_attempts recovery))
    match srs_remediation status with
    | Srm_WaitForRetry => srs_retry_at status
    | Srm_WaitForSleepyRead => srs_next_gap_read_at status
    | _ => None
    end
    (srs_remediation status) (sb_stale_after subscription) (sb_updated_at subscription).

Definition diagnose_node (now : Instant) (record : MatterNodeInventoryRecord) :
  MatterNodeDiagnostic :=
  let node := iy_node record in
  mk_node_diagnostic (sn_device_id node) (nd_descriptor_revision (sn_descriptor node))
    (length (nd_endpoints (sn_descriptor node))) (map sp_capability_schema (iy_projections record))
    ((fun subscription => diagnose_subscription subscription now) <$> iy_subscription record)
    (sn_updated_at node).

Definition diagnose_operation (operation : MatterOperation) : MatterOperationDiagnostic :=
  mk_operation_diagnostic (mo_id operation) (mo_kind operation) (mo_phase operation)
    (mo_revision operation) (mo_updated_at operation).

Definition diagnose_controller (live : option MatterFabricStatus) : MatterControllerDiagnostic :=
  match live with
  | None => mk_controller_diagnostic false None None
  | Some status =>
      mk_controller_diagnostic true (Some (fs_node_count status)) (Some (fs_verified_at status))
  end.

Definition inspect (actor : Actor) (limit : nat) (now : Instant) :
  MatterProg (result MatterDiagnostics MatterDiagnosticsError) :=
  guard! negb ((limit =? 0) || (MAX_DIAGNOSTIC_PAGE <? limit)) else Dge_InvalidPageLimit in
  try! installation_id :=
    mapped Dge_Administration (authorize_installation_action actor Act_MatterRead) in
  let fabric_id := MatterFabricId.from_installation installation_id in
  try! fabric := mapped Dge_Repository (wask (Wo_fabric fabric_id)) in
  try! nodes := mapped Dge_Repository (wask (Wo_node_inventory installation_id fabric_id limit)) in
  try! operations := mapped Dge_Repository (wask (Wo_actor_operations (ac_id actor) limit)) in
  try! recovery := mapped Dge_Repository (wask (Wo_recover_matter installation_id now limit)) in
  let! live := wask (Wo_fabric_status fabric_id) in
  Ret (Ok (mk_diagnostics "matter.diagnostics.v1" (metadata_of <$> fabric)
    (diagnose_controller (match live with Ok status => status | Err _ => None end))
    (map (diagnose_node now) nodes) (map diagnose_operation operations)
    (length (rv_repairs recovery)) now)).
End Diagnostics.

Inductive MatterExecutionError :=
| Xe_Unavailable | Xe_Busy
| Xe_Fabric (error : MatterFabricWorkflowError)
| Xe_Node (error : MatterNodeWorkflowError)
| Xe_Subscription (error : MatterSubscriptionRepairError).

Record MatterSensitiveExport := mk_sensitive_export {
  sx_operation : MatterOperation;
  sx_export : option MatterSimulatorExport
}.

(** A request; the last three carry the channel of their answer. *)
Inductive MatterExecutionRequest :=
| Xq_Create (actor : Actor) (operation_id : MatterOperationId)
| Xq_Remove (actor : Actor) (operation_id : MatterOperationId)
| Xq_Cancel (actor : Actor) (operation_id : MatterOperationId)
| Xq_Repair (actor : Actor) (operation_id : MatterOperationId)
| Xq_Commission (actor : Actor) (operation_id : MatterOperationId) (input : MatterCommissioningInput)
| Xq_Export (actor : Actor) (operation_id : MatterOperationId)
| Xq_Restore (actor : Actor) (operation_id : MatterOperationId) (input : MatterSimulatorRestoreInput).

(** What is sent on the channel of the answer. *)
Inductive MatterExecutionReply :=
| Xr_None
| Xr_Operation (answer : result MatterOperation MatterExecutionError)
| Xr_Export (answer : result MatterSensitiveExport MatterExecutionError).

(** ** The queue *)

Record MatterExecutionQueue := mk_queue {
  xq_capacity : nat;
  xq_open : bool;
  xq_pending : list MatterExecutionRequest
}.

Definition channel (capacity : nat) : MatterExecutionQueue := mk_queue (Nat.max capacity 1) true [].

(** [mpsc::Sender::try_send]. *)
Definition try_send (queue : MatterExecutionQueue) (request : MatterExecutionRequest) :
  result MatterExecutionQueue MatterExecutionError :=
  if negb (xq_open queue) then Err Xe_Unavailable
  else if xq_capacity queue <=? length (xq_pending queue) then Err Xe_Busy
  else Ok (mk_queue (xq_capacity queue) true (xq_pending queue ++ [request])).

Definition wake_create (queue : MatterExecutionQueue) (actor : Actor)
  (operation_id : MatterOperationId) : result MatterExecutionQueue MatterExecutionError :=
  try_send queue (Xq_Create actor operation_id).
Definition wake_remove (queue : MatterExecutionQueue) (actor : Actor)
  (operation_id : MatterOperationId) : result MatterExecutionQueue MatterExecutionError :=
  try_send queue (Xq_Remove actor operation_id).
Definition wake_cancel (queue : MatterExecutionQueue) (actor : Actor)
  (operation_id : MatterOperationId) : result MatterExecutionQueue MatterExecutionError :=
  try_send queue (Xq_Cancel actor operation_id).
Definition wake_repair (queue : MatterExecutionQueue) (actor : Actor)
  (operation_id : MatterOperationId) : result MatterExecutionQueue MatterExecutionError :=
  try_send queue (Xq_Repair actor operation_id).

(** [mpsc::Sender::send]: waits (no answer) while the queue is full. *)
Definition send (queue : MatterExecutionQueue) (request : MatterExecutionRequest) :
  option (result MatterExecutionQueue MatterExecutionError) :=
  if negb (xq_open queue) then Some (Err Xe_Unavailable)
  else if xq_capacity queue <=? length (xq_pending queue) then None
  else Some (Ok (mk_queue (xq_capacity queue) true (xq_pending queue ++ [request]))).

(** The oldest request is received first. *)
Definition receive (queue : MatterExecutionQueue) :
  option (MatterExecutionRequest * MatterExecutionQueue) :=
  match xq_pending queue with
  | [] => None
  | request :: pending => Some (request, mk_queue (xq_capacity queue) (xq_open queue) pending)
  end.

(** ** The worker *)

Definition operation_from_outcome {T : Type} (outcome : MatterWorkflowOutcome T) : MatterOperation :=
  match outcome with Wf_Completed operation _ | Wf_Terminal operation => operation end.

Definition export_from_outcome (outcome : MatterWorkflowOutcome MatterSimulatorExport) :
  MatterSensitiveExport :=
  match outcome with
  | Wf_Completed operation value => mk_sensitive_export operation (Some value)
  | Wf_Terminal operation => mk_sensitive_export operation None
  end.

Section Worker.
Context `{SerdeJson} `{MatterRequestDigest} `{Uuids} `{Chrono} `{Sha256}.
Context (policy : MatterSubscriptionRecoveryPolicy).

Abbreviation XeResult A := (MatterProg (result A MatterExecutionError)).

(** An error of a request without answer ends the worker's turn. *)
Definition unanswered {A E : Type} (f : E -> MatterExecutionError) (m : MatterProg (result A E)) :
  XeResult MatterExecutionReply :=
  try! _ := mapped f m in Ret (Ok Xr_None).

Definition answered {A B E : Type} (f : A -> B) (g : E -> MatterExecutionError)
  (m : MatterProg (result A E)) : MatterProg (result B MatterExecutionError) :=
  let! r := m in Ret (match r with Ok a => Ok (f a) | Err e => Err (g e) end).

Definition execute (request : MatterExecutionRequest) : XeResult MatterExecutionReply :=
  let! now := wask Wo_now in
  match request with
  | Xq_Create actor operation_id => unanswered Xe_Fabric (run_create actor operation_id now)
  | Xq_Remove actor operation_id => unanswered Xe_Node (run_remove_node actor operation_id now)
  | Xq_Cancel actor operation_id =>
      unanswered Xe_Node (run_cancel_commissioning actor operation_id now)
  | Xq_Repair actor operation_id => unanswered Xe_Subscription (run policy actor operation_id now)
  | Xq_Commission actor operation_id input =>
      let! r := answered operation_from_outcome Xe_Node
                  (run_commission actor operation_id input now) in
      Ret (Ok (Xr_Operation r))
  | Xq_Export actor operation_id =>
      let! r := answered export_from_outcome Xe_Fabric (run_export actor operation_id now) in
      Ret (Ok (Xr_Export r))
  | Xq_Restore actor operation_id input =>
      let! r := answered operation_from_outcome Xe_Fabric
                  (run_simulator_restore actor operation_id input now) in
      Ret (Ok (Xr_Operation r))
  end.

(** [Ok false] when the channel is closed and drained; an open and empty channel
    does not return. *)
Definition run_next (queue : MatterExecutionQueue) :
  option (MatterExecutionQueue * XeResult (bool * MatterExecutionReply)) :=
  match receive queue with
  | Some (request, queue) =>
      Some (queue, try! reply := execute request in Ret (Ok (true, reply)))
  | None => if xq_open queue then None else Some (queue, Ret (Ok (false, Xr_None)))
  end.
End Worker.
