(* ===== verification/MatterTokens.v ===== *)
(** What a task of the Matter services may do, followed through its programs.  A
    task holds the identities it drew, the versions of operations it knows to be
    stored, the bindings and the grants it read, and one token for an operation
    whose first move it committed; an effect of the controller consumes the token.
    The file proves that every call performs only what its tokens justify. *)

From S2P Require Import Prelude Text Json Capability Lifecycle Device Command MatterState CommandStore MatterOperation MatterStore Identity Effects CommandService MatterDescriptor MatterController MatterRepository MatterHistory MatterAdministration MatterFabricWorkflow MatterNodeWorkflow MatterSubscription MatterExecution.

Record MatterTokens := mk_matter_tokens {
  mt_fresh : gset string;
  mt_started : gmap string MatterOperation;
  mt_seen : list MatterOperation;
  mt_bound : list MatterOperationBinding;
  mt_security : list ActorSecurity
}.

Definition no_matter_tokens : MatterTokens := mk_matter_tokens ∅ ∅ [] [] [].

Definition add_id (id : string) (t : MatterTokens) : MatterTokens :=
  mk_matter_tokens ({[id]} ∪ mt_fresh t) (mt_started t) (mt_seen t) (mt_bound t) (mt_security t).
Definition drop_id (id : string) (t : MatterTokens) : MatterTokens :=
  mk_matter_tokens (mt_fresh t ∖ {[id]}) (mt_started t) (mt_seen t) (mt_bound t) (mt_security t).
Definition add_seen (o : MatterOperation) (t : MatterTokens) : MatterTokens :=
  mk_matter_tokens (mt_fresh t) (mt_started t) (o :: mt_seen t) (mt_bound t) (mt_security t).
Definition add_started (o : MatterOperation) (t : MatterTokens) : MatterTokens :=
  mk_matter_tokens (mt_fresh t) (<[mo_id o := o]> (mt_started t)) (mt_seen t) (mt_bound t)
    (mt_security t).
Definition drop_started (id : MatterOperationId) (t : MatterTokens) : MatterTokens :=
  mk_matter_tokens (mt_fresh t) (delete id (mt_started t)) (mt_seen t) (mt_bound t) (mt_security t).
Definition add_bound (b : MatterOperationBinding) (t : MatterTokens) : MatterTokens :=
  mk_matter_tokens (mt_fresh t) (mt_started t) (mt_seen t) (b :: mt_bound t) (mt_security t).
Definition add_security (s : ActorSecurity) (t : MatterTokens) : MatterTokens :=
  mk_matter_tokens (mt_fresh t) (mt_started t) (mt_seen t) (mt_bound t) (s :: mt_security t).

(** The first move of an operation was written. *)
Definition moved_first (o : MatterOperation) (t : MatterTokens) : MatterTokens :=
  if N.eqb (mo_revision o) 2 then add_started o t else t.

(** The binding of an operation names an actor whose grants, as read, allow the
    action of the operation. *)
Definition authorised (o : MatterOperation) (b : MatterOperationBinding) (s : ActorSecurity) : Prop :=
  bd_operation_id b = mo_id o /\ bd_actor_id b = ac_id (as_actor s) /\
  bd_action b = action_for_kind (mo_kind o) /\
  authorized s (action_for_kind (mo_kind o)) = Ok tt.

Section Matter.
Context `{SerdeJson} `{MatterRequestDigest} `{Uuids} `{Chrono} `{Sha256}.

(** The operation whose effect on the controller [op] is: its identity, its kind,
    and the fabric and the node it names are those of the request. *)
Definition effect_id (op : MatterOp) : option MatterOperationId :=
  match op with
  | Wo_create_fabric q => Some (cf_operation_id q)
  | Wo_commission q => Some (cmr_operation_id q)
  | Wo_remove_node q => Some (rn_operation_id q)
  | Wo_export_fabric q => Some (xr_operation_id q)
  | Wo_restore_fabric q => Some (rs_operation_id q)
  | _ => None
  end.

Definition effect_of (op : MatterOp) (o : MatterOperation) : Prop :=
  match op with
  | Wo_create_fabric q => mo_id o = cf_operation_id q /\ mo_phase o = Mph_CreatingFabric /\
      operation_fabric_id o = cf_fabric_id q
  | Wo_commission q => mo_id o = cmr_operation_id q /\ mo_phase o = Mph_ValidatingSetup /\
      mo_target o = Mt_Fabric (cmr_fabric_id q)
  | Wo_remove_node q => mo_id o = rn_operation_id q /\ mo_phase o = Mph_RemovingNode /\
      mo_target o = Mt_Node (rn_fabric_id q) (rn_node_id q)
  | Wo_export_fabric q => mo_id o = xr_operation_id q /\ mo_phase o = Mph_Exporting /\
      operation_fabric_id o = xr_fabric_id q
  | Wo_restore_fabric q => mo_id o = rs_operation_id q /\ mo_phase o = Mph_Restoring /\
      operation_fabric_id o = rs_expected_fabric_id q
  | _ => False
  end.

(** A write moves a version the task knows to be stored, at its revision. *)
Definition moves_from (t : MatterTokens) (o : MatterOperation) (expected : N) : Prop :=
  exists o0, In o0 (mt_seen t) /\ legal_move o0 o /\ mo_revision o0 = expected.

Definition needs (op : MatterOp) (t : MatterTokens) : Prop :=
  match op with
  | Wo_create_administration_operation o _ _ => mo_id o ∈ mt_fresh t /\ mo_phase o = Mph_Requested
  | Wo_transition_operation o expected _ _ => moves_from t o expected
  | Wo_commit_commissioning commit expected => moves_from t (cc_operation commit) expected
  | Wo_commit_cancellation commit =>
      moves_from t (xc_commissioning commit) (xc_expected_commissioning_revision commit) /\
      moves_from t (xc_cancellation commit) (xc_expected_cancellation_revision commit)
  | Wo_commit_node_removal commit expected => moves_from t (rmc_operation commit) expected
  | Wo_commit_subscription_repair commit =>
      moves_from t (rpc_operation commit) (rpc_expected_operation_revision commit)
  | _ =>
      match effect_id op with
      | Some id => exists o b s, mt_started t !! id = Some o /\ effect_of op o /\
          In b (mt_bound t) /\ In s (mt_security t) /\ authorised o b s
      | None => True
      end
  end.

Definition gives (op : MatterOp) : matter_resp op -> MatterTokens -> MatterTokens :=
  match op with
  | Wo_new_id => fun r t => add_id r t
  | Wo_actor_security _ => fun r t =>
      match r with Ok (Some s) => add_security s t | _ => t end
  | Wo_administration_operation _ => fun r t =>
      match r with Ok (Some (o, b)) => add_seen o (add_bound b t) | _ => t end
  | Wo_create_administration_operation o _ _ => fun _ t => drop_id (mo_id o) t
  | Wo_transition_operation o _ _ _ => fun r t =>
      match r with Ok _ => moved_first o (add_seen o t) | _ => t end
  | Wo_commit_subscription_repair commit => fun r t =>
      match r with Ok _ => add_seen (rpc_operation commit) t | _ => t end
  | Wo_create_fabric q => fun _ t => drop_started (cf_operation_id q) t
  | Wo_commission q => fun _ t => drop_started (cmr_operation_id q) t
  | Wo_remove_node q => fun _ t => drop_started (rn_operation_id q) t
  | Wo_export_fabric q => fun _ t => drop_started (xr_operation_id q) t
  | Wo_restore_fabric q => fun _ t => drop_started (rs_operation_id q) t
  | _ => fun _ t => t
  end.

Definition assumes (op : MatterOp) : matter_resp op -> MatterTokens -> Prop :=
  match op with
  | Wo_administration_operation id => fun r _ =>
      match r with
      | Ok (Some (o, b)) => mo_id o = id /\ bd_operation_id b = id /\
          MatterOperation.validate_persisted o = Ok tt
      | _ => True
      end
  | _ => fun _ _ => True
  end.

Definition mw {A : Type} (m : MatterProg A) (t : MatterTokens) (Q : A -> MatterTokens -> Prop) : Prop :=
  wp needs gives assumes m t Q.

Definition ended {A : Type} (_ : A) (_ : MatterTokens) : Prop := True.

(** ** Rules *)

Lemma mw_ret {A} (a : A) t (Q : A -> MatterTokens -> Prop) : Q a t -> mw (Ret a) t Q.
Proof. done. Qed.

Lemma mw_mono {A} (m : MatterProg A) t (Q R : A -> MatterTokens -> Prop) :
  mw m t Q -> (forall a t, Q a t -> R a t) -> mw m t R.
Proof. apply wp_mono. Qed.

Lemma mw_bind {A B} (m : MatterProg A) (f : A -> MatterProg B) t Q :
  mw m t (fun a t => mw (f a) t Q) -> mw (bind m f) t Q.
Proof. apply wp_bind. Qed.

Lemma mw_try {A B E} (m : MatterProg (result A E)) (f : A -> MatterProg (result B E)) t
  (Q : result B E -> MatterTokens -> Prop) :
  mw m t (fun r t => match r with Ok a => mw (f a) t Q | Err e => Q (Err e) t end) ->
  mw (try_bind m f) t Q.
Proof. apply wp_try. Qed.

Lemma mw_mapped {A E F} (f : E -> F) (m : MatterProg (result A E)) t
  (Q : result A F -> MatterTokens -> Prop) :
  mw m t (fun r t => Q (map_err f r) t) -> mw (mapped f m) t Q.
Proof. intros Hm. apply mw_bind. eapply mw_mono; [exact Hm|]. auto. Qed.

Lemma mw_op (op : MatterOp) t (Q : matter_resp op -> MatterTokens -> Prop) :
  needs op t -> (forall r, assumes op r (gives op r t) -> Q r (gives op r t)) -> mw (wask op) t Q.
Proof. intros Hn HQ. split; [exact Hn|]. exact HQ. Qed.

(** What a task knows stays known. *)
Definition mgrows (t t' : MatterTokens) : Prop :=
  incl (mt_seen t) (mt_seen t') /\ incl (mt_bound t) (mt_bound t') /\
  incl (mt_security t) (mt_security t').

#[local] Instance mgrows_refl : Reflexive mgrows.
Proof. intros t. split; [|split]; apply incl_refl. Qed.
#[local] Instance mgrows_trans : Transitive mgrows.
Proof. intros a b c (H1' & H2' & H3') (H4' & H5' & H6'). split; [|split]; by eapply incl_tran. Qed.

Lemma gives_mgrows op r t : mgrows t (gives op r t).
Proof.
  assert (forall o, mgrows t (moved_first o (add_seen o t))) as Hmoved.
  { intros o. unfold moved_first. destruct (N.eqb _ _); split; cbn; try split;
      auto using incl_refl, incl_tl. }
  destruct op; cbn [gives]; try reflexivity;
    repeat match goal with
    | |- mgrows _ (match ?x with _ => _ end) => destruct x
    end; auto; try reflexivity;
    split; cbn; try split; auto using incl_refl, incl_tl.
Qed.

Lemma mw_grows {A} (m : MatterProg A) t (Q : A -> MatterTokens -> Prop) :
  mw m t Q -> mw m t (fun a t' => Q a t' /\ mgrows t t').
Proof.
  intros Hm. eapply wp_frame; [exact mgrows_refl | exact mgrows_trans | exact gives_mgrows | exact Hm].
Qed.

(** One step of a program; reads need nothing. *)
Ltac mstep :=
  lazymatch goal with
  | |- mw (try_bind _ _) _ _ => apply mw_try
  | |- mw (bind _ _) _ _ => apply mw_bind
  | |- mw (mapped _ _) _ _ => apply mw_mapped
  | |- mw (repository _) _ _ => apply mw_mapped
  | |- mw (wask _) _ _ => apply mw_op; [exact I | let r := fresh "r" in intros r _]
  | |- mw (Ret _) _ _ => apply mw_ret
  | |- mw (if ?b then _ else _) _ _ => destruct b eqn:?
  | |- mw (match ?x with _ => _ end) _ _ => destruct x eqn:?
  | |- match ?x with Ok _ => _ | Err _ => _ end => destruct x eqn:?
  | |- ended _ _ => exact I
  end.

(** ** Administration *)

(** The actor as the command repository answered. *)
Lemma mw_security actor t (Q : result ActorSecurity MatterAdministrationError -> MatterTokens -> Prop) :
  (forall e, Q (Err e) t) -> (forall s, Q (Ok s) (add_security s t)) -> mw (security actor) t Q.
Proof.
  intros He HQ. unfold security. mstep. mstep. mstep.
  destruct r as [[s|]|e]; cbn [map_err gives]; [apply mw_ret, HQ|apply mw_ret, He|apply He].
Qed.

Lemma mw_installation actor action t
  (Q : result InstallationId MatterAdministrationError -> MatterTokens -> Prop) :
  (forall r t', mt_started t' = mt_started t -> mt_fresh t' = mt_fresh t -> mgrows t t' -> Q r t') ->
  mw (authorize_installation_action actor action) t Q.
Proof.
  intros HQ. unfold authorize_installation_action. mstep; [|by apply mw_ret, HQ].
  mstep. apply mw_security; [intros e; by apply HQ|]. intros s.
  mstep. mstep. destruct (authorized s action) as [[]|e]; [mstep|]; apply HQ; try done;
    split; cbn; try split; auto using incl_refl, incl_tl.
Qed.

(** A task that admits an operation holds its identity. *)
Lemma mw_admit actor request now t : mw (admit_operation actor request now) t ended.
Proof.
  unfold admit_operation. mstep. apply mw_security; [done|]. intros s. repeat mstep.
  apply mw_op; [|done]. split; [|done]. cbn. set_solver.
Qed.

(** What is known of an operation that is read with its binding. *)
Definition knows (t : MatterTokens) (o : MatterOperation) (b : MatterOperationBinding) : Prop :=
  In o (mt_seen t) /\ In b (mt_bound t) /\ bd_operation_id b = mo_id o /\
  MatterOperation.validate_persisted o = Ok tt.

Lemma mw_bound_operation id t
  (Q : result (MatterOperation * MatterOperationBinding) MatterAdministrationError -> MatterTokens -> Prop) :
  (forall e, Q (Err e) t) ->
  (forall o b, mo_id o = id -> knows (add_seen o (add_bound b t)) o b ->
     Q (Ok (o, b)) (add_seen o (add_bound b t))) ->
  mw (bound_operation id) t Q.
Proof.
  intros He HQ. unfold bound_operation. mstep. mstep. apply mw_op; [exact I|]. intros r Hr.
  destruct r as [[[o b]|]|e]; cbn [map_err gives]; [apply mw_ret|apply mw_ret, He|apply He].
  destruct Hr as (Hid & Hb & Hv). apply HQ; [done|].
  split; [by left|]. split; [by left|]. by rewrite Hb.
Qed.

Lemma mw_record_failure actor id error now t :
  mw (record_controller_failure actor id error now) t ended.
Proof.
  unfold record_controller_failure. mstep. apply mw_security; [done|]. intros s.
  mstep. apply mw_bound_operation; [done|]. intros o b Hid (Hseen & _).
  mstep; [|done]. mstep. mstep. mstep; [|done]. mstep. mstep.
  match goal with |- match ?x with _ => _ end => destruct x as [o'|] eqn:Hm end; [|done].
  assert (legal_move o o') as Hl.
  { destruct (MatterOperation.transition o _ now) as [o1|] eqn:E; [|done].
    injection Hm as <-. by do 2 eexists. }
  mstep.
  - mstep. mstep. mstep. mstep. apply mw_op; [by exists o|]. intros [[]|] _; done.
  - mstep. mstep. apply mw_op; [by exists o|]. intros [[]|] _; done.
Qed.

(** An operation the actor owns, with the authority for the action. *)
Definition owns (t : MatterTokens) (o : MatterOperation) (action : CommandAction) : Prop :=
  exists b s, In b (mt_bound t) /\ In s (mt_security t) /\ bd_operation_id b = mo_id o /\
    bd_actor_id b = ac_id (as_actor s) /\ bd_action b = action /\ authorized s action = Ok tt.

Lemma mw_owned actor id action t
  (Q : result MatterOperation MatterAdministrationError -> MatterTokens -> Prop) :
  (forall e t', Q (Err e) t') ->
  (forall o t', mo_id o = id -> In o (mt_seen t') -> MatterOperation.validate_persisted o = Ok tt ->
     owns t' o action -> mgrows t t' -> Q (Ok o) t') ->
  mw (owned_operation_for_action actor id action) t Q.
Proof.
  intros He HQ. unfold owned_operation_for_action. mstep. apply mw_security; [intros e; apply He|].
  intros s. mstep. mstep. destruct (authorized s action) as [[]|e] eqn:Ha; [|apply He].
  mstep. apply mw_bound_operation; [intros e; apply He|]. intros o b Hid (Hseen & Hbound & Hb & Hv).
  mstep; [|apply mw_ret, He]. bool_inv. apply mw_ret, HQ; try done.
  - exists b, s. repeat split; try done. cbn. by left.
  - split; cbn; try split; auto using incl_refl, incl_tl.
Qed.

Lemma mw_owned_commissioning actor id t
  (Q : result MatterOperation MatterAdministrationError -> MatterTokens -> Prop) :
  (forall e t', Q (Err e) t') ->
  (forall o t', mo_id o = id -> In o (mt_seen t') -> mgrows t t' -> Q (Ok o) t') ->
  mw (owned_commissioning_for_cancellation actor id) t Q.
Proof.
  intros He HQ. unfold owned_commissioning_for_cancellation.
  mstep. apply mw_security; [intros e; apply He|].
  intros s. mstep. mstep. destruct (authorized s _) as [[]|e] eqn:Ha; [|apply He].
  mstep. apply mw_bound_operation; [intros e; apply He|]. intros o b Hid (Hseen & _).
  mstep; [|apply mw_ret, He]. apply mw_ret, HQ; try done.
  split; cbn; try split; auto using incl_refl, incl_tl.
Qed.

Lemma mw_cancel_requested actor id now t : mw (cancel_requested actor id now) t ended.
Proof.
  unfold cancel_requested. mstep. apply mw_security; [done|]. intros s.
  mstep. mstep. mstep; [|done]. mstep. apply mw_bound_operation; [done|].
  intros o b Hid (Hseen & _). mstep; [|done]. mstep; [|done]. mstep. mstep.
  destruct (MatterOperation.transition o _ now) as [o'|] eqn:E; [|done]. cbn [map_err].
  mstep. mstep. apply mw_op; [exists o; repeat split; try done; by do 2 eexists|].
  intros [[]|] _; done.
Qed.

Lemma mw_get actor id t : mw (get actor id) t ended.
Proof.
  unfold get. mstep. apply mw_security; [done|]. intros s. by repeat mstep.
Qed.

Lemma mw_list actor limit t : mw (list_operations actor limit) t ended.
Proof.
  unfold list_operations. mstep; [|done]. mstep. apply mw_security; [done|]. intros s. by repeat mstep.
Qed.

(** ** Moves and effects *)

(** A program whose end needs nothing. *)
Lemma mw_then {A} (m : MatterProg A) t (Q : A -> MatterTokens -> Prop) :
  mw m t ended -> (forall a t', mgrows t t' -> Q a t') -> mw m t Q.
Proof. intros Hm HQ. eapply mw_mono; [by apply mw_grows|]. intros a t' [_ Hg]. auto. Qed.

Lemma mw_move {E} (f : BoxError -> E) invalid o next now t
  (Q : result MatterOperation E -> MatterTokens -> Prop) :
  In o (mt_seen t) -> (forall e t', Q (Err e) t') ->
  (forall o', MatterOperation.transition o next now = Ok o' ->
     Q (Ok o') (moved_first o' (add_seen o' t))) ->
  mw (move_operation f invalid o next now) t Q.
Proof.
  intros Hs He HQ. unfold move_operation. mstep. mstep.
  destruct (MatterOperation.transition o next now) as [o'|] eqn:Hm; cbn [map_err]; [|apply He].
  mstep. mstep. apply mw_op; [exists o; repeat split; try done; by do 2 eexists|].
  intros [[]|e] _; cbn [map_err gives]; [apply mw_ret; by apply HQ|apply He].
Qed.

Lemma mw_end {E T} (f : MatterAdministrationError -> E) actor o error now t :
  mw (end_with_error (T := T) f actor o error now) t ended.
Proof.
  unfold end_with_error. mstep. mstep. apply mw_then; [apply mw_record_failure|].
  intros [o'|e] t' _; done.
Qed.

Lemma mw_simulator {E} (e : E) t (Q : result unit E -> MatterTokens -> Prop) :
  (forall r, Q r t) -> mw (check_simulator e) t Q.
Proof. intros HQ. unfold check_simulator. mstep. mstep. mstep; by apply mw_ret. Qed.

Lemma moved_first_fields o t :
  mt_seen (moved_first o t) = mt_seen t /\ mt_bound (moved_first o t) = mt_bound t /\
  mt_security (moved_first o t) = mt_security t.
Proof. unfold moved_first. by destruct (N.eqb _ _). Qed.

Lemma transition_facts o next now o' :
  MatterOperation.transition o next now = Ok o' ->
  legal_move o o' /\ mo_phase o' = next /\ mo_id o' = mo_id o /\ mo_kind o' = mo_kind o /\
  mo_target o' = mo_target o /\ mo_revision o' = (mo_revision o + 1)%N /\
  valid_transition (mo_kind o) (mo_phase o) next = true.
Proof.
  intros Ht. assert (legal_move o o') as Hl by (by do 2 eexists).
  destruct (legal_move_facts _ _ Hl) as (_ & Hv & Hid & Hk & Htg & Hr).
  assert (mo_phase o' = next) as Hp
    by (unfold MatterOperation.transition in Ht; ok_inv; by simplify_eq).
  rewrite Hp in Hv. done.
Qed.

Lemma requested_revision o :
  MatterOperation.validate_persisted o = Ok tt -> mo_phase o = Mph_Requested -> mo_revision o = 1%N.
Proof.
  unfold MatterOperation.validate_persisted. intros Hv Hp. rewrite Hp in Hv. ok_inv.
  destruct (N.eqb_spec (mo_revision o) 1); [done|].
  rewrite (bool_decide_eq_true_2 (Mph_Requested = Mph_Requested)) in * by done. done.
Qed.

(** The first move of an owned operation gives the token of its effect. *)
Lemma first_move o next now o' t action :
  MatterOperation.transition o next now = Ok o' -> mo_phase o = Mph_Requested ->
  MatterOperation.validate_persisted o = Ok tt -> owns t o action ->
  action_for_kind (mo_kind o) = action ->
  let t' := moved_first o' (add_seen o' t) in
  mt_started t' !! mo_id o = Some o' /\
  exists b s, In b (mt_bound t') /\ In s (mt_security t') /\ authorised o' b s.
Proof.
  intros Ht Hp Hv (b & s & Hb & Hs & Hid & Ha & Hact & Hauth) Hk t'.
  destruct (transition_facts _ _ _ _ Ht) as (_ & _ & Hid' & Hk' & _ & Hr & _).
  rewrite (requested_revision _ Hv Hp) in Hr. unfold t', moved_first. rewrite Hr. change (1 + 1 =? 2)%N with true.
  cbn [mt_started mt_bound mt_security add_started add_seen]. split.
  - by rewrite Hid', lookup_insert_eq.
  - exists b, s. unfold authorised. rewrite Hid', Hk', Hk. done.
Qed.

Lemma mw_for_each {A E} (l : list A) (f : A -> MatterProg (result unit E)) t :
  (forall a t, mw (f a) t ended) -> mw (for_each l f) t ended.
Proof.
  intros Hf. revert t. induction l as [|a l IH]; intros t; [done|].
  apply mw_try, mw_then; [apply Hf|]. intros [[]|e] t' _; [apply IH | done].
Qed.

Create HintDb matter discriminated.
#[local] Hint Resolve mw_admit mw_end mw_record_failure mw_cancel_requested mw_for_each : matter.

(** Steps through programs that need nothing, by the lemmas of the database. *)
Ltac mgo :=
  repeat first
    [ mstep
    | lazymatch goal with
      | |- mw (check_simulator _) _ _ => apply mw_simulator; intros ?
      | |- mw (MatterFabricWorkflow.ensure_simulator) _ _ => apply mw_simulator; intros ?
      | |- mw (MatterNodeWorkflow.ensure_simulator) _ _ => apply mw_simulator; intros ?
      | |- mw (authorize_installation_action _ _) _ _ => apply mw_installation; intros ? ? _ _ _
      | |- mw (stored_fabric _) _ _ => apply mw_mapped
      | |- mw (MatterFabricWorkflow.terminal_controller_error _ _ _ _) _ _ =>
          apply mw_then; [apply mw_end | intros ? ? _]
      | |- mw (MatterNodeWorkflow.terminal_controller_error _ _ _ _) _ _ =>
          apply mw_then; [apply mw_end | intros ? ? _]
      | |- mw _ _ _ => apply mw_then; [solve [eauto with matter] | intros ? ? _]
      end ].

(** ** The fabric workflow *)

Lemma mw_status actor t : mw (status actor) t ended.
Proof. unfold status. by mgo. Qed.

Lemma mw_transition_stage stage next now t : mw (transition_stage stage next now) t ended.
Proof. unfold transition_stage. by mgo. Qed.

#[local] Hint Resolve mw_status mw_transition_stage : matter.

Lemma mw_put_secret stage now reference t : mw (put_secret stage now reference) t ended.
Proof. unfold put_secret. by mgo. Qed.

Lemma mw_new_stage actor installation_id fabric_id now t :
  mw (new_stage actor installation_id fabric_id now) t ended.
Proof. unfold new_stage. by mgo. Qed.

#[local] Hint Resolve mw_put_secret mw_new_stage : matter.

Lemma mw_provision actor installation_id fabric_id now t :
  mw (provision_durable_fabric actor installation_id fabric_id now) t ended.
Proof. unfold provision_durable_fabric. by mgo. Qed.

Lemma mw_activate fabric_id state now t : mw (activate_fabric fabric_id state now) t ended.
Proof. unfold activate_fabric. by mgo. Qed.

#[local] Hint Resolve mw_provision mw_activate : matter.

Lemma mw_start_create actor key now t : mw (start_create actor key now) t ended.
Proof. unfold start_create. by mgo. Qed.

Lemma mw_start_existing actor kind key now t :
  mw (start_existing_fabric_operation actor kind key now) t ended.
Proof. unfold start_existing_fabric_operation. by mgo. Qed.

(** The end of a creation or a restore: one more move of a stored version. *)
Lemma mw_complete_fabric actor o fabric_id live now t :
  In o (mt_seen t) -> mw (complete_fabric actor o fabric_id live now) t ended.
Proof.
  intros Hs. unfold complete_fabric. mstep. apply mw_then; [apply mw_activate|].
  intros [[]|e] t1 (Hg & _); [|done]. mstep. apply mw_move; [by apply Hg|done|].
  intros o' _. by mgo.
Qed.

(** The token is spent on the effect. *)
Lemma mw_effect op o t (Q : matter_resp op -> MatterTokens -> Prop) :
  effect_id op = Some (mo_id o) -> effect_of op o -> mt_started t !! mo_id o = Some o ->
  (exists b s, In b (mt_bound t) /\ In s (mt_security t) /\ authorised o b s) ->
  (forall r, Q r (gives op r t)) -> mw (wask op) t Q.
Proof.
  intros Hid Hof Hst (b & s & Hb & Hs & Ha) HQ. apply mw_op; [|auto].
  destruct op; try done; injection Hid as E; exists o, b, s; (split; [by rewrite E | done]).
Qed.

(** The task may spend its token on the operation. *)
Record may_start (t : MatterTokens) (o : MatterOperation) : Prop := {
  ms_started : mt_started t !! mo_id o = Some o;
  ms_seen : In o (mt_seen t);
  ms_authorised : exists b s, In b (mt_bound t) /\ In s (mt_security t) /\ authorised o b s
}.

Lemma mw_start {E} (f : BoxError -> E) invalid o next now t action
  (Q : result MatterOperation E -> MatterTokens -> Prop) :
  In o (mt_seen t) -> MatterOperation.validate_persisted o = Ok tt -> owns t o action ->
  mo_phase o = Mph_Requested ->
  (valid_transition (mo_kind o) Mph_Requested next = true -> action_for_kind (mo_kind o) = action) ->
  (forall e t', Q (Err e) t') ->
  (forall o' t', mo_phase o' = next -> mo_target o' = mo_target o -> may_start t' o' -> Q (Ok o') t') ->
  mw (move_operation f invalid o next now) t Q.
Proof.
  intros Hs Hv Ho Hp Hk He HQ. apply mw_move; [done..|]. intros o' Ht.
  destruct (transition_facts _ _ _ _ Ht) as (_ & Hp' & Hid & Hkind & Htg & _ & Hval).
  rewrite Hp in Hval. apply HQ; [done|done|].
  destruct (first_move _ _ _ _ _ _ Ht Hp Hv Ho (Hk Hval)) as [Hst Ha].
  split; [by rewrite Hid| |done]. destruct (moved_first_fields o' (add_seen o' t)) as (-> & _). by left.
Qed.

Lemma mw_spend op o t (Q : matter_resp op -> MatterTokens -> Prop) :
  effect_id op = Some (mo_id o) -> effect_of op o -> may_start t o ->
  (forall r, Q r (gives op r t)) -> mw (wask op) t Q.
Proof. intros Hid Hof [Hst _ Ha]. by apply mw_effect with o. Qed.

Lemma mw_run_create actor id now t : mw (run_create actor id now) t ended.
Proof.
  unfold run_create. mstep. apply mw_simulator. intros [[]|e]; [|done].
  mstep. mstep. apply mw_owned; [done|]. intros o t1 Hid Hs Hv Ho Hg. cbn [map_err].
  mstep; [by mgo|]. cbv zeta. mstep.
  destruct (bool_decide (mo_phase o = Mph_Requested)) eqn:Hst.
  - apply bool_decide_eq_true in Hst.
    eapply mw_start; [done..| |done|]; [by destruct (mo_kind o)|]. intros o' t2 Hp Htg Hm.
    mgo; try done.
    + eapply mw_spend; [done|done|exact Hm|]. intros [live|error]; [|by mgo].
      apply mw_complete_fabric, Hm.
  - mgo; try done. by apply mw_complete_fabric.
Qed.

Lemma mw_run_export actor id now t : mw (run_export actor id now) t ended.
Proof.
  unfold run_export. mstep. apply mw_simulator. intros [[]|e]; [|done].
  mstep. mstep. apply mw_owned; [done|]. intros o t1 Hid Hs Hv Ho Hg. cbn [map_err].
  cbv zeta. mstep. destruct (bool_decide (mo_phase o = Mph_Requested)) eqn:Hst.
  - apply bool_decide_eq_true in Hst.
    eapply mw_start; [done..| |done|]; [by destruct (mo_kind o)|]. intros o' t2 Hp Htg Hm.
    cbn [negb]. mgo; try done.
    eapply mw_spend; [done|done|exact Hm|]. intros [export|error]; [|by mgo].
    mstep; [|done]. mstep. apply mw_move; [apply Hm|done|]. by intros o2 _.
  - by mgo.
Qed.

Lemma mw_load_restored actor o fabric_id live now t :
  In o (mt_seen t) -> mw (load_restored actor o fabric_id live now) t ended.
Proof.
  intros Hs. unfold load_restored. mstep. mstep.
  - apply mw_move; [done|done|]. intros o' _. apply mw_complete_fabric.
    destruct (moved_first_fields o' (add_seen o' t)) as (-> & _). by left.
  - mstep. by apply mw_complete_fabric.
Qed.

Lemma mw_run_restore actor id input now t : mw (run_simulator_restore actor id input now) t ended.
Proof.
  unfold run_simulator_restore. mstep. apply mw_simulator. intros [[]|e]; [|done].
  mstep. mstep. apply mw_owned; [done|]. intros o t1 Hid Hs Hv Ho Hg. cbn [map_err].
  cbv zeta. mstep. destruct (bool_decide (mo_phase o = Mph_Requested)) eqn:Hst.
  - apply bool_decide_eq_true in Hst.
    eapply mw_start; [done..| |done|]; [by destruct (mo_kind o)|]. intros o' t2 Hp Htg Hm.
    mgo; try done.
    eapply mw_spend; [done|done|exact Hm|]. intros [live|error]; [|by mgo].
    apply mw_load_restored, Hm.
  - mgo; try done. by apply mw_load_restored.
Qed.

(** ** The node workflow *)

Lemma mw_start_commission actor key now t : mw (start_commission actor key now) t ended.
Proof. unfold start_commission. by mgo. Qed.

Lemma mw_start_remove actor node_id key now t : mw (start_remove_node actor node_id key now) t ended.
Proof. unfold start_remove_node. by mgo. Qed.

Lemma mw_start_cancel actor id key now t : mw (start_cancel_commissioning actor id key now) t ended.
Proof.
  unfold start_cancel_commissioning. mstep. apply mw_simulator. intros [[]|e]; [|done].
  mstep. mstep. apply mw_owned_commissioning; [done|]. intros o t1 Hid Hs Hg. cbn [map_err]. by mgo.
Qed.

Lemma mw_commissioning_progress id t : mw (commissioning_progress id) t ended.
Proof. unfold commissioning_progress. by mgo. Qed.

Lemma mw_prepare_commissioning o descriptor now t :
  mw (prepare_commissioning_projection o descriptor now) t ended.
Proof.
  unfold prepare_commissioning_projection. cbv zeta. mstep; [|by mstep|by mstep].
  mstep. mstep. apply mw_op; [exact I|]. intros r _. by mgo.
Qed.

#[local] Hint Resolve mw_commissioning_progress mw_prepare_commissioning : matter.

Lemma moved_seen o t : In o (mt_seen (moved_first o (add_seen o t))).
Proof. destruct (moved_first_fields o (add_seen o t)) as (-> & _). by left. Qed.

Lemma moves_from_seen t o next now o' :
  In o (mt_seen t) -> MatterOperation.transition o next now = Ok o' ->
  moves_from t o' (mo_revision o).
Proof. intros Hs Ht. exists o. split; [done|]. split; [by do 2 eexists | done]. Qed.

(** The operation of a successful program is stored. *)
Definition returns_seen {E} (r : result MatterOperation E) (t : MatterTokens) : Prop :=
  match r with Ok o => In o (mt_seen t) | Err _ => True end.

Lemma mw_move_seen {E} (f : BoxError -> E) invalid o next now t :
  In o (mt_seen t) -> mw (move_operation f invalid o next now) t returns_seen.
Proof. intros Hs. apply mw_move; [done|done|]. intros o' _. apply moved_seen. Qed.

Lemma mw_complete_commissioning actor o descriptor now t :
  In o (mt_seen t) -> mw (complete_commissioning actor o descriptor now) t ended.
Proof.
  intros Hs. unfold complete_commissioning. mstep. mstep. mstep; [|done].
  mstep. apply mw_then; [apply mw_prepare_commissioning|]. intros prepared t1 (Hg & _).
  assert (In o (mt_seen t1)) as Hs1 by by apply Hg.
  mstep; [|by mgo]. mstep. eapply mw_mono with (Q := returns_seen).
  { mstep; [by apply mw_move_seen|]. mstep. by destruct (bool_decide (mo_phase o = Mph_Subscribing)). }
  intros [o2|e] t2 Hs2; [|done]. mgo; try done. apply mw_op; [|intros [[]|] _; by mgo].
  match goal with Hm : map_err _ _ = Ok _ |- _ => rename Hm into Ht end.
  destruct (MatterOperation.transition o2 Mph_Completed now) as [o3|] eqn:E; [|done].
  injection Ht as <-. by eapply moves_from_seen.
Qed.

Lemma mw_move_through o phases now t :
  In o (mt_seen t) -> mw (move_through o phases now) t returns_seen.
Proof.
  revert o t. induction phases as [|phase phases IH]; intros o t Hs; [exact Hs|].
  cbn [move_through]. mstep. eapply mw_mono; [by apply mw_move_seen|].
  intros [o'|e] t' Ho; [by apply IH | done].
Qed.

Lemma mw_completed_result o id t : mw (completed_result o id) t ended.
Proof. unfold completed_result. by mgo. Qed.

#[local] Hint Resolve mw_completed_result : matter.

Lemma mw_run_commission actor id input now t : mw (run_commission actor id input now) t ended.
Proof.
  unfold run_commission. mstep. apply mw_simulator. intros [[]|e]; [|done].
  mstep. mstep. apply mw_owned; [done|]. intros o t1 Hid Hs Hv Ho Hg. cbn [map_err].
  mstep; [by mgo|]. mstep; [|done].
  match goal with Hb : bool_decide (mo_phase o = Mph_Requested) = true |- _ =>
    apply bool_decide_eq_true in Hb as Hst end.
  mstep. eapply mw_start; [done..| |done|]; [by destruct (mo_kind o)|]. intros o' t2 Hp Htg Hm.
  mstep. mstep. destruct (commissioning_fabric_id o') as [fabric_id|e] eqn:Hf; [|done].
  assert (mo_target o' = Mt_Fabric fabric_id) as Htarget.
  { unfold commissioning_fabric_id in Hf. destruct (mo_target o'); ok_inv; by simplify_eq. }
  mstep. eapply mw_spend; [done|done|exact Hm|]. intros [descriptor|error]; [|by mgo].
  mstep; [by mgo|]. mstep. apply mw_then; [apply mw_commissioning_progress|].
  intros [phases|error] t3 (Hg3 & _); [|by mgo].
  mstep. eapply mw_mono; [apply mw_move_through, Hg3, Hm|].
  intros [o3|e] t4 Ho3; [by apply mw_complete_commissioning | done].
Qed.

Lemma mw_recover_commissioning actor id now t : mw (recover_commissioning actor id now) t ended.
Proof.
  unfold recover_commissioning. mstep. apply mw_simulator. intros [[]|e]; [|done].
  mstep. mstep. apply mw_owned; [done|]. intros o t1 Hid Hs Hv Ho Hg. cbn [map_err]. by mgo.
Qed.

Lemma node_moved o next now o' :
  MatterNodeWorkflow.moved o next now = Ok o' -> MatterOperation.transition o next now = Ok o'.
Proof.
  unfold MatterNodeWorkflow.moved. destruct (MatterOperation.transition o next now); cbn; congruence.
Qed.

(** Both operations of a cancellation make one legal move. *)
Lemma resolve_moves commissioning cancellation outcome now c x resolution e e' :
  resolve_cancellation commissioning cancellation outcome now = Ok (c, x, resolution, e, e') ->
  legal_move commissioning c /\ legal_move cancellation x.
Proof.
  unfold resolve_cancellation. intros Hr.
  repeat match goal with
  | Hr : context [match ?x with _ => _ end] |- _ =>
      lazymatch x with outcome => destruct x | _ => fail end
  | a : MatterCancellationOutcome |- _ => destruct a
  end; ok_inv; simplify_eq;
  repeat match goal with Hm : MatterNodeWorkflow.moved _ _ _ = Ok _ |- _ =>
    apply node_moved in Hm end;
  split; by do 2 eexists.
Qed.

Lemma mw_repair_of o error now t : mw (repair_of o error now) t ended.
Proof. unfold repair_of. by mgo. Qed.

Lemma mw_run_cancel actor id now t : mw (run_cancel_commissioning actor id now) t ended.
Proof.
  unfold run_cancel_commissioning. mstep. apply mw_simulator. intros [[]|e]; [|done].
  mstep. mstep. apply mw_owned; [done|]. intros x t1 Hid Hs Hv Ho Hg. cbn [map_err].
  mstep; [done| |done]. mstep. mstep. apply mw_owned_commissioning; [done|].
  intros c t2 Hcid Hc (Hg2 & _). cbn [map_err]. mstep; [|done]. mstep.
  eapply mw_mono with (Q := fun r t => returns_seen r t /\ In c (mt_seen t)).
  { mstep; [|mstep; destruct (bool_decide (mo_phase x = Mph_Cancelling)); (split; [|done]); [by apply Hg2 | done]].
    eapply mw_mono; [apply mw_grows, mw_move_seen; by apply Hg2|].
    intros r t' [Hr (Hg' & _)]. split; [done | by apply Hg']. }
  intros [x2|e] t3 [Hx2 Hc3]; [|done]. mstep. mstep. mstep. mstep.
  destruct (resolve_cancellation c x2 r now) as [[[[[c' x'] resolution] e] e']|e] eqn:Hres; [|done].
  apply resolve_moves in Hres as [Hlc Hlx].
  mstep. apply mw_then; [apply mw_repair_of|]. intros repair t4 (Hg4 & _).
  mstep. apply mw_then; [apply mw_repair_of|]. intros repair' t5 (Hg5 & _).
  mstep. mstep. apply mw_op; [|intros [[]|] _; by mgo].
  split; [exists c | exists x2]; (split; [by apply Hg5, Hg4 | done]).
Qed.

Lemma mw_complete_removal actor o now t :
  In o (mt_seen t) -> mw (complete_node_removal actor o now) t ended.
Proof.
  intros Hs. unfold complete_node_removal. mstep; [done|done|]. mstep. mstep.
  apply mw_installation. intros r t1 _ _ (Hg & _). destruct r as [installation_id|e]; [|done].
  cbn [map_err]. mgo; try done. apply mw_op; [|intros [[]|] _; by mgo].
  match goal with Hm : MatterNodeWorkflow.moved _ _ _ = Ok _ |- _ => apply node_moved in Hm end.
  eapply moves_from_seen; [by apply Hg | done].
Qed.

Lemma mw_run_remove actor id now t : mw (run_remove_node actor id now) t ended.
Proof.
  unfold run_remove_node. mstep. apply mw_simulator. intros [[]|e]; [|done].
  mstep. mstep. apply mw_owned; [done|]. intros o t1 Hid Hs Hv Ho Hg. cbn [map_err].
  mstep; [done|]. mstep; [done|]. mstep; [done|done|]. cbv zeta.
  assert (forall o' t', In o' (mt_seen t') -> mw
    (try! operation := MatterNodeWorkflow.transition o' Mph_CleaningSecrets now in
     complete_node_removal actor operation now) t' ended) as Hclean.
  { intros o' t' Ho'. mstep. eapply mw_mono; [by apply mw_move_seen|].
    intros [o2|e] t2 H2'; [by apply mw_complete_removal | done]. }
  mstep.
  - match goal with Hb : bool_decide (mo_phase o = Mph_Requested) = true |- _ =>
      apply bool_decide_eq_true in Hb as Hst end.
    mstep. eapply mw_start; [done..| |done|]; [by destruct (mo_kind o)|]. intros o' t2 Hp Htg Hm.
    mstep. eapply mw_mono with (Q := fun _ t => In o' (mt_seen t)).
    { unfold removal_proved. mstep. eapply mw_spend; [done|split; [done|]; split; [done|]; by rewrite Htg|exact Hm|].
      intros r. destruct r as [[]|e]; repeat mstep; apply Hm. }
    intros gone t3 Ho3. mstep; [by apply Hclean | by mgo].
  - mstep; [mstep; mstep; mstep; [by apply Hclean | by mgo]|].
    mstep; [by apply mw_complete_removal | done].
Qed.

(** ** Subscriptions *)

Lemma mw_stored_record installation_id fabric_id node_id t :
  mw (stored_record installation_id fabric_id node_id) t ended.
Proof. unfold stored_record. by mgo. Qed.

#[local] Hint Resolve mw_stored_record : matter.

Lemma mw_start_repair actor fabric_id node_id key now t :
  mw (MatterSubscription.start actor fabric_id node_id key now) t ended.
Proof. unfold MatterSubscription.start. by mgo. Qed.

Lemma mw_inventory actor o t : mw (inventory actor o) t ended.
Proof. unfold inventory. by mgo. Qed.

Lemma repair_moved o next now o' :
  moved o next now = Ok o' -> MatterOperation.transition o next now = Ok o'.
Proof. unfold moved. destruct (MatterOperation.transition o next now); cbn; congruence. Qed.

(** A commit of the repair stores its move. *)
Lemma mw_commit o o' next now subscription revision projections repair t
  (Q : result unit MatterSubscriptionRepairError -> MatterTokens -> Prop) :
  In o (mt_seen t) -> moved o next now = Ok o' ->
  (forall r t', (r = Ok tt -> In o' (mt_seen t')) -> Q r t') ->
  mw (commit o' (mo_revision o) subscription revision projections repair) t Q.
Proof.
  intros Hs Hm%repair_moved HQ. unfold commit. mstep. apply mw_op; [by eapply moves_from_seen|].
  intros [[]|e] _; apply HQ; [by left | done].
Qed.

(** A step of the repair that moves the operation. *)
Ltac mcommit :=
  lazymatch goal with Hm : moved ?o _ _ = Ok _ |- mw (commit _ _ _ _ _ _) _ _ =>
    eapply mw_commit; [|exact Hm|intros [[]|?] ? ?] end.

Section Repair.
Context (policy : MatterSubscriptionRecoveryPolicy).

Lemma mw_begin_gap actor o now t :
  In o (mt_seen t) -> mw (begin_gap policy actor o now) t returns_seen.
Proof.
  intros Hs. unfold begin_gap. mstep. apply mw_then; [apply mw_inventory|].
  intros [[record subscription]|e] t1 (Hg & _); [|done]. repeat mstep; try done.
  mcommit; [by apply Hg| |done]. mstep. cbn. by auto.
Qed.

Lemma mw_read_gap actor o now t :
  In o (mt_seen t) -> mw (read_gap actor o now) t returns_seen.
Proof.
  intros Hs. unfold read_gap. mstep. apply mw_then; [apply mw_inventory|].
  intros [[record subscription]|e] t1 (Hg & _); [|done]. repeat mstep; try done.
  mcommit; [by apply Hg| |done]. mstep. cbn. by auto.
Qed.

Lemma mw_end_repair o subscription error now t :
  In o (mt_seen t) -> mw (end_repair o subscription error now) t ended.
Proof.
  intros Hs. unfold end_repair. repeat mstep; try done. by mcommit.
Qed.

Lemma mw_subscribe_failure o subscription error now t :
  In o (mt_seen t) -> mw (record_subscribe_failure policy o subscription error now) t ended.
Proof.
  intros Hs. unfold record_subscribe_failure. mstep; [by apply mw_end_repair|]. by mgo.
Qed.

Lemma mw_ambiguous actor o now t :
  In o (mt_seen t) -> mw (record_ambiguous_dispatch actor o now) t ended.
Proof.
  intros Hs. unfold record_ambiguous_dispatch. mstep. apply mw_then; [apply mw_inventory|].
  intros [[record subscription]|e] t1 (Hg & _); [|done]. by apply mw_end_repair, Hg.
Qed.

Lemma mw_dispatch_subscribe o record subscription now t :
  In o (mt_seen t) -> mw (dispatch_subscribe policy o record subscription now) t ended.
Proof.
  intros Hs. unfold dispatch_subscribe. repeat mstep; try done; try by apply mw_subscribe_failure.
  by mcommit.
Qed.

Lemma mw_subscribe actor o now reserved t :
  In o (mt_seen t) -> mw (subscribe policy actor o now reserved) t ended.
Proof.
  intros Hs. unfold subscribe. mstep. apply mw_then; [apply mw_inventory|].
  intros [[record subscription]|e] t1 (Hg & _); [|done]. assert (In o (mt_seen t1)) by by apply Hg.
  repeat mstep; try done; by first [apply mw_dispatch_subscribe | apply mw_ambiguous].
Qed.

Lemma mw_run_repair actor id now t : mw (run policy actor id now) t ended.
Proof.
  unfold run. mstep. mstep. apply mw_owned; [done|]. intros o t1 Hid Hs Hv Ho Hg. cbn [map_err].
  mstep; [|done]. mstep; try done; try by apply mw_ambiguous.
  - mstep. eapply mw_mono; [by apply mw_begin_gap|]. intros [o2|e] t2 H2'; [|done].
    mstep. eapply mw_mono; [by apply mw_read_gap|]. intros [o3|e] t3 H3'; [|done].
    by apply mw_subscribe.
  - mstep. apply mw_then; [apply mw_inventory|].
    intros [[record subscription]|e] t2 (Hg2 & _); [|done].
    mstep; [apply mw_subscribe | apply mw_ambiguous]; by apply Hg2.
Qed.

(** ** The calls *)

(** The calls of the Matter services. *)
Inductive MatterCall :=
| Mc_get (actor : Actor) (id : MatterOperationId)
| Mc_list (actor : Actor) (limit : nat)
| Mc_status (actor : Actor)
| Mc_start_create (actor : Actor) (key : IdempotencyKey) (now : Instant)
| Mc_start_export (actor : Actor) (key : IdempotencyKey) (now : Instant)
| Mc_start_restore (actor : Actor) (key : IdempotencyKey) (now : Instant)
| Mc_start_commission (actor : Actor) (key : IdempotencyKey) (now : Instant)
| Mc_recover_commissioning (actor : Actor) (id : MatterOperationId) (now : Instant)
| Mc_start_cancel (actor : Actor) (id : MatterOperationId) (key : IdempotencyKey) (now : Instant)
| Mc_start_remove (actor : Actor) (node_id : MatterNodeId) (key : IdempotencyKey) (now : Instant)
| Mc_start_repair (actor : Actor) (fabric_id : MatterFabricId) (node_id : MatterNodeId)
    (key : IdempotencyKey) (now : Instant)
| Mc_list_nodes (actor : Actor) (fabric_id : MatterFabricId) (limit : nat)
| Mc_get_node (actor : Actor) (fabric_id : MatterFabricId) (node_id : MatterNodeId)
| Mc_inspect (actor : Actor) (limit : nat) (now : Instant)
| Mc_execute (request : MatterExecutionRequest).

Definition forget {A : Type} (m : MatterProg A) : MatterProg unit := bind m (fun _ => Ret tt).

Definition matter_call (call : MatterCall) : MatterProg unit :=
  match call with
  | Mc_get actor id => forget (get actor id)
  | Mc_list actor limit => forget (list_operations actor limit)
  | Mc_status actor => forget (status actor)
  | Mc_start_create actor key now => forget (start_create actor key now)
  | Mc_start_export actor key now => forget (start_export actor key now)
  | Mc_start_restore actor key now => forget (start_restore actor key now)
  | Mc_start_commission actor key now => forget (start_commission actor key now)
  | Mc_recover_commissioning actor id now => forget (recover_commissioning actor id now)
  | Mc_start_cancel actor id key now => forget (start_cancel_commissioning actor id key now)
  | Mc_start_remove actor node_id key now => forget (start_remove_node actor node_id key now)
  | Mc_start_repair actor fabric_id node_id key now =>
      forget (MatterSubscription.start actor fabric_id node_id key now)
  | Mc_list_nodes actor fabric_id limit => forget (list_nodes actor fabric_id limit)
  | Mc_get_node actor fabric_id node_id => forget (get_node actor fabric_id node_id)
  | Mc_inspect actor limit now => forget (inspect actor limit now)
  | Mc_execute request => forget (execute policy request)
  end.

#[local] Hint Resolve mw_get mw_list mw_start_create mw_start_existing mw_start_commission
  mw_recover_commissioning mw_start_cancel mw_start_remove mw_start_repair mw_run_create
  mw_run_export mw_run_restore mw_run_commission mw_run_cancel mw_run_remove mw_run_repair : matter.

Lemma mw_execute request t : mw (execute policy request) t ended.
Proof. unfold execute. mstep. mstep. destruct request; unfold unanswered, answered; by mgo. Qed.

(** Every call performs only what its tokens justify. *)
Lemma mw_call call t : mw (matter_call call) t ended.
Proof.
  destruct call; apply mw_bind, mw_then; auto with matter; try by intros.
  - apply mw_start_existing.
  - apply mw_start_existing.
  - unfold list_nodes. by mgo.
  - unfold get_node. by mgo.
  - unfold inspect. by mgo.
  - apply mw_execute.
Qed.
End Repair.
End Matter.
