(* ===== verification/MatterSystem.v ===== *)
(** The Matter services as a running system: any number of tasks, each the program
    of one call, interleaved at every awaited operation, over the shared database
    and the controller.  Operations fail before or after their effect, tasks are
    dropped, the process crashes, other transactions change the other tables, and
    retention removes old operations.  The file defines the system, proves its
    invariant, and from it the two properties of the operations: their effects
    and their histories. *)

From S2P Require Import Prelude Text Json Capability Lifecycle Device Command MatterState CommandStore MatterOperation MatterStore Identity Effects CommandService MatterDescriptor MatterController MatterRepository MatterHistory MatterAdministration MatterFabricWorkflow MatterNodeWorkflow MatterSubscription MatterExecution MatterTokens.

Section System.
Context `{SerdeJson} `{MatterRequestDigest} `{Uuids} `{Chrono} `{Sha256}.
Context (policy : MatterSubscriptionRecoveryPolicy).

(** The database, and what no program reads: the identities drawn, the versions of
    operations and the bindings ever stored, the actors with their grants as the
    command repository answered, and the effects asked of the controller. *)
Record MatterWorld := mk_matter_world {
  xw_db : MatterDb;
  xw_issued : gset string;
  xw_versions : list MatterOperation;
  xw_bound : list MatterOperationBinding;
  xw_grants : list ActorSecurity;
  xw_effects : list MatterOp
}.

Definition in_db (w : MatterWorld) (db : MatterDb) : MatterWorld :=
  mk_matter_world db (xw_issued w) (xw_versions w) (xw_bound w) (xw_grants w) (xw_effects w).
Definition draw (w : MatterWorld) (id : string) : MatterWorld :=
  mk_matter_world (xw_db w) ({[id]} ∪ xw_issued w) (xw_versions w) (xw_bound w) (xw_grants w)
    (xw_effects w).
Definition grant (w : MatterWorld) (s : ActorSecurity) : MatterWorld :=
  mk_matter_world (xw_db w) (xw_issued w) (xw_versions w) (xw_bound w) (s :: xw_grants w)
    (xw_effects w).
Definition performed (w : MatterWorld) (op : MatterOp) : MatterWorld :=
  mk_matter_world (xw_db w) (xw_issued w) (xw_versions w) (xw_bound w) (xw_grants w)
    (op :: xw_effects w).
Definition stored (o : MatterOperation) (w : MatterWorld) : MatterWorld :=
  mk_matter_world (xw_db w) (xw_issued w) (o :: xw_versions w) (xw_bound w) (xw_grants w)
    (xw_effects w).
Definition bound_to (b : MatterOperationBinding) (w : MatterWorld) : MatterWorld :=
  mk_matter_world (xw_db w) (xw_issued w) (xw_versions w) (b :: xw_bound w) (xw_grants w)
    (xw_effects w).

(** ** The operations *)

Definition reads {A : Type} (w : MatterWorld) (v : result A StorageError)
  (r : result A BoxError) (w' : MatterWorld) : Prop :=
  w' = w /\ (r = map_err Be_Storage v \/ r = Err Be_Transport).

(** A write commits and answers, commits while its answer is lost, is refused, or
    never reaches the database. *)
Definition writes {A : Type} (w : MatterWorld) (m : result (MatterDb * A) StorageError)
  (note : A -> MatterWorld -> MatterWorld) (r : result A BoxError) (w' : MatterWorld) : Prop :=
  (w' = w /\ r = Err Be_Transport) \/
  match m with
  | Ok (db, a) => w' = note a (in_db w db) /\ (r = Ok a \/ r = Err Be_Transport)
  | Err e => w' = w /\ r = Err (Be_Storage e)
  end.

Definition as_unit (m : result MatterDb StorageError) : result (MatterDb * unit) StorageError :=
  let? db := m in Ok (db, tt).
Definition quiet {A : Type} (_ : A) (w : MatterWorld) : MatterWorld := w.
Definition noted (o : MatterOperation) (_ : unit) (w : MatterWorld) : MatterWorld := stored o w.

(** The controller may answer anything; an effect is noted. *)
Definition asks (w : MatterWorld) (op : MatterOp) (w' : MatterWorld) : Prop :=
  w' = match effect_id op with Some _ => performed w op | None => w end.

Definition op_step (w : MatterWorld) (op : MatterOp) : matter_resp op -> MatterWorld -> Prop :=
  let db := xw_db w in
  match op with
  | Wo_new_id => fun r w' => r ∉ xw_issued w /\ w' = draw w r
  | Wo_actor_security id => fun r w' =>
      (r = Err Be_Transport /\ w' = w) \/
      (r = Ok (load_actor_security (base db) id) /\
       w' = match load_actor_security (base db) id with Some s => grant w s | None => w end)
  | Wo_fabric_stage id => fun r w' => reads w (Ok (matter_fabric_stage db id)) r w'
  | Wo_store_fabric_stage stage expected => fun r w' =>
      writes w (as_unit (store_fabric_stage db stage expected)) quiet r w'
  | Wo_delete_attached_stage id => fun r w' =>
      writes w (as_unit (delete_attached_stage db id)) quiet r w'
  | Wo_fabric id => fun r w' => reads w (Ok (matter_fabric db id)) r w'
  | Wo_store_fabric fabric expected => fun r w' =>
      writes w (as_unit (store_fabric db fabric expected)) quiet r w'
  | Wo_create_administration_operation o b p => fun r w' =>
      exists event, writes w (create_administration_operation db event o b p)
        (fun outcome w => match outcome with
                          | Oc_Created _ => bound_to b (stored o w) | _ => w end) r w'
  | Wo_administration_operation id => fun r w' => reads w (load_administration_operation db id) r w'
  | Wo_actor_operations id limit => fun r w' => reads w (actor_operations db id limit) r w'
  | Wo_operation_node_result id => fun r w' => reads w (Ok (matter_operation_node_result db id)) r w'
  | Wo_transition_operation o expected p repair => fun r w' =>
      exists event, writes w (as_unit (transition_operation db event o expected p repair)) (noted o) r w'
  | Wo_node_inventory installation_id fabric_id limit => fun r w' =>
      reads w (matter_node_inventory db installation_id fabric_id limit) r w'
  | Wo_node_inventory_item installation_id fabric_id node_id => fun r w' =>
      reads w (matter_node_inventory_item db installation_id fabric_id node_id) r w'
  | Wo_commit_commissioning commit expected => fun r w' =>
      exists event, writes w (as_unit (commit_commissioning db event commit expected))
        (noted (cc_operation commit)) r w'
  | Wo_commit_cancellation commit => fun r w' =>
      exists event event', writes w (as_unit (commit_matter_cancellation db event event' commit))
        (fun _ w => stored (xc_cancellation commit) (stored (xc_commissioning commit) w)) r w'
  | Wo_commit_node_removal commit expected => fun r w' =>
      exists event, writes w (as_unit (commit_matter_node_removal db event commit expected))
        (noted (rmc_operation commit)) r w'
  | Wo_commit_subscription_repair commit => fun r w' =>
      exists event, writes w (as_unit (commit_matter_subscription_repair db event commit))
        (noted (rpc_operation commit)) r w'
  | Wo_store_subscription subscription expected => fun r w' =>
      writes w (as_unit (store_subscription db subscription expected)) quiet r w'
  | Wo_recover_matter installation_id now limit => fun r w' =>
      reads w (recover db installation_id now limit) r w'
  | op => fun _ w' => asks w op w'
  end.

(** ** Steps of the system *)

Record MatterSystem := mk_matter_system {
  xs_world : MatterWorld;
  xs_tasks : list (MatterProg unit)
}.

(** Other transactions, and retention, remove operations only as a whole. *)
Inductive matter_step : MatterSystem -> MatterSystem -> Prop :=
| Xs_call w tasks call :
    matter_step (mk_matter_system w tasks) (mk_matter_system w (tasks ++ [matter_call policy call]))
| Xs_op w tasks i op k r w' :
    tasks !! i = Some (Io op k) -> op_step w op r w' ->
    matter_step (mk_matter_system w tasks) (mk_matter_system w' (<[i := k r]> tasks))
| Xs_drop w tasks i :
    matter_step (mk_matter_system w tasks) (mk_matter_system w (<[i := Ret tt]> tasks))
| Xs_crash w tasks : matter_step (mk_matter_system w tasks) (mk_matter_system w [])
| Xs_foreign w tasks db :
    shrinks (xw_db w) db -> matter_step (mk_matter_system w tasks) (mk_matter_system (in_db w db) tasks)
| Xs_retain w tasks retention :
    matter_step (mk_matter_system w tasks)
      (mk_matter_system (in_db w (retain (xw_db w) retention).1) tasks).

(** A first start: no operation was ever stored. *)
Definition initial (s : MatterSystem) : Prop :=
  md_operations (xw_db (xs_world s)) = ∅ /\ md_progress (xw_db (xs_world s)) = [] /\
  md_bindings (xw_db (xs_world s)) = ∅ /\ xw_versions (xs_world s) = [] /\
  xw_effects (xs_world s) = [] /\ xs_tasks s = [].

Inductive reachable : MatterSystem -> Prop :=
| Reach_start s : initial s -> reachable s
| Reach_step s s' : reachable s -> matter_step s s' -> reachable s'.

(** ** The invariant *)

Definition effect_ids (w : MatterWorld) : list MatterOperationId := omap effect_id (xw_effects w).

Record matter_inv (w : MatterWorld) : Prop := {
  xi_history : history_inv (xw_db w);
  xi_row : forall id row, md_operations (xw_db w) !! id = Some row ->
    In (opr_payload row) (xw_versions w) /\
    forall o, In o (xw_versions w) -> mo_id o = id -> (mo_revision o <= mo_revision (opr_payload row))%N;
  xi_unique : forall o o', In o (xw_versions w) -> In o' (xw_versions w) ->
    mo_id o = mo_id o' -> mo_revision o = mo_revision o' -> o = o';
  xi_issued : forall o, In o (xw_versions w) -> mo_id o ∈ xw_issued w;
  xi_legal : forall o, In o (xw_versions w) ->
    (mo_revision o = 1%N /\ mo_phase o = Mph_Requested) \/
    exists o0, In o0 (xw_versions w) /\ legal_move o0 o;
  xi_bound : forall id b, md_bindings (xw_db w) !! id = Some b -> In b (xw_bound w);
  xi_effect : forall op, In op (xw_effects w) -> exists o b s,
    effect_of op o /\ In o (xw_versions w) /\ mo_revision o = 2%N /\
    In b (xw_bound w) /\ In s (xw_grants w) /\ authorised o b s;
  xi_once : NoDup (effect_ids w)
}.

(** The tokens of one task, in the world. *)
Record tokens_ok (w : MatterWorld) (t : MatterTokens) : Prop := {
  to_fresh : forall id, id ∈ mt_fresh t -> id ∈ xw_issued w /\
    forall o, In o (xw_versions w) -> mo_id o <> id;
  to_started : forall id o, mt_started t !! id = Some o ->
    In o (xw_versions w) /\ mo_id o = id /\ mo_revision o = 2%N /\ id ∉ effect_ids w;
  to_seen : incl (mt_seen t) (xw_versions w);
  to_bound : incl (mt_bound t) (xw_bound w);
  to_security : incl (mt_security t) (xw_grants w)
}.

(** Two tasks never hold the same token. *)
Definition apart (t u : MatterTokens) : Prop :=
  mt_fresh t ## mt_fresh u /\
  forall id, mt_started t !! id = None \/ mt_started u !! id = None.

Lemma matter_apart_sym t u : apart t u -> apart u t.
Proof. intros [Hf Hd]. split; [set_solver|]. intros id. destruct (Hd id); auto. Qed.

Definition step_ok (w : MatterWorld) (t : MatterTokens) (w' : MatterWorld) (t' : MatterTokens) : Prop :=
  matter_inv w' /\ tokens_ok w' t' /\
  forall u, tokens_ok w u -> apart t u -> tokens_ok w' u /\ apart t' u.

(** *** Steps that store no version *)

Record benign (w w' : MatterWorld) : Prop := {
  be_db : shrinks (xw_db w) (xw_db w');
  be_versions : xw_versions w' = xw_versions w;
  be_effects : xw_effects w' = xw_effects w;
  be_bound : xw_bound w' = xw_bound w;
  be_issued : xw_issued w ⊆ xw_issued w';
  be_grants : incl (xw_grants w) (xw_grants w')
}.

Lemma benign_refl w : benign w w.
Proof. split; try done. apply incl_refl. Qed.

Lemma benign_db w db : shrinks (xw_db w) db -> benign w (in_db w db).
Proof. intros Hs. split; try done. apply incl_refl. Qed.

Lemma matter_benign_inv w w' : matter_inv w -> benign w w' -> matter_inv w'.
Proof.
  intros Hi Hb. pose proof (be_db _ _ Hb) as Hs.
  split; unfold effect_ids; rewrite ?(be_versions _ _ Hb), ?(be_effects _ _ Hb), ?(be_bound _ _ Hb);
    try apply Hi.
  - eapply history_shrinks; [apply Hi | done].
  - intros id row Hrow. apply (xi_row _ Hi). by eapply lookup_weaken, (sh_operations _ _ Hs).
  - intros o Ho. by apply (be_issued _ _ Hb), (xi_issued _ Hi).
  - intros id b Hl. apply (xi_bound _ Hi id). by eapply lookup_weaken, (sh_bindings _ _ Hs).
  - intros op Hop. destruct (xi_effect _ Hi op Hop) as (o & b & s & H1' & H2' & H3' & H4' & H5' & H6').
    exists o, b, s. do 4 (split; [done|]). split; [by apply (be_grants _ _ Hb) | done].
Qed.

Lemma matter_benign_tokens w w' t : tokens_ok w t -> benign w w' -> tokens_ok w' t.
Proof.
  intros Ht Hb. split; unfold effect_ids; rewrite ?(be_versions _ _ Hb), ?(be_effects _ _ Hb),
    ?(be_bound _ _ Hb); try apply Ht.
  - intros id Hid. destruct (to_fresh _ _ Ht _ Hid). split; [by apply (be_issued _ _ Hb) | done].
  - eapply incl_tran; [apply Ht | apply Hb].
Qed.

Lemma matter_benign_step w w' t : matter_inv w -> tokens_ok w t -> benign w w' -> step_ok w t w' t.
Proof.
  intros Hi Ht Hb. split; [by eapply matter_benign_inv|]. split; [by eapply matter_benign_tokens|].
  intros u Hu Hau. split; [by eapply matter_benign_tokens | done].
Qed.

(** *** A step that moves an operation *)

Section Move.
Context (w : MatterWorld) (o : MatterOperation) (expected : N) (p : MatterOperationProgress)
  (db : MatterDb).
Context (Hi : matter_inv w) (Hw : op_written (xw_db w) o expected p db).
Context (Hfrom : exists o0, In o0 (xw_versions w) /\ legal_move o0 o /\ mo_revision o0 = expected).

(** The row holds the version the move starts from. *)
Lemma move_from row :
  md_operations (xw_db w) !! mo_id o = Some row -> legal_move (opr_payload row) o /\
  mo_revision (opr_payload row) = expected.
Proof.
  intros Hrow. destruct Hfrom as (o0 & Ho0 & Hl & He).
  destruct (ow_row _ _ _ _ _ Hw) as (row' & Hrow' & _ & Hrev & _).
  assert (row' = row) as -> by congruence. split; [|done].
  destruct (xi_row _ Hi _ _ Hrow) as [Hin _]. destruct (hi_row _ (xi_history _ Hi) _ _ Hrow) as [Hid _].
  destruct (legal_move_facts _ _ Hl) as (_ & _ & Hid0 & _).
  assert (opr_payload row = o0) as -> by (apply (xi_unique _ Hi); congruence). done.
Qed.

(** No version of the operation is as new. *)
Lemma move_newer o1 :
  In o1 (xw_versions w) -> mo_id o1 = mo_id o -> (mo_revision o1 < mo_revision o)%N.
Proof.
  intros Ho1 Hid. destruct (ow_row _ _ _ _ _ Hw) as (row & Hrow & _).
  destruct (move_from _ Hrow) as [Hl%legal_move_facts Hrev].
  destruct (xi_row _ Hi _ _ Hrow) as [_ Hmax]. specialize (Hmax _ Ho1 Hid). lia.
Qed.

Lemma matter_move_inv : matter_inv (stored o (in_db w db)).
Proof.
  destruct (ow_row _ _ _ _ _ Hw) as (row & Hrow & _ & _ & Hops).
  destruct Hfrom as (o0 & Ho0 & Hl & He).
  destruct (legal_move_facts _ _ Hl) as (_ & _ & Hid0 & _ & _ & Hr0).
  split; cbn [stored in_db xw_db xw_versions xw_issued xw_bound xw_grants xw_effects]; try apply Hi.
  - eapply history_written; [apply Hi | exact Hw|]. intros row' Hrow'. by apply move_from.
  - intros id row'. rewrite Hops, lookup_insert_Some. intros [[<- <-]|[Hne Hr]]; cbn.
    + split; [by left|]. intros o1 [<-|Ho1] Hid; [lia|]. pose proof (move_newer o1 Ho1 Hid). lia.
    + destruct (xi_row _ Hi _ _ Hr) as [Hin Hmax]. split; [by right|].
      intros o1 [<-|Ho1] Hid; [done | by apply Hmax].
  - intros o1 o2 [<-|H1'] [<-|H2'] Hid Hrev; [done| | |by apply (xi_unique _ Hi)].
    + pose proof (move_newer _ H2' (eq_sym Hid)). lia.
    + pose proof (move_newer _ H1' Hid). lia.
  - intros o1 [<-|Ho1]; [|by apply Hi]. rewrite Hid0. by apply Hi.
  - intros o1 [<-|Ho1]; [right; exists o0; split; [by right | done]|].
    destruct (xi_legal _ Hi _ Ho1) as [|(o2 & ? & ?)]; [by left|]. right. exists o2. split; [by right | done].
  - rewrite (ow_bindings _ _ _ _ _ Hw). apply Hi.
  - intros op Hop. destruct (xi_effect _ Hi op Hop) as (o1 & b & s & H1' & H2' & Hrest).
    exists o1, b, s. split; [done|]. split; [by right | done].
Qed.

Lemma matter_move_tokens u : tokens_ok w u -> tokens_ok (stored o (in_db w db)) u.
Proof.
  intros Hu. split; cbn [stored in_db xw_db xw_versions xw_issued xw_bound xw_grants]; try apply Hu.
  - intros id Hid. destruct (to_fresh _ _ Hu _ Hid) as [Hiss Hn]. split; [done|].
    intros o1 [<-|Ho1]; [|by apply Hn]. destruct Hfrom as (o0 & Ho0 & Hl%legal_move_facts & _).
    destruct Hl as (_ & _ & -> & _). by apply Hn.
  - intros id o1 Hs. destruct (to_started _ _ Hu _ _ Hs) as (Hin & Hrest). split; [by right | done].
  - intros o1 Ho1. right. by apply (to_seen _ _ Hu).
Qed.

(** A first move: nobody holds its token, and its effect was not performed. *)
Lemma move_first_new :
  mo_revision o = 2%N -> mo_id o ∉ effect_ids w /\
  forall u, tokens_ok w u -> mt_started u !! mo_id o = None.
Proof.
  intros Hr. split.
  - unfold effect_ids. rewrite list_elem_of_omap. intros (op & Hop & Heff).
    apply list_elem_of_In in Hop. destruct (xi_effect _ Hi op Hop) as (o1 & b & s & Hof & Hin & Hr1 & _).
    assert (mo_id o1 = mo_id o) as Hid.
    { destruct op; cbn in Heff; try done; injection Heff as <-; by destruct Hof. }
    pose proof (move_newer o1 Hin Hid). lia.
  - intros u Hu. destruct (mt_started u !! mo_id o) as [o1|] eqn:Hs; [|done].
    destruct (to_started _ _ Hu _ _ Hs) as (Hin & Hid & Hr1 & _).
    pose proof (move_newer o1 Hin Hid). lia.
Qed.

Lemma matter_move_step t t' :
  tokens_ok w t -> (t' = t \/ t' = add_seen o t \/ t' = moved_first o (add_seen o t)) ->
  step_ok w t (stored o (in_db w db)) t'.
Proof.
  intros Ht Ht'. split; [apply matter_move_inv|].
  assert (tokens_ok (stored o (in_db w db)) (add_seen o t)) as Hseen.
  { destruct (matter_move_tokens t Ht) as [F1 F2 F3 F4 F5]. split; try done.
    intros o1 [<-|Ho1]; [by left | by apply F3]. }
  destruct Ht' as [->|[->| ->]].
  - split; [by apply matter_move_tokens|]. intros u Hu Ha. split; [by apply matter_move_tokens | done].
  - split; [done|]. intros u Hu Ha. split; [by apply matter_move_tokens | done].
  - unfold moved_first. destruct (N.eqb_spec (mo_revision o) 2) as [Hr|Hr].
    + destruct (move_first_new Hr) as [Heff Hnone]. split.
      * destruct Hseen as [F1 F2 F3 F4 F5]. split; try done. intros id o1.
        cbn [add_started mt_started]. rewrite lookup_insert_Some.
        intros [[<- <-]|[_ Hs]]; [|by apply F2]. split; [by left|]. done.
      * intros u Hu [Hf Hd]. split; [by apply matter_move_tokens|]. split; [done|]. intros id.
        cbn [add_started mt_started]. rewrite lookup_insert_None.
        destruct (decide (mo_id o = id)) as [<-|Hne]; [right; by apply Hnone|].
        destruct (Hd id); [by left | by right].
    + split; [done|]. intros u Hu Ha. split; [by apply matter_move_tokens | done].
Qed.
End Move.

(** *** A step that stores a new operation *)

Lemma drop_id_ok v u id : tokens_ok v u -> tokens_ok v (drop_id id u).
Proof. intros [F1 F2 F3 F4 F5]. split; try done. intros x Hx. apply F1. set_solver. Qed.

Section Create.
Context (w : MatterWorld) (o : MatterOperation) (b : MatterOperationBinding) (db : MatterDb).
Context (Hi : matter_inv w) (Hc : op_created (xw_db w) o db) (Hp : mo_phase o = Mph_Requested).
Context (Hid : bd_operation_id b = mo_id o).
Context (Hb : md_bindings db = <[mo_id o := b]> (md_bindings (xw_db w))).
Context (Hfresh : mo_id o ∈ xw_issued w /\ forall o1, In o1 (xw_versions w) -> mo_id o1 <> mo_id o).

Abbreviation w' := (bound_to b (stored o (in_db w db))).

Lemma create_inv : matter_inv w'.
Proof.
  destruct (on_row _ _ _ Hc) as (installation_id & fabric_id & Hops). destruct Hfresh as [Hiss Hn].
  split; cbn [stored bound_to in_db xw_db xw_versions xw_issued xw_bound xw_grants xw_effects];
    try apply Hi.
  - eapply history_created; [apply Hi | done | done|]. intros id b1. rewrite Hb, lookup_insert_Some.
    intros [[<- <-]|[_ Hl]]; [done|]. by apply (hi_binding _ (xi_history _ Hi)).
  - intros id row'. rewrite Hops, lookup_insert_Some. intros [[<- <-]|[Hne Hr]]; cbn.
    + split; [by left|]. intros o1 [<-|Ho1] Ho; [lia|]. by apply Hn in Ho1.
    + destruct (xi_row _ Hi _ _ Hr) as [Hin Hmax]. split; [by right|].
      intros o1 [<-|Ho1] Ho; [done | by apply Hmax].
  - intros o1 o2 [<-|H1'] [<-|H2'] Ho Hrev; [done| | |by apply (xi_unique _ Hi)].
    + by apply Hn in H2'.
    + by apply Hn in H1'.
  - intros o1 [<-|Ho1]; [done | by apply Hi].
  - intros o1 [<-|Ho1]; [left; split; [apply Hc | done]|].
    destruct (xi_legal _ Hi _ Ho1) as [|(o2 & ? & ?)]; [by left|]. right. exists o2. split; [by right | done].
  - intros id b1. rewrite Hb, lookup_insert_Some. intros [[_ <-]|[_ Hl]]; [by left|].
    right. by eapply (xi_bound _ Hi).
  - intros op Hop. destruct (xi_effect _ Hi op Hop) as (o1 & b1 & s & H1' & H2' & H3' & H4' & Hrest).
    exists o1, b1, s. split; [done|]. split; [by right|]. split; [done|]. split; [by right | done].
Qed.

Lemma create_tokens u : tokens_ok w u -> mo_id o ∉ mt_fresh u -> tokens_ok w' u.
Proof.
  intros Hu Hnot. split; cbn [stored bound_to in_db xw_db xw_versions xw_issued xw_bound xw_grants];
    try apply Hu.
  - intros id Hin. destruct (to_fresh _ _ Hu _ Hin) as [Hiss Hn]. split; [done|].
    intros o1 [<-|Ho1]; [congruence | by apply Hn].
  - intros id o1 Hs. destruct (to_started _ _ Hu _ _ Hs) as (Hin & Hrest). split; [by right | done].
  - intros o1 Ho1. right. by apply (to_seen _ _ Hu).
  - intros b1 Hb1. right. by apply (to_bound _ _ Hu).
Qed.

Lemma matter_create_step t :
  tokens_ok w t -> mo_id o ∈ mt_fresh t -> step_ok w t w' (drop_id (mo_id o) t).
Proof.
  intros Ht Hin. split; [apply create_inv|]. split.
  - apply create_tokens; [by apply drop_id_ok|]. cbn. set_solver.
  - intros u Hu [Hf Hd]. split; [apply create_tokens; [done|]; set_solver|].
    split; [|done]. cbn. set_solver.
Qed.
End Create.

(** *** A step that performs an effect *)

Lemma effect_step w op id o b s t :
  matter_inv w -> tokens_ok w t -> effect_id op = Some id -> mt_started t !! id = Some o ->
  effect_of op o -> In b (mt_bound t) -> In s (mt_security t) -> authorised o b s ->
  step_ok w t (performed w op) (drop_started id t).
Proof.
  intros Hi Ht Hid Hst Hof Hb Hs Ha. destruct (to_started _ _ Ht _ _ Hst) as (Hin & Ho & Hr & Hnew).
  assert (effect_ids (performed w op) = id :: effect_ids w) as Hids
    by (unfold effect_ids; cbn; by rewrite Hid).
  split; [|split].
  - split; try apply Hi.
    + intros op' [<-|Hop]; [|by apply Hi]. exists o, b, s. do 3 (split; [done|]).
      split; [by apply (to_bound _ _ Ht)|]. split; [by apply (to_security _ _ Ht) | done].
    + rewrite Hids. constructor; [done | apply Hi].
  - destruct Ht as [F1 F2 F3 F4 F5]. split; try done. intros id' o'. rewrite Hids.
    cbn [drop_started mt_started]. rewrite lookup_delete_Some. intros [Hne Hl].
    destruct (F2 _ _ Hl) as (? & ? & ? & ?). do 3 (split; [done|]). rewrite elem_of_cons. naive_solver.
  - intros u [F1 F2 F3 F4 F5] [Hf Hd]. split.
    + split; try done. intros id' o' Hl. rewrite Hids. destruct (F2 _ _ Hl) as (? & ? & ? & ?).
      do 3 (split; [done|]). rewrite elem_of_cons. intros [->|?]; [|done].
      destruct (Hd id); congruence.
    + split; [done|]. intros id'. cbn [drop_started mt_started].
      destruct (Hd id') as [Hn|Hn]; [left; by rewrite lookup_delete_None; right | by right].
Qed.

(** *** Every operation *)

Lemma writes_cases {A} w (m : result (MatterDb * A) StorageError) note r w' :
  writes w m note r w' ->
  (w' = w /\ exists e, r = Err e) \/
  exists db a, m = Ok (db, a) /\ w' = note a (in_db w db) /\ (r = Ok a \/ r = Err Be_Transport).
Proof.
  intros [[-> ->]|Hm]; [left; eauto|]. destruct m as [[db a]|e].
  - right. exists db, a. naive_solver.
  - destruct Hm as [-> ->]. left. eauto.
Qed.

Lemma as_unit_ok m db u : as_unit m = Ok (db, u) -> m = Ok db.
Proof. unfold as_unit. intros Hm. ok_inv. by simplify_eq. Qed.

Lemma quiet_step w t m r w' :
  matter_inv w -> tokens_ok w t -> (forall db, m = Ok db -> shrinks (xw_db w) db) ->
  writes w (as_unit m) quiet r w' -> step_ok w t w' t.
Proof.
  intros Hi Ht Hm [[-> _]|(db & u & Hok%as_unit_ok & -> & _)]%writes_cases;
    apply matter_benign_step; try done; [apply benign_refl | by apply benign_db, Hm].
Qed.

(** A transaction that writes one move. *)
Lemma written_step w t o expected p m (Q : MatterTokens) r w' :
  matter_inv w -> tokens_ok w t ->
  (forall db, m = Ok db -> op_written (xw_db w) o expected p db) ->
  moves_from t o expected -> (Q = t \/ Q = add_seen o t \/ Q = moved_first o (add_seen o t)) ->
  writes w (as_unit m) (noted o) r w' ->
  step_ok w t w' (match r with Ok _ => Q | Err _ => t end).
Proof.
  intros Hi Ht Hm (o0 & Ho0 & Hl & He) HQ [(-> & e & ->)|(db & u & Hok%as_unit_ok & -> & Hr)]%writes_cases.
  { by apply matter_benign_step, benign_refl. }
  assert (exists o0, In o0 (xw_versions w) /\ legal_move o0 o /\ mo_revision o0 = expected) as Hfrom
    by (exists o0; split; [by apply (to_seen _ _ Ht) | done]).
  unfold noted. eapply matter_move_step; eauto. destruct Hr as [-> | ->]; [done | by left].
Qed.

Lemma moves_from_versions w t o expected :
  tokens_ok w t -> moves_from t o expected ->
  exists o0, In o0 (xw_versions w) /\ legal_move o0 o /\ mo_revision o0 = expected.
Proof.
  intros Ht (o0 & Ho0 & Hl & He). exists o0. split; [by apply (to_seen _ _ Ht) | done].
Qed.

Lemma reads_step {A} w t (v : result A StorageError) r w' :
  matter_inv w -> tokens_ok w t -> reads w v r w' -> step_ok w t w' t.
Proof. intros Hi Ht [-> _]. by apply matter_benign_step, benign_refl. Qed.

Lemma loaded_operation db id o b :
  history_inv db -> load_administration_operation db id = Ok (Some (o, b)) ->
  exists row, md_operations db !! id = Some row /\ opr_payload row = o /\ md_bindings db !! id = Some b /\
    mo_id o = id /\ bd_operation_id b = id /\ MatterOperation.validate_persisted o = Ok tt.
Proof.
  unfold load_administration_operation, decode_operation. intros Hi Hl.
  destruct (md_operations db !! id) as [row|] eqn:Hrow; [|done].
  destruct (md_bindings db !! id) as [b'|] eqn:Hb; [|done]. ok_inv.
  destruct (MatterOperation.validate_persisted (opr_payload row)) as [[]|] eqn:Hv; [|done].
  simplify_eq. exists row. destruct (hi_row _ Hi _ _ Hrow) as [Hid _].
  do 4 (split; [done|]). split; [by apply (hi_binding _ Hi) | done].
Qed.

(** A task that knows more, and may do nothing more. *)
Lemma step_knows w t w' t' :
  step_ok w t w' t -> mt_fresh t' = mt_fresh t -> mt_started t' = mt_started t ->
  incl (mt_seen t') (xw_versions w') -> incl (mt_bound t') (xw_bound w') ->
  incl (mt_security t') (xw_grants w') -> step_ok w t w' t'.
Proof.
  intros (Hi & [F1 F2 F3 F4 F5] & Hu) Hf Hs H1' H2' H3'. split; [done|]. split.
  - split; rewrite ?Hf, ?Hs; try done.
  - intros u Hok Ha. destruct (Hu u Hok Ha) as [Hok' Ha']. split; [done|].
    unfold apart. by rewrite Hf, Hs.
Qed.

Lemma draw_step w t r :
  matter_inv w -> tokens_ok w t -> r ∉ xw_issued w -> step_ok w t (draw w r) (add_id r t).
Proof.
  intros Hi Ht Hr. assert (benign w (draw w r)) as Hb.
  { split; try done; [cbn; set_solver | apply incl_refl]. }
  split; [by eapply matter_benign_inv|]. split.
  - destruct (matter_benign_tokens _ _ _ Ht Hb) as [F1 F2 F3 F4 F5]. split; try done.
    intros id. cbn [add_id mt_fresh draw xw_issued xw_versions]. rewrite elem_of_union, elem_of_singleton.
    intros [->|Hid]; [|by apply F1]. split; [set_solver|]. intros o Ho Hid. apply Hr. rewrite <- Hid.
    by apply Hi.
  - intros u Hu [Hf Hd]. split; [by eapply matter_benign_tokens|]. split; [|done]. cbn.
    assert (r ∉ mt_fresh u); [|set_solver]. intros Hin. by apply (to_fresh _ _ Hu) in Hin as [? _].
Qed.

Lemma security_step w t id (r : result (option ActorSecurity) BoxError) w' :
  matter_inv w -> tokens_ok w t -> op_step w (Wo_actor_security id) r w' ->
  step_ok w t w' (gives (Wo_actor_security id) r t).
Proof.
  intros Hi Ht [[-> ->]|[-> ->]]; [by apply matter_benign_step, benign_refl|].
  destruct (load_actor_security _ _) as [s|]; [|by apply matter_benign_step, benign_refl].
  assert (benign w (grant w s)) as Hb.
  { split; try done. by apply incl_tl, incl_refl. }
  pose proof (matter_benign_step _ _ _ Hi Ht Hb) as Hs. eapply step_knows; try done; cbn.
  - apply Ht.
  - apply Ht.
  - intros x [<-|Hx]; [by left | right]. by apply (to_security _ _ Ht).
Qed.

Lemma load_step w t id (r : result (option (MatterOperation * MatterOperationBinding)) BoxError) w' :
  matter_inv w -> tokens_ok w t -> op_step w (Wo_administration_operation id) r w' ->
  step_ok w t w' (gives (Wo_administration_operation id) r t) /\
  assumes (Wo_administration_operation id) r (gives (Wo_administration_operation id) r t).
Proof.
  intros Hi Ht [-> Hr]. assert (step_ok w t w t) as Hs by (by apply matter_benign_step, benign_refl).
  destruct Hr as [-> | ->]; [|done].
  destruct (load_administration_operation (xw_db w) id) as [[[o b]|]|e] eqn:Hl; [|done|done].
  destruct (loaded_operation _ _ _ _ (xi_history _ Hi) Hl) as (row & Hrow & <- & Hb & Hid & Hbid & Hv).
  split; [|done]. eapply step_knows; try done; cbn.
  - intros x [<-|Hx]; [by apply (xi_row _ Hi id) | by apply (to_seen _ _ Ht)].
  - intros x [<-|Hx]; [by apply (xi_bound _ Hi id) | by apply (to_bound _ _ Ht)].
  - apply Ht.
Qed.

Lemma admit_step w t o b p event (r : result MatterOperationCreateOutcome BoxError) w' :
  matter_inv w -> tokens_ok w t -> mo_id o ∈ mt_fresh t -> mo_phase o = Mph_Requested ->
  writes w (create_administration_operation (xw_db w) event o b p)
    (fun outcome w => match outcome with Oc_Created _ => bound_to b (stored o w) | _ => w end) r w' ->
  step_ok w t w' (drop_id (mo_id o) t).
Proof.
  intros Hi Ht Hin Hp Hw.
  assert (step_ok w t w (drop_id (mo_id o) t)) as Hnone.
  { split; [done|]. split; [by apply drop_id_ok|]. intros u Hu [Hf Hd]. split; [done|].
    split; [cbn; set_solver | done]. }
  destruct (writes_cases _ _ _ _ _ Hw) as [(-> & _)|(db & outcome & Hok & -> & _)]; [done|].
  apply create_administration_created in Hok as [[-> Ho]|(Hc & Hid & Hb & ->)].
  - destruct outcome as [o'| |]; [by destruct (Ho o')| |]; by destruct w.
  - eapply matter_create_step; try done. by apply (to_fresh _ _ Ht).
Qed.

(** The two moves of a cancellation. *)
Lemma cancellation_step w t commit event event' (r : result unit BoxError) w' :
  matter_inv w -> tokens_ok w t ->
  moves_from t (xc_commissioning commit) (xc_expected_commissioning_revision commit) ->
  moves_from t (xc_cancellation commit) (xc_expected_cancellation_revision commit) ->
  writes w (as_unit (commit_matter_cancellation (xw_db w) event event' commit))
    (fun _ w => stored (xc_cancellation commit) (stored (xc_commissioning commit) w)) r w' ->
  step_ok w t w' t.
Proof.
  intros Hi Ht H1' H2' [(-> & _)|(db & u & Hok%as_unit_ok & -> & _)]%writes_cases.
  { by apply matter_benign_step, benign_refl. }
  apply commit_cancellation_written in Hok as (db1 & Hw1 & Hw2).
  destruct (matter_move_step _ _ _ _ _ Hi Hw1 (moves_from_versions _ _ _ _ Ht H1') t t Ht (or_introl eq_refl))
    as (Hi1 & Ht1 & Hu1).
  destruct (matter_move_step _ _ _ _ _ Hi1 Hw2 (moves_from_versions _ _ _ _ Ht1 H2') t t Ht1 (or_introl eq_refl))
    as (Hi2 & Ht2 & Hu2).
  split; [done|]. split; [done|]. intros v Hv Ha. destruct (Hu1 v Hv Ha) as [Hv1 Ha1]. by apply Hu2.
Qed.

Lemma matter_op_preserves w op r w' t :
  matter_inv w -> tokens_ok w t -> needs op t -> op_step w op r w' ->
  step_ok w t w' (gives op r t) /\ assumes op r (gives op r t).
Proof.
  intros Hi Ht Hn Hop.
  destruct op;
    try (split; [|exact I]);
    try (by eapply reads_step);
    try (by cbn in Hop; unfold asks in Hop; subst; apply matter_benign_step, benign_refl);
    try (by eapply quiet_step; [done|done| |exact Hop]; intros db' Hdb; apply same_shrinks;
         first [by eapply store_fabric_stage_same | by eapply delete_stage_same
               | by eapply store_fabric_same | by eapply store_subscription_same]);
    try (cbn in Hop; unfold asks in Hop; subst; destruct Hn as (o & b & s & Hst & Hof & Hb & Hs & Ha);
         by eapply effect_step).
  - destruct Hop as [Hr ->]. by apply draw_step.
  - by apply security_step.
  - destruct Hop as [event Hop]. destruct Hn. by eapply admit_step.
  - by apply load_step.
  - destruct Hop as [event Hop]. eapply written_step; eauto.
    intros db Hdb. by eapply transition_operation_written.
  - destruct Hop as [event Hop].
    assert (step_ok w t w' (match r with Ok _ => t | Err _ => t end)) as Hs.
    { eapply written_step; eauto. intros db Hdb. by eapply commit_commissioning_written. }
    by destruct r.
  - destruct Hop as (event & event' & Hop). destruct Hn. by eapply cancellation_step.
  - destruct Hop as [event Hop].
    assert (step_ok w t w' (match r with Ok _ => t | Err _ => t end)) as Hs.
    { eapply written_step; eauto. intros db Hdb. by eapply commit_removal_written. }
    by destruct r.
  - destruct Hop as [event Hop]. eapply written_step; eauto.
    intros db Hdb. by eapply commit_repair_written.
Qed.

(** ** The running system *)

Lemma matter_no_tokens_ok w : tokens_ok w no_matter_tokens.
Proof. split; try done; try apply incl_nil_l; cbn; set_solver. Qed.

Lemma matter_no_tokens_apart t : apart t no_matter_tokens.
Proof. split; [set_solver | by right]. Qed.

Definition sys_inv (s : MatterSystem) : Prop :=
  matter_inv (xs_world s) /\
  exists toks, tasks_ok needs gives assumes tokens_ok apart (xs_world s) (xs_tasks s) toks.

(** A change that keeps the operations keeps every task safe. *)
Lemma benign_tasks w w' tasks toks :
  tasks_ok needs gives assumes tokens_ok apart w tasks toks -> benign w w' ->
  tasks_ok needs gives assumes tokens_ok apart w' tasks toks.
Proof. intros Hk Hb. eapply tasks_ok_world; [exact Hk|]. intros u Hu. by eapply matter_benign_tokens. Qed.

Lemma matter_step_inv s s' : sys_inv s -> matter_step s s' -> sys_inv s'.
Proof.
  intros [Hw [toks Hk]] Hs. destruct Hs as [w tasks call|w tasks i op k r w' Hi Hop|w tasks i|w tasks
    |w tasks db Hf|w tasks retention]; cbn [xs_world xs_tasks] in *.
  - split; [done|]. exists (toks ++ [no_matter_tokens]).
    apply tasks_ok_spawn; auto using matter_apart_sym, matter_no_tokens_ok, matter_no_tokens_apart. apply mw_call.
  - destruct (tasks_ok_head _ _ _ _ _ _ _ _ _ _ _ Hk Hi) as (t & Ht & Hok & Hn & Hr).
    destruct (matter_op_preserves w op r w' t Hw Hok Hn Hop) as [(Hi' & Ht' & Hu) Has].
    split; [done|]. exists (<[i := gives op r t]> toks). eapply tasks_ok_insert; eauto using matter_apart_sym.
  - split; [done|]. eapply tasks_ok_drop; eauto using matter_apart_sym, matter_no_tokens_ok, matter_no_tokens_apart.
  - split; [done|]. exists []. apply tasks_ok_nil.
  - assert (benign w (in_db w db)) as Hb by (by apply benign_db).
    split; [by eapply matter_benign_inv|]. exists toks. by eapply benign_tasks.
  - assert (benign w (in_db w (retain (xw_db w) retention).1)) as Hb
      by (apply benign_db, retain_shrinks).
    split; [by eapply matter_benign_inv|]. exists toks. by eapply benign_tasks.
Qed.

Lemma matter_initial_inv s : initial s -> sys_inv s.
Proof.
  intros (Ho & Hp & Hb & Hv & He & Ht). split; [|exists []; rewrite Ht; apply tasks_ok_nil].
  split; unfold effect_ids; rewrite ?Ho, ?Hb, ?Hv, ?He; try done; try constructor;
    rewrite ?Ho, ?Hp, ?Hb; try done; intros; by rewrite lookup_empty in *.
Qed.

Lemma matter_reachable_inv s : reachable s -> sys_inv s.
Proof. induction 1; [by apply matter_initial_inv | by eapply matter_step_inv]. Qed.
End System.
