(* ===== verification/AutomationStore.v ===== *)
(** The automation tables of the SQLite repository,
    [crates/homemagic-storage/src/automation_repository.rs], with the contract
    data of [crates/homemagic-application/src/automation_repository.rs].  A row
    is its payload: every statement writes the columns and the payload of a row
    together.  A transaction returns the database it commits, or the error that
    rolls it back. *)

From S2P Require Import Prelude Text BTree Json Capability Lifecycle Device Command CommandStore MatterOperation Automation Identity.

(** ** Contract data of the port *)

Record AutomationDraft := mk_draft {
  dft_automation_id : AutomationId;
  dft_revision : N;
  dft_document : AutomationDocument;
  dft_actor_id : ActorId;
  dft_updated_at : Instant
}.

Record AutomationValidationEvidence := mk_validation {
  ve_document_hash : AutomationContentHash;
  ve_plan_hash : AutomationContentHash;
  ve_registry_revision : AutomationRegistryRevision;
  ve_validated_at : Instant
}.
#[export] Instance AutomationValidationEvidence_eq_dec : EqDecision AutomationValidationEvidence.
Proof. solve_decision. Defined.

Record AutomationSimulationEvidence := mk_simulation {
  se_document_hash : AutomationContentHash;
  se_plan_hash : AutomationContentHash;
  se_registry_revision : AutomationRegistryRevision;
  se_trace_hash : AutomationContentHash;
  se_succeeded : bool;
  se_simulated_at : Instant
}.
#[export] Instance AutomationSimulationEvidence_eq_dec : EqDecision AutomationSimulationEvidence.
Proof. solve_decision. Defined.

Record StoredAutomationVersion := mk_stored_version {
  sv_document : AutomationDocument;
  sv_plan : AutomationExecutionPlan;
  sv_state : AutomationVersionState;
  sv_validation : AutomationValidationEvidence;
  sv_simulation : option AutomationSimulationEvidence
}.
#[export] Instance StoredAutomationVersion_eq_dec : EqDecision StoredAutomationVersion.
Proof. solve_decision. Defined.

Record AutomationIdentityState := mk_identity {
  id_id : AutomationId;
  id_state : AutomationOperationalState;
  id_active_version : option AutomationVersion;
  id_revision : N;
  id_created_at : Instant;
  id_updated_at : Instant
}.

Record ActiveAutomationVersion := mk_active {
  aav_identity : AutomationIdentityState;
  aav_version : StoredAutomationVersion
}.

Record AutomationActivation := mk_activation {
  atv_automation_id : AutomationId;
  atv_version : AutomationVersion;
  atv_expected_revision : N;
  atv_document_hash : AutomationContentHash;
  atv_plan_hash : AutomationContentHash;
  atv_registry_revision : AutomationRegistryRevision;
  atv_activated_at : Instant
}.

Record AutomationRecovery := mk_recovery {
  rcv_occurrences : list AutomationOccurrence;
  rcv_runs : list AutomationRun;
  rcv_timers : list AutomationTimer
}.

Record AutomationEventCursor := mk_cursor {
  ecu_cursor : N;
  ecu_revision : N
}.
#[export] Instance AutomationEventCursor_eq_dec : EqDecision AutomationEventCursor.
Proof. solve_decision. Defined.

Record AutomationStepWrite := mk_step_write {
  sw_run : AutomationRun;
  sw_expected_run_revision : N;
  sw_trace : list AutomationTraceStep;
  sw_create_timers : list AutomationTimer;
  sw_transition_timers : list AutomationTimer
}.

Record AutomationRetention := mk_retention {
  ar_drafts_before : Instant;
  ar_runtime_before : Instant;
  ar_versions_before : Instant;
  ar_limit_per_category : N
}.

Record AutomationRetentionResult := mk_automation_retention_result {
  arr_drafts : N;
  arr_trace_steps : N;
  arr_timers : N;
  arr_runs : N;
  arr_occurrences : N;
  arr_approvals : N;
  arr_versions : N
}.

(** ** The tables *)

Record AutomationDb := mk_adb {
  ad_identities : gmap AutomationId AutomationIdentityState;
  ad_drafts : gmap AutomationId AutomationDraft;
  ad_versions : gmap (AutomationId * N) StoredAutomationVersion;
  ad_approvals : gmap AutomationApprovalId AutomationApprovalRecord;
  ad_occurrences : gmap AutomationOccurrenceId AutomationOccurrence;
  ad_runs : gmap AutomationRunId AutomationRun;
  ad_timers : gmap AutomationTimerId AutomationTimer;
  ad_trace : list AutomationTraceStep;
  ad_cursor : option AutomationEventCursor;
  ad_events : list DomainEvent
}.

Definition empty_adb : AutomationDb := mk_adb ∅ ∅ ∅ ∅ ∅ ∅ ∅ [] None [].

Definition set_identities (db : AutomationDb) v :=
  mk_adb v (ad_drafts db) (ad_versions db) (ad_approvals db) (ad_occurrences db) (ad_runs db)
    (ad_timers db) (ad_trace db) (ad_cursor db) (ad_events db).
Definition set_drafts (db : AutomationDb) v :=
  mk_adb (ad_identities db) v (ad_versions db) (ad_approvals db) (ad_occurrences db) (ad_runs db)
    (ad_timers db) (ad_trace db) (ad_cursor db) (ad_events db).
Definition set_versions (db : AutomationDb) v :=
  mk_adb (ad_identities db) (ad_drafts db) v (ad_approvals db) (ad_occurrences db) (ad_runs db)
    (ad_timers db) (ad_trace db) (ad_cursor db) (ad_events db).
Definition set_approvals (db : AutomationDb) v :=
  mk_adb (ad_identities db) (ad_drafts db) (ad_versions db) v (ad_occurrences db) (ad_runs db)
    (ad_timers db) (ad_trace db) (ad_cursor db) (ad_events db).
Definition set_occurrences (db : AutomationDb) v :=
  mk_adb (ad_identities db) (ad_drafts db) (ad_versions db) (ad_approvals db) v (ad_runs db)
    (ad_timers db) (ad_trace db) (ad_cursor db) (ad_events db).
Definition set_runs (db : AutomationDb) v :=
  mk_adb (ad_identities db) (ad_drafts db) (ad_versions db) (ad_approvals db) (ad_occurrences db) v
    (ad_timers db) (ad_trace db) (ad_cursor db) (ad_events db).
Definition set_timers (db : AutomationDb) v :=
  mk_adb (ad_identities db) (ad_drafts db) (ad_versions db) (ad_approvals db) (ad_occurrences db)
    (ad_runs db) v (ad_trace db) (ad_cursor db) (ad_events db).
Definition set_trace (db : AutomationDb) v :=
  mk_adb (ad_identities db) (ad_drafts db) (ad_versions db) (ad_approvals db) (ad_occurrences db)
    (ad_runs db) (ad_timers db) v (ad_cursor db) (ad_events db).
Definition set_cursor (db : AutomationDb) v :=
  mk_adb (ad_identities db) (ad_drafts db) (ad_versions db) (ad_approvals db) (ad_occurrences db)
    (ad_runs db) (ad_timers db) (ad_trace db) v (ad_events db).
Definition set_events (db : AutomationDb) v :=
  mk_adb (ad_identities db) (ad_drafts db) (ad_versions db) (ad_approvals db) (ad_occurrences db)
    (ad_runs db) (ad_timers db) (ad_trace db) (ad_cursor db) v.

Definition invalid {A : Type} (reason : string) : result A StorageError :=
  Err (Se_InvalidAutomation reason).

(** [LIMIT]: at most [limit] rows in the order of the query. *)
Definition page {A : Type} (limit : nat) (le : A -> A -> bool) (rows : list A) : list A :=
  take (Nat.min limit MAX_QUERY_PAGE) (sort_by le rows).

(** [ORDER BY first, second] for an instant and a text key. *)
Definition by_instant_then (first : Instant * string) (second : Instant * string) : bool :=
  (first.1 <? second.1)%Z || ((first.1 =? second.1)%Z && str_leb first.2 second.2).

Section Store.
Context `{Uuids}.

Definition append_event (db : AutomationDb) (event : EventId -> DomainEvent) : AutomationDb :=
  set_events db (ad_events db ++ [event (uuid_v4 (length (ad_events db)))]).

Definition version_event (version : StoredAutomationVersion)
  (from : option AutomationVersionState) (occurred_at : Instant) (id : EventId) : DomainEvent :=
  let document := sv_document version in
  mk_event id None occurred_at
    (mk_metadata (CorrelationId.from_key
        (colon_join ["automation-version"; do_id document; show_N (do_version document)])) None
      (Some (pv_author_id (do_provenance document))) None)
    (Ev_AutomationVersionTransitioned (do_id document) (do_version document) from (sv_state version)).

Definition operational_event (identity : AutomationIdentityState)
  (from : AutomationOperationalState) (actor : option string) (id : EventId) : DomainEvent :=
  mk_event id None (id_updated_at identity)
    (mk_metadata (CorrelationId.from_key
        (colon_join ["automation-operation"; id_id identity; show_N (id_revision identity)])) None
      actor None)
    (Ev_AutomationOperationalTransitioned (id_id identity) (id_active_version identity) from
      (id_state identity) (id_revision identity)).

Definition run_event (run : AutomationRun) (from : option AutomationRunState) (id : EventId) :
  DomainEvent :=
  mk_event id None (ru_updated_at run)
    (mk_metadata (ru_correlation_id run) (ru_causation_event_id run) (Some (ru_actor_id run)) None)
    (Ev_AutomationRunTransitioned (ru_automation_id run) (ru_version run) (ru_id run) from
      (ru_state run) (ru_revision run)).

(** ** Drafts and identities *)

Definition ensure_identity (db : AutomationDb) (automation_id : AutomationId) (created_at : Instant) :
  AutomationDb :=
  match ad_identities db !! automation_id with
  | Some _ => db
  | None => set_identities db (<[automation_id :=
      mk_identity automation_id Op_Inactive None 0 created_at created_at]> (ad_identities db))
  end.

Definition store_draft (db : AutomationDb) (draft : AutomationDraft) (expected_revision : option N) :
  result AutomationDb StorageError :=
  guard? String.eqb (dft_automation_id draft) (do_id (dft_document draft))
    else Se_InvalidAutomation "draft identity mismatch" in
  let db := ensure_identity db (dft_automation_id draft) (do_created_at (dft_document draft)) in
  let found := dft_revision <$> ad_drafts db !! dft_automation_id draft in
  guard? bool_decide (found = expected_revision)
         && N.eqb (dft_revision draft)
              (match expected_revision with Some revision => u64_saturating_add revision 1 | None => 0%N end)
    else Se_AutomationDraftConflict expected_revision found in
  let? _ := to_i64 (dft_revision draft) in
  Ok (set_drafts db (<[dft_automation_id draft := draft]> (ad_drafts db))).

Definition automation_drafts (db : AutomationDb) (limit : nat) : list AutomationDraft :=
  page limit (fun a b => by_instant_then (dft_updated_at b, dft_automation_id b)
                                         (dft_updated_at a, dft_automation_id a))
    (map snd (map_to_list (ad_drafts db))).

(** ** Versions *)

Definition load_version (db : AutomationDb) (automation_id : AutomationId) (version : N) :
  result (option StoredAutomationVersion) StorageError :=
  let? _ := to_i64 version in Ok (ad_versions db !! (automation_id, version)).

Definition validate_version `{Sha256} `{AutomationEncoding} (version : StoredAutomationVersion) :
  result unit StorageError :=
  let plan := sv_plan version in
  let evidence := sv_validation version in
  let? document_hash := map_err (fun _ => Se_InvalidAutomation "document hashing failed")
    (canonical_automation_hash (encode_document (sv_document version))) in
  let? plan_hash := map_err (fun _ => Se_InvalidAutomation "plan hashing failed")
    (canonical_automation_plan_hash plan) in
  guard? String.eqb (do_id (sv_document version)) (pl_automation_id plan)
         && N.eqb (do_version (sv_document version)) (pl_automation_version plan)
         && bool_decide (document_hash = pl_document_hash plan)
         && bool_decide (plan_hash = pl_plan_hash plan)
         && bool_decide (ve_document_hash evidence = pl_document_hash plan)
         && bool_decide (ve_plan_hash evidence = pl_plan_hash plan)
         && N.eqb (ve_registry_revision evidence) (pl_registry_revision plan)
    else Se_InvalidAutomation "version validation evidence mismatch" in
  match sv_simulation version with
  | Some simulation =>
      guard? bool_decide (se_document_hash simulation = pl_document_hash plan)
             && bool_decide (se_plan_hash simulation = pl_plan_hash plan)
             && N.eqb (se_registry_revision simulation) (pl_registry_revision plan)
        else Se_InvalidAutomation "version simulation evidence mismatch" in
      Ok tt
  | None => Ok tt
  end.

Definition version_key (version : StoredAutomationVersion) : AutomationId * N :=
  (do_id (sv_document version), do_version (sv_document version)).

(** The uniqueness constraints of a new row: the primary key and one row per
    automation for each document hash and for each plan hash. *)
Definition version_conflict (db : AutomationDb) (version : StoredAutomationVersion) : bool :=
  existsb (fun '((automation_id, number), stored) =>
    String.eqb automation_id (do_id (sv_document version))
    && (N.eqb number (do_version (sv_document version))
        || bool_decide (pl_document_hash (sv_plan stored) = pl_document_hash (sv_plan version))
        || bool_decide (pl_plan_hash (sv_plan stored) = pl_plan_hash (sv_plan version))))
    (map_to_list (ad_versions db)).

Definition store_version `{Sha256} `{AutomationEncoding} (db : AutomationDb)
  (version : StoredAutomationVersion) : result AutomationDb StorageError :=
  let? _ := validate_version version in
  let db := ensure_identity db (do_id (sv_document version)) (do_created_at (sv_document version)) in
  let? _ := to_i64 (do_version (sv_document version)) in
  let? _ := to_i64 (pl_registry_revision (sv_plan version)) in
  if version_conflict db version then
    let? existing := load_version db (do_id (sv_document version)) (do_version (sv_document version)) in
    if bool_decide (existing = Some version) then Ok db
    else invalid "immutable automation version conflict"
  else
    Ok (append_event (set_versions db (<[version_key version := version]> (ad_versions db)))
          (version_event version None (ve_validated_at (sv_validation version)))).

Definition automation_versions (db : AutomationDb) (automation_id : AutomationId) (limit : nat) :
  list StoredAutomationVersion :=
  page limit (fun a b => N.leb (do_version (sv_document b)) (do_version (sv_document a)))
    (List.filter (fun version => String.eqb (do_id (sv_document version)) automation_id)
      (map snd (map_to_list (ad_versions db)))).

Definition transition_version `{Sha256} `{AutomationEncoding} (db : AutomationDb)
  (version : StoredAutomationVersion) (expected_state : AutomationVersionState) :
  result AutomationDb StorageError :=
  let? _ := validate_version version in
  let? loaded := load_version db (do_id (sv_document version)) (do_version (sv_document version)) in
  let? current := ok_or loaded (Se_InvalidAutomation "automation version missing") in
  guard? negb (negb (bool_decide (sv_state current = expected_state))
      || negb (AutomationVersionState.allows_transition_to (sv_state current) (sv_state version))
      || negb (bool_decide (sv_document current = sv_document version))
      || negb (bool_decide (sv_plan current = sv_plan version))
      || negb (bool_decide (sv_validation current = sv_validation version))
      || (bool_decide (is_Some (sv_simulation current))
          && negb (bool_decide (sv_simulation current = sv_simulation version))))
    else Se_InvalidAutomation "invalid automation version transition" in
  let occurred_at := match sv_simulation version with
                     | Some evidence => se_simulated_at evidence
                     | None => ve_validated_at (sv_validation version)
                     end in
  Ok (append_event (set_versions db (<[version_key version := version]> (ad_versions db)))
        (version_event version (Some (sv_state current)) occurred_at)).

(** ** Approval and activation *)

Definition append_approval (db : AutomationDb) (approval : AutomationApprovalRecord) :
  result AutomationDb StorageError :=
  let? loaded := load_version db (apv_automation_id approval) (apv_version approval) in
  let? version := ok_or loaded (Se_InvalidAutomation "approval version missing") in
  guard? bool_decide (apv_document_hash approval = pl_document_hash (sv_plan version))
         && bool_decide (apv_plan_hash approval = pl_plan_hash (sv_plan version))
    else Se_InvalidAutomation "approval evidence mismatch" in
  match ad_approvals db !! apv_id approval with
  | Some existing =>
      if bool_decide (existing = approval) then Ok db
      else invalid "stable automation identity payload conflict"
  | None => Ok (set_approvals db (<[apv_id approval := approval]> (ad_approvals db)))
  end.

Definition is_exact_approval (activation : AutomationActivation) (approval : AutomationApprovalRecord) :
  bool :=
  String.eqb (apv_automation_id approval) (atv_automation_id activation)
  && N.eqb (apv_version approval) (atv_version activation)
  && bool_decide (apv_state approval = Ap_Approved)
  && bool_decide (apv_document_hash approval = atv_document_hash activation)
  && bool_decide (apv_plan_hash approval = atv_plan_hash activation).

Definition has_exact_approval (db : AutomationDb) (activation : AutomationActivation) :
  result bool StorageError :=
  let? _ := to_i64 (atv_version activation) in
  Ok (existsb (is_exact_approval activation) (map snd (map_to_list (ad_approvals db)))).

Definition activate (db : AutomationDb) (activation : AutomationActivation) :
  result (AutomationDb * AutomationIdentityState) StorageError :=
  let? loaded := load_version db (atv_automation_id activation) (atv_version activation) in
  let? version := ok_or loaded (Se_InvalidAutomation "activation version missing") in
  let plan := sv_plan version in
  guard? bool_decide (atv_document_hash activation = pl_document_hash plan)
         && bool_decide (atv_plan_hash activation = pl_plan_hash plan)
         && N.eqb (atv_registry_revision activation) (pl_registry_revision plan)
    else Se_InvalidAutomation "activation evidence mismatch" in
  let? simulation := ok_or
    (simulation ← sv_simulation version;
     if se_succeeded simulation then Some simulation else None)
    (Se_InvalidAutomation "successful simulation evidence missing") in
  guard? bool_decide (se_document_hash simulation = atv_document_hash activation)
         && bool_decide (se_plan_hash simulation = atv_plan_hash activation)
         && N.eqb (se_registry_revision simulation) (atv_registry_revision activation)
    else Se_InvalidAutomation "activation simulation evidence mismatch" in
  let? approved := if bool_decide (pl_approval plan = Apr_ExplicitUserApproval)
                   then has_exact_approval db activation else Ok true in
  guard? approved else Se_InvalidAutomation "exact user approval missing" in
  let? identity := ok_or (ad_identities db !! atv_automation_id activation)
                     (Se_InvalidAutomation "automation identity missing") in
  guard? negb (bool_decide (id_state identity = Op_Retired))
    else Se_InvalidAutomation "retired automation cannot activate" in
  guard? N.eqb (id_revision identity) (atv_expected_revision activation)
    else Se_AutomationIdentityConflict (atv_expected_revision activation) (id_revision identity) in
  let next := mk_identity (id_id identity) Op_Active (Some (atv_version activation))
                (u64_saturating_add (id_revision identity) 1) (id_created_at identity)
                (atv_activated_at activation) in
  let? _ := to_i64 (atv_version activation) in
  let? _ := to_i64 (id_revision next) in
  Ok (append_event (set_identities db (<[id_id identity := next]> (ad_identities db)))
        (operational_event next (id_state identity)
          (Some (pv_author_id (do_provenance (sv_document version))))), next).

Definition transition_identity (db : AutomationDb) (identity : AutomationIdentityState)
  (expected_revision : N) : result (AutomationDb * AutomationIdentityState) StorageError :=
  let? current := ok_or (ad_identities db !! id_id identity)
                    (Se_InvalidAutomation "automation identity missing") in
  guard? N.eqb (id_revision current) expected_revision
    else Se_AutomationIdentityConflict expected_revision (id_revision current) in
  guard? N.eqb (id_revision identity) (u64_saturating_add expected_revision 1)
         && AutomationOperationalState.allows_transition_to (id_state current) (id_state identity)
         && bool_decide (id_active_version current = id_active_version identity)
         && (id_created_at current =? id_created_at identity)%Z
    else Se_InvalidAutomation "invalid automation identity transition" in
  let? actor :=
    match id_active_version current with
    | Some version =>
        let? stored := load_version db (id_id current) version in
        Ok ((fun stored => pv_author_id (do_provenance (sv_document stored))) <$> stored)
    | None => Ok ((fun draft => pv_author_id (do_provenance (dft_document draft)))
                    <$> ad_drafts db !! id_id current)
    end in
  let? _ := to_i64 (id_revision identity) in
  Ok (append_event (set_identities db (<[id_id identity := identity]> (ad_identities db)))
        (operational_event identity (id_state current) actor), identity).

Definition automation_identities (db : AutomationDb) (limit : nat) : list AutomationIdentityState :=
  page limit (fun a b => by_instant_then (id_updated_at b, id_id b) (id_updated_at a, id_id a))
    (map snd (map_to_list (ad_identities db))).

Definition load_active_versions (db : AutomationDb) (limit : nat) : list ActiveAutomationVersion :=
  take (Nat.min (Nat.max limit 1) MAX_QUERY_PAGE)
    (omap (fun identity =>
        version ← id_active_version identity;
        stored ← ad_versions db !! (id_id identity, version);
        Some (mk_active identity stored))
      (sort_by (fun a b => str_leb (id_id a) (id_id b))
        (List.filter (fun identity => bool_decide (id_state identity = Op_Active))
          (map snd (map_to_list (ad_identities db)))))).

(** ** The event consumer's checkpoint *)

Definition load_event_cursor (db : AutomationDb) : AutomationEventCursor :=
  default (mk_cursor 0 0) (ad_cursor db).

Definition advance_event_cursor (db : AutomationDb) (expected_revision cursor : N) :
  result (AutomationDb * AutomationEventCursor) StorageError :=
  let current := load_event_cursor db in
  guard? N.eqb (ecu_revision current) expected_revision
    else Se_AutomationEventCursorConflict expected_revision (ecu_revision current) in
  guard? negb (N.leb cursor (ecu_cursor current))
    else Se_InvalidAutomation "automation event cursor must advance" in
  let? revision := ok_or (u64_checked_add (ecu_revision current) 1) Se_NumericOverflow in
  let? _ := to_i64 cursor in
  let? _ := to_i64 revision in
  Ok (set_cursor db (Some (mk_cursor cursor revision)), mk_cursor cursor revision).

(** ** Occurrences *)

(** The fields a stored occurrence keeps, whatever its state. *)
Definition same_occurrence (existing occurrence : AutomationOccurrence) : bool :=
  String.eqb (oc_automation_id existing) (oc_automation_id occurrence)
  && N.eqb (oc_version existing) (oc_version occurrence)
  && (oc_occurred_at existing =? oc_occurred_at occurrence)%Z
  && (oc_window_ends_at existing =? oc_window_ends_at occurrence)%Z
  && bool_decide (oc_event_cursor existing = oc_event_cursor occurrence)
  && String.eqb (oc_correlation_id existing) (oc_correlation_id occurrence)
  && bool_decide (oc_causation_event_id existing = oc_causation_event_id occurrence)
  && bool_decide (oc_catch_up existing = oc_catch_up occurrence).

(** The foreign key to the version. *)
Definition version_exists (db : AutomationDb) (automation_id : AutomationId) (version : N) : bool :=
  bool_decide (is_Some (ad_versions db !! (automation_id, version))).

Definition create_occurrence (db : AutomationDb) (occurrence : AutomationOccurrence) :
  result AutomationDb StorageError :=
  match ad_occurrences db !! oc_id occurrence with
  | Some existing =>
      if same_occurrence existing occurrence then Ok db
      else invalid "stable occurrence identity payload conflict"
  | None =>
      let? _ := to_i64 (oc_version occurrence) in
      let? _ := match oc_event_cursor occurrence with
                | Some cursor => to_i64 cursor
                | None => Ok 0%Z
                end in
      guard? version_exists db (oc_automation_id occurrence) (oc_version occurrence)
        else Se_Constraint in
      Ok (set_occurrences db (<[oc_id occurrence := occurrence]> (ad_occurrences db)))
  end.

Definition transition_occurrence (db : AutomationDb) (occurrence : AutomationOccurrence) :
  result AutomationDb StorageError :=
  let? current := ok_or (ad_occurrences db !! oc_id occurrence)
                    (Se_InvalidAutomation "automation occurrence missing") in
  guard? same_occurrence current occurrence
         && AutomationOccurrenceState.allows_transition_to (oc_state current) (oc_state occurrence)
    else Se_InvalidAutomation "invalid automation occurrence transition" in
  Ok (set_occurrences db (<[oc_id occurrence := occurrence]> (ad_occurrences db))).

(** ** Runs *)

Definition create_run (db : AutomationDb) (run : AutomationRun) : result AutomationDb StorageError :=
  guard? N.eqb (ru_revision run) 0
    else Se_InvalidAutomation "new automation run revision must be zero" in
  match ad_runs db !! ru_id run with
  | Some existing =>
      if bool_decide (existing = run) then Ok db
      else invalid "stable automation identity payload conflict"
  | None =>
      let? _ := to_i64 (ru_version run) in
      guard? version_exists db (ru_automation_id run) (ru_version run)
             && bool_decide (is_Some (ad_occurrences db !! ru_occurrence_id run))
             && forallb (fun other => negb (String.eqb (ru_occurrence_id other) (ru_occurrence_id run)))
                  (map snd (map_to_list (ad_runs db)))
        else Se_Constraint in
      Ok (append_event (set_runs db (<[ru_id run := run]> (ad_runs db))) (run_event run None))
  end.

Definition transition_run (db : AutomationDb) (run : AutomationRun) (expected_revision : N) :
  result AutomationDb StorageError :=
  let? current := ok_or (ad_runs db !! ru_id run) (Se_InvalidAutomation "automation run missing") in
  guard? N.eqb (ru_revision current) expected_revision
    else Se_AutomationRunConflict expected_revision (ru_revision current) in
  guard? N.eqb (ru_revision run) (u64_saturating_add expected_revision 1)
         && AutomationRunState.allows_revision_to (ru_state current) (ru_state run)
         && String.eqb (ru_automation_id current) (ru_automation_id run)
         && N.eqb (ru_version current) (ru_version run)
         && String.eqb (ru_occurrence_id current) (ru_occurrence_id run)
         && String.eqb (ru_actor_id current) (ru_actor_id run)
         && (ru_created_at current =? ru_created_at run)%Z
    else Se_InvalidAutomation "invalid automation run transition" in
  let? _ := to_i64 (ru_revision run) in
  Ok (append_event (set_runs db (<[ru_id run := run]> (ad_runs db)))
        (run_event run (Some (ru_state current)))).

Definition automation_runs (db : AutomationDb) (automation_id : option AutomationId) (limit : nat) :
  list AutomationRun :=
  page limit (fun a b => by_instant_then (ru_created_at b, ru_id b) (ru_created_at a, ru_id a))
    (List.filter (fun run => match automation_id with
                             | Some automation_id => String.eqb (ru_automation_id run) automation_id
                             | None => true
                             end) (map snd (map_to_list (ad_runs db)))).

(** ** Timers *)

Definition create_timer (db : AutomationDb) (timer : AutomationTimer) :
  result AutomationDb StorageError :=
  match ad_timers db !! tm_id timer with
  | Some existing =>
      if bool_decide (existing = timer) then Ok db
      else invalid "stable automation identity payload conflict"
  | None =>
      guard? bool_decide (is_Some (ad_runs db !! tm_run_id timer)) else Se_Constraint in
      Ok (set_timers db (<[tm_id timer := timer]> (ad_timers db)))
  end.

Definition transition_timer (db : AutomationDb) (timer : AutomationTimer) :
  result AutomationDb StorageError :=
  let? current := ok_or (ad_timers db !! tm_id timer)
                    (Se_InvalidAutomation "automation timer missing") in
  guard? String.eqb (tm_run_id current) (tm_run_id timer)
         && N.eqb (tm_node_id current) (tm_node_id timer)
         && bool_decide (tm_kind current = tm_kind timer)
         && (tm_ready_at current =? tm_ready_at timer)%Z
         && AutomationTimerState.allows_transition_to (tm_state current) (tm_state timer)
    else Se_InvalidAutomation "invalid automation timer transition" in
  Ok (set_timers db (<[tm_id timer := timer]> (ad_timers db))).

(** ** Traces *)

(** [MAX(sequence)] of the rows of a run. *)
Definition last_sequence (db : AutomationDb) (run_id : AutomationRunId) : option N :=
  fold_left (fun found step =>
    Some (match found with
          | Some sequence => N.max sequence (tt_sequence step)
          | None => tt_sequence step
          end))
    (List.filter (fun step => String.eqb (tt_run_id step) run_id) (ad_trace db)) None.

Definition append_trace (db : AutomationDb) (step : AutomationTraceStep) :
  result AutomationDb StorageError :=
  let expected := match last_sequence db (tt_run_id step) with
                  | Some sequence => (sequence + 1)%N
                  | None => 0%N
                  end in
  let? _ := to_i64 (tt_sequence step) in
  guard? N.eqb (tt_sequence step) expected
    else Se_InvalidAutomation "automation trace sequence is not contiguous" in
  guard? forallb (fun row => negb (String.eqb (tt_id row) (tt_id step))) (ad_trace db)
         && bool_decide (is_Some (ad_runs db !! tt_run_id step)) else Se_Constraint in
  Ok (set_trace db (ad_trace db ++ [step])).

Definition by_sequence (a b : AutomationTraceStep) : bool := N.leb (tt_sequence a) (tt_sequence b).

Definition load_trace (db : AutomationDb) (run_id : AutomationRunId) (after_sequence : option N)
  (limit : nat) : result (list AutomationTraceStep) StorageError :=
  let? after := match after_sequence with Some sequence => to_i64 sequence | None => Ok (-1)%Z end in
  Ok (page limit by_sequence
        (List.filter (fun step => String.eqb (tt_run_id step) run_id
                                  && (after <? Z.of_N (tt_sequence step))%Z) (ad_trace db))).

(** ** Interpreter steps *)

Fixpoint each_row {A : Type} (f : AutomationDb -> A -> result AutomationDb StorageError)
  (db : AutomationDb) (rows : list A) : result AutomationDb StorageError :=
  match rows with
  | [] => Ok db
  | row :: rows => let? db := f db row in each_row f db rows
  end.

Definition commit_step (db : AutomationDb) (write : AutomationStepWrite) :
  result AutomationDb StorageError :=
  let run_id := ru_id (sw_run write) in
  guard? forallb (fun step => String.eqb (tt_run_id step) run_id) (sw_trace write)
         && forallb (fun timer => String.eqb (tm_run_id timer) run_id)
              (sw_create_timers write ++ sw_transition_timers write)
    else Se_InvalidAutomation "automation step contains cross-run state" in
  let? db := transition_run db (sw_run write) (sw_expected_run_revision write) in
  let? db := each_row create_timer db (sw_create_timers write) in
  let? db := each_row transition_timer db (sw_transition_timers write) in
  each_row append_trace db (sw_trace write).

(** ** Recovery *)

(** [ORDER BY occurred_at, event_cursor IS NOT NULL, event_cursor, id]. *)
Definition occurrence_le (a b : AutomationOccurrence) : bool :=
  (oc_occurred_at a <? oc_occurred_at b)%Z
  || ((oc_occurred_at a =? oc_occurred_at b)%Z
      && match oc_event_cursor a, oc_event_cursor b with
         | None, Some _ => true
         | Some _, None => false
         | None, None => str_leb (oc_id a) (oc_id b)
         | Some x, Some y => N.ltb x y || (N.eqb x y && str_leb (oc_id a) (oc_id b))
         end).

Definition recover (db : AutomationDb) (limit : nat) : AutomationRecovery :=
  mk_recovery
    (page limit occurrence_le
      (List.filter (fun occurrence => match oc_state occurrence with
                                      | Occ_Scheduled | Occ_Accepted => true | _ => false end)
        (map snd (map_to_list (ad_occurrences db)))))
    (page limit (fun a b => by_instant_then (ru_created_at a, ru_id a) (ru_created_at b, ru_id b))
      (List.filter (fun run => match ru_state run with
                               | Run_Pending | Run_Running | Run_Waiting => true | _ => false end)
        (map snd (map_to_list (ad_runs db)))))
    (page limit (fun a b => by_instant_then (tm_ready_at a, tm_id a) (tm_ready_at b, tm_id b))
      (List.filter (fun timer => match tm_state timer with
                                 | Tm_Pending | Tm_Ready => true | _ => false end)
        (map snd (map_to_list (ad_timers db))))).

(** ** Retention *)

(** The first [limit] rows of a table in the order of a [DELETE]'s subquery. *)
Definition doomed `{Countable K} {A : Type} (limit : nat) (le : K * A -> K * A -> bool)
  (eligible : K * A -> bool) (table : gmap K A) : list K :=
  map fst (take limit (sort_by le (List.filter eligible (map_to_list table)))).

Definition terminal_before (db : AutomationDb) (before : Instant) (run_id : AutomationRunId) : bool :=
  match ad_runs db !! run_id with
  | Some run => AutomationRunState.is_terminal (ru_state run) && (ru_updated_at run <? before)%Z
  | None => false
  end.

(** SQLite compares timestamps as text: an instant from the year 10000 on carries
    a sign there, which sorts before every digit.  The rank gives that order, for
    instants of no negative year, up to the order among such late instants. *)
Definition year_10000 : Instant := 253402300800 * nanos_per_second.
Definition text_rank (at_ : Instant) : Z :=
  if (at_ <? year_10000)%Z then at_ else (at_ - 100 * chrono_max)%Z.

(** The statements of a retention, each with its number of deleted rows. *)
Definition retain_drafts (db : AutomationDb) (policy : AutomationRetention) (limit : nat) :
  AutomationDb * N :=
  let drafts := doomed limit
    (fun a b => by_instant_then (dft_updated_at a.2, a.1) (dft_updated_at b.2, b.1))
    (fun kv => (dft_updated_at kv.2 <? ar_drafts_before policy)%Z) (ad_drafts db) in
  (set_drafts db (filter (fun kv => kv.1 ∉ drafts) (ad_drafts db)), N.of_nat (length drafts)).

Definition retain_trace (db : AutomationDb) (policy : AutomationRetention) (limit : nat) :
  AutomationDb * N :=
  let trace := map tt_id (take limit
    (sort_by (fun a b => by_instant_then (tt_occurred_at a, tt_id a) (tt_occurred_at b, tt_id b))
      (List.filter (fun step => terminal_before db (ar_runtime_before policy) (tt_run_id step))
        (ad_trace db)))) in
  (set_trace db (List.filter (fun step => negb (bool_decide (tt_id step ∈ trace))) (ad_trace db)),
   N.of_nat (length trace)).

Definition retain_timers (db : AutomationDb) (policy : AutomationRetention) (limit : nat) :
  AutomationDb * N :=
  let timers := doomed limit
    (fun a b => by_instant_then (tm_ready_at a.2, a.1) (tm_ready_at b.2, b.1))
    (fun kv => match tm_state kv.2 with Tm_Consumed | Tm_Cancelled => true | _ => false end
               && terminal_before db (ar_runtime_before policy) (tm_run_id kv.2)) (ad_timers db) in
  (set_timers db (filter (fun kv => kv.1 ∉ timers) (ad_timers db)), N.of_nat (length timers)).

(** The trace rows of a run are deleted with it. *)
Definition retain_runs (db : AutomationDb) (policy : AutomationRetention) (limit : nat) :
  AutomationDb * N :=
  let runs := doomed limit
    (fun a b => by_instant_then (ru_updated_at a.2, a.1) (ru_updated_at b.2, b.1))
    (fun kv => terminal_before db (ar_runtime_before policy) kv.1
               && forallb (fun timer => negb (String.eqb (tm_run_id timer) kv.1))
                    (map snd (map_to_list (ad_timers db)))) (ad_runs db) in
  (set_trace (set_runs db (filter (fun kv => kv.1 ∉ runs) (ad_runs db)))
     (List.filter (fun step => negb (bool_decide (tt_run_id step ∈ runs))) (ad_trace db)),
   N.of_nat (length runs)).

Definition retain_occurrences (db : AutomationDb) (policy : AutomationRetention) (limit : nat) :
  AutomationDb * N :=
  let occurrences := doomed limit
    (fun a b => by_instant_then (text_rank (oc_window_ends_at a.2), a.1)
                  (text_rank (oc_window_ends_at b.2), b.1))
    (fun kv => match oc_state kv.2 with Occ_Scheduled => false | _ => true end
               && (text_rank (oc_window_ends_at kv.2) <? text_rank (ar_runtime_before policy))%Z
               && forallb (fun run => negb (String.eqb (ru_occurrence_id run) kv.1))
                    (map snd (map_to_list (ad_runs db)))) (ad_occurrences db) in
  (set_occurrences db (filter (fun kv => kv.1 ∉ occurrences) (ad_occurrences db)),
   N.of_nat (length occurrences)).

(** [ORDER BY created_at, automation_id, version]. *)
Definition version_le (a b : (AutomationId * N) * StoredAutomationVersion) : bool :=
  let created kv := do_created_at (sv_document kv.2) in
  (created a <? created b)%Z
  || ((created a =? created b)%Z
      && (negb (str_leb b.1.1 a.1.1) || (String.eqb a.1.1 b.1.1 && N.leb a.1.2 b.1.2))).

(** Old retired versions no identity and no occurrence refers to, with their
    approvals; a run that refers to one rolls the transaction back. *)
Definition retain_versions (db : AutomationDb) (policy : AutomationRetention) (limit : nat) :
  result (AutomationDb * (N * N)) StorageError :=
  let versions := doomed limit
    version_le
    (fun kv => bool_decide (sv_state kv.2 = Vs_Retired)
               && (do_created_at (sv_document kv.2) <? ar_versions_before policy)%Z
               && negb (bool_decide ((ad_identities db !! kv.1.1) ≫= id_active_version = Some kv.1.2))
               && forallb (fun occurrence =>
                    negb (String.eqb (oc_automation_id occurrence) kv.1.1
                          && N.eqb (oc_version occurrence) kv.1.2))
                    (map snd (map_to_list (ad_occurrences db)))) (ad_versions db) in
  let approvals := List.filter (fun kv =>
      bool_decide ((apv_automation_id kv.2, apv_version kv.2) ∈ versions))
    (map_to_list (ad_approvals db)) in
  guard? forallb (fun run => bool_decide ((ru_automation_id run, ru_version run) ∉ versions))
           (map snd (map_to_list (ad_runs db))) else Se_Constraint in
  Ok (set_versions
        (set_approvals db (filter (fun kv => (apv_automation_id kv.2, apv_version kv.2) ∉ versions)
          (ad_approvals db)))
        (filter (fun kv => kv.1 ∉ versions) (ad_versions db)),
      (N.of_nat (length approvals), N.of_nat (length versions))).

Definition retain (db : AutomationDb) (policy : AutomationRetention) :
  result (AutomationDb * AutomationRetentionResult) StorageError :=
  let limit := N.to_nat (N.max (ar_limit_per_category policy) 1) in
  let '(db, drafts) := retain_drafts db policy limit in
  let '(db, trace) := retain_trace db policy limit in
  let '(db, timers) := retain_timers db policy limit in
  let '(db, runs) := retain_runs db policy limit in
  let '(db, occurrences) := retain_occurrences db policy limit in
  let? retained := retain_versions db policy limit in
  let '(db, (approvals, versions)) := retained in
  Ok (db, mk_automation_retention_result drafts trace timers runs occurrences approvals versions).

End Store.
