(* ===== verification/AutomationInvariant.v ===== *)
(** The databases the transactions of the automation repository can reach: an
    invariant of the tables, its preservation by every transaction, and what a
    transaction does to one row. *)

From S2P Require Import Prelude Text BTree Json Capability Lifecycle Device Command CommandStore MatterOperation Automation Identity AutomationStore.

(** The rows of a query's filter over a table. *)
Lemma elem_of_rows `{Countable K} {A} (m : gmap K A) a :
  a ∈ map snd (map_to_list m) <-> exists k, m !! k = Some a.
Proof.
  rewrite list_elem_of_In, in_map_iff. split.
  - intros ([k x] & <- & Hin). exists k. by apply elem_of_map_to_list, list_elem_of_In.
  - intros [k Hk]. exists (k, a). split; [done|]. by apply list_elem_of_In, elem_of_map_to_list.
Qed.

Lemma forallb_rows `{Countable K} {A} (m : gmap K A) (p : A -> bool) :
  forallb p (map snd (map_to_list m)) = true -> forall k a, m !! k = Some a -> p a = true.
Proof.
  intros Hp k a Hk. rewrite forallb_forall in Hp. apply Hp, list_elem_of_In, elem_of_rows. eauto.
Qed.

Lemma elem_of_doomed `{Countable K} {A} limit le eligible (table : gmap K A) k :
  k ∈ doomed limit le eligible table -> exists a, table !! k = Some a /\ eligible (k, a) = true.
Proof.
  unfold doomed. intros Hk. apply list_elem_of_In, in_map_iff in Hk as ([k' a] & <- & Hin).
  apply list_elem_of_In, elem_of_take in Hin as (i & Hi & _).
  apply list_elem_of_lookup_2 in Hi. rewrite sort_by_perm in Hi.
  apply list_elem_of_In, filter_In in Hi as [Hin Hel].
  exists a. split; [|done]. by apply elem_of_map_to_list, list_elem_of_In.
Qed.

Lemma filter_Some `{Countable K} {A} (P : K * A -> Prop) `{!forall x, Decision (P x)} (m : gmap K A) k a :
  filter P m !! k = Some a -> m !! k = Some a /\ P (k, a).
Proof. apply map_lookup_filter_Some. Qed.

Lemma filter_is_Some `{Countable K} {A} (P : K * A -> Prop) `{!forall x, Decision (P x)} (m : gmap K A) k :
  is_Some (m !! k) -> (forall a, P (k, a)) -> is_Some (filter P m !! k).
Proof. intros [a Ha] HP. exists a. by apply map_lookup_filter_Some. Qed.

(** ** The transactions *)

Section Invariant.
Context `{Uuids} `{Sha256} `{AutomationEncoding}.

Inductive adb_step (db : AutomationDb) : AutomationDb -> Prop :=
| Tx_store_draft draft expected db' :
    store_draft db draft expected = Ok db' -> adb_step db db'
| Tx_store_version version db' : store_version db version = Ok db' -> adb_step db db'
| Tx_transition_version version expected db' :
    transition_version db version expected = Ok db' -> adb_step db db'
| Tx_append_approval approval db' : append_approval db approval = Ok db' -> adb_step db db'
| Tx_activate activation db' identity :
    activate db activation = Ok (db', identity) -> adb_step db db'
| Tx_transition_identity identity expected db' next :
    transition_identity db identity expected = Ok (db', next) -> adb_step db db'
| Tx_advance_event_cursor expected cursor db' next :
    advance_event_cursor db expected cursor = Ok (db', next) -> adb_step db db'
| Tx_create_occurrence occurrence db' : create_occurrence db occurrence = Ok db' -> adb_step db db'
| Tx_transition_occurrence occurrence db' :
    transition_occurrence db occurrence = Ok db' -> adb_step db db'
| Tx_create_run run db' : create_run db run = Ok db' -> adb_step db db'
| Tx_transition_run run expected db' : transition_run db run expected = Ok db' -> adb_step db db'
| Tx_create_timer timer db' : create_timer db timer = Ok db' -> adb_step db db'
| Tx_transition_timer timer db' : transition_timer db timer = Ok db' -> adb_step db db'
| Tx_commit_step write db' : commit_step db write = Ok db' -> adb_step db db'
| Tx_append_trace step db' : append_trace db step = Ok db' -> adb_step db db'
| Tx_retain policy db' counts : retain db policy = Ok (db', counts) -> adb_step db db'.

Definition adb_reachable (db : AutomationDb) : Prop := rtc adb_step empty_adb db.

(** ** The invariant *)

(** The evidence an activation needs. *)
Definition evidence (approvals : gmap AutomationApprovalId AutomationApprovalRecord)
  (version : StoredAutomationVersion) : Prop :=
  (exists simulation, sv_simulation version = Some simulation /\ se_succeeded simulation = true
     /\ se_document_hash simulation = pl_document_hash (sv_plan version)
     /\ se_plan_hash simulation = pl_plan_hash (sv_plan version)
     /\ se_registry_revision simulation = pl_registry_revision (sv_plan version))
  /\ (pl_approval (sv_plan version) = Apr_ExplicitUserApproval ->
      exists id approval, approvals !! id = Some approval /\ apv_state approval = Ap_Approved
        /\ (apv_automation_id approval, apv_version approval) = version_key version
        /\ apv_document_hash approval = pl_document_hash (sv_plan version)
        /\ apv_plan_hash approval = pl_plan_hash (sv_plan version)).

Definition identities_wf (identities : gmap AutomationId AutomationIdentityState)
  (versions : gmap (AutomationId * N) StoredAutomationVersion) approvals : Prop :=
  forall k (i : AutomationIdentityState), identities !! k = Some i -> id_id i = k
    /\ forall n, id_active_version i = Some n ->
       exists version, versions !! (k, n) = Some version /\ evidence approvals version.

Definition versions_wf (identities : gmap AutomationId AutomationIdentityState)
  (versions : gmap (AutomationId * N) StoredAutomationVersion) : Prop :=
  forall k (v : StoredAutomationVersion), versions !! k = Some v -> version_key v = k
    /\ is_Some (identities !! k.1) /\ validate_version v = Ok tt.

Definition approvals_wf (versions : gmap (AutomationId * N) StoredAutomationVersion)
  (approvals : gmap AutomationApprovalId AutomationApprovalRecord) : Prop :=
  forall k (a : AutomationApprovalRecord), approvals !! k = Some a -> apv_id a = k
    /\ exists version, versions !! (apv_automation_id a, apv_version a) = Some version
       /\ apv_document_hash a = pl_document_hash (sv_plan version)
       /\ apv_plan_hash a = pl_plan_hash (sv_plan version).

Definition occurrences_wf (versions : gmap (AutomationId * N) StoredAutomationVersion)
  (occurrences : gmap AutomationOccurrenceId AutomationOccurrence) : Prop :=
  forall k (o : AutomationOccurrence), occurrences !! k = Some o -> oc_id o = k
    /\ is_Some (versions !! (oc_automation_id o, oc_version o)).

Definition runs_wf (versions : gmap (AutomationId * N) StoredAutomationVersion)
  (occurrences : gmap AutomationOccurrenceId AutomationOccurrence)
  (runs : gmap AutomationRunId AutomationRun) : Prop :=
  (forall k (r : AutomationRun), runs !! k = Some r -> ru_id r = k
     /\ is_Some (versions !! (ru_automation_id r, ru_version r))
     /\ is_Some (occurrences !! ru_occurrence_id r))
  /\ (forall k k' r r', runs !! k = Some r -> runs !! k' = Some r' ->
      ru_occurrence_id r = ru_occurrence_id r' -> k = k').

Definition timers_wf (runs : gmap AutomationRunId AutomationRun)
  (timers : gmap AutomationTimerId AutomationTimer) : Prop :=
  forall k (t : AutomationTimer), timers !! k = Some t -> tm_id t = k /\ is_Some (runs !! tm_run_id t).

(** The trace rows of a run. *)
Definition trace_of (trace : list AutomationTraceStep) (run_id : AutomationRunId) :
  list AutomationTraceStep :=
  List.filter (fun step => String.eqb (tt_run_id step) run_id) trace.

Definition contiguous (trace : list AutomationTraceStep) : Prop :=
  map tt_sequence trace = map N.of_nat (seq 0 (length trace)).

Definition trace_wf (runs : gmap AutomationRunId AutomationRun) trace : Prop :=
  (forall step, step ∈ trace -> is_Some (runs !! tt_run_id step))
  /\ NoDup (map tt_id trace)
  /\ forall k r, runs !! k = Some r -> AutomationRunState.is_terminal (ru_state r) = false ->
     contiguous (trace_of trace k).

Record adb_wf (db : AutomationDb) : Prop := {
  wf_identities : identities_wf (ad_identities db) (ad_versions db) (ad_approvals db);
  wf_versions : versions_wf (ad_identities db) (ad_versions db);
  wf_approvals : approvals_wf (ad_versions db) (ad_approvals db);
  wf_occurrences : occurrences_wf (ad_versions db) (ad_occurrences db);
  wf_runs : runs_wf (ad_versions db) (ad_occurrences db) (ad_runs db);
  wf_timers : timers_wf (ad_runs db) (ad_timers db);
  wf_trace : trace_wf (ad_runs db) (ad_trace db)
}.

Lemma empty_adb_wf : adb_wf empty_adb.
Proof. split; try (intros ??; set_solver); repeat split; try set_solver. constructor. Qed.

Lemma append_event_wf db event : adb_wf db -> adb_wf (append_event db event).
Proof. intros []. by split. Qed.

(** ** Drafts and versions *)

Lemma ensure_identity_wf db k created : adb_wf db -> adb_wf (ensure_identity db k created)
  /\ is_Some (ad_identities (ensure_identity db k created) !! k)
  /\ ad_versions (ensure_identity db k created) = ad_versions db.
Proof.
  intros Hwf. unfold ensure_identity. destruct (ad_identities db !! k) as [i|] eqn:E; [eauto|].
  destruct Hwf as [Hi Hv Ha Ho Hr Ht Htr]. simpl. rewrite lookup_insert_eq. split; [|eauto].
  split; simpl; try done.
  - intros k' i' Hk'. apply lookup_insert_Some in Hk' as [[<- <-]|[_ Hk']]; [|by apply Hi].
    split; [done|]. simpl. intros n Hn. discriminate Hn.
  - intros k' v Hk'. destruct (Hv _ _ Hk') as (Hkey & Hid & Hval). repeat split; try done.
    destruct (decide (k = k'.1)) as [->|Hne]; [rewrite lookup_insert_eq; eauto|].
    by rewrite lookup_insert_ne.
Qed.

Lemma store_draft_wf db draft expected db' :
  store_draft db draft expected = Ok db' -> adb_wf db -> adb_wf db'.
Proof.
  unfold store_draft. intros Hop Hwf. ok_inv.
  destruct (ensure_identity_wf db (dft_automation_id draft) (do_created_at (dft_document draft)) Hwf)
    as [[] _]. by split.
Qed.

(** A row that keeps the evidence of the one it replaces. *)
Definition keeps (old new : StoredAutomationVersion) : Prop :=
  sv_document new = sv_document old /\ sv_plan new = sv_plan old
  /\ sv_validation new = sv_validation old
  /\ (sv_simulation old = None \/ sv_simulation new = sv_simulation old).

Lemma keeps_evidence approvals old new : keeps old new -> evidence approvals old -> evidence approvals new.
Proof.
  unfold evidence, version_key. intros (-> & -> & _ & Hsim) ((s & Hs & Hs') & Ha). split; [|done].
  exists s. destruct Hsim as [Hn|Hn]; rewrite Hn in *; done.
Qed.

(** Inserting a version under its key keeps every table well-formed, when it is
    new or keeps the row it replaces. *)
Lemma insert_version_wf db version :
  adb_wf db -> validate_version version = Ok tt ->
  is_Some (ad_identities db !! do_id (sv_document version)) ->
  (forall old, ad_versions db !! version_key version = Some old -> keeps old version) ->
  adb_wf (set_versions db (<[version_key version := version]> (ad_versions db))).
Proof.
  intros [Hi Hv Ha Ho Hr Ht Htr] Hval Hid Hkeep.
  assert (Hmono : forall k, is_Some (ad_versions db !! k) ->
    is_Some (<[version_key version := version]> (ad_versions db) !! k)).
  { intros k Hk. apply lookup_insert_is_Some'. by right. }
  assert (Hold : forall k v, ad_versions db !! k = Some v -> exists v',
    <[version_key version := version]> (ad_versions db) !! k = Some v' /\ (v' = v \/ keeps v v')).
  { intros k v Hk. destruct (decide (version_key version = k)) as [<-|Hne].
    - rewrite lookup_insert_eq. eauto.
    - rewrite lookup_insert_ne by done. eauto. }
  split; simpl; try done.
  - intros k i Hk. destruct (Hi _ _ Hk) as [Hkey Hact]. split; [done|]. intros n Hn.
    destruct (Hact n Hn) as (v & Hlook & Hev). destruct (Hold _ _ Hlook) as (v' & Hl' & [->|Hkp]).
    + eauto.
    + exists v'. split; [done|]. by eapply keeps_evidence.
  - intros k v Hk. apply lookup_insert_Some in Hk as [[<- <-]|[_ Hk]]; [|by apply Hv]. done.
  - intros k a Hk. destruct (Ha _ _ Hk) as (Hkey & v & Hl & Hd & Hp). split; [done|].
    destruct (Hold _ _ Hl) as (v' & Hl' & [->|(_ & Hpl & _)]); [eauto|].
    exists v'. by rewrite Hpl.
  - intros k o Hk. destruct (Ho _ _ Hk). auto.
  - destruct Hr as [Hr1 Hr2]. split; [|done]. intros k r Hk. destruct (Hr1 _ _ Hk) as (? & ? & ?). auto.
Qed.

Lemma version_conflict_lookup db version old :
  adb_wf db -> ad_versions db !! version_key version = Some old -> version_conflict db version = true.
Proof.
  intros Hwf Hl. unfold version_conflict. apply existsb_exists.
  exists (version_key version, old). split.
  - by apply list_elem_of_In, elem_of_map_to_list.
  - unfold version_key. by rewrite String.eqb_refl, N.eqb_refl.
Qed.

Lemma store_version_wf db version db' :
  store_version db version = Ok db' -> adb_wf db -> adb_wf db'.
Proof.
  unfold store_version. intros Hop Hwf.
  apply result_bind_ok in Hop as ([] & Hval & Hop).
  destruct (ensure_identity_wf db (do_id (sv_document version)) (do_created_at (sv_document version)) Hwf)
    as (Hwf1 & Hid & _).
  set (db1 := ensure_identity _ _ _) in *. clearbody db1.
  do 2 (apply result_bind_ok in Hop as (? & _ & Hop)).
  destruct (version_conflict db1 version) eqn:Hconf.
  - ok_inv. destruct (bool_decide _); [by ok_inv|discriminate].
  - ok_inv. apply append_event_wf, insert_version_wf; try done.
    intros old Hold. rewrite (version_conflict_lookup _ _ _ Hwf1 Hold) in Hconf. done.
Qed.

Lemma transition_version_keeps db version expected db' :
  transition_version db version expected = Ok db' ->
  validate_version version = Ok tt
  /\ exists old, ad_versions db !! version_key version = Some old /\ keeps old version
     /\ sv_state old = expected
     /\ AutomationVersionState.allows_transition_to expected (sv_state version) = true
     /\ exists event, db' = append_event (set_versions db
          (<[version_key version := version]> (ad_versions db))) event.
Proof.
  unfold transition_version, load_version. intros Hop. ok_inv. split; [done|].
  match goal with H : ad_versions db !! _ = Some ?o |- _ => exists o; split; [exact H|] end.
  bool_inv. repeat match goal with H : bool_decide _ = true |- _ => apply bool_decide_eq_true in H end.
  subst. split; [|eauto]. unfold keeps. repeat split; try congruence.
  destruct (sv_simulation x1) eqn:Es; [right|by left].
  match goal with H : _ \/ _ |- _ => destruct H as [H|H] end; bool_inv; [|congruence].
  exfalso. match goal with H : ~ is_Some _ |- _ => apply H; eauto end.
Qed.

Lemma transition_version_wf db version expected db' :
  transition_version db version expected = Ok db' -> adb_wf db -> adb_wf db'.
Proof.
  intros Hop Hwf. apply transition_version_keeps in Hop as (Hval & old & Hold & Hk & _ & _ & event & ->).
  apply append_event_wf, insert_version_wf; try done.
  - destruct (wf_versions _ Hwf _ _ Hold) as (_ & Hid & _). done.
  - intros ? Hl. congruence.
Qed.

(** ** Approvals, activation and identities *)

Lemma evidence_mono approvals approvals' version :
  (forall k a, approvals !! k = Some a -> approvals' !! k = Some a) ->
  evidence approvals version -> evidence approvals' version.
Proof.
  intros Hm [Hs Ha]. split; [done|]. intros Hx. destruct (Ha Hx) as (id & a & Hl & Hrest). eauto.
Qed.

Lemma append_approval_wf db approval db' :
  append_approval db approval = Ok db' -> adb_wf db -> adb_wf db'.
Proof.
  unfold append_approval, load_version. intros Hop [Hi Hv Ha Ho Hr Ht Htr]. ok_inv. bool_inv.
  destruct (ad_approvals db !! apv_id approval) as [existing|] eqn:Hex.
  { destruct (bool_decide _); [|discriminate]. ok_inv. by split. }
  ok_inv. split; simpl; try done.
  - intros k i Hk. destruct (Hi _ _ Hk) as [Hkey Hact]. split; [done|]. intros n Hn.
    destruct (Hact n Hn) as (v & Hl & Hev). exists v. split; [done|]. eapply evidence_mono; [|done].
    intros k' a Hk'. rewrite lookup_insert_ne; [done|congruence].
  - intros k a Hk. apply lookup_insert_Some in Hk as [[<- <-]|[_ Hk]]; [|by apply Ha]. eauto.
Qed.

Lemma has_exact_approval_spec db activation :
  has_exact_approval db activation = Ok true ->
  exists id approval, ad_approvals db !! id = Some approval /\ apv_state approval = Ap_Approved
    /\ (apv_automation_id approval, apv_version approval)
       = (atv_automation_id activation, atv_version activation)
    /\ apv_document_hash approval = atv_document_hash activation
    /\ apv_plan_hash approval = atv_plan_hash activation.
Proof.
  unfold has_exact_approval. intros Hop. ok_inv.
  match goal with H : existsb _ _ = true |- _ => apply existsb_exists in H as (a & Hin & Ha) end.
  apply list_elem_of_In, elem_of_rows in Hin as [k Hk]. unfold is_exact_approval in Ha. bool_inv.
  exists k, a. repeat split; try done. congruence.
Qed.

(** What an activation rests on, and what it writes. *)
Lemma activate_spec db activation db' identity :
  activate db activation = Ok (db', identity) -> versions_wf (ad_identities db) (ad_versions db) ->
  exists version old event,
    ad_versions db !! (atv_automation_id activation, atv_version activation) = Some version
    /\ evidence (ad_approvals db) version
    /\ ad_identities db !! atv_automation_id activation = Some old
    /\ id_state old <> Op_Retired /\ id_revision old = atv_expected_revision activation
    /\ identity = mk_identity (id_id old) Op_Active (Some (atv_version activation))
         (u64_saturating_add (id_revision old) 1) (id_created_at old) (atv_activated_at activation)
    /\ db' = append_event (set_identities db (<[id_id old := identity]> (ad_identities db))) event.
Proof.
  unfold activate, load_version. intros Hop Hv. ok_inv. bool_inv. simplify_eq/=.
  match goal with H : ad_versions db !! _ = Some ?v |- _ => pose proof (Hv _ _ H) as (Hkey & _) end.
  eexists _, _, _. split_and!; try done. split.
  - match goal with H : mbind _ _ = Some ?s |- _ =>
      apply bind_Some in H as (sim & Hsim & Hs); destruct (se_succeeded sim) eqn:Hok; [|done];
      injection Hs as -> end.
    eexists. split_and!; try done; congruence.
  - intros Hexp. rewrite bool_decide_true in * by done.
    match goal with H : has_exact_approval _ _ = _ |- _ =>
      destruct (has_exact_approval_spec _ _ H) as (k & a & Hk & Hst & Hids & Hd & Hp) end.
    exists k, a. rewrite Hkey. split_and!; try done; congruence.
Qed.

Lemma set_identity_wf db k identity old :
  adb_wf db -> ad_identities db !! k = Some old -> id_id identity = k ->
  (forall n, id_active_version identity = Some n ->
     exists version, ad_versions db !! (k, n) = Some version /\ evidence (ad_approvals db) version) ->
  adb_wf (set_identities db (<[k := identity]> (ad_identities db))).
Proof.
  intros [Hi Hv Ha Ho Hr Ht Htr] Hold Hkey Hact. split; simpl; try done.
  - intros k' i Hk. apply lookup_insert_Some in Hk as [[<- <-]|[_ Hk]]; [done|by apply Hi].
  - intros k' v Hk. destruct (Hv _ _ Hk) as (? & Hid & ?). split_and!; try done.
    apply lookup_insert_is_Some'. by right.
Qed.

Lemma activate_wf db activation db' identity :
  activate db activation = Ok (db', identity) -> adb_wf db -> adb_wf db'.
Proof.
  intros Hop Hwf.
  apply activate_spec in Hop as (v & old & event & Hl & Hev & Hold & _ & _ & -> & ->);
    [|apply Hwf].
  pose proof (proj1 (wf_identities _ Hwf _ _ Hold)) as Hid.
  apply append_event_wf. rewrite Hid. eapply set_identity_wf; try done.
  intros n [= <-]. eauto.
Qed.

Lemma transition_identity_wf db identity expected db' next :
  transition_identity db identity expected = Ok (db', next) -> adb_wf db -> adb_wf db'.
Proof.
  unfold transition_identity. intros Hop Hwf. ok_inv. bool_inv. simplify_eq.
  apply append_event_wf.
  match goal with H : ad_identities db !! _ = Some ?o |- _ => rename o into old; rename H into Hold end.
  eapply set_identity_wf; try done. intros n Hn.
  apply (wf_identities _ Hwf _ _ Hold). congruence.
Qed.

(** ** Occurrences, runs and timers *)

Lemma same_occurrence_keys existing occurrence :
  same_occurrence existing occurrence = true ->
  oc_automation_id existing = oc_automation_id occurrence /\ oc_version existing = oc_version occurrence.
Proof. unfold same_occurrence. intros Hs. by bool_inv. Qed.

Lemma set_occurrence_wf db occurrence :
  adb_wf db -> is_Some (ad_versions db !! (oc_automation_id occurrence, oc_version occurrence)) ->
  adb_wf (set_occurrences db (<[oc_id occurrence := occurrence]> (ad_occurrences db))).
Proof.
  intros [Hi Hv Ha Ho Hr Ht Htr] Hver. split; simpl; try done.
  - intros k o Hk. apply lookup_insert_Some in Hk as [[<- <-]|[_ Hk]]; [done|by apply Ho].
  - destruct Hr as [Hr1 Hr2]. split; [|done]. intros k r Hk. destruct (Hr1 _ _ Hk) as (? & ? & ?).
    split_and!; try done. apply lookup_insert_is_Some'. by right.
Qed.

Lemma create_occurrence_wf db occurrence db' :
  create_occurrence db occurrence = Ok db' -> adb_wf db -> adb_wf db'.
Proof.
  unfold create_occurrence. intros Hop Hwf.
  destruct (ad_occurrences db !! oc_id occurrence) as [existing|] eqn:Hex.
  { destruct (same_occurrence _ _); [|discriminate]. by ok_inv. }
  ok_inv. apply set_occurrence_wf; [done|]. unfold version_exists in *. by bool_inv.
Qed.

Lemma transition_occurrence_wf db occurrence db' :
  transition_occurrence db occurrence = Ok db' -> adb_wf db -> adb_wf db'.
Proof.
  unfold transition_occurrence. intros Hop Hwf. ok_inv. bool_inv. apply set_occurrence_wf; [done|].
  match goal with H : same_occurrence _ _ = true |- _ => apply same_occurrence_keys in H as [<- <-] end.
  match goal with H : ad_occurrences db !! _ = Some _ |- _ => by apply (wf_occurrences _ Hwf _ _ H) end.
Qed.

Lemma set_run_wf db run :
  adb_wf db ->
  is_Some (ad_versions db !! (ru_automation_id run, ru_version run)) ->
  is_Some (ad_occurrences db !! ru_occurrence_id run) ->
  (forall k r, ad_runs db !! k = Some r -> ru_occurrence_id r = ru_occurrence_id run -> k = ru_id run) ->
  (AutomationRunState.is_terminal (ru_state run) = false -> contiguous (trace_of (ad_trace db) (ru_id run))) ->
  adb_wf (set_runs db (<[ru_id run := run]> (ad_runs db))).
Proof.
  intros [Hi Hv Ha Ho Hr Ht Htr] Hver Hocc Huniq Hcont.
  assert (Hmono : forall k, is_Some (ad_runs db !! k) -> is_Some (<[ru_id run := run]> (ad_runs db) !! k)).
  { intros k Hk. apply lookup_insert_is_Some'. by right. }
  split; simpl; try done.
  - destruct Hr as [Hr1 Hr2]. split.
    + intros k r Hk. apply lookup_insert_Some in Hk as [[<- <-]|[_ Hk]]; [done|by apply Hr1].
    + intros k k' r r' Hk Hk' Heq.
      apply lookup_insert_Some in Hk as [[<- <-]|[_ Hk]];
        apply lookup_insert_Some in Hk' as [[<- <-]|[_ Hk']]; try done.
      * symmetry. by eapply Huniq.
      * by eapply Huniq.
      * by eapply Hr2.
  - intros k t Hk. destruct (Ht _ _ Hk). auto.
  - destruct Htr as (Htr1 & Htr2 & Htr3). split_and!; [eauto|done|].
    intros k r Hk Hterm. apply lookup_insert_Some in Hk as [[<- <-]|[_ Hk]]; eauto.
Qed.

Lemma no_trace_of runs trace k : trace_wf runs trace -> runs !! k = None -> trace_of trace k = [].
Proof.
  intros (Htr & _) Hk. unfold trace_of.
  assert (Hno : forall step, step ∈ trace -> String.eqb (tt_run_id step) k = false).
  { intros step Hin. apply String.eqb_neq. intros Heq. destruct (Htr _ Hin). congruence. }
  clear Htr. induction trace as [|x l IH]; simpl; [done|].
  rewrite (Hno x) by (by apply list_elem_of_here). apply IH. intros s Hs. apply Hno. by apply list_elem_of_further.
Qed.

Lemma create_run_wf db run db' : create_run db run = Ok db' -> adb_wf db -> adb_wf db'.
Proof.
  unfold create_run. intros Hop Hwf.
  destruct (N.eqb (ru_revision run) 0); [|discriminate].
  destruct (ad_runs db !! ru_id run) as [existing|] eqn:Hex.
  { destruct (bool_decide _); [|discriminate]. by ok_inv. }
  ok_inv. bool_inv. unfold version_exists in *. bool_inv. apply append_event_wf, set_run_wf; try done.
  - intros k r Hk Heq.
    match goal with H : forallb _ _ = true |- _ => pose proof (forallb_rows _ _ H _ _ Hk) as Hne end.
    simpl in Hne. bool_inv. congruence.
  - intros _. rewrite (no_trace_of (ad_runs db)); [done|apply Hwf|done].
Qed.

Lemma allows_revision_terminal from to :
  AutomationRunState.allows_revision_to from to = true -> AutomationRunState.is_terminal from = false.
Proof. by destruct from, to. Qed.

(** What a run transition checks, and what it writes. *)
Lemma transition_run_spec db run expected db' :
  transition_run db run expected = Ok db' ->
  exists old event, ad_runs db !! ru_id run = Some old
    /\ ru_revision old = expected /\ ru_revision run = u64_saturating_add expected 1
    /\ AutomationRunState.allows_revision_to (ru_state old) (ru_state run) = true
    /\ ru_automation_id old = ru_automation_id run /\ ru_version old = ru_version run
    /\ ru_occurrence_id old = ru_occurrence_id run /\ ru_actor_id old = ru_actor_id run
    /\ is_ok (to_i64 (ru_revision run)) = true
    /\ db' = append_event (set_runs db (<[ru_id run := run]> (ad_runs db))) event.
Proof.
  unfold transition_run. intros Hop. ok_inv. bool_inv.
  match goal with H : to_i64 _ = Ok _ |- _ => rename H into Hi end.
  eexists _, _. split_and!; try done; try congruence. by rewrite Hi.
Qed.

Lemma transition_run_wf db run expected db' :
  transition_run db run expected = Ok db' -> adb_wf db -> adb_wf db'.
Proof.
  intros Hop Hwf.
  apply transition_run_spec in Hop as (old & event & Hold & _ & _ & Hst & Haut & Hver & Hocc & _ & _ & ->).
  destruct (wf_runs _ Hwf) as [Hr1 Hr2]. destruct (Hr1 _ _ Hold) as (Hid & Hv & Ho).
  apply append_event_wf, set_run_wf; try congruence.
  - intros k r Hk Heq. eapply Hr2; [done|done|congruence].
  - intros _. destruct (wf_trace _ Hwf) as (_ & _ & Hc). eapply Hc; [done|].
    by eapply allows_revision_terminal.
Qed.

Lemma set_timer_wf db timer :
  adb_wf db -> is_Some (ad_runs db !! tm_run_id timer) ->
  adb_wf (set_timers db (<[tm_id timer := timer]> (ad_timers db))).
Proof.
  intros [] Hrun. split; simpl; try done.
  intros k t Hk. apply lookup_insert_Some in Hk as [[<- <-]|[_ Hk]]; [done|by eauto].
Qed.

Lemma create_timer_wf db timer db' : create_timer db timer = Ok db' -> adb_wf db -> adb_wf db'.
Proof.
  unfold create_timer. intros Hop Hwf.
  destruct (ad_timers db !! tm_id timer) as [existing|] eqn:Hex.
  { destruct (bool_decide _); [|discriminate]. by ok_inv. }
  ok_inv. bool_inv. by apply set_timer_wf.
Qed.

Lemma transition_timer_wf db timer db' : transition_timer db timer = Ok db' -> adb_wf db -> adb_wf db'.
Proof.
  unfold transition_timer. intros Hop Hwf. ok_inv. bool_inv. apply set_timer_wf; [done|].
  match goal with H : ad_timers db !! _ = Some _ |- _ => pose proof (wf_timers _ Hwf _ _ H) as [_ ?] end.
  congruence.
Qed.

(** ** Traces and interpreter steps *)

Lemma trace_of_app trace trace' k : trace_of (trace ++ trace') k = trace_of trace k ++ trace_of trace' k.
Proof. apply List.filter_app. Qed.

Lemma contiguous_snoc trace step :
  contiguous trace -> tt_sequence step = N.of_nat (length trace) -> contiguous (trace ++ [step]).
Proof.
  unfold contiguous. intros Hc Hs. rewrite map_app, Hc, length_app, Nat.add_1_r, seq_S, map_app. simpl.
  by rewrite Hs.
Qed.

(** The greatest sequence of a contiguous trace is that of its last row. *)
Lemma last_sequence_contiguous db k :
  contiguous (trace_of (ad_trace db) k) ->
  match last_sequence db k with Some sequence => (sequence + 1)%N | None => 0%N end
  = N.of_nat (length (trace_of (ad_trace db) k)).
Proof.
  unfold last_sequence. fold (trace_of (ad_trace db) k).
  induction (trace_of (ad_trace db) k) as [|step trace IH] using rev_ind; intros Hc; [done|].
  unfold contiguous in Hc. rewrite map_app, length_app, Nat.add_1_r, seq_S, map_app in Hc.
  apply app_inj_tail in Hc as [Hc Hs]. specialize (IH Hc). rewrite fold_left_app, length_app. simpl in *.
  destruct (fold_left _ trace None) as [n|]; lia.
Qed.

Lemma append_trace_spec db step db' :
  append_trace db step = Ok db' ->
  is_Some (ad_runs db !! tt_run_id step) /\ (forall row, row ∈ ad_trace db -> tt_id row <> tt_id step)
  /\ tt_sequence step = match last_sequence db (tt_run_id step) with
                        | Some sequence => (sequence + 1)%N | None => 0%N end
  /\ db' = set_trace db (ad_trace db ++ [step]).
Proof.
  unfold append_trace. intros Hop. ok_inv. bool_inv. split_and!; try done.
  intros row Hin Heq.
  match goal with H : forallb _ _ = true |- _ => rewrite forallb_forall in H; specialize (H row) end.
  rewrite <- list_elem_of_In in *. rewrite Heq, String.eqb_refl in *. naive_solver.
Qed.

Lemma append_trace_wf db step db' : append_trace db step = Ok db' -> adb_wf db -> adb_wf db'.
Proof.
  intros Hop [Hi Hv Ha Ho Hr Ht (Htr1 & Htr2 & Htr3)].
  apply append_trace_spec in Hop as (Hrun & Hnew & Hseq & ->). split; simpl; try done. split_and!.
  - intros row [Hin| ->%list_elem_of_singleton]%elem_of_app; eauto.
  - rewrite map_app. apply NoDup_app. split_and!; [done| |by apply NoDup_singleton].
    intros x Hx. simpl. rewrite list_elem_of_singleton.
    apply list_elem_of_In, in_map_iff in Hx as (row & <- & Hin%list_elem_of_In). by apply Hnew.
  - intros k r Hk Hterm. rewrite trace_of_app. specialize (Htr3 _ _ Hk Hterm).
    unfold trace_of at 2. simpl. destruct (String.eqb_spec (tt_run_id step) k) as [<-|Hne].
    + apply contiguous_snoc; [done|]. by rewrite Hseq, last_sequence_contiguous.
    + by rewrite app_nil_r.
Qed.

Lemma each_row_ind {A} (P : AutomationDb -> Prop) (f : AutomationDb -> A -> result AutomationDb StorageError)
  rows : (forall db row db', f db row = Ok db' -> P db -> P db') ->
  forall db db', each_row f db rows = Ok db' -> P db -> P db'.
Proof.
  intros Hf. induction rows as [|row rows IH]; simpl; intros db db' Hop HP; ok_inv; [done|eauto].
Qed.

Lemma commit_step_wf db write db' : commit_step db write = Ok db' -> adb_wf db -> adb_wf db'.
Proof.
  unfold commit_step. intros Hop Hwf.
  destruct (_ && _); [|discriminate].
  apply result_bind_ok in Hop as (db1 & Hr & Hop). apply result_bind_ok in Hop as (db2 & Hc & Hop).
  apply result_bind_ok in Hop as (db3 & Ht & Hop).
  eapply each_row_ind; [apply append_trace_wf|exact Hop|].
  eapply each_row_ind; [apply transition_timer_wf|exact Ht|].
  eapply each_row_ind; [apply create_timer_wf|exact Hc|].
  by eapply transition_run_wf.
Qed.

(** ** Retention *)

(** Deleting trace rows of ended runs. *)
Lemma delete_trace_wf db (ids : list AutomationTraceId) :
  (forall step, step ∈ ad_trace db -> tt_id step ∈ ids ->
     exists run, ad_runs db !! tt_run_id step = Some run /\ AutomationRunState.is_terminal (ru_state run) = true) ->
  adb_wf db ->
  adb_wf (set_trace db (List.filter (fun step => negb (bool_decide (tt_id step ∈ ids))) (ad_trace db))).
Proof.
  intros Hids [Hi Hv Ha Ho Hr Ht (Htr1 & Htr2 & Htr3)]. split; simpl; try done. split_and!.
  - intros step Hin. apply list_elem_of_In, filter_In in Hin as [Hin _]. by apply Htr1, list_elem_of_In.
  - clear -Htr2. induction (ad_trace db) as [|x l IH]; simpl in *; [done|].
    apply NoDup_cons in Htr2 as [Hx Hl]. destruct (negb _); simpl; [|by apply IH].
    apply NoDup_cons. split; [|by apply IH]. intros Hin. apply Hx.
    apply list_elem_of_In, in_map_iff in Hin as (y & Hy & Hin). apply filter_In in Hin as [Hin _].
    apply list_elem_of_In, in_map_iff. eauto.
  - intros k r Hk Hterm. specialize (Htr3 _ _ Hk Hterm). clear Htr1 Htr2.
    replace (trace_of (List.filter _ _) k) with (trace_of (ad_trace db) k); [done|]. clear Htr3.
    induction (ad_trace db) as [|x l IH]; simpl; [done|].
    assert (Hl : trace_of l k = trace_of
      (List.filter (λ step, negb (bool_decide (tt_id step ∈ ids))) l) k).
    { apply IH. intros step Hin. apply Hids. by apply list_elem_of_further. }
    unfold trace_of in *. simpl.
    destruct (bool_decide_reflect (tt_id x ∈ ids)) as [Hin|Hnin]; simpl; rewrite <- Hl; [|done].
    destruct (String.eqb_spec (tt_run_id x) k) as [<-|]; [|done].
    destruct (Hids x) as (run & Hrun & Hrt); [by apply list_elem_of_here|done|]. congruence.
Qed.

Lemma trace_of_cascade trace (runs : list AutomationRunId) k :
  k ∉ runs ->
  trace_of (List.filter (fun step => negb (bool_decide (tt_run_id step ∈ runs))) trace) k = trace_of trace k.
Proof.
  intros Hk. unfold trace_of. induction trace as [|x l IH]; simpl; [done|].
  destruct (bool_decide_reflect (tt_run_id x ∈ runs)) as [Hin|Hnin]; simpl; rewrite IH; [|done].
  destruct (String.eqb_spec (tt_run_id x) k) as [<-|]; done.
Qed.

Lemma NoDup_map_filter {A B} (f : A -> B) (p : A -> bool) l :
  NoDup (map f l) -> NoDup (map f (List.filter p l)).
Proof.
  induction l as [|x l IH]; simpl; [done|]. intros [Hx Hl]%NoDup_cons.
  destruct (p x); simpl; [|by apply IH]. apply NoDup_cons. split; [|by apply IH].
  intros Hin. apply Hx. apply list_elem_of_In, in_map_iff in Hin as (y & Hy & [Hin _]%filter_In).
  apply list_elem_of_In, in_map_iff. eauto.
Qed.

(** Deleting runs that no timer refers to, with their trace rows. *)
Lemma delete_runs_wf db (runs : list AutomationRunId) :
  (forall k t, ad_timers db !! k = Some t -> tm_run_id t ∉ runs) -> adb_wf db ->
  adb_wf (set_trace (set_runs db (filter (fun kv => kv.1 ∉ runs) (ad_runs db)))
    (List.filter (fun step => negb (bool_decide (tt_run_id step ∈ runs))) (ad_trace db))).
Proof.
  intros Hno [Hi Hv Ha Ho [Hr1 Hr2] Ht (Htr1 & Htr2 & Htr3)]. split; simpl; try done.
  - split.
    + intros k r [Hk _]%filter_Some. eauto.
    + intros k k' r r' [Hk _]%filter_Some [Hk' _]%filter_Some. eauto.
  - intros k t Hk. destruct (Ht _ _ Hk). split; [done|].
    apply filter_is_Some; [done|]. intros ?. by eapply Hno.
  - split_and!.
    + intros step Hin. apply list_elem_of_In, filter_In in Hin as [Hin Hs]. bool_inv.
      apply filter_is_Some; [by apply Htr1, list_elem_of_In|]. intros ?. done.
    + by apply NoDup_map_filter.
    + intros k r [Hk Hin]%filter_Some Hterm. rewrite trace_of_cascade by done. eauto.
Qed.

Lemma delete_occurrences_wf db (occurrences : list AutomationOccurrenceId) :
  (forall k r, ad_runs db !! k = Some r -> ru_occurrence_id r ∉ occurrences) -> adb_wf db ->
  adb_wf (set_occurrences db (filter (fun kv => kv.1 ∉ occurrences) (ad_occurrences db))).
Proof.
  intros Hno [Hi Hv Ha Ho [Hr1 Hr2] Ht Htr]. split; simpl; try done.
  - intros k o [Hk _]%filter_Some. eauto.
  - split; [|done]. intros k r Hk. destruct (Hr1 _ _ Hk) as (? & ? & ?). split_and!; try done.
    apply filter_is_Some; [done|]. intros ?. by eapply Hno.
Qed.

Lemma delete_versions_wf db (versions : list (AutomationId * N)) :
  (forall k n, k ∈ versions -> (ad_identities db !! k.1) ≫= id_active_version = Some n -> n <> k.2) ->
  (forall k o, ad_occurrences db !! k = Some o -> (oc_automation_id o, oc_version o) ∉ versions) ->
  (forall k r, ad_runs db !! k = Some r -> (ru_automation_id r, ru_version r) ∉ versions) -> adb_wf db ->
  adb_wf (set_versions
    (set_approvals db (filter (fun kv => (apv_automation_id kv.2, apv_version kv.2) ∉ versions)
      (ad_approvals db)))
    (filter (fun kv => kv.1 ∉ versions) (ad_versions db))).
Proof.
  intros Hact Hocc Hrun [Hi Hv Ha Ho [Hr1 Hr2] Ht Htr]. split; simpl; try done.
  - intros k i Hk. destruct (Hi _ _ Hk) as [Hkey Hi']. split; [done|]. intros n Hn.
    assert (Hin : (k, n) ∉ versions).
    { intros Hin. eapply Hact; [exact Hin| |done]. simpl. by rewrite Hk. }
    destruct (Hi' n Hn) as (v & Hl & Hsim & Happ). exists v. split; [by apply map_lookup_filter_Some|].
    split; [done|]. intros Hx. destruct (Happ Hx) as (id & a & Hla & Hst & Hkey' & Hrest).
    exists id, a. split; [|done]. apply map_lookup_filter_Some. split; [done|]. simpl.
    rewrite Hkey', (proj1 (Hv _ _ Hl)). done.
  - intros k v [Hk _]%filter_Some. eauto.
  - intros k a [Hk Hin]%filter_Some. destruct (Ha _ _ Hk) as (? & v & Hl & ?). split; [done|].
    exists v. split; [|done]. by apply map_lookup_filter_Some.
  - intros k o Hk. destruct (Ho _ _ Hk). split; [done|].
    apply filter_is_Some; [done|]. intros ?. simpl. eauto.
  - split; [|done]. intros k r Hk. destruct (Hr1 _ _ Hk) as (? & ? & ?). split_and!; try done.
    apply filter_is_Some; [done|]. intros ?. simpl. eauto.
Qed.

Lemma terminal_before_spec db before k :
  terminal_before db before k = true ->
  exists run, ad_runs db !! k = Some run /\ AutomationRunState.is_terminal (ru_state run) = true.
Proof.
  unfold terminal_before. destruct (ad_runs db !! k) as [run|]; [|done]. intros Hb. bool_inv. eauto.
Qed.

Lemma NoDup_map_inj {A B} (f : A -> B) l a b : NoDup (map f l) -> a ∈ l -> b ∈ l -> f a = f b -> a = b.
Proof.
  induction l as [|x l IH]; simpl; [set_solver|]. intros [Hx Hl]%NoDup_cons.
  intros [->|Ha]%elem_of_cons [->|Hb]%elem_of_cons Heq; try done; [| |by apply IH].
  - exfalso. apply Hx. rewrite Heq. apply list_elem_of_In, in_map. by apply list_elem_of_In.
  - exfalso. apply Hx. rewrite <- Heq. apply list_elem_of_In, in_map. by apply list_elem_of_In.
Qed.

Lemma retain_drafts_wf db policy limit : adb_wf db -> adb_wf (retain_drafts db policy limit).1.
Proof. intros []. by split. Qed.

Lemma retain_trace_wf db policy limit : adb_wf db -> adb_wf (retain_trace db policy limit).1.
Proof.
  intros Hwf. apply delete_trace_wf; [|done]. intros step Hstep Hin.
  apply list_elem_of_In, in_map_iff in Hin as (row & Hid & Hin).
  apply list_elem_of_In, elem_of_take in Hin as (i & Hi & _). apply list_elem_of_lookup_2 in Hi.
  rewrite sort_by_perm in Hi. apply list_elem_of_In, filter_In in Hi as [Hin Hold].
  assert (row = step) as ->.
  { eapply (NoDup_map_inj tt_id); [apply (wf_trace _ Hwf)|by apply list_elem_of_In|done|done]. }
  by eapply terminal_before_spec.
Qed.

Lemma retain_timers_wf db policy limit : adb_wf db -> adb_wf (retain_timers db policy limit).1.
Proof. intros []. split; simpl; try done. intros k t [Hk _]%filter_Some. eauto. Qed.

Lemma retain_runs_wf db policy limit : adb_wf db -> adb_wf (retain_runs db policy limit).1.
Proof.
  apply delete_runs_wf. intros k t Hk Hin.
  apply elem_of_doomed in Hin as (r & Hr & Hel). simpl in Hel. bool_inv.
  match goal with H : forallb _ _ = true |- _ => pose proof (forallb_rows _ _ H _ _ Hk) as Hne end.
  simpl in Hne. by bool_inv.
Qed.

Lemma retain_occurrences_wf db policy limit : adb_wf db -> adb_wf (retain_occurrences db policy limit).1.
Proof.
  apply delete_occurrences_wf. intros k r Hk Hin.
  apply elem_of_doomed in Hin as (o & Ho & Hel). simpl in Hel. bool_inv.
  match goal with H : forallb _ _ = true |- _ => pose proof (forallb_rows _ _ H _ _ Hk) as Hne end.
  simpl in Hne. by bool_inv.
Qed.

Lemma retain_versions_wf db policy limit db' counts :
  retain_versions db policy limit = Ok (db', counts) -> adb_wf db -> adb_wf db'.
Proof.
  unfold retain_versions. intros Hop Hwf. ok_inv. simplify_eq.
  apply delete_versions_wf.
  - intros k n Hin Hn ->. apply elem_of_doomed in Hin as (v & _ & Hel). simpl in Hel. by bool_inv.
  - intros k o Hk Hin. apply elem_of_doomed in Hin as (v & _ & Hel). simpl in Hel. bool_inv.
    match goal with H : forallb _ _ = true |- _ => pose proof (forallb_rows _ _ H _ _ Hk) as Hne end.
    simpl in Hne. by rewrite String.eqb_refl, N.eqb_refl in Hne.
  - intros k r Hk. pose proof (forallb_rows _ _ E _ _ Hk) as Hne. simpl in Hne. by bool_inv.
  - done.
Qed.

(** A retention is its statements in order. *)
Lemma retain_stages db policy db' counts :
  retain db policy = Ok (db', counts) ->
  exists limit counts',
    retain_versions (retain_occurrences (retain_runs (retain_timers (retain_trace
      (retain_drafts db policy limit).1 policy limit).1 policy limit).1 policy limit).1 policy limit).1
      policy limit = Ok (db', counts').
Proof.
  unfold retain. set (limit := N.to_nat _). clearbody limit. intros Hop. exists limit.
  destruct (retain_drafts db policy limit) as [db1 n1]. simpl in *.
  destruct (retain_trace db1 policy limit) as [db2 n2]. simpl in *.
  destruct (retain_timers db2 policy limit) as [db3 n3]. simpl in *.
  destruct (retain_runs db3 policy limit) as [db4 n4]. simpl in *.
  destruct (retain_occurrences db4 policy limit) as [db5 n5]. simpl in *.
  apply result_bind_ok in Hop as ([db6 [n6 n7]] & Hv & Hop). simplify_eq. eauto.
Qed.

Lemma retain_wf db policy db' counts : retain db policy = Ok (db', counts) -> adb_wf db -> adb_wf db'.
Proof.
  intros Hop Hwf. apply retain_stages in Hop as (limit & counts' & Hop).
  eapply retain_versions_wf; [exact Hop|].
  by apply retain_occurrences_wf, retain_runs_wf, retain_timers_wf, retain_trace_wf, retain_drafts_wf.
Qed.

Lemma adb_step_wf db db' : adb_step db db' -> adb_wf db -> adb_wf db'.
Proof.
  intros []; intros Hwf;
    [by eapply store_draft_wf|by eapply store_version_wf|by eapply transition_version_wf
    |by eapply append_approval_wf|by eapply activate_wf|by eapply transition_identity_wf| 
    |by eapply create_occurrence_wf|by eapply transition_occurrence_wf|by eapply create_run_wf
    |by eapply transition_run_wf|by eapply create_timer_wf|by eapply transition_timer_wf
    |by eapply commit_step_wf|by eapply append_trace_wf|by eapply retain_wf].
  match goal with H : advance_event_cursor _ _ _ = _ |- _ => unfold advance_event_cursor in H end.
  ok_inv. simplify_eq. destruct Hwf; by split.
Qed.

Lemma adb_reachable_wf db : adb_reachable db -> adb_wf db.
Proof.
  unfold adb_reachable. pose proof empty_adb_wf as Hwf. revert Hwf. generalize empty_adb.
  intros db0 Hwf Hr. induction Hr as [|db0 db1 db2 Hstep _ IH]; [done|].
  by apply IH, (adb_step_wf db0).
Qed.

(** ** What a transaction does to one row *)

(** The version a transaction leaves of a stored one. *)
Definition version_succ (old new : StoredAutomationVersion) : Prop :=
  keeps old new /\ (sv_state new = sv_state old
    \/ AutomationVersionState.allows_transition_to (sv_state old) (sv_state new) = true).

Lemma version_succ_refl v : version_succ v v.
Proof. unfold version_succ, keeps. auto 7. Qed.

Ltac same_row := intros; simplify_eq; auto using version_succ_refl.

Lemma each_row_frame {A B} (view : AutomationDb -> B)
  (f : AutomationDb -> A -> result AutomationDb StorageError) rows db db' :
  (forall db row db', f db row = Ok db' -> view db' = view db) ->
  each_row f db rows = Ok db' -> view db' = view db.
Proof.
  intros Hf. revert db. induction rows as [|row rows IH]; simpl; intros db Hop; ok_inv; [done|].
  rewrite (IH _ Hop). eauto.
Qed.

Lemma create_timer_runs db timer db' : create_timer db timer = Ok db' -> ad_runs db' = ad_runs db.
Proof. unfold create_timer. intros Hop. case_match; ok_inv; [case_match; by ok_inv|done]. Qed.

Lemma transition_timer_runs db timer db' : transition_timer db timer = Ok db' -> ad_runs db' = ad_runs db.
Proof. unfold transition_timer. intros Hop. by ok_inv. Qed.

Lemma append_trace_runs db step db' : append_trace db step = Ok db' -> ad_runs db' = ad_runs db.
Proof. intros Hop. by apply append_trace_spec in Hop as (_ & _ & _ & ->). Qed.

(** A step's run is written by its run transition alone. *)
Lemma commit_step_run db write db' :
  commit_step db write = Ok db' ->
  exists db1, transition_run db (sw_run write) (sw_expected_run_revision write) = Ok db1
    /\ ad_runs db' = ad_runs db1.
Proof.
  unfold commit_step. intros Hop. destruct (_ && _); [|discriminate].
  apply result_bind_ok in Hop as (db1 & Hr & Hop). apply result_bind_ok in Hop as (db2 & Hc & Hop).
  apply result_bind_ok in Hop as (db3 & Ht & Hop). exists db1. split; [done|].
  rewrite (each_row_frame _ _ _ _ _ append_trace_runs Hop),
    (each_row_frame _ _ _ _ _ transition_timer_runs Ht). by apply (each_row_frame _ _ _ _ _ create_timer_runs Hc).
Qed.

(** The run a transaction leaves of a stored one. *)
Definition run_succ (old new : AutomationRun) : Prop :=
  new = old \/ ((ru_revision old < ru_revision new)%N
    /\ AutomationRunState.allows_revision_to (ru_state old) (ru_state new) = true
    /\ ru_automation_id new = ru_automation_id old /\ ru_version new = ru_version old
    /\ ru_occurrence_id new = ru_occurrence_id old /\ ru_actor_id new = ru_actor_id old).

Lemma revision_grows revision :
  is_ok (to_i64 (u64_saturating_add revision 1)) = true -> (revision < u64_saturating_add revision 1)%N.
Proof.
  unfold to_i64, i64_try_from_u64, u64_saturating_add, i64_max, u64_max.
  destruct (_ <=? _)%Z eqn:Hb; [|done]. intros _. apply Z.leb_le in Hb. lia.
Qed.

Lemma transition_run_succ db run expected db' k r r' :
  transition_run db run expected = Ok db' -> ad_runs db !! k = Some r -> ad_runs db' !! k = Some r' ->
  run_succ r r'.
Proof.
  intros Hop Hr Hr'.
  apply transition_run_spec in Hop as (old & event & Hold & Hexp & Hrev & Hst & Ha & Hv & Ho & Hact & Hok & ->).
  simpl in Hr'. apply lookup_insert_Some in Hr' as [[<- <-]|[_ Hr']]; [|left; congruence].
  simplify_eq. right. rewrite Hrev in *. apply revision_grows in Hok. auto 10.
Qed.

(** *** Frames: the tables one transaction leaves alone. *)
Ltac frame_tac :=
  intros Hop; unfold store_draft, store_version, transition_version, append_approval, activate,
    transition_identity, advance_event_cursor, create_occurrence, transition_occurrence, create_run,
    transition_run, create_timer, transition_timer, append_trace, ensure_identity in Hop;
  repeat (ok_inv; simplify_eq/=; first [done | case_match]); try discriminate.

Lemma store_version_runs db version db' : store_version db version = Ok db' -> ad_runs db' = ad_runs db.
Proof. frame_tac. Qed.

Lemma transition_version_runs db version expected db' :
  transition_version db version expected = Ok db' -> ad_runs db' = ad_runs db.
Proof. frame_tac. Qed.

Lemma append_approval_runs db approval db' : append_approval db approval = Ok db' -> ad_runs db' = ad_runs db.
Proof. frame_tac. Qed.

Lemma activate_runs db activation db' identity :
  activate db activation = Ok (db', identity) -> ad_runs db' = ad_runs db.
Proof. frame_tac. Qed.

Lemma create_occurrence_runs db occurrence db' :
  create_occurrence db occurrence = Ok db' -> ad_runs db' = ad_runs db.
Proof. frame_tac. Qed.

Lemma create_timer_versions db timer db' : create_timer db timer = Ok db' -> ad_versions db' = ad_versions db.
Proof. frame_tac. Qed.

Lemma transition_timer_versions db timer db' :
  transition_timer db timer = Ok db' -> ad_versions db' = ad_versions db.
Proof. frame_tac. Qed.

Lemma append_trace_versions db step db' : append_trace db step = Ok db' -> ad_versions db' = ad_versions db.
Proof. frame_tac. Qed.

(** What the four row writes of a step leave alone, the step leaves alone. *)
Lemma commit_step_frame {B} (view : AutomationDb -> B) db write db' :
  (forall db run expected db', transition_run db run expected = Ok db' -> view db' = view db) ->
  (forall db timer db', create_timer db timer = Ok db' -> view db' = view db) ->
  (forall db timer db', transition_timer db timer = Ok db' -> view db' = view db) ->
  (forall db step db', append_trace db step = Ok db' -> view db' = view db) ->
  commit_step db write = Ok db' -> view db' = view db.
Proof.
  intros Hrun Hct Htt Htr. unfold commit_step. intros Hop. destruct (_ && _); [|discriminate].
  apply result_bind_ok in Hop as (db1 & Hr & Hop). apply result_bind_ok in Hop as (db2 & Hc & Hop).
  apply result_bind_ok in Hop as (db3 & Ht & Hop).
  rewrite (each_row_frame _ _ _ _ _ Htr Hop), (each_row_frame _ _ _ _ _ Htt Ht),
    (each_row_frame _ _ _ _ _ Hct Hc). eauto.
Qed.

Lemma commit_step_versions db write db' : commit_step db write = Ok db' -> ad_versions db' = ad_versions db.
Proof. apply (commit_step_frame ad_versions); intros ? *; frame_tac. Qed.

Lemma commit_step_occurrences db write db' :
  commit_step db write = Ok db' -> ad_occurrences db' = ad_occurrences db.
Proof. apply (commit_step_frame ad_occurrences); intros ? *; frame_tac. Qed.

Lemma retain_rows db policy db' counts :
  retain db policy = Ok (db', counts) ->
  (forall k r, ad_runs db' !! k = Some r -> ad_runs db !! k = Some r)
  /\ (forall k v, ad_versions db' !! k = Some v -> ad_versions db !! k = Some v)
  /\ (forall k o, ad_occurrences db' !! k = Some o -> ad_occurrences db !! k = Some o).
Proof.
  intros Hop. apply retain_stages in Hop as (limit & counts' & Hop). unfold retain_versions in Hop.
  ok_inv. simplify_eq. simpl. split_and!; by intros k x [Hk _]%filter_Some.
Qed.

Lemma adb_step_run db db' k r r' :
  adb_step db db' -> ad_runs db !! k = Some r -> ad_runs db' !! k = Some r' -> run_succ r r'.
Proof.
  intros Hstep Hr Hr'.
  assert (Hkeep : ad_runs db' = ad_runs db -> run_succ r r') by (intros He; left; congruence).
  destruct Hstep.
  all: try by match goal with H : _ = Ok _ |- _ => apply Hkeep; revert H; clear; frame_tac end.
  - match goal with H : create_run _ _ = _ |- _ => unfold create_run in H; rename H into Hop end.
    destruct (N.eqb _ _); [|discriminate]. destruct (ad_runs db !! ru_id run) eqn:E.
    + apply Hkeep. case_match; by ok_inv.
    + ok_inv. simpl in Hr'. rewrite lookup_insert_ne in Hr' by congruence. left. congruence.
  - by eapply transition_run_succ.
  - match goal with H : commit_step _ _ = _ |- _ => apply commit_step_run in H as (db1 & Hrun & He) end.
    rewrite He in Hr'. by eapply transition_run_succ.
  - match goal with H : retain _ _ = _ |- _ => apply retain_rows in H as [Hrow _]; apply Hrow in Hr' end.
    left. congruence.
Qed.

Lemma adb_step_version db db' k v v' :
  adb_wf db -> adb_step db db' -> ad_versions db !! k = Some v -> ad_versions db' !! k = Some v' ->
  version_succ v v'.
Proof.
  intros Hwf Hstep Hv Hv'.
  assert (Hkeep : ad_versions db' = ad_versions db -> version_succ v v').
  { intros He. assert (v' = v) as -> by congruence. apply version_succ_refl. }
  destruct Hstep.
  all: try by match goal with H : _ = Ok _ |- _ => apply Hkeep; revert H; clear; frame_tac end.
  - match goal with H : store_version _ _ = _ |- _ => rename H into Hop end.
    unfold store_version in Hop. apply result_bind_ok in Hop as ([] & _ & Hop).
    pose proof (ensure_identity_wf db (do_id (sv_document version))
      (do_created_at (sv_document version)) Hwf) as (Hwf1 & _ & Hver).
    set (db1 := ensure_identity _ _ _) in *. clearbody db1.
    do 2 (apply result_bind_ok in Hop as (? & _ & Hop)).
    destruct (version_conflict db1 version) eqn:Hconf.
    { ok_inv. apply Hkeep. case_match; by ok_inv. }
    ok_inv. simpl in Hv'. rewrite <- Hver in Hv.
    rewrite lookup_insert_ne in Hv'; [assert (v' = v) as -> by congruence; apply version_succ_refl|].
    intros <-. by rewrite (version_conflict_lookup _ _ _ Hwf1 Hv) in Hconf.
  - match goal with H : transition_version _ _ _ = _ |- _ =>
      apply transition_version_keeps in H as (_ & old & Hold & Hk & Hst & Hal & event & ->) end.
    simpl in Hv'. apply lookup_insert_Some in Hv' as [[<- <-]|[_ Hv']].
    + simplify_eq. split; [done|by right].
    + assert (v' = v) as -> by congruence. apply version_succ_refl.
  - apply Hkeep. by eapply commit_step_versions.
  - match goal with H : retain _ _ = _ |- _ => apply retain_rows in H as (_ & Hrow & _); apply Hrow in Hv' end.
    assert (v' = v) as -> by congruence. apply version_succ_refl.
Qed.

(** The occurrence a transaction leaves of a stored one: itself, or itself one
    legal state further. *)
Definition occurrence_succ (old new : AutomationOccurrence) : Prop :=
  new = old \/ (same_occurrence old new = true
    /\ AutomationOccurrenceState.allows_transition_to (oc_state old) (oc_state new) = true).

Lemma adb_step_occurrence db db' k o o' :
  adb_step db db' -> ad_occurrences db !! k = Some o -> ad_occurrences db' !! k = Some o' ->
  occurrence_succ o o'.
Proof.
  intros Hstep Ho Ho'.
  assert (Hkeep : ad_occurrences db' = ad_occurrences db -> occurrence_succ o o') by (intros He; left; congruence).
  destruct Hstep.
  all: try by match goal with H : _ = Ok _ |- _ => apply Hkeep; revert H; clear; frame_tac end.
  - match goal with H : create_occurrence _ _ = _ |- _ => unfold create_occurrence in H; rename H into Hop end.
    destruct (ad_occurrences db !! oc_id occurrence) eqn:E.
    + apply Hkeep. case_match; by ok_inv.
    + ok_inv. simpl in Ho'. rewrite lookup_insert_ne in Ho' by congruence. left. congruence.
  - match goal with H : transition_occurrence _ _ = _ |- _ => unfold transition_occurrence in H end.
    ok_inv. bool_inv. simpl in Ho'. apply lookup_insert_Some in Ho' as [[<- <-]|[_ Ho']]; [|left; congruence].
    simplify_eq. by right.
  - apply Hkeep. by eapply commit_step_occurrences.
  - match goal with H : retain _ _ = _ |- _ => apply retain_rows in H as (_ & _ & Hrow); apply Hrow in Ho' end.
    left. congruence.
Qed.

End Invariant.
