(* ===== verification/AutomationCompiler.v ===== *)
(** Validation and compilation of automations,
    [crates/homemagic-application/src/automation_compiler.rs].  The mutable
    [Compiler] is the state of a monad; its methods read the document and the
    registry snapshot from the section.  Recursion over actions takes the height
    of the action tree as fuel: every nested list is reduced first, and reducing
    never makes a tree higher. *)

From S2P Require Import Prelude Text BTree Json Capability Lifecycle Device Command CommandStore CommandService Automation.

(** The calendar libraries: known time zones, [%H:%M:%S] times and the local time
    of an instant as offsets from midnight, and valid cron expressions. *)
Class Calendar := {
  timezone_known : string -> bool;
  parse_local_time : string -> option Z;
  cron_valid : string -> bool;
  local_time : string -> Instant -> Z
}.

Record AutomationCompilationError := mk_compilation_error {
  compile_findings : list AutomationValidationError
}.

(** ** Pure helpers *)

Definition budget_field (error : AutomationResourceBudgetError) : string :=
  match error with
  | Bu_MaximumNodes => "maximum_nodes"
  | Bu_MaximumNestingDepth => "maximum_nesting_depth"
  | Bu_MaximumParallelWidth => "maximum_parallel_width"
  | Bu_MaximumQueueLength => "maximum_queue_length"
  | Bu_MaximumTraceSteps => "maximum_trace_steps"
  | Bu_MaximumRunDuration => "maximum_run_duration_ms"
  end.

Definition pointer_segment (value : string) : string :=
  replace_char "/" "~1" (replace_char "~" "~0" value).

Definition all_digits (s : string) : bool := forallb is_ascii_digit (bytes s).

Definition canonical_decimal (value : string) : bool :=
  let unsigned := default value (strip_prefix "-" value) in
  if String.eqb unsigned "" || starts_with "+" unsigned then false
  else
    match split_on "." unsigned with
    | integer :: parts =>
        let fraction := match parts with fraction :: _ => Some fraction | [] => None end in
        if (1 <? length parts) || String.eqb integer "" || negb (all_digits integer)
           || ((1 <? String.length integer) && starts_with "0" integer)
        then false
        else
          match fraction with
          | Some fraction =>
              negb (String.eqb fraction "") && all_digits fraction
              && negb (ends_with "0" fraction)
          | None => negb (String.eqb value "-0")
          end
    | [] => false
    end.

(** The variant names [{:?}] prints. *)
Definition debug_code (code : CommandErrorCode) : string :=
  match code with
  | Ce_CapabilityMismatch => "CapabilityMismatch" | Ce_ValueOutOfRange => "ValueOutOfRange"
  | Ce_TransitionTooLong => "TransitionTooLong" | Ce_DeadlineExceeded => "DeadlineExceeded"
  | Ce_StaleObservation => "StaleObservation"
  | Ce_UnsupportedConstraint => "UnsupportedConstraint"
  | Ce_IdempotencyConflict => "IdempotencyConflict" | Ce_PolicyDenied => "PolicyDenied"
  | Ce_SupersededBeforeDispatch => "SupersededBeforeDispatch" | Ce_RateLimited => "RateLimited"
  | Ce_DeviceBusy => "DeviceBusy" | Ce_AdapterRejected => "AdapterRejected"
  | Ce_TransportFailure => "TransportFailure" | Ce_ProtectionActive => "ProtectionActive"
  | Ce_ObstructionDetected => "ObstructionDetected" | Ce_Overtemperature => "Overtemperature"
  | Ce_ConfirmationMismatch => "ConfirmationMismatch"
  | Ce_IndeterminateAfterRestart => "IndeterminateAfterRestart"
  end.

(** ** Reduction of commands *)

Definition command_target (action : AutomationAction) : option AutomationTargetReference :=
  match action with Do_Command target _ _ _ => Some target | _ => None end.

Definition is_command (action : AutomationAction) : bool :=
  match action with Do_Command _ _ _ _ => true | _ => false end.

(** The commands of a segment that no later one of the same target replaces. *)
Fixpoint last_of_targets (commands : list AutomationAction) : list AutomationAction :=
  match commands with
  | [] => []
  | action :: commands =>
      if existsb (fun candidate => bool_decide (command_target candidate = command_target action))
           commands
      then last_of_targets commands
      else action :: last_of_targets commands
  end.

(** One iteration of the loop of [reduce_actions]; the accumulator holds the
    output and the open segment. *)
Definition reduce_step (reduce_nested : AutomationAction -> AutomationAction)
  (acc : list AutomationAction * list AutomationAction) (action : AutomationAction) :
  list AutomationAction * list AutomationAction :=
  let '(output, segment) := acc in
  if is_command action then (output, segment ++ [action])
  else (output ++ last_of_targets segment ++ [reduce_nested action], []).

Definition reduce_with (reduce_nested : AutomationAction -> AutomationAction)
  (actions : list AutomationAction) : list AutomationAction :=
  let '(output, segment) := fold_left (reduce_step reduce_nested) actions ([], []) in
  output ++ last_of_targets segment.

Fixpoint reduce_nested (action : AutomationAction) : AutomationAction :=
  match action with
  | Do_Sequence actions => Do_Sequence (reduce_with reduce_nested actions)
  | Do_If condition then_actions else_actions =>
      Do_If condition (reduce_with reduce_nested then_actions)
        (reduce_with reduce_nested else_actions)
  | Do_Parallel branches maximum_parallel =>
      Do_Parallel (map (reduce_with reduce_nested) branches) maximum_parallel
  | Do_Race branches maximum_parallel =>
      Do_Race (map (reduce_with reduce_nested) branches) maximum_parallel
  | Do_Wait condition timeout_ms on_timeout =>
      Do_Wait condition timeout_ms (reduce_failure on_timeout)
  | Do_Command _ _ _ _ | Do_Delay _ | Do_SetVariable _ _ => action
  end
with reduce_failure (policy : AutomationFailurePolicy) : AutomationFailurePolicy :=
  match policy with
  | Fail_Fallback actions => Fail_Fallback (reduce_with reduce_nested actions)
  | _ => policy
  end.

Definition reduce_actions : list AutomationAction -> list AutomationAction :=
  reduce_with reduce_nested.

(** ** The compiler state *)

Record Compiler := mk_compiler {
  cp_findings : list AutomationValidationError;
  cp_nodes : list AutomationPlanNode;
  cp_profiles : gset AutomationSafetyProfile;
  cp_requirements : gset AutomationSafetyRequirement;
  cp_next_segment : N
}.

Definition new_compiler : Compiler := mk_compiler [] [] ∅ ∅ 0.

(** A method of [Compiler] that returns an [A]. *)
Definition Comp (A : Type) : Type := Compiler -> A * Compiler.

Definition ret {A : Type} (a : A) : Comp A := fun c => (a, c).
Definition comp_bind {A B : Type} (m : Comp A) (f : A -> Comp B) : Comp B :=
  fun c => let '(a, c) := m c in f a c.

Notation "'let*' x ':=' m 'in' k" := (comp_bind m (fun x => k))
  (at level 10, x pattern, m at level 100, k at level 200) : hm_scope.
Notation "'do*' m ';' k" := (comp_bind m (fun _ => k))
  (at level 10, m at level 100, k at level 200) : hm_scope.

Definition comp_when (b : bool) (m : Comp unit) : Comp unit := if b then m else ret tt.

Definition finding (code : AutomationValidationCode) (path reason : string)
  (remediation reference : option string) : Comp unit :=
  fun c => (tt, mk_compiler (cp_findings c ++ [mk_finding code path reason remediation reference])
                  (cp_nodes c) (cp_profiles c) (cp_requirements c) (cp_next_segment c)).

Definition required (path reason : string) : Comp unit :=
  finding Vc_RequiredValueMissing path reason None None.
Definition bound (path reason : string) : Comp unit :=
  finding Vc_ResourceBoundExceeded path reason None None.
Definition incompatible (path reason : string) : Comp unit :=
  finding Vc_CapabilityIncompatible path reason
    (Some "Choose a compatible capability, endpoint, field, or payload"%string) None.
Definition type_mismatch (path reason : string) : Comp unit :=
  finding Vc_TypeMismatch path reason (Some "Use matching declared scalar types"%string) None.
Definition invalid_schedule (path reason : string) : Comp unit :=
  finding Vc_InvalidSchedule path reason
    (Some "Use five-field cron syntax and an IANA timezone name"%string) None.

(** [u32::try_from(len).unwrap_or(u32::MAX)]. *)
Definition node_id_of (position : nat) : AutomationPlanNodeId := N.min (N.of_nat position) u32_max.

Definition push_node (kind : AutomationPlanNodeKind) : Comp AutomationPlanNodeId :=
  fun c =>
    let id := node_id_of (length (cp_nodes c)) in
    (id, mk_compiler (cp_findings c) (cp_nodes c ++ [mk_node id id kind]) (cp_profiles c)
           (cp_requirements c) (cp_next_segment c)).

Definition insert_profile (profile : AutomationSafetyProfile) : Comp unit :=
  fun c => (tt, mk_compiler (cp_findings c) (cp_nodes c) ({[profile]} ∪ cp_profiles c)
                  (cp_requirements c) (cp_next_segment c)).
Definition insert_requirement (requirement : AutomationSafetyRequirement) : Comp unit :=
  fun c => (tt, mk_compiler (cp_findings c) (cp_nodes c) (cp_profiles c)
                  ({[requirement]} ∪ cp_requirements c) (cp_next_segment c)).

(** Allocates a reduction segment. *)
Definition new_segment : Comp N :=
  fun c => (cp_next_segment c,
            mk_compiler (cp_findings c) (cp_nodes c) (cp_profiles c) (cp_requirements c)
              (u32_saturating_add (cp_next_segment c) 1)).

Definition validate_timer (duration_ms : N) (path : string) : Comp unit :=
  comp_when (N.eqb duration_ms 0 || N.ltb MAX_AUTOMATION_TIMER_MILLIS duration_ms)
    (bound path "duration is outside the supported timer range").

Definition validate_value (value : AutomationValue) (path : string) : Comp unit :=
  match value with
  | Val_Decimal decimal =>
      comp_when (negb (canonical_decimal decimal))
        (finding Vc_InvalidDecimal path "decimal is not canonical plain base-10 text"
           (Some "Use forms such as 0, -2, or 12.5 without exponent or trailing zeros"%string) None)
  | Val_DurationMillis duration => validate_timer duration path
  | _ => ret tt
  end.

Definition observation_type (capability field : string) : option AutomationValueType :=
  let names c f := String.eqb capability c && String.eqb field f in
  if names "on_off.v1" "on" || names "availability.v1" "online" then Some Vt_Boolean
  else if names "level.v1" "percent" || names "position.v1" "percent"
          || names "power.v1" "watts" || names "power.v1" "volts" || names "power.v1" "amperes"
          || names "energy.v1" "watt_hours" then Some Vt_Decimal
  else if names "position.v1" "motion" || names "diagnostics.v1" "firmware_version"
  then Some Vt_String
  else None.

Definition validate_observation_field (capability field path : string) :
  Comp (option AutomationValueType) :=
  match observation_type capability field with
  | Some value_type => ret (Some value_type)
  | None =>
      do* incompatible path "field is not defined by the capability schema"; ret None
  end.

(** The segment of every action: consecutive commands share one. *)
Fixpoint segments_of (active_segment : option N) (actions : list AutomationAction) :
  Comp (list (option N)) :=
  match actions with
  | [] => ret []
  | action :: actions =>
      if is_command action then
        let* segment := match active_segment with
                        | Some segment => ret segment
                        | None => new_segment
                        end in
        let* rest := segments_of (Some segment) actions in
        ret (Some segment :: rest)
      else
        let* rest := segments_of None actions in
        ret (None :: rest)
  end.

Definition path_index (path : string) (index : nat) : string := path +:+ "/" +:+ show_nat index.

Section Compiler.
Context `{SerdeJson} `{Calendar}.
Context (document : AutomationDocument) (snapshot : FoundationSnapshot).

Definition budget : AutomationResourceBudget := do_budget document.

(** ** Targets *)

Definition selects (reference : AutomationDeviceReference) (device : DeviceRecord) : bool :=
  match reference with
  | Ref_Device device_id => String.eqb (ds_id (dr_snapshot device)) device_id
  | Ref_Alias alias =>
      String.eqb (ds_name (dr_snapshot device)) alias || bool_decide (alias ∈ dr_aliases device)
  | Ref_Space space_id => bool_decide (space_id ∈ dr_spaces device)
  end.

Definition is_alias (reference : AutomationDeviceReference) : bool :=
  match reference with Ref_Alias _ => true | _ => false end.

(** The endpoints of a device that expose the requested capability. *)
Definition matching_endpoints (target : AutomationTargetReference) (device : DeviceRecord) :
  list EndpointId :=
  map fst (List.filter (fun '(endpoint, descriptors) =>
    match tr_endpoint_id target with
    | Some selected => String.eqb selected endpoint
    | None => true
    end
    && existsb (fun descriptor =>
         String.eqb (CapabilityDescriptor.schema descriptor) (tr_capability target)) descriptors)
    (dr_capability_descriptors device)).

Fixpoint resolve_devices (target : AutomationTargetReference) (path : string)
  (devices : list DeviceRecord) (resolved : list ResolvedAutomationTarget) :
  Comp (option (list ResolvedAutomationTarget)) :=
  match devices with
  | [] => ret (Some resolved)
  | device :: devices =>
      let endpoints := matching_endpoints target device in
      if bool_decide (endpoints = []) then
        do* incompatible path "target endpoint does not expose the requested capability schema";
        ret None
      else if bool_decide (tr_endpoint_id target = None) && (1 <? length endpoints) then
        do* finding Vc_ReferenceAmbiguous (path +:+ "/endpoint_id")
              "capability exists on multiple endpoints"
              (Some "Specify an exact endpoint_id"%string) (Some (ds_id (dr_snapshot device)));
        ret None
      else
        resolve_devices target path devices
          (resolved ++ map (fun endpoint_id =>
             mk_resolved (ds_id (dr_snapshot device)) endpoint_id (tr_capability target)) endpoints)
  end.

Definition target_le (left right : ResolvedAutomationTarget) : bool :=
  str_ltb (rt_device_id left) (rt_device_id right)
  || (String.eqb (rt_device_id left) (rt_device_id right)
      && str_leb (rt_endpoint_id left) (rt_endpoint_id right)).

Definition resolve_target (target : AutomationTargetReference) (path : string) :
  Comp (option (list ResolvedAutomationTarget)) :=
  let devices := List.filter (selects (tr_device target)) (fs_devices snapshot) in
  if bool_decide (length devices = 0) then
    do* finding Vc_ReferenceMissing (path +:+ "/device") "device selector did not resolve"
          (Some "Use an enrolled device ID, unique alias, or populated space"%string) None;
    ret None
  else if is_alias (tr_device target) && (1 <? length devices) then
    do* finding Vc_ReferenceAmbiguous (path +:+ "/device")
          "device alias resolves to more than one device"
          (Some "Use a unique alias or exact device ID"%string) None;
    ret None
  else if existsb (fun device => negb (bool_decide (dr_lifecycle device = Enrolled))) devices then
    do* finding Vc_ReferenceStale (path +:+ "/device")
          "device selector includes a stale or removed device"
          (Some "Restore device health or select an enrolled device"%string) None;
    ret None
  else
    let* resolved := resolve_devices target path devices [] in
    ret (sort_by target_le <$> resolved).

(** ** Safety classification *)

Definition resolved_risk_of (target : ResolvedAutomationTarget) : option RiskClass :=
  device ← List.find (fun device => String.eqb (ds_id (dr_snapshot device)) (rt_device_id target))
             (fs_devices snapshot);
  endpoint ← List.find (fun endpoint => String.eqb (es_id endpoint) (rt_endpoint_id target))
               (ds_endpoints (dr_snapshot device));
  descriptor ← List.find (fun descriptor =>
                 String.eqb (CapabilityDescriptor.schema descriptor) (rt_capability target))
                 (map CapabilitySnapshot.descriptor (es_capabilities endpoint));
  Some (cd_risk descriptor).

Definition resolved_risk (targets : list ResolvedAutomationTarget) : option RiskClass :=
  find_map resolved_risk_of targets.

Definition position_is_calibrated (target : AutomationTargetReference) : bool :=
  match tr_endpoint_id target with
  | None => false
  | Some endpoint_id =>
      existsb (fun device =>
        selects (tr_device target) device
        && existsb (fun endpoint =>
             String.eqb (es_id endpoint) endpoint_id
             && existsb is_calibrated_position (es_capabilities endpoint))
             (ds_endpoints (dr_snapshot device))) (fs_devices snapshot)
  end.

Definition classify_command (target : AutomationTargetReference)
  (resolved : list ResolvedAutomationTarget) (payload : CommandPayload) (path : string) :
  Comp unit :=
  let name := to_ascii_lowercase (tr_capability target) in
  let* profile :=
    if contains "lock" name || contains "door" name then ret Sp_AccessControl
    else if contains "valve" name || contains "flow" name then ret Sp_FlowControl
    else if contains "camera" name || contains "security" name
            || bool_decide (resolved_risk resolved = Some Risk_Security) then ret Sp_Security
    else
      match payload with
      | Pl_Position command =>
          do* insert_requirement Rq_FreshState;
          do* insert_requirement Rq_StopSupport;
          do* match command with
              | Pos_GoTo _ =>
                  do* insert_requirement Rq_Calibration;
                  do* insert_requirement Rq_Position;
                  comp_when (negb (position_is_calibrated target))
                    (finding Vc_SafetyConstraintUnavailable (path +:+ "/payload")
                       "absolute position command requires a calibrated current position"
                       (Some "Calibrate the cover and refresh its position before validation"%string)
                       None)
              | _ => ret tt
              end;
          ret Sp_ComfortMotion
      | _ => ret Sp_Comfort
      end in
  insert_profile profile.

(** ** Expressions and conditions *)

Definition compile_expression (expression : AutomationExpression) (path : string) :
  Comp (option (ResolvedAutomationExpression * AutomationValueType)) :=
  match expression with
  | Ex_Literal value =>
      do* validate_value value (path +:+ "/value");
      ret (Some (Rx_Literal value, AutomationValue.value_type value))
  | Ex_Variable name =>
      match bget name (do_variables document) with
      | None => do* type_mismatch path "referenced variable is not declared"; ret None
      | Some definition => ret (Some (Rx_Variable name, vd_value_type definition))
      end
  | Ex_Observation target field =>
      let* value_type := validate_observation_field (tr_capability target) field
                           (path +:+ "/field") in
      let* targets := resolve_target target (path +:+ "/target") in
      match targets, value_type with
      | Some targets, Some value_type =>
          if length targets =? 1 then ret (Some (Rx_Observation targets field, value_type))
          else
            do* type_mismatch (path +:+ "/target")
                  "scalar observation expression must resolve to exactly one target";
            ret None
      | _, _ => ret None
      end
  end.

Definition is_equality (operator : AutomationComparison) : bool :=
  match operator with Cmp_Equal | Cmp_NotEqual => true | _ => false end.

Definition is_unordered (value_type : AutomationValueType) : bool :=
  match value_type with Vt_Null | Vt_Boolean => true | _ => false end.

(** [conditions.iter().enumerate().filter_map(..)]. *)
Definition compile_each (compile : AutomationCondition -> string -> Comp (option ResolvedAutomationCondition))
  (path : string) : nat -> list AutomationCondition -> Comp (list ResolvedAutomationCondition) :=
  fix go (index : nat) (conditions : list AutomationCondition) :=
    match conditions with
    | [] => ret []
    | condition :: conditions =>
        let* compiled := compile condition (path_index (path +:+ "/conditions") index) in
        let* rest := go (S index) conditions in
        ret (match compiled with Some compiled => compiled :: rest | None => rest end)
    end.

Definition compile_condition_list
  (compile : AutomationCondition -> string -> Comp (option ResolvedAutomationCondition))
  (conditions : list AutomationCondition) (path : string)
  (constructor : list ResolvedAutomationCondition -> ResolvedAutomationCondition) :
  Comp (option ResolvedAutomationCondition) :=
  do* comp_when (bool_decide (length conditions = 0))
        (required (path +:+ "/conditions") "condition list must not be empty");
  let* compiled := compile_each compile path 0 conditions in
  ret (if length compiled =? length conditions then Some (constructor compiled) else None).

Fixpoint compile_condition (condition : AutomationCondition) (path : string) (depth : N)
  {struct condition} : Comp (option ResolvedAutomationCondition) :=
  if N.ltb (bu_maximum_nesting_depth budget) depth then
    do* bound path "condition nesting exceeds the declared depth budget"; ret None
  else
    match condition with
    | Cond_Literal value => ret (Some (Rc_Literal value))
    | Cond_Compare lhs operator rhs =>
        let* lhs := compile_expression lhs (path +:+ "/left") in
        let* rhs := compile_expression rhs (path +:+ "/right") in
        match lhs, rhs with
        | Some (lhs, lhs_type), Some (rhs, rhs_type) =>
            do* comp_when (negb (bool_decide (lhs_type = rhs_type)))
                  (type_mismatch path "comparison operand types do not match");
            do* comp_when (negb (is_equality operator) && is_unordered lhs_type)
                  (type_mismatch path "selected operator is not defined for this value type");
            ret (Some (Rc_Compare lhs operator rhs))
        | _, _ => ret None
        end
    | Cond_All conditions =>
        compile_condition_list
          (fun condition path => compile_condition condition path (u16_wrapping_add depth 1))
          conditions path Rc_All
    | Cond_Any conditions =>
        compile_condition_list
          (fun condition path => compile_condition condition path (u16_wrapping_add depth 1))
          conditions path Rc_Any
    | Cond_Not condition =>
        let* compiled := compile_condition condition (path +:+ "/condition")
                           (u16_wrapping_add depth 1) in
        ret (Rc_Not <$> compiled)
    | Cond_TimeWindow timezone start end_ =>
        do* comp_when (negb (timezone_known timezone)
                       || bool_decide (parse_local_time start = None)
                       || bool_decide (parse_local_time end_ = None))
              (invalid_schedule path "time window or timezone is invalid");
        ret (Some (Rc_TimeWindow timezone start end_))
    | Cond_StateDuration condition duration_ms =>
        do* validate_timer duration_ms (path +:+ "/duration_ms");
        let* compiled := compile_condition condition (path +:+ "/condition")
                           (u16_wrapping_add depth 1) in
        ret ((fun condition => Rc_StateDuration condition duration_ms) <$> compiled)
    end.

(** ** Actions *)

(** The methods that compile nested action lists take [compile_action] of the
    smaller fuel. *)
Section Nested.
Context (compile_action : AutomationAction -> option AutomationPlanNodeId -> string -> N ->
  option N -> Comp (option AutomationPlanNodeId)).

(** The loop over the actions from the last to the first. *)
Fixpoint compile_reversed (index : nat) (actions : list AutomationAction)
  (segments : list (option N)) (next : option AutomationPlanNodeId) (path : string) (depth : N) :
  Comp (option AutomationPlanNodeId) :=
  match actions, segments with
  | action :: actions, segment :: segments =>
      let* following := compile_reversed (S index) actions segments next path depth in
      compile_action action following (path_index path index) depth segment
  | _, _ => ret next
  end.

Definition compile_actions (actions : list AutomationAction)
  (next : option AutomationPlanNodeId) (path : string) (depth : N) :
  Comp (option AutomationPlanNodeId) :=
  if N.ltb (bu_maximum_nesting_depth budget) depth then
    do* bound path "action nesting exceeds the declared depth budget"; ret next
  else
    let* segments := segments_of None actions in
    compile_reversed 0 actions segments next path depth.

Definition compile_failure (policy : AutomationFailurePolicy)
  (next : option AutomationPlanNodeId) (path : string) (depth : N) :
  Comp AutomationPlanFailurePolicy :=
  match policy with
  | Fail_StopRun => ret Pf_StopRun
  | Fail_StopBranch => ret Pf_StopBranch
  | Fail_Continue => ret Pf_Continue
  | Fail_Fallback actions =>
      do* comp_when (bool_decide (length actions = 0))
            (required (path +:+ "/actions") "fallback actions must not be empty");
      let* entry := compile_actions (reduce_actions actions) next (path +:+ "/actions") depth in
      ret (Pf_Fallback entry)
  end.

Fixpoint compile_branches (index : nat) (branches : list (list AutomationAction))
  (join : AutomationPlanNodeId) (path : string) (depth : N) :
  Comp (list AutomationPlanNodeId) :=
  match branches with
  | [] => ret []
  | branch :: branches =>
      let branch_path := path_index (path +:+ "/branches") index in
      do* comp_when (bool_decide (length branch = 0))
            (required branch_path "parallel branch must not be empty");
      let* entry := compile_actions (reduce_actions branch) (Some join) branch_path
                      (u16_wrapping_add depth 1) in
      let* entries := compile_branches (S index) branches join path depth in
      ret (match entry with Some entry => entry :: entries | None => entries end)
  end.

Definition compile_group (branches : list (list AutomationAction)) (maximum_parallel : N)
  (next : option AutomationPlanNodeId) (path : string) (depth : N) (race : bool) :
  Comp AutomationPlanNodeId :=
  do* comp_when (bool_decide (length branches = 0))
        (required (path +:+ "/branches") "at least one branch is required");
  do* comp_when (N.ltb (bu_maximum_parallel_width budget) (N.of_nat (length branches))
                 || N.eqb maximum_parallel 0
                 || N.ltb (N.of_nat (length branches)) maximum_parallel
                 || N.ltb (bu_maximum_parallel_width budget) maximum_parallel)
        (bound (path +:+ "/maximum_parallel")
           "parallel width exceeds the branch count or declared budget");
  let* join := push_node (Node_Join next) in
  let* entries := compile_branches 0 branches join path depth in
  push_node (if race then Node_Race entries maximum_parallel (Some join)
             else Node_Parallel entries maximum_parallel (Some join)).
End Nested.

Definition is_literal (condition : AutomationCondition) : bool :=
  match condition with Cond_Literal _ => true | _ => false end.

Fixpoint compile_action (fuel : nat) (action : AutomationAction)
  (next : option AutomationPlanNodeId) (path : string) (depth : N)
  (reduction_segment : option N) : Comp (option AutomationPlanNodeId) :=
  match fuel with
  | O => ret None
  | S fuel =>
      let compile_actions := compile_actions (compile_action fuel) in
      let compile_failure := compile_failure (compile_action fuel) in
      let compile_group := compile_group (compile_action fuel) in
      match action with
      | Do_Command target payload retry on_failure =>
          do* comp_when (negb (String.eqb (CommandPayload.schema payload) (tr_capability target)))
                (incompatible (path +:+ "/payload")
                   "command payload schema does not match the target capability");
          do* match CommandPayload.validate payload with
              | Ok _ => ret tt
              | Err error => incompatible (path +:+ "/payload")
                               ("command payload is invalid: " +:+ debug_code error)
              end;
          do* comp_when (N.ltb MAX_AUTOMATION_RETRIES (rp_maximum_retries retry))
                (bound (path +:+ "/retry/maximum_retries") "retry count exceeds the engine limit");
          do* comp_when (N.ltb MAX_AUTOMATION_TIMER_MILLIS (rp_backoff_ms retry))
                (bound (path +:+ "/retry/backoff_ms") "retry delay exceeds the engine timer limit");
          let* targets := resolve_target target (path +:+ "/target") in
          let* failure := compile_failure on_failure next (path +:+ "/on_failure")
                            (u16_wrapping_add depth 1) in
          match targets with
          | None => ret None
          | Some targets =>
              do* classify_command target targets payload path;
              let* id := push_node (Node_Command targets payload (default 0%N reduction_segment)
                                      retry failure next) in
              ret (Some id)
          end
      | Do_Delay duration_ms =>
          do* validate_timer duration_ms (path +:+ "/duration_ms");
          let* id := push_node (Node_Delay duration_ms next) in
          ret (Some id)
      | Do_Wait condition timeout_ms on_timeout =>
          do* validate_timer timeout_ms (path +:+ "/timeout_ms");
          let* condition := compile_condition condition (path +:+ "/condition")
                              (u16_wrapping_add depth 1) in
          let* on_timeout := compile_failure on_timeout next (path +:+ "/on_timeout")
                               (u16_wrapping_add depth 1) in
          match condition with
          | None => ret None
          | Some condition =>
              let* id := push_node (Node_Wait condition timeout_ms on_timeout next) in
              ret (Some id)
          end
      | Do_SetVariable name value =>
          let* expression := compile_expression value (path +:+ "/value") in
          match bget name (do_variables document), expression with
          | None, _ =>
              do* type_mismatch (path +:+ "/name") "assigned variable is not declared";
              ret None
          | Some definition, Some (value, value_type) =>
              do* comp_when (negb (bool_decide (vd_value_type definition = value_type)))
                    (type_mismatch (path +:+ "/value")
                       "assigned expression does not match the variable type");
              let* id := push_node (Node_SetVariable name value next) in
              ret (Some id)
          | Some _, None => ret None
          end
      | Do_Sequence actions =>
          compile_actions (reduce_actions actions) next (path +:+ "/actions")
            (u16_wrapping_add depth 1)
      | Do_If condition then_actions else_actions =>
          do* comp_when (is_literal condition)
                (finding Vc_ImpossibleBranch (path +:+ "/condition")
                   "literal condition makes one branch unreachable"
                   (Some "Remove the unreachable branch or use a dynamic condition"%string) None);
          let* join := push_node (Node_Join next) in
          let* then_node := compile_actions (reduce_actions then_actions) (Some join)
                              (path +:+ "/then_actions") (u16_wrapping_add depth 1) in
          let* else_node := compile_actions (reduce_actions else_actions) (Some join)
                              (path +:+ "/else_actions") (u16_wrapping_add depth 1) in
          let* condition := compile_condition condition (path +:+ "/condition")
                              (u16_wrapping_add depth 1) in
          match condition with
          | None => ret None
          | Some condition =>
              let* id := push_node (Node_Branch condition then_node else_node (Some join)) in
              ret (Some id)
          end
      | Do_Parallel branches maximum_parallel =>
          let* id := compile_group branches maximum_parallel next path depth false in
          ret (Some id)
      | Do_Race branches maximum_parallel =>
          let* id := compile_group branches maximum_parallel next path depth true in
          ret (Some id)
      end
  end.

(** ** Triggers *)

Definition validate_schedule (schedule : AutomationSchedule) (path : string) : Comp unit :=
  do* comp_when (negb (split_whitespace_count (as_cron schedule) =? 5)
                 || negb (cron_valid ("0 " +:+ as_cron schedule))
                 || negb (timezone_known (as_timezone schedule)))
        (invalid_schedule path "five-field cron expression or IANA timezone is invalid");
  comp_when (N.eqb (as_occurrence_window_ms schedule) 0
             || N.ltb MAX_AUTOMATION_TIMER_MILLIS (as_occurrence_window_ms schedule))
    (bound (path +:+ "/occurrence_window_ms")
       "occurrence window is outside the supported timer range").

Definition compile_trigger (trigger : AutomationTrigger) (path : string) :
  Comp (option ResolvedAutomationTrigger) :=
  match trigger with
  | Trig_ObservationChanged target field =>
      let* targets := resolve_target target (path +:+ "/target") in
      do* match field with
          | Some field =>
              let* _ := validate_observation_field (tr_capability target) field
                          (path +:+ "/field") in
              ret tt
          | None => ret tt
          end;
      ret ((fun targets => Rt_ObservationChanged targets field) <$> targets)
  | Trig_DeviceEvent target event =>
      do* comp_when (trim_is_empty event)
            (required (path +:+ "/event") "event name must not be empty");
      let* targets := resolve_target target (path +:+ "/target") in
      ret ((fun targets => Rt_DeviceEvent targets event) <$> targets)
  | Trig_Schedule schedule =>
      do* validate_schedule schedule (path +:+ "/schedule");
      ret (Some (Rt_Schedule schedule))
  | Trig_CommandOutcome target states =>
      do* comp_when (bool_decide (states = ∅))
            (required (path +:+ "/states") "at least one state is required");
      let* targets := match target with
                      | Some target => resolve_target target (path +:+ "/target")
                      | None => ret None
                      end in
      ret (if bool_decide (is_Some target) && bool_decide (targets = None) then None
           else Some (Rt_CommandOutcome targets states))
  end.

Fixpoint compile_triggers (index : nat) (triggers : list AutomationTrigger) :
  Comp (list ResolvedAutomationTrigger) :=
  match triggers with
  | [] => ret []
  | trigger :: triggers =>
      let* resolved := compile_trigger trigger (path_index "/triggers" index) in
      let* compiled := compile_triggers (S index) triggers in
      ret (match resolved with Some resolved => resolved :: compiled | None => compiled end)
  end.

(** ** Structure *)

Fixpoint validate_variables (variables : list (string * AutomationVariableDefinition)) :
  Comp unit :=
  match variables with
  | [] => ret tt
  | (name, definition) :: variables =>
      let path := "/variables/" +:+ pointer_segment name in
      do* comp_when (trim_is_empty name) (required path "variable name must not be empty");
      do* match vd_initial definition with
          | Some initial =>
              do* validate_value initial (path +:+ "/initial");
              comp_when (negb (bool_decide
                  (AutomationValue.value_type initial = vd_value_type definition)))
                (type_mismatch (path +:+ "/initial")
                   "initial value does not match the declared variable type")
          | None => ret tt
          end;
      validate_variables variables
  end.

Definition validate_structure `{AutomationEncoding} : Comp unit :=
  do* match encode_document document with
      | Ok bytes =>
          comp_when (N.ltb MAX_AUTOMATION_DOCUMENT_BYTES (N.of_nat (length bytes)))
            (finding Vc_DocumentTooLarge ""
               "serialized automation document exceeds the hard byte limit"
               (Some "Reduce document size"%string) None)
      | Err error =>
          finding Vc_RequiredValueMissing "" "automation document cannot be serialized" None
            (Some error)
      end;
  do* comp_when (trim_is_empty (do_name document))
        (required "/name" "automation name must not be empty");
  do* comp_when (trim_is_empty (pv_source_request (do_provenance document)))
        (required "/provenance/source_request" "source request must not be empty");
  do* comp_when (trim_is_empty (pv_rationale (do_provenance document)))
        (required "/provenance/rationale" "rationale must not be empty");
  do* comp_when (bool_decide (length (do_triggers document) = 0))
        (required "/triggers" "at least one trigger is required");
  do* comp_when (bool_decide (length (do_actions document) = 0))
        (required "/actions" "at least one action is required");
  do* match AutomationResourceBudget.validate budget with
      | Ok _ => ret tt
      | Err error =>
          finding Vc_ResourceBoundExceeded ("/budget/" +:+ budget_field error)
            "declared budget is zero or exceeds the engine limit"
            (Some "Choose a positive value within the documented engine bound"%string) None
      end;
  do* match do_run_mode document with
      | Mode_Queued capacity =>
          comp_when (N.eqb capacity 0 || N.ltb (bu_maximum_queue_length budget) capacity)
            (bound "/run_mode/capacity" "queue capacity exceeds its declared budget")
      | Mode_Parallel maximum_parallel =>
          comp_when (N.eqb maximum_parallel 0
                     || N.ltb (bu_maximum_parallel_width budget) maximum_parallel)
            (bound "/run_mode/maximum_parallel"
               "parallel run capacity exceeds its declared budget")
      | _ => ret tt
      end;
  validate_variables (do_variables document).

End Compiler.

(** ** Fuel *)

Definition list_height {A : Type} (height : A -> nat) (l : list A) : nat :=
  fold_right (fun a n => Nat.max (height a) n) 0 l.

Fixpoint action_height (action : AutomationAction) : nat :=
  match action with
  | Do_Command _ _ _ policy | Do_Wait _ _ policy => S (failure_height policy)
  | Do_Delay _ | Do_SetVariable _ _ => 1
  | Do_Sequence actions => S (list_height action_height actions)
  | Do_If _ then_actions else_actions =>
      S (Nat.max (list_height action_height then_actions)
                 (list_height action_height else_actions))
  | Do_Parallel branches _ | Do_Race branches _ =>
      S (list_height (list_height action_height) branches)
  end
with failure_height (policy : AutomationFailurePolicy) : nat :=
  match policy with
  | Fail_Fallback actions => list_height action_height actions
  | _ => 0
  end.

(** ** Compilation *)

Definition is_sensitive (profile : AutomationSafetyProfile) : bool :=
  match profile with
  | Sp_AccessControl | Sp_FlowControl | Sp_Security => true
  | _ => false
  end.

Section Compile.
Context `{SerdeJson} `{Calendar} `{Sha256} `{AutomationEncoding}.

(** The findings and fragments of the first half of [Compiler::compile]. *)
Record Fragments := mk_fragments {
  fr_triggers : list ResolvedAutomationTrigger;
  fr_condition : option ResolvedAutomationCondition;
  fr_entry : option AutomationPlanNodeId
}.

Definition compile_fragments (document : AutomationDocument) (snapshot : FoundationSnapshot) :
  Comp Fragments :=
  do* validate_structure document;
  let* triggers := compile_triggers snapshot 0 (do_triggers document) in
  let* condition := match do_condition document with
                    | Some condition => compile_condition document snapshot condition "/condition" 1
                    | None => ret None
                    end in
  let* complete := push_node Node_Complete in
  let actions := reduce_actions (do_actions document) in
  let* entry := compile_actions document
                  (compile_action document snapshot (list_height action_height actions))
                  actions (Some complete) "/actions" 1 in
  let* _ := fun c =>
    comp_when (N.ltb (bu_maximum_nodes (do_budget document)) (N.of_nat (length (cp_nodes c))))
      (finding Vc_ResourceBoundExceeded "/budget/maximum_nodes"
         "compiled plan exceeds the declared node budget"
         (Some "Increase maximum_nodes or simplify the automation"%string) None) c in
  ret (mk_fragments triggers condition entry).

Definition one_finding (path reason : string) (remediation reference : option string) :
  AutomationCompilationError :=
  mk_compilation_error [mk_finding Vc_RequiredValueMissing path reason remediation reference].

Definition compile (document : AutomationDocument) (snapshot : FoundationSnapshot) :
  result AutomationExecutionPlan AutomationCompilationError :=
  let '(fragments, self) := compile_fragments document snapshot new_compiler in
  if negb (bool_decide (cp_findings self = []))
  then Err (mk_compilation_error (cp_findings self))
  else
    let nodes := sort_by (fun a b => N.leb (nd_id a) (nd_id b)) (cp_nodes self) in
    let? entry := ok_or (fr_entry fragments)
      (one_finding "/actions" "automation has no compilable entry action"
         (Some "Provide at least one valid action"%string) None) in
    let? document_hash := map_err (fun error =>
        one_finding "" "automation document cannot be canonicalized" None
          (Some (canonical_error_text error)))
      (canonical_automation_hash (encode_document document)) in
    let explicit := existsb is_sensitive (elements (cp_profiles self)) in
    let requirements := if explicit then {[Rq_ExplicitApproval]} ∪ cp_requirements self
                        else cp_requirements self in
    let plan_with plan_hash :=
      mk_plan (do_id document) (do_version document) document_hash plan_hash
        (default 0%N (fs_event_cursor snapshot)) (do_variables document) (fr_triggers fragments)
        (fr_condition fragments) (do_run_mode document) (do_self_trigger document) entry nodes
        (cp_profiles self) requirements
        (if explicit then Apr_ExplicitUserApproval else Apr_ActivationGrant)
        (do_budget document) in
    let? plan_hash := map_err (fun error =>
        one_finding "" "normalized plan cannot be canonicalized" None
          (Some (canonical_error_text error)))
      (canonical_automation_plan_hash (plan_with document_hash)) in
    Ok (plan_with plan_hash).

End Compile.
