(* ===== verification/AutomationEvaluator.v ===== *)
(** Expression and condition evaluation,
    [crates/homemagic-application/src/automation_evaluator.rs].  The evaluation
    context of the trait is a class; the evaluators thread its state. *)

From S2P Require Import Prelude Text Float BTree Json Capability Device Command Automation AutomationCompiler.

Inductive AutomationEvaluationError :=
| Eve_MissingValue (what : string)
| Eve_TypeMismatch
| Eve_InvalidTimeWindow
| Eve_DurableDurationRequired
| Eve_ConditionHash
| Eve_DurationOverflow
| Eve_DurationTimerMissing.
#[export] Instance AutomationEvaluationError_eq_dec : EqDecision AutomationEvaluationError.
Proof. solve_decision. Defined.

Abbreviation Variables := (list (string * AutomationValue)) (only parsing).

(** The trait [AutomationEvaluationContext].  [state_duration] receives the
    evaluation of its inner condition under the same variables, which is how both
    implementations read it. *)
Class AutomationEvaluationContext (C : Type) := {
  ctx_now : C -> Instant;
  ctx_observation : C -> ResolvedAutomationTarget -> string -> option AutomationValue;
  ctx_state_duration : (C -> result bool AutomationEvaluationError * C) ->
    ResolvedAutomationCondition -> N -> C -> result bool AutomationEvaluationError * C
}.

Definition evaluate_automation_expression `{AutomationEvaluationContext C}
  (expression : ResolvedAutomationExpression) (variables : Variables) (context : C) :
  result AutomationValue AutomationEvaluationError :=
  match expression with
  | Rx_Literal value => Ok value
  | Rx_Variable name => ok_or (bget name variables) (Eve_MissingValue "variable")
  | Rx_Observation targets field =>
      let? target := ok_or (head targets) (Eve_MissingValue "observation target") in
      ok_or (ctx_observation context target field) (Eve_MissingValue "observation")
  end.

(** [str::cmp]. *)
Definition str_cmp (a b : string) : comparison :=
  if String.eqb a b then Eq else if str_ltb a b then Lt else Gt.

Definition bool_cmp (a b : bool) : comparison :=
  match a, b with false, true => Lt | true, false => Gt | _, _ => Eq end.

(** The ordering of two values of one type. *)
Definition value_cmp (left right : AutomationValue) : result comparison AutomationEvaluationError :=
  match left, right with
  | Val_Null, Val_Null => Ok Eq
  | Val_Boolean a, Val_Boolean b => Ok (bool_cmp a b)
  | Val_Integer a, Val_Integer b => Ok (a ?= b)%Z
  | Val_Decimal a, Val_Decimal b =>
      ok_or (x ← parse_f64 a; y ← parse_f64 b; partial_cmp x y) Eve_TypeMismatch
  | Val_String a, Val_String b => Ok (str_cmp a b)
  | Val_Timestamp a, Val_Timestamp b => Ok (a ?= b)%Z
  | Val_DurationMillis a, Val_DurationMillis b => Ok (a ?= b)%N
  | _, _ => Err Eve_TypeMismatch
  end.

Definition compare_values (left : AutomationValue) (operator : AutomationComparison)
  (right : AutomationValue) : result bool AutomationEvaluationError :=
  let? ordering := value_cmp left right in
  Ok (match operator, ordering with
      | Cmp_Equal, Eq => true
      | Cmp_NotEqual, (Lt | Gt) => true
      | Cmp_LessThan, Lt => true
      | Cmp_LessThanOrEqual, (Lt | Eq) => true
      | Cmp_GreaterThan, Gt => true
      | Cmp_GreaterThanOrEqual, (Gt | Eq) => true
      | _, _ => false
      end).

Definition evaluate_time_window `{Calendar} (now : Instant) (timezone start end_ : string) :
  result bool AutomationEvaluationError :=
  guard? timezone_known timezone else Eve_InvalidTimeWindow in
  let? start := ok_or (parse_local_time start) Eve_InvalidTimeWindow in
  let? end_ := ok_or (parse_local_time end_) Eve_InvalidTimeWindow in
  let local := local_time timezone now in
  Ok (if (start <=? end_)%Z then (start <=? local)%Z && (local <? end_)%Z
      else (start <=? local)%Z || (local <? end_)%Z).

Section Evaluate.
Context `{Calendar} {C : Type} `{!AutomationEvaluationContext C}.

(** The loops of [All] and [Any]: evaluation stops at the first operand whose
    value is [stop], or that fails. *)
Definition until (stop : bool) (evaluate : ResolvedAutomationCondition -> C ->
  result bool AutomationEvaluationError * C) :
  list ResolvedAutomationCondition -> C -> result bool AutomationEvaluationError * C :=
  fix go conditions context :=
    match conditions with
    | [] => (Ok (negb stop), context)
    | condition :: conditions =>
        match evaluate condition context with
        | (Ok value, context) => if Bool.eqb value stop then (Ok stop, context) else go conditions context
        | (Err error, context) => (Err error, context)
        end
    end.

Fixpoint evaluate_automation_condition (condition : ResolvedAutomationCondition)
  (variables : Variables) (context : C) : result bool AutomationEvaluationError * C :=
  match condition with
  | Rc_Literal value => (Ok value, context)
  | Rc_Compare lhs operator rhs =>
      (let? lhs := evaluate_automation_expression lhs variables context in
       let? rhs := evaluate_automation_expression rhs variables context in
       compare_values lhs operator rhs, context)
  | Rc_All conditions =>
      until false (fun condition => evaluate_automation_condition condition variables) conditions context
  | Rc_Any conditions =>
      until true (fun condition => evaluate_automation_condition condition variables) conditions context
  | Rc_Not condition =>
      match evaluate_automation_condition condition variables context with
      | (Ok value, context) => (Ok (negb value), context)
      | (Err error, context) => (Err error, context)
      end
  | Rc_TimeWindow timezone start end_ =>
      (evaluate_time_window (ctx_now context) timezone start end_, context)
  | Rc_StateDuration condition duration_ms =>
      ctx_state_duration (fun context => evaluate_automation_condition condition variables context)
        condition duration_ms context
  end.
End Evaluate.
