(* ===== verification/AutomationPlan.v ===== *)
(** The shape of the plans the compiler builds: every method extends the nodes
    and the findings, the nodes it adds form a fragment whose edges lead back to
    the fragment or to its continuation, and every group encloses the region of
    its branches. *)

From S2P Require Import Prelude Text BTree Json Capability Lifecycle Device Command CommandStore CommandService Automation AutomationCompiler.

(** ** Edges *)

Definition failure_edges (policy : AutomationPlanFailurePolicy) : list (option AutomationPlanNodeId) :=
  match policy with Pf_Fallback entry => [entry] | _ => [] end.

(** Every reference of a node to another node. *)
Definition edges (kind : AutomationPlanNodeKind) : list (option AutomationPlanNodeId) :=
  match kind with
  | Node_Command _ _ _ _ on_failure next => next :: failure_edges on_failure
  | Node_Delay _ next | Node_SetVariable _ _ next | Node_Join next => [next]
  | Node_Wait _ _ on_timeout next => next :: failure_edges on_timeout
  | Node_Branch _ then_node else_node join => [then_node; else_node; join]
  | Node_Parallel branches _ join | Node_Race branches _ join => join :: map Some branches
  | Node_Complete => []
  end.

(** The branches and the join of a group. *)
Definition group_of (kind : AutomationPlanNodeKind) :
  option (list AutomationPlanNodeId * N * option AutomationPlanNodeId) :=
  match kind with
  | Node_Parallel branches maximum join | Node_Race branches maximum join =>
      Some (branches, maximum, join)
  | _ => None
  end.

(** A node that is no group and does not complete the run. *)
Definition plain (kind : AutomationPlanNodeKind) : Prop :=
  group_of kind = None /\ kind <> Node_Complete.

(** ** Fragments *)

(** [id] is the continuation, or one of the first [n] nodes after [base]. *)
Definition leads (base : nat) (next : AutomationPlanNodeId) (n : nat) (id : AutomationPlanNodeId) :
  Prop := id = next \/ exists j, j < n /\ id = node_id_of (base + j).

(** What a group at position [i] encloses: its join, and behind it the region of
    its branches, which only leads back to the region or to the join. *)
Definition encloses (width : N) (base : nat) (nodes : list AutomationPlanNode) (i : nat)
  (kind : AutomationPlanNodeKind) : Prop :=
  forall branches maximum join, group_of kind = Some (branches, maximum, join) ->
    branches <> [] /\ (0 < maximum <= N.of_nat (length branches))%N /\
    (N.of_nat (length branches) <= width)%N /\
    exists j next, j < i /\ join = Some (node_id_of (base + j)) /\
      (exists node, nodes !! j = Some node /\ nd_kind node = Node_Join next) /\
      (forall b, In b branches -> exists k, j <= k < i /\ b = node_id_of (base + k)) /\
      (forall k node e, j < k < i -> nodes !! k = Some node -> In e (edges (nd_kind node)) ->
         exists m, j <= m < k /\ e = Some (node_id_of (base + m))) /\
      (forall k node branches maximum join, j < k < i -> nodes !! k = Some node ->
         group_of (nd_kind node) = Some (branches, maximum, join) ->
         exists m, j < m < k /\ join = Some (node_id_of (base + m))).

Record fragment (width : N) (base : nat) (next : AutomationPlanNodeId)
  (nodes : list AutomationPlanNode) : Prop := {
  fg_ids : forall i node, nodes !! i = Some node ->
    nd_id node = node_id_of (base + i) /\ nd_order node = nd_id node;
  fg_edges : forall i node e, nodes !! i = Some node -> In e (edges (nd_kind node)) ->
    exists id, e = Some id /\ leads base next i id;
  fg_groups : forall i node, nodes !! i = Some node -> encloses width base nodes i (nd_kind node);
  fg_live : forall i node, nodes !! i = Some node -> nd_kind node = Node_Complete -> base + i = 0
}.

Lemma leads_mono base next n n' id : n <= n' -> leads base next n id -> leads base next n' id.
Proof. intros Hn [->|(j & Hj & ->)]; [by left | right; exists j; split; [lia | done]]. Qed.

Lemma fragment_nil width base next : fragment width base next [].
Proof. split; intros i node; by rewrite lookup_nil. Qed.

(** A fragment behind another one whose continuation lies in the first. *)
Lemma fragment_app width base next nodes next' nodes' :
  fragment width base next nodes -> leads base next (length nodes) next' ->
  fragment width (base + length nodes) next' nodes' -> fragment width base next (nodes ++ nodes').
Proof.
  intros Hf Hn Hf'. split.
  - intros i node [Hi|[Hle Hi]]%lookup_app_Some; [by apply (fg_ids _ _ _ _ Hf)|].
    destruct (fg_ids _ _ _ _ Hf' _ _ Hi) as [-> ->]. split; [f_equal; lia | f_equal; lia].
  - intros i node e Hi He. apply lookup_app_Some in Hi as [Hi|[Hle Hi]].
    + by apply (fg_edges _ _ _ _ Hf i node).
    + destruct (fg_edges _ _ _ _ Hf' _ _ e Hi He) as (id & -> & [->|(j & Hj & ->)]).
      * exists next'. split; [done|]. by eapply leads_mono; [|exact Hn].
      * eexists. split; [done|]. right. exists (length nodes + j). split; [lia | f_equal; lia].
  - intros i node Hi branches maximum join Hg. apply lookup_app_Some in Hi as [Hi|[Hle Hi]].
    + destruct (fg_groups _ _ _ _ Hf i node Hi _ _ _ Hg)
        as (Hb & Hm & Hw & j & n & Hj & -> & (jn & Hjn & Hk) & Hbr & Hin & Hnest).
      split; [done|]. split; [done|]. split; [done|]. exists j, n. split; [done|]. split; [done|].
      split; [exists jn; split; [by apply lookup_app_l_Some | done]|]. split; [done|].
      apply lookup_lt_Some in Hi. split.
      * intros k node' e Hkr Hl He. apply (Hin k node' e); [done| |done].
        by rewrite lookup_app_l in Hl by lia.
      * intros k node' b' m' join' Hkr Hl Hg'. apply (Hnest k node' b' m'); [done| |done].
        by rewrite lookup_app_l in Hl by lia.
    + destruct (fg_groups _ _ _ _ Hf' _ node Hi _ _ _ Hg)
        as (Hb & Hm & Hw & j & n & Hj & -> & (jn & Hjn & Hk) & Hbr & Hin & Hnest).
      split; [done|]. split; [done|]. split; [done|]. exists (length nodes + j), n.
      split; [lia|]. split; [do 2 f_equal; lia|].
      split; [exists jn; split; [|done]|split; [|split]].
      * rewrite lookup_app_r by lia. by replace (length nodes + j - length nodes) with j by lia.
      * intros b Hb'. destruct (Hbr b Hb') as (k & Hkr & ->). exists (length nodes + k).
        split; [lia | f_equal; lia].
      * intros k node' e Hkr Hl He. rewrite lookup_app_r in Hl by lia.
        destruct (Hin (k - length nodes) node' e ltac:(lia) Hl He) as (m & Hmr & ->).
        exists (length nodes + m). split; [lia | do 2 f_equal; lia].
      * intros k node' b' m' join' Hkr Hl Hg'. rewrite lookup_app_r in Hl by lia.
        destruct (Hnest (k - length nodes) node' b' m' join' ltac:(lia) Hl Hg') as (m0 & Hmr & ->).
        exists (length nodes + m0). split; [lia | do 2 f_equal; lia].
  - intros i node Hi Hk. apply lookup_app_Some in Hi as [Hi|[Hle Hi]].
    + by apply (fg_live _ _ _ _ Hf i node).
    + pose proof (fg_live _ _ _ _ Hf' _ node Hi Hk). lia.
Qed.

(** One more node, whose edges lead into the fragment. *)
Lemma fragment_snoc width base next nodes kind :
  fragment width base next nodes ->
  (forall e, In e (edges kind) -> exists id, e = Some id /\ leads base next (length nodes) id) ->
  encloses width base nodes (length nodes) kind ->
  (kind = Node_Complete -> base + length nodes = 0) ->
  fragment width base next
    (nodes ++ [mk_node (node_id_of (base + length nodes)) (node_id_of (base + length nodes)) kind]).
Proof.
  intros Hf He Hg Hlive. split.
  - intros i node [Hi|[Hle Hi]]%lookup_app_Some; [by apply (fg_ids _ _ _ _ Hf)|].
    apply list_lookup_singleton_Some in Hi as [Hi <-]. simpl. by replace i with (length nodes) by lia.
  - intros i node e [Hi|[Hle Hi]]%lookup_app_Some Hin; [by apply (fg_edges _ _ _ _ Hf i node)|].
    apply list_lookup_singleton_Some in Hi as [Hi <-]. simpl in Hin.
    replace i with (length nodes) by lia. by apply He.
  - intros i node Hi branches maximum join Hgr.
    assert (i <= length nodes /\ encloses width base nodes i (nd_kind node)) as [Hle Henc].
    { apply lookup_app_Some in Hi as [Hi|[Hle Hi]].
      - split; [by apply Nat.lt_le_incl, (lookup_lt_Some _ _ _ Hi)|]. by apply (fg_groups _ _ _ _ Hf).
      - apply list_lookup_singleton_Some in Hi as [Hi <-]. replace i with (length nodes) by lia. done. }
    destruct (Henc _ _ _ Hgr) as (Hb & Hm & Hw & j & n & Hj & Hjoin & (jn & Hjn & Hk) & Hbr & Hin & Hnest).
    split; [done|]. split; [done|]. split; [done|]. exists j, n. split; [done|]. split; [done|].
    split; [exists jn; split; [by apply lookup_app_l_Some | done]|]. split; [done|].
    split.
    + intros k node' e Hkr Hl He'. apply (Hin k node' e); [done| |done].
      by rewrite lookup_app_l in Hl by lia.
    + intros k node' b' m' join' Hkr Hl Hg'. apply (Hnest k node' b' m'); [done| |done].
      by rewrite lookup_app_l in Hl by lia.
  - intros i node [Hi|[Hle Hi]]%lookup_app_Some Hk; [by apply (fg_live _ _ _ _ Hf i node)|].
    apply list_lookup_singleton_Some in Hi as [Hi <-]. simpl in Hk. specialize (Hlive Hk). lia.
Qed.

(** ** Steps that add no node *)

Definition extends (c c' : Compiler) : Prop := exists f, cp_findings c' = cp_findings c ++ f.

#[export] Instance extends_refl : Reflexive extends.
Proof. intros c. exists []. by rewrite app_nil_r. Qed.
#[export] Instance extends_trans : Transitive extends.
Proof. intros a b c [f Hf] [g Hg]. exists (f ++ g). by rewrite Hg, Hf, app_assoc. Qed.

(** No finding at the end means none before. *)
Lemma extends_clean c c' : extends c c' -> cp_findings c' = [] -> cp_findings c = [].
Proof. intros [f ->] [H _]%app_eq_nil. done. Qed.

(** Only findings, requirements and segments change. *)
Record calm_step (c c' : Compiler) : Prop := {
  cs_nodes : cp_nodes c' = cp_nodes c;
  cs_profiles : cp_profiles c' = cp_profiles c;
  cs_extends : extends c c'
}.

#[export] Instance calm_refl : Reflexive calm_step.
Proof. by intros c. Qed.
#[export] Instance calm_trans : Transitive calm_step.
Proof.
  intros a b c [Hn Hp He] [Hn' Hp' He']. split; [congruence | congruence |]. by transitivity b.
Qed.

Definition calm {A : Type} (m : Comp A) : Prop := forall c, calm_step c (m c).2.

(** A missing result was explained by a finding. *)
Definition explained {A : Type} (m : Comp (option A)) : Prop :=
  calm m /\ forall c, (m c).1 = None -> cp_findings (m c).2 <> [].

Lemma calm_ret {A} (a : A) : calm (ret a).
Proof. by intros c. Qed.

Lemma calm_bind {A B} (m : Comp A) (f : A -> Comp B) :
  calm m -> (forall a, calm (f a)) -> calm (comp_bind m f).
Proof.
  intros Hm Hf c. unfold comp_bind. specialize (Hm c). destruct (m c) as [a c1]. simpl in Hm.
  transitivity c1; [done | apply Hf].
Qed.

Lemma calm_when b m : calm m -> calm (comp_when b m).
Proof. intros Hm. destruct b; [done | apply calm_ret]. Qed.

Lemma calm_finding code path reason remediation reference :
  calm (finding code path reason remediation reference).
Proof. intros c. split; [done | done | by eexists]. Qed.

Lemma calm_requirement r : calm (insert_requirement r).
Proof. intros c. split; [done | done |]. simpl. exists []. by rewrite app_nil_r. Qed.

Lemma calm_segment : calm new_segment.
Proof. intros c. split; [done | done |]. simpl. exists []. by rewrite app_nil_r. Qed.

Create HintDb calm discriminated.
#[export] Hint Resolve calm_ret calm_when calm_finding calm_requirement calm_segment : calm.

Ltac calm_tac :=
  repeat first [ solve [eauto with calm] | apply calm_bind; [|intros ?] | apply calm_when
               | progress unfold required, bound, incompatible, type_mismatch, invalid_schedule,
                   validate_timer, validate_value
               | progress case_match ].

Lemma explained_ret {A} (a : A) : explained (ret (Some a)).
Proof. split; [apply calm_ret | done]. Qed.

Lemma explained_fmap {A B} (m : Comp (option A)) (f : A -> B) :
  explained m -> explained (comp_bind m (fun a => ret (f <$> a))).
Proof.
  intros [Hm Hn]. split; [apply calm_bind; [done | intros; apply calm_ret]|].
  intros c. unfold comp_bind. specialize (Hn c). destruct (m c) as [[a|] c1]; simpl in *; [done | auto].
Qed.

(** A finding followed by a missing result. *)
Lemma explained_finding {A} code path reason remediation reference :
  explained (comp_bind (finding code path reason remediation reference)
    (fun _ => ret (@None A))).
Proof.
  split; [apply calm_bind; [apply calm_finding | intros; apply calm_ret]|].
  intros c _. simpl. intros [_ H]%app_eq_nil. discriminate.
Qed.

(** Findings survive what follows. *)
Lemma explained_after {A B} (m : Comp A) (f : A -> Comp (option B)) :
  calm m -> (forall a, explained (f a)) -> explained (comp_bind m f).
Proof.
  intros Hm Hf. split; [apply calm_bind; [done | apply Hf]|].
  intros c. unfold comp_bind. destruct (m c) as [a c1]. apply Hf.
Qed.

(** A missing intermediate result may lead to a missing one. *)
Lemma explained_need {A B} (m : Comp (option A)) (f : option A -> Comp (option B)) :
  explained m -> (forall a, explained (f (Some a))) -> calm (f None) -> explained (comp_bind m f).
Proof.
  intros [Hm Hn] Hf H0. split.
  - apply calm_bind; [done|]. intros [a|]; [apply Hf | done].
  - intros c. unfold comp_bind. specialize (Hn c). destruct (m c) as [[a|] c1]; simpl in *.
    + apply Hf.
    + intros _ Hc. apply Hn; [done|]. eapply extends_clean; [apply (cs_extends _ _ (H0 c1)) | done].
Qed.

(** ** The steps of the compiler that add no node *)

Fixpoint condition_nested_ind (P : AutomationCondition -> Prop)
  (HL : forall b, P (Cond_Literal b)) (HC : forall l o r, P (Cond_Compare l o r))
  (HAll : forall l, Forall P l -> P (Cond_All l)) (HAny : forall l, Forall P l -> P (Cond_Any l))
  (HN : forall c, P c -> P (Cond_Not c)) (HT : forall z s e, P (Cond_TimeWindow z s e))
  (HD : forall c d, P c -> P (Cond_StateDuration c d)) (c : AutomationCondition) : P c :=
  let each := fix go (l : list AutomationCondition) : Forall P l :=
    match l with
    | [] => List.Forall_nil P
    | c :: l => List.Forall_cons P c l (condition_nested_ind P HL HC HAll HAny HN HT HD c) (go l)
    end in
  match c with
  | Cond_Literal b => HL b
  | Cond_Compare l o r => HC l o r
  | Cond_All l => HAll l (each l)
  | Cond_Any l => HAny l (each l)
  | Cond_Not c => HN c (condition_nested_ind P HL HC HAll HAny HN HT HD c)
  | Cond_TimeWindow z s e => HT z s e
  | Cond_StateDuration c d => HD c d (condition_nested_ind P HL HC HAll HAny HN HT HD c)
  end.

Section Calm.
Context `{SerdeJson} `{Calendar}.
Context (document : AutomationDocument) (snapshot : FoundationSnapshot).

Lemma explained_devices target path devices resolved :
  explained (resolve_devices target path devices resolved).
Proof.
  revert resolved. induction devices as [|device devices IH]; intros resolved; simpl.
  - apply explained_ret.
  - case_match; [apply explained_finding|]. case_match; [apply explained_finding | apply IH].
Qed.

Lemma explained_target target path : explained (resolve_target snapshot target path).
Proof.
  unfold resolve_target. repeat (case_match; [apply explained_finding|]).
  apply (explained_fmap (resolve_devices _ _ _ _)), explained_devices.
Qed.

Lemma explained_field capability field path :
  explained (validate_observation_field capability field path).
Proof.
  unfold validate_observation_field. case_match; [apply explained_ret | apply explained_finding].
Qed.

Lemma calm_value value path : calm (validate_value value path).
Proof. destruct value; calm_tac. Qed.

Lemma calm_timer duration path : calm (validate_timer duration path).
Proof. calm_tac. Qed.

Lemma explained_expression expression path :
  explained (compile_expression document snapshot expression path).
Proof.
  destruct expression as [value|name|target field]; simpl.
  - apply explained_after; [apply calm_value | intros; apply explained_ret].
  - case_match; [apply explained_ret | apply explained_finding].
  - apply explained_need; [apply explained_field| |].
    + intros value_type. apply explained_need; [apply explained_target| |apply calm_ret].
      intros targets. case_match; [apply explained_ret | apply explained_finding].
    + apply calm_bind; [apply explained_target | intros [?|]; apply calm_ret].
Qed.

Lemma explained_each (compile : AutomationCondition -> string -> Comp (option ResolvedAutomationCondition))
  path conditions index :
  Forall (fun condition => forall path, explained (compile condition path)) conditions ->
  calm (compile_each compile path index conditions) /\
  forall c, cp_findings (compile_each compile path index conditions c).2 = [] ->
    length (compile_each compile path index conditions c).1 = length conditions.
Proof.
  intros Hall. revert index. induction Hall as [|condition conditions Hc Hall IH]; intros index; simpl.
  { split; [apply calm_ret | done]. }
  destruct (IH (S index)) as [Hcalm Hlen]. split.
  { apply calm_bind; [apply Hc|]. intros compiled. apply calm_bind; [apply Hcalm|].
    intros rest. apply calm_ret. }
  intros c. unfold comp_bind.
  pose proof (proj2 (Hc (path_index (path +:+ "/conditions") index)) c) as Hnone.
  destruct (compile condition _ c) as [compiled c1]. simpl in Hnone.
  specialize (Hlen c1). pose proof (Hcalm c1) as Hext. simpl.
  destruct (compile_each compile path (S index) conditions c1) as [rest c2]. simpl in *.
  intros Hclean. destruct compiled as [compiled|]; simpl; [by rewrite Hlen|].
  exfalso. apply Hnone; [done|]. by eapply extends_clean; [apply Hext|].
Qed.

Lemma explained_list (compile : AutomationCondition -> string -> Comp (option ResolvedAutomationCondition))
  conditions path constructor :
  Forall (fun condition => forall path, explained (compile condition path)) conditions ->
  explained (compile_condition_list compile conditions path constructor).
Proof.
  intros Hall. destruct (explained_each compile path conditions 0 Hall) as [Hcalm Hlen].
  unfold compile_condition_list. apply explained_after; [calm_tac|]. intros _. split.
  - apply calm_bind; [apply Hcalm | intros; apply calm_ret].
  - intros c. unfold comp_bind. specialize (Hlen c).
    destruct (compile_each _ _ _ _ c) as [compiled c1]. simpl in *.
    intros Hnone Hclean. rewrite Hlen, Nat.eqb_refl in Hnone; done.
Qed.

Lemma explained_condition condition path depth :
  explained (compile_condition document snapshot condition path depth).
Proof.
  revert path depth. induction condition using condition_nested_ind; intros path depth; simpl;
    (case_match; [apply explained_finding|]).
  - apply explained_ret.
  - apply explained_need; [apply explained_expression| |].
    + intros [lhs lhs_type]. apply explained_need; [apply explained_expression| |apply calm_ret].
      intros [rhs rhs_type]. apply explained_after; [calm_tac|]. intros _.
      apply explained_after; [calm_tac|]. intros _. apply explained_ret.
    + apply calm_bind; [apply explained_expression|]. intros [?|]; apply calm_ret.
  - apply explained_list. eapply Forall_impl; [exact H1|]. auto.
  - apply explained_list. eapply Forall_impl; [exact H1|]. auto.
  - apply (explained_fmap (compile_condition _ _ _ _ _)), IHcondition.
  - apply explained_after; [calm_tac|]. intros _. apply explained_ret.
  - apply explained_after; [apply calm_timer|]. intros _.
    apply (explained_fmap (compile_condition _ _ _ _ _)), IHcondition.
Qed.

Lemma calm_segments active actions : calm (segments_of active actions).
Proof.
  revert active. induction actions as [|action actions IH]; intros active; simpl; [apply calm_ret|].
  case_match.
  - apply calm_bind; [case_match; auto with calm|]. intros segment.
    apply calm_bind; [apply IH | intros; apply calm_ret].
  - apply calm_bind; [apply IH | intros; apply calm_ret].
Qed.

Lemma segments_length active actions c : length (segments_of active actions c).1 = length actions.
Proof.
  revert active c. induction actions as [|action actions IH]; intros active c; simpl; [done|].
  case_match; unfold comp_bind.
  - destruct (match active with Some s => ret s | None => new_segment end c) as [s c1].
    specialize (IH (Some s) c1). destruct (segments_of (Some s) actions c1). simpl in *. by rewrite IH.
  - specialize (IH None c). destruct (segments_of None actions c). simpl in *. by rewrite IH.
Qed.

End Calm.

(** ** Resolved targets and profiles *)

Section Profiles.
Context `{SerdeJson}.

(** The safety profile of a command, as [classify_command] chooses it. *)
Definition profile_of (snapshot : FoundationSnapshot) (capability : string)
  (targets : list ResolvedAutomationTarget) (payload : CommandPayload) : AutomationSafetyProfile :=
  let name := to_ascii_lowercase capability in
  if contains "lock" name || contains "door" name then Sp_AccessControl
  else if contains "valve" name || contains "flow" name then Sp_FlowControl
  else if contains "camera" name || contains "security" name
          || bool_decide (resolved_risk snapshot targets = Some Risk_Security) then Sp_Security
  else match payload with Pl_Position _ => Sp_ComfortMotion | _ => Sp_Comfort end.

Definition node_profile (snapshot : FoundationSnapshot) (node : AutomationPlanNode) :
  option AutomationSafetyProfile :=
  match nd_kind node with
  | Node_Command (target :: targets) payload _ _ _ _ =>
      Some (profile_of snapshot (rt_capability target) (target :: targets) payload)
  | _ => None
  end.

Definition node_profiles (snapshot : FoundationSnapshot) (nodes : list AutomationPlanNode) :
  gset AutomationSafetyProfile := list_to_set (omap (node_profile snapshot) nodes).

Lemma node_profiles_app snapshot l l' :
  node_profiles snapshot (l ++ l') = node_profiles snapshot l ∪ node_profiles snapshot l'.
Proof. unfold node_profiles. rewrite omap_app, list_to_set_app_L. done. Qed.

Lemma node_profiles_cons snapshot node l :
  node_profiles snapshot (node :: l) = node_profiles snapshot [node] ∪ node_profiles snapshot l.
Proof. apply (node_profiles_app snapshot [node]). Qed.

Lemma resolve_devices_some target path devices resolved c targets :
  (resolve_devices target path devices resolved c).1 = Some targets ->
  (devices <> [] \/ resolved <> []) ->
  Forall (fun t => rt_capability t = tr_capability target) resolved ->
  targets <> [] /\ Forall (fun t => rt_capability t = tr_capability target) targets.
Proof.
  revert resolved c. induction devices as [|device devices IH]; intros resolved c; simpl.
  - intros [= <-] [Hne|Hne] Hall; done.
  - destruct (bool_decide (matching_endpoints target device = [])) eqn:Hm; [done|].
    apply bool_decide_eq_false in Hm. case_match; [done|]. intros Hr _ Hall.
    eapply IH; [exact Hr|right|].
    + destruct (matching_endpoints target device); [done|]. simpl. by destruct resolved.
    + apply Forall_app. split; [done|]. apply Forall_fmap, Forall_true. intros e. done.
Qed.

Lemma resolve_target_some snapshot target path c targets :
  (resolve_target snapshot target path c).1 = Some targets ->
  targets <> [] /\ Forall (fun t => rt_capability t = tr_capability target) targets.
Proof.
  unfold resolve_target. destruct (bool_decide (length _ = 0)) eqn:Hd; [done|].
  apply bool_decide_eq_false in Hd. case_match; [done|]. case_match; [done|].
  unfold comp_bind. set (devices := List.filter _ _) in *.
  pose proof (resolve_devices_some target path devices [] c) as Hs.
  destruct (resolve_devices target path devices [] c) as [[r|] c1]; [|done].
  simpl. intros [= <-]. destruct (Hs r eq_refl) as [Hne Hall].
  - left. by destruct devices.
  - constructor.
  - split.
    + intros Hnil. pose proof (sort_by_perm target_le r) as Hp. rewrite Hnil in Hp.
      by apply Hne, Permutation_nil.
    + by rewrite (sort_by_perm target_le r).
Qed.

Lemma classify_effect snapshot target targets payload path c :
  let c' := (classify_command snapshot target targets payload path c).2 in
  cp_nodes c' = cp_nodes c /\ extends c c' /\
  cp_profiles c' = {[profile_of snapshot (tr_capability target) targets payload]} ∪ cp_profiles c.
Proof.
  assert (forall (m : Comp AutomationSafetyProfile) profile,
    calm m -> (forall c, (m c).1 = profile) ->
    let c' := (comp_bind m insert_profile c).2 in
    cp_nodes c' = cp_nodes c /\ extends c c' /\ cp_profiles c' = {[profile]} ∪ cp_profiles c) as Hgen.
  { intros m profile Hm Hp. unfold comp_bind. specialize (Hm c). specialize (Hp c).
    destruct (m c) as [p c1]. simpl in *. subst p. destruct Hm as [Hn Hpr [f Hf]].
    split; [done|]. split; [by exists f | by rewrite Hpr]. }
  unfold classify_command. apply Hgen.
  - repeat (case_match; [apply calm_ret|]). case_match; try apply calm_ret. calm_tac.
  - intros c0. unfold profile_of. repeat (case_match; [done|]). case_match; try done.
    unfold comp_bind, insert_requirement, comp_when, finding, ret. by repeat case_match; simplify_eq.
Qed.

End Profiles.
Arguments node_profiles : simpl never.
Arguments node_id_of : simpl never.

(** ** What the methods that add nodes build *)

Section Built.
Context `{SerdeJson} `{Calendar}.
Context (document : AutomationDocument) (snapshot : FoundationSnapshot).

Definition width : N := bu_maximum_parallel_width (budget document).

(** From [c] to [c'] new nodes and findings were added; without findings the new
    nodes are a fragment that continues at [next], and the entries [es] lead
    into it. *)
Record built (next : option AutomationPlanNodeId) (c c' : Compiler)
  (new : list AutomationPlanNode) (es : list (option AutomationPlanNodeId)) : Prop := {
  bt_nodes : cp_nodes c' = cp_nodes c ++ new;
  bt_extends : extends c c';
  bt_clean : cp_findings c' = [] ->
    cp_profiles c' = cp_profiles c ∪ node_profiles snapshot new /\
    forall n, next = Some n ->
      fragment width (length (cp_nodes c)) n new /\
      forall e, In e es -> exists id, e = Some id /\ leads (length (cp_nodes c)) n (length new) id
}.

Lemma built_calm next c c' : calm_step c c' -> built next c c' [] [].
Proof.
  intros [Hn Hp He]. split; [by rewrite app_nil_r | done|]. intros _. split.
  - rewrite Hp. unfold node_profiles. simpl. set_solver.
  - intros n _. split; [apply fragment_nil | done].
Qed.

Lemma built_weaken next c c' new es es' :
  built next c c' new es ->
  (cp_findings c' = [] -> forall e, In e es' -> In e es \/ e = next) -> built next c c' new es'.
Proof.
  intros [Hn He Hc] Hes. split; [done | done|]. intros Hclean. destruct (Hc Hclean) as [Hp Hf].
  split; [done|]. intros n Hnext. destruct (Hf n Hnext) as [Hfr Hl]. split; [done|].
  intros e Hin. destruct (Hes Hclean e Hin) as [Hin'| ->]; [by apply Hl|].
  exists n. split; [done | by left].
Qed.

(** A second part that continues at the continuation or an entry of the first. *)
Lemma built_trans next next' c c1 c2 new new' es es' :
  built next c c1 new es -> built next' c1 c2 new' es' ->
  (cp_findings c2 = [] -> In next' (next :: es)) ->
  built next c c2 (new ++ new') (es ++ es').
Proof.
  intros [Hn He Hc] [Hn' He' Hc'] Hnext. split.
  - by rewrite Hn', Hn, app_assoc.
  - by transitivity c1.
  - intros Hclean. destruct (Hc' Hclean) as [Hp' Hf'].
    destruct (Hc (extends_clean _ _ He' Hclean)) as [Hp Hf]. split.
    { rewrite Hp', Hp, node_profiles_app. set_solver. }
    intros n Hsome. destruct (Hf n Hsome) as [Hfr Hl].
    assert (exists n', next' = Some n' /\ leads (length (cp_nodes c)) n (length new) n')
      as (n' & Hn'' & Hlead).
    { destruct (Hnext Hclean) as [Heq|Hin].
      - exists n. split; [congruence | by left].
      - by apply Hl. }
    destruct (Hf' n' Hn'') as [Hfr' Hl']. rewrite Hn, length_app in Hfr', Hl'. split.
    { by eapply fragment_app. }
    intros e [Hin|Hin]%in_app_or.
    + destruct (Hl e Hin) as (id & -> & Hid). exists id. split; [done|].
      eapply leads_mono; [|exact Hid]. rewrite length_app. lia.
    + destruct (Hl' e Hin) as (id & -> & [->|(j & Hj & ->)]).
      * exists n'. split; [done|]. eapply leads_mono; [|exact Hlead]. rewrite length_app. lia.
      * eexists. split; [done|]. right. exists (length new + j).
        rewrite length_app. split; [lia | f_equal; lia].
Qed.

Lemma built_then_calm next c c1 c2 new es :
  built next c c1 new es -> calm_step c1 c2 -> built next c c2 new es.
Proof.
  intros Hb Hc. rewrite <- (app_nil_r new), <- (app_nil_r es).
  eapply built_trans; [exact Hb | by apply (built_calm next) | intros _; by left].
Qed.

Lemma calm_then_built next c c1 c2 new es :
  calm_step c c1 -> built next c1 c2 new es -> built next c c2 new es.
Proof.
  intros Hc Hb. change new with ([] ++ new). change es with ([] ++ es).
  eapply built_trans; [by apply (built_calm next) | exact Hb | intros _; by left].
Qed.

(** One more node, which is no group, whose edges are known; its safety profile
    was recorded before. *)
Lemma built_push next c c1 c2 new es kind :
  built next c c1 new es -> cp_nodes c2 = cp_nodes c1 -> extends c1 c2 ->
  cp_profiles c2 = node_profiles snapshot [mk_node 0 0 kind] ∪ cp_profiles c1 ->
  plain kind ->
  (cp_findings c2 = [] -> forall e, In e (edges kind) -> In e (next :: es)) ->
  built next c (push_node kind c2).2
    (new ++ [mk_node (push_node kind c2).1 (push_node kind c2).1 kind])
    (Some (push_node kind c2).1 :: es).
Proof.
  intros [Hn He Hc] Hn2 He2 Hp2 [Hg Hlive] Hedges. unfold push_node. split; simpl.
  - by rewrite Hn2, Hn, <- app_assoc.
  - transitivity c1; [done|]. by destruct He2 as [f Hf]; exists f.
  - intros Hclean. destruct (Hc (extends_clean _ _ He2 Hclean)) as [Hp Hf]. split.
    { rewrite Hp2, Hp, node_profiles_app. unfold node_profiles, node_profile. simpl. set_solver. }
    intros n Hsome. destruct (Hf n Hsome) as [Hfr Hl].
    rewrite Hn2, Hn, length_app. split.
    + apply fragment_snoc; [done| | |done].
      * intros e Hin. destruct (Hedges Hclean e Hin) as [Heq|Hin'].
        -- exists n. split; [congruence | by left].
        -- by apply Hl.
      * intros b m j Hgr. congruence.
    + intros e [<-|Hin].
      * eexists. split; [done|]. right. exists (length new). rewrite length_app. simpl.
        split; [lia | done].
      * destruct (Hl e Hin) as (id & -> & Hid). exists id. split; [done|].
        eapply leads_mono; [|exact Hid]. rewrite length_app. lia.
Qed.

Lemma built_push_plain next c c1 new es kind :
  built next c c1 new es -> node_profile snapshot (mk_node 0 0 kind) = None ->
  plain kind ->
  (cp_findings c1 = [] -> forall e, In e (edges kind) -> In e (next :: es)) ->
  built next c (push_node kind c1).2
    (new ++ [mk_node (push_node kind c1).1 (push_node kind c1).1 kind])
    (Some (push_node kind c1).1 :: es).
Proof.
  intros Hb Hp Hg He. eapply built_push; [exact Hb | done | done | | done | done].
  unfold node_profiles. simpl. rewrite Hp. simpl. set_solver.
Qed.

(** A group behind its join and its branches. *)
Lemma built_group next c c1 new entries maximum race :
  let join := push_node (Node_Join next) c in
  built (Some join.1) join.2 c1 new (map Some entries) ->
  (cp_findings c1 = [] -> entries <> [] /\ (0 < maximum <= N.of_nat (length entries))%N /\
     (N.of_nat (length entries) <= width)%N) ->
  let kind := if race : bool then Node_Race entries maximum (Some join.1)
              else Node_Parallel entries maximum (Some join.1) in
  let group := push_node kind c1 in
  built next c group.2
    ([mk_node join.1 join.1 (Node_Join next)] ++ new ++ [mk_node group.1 group.1 kind])
    [Some group.1].
Proof.
  intros join [Hn He Hc] Hw kind group. set (jn := mk_node join.1 join.1 (Node_Join next)) in *.
  assert (edges kind = Some join.1 :: map Some entries) as Hek by (unfold kind; by destruct race).
  assert (group_of kind = Some (entries, maximum, Some join.1)) as Hgk
    by (unfold kind; by destruct race).
  assert (node_profile snapshot (mk_node 0 0 kind) = None) as Hpk by (unfold kind; by destruct race).
  split; simpl.
  - rewrite Hn. simpl. by rewrite <- !app_assoc.
  - destruct He as [f Hf]. exists f. simpl. by rewrite Hf.
  - intros Hclean. destruct (Hc Hclean) as [Hp Hf]. destruct (Hw Hclean) as (Hne & Hmax & Hwidth).
    simpl in Hp. split.
    { rewrite Hp, (node_profiles_cons _ jn), node_profiles_app.
      assert (forall i o, node_profiles snapshot [mk_node i o kind] = ∅) as ->.
      { intros i o. unfold node_profiles, node_profile in *. simpl in *. by rewrite Hpk. }
      assert (node_profiles snapshot [jn] = ∅) as -> by done. set_solver. }
    intros n ->. destruct (Hf join.1 eq_refl) as [Hfr Hl]. simpl in Hfr, Hl.
    rewrite length_app in Hfr, Hl. simpl in Hfr, Hl.
    assert (fragment width (length (cp_nodes c)) n [jn]) as Hj.
    { pose proof (fragment_snoc width (length (cp_nodes c)) n [] (Node_Join (Some n))) as Hs.
      simpl in Hs. rewrite Nat.add_0_r in Hs. apply Hs; [apply fragment_nil| |done|done].
      intros e [<-|[]]. exists n. split; [done | by left]. }
    assert (fragment width (length (cp_nodes c)) n (jn :: new)) as Hjnew.
    { apply (fragment_app width (length (cp_nodes c)) n [jn] join.1 new); [done| |done].
      right. exists 0. simpl. split; [lia | by rewrite Nat.add_0_r]. }
    split.
    + assert (group.1 = node_id_of (length (cp_nodes c) + length (jn :: new))) as Hgid.
      { unfold group. simpl. rewrite Hn. simpl. rewrite !length_app. simpl. f_equal. lia. }
      unfold group in Hgid. simpl in Hgid. rewrite Hgid.
      apply (fragment_snoc width (length (cp_nodes c)) n (jn :: new) kind);
        [done| | |unfold kind; by destruct race].
      * intros e Hin. rewrite Hek in Hin. destruct Hin as [<-|Hin].
        -- eexists. split; [done|]. right. exists 0. simpl. split; [lia | by rewrite Nat.add_0_r].
        -- destruct (Hl e Hin) as (id & -> & [->|(j & Hj' & ->)]).
           ++ eexists. split; [done|]. right. exists 0. simpl. split; [lia | by rewrite Nat.add_0_r].
           ++ eexists. split; [done|]. right. exists (S j). simpl. split; [lia | f_equal; lia].
      * intros b m j Hgr. rewrite Hgk in Hgr. injection Hgr as <- <- <-.
        split; [done|]. split; [done|]. split; [done|]. exists 0, (Some n). simpl.
        split; [lia|]. split; [by rewrite Nat.add_0_r|]. split; [by exists jn|]. split; [|split].
        -- intros b Hin. destruct (Hl (Some b)) as (id & [= ->] & [->|(k & Hk & ->)]).
           { by apply in_map. }
           ++ exists 0. split; [lia|]. by rewrite Nat.add_0_r.
           ++ exists (S k). split; [lia | f_equal; lia].
        -- intros k node e Hk Hlk Hin. destruct k as [|k]; [lia|]. simpl in Hlk.
           destruct (fg_edges _ _ _ _ Hfr k node e Hlk Hin) as (id & -> & [->|(i & Hi & ->)]).
           ++ exists 0. split; [lia|]. by rewrite Nat.add_0_r.
           ++ exists (S i). split; [lia | do 2 f_equal; lia].
        -- intros k node b' m' join' Hk Hlk Hg'. destruct k as [|k]; [lia|]. simpl in Hlk.
           destruct (fg_groups _ _ _ _ Hfr k node Hlk _ _ _ Hg') as (_ & _ & _ & i & _ & Hi & -> & _).
           exists (S i). split; [lia | do 2 f_equal; lia].
    + intros e [<-|[]]. eexists. split; [done|]. right. exists (S (length new)).
      rewrite length_app. simpl. split; [lia|]. rewrite Hn. simpl. rewrite !length_app. simpl. f_equal. lia.
Qed.

End Built.

(** ** Reduction keeps the height *)

Lemma list_height_le {A} (height : A -> nat) l m :
  list_height height l <= m <-> Forall (fun a => height a <= m) l.
Proof.
  induction l as [|a l IH]; simpl; [split; [constructor | lia]|].
  rewrite Forall_cons, <- IH. lia.
Qed.

Lemma last_of_targets_sublist l : last_of_targets l `sublist_of` l.
Proof.
  induction l as [|a l IH]; simpl; [constructor|].
  case_match; [by apply sublist_cons | by apply sublist_skip].
Qed.

Lemma Forall_last_of_targets (Q : AutomationAction -> Prop) l :
  Forall Q l -> Forall Q (last_of_targets l).
Proof.
  induction 1 as [|a l Ha Hl IH]; simpl; [constructor|]. case_match; [done | by constructor].
Qed.

(** Every action of the result was a command of the list, or is a reduced one. *)
Lemma reduce_with_forall (Q : AutomationAction -> Prop) f l :
  Forall (fun a => (is_command a = true -> Q a) /\ Q (f a)) l -> Forall Q (reduce_with f l).
Proof.
  intros Hl. unfold reduce_with.
  assert (forall output segment, Forall Q output -> Forall Q segment ->
    let '(output, segment) := fold_left (reduce_step f) l (output, segment) in
    Forall Q output /\ Forall Q segment) as Hgen.
  { induction Hl as [|a l [Hc Hf] Hl IH]; intros output segment Ho Hs; simpl; [done|].
    destruct (is_command a); apply IH; try done.
    - apply Forall_app. split; [done|]. by constructor; [apply Hc|].
    - rewrite !Forall_app. split; [done|]. split; [by apply Forall_last_of_targets|].
      by constructor. }
  specialize (Hgen [] [] (List.Forall_nil _) (List.Forall_nil _)).
  destruct (fold_left _ l ([], [])) as [output segment]. destruct Hgen.
  apply Forall_app. split; [done|]. by apply Forall_last_of_targets.
Qed.

Lemma list_height_mono {A} (height : A -> nat) (f : A -> A) l :
  Forall (fun a => height (f a) <= height a) l -> list_height height (map f l) <= list_height height l.
Proof. induction 1 as [|a l Ha Hl IH]; simpl; lia. Qed.

Lemma list_height_each {A} (height : A -> nat) l : Forall (fun a => height a <= list_height height l) l.
Proof. by apply list_height_le. Qed.

Lemma reduce_with_height n l :
  (forall a, action_height a <= n -> action_height (reduce_nested a) <= action_height a) ->
  list_height action_height l <= n ->
  list_height action_height (reduce_actions l) <= list_height action_height l.
Proof.
  intros Ha Hl. apply list_height_le, reduce_with_forall. rewrite list_height_le in Hl.
  pose proof (list_height_each action_height l) as Hall. rewrite Forall_forall in *.
  intros a Hin. split; [intros _; by apply Hall|].
  etransitivity; [apply Ha, Hl, Hin | by apply Hall].
Qed.

Lemma reduce_branches_height n branches :
  (forall a, action_height a <= n -> action_height (reduce_nested a) <= action_height a) ->
  list_height (list_height action_height) branches <= n ->
  list_height (list_height action_height) (map reduce_actions branches) <=
  list_height (list_height action_height) branches.
Proof.
  intros Ha Hb. apply list_height_mono. apply list_height_le in Hb.
  eapply Forall_impl; [exact Hb|]. intros l Hl. by eapply reduce_with_height.
Qed.

Lemma reduce_nested_height n a : action_height a <= n -> action_height (reduce_nested a) <= action_height a.
Proof.
  revert a. induction n as [|n IH]; intros a Hle; [destruct a; simpl in Hle; lia|].
  destruct a; simpl in *; try done.
  - destruct on_timeout; simpl in *; try done. apply le_n_S, (reduce_with_height n); [done | lia].
  - apply le_n_S, (reduce_with_height n); [done | lia].
  - pose proof (reduce_with_height n then_actions IH ltac:(lia)).
    pose proof (reduce_with_height n else_actions IH ltac:(lia)). unfold reduce_actions in *. lia.
  - apply le_n_S, (reduce_branches_height n); [done | lia].
  - apply le_n_S, (reduce_branches_height n); [done | lia].
Qed.

Lemma reduce_height l : list_height action_height (reduce_actions l) <= list_height action_height l.
Proof. eapply reduce_with_height; [|done]. intros a. by apply reduce_nested_height. Qed.

(** ** The methods build fragments *)

Section Builds.
Context `{SerdeJson} `{Calendar}.
Context (document : AutomationDocument) (snapshot : FoundationSnapshot).

Abbreviation built := (built document snapshot).
Abbreviation CompileAction := (AutomationAction -> option AutomationPlanNodeId -> string -> N ->
  option N -> Comp (option AutomationPlanNodeId)).

Definition builds_entry (m : Comp (option AutomationPlanNodeId))
  (next : option AutomationPlanNodeId) : Prop :=
  forall c, exists new, built next c (m c).2 new [(m c).1].

(** The smaller fuel suffices for actions up to height [n]. *)
Definition enough (f : CompileAction) (n : nat) : Prop :=
  forall action next path depth segment, action_height action <= n ->
    builds_entry (f action next path depth segment) next.

Lemma builds_next next : builds_entry (ret next) next.
Proof.
  intros c. exists []. eapply built_weaken; [by apply built_calm|]. simpl.
  intros _ e [<-|[]]. by right.
Qed.

Lemma builds_calm {A} (m : Comp A) (f : A -> Comp (option AutomationPlanNodeId)) next :
  calm m -> (forall a, builds_entry (f a) next) -> builds_entry (comp_bind m f) next.
Proof.
  intros Hm Hf c. unfold comp_bind. specialize (Hm c). destruct (m c) as [a c1].
  destruct (Hf a c1) as [new Hb]. exists new. by eapply calm_then_built.
Qed.

(** The end after a finding. *)
Lemma builds_unfinished next c c1 new es :
  built next c c1 new es -> cp_findings c1 <> [] ->
  exists new', built next c (ret (@None AutomationPlanNodeId) c1).2 new' [(ret (@None AutomationPlanNodeId) c1).1].
Proof.
  intros Hb Hne. exists new. eapply built_weaken; [exact Hb|]. simpl. intros Hc. by destruct Hne.
Qed.

Lemma builds_reversed (f : CompileAction) n index actions segments next path depth :
  enough f n -> Forall (fun a => action_height a <= n) actions ->
  builds_entry (compile_reversed f index actions segments next path depth) next.
Proof.
  intros Hf Hall. revert index segments. induction Hall as [|action actions Ha Hall IH];
    intros index segments; simpl; [apply builds_next|].
  destruct segments as [|segment segments]; [apply builds_next|].
  intros c. unfold comp_bind. destruct (IH (S index) segments c) as [new Hb].
  destruct (compile_reversed f (S index) actions segments next path depth c) as [following c1].
  simpl in Hb. destruct (Hf action following (path_index path index) depth segment Ha c1) as [new' Hb'].
  exists (new ++ new'). eapply built_weaken.
  - eapply built_trans; [exact Hb | exact Hb' |]. intros _. simpl. auto.
  - simpl. intros _ e [<-|[]]. auto.
Qed.

Lemma builds_actions (f : CompileAction) n actions next path depth :
  enough f n -> list_height action_height actions <= n ->
  builds_entry (compile_actions document f actions next path depth) next.
Proof.
  intros Hf Hn. apply list_height_le in Hn. unfold compile_actions. case_match.
  - apply builds_calm; [calm_tac | intros _; apply builds_next].
  - apply builds_calm; [apply calm_segments | intros segments; by eapply builds_reversed].
Qed.

Lemma builds_reduced (f : CompileAction) n actions next path depth :
  enough f n -> list_height action_height actions <= n ->
  builds_entry (compile_actions document f (reduce_actions actions) next path depth) next.
Proof.
  intros Hf Hn. apply (builds_actions f n); [done|]. etransitivity; [apply reduce_height | done].
Qed.

Lemma builds_failure (f : CompileAction) n policy next path depth c :
  enough f n -> failure_height policy <= n ->
  exists new, built next c (compile_failure document f policy next path depth c).2 new
    (failure_edges (compile_failure document f policy next path depth c).1).
Proof.
  intros Hf Hn. destruct policy as [| | |actions]; simpl in *;
    try (exists []; by apply built_calm).
  unfold comp_bind.
  assert (calm (comp_when (bool_decide (length actions = 0))
    (required (path +:+ "/actions") "fallback actions must not be empty"))) as Hcalm by calm_tac.
  specialize (Hcalm c). destruct (comp_when _ _ c) as [u c1].
  destruct (builds_reduced f n actions next (path +:+ "/actions") depth Hf Hn c1) as [new Hb].
  exists new. destruct (compile_actions _ _ _ _ _ _ c1) as [entry c2]. simpl in *.
  by eapply calm_then_built.
Qed.

Lemma builds_branches (f : CompileAction) n index branches join path depth c :
  enough f n -> list_height (list_height action_height) branches <= n ->
  let entries := compile_branches document f index branches join path depth c in
  (exists new, built (Some join) c entries.2 new (map Some entries.1)) /\
  (cp_findings entries.2 = [] -> length entries.1 = length branches).
Proof.
  intros Hf Hn. revert index c. induction branches as [|branch branches IH]; intros index c; simpl.
  { split; [exists []; by apply built_calm | done]. }
  simpl in Hn. unfold comp_bind.
  assert (calm (comp_when (bool_decide (length branch = 0))
    (required (path_index (path +:+ "/branches") index) "parallel branch must not be empty")))
    as Hcalm by calm_tac.
  specialize (Hcalm c). destruct (comp_when _ _ c) as [u c1].
  destruct (builds_reduced f n branch (Some join) (path_index (path +:+ "/branches") index)
    (u16_wrapping_add depth 1) Hf ltac:(lia) c1) as [new Hb].
  destruct (compile_actions _ _ _ _ _ _ c1) as [entry c2]. simpl in Hb.
  destruct (IH ltac:(lia) (S index) c2) as [[new' Hb'] Hlen].
  destruct (compile_branches _ _ _ _ _ _ _ c2) as [entries c3]. simpl in *.
  assert (built (Some join) c c3 (new ++ new') ([entry] ++ map Some entries)) as Hboth.
  { eapply calm_then_built; [exact Hcalm|]. eapply built_trans; [exact Hb | exact Hb' |].
    intros _. by left. }
  assert (cp_findings c3 = [] -> is_Some entry) as Hsome.
  { intros Hclean. destruct (bt_clean _ _ _ _ _ _ _ Hboth Hclean) as [_ Hfr].
    destruct (Hfr join eq_refl) as [_ Hl]. destruct (Hl entry) as (id & -> & _); [by left | done]. }
  destruct entry as [entry|]; simpl.
  - split; [by exists (new ++ new')|]. intros Hclean. by rewrite Hlen.
  - split.
    + exists (new ++ new'). eapply built_weaken; [exact Hboth|]. intros _ e Hin. left. by right.
    + intros Hclean. by destruct (Hsome Hclean).
Qed.

Lemma builds_group (f : CompileAction) n branches maximum next path depth race c :
  enough f n -> list_height (list_height action_height) branches <= n ->
  let group := compile_group document f branches maximum next path depth race c in
  exists new, built next c group.2 new [Some group.1].
Proof.
  intros Hf Hn. unfold compile_group, comp_bind. cbn zeta.
  assert (forall c, let c' := (comp_when (bool_decide (length branches = 0))
    (required (path +:+ "/branches") "at least one branch is required") c).2 in
    calm_step c c' /\ (cp_findings c' = [] -> branches <> [])) as Hcalm1.
  { intros c0. split; [apply calm_when; calm_tac|]. case_bool_decide as Hb; simpl.
    - intros [_ Hx]%app_eq_nil. discriminate.
    - intros _ ->. by apply Hb. }
  specialize (Hcalm1 c). destruct (comp_when (bool_decide _) _ c) as [u c1]. simpl in Hcalm1.
  match goal with |- context [comp_when ?b ?m c1] =>
    assert (calm_step c1 (comp_when b m c1).2 /\ (cp_findings (comp_when b m c1).2 = [] -> b = false))
      as Hcalm2 end.
  { split; [apply calm_when; calm_tac|]. unfold comp_when. case_match; simpl; [|done].
    intros [_ Hx]%app_eq_nil. discriminate. }
  destruct (comp_when _ _ c1) as [u2 c2]. simpl in Hcalm2.
  destruct Hcalm1 as [Hc1 Hne], Hcalm2 as [Hc2 Hbounds].
  destruct (push_node (Node_Join next) c2) as [join c3] eqn:Hjoin.
  destruct (builds_branches f n 0 branches join path depth c3 Hf Hn) as [[new Hb] Hlen].
  destruct (compile_branches document f 0 branches join path depth c3) as [entries c4]. simpl in *.
  eexists. eapply calm_then_built; [exact Hc1|]. eapply calm_then_built; [exact Hc2|].
  replace join with (push_node (Node_Join next) c2).1 by by rewrite Hjoin.
  apply (built_group document snapshot next c2 c4 new entries maximum race); rewrite ?Hjoin; [exact Hb|].
  intros Hclean. specialize (Hlen Hclean).
  pose proof (extends_clean _ _ (bt_extends _ _ _ _ _ _ _ Hb) Hclean) as Hclean3.
  assert (cp_findings c3 = cp_findings c2) as Hf3 by (unfold push_node in Hjoin; by injection Hjoin as _ <-).
  rewrite Hf3 in Hclean3. specialize (Hbounds Hclean3).
  specialize (Hne (extends_clean _ _ (cs_extends _ _ Hc2) Hclean3)).
  unfold width. rewrite Hlen. bool_inv. split; [|lia].
  intros ->. by destruct branches.
Qed.

(** A node that ends an action, behind what [built] describes. *)
Lemma builds_push next c c1 new es kind :
  built next c c1 new es -> node_profile snapshot (mk_node 0 0 kind) = None ->
  plain kind ->
  (cp_findings c1 = [] -> forall e, In e (edges kind) -> In e (next :: es)) ->
  exists new', built next c (push_node kind c1).2 new' [Some (push_node kind c1).1].
Proof.
  intros Hb Hp Hg He. eexists. eapply built_weaken; [by eapply built_push_plain|].
  intros _ e [<-|[]]. by left; left.
Qed.

Lemma builds_command (f : CompileAction) n target payload retry on_failure next path depth segment :
  enough f n -> failure_height on_failure <= n ->
  builds_entry (
    let* targets := resolve_target snapshot target (path +:+ "/target") in
    let* failure := compile_failure document f on_failure next (path +:+ "/on_failure") depth in
    match targets with
    | None => ret None
    | Some targets =>
        do* classify_command snapshot target targets payload path;
        let* id := push_node (Node_Command targets payload segment retry failure next) in
        ret (Some id)
    end) next.
Proof.
  intros Hf Hn c. unfold comp_bind.
  destruct (explained_target snapshot target (path +:+ "/target")) as [Hcalm Hnone].
  specialize (Hcalm c). specialize (Hnone c).
  pose proof (resolve_target_some snapshot target (path +:+ "/target") c) as Hsome.
  destruct (resolve_target snapshot target _ c) as [targets c1]. simpl in *.
  destruct (builds_failure f n on_failure next (path +:+ "/on_failure") depth c1 Hf Hn) as [new Hb].
  destruct (compile_failure _ _ _ _ _ _ c1) as [failure c2]. simpl in Hb.
  pose proof (calm_then_built _ _ _ _ _ _ _ _ Hcalm Hb) as Hb'.
  destruct targets as [targets|]; [|eapply builds_unfinished; [exact Hb'|]].
  - destruct (Hsome targets eq_refl) as [Hne Hcap].
    pose proof (classify_effect snapshot target targets payload path c2) as Hcl.
    destruct (classify_command _ _ _ _ _ c2) as [u c3]. simpl in Hcl.
    destruct Hcl as (Hnodes & Hext & Hprof).
    set (kind := Node_Command targets payload segment retry failure next).
    pose proof (built_push document snapshot next c c2 c3 new (failure_edges failure) kind Hb' Hnodes Hext) as Hp.
    eexists. eapply built_weaken; [apply Hp|].
    + rewrite Hprof. unfold node_profiles, node_profile, kind. simpl.
      destruct targets as [|t targets]; [done|]. apply Forall_cons in Hcap as [-> _]. simpl.
      by rewrite (right_id_L ∅ (∪)).
    + done.
    + intros _ e [<-|Hin]; [by left | by right].
    + intros _ e [<-|[]]. by left; left.
  - intros Hclean. apply (Hnone eq_refl). by eapply extends_clean; [apply (bt_extends _ _ _ _ _ _ _ Hb)|].
Qed.

Lemma builds_if (f : CompileAction) n condition then_actions else_actions next path depth :
  enough f n -> list_height action_height then_actions <= n ->
  list_height action_height else_actions <= n ->
  builds_entry (
    do* comp_when (is_literal condition)
          (finding Vc_ImpossibleBranch (path +:+ "/condition")
             "literal condition makes one branch unreachable"
             (Some "Remove the unreachable branch or use a dynamic condition"%string) None);
    let* join := push_node (Node_Join next) in
    let* then_node := compile_actions document f (reduce_actions then_actions) (Some join)
                        (path +:+ "/then_actions") (u16_wrapping_add depth 1) in
    let* else_node := compile_actions document f (reduce_actions else_actions) (Some join)
                        (path +:+ "/else_actions") (u16_wrapping_add depth 1) in
    let* condition := compile_condition document snapshot condition (path +:+ "/condition")
                        (u16_wrapping_add depth 1) in
    match condition with
    | None => ret None
    | Some condition =>
        let* id := push_node (Node_Branch condition then_node else_node (Some join)) in
        ret (Some id)
    end) next.
Proof.
  intros Hf Ht He. apply builds_calm; [calm_tac|]. intros _ c. unfold comp_bind.
  pose proof (built_push_plain document snapshot next c c [] [] (Node_Join next)
    (built_calm document snapshot next c c ltac:(done)) eq_refl ltac:(done) ltac:(done)) as Hjoin.
  destruct (push_node (Node_Join next) c) as [join c1]. simpl in Hjoin.
  destruct (builds_reduced f n then_actions (Some join) (path +:+ "/then_actions")
    (u16_wrapping_add depth 1) Hf Ht c1) as [new1 Hthen].
  destruct (compile_actions _ _ _ _ _ _ c1) as [then_node c2]. simpl in Hthen.
  destruct (builds_reduced f n else_actions (Some join) (path +:+ "/else_actions")
    (u16_wrapping_add depth 1) Hf He c2) as [new2 Helse].
  destruct (compile_actions _ _ _ _ _ _ c2) as [else_node c3]. simpl in Helse.
  destruct (explained_condition document snapshot condition (path +:+ "/condition")
    (u16_wrapping_add depth 1)) as [Hcalm Hnone].
  specialize (Hcalm c3). specialize (Hnone c3).
  destruct (compile_condition _ _ _ _ _ c3) as [compiled c4]. simpl in *.
  pose proof (built_trans _ _ _ _ _ _ _ _ _ _ _ Hjoin Hthen ltac:(simpl; auto)) as H2.
  pose proof (built_trans _ _ _ _ _ _ _ _ _ _ _ H2 Helse ltac:(simpl; auto)) as H3.
  pose proof (built_then_calm _ _ _ _ _ _ _ _ H3 Hcalm) as H4.
  destruct compiled as [compiled|].
  - apply (builds_push _ _ _ _ _ (Node_Branch compiled then_node else_node (Some join)) H4); [done..|].
    simpl. tauto.
  - eapply builds_unfinished; [exact H4|]. by apply Hnone.
Qed.

Lemma enough_step n : enough (compile_action document snapshot n) n.
Proof.
  induction n as [|n IH]; intros action next path depth segment Hn.
  { destruct action; simpl in Hn; lia. }
  destruct action as [target payload retry on_failure|duration|condition timeout on_timeout|name value
    |actions|condition then_actions else_actions|branches maximum|branches maximum]; simpl in Hn; simpl compile_action.
  - do 4 (apply builds_calm; [calm_tac|]; intros _). apply (builds_command _ n); [done | lia].
  - apply builds_calm; [calm_tac|]. intros _ c.
    apply (builds_push next c c [] [] (Node_Delay duration next)); try done.
    by apply built_calm.
  - apply builds_calm; [calm_tac|]. intros _ c. unfold comp_bind.
    destruct (explained_condition document snapshot condition (path +:+ "/condition")
      (u16_wrapping_add depth 1)) as [Hcalm Hnone].
    specialize (Hcalm c). specialize (Hnone c).
    destruct (compile_condition _ _ _ _ _ c) as [compiled c1]. simpl in *.
    destruct (builds_failure _ n on_timeout next (path +:+ "/on_timeout") (u16_wrapping_add depth 1) c1 IH
      ltac:(lia)) as [new Hb].
    destruct (compile_failure _ _ _ _ _ _ c1) as [failure c2]. simpl in Hb.
    pose proof (calm_then_built _ _ _ _ _ _ _ _ Hcalm Hb) as Hb'.
    destruct compiled as [compiled|].
    + apply (builds_push _ _ _ _ _ (Node_Wait compiled timeout failure next) Hb'); [done..|].
      intros _ e [<-|Hin]; [by left | by right].
    + eapply builds_unfinished; [exact Hb'|]. intros Hclean. apply Hnone; [done|].
      by eapply extends_clean; [apply (bt_extends _ _ _ _ _ _ _ Hb)|].
  - intros c. unfold comp_bind.
    destruct (explained_expression document snapshot value (path +:+ "/value")) as [Hcalm Hnone].
    specialize (Hcalm c). specialize (Hnone c).
    destruct (compile_expression _ _ _ _ c) as [[[compiled type]|] c1]; simpl in *;
      (destruct (bget name (do_variables document)) as [definition|];
       [|eapply builds_unfinished; [apply (built_calm _ _ next c)|]]).
    + assert (calm (comp_when (negb (bool_decide (vd_value_type definition = type)))
        (type_mismatch (path +:+ "/value") "assigned expression does not match the variable type")))
        as Hcalm2 by calm_tac.
      specialize (Hcalm2 c1). destruct (comp_when _ _ c1) as [u c2].
      apply (builds_push _ _ c2 [] [] (Node_SetVariable name compiled next)); try done.
      apply built_calm. by transitivity c1.
    + transitivity c1; [done|]. apply calm_finding.
    + simpl. intros [_ Hx]%app_eq_nil. discriminate.
    + eapply builds_unfinished; [by apply (built_calm _ _ next c)|]. by apply Hnone.
    + transitivity c1; [done|]. apply calm_finding.
    + simpl. intros [_ Hx]%app_eq_nil. discriminate.
  - apply (builds_reduced _ n); [done | lia].
  - apply (builds_if _ n); [done | lia | lia].
  - intros c. unfold comp_bind.
    destruct (builds_group _ n branches maximum next path depth false c IH ltac:(lia)) as [new Hb].
    destruct (compile_group _ _ _ _ _ _ _ _ c). by exists new.
  - intros c. unfold comp_bind.
    destruct (builds_group _ n branches maximum next path depth true c IH ltac:(lia)) as [new Hb].
    destruct (compile_group _ _ _ _ _ _ _ _ c). by exists new.
Qed.

End Builds.
