(* ===== verification/AutomationFixture.v ===== *)
(** Small automations the witnesses compile, as the observation of a lamp that
    switches the devices of a space beside a delay, and a database in which an
    approved one is active. *)

From S2P Require Import Prelude Text BTree Json Capability Lifecycle Device Command CommandStore CommandFixture MatterOperation Automation Identity AutomationStore AutomationInvariant CommandService AutomationCompiler.

#[local] Existing Instance integer_json.

#[export] Instance fixture_calendar : Calendar :=
  {| timezone_known := String.eqb "Europe/Berlin";
     parse_local_time := fun _ => None;
     cron_valid := fun _ => true;
     local_time := fun _ _ => 0%Z |}.

#[export] Instance fixture_sha : Sha256.
Proof.
  refine {| sha256 := fun l => repeat (N.of_nat (length l) mod 256)%N 32 |}.
  - reflexivity.
  - intros l. apply List.Forall_forall. intros b Hin.
    apply repeat_spec in Hin as ->. apply N.mod_lt. discriminate.
Defined.

#[export] Instance fixture_encoding : AutomationEncoding :=
  {| encode_document := fun document => Ok (bytes (do_name document));
     encode_plan := fun plan => Ok [N.of_nat (length (hp_nodes plan))];
     encode_timed_condition := fun '(_, duration) => Ok [(duration mod 256)%N] |}.

Definition hall_device (name : string) (risk : RiskClass) : DeviceRecord :=
  let snapshot := mk_snapshot name name "shelly" name "M" "X" []
    [mk_endpoint "main" None [Snapshot_OnOff false risk]] now0 [] in
  mk_device "home" "integration" snapshot Enrolled (mk_availability Av_Online 0 None)
    (mk_timestamps 0 now0 (Some now0)) ∅ {["hall"%string]} (descriptors snapshot).

(** A lamp and a gate that share the hall and the capability. *)
Definition hall : FoundationSnapshot :=
  mk_foundation [] [] [] [hall_device "a-lamp" Risk_Comfort; hall_device "b-gate" Risk_Security]
    [] [] (Some 7%N).

Definition on_off_of (reference : AutomationDeviceReference) : AutomationTargetReference :=
  mk_target reference None "on_off.v1".

Definition switch_on (reference : AutomationDeviceReference) : AutomationAction :=
  Do_Command (on_off_of reference) (Pl_OnOff (Oo_Set true))
    (mk_retry 2 1000 [Ce_TransportFailure]) Fail_StopRun.

Definition document_of (actions : list AutomationAction) : AutomationDocument :=
  mk_document "auto" 1%N "Hall light" (mk_provenance "alice" None "light the hall" "dark") []
    [Trig_ObservationChanged (on_off_of (Ref_Device "a-lamp")) (Some "on"%string)] None actions
    Mode_Single Self_SuppressSameVersion AutomationResourceBudget.default now0.

Definition hall_document : AutomationDocument :=
  document_of [Do_Parallel [[switch_on (Ref_Space "hall")]; [Do_Delay 500]] 2].

Definition gate_document : AutomationDocument := document_of [switch_on (Ref_Device "b-gate")].

Definition plan_of (document : AutomationDocument) : AutomationExecutionPlan :=
  match compile document hall with Ok plan => plan | Err _ =>
    mk_plan "" 0%N (mk_content_hash "") (mk_content_hash "") 0%N [] [] None Mode_Single Self_Allow
      0%N [] ∅ ∅ Apr_ActivationGrant AutomationResourceBudget.default end.

Example hall_plan_kinds : map nd_kind (pl_nodes (plan_of hall_document)) =
  [ Node_Complete; Node_Join (Some 0%N);
    Node_Command [mk_resolved "a-lamp" "main" "on_off.v1"; mk_resolved "b-gate" "main" "on_off.v1"]
      (Pl_OnOff (Oo_Set true)) 0%N (mk_retry 2 1000 [Ce_TransportFailure]) Pf_StopRun (Some 1%N);
    Node_Delay 500 (Some 1%N); Node_Parallel [2%N; 3%N] 2 (Some 1%N) ].
Proof. vm_compute. reflexivity. Qed.

(** ** A database in which an approved automation is active and runs, as the script
    of transactions that leads to it. *)

#[export] Instance fixture_uuids : Uuids :=
  {| uuid_v4 := fun n => "random-" +:+ show_N (N.of_nat n);
     uuid_v5 := fun namespace name => show_N namespace +:+ "/" +:+ name |}.

Definition stored_in (state : AutomationVersionState) (simulated : bool) (document : AutomationDocument) :
  StoredAutomationVersion :=
  let plan := plan_of document in
  mk_stored_version document plan state
    (mk_validation (pl_document_hash plan) (pl_plan_hash plan) (pl_registry_revision plan) now0)
    (if simulated
     then Some (mk_simulation (pl_document_hash plan) (pl_plan_hash plan) (pl_registry_revision plan)
                  (mk_content_hash "trace") true now0)
     else None).

Definition gate_approval : AutomationApprovalRecord :=
  let plan := plan_of gate_document in
  mk_approval "approval" "auto" 1%N (pl_document_hash plan) (pl_plan_hash plan) "alice" Ap_Approved
    None now0.

Definition gate_activation : AutomationActivation :=
  let plan := plan_of gate_document in
  mk_activation "auto" 1%N 0%N (pl_document_hash plan) (pl_plan_hash plan) (pl_registry_revision plan)
    now0.

Definition gate_occurrence : AutomationOccurrence :=
  mk_occurrence "occurrence" "auto" 1%N now0 now0 Occ_Accepted (Some 3%N) "correlation" None None.

Definition gate_run (state : AutomationRunState) (revision : N) (node : N) : AutomationRun :=
  mk_run "run" "auto" 1%N "occurrence" "alice" state revision (Some node) [] [] None [] []
    "correlation" None now0 now0.

Definition gate_write (revision : N) : AutomationStepWrite :=
  mk_step_write (gate_run Run_Running (revision + 1) 1) revision
    [mk_trace_step (AutomationTraceId.from_run_sequence "run" revision) "run" revision (Some 1%N)
       Tr_Command [] now0 "correlation" None] [] [].

(** The script: store, simulate, await approval, approve, activate, retire the
    version, admit an occurrence and take the first step of its run. *)
Definition gate_ready : result AutomationDb StorageError :=
  let? db := store_version empty_adb (stored_in Vs_Validated false gate_document) in
  let? db := transition_version db (stored_in Vs_Simulated true gate_document) Vs_Validated in
  let? db := transition_version db (stored_in Vs_AwaitingApproval true gate_document) Vs_Simulated in
  let? db := append_approval db gate_approval in
  let? activated := activate db gate_activation in
  create_occurrence activated.1 gate_occurrence.

(** The script with the run. *)
Definition gate_prefix : result AutomationDb StorageError :=
  let? db := gate_ready in create_run db (gate_run Run_Pending 0 1).

Ltac split_script Hs :=
  repeat match type of Hs with
  | result_bind _ _ = Ok _ => apply result_bind_ok in Hs as (? & ? & Hs); cbv zeta in Hs
  end.

Lemma gate_ready_reachable db : gate_ready = Ok db -> adb_reachable db.
Proof.
  unfold gate_ready. intros Hs. split_script Hs. unfold adb_reachable.
  eapply rtc_l; [eapply Tx_store_version; eassumption|].
  eapply rtc_l; [eapply Tx_transition_version; eassumption|].
  eapply rtc_l; [eapply Tx_transition_version; eassumption|].
  eapply rtc_l; [eapply Tx_append_approval; eassumption|].
  match goal with H : activate _ _ = Ok ?p |- _ => destruct p; simpl in * end.
  eapply rtc_l; [eapply Tx_activate; eassumption|].
  eapply rtc_once, Tx_create_occurrence. eassumption.
Qed.

Lemma gate_prefix_reachable db : gate_prefix = Ok db -> adb_reachable db.
Proof.
  unfold gate_prefix. intros Hs. split_script Hs.
  eapply rtc_r; [by apply gate_ready_reachable|]. eapply Tx_create_run. eassumption.
Qed.

Definition gate_db : AutomationDb := match gate_prefix with Ok db => db | Err _ => empty_adb end.

Lemma gate_db_reachable : adb_reachable gate_db.
Proof.
  apply gate_prefix_reachable. unfold gate_db.
  assert (Hok : is_ok gate_prefix = true) by (vm_compute; reflexivity).
  by destruct gate_prefix.
Qed.

Definition gate_db1 : AutomationDb :=
  match commit_step gate_db (gate_write 0) with Ok db => db | Err _ => empty_adb end.

Lemma gate_commit : commit_step gate_db (gate_write 0) = Ok gate_db1.
Proof.
  unfold gate_db1. assert (Hok : is_ok (commit_step gate_db (gate_write 0)) = true)
    by (vm_compute; reflexivity). by destruct (commit_step gate_db (gate_write 0)).
Qed.
