(* ===== verification/AutomationProps.v ===== *)
(** Properties of the automation compiler: the shape of its plans, the approval
    they need, the reduction of commands and the use of its fuel. *)

From S2P Require Import Prelude Text BTree Json Capability Lifecycle Device Command CommandStore CommandService CommandFixture Automation AutomationCompiler AutomationPlan AutomationFixture.

Lemma node_id_small k : (N.of_nat k <= u32_max)%N -> node_id_of k = N.of_nat k.
Proof. unfold node_id_of. lia. Qed.

(** What the runtime relies on: positions are identities, the completion node
    comes first and alone, every reference leads to an earlier node, and a group encloses
    the region of its branches behind its join, which the joins of the groups in
    the region lie behind in turn. *)
Record plan_wf (plan : AutomationExecutionPlan) : Prop := {
  pw_ids : forall i node, pl_nodes plan !! i = Some node ->
    nd_id node = N.of_nat i /\ nd_order node = nd_id node;
  pw_complete : exists node, pl_nodes plan !! 0 = Some node /\ nd_kind node = Node_Complete;
  pw_live : forall i node, pl_nodes plan !! i = Some node -> nd_kind node = Node_Complete -> i = 0;
  pw_entry : (pl_entry plan < N.of_nat (length (pl_nodes plan)))%N;
  pw_budget : AutomationResourceBudget.validate (pl_budget plan) = Ok tt;
  pw_size : (N.of_nat (length (pl_nodes plan)) <= bu_maximum_nodes (pl_budget plan))%N;
  pw_edges : forall i node e, pl_nodes plan !! i = Some node -> In e (edges (nd_kind node)) ->
    exists j, e = Some (N.of_nat j) /\ j < i;
  pw_groups : forall i node branches maximum join, pl_nodes plan !! i = Some node ->
    group_of (nd_kind node) = Some (branches, maximum, join) ->
    branches <> [] /\ (0 < maximum <= N.of_nat (length branches))%N /\
    (N.of_nat (length branches) <= bu_maximum_parallel_width (pl_budget plan))%N /\
    exists j next, join = Some (N.of_nat j) /\ j < i /\
      (exists jn, pl_nodes plan !! j = Some jn /\ nd_kind jn = Node_Join next) /\
      (forall b, In b branches -> exists k, b = N.of_nat k /\ j <= k < i) /\
      (forall k node' e, j < k < i -> pl_nodes plan !! k = Some node' ->
         In e (edges (nd_kind node')) -> exists m, e = Some (N.of_nat m) /\ j <= m < k) /\
      (forall k node' branches' maximum' join', j < k < i -> pl_nodes plan !! k = Some node' ->
         group_of (nd_kind node') = Some (branches', maximum', join') ->
         exists m, join' = Some (N.of_nat m) /\ j < m < k)
}.

Section Compile.
Context `{SerdeJson} `{Calendar} `{Sha256} `{AutomationEncoding}.

Lemma calm_structure document : calm (validate_structure document).
Proof.
  assert (calm (validate_variables (do_variables document))) as Hv.
  { induction (do_variables document) as [|[name definition] variables IH]; simpl; [apply calm_ret|].
    apply calm_bind; [calm_tac|]. intros _. apply calm_bind; [|intros; apply IH].
    case_match; [|apply calm_ret]. apply calm_bind; [apply calm_value | intros _; calm_tac]. }
  unfold validate_structure. apply calm_bind; [calm_tac|]. intros _.
  do 5 (apply calm_bind; [calm_tac|]; intros _).
  apply calm_bind; [calm_tac|]. intros _. apply calm_bind; [|intros; apply Hv]. calm_tac.
Qed.

Lemma calm_schedule schedule path : calm (validate_schedule schedule path).
Proof. unfold validate_schedule. calm_tac. Qed.

Lemma calm_trigger snapshot trigger path : calm (compile_trigger snapshot trigger path).
Proof.
  destruct trigger as [target field|target event|schedule|target states]; simpl.
  - apply calm_bind; [apply explained_target|]. intros targets.
    apply calm_bind; [|intros; apply calm_ret]. case_match; [|apply calm_ret].
    apply calm_bind; [apply explained_field | intros; apply calm_ret].
  - apply calm_bind; [calm_tac|]. intros _.
    apply calm_bind; [apply explained_target | intros; apply calm_ret].
  - apply calm_bind; [apply calm_schedule | intros; apply calm_ret].
  - apply calm_bind; [calm_tac|]. intros _.
    apply calm_bind; [case_match; [apply explained_target | apply calm_ret] | intros; apply calm_ret].
Qed.

Lemma calm_triggers snapshot index triggers : calm (compile_triggers snapshot index triggers).
Proof.
  revert index. induction triggers as [|trigger triggers IH]; intros index; simpl; [apply calm_ret|].
  apply calm_bind; [apply calm_trigger|]. intros resolved.
  apply calm_bind; [apply IH | intros; apply calm_ret].
Qed.

Lemma comp_bind_eq {A B} (m : Comp A) (f : A -> Comp B) c :
  comp_bind m f c = f (m c).1 (m c).2.
Proof. unfold comp_bind. by destruct (m c). Qed.

Lemma clean_bind {A B} (m : Comp A) (f : A -> Comp B) c :
  (forall a, calm (f a)) -> cp_findings (comp_bind m f c).2 = [] -> cp_findings (m c).2 = [].
Proof.
  intros Hf. rewrite comp_bind_eq. intros Hclean.
  exact (extends_clean _ _ (cs_extends _ _ (Hf (m c).1 (m c).2)) Hclean).
Qed.

Lemma calm_variables variables : calm (validate_variables variables).
Proof.
  induction variables as [|[name definition] variables IH]; simpl; [apply calm_ret|].
  apply calm_bind; [calm_tac|]. intros _. apply calm_bind; [|intros; apply IH].
  case_match; [|apply calm_ret]. apply calm_bind; [apply calm_value | intros _; calm_tac].
Qed.

(** A clean budget was accepted by its validator. *)
Lemma structure_budget document c :
  cp_findings (validate_structure document c).2 = [] ->
  AutomationResourceBudget.validate (do_budget document) = Ok tt.
Proof.
  unfold validate_structure, budget. do 6 rewrite comp_bind_eq. intros Hclean. apply clean_bind in Hclean.
  - destruct (AutomationResourceBudget.validate _) as [[]|error]; [done|].
    apply app_eq_nil in Hclean as [_ Hclean]. discriminate.
  - intros _. apply calm_bind; [calm_tac | intros _; apply calm_variables].
Qed.

(** The part of the compilation that adds nodes. *)
Lemma actions_shape document snapshot triggers condition c :
  let m :=
    let* complete := push_node Node_Complete in
    let actions := reduce_actions (do_actions document) in
    let* entry := compile_actions document
                    (compile_action document snapshot (list_height action_height actions))
                    actions (Some complete) "/actions" 1 in
    let* _ := fun c =>
      comp_when (N.ltb (bu_maximum_nodes (do_budget document)) (N.of_nat (length (cp_nodes c))))
        (finding Vc_ResourceBoundExceeded "/budget/maximum_nodes"
           "compiled plan exceeds the declared node budget"
           (Some "Increase maximum_nodes or simplify the automation"%string) None) c in
    ret (mk_fragments triggers condition entry) in
  cp_nodes c = [] -> cp_profiles c = ∅ ->
  extends c (m c).2 /\
  (cp_findings (m c).2 = [] ->
   (N.of_nat (length (cp_nodes (m c).2)) <= bu_maximum_nodes (do_budget document))%N /\
   cp_profiles (m c).2 = node_profiles snapshot (cp_nodes (m c).2) /\
   exists new id, cp_nodes (m c).2 = mk_node 0 0 Node_Complete :: new /\
     fragment (bu_maximum_parallel_width (do_budget document)) 1 0%N new /\
     fr_entry (m c).1 = Some id /\ leads 1 0%N (length new) id).
Proof.
  intros m Hnodes Hprofiles. subst m. cbn zeta.
  set (actions := reduce_actions _). rewrite !comp_bind_eq. simpl. rewrite Hnodes.
  destruct (builds_actions document snapshot _ _ actions (Some (node_id_of 0)) "/actions" 1
    (enough_step document snapshot (list_height action_height actions)) ltac:(done)
    (push_node Node_Complete c).2) as [new [Hn He Hc]].
  change (push_node Node_Complete c).2
    with (mk_compiler (cp_findings c)
      (cp_nodes c ++ [mk_node (node_id_of (length (cp_nodes c))) (node_id_of (length (cp_nodes c))) Node_Complete])
      (cp_profiles c) (cp_requirements c) (cp_next_segment c)) in Hn, He, Hc.
  rewrite Hnodes in *. simpl in Hn, He, Hc.
  destruct (compile_actions _ _ _ _ _ _ _) as [entry c1]. simpl in *.
  unfold comp_when. case_match eqn:Hsize; simpl.
  - split; [destruct He as [f Hf]; exists (f ++ [mk_finding Vc_ResourceBoundExceeded
      "/budget/maximum_nodes" "compiled plan exceeds the declared node budget"
      (Some "Increase maximum_nodes or simplify the automation"%string) None]); simpl;
      by rewrite Hf, <- app_assoc|].
    intros [_ Hx]%app_eq_nil. discriminate.
  - split; [exact He|]. intros Hclean. destruct (Hc Hclean) as [Hp Hf].
    destruct (Hf 0%N eq_refl) as [Hfr Hl]. destruct (Hl entry) as (id & -> & Hid); [by left|].
    apply N.ltb_ge in Hsize. split; [done|]. split.
    { rewrite Hp, Hprofiles, Hn, node_profiles_cons. unfold node_profiles at 2. simpl. set_solver. }
    exists new, id. done.
Qed.

Lemma fragments_shape document snapshot fragments self :
  compile_fragments document snapshot new_compiler = (fragments, self) ->
  cp_findings self = [] ->
  AutomationResourceBudget.validate (do_budget document) = Ok tt /\
  (N.of_nat (length (cp_nodes self)) <= bu_maximum_nodes (do_budget document))%N /\
  cp_profiles self = node_profiles snapshot (cp_nodes self) /\
  exists new id, cp_nodes self = mk_node 0 0 Node_Complete :: new /\
    fragment (bu_maximum_parallel_width (do_budget document)) 1 0%N new /\
    fr_entry fragments = Some id /\ leads 1 0%N (length new) id.
Proof.
  unfold compile_fragments. rewrite comp_bind_eq.
  pose proof (calm_structure document new_compiler) as Hs.
  pose proof (structure_budget document new_compiler) as Hbud.
  destruct (validate_structure document new_compiler) as [u c1]. simpl in Hs, Hbud.
  rewrite comp_bind_eq. pose proof (calm_triggers snapshot 0 (do_triggers document) c1) as Ht.
  destruct (compile_triggers snapshot 0 (do_triggers document) _) as [triggers c2]. simpl in Ht.
  rewrite comp_bind_eq.
  assert (forall c, calm_step c (match do_condition document with
    | Some condition => compile_condition document snapshot condition "/condition" 1
    | None => ret None end c).2) as Hcond
    by (destruct (do_condition document); [apply explained_condition | apply calm_ret]).
  specialize (Hcond c2).
  pose proof (calm_trans _ _ _ (calm_trans _ _ _ Hs Ht) Hcond) as [Hn Hp He].
  pose proof (calm_trans _ _ _ Ht Hcond) as [_ _ He1].
  intros Heq Hclean.
  assert (cp_nodes c1 = [] /\ cp_profiles c1 = ∅) as [] by (split; [apply Hs | apply Hs]).
  match type of Hn with cp_nodes (?p).2 = _ =>
    pose proof (actions_shape document snapshot triggers p.1 p.2 Hn Hp) as Hshape end.
  cbv zeta in Hshape.
  match type of Hshape with extends _ (?m).2 /\ _ => change (m = (fragments, self)) in Heq end.
  rewrite Heq in Hshape. destruct Hshape as [He2 Hshape].
  split; [|by apply Hshape]. apply Hbud.
  by eapply extends_clean; [exact He1|]; eapply extends_clean.
Qed.

(** What a produced plan is made of. *)
Lemma compile_ok document snapshot plan : compile document snapshot = Ok plan ->
  exists fragments self, compile_fragments document snapshot new_compiler = (fragments, self) /\
    cp_findings self = [] /\ fr_entry fragments = Some (pl_entry plan) /\
    pl_nodes plan = sort_by (fun a b => N.leb (nd_id a) (nd_id b)) (cp_nodes self) /\
    pl_budget plan = do_budget document /\ pl_safety_profiles plan = cp_profiles self /\
    let explicit := existsb is_sensitive (elements (cp_profiles self)) in
    pl_approval plan = (if explicit then Apr_ExplicitUserApproval else Apr_ActivationGrant) /\
    pl_safety_requirements plan = (if explicit then {[Rq_ExplicitApproval]} ∪ cp_requirements self
                                   else cp_requirements self).
Proof.
  unfold compile. destruct (compile_fragments _ _ _) as [fragments self].
  case_bool_decide as Hclean; simpl; [|done]. intros Hc.
  apply result_bind_ok in Hc as (entry & Hentry & Hc).
  apply result_bind_ok in Hc as (hash & _ & Hc). apply result_bind_ok in Hc as (plan_hash & _ & [= <-]).
  exists fragments, self. destruct (fr_entry fragments) as [e|]; [|done].
  injection Hentry as ->. by repeat split.
Qed.

(** The nodes were numbered in the order they were pushed: the final sort keeps
    them. *)
Lemma fragment_sorted width base nodes next :
  fragment width base next nodes -> (N.of_nat (base + length nodes) <= u32_max)%N ->
  sort_by (fun a b => N.leb (nd_id a) (nd_id b)) nodes = nodes.
Proof.
  intros Hf Hsize. apply sort_by_sorted. intros i a b Ha Hb.
  pose proof (lookup_lt_Some _ _ _ Hb).
  destruct (fg_ids _ _ _ _ Hf _ _ Ha) as [-> _]. destruct (fg_ids _ _ _ _ Hf _ _ Hb) as [-> _].
  rewrite !node_id_small by lia. apply N.leb_le. lia.
Qed.

Lemma complete_fragment width : fragment width 0 0%N [mk_node 0 0 Node_Complete].
Proof.
  apply (fragment_snoc width 0 0%N [] Node_Complete); [apply fragment_nil | done | done | done].
Qed.

Lemma leads_below n i id : (N.of_nat n <= u32_max)%N -> i <= n -> leads 0 0%N i id ->
  exists j, id = N.of_nat j /\ j < Nat.max 1 i.
Proof.
  intros Hn Hi [->|(j & Hj & ->)]; [exists 0; split; [done | lia]|].
  exists j. rewrite node_id_small by lia. split; [done | lia].
Qed.

(** The nodes of a plan are one fragment whose first node completes the run. *)
Lemma compile_nodes document snapshot plan : compile document snapshot = Ok plan ->
  AutomationResourceBudget.validate (pl_budget plan) = Ok tt /\
  (N.of_nat (length (pl_nodes plan)) <= bu_maximum_nodes (pl_budget plan))%N /\
  pl_safety_profiles plan = node_profiles snapshot (pl_nodes plan) /\
  exists new, pl_nodes plan = mk_node 0 0 Node_Complete :: new /\
    fragment (bu_maximum_parallel_width (pl_budget plan)) 0 0%N (pl_nodes plan) /\
    leads 0 0%N (length (pl_nodes plan)) (pl_entry plan).
Proof.
  intros (fragments & self & Hfr & Hclean & Hentry & Hnodes & Hbudget & Hprofiles & _)%compile_ok.
  destruct (fragments_shape _ _ _ _ Hfr Hclean) as (Hvalid & Hsize & Hp & new & id & Hn & Hf & He & Hl).
  rewrite Hentry in He. injection He as <-.
  assert (fragment (bu_maximum_parallel_width (do_budget document)) 0 0%N (cp_nodes self)) as Hall.
  { rewrite Hn. apply (fragment_app _ 0 0%N [mk_node 0 0 Node_Complete] 0%N new);
      [apply complete_fragment | by left | done]. }
  assert (N.of_nat (length (cp_nodes self)) <= u32_max)%N as Hsmall.
  { clear -Hvalid Hsize. revert Hvalid. unfold AutomationResourceBudget.validate,
      AutomationResourceBudget.outside. repeat (case_match; [done|]). intros _. bool_inv.
    unfold MAX_AUTOMATION_PLAN_NODES, u32_max in *. lia. }
  assert (pl_nodes plan = cp_nodes self) as Heq.
  { rewrite Hnodes. by eapply fragment_sorted; [exact Hall|]. }
  rewrite Heq, Hbudget, Hprofiles. split; [done|]. split; [done|]. split; [done|].
  exists new. split; [done|]. split; [done|].
  destruct Hl as [->|(j & Hj & ->)]; [by left|]. right. exists (S j).
  rewrite Hn. simpl. split; [lia | done].
Qed.

Lemma compile_wf document snapshot plan :
  compile document snapshot = Ok plan -> plan_wf plan.
Proof.
  intros Hc. destruct (compile_nodes _ _ _ Hc) as (Hv & Hsize & _ & new & Hnew & Hf & Hl).
  assert (N.of_nat (length (pl_nodes plan)) <= u32_max)%N as Hsmall.
  { clear -Hv Hsize. revert Hv. unfold AutomationResourceBudget.validate,
      AutomationResourceBudget.outside. repeat (case_match; [done|]). intros _. bool_inv.
    unfold MAX_AUTOMATION_PLAN_NODES, u32_max in *. lia. }
  assert (forall k, k < length (pl_nodes plan) -> node_id_of k = N.of_nat k) as Hid
    by (intros k Hk; apply node_id_small; lia).
  split.
  - intros i node Hi. destruct (fg_ids _ _ _ _ Hf _ _ Hi) as [Hn Ho].
    rewrite Ho, Hn. simpl. by rewrite Hid by by eapply lookup_lt_Some.
  - rewrite Hnew. by eexists.
  - intros i node Hi Hk. by apply (fg_live _ _ _ _ Hf i node).
  - destruct (leads_below _ _ _ Hsmall (Nat.le_refl _) Hl) as (j & -> & Hj).
    rewrite Hnew in *. simpl in *. lia.
  - done.
  - done.
  - intros i node e Hi He. pose proof (lookup_lt_Some _ _ _ Hi).
    destruct (fg_edges _ _ _ _ Hf _ _ _ Hi He) as (id & -> & Hlead).
    destruct (leads_below (length (pl_nodes plan)) i id Hsmall ltac:(lia) Hlead) as (j & -> & Hj).
    exists j. split; [done|]. destruct i as [|i]; [|lia].
    rewrite Hnew in Hi. injection Hi as <-. destruct He.
  - intros i node branches maximum join Hi Hg. pose proof (lookup_lt_Some _ _ _ Hi).
    destruct (fg_groups _ _ _ _ Hf _ _ Hi _ _ _ Hg)
      as (Hb & Hm & Hw & j & next & Hj & -> & Hjn & Hbr & Hin & Hnest).
    split; [done|]. split; [done|]. split; [done|]. exists j, next. simpl.
    rewrite Hid by lia. split; [done|]. split; [done|]. split; [done|]. split; [|split].
    + intros b Hb'. destruct (Hbr b Hb') as (k & Hk & ->). exists k. simpl. by rewrite Hid by lia.
    + intros k node' e Hk Hl' He. destruct (Hin k node' e Hk Hl' He) as (m & Hm' & ->).
      exists m. simpl. by rewrite Hid by lia.
    + intros k node' b' m' join' Hk Hl' Hg'.
      destruct (Hnest k node' b' m' join' Hk Hl' Hg') as (m0 & Hm' & ->).
      exists m0. simpl. by rewrite Hid by lia.
Qed.

(** C18: every plan the compiler accepts can be executed.  Its nodes stand at
    the position of their identity and number at most what the declared budget
    allows, the first one and no other completes the run, every reference of a node leads to
    an earlier node, and every parallel or race node has between one branch and
    the declared width, a bound on simultaneous branches within that count, and a
    join such that the nodes between the join and the group lead nowhere else and
    the groups among them have their own joins there. *)
Theorem compile_well_formed document snapshot plan :
  compile document snapshot = Ok plan -> plan_wf plan.
Proof. apply compile_wf. Qed.

(** A plan carries exactly the safety profiles of its commands, and asks
    for the explicit approval of a user exactly when one of its commands opens
    access, controls a flow or belongs to security. *)
Theorem compile_approval document snapshot plan :
  compile document snapshot = Ok plan ->
  (forall profile, profile ∈ pl_safety_profiles plan <->
     exists node, In node (pl_nodes plan) /\ node_profile snapshot node = Some profile) /\
  (pl_approval plan = Apr_ExplicitUserApproval <->
     exists node profile, In node (pl_nodes plan) /\
       node_profile snapshot node = Some profile /\ is_sensitive profile = true) /\
  (pl_approval plan = Apr_ExplicitUserApproval -> Rq_ExplicitApproval ∈ pl_safety_requirements plan).
Proof.
  intros Hc. destruct (compile_nodes _ _ _ Hc) as (_ & _ & Hp & _).
  assert (forall profile, profile ∈ pl_safety_profiles plan <->
     exists node, In node (pl_nodes plan) /\ node_profile snapshot node = Some profile) as Hprof.
  { intros profile. rewrite Hp. unfold node_profiles.
    rewrite elem_of_list_to_set, list_elem_of_omap. by setoid_rewrite list_elem_of_In. }
  split; [exact Hprof|].
  apply compile_ok in Hc as (fragments & self & _ & _ & _ & _ & _ & Hps & Ha & Hr).
  rewrite <- Hps in Ha, Hr. rewrite Ha, Hr.
  destruct (existsb is_sensitive (elements (pl_safety_profiles plan))) eqn:He.
  - split; [|set_solver]. split; [intros _|done].
    apply existsb_exists in He as (profile & Hin & Hs).
    apply list_elem_of_In, elem_of_elements, Hprof in Hin as (node & Hin & Hn). by exists node, profile.
  - split; [|done]. split; [done|]. intros (node & profile & Hin & Hn & Hs).
    exfalso. apply not_true_iff_false in He. apply He, existsb_exists. exists profile. split; [|done].
    apply list_elem_of_In, elem_of_elements, Hprof. by exists node.
Qed.

Lemma digest_accepted encoded bytes :
  encoded = Ok bytes -> exists hash, canonical_automation_hash encoded = Ok hash.
Proof.
  intros ->. unfold canonical_automation_hash, AutomationContentHash.new. simpl.
  rewrite hex_length, sha256_length. simpl.
  assert (forallb (fun byte => is_ascii_digit byte || ((97 <=? byte)%N && (byte <=? 102)%N))
    (Text.bytes (hex (sha256 bytes))) = true) as ->.
  { destruct (hex_bytes (sha256 bytes) (sha256_bytes bytes)) as [Hx Hu].
    apply forallb_forall. intros byte Hin. rewrite forallb_forall in Hx. specialize (Hx byte Hin).
    assert (is_ascii_uppercase byte = false) as Hup.
    { apply not_true_iff_false. intros Hc. apply not_true_iff_false in Hu.
      apply Hu, existsb_exists. by exists byte. }
    unfold is_ascii_hexdigit, is_ascii_uppercase, is_ascii_digit in *.
    clear -Hx Hup. rewrite ?orb_true_iff, ?andb_true_iff, ?andb_false_iff, ?N.leb_le, ?N.leb_gt in *. lia. }
  by eexists.
Qed.

(** C20: the compiler reports instead of dropping.  A refused document comes with
    at least one finding, the findings are exactly those of the validation when
    there are any, a plan is only returned when there are none, and a document
    without findings is refused only when the encoder fails. *)
Theorem compile_findings_exact document snapshot :
  let findings := cp_findings (compile_fragments document snapshot new_compiler).2 in
  match compile document snapshot with
  | Ok plan => findings = [] /\ pl_automation_id plan = do_id document /\
      pl_automation_version plan = do_version document /\ pl_budget plan = do_budget document
  | Err error => compile_findings error <> [] /\
      (findings <> [] -> compile_findings error = findings) /\
      (findings = [] -> (exists text, encode_document document = Err text) \/
                        (exists plan text, encode_plan plan = Err text))
  end.
Proof.
  cbn zeta. unfold compile. pose proof (fragments_shape document snapshot) as Hshape.
  destruct (compile_fragments _ _ _) as [fragments self]. specialize (Hshape _ _ eq_refl).
  simpl. case_bool_decide as Hclean; simpl; [|by split].
  destruct (Hshape Hclean) as (_ & _ & _ & new & id & _ & _ & -> & _). simpl.
  destruct (encode_document document) as [bytes|text] eqn:Hd; simpl.
  2: { split; [done|]. split; [done|]. intros _. left. by exists text. }
  destruct (digest_accepted (Ok bytes) bytes eq_refl) as [hash Hh].
  unfold canonical_automation_hash in Hh. simpl in Hh. unfold canonical_automation_hash at 1. simpl.
  rewrite Hh. simpl.
  match goal with |- context [canonical_automation_plan_hash ?p] =>
    destruct (canonical_automation_plan_hash p) as [plan_hash|error] eqn:Hp end; simpl; [done|].
  split; [done|]. split; [done|]. intros _. right. unfold canonical_automation_plan_hash in Hp.
  match type of Hp with canonical_automation_hash (encode_plan ?p) = _ =>
    destruct (encode_plan p) as [bytes'|text] eqn:He; [|by eauto] end.
  destruct (digest_accepted (Ok bytes') bytes' eq_refl) as [hash' Hh']. congruence.
Qed.

End Compile.

Lemma compile_well_formed_witness :
  compile hall_document hall = Ok (plan_of hall_document) /\ plan_wf (plan_of hall_document).
Proof.
  assert (compile hall_document hall = Ok (plan_of hall_document)) as Hc by (vm_compute; reflexivity).
  split; [exact Hc | exact (compile_well_formed hall_document hall (plan_of hall_document) Hc)].
Defined.

Lemma compile_approval_witness :
  compile gate_document hall = Ok (plan_of gate_document) /\
  Rq_ExplicitApproval ∈ pl_safety_requirements (plan_of gate_document).
Proof.
  assert (compile gate_document hall = Ok (plan_of gate_document)) as Hc by (vm_compute; reflexivity).
  split; [exact Hc|].
  apply (compile_approval gate_document hall (plan_of gate_document) Hc). vm_compute. reflexivity.
Defined.

(** A space of mixed risk is classified by its first device: the plan switches
    the gate of the hall without the approval the gate alone asks for. *)
Theorem mixed_space_unapproved :
  pl_approval (plan_of gate_document) = Apr_ExplicitUserApproval /\
  pl_approval (plan_of hall_document) = Apr_ActivationGrant /\
  exists node targets payload segment retry failure next,
    In node (pl_nodes (plan_of hall_document)) /\
    nd_kind node = Node_Command targets payload segment retry failure next /\
    In (mk_resolved "b-gate" "main" "on_off.v1") targets /\
    resolved_risk_of hall (mk_resolved "b-gate" "main" "on_off.v1") = Some Risk_Security.
Proof.
  split; [vm_compute; reflexivity|]. split; [vm_compute; reflexivity|].
  pose proof hall_plan_kinds as Hk. apply (f_equal (fun l => l !! 2)) in Hk.
  rewrite list_lookup_fmap in Hk. destruct (pl_nodes (plan_of hall_document) !! 2) as [node|] eqn:Hn; [|done].
  injection Hk as Hk. exists node. do 6 eexists. split; [by eapply list_elem_of_In, list_elem_of_lookup_2|].
  split; [exact Hk|]. split; [right; left; reflexivity | vm_compute; reflexivity].
Qed.

(** * Properties of the reduction of commands and of the fuel that the compilation
    of nested actions takes. *)

Abbreviation commands := (Forall (fun action => is_command action = true)).

(** A list is commands only, or commands before another action. *)
Lemma segments_ind (P : list AutomationAction -> Prop) :
  (forall segment, commands segment -> P segment) ->
  (forall segment action rest, commands segment -> is_command action = false -> P rest ->
     P (segment ++ action :: rest)) -> forall actions, P actions.
Proof.
  intros Hseg Hstep actions.
  assert (forall segment, commands segment -> P (segment ++ actions)) as Hall.
  { induction actions as [|action actions IH]; intros segment Hs.
    - rewrite app_nil_r. by apply Hseg.
    - destruct (is_command action) eqn:Ha.
      + replace (segment ++ action :: actions) with ((segment ++ [action]) ++ actions)
          by by rewrite <- app_assoc.
        apply IH, Forall_app. split; [done|]. by constructor.
      + apply Hstep; [done | done |]. by apply (IH []). }
  by apply (Hall []).
Qed.

Section Reduce.
Context (f : AutomationAction -> AutomationAction).

Lemma fold_output l output segment :
  fold_left (reduce_step f) l (output, segment) =
  (output ++ (fold_left (reduce_step f) l ([], segment)).1,
   (fold_left (reduce_step f) l ([], segment)).2).
Proof.
  revert output segment. induction l as [|a l IH]; intros output segment; simpl.
  { by rewrite app_nil_r. }
  destruct (is_command a); [apply IH|].
  rewrite IH. symmetry. rewrite IH. simpl. by rewrite <- !app_assoc.
Qed.

Lemma fold_commands l segment : commands l ->
  fold_left (reduce_step f) l ([], segment) = ([], segment ++ l).
Proof.
  intros Hl. revert segment. induction Hl as [|a l Ha _ IH]; intros segment; simpl.
  { by rewrite app_nil_r. }
  rewrite Ha, IH. by rewrite <- app_assoc.
Qed.

Lemma reduce_with_commands segment : commands segment ->
  reduce_with f segment = last_of_targets segment.
Proof. intros Hs. unfold reduce_with. by rewrite fold_commands. Qed.

Lemma reduce_with_step segment action rest : commands segment -> is_command action = false ->
  reduce_with f (segment ++ action :: rest) = last_of_targets segment ++ f action :: reduce_with f rest.
Proof.
  intros Hs Ha. unfold reduce_with. rewrite fold_left_app, fold_commands by done. simpl. rewrite Ha.
  rewrite fold_output. destruct (fold_left _ rest ([], [])) as [output tail]. simpl.
  by rewrite <- !app_assoc.
Qed.
End Reduce.

(** ** The commands that survive *)

Abbreviation for_target target :=
  (List.filter (fun action => bool_decide (command_target action = Some target))).

Lemma last_cons_app {A} (a : A) l b : last (a :: l ++ [b]) = Some b.
Proof. by rewrite app_comm_cons, last_snoc. Qed.

Lemma last_of_targets_spec target segment :
  for_target target (last_of_targets segment) = option_list (last (for_target target segment)).
Proof.
  induction segment as [|a segment IH]; [done|]. simpl last_of_targets. simpl List.filter at 2.
  destruct (existsb _ segment) eqn:He.
  - rewrite IH. case_bool_decide as Ht; [|done].
    assert (for_target target segment <> []) as Hne.
    { intros Hnil. apply existsb_exists in He as (b & Hb & Heq). bool_inv.
      assert (In b (for_target target segment)) as Hin.
      { apply List.filter_In. split; [done|]. rewrite Heq. by apply bool_decide_eq_true. }
      by rewrite Hnil in Hin. }
    destruct (for_target target segment); done.
  - simpl. case_bool_decide as Ht; [|exact IH].
    assert (for_target target segment = []) as Hnil.
    { destruct (for_target target segment) as [|b l] eqn:Hl; [done|]. exfalso.
      assert (In b (for_target target segment)) as Hin by (rewrite Hl; by left).
      apply List.filter_In in Hin as [Hin Hb]. apply bool_decide_eq_true in Hb.
      apply not_true_iff_false in He. apply He, existsb_exists. exists b. split; [done|].
      apply bool_decide_eq_true. congruence. }
    by rewrite IH, Hnil.
Qed.

Lemma last_of_targets_idemp segment :
  last_of_targets (last_of_targets segment) = last_of_targets segment.
Proof.
  induction segment as [|a segment IH]; [done|]. simpl. destruct (existsb _ segment) eqn:He; [done|].
  simpl. rewrite IH. destruct (existsb _ (last_of_targets segment)) eqn:Hl; [|done].
  exfalso. apply existsb_exists in Hl as (b & Hb & Heq).
  apply not_true_iff_false in He. apply He, existsb_exists. exists b. split; [|done].
  revert b Hb Heq. assert (forall l, incl (last_of_targets l) l) as Hincl.
  { intros l. induction l as [|x l IHl]; simpl; [apply incl_refl|]. intros y. destruct (existsb _ l); simpl; [auto|].
    intros [->|Hy]; auto. }
  intros b Hb _. by apply Hincl.
Qed.

Lemma last_of_targets_commands segment : commands segment -> commands (last_of_targets segment).
Proof. apply Forall_last_of_targets. Qed.

Lemma reduce_nested_command action : is_command (reduce_nested action) = is_command action.
Proof. by destruct action. Qed.

(** ** Reducing twice *)

Lemma reduce_with_idemp l :
  Forall (fun a => reduce_nested (reduce_nested a) = reduce_nested a) l ->
  reduce_actions (reduce_actions l) = reduce_actions l.
Proof.
  unfold reduce_actions. induction l as [segment Hs|segment action rest Hs Ha IH] using segments_ind.
  - intros _. rewrite (reduce_with_commands _ segment Hs).
    by rewrite reduce_with_commands, last_of_targets_idemp by by apply last_of_targets_commands.
  - intros [_ [Hra Hrest]%Forall_cons]%Forall_app. rewrite reduce_with_step by done.
    rewrite reduce_with_step;
      [|by apply last_of_targets_commands | by rewrite reduce_nested_command].
    by rewrite last_of_targets_idemp, Hra, IH.
Qed.

Lemma reduce_nested_idemp n a :
  action_height a <= n -> reduce_nested (reduce_nested a) = reduce_nested a.
Proof.
  revert a. induction n as [|n IH]; intros a Hle; [destruct a; simpl in Hle; lia|].
  assert (forall l, list_height action_height l <= n ->
    reduce_with reduce_nested (reduce_with reduce_nested l) = reduce_with reduce_nested l) as Hlist.
  { intros l Hl. apply reduce_with_idemp. apply list_height_le in Hl. eapply Forall_impl; [exact Hl|].
    auto. }
  assert (forall branches, list_height (list_height action_height) branches <= n ->
    map (reduce_with reduce_nested) (map (reduce_with reduce_nested) branches) =
    map (reduce_with reduce_nested) branches) as Hbranches.
  { intros branches Hb. rewrite map_map. apply map_ext_in. intros l Hin. apply Hlist.
    apply list_height_le in Hb. rewrite Forall_forall in Hb. by apply Hb, list_elem_of_In. }
  destruct a; simpl in *; try done.
  - destruct on_timeout; simpl in *; try done. by rewrite Hlist by lia.
  - by rewrite Hlist by lia.
  - by rewrite !Hlist by lia.
  - by rewrite Hbranches by lia.
  - by rewrite Hbranches by lia.
Qed.

(** reduction only collapses commands that nothing separates.  Between two
    other actions exactly the last command of every target remains, in order;
    actions that are no commands stay, reduced inside; and reducing a list again
    changes nothing, so that it does not matter that the compiler reduces nested
    lists more than once. *)
Theorem reduction_spec segment action rest :
  Forall (fun a => is_command a = true) segment -> is_command action = false ->
  reduce_actions (segment ++ action :: rest) =
    last_of_targets segment ++ reduce_nested action :: reduce_actions rest /\
  (forall target, List.filter (fun a => bool_decide (command_target a = Some target))
                    (last_of_targets segment) =
     option_list (last (List.filter (fun a => bool_decide (command_target a = Some target)) segment))) /\
  last_of_targets segment `sublist_of` segment /\
  reduce_actions (reduce_actions (segment ++ action :: rest)) = reduce_actions (segment ++ action :: rest).
Proof.
  intros Hs Ha. split; [by apply reduce_with_step|]. split; [intros; apply last_of_targets_spec|].
  split; [apply last_of_targets_sublist|]. apply reduce_with_idemp, Forall_true.
  intros a. by eapply reduce_nested_idemp.
Qed.

Lemma reduction_spec_witness :
  reduce_actions [switch_on (Ref_Alias "x"); switch_on (Ref_Alias "y"); switch_on (Ref_Alias "x");
    Do_Delay 5; switch_on (Ref_Alias "x")] =
  [switch_on (Ref_Alias "y"); switch_on (Ref_Alias "x"); Do_Delay 5; switch_on (Ref_Alias "x")].
Proof.
  assert (Forall (fun a => is_command a = true)
    [switch_on (Ref_Alias "x"); switch_on (Ref_Alias "y"); switch_on (Ref_Alias "x")]) as Hs
    by (repeat constructor).
  exact (proj1 (reduction_spec [switch_on (Ref_Alias "x"); switch_on (Ref_Alias "y");
    switch_on (Ref_Alias "x")] (Do_Delay 5) [switch_on (Ref_Alias "x")] Hs eq_refl)).
Defined.

(** ** Fuel *)

Section Fuel.
Context `{SerdeJson} `{Calendar}.
Context (document : AutomationDocument) (snapshot : FoundationSnapshot).

Abbreviation CompileAction := (AutomationAction -> option AutomationPlanNodeId -> string -> N ->
  option N -> Comp (option AutomationPlanNodeId)).

(** The same result on actions up to a height. *)
Definition agree (n : nat) (f g : CompileAction) : Prop :=
  forall action next path depth segment c, action_height action <= n ->
    f action next path depth segment c = g action next path depth segment c.

Lemma bind_ext {A B} (m m' : Comp A) (k k' : A -> Comp B) c :
  m c = m' c -> (forall a c, k a c = k' a c) -> comp_bind m k c = comp_bind m' k' c.
Proof. intros Hm Hk. unfold comp_bind. rewrite Hm. destruct (m' c). apply Hk. Qed.

Context (n : nat) (f g : CompileAction).
Hypothesis Hfg : agree n f g.

Lemma agree_reversed index actions segments next path depth c :
  list_height action_height actions <= n ->
  compile_reversed f index actions segments next path depth c =
  compile_reversed g index actions segments next path depth c.
Proof.
  rewrite list_height_le. intros Hall. revert index segments c.
  induction Hall as [|a actions Ha _ IH]; intros index segments c; [done|]. simpl.
  destruct segments as [|segment segments]; [done|]. apply bind_ext; [apply IH|].
  intros following c'. by apply Hfg.
Qed.

Lemma agree_actions actions next path depth c :
  list_height action_height actions <= n ->
  compile_actions document f (reduce_actions actions) next path depth c =
  compile_actions document g (reduce_actions actions) next path depth c.
Proof.
  intros Hn. unfold compile_actions. case_match; [done|]. apply bind_ext; [done|].
  intros segments c'. apply agree_reversed. pose proof (reduce_height actions). lia.
Qed.

Lemma agree_failure policy next path depth c :
  failure_height policy <= n ->
  compile_failure document f policy next path depth c =
  compile_failure document g policy next path depth c.
Proof.
  destruct policy; simpl; try done. intros Hn. apply bind_ext; [done|]. intros _ c'.
  apply bind_ext; [by apply agree_actions | done].
Qed.

Lemma agree_branches index branches join path depth c :
  list_height (list_height action_height) branches <= n ->
  compile_branches document f index branches join path depth c =
  compile_branches document g index branches join path depth c.
Proof.
  rewrite list_height_le. intros Hall. revert index c.
  induction Hall as [|branch branches Hb _ IH]; intros index c; [done|]. simpl.
  apply bind_ext; [done|]. intros _ c'. apply bind_ext; [by apply agree_actions|].
  intros entry c2. apply bind_ext; [apply IH | done].
Qed.

Lemma agree_group branches maximum next path depth race c :
  list_height (list_height action_height) branches <= n ->
  compile_group document f branches maximum next path depth race c =
  compile_group document g branches maximum next path depth race c.
Proof.
  intros Hn. unfold compile_group. do 3 (apply bind_ext; [done|]; intros ? ?).
  apply bind_ext; [by apply agree_branches | done].
Qed.
End Fuel.

Section Enough.
Context `{SerdeJson} `{Calendar}.

(** The height of an action is enough fuel: with more fuel its compilation
    gives the same nodes, findings and result, so the recursion of the compiler
    is never cut off. *)
Theorem compile_action_fuel document snapshot action fuel :
  action_height action <= fuel ->
  forall next path depth segment c,
    compile_action document snapshot fuel action next path depth segment c =
    compile_action document snapshot (action_height action) action next path depth segment c.
Proof.
  assert (forall n fuel, n <= fuel ->
    agree n (compile_action document snapshot fuel) (compile_action document snapshot n)) as Hall.
  { induction n as [|n IH]; intros m Hm a next path depth segment c Ha; [destruct a; simpl in Ha; lia|].
    destruct m as [|m]; [lia|]. specialize (IH m ltac:(lia)).
    destruct a; simpl in *.
    - do 4 (apply bind_ext; [done|]; intros ? ?). apply bind_ext; [done|]. intros targets c'.
      apply bind_ext; [by eapply agree_failure; [exact IH | lia] | done].
    - done.
    - do 2 (apply bind_ext; [done|]; intros ? ?).
      apply bind_ext; [by eapply agree_failure; [exact IH | lia] | done].
    - done.
    - eapply agree_actions; [exact IH | lia].
    - do 2 (apply bind_ext; [done|]; intros ? ?).
      apply bind_ext; [eapply agree_actions; [exact IH | lia]|]. intros ? ?.
      apply bind_ext; [eapply agree_actions; [exact IH | lia] | done].
    - apply bind_ext; [eapply agree_group; [exact IH | lia] | done].
    - apply bind_ext; [eapply agree_group; [exact IH | lia] | done]. }
  intros Hle next path depth segment c. by apply Hall.
Qed.
End Enough.

#[local] Existing Instance integer_json.

Lemma compile_action_fuel_witness :
  compile_action hall_document hall 7 (Do_Sequence [switch_on (Ref_Space "hall")]) (Some 0%N) "/actions/0"
    1 None new_compiler =
  compile_action hall_document hall 2 (Do_Sequence [switch_on (Ref_Space "hall")]) (Some 0%N) "/actions/0"
    1 None new_compiler.
Proof.
  exact (compile_action_fuel hall_document hall (Do_Sequence [switch_on (Ref_Space "hall")]) 7
    ltac:(apply Nat.leb_le; reflexivity) (Some 0%N) "/actions/0"%string 1%N None new_compiler).
Defined.
