(* ===== verification/AutomationRuntime.v ===== *)
(** The durable interpreter of automation plans,
    [crates/homemagic-application/src/automation_runtime.rs]: one step of a run as
    a program over the operations it awaits.  Its command path is one
    operation of it, [Rt_execute], the call of the command service. *)

From S2P Require Import Prelude Text BTree AutomationEvaluator Json Capability Lifecycle Device Command Policy MatterState CommandStore MatterStore Effects CommandService MatterOperation Automation Identity AutomationStore AutomationCompiler.

Definition RECOVERY_PAGE : nat := 1000.

Inductive AutomationRuntimeStep := Rs_Advanced | Rs_Waiting | Rs_Completed | Rs_NoWork.
#[export] Instance AutomationRuntimeStep_eq_dec : EqDecision AutomationRuntimeStep.
Proof. solve_decision. Defined.

Inductive AutomationRuntimeError :=
| Rte_Repository (error : BoxError)
| Rte_Foundation (error : BoxError)
| Rte_InvalidPlan
| Rte_Evaluation (error : AutomationEvaluationError)
| Rte_DurationOverflow
| Rte_BudgetExceeded
| Rte_CommandPathUnavailable
| Rte_CommandActorUnavailable
| Rte_Command (error : CommandServiceError)
| Rte_InvalidIdempotencyKey.

Record CommandNode := mk_command_node {
  cno_node_id : AutomationPlanNodeId;
  cno_targets : list ResolvedAutomationTarget;
  cno_payload : CommandPayload;
  cno_retry : AutomationRetryPolicy;
  cno_on_failure : AutomationPlanFailurePolicy;
  cno_following : option AutomationPlanNodeId;
  cno_maximum_run_duration_ms : N
}.

Record CommandRetryPlan := mk_retry_plan {
  crp_target_indices : list N;
  crp_command_ids : list CommandId;
  crp_ready_at : Instant
}.

Inductive RuntimeDurationRequest :=
| Drq_Start (duration : AutomationConditionDuration) (timer : AutomationTimer)
| Drq_Pending
| Drq_Mature (condition_hash : AutomationContentHash) (timer : AutomationTimer).

Record PreparedRuntimeCondition := mk_prepared {
  pc_value : bool;
  pc_durations : list AutomationConditionDuration;
  pc_reset_timers : list AutomationTimer;
  pc_active_timers : list AutomationTimer
}.

Inductive RuntimeConditionResult :=
| Rcr_Resolved (prepared : PreparedRuntimeCondition)
| Rcr_Waiting.

(** ** Fields of a run *)

Definition with_state (run : AutomationRun) v :=
  mk_run (ru_id run) (ru_automation_id run) (ru_version run) (ru_occurrence_id run) (ru_actor_id run)
    v (ru_revision run) (ru_node_id run) (ru_variables run) (ru_command_ids run)
    (ru_command_attempt run) (ru_condition_durations run) (ru_continuations run)
    (ru_correlation_id run) (ru_causation_event_id run) (ru_created_at run) (ru_updated_at run).
Definition with_node (run : AutomationRun) v :=
  mk_run (ru_id run) (ru_automation_id run) (ru_version run) (ru_occurrence_id run) (ru_actor_id run)
    (ru_state run) (ru_revision run) v (ru_variables run) (ru_command_ids run)
    (ru_command_attempt run) (ru_condition_durations run) (ru_continuations run)
    (ru_correlation_id run) (ru_causation_event_id run) (ru_created_at run) (ru_updated_at run).
Definition with_variables (run : AutomationRun) v :=
  mk_run (ru_id run) (ru_automation_id run) (ru_version run) (ru_occurrence_id run) (ru_actor_id run)
    (ru_state run) (ru_revision run) (ru_node_id run) v (ru_command_ids run)
    (ru_command_attempt run) (ru_condition_durations run) (ru_continuations run)
    (ru_correlation_id run) (ru_causation_event_id run) (ru_created_at run) (ru_updated_at run).
Definition with_command_ids (run : AutomationRun) v :=
  mk_run (ru_id run) (ru_automation_id run) (ru_version run) (ru_occurrence_id run) (ru_actor_id run)
    (ru_state run) (ru_revision run) (ru_node_id run) (ru_variables run) v
    (ru_command_attempt run) (ru_condition_durations run) (ru_continuations run)
    (ru_correlation_id run) (ru_causation_event_id run) (ru_created_at run) (ru_updated_at run).
Definition with_attempt (run : AutomationRun) v :=
  mk_run (ru_id run) (ru_automation_id run) (ru_version run) (ru_occurrence_id run) (ru_actor_id run)
    (ru_state run) (ru_revision run) (ru_node_id run) (ru_variables run) (ru_command_ids run)
    v (ru_condition_durations run) (ru_continuations run)
    (ru_correlation_id run) (ru_causation_event_id run) (ru_created_at run) (ru_updated_at run).
Definition with_durations (run : AutomationRun) v :=
  mk_run (ru_id run) (ru_automation_id run) (ru_version run) (ru_occurrence_id run) (ru_actor_id run)
    (ru_state run) (ru_revision run) (ru_node_id run) (ru_variables run) (ru_command_ids run)
    (ru_command_attempt run) v (ru_continuations run)
    (ru_correlation_id run) (ru_causation_event_id run) (ru_created_at run) (ru_updated_at run).
Definition with_continuations (run : AutomationRun) v :=
  mk_run (ru_id run) (ru_automation_id run) (ru_version run) (ru_occurrence_id run) (ru_actor_id run)
    (ru_state run) (ru_revision run) (ru_node_id run) (ru_variables run) (ru_command_ids run)
    (ru_command_attempt run) (ru_condition_durations run) v
    (ru_correlation_id run) (ru_causation_event_id run) (ru_created_at run) (ru_updated_at run).

(** A clone with the next revision and the update time. *)
Definition checkpoint (run : AutomationRun) (now : Instant) : AutomationRun :=
  mk_run (ru_id run) (ru_automation_id run) (ru_version run) (ru_occurrence_id run) (ru_actor_id run)
    (ru_state run) (u64_saturating_add (ru_revision run) 1) (ru_node_id run) (ru_variables run)
    (ru_command_ids run) (ru_command_attempt run) (ru_condition_durations run) (ru_continuations run)
    (ru_correlation_id run) (ru_causation_event_id run) (ru_created_at run) now.

(** The last element of a vector, and those before it. *)
Fixpoint split_last {A : Type} (l : list A) : option (list A * A) :=
  match l with
  | [] => None
  | [a] => Some ([], a)
  | a :: l => match split_last l with Some (init, last) => Some (a :: init, last) | None => None end
  end.

Definition with_timer_state (timer : AutomationTimer) (state : AutomationTimerState) : AutomationTimer :=
  mk_timer (tm_id timer) (tm_run_id timer) (tm_node_id timer) (tm_kind timer) (tm_ready_at timer) state.

Definition cancel_timer (timer : AutomationTimer) : AutomationTimer :=
  match tm_state timer with
  | Tm_Pending | Tm_Ready => with_timer_state timer Tm_Cancelled
  | _ => timer
  end.

(** The run after a failure, and the result of its step. *)
Definition apply_failure (run : AutomationRun) (policy : AutomationPlanFailurePolicy)
  (following : option AutomationPlanNodeId) : AutomationRun * AutomationRuntimeStep :=
  match policy with
  | Pf_Continue => (with_node (with_state run Run_Running) following, Rs_Advanced)
  | Pf_Fallback entry =>
      (with_node (with_state run Run_Running)
         (match entry with Some entry => Some entry | None => following end), Rs_Advanced)
  | Pf_StopRun => (with_node (with_state run Run_Failed) None, Rs_Completed)
  | Pf_StopBranch =>
      match split_last (ru_continuations run) with
      | Some (outer, frame) =>
          (with_node (with_state (with_continuations run
             (outer ++ [mk_continuation (cn_group_node_id frame) (cn_kind frame)
                          (cn_join_node_id frame) (cn_remaining_branches frame) true
                          (cn_maximum_parallel frame)])) Run_Running)
             (Some (cn_join_node_id frame)), Rs_Advanced)
      | None => (with_node (with_state run Run_Failed) None, Rs_Completed)
      end
  end.

Definition details (values : list (string * AutomationValue)) : list (string * AutomationValue) :=
  bcollect values.

(** [serde_json] names of the command states. *)
Definition command_state_name (state : CommandState) : string :=
  match state with
  | Cs_Received => "received"
  | Cs_Validated => "validated"
  | Cs_Rejected => "rejected"
  | Cs_Dispatched => "dispatched"
  | Cs_Acknowledged => "acknowledged"
  | Cs_Confirmed => "confirmed"
  | Cs_Failed => "failed"
  | Cs_TimedOut => "timed_out"
  | Cs_Cancelled => "cancelled"
  end.

(** [join(",")]. *)
Fixpoint comma_join (parts : list string) : string :=
  match parts with
  | [] => ""
  | [part] => part
  | part :: parts => part +:+ "," +:+ comma_join parts
  end.

(** [Option::unwrap_or] over a conversion into [i64]. *)
Definition i64_or_max (value : option Z) : Z := default i64_max value.

Section TraceStep.
Context `{Uuids}.

Definition trace_step (run : AutomationRun) (sequence : N) (node_id : option AutomationPlanNodeId)
  (kind : AutomationTraceKind) (details : list (string * AutomationValue)) (occurred_at : Instant) :
  AutomationTraceStep :=
  mk_trace_step (AutomationTraceId.from_run_sequence (ru_id run) sequence) (ru_id run) sequence node_id
    kind details occurred_at (ru_correlation_id run) (ru_causation_event_id run).

(** The idempotency key of a command: the run, the node, the target and the attempt. *)
Definition command_key (run_id : AutomationRunId) (node_id : N) (target_index attempt : N) : string :=
  "automation:" +:+ colon_join [run_id; show_N node_id; show_N target_index; show_N attempt].

Definition timer_of (run : AutomationRun) (node_id : N) (kind : AutomationTimerKind)
  (ready_at : Instant) : AutomationTimer :=
  mk_timer (AutomationTimerId.from_scoped_key (ru_id run) node_id (AutomationTimerKind.scope_key kind)
              (timestamp_millis ready_at))
    (ru_id run) node_id kind ready_at Tm_Pending.
End TraceStep.

(** ** Retries *)

(** The loop over the commands of an attempt: [None] where a failure may not be
    retried, else the targets and commands to retry and the latest failure. *)
Fixpoint retry_targets (codes : list CommandErrorCode) (commands : list (N * CommandAggregate))
  (latest : option Instant) : option (list N * list CommandId * option Instant) :=
  match commands with
  | [] => Some ([], [], latest)
  | (target_index, command) :: commands =>
      if bool_decide (ca_state command = Cs_Confirmed) then retry_targets codes commands latest
      else failure ← ca_failure command;
           if bool_decide (cf_code failure ∈ codes) then
             '(targets, ids, latest) ← retry_targets codes commands
               (Some (match latest with
                      | Some current => Z.max current (ca_updated_at command)
                      | None => ca_updated_at command
                      end));
             Some (target_index :: targets, ce_id (ca_envelope command) :: ids, latest)
           else None
  end.

Definition retry_plan `{Chrono} (attempt : N) (target_indices : list N) (commands : list CommandAggregate)
  (policy : AutomationRetryPolicy) : result (option CommandRetryPlan) AutomationRuntimeError :=
  if N.leb (rp_maximum_retries policy) attempt
     || negb (length target_indices =? length commands) then Ok None
  else match retry_targets (rp_retryable_command_errors policy) (zip target_indices commands) None with
       | None | Some (_, _, None) => Ok None
       | Some (targets, ids, Some latest) =>
           let? milliseconds := ok_or (i64_try_from_u64 (rp_backoff_ms policy)) Rte_DurationOverflow in
           let? ready_at := ok_or (checked_add_signed latest (delta_millis milliseconds))
                              Rte_DurationOverflow in
           Ok (Some (mk_retry_plan targets ids ready_at))
       end.

(** ** Evaluation over a registry snapshot *)

Section Runtime.
Context `{SerdeJson} `{Calendar} `{Sha256} `{AutomationEncoding} `{Uuids} `{Chrono}.

Definition json_value (value : Json) : option AutomationValue :=
  match value with
  | JNull => Some Val_Null
  | JBool value => Some (Val_Boolean value)
  | JNumber value =>
      match number_as_i64 value with
      | Some value => Some (Val_Integer value)
      | None => Some (Val_Decimal (number_to_string value))
      end
  | JString value => Some (Val_String value)
  | JArray _ | JObject _ => None
  end.

Record RuntimeEvaluationContext := mk_context {
  rec_now : Instant;
  rec_snapshot : FoundationSnapshot;
  rec_run_id : option AutomationRunId;
  rec_node_id : option AutomationPlanNodeId;
  rec_durations : list AutomationConditionDuration;
  rec_timers : option (list (string * AutomationTimer));
  rec_request : option RuntimeDurationRequest;
  rec_invalid_durations : list AutomationContentHash
}.

Definition stateless (now : Instant) (snapshot : FoundationSnapshot) : RuntimeEvaluationContext :=
  mk_context now snapshot None None [] None None [].

Definition with_request (c : RuntimeEvaluationContext) v :=
  mk_context (rec_now c) (rec_snapshot c) (rec_run_id c) (rec_node_id c) (rec_durations c)
    (rec_timers c) (Some v) (rec_invalid_durations c).
Definition with_invalid (c : RuntimeEvaluationContext) hash :=
  mk_context (rec_now c) (rec_snapshot c) (rec_run_id c) (rec_node_id c) (rec_durations c)
    (rec_timers c) (rec_request c) (hash :: rec_invalid_durations c).

Definition observation (c : RuntimeEvaluationContext) (target : ResolvedAutomationTarget)
  (field : string) : option AutomationValue :=
  found ← List.find (fun observation =>
      String.eqb (co_device_id observation) (rt_device_id target)
      && String.eqb (co_endpoint_id observation) (rt_endpoint_id target)
      && String.eqb (CapabilityDescriptor.schema (co_capability observation)) (rt_capability target))
    (fs_observations (rec_snapshot c));
  observed ← bget field (co_values found);
  json_value (ov_value observed).

Definition has_hash (hash : AutomationContentHash) (duration : AutomationConditionDuration) : bool :=
  bool_decide (cdu_condition_hash duration = hash).

(** A condition that turned true: its first stored interval decides, or a new
    interval is requested. *)
Definition held_duration (run_id : AutomationRunId) (node_id : N) (hash : AutomationContentHash)
  (duration_ms : N) (c : RuntimeEvaluationContext) :
  result bool AutomationEvaluationError * RuntimeEvaluationContext :=
  match List.find (has_hash hash) (rec_durations c) with
  | Some duration =>
      match cdu_phase duration with
      | Dur_Mature => (Ok true, c)
      | Dur_Pending =>
          match timers ← rec_timers c; bget (cdu_timer_id duration) timers with
          | None => (Err Eve_DurationTimerMissing, c)
          | Some timer =>
              match tm_state timer with
              | Tm_Pending => (Err Eve_DurableDurationRequired, with_request c Drq_Pending)
              | Tm_Ready => (Err Eve_DurableDurationRequired, with_request c (Drq_Mature hash timer))
              | Tm_Consumed | Tm_Cancelled => (Err Eve_DurationTimerMissing, c)
              end
          end
      end
  | None =>
      match i64_try_from_u64 duration_ms with
      | None => (Err Eve_DurationOverflow, c)
      | Some milliseconds =>
          match checked_add_signed (rec_now c) (delta_millis milliseconds) with
          | None => (Err Eve_DurationOverflow, c)
          | Some ready_at =>
              let timer_id := AutomationTimerId.from_scoped_key run_id node_id
                (AutomationTimerKind.scope_key Tk_StateDuration) (timestamp_millis ready_at) in
              (Err Eve_DurableDurationRequired,
               with_request c (Drq_Start
                 (mk_duration node_id hash duration_ms ready_at timer_id Dur_Pending)
                 (mk_timer timer_id run_id node_id Tk_StateDuration ready_at Tm_Pending)))
          end
      end
  end.

Definition state_duration
  (evaluate : RuntimeEvaluationContext ->
     result bool AutomationEvaluationError * RuntimeEvaluationContext)
  (condition : ResolvedAutomationCondition) (duration_ms : N) (c : RuntimeEvaluationContext) :
  result bool AutomationEvaluationError * RuntimeEvaluationContext :=
  match rec_node_id c, rec_run_id c with
  | Some node_id, Some run_id =>
      match canonical_automation_hash (encode_timed_condition (condition, duration_ms)) with
      | Err _ => (Err Eve_ConditionHash, c)
      | Ok hash =>
          match evaluate c with
          | (Err error, c) => (Err error, c)
          | (Ok false, c) => (Ok false, with_invalid c hash)
          | (Ok true, c) => held_duration run_id node_id hash duration_ms c
          end
      end
  | _, _ => (Err Eve_DurableDurationRequired, c)
  end.

#[export] Instance runtime_context : AutomationEvaluationContext RuntimeEvaluationContext :=
  {| ctx_now := rec_now; ctx_observation := observation; ctx_state_duration := state_duration |}.

(** ** Awaited operations *)

Inductive RtOp :=
| Rt_automation_run (id : AutomationRunId)
| Rt_automation_identity (id : AutomationId)
| Rt_automation_version (id : AutomationId) (version : AutomationVersion)
| Rt_automation_trace (run_id : AutomationRunId) (after_sequence : option N) (limit : nat)
| Rt_automation_timer (id : AutomationTimerId)
| Rt_recoverable_automation_work (limit : nat)
| Rt_commit_automation_step (write : AutomationStepWrite)
| Rt_load
| Rt_now
| Rt_actor_security (actor_id : ActorId)
| Rt_execute (actor : Actor) (request : CommandRequest) (now : Instant)
| Rt_get (actor_id : ActorId) (command_id : CommandId).

Definition rt_resp (op : RtOp) : Type :=
  match op with
  | Rt_automation_run _ => result (option AutomationRun) BoxError
  | Rt_automation_identity _ => result (option AutomationIdentityState) BoxError
  | Rt_automation_version _ _ => result (option StoredAutomationVersion) BoxError
  | Rt_automation_trace _ _ _ => result (list AutomationTraceStep) BoxError
  | Rt_automation_timer _ => result (option AutomationTimer) BoxError
  | Rt_recoverable_automation_work _ => result AutomationRecovery BoxError
  | Rt_commit_automation_step _ => result unit BoxError
  | Rt_load => result FoundationSnapshot BoxError
  | Rt_now => Instant
  | Rt_actor_security _ => result (option ActorSecurity) BoxError
  | Rt_execute _ _ _ => result CommandAggregate CommandServiceError
  | Rt_get _ _ => result (option CommandAggregate) CommandServiceError
  end.

Abbreviation RtProg A := (Prog rt_resp (result A AutomationRuntimeError)).

(** [.await.map_err(wrap)?]. *)
Definition rt_call {A E : Type} (m : Prog rt_resp (result A E)) (wrap : E -> AutomationRuntimeError) :
  RtProg A :=
  let! r := m in Ret (map_err wrap r).

(** [self.clock.now()]. *)
Definition with_now {A : Type} (k : Instant -> RtProg A) : RtProg A :=
  let! now := perform Rt_now in k now.

Definition fail_with {A : Type} (error : AutomationRuntimeError) : RtProg A := Ret (Err error).

(** [.ok_or(error)?]. *)
Definition or_fail {A B : Type} (value : option A) (error : AutomationRuntimeError)
  (k : A -> RtProg B) : RtProg B :=
  match value with Some value => k value | None => fail_with error end.

Definition commit (run : AutomationRun) (expected_run_revision : N) (trace : list AutomationTraceStep)
  (create_timers transition_timers : list AutomationTimer) : RtProg unit :=
  rt_call (perform (Rt_commit_automation_step
    (mk_step_write run expected_run_revision trace create_timers transition_timers))) Rte_Repository.

(** One trace row for the new run, stamped by a second reading of the clock, then
    the commit, then the result of the step. *)
Definition commit_traced (next run : AutomationRun) (sequence : N) (node_id : option N)
  (kind : AutomationTraceKind) (values : list (string * AutomationValue))
  (create_timers transition_timers : list AutomationTimer) {A : Type} (result_ : A) : RtProg A :=
  with_now (fun now =>
    try! _ := commit next (ru_revision run) [trace_step next sequence node_id kind (details values) now]
                create_timers transition_timers in
    Ret (Ok result_)).

(** ** Groups *)

Definition enter_group (run : AutomationRun) (node_id : N) (branches : list AutomationPlanNodeId)
  (maximum_parallel : N) (join : option AutomationPlanNodeId)
  (kind : AutomationRunContinuationKind) (sequence : N) : RtProg AutomationRuntimeStep :=
  match branches with
  | [] => fail_with Rte_InvalidPlan
  | first :: remaining =>
      or_fail join Rte_InvalidPlan (fun join_node_id =>
      with_now (fun now =>
        let next := with_continuations (with_node (checkpoint run now) (Some first))
          (ru_continuations run
           ++ [mk_continuation node_id kind join_node_id remaining false maximum_parallel]) in
        commit_traced next run sequence (Some node_id) Tr_Branch
          [("event"%string, Val_String "group_started");
           ("branches"%string, Val_Integer (i64_or_max
              (if Z.leb (Z.of_nat (length branches)) i64_max
               then Some (Z.of_nat (length branches)) else None)))] [] [] Rs_Advanced))
  end.

(** The run behind a join, the event of its trace and the result of the step. *)
Definition join_run (next : AutomationRun) (node_id : N) (following : option AutomationPlanNodeId) :
  AutomationRun * string * AutomationRuntimeStep :=
  match split_last (ru_continuations next) with
  | Some (outer, frame) =>
      if N.eqb (cn_join_node_id frame) node_id then
        let success := negb (cn_current_branch_failed frame) in
        let race := bool_decide (cn_kind frame = Ck_Race) in
        if race && success then
          (with_node (with_continuations next outer) following, "race_won"%string, Rs_Advanced)
        else match cn_remaining_branches frame with
             | branch :: remaining =>
                 (with_node (with_continuations next
                    (outer ++ [mk_continuation (cn_group_node_id frame) (cn_kind frame)
                                 (cn_join_node_id frame) remaining false (cn_maximum_parallel frame)]))
                    (Some branch), "next_branch"%string, Rs_Advanced)
             | [] =>
                 if race && negb success then
                   (with_node (with_state (with_continuations next outer) Run_Failed) None,
                    "race_failed"%string, Rs_Completed)
                 else
                   (with_node (with_continuations next outer) following, "group_completed"%string,
                    Rs_Advanced)
             end
      else (with_node next following, "join"%string, Rs_Advanced)
  | None => (with_node next following, "join"%string, Rs_Advanced)
  end.

Definition step_join (run : AutomationRun) (node_id : N) (following : option AutomationPlanNodeId)
  (sequence : N) : RtProg AutomationRuntimeStep :=
  with_now (fun now =>
    let '(next, event, outcome) := join_run (checkpoint run now) node_id following in
    commit_traced next run sequence (Some node_id) Tr_Branch [("event"%string, Val_String event)] [] []
      outcome).

(** ** Conditions *)

Definition is_pending_at (node_id : N) (duration : AutomationConditionDuration) : bool :=
  N.eqb (cdu_node_id duration) node_id && bool_decide (cdu_phase duration = Dur_Pending).

(** The timers of the pending intervals of a node, by identity. *)
Fixpoint load_timers (durations : list AutomationConditionDuration)
  (timers : list (string * AutomationTimer)) : RtProg (list (string * AutomationTimer)) :=
  match durations with
  | [] => Ret (Ok timers)
  | duration :: durations =>
      try! found := rt_call (perform (Rt_automation_timer (cdu_timer_id duration))) Rte_Repository in
      or_fail found Rte_InvalidPlan (fun timer =>
        load_timers durations (binsert (tm_id timer) timer timers))
  end.

(** [iter_mut().find]: changes the first element that satisfies [p]. *)
Fixpoint update_first {A : Type} (p : A -> bool) (f : A -> A) (l : list A) : option (list A) :=
  match l with
  | [] => None
  | a :: l => if p a then Some (f a :: l) else l ← update_first p f l; Some (a :: l)
  end.

Definition mature (duration : AutomationConditionDuration) : AutomationConditionDuration :=
  mk_duration (cdu_node_id duration) (cdu_condition_hash duration) (cdu_duration_ms duration)
    (cdu_ready_at duration) (cdu_timer_id duration) Dur_Mature.

(** What a request makes of the waiting run: its intervals, the timers to create
    and to move, and the event. *)
Definition apply_request (request : RuntimeDurationRequest)
  (durations : list AutomationConditionDuration) (reset_timers : list AutomationTimer) :
  option (list AutomationConditionDuration * list AutomationTimer * list AutomationTimer * string) :=
  match request with
  | Drq_Start duration timer =>
      Some (durations ++ [duration], [timer], reset_timers, "state_duration_started"%string)
  | Drq_Pending => Some (durations, [], reset_timers, "state_duration_reset"%string)
  | Drq_Mature hash timer =>
      durations ← update_first (has_hash hash) mature durations;
      Some (durations, [], reset_timers ++ [with_timer_state timer Tm_Consumed],
            "state_duration_matured"%string)
  end.

Definition is_reset (durations : list AutomationConditionDuration)
  (invalid : list AutomationContentHash) (timer : AutomationTimer) : bool :=
  existsb (fun duration => String.eqb (cdu_timer_id duration) (tm_id timer)
                           && bool_decide (cdu_condition_hash duration ∈ invalid)) durations.

Definition evaluate_runtime_condition (run : AutomationRun) (node_id : N)
  (condition : ResolvedAutomationCondition) (sequence : N) : RtProg RuntimeConditionResult :=
  try! snapshot := rt_call (perform Rt_load) Rte_Foundation in
  try! timers := load_timers (List.filter (is_pending_at node_id) (ru_condition_durations run)) [] in
  with_now (fun now =>
    let context := mk_context now snapshot (Some (ru_id run)) (Some node_id)
      (ru_condition_durations run) (Some timers) None [] in
    let '(evaluated, context) := evaluate_automation_condition condition (ru_variables run) context in
    let invalid := rec_invalid_durations context in
    let durations := List.filter (fun duration =>
      negb (bool_decide (cdu_condition_hash duration ∈ invalid))) (ru_condition_durations run) in
    let reset_timers := map cancel_timer
      (List.filter (is_reset (ru_condition_durations run) invalid) (map snd timers)) in
    let active_timers := List.filter (fun timer =>
      negb (existsb (fun reset => String.eqb (tm_id reset) (tm_id timer)) reset_timers))
      (map snd timers) in
    match evaluated with
    | Ok value => Ret (Ok (Rcr_Resolved (mk_prepared value durations reset_timers active_timers)))
    | Err Eve_DurableDurationRequired =>
        or_fail (rec_request context) Rte_InvalidPlan (fun request =>
          match request, reset_timers with
          | Drq_Pending, [] => Ret (Ok Rcr_Waiting)
          | _, _ =>
              with_now (fun now =>
                or_fail (apply_request request durations reset_timers) Rte_InvalidPlan
                  (fun '(durations, create_timers, transition_timers, event) =>
                    let next := with_durations (with_state (checkpoint run now) Run_Waiting) durations in
                    commit_traced next run sequence (Some node_id) Tr_Timer
                      [("event"%string, Val_String event)] create_timers transition_timers Rcr_Waiting))
          end)
    | Err error => fail_with (Rte_Evaluation error)
    end).

(** The intervals of other nodes. *)
Definition drop_durations (node_id : N) (run : AutomationRun) : AutomationRun :=
  with_durations run (List.filter (fun duration => negb (N.eqb (cdu_node_id duration) node_id))
    (ru_condition_durations run)).

Definition step_branch (run : AutomationRun) (node_id : N) (condition : ResolvedAutomationCondition)
  (then_node else_node join : option AutomationPlanNodeId) (sequence : N) :
  RtProg AutomationRuntimeStep :=
  try! outcome := evaluate_runtime_condition run node_id condition sequence in
  match outcome with
  | Rcr_Waiting => Ret (Ok Rs_Waiting)
  | Rcr_Resolved prepared =>
      with_now (fun now =>
        let selected := if pc_value prepared then then_node else else_node in
        let next := drop_durations node_id (with_node (with_state (checkpoint run now) Run_Running)
          (match selected with Some selected => Some selected | None => join end)) in
        commit_traced next run sequence (Some node_id) Tr_Branch
          [("then"%string, Val_Boolean (pc_value prepared))] []
          (pc_reset_timers prepared ++ map cancel_timer (pc_active_timers prepared)) Rs_Advanced)
  end.

(** ** Delays and waits *)

Definition is_timer_of (run : AutomationRun) (node_id : N) (kind : AutomationTimerKind)
  (timer : AutomationTimer) : bool :=
  String.eqb (tm_run_id timer) (ru_id run) && N.eqb (tm_node_id timer) node_id
  && bool_decide (tm_kind timer = kind).

(** A run that reached the node creates its timer and waits. *)
Definition start_timer (run : AutomationRun) (node_id : N) (kind : AutomationTimerKind)
  (milliseconds : N) (sequence : N) (values : list (string * AutomationValue)) :
  RtProg AutomationRuntimeStep :=
  or_fail (i64_try_from_u64 milliseconds) Rte_DurationOverflow (fun milliseconds =>
  with_now (fun now =>
  or_fail (checked_add_signed now (delta_millis milliseconds)) Rte_DurationOverflow (fun ready_at =>
  with_now (fun now =>
    commit_traced (with_state (checkpoint run now) Run_Waiting) run sequence (Some node_id) Tr_Timer
      values [timer_of run node_id kind ready_at] [] Rs_Waiting)))).

(** The node's timer among the recoverable ones. *)
Definition find_timer (run : AutomationRun) (node_id : N) (kind : AutomationTimerKind) :
  RtProg AutomationTimer :=
  try! recovery := rt_call (perform (Rt_recoverable_automation_work RECOVERY_PAGE)) Rte_Repository in
  or_fail (List.find (is_timer_of run node_id kind) (rcv_timers recovery)) Rte_InvalidPlan
    (fun timer => Ret (Ok timer)).

Definition step_wait (run : AutomationRun) (node_id : N) (condition : ResolvedAutomationCondition)
  (timeout_ms : N) (on_timeout : AutomationPlanFailurePolicy)
  (following : option AutomationPlanNodeId) (sequence : N) : RtProg AutomationRuntimeStep :=
  if bool_decide (ru_state run = Run_Running) then
    start_timer run node_id Tk_WaitTimeout timeout_ms sequence
      [("event"%string, Val_String "wait_started")]
  else
    try! outcome := evaluate_runtime_condition run node_id condition sequence in
    match outcome with
    | Rcr_Waiting => Ret (Ok Rs_Waiting)
    | Rcr_Resolved prepared =>
        try! timer := find_timer run node_id Tk_WaitTimeout in
        let active := map cancel_timer (pc_active_timers prepared) in
        if pc_value prepared then
          with_now (fun now =>
            let next := drop_durations node_id
              (with_node (with_state (checkpoint run now) Run_Running) following) in
            commit_traced next run sequence (Some node_id) Tr_Condition
              [("result"%string, Val_Boolean true)] []
              (pc_reset_timers prepared ++ active ++ [with_timer_state timer Tm_Cancelled]) Rs_Advanced)
        else if negb (bool_decide (tm_state timer = Tm_Ready)) then
          match pc_reset_timers prepared with
          | [] =>
              if bool_decide (pc_durations prepared = ru_condition_durations run)
              then Ret (Ok Rs_Waiting)
              else with_now (fun now =>
                     commit_traced (with_durations (checkpoint run now) (pc_durations prepared)) run
                       sequence (Some node_id) Tr_Condition [("result"%string, Val_Boolean false)] []
                       [] Rs_Waiting)
          | _ =>
              with_now (fun now =>
                commit_traced (with_durations (checkpoint run now) (pc_durations prepared)) run sequence
                  (Some node_id) Tr_Condition [("result"%string, Val_Boolean false)] []
                  (pc_reset_timers prepared) Rs_Waiting)
          end
        else
          with_now (fun now =>
            let '(next, outcome) :=
              apply_failure (drop_durations node_id (checkpoint run now)) on_timeout following in
            commit_traced next run sequence (Some node_id) Tr_Timer
              [("event"%string, Val_String "wait_timeout")] []
              (pc_reset_timers prepared ++ active ++ [with_timer_state timer Tm_Consumed]) outcome)
    end.

Definition step_delay (run : AutomationRun) (node_id duration_ms : N)
  (following : option AutomationPlanNodeId) (sequence : N) : RtProg AutomationRuntimeStep :=
  if bool_decide (ru_state run = Run_Running) then
    start_timer run node_id Tk_Delay duration_ms sequence
      [("event"%string, Val_String "delay_created");
       ("duration_ms"%string, Val_DurationMillis duration_ms)]
  else
    try! timer := find_timer run node_id Tk_Delay in
    if negb (bool_decide (tm_state timer = Tm_Ready)) then Ret (Ok Rs_Waiting)
    else with_now (fun now =>
      commit_traced (with_node (with_state (checkpoint run now) Run_Running) following) run sequence
        (Some node_id) Tr_Timer [("event"%string, Val_String "delay_ready")] []
        [with_timer_state timer Tm_Consumed] Rs_Advanced).

(** ** Commands *)

Definition is_terminal_command (command : CommandAggregate) : bool :=
  CommandState.is_terminal (ca_state command).

Definition checkpoint_command_result (run : AutomationRun) (node : CommandNode) (sequence attempt : N)
  (target_indices : list N) (commands : list CommandAggregate) (append_command_ids : bool) :
  RtProg AutomationRuntimeStep :=
  guard! length commands =? length target_indices else Rte_InvalidPlan in
  let states := map ca_state commands in
  let command_ids := map (fun command => ce_id (ca_envelope command)) commands in
  with_now (fun now =>
    let next := checkpoint run now in
    let next := if append_command_ids then with_command_ids next (ru_command_ids next ++ command_ids)
                else next in
    let finish next create_timers outcome :=
      commit_traced next run sequence (Some (cno_node_id node)) Tr_Command
        [("attempt"%string, Val_Integer (Z.of_N attempt));
         ("state"%string, Val_String (comma_join (map command_state_name states)))]
        create_timers [] outcome in
    if forallb (fun state => bool_decide (state = Cs_Confirmed)) states then
      finish (with_attempt (with_node (with_state next Run_Running) (cno_following node)) None) []
        Rs_Advanced
    else if existsb (fun state => negb (CommandState.is_terminal state)) states then
      finish (with_attempt (with_state next Run_Waiting)
        (Some (mk_attempt (cno_node_id node) attempt target_indices command_ids At_AwaitingOutcome None)))
        [] Rs_Waiting
    else match retry_plan attempt target_indices commands (cno_retry node) with
         | Err error => fail_with error
         | Ok (Some retry) =>
             finish (with_attempt (with_state next Run_Waiting)
               (Some (mk_attempt (cno_node_id node) attempt (crp_target_indices retry)
                        (crp_command_ids retry) At_Backoff (Some (crp_ready_at retry)))))
               [timer_of run (cno_node_id node) Tk_CommandRetry (crp_ready_at retry)] Rs_Waiting
         | Ok None =>
             let '(next, outcome) :=
               apply_failure (with_attempt next None) (cno_on_failure node) (cno_following node) in
             finish next [] outcome
         end).

(** [0..targets.len()] as [u16]. *)
Fixpoint all_indices (targets : list nat) : option (list N) :=
  match targets with
  | [] => Some []
  | index :: targets =>
      first ← u16_try_from_usize index; rest ← all_indices targets; Some (first :: rest)
  end.

(** The attempt to dispatch and its targets. *)
Definition attempt_targets (run : AutomationRun) (node : CommandNode) : option (N * list N) :=
  match ru_command_attempt run with
  | Some state =>
      if bool_decide (cat_phase state = At_Dispatch)
      then Some (cat_attempt state, cat_target_indices state) else None
  | None => indices ← all_indices (seq 0 (length (cno_targets node))); Some (0%N, indices)
  end.

Definition command_request (run : AutomationRun) (node : CommandNode) (target : ResolvedAutomationTarget)
  (key : IdempotencyKey) (deadline : Instant) : CommandRequest :=
  mk_request (rt_device_id target) (rt_endpoint_id target) (cno_payload node) key deadline None false
    (ru_correlation_id run) (ru_causation_event_id run)
    (Some (mk_causation (ru_automation_id run) (ru_version run) (ru_id run))).

(** The loop that issues the commands of an attempt, one target after the other. *)
Fixpoint execute_targets (actor : Actor) (run : AutomationRun) (node : CommandNode) (attempt : N)
  (deadline : Instant) (target_indices : list N) : RtProg (list CommandAggregate) :=
  match target_indices with
  | [] => Ret (Ok [])
  | target_index :: target_indices =>
      or_fail (cno_targets node !! N.to_nat target_index) Rte_InvalidPlan (fun target =>
        match IdempotencyKey.new (command_key (ru_id run) (cno_node_id node) target_index attempt) with
        | Err _ => fail_with Rte_InvalidIdempotencyKey
        | Ok key =>
            with_now (fun now =>
              try! command := rt_call (perform (Rt_execute actor
                                (command_request run node target key deadline) now)) Rte_Command in
              try! commands := execute_targets actor run node attempt deadline target_indices in
              Ret (Ok (command :: commands)))
        end)
  end.

(** [commands] tells whether command dependencies were configured. *)
Definition dispatch_command_attempt (commands : bool) (run : AutomationRun) (node : CommandNode)
  (sequence : N) : RtProg AutomationRuntimeStep :=
  or_fail (attempt_targets run node) Rte_InvalidPlan (fun '(attempt, target_indices) =>
    match target_indices with
    | [] => fail_with Rte_InvalidPlan
    | _ =>
        guard! commands else Rte_CommandPathUnavailable in
        try! security := rt_call (perform (Rt_actor_security (ru_actor_id run))) Rte_Repository in
        or_fail (as_actor <$> security) Rte_CommandActorUnavailable (fun actor =>
        or_fail (i64_try_from_u64 (cno_maximum_run_duration_ms node)) Rte_DurationOverflow
          (fun milliseconds =>
        or_fail (checked_add_signed (ru_created_at run) (delta_millis milliseconds)) Rte_DurationOverflow
          (fun deadline =>
        try! results := execute_targets actor run node attempt deadline target_indices in
        checkpoint_command_result run node sequence attempt target_indices results true)))
    end).

Fixpoint get_commands (actor_id : ActorId) (command_ids : list CommandId) :
  RtProg (list CommandAggregate) :=
  match command_ids with
  | [] => Ret (Ok [])
  | command_id :: command_ids =>
      try! found := rt_call (perform (Rt_get actor_id command_id)) Rte_Command in
      or_fail found Rte_InvalidPlan (fun command =>
        try! commands := get_commands actor_id command_ids in
        Ret (Ok (command :: commands)))
  end.

Definition load_attempt_commands (commands : bool) (run : AutomationRun) :
  RtProg (list CommandAggregate) :=
  guard! commands else Rte_CommandPathUnavailable in
  or_fail (ru_command_attempt run) Rte_InvalidPlan (fun attempt =>
    guard! length (cat_command_ids attempt) =? length (cat_target_indices attempt)
      else Rte_InvalidPlan in
    get_commands (ru_actor_id run) (cat_command_ids attempt)).

Definition resume_command_backoff (run : AutomationRun) (node : CommandNode) (sequence : N) :
  RtProg AutomationRuntimeStep :=
  or_fail (ru_command_attempt run) Rte_InvalidPlan (fun attempt =>
  or_fail (cat_retry_ready_at attempt) Rte_InvalidPlan (fun ready_at =>
    let timer_id := AutomationTimerId.from_scoped_key (ru_id run) (cno_node_id node)
      (AutomationTimerKind.scope_key Tk_CommandRetry) (timestamp_millis ready_at) in
    try! found := rt_call (perform (Rt_automation_timer timer_id)) Rte_Repository in
    or_fail found Rte_InvalidPlan (fun timer =>
      if negb (bool_decide (tm_state timer = Tm_Ready)) then Ret (Ok Rs_Waiting)
      else with_now (fun now =>
        let next := with_state (with_attempt (checkpoint run now)
          (Some (mk_attempt (cat_node_id attempt) (u16_saturating_add (cat_attempt attempt) 1)
                   (cat_target_indices attempt) [] At_Dispatch None))) Run_Running in
        commit_traced next run sequence (Some (cno_node_id node)) Tr_Timer
          [("event"%string, Val_String "retry_ready")] [] [with_timer_state timer Tm_Consumed]
          Rs_Advanced)))).

Definition step_command (commands : bool) (run : AutomationRun) (node : CommandNode) (sequence : N) :
  RtProg AutomationRuntimeStep :=
  match ru_command_attempt run with
  | None => dispatch_command_attempt commands run node sequence
  | Some attempt =>
      guard! N.eqb (cat_node_id attempt) (cno_node_id node) else Rte_InvalidPlan in
      match cat_phase attempt with
      | At_Backoff => resume_command_backoff run node sequence
      | At_AwaitingOutcome =>
          try! loaded := load_attempt_commands commands run in
          if existsb (fun command => negb (is_terminal_command command)) loaded
          then Ret (Ok Rs_Waiting)
          else checkpoint_command_result run node sequence (cat_attempt attempt)
                 (cat_target_indices attempt) loaded false
      | At_Dispatch => dispatch_command_attempt commands run node sequence
      end
  end.

(** ** The step *)

Definition step_set_variable (run : AutomationRun) (node_id : N) (name : string)
  (value : ResolvedAutomationExpression) (following : option AutomationPlanNodeId) (sequence : N) :
  RtProg AutomationRuntimeStep :=
  try! snapshot := rt_call (perform Rt_load) Rte_Foundation in
  with_now (fun now =>
    match evaluate_automation_expression value (ru_variables run) (stateless now snapshot) with
    | Err error => fail_with (Rte_Evaluation error)
    | Ok value =>
        with_now (fun now =>
          let next := with_node (with_variables (checkpoint run now)
            (binsert name value (ru_variables run))) following in
          commit_traced next run sequence (Some node_id) Tr_Variable
            [("name"%string, Val_String name); ("value"%string, value)] [] [] Rs_Advanced)
    end).

Definition step_complete (run : AutomationRun) (node_id sequence : N) : RtProg AutomationRuntimeStep :=
  with_now (fun now =>
    commit_traced (with_node (with_state (checkpoint run now) Run_Completed) None) run sequence
      (Some node_id) Tr_Outcome [("status"%string, Val_String "completed")] [] [] Rs_Completed).

Definition step_start (run : AutomationRun) (sequence : N) : RtProg AutomationRuntimeStep :=
  with_now (fun now =>
    commit_traced (with_state (checkpoint run now) Run_Running) run sequence None Tr_Trigger
      [("accepted"%string, Val_Boolean true)] [] [] Rs_Advanced).

Definition step_node (commands : bool) (plan : AutomationExecutionPlan) (run : AutomationRun)
  (node : AutomationPlanNode) (sequence : N) : RtProg AutomationRuntimeStep :=
  let node_id := nd_id node in
  match nd_kind node with
  | Node_Complete => step_complete run node_id sequence
  | Node_Delay duration_ms next => step_delay run node_id duration_ms next sequence
  | Node_SetVariable name value next => step_set_variable run node_id name value next sequence
  | Node_Branch condition then_node else_node join =>
      step_branch run node_id condition then_node else_node join sequence
  | Node_Join next => step_join run node_id next sequence
  | Node_Command targets payload _ retry on_failure next =>
      step_command commands run
        (mk_command_node node_id targets payload retry on_failure next
           (bu_maximum_run_duration_ms (pl_budget plan))) sequence
  | Node_Wait condition timeout_ms on_timeout next =>
      step_wait run node_id condition timeout_ms on_timeout next sequence
  | Node_Parallel branches maximum_parallel join =>
      enter_group run node_id branches maximum_parallel join Ck_Parallel sequence
  | Node_Race branches maximum_parallel join =>
      enter_group run node_id branches maximum_parallel join Ck_Race sequence
  end.

Definition find_node (plan : AutomationExecutionPlan) (node_id : N) : option AutomationPlanNode :=
  List.find (fun node => N.eqb (nd_id node) node_id) (pl_nodes plan).

(** The part of a step behind the budget. *)
Definition step_within (commands : bool) (plan : AutomationExecutionPlan) (run : AutomationRun)
  (sequence : N) : RtProg AutomationRuntimeStep :=
  if bool_decide (ru_state run = Run_Pending) then step_start run sequence
  else or_fail (ru_node_id run) Rte_InvalidPlan (fun node_id =>
       or_fail (find_node plan node_id) Rte_InvalidPlan (fun node =>
       step_node commands plan run node sequence)).

(** [step]. *)
Definition step (commands : bool) (run_id : AutomationRunId) : RtProg AutomationRuntimeStep :=
  try! found := rt_call (perform (Rt_automation_run run_id)) Rte_Repository in
  match found with
  | None => Ret (Ok Rs_NoWork)
  | Some run =>
      if AutomationRunState.is_terminal (ru_state run) then Ret (Ok Rs_NoWork)
      else
        try! identity := rt_call (perform (Rt_automation_identity (ru_automation_id run)))
                           Rte_Repository in
        match identity with
        | None => Ret (Ok Rs_NoWork)
        | Some identity =>
            if negb (bool_decide (id_active_version identity = Some (ru_version run)))
            then Ret (Ok Rs_NoWork)
            else
              try! version := rt_call (perform (Rt_automation_version (ru_automation_id run)
                                (ru_version run))) Rte_Repository in
              or_fail version Rte_InvalidPlan (fun version =>
                let plan := sv_plan version in
                let budget := pl_budget plan in
                try! trace := rt_call (perform (Rt_automation_trace (ru_id run) None
                                (S (N.to_nat (bu_maximum_trace_steps budget))))) Rte_Repository in
                guard! negb (N.leb (bu_maximum_trace_steps budget) (N.of_nat (length trace)))
                  else Rte_BudgetExceeded in
                with_now (fun now =>
                  guard! negb (delta_millis (i64_or_max
                                 (i64_try_from_u64 (bu_maximum_run_duration_ms budget)))
                               <? now - ru_created_at run)%Z else Rte_BudgetExceeded in
                  step_within commands plan run (N.of_nat (length trace))))
        end
  end.

End Runtime.
