(* ===== verification/AutomationMoves.v ===== *)
(** The abstract machine the interpreter implements: where a run stands in its
    plan, and the moves its plan allows.  Well-formed plans keep the position
    well-formed, and bound the moves that make progress. *)

From S2P Require Import Prelude Text BTree Json Capability Device Command CommandService Automation AutomationCompiler AutomationPlan AutomationProps AutomationRuntime.

(** ** Control states *)

Record Control := mk_control {
  k_state : AutomationRunState;
  k_node : option AutomationPlanNodeId;
  k_attempt : option (N * N * AutomationCommandAttemptPhase);
  k_stack : list AutomationRunContinuation
}.

Definition control_of (run : AutomationRun) : Control :=
  mk_control (ru_state run) (ru_node_id run)
    ((fun a => (cat_node_id a, cat_attempt a, cat_phase a)) <$> ru_command_attempt run)
    (ru_continuations run).

(** A new run of a plan. *)
Definition initial (plan : AutomationExecutionPlan) : Control :=
  mk_control Run_Pending (Some (pl_entry plan)) None [].

Definition attempt_number (attempt : option (N * N * AutomationCommandAttemptPhase)) : N :=
  match attempt with Some (_, k, _) => k | None => 0 end.

(** Frames with their mutable parts. *)
Definition frame_with (frame : AutomationRunContinuation) (remaining : list AutomationPlanNodeId)
  (failed : bool) : AutomationRunContinuation :=
  mk_continuation (cn_group_node_id frame) (cn_kind frame) (cn_join_node_id frame) remaining failed
    (cn_maximum_parallel frame).

Definition is_race (frame : AutomationRunContinuation) : bool := bool_decide (cn_kind frame = Ck_Race).

(** ** Moves *)

(** Nodes that wait for a timer of their own. *)
Definition timed (kind : AutomationPlanNodeKind) : Prop :=
  match kind with Node_Delay _ _ | Node_Wait _ _ _ _ => True | _ => False end.

(** Nodes that evaluate a condition. *)
Definition conditional (kind : AutomationPlanNodeKind) : Prop :=
  match kind with Node_Branch _ _ _ _ | Node_Wait _ _ _ _ => True | _ => False end.

(** Where a node leads when it succeeds, and whether it resumes a waiting run. *)
Definition successor (kind : AutomationPlanNodeKind) (next : option AutomationPlanNodeId) : Prop :=
  match kind with
  | Node_Delay _ n | Node_Wait _ _ _ n | Node_SetVariable _ _ n => next = n
  | Node_Branch _ then_node else_node join =>
      exists selected, (selected = then_node \/ selected = else_node)
        /\ next = match selected with Some _ => selected | None => join end
  | _ => False
  end.

Definition resumed (kind : AutomationPlanNodeKind) (state : AutomationRunState) : AutomationRunState :=
  match kind with Node_SetVariable _ _ _ => state | _ => Run_Running end.

(** The failure policy of a node and its continuation. *)
Definition failure_of (kind : AutomationPlanNodeKind) :
  option (AutomationPlanFailurePolicy * option AutomationPlanNodeId) :=
  match kind with
  | Node_Command _ _ _ _ on_failure next | Node_Wait _ _ on_failure next => Some (on_failure, next)
  | _ => None
  end.

Inductive failed (policy : AutomationPlanFailurePolicy) (following : option AutomationPlanNodeId)
  (attempt : option (N * N * AutomationCommandAttemptPhase)) :
  list AutomationRunContinuation -> Control -> Prop :=
| Fd_continue stack : policy = Pf_Continue ->
    failed policy following attempt stack (mk_control Run_Running following attempt stack)
| Fd_fallback stack entry : policy = Pf_Fallback entry ->
    failed policy following attempt stack
      (mk_control Run_Running (match entry with Some _ => entry | None => following end) attempt stack)
| Fd_branch outer frame : policy = Pf_StopBranch ->
    failed policy following attempt (outer ++ [frame])
      (mk_control Run_Running (Some (cn_join_node_id frame)) attempt
         (outer ++ [frame_with frame (cn_remaining_branches frame) true]))
| Fd_run stack : policy = Pf_StopRun \/ (policy = Pf_StopBranch /\ stack = []) ->
    failed policy following attempt stack (mk_control Run_Failed None attempt stack).

Definition kind_at (plan : AutomationExecutionPlan) (n : AutomationPlanNodeId) :
  option AutomationPlanNodeKind := nd_kind <$> find_node plan n.

Definition group_kind (kind : AutomationPlanNodeKind) : option AutomationRunContinuationKind :=
  match kind with
  | Node_Parallel _ _ _ => Some Ck_Parallel
  | Node_Race _ _ _ => Some Ck_Race
  | _ => None
  end.

(** One committed step.  The label tells whether it makes progress: the
    intervals of a duration condition may start and be reset without bound. *)
Inductive move (plan : AutomationExecutionPlan) : bool -> Control -> Control -> Prop :=
| Mv_start n a s :
    move plan true (mk_control Run_Pending n a s) (mk_control Run_Running n a s)
| Mv_complete n st a s : st <> Run_Pending -> kind_at plan n = Some Node_Complete ->
    move plan true (mk_control st (Some n) a s) (mk_control Run_Completed None a s)
| Mv_timer n a s kind : kind_at plan n = Some kind -> timed kind ->
    move plan true (mk_control Run_Running (Some n) a s) (mk_control Run_Waiting (Some n) a s)
| Mv_interval n st a s kind : st <> Run_Pending -> kind_at plan n = Some kind -> conditional kind ->
    move plan false (mk_control st (Some n) a s) (mk_control Run_Waiting (Some n) a s)
| Mv_recheck n st a s kind : st <> Run_Pending -> kind_at plan n = Some kind -> conditional kind ->
    move plan false (mk_control st (Some n) a s) (mk_control st (Some n) a s)
| Mv_next n st a s kind next : st <> Run_Pending -> kind_at plan n = Some kind -> successor kind next ->
    move plan true (mk_control st (Some n) a s) (mk_control (resumed kind st) next a s)
| Mv_wait_failed n st a s condition timeout policy following c : st <> Run_Pending ->
    kind_at plan n = Some (Node_Wait condition timeout policy following) ->
    failed policy following a s c ->
    move plan true (mk_control st (Some n) a s) c
| Mv_command_failed n st a s targets payload segment retry policy following c : st <> Run_Pending ->
    kind_at plan n = Some (Node_Command targets payload segment retry policy following) ->
    failed policy following None s c ->
    move plan true (mk_control st (Some n) a s) c
| Mv_confirmed n st a s targets payload segment retry policy following : st <> Run_Pending ->
    kind_at plan n = Some (Node_Command targets payload segment retry policy following) ->
    move plan true (mk_control st (Some n) a s) (mk_control Run_Running following None s)
| Mv_issued n st a s targets payload segment retry policy following : st <> Run_Pending ->
    kind_at plan n = Some (Node_Command targets payload segment retry policy following) ->
    (a = None \/ exists k, a = Some (n, k, At_Dispatch)) ->
    move plan true (mk_control st (Some n) a s)
      (mk_control Run_Waiting (Some n) (Some (n, attempt_number a, At_AwaitingOutcome)) s)
| Mv_backoff n st a s targets payload segment retry policy following : st <> Run_Pending ->
    kind_at plan n = Some (Node_Command targets payload segment retry policy following) ->
    (a = None \/ exists k phase, a = Some (n, k, phase) /\ phase <> At_Backoff) ->
    (attempt_number a < rp_maximum_retries retry)%N ->
    move plan true (mk_control st (Some n) a s)
      (mk_control Run_Waiting (Some n) (Some (n, attempt_number a, At_Backoff)) s)
| Mv_retry n st k s targets payload segment retry policy following : st <> Run_Pending ->
    kind_at plan n = Some (Node_Command targets payload segment retry policy following) ->
    move plan true (mk_control st (Some n) (Some (n, k, At_Backoff)) s)
      (mk_control Run_Running (Some n) (Some (n, u16_saturating_add k 1, At_Dispatch)) s)
| Mv_enter n st a s kind first remaining maximum join group : st <> Run_Pending ->
    kind_at plan n = Some kind ->
    group_of kind = Some (first :: remaining, maximum, Some join) -> group_kind kind = Some group ->
    move plan true (mk_control st (Some n) a s)
      (mk_control st (Some first) a (s ++ [mk_continuation n group join remaining false maximum]))
| Mv_pass n st a s next : st <> Run_Pending -> kind_at plan n = Some (Node_Join next) ->
    (forall outer frame, s = outer ++ [frame] -> cn_join_node_id frame <> n) ->
    move plan true (mk_control st (Some n) a s) (mk_control st next a s)
| Mv_branch_done n st a outer frame next branch remaining : st <> Run_Pending ->
    kind_at plan n = Some (Node_Join next) -> cn_join_node_id frame = n ->
    is_race frame && negb (cn_current_branch_failed frame) = false ->
    cn_remaining_branches frame = branch :: remaining ->
    move plan true (mk_control st (Some n) a (outer ++ [frame]))
      (mk_control st (Some branch) a (outer ++ [frame_with frame remaining false]))
| Mv_group_done n st a outer frame next : st <> Run_Pending -> kind_at plan n = Some (Node_Join next) ->
    cn_join_node_id frame = n ->
    (if is_race frame then cn_current_branch_failed frame = false else cn_remaining_branches frame = []) ->
    move plan true (mk_control st (Some n) a (outer ++ [frame])) (mk_control st next a outer)
| Mv_race_lost n st a outer frame next : st <> Run_Pending -> kind_at plan n = Some (Node_Join next) ->
    cn_join_node_id frame = n -> is_race frame = true -> cn_current_branch_failed frame = true ->
    cn_remaining_branches frame = [] ->
    move plan true (mk_control st (Some n) a (outer ++ [frame])) (mk_control Run_Failed None a outer).

(** ** Well-formed positions *)

(** The frames around a position, innermost first: each group encloses the
    position behind its join, and the joins lie strictly behind each other. *)
Inductive stack_at (plan : AutomationExecutionPlan) : nat -> list AutomationRunContinuation -> Prop :=
| Sa_empty n : stack_at plan n []
| Sa_frame n frame frames i j node branches maximum :
    cn_group_node_id frame = N.of_nat i -> cn_join_node_id frame = N.of_nat j ->
    pl_nodes plan !! i = Some node ->
    group_of (nd_kind node) = Some (branches, maximum, Some (N.of_nat j)) ->
    j <= n < i ->
    (forall b, In b (cn_remaining_branches frame) -> In b branches) ->
    stack_at plan i frames ->
    (forall frame' frames', frames = frame' :: frames' -> (cn_join_node_id frame' < N.of_nat j)%N) ->
    stack_at plan n (frame :: frames).

Record control_wf (plan : AutomationExecutionPlan) (c : Control) : Prop := {
  cw_node : exists n node, k_node c = Some (N.of_nat n) /\ pl_nodes plan !! n = Some node
    /\ stack_at plan n (rev (k_stack c))
    /\ (k_state c = Run_Waiting -> timed (nd_kind node) \/ conditional (nd_kind node)
          \/ exists t p g r f x, nd_kind node = Node_Command t p g r f x)
    /\ (forall m k phase, k_attempt c = Some (m, k, phase) -> m = N.of_nat n /\
          exists t p g retry f x, nd_kind node = Node_Command t p g retry f x
            /\ (k <= rp_maximum_retries retry)%N
            /\ (phase = At_Backoff -> (k < rp_maximum_retries retry)%N));
  cw_pending : k_state c = Run_Pending -> c = initial plan;
  cw_active : AutomationRunState.is_terminal (k_state c) = false
}.

(** ** Positions *)

Lemma find_node_position plan n node :
  plan_wf plan -> find_node plan n = Some node ->
  exists i, n = N.of_nat i /\ pl_nodes plan !! i = Some node.
Proof.
  intros Hp Hf. apply List.find_some in Hf as [Hin Hid]. bool_inv.
  apply list_elem_of_In, list_elem_of_lookup in Hin as [i Hi].
  destruct (pw_ids _ Hp _ _ Hi) as [Hn _]. exists i. split; [congruence|done].
Qed.

Lemma find_node_lookup plan i node :
  plan_wf plan -> pl_nodes plan !! i = Some node -> find_node plan (N.of_nat i) = Some node.
Proof.
  intros Hp Hi. destruct (pw_ids _ Hp _ _ Hi) as [Hid _].
  destruct (find_node plan (N.of_nat i)) as [node'|] eqn:Hf.
  - destruct (find_node_position _ _ _ Hp Hf) as (j & Hj & Hl). assert (i = j) as -> by lia. congruence.
  - exfalso. unfold find_node in Hf. apply List.find_none with (x := node) in Hf.
    + rewrite Hid, N.eqb_refl in Hf. discriminate.
    + by apply list_elem_of_In, (list_elem_of_lookup_2 _ i).
Qed.

Lemma kind_at_lookup plan i node kind :
  plan_wf plan -> pl_nodes plan !! i = Some node -> kind_at plan (N.of_nat i) = Some kind ->
  kind = nd_kind node.
Proof.
  intros Hp Hi. unfold kind_at. rewrite (find_node_lookup _ _ _ Hp Hi). by intros [= <-].
Qed.

(** The innermost frame's join stands in the region of the frame around it. *)
Lemma stack_step plan n i frames node e :
  plan_wf plan -> stack_at plan n frames -> pl_nodes plan !! n = Some node ->
  (forall frame frames', frames = frame :: frames' -> cn_join_node_id frame <> N.of_nat n) ->
  In e (edges (nd_kind node)) -> e = Some (N.of_nat i) -> stack_at plan i frames.
Proof.
  intros Hp Hs Hn Hnj He ->. destruct (pw_edges _ Hp _ _ _ Hn He) as (m & [= Hm] & Hlt).
  assert (m = i) as -> by lia. clear Hm.
  destruct Hs as [|n frame frames g j node' branches maximum Hg Hj Hgn Hgr Hr Hrem Hout Hsep];
    [constructor|].
  assert (j < n).
  { destruct (decide (j = n)) as [->|]; [|lia]. exfalso. by apply (Hnj frame frames). }
  destruct (pw_groups _ Hp _ _ _ _ _ Hgn Hgr) as (_ & _ & _ & j' & next & [= Hj'] & _ & _ & _ & Hin & _).
  assert (j' = j) as -> by lia.
  destruct (Hin n node (Some (N.of_nat i)) ltac:(lia) Hn He) as (m & [= Hm] & Hmr).
  assert (m = i) as -> by lia. econstructor; try done. lia.
Qed.

(** Behind the join of a finished group the run is in the region around it. *)
Lemma stack_pop plan frame frames j node e :
  plan_wf plan -> stack_at plan j (frame :: frames) -> cn_join_node_id frame = N.of_nat j ->
  pl_nodes plan !! j = Some node -> In e (edges (nd_kind node)) ->
  exists i, e = Some (N.of_nat i) /\ i < j /\ stack_at plan i frames.
Proof.
  intros Hp Hs Hj Hn He. inversion Hs as [|? ? ? g j' gn branches maximum Hg Hj' Hgn Hgr Hr Hrem Hout Hsep];
    subst. assert (j' = j) as -> by (rewrite Hj in Hj'; lia).
  destruct (pw_edges _ Hp _ _ _ Hn He) as (i & -> & Hi). exists i. split; [done|]. split; [done|].
  assert (Hjs : stack_at plan j frames).
  { destruct Hout as [|? f fs g' jo gn' b' m' ? Hjo ? ? Hr' ? ? ?]; [constructor|].
    econstructor; try done. assert (cn_join_node_id f < N.of_nat j)%N by (by eapply Hsep). lia. }
  eapply stack_step; [done|exact Hjs|done| |done|done].
  intros f fs -> Hf. assert (cn_join_node_id f < N.of_nat j)%N by (by eapply Hsep). lia.
Qed.

(** The joins of the frames are join nodes. *)
Lemma stack_join_kind plan n frame frames :
  plan_wf plan -> stack_at plan n (frame :: frames) ->
  exists j node next, cn_join_node_id frame = N.of_nat j /\ pl_nodes plan !! j = Some node
    /\ nd_kind node = Node_Join next /\ j <= n.
Proof.
  intros Hp Hs. inversion Hs as [|? ? ? g j gn branches maximum Hg Hj Hgn Hgr Hr Hrem Hout Hsep]; subst.
  destruct (pw_groups _ Hp _ _ _ _ _ Hgn Hgr) as (_ & _ & _ & j' & next & [= Hj'] & _ & (jn & Hjn & Hk) & _).
  assert (j' = j) as -> by lia. exists j, jn, next. split_and!; try done. lia.
Qed.

(** A branch of the innermost frame, or its join, stands in the frame's region. *)
Lemma stack_jump plan n frame frames k :
  plan_wf plan -> stack_at plan n (frame :: frames) ->
  In (N.of_nat k) (cn_remaining_branches frame) \/ cn_join_node_id frame = N.of_nat k ->
  forall remaining failed, (forall b, In b remaining -> In b (cn_remaining_branches frame)) ->
  stack_at plan k (frame_with frame remaining failed :: frames).
Proof.
  intros Hp Hs Hk remaining failed Hsub.
  inversion Hs as [|? ? ? g j gn branches maximum Hg Hj Hgn Hgr Hr Hrem Hout Hsep]; subst.
  destruct (pw_groups _ Hp _ _ _ _ _ Hgn Hgr) as (_ & _ & _ & j' & next & [= Hj'] & Hjg & _ & Hbr & _).
  assert (j' = j) as -> by lia.
  econstructor; try done; simpl; [|auto].
  destruct Hk as [Hk|Hk].
  - destruct (Hbr _ (Hrem _ Hk)) as (m & Hm & Hmr). lia.
  - rewrite Hj in Hk. lia.
Qed.

(** Entering a group pushes its frame. *)
Lemma stack_enter plan n node frames first remaining maximum join group :
  plan_wf plan -> stack_at plan n frames -> pl_nodes plan !! n = Some node ->
  group_of (nd_kind node) = Some (first :: remaining, maximum, Some join) ->
  exists k, first = N.of_nat k /\ k < n /\
    stack_at plan k (mk_continuation (N.of_nat n) group join remaining false maximum :: frames).
Proof.
  intros Hp Hs Hn Hg.
  destruct (pw_groups _ Hp _ _ _ _ _ Hn Hg) as (_ & _ & _ & j & next & [= ->] & Hjn & _ & Hbr & _).
  destruct (Hbr first ltac:(by left)) as (k & -> & Hk). exists k. split; [done|]. split; [lia|].
  econstructor; simpl; try done; [by right|].
  intros f fs ->. destruct (stack_join_kind _ _ _ _ Hp Hs) as (jf & jnode & nx & Hjoin & Hjf & Hjk & Hle).
  inversion Hs as [|? ? ? g jf' gn branches m Hg' Hj' Hgn Hgr Hr Hrem Hout Hsep]; subst.
  destruct (pw_groups _ Hp _ _ _ _ _ Hgn Hgr) as (_ & _ & _ & j' & next' & [= Hj''] & _ & (jn' & Hjn' & Hk') & _ & _ & Hnest).
  assert (j' = jf') as -> by lia.
  assert (jf' < n).
  { destruct (decide (jf' = n)) as [->|]; [|lia]. rewrite Hn in Hjn'. injection Hjn' as <-.
    rewrite Hk' in Hg. discriminate. }
  destruct (Hnest n node _ _ _ ltac:(lia) Hn Hg) as (m0 & [= Hm] & Hr0).
  lia.
Qed.

(** ** Moves keep the position well-formed *)

Lemma initial_wf plan : plan_wf plan -> control_wf plan (initial plan).
Proof.
  intros Hp. split; simpl; [|done|done].
  pose proof (pw_entry _ Hp) as He. destruct (lookup_lt_is_Some_2 (pl_nodes plan) (N.to_nat (pl_entry plan)))
    as [node Hn]; [lia|].
  exists (N.to_nat (pl_entry plan)), node. split; [by rewrite N2Nat.id|]. split; [done|].
  split; [constructor|]. split; [done|]. intros m k phase [=].
Qed.

Definition is_command (kind : AutomationPlanNodeKind) : bool :=
  match kind with Node_Command _ _ _ _ _ _ => true | _ => false end.

Definition is_join (kind : AutomationPlanNodeKind) : bool :=
  match kind with Node_Join _ => true | _ => false end.

(** What a well-formed position knows of the node it stands at. *)
Lemma control_at plan st n a s kind :
  plan_wf plan -> control_wf plan (mk_control st (Some n) a s) -> st <> Run_Pending ->
  kind_at plan n = Some kind ->
  exists i node, n = N.of_nat i /\ pl_nodes plan !! i = Some node /\ nd_kind node = kind
    /\ stack_at plan i (rev s) /\ (st = Run_Running \/ st = Run_Waiting)
    /\ (is_command kind = false -> a = None)
    /\ (is_command kind = false -> ~ timed kind -> ~ conditional kind -> st = Run_Running).
Proof.
  intros Hp [(i & node & Hi & Hn & Hs & Hw & Ha) Hpend Hact] Hst Hk. simpl in *. injection Hi as ->.
  pose proof (kind_at_lookup _ _ _ _ Hp Hn Hk) as ->. exists i, node. split_and!; try done.
  - destruct st; simpl in *; try done; auto.
  - intros Hc. destruct a as [[[m k] phase]|]; [|done].
    destruct (Ha _ _ _ eq_refl) as (_ & t & p & g & r & f & x & Hk' & _). by rewrite Hk' in Hc.
  - intros Hc Ht Hcd. destruct st; simpl in *; try done.
    destruct (Hw eq_refl) as [|[|(t & p & g & r & f & x & Hk')]]; try done. by rewrite Hk' in Hc.
Qed.

Lemma not_at_join plan n node frames :
  plan_wf plan -> stack_at plan n frames -> pl_nodes plan !! n = Some node -> is_join (nd_kind node) = false ->
  forall frame frames', frames = frame :: frames' -> cn_join_node_id frame <> N.of_nat n.
Proof.
  intros Hp Hs Hn Hj frame frames' -> Heq.
  destruct (stack_join_kind _ _ _ _ Hp Hs) as (j & jn & next & Hjoin & Hl & Hk & _).
  assert (j = n) as -> by lia. simplify_eq. by rewrite Hk in Hj.
Qed.

(** A running position without a command attempt. *)
Lemma running_wf plan i node stack :
  pl_nodes plan !! i = Some node -> stack_at plan i (rev stack) ->
  control_wf plan (mk_control Run_Running (Some (N.of_nat i)) None stack).
Proof.
  intros Hn Hs. split; simpl; [|done|done]. exists i, node. split_and!; try done.
Qed.

Lemma edge_node plan n node e :
  plan_wf plan -> pl_nodes plan !! n = Some node -> In e (edges (nd_kind node)) ->
  exists i node', e = Some (N.of_nat i) /\ pl_nodes plan !! i = Some node' /\ i < n.
Proof.
  intros Hp Hn He. destruct (pw_edges _ Hp _ _ _ Hn He) as (i & -> & Hi).
  apply lookup_lt_Some in Hn. destruct (lookup_lt_is_Some_2 (pl_nodes plan) i ltac:(lia)) as [node' Hn'].
  eauto.
Qed.

(** Following an edge from a node that is no join. *)
Lemma follow_wf plan n node stack e :
  plan_wf plan -> pl_nodes plan !! n = Some node -> stack_at plan n (rev stack) ->
  is_join (nd_kind node) = false -> In e (edges (nd_kind node)) ->
  control_wf plan (mk_control Run_Running e None stack).
Proof.
  intros Hp Hn Hs Hj He. destruct (edge_node _ _ _ _ Hp Hn He) as (i & node' & -> & Hn' & _).
  eapply running_wf; [done|]. eapply stack_step; [done..| |done|done]. by eapply not_at_join.
Qed.

(** The result of a move: a well-formed position, or the end of the run, which
    completes only outside every group. *)
Definition settled (plan : AutomationExecutionPlan) (c : Control) : Prop :=
  control_wf plan c \/
  (AutomationRunState.is_terminal (k_state c) = true /\ k_node c = None
   /\ (k_state c = Run_Completed -> k_stack c = [])).

Lemma failed_settled plan n node stack policy following c :
  plan_wf plan -> pl_nodes plan !! n = Some node -> stack_at plan n (rev stack) ->
  failure_of (nd_kind node) = Some (policy, following) -> failed policy following None stack c ->
  (k_state c = Run_Running \/ k_state c = Run_Failed) /\ settled plan c.
Proof.
  intros Hp Hn Hs Hf Hc.
  assert (Hj : is_join (nd_kind node) = false) by (by destruct (nd_kind node)).
  assert (Hed : In following (edges (nd_kind node))
    /\ forall entry, policy = Pf_Fallback entry -> In entry (edges (nd_kind node))).
  { destruct (nd_kind node); simplify_eq/=; (split; [by left|]); intros entry ->; simpl; auto. }
  destruct Hed as [Hfol Hfall].
  destruct Hc as [stack ->|stack entry ->|outer frame ->|stack Hrun]; simpl; (split; [by auto|]).
  - left. by eapply follow_wf.
  - left. destruct entry as [entry|]; [|by eapply follow_wf]. eapply follow_wf; try done. by apply Hfall.
  - left. rewrite rev_app_distr in Hs. simpl in Hs.
    destruct (stack_join_kind _ _ _ _ Hp Hs) as (j & jn & next & Hjoin & Hl & _). rewrite Hjoin.
    eapply running_wf; [done|]. rewrite rev_app_distr. simpl.
    eapply stack_jump; [done|exact Hs|by right|done].
  - right. by split_and!.
Qed.

Lemma revision_running st :
  st = Run_Running \/ st = Run_Waiting ->
  AutomationRunState.allows_revision_to st Run_Running = true
  /\ AutomationRunState.allows_revision_to st Run_Waiting = true
  /\ AutomationRunState.allows_revision_to st Run_Failed = true.
Proof. by intros [->| ->]. Qed.

Lemma successor_edge kind next : successor kind next ->
  is_join kind = false /\ is_command kind = false /\ exists e, In e (edges kind) /\ (next = e \/ (exists then_node else_node join condition,
    kind = Node_Branch condition then_node else_node join /\ next = match e with Some _ => e | None => join end)).
Proof.
  destruct kind; simpl; try done; intros Hs; (split; [done|split; [done|]]).
  1-3: (exists next0; split; [by left|by left]).
  destruct Hs as (selected & Hsel & ->). exists selected. split; [naive_solver|]. right. eauto 8.
Qed.

Lemma successor_In plan n node next :
  plan_wf plan -> pl_nodes plan !! n = Some node -> successor (nd_kind node) next ->
  In next (edges (nd_kind node)).
Proof.
  intros Hp Hn (_ & _ & e & He & [->|(t & el & j & c & Hk & ->)])%successor_edge; [done|].
  destruct (pw_edges _ Hp _ _ _ Hn He) as (m & -> & _). done.
Qed.

(** A position at a command node. *)
Lemma command_wf plan i node stack st k phase t p g retry f x :
  pl_nodes plan !! i = Some node -> nd_kind node = Node_Command t p g retry f x ->
  stack_at plan i (rev stack) -> st = Run_Running \/ st = Run_Waiting ->
  (k <= rp_maximum_retries retry)%N -> (phase = At_Backoff -> (k < rp_maximum_retries retry)%N) ->
  control_wf plan (mk_control st (Some (N.of_nat i)) (Some (N.of_nat i, k, phase)) stack).
Proof.
  intros Hn Hk Hs Hst Hle Hlt. split; simpl; [|by destruct Hst as [->| ->]..].
  exists i, node. split_and!; try done.
  - intros _. right. right. rewrite Hk. eauto 8.
  - intros m k' phase' [= <- <- <-]. split; [done|]. rewrite Hk. eauto 12.
Qed.

Lemma attempt_le plan n i node a s st t p g retry f x :
  control_wf plan (mk_control st (Some n) a s) -> n = N.of_nat i -> pl_nodes plan !! i = Some node ->
  nd_kind node = Node_Command t p g retry f x -> (attempt_number a <= rp_maximum_retries retry)%N.
Proof.
  intros [(i' & node' & Hi & Hn' & _ & _ & Ha) _ _] -> Hn Hk. simpl in *. injection Hi as Hi.
  assert (i' = i) as -> by lia. simplify_eq. destruct a as [[[m k] phase]|]; simpl; [|lia].
  destruct (Ha _ _ _ eq_refl) as (_ & t' & p' & g' & r' & f' & x' & Hk' & Hle & _). congruence.
Qed.

(** Legal state edge, and a settled position. *)
Definition sound_move (plan : AutomationExecutionPlan) (c c' : Control) : Prop :=
  AutomationRunState.allows_revision_to (k_state c) (k_state c') = true /\ settled plan c'.

Ltac at_node Hp Hwf :=
  match goal with
  | Hst : ?st <> Run_Pending, Hk : kind_at _ _ = Some _ |- _ =>
      destruct (control_at _ _ _ _ _ _ Hp Hwf Hst Hk)
        as (i & node & -> & Hn & Hnk & Hs & Hrw & Hatt & Hrun)
  end.

Lemma move_command_sound plan n st a s c targets payload segment retry policy following :
  plan_wf plan -> control_wf plan (mk_control st (Some n) a s) -> st <> Run_Pending ->
  kind_at plan n = Some (Node_Command targets payload segment retry policy following) ->
  (failed policy following None s c \/ c = mk_control Run_Running following None s
   \/ (exists phase, phase <> At_Backoff /\ c = mk_control Run_Waiting (Some n) (Some (n, attempt_number a, phase)) s)
   \/ (c = mk_control Run_Waiting (Some n) (Some (n, attempt_number a, At_Backoff)) s
       /\ (attempt_number a < rp_maximum_retries retry)%N)
   \/ (exists k, a = Some (n, k, At_Backoff)
       /\ c = mk_control Run_Running (Some n) (Some (n, u16_saturating_add k 1, At_Dispatch)) s)) ->
  sound_move plan (mk_control st (Some n) a s) c.
Proof.
  intros Hp Hwf Hst Hk Hc. at_node Hp Hwf. simpl in *.
  pose proof (attempt_le _ _ _ _ _ _ _ _ _ _ _ _ _ Hwf eq_refl Hn Hnk) as Hle.
  pose proof (revision_running st Hrw) as (Hr1 & Hr2 & Hr3). unfold sound_move. simpl.
  destruct Hc as [Hc|[->|[(phase & Hph & ->)|[[-> Hlt]|(k & -> & ->)]]]]; simpl.
  - assert (Hf : failure_of (nd_kind node) = Some (policy, following)) by (by rewrite Hnk).
    destruct (failed_settled _ _ _ _ _ _ _ Hp Hn Hs Hf Hc) as [[-> | ->] Hset]; done.
  - split; [done|]. left. eapply follow_wf; [done|done|done|by rewrite Hnk|]. rewrite Hnk. by left.
  - split; [done|]. left. eapply command_wf; try done; by auto.
  - split; [done|]. left. eapply command_wf; try done; by auto.
  - split; [done|]. left.
    destruct Hwf as [(i' & node' & Hi & Hn' & _ & _ & Ha) _ _]. simpl in *. injection Hi as Hi.
    assert (i' = i) as -> by lia. simplify_eq.
    destruct (Ha _ _ _ eq_refl) as (_ & t' & p' & g' & r' & f' & x' & Hk' & _ & Hlt).
    rewrite Hk' in Hnk. simplify_eq. specialize (Hlt eq_refl).
    eapply command_wf; [done|done|done|by left| |done]. unfold u16_saturating_add. lia.
Qed.

Lemma move_join_sound plan n st a s c next :
  plan_wf plan -> control_wf plan (mk_control st (Some n) a s) -> st <> Run_Pending ->
  kind_at plan n = Some (Node_Join next) ->
  ((forall outer frame, s = outer ++ [frame] -> cn_join_node_id frame <> n)
     /\ c = mk_control st next a s)
  \/ (exists outer frame, s = outer ++ [frame] /\ cn_join_node_id frame = n
      /\ ((exists branch remaining, cn_remaining_branches frame = branch :: remaining
             /\ c = mk_control st (Some branch) a (outer ++ [frame_with frame remaining false]))
          \/ c = mk_control st next a outer \/ c = mk_control Run_Failed None a outer)) ->
  sound_move plan (mk_control st (Some n) a s) c.
Proof.
  intros Hp Hwf Hst Hk Hc. at_node Hp Hwf. simpl in *.
  rewrite (Hrun eq_refl) in * by (by intros []). rewrite (Hatt eq_refl) in *.
  assert (Hed : In next (edges (nd_kind node))) by (rewrite Hnk; by left).
  unfold sound_move. simpl. destruct Hc as [[Hno ->]|(outer & frame & -> & Hj & Hc)].
  - split; [done|]. left. destruct (edge_node _ _ _ _ Hp Hn Hed) as (m & node' & -> & Hn' & _).
    eapply running_wf; [done|]. eapply stack_step; [done..| |done|done].
    intros frame frames' Hrev. apply (Hno (rev frames') frame).
    rewrite <- (rev_involutive s), Hrev. done.
  - rewrite rev_app_distr in Hs. simpl in Hs. destruct Hc as [(b & rem & Hrem & ->)|[->| ->]]; simpl.
    + split; [done|]. left.
      inversion Hs as [|? ? ? g j gn branches m Hg Hj' Hgn Hgr Hr Hsub Hout Hsep]; subst.
      destruct (pw_groups _ Hp _ _ _ _ _ Hgn Hgr) as (_ & _ & _ & j' & nx & [= Hjj] & _ & _ & Hbr & _).
      destruct (Hbr b) as (k & -> & Hkr); [apply Hsub; rewrite Hrem; by left|].
      pose proof (lookup_lt_Some _ _ _ Hgn).
      destruct (lookup_lt_is_Some_2 (pl_nodes plan) k ltac:(lia)) as [bn Hbn].
      eapply running_wf; [done|]. rewrite rev_app_distr. simpl.
      eapply stack_jump; [done|exact Hs|rewrite Hrem; left; by left|].
      intros b' Hb'. rewrite Hrem. by right.
    + split; [done|]. left. destruct (stack_pop _ _ _ _ _ _ Hp Hs Hj Hn Hed) as (m & -> & Hm & Hs').
      pose proof (lookup_lt_Some _ _ _ Hn).
      destruct (lookup_lt_is_Some_2 (pl_nodes plan) m ltac:(lia)) as [mn Hmn].
      by eapply running_wf.
    + split; [done|]. right. by split_and!.
Qed.

(** The run stands at its completion only outside every group. *)
Lemma complete_stack plan i node stack :
  plan_wf plan -> pl_nodes plan !! i = Some node -> nd_kind node = Node_Complete ->
  stack_at plan i stack -> stack = [].
Proof.
  intros Hp Hn Hk Hs. assert (i = 0) as -> by (by eapply (pw_live _ Hp)).
  destruct stack as [|frame frames]; [done|]. exfalso.
  destruct (stack_join_kind _ _ _ _ Hp Hs) as (j & jn & next & _ & Hl & Hjk & Hle).
  assert (j = 0) as -> by lia. simplify_eq. congruence.
Qed.

(** Every move of a well-formed position follows a legal state edge and ends in
    a well-formed position, or ends the run. *)
Lemma move_sound plan progress c c' :
  plan_wf plan -> control_wf plan c -> move plan progress c c' -> sound_move plan c c'.
Proof.
  intros Hp Hwf Hmove. destruct Hmove.
  - pose proof (cw_pending _ _ Hwf eq_refl) as Hi. unfold initial in Hi. simplify_eq.
    split; [done|]. left. pose proof (cw_node _ _ Hwf) as (i & node & Hi & Hn & Hs & _).
    simpl in *. rewrite Hi. by eapply running_wf.
  - at_node Hp Hwf. rewrite (Hrun eq_refl) by (by intros []).
    split; [done|]. right. split_and!; try done. intros _. simpl.
    pose proof (complete_stack _ _ _ _ Hp Hn Hnk Hs) as Hr.
    by rewrite <- (rev_involutive s), Hr.
  - assert (Hrunning : Run_Running <> Run_Pending) by done. at_node Hp Hwf.
    assert (Hc : is_command kind = false) by (by destruct kind). rewrite (Hatt Hc).
    split; [done|]. left. split; simpl; [|done|done]. exists i, node. rewrite Hnk. split_and!; auto; done.
  - at_node Hp Hwf. pose proof (revision_running st Hrw) as (_ & Hr & _).
    assert (Hc : is_command kind = false) by (by destruct kind). rewrite (Hatt Hc).
    split; [done|]. left. split; simpl; [|done|done]. exists i, node. rewrite Hnk. split_and!; auto; done.
  - at_node Hp Hwf. split; [by destruct Hrw as [->| ->]|]. by left.
  - at_node Hp Hwf. pose proof (revision_running st Hrw) as (Hr & _ & _).
    assert (Hj : is_join kind = false /\ is_command kind = false) by (by destruct kind).
    destruct Hj as [Hj Hc]. rewrite (Hatt Hc).
    assert (Hres : resumed kind st = Run_Running).
    { destruct kind; try done. simpl. by apply Hrun; [|intros []..]. }
    rewrite Hres. split; [done|]. left. subst kind.
    eapply follow_wf; [done|done|done|done|]. by eapply successor_In.
  - at_node Hp Hwf. pose proof (revision_running st Hrw) as (Hr1 & _ & Hr3). rewrite (Hatt eq_refl) in *.
    assert (Hf : failure_of (nd_kind node) = Some (policy, following)) by (by rewrite Hnk).
    match goal with Hc : failed _ _ _ _ _ |- _ =>
      destruct (failed_settled _ _ _ _ _ _ _ Hp Hn Hs Hf Hc) as [Hst' Hset] end.
    split; [|done]. by destruct Hst' as [-> | ->].
  - eapply move_command_sound; [done..|by left].
  - eapply move_command_sound; [done..|by right; left].
  - eapply move_command_sound; [done..|]. right. right. left. by exists At_AwaitingOutcome.
  - eapply move_command_sound; [done..|]. right. right. right. by left.
  - eapply move_command_sound; [done..|]. right. right. right. right. eauto.
  - at_node Hp Hwf. assert (Hkind : is_command kind = false /\ ~ timed kind /\ ~ conditional kind)
      by (destruct kind; simplify_eq/=; tauto).
    destruct Hkind as (Hc & Ht & Hcd). rewrite (Hrun Hc Ht Hcd), (Hatt Hc). split; [done|]. left.
    rewrite <- Hnk in *.
    match goal with Hg : group_of _ = _ |- _ =>
      destruct (stack_enter _ _ _ _ _ _ _ _ group Hp Hs Hn Hg) as (k & -> & Hk & Hs') end.
    pose proof (lookup_lt_Some _ _ _ Hn).
    destruct (lookup_lt_is_Some_2 (pl_nodes plan) k ltac:(lia)) as [kn Hkn].
    eapply running_wf; [done|]. by rewrite rev_app_distr.
  - eapply move_join_sound; eauto.
  - eapply move_join_sound; eauto 10.
  - eapply move_join_sound; eauto 10.
  - eapply move_join_sound; eauto 10.
Qed.
