(* ===== verification/AutomationPotential.v ===== *)
(** A potential of the positions of a run: every move that makes progress uses
    some of it, so a run makes at most as many as its plan costs. *)

From S2P Require Import Prelude Text BTree Json Capability Device Command CommandService Automation AutomationCompiler AutomationPlan AutomationProps AutomationFixture AutomationRuntime AutomationMoves.

(** ** Costs *)

(** The committed steps a node needs at most before it is left: one, one more for
    a timer, three for every attempt of a command. *)
Definition node_cost (kind : AutomationPlanNodeKind) : N :=
  match kind with
  | Node_Command _ _ _ retry _ _ => 3 * rp_maximum_retries retry + 3
  | Node_Delay _ _ | Node_Wait _ _ _ _ => 2
  | _ => 1
  end.

Definition branches_of (kind : AutomationPlanNodeKind) : list AutomationPlanNodeId :=
  match group_of kind with Some (branches, _, _) => branches | None => [] end.

Definition sum (l : list N) : N := fold_right N.add 0%N l.

Definition cost_in (costs : list N) (n : AutomationPlanNodeId) : N := default 0%N (costs !! N.to_nat n).

(** The nodes cost in the order of their positions: a node costs itself, its
    branches, and what the node below it costs. *)
Definition next_cost (costs : list N) (kind : AutomationPlanNodeKind) : N :=
  default 0%N (last costs) + node_cost kind + sum (map (cost_in costs) (branches_of kind)).

Definition plan_costs (nodes : list AutomationPlanNode) : list N :=
  fold_left (fun costs node => costs ++ [next_cost costs (nd_kind node)]) nodes [].

Definition cost (plan : AutomationExecutionPlan) (n : AutomationPlanNodeId) : N :=
  cost_in (plan_costs (pl_nodes plan)) n.

Definition below (plan : AutomationExecutionPlan) (n : AutomationPlanNodeId) : N :=
  if N.eqb n 0 then 0%N else cost plan (n - 1).

(** What is left of the cost of the node a run stands at. *)
Definition node_left (kind : AutomationPlanNodeKind) (state : AutomationRunState)
  (attempt : option (N * N * AutomationCommandAttemptPhase)) : N :=
  match kind with
  | Node_Command _ _ _ retry _ _ =>
      match attempt with
      | None => 3 * rp_maximum_retries retry + 3
      | Some (_, k, phase) => 3 * (rp_maximum_retries retry - k)
          + match phase with At_Dispatch => 3 | At_AwaitingOutcome => 2 | At_Backoff => 1 end
      end
  | Node_Delay _ _ | Node_Wait _ _ _ _ => if bool_decide (state = Run_Running) then 2 else 1
  | _ => 1
  end.

Definition frame_cost (plan : AutomationExecutionPlan) (frame : AutomationRunContinuation) : N :=
  sum (map (cost plan) (cn_remaining_branches frame)).

Definition potential (plan : AutomationExecutionPlan) (c : Control) : N :=
  (if bool_decide (k_state c = Run_Pending) then 2 else 0)
  + match k_node c with
    | Some n =>
        match kind_at plan n with
        | Some kind => below plan n + node_left kind (k_state c) (k_attempt c)
                       + sum (map (cost plan) (branches_of kind))
        | None => 0
        end
    | None => 0
    end
  + sum (map (frame_cost plan) (k_stack c)).

Lemma sum_app l l' : sum (l ++ l') = (sum l + sum l')%N.
Proof. induction l as [|a l IH]; simpl; [done|]. rewrite IH. lia. Qed.

Lemma plan_costs_snoc nodes node :
  plan_costs (nodes ++ [node]) = plan_costs nodes ++ [next_cost (plan_costs nodes) (nd_kind node)].
Proof. unfold plan_costs. by rewrite fold_left_app. Qed.

Lemma plan_costs_length nodes : length (plan_costs nodes) = length nodes.
Proof.
  induction nodes as [|node nodes IH] using rev_ind; [done|].
  rewrite plan_costs_snoc, !length_app, IH. done.
Qed.

(** The costs of a prefix are a prefix of the costs. *)
Lemma plan_costs_prefix nodes rest i :
  i < length nodes -> plan_costs (nodes ++ rest) !! i = plan_costs nodes !! i.
Proof.
  intros Hi. induction rest as [|node rest IH] using rev_ind; [by rewrite app_nil_r|].
  rewrite app_assoc, plan_costs_snoc, lookup_app_l; [done|].
  rewrite plan_costs_length, length_app. lia.
Qed.

Lemma cost_prefix nodes rest n :
  N.to_nat n < length nodes -> cost_in (plan_costs (nodes ++ rest)) n = cost_in (plan_costs nodes) n.
Proof. intros Hn. unfold cost_in. by rewrite plan_costs_prefix. Qed.

Lemma cost_step plan i node :
  plan_wf plan -> pl_nodes plan !! i = Some node ->
  cost plan (N.of_nat i) = (below plan (N.of_nat i) + node_cost (nd_kind node)
    + sum (map (cost plan) (branches_of (nd_kind node))))%N.
Proof.
  intros Hp Hi. pose proof (lookup_lt_Some _ _ _ Hi) as Hlt.
  assert (exists pre post, pl_nodes plan = pre ++ node :: post /\ length pre = i) as (pre & post & Hsplit & Hlen).
  { exists (take i (pl_nodes plan)), (drop (S i) (pl_nodes plan)). rewrite take_drop_middle by done.
    split; [done|]. rewrite length_take. lia. }
  assert (Hpre : forall n, N.to_nat n < i -> cost plan n = cost_in (plan_costs pre) n).
  { intros n Hn. unfold cost. rewrite Hsplit. apply cost_prefix. by rewrite Hlen. }
  assert (Hhere : cost plan (N.of_nat i) = next_cost (plan_costs pre) (nd_kind node)).
  { unfold cost. rewrite Hsplit, cons_middle, app_assoc, cost_prefix
      by (rewrite length_app, Hlen; simpl; lia).
    rewrite plan_costs_snoc. unfold cost_in.
    rewrite lookup_app_r by (rewrite plan_costs_length; lia).
    by rewrite plan_costs_length, Hlen, Nat2N.id, Nat.sub_diag. }
  rewrite Hhere. unfold next_cost. f_equal; [f_equal|].
  - unfold below. destruct (N.eqb_spec (N.of_nat i) 0) as [He|He].
    + assert (i = 0) as -> by lia. by destruct pre.
    + rewrite Hpre by lia. unfold cost_in. rewrite last_lookup, plan_costs_length, Hlen.
      do 2 f_equal. lia.
  - f_equal. apply map_ext_in. intros b Hb. symmetry. apply Hpre.
    unfold branches_of in Hb. destruct (group_of (nd_kind node)) as [[[branches maximum] join]|] eqn:Hg; [|done].
    destruct (pw_groups _ Hp _ _ _ _ _ Hi Hg) as (_ & _ & _ & j & next & _ & _ & _ & Hbr & _).
    destruct (Hbr b Hb) as (k & -> & Hk). lia.
Qed.

Lemma cost_below plan i n :
  plan_wf plan -> n < length (pl_nodes plan) -> i < n -> (cost plan (N.of_nat i) <= below plan (N.of_nat n))%N.
Proof.
  intros Hp Hn Hi. induction Hi as [|m Hi IH].
  - unfold below. destruct (N.eqb_spec (N.of_nat (S i)) 0); [lia|].
    replace (N.of_nat (S i) - 1)%N with (N.of_nat i) by lia. lia.
  - specialize (IH ltac:(lia)). destruct (lookup_lt_is_Some_2 (pl_nodes plan) m ltac:(lia)) as [node Hm].
    pose proof (cost_step _ _ _ Hp Hm) as Hc.
    unfold below. destruct (N.eqb_spec (N.of_nat (S m)) 0); [lia|].
    replace (N.of_nat (S m) - 1)%N with (N.of_nat m) by lia. lia.
Qed.

Lemma node_left_le kind st a : (node_left kind st a <= node_cost kind)%N.
Proof.
  destruct kind; simpl; try (case_bool_decide; lia); try lia.
  destruct a as [[[m k] phase]|]; [|lia]. destruct phase; lia.
Qed.

Lemma node_left_pos kind st a : (1 <= node_left kind st a)%N.
Proof.
  destruct kind; simpl; try (case_bool_decide; lia); try lia.
  destruct a as [[[m k] phase]|]; [|lia]. destruct phase; lia.
Qed.

(** ** Moves use the potential *)

Lemma potential_at plan i node st a s :
  plan_wf plan -> pl_nodes plan !! i = Some node ->
  potential plan (mk_control st (Some (N.of_nat i)) a s)
  = ((if bool_decide (st = Run_Pending) then 2 else 0)
     + (below plan (N.of_nat i) + node_left (nd_kind node) st a
        + sum (map (cost plan) (branches_of (nd_kind node)))) + sum (map (frame_cost plan) s))%N.
Proof.
  intros Hp Hi. unfold potential, kind_at. simpl. by rewrite (find_node_lookup _ _ _ Hp Hi).
Qed.

(** Arriving at a node costs at most the node. *)
Lemma potential_arrive plan i a s :
  plan_wf plan -> i < length (pl_nodes plan) ->
  (potential plan (mk_control Run_Running (Some (N.of_nat i)) a s)
   <= cost plan (N.of_nat i) + sum (map (frame_cost plan) s))%N.
Proof.
  intros Hp Hi. destruct (lookup_lt_is_Some_2 (pl_nodes plan) i Hi) as [node Hn].
  rewrite (potential_at _ _ _ _ _ _ Hp Hn), (cost_step _ _ _ Hp Hn).
  rewrite bool_decide_false by done. pose proof (node_left_le (nd_kind node) Run_Running a). lia.
Qed.

Lemma potential_follow plan n node st a s e a' s' :
  plan_wf plan -> pl_nodes plan !! n = Some node -> In e (edges (nd_kind node)) ->
  (sum (map (frame_cost plan) s') <= sum (map (frame_cost plan) s))%N ->
  (potential plan (mk_control Run_Running e a' s') + 1
   <= potential plan (mk_control st (Some (N.of_nat n)) a s))%N.
Proof.
  intros Hp Hn He Hs. destruct (edge_node _ _ _ _ Hp Hn He) as (i & node' & -> & Hn' & Hlt).
  pose proof (potential_arrive plan i a' s' Hp (lookup_lt_Some _ _ _ Hn')).
  pose proof (cost_below plan i n Hp (lookup_lt_Some _ _ _ Hn) Hlt).
  rewrite (potential_at _ _ _ _ _ _ Hp Hn). pose proof (node_left_pos (nd_kind node) st a).
  destruct (bool_decide _); lia.
Qed.

Lemma potential_end plan n node st a s st' a' s' :
  plan_wf plan -> pl_nodes plan !! n = Some node -> st' <> Run_Pending ->
  (sum (map (frame_cost plan) s') <= sum (map (frame_cost plan) s))%N ->
  (potential plan (mk_control st' None a' s') + 1 <= potential plan (mk_control st (Some (N.of_nat n)) a s))%N.
Proof.
  intros Hp Hn Hst Hs. rewrite (potential_at _ _ _ _ _ _ Hp Hn). unfold potential. simpl.
  rewrite bool_decide_false by done. pose proof (node_left_pos (nd_kind node) st a).
  destruct (bool_decide _); lia.
Qed.

Lemma frames_app plan s s' :
  sum (map (frame_cost plan) (s ++ s'))
  = (sum (map (frame_cost plan) s) + sum (map (frame_cost plan) s'))%N.
Proof. by rewrite map_app, sum_app. Qed.

Lemma potential_failed plan n node st a s a' policy following c :
  plan_wf plan -> pl_nodes plan !! n = Some node -> stack_at plan n (rev s) ->
  failure_of (nd_kind node) = Some (policy, following) -> failed policy following a' s c ->
  (potential plan c + 1 <= potential plan (mk_control st (Some (N.of_nat n)) a s))%N.
Proof.
  intros Hp Hn Hs Hf Hc.
  assert (Hed : In following (edges (nd_kind node)) /\ is_join (nd_kind node) = false
    /\ forall entry, policy = Pf_Fallback entry -> In entry (edges (nd_kind node))).
  { destruct (nd_kind node); simplify_eq/=; (split; [by left|]); (split; [done|]); intros entry ->; simpl; auto. }
  destruct Hed as (Hfol & Hnj & Hfall).
  destruct Hc as [stack ->|stack entry ->|outer frame ->|stack _].
  - eapply potential_follow; done.
  - destruct entry as [entry|]; (eapply potential_follow; [done|done| |done]); [by apply Hfall|done].
  - rewrite rev_app_distr in Hs. simpl in Hs.
    pose proof (not_at_join _ _ _ _ Hp Hs Hn Hnj _ _ eq_refl) as Hne.
    destruct (stack_join_kind _ _ _ _ Hp Hs) as (j & jn & next & Hjoin & Hl & _ & Hle).
    rewrite Hjoin in *. assert (j < n) by lia.
    pose proof (potential_arrive plan j a' (outer ++ [frame_with frame (cn_remaining_branches frame) true]) Hp (lookup_lt_Some _ _ _ Hl)) as Harr.
    pose proof (cost_below plan j n Hp (lookup_lt_Some _ _ _ Hn) ltac:(lia)).
    rewrite (potential_at _ _ _ _ _ _ Hp Hn). pose proof (node_left_pos (nd_kind node) st a).
    rewrite frames_app in *. unfold frame_cost in *. simpl in *. destruct (bool_decide _); lia.
  - by eapply potential_end.
Qed.

(** The type of the retry count. *)
Definition retries_u16 (plan : AutomationExecutionPlan) : Prop :=
  forall i node t p g retry f x, pl_nodes plan !! i = Some node ->
    nd_kind node = Node_Command t p g retry f x -> (rp_maximum_retries retry <= u16_max)%N.

Definition retries_fit (plan : AutomationExecutionPlan) : bool :=
  forallb (fun node => match nd_kind node with
    | Node_Command _ _ _ retry _ _ => N.leb (rp_maximum_retries retry) u16_max
    | _ => true end) (pl_nodes plan).

Lemma retries_fit_u16 plan : retries_fit plan = true -> retries_u16 plan.
Proof.
  unfold retries_fit. intros Hall i node t p g retry f x Hi Hk. rewrite forallb_forall in Hall.
  specialize (Hall node). rewrite Hk in Hall. apply N.leb_le, Hall, list_elem_of_In.
  by eapply list_elem_of_lookup_2.
Qed.

Lemma move_potential plan progress c c' :
  plan_wf plan -> retries_u16 plan -> control_wf plan c -> move plan progress c c' ->
  (potential plan c' + (if progress then 1 else 0) <= potential plan c)%N.
Proof.
  intros Hp Hu16 Hwf Hmove. destruct Hmove.
  - pose proof (cw_node _ _ Hwf) as (i & node & Hi & Hn & _). simpl in Hi. subst n.
    rewrite !(potential_at _ _ _ _ _ _ Hp Hn).
    rewrite (bool_decide_true (Run_Pending = Run_Pending)), (bool_decide_false (Run_Running = Run_Pending)) by done.
    pose proof (cw_pending _ _ Hwf eq_refl) as Hinit. unfold initial in Hinit. simplify_eq.
    assert (node_left (nd_kind node) Run_Running None <= node_left (nd_kind node) Run_Pending None + 1)%N.
    { destruct (nd_kind node); simpl; lia. }
    lia.
  - at_node Hp Hwf. by eapply potential_end.
  - assert (Hrunning : Run_Running <> Run_Pending) by done. at_node Hp Hwf.
    rewrite !(potential_at _ _ _ _ _ _ Hp Hn), Hnk. destruct kind; try done; simpl; lia.
  - at_node Hp Hwf. rewrite !(potential_at _ _ _ _ _ _ Hp Hn), Hnk.
    destruct Hrw as [-> | ->]; destruct kind; try done; simpl; lia.
  - lia.
  - at_node Hp Hwf. subst kind.
    assert (Hres : resumed (nd_kind node) st = Run_Running).
    { destruct (nd_kind node); try done. simpl. by apply Hrun; [|intros []..]. }
    rewrite Hres. eapply potential_follow; [done|done|by eapply successor_In|done].
  - at_node Hp Hwf. eapply potential_failed; [done..|by rewrite Hnk|done].
  - at_node Hp Hwf. eapply potential_failed; [done..|by rewrite Hnk|done].
  - at_node Hp Hwf. eapply potential_follow; [done|done| |done]. rewrite Hnk. by left.
  - at_node Hp Hwf. rewrite !(potential_at _ _ _ _ _ _ Hp Hn), Hnk.
    rewrite !bool_decide_false by (by destruct Hrw as [-> | ->]). simpl.
    match goal with Ha : _ \/ _ |- _ => destruct Ha as [->|[k ->]] end; simpl; lia.
  - at_node Hp Hwf. rewrite !(potential_at _ _ _ _ _ _ Hp Hn), Hnk.
    rewrite !bool_decide_false by (by destruct Hrw as [-> | ->]). simpl.
    match goal with Ha : _ \/ _ |- _ => destruct Ha as [->|(k & phase & -> & Hph)] end; simpl in *.
    + lia.
    + destruct phase; try done; lia.
  - at_node Hp Hwf. rewrite !(potential_at _ _ _ _ _ _ Hp Hn), Hnk.
    rewrite !bool_decide_false by (by destruct Hrw as [-> | ->]). simpl.
    pose proof (Hu16 _ _ _ _ _ _ _ _ Hn Hnk). unfold u16_saturating_add, u16_max in *.
    destruct (cw_node _ _ Hwf) as (i' & node' & Hi & Hn' & _ & _ & Ha). simpl in *.
    injection Hi as Hi. assert (i' = i) as -> by lia. simplify_eq.
    destruct (Ha _ _ _ eq_refl) as (_ & t' & p' & g' & r' & f' & x' & Hk' & _ & Hlt).
    rewrite Hk' in Hnk. simplify_eq. specialize (Hlt eq_refl). lia.
  - at_node Hp Hwf. subst kind. pose proof (lookup_lt_Some _ _ _ Hn).
    assert (Hst' : st = Run_Running).
    { destruct (nd_kind node); simplify_eq/=; by apply Hrun; [|intros []..]. }
    subst st.
    match goal with Hg : group_of _ = _ |- _ =>
      destruct (stack_enter _ _ _ _ _ _ _ _ group Hp Hs Hn Hg) as (k & -> & Hk & _);
      assert (Hb : branches_of (nd_kind node) = N.of_nat k :: remaining) by (unfold branches_of; by rewrite Hg) end.
    pose proof (potential_arrive plan k a (s ++ [mk_continuation (N.of_nat i) group join remaining false maximum]) Hp ltac:(lia)) as Harr.
    rewrite (potential_at _ _ _ _ _ _ Hp Hn), Hb. rewrite frames_app in Harr.
    unfold frame_cost at 2 in Harr. simpl in *.
    pose proof (node_left_pos (nd_kind node) Run_Running a). lia.
  - at_node Hp Hwf. rewrite (Hrun eq_refl) by (by intros []).
    eapply potential_follow; [done|done| |done]. rewrite Hnk. by left.
  - at_node Hp Hwf. rewrite (Hrun eq_refl) by (by intros []).
    rewrite rev_app_distr in Hs. simpl in Hs.
    inversion Hs as [|? ? ? g j gn branches m Hg Hj' Hgn Hgr Hr Hsub Hout Hsep]; subst.
    destruct (pw_groups _ Hp _ _ _ _ _ Hgn Hgr) as (_ & _ & _ & j' & nx & _ & _ & _ & Hbr & _).
    destruct (Hbr branch) as (k & -> & Hkr); [apply Hsub; match goal with Hq : cn_remaining_branches frame = _ |- _ => rewrite Hq end; by left|].
    pose proof (lookup_lt_Some _ _ _ Hgn).
    pose proof (potential_arrive plan k a (outer ++ [frame_with frame remaining false]) Hp ltac:(lia)) as Harr.
    assert (Hfc : frame_cost plan frame = (cost plan (N.of_nat k) + sum (map (cost plan) remaining))%N)
      by (unfold frame_cost; match goal with Hq : cn_remaining_branches frame = _ |- _ => by rewrite Hq end).
    rewrite (potential_at _ _ _ _ _ _ Hp Hn), frames_app. rewrite frames_app in Harr.
    unfold frame_cost at 2 in Harr. simpl in *. rewrite Hfc. pose proof (node_left_pos (nd_kind node) Run_Running a). lia.
  - at_node Hp Hwf. rewrite (Hrun eq_refl) by (by intros []).
    eapply potential_follow; [done|done|rewrite Hnk; by left|]. rewrite frames_app. lia.
  - at_node Hp Hwf. eapply potential_end; [done|done|done|]. rewrite frames_app. lia.
Qed.

(** ** Runs *)

(** Positions a run reaches, with the number of its moves that made progress. *)
Inductive run_path (plan : AutomationExecutionPlan) : nat -> Control -> Prop :=
| Rp_initial : run_path plan 0 (initial plan)
| Rp_move n c progress c' : run_path plan n c -> move plan progress c c' ->
    run_path plan (if progress : bool then S n else n) c'.

Lemma terminal_no_move plan progress c c' :
  AutomationRunState.is_terminal (k_state c) = true -> k_node c = None -> ~ move plan progress c c'.
Proof. intros Ht Hn Hm. destruct Hm; simpl in *; simplify_eq. Qed.

Lemma run_path_settled plan n c :
  plan_wf plan -> run_path plan n c -> settled plan c.
Proof.
  intros Hp Hpath. induction Hpath as [|n c progress c' _ IH Hm]; [left; by apply initial_wf|].
  destruct IH as [Hwf|(Ht & Hn & _)]; [|by destruct (terminal_no_move _ _ _ _ Ht Hn Hm)].
  by destruct (move_sound _ _ _ _ Hp Hwf Hm).
Qed.

Lemma run_path_potential plan n c :
  plan_wf plan -> retries_u16 plan -> run_path plan n c ->
  (N.of_nat n + potential plan c <= potential plan (initial plan))%N.
Proof.
  intros Hp Hu Hpath. induction Hpath as [|n c progress c' Hpath IH Hm]; [simpl; lia|].
  destruct (run_path_settled _ _ _ Hp Hpath) as [Hwf|(Ht & Hn & _)];
    [|by destruct (terminal_no_move _ _ _ _ Ht Hn Hm)].
  pose proof (move_potential _ _ _ _ Hp Hu Hwf Hm). destruct progress; lia.
Qed.

Lemma run_path_cost plan n c :
  plan_wf plan -> retries_u16 plan -> run_path plan n c ->
  (N.of_nat n <= cost plan (pl_entry plan) + 2)%N.
Proof.
  intros Hp Hu Hpath. pose proof (run_path_potential _ _ _ Hp Hu Hpath) as Hle. pose proof (pw_entry _ Hp) as He.
  destruct (lookup_lt_is_Some_2 (pl_nodes plan) (N.to_nat (pl_entry plan)) ltac:(lia)) as [node Hn].
  unfold initial in Hle. rewrite <- (N2Nat.id (pl_entry plan)) in Hle |- *.
  rewrite (potential_at _ _ _ _ _ _ Hp Hn) in Hle. simpl in Hle.
  rewrite (cost_step _ _ _ Hp Hn). pose proof (node_left_le (nd_kind node) Run_Pending None). lia.
Qed.

Section Compiled.
Context `{SerdeJson} `{Calendar} `{Sha256} `{AutomationEncoding}.

(** Whatever moves a run of a compiled plan makes, it stands at a node of its
    plan in legally linked states, inside nested groups whose joins lie strictly
    behind each other and whose remaining branches are branches of the group; its
    command attempt belongs to the command it stands at and stays within the
    retries; and it completes only outside every group. *)
Theorem run_position document snapshot plan n c progress c' :
  compile document snapshot = Ok plan -> run_path plan n c -> move plan progress c c' ->
  control_wf plan c
  /\ AutomationRunState.allows_revision_to (k_state c) (k_state c') = true
  /\ (control_wf plan c'
      \/ AutomationRunState.is_terminal (k_state c') = true /\ k_node c' = None
         /\ (k_state c' = Run_Completed -> k_stack c' = [])).
Proof.
  intros Hc Hpath Hm. pose proof (compile_wf _ _ _ Hc) as Hp.
  destruct (run_path_settled _ _ _ Hp Hpath) as [Hwf|(Ht & Hn & _)];
    [|by destruct (terminal_no_move _ _ _ _ Ht Hn Hm)].
  destruct (move_sound _ _ _ _ Hp Hwf Hm). auto.
Qed.

End Compiled.

(** ** A run of the hall plan: both branches of its group, one after the other *)

Definition hall_frame (remaining : list N) (failed : bool) : AutomationRunContinuation :=
  mk_continuation 4 Ck_Parallel 1 remaining failed 2.

Lemma hall_path : run_path (plan_of hall_document) 7 (mk_control Run_Running (Some 0%N) None []).
Proof.
  eapply (Rp_move _ 6 (mk_control Run_Running (Some 1%N) None ([] ++ [hall_frame [] false])) true);
    [|apply (Mv_group_done _ 1%N Run_Running None [] (hall_frame [] false)); [done|vm_compute; reflexivity|done..]].
  eapply (Rp_move _ 5 (mk_control Run_Waiting (Some 3%N) None [hall_frame [] false]) true);
    [|apply (Mv_next _ 3%N Run_Waiting None [hall_frame [] false] (Node_Delay 500 (Some 1%N)));
       [done|vm_compute; reflexivity|done]].
  eapply (Rp_move _ 4 (mk_control Run_Running (Some 3%N) None [hall_frame [] false]) true);
    [|eapply (Mv_timer _ _ _ _ (Node_Delay 500 (Some 1%N))); [vm_compute; reflexivity|done]].
  eapply (Rp_move _ 3 (mk_control Run_Running (Some 1%N) None ([] ++ [hall_frame [3%N] false])) true);
    [|apply (Mv_branch_done _ 1%N Run_Running None [] (hall_frame [3%N] false) (Some 0%N) 3%N []);
       [done|vm_compute; reflexivity|done..]].
  eapply (Rp_move _ 2 (mk_control Run_Running (Some 2%N) None [hall_frame [3%N] false]) true);
    [|eapply Mv_confirmed; [done|vm_compute; reflexivity]].
  eapply (Rp_move _ 1 (mk_control Run_Running (Some 4%N) None []) true);
    [|apply (Mv_enter _ 4%N Run_Running None [] (Node_Parallel [2%N; 3%N] 2 (Some 1%N)) 2%N [3%N] 2%N 1%N
         Ck_Parallel); [done|vm_compute; reflexivity|done..]].
  eapply (Rp_move _ 0 (initial (plan_of hall_document)) true); [constructor|].
  assert (He : pl_entry (plan_of hall_document) = 4%N) by (vm_compute; reflexivity).
  unfold initial. rewrite He. constructor.
Qed.

Lemma hall_compiled : compile hall_document hall = Ok (plan_of hall_document).
Proof.
  unfold plan_of. assert (Hok : is_ok (compile hall_document hall) = true) by (vm_compute; reflexivity).
  by destruct (compile hall_document hall).
Qed.

Lemma run_position_witness :
  k_stack (mk_control Run_Completed None None []) = []
  /\ control_wf (plan_of hall_document) (mk_control Run_Running (Some 0%N) None []).
Proof.
  assert (Hm : move (plan_of hall_document) true (mk_control Run_Running (Some 0%N) None [])
    (mk_control Run_Completed None None [])).
  { apply Mv_complete; [done|]. vm_compute. reflexivity. }
  destruct (run_position hall_document hall (plan_of hall_document) 7 _ true _ hall_compiled hall_path Hm)
    as [Hwf [_ [Hbad|[_ [_ Hs]]]]]; [by destruct (cw_active _ _ Hbad)|].
  exact (conj (Hs eq_refl) Hwf).
Defined.
