(* ===== verification/AutomationRefine.v ===== *)
(** The interpreter refines the abstract machine: whatever the operations of a
    step answer, what it commits is one legal move of the run it loaded under the
    plan it loaded, and what it sends follows from the position it loaded. *)

From S2P Require Import Prelude Text BTree AutomationEvaluator Json Capability Lifecycle Device Command Policy MatterState CommandStore MatterStore Effects CommandService MatterOperation Automation Identity AutomationStore AutomationCompiler AutomationPlan AutomationRuntime AutomationMoves.

(** ** What every evaluation keeps *)

Fixpoint resolved_nested_ind (P : ResolvedAutomationCondition -> Prop)
  (HL : forall b, P (Rc_Literal b)) (HC : forall l o r, P (Rc_Compare l o r))
  (HAll : forall l, Forall P l -> P (Rc_All l)) (HAny : forall l, Forall P l -> P (Rc_Any l))
  (HN : forall c, P c -> P (Rc_Not c)) (HT : forall z s e, P (Rc_TimeWindow z s e))
  (HD : forall c d, P c -> P (Rc_StateDuration c d)) (c : ResolvedAutomationCondition) : P c :=
  let each := fix go (l : list ResolvedAutomationCondition) : Forall P l :=
    match l with
    | [] => List.Forall_nil P
    | c :: l => List.Forall_cons P c l (resolved_nested_ind P HL HC HAll HAny HN HT HD c) (go l)
    end in
  match c with
  | Rc_Literal b => HL b
  | Rc_Compare l o r => HC l o r
  | Rc_All l => HAll l (each l)
  | Rc_Any l => HAny l (each l)
  | Rc_Not c => HN c (resolved_nested_ind P HL HC HAll HAny HN HT HD c)
  | Rc_TimeWindow z s e => HT z s e
  | Rc_StateDuration c d => HD c d (resolved_nested_ind P HL HC HAll HAny HN HT HD c)
  end.

Section Keep.
Context `{Calendar} {C : Type} `{!AutomationEvaluationContext C} (P : C -> Prop).
Hypothesis duration_keeps : forall evaluate condition duration_ms c,
  (forall c, P c -> P (evaluate c).2) -> P c ->
  P (ctx_state_duration evaluate condition duration_ms c).2.

Lemma evaluate_keeps condition variables c :
  P c -> P (evaluate_automation_condition condition variables c).2.
Proof.
  revert c. induction condition as [b|l o r|l IH|l IH|condition IH|z s e|condition d IH]
    using resolved_nested_ind; intros c Hc; simpl; try done.
  1-2: revert c Hc; induction IH as [|condition l Hcond _ IHl]; intros c Hc; simpl; [done|];
    specialize (Hcond c Hc); destruct (evaluate_automation_condition condition variables c) as [[v|e] c1];
    simpl in *; [destruct (Bool.eqb _ _); [done|by apply IHl]|done].
  - specialize (IH c Hc). by destruct (evaluate_automation_condition condition variables c) as [[v|e] c1].
  - by apply duration_keeps.
Qed.
End Keep.

Section Refine.
Context `{SerdeJson} `{Calendar} `{Sha256} `{AutomationEncoding} `{Uuids} `{Chrono}.

(** ** What a step has read *)

Record Read := mk_read {
  rd_run : option AutomationRun;
  rd_identity : option AutomationIdentityState;
  rd_version : option StoredAutomationVersion;
  rd_trace : option N;
  rd_timers : list AutomationTimer;
  rd_committed : bool
}.

Definition nothing_read : Read := mk_read None None None None [] false.

Definition reads (op : RtOp) : rt_resp op -> Read -> Read :=
  match op return rt_resp op -> Read -> Read with
  | Rt_automation_run _ => fun r t =>
      match r with
      | Ok (Some run) => mk_read (Some run) (rd_identity t) (rd_version t) (rd_trace t) (rd_timers t) (rd_committed t)
      | _ => t
      end
  | Rt_automation_identity _ => fun r t =>
      match r with
      | Ok (Some identity) => mk_read (rd_run t) (Some identity) (rd_version t) (rd_trace t) (rd_timers t) (rd_committed t)
      | _ => t
      end
  | Rt_automation_version _ _ => fun r t =>
      match r with
      | Ok (Some version) => mk_read (rd_run t) (rd_identity t) (Some version) (rd_trace t) (rd_timers t) (rd_committed t)
      | _ => t
      end
  | Rt_automation_trace _ _ _ => fun r t =>
      match r with
      | Ok trace => mk_read (rd_run t) (rd_identity t) (rd_version t) (Some (N.of_nat (length trace))) (rd_timers t) (rd_committed t)
      | _ => t
      end
  | Rt_automation_timer _ => fun r t =>
      match r with
      | Ok (Some timer) => mk_read (rd_run t) (rd_identity t) (rd_version t) (rd_trace t) (timer :: rd_timers t) (rd_committed t)
      | _ => t
      end
  | Rt_recoverable_automation_work _ => fun r t =>
      match r with
      | Ok recovery => mk_read (rd_run t) (rd_identity t) (rd_version t) (rd_trace t) (rcv_timers recovery ++ rd_timers t) (rd_committed t)
      | _ => t
      end
  | Rt_commit_automation_step _ => fun _ t =>
      mk_read (rd_run t) (rd_identity t) (rd_version t) (rd_trace t) (rd_timers t) true
  | _ => fun _ t => t
  end.

(** The run may be interpreted: it is not over, its version is the active one and
    its trace within the budget. *)
Definition live (t : Read) (run : AutomationRun) (plan : AutomationExecutionPlan) (sequence : N) : Prop :=
  rd_run t = Some run /\ AutomationRunState.is_terminal (ru_state run) = false
  /\ id_active_version <$> rd_identity t = Some (Some (ru_version run))
  /\ sv_plan <$> rd_version t = Some plan
  /\ rd_trace t = Some sequence /\ (sequence < bu_maximum_trace_steps (pl_budget plan))%N
  /\ rd_committed t = false.

(** A timer that was read, moved on. *)
Definition moved_timer (t : Read) (timer : AutomationTimer) : Prop :=
  exists read, read ∈ rd_timers t /\ (timer = read \/ timer = with_timer_state read Tm_Cancelled
    \/ timer = with_timer_state read Tm_Consumed).

(** A write that is one move of the run. *)
Record legal_write (t : Read) (run : AutomationRun) (plan : AutomationExecutionPlan) (sequence : N)
  (write : AutomationStepWrite) : Prop := {
  lw_move : exists progress, move plan progress (control_of run) (control_of (sw_run write));
  lw_expected : sw_expected_run_revision write = ru_revision run;
  lw_revision : ru_revision (sw_run write) = u64_saturating_add (ru_revision run) 1;
  lw_identity : ru_id (sw_run write) = ru_id run /\ ru_automation_id (sw_run write) = ru_automation_id run
    /\ ru_version (sw_run write) = ru_version run /\ ru_occurrence_id (sw_run write) = ru_occurrence_id run
    /\ ru_actor_id (sw_run write) = ru_actor_id run /\ ru_created_at (sw_run write) = ru_created_at run;
  lw_trace : exists step, sw_trace write = [step] /\ tt_run_id step = ru_id run
    /\ tt_sequence step = sequence
    /\ tt_id step = AutomationTraceId.from_run_sequence (ru_id run) sequence;
  lw_created : forall timer, timer ∈ sw_create_timers write ->
    tm_run_id timer = ru_id run /\ Some (tm_node_id timer) = ru_node_id run /\ tm_state timer = Tm_Pending;
  lw_moved : forall timer, timer ∈ sw_transition_timers write -> moved_timer t timer
}.

(** A request of the command the run stands at, under the key of its attempt. *)
Definition legal_request (run : AutomationRun) (plan : AutomationExecutionPlan) (request : CommandRequest) :
  Prop :=
  exists n targets payload segment retry policy following index target,
    ru_node_id run = Some n
    /\ kind_at plan n = Some (Node_Command targets payload segment retry policy following)
    /\ targets !! N.to_nat index = Some target
    /\ rq_device_id request = rt_device_id target /\ rq_endpoint_id request = rt_endpoint_id target
    /\ rq_payload request = payload /\ rq_dry_run request = false
    /\ key_text (rq_idempotency_key request)
       = command_key (ru_id run) n index (attempt_number (k_attempt (control_of run)))
    /\ (ru_command_attempt run = None \/ exists attempt, ru_command_attempt run = Some attempt
          /\ cat_phase attempt = At_Dispatch /\ In index (cat_target_indices attempt))
    /\ rq_automation_causation request
       = Some (mk_causation (ru_automation_id run) (ru_version run) (ru_id run)).

(** The run is read once, and then the version it belongs to. *)
Definition allowed (op : RtOp) (t : Read) : Prop :=
  match op with
  | Rt_automation_run _ => rd_run t = None
  | Rt_automation_version id number => exists run,
      rd_run t = Some run /\ id = ru_automation_id run /\ number = ru_version run
  | Rt_commit_automation_step write => exists run plan sequence,
      live t run plan sequence /\ legal_write t run plan sequence write
  | Rt_execute _ request _ => exists run plan sequence,
      live t run plan sequence /\ legal_request run plan request
  | _ => True
  end.

Abbreviation RtProg A := (Prog rt_resp (result A AutomationRuntimeError)) (only parsing).
Abbreviation wps m t Q := (wp allowed reads (fun _ _ _ => True) m t Q) (only parsing).

(** ** Rules *)

Lemma wp_with_now {A : Type} (k : Instant -> RtProg A) t Q :
  (forall now, wps (k now) t Q) -> wps (with_now k) t Q.
Proof. intros Hk. simpl. auto. Qed.

Lemma wp_or_fail {A B : Type} (value : option A) error (k : A -> RtProg B) t Q :
  (forall a, value = Some a -> wps (k a) t Q) -> Q (Err error) t -> wps (or_fail value error k) t Q.
Proof. intros Hk He. destruct value; simpl; auto. Qed.

(** What the result of a step tells. *)
Definition told (r : result AutomationRuntimeStep AutomationRuntimeError) (t : Read) : Prop :=
  match r with
  | Ok (Rs_Advanced | Rs_Completed) => rd_committed t = true
  | Ok Rs_NoWork => rd_committed t = false
  | _ => True
  end.

Lemma wp_commit_traced {A : Type} next run plan sequence node_id kind values create_timers
  transition_timers (value : A) t (Q : result A AutomationRuntimeError -> Read -> Prop) :
  live t run plan sequence ->
  (exists progress, move plan progress (control_of run) (control_of next)) ->
  (ru_revision next = u64_saturating_add (ru_revision run) 1
     /\ ru_id next = ru_id run /\ ru_automation_id next = ru_automation_id run
     /\ ru_version next = ru_version run /\ ru_occurrence_id next = ru_occurrence_id run
     /\ ru_actor_id next = ru_actor_id run /\ ru_created_at next = ru_created_at run) ->
  (forall timer, timer ∈ create_timers ->
    tm_run_id timer = ru_id run /\ Some (tm_node_id timer) = ru_node_id run /\ tm_state timer = Tm_Pending) ->
  (forall timer, timer ∈ transition_timers -> moved_timer t timer) ->
  (forall e t', rd_committed t' = true -> Q (Err e) t') ->
  (forall t', rd_committed t' = true -> Q (Ok value) t') ->
  wps (commit_traced next run sequence node_id kind values create_timers transition_timers value) t Q.
Proof.
  intros Hlive Hmove (Hrev & Hid & Haut & Hver & Hocc & Hact & Hcre) Hct Htt Herr Hok.
  simpl in *. split; [done|]. intros now' _. split.
  - exists run, plan, sequence. split; [done|].
    split; simpl; try done.
    eexists. split; [done|]. simpl. by rewrite Hid.
  - intros [[]|e] _; simpl; auto.
Qed.

Lemma key_new_text value key : IdempotencyKey.new value = Ok key -> key_text key = value.
Proof. unfold IdempotencyKey.new. intros Hk. repeat (case_match; simplify_eq/=; try done). Qed.

(** ** Steps at a node *)

Definition attempt_of (run : AutomationRun) : option (N * N * AutomationCommandAttemptPhase) :=
  (fun a => (cat_node_id a, cat_attempt a, cat_phase a)) <$> ru_command_attempt run.

Lemma control_here run n :
  ru_node_id run = Some n ->
  control_of run = mk_control (ru_state run) (Some n) (attempt_of run) (ru_continuations run).
Proof. unfold control_of. by intros ->. Qed.

Ltac commits := eapply wp_commit_traced;
  [eassumption| |by split_and!| | |done|done].

Section Node.
Variables (run : AutomationRun) (plan : AutomationExecutionPlan) (sequence : N) (n : AutomationPlanNodeId).
Hypothesis Hnode : ru_node_id run = Some n.
Hypothesis Hstate : ru_state run <> Run_Pending.

Lemma wp_step_complete t :
  live t run plan sequence -> kind_at plan n = Some Node_Complete ->
  wps (step_complete run n sequence) t told.
Proof.
  intros Hlive Hk. apply wp_with_now. intros now. commits; try set_solver.
  rewrite (control_here _ _ Hnode). eexists. by apply Mv_complete.
Qed.

Lemma wp_step_set_variable t name value following :
  live t run plan sequence -> kind_at plan n = Some (Node_SetVariable name value following) ->
  wps (step_set_variable run n name value following sequence) t told.
Proof.
  intros Hlive Hk. unfold step_set_variable. simpl. split; [done|]. intros [snapshot|e] _; simpl; [|done].
  split; [done|]. intros now _. destruct (evaluate_automation_expression _ _ _); [|done].
  apply wp_with_now. intros now'. commits; try set_solver.
  rewrite (control_here _ _ Hnode). eexists. by apply (Mv_next _ _ _ _ _ _ following Hstate Hk).
Qed.

Lemma wp_start_timer t kind timer_kind milliseconds values :
  live t run plan sequence -> ru_state run = Run_Running -> kind_at plan n = Some kind -> timed kind ->
  wps (start_timer run n timer_kind milliseconds sequence values) t told.
Proof.
  intros Hlive Hr Hk Ht. apply wp_or_fail; [|done]. intros ms _.
  apply wp_with_now. intros now. apply wp_or_fail; [|done]. intros ready _.
  apply wp_with_now. intros now'. commits; [| |set_solver].
  - unfold control_of. simpl. rewrite Hnode, Hr. eexists. by eapply Mv_timer.
  - intros timer ->%list_elem_of_singleton. by rewrite Hnode.
Qed.

Lemma live_read t t' :
  rd_run t' = rd_run t -> rd_identity t' = rd_identity t -> rd_version t' = rd_version t ->
  rd_trace t' = rd_trace t -> rd_committed t' = rd_committed t ->
  live t run plan sequence -> live t' run plan sequence.
Proof. unfold live. by intros -> -> -> -> ->. Qed.

Lemma wp_find_timer t kind (k : AutomationTimer -> RtProg AutomationRuntimeStep) :
  live t run plan sequence ->
  (forall timer t', live t' run plan sequence -> timer ∈ rd_timers t' ->
     (forall x, x ∈ rd_timers t -> x ∈ rd_timers t') -> wps (k timer) t' told) ->
  wps (try_bind (find_timer run n kind) k) t told.
Proof.
  intros Hlive Hk. unfold find_timer. simpl. split; [done|]. intros [recovery|e] _; simpl; [|done].
  destruct (List.find _ _) as [timer|] eqn:Hf; simpl; [|done].
  apply List.find_some in Hf as [Hin _]. apply Hk; [by eapply live_read, Hlive|simpl|simpl].
  - apply elem_of_app. left. by apply list_elem_of_In.
  - intros x Hx. apply elem_of_app. by right.
Qed.

Lemma wp_step_delay t duration_ms following :
  live t run plan sequence -> kind_at plan n = Some (Node_Delay duration_ms following) ->
  wps (step_delay run n duration_ms following sequence) t told.
Proof.
  intros Hlive Hk. unfold step_delay. case_bool_decide as Hr; [by eapply wp_start_timer|].
  apply wp_find_timer; [done|]. intros timer t' Hlive' Hin _.
  destruct (negb _); [done|]. apply wp_with_now. intros now. commits; [|set_solver|].
  - rewrite (control_here _ _ Hnode). eexists. by apply (Mv_next _ _ _ _ _ _ following Hstate Hk).
  - intros x ->%list_elem_of_singleton. exists timer. auto.
Qed.

Lemma wp_enter_group t branches maximum join group kind :
  live t run plan sequence -> kind_at plan n = Some kind ->
  group_of kind = Some (branches, maximum, join) -> group_kind kind = Some group ->
  wps (enter_group run n branches maximum join group sequence) t told.
Proof.
  intros Hlive Hk Hg Hgk. destruct branches as [|first remaining]; [done|].
  apply wp_or_fail; [|done]. intros j ->. apply wp_with_now. intros now. commits; try set_solver.
  rewrite (control_here _ _ Hnode). eexists. by eapply Mv_enter.
Qed.

Lemma split_last_some {A} (l init : list A) last :
  split_last l = Some (init, last) -> l = init ++ [last].
Proof.
  revert init. induction l as [|a l IH]; intros init Hs; [done|]. simpl in Hs.
  destruct l as [|b l]; [by injection Hs as <- <-|].
  destruct (split_last (b :: l)) as [[init' last']|] eqn:E; [|done]. injection Hs as <- <-.
  by rewrite (IH _ eq_refl).
Qed.

Lemma split_last_none {A} (l : list A) : split_last l = None -> l = [].
Proof.
  induction l as [|a l IH]; [done|]. simpl. destruct l as [|b l]; [done|].
  destruct (split_last (b :: l)) as [[]|] eqn:E; [done|]. intros _. by specialize (IH eq_refl).
Qed.

Lemma wp_step_join t next :
  live t run plan sequence -> kind_at plan n = Some (Node_Join next) ->
  wps (step_join run n next sequence) t told.
Proof.
  intros Hlive Hk. apply wp_with_now. intros now. unfold join_run. simpl.
  assert (Hpass : forall (Hno : forall outer frame, ru_continuations run = outer ++ [frame] -> cn_join_node_id frame <> n),
    exists progress, move plan progress (control_of run) (control_of (with_node (checkpoint run now) next))).
  { intros Hno. rewrite (control_here _ _ Hnode). eexists. by eapply Mv_pass. }
  destruct (split_last (ru_continuations run)) as [[outer frame]|] eqn:Hs.
  - pose proof (split_last_some _ _ _ Hs) as Hc.
    destruct (N.eqb_spec (cn_join_node_id frame) n) as [Hj|Hj].
    + fold (is_race frame). destruct (is_race frame && negb (cn_current_branch_failed frame)) eqn:Hrace.
      * apply andb_true_iff in Hrace as [Hrc Hok]. bool_inv. commits; try set_solver.
        rewrite (control_here _ _ Hnode), Hc. eexists. apply Mv_group_done; try done. by rewrite Hrc.
      * destruct (cn_remaining_branches frame) as [|branch remaining] eqn:Hrem.
        -- destruct (is_race frame && negb (negb (cn_current_branch_failed frame))) eqn:Hlost.
           ++ apply andb_true_iff in Hlost as [Hrc Hf]. bool_inv. commits; try set_solver.
              rewrite (control_here _ _ Hnode), Hc. eexists. by eapply Mv_race_lost.
           ++ commits; try set_solver. rewrite (control_here _ _ Hnode), Hc. eexists.
              apply Mv_group_done; try done.
              destruct (is_race frame), (cn_current_branch_failed frame); simpl in *; done.
        -- commits; try set_solver. rewrite (control_here _ _ Hnode), Hc. eexists. by eapply Mv_branch_done.
    + commits; try set_solver. apply Hpass. intros o f Ho. rewrite Ho in Hc.
      by apply app_inj_tail in Hc as [_ ->].
  - commits; try set_solver. apply Hpass. intros o f Ho. apply split_last_none in Hs. rewrite Hs in Ho.
    by destruct o.
Qed.

(** ** Conditions *)

Definition all_read (t : Read) (timers : list (string * AutomationTimer)) : Prop :=
  forall kv, In kv timers -> kv.2 ∈ rd_timers t.

Lemma In_binsert {V} k (v : V) m kv : In kv (binsert k v m) -> kv = (k, v) \/ In kv m.
Proof.
  induction m as [|[k' v'] m IH]; simpl; [naive_solver|].
  destruct (String.eqb k k'); simpl; [naive_solver|].
  destruct (str_ltb k k'); simpl; naive_solver.
Qed.

(** The request an evaluation leaves names a timer of this node. *)
Definition context_ok (timers : list (string * AutomationTimer)) (c : RuntimeEvaluationContext) : Prop :=
  rec_timers c = Some timers /\ rec_run_id c = Some (ru_id run) /\ rec_node_id c = Some n
  /\ match rec_request c with
     | Some (Drq_Start _ timer) =>
         tm_run_id timer = ru_id run /\ tm_node_id timer = n /\ tm_state timer = Tm_Pending
     | Some (Drq_Mature _ timer) => exists k, In (k, timer) timers
     | _ => True
     end.

Lemma context_keeps timers evaluate condition duration_ms c :
  (forall c, context_ok timers c -> context_ok timers (evaluate c).2) -> context_ok timers c ->
  context_ok timers (state_duration evaluate condition duration_ms c).2.
Proof.
  intros He Hc. unfold state_duration. specialize (He c Hc).
  pose proof Hc as (_ & Hrun & Hn & _). rewrite Hn, Hrun.
  destruct (canonical_automation_hash _) as [hash|]; [|done].
  destruct (evaluate c) as [[[|]|e] c1]; simpl in *; [|done..].
  destruct He as (Ht & Hr1 & Hn1 & Hreq). unfold held_duration.
  destruct (List.find _ _) as [duration|].
  - destruct (cdu_phase duration); [|done]. rewrite Ht. simpl.
    destruct (bget (cdu_timer_id duration) timers) as [timer|] eqn:Hb; [|done].
    destruct (tm_state timer); simpl; try done.
    split_and!; try done. simpl. exists (cdu_timer_id duration). by apply bget_In.
  - destruct (i64_try_from_u64 duration_ms); [|done]. destruct (checked_add_signed _ _); [|done].
    simpl. done.
Qed.

Lemma wp_load_timers {A} durations timers t (k : list (string * AutomationTimer) -> RtProg A) Q :
  live t run plan sequence -> all_read t timers ->
  (forall timers t', live t' run plan sequence -> all_read t' timers -> wps (k timers) t' Q) ->
  (forall e t', Q (Err e) t') -> wps (try_bind (load_timers durations timers) k) t Q.
Proof.
  intros Hlive Hall Hk He. revert t timers Hlive Hall.
  induction durations as [|d durations IH]; intros t timers Hlive Hall; simpl; [by apply Hk|].
  split; [done|]. intros [[timer|]|e] _; simpl; [|apply He..].
  apply IH; [by eapply live_read, Hlive|].
  intros kv [->|Hin]%In_binsert; simpl; [by apply list_elem_of_here|].
  apply list_elem_of_further. by apply Hall.
Qed.

(** What a resolved condition hands on: timers that were read. *)
Definition prepared_ok (t : Read) (prepared : PreparedRuntimeCondition) : Prop :=
  (forall timer, timer ∈ pc_reset_timers prepared -> moved_timer t timer)
  /\ (forall timer, timer ∈ pc_active_timers prepared -> timer ∈ rd_timers t).

Lemma moved_cancel t timer : timer ∈ rd_timers t -> moved_timer t (cancel_timer timer).
Proof.
  intros Hin. exists timer. split; [done|]. unfold cancel_timer. destruct (tm_state timer); auto.
Qed.

Lemma moved_map_cancel t timers timer :
  (forall timer, timer ∈ timers -> timer ∈ rd_timers t) -> timer ∈ map cancel_timer timers ->
  moved_timer t timer.
Proof.
  intros Hall Hin. apply list_elem_of_In, in_map_iff in Hin as (x & <- & Hx).
  by apply moved_cancel, Hall, list_elem_of_In.
Qed.

Lemma wp_evaluate condition kind t (k : RuntimeConditionResult -> RtProg AutomationRuntimeStep) :
  live t run plan sequence -> kind_at plan n = Some kind -> conditional kind ->
  (forall prepared t', live t' run plan sequence -> prepared_ok t' prepared ->
     wps (k (Rcr_Resolved prepared)) t' told) ->
  (forall t', wps (k Rcr_Waiting) t' told) ->
  wps (try_bind (evaluate_runtime_condition run n condition sequence) k) t told.
Proof.
  intros Hlive Hkind Hcond Hk Hw. unfold evaluate_runtime_condition. apply wp_try.
  simpl. split; [done|]. intros [snapshot|e] _; simpl; [|done].
  apply wp_load_timers; [done|by intros kv []| |done].
  clear t Hlive. intros timers t Hlive Hall. apply wp_with_now. intros now.
  set (c0 := mk_context now snapshot _ _ _ _ _ _).
  assert (Hc : context_ok timers (evaluate_automation_condition condition (ru_variables run) c0).2).
  { apply (evaluate_keeps (context_ok timers)); [|done]. intros. by apply context_keeps. }
  destruct (evaluate_automation_condition condition (ru_variables run) c0) as [evaluated c].
  simpl in Hc. destruct Hc as (Ht & _ & _ & Hreq).
  assert (Hread : forall timer, timer ∈ map snd timers -> timer ∈ rd_timers t).
  { intros timer Hin. apply list_elem_of_In, in_map_iff in Hin as (kv & <- & Hin). by apply Hall. }
  set (resets := map cancel_timer (List.filter (is_reset (ru_condition_durations run)
    (rec_invalid_durations c)) (map snd timers))).
  assert (Hresets : forall timer, timer ∈ resets -> moved_timer t timer).
  { intros timer Hin. eapply moved_map_cancel; [|exact Hin]. intros x Hx.
    apply list_elem_of_In, filter_In in Hx as [Hx _]. by apply Hread, list_elem_of_In. }
  clearbody resets. cbv zeta.
  destruct evaluated as [value|e].
  { apply Hk; [done|]. split; simpl; [done|]. intros timer Hin.
    apply list_elem_of_In, filter_In in Hin as [Hin _]. by apply Hread, list_elem_of_In. }
  destruct e; try done. apply wp_or_fail; [|done]. intros request Hrequest. rewrite Hrequest in Hreq.
  assert (Hgo : wps (with_now (fun now => or_fail (apply_request request
      (List.filter (fun duration => negb (bool_decide (cdu_condition_hash duration ∈ rec_invalid_durations c)))
         (ru_condition_durations run)) resets) Rte_InvalidPlan
      (fun '(durations, create_timers, transition_timers, event) =>
         commit_traced (with_durations (with_state (checkpoint run now) Run_Waiting) durations) run sequence
           (Some n) Tr_Timer [("event"%string, Val_String event)] create_timers transition_timers Rcr_Waiting)))
    t (fun r t => match r with Ok a => wps (k a) t told | Err e => told (Err e) t end)).
  { apply wp_with_now. intros now'. apply wp_or_fail; [|done].
    intros [[[durations create] moved] event] Happ.
    assert (Htimers : (forall timer, timer ∈ create -> tm_run_id timer = ru_id run
        /\ Some (tm_node_id timer) = ru_node_id run /\ tm_state timer = Tm_Pending)
      /\ (forall timer, timer ∈ moved -> moved_timer t timer)).
    { rewrite Hnode. destruct request as [d timer| |hash timer]; simpl in Happ; simplify_eq.
      - split; [|done]. intros x ->%list_elem_of_singleton. naive_solver.
      - split; [set_solver|done].
      - apply bind_Some in Happ as (ds & _ & Happ). simplify_eq. split; [set_solver|].
        intros x [Hx|Hx]%elem_of_app; [by apply Hresets|]. apply list_elem_of_singleton in Hx as ->.
        destruct Hreq as [key Hin]. exists timer. split; [by apply (Hall (key, timer))|]. auto. }
    destruct Htimers as [Hcreate Hmoved].
    eapply wp_commit_traced; [eassumption| |by split_and!|done|done|done|by auto].
    unfold control_of. simpl. rewrite Hnode. eexists. by eapply Mv_interval. }
  destruct request as [d timer| |hash timer]; [exact Hgo| |exact Hgo].
  destruct resets; [by apply Hw|exact Hgo].
Qed.

Lemma wp_step_branch t condition then_node else_node join :
  live t run plan sequence -> kind_at plan n = Some (Node_Branch condition then_node else_node join) ->
  wps (step_branch run n condition then_node else_node join sequence) t told.
Proof.
  intros Hlive Hk. unfold step_branch. eapply wp_evaluate; [done|done|done| |done].
  clear t Hlive. intros prepared t Hlive [Hreset Hactive]. apply wp_with_now. intros now.
  commits; [|set_solver|].
  - rewrite (control_here _ _ Hnode). eexists. eapply (Mv_next _ _ _ _ _ _ _ Hstate Hk). simpl.
    exists (if pc_value prepared then then_node else else_node). split; [destruct (pc_value prepared); auto|].
    by destruct (if pc_value prepared then then_node else else_node).
  - intros timer [Hin|Hin]%elem_of_app; [by apply Hreset|]. by eapply moved_map_cancel.
Qed.

(** ** Failures, waits and commands *)

Lemma apply_failure_spec run' policy following next outcome :
  apply_failure run' policy following = (next, outcome) ->
  failed policy following (attempt_of run') (ru_continuations run') (control_of next)
  /\ (ru_revision next = ru_revision run'
     /\ ru_id next = ru_id run' /\ ru_automation_id next = ru_automation_id run'
     /\ ru_version next = ru_version run' /\ ru_occurrence_id next = ru_occurrence_id run'
     /\ ru_actor_id next = ru_actor_id run' /\ ru_created_at next = ru_created_at run')
  /\ (outcome = Rs_Advanced \/ outcome = Rs_Completed).
Proof.
  unfold apply_failure. intros Hf. destruct policy as [| | |entry].
  - injection Hf as <- <-. split; [|by auto 10]. apply Fd_run. by left.
  - destruct (split_last (ru_continuations run')) as [[outer frame]|] eqn:Hs; injection Hf as <- <-.
    + rewrite (split_last_some _ _ _ Hs). split; [|by auto 10].
      by apply (Fd_branch Pf_StopBranch following (attempt_of run') outer frame).
    + apply split_last_none in Hs. split; [|by auto 10]. apply Fd_run. by right.
  - injection Hf as <- <-. split; [|by auto 10]. by apply Fd_continue.
  - injection Hf as <- <-. split; [|by auto 10].
    replace (match entry with Some entry => Some entry | None => following end)
      with (match entry with Some _ => entry | None => following end) by (by destruct entry).
    by apply (Fd_fallback (Pf_Fallback entry) following (attempt_of run') _ entry).
Qed.

Lemma told_outcome outcome t :
  outcome = Rs_Advanced \/ outcome = Rs_Completed -> rd_committed t = true -> told (Ok outcome) t.
Proof. by intros [-> | ->]. Qed.

Lemma wp_step_wait t condition timeout_ms on_timeout following :
  live t run plan sequence -> kind_at plan n = Some (Node_Wait condition timeout_ms on_timeout following) ->
  wps (step_wait run n condition timeout_ms on_timeout following sequence) t told.
Proof.
  intros Hlive Hk. unfold step_wait. case_bool_decide as Hr; [by eapply wp_start_timer|].
  eapply wp_evaluate; [done|done|done| |done].
  clear t Hlive. intros prepared t0 Hlive0 [Hreset0 Hactive0].
  apply wp_find_timer; [done|]. intros timer t Hlive Htimer Hmono.
  assert (Hreset : forall x, x ∈ pc_reset_timers prepared -> moved_timer t x).
  { intros x Hx. destruct (Hreset0 x Hx) as (read & Hin & Hm). exists read. auto. }
  assert (Hmoved : forall state x, state = Tm_Cancelled \/ state = Tm_Consumed ->
    x ∈ pc_reset_timers prepared ++ map cancel_timer (pc_active_timers prepared)
        ++ [with_timer_state timer state] -> moved_timer t x).
  { intros state x Hs [Hx|[Hx|Hx]%elem_of_app]%elem_of_app; [by apply Hreset| |].
    - eapply moved_map_cancel; [|exact Hx]. auto.
    - apply list_elem_of_singleton in Hx as ->. exists timer. destruct Hs as [-> | ->]; auto. }
  clear t0 Hlive0 Hreset0 Hactive0 Hmono.
  destruct (pc_value prepared).
  { apply wp_with_now. intros now. commits; [|set_solver|].
    - rewrite (control_here _ _ Hnode). eexists. by apply (Mv_next _ _ _ _ _ _ following Hstate Hk).
    - intros x. apply Hmoved. by left. }
  assert (Hrecheck : forall now moved, (forall x, x ∈ moved -> moved_timer t x) ->
    wps (commit_traced (with_durations (checkpoint run now) (pc_durations prepared)) run sequence
           (Some n) Tr_Condition [("result"%string, Val_Boolean false)] [] moved Rs_Waiting) t told).
  { intros now moved Hm. commits; [|set_solver|done].
    unfold control_of. simpl. rewrite Hnode. eexists. by eapply Mv_recheck. }
  destruct (negb _) eqn:Hready.
  { destruct (pc_reset_timers prepared) as [|r rs].
    - destruct (bool_decide (pc_durations prepared = ru_condition_durations run)); [done|].
      apply wp_with_now. intros now. apply Hrecheck. set_solver.
    - apply wp_with_now. intros now. by apply Hrecheck. }
  apply wp_with_now. intros now.
  destruct (apply_failure _ on_timeout following) as [next outcome] eqn:Hf.
  apply apply_failure_spec in Hf as (Hfailed & Hsame & Hout). simpl in Hfailed, Hsame.
  eapply wp_commit_traced; [exact Hlive| |by destruct_and!; split_and!|set_solver| |done|].
  - rewrite (control_here _ _ Hnode). eexists. by eapply (Mv_wait_failed _ _ _ _ _ _ _ _ _ _ Hstate Hk).
  - intros x. apply Hmoved. by right.
  - intros t' Ht'. by apply told_outcome.
Qed.

Section Command.
Variable node : CommandNode.
Variables (segment : N).
Hypothesis Hid : cno_node_id node = n.
Hypothesis Hkind : kind_at plan n = Some (Node_Command (cno_targets node) (cno_payload node) segment
  (cno_retry node) (cno_on_failure node) (cno_following node)).

(** An attempt whose commands are known, or are about to be. *)
Definition result_attempt (attempt : N) : Prop :=
  attempt = attempt_number (attempt_of run)
  /\ (attempt_of run = None \/ exists phase, attempt_of run = Some (n, attempt, phase) /\ phase <> At_Backoff).

Lemma retry_plan_bound attempt indices commands policy retry :
  retry_plan attempt indices commands policy = Ok (Some retry) -> (attempt < rp_maximum_retries policy)%N.
Proof.
  unfold retry_plan. destruct (N.leb (rp_maximum_retries policy) attempt) eqn:E; [done|].
  intros _. by apply N.leb_gt.
Qed.

Lemma wp_checkpoint_result t attempt indices commands append :
  live t run plan sequence -> result_attempt attempt ->
  (append = true -> attempt_of run = None \/ attempt_of run = Some (n, attempt, At_Dispatch)) ->
  (append = false -> forallb is_terminal_command commands = true) ->
  wps (checkpoint_command_result run node sequence attempt indices commands append) t told.
Proof.
  intros Hlive [Hnum Hatt] Happ Hterm. unfold checkpoint_command_result.
  destruct (_ =? _); [|done]. cbv zeta. apply wp_with_now. intros now.
  set (next := if append then _ else _).
  assert (Hnext : (ru_revision next = u64_saturating_add (ru_revision run) 1
     /\ ru_id next = ru_id run /\ ru_automation_id next = ru_automation_id run
     /\ ru_version next = ru_version run /\ ru_occurrence_id next = ru_occurrence_id run
     /\ ru_actor_id next = ru_actor_id run /\ ru_created_at next = ru_created_at run)
     /\ ru_continuations next = ru_continuations run /\ ru_node_id next = Some n
     /\ ru_state next = ru_state run).
  { unfold next. rewrite <- Hnode. destruct append; by split_and!. }
  clearbody next. destruct Hnext as (Hsame & Hconts & Hnext & Hst).
  destruct (forallb (fun state => bool_decide (state = Cs_Confirmed)) (map ca_state commands)).
  { eapply wp_commit_traced; [exact Hlive| |by destruct_and!; split_and!|set_solver|set_solver|done|done].
    rewrite (control_here _ _ Hnode). unfold control_of. simpl. rewrite Hconts.
    eexists. by eapply (Mv_confirmed _ _ _ _ _ _ _ _ _ _ _ Hstate Hkind). }
  destruct (existsb (fun state => negb (CommandState.is_terminal state)) (map ca_state commands)) eqn:Hopen.
  { eapply wp_commit_traced; [exact Hlive| |by destruct_and!; split_and!|set_solver|set_solver|done|done].
    rewrite (control_here _ _ Hnode). unfold control_of. simpl. rewrite Hconts, Hnext, Hid.
    eexists. rewrite Hnum. eapply (Mv_issued _ _ _ _ _ _ _ _ _ _ _ Hstate Hkind).
    destruct append.
    - destruct (Happ eq_refl) as [Hn|Hn]; eauto.
    - exfalso. specialize (Hterm eq_refl). apply existsb_exists in Hopen as (state & Hin & Hnt).
      apply in_map_iff in Hin as (command & <- & Hin). rewrite forallb_forall in Hterm.
      specialize (Hterm _ Hin). unfold is_terminal_command in Hterm. by rewrite Hterm in Hnt. }
  destruct (retry_plan attempt indices commands (cno_retry node)) as [[retry|]|e] eqn:Hretry; [| |done].
  - eapply wp_commit_traced; [exact Hlive| |by destruct_and!; split_and!| |set_solver|done|done].
    + rewrite (control_here _ _ Hnode). unfold control_of. simpl. rewrite Hconts, Hnext, Hid.
      eexists. rewrite Hnum. eapply (Mv_backoff _ _ _ _ _ _ _ _ _ _ _ Hstate Hkind).
      * destruct Hatt as [Hn|(phase & Hn & Hph)]; eauto.
      * rewrite <- Hnum. by eapply retry_plan_bound.
    + intros timer ->%list_elem_of_singleton. by rewrite Hnode, <- Hid.
  - destruct (apply_failure _ _ _) as [failed_run outcome] eqn:Hf.
    apply apply_failure_spec in Hf as (Hfailed & Hsame' & Hout). simpl in Hfailed, Hsame'.
    rewrite Hconts in Hfailed.
    eapply wp_commit_traced; [exact Hlive| | |set_solver|set_solver|done|].
    + rewrite (control_here _ _ Hnode).
      eexists. by eapply (Mv_command_failed _ _ _ _ _ _ _ _ _ _ _ _ Hstate Hkind).
    + destruct_and!. split_and!; congruence.
    + intros t' Ht'. by apply told_outcome.
Qed.

Lemma wp_execute_targets actor attempt deadline indices t :
  live t run plan sequence -> attempt = attempt_number (attempt_of run) ->
  (ru_command_attempt run = None \/ exists state, ru_command_attempt run = Some state
     /\ cat_phase state = At_Dispatch /\ incl indices (cat_target_indices state)) ->
  wps (execute_targets actor run node attempt deadline indices) t (fun _ t => live t run plan sequence).
Proof.
  intros Hlive Hnum. revert t Hlive. induction indices as [|index indices IH]; intros t Hlive Hph; [done|].
  simpl. apply wp_or_fail; [|done]. intros target Ht.
  destruct (IdempotencyKey.new _) as [key|] eqn:Hkey; [|done].
  simpl. split; [done|]. intros now _. split.
  - exists run, plan, sequence. split; [done|].
    exists n, (cno_targets node), (cno_payload node), segment, (cno_retry node), (cno_on_failure node),
      (cno_following node), index, target.
    split_and!; try done.
    + rewrite Hid in Hkey. assert (attempt_number (k_attempt (control_of run)) = attempt) as ->
        by (by rewrite Hnum).
      by apply key_new_text.
    + destruct Hph as [Hn|(state & Hn & Hd & Hincl)]; [by left|right]. exists state.
      split_and!; try done. apply Hincl. by left.
  - intros [command|e] _; simpl; [|done]. apply wp_try. eapply wp_mono; [apply IH; [done|]|].
    + destruct Hph as [Hn|(state & Hn & Hd & Hincl)]; [by left|right]. exists state.
      split_and!; try done. intros x Hx. apply Hincl. by right.
    + intros [commands|e] t' Hlive'; done.
Qed.

Lemma wp_dispatch t commands :
  live t run plan sequence ->
  (ru_command_attempt run = None \/ exists state, ru_command_attempt run = Some state
     /\ cat_phase state = At_Dispatch /\ cat_node_id state = n) ->
  wps (dispatch_command_attempt commands run node sequence) t told.
Proof.
  intros Hlive Hph. unfold dispatch_command_attempt. apply wp_or_fail; [|done].
  intros [attempt indices] Hat. destruct indices as [|index indices]; [done|].
  destruct commands; [|done]. simpl. split; [done|]. intros [security|e] _; simpl; [|done].
  apply wp_or_fail; [|done]. intros actor _. apply wp_or_fail; [|done]. intros ms _.
  apply wp_or_fail; [|done]. intros deadline _.
  assert (Hr : result_attempt attempt /\ (attempt_of run = None \/ attempt_of run = Some (n, attempt, At_Dispatch))
    /\ (ru_command_attempt run = None \/ exists state, ru_command_attempt run = Some state
         /\ cat_phase state = At_Dispatch /\ incl (index :: indices) (cat_target_indices state))).
  { unfold attempt_targets in Hat. unfold result_attempt, attempt_of.
    destruct Hph as [Hn|(state & Hn & Hd & Hni)]; rewrite Hn in *; simpl.
    - apply bind_Some in Hat as (l & _ & Hat). simplify_eq. auto.
    - rewrite bool_decide_true in Hat by done. injection Hat as <- Hind. rewrite Hd, Hni.
      split; [split; [done|right; by exists At_Dispatch]|]. split; [by right|]. right. exists state.
      rewrite Hind. split; [done|]. split; [done|]. apply incl_refl. }
  destruct Hr as (Hres & Hdis & Hrun). apply wp_try. eapply wp_mono.
  - apply (wp_execute_targets actor attempt deadline (index :: indices)); [done|apply Hres|done].
  - intros [results|e] t' Hlive'; [|done]. by apply wp_checkpoint_result.
Qed.

Lemma wp_resume t :
  live t run plan sequence ->
  (exists state, ru_command_attempt run = Some state /\ cat_phase state = At_Backoff /\ cat_node_id state = n) ->
  wps (resume_command_backoff run node sequence) t told.
Proof.
  intros Hlive (state & Hst & Hph & Hni). unfold resume_command_backoff. rewrite Hst.
  apply wp_or_fail; [|done]. intros ? [= <-]. apply wp_or_fail; [|done]. intros ready _.
  simpl. split; [done|]. intros [[timer|]|e] _; simpl; [|done..].
  destruct (negb _); [done|]. apply wp_with_now. intros now.
  eapply wp_commit_traced; [by eapply live_read, Hlive| |by split_and!|set_solver| |done|done].
  - unfold control_of. simpl. rewrite Hnode, Hst. simpl. rewrite Hph, Hni.
    eexists. by eapply (Mv_retry _ _ _ _ _ _ _ _ _ _ _ Hstate Hkind).
  - intros x ->%list_elem_of_singleton. exists timer. split; [simpl; by apply list_elem_of_here|]. auto.
Qed.

Lemma wp_step_command t commands :
  live t run plan sequence -> wps (step_command commands run node sequence) t told.
Proof.
  intros Hlive. unfold step_command. destruct (ru_command_attempt run) as [state|] eqn:Hst.
  2: by apply wp_dispatch; [|left].
  destruct (N.eqb_spec (cat_node_id state) (cno_node_id node)) as [Hni|]; [|done]. rewrite Hid in Hni.
  destruct (cat_phase state) eqn:Hph.
  - unfold load_attempt_commands. destruct commands; [|done]. rewrite Hst. simpl.
    destruct (_ =? _); [|done]. apply wp_try.
    assert (Hget : forall ids t, live t run plan sequence ->
      wps (get_commands (ru_actor_id run) ids) t (fun _ t => live t run plan sequence)).
    { clear t Hlive. induction ids as [|id ids IH]; intros t Hlive; simpl; [done|].
      split; [done|]. intros [[command|]|e] _; simpl; [|done..]. apply wp_try.
      eapply wp_mono; [by apply IH|]. intros [cs|e] t' Hl; done. }
    eapply wp_mono; [by apply Hget|]. intros [loaded|e] t' Hlive'; [|done].
    destruct (existsb (fun command => negb (is_terminal_command command)) loaded) eqn:Hopen; [done|].
    apply wp_checkpoint_result; [done| |done|].
    + unfold result_attempt, attempt_of. rewrite Hst. simpl. rewrite Hph, Hni. eauto 10.
    + intros _. apply forallb_forall. intros command Hin.
      destruct (is_terminal_command command) eqn:Ht; [done|]. exfalso.
      assert (existsb (fun command => negb (is_terminal_command command)) loaded = true) as Hc.
      { apply existsb_exists. exists command. by rewrite Ht. }
      congruence.
  - apply wp_resume; [done|]. eauto.
  - apply wp_dispatch; [done|]. right. eauto.
Qed.

End Command.

End Node.

(** ** The step *)

Lemma wp_step_within commands run plan sequence t :
  live t run plan sequence -> wps (step_within commands plan run sequence) t told.
Proof.
  intros Hlive. unfold step_within. case_bool_decide as Hst.
  - apply wp_with_now. intros now.
    eapply wp_commit_traced; [exact Hlive| |by split_and!|set_solver|set_solver|done|done].
    unfold control_of. simpl. rewrite Hst. eexists. apply Mv_start.
  - apply wp_or_fail; [|done]. intros n Hn. apply wp_or_fail; [|done]. intros node Hf.
    assert (Hid : nd_id node = n) by (apply List.find_some in Hf as [_ Hid]; by bool_inv).
    assert (Hk : kind_at plan n = Some (nd_kind node)) by (unfold kind_at; by rewrite Hf).
    unfold step_node. rewrite Hid. destruct (nd_kind node) eqn:Hkind.
    + by eapply (wp_step_command run plan sequence n Hn Hst
        (mk_command_node n targets payload retry on_failure next _)).
    + by eapply wp_step_delay.
    + by eapply wp_step_wait.
    + by eapply wp_step_set_variable.
    + by eapply wp_step_branch.
    + by eapply wp_enter_group.
    + by eapply wp_enter_group.
    + by eapply wp_step_join.
    + by eapply wp_step_complete.
Qed.

(** Whatever the awaited operations of a step answer, it commits at most
    once; what it commits is one move of the abstract machine from the run it
    loaded, under the plan of the active version it loaded, at the next revision
    and trace sequence, with the run's identity kept, timers created only for the
    node the run stands at and moved only when they were read; every command it
    sends belongs to the command node the run stands at, under the key of the
    run's current attempt; and a finished run, an inactive version or an exhausted
    trace budget lead to no commit and no command. *)
Theorem step_refines commands run_id :
  wp allowed reads (fun _ _ _ => True) (step commands run_id) nothing_read told.
Proof.
  unfold step. simpl. split; [done|]. intros [[run|]|e] _; simpl; [|done..].
  destruct (AutomationRunState.is_terminal (ru_state run)) eqn:Hterm; [done|].
  simpl. split; [done|]. intros [[identity|]|e] _; simpl; [|done..].
  destruct (negb _) eqn:Hactive; [done|]. bool_inv.
  simpl. split; [by exists run|]. intros [[version|]|e] _; simpl; [|done..].
  split; [done|]. intros [trace|e] _; simpl; [|done].
  destruct (negb _) eqn:Hbudget; [|done]. bool_inv.
  apply wp_with_now. intros now. destruct (negb _); [|done].
  apply wp_step_within. unfold live. simpl. split_and!; try done. by rewrite Hactive.
Qed.

End Refine.
