(* ===== verification/AutomationStoreProps.v ===== *)
(** Properties of the automation tables: what holds of the rows in every database
    the repository can reach, and along the transactions that keep a row. *)

From S2P Require Import Prelude Text BTree Json Capability Lifecycle Device Command CommandStore MatterOperation Automation Identity AutomationStore AutomationInvariant CommandService AutomationCompiler AutomationFixture.

Section Paths.
Context `{Uuids} `{Sha256} `{AutomationEncoding}.

(** ** Paths on which a row stays stored *)

Definition keeping {A} (view : AutomationDb -> option A) (db db' : AutomationDb) : Prop :=
  adb_step db db' /\ is_Some (view db').

Lemma keeping_reachable {A} (view : AutomationDb -> option A) db db' :
  adb_reachable db -> rtc (keeping view) db db' -> adb_reachable db'.
Proof.
  intros Hdb Hpath. unfold adb_reachable. etrans; [exact Hdb|].
  eapply rtc_subrel; [|exact Hpath]. by intros a b [? _].
Qed.

(** What relates the row before and after every transaction relates it along a path. *)
Lemma keeping_ind {A} (view : AutomationDb -> option A) (R : A -> A -> Prop) `{!PreOrder R} :
  (forall db db' a a', adb_wf db -> adb_step db db' -> view db = Some a -> view db' = Some a' -> R a a') ->
  forall db db' a, adb_wf db -> rtc (keeping view) db db' -> view db = Some a ->
  exists a', view db' = Some a' /\ R a a'.
Proof.
  intros Hstep db db' a Hwf Hpath. revert a Hwf.
  induction Hpath as [db|db db1 db2 [Hs [a1 Ha1]] _ IH]; intros a Hwf Ha; [exists a; split; [done|reflexivity]|].
  destruct (IH a1) as (a2 & Ha2 & HR); [by eapply adb_step_wf|done|].
  exists a2. split; [done|]. etrans; [|exact HR]. by eapply Hstep.
Qed.

(** The versions a stored one becomes: its content stays, its state moves legally. *)
Definition version_later (old new : StoredAutomationVersion) : Prop :=
  keeps old new
  /\ rtc (fun a b => AutomationVersionState.allows_transition_to a b = true) (sv_state old) (sv_state new).

#[export] Instance version_later_preorder : PreOrder version_later.
Proof.
  split.
  - intros v. split; [|done]. unfold keeps. auto.
  - intros a b c [(Hd & Hp & Hv & Hs) Hst] [(Hd' & Hp' & Hv' & Hs') Hst'].
    split; [|by eapply rtc_trans].
    unfold keeps. split_and!; [congruence..|].
    destruct Hs as [Hs|Hs]; [by left|]. destruct Hs' as [Hs'|Hs']; [left; congruence|right; congruence].
Qed.

(** The runs a stored one becomes. *)
Definition run_later (old new : AutomationRun) : Prop :=
  (ru_revision old <= ru_revision new)%N /\ ru_automation_id new = ru_automation_id old
  /\ ru_version new = ru_version old /\ ru_occurrence_id new = ru_occurrence_id old
  /\ ru_actor_id new = ru_actor_id old.

#[export] Instance run_later_preorder : PreOrder run_later.
Proof.
  split.
  - intros r. by split_and!.
  - intros a b c (? & ? & ? & ? & ?) (? & ? & ? & ? & ?). split_and!; [lia|congruence..].
Qed.

Lemma run_succ_later old new : run_succ old new -> run_later old new.
Proof.
  intros [->|(Hlt & _ & Hrest)]; [done|]. split; [lia|done].
Qed.

(** ** Reading a trace back *)

Lemma contiguous_lookup trace i step :
  contiguous trace -> trace !! i = Some step -> tt_sequence step = N.of_nat i.
Proof.
  intros Hc Hi. assert (Hs : map tt_sequence trace !! i = Some (tt_sequence step)).
  { rewrite list_lookup_fmap, Hi. done. }
  rewrite Hc, list_lookup_fmap in Hs.
  assert (Hlt : i < length trace) by (by eapply lookup_lt_Some).
  rewrite lookup_seq_lt in Hs by done. simpl in Hs. by injection Hs as <-.
Qed.

Lemma load_trace_contiguous db k limit :
  contiguous (trace_of (ad_trace db) k) ->
  load_trace db k None limit = Ok (take (Nat.min limit MAX_QUERY_PAGE) (trace_of (ad_trace db) k)).
Proof.
  intros Hc. unfold load_trace. simpl. f_equal. unfold page. f_equal.
  replace (List.filter _ (ad_trace db)) with (trace_of (ad_trace db) k).
  - apply sort_by_sorted. intros i a b Ha Hb. unfold by_sequence.
    rewrite (contiguous_lookup _ _ _ Hc Ha), (contiguous_lookup _ _ _ Hc Hb). apply N.leb_le. lia.
  - unfold trace_of. apply List.filter_ext. intros step.
    replace (-1 <? Z.of_N (tt_sequence step))%Z with true; [by rewrite andb_true_r|].
    symmetry. apply Z.ltb_lt. lia.
Qed.

(** ** Main theorems *)

(** C24: in every database the repository can reach, whatever transactions ran
    before (retirement and retention included), each version it hands out as
    active is the one its active identity names, passes the hash and revision
    checks, carries a successful simulation of exactly its document, plan and
    registry revision, and, where the plan asks for explicit approval, an
    approved record of exactly its document and plan is still stored. *)
Theorem active_version_evidence db limit active :
  adb_reachable db -> active ∈ load_active_versions db limit ->
  exists n, id_active_version (aav_identity active) = Some n
    /\ id_state (aav_identity active) = Op_Active
    /\ version_key (aav_version active) = (id_id (aav_identity active), n)
    /\ validate_version (aav_version active) = Ok tt
    /\ evidence (ad_approvals db) (aav_version active).
Proof.
  intros Hwf%adb_reachable_wf Hin. unfold load_active_versions in Hin.
  apply elem_of_take in Hin as (i & Hi & _). apply list_elem_of_lookup_2, list_elem_of_omap in Hi
    as (identity & Hin & Hsome).
  rewrite sort_by_perm in Hin. apply list_elem_of_In, filter_In in Hin as [Hin Hst]. bool_inv.
  apply list_elem_of_In, elem_of_rows in Hin as [k Hk].
  apply bind_Some in Hsome as (n & Hn & (stored & Hstored & [= <-])%bind_Some). simpl.
  destruct (wf_identities _ Hwf _ _ Hk) as [Hkey Hact]. subst k.
  destruct (Hact _ Hn) as (version & Hver & Hev). simplify_eq.
  destruct (wf_versions _ Hwf _ _ Hstored) as (Hvk & _ & Hval). eauto 7.
Qed.

(** C25: in every reachable database a stored run has its version, its
    occurrence for itself alone, and its timers and trace rows have their run;
    and the trace of a run that has not ended is read back from its first step
    without a gap, up to the page limit of the repository. *)
Theorem store_integrity db :
  adb_reachable db ->
  (forall k run, ad_runs db !! k = Some run -> ru_id run = k
     /\ version_exists db (ru_automation_id run) (ru_version run) = true
     /\ is_Some (ad_occurrences db !! ru_occurrence_id run)
     /\ forall k' run', ad_runs db !! k' = Some run' ->
        ru_occurrence_id run' = ru_occurrence_id run -> run' = run)
  /\ (forall k timer, ad_timers db !! k = Some timer -> is_Some (ad_runs db !! tm_run_id timer))
  /\ (forall step, step ∈ ad_trace db -> is_Some (ad_runs db !! tt_run_id step))
  /\ (forall k run limit, ad_runs db !! k = Some run ->
      AutomationRunState.is_terminal (ru_state run) = false ->
      exists trace, load_trace db k None limit = Ok trace /\ contiguous trace
        /\ length trace = Nat.min (Nat.min limit MAX_QUERY_PAGE) (length (trace_of (ad_trace db) k))).
Proof.
  intros Hwf%adb_reachable_wf. destruct (wf_runs _ Hwf) as [Hr1 Hr2]. split_and!.
  - intros k run Hk. destruct (Hr1 _ _ Hk) as (Hid & Hv & Ho). split_and!; try done.
    + unfold version_exists. by apply bool_decide_eq_true.
    + intros k' run' Hk' Heq. assert (k' = k) as -> by (by eapply Hr2). congruence.
  - intros k timer Hk. by apply (wf_timers _ Hwf _ _ Hk).
  - apply (wf_trace _ Hwf).
  - intros k run limit Hk Hterm. destruct (wf_trace _ Hwf) as (_ & _ & Hc). specialize (Hc _ _ Hk Hterm).
    eexists. split; [by apply load_trace_contiguous|]. split; [|by rewrite length_take].
    unfold contiguous in *. rewrite <- firstn_map, Hc, firstn_map, take_seq, length_take. done.
Qed.

(** After a committed interpreter step no later commit that expects the same
    or an older revision of the run succeeds, whatever transactions come between,
    as long as the run is stored: it is refused with the run conflict. *)
Theorem commit_exclusive db write db1 later write' :
  adb_reachable db -> commit_step db write = Ok db1 ->
  rtc (keeping (fun db => ad_runs db !! ru_id (sw_run write))) db1 later ->
  ru_id (sw_run write') = ru_id (sw_run write) ->
  (sw_expected_run_revision write' <= sw_expected_run_revision write)%N ->
  (exists found, (sw_expected_run_revision write < found)%N
     /\ transition_run later (sw_run write') (sw_expected_run_revision write')
        = Err (Se_AutomationRunConflict (sw_expected_run_revision write') found))
  /\ forall db', commit_step later write' <> Ok db'.
Proof.
  intros Hdb Hop Hpath Hid Hle.
  assert (Hwf1 : adb_wf db1) by (eapply commit_step_wf; [done|by apply adb_reachable_wf]).
  destruct (commit_step_run _ _ _ Hop) as (db0 & Hrun & He).
  apply transition_run_spec in Hrun as (old & event & _ & _ & Hrev & _ & _ & _ & _ & _ & Hok & ->).
  rewrite Hrev in Hok. apply revision_grows in Hok.
  destruct (keeping_ind (fun db => ad_runs db !! ru_id (sw_run write)) run_later) with
    (db := db1) (db' := later) (a := sw_run write) as (r & Hr & Hlater); [|done|done| |].
  { intros. eapply run_succ_later, adb_step_run; eauto. }
  { rewrite He. simpl. apply lookup_insert_eq. }
  destruct Hlater as (Hge & _).
  assert (Hconf : transition_run later (sw_run write') (sw_expected_run_revision write')
    = Err (Se_AutomationRunConflict (sw_expected_run_revision write') (ru_revision r))).
  { unfold transition_run. rewrite Hid, Hr. simpl.
    destruct (N.eqb_spec (ru_revision r) (sw_expected_run_revision write')); [lia|done]. }
  split; [exists (ru_revision r); split; [lia|done]|].
  intros db' Hop'. apply commit_step_run in Hop' as (db2 & Hrun' & _). congruence.
Qed.

(** while a version is stored, whatever transactions run, its document, plan
    and validation evidence never change, simulation evidence is only ever added
    once, and its state only moves along the legal edges. *)
Theorem version_immutable db later k version :
  adb_reachable db -> rtc (keeping (fun db => ad_versions db !! k)) db later ->
  ad_versions db !! k = Some version ->
  exists version', ad_versions later !! k = Some version' /\ version_key version' = k
    /\ version_later version version'.
Proof.
  intros Hdb Hpath Hv.
  destruct (keeping_ind (fun db => ad_versions db !! k) version_later) with
    (db := db) (db' := later) (a := version) as (v & Hl & Hlater); [|by apply adb_reachable_wf|done..|].
  { intros a b x y Hwf Hs Hx Hy. destruct (adb_step_version _ _ _ _ _ Hwf Hs Hx Hy) as [Hk [Hst|Hst]].
    - split; [done|]. by rewrite Hst.
    - split; [done|]. by apply rtc_once. }
  exists v. split_and!; try done.
  apply (wf_versions later (adb_reachable_wf _ (keeping_reachable _ _ _ Hdb Hpath)) _ _ Hl).
Qed.

End Paths.

Lemma active_version_evidence_witness :
  exists active, active ∈ load_active_versions gate_db 10
  /\ pl_approval (sv_plan (aav_version active)) = Apr_ExplicitUserApproval
  /\ evidence (ad_approvals gate_db) (aav_version active).
Proof.
  exists (hd (mk_active (mk_identity "" Op_Inactive None 0 0 0) (stored_in Vs_Draft false gate_document))
            (load_active_versions gate_db 10)).
  assert (Hin : hd (mk_active (mk_identity "" Op_Inactive None 0 0 0) (stored_in Vs_Draft false gate_document))
            (load_active_versions gate_db 10) ∈ load_active_versions gate_db 10).
  { assert (Hlen : length (load_active_versions gate_db 10) = 1) by (vm_compute; reflexivity).
    destruct (load_active_versions gate_db 10); [discriminate|]. simpl. by apply list_elem_of_here. }
  split; [exact Hin|]. split; [vm_compute; reflexivity|].
  destruct (active_version_evidence gate_db 10 _ gate_db_reachable Hin) as (n & _ & _ & _ & _ & Hev).
  exact Hev.
Defined.

Lemma store_integrity_witness :
  AutomationRunState.is_terminal (ru_state (gate_run Run_Pending 0 1)) = false
  /\ forall step, step ∈ ad_trace gate_db1 -> is_Some (ad_runs gate_db1 !! tt_run_id step).
Proof.
  split; [reflexivity|].
  assert (Hr : adb_reachable gate_db1).
  { eapply rtc_r; [exact gate_db_reachable|]. eapply Tx_commit_step. exact gate_commit. }
  destruct (store_integrity gate_db1 Hr) as (_ & _ & Ht & _). exact Ht.
Defined.

Lemma commit_exclusive_witness :
  exists found, (0 < found)%N
    /\ transition_run gate_db1 (sw_run (gate_write 0)) 0 = Err (Se_AutomationRunConflict 0 found).
Proof.
  destruct (commit_exclusive gate_db (gate_write 0) gate_db1 gate_db1 (gate_write 0)
    gate_db_reachable gate_commit (rtc_refl _ _) eq_refl (N.le_refl _)) as [Hfound _].
  exact Hfound.
Defined.

Lemma version_immutable_witness :
  exists version, ad_versions gate_db1 !! ("auto"%string, 1%N) = Some version
  /\ version_later (stored_in Vs_AwaitingApproval true gate_document) version.
Proof.
  assert (Hv : ad_versions gate_db !! ("auto"%string, 1%N)
    = Some (stored_in Vs_AwaitingApproval true gate_document)) by (vm_compute; reflexivity).
  assert (Hpath : rtc (keeping (fun db => ad_versions db !! ("auto"%string, 1%N))) gate_db gate_db1).
  { apply rtc_once. split; [eapply Tx_commit_step; exact gate_commit|].
    apply (bool_decide_unpack (is_Some _)). vm_compute. exact I. }
  destruct (version_immutable gate_db gate_db1 _ _ gate_db_reachable Hpath Hv) as (v & Hl & _ & Hlater).
  exists v. exact (conj Hl Hlater).
Defined.
