(* ===== verification/AutomationSimulator.v ===== *)
(** The side-effect-free simulator of automation plans,
    [crates/homemagic-application/src/automation_simulator.rs]: virtual ports, the
    interpreter over them and the enumeration of schedule occurrences.  The
    interpreter is a state monad with errors over fuel; [simulate] takes enough. *)

From S2P Require Import Prelude Text BTree AutomationEvaluator Json Capability Device Command CommandStore Effects CommandService Automation Identity AutomationStore AutomationCompiler AutomationRuntime.

(** ** Fixtures and results *)

Record SimulationObservationKey := mk_observation_key {
  sok_target : ResolvedAutomationTarget;
  sok_field : string
}.
#[export] Instance SimulationObservationKey_eq_dec : EqDecision SimulationObservationKey.
Proof. solve_decision. Defined.

Record SimulationStateChange := mk_state_change {
  scg_at : Instant;
  scg_key : SimulationObservationKey;
  scg_value : AutomationValue
}.

Record SimulationCommandOutcome := mk_outcome {
  sco_state : CommandState;
  sco_error : option CommandErrorCode
}.

Inductive SimulationTriggerKind :=
| Stk_Schedule
| Stk_ObservationChanged (key : SimulationObservationKey)
| Stk_DeviceEvent (target : ResolvedAutomationTarget) (event : string)
| Stk_CommandOutcome (target : ResolvedAutomationTarget) (state : CommandState)
| Stk_ExplicitCatchUp.

Record SimulationTriggerContext := mk_trigger_context {
  stc_kind : SimulationTriggerKind;
  stc_occurred_at : Instant;
  stc_accepted_at : Instant;
  stc_window_ends_at : Instant;
  stc_explicit_catch_up : bool;
  stc_active_runs : N;
  stc_queued_triggers : N;
  stc_caused_by_version : option AutomationVersion;
  stc_same_correlation : bool
}.

(** The map of the initial state is an association list; its first binding of a
    key counts. *)
Record AutomationSimulationFixture := mk_fixture {
  sf_plan : AutomationExecutionPlan;
  sf_run_id : AutomationRunId;
  sf_correlation_id : CorrelationId;
  sf_causation_event_id : option EventId;
  sf_trigger : SimulationTriggerContext;
  sf_initial_state : list (SimulationObservationKey * AutomationValue);
  sf_state_changes : list SimulationStateChange;
  sf_command_outcomes : list SimulationCommandOutcome
}.

Record SimulatedCommandIntent := mk_intent {
  sci_node_id : AutomationPlanNodeId;
  sci_targets : list ResolvedAutomationTarget;
  sci_payload : CommandPayload;
  sci_attempt : N;
  sci_at : Instant;
  sci_outcome : SimulationCommandOutcome;
  sci_safety_profiles : gset AutomationSafetyProfile;
  sci_approval : AutomationApprovalRequirement
}.

Inductive AutomationSimulationStatus := Sim_Completed | Sim_Suppressed | Sim_MissedSkipped | Sim_Failed.
#[export] Instance AutomationSimulationStatus_eq_dec : EqDecision AutomationSimulationStatus.
Proof. solve_decision. Defined.

Record AutomationSimulationResult := mk_simulation_result {
  sr_status : AutomationSimulationStatus;
  sr_trace : list AutomationTraceStep;
  sr_command_intents : list SimulatedCommandIntent;
  sr_variables : list (string * AutomationValue);
  sr_finished_at : Instant;
  sr_trace_hash : AutomationContentHash
}.

Inductive AutomationSimulationError :=
| Sme_MissingNode (node_id : N)
| Sme_MissingValue (what : string)
| Sme_TypeMismatch
| Sme_BudgetExceeded
| Sme_InvalidSchedule
| Sme_TraceHash.

(** ** Virtual ports *)

(** The derived order of observation keys. *)
Definition key_leb (a b : SimulationObservationKey) : bool :=
  match str_cmp (rt_device_id (sok_target a)) (rt_device_id (sok_target b)),
        str_cmp (rt_endpoint_id (sok_target a)) (rt_endpoint_id (sok_target b)),
        str_cmp (rt_capability (sok_target a)) (rt_capability (sok_target b)),
        str_cmp (sok_field a) (sok_field b) with
  | Lt, _, _, _ | Eq, Lt, _, _ | Eq, Eq, Lt, _ | Eq, Eq, Eq, (Lt | Eq) => true
  | _, _, _, _ => false
  end.

Definition change_leb (a b : SimulationStateChange) : bool :=
  (scg_at a <? scg_at b)%Z || ((scg_at a =? scg_at b)%Z && key_leb (scg_key a) (scg_key b)).

Record VirtualSimulationPorts := mk_ports {
  vp_now : Instant;
  vp_state : list (SimulationObservationKey * AutomationValue);
  vp_changes : list SimulationStateChange;
  vp_outcomes : list SimulationCommandOutcome
}.

Module VirtualSimulationPorts.
Definition new (fixture : AutomationSimulationFixture) : VirtualSimulationPorts :=
  mk_ports (stc_accepted_at (sf_trigger fixture)) (sf_initial_state fixture)
    (sort_by change_leb (sf_state_changes fixture)) (sf_command_outcomes fixture).

(** The loop of [advance_to]: the changes due are applied in order. *)
Fixpoint apply_changes (at_ : Instant) (changes : list SimulationStateChange)
  (state : list (SimulationObservationKey * AutomationValue)) :
  list SimulationStateChange * list (SimulationObservationKey * AutomationValue) :=
  match changes with
  | change :: rest =>
      if (scg_at change <=? at_)%Z
      then apply_changes at_ rest ((scg_key change, scg_value change) :: state)
      else (changes, state)
  | [] => ([], state)
  end.

Definition advance_to (ports : VirtualSimulationPorts) (at_ : Instant) : VirtualSimulationPorts :=
  let '(changes, state) := apply_changes at_ (vp_changes ports) (vp_state ports) in
  mk_ports (Z.max (vp_now ports) at_) state changes (vp_outcomes ports).

Definition next_change_through (ports : VirtualSimulationPorts) (deadline : Instant) : option Instant :=
  match vp_changes ports with
  | change :: _ => if (scg_at change <=? deadline)%Z then Some (scg_at change) else None
  | [] => None
  end.

Definition observation (ports : VirtualSimulationPorts) (key : SimulationObservationKey) :
  option AutomationValue :=
  snd <$> List.find (fun entry => bool_decide (entry.1 = key)) (vp_state ports).

Definition command_outcome (ports : VirtualSimulationPorts) :
  SimulationCommandOutcome * VirtualSimulationPorts :=
  match vp_outcomes ports with
  | outcome :: outcomes => (outcome, mk_ports (vp_now ports) (vp_state ports) (vp_changes ports) outcomes)
  | [] => (mk_outcome Cs_Confirmed None, ports)
  end.
End VirtualSimulationPorts.

Module SimulationEvaluationContext.
Section Duration.
Context `{Chrono}.

(** The loop of [state_duration]: every change up to the deadline is applied and
    the condition read again.  The fuel is the number of changes left; without
    fuel the loop would answer with an error the simulator never produces. *)
Fixpoint hold (evaluate : VirtualSimulationPorts ->
    result bool AutomationEvaluationError * VirtualSimulationPorts)
  (deadline : Instant) (fuel : nat) (ports : VirtualSimulationPorts) :
  result bool AutomationEvaluationError * VirtualSimulationPorts :=
  match VirtualSimulationPorts.next_change_through ports deadline with
  | None => evaluate (VirtualSimulationPorts.advance_to ports deadline)
  | Some change_at =>
      match fuel with
      | O => (Err Eve_DurationTimerMissing, ports)
      | S fuel =>
          match evaluate (VirtualSimulationPorts.advance_to ports change_at) with
          | (Ok true, ports) => hold evaluate deadline fuel ports
          | stopped => stopped
          end
      end
  end.

Definition state_duration (evaluate : VirtualSimulationPorts ->
    result bool AutomationEvaluationError * VirtualSimulationPorts)
  (condition : ResolvedAutomationCondition) (duration_ms : N) (ports : VirtualSimulationPorts) :
  result bool AutomationEvaluationError * VirtualSimulationPorts :=
  match evaluate ports with
  | (Ok true, ports) =>
      match i64_try_from_u64 duration_ms with
      | None => (Err Eve_TypeMismatch, ports)
      | Some milliseconds =>
          match checked_add_signed (vp_now ports) (delta_millis milliseconds) with
          | None => (Err Eve_TypeMismatch, ports)
          | Some deadline => hold evaluate deadline (length (vp_changes ports)) ports
          end
      end
  | stopped => stopped
  end.
End Duration.
End SimulationEvaluationContext.

#[export] Instance simulation_context `{Chrono} : AutomationEvaluationContext VirtualSimulationPorts :=
  {| ctx_now := vp_now;
     ctx_observation := fun ports target field =>
       VirtualSimulationPorts.observation ports (mk_observation_key target field);
     ctx_state_duration := SimulationEvaluationContext.state_duration |}.

Definition map_evaluation_error (error : AutomationEvaluationError) : AutomationSimulationError :=
  match error with
  | Eve_MissingValue value => Sme_MissingValue value
  | Eve_TypeMismatch => Sme_TypeMismatch
  | Eve_InvalidTimeWindow => Sme_InvalidSchedule
  | Eve_DurableDurationRequired | Eve_ConditionHash | Eve_DurationOverflow
  | Eve_DurationTimerMissing => Sme_TypeMismatch
  end.

Definition add_millis `{Chrono} (at_ : Instant) (milliseconds : N) :
  result Instant AutomationSimulationError :=
  let? milliseconds := ok_or (i64_try_from_u64 milliseconds) Sme_BudgetExceeded in
  ok_or (checked_add_signed at_ (delta_millis milliseconds)) Sme_BudgetExceeded.

(** ** The interpreter's monad *)

Inductive Flow := Flow_Completed | Flow_StopRun | Flow_StopBranch.
#[export] Instance Flow_eq_dec : EqDecision Flow.
Proof. solve_decision. Defined.

Record StepInterpreter := mk_interpreter {
  si_ports : VirtualSimulationPorts;
  si_trace : list AutomationTraceStep;
  si_intents : list SimulatedCommandIntent;
  si_variables : list (string * AutomationValue);
  si_steps : N
}.

Module StepInterpreter.

(** [None] is a computation that ran out of fuel. *)
Definition Sim (A : Type) : Type :=
  StepInterpreter -> option (result (A * StepInterpreter) AutomationSimulationError).

Definition sim_ret {A : Type} (a : A) : Sim A := fun s => Some (Ok (a, s)).
Definition sim_fail {A : Type} (error : AutomationSimulationError) : Sim A := fun _ => Some (Err error).
Definition sim_bind {A B : Type} (m : Sim A) (f : A -> Sim B) : Sim B := fun s =>
  match m s with
  | None => None
  | Some (Err error) => Some (Err error)
  | Some (Ok (a, s)) => f a s
  end.
Definition sim_lift {A : Type} (value : result A AutomationSimulationError) : Sim A :=
  match value with Ok a => sim_ret a | Err error => sim_fail error end.
Definition sim_get : Sim StepInterpreter := fun s => Some (Ok (s, s)).
Definition sim_put (s : StepInterpreter) : Sim unit := fun _ => Some (Ok (tt, s)).
Definition no_fuel {A : Type} : Sim A := fun _ => None.

Declare Scope sim_scope.
Delimit Scope sim_scope with sim.
Notation "x <- m ;; k" := (sim_bind m (fun x => k))
  (at level 100, m at next level, right associativity) : sim_scope.
Notation "m ;; k" := (sim_bind m (fun _ => k)) (at level 100, right associativity) : sim_scope.
#[local] Open Scope sim_scope.

Definition with_ports (s : StepInterpreter) (ports : VirtualSimulationPorts) : StepInterpreter :=
  mk_interpreter ports (si_trace s) (si_intents s) (si_variables s) (si_steps s).

Definition now : Sim Instant := s <- sim_get;; sim_ret (vp_now (si_ports s)).
Definition advance_to (at_ : Instant) : Sim unit :=
  s <- sim_get;; sim_put (with_ports s (VirtualSimulationPorts.advance_to (si_ports s) at_)).
Definition command_outcome : Sim SimulationCommandOutcome :=
  s <- sim_get;;
  let '(outcome, ports) := VirtualSimulationPorts.command_outcome (si_ports s) in
  sim_put (with_ports s ports);; sim_ret outcome.

(** ** The interpreter *)

Section Interpreter.
Context `{Calendar} `{Uuids} `{Chrono}.
Variable fixture : AutomationSimulationFixture.

Abbreviation plan := (sf_plan fixture).
Abbreviation trigger := (sf_trigger fixture).

Definition new : StepInterpreter :=
  mk_interpreter (VirtualSimulationPorts.new fixture) [] []
    (bcollect (omap (fun '(name, definition) =>
       value ← vd_initial definition; Some (name, value)) (pl_variables plan))) 0.

Definition trace (kind : AutomationTraceKind) (node_id : option AutomationPlanNodeId)
  (values : list (string * AutomationValue)) : Sim unit :=
  s <- sim_get;;
  if N.leb (bu_maximum_trace_steps (pl_budget plan)) (N.of_nat (length (si_trace s)))
  then sim_fail Sme_BudgetExceeded
  else
    let sequence := N.of_nat (length (si_trace s)) in
    sim_put (mk_interpreter (si_ports s)
      (si_trace s ++ [mk_trace_step (AutomationTraceId.from_run_sequence (sf_run_id fixture) sequence)
         (sf_run_id fixture) sequence node_id kind (details values) (vp_now (si_ports s))
         (sf_correlation_id fixture) (sf_causation_event_id fixture)])
      (si_intents s) (si_variables s) (si_steps s)).

Definition consume_budget : Sim unit :=
  s <- sim_get;;
  let steps := u32_saturating_add (si_steps s) 1 in
  let budget := pl_budget plan in
  sim_put (mk_interpreter (si_ports s) (si_trace s) (si_intents s) (si_variables s) steps);;
  if N.ltb (bu_maximum_trace_steps budget) steps
     || N.leb (bu_maximum_trace_steps budget) (N.of_nat (length (si_trace s)))
     || (delta_millis (i64_or_max (i64_try_from_u64 (bu_maximum_run_duration_ms budget)))
         <? vp_now (si_ports s) - stc_accepted_at trigger)%Z
  then sim_fail Sme_BudgetExceeded else sim_ret tt.

Definition evaluate_condition (condition : ResolvedAutomationCondition) : Sim bool :=
  s <- sim_get;;
  let '(evaluated, ports) := evaluate_automation_condition condition (si_variables s) (si_ports s) in
  sim_put (with_ports s ports);; sim_lift (map_err map_evaluation_error evaluated).

Definition evaluate_expression (expression : ResolvedAutomationExpression) : Sim AutomationValue :=
  s <- sim_get;;
  sim_lift (map_err map_evaluation_error
    (evaluate_automation_expression expression (si_variables s) (si_ports s))).

Definition trigger_matches : bool :=
  match stc_kind trigger with
  | Stk_ExplicitCatchUp => stc_explicit_catch_up trigger
  | Stk_Schedule => existsb (fun trigger => match trigger with Rt_Schedule _ => true | _ => false end)
                      (pl_triggers plan)
  | Stk_ObservationChanged key =>
      existsb (fun trigger =>
        match trigger with
        | Rt_ObservationChanged targets field =>
            bool_decide (sok_target key ∈ targets)
            && match field with Some field => String.eqb field (sok_field key) | None => true end
        | _ => false
        end) (pl_triggers plan)
  | Stk_DeviceEvent target event =>
      existsb (fun trigger =>
        match trigger with
        | Rt_DeviceEvent targets expected => bool_decide (target ∈ targets) && String.eqb expected event
        | _ => false
        end) (pl_triggers plan)
  | Stk_CommandOutcome target state =>
      existsb (fun trigger =>
        match trigger with
        | Rt_CommandOutcome targets states =>
            match targets with Some targets => bool_decide (target ∈ targets) | None => true end
            && bool_decide (state ∈ states)
        | _ => false
        end) (pl_triggers plan)
  end.

Definition self_suppressed : bool :=
  match pl_self_trigger plan with
  | Self_SuppressSameVersion =>
      bool_decide (stc_caused_by_version trigger = Some (pl_automation_version plan))
  | Self_SuppressSameCorrelation => stc_same_correlation trigger
  | Self_Allow => false
  end.

Definition run_suppressed : bool :=
  match pl_run_mode plan with
  | Mode_Single => N.ltb 0 (stc_active_runs trigger)
  | Mode_Restart => false
  | Mode_Queued capacity => N.leb capacity (stc_queued_triggers trigger)
  | Mode_Parallel maximum_parallel => N.leb maximum_parallel (stc_active_runs trigger)
  end.

Definition suppress (reason : string) (status : AutomationSimulationStatus) :
  Sim (option AutomationSimulationStatus) :=
  trace Tr_Suppression None [("reason"%string, Val_String reason)];; sim_ret (Some status).

Definition accept_trigger : Sim (option AutomationSimulationStatus) :=
  if negb trigger_matches then suppress "trigger_not_matched" Sim_Suppressed
  else if (stc_window_ends_at trigger <? stc_accepted_at trigger)%Z
          && negb (stc_explicit_catch_up trigger)
  then suppress "missed_skipped" Sim_MissedSkipped
  else if self_suppressed || run_suppressed then suppress "trigger_suppressed" Sim_Suppressed
  else
    trace Tr_Trigger None
      [("accepted"%string, Val_Boolean true);
       ("explicit_catch_up"%string, Val_Boolean (stc_explicit_catch_up trigger))];;
    match pl_condition plan with
    | None => sim_ret None
    | Some condition =>
        accepted <- evaluate_condition condition;;
        trace Tr_Condition None [("result"%string, Val_Boolean accepted)];;
        sim_ret (if accepted then None else Some Sim_Suppressed)
    end.

(** The attempts of a command node: whether one was confirmed.  [left] is the
    number of retries its policy still allows. *)
Fixpoint attempt_command (left_ : nat) (node_id : N) (targets : list ResolvedAutomationTarget)
  (payload : CommandPayload) (retry : AutomationRetryPolicy) (attempt : N) : Sim bool :=
  outcome <- command_outcome;;
  s <- sim_get;;
  sim_put (mk_interpreter (si_ports s) (si_trace s)
    (si_intents s ++ [mk_intent node_id targets payload attempt (vp_now (si_ports s)) outcome
                        (pl_safety_profiles plan) (pl_approval plan)])
    (si_variables s) (si_steps s));;
  trace Tr_Command (Some node_id)
    [("attempt"%string, Val_Integer (Z.of_N attempt));
     ("state"%string, Val_String (command_state_name (sco_state outcome)))];;
  if bool_decide (sco_state outcome = Cs_Confirmed) then sim_ret true
  else if N.ltb attempt (rp_maximum_retries retry)
          && match sco_error outcome with
             | Some error => bool_decide (error ∈ rp_retryable_command_errors retry)
             | None => false
             end
  then match left_ with
       | O => no_fuel
       | S left_ =>
           at_ <- now;;
           ready_at <- sim_lift (add_millis at_ (rp_backoff_ms retry));;
           advance_to ready_at;;
           attempt_command left_ node_id targets payload retry (u16_saturating_add attempt 1)
       end
  else sim_ret false.

(** The loop of a wait: every change up to the deadline is applied and the
    condition read again. *)
Fixpoint wait_for (fuel : nat) (condition : ResolvedAutomationCondition) (deadline : Instant)
  (satisfied : bool) : Sim bool :=
  if satisfied then sim_ret true
  else
    s <- sim_get;;
    match VirtualSimulationPorts.next_change_through (si_ports s) deadline with
    | None => sim_ret false
    | Some change_at =>
        match fuel with
        | O => no_fuel
        | S fuel =>
            advance_to change_at;;
            satisfied <- evaluate_condition condition;;
            wait_for fuel condition deadline satisfied
        end
    end.

Definition set_variable (name : string) (value : AutomationValue) : Sim unit :=
  s <- sim_get;;
  sim_put (mk_interpreter (si_ports s) (si_trace s) (si_intents s)
    (binsert name value (si_variables s)) (si_steps s)).

(** The branches of a parallel group, in order: [true] when one stops the run. *)
Definition each_branch (execute : N -> Sim Flow) : list N -> Sim bool :=
  fix go branches :=
    match branches with
    | [] => sim_ret false
    | branch :: branches =>
        flow <- execute branch;;
        match flow with
        | Flow_StopRun => sim_ret true
        | Flow_Completed | Flow_StopBranch => go branches
        end
    end.

(** The branches of a race, in order, up to the first that completes: [None]
    when one stops the run, else whether one won. *)
Definition race_branch (execute : N -> Sim Flow) : list N -> Sim (option bool) :=
  fix go branches :=
    match branches with
    | [] => sim_ret (Some false)
    | branch :: branches =>
        flow <- execute branch;;
        match flow with
        | Flow_Completed => sim_ret (Some true)
        | Flow_StopRun => sim_ret None
        | Flow_StopBranch => go branches
        end
    end.

(** [apply_failure], over the continuation [execute]. *)
Definition apply_failure (execute : N -> Sim Flow) (policy : AutomationPlanFailurePolicy)
  (next : option AutomationPlanNodeId) : Sim Flow :=
  let continue_at entry := match entry with Some entry => execute entry | None => sim_ret Flow_Completed end in
  match policy with
  | Pf_StopRun => sim_ret Flow_StopRun
  | Pf_StopBranch => sim_ret Flow_StopBranch
  | Pf_Continue => continue_at next
  | Pf_Fallback entry => continue_at (match entry with Some entry => Some entry | None => next end)
  end.

(** The loop of [execute_from] at its current node.  Fuel falls with every node. *)
Fixpoint execute_from (fuel : nat) (current stop_before : option AutomationPlanNodeId) : Sim Flow :=
  match current with
  | None => sim_ret Flow_Completed
  | Some node_id =>
      if bool_decide (stop_before = Some node_id) then sim_ret Flow_Completed
      else
        match fuel with
        | O => no_fuel
        | S fuel =>
            consume_budget;;
            node <- sim_lift (ok_or (find_node plan node_id) (Sme_MissingNode node_id));;
            match nd_kind node with
            | Node_Complete =>
                trace Tr_Outcome (Some node_id) [("status"%string, Val_String "completed")];;
                sim_ret Flow_Completed
            | Node_Delay duration_ms next =>
                at_ <- now;;
                ready_at <- sim_lift (add_millis at_ duration_ms);;
                advance_to ready_at;;
                trace Tr_Timer (Some node_id)
                  [("event"%string, Val_String "delay_ready");
                   ("duration_ms"%string, Val_DurationMillis duration_ms)];;
                execute_from fuel next stop_before
            | Node_Command targets payload _ retry on_failure next =>
                confirmed <- attempt_command (N.to_nat (rp_maximum_retries retry)) node_id targets
                               payload retry 0;;
                if confirmed : bool then execute_from fuel next stop_before
                else apply_failure (fun entry => execute_from fuel (Some entry) None) on_failure next
            | Node_Wait condition timeout_ms on_timeout next =>
                at_ <- now;;
                deadline <- sim_lift (add_millis at_ timeout_ms);;
                satisfied <- evaluate_condition condition;;
                s <- sim_get;;
                satisfied <- wait_for (length (vp_changes (si_ports s))) condition deadline satisfied;;
                if satisfied : bool then
                  trace Tr_Condition (Some node_id) [("result"%string, Val_Boolean true)];;
                  execute_from fuel next stop_before
                else
                  advance_to deadline;;
                  trace Tr_Timer (Some node_id) [("event"%string, Val_String "wait_timeout")];;
                  apply_failure (fun entry => execute_from fuel (Some entry) None) on_timeout next
            | Node_SetVariable name value next =>
                value <- evaluate_expression value;;
                set_variable name value;;
                trace Tr_Variable (Some node_id)
                  [("name"%string, Val_String name); ("value"%string, value)];;
                execute_from fuel next stop_before
            | Node_Branch condition then_node else_node join =>
                selected <- evaluate_condition condition;;
                trace Tr_Branch (Some node_id) [("then"%string, Val_Boolean selected)];;
                let chosen := if selected : bool then then_node else else_node in
                execute_from fuel (match chosen with Some chosen => Some chosen | None => join end)
                  stop_before
            | Node_Parallel branches _ join =>
                stopped <- each_branch (fun branch => execute_from fuel (Some branch) join) branches;;
                if stopped : bool then sim_ret Flow_StopRun else execute_from fuel join stop_before
            | Node_Race branches _ join =>
                won <- race_branch (fun branch => execute_from fuel (Some branch) join) branches;;
                match won with
                | Some true => execute_from fuel join stop_before
                | Some false | None => sim_ret Flow_StopRun
                end
            | Node_Join next => execute_from fuel next stop_before
            end
        end
  end.
End Interpreter.
End StepInterpreter.

(** The cron library: the instants of a six-field expression in a time zone,
    after the first instant and through the second, in order. *)
Class CronInstants := { cron_between : string -> string -> Instant -> Instant -> list Instant }.

(** The encoder of a trace. *)
Class TraceEncoding := { encode_trace : list AutomationTraceStep -> result (list N) string }.

Module AutomationSimulator.
Import StepInterpreter.
#[local] Open Scope sim_scope.

Section Simulator.
Context `{Calendar} `{Uuids} `{Chrono} `{Sha256} `{TraceEncoding}.

Definition finish (status : AutomationSimulationStatus) (s : StepInterpreter) :
  result AutomationSimulationResult AutomationSimulationError :=
  let? trace_hash := map_err (fun _ => Sme_TraceHash)
    (canonical_automation_hash (encode_trace (si_trace s))) in
  Ok (mk_simulation_result status (si_trace s) (si_intents s) (si_variables s)
        (vp_now (si_ports s)) trace_hash).

(** Every node consumes one step of the budget. *)
Definition simulation_fuel (plan : AutomationExecutionPlan) : nat :=
  S (N.to_nat (bu_maximum_trace_steps (pl_budget plan))).

Definition simulate (fixture : AutomationSimulationFixture) :
  option (result AutomationSimulationResult AutomationSimulationError) :=
  let run :=
    accepted <- accept_trigger fixture;;
    status <- match accepted with
              | Some status => sim_ret status
              | None =>
                  flow <- execute_from fixture (simulation_fuel (sf_plan fixture))
                            (Some (pl_entry (sf_plan fixture))) None;;
                  sim_ret (match flow with
                           | Flow_Completed => Sim_Completed
                           | Flow_StopRun | Flow_StopBranch => Sim_Failed
                           end)
              end;;
    (if bool_decide (status = Sim_Failed)
     then trace fixture Tr_Outcome None [("status"%string, Val_String "failed")]
     else sim_ret tt);;
    sim_ret status in
  match run (new fixture) with
  | None => None
  | Some (Err error) => Some (Err error)
  | Some (Ok (status, s)) => Some (finish status s)
  end.
End Simulator.

(** ** Schedules *)

Definition schedule_occurrences `{Calendar, CronInstants} (schedule : AutomationSchedule)
  (from through : Instant) : result (list Instant) AutomationSimulationError :=
  guard? timezone_known (as_timezone schedule) else Sme_InvalidSchedule in
  guard? cron_valid ("0 " +:+ as_cron schedule) else Sme_InvalidSchedule in
  Ok (cron_between ("0 " +:+ as_cron schedule) (as_timezone schedule) from through).
End AutomationSimulator.
