(* ===== verification/AutomationScheduler.v ===== *)
(** The durable scheduler of automations,
    [crates/homemagic-application/src/automation_scheduler.rs]: schedule
    occurrences, their admission and the runs they start, as programs over the
    operations they await. *)

From S2P Require Import Prelude Text BTree Capability Device Command CommandStore Effects CommandService Automation Identity AutomationStore AutomationCompiler AutomationEvaluator AutomationRuntime AutomationSimulator.

Module AutomationScheduler.

Definition RECOVERY_PAGE : nat := 1000.

Inductive AutomationSchedulerError :=
| Sce_Repository (error : BoxError)
| Sce_InvalidSchedule
| Sce_InvalidCatchUpInstant
| Sce_ScheduleNotMissed
| Sce_AutomationNotActive
| Sce_DurationOverflow.

Record AutomationSchedulerTick := mk_tick {
  tk_scheduled : N;
  tk_accepted : N;
  tk_missed_skipped : N;
  tk_suppressed : N;
  tk_runs : N;
  tk_runs_cancelled : N;
  tk_timers_ready : N
}.

Definition default : AutomationSchedulerTick := mk_tick 0 0 0 0 0 0 0.

(** One more of a counter. *)
Definition count_scheduled (t : AutomationSchedulerTick) :=
  mk_tick (u64_saturating_add (tk_scheduled t) 1) (tk_accepted t) (tk_missed_skipped t)
    (tk_suppressed t) (tk_runs t) (tk_runs_cancelled t) (tk_timers_ready t).
Definition count_accepted (t : AutomationSchedulerTick) :=
  mk_tick (tk_scheduled t) (u64_saturating_add (tk_accepted t) 1) (tk_missed_skipped t)
    (tk_suppressed t) (tk_runs t) (tk_runs_cancelled t) (tk_timers_ready t).
Definition count_missed_skipped (t : AutomationSchedulerTick) :=
  mk_tick (tk_scheduled t) (tk_accepted t) (u64_saturating_add (tk_missed_skipped t) 1)
    (tk_suppressed t) (tk_runs t) (tk_runs_cancelled t) (tk_timers_ready t).
Definition count_suppressed (t : AutomationSchedulerTick) :=
  mk_tick (tk_scheduled t) (tk_accepted t) (tk_missed_skipped t)
    (u64_saturating_add (tk_suppressed t) 1) (tk_runs t) (tk_runs_cancelled t) (tk_timers_ready t).
Definition count_run (t : AutomationSchedulerTick) :=
  mk_tick (tk_scheduled t) (tk_accepted t) (tk_missed_skipped t)
    (tk_suppressed t) (u64_saturating_add (tk_runs t) 1) (tk_runs_cancelled t) (tk_timers_ready t).
Definition count_cancelled (cancelled : N) (t : AutomationSchedulerTick) :=
  mk_tick (tk_scheduled t) (tk_accepted t) (tk_missed_skipped t)
    (tk_suppressed t) (tk_runs t) (u64_saturating_add (tk_runs_cancelled t) cancelled) (tk_timers_ready t).
Definition count_timer (t : AutomationSchedulerTick) :=
  mk_tick (tk_scheduled t) (tk_accepted t) (tk_missed_skipped t)
    (tk_suppressed t) (tk_runs t) (tk_runs_cancelled t) (u64_saturating_add (tk_timers_ready t) 1).

(** ** Awaited operations *)

Inductive ScOp :=
| Sc_active_automation_versions (limit : nat)
| Sc_create_automation_occurrence (occurrence : AutomationOccurrence)
| Sc_automation_occurrence (id : AutomationOccurrenceId)
| Sc_transition_automation_occurrence (occurrence : AutomationOccurrence)
| Sc_recoverable_automation_work (limit : nat)
| Sc_transition_automation_timer (timer : AutomationTimer)
| Sc_automation_trace (run_id : AutomationRunId) (after_sequence : option N) (limit : nat)
| Sc_commit_automation_step (write : AutomationStepWrite)
| Sc_automation_run (id : AutomationRunId)
| Sc_create_automation_run (run : AutomationRun)
| Sc_now.

Definition sc_resp (op : ScOp) : Type :=
  match op with
  | Sc_active_automation_versions _ => result (list ActiveAutomationVersion) BoxError
  | Sc_automation_occurrence _ => result (option AutomationOccurrence) BoxError
  | Sc_recoverable_automation_work _ => result AutomationRecovery BoxError
  | Sc_automation_trace _ _ _ => result (list AutomationTraceStep) BoxError
  | Sc_automation_run _ => result (option AutomationRun) BoxError
  | Sc_create_automation_occurrence _ | Sc_transition_automation_occurrence _
  | Sc_transition_automation_timer _ | Sc_commit_automation_step _
  | Sc_create_automation_run _ => result unit BoxError
  | Sc_now => Instant
  end.

Abbreviation ScProg A := (Prog sc_resp (result A AutomationSchedulerError)).

(** [.await.map_err(AutomationSchedulerError::Repository)?]. *)
Definition sc_call {A : Type} (m : Prog sc_resp (result A BoxError)) : ScProg A :=
  let! r := m in Ret (map_err Sce_Repository r).

(** ** Admission *)

Inductive Admission := Accept | Defer | Suppress.
#[export] Instance Admission_eq_dec : EqDecision Admission.
Proof. solve_decision. Defined.

Definition admission (mode : AutomationRunMode) (active queued : nat) : Admission :=
  match mode with
  | Mode_Single => if active =? 0 then Accept else Suppress
  | Mode_Queued capacity =>
      if active =? 0 then Accept
      else if N.ltb (N.of_nat queued) capacity then Defer else Suppress
  | Mode_Restart => Accept
  | Mode_Parallel maximum_parallel =>
      if N.ltb (N.of_nat active) maximum_parallel then Accept else Suppress
  end.

(** ** Occurrences *)

Definition with_occurrence_state (occurrence : AutomationOccurrence) (state : AutomationOccurrenceState) :
  AutomationOccurrence :=
  mk_occurrence (oc_id occurrence) (oc_automation_id occurrence) (oc_version occurrence)
    (oc_occurred_at occurrence) (oc_window_ends_at occurrence) state (oc_event_cursor occurrence)
    (oc_correlation_id occurrence) (oc_causation_event_id occurrence) (oc_catch_up occurrence).

Definition schedule_key (at_ : Instant) : string := "schedule:" +:+ show_Z (timestamp_millis at_).

Section Scheduler.
Context `{Uuids} `{Chrono} `{Calendar} `{CronInstants}.

(** The occurrence of a schedule of an active version at an instant. *)
Definition scheduled_occurrence (active : ActiveAutomationVersion) (schedule : AutomationSchedule)
  (instant : Instant) : AutomationOccurrence :=
  let id := AutomationOccurrenceId.from_key (id_id (aav_identity active))
              (do_version (sv_document (aav_version active))) (schedule_key instant) in
  mk_occurrence id (id_id (aav_identity active)) (do_version (sv_document (aav_version active)))
    instant
    (instant + delta_millis (i64_or_max (i64_try_from_u64 (as_occurrence_window_ms schedule))))
    Occ_Scheduled None (CorrelationId.from_key id) None None.

(** The run of an accepted occurrence. *)
Definition new_run (active : ActiveAutomationVersion) (occurrence : AutomationOccurrence) (now : Instant) :
  AutomationRun :=
  let plan := sv_plan (aav_version active) in
  mk_run (AutomationRunId.from_occurrence (oc_id occurrence)) (oc_automation_id occurrence)
    (oc_version occurrence) (oc_id occurrence)
    (pv_author_id (do_provenance (sv_document (aav_version active)))) Run_Pending 0
    (Some (pl_entry plan))
    (bcollect (omap (fun '(name, definition) =>
       value ← vd_initial definition; Some (name, value)) (pl_variables plan)))
    [] None [] [] (oc_correlation_id occurrence) (oc_causation_event_id occurrence) now now.

Definition create_run (active : ActiveAutomationVersion) (occurrence : AutomationOccurrence)
  (now : Instant) : ScProg AutomationRun :=
  try! found := sc_call (perform (Sc_automation_run
                  (AutomationRunId.from_occurrence (oc_id occurrence)))) in
  match found with
  | Some run => Ret (Ok run)
  | None =>
      let run := new_run active occurrence now in
      try! _ := sc_call (perform (Sc_create_automation_run run)) in
      Ret (Ok run)
  end.

(** ** Restart *)

Definition is_open_timer (run : AutomationRun) (timer : AutomationTimer) : bool :=
  String.eqb (tm_run_id timer) (ru_id run)
  && match tm_state timer with Tm_Pending | Tm_Ready => true | _ => false end.

(** The write that cancels a run for a newer occurrence. *)
Definition cancel_write (run : AutomationRun) (timers : list AutomationTimer)
  (occurrence : AutomationOccurrence) (sequence : N) (now : Instant) : AutomationStepWrite :=
  mk_step_write (with_state (checkpoint run now) Run_Cancelled) (ru_revision run)
    [mk_trace_step (AutomationTraceId.from_run_sequence (ru_id run) sequence) (ru_id run) sequence
       (ru_node_id run) Tr_Outcome (details [("reason"%string, Val_String "restart_mode")]) now
       (ru_correlation_id run) (oc_causation_event_id occurrence)]
    [] (map (fun timer => with_timer_state timer Tm_Cancelled) (List.filter (is_open_timer run) timers)).

Fixpoint cancel_for_restart (runs : list AutomationRun) (timers : list AutomationTimer)
  (occurrence : AutomationOccurrence) (now : Instant) : ScProg (list AutomationRun * N) :=
  match runs with
  | [] => Ret (Ok ([], 0%N))
  | run :: runs =>
      if String.eqb (ru_automation_id run) (oc_automation_id occurrence)
         && N.eqb (ru_version run) (oc_version occurrence)
         && negb (AutomationRunState.is_terminal (ru_state run))
      then
        try! trace := sc_call (perform (Sc_automation_trace (ru_id run) None RECOVERY_PAGE)) in
        let write := cancel_write run timers occurrence (N.of_nat (length trace)) now in
        try! _ := sc_call (perform (Sc_commit_automation_step write)) in
        try! rest := cancel_for_restart runs timers occurrence now in
        Ret (Ok (sw_run write :: rest.1, u64_saturating_add rest.2 1))
      else
        try! rest := cancel_for_restart runs timers occurrence now in
        Ret (Ok (run :: rest.1, rest.2))
  end.

(** ** Recovery *)

(** The loop over the timers: those due become ready. *)
Fixpoint ready_timers (timers : list AutomationTimer) (now : Instant) (result_ : AutomationSchedulerTick) :
  ScProg (list AutomationTimer * AutomationSchedulerTick) :=
  match timers with
  | [] => Ret (Ok ([], result_))
  | timer :: timers =>
      if bool_decide (tm_state timer = Tm_Pending) && (tm_ready_at timer <=? now)%Z
      then
        let ready := with_timer_state timer Tm_Ready in
        try! _ := sc_call (perform (Sc_transition_automation_timer ready)) in
        try! rest := ready_timers timers now (count_timer result_) in
        Ret (Ok (ready :: rest.1, rest.2))
      else
        try! rest := ready_timers timers now result_ in
        Ret (Ok (timer :: rest.1, rest.2))
  end.

(** What a pass over the occurrences carries along. *)
Record Pass := mk_pass {
  ps_runs : list AutomationRun;
  ps_active : gmap (AutomationId * N) nat;
  ps_queued : gmap (AutomationId * N) nat;
  ps_tick : AutomationSchedulerTick
}.

Definition occurrence_key (occurrence : AutomationOccurrence) : AutomationId * N :=
  (oc_automation_id occurrence, oc_version occurrence).
Definition run_key (run : AutomationRun) : AutomationId * N := (ru_automation_id run, ru_version run).

Definition count_of (key : AutomationId * N) (counts : gmap (AutomationId * N) nat) : nat :=
  match counts !! key with Some count => count | None => 0 end.

(** [*counts.entry(key).or_default() += 1]. *)
Definition bump (key : AutomationId * N) (counts : gmap (AutomationId * N) nat) :
  gmap (AutomationId * N) nat := <[key := S (count_of key counts)]> counts.

(** The live runs of each version. *)
Definition active_counts (runs : list AutomationRun) : gmap (AutomationId * N) nat :=
  fold_left (fun counts run =>
    if AutomationRunState.is_terminal (ru_state run) then counts else bump (run_key run) counts) runs ∅.

Definition is_version_of (occurrence : AutomationOccurrence) (active : ActiveAutomationVersion) : bool :=
  String.eqb (id_id (aav_identity active)) (oc_automation_id occurrence)
  && N.eqb (do_version (sv_document (aav_version active))) (oc_version occurrence).

(** The run of an accepted occurrence, counted. *)
Definition start_run (version : ActiveAutomationVersion) (occurrence : AutomationOccurrence)
  (now : Instant) (pass : Pass) : ScProg Pass :=
  try! run := create_run version occurrence now in
  let runs := if negb (AutomationRunState.is_terminal (ru_state run))
                 && forallb (fun item => negb (String.eqb (ru_id item) (ru_id run))) (ps_runs pass)
              then ps_runs pass ++ [run] else ps_runs pass in
  Ret (Ok (mk_pass runs (ps_active pass) (ps_queued pass) (count_run (ps_tick pass)))).

(** A scheduled occurrence that admission lets through. *)
Definition accept_occurrence (version : ActiveAutomationVersion) (occurrence : AutomationOccurrence)
  (timers : list AutomationTimer) (now : Instant) (pass : Pass) : ScProg Pass :=
  let key := occurrence_key occurrence in
  try! pass :=
    if bool_decide (pl_run_mode (sv_plan (aav_version version)) = Mode_Restart) then
      try! cancelled := cancel_for_restart (ps_runs pass) timers occurrence now in
      Ret (Ok (mk_pass cancelled.1 (<[key := 0]> (ps_active pass)) (ps_queued pass)
                 (count_cancelled cancelled.2 (ps_tick pass))))
    else Ret (Ok pass) in
  let accepted := with_occurrence_state occurrence Occ_Accepted in
  try! _ := sc_call (perform (Sc_transition_automation_occurrence accepted)) in
  start_run version accepted now
    (mk_pass (ps_runs pass) (bump key (ps_active pass)) (ps_queued pass)
       (count_accepted (ps_tick pass))).

(** One occurrence of the pass. *)
Definition process_occurrence (active : list ActiveAutomationVersion) (timers : list AutomationTimer)
  (now : Instant) (occurrence : AutomationOccurrence) (pass : Pass) : ScProg Pass :=
  match List.find (is_version_of occurrence) active with
  | None => Ret (Ok pass)
  | Some version =>
      match oc_state occurrence with
      | Occ_Scheduled =>
          if (oc_window_ends_at occurrence <? now)%Z then
            try! _ := sc_call (perform (Sc_transition_automation_occurrence
                        (with_occurrence_state occurrence Occ_MissedSkipped))) in
            Ret (Ok (mk_pass (ps_runs pass) (ps_active pass) (ps_queued pass)
                       (count_missed_skipped (ps_tick pass))))
          else if (now <? oc_occurred_at occurrence)%Z then Ret (Ok pass)
          else
            let key := occurrence_key occurrence in
            match admission (pl_run_mode (sv_plan (aav_version version)))
                    (count_of key (ps_active pass)) (count_of key (ps_queued pass)) with
            | Defer => Ret (Ok (mk_pass (ps_runs pass) (ps_active pass) (bump key (ps_queued pass))
                                  (ps_tick pass)))
            | Suppress =>
                try! _ := sc_call (perform (Sc_transition_automation_occurrence
                            (with_occurrence_state occurrence Occ_Suppressed))) in
                Ret (Ok (mk_pass (ps_runs pass) (ps_active pass) (ps_queued pass)
                           (count_suppressed (ps_tick pass))))
            | Accept => accept_occurrence version occurrence timers now pass
            end
      | Occ_Accepted => start_run version occurrence now pass
      | _ => Ret (Ok pass)
      end
  end.

Fixpoint process_occurrences (active : list ActiveAutomationVersion) (timers : list AutomationTimer)
  (now : Instant) (occurrences : list AutomationOccurrence) (pass : Pass) : ScProg Pass :=
  match occurrences with
  | [] => Ret (Ok pass)
  | occurrence :: occurrences =>
      try! pass := process_occurrence active timers now occurrence pass in
      process_occurrences active timers now occurrences pass
  end.

Definition process_recovery (active : list ActiveAutomationVersion) (result_ : AutomationSchedulerTick) :
  ScProg AutomationSchedulerTick :=
  let! now := perform Sc_now in
  try! recovery := sc_call (perform (Sc_recoverable_automation_work RECOVERY_PAGE)) in
  try! readied := ready_timers (rcv_timers recovery) now result_ in
  try! pass := process_occurrences active readied.1 now (rcv_occurrences recovery)
    (mk_pass (rcv_runs recovery) (active_counts (rcv_runs recovery)) ∅ readied.2) in
  Ret (Ok (ps_tick pass)).

(** ** The tick *)

Fixpoint create_occurrences (occurrences : list AutomationOccurrence) (result_ : AutomationSchedulerTick) :
  ScProg AutomationSchedulerTick :=
  match occurrences with
  | [] => Ret (Ok result_)
  | occurrence :: occurrences =>
      try! _ := sc_call (perform (Sc_create_automation_occurrence occurrence)) in
      create_occurrences occurrences (count_scheduled result_)
  end.

Fixpoint materialize_triggers (active : ActiveAutomationVersion) (triggers : list AutomationTrigger)
  (from through : Instant) (result_ : AutomationSchedulerTick) : ScProg AutomationSchedulerTick :=
  match triggers with
  | [] => Ret (Ok result_)
  | Trig_Schedule schedule :: triggers =>
      match AutomationSimulator.schedule_occurrences schedule from through with
      | Err _ => Ret (Err Sce_InvalidSchedule)
      | Ok instants =>
          try! result_ := create_occurrences (map (scheduled_occurrence active schedule) instants)
                            result_ in
          materialize_triggers active triggers from through result_
      end
  | _ :: triggers => materialize_triggers active triggers from through result_
  end.

Fixpoint materialize (active : list ActiveAutomationVersion) (from through : Instant)
  (result_ : AutomationSchedulerTick) : ScProg AutomationSchedulerTick :=
  match active with
  | [] => Ret (Ok result_)
  | version :: active =>
      try! result_ := materialize_triggers version (do_triggers (sv_document (aav_version version)))
                        from through result_ in
      materialize active from through result_
  end.

Definition tick (from through : Instant) : ScProg AutomationSchedulerTick :=
  try! active := sc_call (perform (Sc_active_automation_versions RECOVERY_PAGE)) in
  try! result_ := materialize active from through default in
  process_recovery active result_.

(** ** Catch-up *)

Definition one_millisecond : TimeDelta := delta_millis 1.

Definition missed_occurrence (active : ActiveAutomationVersion) (scheduled_for window_ends_at : Instant) :
  AutomationOccurrence :=
  let id := AutomationOccurrenceId.from_key (id_id (aav_identity active))
              (do_version (sv_document (aav_version active))) (schedule_key scheduled_for) in
  mk_occurrence id (id_id (aav_identity active)) (do_version (sv_document (aav_version active)))
    scheduled_for window_ends_at Occ_MissedSkipped None (CorrelationId.from_key id) None None.

(** The first schedule of the document that has exactly the instant. *)
Definition schedule_of (triggers : list AutomationTrigger) (before scheduled_for : Instant) :
  option AutomationSchedule :=
  List.find (fun schedule =>
      match AutomationSimulator.schedule_occurrences schedule before scheduled_for with
      | Ok instants => bool_decide (instants = [scheduled_for])
      | Err _ => false
      end)
    (omap (fun trigger => match trigger with Trig_Schedule schedule => Some schedule | _ => None end)
       triggers).

(** [.ok_or(error)?]. *)
Definition sc_or {A B : Type} (value : option A) (error : AutomationSchedulerError) (k : A -> ScProg B) :
  ScProg B :=
  match value with Some value => k value | None => Ret (Err error) end.

Definition prepare_missed_schedule (automation_id : AutomationId) (scheduled_for : Instant) :
  ScProg (ActiveAutomationVersion * AutomationOccurrenceId) :=
  try! versions := sc_call (perform (Sc_active_automation_versions RECOVERY_PAGE)) in
  sc_or (List.find (fun active => String.eqb (id_id (aav_identity active)) automation_id) versions)
    Sce_AutomationNotActive (fun active =>
  sc_or (checked_add_signed scheduled_for (- one_millisecond)%Z) Sce_DurationOverflow (fun before =>
  sc_or (schedule_of (do_triggers (sv_document (aav_version active))) before scheduled_for)
    Sce_InvalidCatchUpInstant (fun schedule =>
  sc_or (i64_try_from_u64 (as_occurrence_window_ms schedule)) Sce_DurationOverflow (fun window_millis =>
  sc_or (checked_add_signed scheduled_for (delta_millis window_millis)) Sce_DurationOverflow
    (fun window_ends_at =>
  let! now := perform Sc_now in
  guard! negb (now <=? window_ends_at)%Z else Sce_ScheduleNotMissed in
  let missed := missed_occurrence active scheduled_for window_ends_at in
  try! _ := sc_call (perform (Sc_create_automation_occurrence missed)) in
  try! found := sc_call (perform (Sc_automation_occurrence (oc_id missed))) in
  sc_or found Sce_ScheduleNotMissed (fun stored =>
    match oc_state stored with
    | Occ_Scheduled =>
        try! _ := sc_call (perform (Sc_transition_automation_occurrence
                    (with_occurrence_state stored Occ_MissedSkipped))) in
        Ret (Ok (active, oc_id missed))
    | Occ_MissedSkipped => Ret (Ok (active, oc_id missed))
    | Occ_Accepted | Occ_Suppressed => Ret (Err Sce_ScheduleNotMissed)
    end)))))).

Definition request_catch_up (automation_id : AutomationId) (scheduled_for : Instant)
  (requested_by : ActorId) (idempotency_key : IdempotencyKey) : ScProg AutomationOccurrence :=
  try! prepared := prepare_missed_schedule automation_id scheduled_for in
  let '(active, missed_id) := prepared in
  let version := do_version (sv_document (aav_version active)) in
  let id := AutomationOccurrenceId.from_key (id_id (aav_identity active)) version
              ("catch_up:" +:+ colon_join [missed_id; requested_by; key_text idempotency_key]) in
  try! existing := sc_call (perform (Sc_automation_occurrence id)) in
  match existing with
  | Some existing => Ret (Ok existing)
  | None =>
      let! now := perform Sc_now in
      let occurrence := mk_occurrence id (id_id (aav_identity active)) version now chrono_max
        Occ_Scheduled None (CorrelationId.from_key id) None
        (Some (mk_catch_up missed_id requested_by idempotency_key now)) in
      try! _ := sc_call (perform (Sc_create_automation_occurrence occurrence)) in
      Ret (Ok occurrence)
  end.
End Scheduler.
End AutomationScheduler.
