(* ===== verification/AutomationEngine.v ===== *)
(** The stages of the automation engine: the subscriber that turns domain events
    into automation occurrences,
    [crates/homemagic-application/src/automation_events.rs], and the coordinator,
    automation_engine.rs: one pass runs the event stage, the scheduler and at most
    one step of every recovered run.  At the end: no event is passed before its
    occurrences are stored, and none is stored that is not called for. *)

From S2P Require Import Prelude Text BTree Json Capability Lifecycle Device Command CommandStore Effects CommandService Automation Identity FoundationStore AutomationStore AutomationCompiler AutomationEvaluator AutomationRuntime AutomationSimulator AutomationScheduler.

Module AutomationEventProcessor.

Definition MAX_EVENT_PAGE : nat := 1000.
Definition MAX_ACTIVE_AUTOMATIONS : nat := 1000.

Inductive AutomationEventProcessorError :=
| Aee_Repository (operation : string) (source : BoxError)
| Aee_CursorExpired (requested earliest : N).

Record AutomationEventProcessorTick := mk_event_tick {
  et_events : N;
  et_occurrences : N;
  et_suppressed : N;
  et_cursor : N
}.

(** ** Matching *)

Definition exact_target (target : ResolvedAutomationTarget) (event : DomainEvent)
  (endpoint_id : EndpointId) (capability : string) : bool :=
  bool_decide (ev_device_id event = Some (rt_device_id target))
  && String.eqb (rt_endpoint_id target) endpoint_id
  && String.eqb (rt_capability target) capability.

Definition trigger_matches (trigger : ResolvedAutomationTrigger) (event : DomainEvent) : bool :=
  match trigger, ev_kind event with
  | Rt_ObservationChanged targets field, Ev_ObservationChanged endpoint_id capability changed_fields =>
      existsb (fun target =>
        exact_target target event endpoint_id (CapabilityDescriptor.schema capability)
        && match field with Some field => bool_decide (field ∈ changed_fields) | None => true end) targets
  | Rt_DeviceEvent targets expected, Ev_DeviceEvent endpoint_id actual =>
      String.eqb expected actual
      && existsb (fun target =>
           bool_decide (ev_device_id event = Some (rt_device_id target))
           && String.eqb (rt_endpoint_id target) endpoint_id) targets
  | Rt_CommandOutcome targets states, Ev_CommandTransitioned _ _ to _ endpoint_id capability =>
      bool_decide (to ∈ states)
      && match targets with
         | Some targets =>
             match endpoint_id, capability with
             | Some endpoint_id, Some capability =>
                 existsb (fun target => exact_target target event endpoint_id capability) targets
             | _, _ => false
             end
         | None => true
         end
  | _, _ => false
  end.

Definition self_suppressed (automation : ActiveAutomationVersion) (event : DomainEvent) : bool :=
  match cm_automation (ev_causation event) with
  | Some cause =>
      if String.eqb (cz_automation_id cause) (id_id (aav_identity automation)) then
        match pl_self_trigger (sv_plan (aav_version automation)) with
        | Self_SuppressSameVersion =>
            N.eqb (cz_version cause) (do_version (sv_document (aav_version automation)))
        | Self_SuppressSameCorrelation => true
        | Self_Allow => false
        end
      else false
  | None => false
  end.

Definition matches (event : CursorEvent) (automation : ActiveAutomationVersion) : bool :=
  existsb (fun trigger => trigger_matches trigger (cev_event event))
    (pl_triggers (sv_plan (aav_version automation))).

(** ** Awaited operations *)

Inductive AeOp :=
| Ae_automation_event_cursor
| Ae_events_after (cursor : N) (limit : nat)
| Ae_active_automation_versions (limit : nat)
| Ae_create_automation_occurrence (occurrence : AutomationOccurrence)
| Ae_advance_automation_event_cursor (expected_revision cursor : N) (updated_at : Instant)
| Ae_now.

Definition ae_resp (op : AeOp) : Type :=
  match op with
  | Ae_automation_event_cursor => result AutomationEventCursor BoxError
  | Ae_events_after _ _ => result EventPage BoxError
  | Ae_active_automation_versions _ => result (list ActiveAutomationVersion) BoxError
  | Ae_create_automation_occurrence _ => result unit BoxError
  | Ae_advance_automation_event_cursor _ _ _ => result AutomationEventCursor BoxError
  | Ae_now => Instant
  end.

Abbreviation AeProg A := (Prog ae_resp (result A AutomationEventProcessorError)).

(** [.await.map_err(|source| repository_error(operation, source))?]. *)
Definition ae_call {A : Type} (m : Prog ae_resp (result A BoxError)) (operation : string) : AeProg A :=
  let! r := m in Ret (map_err (Aee_Repository operation) r).

Section Process.
Context `{Uuids}.

(** The occurrence of an event for an automation it matches. *)
Definition event_occurrence (automation : ActiveAutomationVersion) (event : CursorEvent) :
  AutomationOccurrence :=
  mk_occurrence
    (AutomationOccurrenceId.from_key (id_id (aav_identity automation))
       (do_version (sv_document (aav_version automation))) ("event:" +:+ show_N (cev_cursor event)))
    (id_id (aav_identity automation)) (do_version (sv_document (aav_version automation)))
    (ev_occurred_at (cev_event event)) chrono_max
    (if self_suppressed automation (cev_event event) then Occ_Suppressed else Occ_Scheduled)
    (Some (cev_cursor event)) (cm_correlation_id (ev_causation (cev_event event)))
    (Some (ev_id (cev_event event))) None.

Fixpoint materialize_event (active : list ActiveAutomationVersion) (event : CursorEvent)
  (result_ : AutomationEventProcessorTick) : AeProg AutomationEventProcessorTick :=
  match active with
  | [] => Ret (Ok result_)
  | automation :: active =>
      if negb (matches event automation) then materialize_event active event result_
      else
        try! _ := ae_call (perform (Ae_create_automation_occurrence
                    (event_occurrence automation event))) "create_occurrence" in
        materialize_event active event
          (mk_event_tick (et_events result_) (u64_saturating_add (et_occurrences result_) 1)
             (if self_suppressed automation (cev_event event)
              then u64_saturating_add (et_suppressed result_) 1 else et_suppressed result_)
             (et_cursor result_))
  end.

Fixpoint process_events (active : list ActiveAutomationVersion) (events : list CursorEvent)
  (checkpoint : AutomationEventCursor) (result_ : AutomationEventProcessorTick) :
  AeProg AutomationEventProcessorTick :=
  match events with
  | [] => Ret (Ok result_)
  | event :: events =>
      try! result_ := materialize_event active event result_ in
      let! now := perform Ae_now in
      try! checkpoint := ae_call (perform (Ae_advance_automation_event_cursor (ecu_revision checkpoint)
                           (cev_cursor event) now)) "advance_cursor" in
      process_events active events checkpoint
        (mk_event_tick (u64_saturating_add (et_events result_) 1) (et_occurrences result_)
           (et_suppressed result_) (ecu_cursor checkpoint))
  end.

Definition process (limit : nat) : AeProg AutomationEventProcessorTick :=
  try! checkpoint := ae_call (perform Ae_automation_event_cursor) "load_cursor" in
  try! page := ae_call (perform (Ae_events_after (ecu_cursor checkpoint)
                 (Nat.min (Nat.max limit 1) MAX_EVENT_PAGE))) "load_events" in
  match (earliest ← evp_earliest_cursor page;
         if N.ltb (u64_saturating_add (ecu_cursor checkpoint) 1) earliest then Some earliest else None) with
  | Some earliest => Ret (Err (Aee_CursorExpired (ecu_cursor checkpoint) earliest))
  | None =>
      try! active := ae_call (perform (Ae_active_automation_versions MAX_ACTIVE_AUTOMATIONS))
                       "load_active_versions" in
      process_events active (evp_events page) checkpoint (mk_event_tick 0 0 0 (ecu_cursor checkpoint))
  end.
End Process.
End AutomationEventProcessor.

(** A program over the operations of a stage as one over those of the whole. *)
Fixpoint embed {Op Op' : Type} {resp : Op -> Type} {resp' : Op' -> Type} (inject : Op -> Op')
  (answer : forall op, resp' (inject op) -> resp op) {A : Type} (m : Prog resp A) : Prog resp' A :=
  match m with
  | Ret a => Ret a
  | Io op k => Io (inject op) (fun r => embed inject answer (k (answer op r)))
  end.

Module AutomationEngine.

Definition WORK_PAGE : nat := 1000.

Inductive AutomationEngineError :=
| Ene_Events (error : AutomationEventProcessor.AutomationEventProcessorError)
| Ene_Scheduler (error : AutomationScheduler.AutomationSchedulerError)
| Ene_Recovery (error : BoxError)
| Ene_EventWakeup (error : BoxError).

Record AutomationRunStepFailure := mk_step_failure {
  asf_run_id : AutomationRunId;
  asf_error : AutomationRuntimeError
}.

Record AutomationEngineTick := mk_engine_tick {
  ent_events : AutomationEventProcessor.AutomationEventProcessorTick;
  ent_scheduler : AutomationScheduler.AutomationSchedulerTick;
  ent_advanced : N;
  ent_waiting : N;
  ent_completed : N;
  ent_no_work : N;
  ent_failures : list AutomationRunStepFailure
}.

Section Operations.
Context `{SerdeJson}.

(** The operations of the stages and of the engine itself. *)
Inductive EnOp :=
| En_events (op : AutomationEventProcessor.AeOp)
| En_scheduler (op : AutomationScheduler.ScOp)
| En_runtime (op : RtOp)
| En_recoverable_automation_work (limit : nat)
| En_automation_run (id : AutomationRunId)
| En_wake.

Definition en_resp (op : EnOp) : Type :=
  match op with
  | En_events op => AutomationEventProcessor.ae_resp op
  | En_scheduler op => AutomationScheduler.sc_resp op
  | En_runtime op => rt_resp op
  | En_recoverable_automation_work _ => result AutomationRecovery BoxError
  | En_automation_run _ => result (option AutomationRun) BoxError
  | En_wake => result unit BoxError
  end.

Abbreviation EnProg A := (Prog en_resp (result A AutomationEngineError)).

Definition en_call {A E : Type} (m : Prog en_resp (result A E)) (wrap : E -> AutomationEngineError) :
  EnProg A :=
  let! r := m in Ret (map_err wrap r).

Definition en_events_stage {A : Type} (m : Prog AutomationEventProcessor.ae_resp A) : Prog en_resp A :=
  embed (resp' := en_resp) En_events (fun _ r => r) m.
Definition en_scheduler_stage {A : Type} (m : Prog AutomationScheduler.sc_resp A) : Prog en_resp A :=
  embed (resp' := en_resp) En_scheduler (fun _ r => r) m.
Definition en_runtime_step {A : Type} (m : Prog rt_resp A) : Prog en_resp A :=
  embed (resp' := en_resp) En_runtime (fun _ r => r) m.

Section Engine.
Context `{Uuids} `{Chrono} `{Calendar} `{CronInstants} `{Sha256} `{AutomationEncoding}.

(** The loop over the recovered runs: the summary, and whether a run moved. *)
Fixpoint step_runs (commands : bool) (runs : list AutomationRun) (result_ : AutomationEngineTick)
  (run_transitioned : bool) : EnProg (AutomationEngineTick * bool) :=
  match runs with
  | [] => Ret (Ok (result_, run_transitioned))
  | run :: runs =>
      let events := ent_events result_ in
      let scheduler := ent_scheduler result_ in
      let advanced := ent_advanced result_ in
      let waiting := ent_waiting result_ in
      let completed := ent_completed result_ in
      let no_work := ent_no_work result_ in
      let failures := ent_failures result_ in
      let! stepped := en_runtime_step (step commands (ru_id run)) in
      match stepped with
      | Ok Rs_Advanced =>
          step_runs commands runs
            (mk_engine_tick events scheduler (u64_saturating_add advanced 1) waiting completed no_work
               failures) true
      | Ok Rs_Waiting =>
          try! current := en_call (perform (En_automation_run (ru_id run))) Ene_Recovery in
          step_runs commands runs
            (mk_engine_tick events scheduler advanced (u64_saturating_add waiting 1) completed no_work
               failures)
            (run_transitioned
             || match current with
                | Some current => negb (N.eqb (ru_revision current) (ru_revision run))
                | None => false
                end)
      | Ok Rs_Completed =>
          step_runs commands runs
            (mk_engine_tick events scheduler advanced waiting (u64_saturating_add completed 1) no_work
               failures) true
      | Ok Rs_NoWork =>
          step_runs commands runs
            (mk_engine_tick events scheduler advanced waiting completed (u64_saturating_add no_work 1)
               failures) run_transitioned
      | Err error =>
          step_runs commands runs
            (mk_engine_tick events scheduler advanced waiting completed no_work
               (failures ++ [mk_step_failure (ru_id run) error])) run_transitioned
      end
  end.

Definition tick (commands : bool) (schedule_from through : Instant) : EnProg AutomationEngineTick :=
  try! events := en_call (en_events_stage (AutomationEventProcessor.process WORK_PAGE)) Ene_Events in
  try! scheduler := en_call (en_scheduler_stage (AutomationScheduler.tick schedule_from through))
                      Ene_Scheduler in
  try! recovery := en_call (perform (En_recoverable_automation_work WORK_PAGE)) Ene_Recovery in
  try! stepped := step_runs commands (rcv_runs recovery) (mk_engine_tick events scheduler 0 0 0 0 [])
                    false in
  let '(result_, run_transitioned) := stepped in
  if N.ltb 0 (AutomationScheduler.tk_runs (ent_scheduler result_))
     || N.ltb 0 (AutomationScheduler.tk_runs_cancelled (ent_scheduler result_)) || run_transitioned
  then try! _ := en_call (perform En_wake) Ene_EventWakeup in Ret (Ok result_)
  else Ret (Ok result_).
End Engine.
End Operations.
End AutomationEngine.

(** ** What the event processor promises *)

Import AutomationEventProcessor.

(** What a pass has read and done: its checkpoint, whether its page was checked
    for a gap, the events before it and the occurrences of the first of them. *)
Record Delivery := mk_delivery {
  v_checkpoint : option AutomationEventCursor;
  v_earliest : option N;
  v_events : list CursorEvent;
  v_active : list ActiveAutomationVersion;
  v_created : list AutomationOccurrence;
  v_passed : list CursorEvent
}.

(** The event before the checkpoint is still retained, or none is. *)
Definition no_gap (t : Delivery) : Prop :=
  match v_checkpoint t, v_earliest t with
  | Some checkpoint, Some earliest => (earliest <= u64_saturating_add (ecu_cursor checkpoint) 1)%N
  | Some _, None => True
  | None, _ => False
  end.

Section Delivery.
Context `{Uuids}.

(** The occurrences an event calls for, in the order of the automations. *)
Definition called_for (active : list ActiveAutomationVersion) (event : CursorEvent) :
  list AutomationOccurrence :=
  map (fun automation => event_occurrence automation event) (List.filter (matches event) active).

Definition ae_gives (op : AeOp) : ae_resp op -> Delivery -> Delivery :=
  match op return ae_resp op -> Delivery -> Delivery with
  | Ae_automation_event_cursor => fun r t =>
      match r with Ok checkpoint => mk_delivery (Some checkpoint) None [] [] [] [] | Err _ => t end
  | Ae_events_after _ _ => fun r t =>
      match r with
      | Ok page => mk_delivery (v_checkpoint t) (evp_earliest_cursor page) (evp_events page) [] [] []
      | Err _ => t
      end
  | Ae_active_automation_versions _ => fun r t =>
      match r with
      | Ok active => mk_delivery (v_checkpoint t) (v_earliest t) (v_events t) active [] []
      | Err _ => t
      end
  | Ae_create_automation_occurrence o => fun r t =>
      match r with
      | Ok _ => mk_delivery (v_checkpoint t) (v_earliest t) (v_events t) (v_active t) (v_created t ++ [o])
                  (v_passed t)
      | Err _ => t
      end
  | Ae_advance_automation_event_cursor _ _ _ => fun r t =>
      match r, v_events t with
      | Ok checkpoint, event :: events =>
          mk_delivery (Some checkpoint) (v_earliest t) events (v_active t) [] (v_passed t ++ [event])
      | _, _ => t
      end
  | Ae_now => fun _ t => t
  end.

Definition ae_needs (op : AeOp) (t : Delivery) : Prop :=
  match op with
  | Ae_events_after cursor limit =>
      ecu_cursor <$> v_checkpoint t = Some cursor /\ 1 <= limit <= MAX_EVENT_PAGE
  | Ae_create_automation_occurrence o => exists event events later,
      (v_passed t = [] -> no_gap t) /\ v_events t = event :: events
      /\ called_for (v_active t) event = v_created t ++ o :: later
  | Ae_advance_automation_event_cursor revision cursor _ => exists event events,
      (v_passed t = [] -> no_gap t) /\ v_events t = event :: events /\ cursor = cev_cursor event
      /\ ecu_revision <$> v_checkpoint t = Some revision
      /\ v_created t = called_for (v_active t) event
  | _ => True
  end.

Abbreviation delivers := (wp ae_needs ae_gives (fun _ _ _ => True)).

Lemma wp_ae_call {A B : Type} (m : Prog ae_resp (result A BoxError)) operation
  (f : A -> Prog ae_resp (result B AutomationEventProcessorError)) t Q :
  delivers m t (fun r t =>
    match r with
    | Ok a => delivers (f a) t Q
    | Err error => Q (Err (Aee_Repository operation error)) t
    end) ->
  delivers (try_bind (ae_call m operation) f) t Q.
Proof.
  intros Hm. unfold ae_call. apply wp_try, wp_bind. eapply wp_mono; [exact Hm|]. by intros [a|error] t'.
Qed.

(** The occurrences of one event, from the automations not yet asked. *)
Lemma delivers_event checkpoint earliest event events passed all active created result_ :
  (passed = [] -> no_gap (mk_delivery (Some checkpoint) earliest (event :: events) all [] passed)) ->
  called_for all event = created ++ called_for active event ->
  delivers (materialize_event active event result_)
    (mk_delivery (Some checkpoint) earliest (event :: events) all created passed)
    (fun r t' => forall tick, r = Ok tick -> et_events tick = et_events result_
       /\ t' = mk_delivery (Some checkpoint) earliest (event :: events) all (called_for all event) passed).
Proof.
  intros Hgap. revert created result_. induction active as [|automation active IH]; intros created result_ Hall;
    cbn [materialize_event].
  - unfold called_for in Hall at 2. simpl in Hall. rewrite app_nil_r in Hall. simpl. rewrite Hall.
    by intros tick [= <-].
  - unfold called_for in Hall at 2. simpl in Hall. destruct (matches event automation); cbn [negb]; [|by apply IH].
    apply wp_ae_call. split.
    { exists event, events. eexists. split_and!; [exact Hgap|done|exact Hall]. }
    intros [[]|error] _; cbn [wp ae_gives v_checkpoint v_earliest v_events v_active v_created v_passed]; [|done].
    eapply wp_mono; [apply IH|].
    + by rewrite Hall, <- app_assoc.
    + intros [tick|error] t' Ht; [|done]. intros tick' [= <-]. destruct (Ht _ eq_refl) as [-> ->]. done.
Qed.

Lemma delivers_events events checkpoint earliest passed all result_ :
  (passed = [] -> no_gap (mk_delivery (Some checkpoint) earliest events all [] passed)) ->
  et_cursor result_ = ecu_cursor checkpoint ->
  delivers (process_events all events checkpoint result_)
    (mk_delivery (Some checkpoint) earliest events all [] passed)
    (fun r t' => forall tick, r = Ok tick -> v_passed t' = passed ++ events /\ v_events t' = []
       /\ Some (et_cursor tick) = ecu_cursor <$> v_checkpoint t').
Proof.
  revert checkpoint passed result_. induction events as [|event events IH];
    intros checkpoint passed result_ Hgap Hcur; cbn [process_events].
  { intros tick [= <-]. simpl. rewrite app_nil_r. by rewrite Hcur. }
  apply wp_try. eapply wp_mono; [apply delivers_event; [exact Hgap|done]|].
  intros [tick|error] t' Ht; [|done]. destruct (Ht _ eq_refl) as [Hev ->].
  split; [done|]. intros now _. cbn [ae_gives]. apply wp_ae_call. split.
  { exists event, events. by split_and!. }
  intros [next|error] _; cbn [wp ae_gives v_checkpoint v_earliest v_events v_active v_created v_passed]; [|done].
  eapply wp_mono; [apply IH|].
  - intros Hnil. by apply app_eq_nil in Hnil as [_ Hnil].
  - done.
  - intros [tick'|error] t' Hr tick2; [|done]. intros [= <-].
    destruct (Hr _ eq_refl) as (Hp & He & Hc). by rewrite Hp, <- app_assoc.
Qed.

Lemma delivers_process limit t :
  delivers (process limit) t (fun r t' => forall tick, r = Ok tick -> v_events t' = []
    /\ Some (et_cursor tick) = ecu_cursor <$> v_checkpoint t').
Proof.
  unfold process. apply wp_ae_call. split; [done|]. intros [checkpoint|error] _; cbn [wp ae_gives]; [|done].
  apply wp_ae_call. split; [split; [done|unfold MAX_EVENT_PAGE; lia]|].
  intros [page|error] _; cbn [wp ae_gives v_checkpoint]; [|done].
  destruct (_ ≫= _) as [earliest|] eqn:Hgap; [done|].
  apply wp_ae_call. split; [done|].
  intros [active|error] _; cbn [wp ae_gives v_checkpoint v_earliest v_events]; [|done].
  eapply wp_mono; [apply delivers_events; [|done]|].
  - intros _. unfold no_gap. simpl. destruct (evp_earliest_cursor page) as [earliest|]; [|done].
    simpl in Hgap. destruct (N.ltb _ _) eqn:Hlt; [discriminate|]. by apply N.ltb_ge in Hlt.
  - intros [tick|error] t' Hr tick' Heq; [|done]. by destruct (Hr _ Heq) as (_ & He & Hc).
Qed.

End Delivery.

(** C39: whatever its operations answer, the processor asks for the events behind
    its checkpoint, and when the page leaves no gap takes them in their order: of
    each event it creates exactly the occurrences of the automations the event
    matches, one after the other, and only when all are stored it advances the
    checkpoint it read to the event; when it succeeds no event of the page is left
    and it reports the last checkpoint. *)
Theorem events_delivered `{Uuids} limit t :
  wp ae_needs ae_gives (fun _ _ _ => True) (process limit) t (fun r t' =>
    forall tick, r = Ok tick -> v_events t' = []
    /\ Some (et_cursor tick) = ecu_cursor <$> v_checkpoint t').
Proof. apply delivers_process. Qed.
