(* ===== verification/AutomationLifecycle.v ===== *)
(** The authenticated authoring, evidence and activation boundary of automations,
    [crates/homemagic-application/src/automation_lifecycle.rs], as programs over
    the operations it awaits. *)

From S2P Require Import Prelude Text BTree Json Capability Device Command CommandStore Effects CommandService Automation Identity AutomationStore AutomationCompiler AutomationEvaluator AutomationRuntime AutomationSimulator AutomationScheduler AutomationEngine.

Module AutomationLifecycle.

Record AutomationSimulationInput := mk_simulation_input {
  asi_trigger : SimulationTriggerContext;
  asi_initial_state : list (SimulationObservationKey * AutomationValue);
  asi_state_changes : list SimulationStateChange;
  asi_command_outcomes : list SimulationCommandOutcome
}.

Record AutomationDraftCreateInput := mk_draft_input {
  dci_name : string;
  dci_agent_id : option string;
  dci_source_request : string;
  dci_rationale : string;
  dci_variables : list (string * AutomationVariableDefinition);
  dci_triggers : list AutomationTrigger;
  dci_condition : option AutomationCondition;
  dci_actions : list AutomationAction;
  dci_run_mode : AutomationRunMode;
  dci_self_trigger : AutomationSelfTriggerPolicy;
  dci_budget : AutomationResourceBudget
}.

Record AutomationLifecycleSimulation := mk_lifecycle_simulation {
  als_version : StoredAutomationVersion;
  als_result : AutomationSimulationResult
}.

Inductive AutomationLifecycleError :=
| Ale_Repository (error : BoxError)
| Ale_Foundation (error : BoxError)
| Ale_NotAuthorized
| Ale_NotFound
| Ale_InvalidState
| Ale_Validation (error : AutomationCompilationError)
| Ale_Simulation (error : AutomationSimulationError)
| Ale_Scheduler (error : AutomationScheduler.AutomationSchedulerError)
| Ale_EventWakeup (error : BoxError)
| Ale_CanonicalInput.

(** The encoder of a simulation input. *)
Class InputEncoding := { encode_input : AutomationSimulationInput -> result (list N) string }.

Section Operations.
Context `{SerdeJson}.

(** ** Awaited operations *)

Inductive LcOp :=
| Lc_store_automation_draft (draft : AutomationDraft) (expected_revision : option N)
| Lc_automation_draft (id : AutomationId)
| Lc_automation_drafts (limit : nat)
| Lc_load
| Lc_store_automation_version (version : StoredAutomationVersion)
| Lc_automation_version (id : AutomationId) (version : AutomationVersion)
| Lc_automation_versions (id : AutomationId) (limit : nat)
| Lc_transition_automation_version (version : StoredAutomationVersion) (expected : AutomationVersionState)
| Lc_automation_identity (id : AutomationId)
| Lc_automation_identities (limit : nat)
| Lc_automation_run (id : AutomationRunId)
| Lc_automation_runs (id : option AutomationId) (limit : nat)
| Lc_automation_trace (run_id : AutomationRunId) (after_sequence : option N) (limit : nat)
| Lc_append_automation_approval (approval : AutomationApprovalRecord)
| Lc_activate_automation (activation : AutomationActivation)
| Lc_transition_automation_identity (identity : AutomationIdentityState) (expected_revision : N)
| Lc_recoverable_automation_work (limit : nat)
| Lc_commit_automation_step (write : AutomationStepWrite)
| Lc_scheduler (op : AutomationScheduler.ScOp)
| Lc_wake
| Lc_now
| Lc_random.

Definition lc_resp (op : LcOp) : Type :=
  match op with
  | Lc_automation_draft _ => result (option AutomationDraft) BoxError
  | Lc_automation_drafts _ => result (list AutomationDraft) BoxError
  | Lc_load => result FoundationSnapshot BoxError
  | Lc_automation_version _ _ => result (option StoredAutomationVersion) BoxError
  | Lc_automation_versions _ _ => result (list StoredAutomationVersion) BoxError
  | Lc_automation_identity _ => result (option AutomationIdentityState) BoxError
  | Lc_automation_identities _ => result (list AutomationIdentityState) BoxError
  | Lc_automation_run _ => result (option AutomationRun) BoxError
  | Lc_automation_runs _ _ => result (list AutomationRun) BoxError
  | Lc_automation_trace _ _ _ => result (list AutomationTraceStep) BoxError
  | Lc_activate_automation _ | Lc_transition_automation_identity _ _ =>
      result AutomationIdentityState BoxError
  | Lc_recoverable_automation_work _ => result AutomationRecovery BoxError
  | Lc_store_automation_draft _ _ | Lc_store_automation_version _
  | Lc_transition_automation_version _ _ | Lc_append_automation_approval _
  | Lc_commit_automation_step _ | Lc_wake => result unit BoxError
  | Lc_scheduler op => AutomationScheduler.sc_resp op
  | Lc_now => Instant
  | Lc_random => string
  end.

Abbreviation LcProg A := (Prog lc_resp (result A AutomationLifecycleError)).

(** [.await.map_err(AutomationLifecycleError::Repository)?]. *)
Definition lc_call {A E : Type} (m : Prog lc_resp (result A E)) (wrap : E -> AutomationLifecycleError) :
  LcProg A :=
  let! r := m in Ret (map_err wrap r).
Definition lc_repository {A : Type} (m : Prog lc_resp (result A BoxError)) : LcProg A :=
  lc_call m Ale_Repository.

(** [.ok_or(error)?]. *)
Definition lc_or {A B : Type} (value : option A) (error : AutomationLifecycleError) (k : A -> LcProg B) :
  LcProg B :=
  match value with Some value => k value | None => Ret (Err error) end.

(** [limit.clamp(1, 100)]. *)
Definition page_limit (limit : nat) : nat := Nat.min (Nat.max limit 1) 100.

Definition ensure_owner (actor : Actor) (document : AutomationDocument) :
  result unit AutomationLifecycleError :=
  if String.eqb (pv_author_id (do_provenance document)) (ac_id actor) then Ok tt
  else Err Ale_NotAuthorized.

Definition wake_events : LcProg unit := lc_call (perform Lc_wake) Ale_EventWakeup.

(** ** Drafts *)

Definition put_draft (actor : Actor) (document : AutomationDocument) (expected_revision : option N) :
  LcProg AutomationDraft :=
  try! _ := Ret (ensure_owner actor document) in
  let revision := match expected_revision with
                  | Some revision => u64_saturating_add revision 1
                  | None => 0%N
                  end in
  let! now := perform Lc_now in
  let draft := mk_draft (do_id document) revision document (ac_id actor) now in
  try! _ := lc_repository (perform (Lc_store_automation_draft draft expected_revision)) in
  Ret (Ok draft).

Definition create_draft (actor : Actor) (input : AutomationDraftCreateInput) : LcProg AutomationDraft :=
  let! created_at := perform Lc_now in
  let! id := perform Lc_random in
  put_draft actor
    (mk_document id 1%N (dci_name input)
       (mk_provenance (ac_id actor) (dci_agent_id input) (dci_source_request input) (dci_rationale input))
       (dci_variables input) (dci_triggers input) (dci_condition input) (dci_actions input)
       (dci_run_mode input) (dci_self_trigger input) (dci_budget input) created_at) None.

Definition draft (actor : Actor) (automation_id : AutomationId) : LcProg AutomationDraft :=
  try! found := lc_repository (perform (Lc_automation_draft automation_id)) in
  lc_or found Ale_NotFound (fun draft =>
    try! _ := Ret (ensure_owner actor (dft_document draft)) in Ret (Ok draft)).

Definition drafts (actor : Actor) (limit : nat) : LcProg (list AutomationDraft) :=
  try! found := lc_repository (perform (Lc_automation_drafts (page_limit limit))) in
  Ret (Ok (List.filter (fun draft =>
    String.eqb (pv_author_id (do_provenance (dft_document draft))) (ac_id actor)) found)).

(** ** Versions *)

Definition version (actor : Actor) (automation_id : AutomationId) (number : AutomationVersion) :
  LcProg StoredAutomationVersion :=
  try! found := lc_repository (perform (Lc_automation_version automation_id number)) in
  lc_or found Ale_NotFound (fun stored =>
    try! _ := Ret (ensure_owner actor (sv_document stored)) in Ret (Ok stored)).

Definition versions (actor : Actor) (automation_id : AutomationId) (limit : nat) :
  LcProg (list StoredAutomationVersion) :=
  try! found := lc_repository (perform (Lc_automation_versions automation_id (page_limit limit))) in
  if existsb (fun version =>
       negb (String.eqb (pv_author_id (do_provenance (sv_document version))) (ac_id actor))) found
  then Ret (Err Ale_NotAuthorized) else Ret (Ok found).

Section Lifecycle.
Context `{Uuids} `{Chrono} `{Calendar} `{CronInstants} `{Sha256} `{AutomationEncoding} `{TraceEncoding}
  `{InputEncoding}.

(** The evidence of a compilation. *)
Definition validated_version (document : AutomationDocument) (plan : AutomationExecutionPlan)
  (now : Instant) : StoredAutomationVersion :=
  mk_stored_version document plan Vs_Validated
    (mk_validation (pl_document_hash plan) (pl_plan_hash plan) (pl_registry_revision plan) now) None.

Definition validate (actor : Actor) (automation_id : AutomationId) : LcProg StoredAutomationVersion :=
  try! draft := draft actor automation_id in
  try! snapshot := lc_call (perform Lc_load) Ale_Foundation in
  match compile (dft_document draft) snapshot with
  | Err error => Ret (Err (Ale_Validation error))
  | Ok plan =>
      let! now := perform Lc_now in
      let version := validated_version (dft_document draft) plan now in
      try! _ := lc_repository (perform (Lc_store_automation_version version)) in
      try! _ := wake_events in
      Ret (Ok version)
  end.

(** The evidence of a simulation. *)
Definition simulated_version (stored : StoredAutomationVersion) (result_ : AutomationSimulationResult)
  (now : Instant) : StoredAutomationVersion :=
  let plan := sv_plan stored in
  mk_stored_version (sv_document stored) plan Vs_Simulated (sv_validation stored)
    (Some (mk_simulation (pl_document_hash plan) (pl_plan_hash plan) (pl_registry_revision plan)
             (sr_trace_hash result_) (bool_decide (sr_status result_ = Sim_Completed)) now)).

Definition with_version_state (stored : StoredAutomationVersion) (state : AutomationVersionState) :
  StoredAutomationVersion :=
  mk_stored_version (sv_document stored) (sv_plan stored) state (sv_validation stored) (sv_simulation stored).

(** Where a completed simulation leads. *)
Definition after_simulation (approval : AutomationApprovalRequirement) : AutomationVersionState :=
  match approval with
  | Apr_ActivationGrant => Vs_Ready
  | Apr_ExplicitUserApproval => Vs_AwaitingApproval
  end.

Definition simulation_fixture (automation_id : AutomationId) (number : AutomationVersion)
  (plan : AutomationExecutionPlan) (input_hash : AutomationContentHash) (input : AutomationSimulationInput) :
  AutomationSimulationFixture :=
  let occurrence_id := AutomationOccurrenceId.from_key automation_id number
                         ("simulation:" +:+ content_hash_text input_hash) in
  mk_fixture plan (AutomationRunId.from_occurrence occurrence_id) (CorrelationId.from_key occurrence_id)
    None (asi_trigger input) (asi_initial_state input) (asi_state_changes input)
    (asi_command_outcomes input).

(** The simulator never runs out of fuel on a stored plan. *)
Definition run_simulation (fixture : AutomationSimulationFixture) :
  result AutomationSimulationResult AutomationSimulationError :=
  match AutomationSimulator.simulate fixture with
  | Some result_ => result_
  | None => Err Sme_BudgetExceeded
  end.

Definition simulate (actor : Actor) (automation_id : AutomationId) (number : AutomationVersion)
  (input : AutomationSimulationInput) : LcProg AutomationLifecycleSimulation :=
  try! stored := version actor automation_id number in
  guard! bool_decide (sv_state stored = Vs_Validated) else Ale_InvalidState in
  match canonical_automation_hash (encode_input input) with
  | Err _ => Ret (Err Ale_CanonicalInput)
  | Ok input_hash =>
      match run_simulation (simulation_fixture automation_id number (sv_plan stored) input_hash input) with
      | Err error => Ret (Err (Ale_Simulation error))
      | Ok result_ =>
          let! now := perform Lc_now in
          let simulated := simulated_version stored result_ now in
          try! _ := lc_repository (perform (Lc_transition_automation_version simulated Vs_Validated)) in
          try! final :=
            if bool_decide (sr_status result_ = Sim_Completed) then
              let ready := with_version_state simulated (after_simulation (pl_approval (sv_plan stored))) in
              try! _ := lc_repository (perform (Lc_transition_automation_version ready Vs_Simulated)) in
              Ret (Ok ready)
            else Ret (Ok simulated) in
          try! _ := wake_events in
          Ret (Ok (mk_lifecycle_simulation final result_))
      end
  end.

(** ** Identities, runs and traces *)

(** The actor owns the active version, or the draft where none is active. *)
Definition ensure_identity_owner (actor : Actor) (identity : AutomationIdentityState)
  (automation_id : AutomationId) : LcProg unit :=
  match id_active_version identity with
  | Some number => try! _ := version actor automation_id number in Ret (Ok tt)
  | None => try! _ := draft actor automation_id in Ret (Ok tt)
  end.

Definition identity (actor : Actor) (automation_id : AutomationId) : LcProg AutomationIdentityState :=
  try! found := lc_repository (perform (Lc_automation_identity automation_id)) in
  lc_or found Ale_NotFound (fun identity =>
    try! _ := ensure_identity_owner actor identity automation_id in Ret (Ok identity)).

(** The results of the rows an actor owns; rows of others are left out. *)
Fixpoint owned_only {A B : Type} (load : A -> LcProg B) (rows : list A) : LcProg (list B) :=
  match rows with
  | [] => Ret (Ok [])
  | row :: rows =>
      let! loaded := load row in
      match loaded with
      | Ok found => try! rest := owned_only load rows in Ret (Ok (found :: rest))
      | Err (Ale_NotAuthorized | Ale_NotFound) => owned_only load rows
      | Err error => Ret (Err error)
      end
  end.

Definition identities (actor : Actor) (limit : nat) : LcProg (list AutomationIdentityState) :=
  try! found := lc_repository (perform (Lc_automation_identities (page_limit limit))) in
  owned_only (fun row => identity actor (id_id row)) found.

Definition run (actor : Actor) (run_id : AutomationRunId) : LcProg AutomationRun :=
  try! found := lc_repository (perform (Lc_automation_run run_id)) in
  lc_or found Ale_NotFound (fun run =>
    try! _ := version actor (ru_automation_id run) (ru_version run) in Ret (Ok run)).

Definition runs (actor : Actor) (automation_id : option AutomationId) (limit : nat) :
  LcProg (list AutomationRun) :=
  try! found := lc_repository (perform (Lc_automation_runs automation_id (page_limit limit))) in
  owned_only (fun run =>
    try! _ := version actor (ru_automation_id run) (ru_version run) in Ret (Ok run)) found.

Definition trace (actor : Actor) (run_id : AutomationRunId) (after_sequence : option N) (limit : nat) :
  LcProg (list AutomationTraceStep) :=
  try! _ := run actor run_id in
  lc_repository (perform (Lc_automation_trace run_id after_sequence (page_limit limit))).

(** ** Approval and activation *)

Definition decide (actor : Actor) (automation_id : AutomationId) (number : AutomationVersion)
  (approved : bool) (rationale : option string) : LcProg StoredAutomationVersion :=
  try! stored := version actor automation_id number in
  guard! bool_decide (sv_state stored = Vs_AwaitingApproval) else Ale_InvalidState in
  let! id := perform Lc_random in
  let! now := perform Lc_now in
  let decision := mk_approval id automation_id number (pl_document_hash (sv_plan stored))
    (pl_plan_hash (sv_plan stored)) (ac_id actor) (if approved then Ap_Approved else Ap_Rejected)
    rationale now in
  try! _ := lc_repository (perform (Lc_append_automation_approval decision)) in
  let decided := with_version_state stored (if approved then Vs_Ready else Vs_Rejected) in
  try! _ := lc_repository (perform (Lc_transition_automation_version decided Vs_AwaitingApproval)) in
  try! _ := wake_events in
  Ret (Ok decided).

Definition activate (actor : Actor) (automation_id : AutomationId) (number : AutomationVersion)
  (expected_revision : N) : LcProg AutomationIdentityState :=
  try! stored := version actor automation_id number in
  guard! bool_decide (sv_state stored = Vs_Ready) else Ale_InvalidState in
  let! now := perform Lc_now in
  try! identity := lc_repository (perform (Lc_activate_automation
    (mk_activation automation_id number expected_revision (pl_document_hash (sv_plan stored))
       (pl_plan_hash (sv_plan stored)) (pl_registry_revision (sv_plan stored)) now))) in
  try! _ := wake_events in
  Ret (Ok identity).

Definition rollback := activate.

Definition transition_operational (actor : Actor) (automation_id : AutomationId) (expected_revision : N)
  (state : AutomationOperationalState) : LcProg AutomationIdentityState :=
  try! found := lc_repository (perform (Lc_automation_identity automation_id)) in
  lc_or found Ale_NotFound (fun identity =>
    try! _ := ensure_identity_owner actor identity automation_id in
    guard! N.eqb (id_revision identity) expected_revision
           && AutomationOperationalState.allows_transition_to (id_state identity) state
      else Ale_InvalidState in
    let! now := perform Lc_now in
    try! moved := lc_repository (perform (Lc_transition_automation_identity
      (mk_identity (id_id identity) state (id_active_version identity)
         (u64_saturating_add (id_revision identity) 1) (id_created_at identity) now) expected_revision)) in
    try! _ := wake_events in
    Ret (Ok moved)).

Definition disable (actor : Actor) (automation_id : AutomationId) (expected_revision : N) :
  LcProg AutomationIdentityState :=
  transition_operational actor automation_id expected_revision Op_Disabled.

Definition retire (actor : Actor) (automation_id : AutomationId) (expected_revision : N) :
  LcProg AutomationIdentityState :=
  transition_operational actor automation_id expected_revision Op_Retired.

Definition lc_scheduler {A : Type} (m : Prog AutomationScheduler.sc_resp A) : Prog lc_resp A :=
  embed (resp' := lc_resp) Lc_scheduler (fun _ r => r) m.

Definition catch_up (actor : Actor) (automation_id : AutomationId) (scheduled_for : Instant)
  (idempotency_key : IdempotencyKey) : LcProg AutomationOccurrence :=
  try! found := versions actor automation_id 1 in
  match found with
  | [] => Ret (Err Ale_NotFound)
  | _ =>
      try! occurrence := lc_call (lc_scheduler (AutomationScheduler.request_catch_up automation_id
                           scheduled_for (ac_id actor) idempotency_key)) Ale_Scheduler in
      try! _ := wake_events in
      Ret (Ok occurrence)
  end.

(** ** Cancellation *)

(** The pages of the trace, a hundred rows each, up to a short one.  The fuel
    bounds the number of pages; [None] ran out of it. *)
Fixpoint next_trace_sequence (fuel : nat) (run_id : AutomationRunId) (after : option N) :
  Prog lc_resp (option (result N AutomationLifecycleError)) :=
  match fuel with
  | O => Ret None
  | S fuel =>
      let! page := lc_repository (perform (Lc_automation_trace run_id after 100)) in
      match page with
      | Err error => Ret (Some (Err error))
      | Ok page =>
          match last page with
          | None => Ret (Some (Ok (match after with
                                   | Some sequence => u64_saturating_add sequence 1
                                   | None => 0%N
                                   end)))
          | Some row =>
              if (length page <? 100) then Ret (Some (Ok (u64_saturating_add (tt_sequence row) 1)))
              else next_trace_sequence fuel run_id (Some (tt_sequence row))
          end
      end
  end.

(** The write that cancels a run for its owner. *)
Definition actor_cancel_write (run_id : AutomationRunId) (run : AutomationRun) (timers : list AutomationTimer)
  (sequence : N) (now occurred_at : Instant) : AutomationStepWrite :=
  mk_step_write (with_state (checkpoint run now) Run_Cancelled) (ru_revision run)
    [mk_trace_step (AutomationTraceId.from_run_sequence run_id sequence) run_id sequence
       (ru_node_id run) Tr_Outcome (details [("reason"%string, Val_String "actor_cancelled")]) occurred_at
       (ru_correlation_id run) None]
    [] (map (fun timer => with_timer_state timer Tm_Cancelled)
          (List.filter (fun timer => String.eqb (tm_run_id timer) run_id
             && match tm_state timer with Tm_Pending | Tm_Ready => true | _ => false end) timers)).

Definition cancel_run (fuel : nat) (actor : Actor) (run_id : AutomationRunId) :
  Prog lc_resp (option (result AutomationRun AutomationLifecycleError)) :=
  let! loaded := run actor run_id in
  match loaded with
  | Err error => Ret (Some (Err error))
  | Ok run =>
      if AutomationRunState.is_terminal (ru_state run) then Ret (Some (Err Ale_InvalidState))
      else
        let! recovery := lc_repository (perform (Lc_recoverable_automation_work 1000)) in
        match recovery with
        | Err error => Ret (Some (Err error))
        | Ok recovery =>
            let! sequence := next_trace_sequence fuel run_id None in
            match sequence with
            | None => Ret None
            | Some (Err error) => Ret (Some (Err error))
            | Some (Ok sequence) =>
                let! now := perform Lc_now in
                let! occurred_at := perform Lc_now in
                let write := actor_cancel_write run_id run (rcv_timers recovery) sequence now occurred_at in
                let! committed :=
                  try! _ := lc_repository (perform (Lc_commit_automation_step write)) in
                  try! _ := wake_events in
                  Ret (Ok (sw_run write)) in
                Ret (Some committed)
            end
        end
  end.
End Lifecycle.
End Operations.
End AutomationLifecycle.
