(* ===== verification/AutomationSimulatorProps.v ===== *)
(** Properties of the simulator: it always ends, its trace and intents stay within
    the plan and its budget, and where it departs from the interpreter; and the
    run-level guard of an automation ([condition] of a document and a plan), which
    the simulator evaluates and the scheduler and the interpreter do not. *)

From Stdlib Require Import Sorting.Sorted.
From S2P Require Import Prelude Text BTree Json Capability Lifecycle Device Command CommandStore Effects CommandService CommandFixture Automation Identity AutomationStore AutomationCompiler AutomationEvaluator AutomationPlan AutomationFixture AutomationProps AutomationRuntime AutomationMoves AutomationPotential AutomationRefine AutomationSimulator AutomationScheduler.

Import StepInterpreter.

(** ** A logic of computations that do not run out of fuel *)

Definition post {A : Type} (m : Sim A) (s : StepInterpreter) (Q : A -> StepInterpreter -> Prop) : Prop :=
  match m s with
  | None => False
  | Some (Err _) => True
  | Some (Ok (a, s')) => Q a s'
  end.

Lemma post_bind {A B} (m : Sim A) (f : A -> Sim B) s Q :
  post m s (fun a s' => post (f a) s' Q) -> post (sim_bind m f) s Q.
Proof. unfold post, sim_bind. destruct (m s) as [[[a s']|e]|]; auto. Qed.

Lemma post_mono {A} (m : Sim A) s (Q R : A -> StepInterpreter -> Prop) :
  post m s Q -> (forall a s', Q a s' -> R a s') -> post m s R.
Proof. unfold post. destruct (m s) as [[[a s']|e]|]; auto. Qed.

Lemma post_cases {A} (m : Sim A) s Q :
  post m s Q -> (exists e, m s = Some (Err e)) \/ exists a s', m s = Some (Ok (a, s')) /\ Q a s'.
Proof. unfold post. destruct (m s) as [[[a s']|e]|]; [right|left|done]; eauto. Qed.

Lemma post_get {B} (f : StepInterpreter -> Sim B) s Q : post (f s) s Q -> post (sim_bind sim_get f) s Q.
Proof. done. Qed.

Lemma post_put_bind {B} s' (f : unit -> Sim B) s Q :
  post (f tt) s' Q -> post (sim_bind (sim_put s') f) s Q.
Proof. done. Qed.

Section Keeps.
Context (I : StepInterpreter -> Prop).

(** The computation preserves the invariant and does not run out of fuel. *)
Definition keeps {A : Type} (m : Sim A) : Prop := forall s, I s -> post m s (fun _ s' => I s').

Lemma keeps_bind {A B} (m : Sim A) (f : A -> Sim B) :
  keeps m -> (forall a, keeps (f a)) -> keeps (sim_bind m f).
Proof. intros Hm Hf s Hs. apply post_bind. eapply post_mono; [by apply Hm|]. intros a s' Hs'. by apply Hf. Qed.

Lemma keeps_ret {A} (a : A) : keeps (sim_ret a).
Proof. by intros s Hs. Qed.

Lemma keeps_lift {A} (value : result A AutomationSimulationError) : keeps (sim_lift value).
Proof. by destruct value; intros s Hs. Qed.

(** A value that is there. *)
Lemma keeps_found {A B} (a : A) error (f : A -> Sim B) :
  keeps (f a) -> keeps (sim_bind (sim_lift (ok_or (Some a) error)) f).
Proof. done. Qed.

Lemma keeps_get {B} (f : StepInterpreter -> Sim B) :
  (forall s, I s -> post (f s) s (fun _ s' => I s')) -> keeps (sim_bind sim_get f).
Proof. intros Hf s Hs. apply post_bind. by apply Hf. Qed.

Lemma post_put s s' : I s' -> post (sim_put s') s (fun _ s' => I s').
Proof. done. Qed.
End Keeps.

(** ** Time and changes only move forward *)

Section Ports.
Context `{Calendar} `{Chrono}.

(** The ports at or after an instant, with at most so many changes and exactly
    these outcomes left. *)
Definition later (at_ : Instant) (left_ : nat) (outcomes : list SimulationCommandOutcome)
  (ports : VirtualSimulationPorts) : Prop :=
  (at_ <= vp_now ports)%Z /\ length (vp_changes ports) <= left_ /\ vp_outcomes ports = outcomes.

Lemma apply_changes_length at_ changes state :
  length (VirtualSimulationPorts.apply_changes at_ changes state).1 <= length changes.
Proof.
  revert state. induction changes as [|change changes IH]; intros state; simpl; [done|].
  destruct (_ <=? _)%Z; simpl; [|done]. etrans; [apply IH|lia].
Qed.

Lemma advance_later at_ left_ outcomes ports to_ :
  later at_ left_ outcomes ports ->
  later at_ left_ outcomes (VirtualSimulationPorts.advance_to ports to_).
Proof.
  intros (Hn & Hl & Ho). unfold VirtualSimulationPorts.advance_to.
  pose proof (apply_changes_length to_ (vp_changes ports) (vp_state ports)) as Hle.
  destruct (VirtualSimulationPorts.apply_changes _ _ _) as [changes state].
  split_and!; simpl in *; [lia|lia|done].
Qed.

(** The next change is applied when time advances to it. *)
Lemma advance_next ports deadline at_ :
  VirtualSimulationPorts.next_change_through ports deadline = Some at_ ->
  length (vp_changes (VirtualSimulationPorts.advance_to ports at_)) < length (vp_changes ports).
Proof.
  unfold VirtualSimulationPorts.next_change_through, VirtualSimulationPorts.advance_to.
  destruct (vp_changes ports) as [|change changes]; [discriminate|]. destruct (_ <=? deadline)%Z; [|discriminate].
  intros [= <-]. simpl. rewrite Z.leb_refl.
  pose proof (apply_changes_length (scg_at change) changes
    ((scg_key change, scg_value change) :: vp_state ports)) as Hle.
  destruct (VirtualSimulationPorts.apply_changes _ _ _) as [rest state]. simpl in *. lia.
Qed.

Lemma hold_later evaluate deadline at_ left_ outcomes fuel ports :
  (forall ports, later at_ left_ outcomes ports -> later at_ left_ outcomes (evaluate ports).2) ->
  later at_ left_ outcomes ports ->
  later at_ left_ outcomes (SimulationEvaluationContext.hold evaluate deadline fuel ports).2.
Proof.
  intros He. revert ports. induction fuel as [|fuel IH]; intros ports Hp; simpl.
  - destruct (VirtualSimulationPorts.next_change_through _ _); [done|]. by apply He, advance_later.
  - destruct (VirtualSimulationPorts.next_change_through _ _) as [change|]; [|by apply He, advance_later].
    specialize (He _ (advance_later _ _ _ _ change Hp)). destruct (evaluate _) as [[[]|e] ports']; simpl in *; auto.
Qed.

Lemma evaluate_later condition variables at_ left_ outcomes ports :
  later at_ left_ outcomes ports -> later at_ left_ outcomes (evaluate_automation_condition condition variables ports).2.
Proof.
  apply evaluate_keeps. intros evaluate inner duration_ms c He Hc. simpl.
  unfold SimulationEvaluationContext.state_duration. specialize (He _ Hc) as Hc1.
  destruct (evaluate c) as [[[]|e] c1]; simpl in *; try done.
  repeat case_match; simpl; try done. by apply hold_later.
Qed.

(** The changes left are enough fuel: more of it changes nothing. *)
Lemma hold_fuel evaluate deadline fuel more ports :
  (forall ports, length (vp_changes (evaluate ports).2) <= length (vp_changes ports)) ->
  length (vp_changes ports) <= fuel ->
  SimulationEvaluationContext.hold evaluate deadline (fuel + more) ports
  = SimulationEvaluationContext.hold evaluate deadline fuel ports.
Proof.
  intros He. revert ports. induction fuel as [|fuel IH]; intros ports Hp; simpl.
  - destruct (vp_changes ports) eqn:Hc; [|simpl in Hp; lia].
    destruct more; simpl; [done|]. unfold VirtualSimulationPorts.next_change_through. by rewrite Hc.
  - destruct (VirtualSimulationPorts.next_change_through _ _) as [change|] eqn:Hn; [|done].
    pose proof (advance_next _ _ _ Hn) as Hlt.
    specialize (He (VirtualSimulationPorts.advance_to ports change)).
    destruct (evaluate _) as [[[]|e] ports']; try done. apply IH. simpl in He. lia.
Qed.
End Ports.

(** ** The invariant of a simulation *)

Lemma StronglySorted_snoc l (x : Z) :
  StronglySorted Z.le l -> Forall (fun a => a <= x)%Z l -> StronglySorted Z.le (l ++ [x]).
Proof.
  induction 1 as [|a l Hs IH Ha]; intros Hx; simpl; [by constructor; constructor|].
  apply Forall_cons in Hx as [Hax Hx]. constructor; [by apply IH|]. apply Forall_app. auto.
Qed.

Section Sound.
Context `{Calendar} `{Uuids} `{Chrono}.
Variable fixture : AutomationSimulationFixture.

Abbreviation plan := (sf_plan fixture).
Abbreviation budget := (bu_maximum_trace_steps (pl_budget plan)).
Abbreviation accepted_at := (stc_accepted_at (sf_trigger fixture)).

(** A row of the trace at its position. *)
Definition row_ok (i : nat) (row : AutomationTraceStep) : Prop :=
  tt_sequence row = N.of_nat i /\ tt_run_id row = sf_run_id fixture
  /\ tt_id row = AutomationTraceId.from_run_sequence (sf_run_id fixture) (N.of_nat i)
  /\ tt_correlation_id row = sf_correlation_id fixture
  /\ tt_causation_event_id row = sf_causation_event_id fixture.

(** An outcome after which the policy allows another attempt. *)
Definition retryable (retry : AutomationRetryPolicy) (outcome : SimulationCommandOutcome) : bool :=
  negb (bool_decide (sco_state outcome = Cs_Confirmed))
  && match sco_error outcome with
     | Some error => bool_decide (error ∈ rp_retryable_command_errors retry)
     | None => false
     end.

Definition backoff (retry : AutomationRetryPolicy) : TimeDelta := delta_millis (Z.of_N (rp_backoff_ms retry)).

(** The attempts a command node has made so far: numbered from zero, each but the
    first behind the backoff of one that may be retried. *)
Record attempts_ok (node_id : N) (targets : list ResolvedAutomationTarget) (payload : CommandPayload)
  (retry : AutomationRetryPolicy) (attempts : list SimulatedCommandIntent) : Prop := {
  ao_intent : forall i intent, attempts !! i = Some intent ->
    sci_node_id intent = node_id /\ sci_targets intent = targets /\ sci_payload intent = payload
    /\ sci_attempt intent = N.of_nat i /\ (N.of_nat i <= rp_maximum_retries retry)%N
    /\ sci_safety_profiles intent = pl_safety_profiles plan /\ sci_approval intent = pl_approval plan;
  ao_retry : forall i x y, attempts !! i = Some x -> attempts !! S i = Some y ->
    retryable retry (sci_outcome x) = true /\ sci_at y = (sci_at x + backoff retry)%Z
}.

(** The complete execution of a command node of the plan: it ends with an outcome
    that may not be retried, or with the last retry. *)
Definition execution_ok (attempts : list SimulatedCommandIntent) : Prop :=
  exists node_id node targets payload segment retry on_failure next,
    find_node plan node_id = Some node
    /\ nd_kind node = Node_Command targets payload segment retry on_failure next
    /\ attempts_ok node_id targets payload retry attempts
    /\ exists final, last attempts = Some final
       /\ (retryable retry (sci_outcome final) = false \/ sci_attempt final = rp_maximum_retries retry).

(** The intents: one complete execution after the other, and the attempts of the
    one that has not ended. *)
Definition executions (open intents : list SimulatedCommandIntent) : Prop :=
  exists runs, intents = concat runs ++ open /\ Forall execution_ok runs.

(** The declared outcomes are used up in order; behind them every command is
    confirmed. *)
Definition declared (intents : list SimulatedCommandIntent) : Prop :=
  forall i intent, intents !! i = Some intent ->
    sci_outcome intent = default (mk_outcome Cs_Confirmed None) (sf_command_outcomes fixture !! i).

Definition is_command_row (row : AutomationTraceStep) : bool := bool_decide (tt_kind row = Tr_Command).

Definition command_details (intent : SimulatedCommandIntent) : list (string * AutomationValue) :=
  [("attempt"%string, Val_Integer (Z.of_N (sci_attempt intent)));
   ("state"%string, Val_String (command_state_name (sco_state (sci_outcome intent))))].

(** The trace row of an intent. *)
Definition row_of (row : AutomationTraceStep) (intent : SimulatedCommandIntent) : Prop :=
  tt_node_id row = Some (sci_node_id intent) /\ tt_occurred_at row = sci_at intent
  /\ tt_details row = details (command_details intent).

Record trace_ok (trace : list AutomationTraceStep) (now : Instant) : Prop := {
  to_rows : forall i row, trace !! i = Some row -> row_ok i row;
  to_budget : (N.of_nat (length trace) <= budget)%N;
  to_sorted : StronglySorted Z.le (map tt_occurred_at trace);
  to_after : Forall (fun at_ => accepted_at <= at_)%Z (map tt_occurred_at trace);
  to_before : Forall (fun at_ => at_ <= now)%Z (map tt_occurred_at trace);
  to_now : (accepted_at <= now)%Z
}.

(** The state, with so many steps of the budget left, the attempts of the command
    being executed, and the intent whose trace row is still missing. *)
Record sim_ok (fuel : nat) (open : list SimulatedCommandIntent) (pending : option SimulatedCommandIntent)
  (s : StepInterpreter) : Prop := {
  sk_trace : trace_ok (si_trace s) (vp_now (si_ports s));
  sk_intents : executions open (si_intents s);
  sk_declared : declared (si_intents s);
  sk_outcomes : vp_outcomes (si_ports s) = drop (length (si_intents s)) (sf_command_outcomes fixture);
  sk_rows : exists traced, si_intents s = traced ++ option_list pending
    /\ Forall2 row_of (List.filter is_command_row (si_trace s)) traced;
  sk_steps : (si_steps s <= budget)%N;
  sk_fuel : N.to_nat (budget - si_steps s) < fuel
}.

Lemma trace_ok_later trace now now' : trace_ok trace now -> (now <= now')%Z -> trace_ok trace now'.
Proof.
  intros [] Hle. split; try done; [|lia]. eapply Forall_impl; [done|]. intros at_ Hat. simpl in Hat. lia.
Qed.

(** What only changes the ports, and those only forward. *)
Lemma sim_ok_ports fuel open pending s ports :
  sim_ok fuel open pending s ->
  (exists left_, later (vp_now (si_ports s)) left_ (vp_outcomes (si_ports s)) ports) ->
  sim_ok fuel open pending (with_ports s ports).
Proof.
  intros [] (left_ & Hle & _ & Ho). split; try done; [by eapply trace_ok_later|]. simpl. congruence.
Qed.

Lemma ports_later ports : later (vp_now ports) (length (vp_changes ports)) (vp_outcomes ports) ports.
Proof. split_and!; [lia|lia|done]. Qed.

Lemma keeps_advance fuel open pending at_ : keeps (sim_ok fuel open pending) (advance_to at_).
Proof.
  unfold advance_to. apply keeps_get. intros s Hs. apply post_put, sim_ok_ports; [done|].
  eexists. apply advance_later, ports_later.
Qed.

Lemma keeps_now fuel open pending : keeps (sim_ok fuel open pending) now.
Proof. apply keeps_get. by intros s Hs. Qed.

(** The row a pending intent waits for, or a row of another kind. *)
Definition fits (pending : option SimulatedCommandIntent) (kind : AutomationTraceKind)
  (node_id : option AutomationPlanNodeId) (values : list (string * AutomationValue)) (at_ : Instant) : Prop :=
  match pending with
  | None => kind <> Tr_Command
  | Some intent => kind = Tr_Command /\ node_id = Some (sci_node_id intent)
      /\ values = command_details intent /\ sci_at intent = at_
  end.

Lemma post_trace fuel open pending kind node_id values s :
  sim_ok fuel open pending s -> fits pending kind node_id values (vp_now (si_ports s)) ->
  post (trace fixture kind node_id values) s (fun _ s' => sim_ok fuel open None s' /\ si_ports s' = si_ports s
    /\ si_intents s' = si_intents s).
Proof.
  intros [Ht Hi Hd Ho (traced & Hint & Hr) Hst Hf] Hfits. unfold trace. apply post_get.
  destruct (N.leb_spec budget (N.of_nat (length (si_trace s)))) as [|Hlt]; [exact I|].
  simpl. split; [|done]. destruct Ht as [Hrows Hb Hs Ha Hbf Hn]. split; simpl; try done.
  - split; try done.
    + intros i row. rewrite lookup_app_Some, list_lookup_singleton_Some.
      intros [Hrow|[Hle [Hi0 <-]]]; [by apply Hrows|].
      assert (i = length (si_trace s)) as -> by lia. done.
    + rewrite length_app. simpl. lia.
    + rewrite map_app. by apply StronglySorted_snoc.
    + rewrite map_app. apply Forall_app. split; [done|by constructor].
    + rewrite map_app. apply Forall_app. split; [done|]. by constructor.
  - exists (traced ++ option_list pending). rewrite app_nil_r. split; [done|].
    rewrite List.filter_app. apply Forall2_app; [done|]. simpl. unfold is_command_row. simpl.
    destruct pending as [intent|]; simpl in *.
    + destruct Hfits as (-> & -> & -> & Hat). rewrite bool_decide_eq_true_2 by done. by repeat constructor.
    + rewrite bool_decide_eq_false_2 by done. constructor.
Qed.

Lemma keeps_trace fuel open kind node_id values :
  kind <> Tr_Command -> keeps (sim_ok fuel open None) (trace fixture kind node_id values).
Proof. intros Hk s Hs. eapply post_mono; [by eapply post_trace|by intros ? s' (Hs' & _)]. Qed.

(** The condition is read at the ports and moves them forward. *)
Lemma post_condition fuel open pending condition s :
  sim_ok fuel open pending s ->
  post (evaluate_condition condition) s (fun _ s' => sim_ok fuel open pending s'
    /\ si_intents s' = si_intents s
    /\ length (vp_changes (si_ports s')) <= length (vp_changes (si_ports s))).
Proof.
  intros Hs. unfold evaluate_condition. apply post_get.
  pose proof (evaluate_later condition (si_variables s) _ _ _ _ (ports_later (si_ports s))) as Hl.
  destruct (evaluate_automation_condition _ _ _) as [[value|e] ports]; simpl in *; [|exact I].
  split; [apply sim_ok_ports; eauto|]. split; [done|]. by destruct Hl as (_ & Hlen & _).
Qed.

Lemma keeps_condition fuel open pending condition :
  keeps (sim_ok fuel open pending) (evaluate_condition condition).
Proof. intros s Hs. eapply post_mono; [by apply post_condition|by intros ? s' (Hs' & _)]. Qed.

Lemma keeps_wait fuel open pending changes condition deadline satisfied s :
  sim_ok fuel open pending s -> length (vp_changes (si_ports s)) <= changes ->
  post (wait_for changes condition deadline satisfied) s (fun _ s' => sim_ok fuel open pending s').
Proof.
  revert s satisfied. induction changes as [|changes IH]; intros s satisfied Hs Hc; simpl;
    (destruct satisfied; [done|]); apply post_get.
  - unfold VirtualSimulationPorts.next_change_through. destruct (vp_changes _); [done|simpl in Hc; lia].
  - destruct (VirtualSimulationPorts.next_change_through _ _) as [change|] eqn:Hn; [|done].
    apply advance_next in Hn. apply post_bind. unfold advance_to. apply post_get.
    apply post_bind. eapply post_mono.
    { apply post_condition, sim_ok_ports; [exact Hs|]. eexists. apply advance_later, ports_later. }
    intros value s' (Hs' & _ & Hle). apply IH; [done|]. simpl in Hle. lia.
Qed.

(** ** The attempts of a command *)

(** Another attempt may follow now. *)
Definition may_attempt (retry : AutomationRetryPolicy) (open : list SimulatedCommandIntent) (now : Instant) :
  Prop :=
  forall final, last open = Some final ->
    retryable retry (sci_outcome final) = true /\ now = (sci_at final + backoff retry)%Z.

Lemma attempts_snoc node_id targets payload retry open intent :
  attempts_ok node_id targets payload retry open -> may_attempt retry open (sci_at intent) ->
  sci_node_id intent = node_id /\ sci_targets intent = targets /\ sci_payload intent = payload
    /\ sci_attempt intent = N.of_nat (length open)
    /\ (N.of_nat (length open) <= rp_maximum_retries retry)%N
    /\ sci_safety_profiles intent = pl_safety_profiles plan /\ sci_approval intent = pl_approval plan ->
  attempts_ok node_id targets payload retry (open ++ [intent]).
Proof.
  intros [Hi Hr] Hmay Hnew. split.
  - intros i x [Hx|[Hle Hx]]%lookup_app_Some; [by apply Hi|].
    apply list_lookup_singleton_Some in Hx as [Hz <-].
    assert (i = length open) as -> by lia. exact Hnew.
  - intros i x y Hx Hy. apply lookup_app_Some in Hy as [Hy|[Hle Hy]].
    + rewrite lookup_app_l in Hx by (apply lookup_lt_Some in Hy; lia). by eapply Hr.
    + apply list_lookup_singleton_Some in Hy as [Hz <-].
      rewrite lookup_app_l in Hx by lia. apply Hmay. rewrite last_lookup. rewrite <- Hx. f_equal. lia.
Qed.

(** The outcome of an attempt and its intent, still without a row. *)
Lemma sim_ok_attempt fuel open s node_id targets payload retry outcome ports :
  sim_ok fuel open None s -> attempts_ok node_id targets payload retry open ->
  VirtualSimulationPorts.command_outcome (si_ports s) = (outcome, ports) ->
  forall intent, sci_outcome intent = outcome ->
  sim_ok fuel (open ++ [intent]) (Some intent)
    (mk_interpreter ports (si_trace s) (si_intents s ++ [intent]) (si_variables s) (si_steps s))
  /\ vp_now ports = vp_now (si_ports s).
Proof.
  intros [Ht (runs & Hi & Hruns) Hd Ho (traced & Hint & Hr) Hst Hf] _ Hout intent Hintent.
  unfold VirtualSimulationPorts.command_outcome in Hout. rewrite Ho in Hout.
  set (n := length (si_intents s)) in *.
  assert (vp_now ports = vp_now (si_ports s) /\ vp_outcomes ports = drop (S n) (sf_command_outcomes fixture)
    /\ outcome = default (mk_outcome Cs_Confirmed None) (sf_command_outcomes fixture !! n))
    as (Hnow & Hleft & Houtcome).
  { assert (drop (S n) (sf_command_outcomes fixture) = tail (drop n (sf_command_outcomes fixture))
      /\ sf_command_outcomes fixture !! n = head (drop n (sf_command_outcomes fixture))) as [-> ->].
    { clear. generalize (sf_command_outcomes fixture) as l. induction n as [|n IH]; intros [|x l]; try done.
      simpl. apply IH. }
    rewrite <- Ho in *. destruct (vp_outcomes (si_ports s)) as [|x l] eqn:E; simplify_eq; by split_and!. }
  split; [|done]. split; simpl; try done.
  - by rewrite Hnow.
  - exists runs. rewrite Hi. by rewrite app_assoc.
  - intros i x [Hx|[Hle Hx]]%lookup_app_Some; [by apply Hd|].
    apply list_lookup_singleton_Some in Hx as [Hz <-]. fold n in Hle, Hz. assert (i = n) as -> by lia. congruence.
  - rewrite length_app. simpl. fold n. by rewrite Nat.add_1_r.
  - exists (si_intents s). split; [done|]. rewrite app_nil_r in Hint. by subst traced.
Qed.

Lemma executions_close open intents :
  executions open intents -> execution_ok open -> executions [] intents.
Proof.
  intros (runs & -> & Hruns) Hopen. exists (runs ++ [open]). rewrite app_nil_r, concat_app. simpl.
  rewrite app_nil_r. split; [done|]. apply Forall_app. split; [done|by constructor].
Qed.

Lemma sim_ok_close fuel open s :
  sim_ok fuel open None s -> execution_ok open -> sim_ok fuel [] None s.
Proof. intros [] Hopen. split; try done. by eapply executions_close. Qed.

(** A wait for the next attempt ends exactly behind the backoff. *)
Lemma backoff_exact retry at_ ready_at :
  add_millis at_ (rp_backoff_ms retry) = Ok ready_at ->
  ready_at = (at_ + backoff retry)%Z /\ (at_ <= ready_at)%Z.
Proof.
  unfold add_millis, backoff. intros Hadd. apply result_bind_ok in Hadd as (ms & Hms & Hadd).
  unfold i64_try_from_u64 in Hms. case_match; simplify_eq/=.
  destruct (checked_add_signed at_ _) as [r|] eqn:Hc; simplify_eq/=.
  apply checked_add_signed_exact in Hc. unfold delta_millis, nanos_per_milli in *. lia.
Qed.

Lemma keeps_attempt fuel left_ node_id targets payload retry attempt node segment on_failure next open s :
  find_node plan node_id = Some node ->
  nd_kind node = Node_Command targets payload segment retry on_failure next ->
  (rp_maximum_retries retry <= u16_max)%N -> (N.of_nat left_ + attempt = rp_maximum_retries retry)%N ->
  attempt = N.of_nat (length open) -> attempts_ok node_id targets payload retry open ->
  may_attempt retry open (vp_now (si_ports s)) -> sim_ok fuel open None s ->
  post (attempt_command fixture left_ node_id targets payload retry attempt) s
    (fun _ s' => sim_ok fuel [] None s').
Proof.
  intros Hn Hk Hmax. revert attempt open s.
  induction left_ as [|left_ IH]; intros attempt open s Heq Hlen Hatt Hmay Hs.
  all: apply post_bind; unfold command_outcome; apply post_get.
  all: destruct (VirtualSimulationPorts.command_outcome (si_ports s)) as [outcome ports] eqn:Ho.
  all: apply post_put_bind, post_get, post_put_bind, post_bind; simpl.
  all: match goal with |- context [_ ++ [?x]] => set (intent := x) end.
  all: destruct (sim_ok_attempt fuel open s node_id targets payload retry outcome ports Hs Hatt Ho intent eq_refl)
    as [Hs1 Hnow].
  all: assert (Hatt1 : attempts_ok node_id targets payload retry (open ++ [intent]))
    by (apply attempts_snoc; [done|simpl; by rewrite Hnow|simpl; split_and!; try done; lia]).
  all: assert (Hfinal : last (open ++ [intent]) = Some intent) by apply last_snoc.
  all: eapply post_mono; [eapply post_trace; [exact Hs1|simpl; by split_and!]|].
  all: intros _ s1 (Hs2 & Hports & _); simpl in Hports.
  all: assert (Hstop : retryable retry outcome = false \/ attempt = rp_maximum_retries retry ->
      sim_ok fuel [] None s1) by (intros Hend; eapply sim_ok_close; [exact Hs2|];
      exists node_id, node, targets, payload, segment, retry, on_failure, next;
      split_and!; try done; by exists intent).
  all: unfold retryable in Hstop; destruct (bool_decide (sco_state outcome = Cs_Confirmed)) eqn:Hconf;
    [apply Hstop; by left|]; simpl in Hstop.
  all: destruct (N.ltb_spec attempt (rp_maximum_retries retry)) as [Hlt|Hge]; [|apply Hstop; right; lia]; simpl.
  all: destruct (match sco_error outcome with Some _ => _ | None => _ end) eqn:Hretry; [|apply Hstop; by left].
  - lia.
  - unfold now. apply post_bind, post_get. apply post_bind.
    destruct (add_millis (vp_now (si_ports s1)) (rp_backoff_ms retry)) as [ready_at|error] eqn:Hready;
      [|exact I].
    apply backoff_exact in Hready as [Hready Hle]. unfold post, sim_lift, sim_ret.
    match goal with |- match ?m s1 with _ => _ end => change (post m s1 (fun _ s' => sim_ok fuel [] None s')) end.
    apply post_bind. unfold advance_to. apply post_get, post_put.
    eapply IH with (open := open ++ [intent]).
    + unfold u16_saturating_add. lia.
    + rewrite length_app. unfold u16_saturating_add. simpl. lia.
    + done.
    + intros final Hf. rewrite Hfinal in Hf. injection Hf as <-. simpl. unfold retryable.
      rewrite Hconf, Hretry. split; [done|]. unfold VirtualSimulationPorts.advance_to.
      destruct (VirtualSimulationPorts.apply_changes _ _ _). simpl. rewrite Z.max_r by lia.
      by rewrite Hready, Hports.
    + apply sim_ok_ports; [exact Hs2|]. eexists. apply advance_later, ports_later.
Qed.

Lemma keeps_each_branch fuel (execute : N -> Sim Flow) branches :
  (forall n, keeps (sim_ok fuel [] None) (execute n)) ->
  keeps (sim_ok fuel [] None) (each_branch execute branches).
Proof.
  intros He. induction branches as [|branch branches IH]; simpl; [apply keeps_ret|].
  apply keeps_bind; [done|]. intros []; [done|apply keeps_ret|done].
Qed.

Lemma keeps_race_branch fuel (execute : N -> Sim Flow) branches :
  (forall n, keeps (sim_ok fuel [] None) (execute n)) ->
  keeps (sim_ok fuel [] None) (race_branch execute branches).
Proof.
  intros He. induction branches as [|branch branches IH]; simpl; [apply keeps_ret|].
  apply keeps_bind; [done|]. intros []; [apply keeps_ret..|done].
Qed.

Lemma keeps_failure fuel (execute : N -> Sim Flow) policy next :
  (forall n, keeps (sim_ok fuel [] None) (execute n)) ->
  keeps (sim_ok fuel [] None) (apply_failure execute policy next).
Proof. intros He. unfold apply_failure. repeat case_match; auto using keeps_ret. Qed.

(** A step of the budget is a unit of fuel. *)
Lemma post_budget fuel s :
  (budget < u32_max)%N -> sim_ok (S fuel) [] None s ->
  post (consume_budget fixture) s (fun _ s' => sim_ok fuel [] None s').
Proof.
  intros Hu [Ht Hi Hd Ho Hr Hst Hf]. unfold consume_budget. apply post_get, post_put_bind.
  unfold u32_saturating_add. rewrite N.min_l by lia.
  destruct (_ || _ || _) eqn:Hb; [exact I|]. apply orb_false_iff in Hb as [[Hb _]%orb_false_iff _].
  apply N.ltb_ge in Hb. split; simpl; try done. lia.
Qed.

Lemma sim_ok_more fuel s : sim_ok fuel [] None s -> sim_ok (S fuel) [] None s.
Proof. intros []. split; try done. lia. Qed.

Lemma keeps_variable fuel open pending name value : keeps (sim_ok fuel open pending) (set_variable name value).
Proof. apply keeps_get. intros s []. by split. Qed.

Lemma keeps_expression fuel open pending expression : keeps (sim_ok fuel open pending) (evaluate_expression expression).
Proof. apply keeps_get. intros s Hs. by apply keeps_lift. Qed.

Hypothesis retries : retries_u16 plan.
Hypothesis budget_u32 : (budget < u32_max)%N.

Lemma keeps_command fuel node_id node targets payload segment retry on_failure next :
  find_node plan node_id = Some node ->
  nd_kind node = Node_Command targets payload segment retry on_failure next ->
  keeps (sim_ok fuel [] None)
    (attempt_command fixture (N.to_nat (rp_maximum_retries retry)) node_id targets payload retry 0).
Proof.
  intros Hn Hk s Hs. eapply keeps_attempt with (open := []); [done|done| |lia|done|by split|by intros ? ?|done].
  apply find_some in Hn as [Hin _]. apply list_elem_of_In, list_elem_of_lookup in Hin as [i Hi].
  by eapply retries.
Qed.

Ltac keeps_step :=
  first [apply keeps_now | apply keeps_lift | apply keeps_advance | apply keeps_ret
    | apply keeps_condition | apply keeps_expression | apply keeps_variable | by apply keeps_trace
    | by eapply keeps_command
    | lazymatch goal with
      | |- keeps _ (sim_bind sim_get _) => fail
      | |- keeps _ (sim_bind _ _) => apply keeps_bind; [|intro]
      end].

Lemma execute_from_ok fuel current stop_before :
  keeps (sim_ok fuel [] None) (execute_from fixture fuel current stop_before).
Proof.
  revert current stop_before. induction fuel as [|fuel IH]; intros current stop_before s Hs.
  { destruct Hs as [_ _ _ _ Hf]. lia. }
  simpl. destruct current as [node_id|]; [|done]. destruct (bool_decide _); [done|].
  apply post_bind. eapply post_mono; [by apply post_budget|]. intros ? s1 Hs1.
  simpl in Hs1.
  eapply post_mono with (Q := fun _ s' => sim_ok fuel [] None s'); [|by intros; apply sim_ok_more].
  revert s1 Hs1. clear s Hs.
  match goal with |- forall s, _ -> post ?m s _ => change (keeps (sim_ok fuel [] None) m) end.
  destruct (find_node plan node_id) as [node|] eqn:Hn; [|by intros s Hs].
  apply keeps_found. destruct (nd_kind node) eqn:Hk; repeat keeps_step; auto.
  - repeat case_match; auto. by apply keeps_failure.
  - apply keeps_get. intros s Hs. apply post_bind. eapply post_mono; [by apply keeps_wait|].
    intros satisfied s' Hs'. revert s' Hs'.
    match goal with |- forall s, _ -> post ?m s _ => change (keeps (sim_ok fuel [] None) m) end.
    destruct satisfied; repeat keeps_step; auto. by apply keeps_failure.
  - by apply keeps_each_branch.
  - case_match; auto using keeps_ret.
  - by apply keeps_race_branch.
  - repeat case_match; auto using keeps_ret.
Qed.

Lemma post_accept fuel s :
  sim_ok fuel [] None s ->
  post (accept_trigger fixture) s (fun _ s' => sim_ok fuel [] None s' /\ si_intents s' = si_intents s).
Proof.
  intros Hs.
  assert (Hrow : forall kind values, kind <> Tr_Command -> forall s, sim_ok fuel [] None s ->
    post (trace fixture kind None values) s (fun _ s' => sim_ok fuel [] None s' /\ si_intents s' = si_intents s)).
  { intros kind values Hk s1 Hs1. eapply post_mono; [by eapply post_trace|by intros ? s' (? & _ & ?)]. }
  assert (Hsup : forall reason status, post (suppress fixture reason status) s
    (fun _ s' => sim_ok fuel [] None s' /\ si_intents s' = si_intents s)).
  { intros reason status. apply post_bind. eapply post_mono; [by apply Hrow|]. by intros ? s' ?. }
  unfold accept_trigger. destruct (negb _); [apply Hsup|]. destruct (_ && _); [apply Hsup|].
  destruct (_ || _); [apply Hsup|]. apply post_bind. eapply post_mono; [by apply Hrow|].
  intros ? s1 [Hs1 Hi1]. destruct (pl_condition plan) as [condition|]; [|by split].
  apply post_bind. eapply post_mono; [by apply post_condition|]. intros value s2 (Hs2 & Hi2 & _).
  apply post_bind. eapply post_mono; [by apply Hrow|]. intros ? s3 [Hs3 Hi3]. split; [done|congruence].
Qed.

Lemma new_ok : sim_ok (AutomationSimulator.simulation_fuel plan) [] None (new fixture).
Proof.
  split; simpl; try done; [| |by exists []|lia|unfold AutomationSimulator.simulation_fuel; lia].
  - split; simpl; try done; [lia|constructor].
  - by exists [].
Qed.

(** What holds of the result of a simulation. *)
Record simulation_ok (result_ : AutomationSimulationResult) : Prop := {
  ro_trace : trace_ok (sr_trace result_) (sr_finished_at result_);
  ro_intents : executions [] (sr_command_intents result_);
  ro_declared : declared (sr_command_intents result_);
  ro_rows : Forall2 row_of (List.filter is_command_row (sr_trace result_)) (sr_command_intents result_);
  ro_quiet : sr_status result_ = Sim_Suppressed \/ sr_status result_ = Sim_MissedSkipped ->
             sr_command_intents result_ = []
}.
End Sound.

Section Theorems.
Context `{Calendar} `{Uuids} `{Chrono} `{Sha256} `{TraceEncoding}.

Lemma simulate_ok fixture :
  retries_u16 (sf_plan fixture) ->
  (bu_maximum_trace_steps (pl_budget (sf_plan fixture)) < u32_max)%N ->
  exists r, AutomationSimulator.simulate fixture = Some r
    /\ forall result_, r = Ok result_ -> simulation_ok fixture result_.
Proof.
  intros Hr Hu. unfold AutomationSimulator.simulate.
  set (quiet := fun (status : AutomationSimulationStatus) s =>
    sim_ok fixture (AutomationSimulator.simulation_fuel (sf_plan fixture)) [] None s
    /\ (status = Sim_Suppressed \/ status = Sim_MissedSkipped -> si_intents s = [])).
  match goal with |- exists r, match ?m _ with _ => _ end = _ /\ _ =>
    assert (Hpost : post m (new fixture) quiet) end.
  - apply post_bind. eapply post_mono; [by apply post_accept, new_ok|]. intros accepted s1 [Hs1 Hi1].
    apply post_bind. apply post_mono with (Q := quiet).
    { destruct accepted as [status|]; [by split|]. apply post_bind.
      eapply post_mono; [by apply execute_from_ok|]. intros [] s2 Hs2; (split; [done|by intros []]). }
    intros status s2 [Hs2 Hq]. apply post_bind. destruct (bool_decide_reflect (status = Sim_Failed)) as [->|Hne].
    + eapply post_mono; [eapply keeps_trace; [done|exact Hs2]|]. intros ? s3 Hs3.
      split; [done|by intros []].
    + by split.
  - apply post_cases in Hpost as [[e ->]|(status & s & -> & Hpost)]; [by eexists|].
    eexists. split; [done|]. destruct Hpost as [[Ht Hi Hd _ (traced & Hint & Hrows) _ _] Hq].
    rewrite app_nil_r in Hint. subst traced. intros result_ Hfin.
    unfold AutomationSimulator.finish in Hfin. apply result_bind_ok in Hfin as (hash & _ & [= <-]).
    by split.
Qed.
End Theorems.

(** ** A group whose branch goes on after a failure *)

#[local] Existing Instance integer_json.
#[local] Existing Instance ranged_chrono.

#[export] Instance fixture_trace_encoding : TraceEncoding :=
  {| encode_trace := fun trace => Ok [N.of_nat (length trace) mod 256]%N |}.

(** The first branch of a group switches the lamp and goes on when that fails;
    behind the group the gate is switched. *)
Definition tolerant_switch (reference : AutomationDeviceReference) : AutomationAction :=
  Do_Command (on_off_of reference) (Pl_OnOff (Oo_Set true)) (mk_retry 0 1000 []) Fail_Continue.
Definition branch_document : AutomationDocument :=
  document_of [Do_Parallel [[tolerant_switch (Ref_Device "a-lamp")]; [Do_Delay 500]] 2;
               switch_on (Ref_Device "b-gate")].

Definition caught_up : SimulationTriggerContext :=
  mk_trigger_context Stk_ExplicitCatchUp now0 now0 now0 true 0 0 None false.

(** The first command fails, every other one is confirmed. *)
Definition fixture_of (plan : AutomationExecutionPlan) : AutomationSimulationFixture :=
  mk_fixture plan "run" "correlation" None caught_up [] [] [mk_outcome Cs_Failed (Some Ce_PolicyDenied)].

Definition result_of (fixture : AutomationSimulationFixture) : AutomationSimulationResult :=
  match AutomationSimulator.simulate fixture with
  | Some (Ok result_) => result_
  | _ => mk_simulation_result Sim_Failed [] [] [] 0 (mk_content_hash "")
  end.

Lemma branch_compiled : compile branch_document hall = Ok (plan_of branch_document).
Proof.
  unfold plan_of. assert (Hok : is_ok (compile branch_document hall) = true) by (vm_compute; reflexivity).
  by destruct (compile branch_document hall).
Qed.

Definition next_position (plan : AutomationExecutionPlan) (c c' : Control) : Prop :=
  exists progress, move plan progress c c'.

Lemma later_potential plan c c' :
  plan_wf plan -> retries_u16 plan -> settled plan c -> rtc (next_position plan) c c' ->
  settled plan c' /\ (potential plan c' <= potential plan c)%N.
Proof.
  intros Hp Hr Hc Hpath. induction Hpath as [c|c c1 c2 [progress Hm] _ IH]; [by split|].
  destruct Hc as [Hwf|(Ht & Hn & _)]; [|by destruct (terminal_no_move _ _ _ _ Ht Hn Hm)].
  destruct (move_sound _ _ _ _ Hp Hwf Hm) as [_ Hs].
  pose proof (move_potential _ _ _ _ Hp Hr Hwf Hm). destruct (IH Hs). split; [done|]. destruct progress; lia.
Qed.

(** Outside of every group a run starts a command node at most once. *)
Lemma command_once plan n c c' c'' i targets payload segment retry on_failure next :
  plan_wf plan -> retries_u16 plan -> run_path plan n c ->
  kind_at plan i = Some (Node_Command targets payload segment retry on_failure next) ->
  k_state c <> Run_Pending -> k_node c = Some i -> k_attempt c = None -> k_stack c = [] ->
  move plan true c c' -> rtc (next_position plan) c' c'' ->
  ~ (k_node c'' = Some i /\ k_attempt c'' = None).
Proof.
  intros Hp Hr Hpath Hk Hst Hn Ha Hs Hm Hlater [Hn'' Ha''].
  destruct (run_path_settled _ _ _ Hp Hpath) as [Hwf|(Ht & Hno & _)]; [|by rewrite Hno in Hn].
  destruct (move_sound _ _ _ _ Hp Hwf Hm) as [_ Hsettled].
  pose proof (move_potential _ _ _ _ Hp Hr Hwf Hm) as Hless.
  destruct (later_potential _ _ _ Hp Hr Hsettled Hlater) as [_ Hle].
  unfold potential in Hless at 2. unfold potential in Hle at 1.
  rewrite Hn, Hk, Ha, Hs, bool_decide_eq_false_2 in Hless by done.
  rewrite Hn'', Hk, Ha'' in Hle. simpl in *. lia.
Qed.

(** ** Main theorems *)

(** C34: a simulation of a plan whose retry counts fit their type and whose trace
    budget is below the largest number of its type always ends.  The trace of its
    result has at most the budget of rows, numbered and stamped in order from the
    acceptance to the end.  Its intents are complete executions of command nodes of
    the plan, one after the other: attempts numbered from zero without a gap and
    within the retries, each but the first exactly the backoff behind one whose
    outcome may be retried, the last with an outcome that may not, or with no retry
    left; the outcomes are the declared ones in their order, and confirmations
    behind them; the command rows of the trace are those of the intents, in their
    order; and there are no intents at all when the trigger was refused. *)
Theorem simulation_sound `{Calendar} `{Uuids} `{Chrono} `{Sha256} `{TraceEncoding} fixture :
  retries_u16 (sf_plan fixture) ->
  (bu_maximum_trace_steps (pl_budget (sf_plan fixture)) < u32_max)%N ->
  exists r, AutomationSimulator.simulate fixture = Some r
    /\ forall result_, r = Ok result_ -> simulation_ok fixture result_.
Proof. apply simulate_ok. Qed.

(** the simulator leaves the group of a branch that goes on after a failure
    without its join: a compiled document has a simulation that performs the
    command behind the group twice, each time as a first attempt that is
    confirmed, although the interpreter, which stands behind the group outside of
    every other, starts such a command at most once. *)
Theorem simulation_repeats_rest :
  exists plan, compile branch_document hall = Ok plan
  /\ (exists result_ i j x y, AutomationSimulator.simulate (fixture_of plan) = Some (Ok result_)
      /\ i <> j /\ sr_command_intents result_ !! i = Some x /\ sr_command_intents result_ !! j = Some y
      /\ sci_node_id x = 1%N /\ sci_node_id y = 1%N /\ sci_attempt x = 0%N /\ sci_attempt y = 0%N
      /\ sco_state (sci_outcome x) = Cs_Confirmed /\ sco_state (sci_outcome y) = Cs_Confirmed)
  /\ forall n c c' c'', run_path plan n c ->
      k_state c <> Run_Pending -> k_node c = Some 1%N -> k_attempt c = None -> k_stack c = [] ->
      move plan true c c' -> rtc (next_position plan) c' c'' ->
      ~ (k_node c'' = Some 1%N /\ k_attempt c'' = None).
Proof.
  exists (plan_of branch_document). split; [exact branch_compiled|]. split.
  - exists (result_of (fixture_of (plan_of branch_document))), 1, 2. do 2 eexists.
    split; [vm_compute; reflexivity|]. split; [lia|]. split; [vm_compute; reflexivity|].
    split; [vm_compute; reflexivity|]. split_and!; reflexivity.
  - intros n c c' c'' Hpath. eapply command_once; [exact (compile_wf _ _ _ branch_compiled)| |exact Hpath|].
    + apply retries_fit_u16. vm_compute. reflexivity.
    + vm_compute. reflexivity.
Qed.

Lemma simulation_sound_witness :
  simulation_ok (fixture_of (plan_of branch_document)) (result_of (fixture_of (plan_of branch_document))).
Proof.
  assert (Hr : retries_u16 (plan_of branch_document)) by (apply retries_fit_u16; vm_compute; reflexivity).
  assert (Hu : (bu_maximum_trace_steps (pl_budget (plan_of branch_document)) < u32_max)%N)
    by (vm_compute; reflexivity).
  destruct (simulation_sound (fixture_of (plan_of branch_document)) Hr Hu) as (r & Hsim & Hok).
  apply Hok. unfold result_of. rewrite Hsim.
  assert (Hfin : match AutomationSimulator.simulate (fixture_of (plan_of branch_document)) with
    | Some (Ok _) => true | _ => false end = true) by (vm_compute; reflexivity).
  rewrite Hsim in Hfin. destruct r; [reflexivity|discriminate].
Defined.

(** The same plan behind another guard. *)
Definition guarded (plan : AutomationExecutionPlan) (condition : option ResolvedAutomationCondition) :
  AutomationExecutionPlan :=
  mk_plan (pl_automation_id plan) (pl_automation_version plan) (pl_document_hash plan) (pl_plan_hash plan)
    (pl_registry_revision plan) (pl_variables plan) (pl_triggers plan) condition (pl_run_mode plan)
    (pl_self_trigger plan) (pl_entry plan) (pl_nodes plan) (pl_safety_profiles plan)
    (pl_safety_requirements plan) (pl_approval plan) (pl_budget plan).

Definition guarded_version (active : ActiveAutomationVersion) (condition : option ResolvedAutomationCondition) :
  ActiveAutomationVersion :=
  let version := aav_version active in
  mk_active (aav_identity active)
    (mk_stored_version (sv_document version) (guarded (sv_plan version) condition) (sv_state version)
       (sv_validation version) (sv_simulation version)).

Section Guard.
Context `{Calendar} `{Uuids} `{Chrono} `{Sha256} `{TraceEncoding}.

(** A guard that is false suppresses every simulation. *)
Lemma false_guard_suppresses fixture result_ :
  pl_condition (sf_plan fixture) = Some (Rc_Literal false) ->
  AutomationSimulator.simulate fixture = Some (Ok result_) ->
  sr_command_intents result_ = [] /\ sr_status result_ <> Sim_Completed.
Proof.
  intros Hguard Hsim. unfold AutomationSimulator.simulate in Hsim.
  set (accepted := StepInterpreter.accept_trigger fixture (StepInterpreter.new fixture)) in *.
  assert (Hacc : match accepted with
    | Some (Ok (Some status, s)) => si_intents s = [] /\ status <> Sim_Completed /\ status <> Sim_Failed
    | Some (Ok (None, _)) => False
    | _ => True end).
  { unfold accepted, StepInterpreter.accept_trigger, StepInterpreter.suppress, StepInterpreter.trace,
      StepInterpreter.evaluate_condition, StepInterpreter.sim_bind, StepInterpreter.sim_get,
      StepInterpreter.sim_put, StepInterpreter.sim_ret, StepInterpreter.sim_fail, StepInterpreter.sim_lift.
    rewrite Hguard. repeat (simpl; case_match; simplify_eq/=; try done). }
  unfold StepInterpreter.sim_bind, StepInterpreter.sim_ret in Hsim. fold accepted in Hsim.
  destruct accepted as [[[[status|] s]|error]|]; try done.
  destruct Hacc as (Hint & Hcomp & Hfail). simpl in Hsim.
  rewrite bool_decide_eq_false_2 in Hsim by done. injection Hsim as Hsim.
  unfold AutomationSimulator.finish in Hsim. apply result_bind_ok in Hsim as (hash & _ & [= <-]). done.
Qed.
End Guard.

#[local] Existing Instance integer_json.
#[local] Existing Instance ranged_chrono.

(** The gate automation behind a guard that never holds. *)
Definition never_document : AutomationDocument :=
  mk_document "auto" 1%N "Hall light" (mk_provenance "alice" None "light the hall" "dark") []
    [Trig_ObservationChanged (on_off_of (Ref_Device "a-lamp")) (Some "on"%string)] (Some (Cond_Literal false))
    [switch_on (Ref_Device "b-gate")] Mode_Single Self_SuppressSameVersion AutomationResourceBudget.default now0.

(** The guard of a run decides nothing once the automation is active: a run starts
    the same and steps the same behind every guard, although a plan behind a guard
    that is false compiles and its simulations never issue a command. *)
Theorem guard_not_enforced :
  (forall active condition occurrence now,
     AutomationScheduler.new_run (guarded_version active condition) occurrence now
     = AutomationScheduler.new_run active occurrence now)
  /\ (forall plan condition commands run sequence,
     step_within commands (guarded plan condition) run sequence = step_within commands plan run sequence)
  /\ (exists plan, compile never_document hall = Ok plan /\ pl_condition plan = Some (Rc_Literal false)
     /\ plan = guarded (plan_of gate_document) (Some (Rc_Literal false))
     /\ forall fixture result_, sf_plan fixture = plan ->
        AutomationSimulator.simulate fixture = Some (Ok result_) -> sr_command_intents result_ = []).
Proof.
  split; [|split].
  - intros [identity [document plan state validation simulation]] condition occurrence now. by destruct plan.
  - intros [] condition commands run sequence. reflexivity.
  - exists (plan_of never_document). split_and!.
    + unfold plan_of. assert (Hok : is_ok (compile never_document hall) = true) by (vm_compute; reflexivity).
      by destruct (compile never_document hall).
    + vm_compute. reflexivity.
    + vm_compute. reflexivity.
    + intros fixture result_ Hplan Hsim. eapply false_guard_suppresses; [|exact Hsim].
      rewrite Hplan. vm_compute. reflexivity.
Qed.
