(* ===== verification/AutomationSchedulerProps.v ===== *)
(** The page of recoverable work the scheduler lives on, which old accepted
    occurrences fill for good. *)

From S2P Require Import Prelude Text BTree Json Capability Lifecycle Device Command CommandStore CommandFixture MatterOperation Effects CommandService Automation Identity AutomationStore AutomationInvariant AutomationCompiler AutomationFixture AutomationEvaluator AutomationRuntime AutomationSimulator AutomationScheduler.

Import AutomationScheduler.

(** ** Awaited calls *)

Section Calls.
Context {T : Type} (needs : forall op : ScOp, T -> Prop) (gives : forall op : ScOp, sc_resp op -> T -> T)
  (assumes : forall op : ScOp, sc_resp op -> T -> Prop).

(** An awaited repository call: what it needs, and what follows each answer. *)
Lemma wp_sc_call {A B : Type} (m : Prog sc_resp (result A BoxError)) (f : A -> ScProg B) t Q :
  wp needs gives assumes m t (fun r t =>
    match r with
    | Ok a => wp needs gives assumes (f a) t Q
    | Err error => Q (Err (Sce_Repository error)) t
    end) ->
  wp needs gives assumes (try_bind (sc_call m) f) t Q.
Proof.
  intros Hm. apply wp_try, wp_bind. eapply wp_mono; [exact Hm|]. by intros [a|error] t'.
Qed.

End Calls.

(** An awaited call of which nothing is needed later. *)
Ltac await := apply wp_sc_call; split; [simpl; try done|intros [?|?] ?; cbn [wp]; [|done]].

(** ** The page of recoverable work *)

Lemma occurrence_le_rank a b : occurrence_le a b = true -> (oc_occurred_at a <= oc_occurred_at b)%Z.
Proof.
  unfold occurrence_le. intros [H|[H _]%andb_prop]%orb_prop;
    [apply Z.ltb_lt in H|apply Z.eqb_eq in H]; lia.
Qed.

Lemma occurrence_not_le_rank a b : occurrence_le a b = false -> (oc_occurred_at b <= oc_occurred_at a)%Z.
Proof. unfold occurrence_le. intros [H _]%orb_false_elim. apply Z.ltb_ge in H. lia. Qed.

Section Starved.
Context `{Uuids} `{Sha256} `{AutomationEncoding} `{Chrono} `{Calendar} `{CronInstants}.

(** A page full of accepted occurrences before an occurrence. *)
Definition backlog (db : AutomationDb) (occurrence : AutomationOccurrence) : Prop :=
  exists before, NoDup (map oc_id before) /\ MAX_QUERY_PAGE <= length before
  /\ forall o, o ∈ before -> ad_occurrences db !! oc_id o = Some o /\ oc_state o = Occ_Accepted
       /\ (oc_occurred_at o < oc_occurred_at occurrence)%Z.

(** A transaction that deletes no occurrence: every one but a retention. *)
Definition unretained_step (db db' : AutomationDb) : Prop :=
  adb_step db db' /\ forall k, is_Some (ad_occurrences db !! k) -> is_Some (ad_occurrences db' !! k).

Lemma accepted_forever db db' k o :
  unretained_step db db' -> ad_occurrences db !! k = Some o -> oc_state o = Occ_Accepted ->
  ad_occurrences db' !! k = Some o.
Proof.
  intros [Hstep Hkeep] Ho Hacc. destruct (Hkeep k) as [o' Ho']; [eauto|].
  destruct (adb_step_occurrence _ _ _ _ _ Hstep Ho Ho') as [->|[_ Hal]]; [done|].
  by rewrite Hacc in Hal.
Qed.

Lemma backlog_stays db db' occurrence :
  rtc unretained_step db db' -> backlog db occurrence -> backlog db' occurrence.
Proof.
  induction 1 as [|db db1 db' Hstep _ IH]; [done|]. intros (before & Hnd & Hlen & Hb). apply IH.
  exists before. split_and!; [done..|]. intros o Ho. destruct (Hb o Ho) as (Hin & Hacc & Hlt).
  split_and!; [|done..]. by eapply accepted_forever.
Qed.

Lemma backlog_hides db occurrence stored limit :
  backlog db occurrence -> oc_occurred_at stored = oc_occurred_at occurrence ->
  stored ∉ rcv_occurrences (recover db limit).
Proof.
  intros (before & Hnd & Hlen & Hb) Hat. unfold recover, page. simpl.
  apply (sort_by_starved _ oc_occurred_at) with before; auto using occurrence_le_rank, occurrence_not_le_rank.
  - by eapply NoDup_fmap_1.
  - lia.
  - intros o (Hin & Hacc & Hlt)%Hb. split; [|lia]. apply list_elem_of_In, filter_In. split.
    + apply list_elem_of_In, elem_of_rows. eauto.
    + by rewrite Hacc.
Qed.

(** The page a database serves. *)
Definition served (db : AutomationDb) (op : ScOp) : sc_resp op -> Prop :=
  match op with
  | Sc_recoverable_automation_work limit => fun r =>
      forall recovery, r = Ok recovery -> exists db', rtc unretained_step db db' /\ recovery = recover db' limit
  | _ => fun _ => True
  end.

(** An operation that neither moves an occurrence nor starts its run. *)
Definition leaves (id : AutomationOccurrenceId) (op : ScOp) : Prop :=
  match op with
  | Sc_transition_automation_occurrence o => oc_id o <> id
  | Sc_create_automation_run run => ru_occurrence_id run <> id
  | _ => True
  end.

Lemma unretained_reachable db db' : rtc unretained_step db db' -> adb_reachable db -> adb_reachable db'.
Proof.
  intros Hsteps Hdb. eapply rtc_trans; [exact Hdb|]. clear Hdb.
  induction Hsteps as [|db db1 db' [Hstep _] _ IH]; [done|]. by eapply rtc_l.
Qed.

Lemma same_instant db db' k o o' :
  rtc unretained_step db db' -> ad_occurrences db !! k = Some o -> ad_occurrences db' !! k = Some o' ->
  oc_occurred_at o' = oc_occurred_at o.
Proof.
  intros Hsteps. revert o. induction Hsteps as [|db db1 db' [Hstep Hkeep] _ IH]; intros o Ho Ho'; [congruence|].
  destruct (Hkeep k) as [o1 Ho1]; [eauto|]. rewrite (IH _ Ho1 Ho').
  destruct (adb_step_occurrence _ _ _ _ _ Hstep Ho Ho1) as [->|[Hsame _]]; [done|].
  unfold same_occurrence in Hsame. bool_inv. congruence.
Qed.

(** Every page served from then on avoids the occurrence. *)
Lemma page_avoids db occurrence db' limit o :
  adb_reachable db -> ad_occurrences db !! oc_id occurrence = Some occurrence -> backlog db occurrence ->
  rtc unretained_step db db' -> o ∈ rcv_occurrences (recover db' limit) -> oc_id o <> oc_id occurrence.
Proof.
  intros Hdb Hocc Hback Hsteps Hin Heq.
  pose proof (wf_occurrences _ (adb_reachable_wf _ (unretained_reachable _ _ Hsteps Hdb))) as Hwf.
  assert (Hrow : exists k, ad_occurrences db' !! k = Some o).
  { unfold recover, page in Hin. simpl in Hin. apply elem_of_take in Hin as (i & Hi & _).
    apply list_elem_of_lookup_2 in Hi. rewrite sort_by_perm in Hi.
    apply list_elem_of_In, filter_In in Hi as [Hi _]. by apply elem_of_rows, list_elem_of_In. }
  destruct Hrow as [k Hk]. destruct (Hwf _ _ Hk) as [<- _]. rewrite Heq in Hk.
  revert Hin. eapply backlog_hides; [by eapply backlog_stays|]. by eapply same_instant.
Qed.

(** ** The scheduler over such pages *)

Section Avoid.
Variable id : AutomationOccurrenceId.
Variable db : AutomationDb.
Hypothesis avoids : forall db' limit o, rtc unretained_step db db' ->
  o ∈ rcv_occurrences (recover db' limit) -> oc_id o <> id.

Abbreviation avoid m := (wp (fun op _ => leaves id op) (fun _ _ t => t) (fun op r _ => served db op r)
  m tt (fun _ _ => True)).

Lemma avoid_create_run active occurrence now :
  oc_id occurrence <> id -> avoid (create_run active occurrence now).
Proof. intros Hid. unfold create_run. await. case_match; [done|]. by await. Qed.

Lemma avoid_start_run version occurrence now pass :
  oc_id occurrence <> id -> avoid (start_run version occurrence now pass).
Proof. intros Hid. apply wp_try. eapply wp_mono; [by apply avoid_create_run|]. by intros [run|error] []. Qed.

Lemma avoid_restart runs timers occurrence now : avoid (cancel_for_restart runs timers occurrence now).
Proof.
  induction runs as [|run runs IH]; cbn [cancel_for_restart]; [done|]. case_match.
  - await. await. apply wp_try. eapply wp_mono; [exact IH|]. by intros [?|?] [].
  - apply wp_try. eapply wp_mono; [exact IH|]. by intros [?|?] [].
Qed.

Lemma avoid_occurrence active timers now occurrence pass :
  oc_id occurrence <> id -> avoid (process_occurrence active timers now occurrence pass).
Proof.
  intros Hid. unfold process_occurrence. case_match; [|done].
  destruct (oc_state occurrence); [|by apply avoid_start_run|done..].
  case_match; [by await|]. case_match; [done|]. case_match; [|done|by await].
  unfold accept_occurrence. apply wp_try. case_match.
  - apply wp_try. eapply wp_mono; [apply avoid_restart|]. intros [cancelled|error] []; [|done].
    intros _. cbn [wp]. await. by apply avoid_start_run.
  - cbn [wp]. await. by apply avoid_start_run.
Qed.

Lemma avoid_occurrences active timers now occurrences pass :
  (forall o, o ∈ occurrences -> oc_id o <> id) -> avoid (process_occurrences active timers now occurrences pass).
Proof.
  revert pass. induction occurrences as [|o occurrences IH]; intros pass Ho; cbn [process_occurrences]; [done|].
  apply wp_try. eapply wp_mono; [apply avoid_occurrence, Ho; by left|].
  intros [pass'|error] [] _; [|done]. apply IH. intros o' Ho'. apply Ho. by right.
Qed.

Lemma avoid_timers timers now result_ : avoid (ready_timers timers now result_).
Proof.
  revert result_. induction timers as [|timer timers IH]; intros result_; cbn [ready_timers]; [done|]. case_match.
  - await. apply wp_try. eapply wp_mono; [apply IH|]. by intros [?|?] [].
  - apply wp_try. eapply wp_mono; [apply IH|]. by intros [?|?] [].
Qed.

Lemma avoid_create_all occurrences result_ : avoid (create_occurrences occurrences result_).
Proof.
  revert result_. induction occurrences as [|o occurrences IH]; intros result_; cbn [create_occurrences]; [done|].
  await. apply IH.
Qed.

Lemma avoid_triggers active triggers from through result_ :
  avoid (materialize_triggers active triggers from through result_).
Proof.
  revert result_. induction triggers as [|trigger triggers IH]; intros result_; cbn [materialize_triggers]; [done|].
  destruct trigger; try apply IH. case_match; [|done]. apply wp_try.
  eapply wp_mono; [apply avoid_create_all|]. intros [?|?] [] _; [|done]. apply IH.
Qed.

Lemma avoid_materialize active from through result_ : avoid (materialize active from through result_).
Proof.
  revert result_. induction active as [|version active IH]; intros result_; cbn [materialize]; [done|].
  apply wp_try. eapply wp_mono; [apply avoid_triggers|]. intros [?|?] [] _; [|done]. apply IH.
Qed.

Lemma avoid_tick from through : avoid (tick from through).
Proof.
  unfold tick. await. apply wp_try. eapply wp_mono; [apply avoid_materialize|].
  intros [tick|error] [] _; [|done]. unfold process_recovery. split; [done|]. intros now _.
  apply wp_sc_call. split; [done|]. intros [recovery|error] Hserved; [|done].
  simpl in Hserved. destruct (Hserved _ eq_refl) as (db' & Hsteps & ->).
  apply wp_try. eapply wp_mono; [apply avoid_timers|]. intros [readied|error] [] _; [|done].
  apply wp_try. eapply wp_mono; [apply avoid_occurrences|].
  - intros o. by apply avoids.
  - by intros [pass|error] [].
Qed.

End Avoid.
End Starved.

(** ** A full page *)

#[local] Existing Instance ranged_chrono.

(** A cron library for which every expression means every full minute. *)
#[export] Instance minute_instants : CronInstants :=
  {| cron_between := fun _ _ from through =>
       let minute := delta_seconds 60 in
       map (fun i => (from / minute + 1 + Z.of_nat i) * minute)%Z
         (seq 0 (Z.to_nat (through / minute - from / minute))) |}.

(** An occurrence of the automation that was accepted in its turn. *)
Definition old_occurrence (i : nat) : AutomationOccurrence :=
  mk_occurrence ("old/" +:+ show_N (N.of_nat i)) "auto" 1%N (Z.of_nat i) now0 Occ_Accepted (Some (N.of_nat i))
    "correlation" None None.

Definition due_occurrence : AutomationOccurrence :=
  mk_occurrence "due" "auto" 1%N now0 now0 Occ_Scheduled None "correlation" None None.

Definition old_occurrences : list AutomationOccurrence := map old_occurrence (seq 0 MAX_QUERY_PAGE).

(** The columns of an occurrence fit. *)
Definition storable (o : AutomationOccurrence) : Prop :=
  is_ok (to_i64 (oc_version o)) = true
  /\ match oc_event_cursor o with Some cursor => is_ok (to_i64 cursor) = true | None => True end.

Lemma create_fresh db o :
  ad_occurrences db !! oc_id o = None -> storable o ->
  version_exists db (oc_automation_id o) (oc_version o) = true ->
  create_occurrence db o = Ok (set_occurrences db (<[oc_id o := o]> (ad_occurrences db))).
Proof.
  intros Hnone [Hv Hc] Hver. unfold create_occurrence. rewrite Hnone.
  destruct (to_i64 (oc_version o)); [|discriminate]. simpl.
  destruct (oc_event_cursor o) as [cursor|]; simpl; [destruct (to_i64 cursor); [|discriminate]; simpl|];
    by rewrite Hver.
Qed.

(** Distinct new occurrences of stored versions are all created. *)
Lemma create_all_fresh occurrences db :
  NoDup (map oc_id occurrences) ->
  (forall o, o ∈ occurrences -> ad_occurrences db !! oc_id o = None /\ storable o
     /\ version_exists db (oc_automation_id o) (oc_version o) = true) ->
  exists db', each_row create_occurrence db occurrences = Ok db'
  /\ (forall o, o ∈ occurrences -> ad_occurrences db' !! oc_id o = Some o)
  /\ forall k, k ∉ map oc_id occurrences -> ad_occurrences db' !! k = ad_occurrences db !! k.
Proof.
  revert db. induction occurrences as [|o occurrences IH]; intros db Hnd Hnew.
  { exists db. split; [done|]. split; [by intros o ?%not_elem_of_nil|done]. }
  apply NoDup_cons in Hnd as [Hout Hnd]. destruct (Hnew o) as (Hnone & Hst & Hver); [by left|].
  simpl. rewrite create_fresh by done. simpl.
  destruct (IH (set_occurrences db (<[oc_id o := o]> (ad_occurrences db)))) as (db' & Hrows & Hin & Hother).
  - done.
  - intros o' Ho'. destruct (Hnew o') as (Hnone' & Hst' & Hver'); [by right|]. split_and!; [|done..].
    simpl. rewrite lookup_insert_ne; [done|]. intros Heq. apply Hout. rewrite Heq.
    apply list_elem_of_In, in_map. by apply list_elem_of_In.
  - exists db'. split; [done|]. split.
    + intros o' [->|Ho']%elem_of_cons; [|by apply Hin]. rewrite Hother by done. apply lookup_insert_eq.
    + intros k Hk. apply not_elem_of_cons in Hk as [Hne Hk]. rewrite Hother by done. simpl.
      by rewrite lookup_insert_ne.
Qed.

Lemma create_all_reachable db occurrences db' :
  each_row create_occurrence db occurrences = Ok db' -> adb_reachable db -> adb_reachable db'.
Proof.
  intros Hop Hdb. eapply (each_row_ind adb_reachable); [|exact Hop|exact Hdb].
  intros db1 o db2 Ho Hdb1. eapply rtc_r; [exact Hdb1|]. by eapply Tx_create_occurrence.
Qed.

Lemma old_ids_distinct : NoDup (map oc_id old_occurrences).
Proof.
  unfold old_occurrences. rewrite map_map. apply NoDup_fmap; [|apply NoDup_seq].
  intros i j Heq. apply (inj (String.append "old/")), show_N_inj in Heq. lia.
Qed.

Lemma old_occurrences_spec o :
  o ∈ old_occurrences -> exists i, i < MAX_QUERY_PAGE /\ o = old_occurrence i.
Proof.
  intros Ho. unfold old_occurrences in Ho. apply list_elem_of_In, in_map_iff in Ho as (i & <- & Hi%in_seq).
  exists i. split; [lia|done].
Qed.

Definition full_script : result AutomationDb StorageError :=
  each_row create_occurrence gate_db (due_occurrence :: old_occurrences).

Definition full_db : AutomationDb := match full_script with Ok db => db | Err _ => empty_adb end.

Lemma gate_occurrences : ad_occurrences gate_db = {["occurrence"%string := gate_occurrence]}.
Proof. vm_compute. reflexivity. Qed.

Lemma gate_version : version_exists gate_db "auto" 1 = true.
Proof. vm_compute. reflexivity. Qed.

Lemma full_created : full_script = Ok full_db
  /\ forall o, o ∈ due_occurrence :: old_occurrences -> ad_occurrences full_db !! oc_id o = Some o.
Proof.
  destruct (create_all_fresh (due_occurrence :: old_occurrences) gate_db) as (db & Hrows & Hin & _).
  - constructor; [|apply old_ids_distinct]. intros Hdue. apply list_elem_of_In, in_map_iff in Hdue as (o & Heq & Ho).
    apply list_elem_of_In, old_occurrences_spec in Ho as (i & _ & ->). discriminate.
  - intros o Ho. rewrite gate_occurrences. apply elem_of_cons in Ho as [->|(i & Hi & ->)%old_occurrences_spec].
    + split_and!; [by rewrite lookup_singleton_ne|done..|exact gate_version].
    + split_and!; [by rewrite lookup_singleton_ne| |exact gate_version]. split; [done|]. simpl.
      unfold to_i64, i64_try_from_u64, i64_max, MAX_QUERY_PAGE in *.
      destruct (_ <=? _)%Z eqn:Hle; [done|]. apply Z.leb_gt in Hle. lia.
  - assert (Hdb : full_db = db) by (unfold full_db, full_script; rewrite Hrows; reflexivity).
    rewrite Hdb. split; [exact Hrows|exact Hin].
Qed.

Lemma full_db_reachable : adb_reachable full_db.
Proof. eapply create_all_reachable; [exact (proj1 full_created)|exact gate_db_reachable]. Qed.

Lemma full_backlog : backlog full_db due_occurrence.
Proof.
  exists old_occurrences. split_and!.
  - apply old_ids_distinct.
  - unfold old_occurrences. by rewrite length_map, length_seq.
  - intros o Ho. split; [apply full_created; by right|]. apply old_occurrences_spec in Ho as (i & Hi & ->).
    split; [done|]. change (Z.of_nat i < 1000000000000)%Z. unfold MAX_QUERY_PAGE in Hi. lia.
Qed.

(** C36: accepted occurrences stay accepted, so once a page of them lies before
    an occurrence, no page of recoverable work contains it again while nothing is
    deleted, and no tick moves it or starts its run, whatever runs in between. *)
Theorem recovery_page_starved `{Uuids} `{Sha256} `{AutomationEncoding} `{Chrono} `{Calendar} `{CronInstants}
  db occurrence :
  adb_reachable db -> ad_occurrences db !! oc_id occurrence = Some occurrence -> backlog db occurrence ->
  (forall db' limit o, rtc unretained_step db db' -> o ∈ rcv_occurrences (recover db' limit) ->
     oc_id o <> oc_id occurrence)
  /\ forall from through, wp (fun op _ => leaves (oc_id occurrence) op) (fun _ _ t => t)
       (fun op r _ => served db op r) (tick from through) tt (fun _ _ => True).
Proof.
  intros Hdb Hocc Hback.
  assert (Havoid : forall db' limit o, rtc unretained_step db db' ->
    o ∈ rcv_occurrences (recover db' limit) -> oc_id o <> oc_id occurrence)
    by (intros; by eapply page_avoids).
  split; [done|]. intros from through. by apply avoid_tick.
Qed.

Lemma recovery_page_starved_witness :
  oc_state due_occurrence = Occ_Scheduled
  /\ (forall limit, due_occurrence ∉ rcv_occurrences (recover full_db limit)).
Proof.
  split; [reflexivity|]. intros limit Hin.
  pose proof (proj1 (recovery_page_starved full_db due_occurrence
    full_db_reachable (proj2 full_created due_occurrence (list_elem_of_here _ _)) full_backlog)) as Hno.
  exact (Hno full_db limit due_occurrence (rtc_refl _ _) Hin eq_refl).
Defined.
