(* ===== verification/AutomationAdmission.v ===== *)
(** The admission of the scheduler's pass: every occurrence it moves is moved the
    way the run mode of its version calls for, and every run it starts is the run
    of an accepted occurrence; and what the counts of a pass leave out. *)

From S2P Require Import Prelude Text BTree Json Capability Lifecycle Device Command CommandStore CommandFixture MatterOperation Effects CommandService Automation Identity AutomationStore AutomationInvariant AutomationCompiler AutomationFixture AutomationEvaluator AutomationRuntime AutomationSimulator AutomationScheduler AutomationSchedulerProps.

Import AutomationScheduler.

(** What a pass has learnt and done so far. *)
Record Admissions := mk_admissions {
  k_active : list ActiveAutomationVersion;
  k_now : Instant;
  k_page : list AutomationOccurrence;
  k_loaded : list AutomationRun;
  k_created : list AutomationRun;
  k_found : list AutomationRunId;
  k_accepted : list AutomationOccurrence;
  k_cancelled : list AutomationRunId
}.

Definition k_runs (t : Admissions) : list AutomationRun := k_loaded t ++ k_created t.

(** The runs of a version that were alive when the pass began, and the
    occurrences it has accepted since. *)
Definition load (t : Admissions) (key : AutomationId * N) : nat :=
  length (List.filter (fun run => negb (AutomationRunState.is_terminal (ru_state run))
                                  && bool_decide (run_key run = key)) (k_loaded t))
  + length (List.filter (fun o => bool_decide (occurrence_key o = key)) (k_accepted t)).

Definition is_due (t : Admissions) (o : AutomationOccurrence) : Prop :=
  (oc_occurred_at o <= k_now t <= oc_window_ends_at o)%Z.

(** What a run mode asks before an occurrence is accepted. *)
Definition may_accept (t : Admissions) (mode : AutomationRunMode) (key : AutomationId * N) : Prop :=
  match mode with
  | Mode_Single | Mode_Queued _ => load t key = 0
  | Mode_Parallel maximum_parallel => (N.of_nat (load t key) < maximum_parallel)%N
  | Mode_Restart => forall run, run ∈ k_runs t -> run_key run = key ->
      AutomationRunState.is_terminal (ru_state run) = false -> ru_id run ∈ k_cancelled t
  end.

(** The move of an occurrence its version's mode calls for. *)
Definition justified (t : Admissions) (o : AutomationOccurrence) : Prop :=
  exists version before, before ∈ k_page t /\ oc_state before = Occ_Scheduled
  /\ o = with_occurrence_state before (oc_state o)
  /\ List.find (is_version_of o) (k_active t) = Some version
  /\ let mode := pl_run_mode (sv_plan (aav_version version)) in
     match oc_state o with
     | Occ_Accepted => is_due t o /\ may_accept t mode (occurrence_key o)
     | Occ_Suppressed => is_due t o /\ mode <> Mode_Restart /\ ~ may_accept t mode (occurrence_key o)
     | Occ_MissedSkipped => (oc_window_ends_at o < k_now t)%Z
     | Occ_Scheduled => False
     end.

Section Admission.
Context `{Uuids} `{Chrono} `{Calendar} `{CronInstants}.

(** A run a pass may start: that of an occurrence accepted before or by it. *)
Definition may_start (t : Admissions) (run : AutomationRun) : Prop :=
  exists version o, (o ∈ k_page t \/ o ∈ k_accepted t) /\ oc_state o = Occ_Accepted
  /\ List.find (is_version_of o) (k_active t) = Some version /\ run = new_run version o (k_now t).

Definition admission_needs (op : ScOp) (t : Admissions) : Prop :=
  match op with
  | Sc_transition_automation_occurrence o => justified t o
  | Sc_create_automation_run run => may_start t run
  | _ => True
  end.

Definition with_cancelled (t : Admissions) (ids : list AutomationRunId) : Admissions :=
  mk_admissions (k_active t) (k_now t) (k_page t) (k_loaded t) (k_created t) (k_found t) (k_accepted t) ids.

Definition with_accepted (t : Admissions) (o : AutomationOccurrence) : Admissions :=
  mk_admissions (k_active t) (k_now t) (k_page t) (k_loaded t) (k_created t) (k_found t)
    (o :: k_accepted t) (k_cancelled t).

Definition with_created (t : Admissions) (run : AutomationRun) : Admissions :=
  mk_admissions (k_active t) (k_now t) (k_page t) (k_loaded t) (run :: k_created t) (k_found t)
    (k_accepted t) (k_cancelled t).

Definition with_found (t : Admissions) (id : AutomationRunId) : Admissions :=
  mk_admissions (k_active t) (k_now t) (k_page t) (k_loaded t) (k_created t) (id :: k_found t)
    (k_accepted t) (k_cancelled t).

(** What a pass learns from an answer. *)
Definition admission_gives (op : ScOp) : sc_resp op -> Admissions -> Admissions :=
  match op with
  | Sc_active_automation_versions _ => fun r t =>
      match r with Ok active => mk_admissions active 0 [] [] [] [] [] [] | Err _ => t end
  | Sc_now => fun now t => mk_admissions (k_active t) now [] [] [] [] [] []
  | Sc_recoverable_automation_work _ => fun r t =>
      match r with
      | Ok recovery => mk_admissions (k_active t) (k_now t) (rcv_occurrences recovery) (rcv_runs recovery)
                         [] [] [] []
      | Err _ => t
      end
  | Sc_transition_automation_occurrence o => fun _ t =>
      if bool_decide (oc_state o = Occ_Accepted) then with_accepted t o else t
  | Sc_commit_automation_step write => fun _ t =>
      with_cancelled t (ru_id (sw_run write) :: k_cancelled t)
  | Sc_automation_run id => fun r t => match r with Ok (Some _) => with_found t id | _ => t end
  | Sc_create_automation_run run => fun _ t => with_created t run
  | _ => fun _ t => t
  end.

(** A run the pass has seen is still stored when it looks for it, under the key
    it asks for; the recovery page holds only work that is not over. *)
Definition admission_assumes (op : ScOp) : sc_resp op -> Admissions -> Prop :=
  match op with
  | Sc_automation_run id => fun r t =>
      match r with
      | Ok None => id ∉ map ru_id (k_runs t) /\ id ∉ k_found t
      | Ok (Some run) => ru_id run = id
      | Err _ => True
      end
  | _ => fun _ _ => True
  end.

Abbreviation admits := (wp admission_needs admission_gives admission_assumes).

(** ** The counts and the runs of a pass *)

Lemma count_of_bump key key' counts :
  count_of key (bump key' counts) = (if bool_decide (key' = key) then 1 else 0) + count_of key counts.
Proof.
  unfold count_of, bump. case_bool_decide as Hk.
  - subst. rewrite lookup_insert_eq. done.
  - by rewrite lookup_insert_ne.
Qed.

Lemma count_of_active_from runs counts key :
  count_of key (fold_left (fun counts run =>
      if AutomationRunState.is_terminal (ru_state run) then counts else bump (run_key run) counts) runs counts)
  = length (List.filter (fun run => negb (AutomationRunState.is_terminal (ru_state run))
                                  && bool_decide (run_key run = key)) runs) + count_of key counts.
Proof.
  revert counts. induction runs as [|run runs IH]; intros counts; simpl; [done|].
  rewrite IH. destruct (AutomationRunState.is_terminal _); simpl; [done|].
  rewrite count_of_bump. case_bool_decide; simpl; lia.
Qed.

Lemma is_version_of_key o o' : occurrence_key o = occurrence_key o' -> is_version_of o = is_version_of o'.
Proof. unfold occurrence_key, is_version_of. intros [= -> ->]. done. Qed.

(** What a pass carries agrees with what it has learnt. *)
Record pass_ok (active : list ActiveAutomationVersion) (now : Instant) (page : list AutomationOccurrence)
  (t : Admissions) (pass : Pass) : Prop := mk_pass_ok {
  po_active : k_active t = active;
  po_now : k_now t = now;
  po_page : k_page t = page;
  po_load : forall o version, List.find (is_version_of o) active = Some version ->
    pl_run_mode (sv_plan (aav_version version)) <> Mode_Restart ->
    count_of (occurrence_key o) (ps_active pass) = load t (occurrence_key o);
  po_runs : forall run, run ∈ k_runs t -> AutomationRunState.is_terminal (ru_state run) = false ->
    run ∈ ps_runs pass \/ ru_id run ∈ k_cancelled t;
  po_ids : forall run, run ∈ ps_runs pass -> ru_id run ∈ map ru_id (k_runs t) \/ ru_id run ∈ k_found t
}.

(** ** The cancellations of a restart *)

Lemma admits_restart runs timers o now t :
  admits (cancel_for_restart runs timers o now) t (fun r t' =>
    exists ids, t' = with_cancelled t (ids ++ k_cancelled t)
    /\ forall runs' n, r = Ok (runs', n) ->
       (forall run, run ∈ runs' -> run_key run = occurrence_key o ->
          AutomationRunState.is_terminal (ru_state run) = true)
       /\ (forall run, run ∈ runs -> AutomationRunState.is_terminal (ru_state run) = false ->
          run ∈ runs' \/ ru_id run ∈ ids)
       /\ forall run, run ∈ runs' -> ru_id run ∈ map ru_id runs).
Proof.
  revert t. induction runs as [|run runs IH]; intros t; cbn [cancel_for_restart].
  { exists []. split; [by destruct t|]. intros runs' n [= <- <-]. split_and!; by intros run ?%not_elem_of_nil. }
  destruct (_ && _) eqn:Hsel.
  - apply wp_sc_call. split; [done|]. intros [trace|error] _; cbn [wp admission_gives];
      [|exists []; split; [by destruct t|discriminate]].
    apply wp_sc_call. split; [done|].
    intros [[]|error] _; cbn [wp admission_gives cancel_write sw_run with_state checkpoint ru_id];
      [|exists [ru_id run]; split; [done|discriminate]].
    apply wp_try. eapply wp_mono; [apply IH|]. clear IH.
    intros r t' (ids & -> & Hr). destruct r as [[runs' n]|error]; cbn [wp].
    + destruct (Hr _ _ eq_refl) as (Hterm & Hkept & Hids). exists (ids ++ [ru_id run]).
      split; [simpl; by rewrite <- app_assoc|]. intros runs2 n2 [= <- <-]. split_and!.
      * intros r [->|Hin]%elem_of_cons Hkey; [done|auto].
      * intros r [->|Hin]%elem_of_cons Hlive; rewrite elem_of_cons, elem_of_app; [right; right; by left|].
        destruct (Hkept _ Hin Hlive); auto.
      * intros r [->|Hin]%elem_of_cons; simpl; rewrite elem_of_cons; auto.
    + exists (ids ++ [ru_id run]). split; [simpl; by rewrite <- app_assoc|discriminate].
  - apply wp_try. eapply wp_mono; [apply IH|]. clear IH.
    intros r t' (ids & -> & Hr). destruct r as [[runs' n]|error]; cbn [wp];
      exists ids; (split; [done|]); [|discriminate].
    destruct (Hr _ _ eq_refl) as (Hterm & Hkept & Hids). intros runs2 n2 [= <- <-]. split_and!.
    + intros r [->|Hin]%elem_of_cons Hkey; [|auto]. unfold run_key, occurrence_key in Hkey.
      injection Hkey as Ha Hv. rewrite Ha, Hv, String.eqb_refl, N.eqb_refl in Hsel. simpl in Hsel.
      by apply negb_false_iff in Hsel.
    + intros r [->|Hin]%elem_of_cons Hlive; rewrite elem_of_cons; [left; by left|].
      destruct (Hkept _ Hin Hlive); auto.
    + intros r [->|Hin]%elem_of_cons; simpl; rewrite elem_of_cons; auto.
Qed.

(** ** The loop of a pass *)

Lemma load_accepted t o key :
  load (with_accepted t o) key = (if bool_decide (occurrence_key o = key) then 1 else 0) + load t key.
Proof. unfold load. simpl. case_bool_decide; simpl; lia. Qed.

Section Pass.
Context (active : list ActiveAutomationVersion) (now : Instant) (page : list AutomationOccurrence).

Abbreviation ok := (pass_ok active now page).

Lemma admits_start_run version o pass t :
  ok t pass -> o ∈ page \/ o ∈ k_accepted t -> oc_state o = Occ_Accepted ->
  List.find (is_version_of o) active = Some version ->
  admits (start_run version o now pass) t (fun r t' => forall pass', r = Ok pass' -> ok t' pass').
Proof.
  intros [Ha Hn Hp Hload Hruns Hids] Hin Hacc Hfind. unfold start_run, create_run.
  apply wp_try, wp_sc_call. split; [done|]. intros [[run|]|error] Hassume; cbn [wp admission_gives]; [| |done].
  - simpl in Hassume. intros pass' [= <-]. split; try done; simpl.
    + intros run' Hrun' Hlive. destruct (Hruns _ Hrun' Hlive); [left|by right].
      case_match; [|done]. apply elem_of_app. by left.
    + intros run' Hrun'. rewrite elem_of_cons. case_match; [|destruct (Hids _ Hrun'); auto].
      apply elem_of_app in Hrun' as [Hrun'|Hrun'%list_elem_of_singleton]; [destruct (Hids _ Hrun'); auto|subst run'].
      right. by left.
  - destruct Hassume as [Hnew Hnotfound]. apply wp_sc_call. split.
    { exists version, o. rewrite Ha, Hn, Hp. auto. }
    intros [[]|error] _; cbn [wp admission_gives]; [|done].
    set (run := new_run version o now) in *.
    assert (Hlive : AutomationRunState.is_terminal (ru_state run) = false) by done.
    assert (Hrid : ru_id run = AutomationRunId.from_occurrence (oc_id o)) by done. clearbody run.
    assert (Hfresh : forallb (fun item => negb (String.eqb (ru_id item) (ru_id run))) (ps_runs pass) = true).
    { apply forallb_forall. intros item Hitem%list_elem_of_In. apply negb_true_iff, String.eqb_neq.
      intros Heq. destruct (Hids _ Hitem) as [Hid|Hid]; rewrite Heq, Hrid in Hid; auto. }
    intros pass' [= <-]. rewrite Hlive, Hfresh. split; try done; simpl.
    + intros run' Hrun' Hlive'. unfold k_runs in *. simpl in Hrun'. rewrite elem_of_app, elem_of_cons in Hrun'.
      rewrite elem_of_app, list_elem_of_singleton.
      destruct Hrun' as [Hrun'|[->|Hrun']]; [| |].
      * destruct (Hruns run'); auto. by apply elem_of_app; left.
      * auto.
      * destruct (Hruns run'); auto. by apply elem_of_app; right.
    + intros run' Hrun'. unfold k_runs in *. simpl. rewrite map_app in *. simpl.
      apply elem_of_app in Hrun' as [Hrun'|Hrun'%list_elem_of_singleton]; [|subst run']; rewrite elem_of_app, elem_of_cons; [|auto].
      destruct (Hids _ Hrun') as [Hid|Hid]; [|by right]. left. apply elem_of_app in Hid as [|]; auto.
Qed.

(** The counts of a version do not depend on a restart of another. *)
Lemma other_version o o' version version' :
  List.find (is_version_of o) active = Some version -> List.find (is_version_of o') active = Some version' ->
  pl_run_mode (sv_plan (aav_version version)) <> pl_run_mode (sv_plan (aav_version version')) ->
  occurrence_key o <> occurrence_key o'.
Proof. intros Ho Ho' Hne Hkey. rewrite (is_version_of_key _ _ Hkey) in Ho. congruence. Qed.

Lemma ok_restarted version o pass t ids runs n :
  ok t pass -> List.find (is_version_of o) active = Some version ->
  pl_run_mode (sv_plan (aav_version version)) = Mode_Restart ->
  (forall run, run ∈ ps_runs pass -> AutomationRunState.is_terminal (ru_state run) = false ->
     run ∈ runs \/ ru_id run ∈ ids) ->
  (forall run, run ∈ runs -> ru_id run ∈ map ru_id (ps_runs pass)) ->
  ok (with_cancelled t (ids ++ k_cancelled t))
     (mk_pass runs (<[occurrence_key o := 0]> (ps_active pass)) (ps_queued pass) (count_cancelled n (ps_tick pass))).
Proof.
  intros [Ha Hn Hp Hload Hruns Hids] Hfind Hmode Hkept Hsub. split; try done; simpl.
  - intros o' version' Hfind' Hmode'. transitivity (load t (occurrence_key o')); [|done].
    rewrite <- (Hload _ _ Hfind' Hmode'). unfold count_of.
    rewrite lookup_insert_ne; [done|]. eapply other_version; [done..|]. by rewrite Hmode.
  - intros run Hrun Hlive. rewrite elem_of_app. destruct (Hruns run Hrun Hlive) as [Hin|]; [|auto].
    destruct (Hkept _ Hin Hlive); auto.
  - intros run Hrun. apply Hsub, list_elem_of_In, in_map_iff in Hrun as (run' & <- & Hrun%list_elem_of_In). auto.
Qed.

Lemma ok_accepted o pass t tick :
  ok t pass -> ok (with_accepted t o) (mk_pass (ps_runs pass) (bump (occurrence_key o) (ps_active pass))
                                        (ps_queued pass) tick).
Proof.
  intros [Ha Hn Hp Hload Hruns Hids]. split; try done; simpl.
  intros o' version' Hfind' Hmode'. rewrite count_of_bump, load_accepted. by rewrite (Hload _ _ Hfind' Hmode').
Qed.

Lemma admits_accept version o timers pass t :
  ok t pass -> o ∈ page -> oc_state o = Occ_Scheduled -> is_due t o ->
  List.find (is_version_of o) active = Some version ->
  (pl_run_mode (sv_plan (aav_version version)) <> Mode_Restart ->
     may_accept t (pl_run_mode (sv_plan (aav_version version))) (occurrence_key o)) ->
  admits (accept_occurrence version o timers now pass) t
    (fun r t' => forall pass', r = Ok pass' -> ok t' pass').
Proof.
  intros Hok Hin Hsch Hdue Hfind Hmay. unfold accept_occurrence. apply wp_try.
  assert (Hrest : forall t1 pass1, ok t1 pass1 -> is_due t1 o ->
    may_accept t1 (pl_run_mode (sv_plan (aav_version version))) (occurrence_key o) ->
    admits (try! _ := sc_call (perform (Sc_transition_automation_occurrence
                                          (with_occurrence_state o Occ_Accepted))) in
            start_run version (with_occurrence_state o Occ_Accepted) now
              (mk_pass (ps_runs pass1) (bump (occurrence_key o) (ps_active pass1)) (ps_queued pass1)
                 (count_accepted (ps_tick pass1)))) t1
      (fun r t' => forall pass', r = Ok pass' -> ok t' pass')).
  { intros t1 pass1 Hok1 Hdue1 Hmay1. apply wp_sc_call. split.
    - exists version, o. rewrite (po_page _ _ _ _ _ Hok1), (po_active _ _ _ _ _ Hok1). done.
    - intros [[]|error] _; cbn [wp admission_gives]; rewrite bool_decide_eq_true_2; try done.
      apply admits_start_run; try done.
      + by apply (ok_accepted (with_occurrence_state o Occ_Accepted)).
      + right. by left. }
  case_bool_decide as Hmode.
  - apply wp_try. eapply wp_mono; [apply admits_restart|].
    intros r t' (ids & -> & Hr). destruct r as [[runs n]|error]; [|done].
    destruct (Hr _ _ eq_refl) as (Hterm & Hkept & Hids). cbn [wp fst snd].
    pose proof (ok_restarted version o pass t ids runs n Hok Hfind Hmode Hkept Hids) as Hok1.
    apply (Hrest _ (mk_pass _ _ _ _) Hok1); [done|]. rewrite Hmode. intros run Hrun Hkey Hlive.
    destruct (po_runs _ _ _ _ _ Hok1 run Hrun Hlive) as [Hr1|Hc]; [|done].
    simpl in Hr1. rewrite (Hterm _ Hr1 Hkey) in Hlive. discriminate.
  - cbn [wp]. by apply Hrest; auto.
Qed.

Lemma admits_occurrence timers o pass t :
  ok t pass -> o ∈ page ->
  admits (process_occurrence active timers now o pass) t (fun r t' => forall pass', r = Ok pass' -> ok t' pass').
Proof.
  intros Hok Hin. unfold process_occurrence. destruct (List.find _ active) as [version|] eqn:Hfind;
    [|by intros pass' [= <-]].
  assert (Hstay : forall tick queued pass', mk_pass (ps_runs pass) (ps_active pass) queued tick = pass' -> ok t pass').
  { intros tick queued pass' <-. by destruct Hok. }
  pose proof (po_active _ _ _ _ _ Hok) as Ha. pose proof (po_page _ _ _ _ _ Hok) as Hp.
  pose proof (po_now _ _ _ _ _ Hok) as Hn.
  destruct (oc_state o) eqn:Hst; [|apply admits_start_run; auto|by intros pass' [= <-]..].
  destruct (oc_window_ends_at o <? now)%Z eqn:Hwin.
  { apply Z.ltb_lt in Hwin. apply wp_sc_call. split.
    - exists version, o. rewrite Ha, Hp, Hn. done.
    - intros [[]|error] _; cbn [wp admission_gives]; rewrite bool_decide_eq_false_2 by done; [|done].
      intros pass' [= Heq]. by apply Hstay in Heq. }
  apply Z.ltb_ge in Hwin. destruct (now <? oc_occurred_at o)%Z eqn:Hat; [by intros pass' [= <-]|].
  apply Z.ltb_ge in Hat. assert (Hdue : is_due t o) by (unfold is_due; rewrite Hn; lia).
  pose proof (po_load _ _ _ _ _ Hok o version Hfind) as Hload.
  destruct (admission _ _ _) eqn:Hadm.
  - apply admits_accept; try done. intros Hmode. unfold admission in Hadm. rewrite (Hload Hmode) in Hadm.
    destruct (pl_run_mode _); simpl; try done; repeat case_match; try discriminate;
      try (by apply Nat.eqb_eq); by apply N.ltb_lt.
  - intros pass' [= Heq]. by apply Hstay in Heq.
  - apply wp_sc_call. split.
    + exists version, o. rewrite Ha, Hp. split_and!; [done..|]. simpl.
      assert (Hmode : pl_run_mode (sv_plan (aav_version version)) <> Mode_Restart)
        by (intros Hmode; unfold admission in Hadm; by rewrite Hmode in Hadm).
      split_and!; [done..|]. unfold admission in Hadm. rewrite (Hload Hmode) in Hadm.
      change (occurrence_key (with_occurrence_state o Occ_Suppressed)) with (occurrence_key o).
      destruct (pl_run_mode _); simpl; try done; repeat case_match; try discriminate;
        repeat match goal with
        | H : (_ =? _) = false |- _ => apply Nat.eqb_neq in H
        | H : N.ltb _ _ = false |- _ => apply N.ltb_ge in H
        end; lia.
    + intros [[]|error] _; cbn [wp admission_gives]; rewrite bool_decide_eq_false_2 by done; [|done].
      intros pass' [= Heq]. by apply Hstay in Heq.
Qed.

Lemma admits_occurrences timers occurrences pass t :
  ok t pass -> (forall o, o ∈ occurrences -> o ∈ page) ->
  admits (process_occurrences active timers now occurrences pass) t (fun _ _ => True).
Proof.
  revert pass t. induction occurrences as [|o occurrences IH]; intros pass t Hok Hin;
    cbn [process_occurrences]; [done|].
  apply wp_try. eapply wp_mono; [apply admits_occurrence; [done|]|].
  - apply Hin. by left.
  - intros [pass'|error] t' Hr; [|done]. apply IH; [by apply Hr|]. intros o' Ho'. apply Hin. by right.
Qed.

End Pass.

(** ** A tick *)

Lemma admits_timers timers now result_ t : admits (ready_timers timers now result_) t (fun _ t' => t' = t).
Proof.
  revert result_ t. induction timers as [|timer timers IH]; intros result_ t; cbn [ready_timers]; [done|].
  case_match.
  - apply wp_sc_call. split; [done|]. intros [[]|error] _; cbn [wp admission_gives]; [|done].
    apply wp_try. eapply wp_mono; [apply IH|]. by intros [?|?] t' ->.
  - apply wp_try. eapply wp_mono; [apply IH|]. by intros [?|?] t' ->.
Qed.

Lemma admits_create_all occurrences result_ t :
  admits (create_occurrences occurrences result_) t (fun _ t' => t' = t).
Proof.
  revert result_ t. induction occurrences as [|o occurrences IH]; intros result_ t;
    cbn [create_occurrences]; [done|].
  apply wp_sc_call. split; [done|]. intros [[]|error] _; cbn [wp admission_gives]; [|done]. apply IH.
Qed.

Lemma admits_triggers active triggers from through result_ t :
  admits (materialize_triggers active triggers from through result_) t (fun _ t' => t' = t).
Proof.
  revert result_ t. induction triggers as [|trigger triggers IH]; intros result_ t;
    cbn [materialize_triggers]; [done|].
  destruct trigger; try apply IH. case_match; [|done]. apply wp_try.
  eapply wp_mono; [apply admits_create_all|]. intros [?|?] t' ->; [|done]. apply IH.
Qed.

Lemma admits_materialize active from through result_ t :
  admits (materialize active from through result_) t (fun _ t' => t' = t).
Proof.
  revert result_ t. induction active as [|version active IH]; intros result_ t; cbn [materialize]; [done|].
  apply wp_try. eapply wp_mono; [apply admits_triggers|]. intros [?|?] t' ->; [|done]. apply IH.
Qed.

(** What a pass starts with. *)
Lemma ok_start active now recovery tick :
  pass_ok active now (rcv_occurrences recovery)
    (mk_admissions active now (rcv_occurrences recovery) (rcv_runs recovery) [] [] [] [])
    (mk_pass (rcv_runs recovery) (active_counts (rcv_runs recovery)) ∅ tick).
Proof.
  split; try done; simpl.
  - intros o version _ _. unfold active_counts. rewrite count_of_active_from. unfold load. simpl. done.
  - intros run Hrun Hlive. unfold k_runs in Hrun. simpl in Hrun. rewrite app_nil_r in Hrun. by left.
  - intros run Hrun. left. unfold k_runs. simpl. rewrite app_nil_r.
    apply list_elem_of_In, in_map. by apply list_elem_of_In.
Qed.

Lemma admits_tick from through t : admits (tick from through) t (fun _ _ => True).
Proof.
  unfold tick. apply wp_sc_call. split; [done|]. intros [active|error] _; cbn [wp admission_gives]; [|done].
  apply wp_try. eapply wp_mono; [apply admits_materialize|]. intros [result_|error] t' ->; [|done].
  unfold process_recovery. split; [done|]. intros now _. cbn [admission_gives k_active].
  apply wp_sc_call. split; [done|]. intros [recovery|error] _; cbn [wp admission_gives k_active k_now]; [|done].
  apply wp_try. eapply wp_mono; [apply admits_timers|]. intros [readied|error] t' ->; [|done].
  apply wp_try. eapply wp_mono;
    [apply (admits_occurrences active now (rcv_occurrences recovery)); [apply ok_start|done]|]. by intros [pass|error] t'.
Qed.

End Admission.

(** C37: whatever its operations answer, a tick moves an occurrence only from
    scheduled, off the page it read, and the way its version's run mode calls for:
    it is accepted only while it is due and the live runs and the occurrences
    accepted before it leave room, for restart only after every live run of the
    version was cancelled; suppressed only when they leave none; skipped only
    behind its window. It starts only the new run of an accepted occurrence. *)
Theorem admission_respects_mode `{Uuids} `{Chrono} `{Calendar} `{CronInstants} from through t :
  wp admission_needs admission_gives admission_assumes (tick from through) t (fun _ _ => True).
Proof. apply admits_tick. Qed.

(** ** The scheduler alone on a database *)

(** The answer of a transaction, and the database it leaves. *)
Definition sc_write (r : result AutomationDb StorageError) (db : AutomationDb) :
  result unit BoxError * AutomationDb :=
  match r with Ok db => (Ok tt, db) | Err error => (Err (Be_Storage error), db) end.

(** Every operation is a transaction of the database, at a fixed time. *)
Definition sc_exec `{Uuids} (now : Instant) (op : ScOp) : AutomationDb -> sc_resp op * AutomationDb :=
  match op return AutomationDb -> sc_resp op * AutomationDb with
  | Sc_active_automation_versions limit => fun db => (Ok (load_active_versions db limit), db)
  | Sc_create_automation_occurrence o => fun db => sc_write (create_occurrence db o) db
  | Sc_automation_occurrence id => fun db => (Ok (ad_occurrences db !! id), db)
  | Sc_transition_automation_occurrence o => fun db => sc_write (transition_occurrence db o) db
  | Sc_recoverable_automation_work limit => fun db => (Ok (recover db limit), db)
  | Sc_transition_automation_timer timer => fun db => sc_write (transition_timer db timer) db
  | Sc_automation_trace run_id after limit => fun db => (map_err Be_Storage (load_trace db run_id after limit), db)
  | Sc_commit_automation_step write => fun db => sc_write (commit_step db write) db
  | Sc_automation_run id => fun db => (Ok (ad_runs db !! id), db)
  | Sc_create_automation_run run => fun db => sc_write (AutomationStore.create_run db run) db
  | Sc_now => fun db => (now, db)
  end.

(** The live runs of a version. *)
Definition live_runs (db : AutomationDb) (key : AutomationId * N) : list AutomationRun :=
  List.filter (fun run => negb (AutomationRunState.is_terminal (ru_state run)) && bool_decide (run_key run = key))
    (map snd (map_to_list (ad_runs db))).

(** *** A crash between the acceptance of an occurrence and the start of its run *)

#[local] Existing Instance ranged_chrono.

Definition later_occurrence : AutomationOccurrence :=
  mk_occurrence "later" "auto" 1%N (now0 + 1)%Z chrono_max Occ_Scheduled (Some 4%N) "correlation" None None.

Definition crashed_script : result AutomationDb StorageError :=
  let? db := gate_ready in create_occurrence db later_occurrence.

Definition crashed_db : AutomationDb := match crashed_script with Ok db => db | Err _ => empty_adb end.

Lemma crashed_db_reachable : adb_reachable crashed_db.
Proof.
  assert (Hok : is_ok crashed_script = true) by (vm_compute; reflexivity).
  unfold crashed_db. destruct crashed_script as [db|] eqn:E; [|discriminate]. clear Hok.
  unfold crashed_script in E. apply result_bind_ok in E as (db1 & Hready & Hlater).
  eapply rtc_r; [|by eapply Tx_create_occurrence]. by apply gate_ready_reachable.
Qed.

Definition recovered : result AutomationSchedulerTick AutomationSchedulerError * AutomationDb :=
  Effects.run (sc_exec (now0 + 2)) (tick now0 (now0 + 2)) crashed_db.

(** The counts of a pass leave out an accepted occurrence whose run was never
    started: after a crash between the two transactions, one tick of the scheduler
    alone, which succeeds, leaves two live runs of a version in single mode. *)
Theorem orphan_breaks_single :
  adb_reachable crashed_db
  /\ (exists version, load_active_versions crashed_db RECOVERY_PAGE = [version]
      /\ pl_run_mode (sv_plan (aav_version version)) = Mode_Single)
  /\ live_runs crashed_db ("auto", 1%N) = []
  /\ (exists tick, recovered.1 = Ok tick)
  /\ length (live_runs recovered.2 ("auto"%string, 1%N)) = 2.
Proof.
  split; [exact crashed_db_reachable|]. split; [|split; [|split]].
  - eexists. split; [vm_compute; reflexivity|]. vm_compute. reflexivity.
  - vm_compute. reflexivity.
  - assert (Hok : is_ok recovered.1 = true) by (vm_compute; reflexivity).
    destruct recovered.1 as [tick|]; [by exists tick|discriminate].
  - vm_compute. reflexivity.
Qed.
