(* ===== verification/AutomationLifecycleProps.v ===== *)
(** What the authoring boundary of automations promises: every write of a call
    rests on rows of its actor and on the evidence the call has read, and what
    the promise leaves open. *)

From S2P Require Import Prelude Text BTree Json Capability Lifecycle Device Command CommandStore CommandFixture MatterOperation Effects CommandService Automation Identity AutomationStore AutomationInvariant AutomationCompiler AutomationFixture AutomationEvaluator AutomationRuntime AutomationSimulator AutomationSimulatorProps AutomationScheduler AutomationSchedulerProps AutomationAdmission AutomationEngine AutomationLifecycle.

Import AutomationLifecycle.

(** ** What a call has read *)

Definition owned (actor : Actor) (document : AutomationDocument) : Prop :=
  pv_author_id (do_provenance document) = ac_id actor.

(** The answer of a read, filed under what was asked for. *)
Definition filed {K A : Type} (key : K) (answer : result (option A) BoxError) (rows : list (K * A)) :
  list (K * A) :=
  match answer with Ok (Some row) => (key, row) :: rows | _ => rows end.

Section Authority.
Context `{SerdeJson} `{Uuids} `{Chrono} `{Calendar} `{CronInstants} `{Sha256} `{AutomationEncoding}
  `{TraceEncoding} `{InputEncoding}.

Record Evidence := mk_evidence {
  e_drafts : list (AutomationId * AutomationDraft);
  e_versions : list ((AutomationId * N) * StoredAutomationVersion);
  e_pages : list (AutomationId * list StoredAutomationVersion);
  e_snapshots : list FoundationSnapshot;
  e_identities : list (AutomationId * AutomationIdentityState);
  e_runs : list (AutomationRunId * AutomationRun);
  e_approvals : list AutomationApprovalRecord;
  e_moved : list StoredAutomationVersion
}.

Definition lc_gives (op : LcOp) : lc_resp op -> Evidence -> Evidence :=
  match op return lc_resp op -> Evidence -> Evidence with
  | Lc_automation_draft id => fun r t =>
      mk_evidence (filed id r (e_drafts t)) (e_versions t) (e_pages t) (e_snapshots t) (e_identities t)
        (e_runs t) (e_approvals t) (e_moved t)
  | Lc_automation_version id number => fun r t =>
      mk_evidence (e_drafts t) (filed (id, number) r (e_versions t)) (e_pages t) (e_snapshots t)
        (e_identities t) (e_runs t) (e_approvals t) (e_moved t)
  | Lc_automation_versions id _ => fun r t =>
      mk_evidence (e_drafts t) (e_versions t) (match r with Ok rows => (id, rows) :: e_pages t | _ => e_pages t end)
        (e_snapshots t) (e_identities t) (e_runs t) (e_approvals t) (e_moved t)
  | Lc_load => fun r t =>
      mk_evidence (e_drafts t) (e_versions t) (e_pages t)
        (match r with Ok snapshot => snapshot :: e_snapshots t | _ => e_snapshots t end)
        (e_identities t) (e_runs t) (e_approvals t) (e_moved t)
  | Lc_automation_identity id => fun r t =>
      mk_evidence (e_drafts t) (e_versions t) (e_pages t) (e_snapshots t) (filed id r (e_identities t))
        (e_runs t) (e_approvals t) (e_moved t)
  | Lc_automation_run id => fun r t =>
      mk_evidence (e_drafts t) (e_versions t) (e_pages t) (e_snapshots t) (e_identities t)
        (filed id r (e_runs t)) (e_approvals t) (e_moved t)
  | Lc_append_automation_approval approval => fun r t =>
      mk_evidence (e_drafts t) (e_versions t) (e_pages t) (e_snapshots t) (e_identities t) (e_runs t)
        (match r with Ok _ => approval :: e_approvals t | _ => e_approvals t end) (e_moved t)
  | Lc_transition_automation_version version _ => fun r t =>
      mk_evidence (e_drafts t) (e_versions t) (e_pages t) (e_snapshots t) (e_identities t) (e_runs t)
        (e_approvals t) (match r with Ok _ => version :: e_moved t | _ => e_moved t end)
  | _ => fun _ t => t
  end.

(** ** What a write needs *)

(** A version the actor wrote, in a state. *)
Definition owns_version (actor : Actor) (t : Evidence) (key : AutomationId * N)
  (stored : StoredAutomationVersion) : Prop :=
  (key, stored) ∈ e_versions t /\ owned actor (sv_document stored).

(** The automation is the actor's by its active version, or else by its draft. *)
Definition owns_identity (actor : Actor) (t : Evidence) (id : AutomationId)
  (identity : AutomationIdentityState) : Prop :=
  match id_active_version identity with
  | Some number => exists stored, owns_version actor t (id, number) stored
  | None => exists draft, (id, draft) ∈ e_drafts t /\ owned actor (dft_document draft)
  end.

(** The three moves of a version: with the result of a simulation of its plan,
    onwards after one that succeeded, and by an approval of the same hashes. *)
Definition may_move (actor : Actor) (t : Evidence) (version : StoredAutomationVersion)
  (expected : AutomationVersionState) : Prop :=
  exists key stored, owns_version actor t key stored /\
  ((expected = Vs_Validated /\ sv_state stored = Vs_Validated
    /\ exists fixture result_ now, sf_plan fixture = sv_plan stored
       /\ AutomationSimulator.simulate fixture = Some (Ok result_)
       /\ version = simulated_version stored result_ now)
   \/ (expected = Vs_Simulated /\ exists result_ now,
       simulated_version stored result_ now ∈ e_moved t /\ sr_status result_ = Sim_Completed
       /\ version = with_version_state (simulated_version stored result_ now)
                      (after_simulation (pl_approval (sv_plan stored))))
   \/ (expected = Vs_AwaitingApproval /\ sv_state stored = Vs_AwaitingApproval
       /\ exists approval, approval ∈ e_approvals t
          /\ version = with_version_state stored
               (if bool_decide (apv_state approval = Ap_Approved) then Vs_Ready else Vs_Rejected)
          /\ (apv_automation_id approval, apv_version approval) = key
          /\ apv_document_hash approval = pl_document_hash (sv_plan stored)
          /\ apv_plan_hash approval = pl_plan_hash (sv_plan stored)
          /\ apv_actor_id approval = ac_id actor)).

Definition lc_needs (actor : Actor) (op : LcOp) (t : Evidence) : Prop :=
  match op with
  | Lc_store_automation_draft draft expected =>
      owned actor (dft_document draft) /\ dft_actor_id draft = ac_id actor
      /\ dft_automation_id draft = do_id (dft_document draft)
      /\ dft_revision draft = match expected with Some r => u64_saturating_add r 1 | None => 0%N end
  | Lc_store_automation_version version => exists id draft snapshot plan now,
      (id, draft) ∈ e_drafts t /\ owned actor (dft_document draft) /\ snapshot ∈ e_snapshots t
      /\ compile (dft_document draft) snapshot = Ok plan
      /\ version = validated_version (dft_document draft) plan now
  | Lc_transition_automation_version version expected => may_move actor t version expected
  | Lc_append_automation_approval approval => exists stored,
      owns_version actor t (apv_automation_id approval, apv_version approval) stored
      /\ sv_state stored = Vs_AwaitingApproval /\ apv_actor_id approval = ac_id actor
      /\ apv_document_hash approval = pl_document_hash (sv_plan stored)
      /\ apv_plan_hash approval = pl_plan_hash (sv_plan stored)
  | Lc_activate_automation activation => exists stored,
      owns_version actor t (atv_automation_id activation, atv_version activation) stored
      /\ sv_state stored = Vs_Ready
      /\ atv_document_hash activation = pl_document_hash (sv_plan stored)
      /\ atv_plan_hash activation = pl_plan_hash (sv_plan stored)
      /\ atv_registry_revision activation = pl_registry_revision (sv_plan stored)
  | Lc_transition_automation_identity next expected => exists id old,
      (id, old) ∈ e_identities t /\ owns_identity actor t id old
      /\ id_id next = id_id old /\ id_active_version next = id_active_version old
      /\ id_revision old = expected /\ id_revision next = u64_saturating_add expected 1
      /\ AutomationOperationalState.allows_transition_to (id_state old) (id_state next) = true
  | Lc_commit_automation_step write => exists run_id run stored,
      (run_id, run) ∈ e_runs t /\ owns_version actor t (ru_automation_id run, ru_version run) stored
      /\ AutomationRunState.is_terminal (ru_state run) = false
      /\ ru_state (sw_run write) = Run_Cancelled /\ ru_id (sw_run write) = ru_id run
      /\ sw_expected_run_revision write = ru_revision run
      /\ Forall (fun row => tt_run_id row = run_id) (sw_trace write) /\ sw_create_timers write = []
      /\ Forall (fun timer => tm_run_id timer = run_id /\ tm_state timer = Tm_Cancelled)
           (sw_transition_timers write)
  | Lc_scheduler _ => exists id page,
      (id, page) ∈ e_pages t /\ page <> [] /\ Forall (fun stored => owned actor (sv_document stored)) page
  | _ => True
  end.

(** ** The calls *)

Abbreviation LcProg A := (Prog lc_resp (result A AutomationLifecycleError)).
Abbreviation authorised actor := (wp (lc_needs actor) lc_gives (fun _ _ _ => True)).

Lemma wp_repository actor {A B} (m : Prog lc_resp (result A BoxError)) (f : A -> LcProg B) t Q :
  authorised actor m t (fun r t =>
    match r with
    | Ok a => authorised actor (f a) t Q
    | Err error => Q (Err (Ale_Repository error)) t
    end) ->
  authorised actor (try_bind (lc_repository m) f) t Q.
Proof.
  intros Hm. unfold lc_repository, lc_call. apply wp_try, wp_bind.
  eapply wp_mono; [exact Hm|]. by intros [a|error] t'.
Qed.

Lemma ensure_owner_owned actor document u : ensure_owner actor document = Ok u -> owned actor document.
Proof. unfold ensure_owner, owned. intros Hop. case_match; [by apply String.eqb_eq|discriminate]. Qed.

Lemma wp_wake actor {B} (f : unit -> LcProg B) t (Q : result B AutomationLifecycleError -> Evidence -> Prop) :
  (forall u, authorised actor (f u) t Q) -> (forall error t, Q (Err error) t) ->
  authorised actor (try_bind wake_events f) t Q.
Proof.
  intros Hf HQ. unfold wake_events, lc_call. apply wp_try. split; [done|]. intros [u|error] _; simpl; auto.
Qed.

(** A call whose errors promise nothing. *)
Definition succeeds {A : Type} (Q : A -> Evidence -> Prop) (r : result A AutomationLifecycleError)
  (t : Evidence) : Prop :=
  match r with Ok a => Q a t | Err _ => True end.

Lemma authorised_version actor id number t :
  authorised actor (version actor id number) t (succeeds (fun stored t' =>
    t' = mk_evidence (e_drafts t) (((id, number), stored) :: e_versions t) (e_pages t) (e_snapshots t)
           (e_identities t) (e_runs t) (e_approvals t) (e_moved t)
    /\ owned actor (sv_document stored))).
Proof.
  unfold version. apply wp_repository. split; [done|]. intros [[stored|]|error] _; cbn [wp lc_gives]; [|done..].
  simpl. destruct (ensure_owner actor (sv_document stored)) as [u|] eqn:Hown; simpl; [|done].
  split; [done|]. by eapply ensure_owner_owned.
Qed.

Lemma authorised_draft actor id t :
  authorised actor (draft actor id) t (succeeds (fun found t' =>
    t' = mk_evidence ((id, found) :: e_drafts t) (e_versions t) (e_pages t) (e_snapshots t)
           (e_identities t) (e_runs t) (e_approvals t) (e_moved t)
    /\ owned actor (dft_document found))).
Proof.
  unfold draft. apply wp_repository. split; [done|]. intros [[found|]|error] _; cbn [wp lc_gives]; [|done..].
  simpl. destruct (ensure_owner actor (dft_document found)) as [u|] eqn:Hown; simpl; [|done].
  split; [done|]. by eapply ensure_owner_owned.
Qed.

Lemma authorised_put_draft actor document expected t :
  authorised actor (put_draft actor document expected) t (fun _ _ => True).
Proof.
  unfold put_draft. destruct (ensure_owner actor document) as [u|] eqn:Hown; simpl; [|done].
  split; [done|]. intros now _. split.
  - split_and!; [by eapply ensure_owner_owned|done..].
  - by intros [u'|error] _.
Qed.

Lemma authorised_create_draft actor input t :
  authorised actor (create_draft actor input) t (fun _ _ => True).
Proof.
  unfold create_draft. split; [done|]. intros now _. split; [done|]. intros id _. apply authorised_put_draft.
Qed.

Lemma authorised_validate actor id t : authorised actor (validate actor id) t (fun _ _ => True).
Proof.
  unfold validate. apply wp_try. eapply wp_mono; [apply authorised_draft|].
  intros [found|error] t'; [|done]. intros [-> Hown].
  unfold lc_call. apply wp_try. split; [done|]. intros [snapshot|error] _; simpl; [|done].
  destruct (compile _ _) as [plan|] eqn:Hplan; [|done]. split; [done|]. intros now _.
  apply wp_repository. split.
  - exists id, found, snapshot, plan, now. split_and!; try done; by left.
  - intros [u|error] _; cbn [wp lc_gives]; [|done]. by apply wp_wake.
Qed.

Lemma run_simulation_ok fixture result_ :
  run_simulation fixture = Ok result_ -> AutomationSimulator.simulate fixture = Some (Ok result_).
Proof. unfold run_simulation. intros Hrun. case_match; by simplify_eq. Qed.

Lemma authorised_simulate actor id number input t :
  authorised actor (simulate actor id number input) t (fun _ _ => True).
Proof.
  unfold simulate. apply wp_try. eapply wp_mono; [apply authorised_version|].
  intros [stored|error] t'; [|done]. intros [-> Hown]. case_bool_decide as Hst; [|done]. cbn [wp].
  destruct (canonical_automation_hash _) as [input_hash|]; [|done].
  destruct (run_simulation _) as [result_|] eqn:Hrun; [|done]. apply run_simulation_ok in Hrun.
  split; [done|]. intros now _. cbv zeta.
  apply wp_repository. split.
  { exists (id, number), stored. split; [split; [by left|done]|]. left. split_and!; [done..|].
    eexists _, result_, now. split; [|split; [exact Hrun|done]]. done. }
  intros [u|error] _; cbn [wp lc_gives]; [|done]. apply wp_try.
  case_bool_decide as Hcompleted.
  - apply wp_repository. split.
    { exists (id, number), stored. split; [split; [by left|done]|]. right. left. split; [done|].
      exists result_, now. split_and!; [by left|done..]. }
    intros [u'|error] _; cbn [wp lc_gives]; [|done]. by apply wp_wake.
  - cbn [wp]. by apply wp_wake.
Qed.

Lemma authorised_decide actor id number approved rationale t :
  authorised actor (decide actor id number approved rationale) t (fun _ _ => True).
Proof.
  unfold decide. apply wp_try. eapply wp_mono; [apply authorised_version|].
  intros [stored|error] t'; [|done]. intros [-> Hown]. case_bool_decide as Hst; [|done]. cbn [wp].
  split; [done|]. intros approval_id _. split; [done|]. intros now _. cbv zeta.
  apply wp_repository. split; [exists stored; split_and!; try done; split; [by left|done]|].
  intros [u|error] _; cbn [wp lc_gives]; [|done].
  apply wp_repository. split.
  { exists (id, number), stored. split; [split; [by left|done]|]. right. right. split_and!; [done..|].
    eexists. split; [by left|]. simpl. split_and!; try done. by destruct approved. }
  intros [u'|error] _; cbn [wp lc_gives]; [|done]. by apply wp_wake.
Qed.

Lemma authorised_activate actor id number expected t :
  authorised actor (activate actor id number expected) t (fun _ _ => True).
Proof.
  unfold activate. apply wp_try. eapply wp_mono; [apply authorised_version|].
  intros [stored|error] t'; [|done]. intros [-> Hown]. case_bool_decide as Hst; [|done]. cbn [wp].
  split; [done|]. intros now _.
  apply wp_repository. split; [exists stored; split_and!; try done; split; [by left|done]|].
  intros [identity|error] _; cbn [wp lc_gives]; [|done]. by apply wp_wake.
Qed.

(** Evidence only grows. *)
Lemma authorised_identity_owner actor identity id t :
  authorised actor (ensure_identity_owner actor identity id) t (succeeds (fun _ t' =>
    owns_identity actor t' id identity /\ e_identities t' = e_identities t)).
Proof.
  unfold ensure_identity_owner, owns_identity. destruct (id_active_version identity) as [number|].
  - apply wp_try. eapply wp_mono; [apply authorised_version|]. intros [stored|error] t'; [|done].
    intros [-> Hown]. split; [|done]. exists stored. split; [by left|done].
  - apply wp_try. eapply wp_mono; [apply authorised_draft|]. intros [found|error] t'; [|done].
    intros [-> Hown]. split; [|done]. exists found. split; [by left|done].
Qed.

Lemma authorised_transition actor id expected state t :
  authorised actor (transition_operational actor id expected state) t (fun _ _ => True).
Proof.
  unfold transition_operational. apply wp_repository. split; [done|].
  intros [[old|]|error] _; cbn [wp lc_gives lc_or]; [|done..].
  apply wp_try. eapply wp_mono; [apply authorised_identity_owner|].
  intros [u|error] t'; [|done]. simpl. intros [Howns Hid]. destruct (_ && _) eqn:Hguard; [|done].
  bool_inv. cbn [wp]. split; [done|]. intros now _. apply wp_repository. split.
  - exists id, old. split_and!; simpl; try done; [|congruence]. rewrite Hid. by left.
  - intros [moved|error] _; cbn [wp lc_gives]; [|done]. by apply wp_wake.
Qed.

Lemma authorised_scheduler actor {A} (m : Prog AutomationScheduler.sc_resp A) t :
  (exists id page, (id, page) ∈ e_pages t /\ page <> []
     /\ Forall (fun stored => owned actor (sv_document stored)) page) ->
  authorised actor (lc_scheduler m) t (fun _ t' => t' = t).
Proof. intros Hpage. induction m as [a|op k IH]; simpl; [done|]. split; [done|]. intros r _. apply IH. Qed.

Lemma authorised_versions actor id limit t :
  authorised actor (versions actor id limit) t (succeeds (fun found t' =>
    (id, found) ∈ e_pages t' /\ Forall (fun stored => owned actor (sv_document stored)) found)).
Proof.
  unfold versions. apply wp_repository. split; [done|]. intros [found|error] _; cbn [wp lc_gives]; [|done].
  destruct (existsb _ _) eqn:Hall; [done|]. split; [by left|]. apply List.Forall_forall. intros stored Hin.
  unfold owned. apply String.eqb_eq. destruct (String.eqb _ _) eqn:Heq; [done|].
  apply not_true_iff_false in Hall. exfalso. apply Hall, existsb_exists. exists stored. by rewrite Heq.
Qed.

Lemma authorised_catch_up actor id scheduled_for key t :
  authorised actor (catch_up actor id scheduled_for key) t (fun _ _ => True).
Proof.
  unfold catch_up. apply wp_try. eapply wp_mono; [apply authorised_versions|].
  intros [found|error] t'; [|done]. simpl. intros [Hin Howned]. destruct found as [|stored found]; [done|].
  unfold lc_call. apply wp_try, wp_bind. eapply wp_mono; [apply authorised_scheduler; eauto 10|].
  intros [occurrence|error] t2 ->; cbn [wp map_err]; [|done]. by apply wp_wake.
Qed.

Lemma authorised_run actor id t :
  authorised actor (run actor id) t (succeeds (fun found t' =>
    (id, found) ∈ e_runs t'
    /\ exists stored, owns_version actor t' (ru_automation_id found, ru_version found) stored)).
Proof.
  unfold run. apply wp_repository. split; [done|]. intros [[found|]|error] _; cbn [wp lc_gives lc_or]; [|done..].
  apply wp_try. eapply wp_mono; [apply authorised_version|]. intros [stored|error] t'; [|done].
  intros [-> Hown]. split; [by left|]. exists stored. split; [by left|done].
Qed.

Lemma authorised_sequence actor fuel id after t :
  authorised actor (next_trace_sequence fuel id after) t (fun _ t' => t' = t).
Proof.
  revert after. induction fuel as [|fuel IH]; intros after; cbn [next_trace_sequence]; [done|].
  split; [done|]. intros [page|error] _; cbn [bind map_err wp lc_gives]; [|done].
  destruct (last page); [|done]. case_match; [done|]. apply IH.
Qed.

Lemma authorised_cancel actor fuel id t :
  authorised actor (cancel_run fuel actor id) t (fun _ _ => True).
Proof.
  unfold cancel_run. apply wp_bind. eapply wp_mono; [apply authorised_run|].
  intros [found|error] t'; [|done]. simpl. intros [Hin [stored Hown]].
  destruct (AutomationRunState.is_terminal _) eqn:Hterm; [done|].
  split; [done|]. intros [recovery|error] _; cbn [bind map_err wp lc_gives]; [|done].
  apply wp_bind. eapply wp_mono; [apply authorised_sequence|].
  intros [[sequence|error]|] t2 ->; [|done..]. split; [done|]. intros now _. split; [done|].
  intros occurred_at _. split.
  - exists id, found, stored. split_and!; simpl; try done.
    + by repeat constructor.
    + apply List.Forall_forall. intros timer Htimer. apply in_map_iff in Htimer as (open & <- & Hopen).
      apply filter_In in Hopen as [_ Hopen]. bool_inv. done.
  - intros [u|error] _; [|done]. split; [done|]. by intros [?|?].
Qed.

(** The calls of the boundary that write. *)
Inductive LifecycleCall :=
| Call_create_draft (input : AutomationDraftCreateInput)
| Call_put_draft (document : AutomationDocument) (expected_revision : option N)
| Call_validate (id : AutomationId)
| Call_simulate (id : AutomationId) (number : AutomationVersion) (input : AutomationSimulationInput)
| Call_decide (id : AutomationId) (number : AutomationVersion) (approved : bool) (rationale : option string)
| Call_activate (id : AutomationId) (number : AutomationVersion) (expected_revision : N)
| Call_rollback (id : AutomationId) (number : AutomationVersion) (expected_revision : N)
| Call_disable (id : AutomationId) (expected_revision : N)
| Call_retire (id : AutomationId) (expected_revision : N)
| Call_catch_up (id : AutomationId) (scheduled_for : Instant) (key : IdempotencyKey)
| Call_cancel_run (fuel : nat) (id : AutomationRunId).

Definition forget {A : Type} (m : LcProg A) : LcProg unit := try! _ := m in Ret (Ok tt).

Definition perform_call (actor : Actor) (call : LifecycleCall) : LcProg unit :=
  match call with
  | Call_create_draft input => forget (create_draft actor input)
  | Call_put_draft document expected => forget (put_draft actor document expected)
  | Call_validate id => forget (validate actor id)
  | Call_simulate id number input => forget (simulate actor id number input)
  | Call_decide id number approved rationale => forget (decide actor id number approved rationale)
  | Call_activate id number expected => forget (activate actor id number expected)
  | Call_rollback id number expected => forget (rollback actor id number expected)
  | Call_disable id expected => forget (disable actor id expected)
  | Call_retire id expected => forget (retire actor id expected)
  | Call_catch_up id scheduled_for key => forget (catch_up actor id scheduled_for key)
  | Call_cancel_run fuel id => let! _ := cancel_run fuel actor id in Ret (Ok tt)
  end.

Lemma authorised_forget actor {A} (m : LcProg A) t :
  authorised actor m t (fun _ _ => True) -> authorised actor (forget m) t (fun _ _ => True).
Proof. intros Hm. apply wp_try. eapply wp_mono; [exact Hm|]. by intros [a|error] t'. Qed.

Lemma authorised_call actor call t : authorised actor (perform_call actor call) t (fun _ _ => True).
Proof.
  destruct call; cbn [perform_call]; try apply authorised_forget;
    auto using authorised_create_draft, authorised_put_draft, authorised_validate, authorised_simulate,
      authorised_decide, authorised_activate, authorised_transition, authorised_catch_up.
  - apply authorised_transition.
  - apply authorised_transition.
  - apply wp_bind. by eapply wp_mono; [apply authorised_cancel|].
Qed.

End Authority.

(** C38: whatever its operations answer, a call of an actor writes only what its
    rows carry: drafts in its own name, the compilation of its draft, the moves of
    its versions with a simulation of their plan or an approval of their hashes,
    the activation of its ready version with the hashes of its plan, the state of
    an automation whose active version, or else whose draft, is its own, the
    cancellation of a live run of its version, and a catch-up only behind a version
    of its own. *)
Theorem lifecycle_authorised `{SerdeJson} `{Uuids} `{Chrono} `{Calendar} `{CronInstants} `{Sha256}
  `{AutomationEncoding} `{TraceEncoding} `{InputEncoding} actor call t :
  wp (lc_needs actor) lc_gives (fun _ _ _ => True) (perform_call actor call) t (fun _ _ => True).
Proof. apply authorised_call. Qed.

(** ** The boundary alone on a database *)

Section World.
Context `{SerdeJson} `{Uuids} `{Sha256} `{AutomationEncoding}.

Definition lc_write (r : result AutomationDb StorageError) (db : AutomationDb) :
  result unit BoxError * AutomationDb :=
  match r with Ok db => (Ok tt, db) | Err error => (Err (Be_Storage error), db) end.

Definition lc_update {A : Type} (r : result (AutomationDb * A) StorageError) (db : AutomationDb) :
  result A BoxError * AutomationDb :=
  match r with Ok (db, a) => (Ok a, db) | Err error => (Err (Be_Storage error), db) end.

(** Every operation is a transaction of the database, over one registry, at a
    fixed time. *)
Definition lc_exec (snapshot : FoundationSnapshot) (now : Instant) (op : LcOp) :
  AutomationDb -> lc_resp op * AutomationDb :=
  match op return AutomationDb -> lc_resp op * AutomationDb with
  | Lc_store_automation_draft draft expected => fun db => lc_write (store_draft db draft expected) db
  | Lc_automation_draft id => fun db => (Ok (ad_drafts db !! id), db)
  | Lc_automation_drafts limit => fun db => (Ok (automation_drafts db limit), db)
  | Lc_load => fun db => (Ok snapshot, db)
  | Lc_store_automation_version version => fun db => lc_write (store_version db version) db
  | Lc_automation_version id number => fun db => (map_err Be_Storage (load_version db id number), db)
  | Lc_automation_versions id limit => fun db => (Ok (automation_versions db id limit), db)
  | Lc_transition_automation_version version expected => fun db =>
      lc_write (transition_version db version expected) db
  | Lc_automation_identity id => fun db => (Ok (ad_identities db !! id), db)
  | Lc_automation_identities limit => fun db => (Ok (automation_identities db limit), db)
  | Lc_automation_run id => fun db => (Ok (ad_runs db !! id), db)
  | Lc_automation_runs id limit => fun db => (Ok (automation_runs db id limit), db)
  | Lc_automation_trace id after limit => fun db => (map_err Be_Storage (load_trace db id after limit), db)
  | Lc_append_automation_approval approval => fun db => lc_write (append_approval db approval) db
  | Lc_activate_automation activation => fun db => lc_update (AutomationStore.activate db activation) db
  | Lc_transition_automation_identity identity expected => fun db =>
      lc_update (transition_identity db identity expected) db
  | Lc_recoverable_automation_work limit => fun db => (Ok (recover db limit), db)
  | Lc_commit_automation_step write => fun db => lc_write (commit_step db write) db
  | Lc_scheduler op => sc_exec now op
  | Lc_wake => fun db => (Ok tt, db)
  | Lc_now => fun db => (now, db)
  | Lc_random => fun db => ("random-" +:+ show_N (N.of_nat (size (ad_approvals db))), db)
  end.
End World.

(** ** An actor takes an automation over *)

(** The author of the version an automation runs. *)
Definition active_author (db : AutomationDb) (id : AutomationId) : option ActorId :=
  identity ← ad_identities db !! id;
  number ← id_active_version identity;
  stored ← ad_versions db !! (id, number);
  Some (pv_author_id (do_provenance (sv_document stored))).

(** From a draft to the active version; the approval is the author's own. *)
Definition publish (document : AutomationDocument) (approval : AutomationApprovalRequirement)
  (input : AutomationSimulationInput) (draft_revision : option N) (identity_revision : N) :
  list LifecycleCall :=
  let id := do_id document in
  let number := do_version document in
  [Call_put_draft document draft_revision; Call_validate id; Call_simulate id number input]
  ++ match approval with
     | Apr_ExplicitUserApproval => [Call_decide id number true None]
     | Apr_ActivationGrant => []
     end
  ++ [Call_activate id number identity_revision].

Section Takeover.
Context `{SerdeJson} `{Uuids} `{Chrono} `{Calendar} `{CronInstants} `{Sha256} `{AutomationEncoding}
  `{TraceEncoding} `{InputEncoding}.
Variables (snapshot : FoundationSnapshot) (now : Instant).

(** The answers of a sequence of calls, and the database they leave. *)
Fixpoint run_calls (actor : Actor) (calls : list LifecycleCall) (db : AutomationDb) :
  list (result unit AutomationLifecycleError) * AutomationDb :=
  match calls with
  | [] => ([], db)
  | call :: calls =>
      let '(answer, db) := Effects.run (lc_exec snapshot now) (perform_call actor call) db in
      let '(answers, db) := run_calls actor calls db in
      (answer :: answers, db)
  end.

(** The revision of the draft an automation has, and of the next. *)
Definition draft_revision (db : AutomationDb) (id : AutomationId) : option N :=
  dft_revision <$> ad_drafts db !! id.
Definition next_draft_revision (db : AutomationDb) (id : AutomationId) : N :=
  match draft_revision db id with Some revision => u64_saturating_add revision 1 | None => 0%N end.

(** What a document needs to be published as a version of an automation that is
    stored: that it compiles, that its number and content are new, and that a
    simulation of it completes.  Nothing asks who the automation belongs to. *)
Record publishable (db : AutomationDb) (document : AutomationDocument) (identity : AutomationIdentityState)
  (plan : AutomationExecutionPlan) (input : AutomationSimulationInput) : Prop := {
  pb_identity : ad_identities db !! do_id document = Some identity;
  pb_id : id_id identity = do_id document;
  pb_live : id_state identity <> Op_Retired;
  pb_numbers : is_ok (to_i64 (next_draft_revision db (do_id document))) = true
    /\ is_ok (to_i64 (do_version document)) = true /\ is_ok (to_i64 (pl_registry_revision plan)) = true
    /\ is_ok (to_i64 (u64_saturating_add (id_revision identity) 1)) = true;
  pb_compiled : compile document snapshot = Ok plan;
  pb_new : version_conflict db (validated_version document plan now) = false;
  pb_simulated : exists hash result_, canonical_automation_hash (encode_input input) = Ok hash
    /\ run_simulation (simulation_fixture (do_id document) (do_version document) plan hash input) = Ok result_
    /\ sr_status result_ = Sim_Completed;
  pb_drawn : ad_approvals db !! ("random-" +:+ show_N (N.of_nat (size (ad_approvals db)))) = None
}.

#[local] Arguments store_draft : simpl never.
#[local] Arguments store_version : simpl never.
#[local] Arguments transition_version : simpl never.
#[local] Arguments append_approval : simpl never.
#[local] Arguments AutomationStore.activate : simpl never.
#[local] Arguments load_version : simpl never.
#[local] Arguments compile : simpl never.

Lemma ok_exists {A E} (r : result A E) : is_ok r = true -> exists a, r = Ok a.
Proof. destruct r; [eauto|discriminate]. Qed.

Lemma ensure_owner_ok actor document :
  owned actor document -> ensure_owner actor document = Ok tt.
Proof. unfold owned, ensure_owner. intros ->. by rewrite String.eqb_refl. Qed.

Lemma load_version_ok db id number :
  is_ok (to_i64 number) = true -> load_version db id number = Ok (ad_versions db !! (id, number)).
Proof. intros [z Hz]%ok_exists. unfold load_version. by rewrite Hz. Qed.

(** What a compilation stores is accepted, with the evidence of a simulation too. *)
Lemma compiled_valid document plan simulation state :
  compile document snapshot = Ok plan ->
  match simulation with
  | Some simulation => se_document_hash simulation = pl_document_hash plan
      /\ se_plan_hash simulation = pl_plan_hash plan
      /\ se_registry_revision simulation = pl_registry_revision plan
  | None => True
  end ->
  validate_version (mk_stored_version document plan state
    (sv_validation (validated_version document plan now)) simulation) = Ok tt.
Proof.
  unfold compile. intros Hc Hs. destruct (compile_fragments _ _ _) as [fragments self].
  destruct (negb _); [discriminate|]. apply result_bind_ok in Hc as (entry & _ & Hc).
  apply result_bind_ok in Hc as (dh & Hdh & Hc). apply result_bind_ok in Hc as (ph & Hph & [= <-]).
  destruct (canonical_automation_hash (encode_document document)) as [dh'|] eqn:Hd; simplify_eq/=.
  destruct (canonical_automation_plan_hash _) as [ph'|] eqn:Hp in Hph; simplify_eq/=.
  unfold validate_version. simpl. rewrite Hd. simpl.
  assert (Hp' : forall h, canonical_automation_plan_hash h = Ok ph -> True) by done. clear Hp'.
  match goal with |- context [canonical_automation_plan_hash ?p] =>
    assert (canonical_automation_plan_hash p = Ok ph) as -> by (rewrite <- Hp; reflexivity) end.
  simpl. rewrite !String.eqb_refl, !N.eqb_refl, !bool_decide_eq_true_2 by done. simpl.
  destruct simulation as [e|]; [|done]. destruct Hs as (-> & -> & ->).
  by rewrite N.eqb_refl, !bool_decide_eq_true_2 by done.
Qed.

Lemma run_calls_cons actor call calls db db1 answers db2 :
  Effects.run (lc_exec snapshot now) (perform_call actor call) db = (Ok tt, db1) ->
  run_calls actor calls db1 = (answers, db2) ->
  run_calls actor (call :: calls) db = (Ok tt :: answers, db2).
Proof. intros Hcall Hcalls. simpl. by rewrite Hcall, Hcalls. Qed.

(** *** The calls, one after the other *)

Section Calls.
Context (actor : Actor) (document : AutomationDocument) (plan : AutomationExecutionPlan).
Hypothesis Hown : owned actor document.
Hypothesis Hcompiled : compile document snapshot = Ok plan.

Abbreviation id := (do_id document).
Abbreviation number := (do_version document).
Abbreviation v0 := (validated_version document plan now).

Hypothesis Hnumber : is_ok (to_i64 number) = true.
Hypothesis Hregistry : is_ok (to_i64 (pl_registry_revision plan)) = true.

(** What the calls leave alone. *)
Definition rest (db db' : AutomationDb) : Prop :=
  ad_identities db' = ad_identities db /\ ad_drafts db' = ad_drafts db.

Lemma put_accepted db identity :
  ad_identities db !! id = Some identity -> is_ok (to_i64 (next_draft_revision db id)) = true ->
  exists db', Effects.run (lc_exec snapshot now) (perform_call actor (Call_put_draft document (draft_revision db id))) db
      = (Ok tt, db')
    /\ ad_drafts db' !! id = Some (mk_draft id (next_draft_revision db id) document (ac_id actor) now)
    /\ ad_identities db' = ad_identities db /\ ad_versions db' = ad_versions db
    /\ ad_approvals db' = ad_approvals db.
Proof.
  intros Hid [z Hz]%ok_exists.
  set (draft := mk_draft id (next_draft_revision db id) document (ac_id actor) now).
  assert (Hstore : store_draft db draft (draft_revision db id)
    = Ok (set_drafts db (<[id := draft]> (ad_drafts db)))).
  { unfold store_draft. simpl. rewrite String.eqb_refl. unfold ensure_identity. rewrite Hid.
    unfold draft_revision. rewrite bool_decide_eq_true_2 by done.
    unfold next_draft_revision, draft_revision in *. rewrite N.eqb_refl. simpl. by rewrite Hz. }
  eexists. split.
  { unfold perform_call, forget, put_draft. rewrite (ensure_owner_ok _ _ Hown). simpl.
    unfold next_draft_revision in draft. fold draft. by rewrite Hstore. }
  split; [apply lookup_insert_eq|done].
Qed.

Lemma validate_accepted db identity row :
  ad_identities db !! id = Some identity -> ad_drafts db !! id = Some row -> dft_document row = document ->
  version_conflict db v0 = false ->
  exists db', Effects.run (lc_exec snapshot now) (perform_call actor (Call_validate id)) db = (Ok tt, db')
    /\ ad_versions db' !! (id, number) = Some v0 /\ rest db db' /\ ad_approvals db' = ad_approvals db.
Proof.
  intros Hid Hdraft Hdoc Hnew. destruct row as [row_id revision doc author at_]. simpl in Hdoc. subst doc.
  destruct (ok_exists _ Hnumber) as [z Hz]. destruct (ok_exists _ Hregistry) as [r Hr].
  assert (Hstore : exists event, store_version db v0
    = Ok (append_event (set_versions db (<[(id, number) := v0]> (ad_versions db))) event)).
  { pose proof (compiled_valid document plan None Vs_Validated Hcompiled I) as Hvalid.
    change (validate_version v0 = Ok tt) in Hvalid. unfold store_version. rewrite Hvalid. simpl.
    unfold ensure_identity. rewrite Hid, Hz, Hr. simpl. rewrite Hnew. eauto. }
  destruct Hstore as [event Hstore].
  eexists. split.
  { unfold perform_call, forget, validate, draft. simpl. rewrite Hdraft. simpl.
    rewrite (ensure_owner_ok _ _ Hown). simpl. rewrite Hcompiled. simpl. by rewrite Hstore. }
  split; [apply lookup_insert_eq|done].
Qed.

Lemma version_found db stored :
  ad_versions db !! (id, number) = Some stored -> load_version db id number = Ok (Some stored).
Proof. intros Hs. by rewrite load_version_ok, Hs. Qed.

(** A move of the stored version to the same content in another state. *)
Lemma transition_accepted db stored next :
  ad_versions db !! (id, number) = Some stored ->
  sv_document stored = document -> sv_plan stored = plan -> sv_validation stored = sv_validation v0 ->
  sv_document next = document -> sv_plan next = plan -> sv_validation next = sv_validation v0 ->
  (sv_simulation stored = None \/ sv_simulation stored = sv_simulation next) ->
  match sv_simulation next with
  | Some simulation => se_document_hash simulation = pl_document_hash plan
      /\ se_plan_hash simulation = pl_plan_hash plan
      /\ se_registry_revision simulation = pl_registry_revision plan
  | None => True
  end ->
  AutomationVersionState.allows_transition_to (sv_state stored) (sv_state next) = true ->
  exists event, transition_version db next (sv_state stored)
    = Ok (append_event (set_versions db (<[(id, number) := next]> (ad_versions db))) event).
Proof.
  destruct next as [nd np ns nv nsim], stored as [sd sp ss sv ssim]. simpl.
  intros Hs -> -> -> -> -> -> Hsim Hev Hal. unfold transition_version.
  pose proof (compiled_valid document plan nsim ns Hcompiled Hev) as Hvalid. simpl in Hvalid.
  rewrite Hvalid. simpl. rewrite (version_found _ _ Hs). simpl.
  rewrite Hal, !bool_decide_eq_true_2 by done. simpl.
  assert ((bool_decide (is_Some ssim) && negb (bool_decide (ssim = nsim))) = false) as ->.
  { destruct Hsim as [-> | ->]; [by rewrite bool_decide_eq_false_2 by (by intros [])|].
    rewrite (bool_decide_eq_true_2 (nsim = nsim)) by done. apply andb_false_r. }
  simpl. eauto.
Qed.

(** The version with the evidence of the simulation, in the state behind it. *)
Definition simulated (result_ : AutomationSimulationResult) : StoredAutomationVersion :=
  with_version_state (simulated_version v0 result_ now) (after_simulation (pl_approval plan)).

Lemma simulate_accepted db input hash result_ :
  ad_versions db !! (id, number) = Some v0 ->
  canonical_automation_hash (encode_input input) = Ok hash ->
  run_simulation (simulation_fixture id number plan hash input) = Ok result_ ->
  sr_status result_ = Sim_Completed ->
  exists db', Effects.run (lc_exec snapshot now) (perform_call actor (Call_simulate id number input)) db = (Ok tt, db')
    /\ ad_versions db' !! (id, number) = Some (simulated result_) /\ rest db db'
    /\ ad_approvals db' = ad_approvals db.
Proof.
  intros Hv Hhash Hrun Hdone. pose proof (version_found _ _ Hv) as Hload.
  destruct (transition_accepted db v0 (simulated_version v0 result_ now)) as [event1 Ht1]; try done; [by left|].
  set (db1 := append_event _ event1) in Ht1.
  assert (Hv1 : ad_versions db1 !! (id, number) = Some (simulated_version v0 result_ now))
    by apply lookup_insert_eq.
  destruct (transition_accepted db1 (simulated_version v0 result_ now) (simulated result_)) as [event2 Ht2];
    try done; try (by right); [simpl; by destruct (pl_approval plan)|].
  eexists. split.
  { unfold perform_call, forget, simulate, version. simpl. rewrite Hload. simpl.
    rewrite (ensure_owner_ok _ _ Hown). simpl. rewrite Hhash. simpl. rewrite Hrun. simpl.
    change (sv_state v0) with Vs_Validated in Ht1. rewrite Ht1. simpl.
    rewrite bool_decide_eq_true_2 by done. simpl.
    change (sv_state (simulated_version v0 result_ now)) with Vs_Simulated in Ht2. fold db1.
    unfold simulated in Ht2. by rewrite Ht2. }
  split; [apply lookup_insert_eq|done].
Qed.

(** The approval its author gives it. *)
Lemma decide_accepted db result_ :
  ad_versions db !! (id, number) = Some (simulated result_) -> pl_approval plan = Apr_ExplicitUserApproval ->
  ad_approvals db !! ("random-" +:+ show_N (N.of_nat (size (ad_approvals db)))) = None ->
  exists db' approval, Effects.run (lc_exec snapshot now) (perform_call actor (Call_decide id number true None)) db
      = (Ok tt, db')
    /\ ad_versions db' !! (id, number) = Some (with_version_state (simulated result_) Vs_Ready)
    /\ rest db db' /\ is_Some (ad_approvals db' !! apv_id approval)
    /\ ad_approvals db' !! apv_id approval = Some approval /\ apv_automation_id approval = id
    /\ apv_version approval = number /\ apv_state approval = Ap_Approved
    /\ apv_document_hash approval = pl_document_hash plan /\ apv_plan_hash approval = pl_plan_hash plan.
Proof.
  intros Hv Happ Hfree. pose proof (version_found _ _ Hv) as Hload.
  set (approval := mk_approval ("random-" +:+ show_N (N.of_nat (size (ad_approvals db)))) id number
    (pl_document_hash plan) (pl_plan_hash plan) (ac_id actor) Ap_Approved None now).
  assert (Happend : append_approval db approval
    = Ok (set_approvals db (<[apv_id approval := approval]> (ad_approvals db)))).
  { unfold append_approval. change (apv_automation_id approval) with id. change (apv_version approval) with number.
    rewrite Hload. simpl. rewrite !bool_decide_eq_true_2 by done. simpl. by rewrite Hfree. }
  set (db1 := set_approvals _ _) in Happend.
  assert (Hst : sv_state (simulated result_) = Vs_AwaitingApproval) by (simpl; by rewrite Happ).
  destruct (transition_accepted db1 (simulated result_) (with_version_state (simulated result_) Vs_Ready))
    as [event Ht]; try done; [by right|by rewrite Hst|].
  rewrite Hst in Ht. eexists _, approval. split.
  { unfold perform_call, forget, decide, version. simpl. rewrite Hload. simpl.
    rewrite (ensure_owner_ok _ _ Hown). simpl. rewrite Happ. simpl. fold approval. rewrite Happend. simpl.
    fold db1. by rewrite Ht. }
  split; [apply lookup_insert_eq|]. split; [done|]. simpl. rewrite lookup_insert_eq. by split_and!.
Qed.

(** A ready version of its author becomes the active one, whoever wrote the
    version that was. *)
Lemma activate_accepted db stored identity :
  ad_versions db !! (id, number) = Some stored -> sv_document stored = document -> sv_plan stored = plan ->
  sv_state stored = Vs_Ready ->
  (exists simulation, sv_simulation stored = Some simulation /\ se_succeeded simulation = true
     /\ se_document_hash simulation = pl_document_hash plan /\ se_plan_hash simulation = pl_plan_hash plan
     /\ se_registry_revision simulation = pl_registry_revision plan) ->
  (pl_approval plan = Apr_ExplicitUserApproval -> exists approval,
     ad_approvals db !! apv_id approval = Some approval /\ apv_automation_id approval = id
     /\ apv_version approval = number /\ apv_state approval = Ap_Approved
     /\ apv_document_hash approval = pl_document_hash plan /\ apv_plan_hash approval = pl_plan_hash plan) ->
  ad_identities db !! id = Some identity -> id_id identity = id -> id_state identity <> Op_Retired ->
  is_ok (to_i64 (u64_saturating_add (id_revision identity) 1)) = true ->
  exists db' next, Effects.run (lc_exec snapshot now) (perform_call actor (Call_activate id number (id_revision identity))) db
      = (Ok tt, db')
    /\ ad_identities db' !! id = Some next /\ id_active_version next = Some number /\ id_state next = Op_Active
    /\ ad_versions db' = ad_versions db /\ ad_drafts db' = ad_drafts db.
Proof.
  intros Hv Hdoc Hplan Hst (simulation & Hsim & Hsucc & Hsd & Hsp & Hsr) Happ Hid Hidid Hlive Hrev.
  pose proof (version_found _ _ Hv) as Hload.
  destruct (ok_exists _ Hnumber) as [z Hz]. destruct (ok_exists _ Hrev) as [r Hr].
  set (activation := mk_activation id number (id_revision identity) (pl_document_hash plan) (pl_plan_hash plan)
    (pl_registry_revision plan) now).
  set (next := mk_identity id Op_Active (Some number) (u64_saturating_add (id_revision identity) 1)
    (id_created_at identity) now).
  assert (Hact : exists event, AutomationStore.activate db activation
    = Ok (append_event (set_identities db (<[id := next]> (ad_identities db))) event, next)).
  { unfold AutomationStore.activate. simpl. rewrite Hload. simpl. rewrite Hplan.
    rewrite !bool_decide_eq_true_2, N.eqb_refl by done. simpl. rewrite Hsim. simpl. rewrite Hsucc. simpl.
    rewrite Hsd, Hsp, Hsr, !bool_decide_eq_true_2, N.eqb_refl by done. simpl.
    assert ((if bool_decide (pl_approval plan = Apr_ExplicitUserApproval)
      then has_exact_approval db activation else Ok true) = Ok true) as ->.
    { case_bool_decide as Ha; [|done]. destruct (Happ Ha) as (approval & Hin & E1 & E2 & E3 & E4 & E5).
      unfold has_exact_approval. simpl. rewrite Hz. simpl. f_equal. apply existsb_exists. exists approval.
      split; [|unfold is_exact_approval; simpl; by rewrite E1, E2, E3, E4, E5, String.eqb_refl, N.eqb_refl,
        !bool_decide_eq_true_2].
      apply in_map_iff. exists (apv_id approval, approval). split; [done|].
      by apply list_elem_of_In, elem_of_map_to_list. }
    simpl. rewrite Hid. simpl. rewrite bool_decide_eq_false_2 by done. simpl. rewrite N.eqb_refl. simpl.
    rewrite Hz. simpl. rewrite Hr. simpl. rewrite Hidid. eauto. }
  destruct Hact as [event Hact]. eexists _, next. split.
  { unfold perform_call, forget, activate, version. simpl. rewrite Hload. simpl.
    rewrite Hdoc, (ensure_owner_ok _ _ Hown). simpl. rewrite bool_decide_eq_true_2 by done. simpl.
    rewrite Hplan. fold activation. by rewrite Hact. }
  split; [apply lookup_insert_eq|done].
Qed.

End Calls.

(** *** Publishing, and what is left to the others *)

Lemma publish_accepted actor db document identity plan input :
  owned actor document -> publishable db document identity plan input ->
  exists answers db' next stored,
    run_calls actor (publish document (pl_approval plan) input (draft_revision db (do_id document))
      (id_revision identity)) db = (answers, db')
    /\ forallb is_ok answers = true
    /\ ad_identities db' !! do_id document = Some next /\ id_active_version next = Some (do_version document)
    /\ ad_versions db' !! (do_id document, do_version document) = Some stored /\ sv_document stored = document
    /\ exists row, ad_drafts db' !! do_id document = Some row /\ dft_document row = document.
Proof.
  intros Hown [Hid Hidid Hlive (Hd & Hn & Hr & Hi) Hc Hnew (hash & result_ & Hhash & Hrun & Hdone) Hfree].
  destruct (put_accepted actor document Hown db identity Hid Hd)
    as (db1 & Hcall1 & Hdraft1 & Hid1 & Hver1 & Happ1).
  destruct (validate_accepted actor document plan Hown Hc Hn Hr db1 identity _ (eq_trans (f_equal _ Hid1) Hid)
    Hdraft1 eq_refl) as (db2 & Hcall2 & Hver2 & [Hid2 Hdraft2] & Happ2).
  { unfold version_conflict in *. by rewrite Hver1. }
  destruct (simulate_accepted actor document plan Hown Hc Hn db2 input hash result_ Hver2 Hhash Hrun Hdone)
    as (db3 & Hcall3 & Hver3 & [Hid3 Hdraft3] & Happ3).
  assert (Hid3' : ad_identities db3 !! do_id document = Some identity) by congruence.
  assert (Hdraft3' : exists row, ad_drafts db3 !! do_id document = Some row /\ dft_document row = document).
  { rewrite Hdraft3, Hdraft2. eauto. }
  assert (Hevidence : exists simulation, sv_simulation (simulated document plan result_) = Some simulation
    /\ se_succeeded simulation = true /\ se_document_hash simulation = pl_document_hash plan
    /\ se_plan_hash simulation = pl_plan_hash plan /\ se_registry_revision simulation = pl_registry_revision plan).
  { simpl. eexists. split; [done|]. split; [by apply bool_decide_eq_true_2|done]. }
  unfold publish. destruct (pl_approval plan) eqn:Happroval; simpl app.
  - destruct (activate_accepted actor document plan Hown Hn db3 (simulated document plan result_) identity)
      as (db4 & next & Hcall4 & Hid4 & Hact & _ & Hver4 & Hdraft4); try done.
    { simpl. by rewrite Happroval. }
    { by rewrite Happroval. }
    do 4 eexists. split; [do 3 (eapply run_calls_cons; [eassumption|]); eapply run_calls_cons; [exact Hcall4|reflexivity]|].
    rewrite Hver4, Hdraft4. by split_and!.
  - destruct (decide_accepted actor document plan Hown Hc Hn db3 result_ Hver3 Happroval)
      as (db4 & approval & Hcall4 & Hver4 & [Hid4 Hdraft4] & _ & Happ4).
    { by rewrite Happ3, Happ2, Happ1. }
    destruct (activate_accepted actor document plan Hown Hn db4
      (with_version_state (simulated document plan result_) Vs_Ready) identity)
      as (db5 & next & Hcall5 & Hid5 & Hact & _ & Hver5 & Hdraft5); try done.
    { intros _. by exists approval. }
    { by rewrite Hid4. }
    do 4 eexists. split; [do 4 (eapply run_calls_cons; [eassumption|]); eapply run_calls_cons; [exact Hcall5|reflexivity]|].
    rewrite Hver5, Hdraft5, Hdraft4. by split_and!.
Qed.

(** An actor that is not the author of the active version and of the draft. *)
Lemma stranger_refused other db id identity number stored :
  ad_identities db !! id = Some identity -> id_active_version identity = Some number ->
  ad_versions db !! (id, number) = Some stored -> is_ok (to_i64 number) = true ->
  pv_author_id (do_provenance (sv_document stored)) <> ac_id other ->
  forall expected state,
    (Effects.run (lc_exec snapshot now) (transition_operational other id expected state) db).1
      = Err Ale_NotAuthorized.
Proof.
  intros Hid Hact Hst Hn Hne expected state. unfold transition_operational. simpl. rewrite Hid. simpl.
  unfold ensure_identity_owner. rewrite Hact. unfold version. simpl. rewrite load_version_ok, Hst by done. simpl.
  unfold ensure_owner. apply String.eqb_neq in Hne. by rewrite Hne.
Qed.

Lemma stranger_draft other db id row :
  ad_drafts db !! id = Some row -> pv_author_id (do_provenance (dft_document row)) <> ac_id other ->
  (Effects.run (lc_exec snapshot now) (draft other id) db).1 = Err Ale_NotAuthorized.
Proof.
  intros Hrow Hne. unfold draft. simpl. rewrite Hrow. simpl. unfold ensure_owner.
  apply String.eqb_neq in Hne. by rewrite Hne.
Qed.

End Takeover.

(** C40: nothing protects the identity of an automation.  Whoever wrote its draft
    and its active version before, and whatever the database holds: an actor that
    names itself as the author of a document for that automation, which compiles
    under a new number and completes a simulation, has every call accepted that
    leads from the draft to the active version, its own approval included where the
    plan asks for one; afterwards it is the author of what the automation runs, and
    every other actor, the former owner among them, is no longer authorised to
    disable or retire the automation or to read its draft, as long as these rows
    stay. *)
Theorem ownership_taken `{SerdeJson} `{Uuids} `{Chrono} `{Calendar} `{CronInstants} `{Sha256}
  `{AutomationEncoding} `{TraceEncoding} `{InputEncoding} snapshot now actor db document identity plan input :
  owned actor document -> publishable snapshot now db document identity plan input ->
  let id := do_id document in
  let published := run_calls snapshot now actor
    (publish document (pl_approval plan) input (draft_revision db id) (id_revision identity)) db in
  forallb is_ok published.1 = true
  /\ active_author published.2 id = Some (ac_id actor)
  /\ forall other later, ac_id other <> ac_id actor ->
     ad_identities later = ad_identities published.2 -> ad_versions later = ad_versions published.2 ->
     ad_drafts later = ad_drafts published.2 ->
     (forall expected,
        (Effects.run (lc_exec snapshot now) (disable other id expected) later).1 = Err Ale_NotAuthorized
        /\ (Effects.run (lc_exec snapshot now) (retire other id expected) later).1 = Err Ale_NotAuthorized)
     /\ (Effects.run (lc_exec snapshot now) (draft other id) later).1 = Err Ale_NotAuthorized.
Proof.
  intros Hown Hpub id published.
  destruct (publish_accepted snapshot now actor db document identity plan input Hown Hpub)
    as (answers & db' & next & stored & Hrun & Hok & Hid & Hact & Hst & Hdoc & row & Hrow & Hrowdoc).
  destruct (pb_numbers _ _ _ _ _ _ _ Hpub) as (_ & Hn & _).
  unfold published, id in *. clear published id. rewrite Hrun. simpl. split; [done|]. split.
  { unfold active_author. rewrite Hid. simpl. rewrite Hact. simpl. rewrite Hst. simpl. by rewrite Hdoc, Hown. }
  intros other later Hne Hi Hv Hd. rewrite <- Hi in Hid. rewrite <- Hv in Hst. rewrite <- Hd in Hrow.
  assert (pv_author_id (do_provenance document) <> ac_id other) by (rewrite Hown; congruence).
  split; [|eapply stranger_draft; [exact Hrow|by rewrite Hrowdoc]].
  intros expected. split; (eapply stranger_refused; [done..|by rewrite Hdoc]).
Qed.

(** *** An automation of one actor, published by another *)

#[local] Existing Instance integer_json.
#[local] Existing Instance ranged_chrono.

(** An encoder that tells plans of different sizes apart. *)
#[local] Instance sized_encoding : AutomationEncoding :=
  {| encode_document := fun document => Ok (bytes (do_name document));
     encode_plan := fun plan => Ok (repeat 0%N (length (hp_nodes plan)));
     encode_timed_condition := fun '(_, duration) => Ok [(duration mod 256)%N] |}.

#[local] Instance sized_inputs : InputEncoding :=
  {| encode_input := fun input => Ok (repeat 0%N (length (asi_command_outcomes input))) |}.

Definition named (name : string) : Actor := mk_actor name "home" Ak_Agent name true now0.

(** The same lamp, written by an actor as a version of the automation. *)
Definition lamp_by (author name : string) (number : N) (actions : list AutomationAction) : AutomationDocument :=
  mk_document "auto" number name (mk_provenance author None "switch" "dark") []
    [Trig_ObservationChanged (on_off_of (Ref_Device "a-lamp")) (Some "on"%string)] None actions
    Mode_Single Self_SuppressSameVersion AutomationResourceBudget.default now0.

Definition confirmed : AutomationSimulationInput := mk_simulation_input caught_up [] [] [].

Definition alice_hall : AutomationDocument := lamp_by "alice" "Hall" 1 [switch_on (Ref_Device "b-gate")].
Definition mallory_hall : AutomationDocument :=
  lamp_by "mallory" "Other" 2 [switch_on (Ref_Device "b-gate"); Do_Delay 500].

(** The plan of a document under these encoders. *)
Definition sized_plan (document : AutomationDocument) : AutomationExecutionPlan :=
  match compile document hall with Ok plan => plan | Err _ => plan_of document end.

Definition alice_published : list (result unit AutomationLifecycleError) * AutomationDb :=
  run_calls hall now0 (named "alice")
    (publish alice_hall (pl_approval (sized_plan alice_hall)) confirmed None 0) empty_adb.

Definition alice_identity : AutomationIdentityState :=
  match ad_identities alice_published.2 !! "auto"%string with
  | Some identity => identity
  | None => mk_identity "" Op_Retired None 0 now0 now0
  end.

Lemma mallory_publishable :
  publishable hall now0 alice_published.2 mallory_hall alice_identity (sized_plan mallory_hall) confirmed.
Proof.
  split.
  - vm_compute. reflexivity.
  - vm_compute. reflexivity.
  - vm_compute. discriminate.
  - split_and!; vm_compute; reflexivity.
  - unfold sized_plan. assert (Hok : is_ok (compile mallory_hall hall) = true) by (vm_compute; reflexivity).
    by destruct (compile mallory_hall hall).
  - vm_compute. reflexivity.
  - eexists _, _. split; [reflexivity|]. split; [vm_compute; reflexivity|]. vm_compute. reflexivity.
  - vm_compute. reflexivity.
Qed.

Lemma ownership_taken_witness :
  active_author alice_published.2 "auto" = Some "alice"%string
  /\ exists db, active_author db "auto" = Some "mallory"%string
     /\ (Effects.run (lc_exec hall now0) (disable (named "alice") "auto" 2) db).1 = Err Ale_NotAuthorized.
Proof.
  split; [vm_compute; reflexivity|].
  destruct (ownership_taken hall now0 (named "mallory") alice_published.2 mallory_hall alice_identity
    (sized_plan mallory_hall) confirmed eq_refl mallory_publishable) as (_ & Hauthor & Hothers).
  eexists. split; [exact Hauthor|].
  assert (Hne : ac_id (named "alice") <> ac_id (named "mallory")) by discriminate.
  exact (proj1 (proj1 (Hothers (named "alice") _ Hne eq_refl eq_refl eq_refl) 2%N)).
Defined.
