(* ===== verification/AutomationTasks.v ===== *)
(** The tasks that write the runs of automations: interpreters, schedulers and
    cancellations over one store, as programs of which any number are in flight
    and which perform one operation at a time; the history of the store they
    leave; and what each has read when it writes. *)

From S2P Require Import Prelude Text BTree Json Capability Lifecycle Device Command Policy MatterState CommandStore MatterStore Effects CommandService CommandFixture MatterOperation Automation Identity AutomationStore AutomationInvariant AutomationCompiler AutomationEvaluator AutomationPlan AutomationFixture AutomationProps AutomationRuntime AutomationMoves AutomationPotential AutomationRefine AutomationStoreProps AutomationSimulator AutomationScheduler AutomationSchedulerProps AutomationAdmission AutomationEngine AutomationLifecycle.

(** ** The histories of runs *)

Definition run_version_key (run : AutomationRun) : AutomationId * N := (ru_automation_id run, ru_version run).

(** The rows of a run in a log, newest first. *)
Definition rows_of (log : list AutomationRun) (id : AutomationRunId) : list AutomationRun :=
  List.filter (fun run => String.eqb (ru_id run) id) log.

(** The next revision of the same run. *)
Record succeeds (run next : AutomationRun) : Prop := {
  sc_revision : ru_revision next = (ru_revision run + 1)%N;
  sc_id : ru_id next = ru_id run;
  sc_version : run_version_key next = run_version_key run;
  sc_occurrence : ru_occurrence_id next = ru_occurrence_id run;
  sc_actor : ru_actor_id next = ru_actor_id run;
  sc_live : AutomationRunState.is_terminal (ru_state run) = false
}.

Definition cancelled (c : Control) : Control :=
  mk_control Run_Cancelled (k_node c) (k_attempt c) (k_stack c).

(** The rows of a run, newest first: it began at the entry of its plan, and every
    row made one move of the plan from the row before, or cancelled the run where
    it stood. *)
Inductive follows (plan : AutomationExecutionPlan) : list AutomationRun -> Prop :=
| Fl_created run : control_of run = initial plan -> ru_revision run = 0%N -> follows plan [run]
| Fl_moved run next rows progress :
    follows plan (run :: rows) -> succeeds run next ->
    move plan progress (control_of run) (control_of next) -> follows plan (next :: run :: rows)
| Fl_cancelled run next rows :
    follows plan (run :: rows) -> succeeds run next ->
    control_of next = cancelled (control_of run) -> follows plan (next :: run :: rows).

(** Where a run stands: its node, the attempt of its command, and its groups. *)
Definition position (run : AutomationRun) :
  option AutomationPlanNodeId * option (N * N * AutomationCommandAttemptPhase) * list AutomationRunContinuation :=
  (k_node (control_of run), k_attempt (control_of run), k_stack (control_of run)).

(** How often the rows of a run changed where it stands. *)
Fixpoint position_changes (rows : list AutomationRun) : nat :=
  match rows with
  | next :: (run :: _) as older =>
      (if bool_decide (position next = position run) then 0 else 1) + position_changes older
  | _ => 0
  end.

Lemma position_changes_cons next run rows :
  position_changes (next :: run :: rows)
  = (if bool_decide (position next = position run) then 0 else 1) + position_changes (run :: rows).
Proof. done. Qed.

Lemma follows_revision plan rows i run :
  follows plan rows -> rows !! i = Some run ->
  (N.to_nat (ru_revision run) + i + 1)%nat = length rows.
Proof.
  intros Hf. revert i run. induction Hf as [run Hc Hr|run next rows p Hf IH Hs _|run next rows Hf IH Hs _];
    intros i x Hx.
  - destruct i; simplify_eq/=. rewrite Hr. done.
  - destruct i as [|i]; simpl in Hx.
    + simplify_eq. specialize (IH 0 run eq_refl). simpl in *. rewrite (sc_revision _ _ Hs). lia.
    + specialize (IH i x Hx). simpl in *. lia.
  - destruct i as [|i]; simpl in Hx.
    + simplify_eq. specialize (IH 0 run eq_refl). simpl in *. rewrite (sc_revision _ _ Hs). lia.
    + specialize (IH i x Hx). simpl in *. lia.
Qed.

(** A revision names one row. *)
Lemma follows_unique plan rows a b :
  follows plan rows -> a ∈ rows -> b ∈ rows -> ru_revision a = ru_revision b -> a = b.
Proof.
  intros Hf [i Hi]%list_elem_of_lookup [j Hj]%list_elem_of_lookup Heq.
  pose proof (follows_revision _ _ _ _ Hf Hi). pose proof (follows_revision _ _ _ _ Hf Hj).
  assert (i = j) as -> by lia. congruence.
Qed.

Lemma move_false_position plan c c' :
  move plan false c c' -> k_node c' = k_node c /\ k_attempt c' = k_attempt c /\ k_stack c' = k_stack c.
Proof. inversion 1; by subst. Qed.

(** The rows of a run are a path of the abstract machine with as many moves of
    progress as they changed its position, up to where it was cancelled. *)
Lemma follows_path plan rows run older :
  follows plan rows -> rows = run :: older ->
  exists n c, run_path plan n c /\ position_changes rows <= n
    /\ (ru_state run <> Run_Cancelled -> c = control_of run).
Proof.
  intros Hf. revert run older. induction Hf as [run0 Hc Hr|run0 next rows p Hf IH Hs Hm|run0 next rows Hf IH Hs Hm];
    intros run older Heq; injection Heq as <- <-.
  - exists 0, (control_of run0). split; [rewrite Hc; constructor|]. split; [simpl; lia|done].
  - destruct (IH _ _ eq_refl) as (n & c & Hpath & Hle & Hcc).
    assert (c = control_of run0) as ->.
    { apply Hcc. intros Hcan. pose proof (sc_live _ _ Hs) as Hlive. by rewrite Hcan in Hlive. }
    exists (if p then S n else n), (control_of next). split; [by eapply Rp_move|]. split; [|done].
    rewrite position_changes_cons. case_bool_decide as Hpos; destruct p; try lia.
    exfalso. apply Hpos. unfold position. destruct (move_false_position _ _ _ Hm) as (-> & -> & ->). done.
  - destruct (IH _ _ eq_refl) as (n & c & Hpath & Hle & _). exists n, c. split; [done|]. split.
    + rewrite position_changes_cons. rewrite bool_decide_eq_true_2; [lia|]. unfold position. by rewrite Hm.
    + intros Hne. exfalso. apply Hne. by apply (f_equal k_state) in Hm.
Qed.

Section System.
Context `{SerdeJson} `{Uuids} `{Chrono} `{Calendar} `{CronInstants} `{Sha256} `{AutomationEncoding}.

(** ** The store and its history *)

(** The store, the plans of all versions it ever held, and every row of a run it
    ever held, newest first. *)
Record History := mk_history {
  hs_db : AutomationDb;
  hs_plans : gmap (AutomationId * N) AutomationExecutionPlan;
  hs_log : list AutomationRun
}.

(** The rows of runs a transaction wrote. *)
Definition written (db db' : AutomationDb) : list AutomationRun :=
  map snd (map_to_list (filter (fun kv => ad_runs db !! kv.1 <> Some kv.2) (ad_runs db'))).

Definition observe (h : History) (db : AutomationDb) : History :=
  mk_history db ((sv_plan <$> ad_versions db) ∪ hs_plans h) (written (hs_db h) db ++ hs_log h).

(** What a retention deleted comes back under a new identity: a version number
    and a run identity are not used again after their row is gone. *)
Definition not_reused (h : History) (db : AutomationDb) : Prop :=
  (forall key, is_Some (ad_versions db !! key) -> is_Some (hs_plans h !! key) ->
     is_Some (ad_versions (hs_db h) !! key))
  /\ (forall run : AutomationRun, run ∈ hs_log h -> is_Some (ad_runs db !! ru_id run) ->
     is_Some (ad_runs (hs_db h) !! ru_id run)).

(** ** The operations of the tasks *)

Inductive SysOp :=
| So_runtime (op : RtOp)
| So_scheduler (op : AutomationScheduler.ScOp)
| So_lifecycle (op : AutomationLifecycle.LcOp).

Definition sys_resp (op : SysOp) : Type :=
  match op with
  | So_runtime op => rt_resp op
  | So_scheduler op => AutomationScheduler.sc_resp op
  | So_lifecycle op => AutomationLifecycle.lc_resp op
  end.

(** A read of the store, which may fail. *)
Definition answered {A : Type} (value : result A StorageError) (r : result A BoxError)
  (db db' : AutomationDb) : Prop :=
  db' = db /\ (r = map_err Be_Storage value \/ exists error, r = Err error).

(** A transaction: it fails and leaves nothing, or commits, and then its answer may
    still be lost. *)
Definition transacted (tx : result AutomationDb StorageError) (r : result unit BoxError)
  (db db' : AutomationDb) : Prop :=
  (db' = db /\ exists error, r = Err error) \/ (tx = Ok db' /\ (r = Ok tt \/ exists error, r = Err error)).

(** The interpreter: its reads and its commit meet the store; the clock, the
    registry and the command service answer anything. *)
Definition rt_answers (db : AutomationDb) (op : RtOp) : rt_resp op -> AutomationDb -> Prop :=
  match op return rt_resp op -> AutomationDb -> Prop with
  | Rt_automation_run id => fun r => answered (Ok (ad_runs db !! id)) r db
  | Rt_automation_identity id => fun r => answered (Ok (ad_identities db !! id)) r db
  | Rt_automation_version id number => fun r => answered (load_version db id number) r db
  | Rt_automation_trace id after limit => fun r => answered (load_trace db id after limit) r db
  | Rt_automation_timer id => fun r => answered (Ok (ad_timers db !! id)) r db
  | Rt_recoverable_automation_work limit => fun r => answered (Ok (recover db limit)) r db
  | Rt_commit_automation_step write => fun r => transacted (commit_step db write) r db
  | Rt_load | Rt_now | Rt_actor_security _ | Rt_execute _ _ _ | Rt_get _ _ => fun _ db' => db' = db
  end.

Definition sc_answers (db : AutomationDb) (op : AutomationScheduler.ScOp) :
  AutomationScheduler.sc_resp op -> AutomationDb -> Prop :=
  match op return AutomationScheduler.sc_resp op -> AutomationDb -> Prop with
  | AutomationScheduler.Sc_active_automation_versions limit =>
      fun r => answered (Ok (load_active_versions db limit)) r db
  | AutomationScheduler.Sc_create_automation_occurrence o => fun r => transacted (create_occurrence db o) r db
  | AutomationScheduler.Sc_automation_occurrence id => fun r => answered (Ok (ad_occurrences db !! id)) r db
  | AutomationScheduler.Sc_transition_automation_occurrence o =>
      fun r => transacted (transition_occurrence db o) r db
  | AutomationScheduler.Sc_recoverable_automation_work limit => fun r => answered (Ok (recover db limit)) r db
  | AutomationScheduler.Sc_transition_automation_timer timer =>
      fun r => transacted (transition_timer db timer) r db
  | AutomationScheduler.Sc_automation_trace id after limit => fun r => answered (load_trace db id after limit) r db
  | AutomationScheduler.Sc_commit_automation_step write => fun r => transacted (commit_step db write) r db
  | AutomationScheduler.Sc_automation_run id => fun r => answered (Ok (ad_runs db !! id)) r db
  | AutomationScheduler.Sc_create_automation_run run => fun r => transacted (create_run db run) r db
  | AutomationScheduler.Sc_now => fun _ db' => db' = db
  end.

(** The operations of a cancellation; it performs no others, which might do
    anything. *)
Definition lc_answers (db : AutomationDb) (op : AutomationLifecycle.LcOp) :
  AutomationLifecycle.lc_resp op -> AutomationDb -> Prop :=
  match op return AutomationLifecycle.lc_resp op -> AutomationDb -> Prop with
  | AutomationLifecycle.Lc_automation_run id => fun r => answered (Ok (ad_runs db !! id)) r db
  | AutomationLifecycle.Lc_automation_version id number => fun r => answered (load_version db id number) r db
  | AutomationLifecycle.Lc_automation_trace id after limit => fun r => answered (load_trace db id after limit) r db
  | AutomationLifecycle.Lc_recoverable_automation_work limit => fun r => answered (Ok (recover db limit)) r db
  | AutomationLifecycle.Lc_commit_automation_step write => fun r => transacted (commit_step db write) r db
  | AutomationLifecycle.Lc_wake | AutomationLifecycle.Lc_now => fun _ db' => db' = db
  | _ => fun _ db' => rtc adb_step db db'
  end.

Definition answers (db : AutomationDb) (op : SysOp) : sys_resp op -> AutomationDb -> Prop :=
  match op return sys_resp op -> AutomationDb -> Prop with
  | So_runtime op => rt_answers db op
  | So_scheduler op => sc_answers db op
  | So_lifecycle op => lc_answers db op
  end.

(** ** The system *)

Record Sys := mk_sys { sy_history : History; sy_tasks : list (Prog sys_resp unit) }.

Definition discard {A : Type} (m : Prog sys_resp A) : Prog sys_resp unit := let! _ := m in Ret tt.

Definition interpreter (commands : bool) (run_id : AutomationRunId) : Prog sys_resp unit :=
  discard (embed (resp' := sys_resp) So_runtime (fun _ r => r) (step commands run_id)).
Definition scheduler (from through : Instant) : Prog sys_resp unit :=
  discard (embed (resp' := sys_resp) So_scheduler (fun _ r => r) (AutomationScheduler.tick from through)).
Definition canceller (fuel : nat) (actor : Actor) (run_id : AutomationRunId) : Prog sys_resp unit :=
  discard (embed (resp' := sys_resp) So_lifecycle (fun _ r => r) (AutomationLifecycle.cancel_run fuel actor run_id)).

Definition spawn (s : Sys) (task : Prog sys_resp unit) : Sys := mk_sys (sy_history s) (sy_tasks s ++ [task]).

(** A task is started, performs its next operation, or dies; or another
    transaction of the store commits that writes no row of a run: those of the
    authoring calls, the event consumer and the retention. *)
#[local] Unset Elimination Schemes.
Inductive sys_step (s : Sys) : Sys -> Prop :=
| Ss_interpret commands run_id : sys_step s (spawn s (interpreter commands run_id))
| Ss_schedule from through : sys_step s (spawn s (scheduler from through))
| Ss_cancel fuel actor run_id : sys_step s (spawn s (canceller fuel actor run_id))
| Ss_perform i op k r db :
    sy_tasks s !! i = Some (Io op k) -> answers (hs_db (sy_history s)) op r db ->
    not_reused (sy_history s) db ->
    sys_step s (mk_sys (observe (sy_history s) db) (<[i := k r]> (sy_tasks s)))
| Ss_die i : sys_step s (mk_sys (sy_history s) (<[i := Ret tt]> (sy_tasks s)))
| Ss_other db :
    adb_step (hs_db (sy_history s)) db ->
    (forall k run, ad_runs db !! k = Some run -> ad_runs (hs_db (sy_history s)) !! k = Some run) ->
    not_reused (sy_history s) db ->
    sys_step s (mk_sys (observe (sy_history s) db) (sy_tasks s)).
#[local] Set Elimination Schemes.

(** It starts on any database the repository can reach before the first run. *)
Definition sys_start (s : Sys) : Prop :=
  let h := sy_history s in
  adb_reachable (hs_db h) /\ ad_runs (hs_db h) = ∅ /\ hs_plans h = sv_plan <$> ad_versions (hs_db h)
  /\ hs_log h = [] /\ sy_tasks s = [].

Definition sys_reachable (s : Sys) : Prop := exists s0, sys_start s0 /\ rtc sys_step s0 s.

(** ** What a task has read *)

(** What an interpreter has read; the active versions a scheduler has read; and
    the runs a scheduler or a cancellation has seen in the store. *)
Record Held := mk_held {
  h_read : Read;
  h_active : list ActiveAutomationVersion;
  h_runs : list AutomationRun
}.

Definition holds_nothing : Held := mk_held nothing_read [] [].

Definition see (t : Held) (runs : list AutomationRun) : Held := mk_held (h_read t) (h_active t) (runs ++ h_runs t).

(** A scheduler starts the new run of an occurrence of an active version, and
    cancels a live run it has seen. *)
Definition sc_needs (op : AutomationScheduler.ScOp) (t : Held) : Prop :=
  match op with
  | AutomationScheduler.Sc_create_automation_run run => exists active o now, active ∈ h_active t
      /\ AutomationScheduler.is_version_of o active = true /\ run = AutomationScheduler.new_run active o now
  | AutomationScheduler.Sc_commit_automation_step write => exists run timers o sequence now, run ∈ h_runs t
      /\ AutomationRunState.is_terminal (ru_state run) = false
      /\ write = AutomationScheduler.cancel_write run timers o sequence now
  | _ => True
  end.

Definition sc_gives (op : AutomationScheduler.ScOp) : AutomationScheduler.sc_resp op -> Held -> Held :=
  match op return AutomationScheduler.sc_resp op -> Held -> Held with
  | AutomationScheduler.Sc_active_automation_versions _ => fun r t =>
      match r with Ok active => mk_held (h_read t) active (h_runs t) | Err _ => t end
  | AutomationScheduler.Sc_recoverable_automation_work _ => fun r t =>
      match r with Ok recovery => see t (rcv_runs recovery) | Err _ => t end
  | AutomationScheduler.Sc_automation_run _ => fun r t => match r with Ok (Some run) => see t [run] | _ => t end
  | AutomationScheduler.Sc_create_automation_run run => fun r t => match r with Ok _ => see t [run] | Err _ => t end
  | _ => fun _ t => t
  end.

(** A cancellation cancels a live run it has seen, and writes nothing else. *)
Definition lc_needs (op : AutomationLifecycle.LcOp) (t : Held) : Prop :=
  match op with
  | AutomationLifecycle.Lc_commit_automation_step write => exists id run timers sequence now occurred_at,
      run ∈ h_runs t /\ AutomationRunState.is_terminal (ru_state run) = false
      /\ write = AutomationLifecycle.actor_cancel_write id run timers sequence now occurred_at
  | AutomationLifecycle.Lc_automation_run _ | AutomationLifecycle.Lc_automation_version _ _
  | AutomationLifecycle.Lc_automation_trace _ _ _ | AutomationLifecycle.Lc_recoverable_automation_work _
  | AutomationLifecycle.Lc_wake | AutomationLifecycle.Lc_now => True
  | _ => False
  end.

Definition lc_gives (op : AutomationLifecycle.LcOp) : AutomationLifecycle.lc_resp op -> Held -> Held :=
  match op return AutomationLifecycle.lc_resp op -> Held -> Held with
  | AutomationLifecycle.Lc_automation_run _ => fun r t => match r with Ok (Some run) => see t [run] | _ => t end
  | _ => fun _ t => t
  end.

Definition sys_needs (op : SysOp) (t : Held) : Prop :=
  match op with
  | So_runtime op => allowed op (h_read t)
  | So_scheduler op => sc_needs op t
  | So_lifecycle op => lc_needs op t
  end.

Definition sys_gives (op : SysOp) : sys_resp op -> Held -> Held :=
  match op return sys_resp op -> Held -> Held with
  | So_runtime op => fun r t => mk_held (reads op r (h_read t)) (h_active t) (h_runs t)
  | So_scheduler op => sc_gives op
  | So_lifecycle op => lc_gives op
  end.

(** A program keeps its discipline when it is embedded. *)
Lemma wp_embed {Op : Type} {resp : Op -> Type} {T A : Type} (needs : forall op : Op, T -> Prop)
  (gives : forall op : Op, resp op -> T -> T) (inject : Op -> SysOp)
  (answer : forall op, sys_resp (inject op) -> resp op) (R : T -> Held -> Prop) (m : Prog resp A) t u Q :
  (forall op t u, R t u -> needs op t -> sys_needs (inject op) u) ->
  (forall op r t u, R t u -> R (gives op (answer op r) t) (sys_gives (inject op) r u)) ->
  wp needs gives (fun _ _ _ => True) m t Q -> R t u ->
  wp sys_needs sys_gives (fun _ _ _ => True) (discard (embed inject answer m)) u (fun _ _ => True).
Proof.
  intros Hn Hg. revert t u. induction m as [a|op k IH]; intros t u Hm Hr; [done|].
  destruct Hm as [Hop Hk]. split; [by eapply Hn|]. intros r _. eapply IH; [by apply Hk|by apply Hg].
Qed.

Abbreviation safe m := (wp sys_needs sys_gives (fun _ _ _ => True) m holds_nothing (fun _ _ => True)).

Lemma interpreter_safe commands run_id : safe (interpreter commands run_id).
Proof.
  apply (wp_embed allowed reads So_runtime (fun _ r => r) (fun t u => h_read u = t)
           _ nothing_read _ told); [| |by apply step_refines|done].
  - by intros op t u <-.
  - by intros op r t u <-.
Qed.

(** *** The scheduler *)

Abbreviation schedules m t Q := (wp sc_needs sc_gives (fun _ _ _ => True) m t Q).

(** What a pass rests on: its versions are those read, its live runs were seen. *)
Record pass_seen (active : list ActiveAutomationVersion) (runs : list AutomationRun) (t : Held) : Prop := {
  pn_active : h_active t = active;
  pn_runs : forall run, run ∈ runs -> AutomationRunState.is_terminal (ru_state run) = false -> run ∈ h_runs t
}.

Ltac awaits := apply wp_sc_call; split; [try done|intros [?|?] _; cbn [wp sc_gives]; [|done]].

Lemma schedules_restart runs timers o now t active :
  pass_seen active runs t ->
  schedules (AutomationScheduler.cancel_for_restart runs timers o now) t (fun r t' => t' = t
    /\ forall runs' n, r = Ok (runs', n) -> pass_seen active runs' t).
Proof.
  intros [Ha Hruns]. induction runs as [|run runs IH]; cbn [AutomationScheduler.cancel_for_restart].
  { split; [done|]. by intros runs' n [= <- <-]. }
  assert (IH' : schedules (AutomationScheduler.cancel_for_restart runs timers o now) t (fun r t' => t' = t
    /\ forall runs' n, r = Ok (runs', n) -> pass_seen active runs' t)).
  { apply IH. intros r Hr. apply Hruns. by right. }
  clear IH. destruct (_ && _ && _) eqn:Hc; bool_inv.
  - apply wp_sc_call. split; [done|]. intros [trace|error] _; cbn [wp sc_gives]; [|done].
    apply wp_sc_call. split.
    { exists run, timers, o, (N.of_nat (length trace)), now. split; [|done]. apply Hruns; [by left|done]. }
    intros [[]|error] _; cbn [wp sc_gives]; [|done]. apply wp_try. eapply wp_mono; [exact IH'|].
    intros [[runs' n]|error] t' [-> Hr]; [|done]. split; [done|]. intros runs2 n2 [= <- <-].
    destruct (Hr _ _ eq_refl) as [_ Hr']. split; [done|]. intros r [->|Hin]%elem_of_cons; [done|auto].
  - apply wp_try. eapply wp_mono; [exact IH'|].
    intros [[runs' n]|error] t' [-> Hr]; [|done]. split; [done|]. intros runs2 n2 [= <- <-].
    destruct (Hr _ _ eq_refl) as [_ Hr']. split; [done|].
    intros r [->|Hin]%elem_of_cons; [apply Hruns; by left|auto].
Qed.

Definition pass_kept (active : list ActiveAutomationVersion)
  (r : result AutomationScheduler.Pass AutomationScheduler.AutomationSchedulerError) (t : Held) : Prop :=
  forall pass, r = Ok pass -> pass_seen active (AutomationScheduler.ps_runs pass) t.

Lemma schedules_start version o now pass t active :
  pass_seen active (AutomationScheduler.ps_runs pass) t -> version ∈ active ->
  AutomationScheduler.is_version_of o version = true ->
  schedules (AutomationScheduler.start_run version o now pass) t (pass_kept active).
Proof.
  intros [Ha Hruns] Hin Hv.
  assert (Hkept : forall run tick active' queued, pass_kept active (Ok (AutomationScheduler.mk_pass
    (if negb (AutomationRunState.is_terminal (ru_state run))
        && forallb (fun item => negb (String.eqb (ru_id item) (ru_id run))) (AutomationScheduler.ps_runs pass)
     then AutomationScheduler.ps_runs pass ++ [run] else AutomationScheduler.ps_runs pass)
    active' queued tick)) (see t [run])).
  { intros run tick active' queued pass' [= <-]. split; [done|]. simpl. intros r Hr Hlive.
    case_match; [apply elem_of_app in Hr as [Hr| ->%list_elem_of_singleton]|]; [right; auto|by left|right; auto]. }
  unfold AutomationScheduler.start_run, AutomationScheduler.create_run. apply wp_try, wp_sc_call.
  split; [done|]. intros [[run|]|error] _; cbn [wp sc_gives]; [|apply wp_sc_call; split|done].
  - apply Hkept.
  - exists version, o, now. by rewrite Ha.
  - intros [[]|error] _; cbn [wp sc_gives]; [apply Hkept|done].
Qed.

Lemma schedules_accept version o timers now pass t active :
  pass_seen active (AutomationScheduler.ps_runs pass) t -> version ∈ active ->
  AutomationScheduler.is_version_of o version = true ->
  schedules (AutomationScheduler.accept_occurrence version o timers now pass) t (pass_kept active).
Proof.
  intros Hseen Hin Hv. unfold AutomationScheduler.accept_occurrence.
  assert (Hrest : forall pass, pass_seen active (AutomationScheduler.ps_runs pass) t ->
    schedules (try! _ := AutomationScheduler.sc_call (perform
        (AutomationScheduler.Sc_transition_automation_occurrence
           (AutomationScheduler.with_occurrence_state o Occ_Accepted))) in
      AutomationScheduler.start_run version (AutomationScheduler.with_occurrence_state o Occ_Accepted) now
        (AutomationScheduler.mk_pass (AutomationScheduler.ps_runs pass)
           (AutomationScheduler.bump (AutomationScheduler.occurrence_key o) (AutomationScheduler.ps_active pass))
           (AutomationScheduler.ps_queued pass)
           (AutomationScheduler.count_accepted (AutomationScheduler.ps_tick pass)))) t (pass_kept active)).
  { clear pass Hseen. intros pass Hseen. awaits. by apply schedules_start. }
  apply wp_try. case_bool_decide.
  - apply wp_try. eapply wp_mono; [by apply schedules_restart|].
    intros [[runs n]|error] t' [-> Hr]; [|done]. cbn [wp]. apply (Hrest (AutomationScheduler.mk_pass _ _ _ _)).
    by eapply Hr.
  - by apply Hrest.
Qed.

Lemma schedules_occurrences active timers now occurrences pass t :
  pass_seen active (AutomationScheduler.ps_runs pass) t ->
  schedules (AutomationScheduler.process_occurrences active timers now occurrences pass) t (fun _ _ => True).
Proof.
  revert pass t. induction occurrences as [|o occurrences IH]; intros pass t Hseen;
    cbn [AutomationScheduler.process_occurrences]; [done|].
  apply wp_try. apply (wp_mono _ _ _ _ _ (pass_kept active)).
  2: { intros [pass'|error] t' Hr; [by apply IH, Hr|done]. }
  assert (Hstay : forall t pass', pass_seen active (AutomationScheduler.ps_runs pass') t -> pass_kept active (Ok pass') t)
    by (intros t' pass' Hs pass2 [= <-]; done).
  unfold AutomationScheduler.process_occurrence.
  destruct (List.find _ active) as [version|] eqn:Hfind; [|by apply Hstay].
  apply List.find_some in Hfind as [Hin%list_elem_of_In Hv].
  destruct (oc_state o); [|by apply schedules_start|by apply Hstay..].
  case_match; [awaits; by apply Hstay|]. case_match; [by apply Hstay|].
  case_match; [by apply schedules_accept|by apply Hstay|awaits; by apply Hstay].
Qed.

Lemma schedules_timers timers now result_ t :
  schedules (AutomationScheduler.ready_timers timers now result_) t (fun _ t' => t' = t).
Proof.
  revert result_. induction timers as [|timer timers IH]; intros result_;
    cbn [AutomationScheduler.ready_timers]; [done|].
  case_match; [awaits|]; apply wp_try; (eapply wp_mono; [apply IH|]); by intros [?|?] t' ->.
Qed.

Lemma schedules_materialize versions from through result_ t :
  schedules (AutomationScheduler.materialize versions from through result_) t (fun _ t' => t' = t).
Proof.
  assert (Hcreate : forall occurrences result_,
    schedules (AutomationScheduler.create_occurrences occurrences result_) t (fun _ t' => t' = t)).
  { induction occurrences as [|o occurrences IH]; intros result_'; cbn [AutomationScheduler.create_occurrences];
      [done|]. awaits. apply IH. }
  assert (Htriggers : forall version triggers result_,
    schedules (AutomationScheduler.materialize_triggers version triggers from through result_) t (fun _ t' => t' = t)).
  { induction triggers as [|trigger triggers IH]; intros result_'; cbn [AutomationScheduler.materialize_triggers];
      [done|]. destruct trigger; try apply IH. case_match; [|done]. apply wp_try.
    eapply wp_mono; [apply Hcreate|]. intros [?|?] t' ->; [apply IH|done]. }
  revert result_. induction versions as [|version versions IH]; intros result_;
    cbn [AutomationScheduler.materialize]; [done|].
  apply wp_try. eapply wp_mono; [apply Htriggers|]. intros [?|?] t' ->; [apply IH|done].
Qed.

Lemma scheduler_safe from through : safe (scheduler from through).
Proof.
  apply (wp_embed sc_needs sc_gives So_scheduler (fun _ r => r) eq _ holds_nothing _ (fun _ _ => True));
    [by intros op t u ->|by intros op r t u ->| |done].
  unfold AutomationScheduler.tick. awaits. apply wp_try. eapply wp_mono; [apply schedules_materialize|].
  intros [result_|error] t' ->; [|done]. unfold AutomationScheduler.process_recovery.
  split; [done|]. intros now _. cbn [sc_gives]. apply wp_sc_call. split; [done|].
  intros [recovery|error] _; cbn [wp sc_gives]; [|done].
  apply wp_try. eapply wp_mono; [apply schedules_timers|]. intros [readied|error] t' ->; [|done].
  apply wp_try. eapply wp_mono; [eapply schedules_occurrences|by intros [pass|error]].
  split; [done|]. intros run Hrun _. simpl. apply elem_of_app. by left.
Qed.

(** *** The cancellation *)

Abbreviation cancels m t Q := (wp lc_needs lc_gives (fun _ _ _ => True) m t Q).

Lemma cancels_sequence fuel run_id after t :
  cancels (AutomationLifecycle.next_trace_sequence fuel run_id after) t (fun _ t' => t' = t).
Proof.
  revert after. induction fuel as [|fuel IH]; intros after; [done|].
  cbn [AutomationLifecycle.next_trace_sequence]. apply wp_bind, wp_bind. split; [done|].
  intros [page|error] _; cbn [wp lc_gives map_err]; [|done].
  destruct (last page); [|done]. case_match; [done|apply IH].
Qed.

Lemma canceller_safe fuel actor run_id : safe (canceller fuel actor run_id).
Proof.
  apply (wp_embed lc_needs lc_gives So_lifecycle (fun _ r => r) eq _ holds_nothing _ (fun _ _ => True));
    [by intros op t u ->|by intros op r t u ->| |done].
  unfold AutomationLifecycle.cancel_run. apply wp_bind.
  apply (wp_mono _ _ _ _ _ (fun r t => forall run, r = Ok run -> run ∈ h_runs t)).
  { unfold AutomationLifecycle.run. apply wp_try, wp_bind. split; [done|].
    intros [[run|]|error] _; cbn [wp lc_gives map_err AutomationLifecycle.lc_or]; [|done..].
    apply wp_try. unfold AutomationLifecycle.version. apply wp_try, wp_bind. split; [done|].
    intros [[version|]|error] _; cbn [wp lc_gives map_err AutomationLifecycle.lc_or]; [|done..].
    apply wp_try. destruct (AutomationLifecycle.ensure_owner _ _); cbn [wp]; [|done].
    intros run' [= <-]. by left. }
  intros [run|error] t Hrun; [|done]. specialize (Hrun _ eq_refl).
  destruct (AutomationRunState.is_terminal (ru_state run)) eqn:Hlive; [done|].
  apply wp_bind, wp_bind. split; [done|]. intros [recovery|error] _; cbn [wp lc_gives map_err]; [|done].
  apply wp_bind. eapply wp_mono; [apply cancels_sequence|]. intros [[sequence|error]|] t' ->; [|done..].
  split; [done|]. intros now _. split; [done|]. intros occurred_at _. cbn [lc_gives].
  apply wp_bind. cbn [wp]. apply wp_bind, wp_try, wp_bind. split; [by exists run_id, run, (rcv_timers recovery), sequence, now, occurred_at|].
  intros [[]|error] _; cbn [wp lc_gives map_err]; [|done].
  unfold AutomationLifecycle.wake_events. apply wp_try, wp_bind. split; [done|]. by intros [[]|error] _.
Qed.

End System.
