(* ===== verification/AutomationSystem.v ===== *)
(** The rows of runs under racing tasks: every row ever stored of a run follows the
    one before by one move of the abstract machine of its plan, or cancels it, and
    there are only so many changes of its position; the keys of the commands an
    interpreter sends; and what the page limit of the store does to a long trace. *)

From S2P Require Import Prelude Text BTree Json Capability Lifecycle Device Command Policy MatterState CommandStore MatterStore Effects CommandService CommandFixture MatterOperation Automation Identity AutomationStore AutomationInvariant AutomationCompiler AutomationEvaluator AutomationPlan AutomationFixture AutomationProps AutomationRuntime AutomationMoves AutomationPotential AutomationRefine AutomationStoreProps AutomationSimulator AutomationScheduler AutomationSchedulerProps AutomationAdmission AutomationEngine AutomationLifecycle AutomationTasks.

Section System.
Context `{SerdeJson} `{Uuids} `{Chrono} `{Calendar} `{CronInstants} `{Sha256} `{AutomationEncoding}.

Abbreviation safe m := (wp sys_needs sys_gives (fun _ _ _ => True) m holds_nothing (fun _ _ => True)).

(** ** The invariant *)

(** The rows of every run in the log follow one plan, that of the version they
    all name; and the stored row of a run is its newest. *)
Record hist_ok (h : History) : Prop := {
  ho_wf : adb_wf (hs_db h);
  ho_plans : forall key version, ad_versions (hs_db h) !! key = Some version ->
    hs_plans h !! key = Some (sv_plan version);
  ho_newest : forall k run, ad_runs (hs_db h) !! k = Some run -> exists rows, rows_of (hs_log h) k = run :: rows;
  ho_follows : forall k, rows_of (hs_log h) k <> [] -> exists plan, follows plan (rows_of (hs_log h) k)
    /\ forall run, run ∈ rows_of (hs_log h) k -> hs_plans h !! run_version_key run = Some plan
}.

Record holds (h : History) (t : Held) : Prop := {
  hd_run : forall run, rd_run (h_read t) = Some run -> run ∈ hs_log h;
  hd_version : forall version, rd_version (h_read t) = Some version ->
    exists run, rd_run (h_read t) = Some run /\ hs_plans h !! run_version_key run = Some (sv_plan version);
  hd_active : forall active, active ∈ h_active t ->
    hs_plans h !! (id_id (aav_identity active), do_version (sv_document (aav_version active)))
    = Some (sv_plan (aav_version active));
  hd_runs : forall run, run ∈ h_runs t -> run ∈ hs_log h
}.

Lemma elem_of_rows_of log k run : run ∈ rows_of log k <-> run ∈ log /\ ru_id run = k.
Proof.
  unfold rows_of. rewrite !list_elem_of_In, filter_In. split; intros [Hin Heq]; (split; [done|]).
  - by apply String.eqb_eq.
  - by apply String.eqb_eq.
Qed.

Lemma rows_of_app log log' k : rows_of (log ++ log') k = rows_of log k ++ rows_of log' k.
Proof. apply List.filter_app. Qed.

Lemma stored_in_log h k run : hist_ok h -> ad_runs (hs_db h) !! k = Some run -> run ∈ hs_log h.
Proof.
  intros Hh Hk. destruct (ho_newest _ Hh _ _ Hk) as [rows Hrows].
  apply (elem_of_rows_of _ k). rewrite Hrows. by left.
Qed.

(** A run of the log, the rows of its run and their plan. *)
Lemma logged_run h run :
  hist_ok h -> run ∈ hs_log h -> exists plan, follows plan (rows_of (hs_log h) (ru_id run))
    /\ run ∈ rows_of (hs_log h) (ru_id run) /\ hs_plans h !! run_version_key run = Some plan
    /\ forall r, r ∈ rows_of (hs_log h) (ru_id run) -> hs_plans h !! run_version_key r = Some plan.
Proof.
  intros Hh Hrun. assert (Hin : run ∈ rows_of (hs_log h) (ru_id run)) by by apply elem_of_rows_of.
  destruct (ho_follows _ Hh (ru_id run)) as (plan & Hf & Hall).
  { intros Hnil. rewrite Hnil in Hin. by apply not_elem_of_nil in Hin. }
  exists plan. auto.
Qed.

(** *** What a transaction writes *)

Lemma written_none db db' :
  (forall k run, ad_runs db' !! k = Some run -> ad_runs db !! k = Some run) -> written db db' = [].
Proof.
  intros Hsub. unfold written. replace (filter _ _) with (∅ : gmap AutomationRunId AutomationRun); [done|].
  symmetry. apply map_empty. intros k. apply map_lookup_filter_None. right. intros run Hk Hne. simpl in Hne.
  apply Hne. by apply Hsub.
Qed.

Lemma written_one db db' run :
  ad_runs db' = <[ru_id run := run]> (ad_runs db) -> ad_runs db !! ru_id run <> Some run ->
  written db db' = [run].
Proof.
  intros Heq Hne. unfold written.
  replace (filter _ _) with ({[ru_id run := run]} : gmap AutomationRunId AutomationRun);
    [by rewrite map_to_list_singleton|].
  symmetry. apply map_eq. intros k. rewrite Heq. apply option_eq. intros r.
  rewrite map_lookup_filter_Some, lookup_insert_Some, lookup_singleton_Some. simpl. split.
  - intros [[[<- <-]|[Hk Hr]] Hn]; [done|]. by rewrite Hr in Hn.
  - intros [<- <-]. split; [by left|done].
Qed.

(** The plans ever stored stay. *)
Lemma observe_plans h db key plan :
  hist_ok h -> (db = hs_db h \/ adb_step (hs_db h) db) -> not_reused h db ->
  hs_plans h !! key = Some plan -> hs_plans (observe h db) !! key = Some plan.
Proof.
  intros Hh Hstep [Hkeys _] Hplan. simpl. destruct (ad_versions db !! key) as [version|] eqn:Hv.
  - apply lookup_union_Some_l. rewrite lookup_fmap, Hv. simpl.
    destruct (Hkeys key) as [old Hold]; [eauto..|].
    pose proof (ho_plans _ Hh _ _ Hold) as Hplan'. rewrite Hplan in Hplan'. injection Hplan' as ->.
    destruct Hstep as [->|Hstep]; [congruence|].
    destruct (adb_step_version _ _ _ _ _ (ho_wf _ Hh) Hstep Hold Hv) as [(_ & -> & _) _]. done.
  - rewrite lookup_union_r; [done|]. by rewrite lookup_fmap, Hv.
Qed.

Lemma observe_stored h db key version :
  ad_versions db !! key = Some version -> hs_plans (observe h db) !! key = Some (sv_plan version).
Proof. intros Hv. simpl. apply lookup_union_Some_l. by rewrite lookup_fmap, Hv. Qed.

(** What a task holds, it keeps holding. *)
Lemma observe_holds h db t :
  hist_ok h -> (db = hs_db h \/ adb_step (hs_db h) db) -> not_reused h db -> holds h t -> holds (observe h db) t.
Proof.
  intros Hh Hstep Hnew [Hr Hv Ha Hs].
  assert (Hlog : forall run, run ∈ hs_log h -> run ∈ hs_log (observe h db))
    by (intros run Hin; simpl; apply elem_of_app; by right).
  split; [auto| |intros active Hin; eapply observe_plans; eauto|auto].
  intros version Hver. destruct (Hv _ Hver) as (run & Hrun & Hplan). exists run. split; [done|].
  by eapply observe_plans.
Qed.

(** A transaction that writes no run. *)
Lemma observe_quiet h db :
  hist_ok h -> (db = hs_db h \/ adb_step (hs_db h) db) -> not_reused h db ->
  (forall k run, ad_runs db !! k = Some run -> ad_runs (hs_db h) !! k = Some run) -> hist_ok (observe h db).
Proof.
  intros Hh Hstep Hnew Hsub. pose proof (observe_plans h db) as Hplans.
  assert (Hlog : hs_log (observe h db) = hs_log h) by (simpl; by rewrite written_none).
  split.
  - destruct Hstep as [->|Hstep]; [apply Hh|]. by eapply adb_step_wf, Hh.
  - intros key version. apply observe_stored.
  - rewrite Hlog. intros k run Hk. by apply (ho_newest _ Hh), Hsub.
  - rewrite Hlog. intros k Hne. destruct (ho_follows _ Hh k Hne) as (plan & Hf & Hall).
    exists plan. split; [done|]. intros run Hin. by apply Hplans, Hall.
Qed.

(** A transaction that writes the next row of a run. *)
Lemma observe_written h db run plan :
  hist_ok h -> adb_step (hs_db h) db -> not_reused h db ->
  ad_runs db = <[ru_id run := run]> (ad_runs (hs_db h)) -> ad_runs (hs_db h) !! ru_id run <> Some run ->
  follows plan (run :: rows_of (hs_log h) (ru_id run)) ->
  (forall r, r ∈ run :: rows_of (hs_log h) (ru_id run) -> hs_plans h !! run_version_key r = Some plan) ->
  hist_ok (observe h db).
Proof.
  intros Hh Hstep Hnew Hruns Hne Hf Hall.
  assert (Hplans : forall key plan, hs_plans h !! key = Some plan -> hs_plans (observe h db) !! key = Some plan)
    by (intros key plan'; apply observe_plans; auto).
  assert (Hlog : forall k, rows_of (hs_log (observe h db)) k
    = if String.eqb (ru_id run) k then run :: rows_of (hs_log h) k else rows_of (hs_log h) k).
  { intros k. simpl. rewrite (written_one _ _ _ Hruns Hne). simpl. unfold rows_of. simpl. by case_match. }
  split.
  - by eapply adb_step_wf, Hh.
  - intros key version. apply observe_stored.
  - intros k r Hk. rewrite Hlog. simpl in Hk. rewrite Hruns in Hk.
    apply lookup_insert_Some in Hk as [[<- <-]|[Hk Hr]]; [rewrite String.eqb_refl; eauto|].
    apply String.eqb_neq in Hk. rewrite Hk. by apply (ho_newest _ Hh).
  - intros k. rewrite Hlog. destruct (String.eqb_spec (ru_id run) k) as [<-|Hk].
    + intros _. exists plan. split; [done|]. intros r Hr. by apply Hplans, Hall.
    + intros Hnil. destruct (ho_follows _ Hh k Hnil) as (plan' & Hf' & Hall').
      exists plan'. split; [done|]. intros r Hr. by apply Hplans, Hall'.
Qed.

(** *** The two transactions that write runs *)

Lemma run_created h active o now db :
  hist_ok h -> not_reused h db ->
  hs_plans h !! (id_id (aav_identity active), do_version (sv_document (aav_version active)))
    = Some (sv_plan (aav_version active)) ->
  AutomationScheduler.is_version_of o active = true ->
  create_run (hs_db h) (AutomationScheduler.new_run active o now) = Ok db -> hist_ok (observe h db).
Proof.
  intros Hh Hnew Hplan Hv Hop. set (run := AutomationScheduler.new_run active o now) in *.
  assert (Hstep : adb_step (hs_db h) db) by by eapply Tx_create_run.
  unfold AutomationScheduler.is_version_of in Hv. bool_inv.
  assert (Hkey : hs_plans h !! run_version_key run = Some (sv_plan (aav_version active))).
  { rewrite <- Hplan. f_equal. unfold run_version_key. simpl. congruence. }
  unfold create_run in Hop. destruct (N.eqb (ru_revision run) 0); [|discriminate].
  destruct (ad_runs (hs_db h) !! ru_id run) as [existing|] eqn:Hold.
  { case_bool_decide; [|discriminate]. injection Hop as <-. apply observe_quiet; auto. }
  apply result_bind_ok in Hop as (? & _ & Hop).
  match type of Hop with (if ?b then _ else _) = _ => destruct b; [|discriminate] end. injection Hop as <-.
  assert (Hnone : rows_of (hs_log h) (ru_id run) = []).
  { destruct (rows_of _ _) as [|r rows] eqn:Hrows; [done|]. exfalso.
    assert (Hr : r ∈ rows_of (hs_log h) (ru_id run)) by (rewrite Hrows; by left).
    apply elem_of_rows_of in Hr as [Hr Hid]. destruct Hnew as [_ Hnew].
    destruct (Hnew _ Hr) as [? Hsome]; [|by rewrite Hid, Hold in Hsome].
    rewrite Hid. simpl. rewrite lookup_insert_eq. eauto. }
  apply (observe_written _ _ run (sv_plan (aav_version active))); try done.
  - by rewrite Hold.
  - rewrite Hnone. by apply Fl_created.
  - rewrite Hnone. by intros r ->%list_elem_of_singleton.
Qed.

Lemma revision_next revision :
  is_ok (to_i64 (u64_saturating_add revision 1)) = true -> u64_saturating_add revision 1 = (revision + 1)%N.
Proof. intros Hok. apply revision_grows in Hok. unfold u64_saturating_add in *. lia. Qed.

Lemma run_stepped h run write db :
  hist_ok h -> not_reused h db -> run ∈ hs_log h ->
  sw_expected_run_revision write = ru_revision run -> ru_id (sw_run write) = ru_id run ->
  (forall plan, hs_plans h !! run_version_key run = Some plan ->
     (exists progress, move plan progress (control_of run) (control_of (sw_run write)))
     \/ control_of (sw_run write) = cancelled (control_of run)) ->
  commit_step (hs_db h) write = Ok db -> hist_ok (observe h db).
Proof.
  intros Hh Hnew Hrun Hexp Hid Hmove Hop. set (next := sw_run write) in *.
  assert (Hstep : adb_step (hs_db h) db) by by eapply Tx_commit_step.
  apply commit_step_run in Hop as (db1 & Hop & Hruns). fold next in Hop.
  apply transition_run_spec in Hop as (old & event & Hold & Hrev & Hnext & Hal & Ha & Hv & Ho & Hact & Hok & ->).
  simpl in Hruns. destruct (logged_run _ _ Hh Hrun) as (plan & Hf & Hin & Hplan & Hall).
  destruct (ho_newest _ Hh _ _ Hold) as [rows Hrows]. rewrite Hid in Hrows. rewrite Hrows in Hf, Hin, Hall.
  assert (old = run) as ->.
  { eapply follows_unique; [exact Hf|by left|done|congruence]. }
  rewrite Hnext, Hexp in Hok. rewrite Hexp in Hnext. rewrite (revision_next _ Hok) in Hnext.
  assert (Hs : succeeds run next).
  { split; try done; [unfold run_version_key; congruence|by eapply allows_revision_terminal]. }
  apply (observe_written _ _ next plan); try done.
  - rewrite Hold. intros [= Heq]. rewrite Heq in Hnext. lia.
  - rewrite Hid, Hrows. destruct (Hmove _ Hplan) as [[progress Hm]|Hc]; [by eapply Fl_moved|by apply Fl_cancelled].
  - rewrite Hid, Hrows. intros r [->|Hr]%elem_of_cons; [|by apply Hall].
    rewrite (sc_version _ _ Hs). done.
Qed.

(** *** One operation *)

Lemma answered_ok {A : Type} (value : result A StorageError) a db db' :
  answered value (Ok a) db db' -> value = Ok a.
Proof. intros [_ [Hr|[error Hr]]]; [|discriminate]. destruct value; simpl in Hr; congruence. Qed.

(** What an operation leaves: the invariant, and what its task held. *)
Definition keeps_all (h : History) (db : AutomationDb) (t : Held) : Prop :=
  hist_ok (observe h db) /\ holds (observe h db) t.

Lemma kept_same h t : hist_ok h -> holds h t -> not_reused h (hs_db h) -> keeps_all h (hs_db h) t.
Proof. intros Hh Ht Hnew. split; [apply observe_quiet; auto|apply observe_holds; auto]. Qed.

Lemma kept_quiet h t db :
  hist_ok h -> holds h t -> not_reused h db -> adb_step (hs_db h) db -> ad_runs db = ad_runs (hs_db h) ->
  keeps_all h db t.
Proof.
  intros Hh Ht Hnew Hstep Hruns. split; [apply observe_quiet; auto; by rewrite Hruns|apply observe_holds; auto].
Qed.

Lemma kept_transacted h t db tx r :
  hist_ok h -> holds h t -> not_reused h db -> transacted tx r (hs_db h) db ->
  (tx = Ok db -> keeps_all h db t) -> keeps_all h db t.
Proof. intros Hh Ht Hnew [[-> _]|[Htx _]] Hok; [by apply kept_same|auto]. Qed.

Lemma kept_step h t db write r run :
  hist_ok h -> holds h t -> not_reused h db -> transacted (commit_step (hs_db h) write) r (hs_db h) db ->
  run ∈ hs_log h -> sw_expected_run_revision write = ru_revision run -> ru_id (sw_run write) = ru_id run ->
  (forall plan, hs_plans h !! run_version_key run = Some plan ->
     (exists progress, move plan progress (control_of run) (control_of (sw_run write)))
     \/ control_of (sw_run write) = cancelled (control_of run)) ->
  keeps_all h db t.
Proof.
  intros Hh Ht Hnew Htx Hrun Hexp Hid Hmove. eapply kept_transacted; eauto. intros Hop.
  split; [by eapply run_stepped|]. apply observe_holds; auto. right. by eapply Tx_commit_step.
Qed.

Lemma load_version_stored db id number version :
  load_version db id number = Ok (Some version) -> ad_versions db !! (id, number) = Some version.
Proof. unfold load_version. intros Hl. ok_inv. done. Qed.

Lemma holds_see h t runs : holds h t -> (forall run, run ∈ runs -> run ∈ hs_log h) -> holds h (see t runs).
Proof.
  intros [Hr Hv Ha Hs] Hruns. split; try done. intros run [Hin|Hin]%elem_of_app; auto.
Qed.

Lemma holds_read h t read :
  holds h t -> rd_run read = rd_run (h_read t) -> rd_version read = rd_version (h_read t) ->
  holds h (mk_held read (h_active t) (h_runs t)).
Proof. intros [Hr Hv Ha Hs] He He'. split; simpl; rewrite ?He, ?He'; done. Qed.

Lemma rt_kept h t op r db :
  hist_ok h -> holds h t -> allowed op (h_read t) -> rt_answers (hs_db h) op r db -> not_reused h db ->
  keeps_all h db (sys_gives (So_runtime op) r t).
Proof.
  intros Hh Ht Hneed Hans Hnew.
  assert (Hread : forall read, rd_run read = rd_run (h_read t) -> rd_version read = rd_version (h_read t) ->
    db = hs_db h -> keeps_all h db (mk_held read (h_active t) (h_runs t))).
  { intros read Hr Hv ->. apply kept_same; [done|by apply holds_read|done]. }
  destruct op; cbn [rt_answers] in Hans; cbn [sys_gives reads].
  2, 4-6: destruct Hans as [-> _]; repeat case_match; by apply Hread.
  4-8: by apply Hread.
  - destruct r as [[run|]|error]; [|by apply Hread; [..|apply Hans]..]. pose proof Hans as [-> _].
    apply answered_ok in Hans as [= Hrun]. apply kept_same; [done| |done].
    destruct Ht as [_ Hv Ha Hs]. split; simpl; [|intros version Hver|done..].
    + intros run' [= <-]. by eapply stored_in_log.
    + destruct (Hv _ Hver) as (run' & Hr & _). simpl in Hneed. congruence.
  - destruct r as [[stored|]|error]; [|by apply Hread; [..|apply Hans]..]. pose proof Hans as [-> _].
    apply answered_ok, load_version_stored in Hans. apply kept_same; [done| |done].
    destruct Hneed as (run & Hrun & -> & ->). destruct Ht as [Hr _ Ha Hs]. split; simpl; [done| |done..].
    intros version [= <-]. exists run. split; [done|]. by apply (ho_plans _ Hh).
  - destruct Hneed as (run & plan & sequence & (Hrun & _ & _ & Hplan & _) & Hw).
    apply fmap_Some in Hplan as (version & Hver & ->).
    destruct (hd_version _ _ Ht _ Hver) as (run' & Hrun' & Hplan). assert (run' = run) as -> by congruence.
    eapply kept_step; [done|by apply holds_read|done|exact Hans|by eapply hd_run|apply Hw|apply Hw|].
    intros plan Hplan'. left. rewrite Hplan in Hplan'. injection Hplan' as <-. apply Hw.
Qed.

Lemma elem_of_page {A : Type} limit le (rows : list A) a : a ∈ page limit le rows -> a ∈ rows.
Proof.
  unfold page. intros (i & Hi & _)%elem_of_take. apply list_elem_of_lookup_2 in Hi. by rewrite sort_by_perm in Hi.
Qed.

Lemma recovered_stored db limit run :
  run ∈ rcv_runs (recover db limit) -> exists k, ad_runs db !! k = Some run.
Proof.
  unfold recover. cbn [rcv_runs]. intros Hin%elem_of_page%list_elem_of_In.
  apply filter_In in Hin as [Hin _]. by apply elem_of_rows, list_elem_of_In.
Qed.

Lemma active_stored db limit active :
  adb_wf db -> active ∈ load_active_versions db limit ->
  ad_versions db !! (id_id (aav_identity active), do_version (sv_document (aav_version active)))
  = Some (aav_version active).
Proof.
  intros Hwf Hin. unfold load_active_versions in Hin.
  apply elem_of_take in Hin as (i & Hi & _).
  apply list_elem_of_lookup_2, list_elem_of_omap in Hi as (identity & _ & Hsome).
  apply bind_Some in Hsome as (n & _ & (stored & Hstored & [= <-])%bind_Some). simpl.
  destruct (wf_versions _ Hwf _ _ Hstored) as [Hkey _]. unfold version_key in Hkey. by simplify_eq.
Qed.

(** An accepted run is stored. *)
Lemma created_stored db run db' : create_run db run = Ok db' -> ad_runs db' !! ru_id run = Some run.
Proof.
  unfold create_run. intros Hop. destruct (N.eqb (ru_revision run) 0); [|discriminate].
  destruct (ad_runs db !! ru_id run) as [existing|] eqn:Hold.
  - case_bool_decide; [|discriminate]. injection Hop as <-. congruence.
  - apply result_bind_ok in Hop as (? & _ & Hop).
    match type of Hop with (if ?b then _ else _) = _ => destruct b; [|discriminate] end. injection Hop as <-.
    simpl. by rewrite lookup_insert_eq.
Qed.

Lemma transition_occurrence_runs db o db' :
  transition_occurrence db o = Ok db' -> ad_runs db' = ad_runs db.
Proof. unfold transition_occurrence. intros Hop. by ok_inv. Qed.

Lemma sc_kept h t op r db :
  hist_ok h -> holds h t -> sc_needs op t -> sc_answers (hs_db h) op r db -> not_reused h db ->
  keeps_all h db (sc_gives op r t).
Proof.
  intros Hh Ht Hneed Hans Hnew.
  assert (Hsee : forall runs, db = hs_db h -> (forall run, run ∈ runs -> run ∈ hs_log h) -> keeps_all h db (see t runs)).
  { intros runs -> Hruns. apply kept_same; [done|by apply holds_see|done]. }
  assert (Hsame : db = hs_db h -> keeps_all h db t) by (intros ->; by apply kept_same).
  destruct op; cbn [sc_answers] in Hans; cbn [sc_gives].
  - destruct r as [active|error]; [|apply Hsame, Hans]. pose proof Hans as [-> _].
    apply answered_ok in Hans as [= <-]. apply kept_same; [done| |done].
    destruct Ht as [Hr Hv _ Hs]. split; try done. simpl. intros active Hin.
    apply (ho_plans _ Hh). eapply active_stored; [apply Hh|done].
  - eapply kept_transacted; eauto. intros Hop. apply kept_quiet; auto;
      [by eapply Tx_create_occurrence|by eapply create_occurrence_runs].
  - apply Hsame, Hans.
  - eapply kept_transacted; eauto. intros Hop. apply kept_quiet; auto;
      [by eapply Tx_transition_occurrence|by eapply transition_occurrence_runs].
  - destruct r as [recovery|error]; [|apply Hsame, Hans]. pose proof Hans as [Heq _].
    apply Hsee; [done|]. apply answered_ok in Hans as [= <-]. intros run [k Hk]%recovered_stored.
    by eapply stored_in_log.
  - eapply kept_transacted; eauto. intros Hop. apply kept_quiet; auto;
      [by eapply Tx_transition_timer|by eapply transition_timer_runs].
  - apply Hsame, Hans.
  - destruct Hneed as (run & timers & o & sequence & now & Hrun & _ & ->).
    eapply kept_step; [done..|exact Hans|by eapply hd_runs|done|done|]. by right.
  - destruct r as [[run|]|error]; [|apply Hsame, Hans..]. pose proof Hans as [Heq _].
    apply Hsee; [done|]. apply answered_ok in Hans as [= Hrun]. intros run' ->%list_elem_of_singleton.
    by eapply stored_in_log.
  - destruct Hneed as (active & o & now & Hact & Hv & ->). pose proof (hd_active _ _ Ht _ Hact) as Hplan.
    assert (Hok : create_run (hs_db h) (AutomationScheduler.new_run active o now) = Ok db ->
      keeps_all h db t).
    { intros Hop. split; [by eapply run_created|]. apply observe_holds; auto. right. by eapply Tx_create_run. }
    destruct r as [[]|error]; [|by eapply kept_transacted].
    destruct Hans as [[_ [error Herr]]|[Hop _]]; [discriminate|]. destruct (Hok Hop) as [Hh' Ht'].
    split; [done|]. apply holds_see; [done|]. intros run ->%list_elem_of_singleton.
    eapply (stored_in_log _ _ _ Hh'). simpl. by eapply created_stored.
  - by apply Hsame.
Qed.

Lemma lc_kept h t op r db :
  hist_ok h -> holds h t -> lc_needs op t -> lc_answers (hs_db h) op r db -> not_reused h db ->
  keeps_all h db (lc_gives op r t).
Proof.
  intros Hh Ht Hneed Hans Hnew.
  assert (Hsame : db = hs_db h -> keeps_all h db t) by (intros ->; by apply kept_same).
  destruct op; try done; cbn [lc_answers] in Hans; cbn [lc_gives]; try (by apply Hsame); try (by apply Hsame, Hans).
  - destruct r as [[run|]|error]; [|apply Hsame, Hans..]. pose proof Hans as [-> _].
    apply answered_ok in Hans as [= Hrun]. apply kept_same; [done| |done]. apply holds_see; [done|].
    intros run' ->%list_elem_of_singleton. by eapply stored_in_log.
  - destruct Hneed as (id & run & timers & sequence & now & occurred_at & Hrun & _ & ->).
    eapply kept_step; [done..|exact Hans|by eapply hd_runs|done|done|]. by right.
Qed.

Lemma op_kept h t op r db :
  hist_ok h -> holds h t -> sys_needs op t -> answers (hs_db h) op r db -> not_reused h db ->
  keeps_all h db (sys_gives op r t).
Proof. destruct op; [apply rt_kept|apply sc_kept|apply lc_kept]. Qed.

(** *** The system *)

Definition sys_ok (s : Sys) : Prop :=
  hist_ok (sy_history s)
  /\ exists toks, tasks_ok sys_needs sys_gives (fun _ _ _ => True) holds (fun _ _ => True)
       (sy_history s) (sy_tasks s) toks.

Lemma holds_nothing_ok h : holds h holds_nothing.
Proof. split; simpl; try done; intros ? Hin; by apply not_elem_of_nil in Hin. Qed.

Lemma start_ok s : sys_start s -> sys_ok s.
Proof.
  intros (Hdb & Hruns & Hplans & Hlog & Htasks). split; [split|].
  - by apply adb_reachable_wf.
  - intros key version Hv. by rewrite Hplans, lookup_fmap, Hv.
  - intros k run Hk. by rewrite Hruns, lookup_empty in Hk.
  - intros k. by rewrite Hlog.
  - exists []. rewrite Htasks. apply tasks_ok_nil.
Qed.

Lemma spawn_ok s task : safe task -> sys_ok s -> sys_ok (spawn s task).
Proof.
  intros Hsafe [Hh [toks Hk]]. split; [done|]. exists (toks ++ [holds_nothing]).
  apply tasks_ok_spawn; auto. apply holds_nothing_ok.
Qed.

Lemma transacted_step tx r db db' :
  transacted tx r db db' -> (tx = Ok db' -> adb_step db db') -> db' = db \/ adb_step db db'.
Proof. intros [[-> _]|[Htx _]] Hop; auto. Qed.

Lemma op_step db op r db' t :
  sys_needs op t -> answers db op r db' -> db' = db \/ adb_step db db'.
Proof.
  intros Hn Hans.
  destruct op as [op|op|op]; destruct op; try done; simpl in Hans; unfold answered in Hans; destruct_and?; auto;
    (eapply transacted_step; [exact Hans|]);
    eauto using adb_step.
Qed.

Lemma step_ok s s' : sys_step s s' -> sys_ok s -> sys_ok s'.
Proof.
  intros Hstep Hs. destruct Hstep as [commands run_id|from through|fuel actor run_id|i op k r db Hi Hans Hnew|i
    |db Hdb Hruns Hnew].
  - by apply spawn_ok; [apply interpreter_safe|].
  - by apply spawn_ok; [apply scheduler_safe|].
  - by apply spawn_ok; [apply canceller_safe|].
  - destruct Hs as [Hh [toks Hk]].
    destruct (tasks_ok_head _ _ _ _ _ _ _ _ _ _ _ Hk Hi) as (t & Ht & Hok & Hn & Hnext).
    destruct (op_kept _ _ _ _ _ Hh Hok Hn Hans Hnew) as [Hh' Hok']. split; [done|].
    exists (<[i := sys_gives op r t]> toks). eapply tasks_ok_insert; [done|exact Hk|exact Ht|exact Hok'|by apply Hnext|].
    intros u Hu _. split; [|done]. apply observe_holds; auto. by eapply op_step.
  - destruct Hs as [Hh [toks Hk]]. split; [done|].
    eapply (tasks_ok_drop _ _ _ holds _ holds_nothing); first [exact Hk|done|by auto using holds_nothing_ok].
  - destruct Hs as [Hh [toks Hk]]. split; [by apply observe_quiet; auto|]. exists toks.
    eapply tasks_ok_world; [exact Hk|]. intros t Ht. apply observe_holds; auto.
Qed.

Lemma reachable_ok s : sys_reachable s -> sys_ok s.
Proof.
  intros (s0 & Hs0%start_ok & Hsteps). revert Hs0. induction Hsteps as [|s0 s1 s2 Hstep _ IH]; [done|].
  intros Hs0. by eapply IH, step_ok.
Qed.

(** C31: while any number of interpreters, schedulers and cancellations run the
    programs of the service over the shared store, one operation at a time, with
    stale reads, failed transactions, lost answers and deaths between any two
    operations, every row ever stored of a run follows its plan: the first row is
    the new run at the entry of the plan, and every later one is the next revision
    of the same run, by one move of the abstract machine of the plan its version
    was stored with, or by cancelling the run where it stood; the row now stored
    is the newest.  No version or run identity is used again after its row was
    deleted. *)
Theorem interpreters_follow_plan s k run :
  sys_reachable s -> ad_runs (hs_db (sy_history s)) !! k = Some run ->
  exists version rows,
    ad_versions (hs_db (sy_history s)) !! run_version_key run = Some version
    /\ rows_of (hs_log (sy_history s)) k = run :: rows /\ follows (sv_plan version) (run :: rows).
Proof.
  intros [Hh _]%reachable_ok Hrun. destruct (ho_newest _ Hh _ _ Hrun) as [rows Hrows].
  destruct (wf_runs _ (ho_wf _ Hh)) as [Hwf _]. destruct (Hwf _ _ Hrun) as (_ & [version Hv] & _).
  destruct (ho_follows _ Hh k) as (plan & Hf & Hall); [by rewrite Hrows|]. rewrite Hrows in Hf, Hall.
  assert (Hplan : hs_plans (sy_history s) !! run_version_key run = Some plan) by (apply Hall; by left).
  pose proof (ho_plans _ Hh _ _ Hv) as Hplan'. unfold run_version_key in Hplan. rewrite Hplan' in Hplan.
  exists version, rows. injection Hplan as ->. done.
Qed.

(** C29: in every state of that system, the rows ever stored of a run have changed
    its position in its plan, the node, the attempt of its command and the groups
    around it, at most two times more often than the cost of the plan's entry, which
    is computed from the plan alone, for a plan the compiler emits whose retry
    counts fit their type: joins, retries and branches cannot go on for ever, however
    interpreters race, die and repeat each other's work. *)
Theorem run_bounded s k run rows plan document snapshot :
  sys_reachable s -> rows_of (hs_log (sy_history s)) k = run :: rows ->
  hs_plans (sy_history s) !! run_version_key run = Some plan ->
  compile document snapshot = Ok plan -> retries_u16 plan ->
  (N.of_nat (position_changes (run :: rows)) <= cost plan (pl_entry plan) + 2)%N.
Proof.
  intros [Hh _]%reachable_ok Hrows Hplan Hc%compile_wf Hfit.
  destruct (ho_follows _ Hh k) as (plan' & Hf & Hall); [by rewrite Hrows|]. rewrite Hrows in Hf, Hall.
  assert (plan' = plan) as ->.
  { specialize (Hall run ltac:(by left)). congruence. }
  destruct (follows_path _ _ _ _ Hf eq_refl) as (n & c & Hpath & Hle & _).
  pose proof (run_path_cost _ _ _ Hc Hfit Hpath). lia.
Qed.

(** ** One task at a time *)

Section Alone.
Context (now : Instant).

(** Every answer of the store arrives; what is not the store answers an error. *)
Definition rt_exec (op : RtOp) : AutomationDb -> rt_resp op * AutomationDb :=
  match op return AutomationDb -> rt_resp op * AutomationDb with
  | Rt_automation_run id => fun db => (Ok (ad_runs db !! id), db)
  | Rt_automation_identity id => fun db => (Ok (ad_identities db !! id), db)
  | Rt_automation_version id number => fun db => (map_err Be_Storage (load_version db id number), db)
  | Rt_automation_trace id after limit => fun db => (map_err Be_Storage (load_trace db id after limit), db)
  | Rt_automation_timer id => fun db => (Ok (ad_timers db !! id), db)
  | Rt_recoverable_automation_work limit => fun db => (Ok (recover db limit), db)
  | Rt_commit_automation_step write => fun db => sc_write (commit_step db write) db
  | Rt_now => fun db => (now, db)
  | Rt_load | Rt_actor_security _ => fun db => (Err Be_Transport, db)
  | Rt_execute _ _ _ | Rt_get _ _ => fun db => (Err (Cse_Repository Be_Transport), db)
  end.

Definition lc_exec (op : AutomationLifecycle.LcOp) :
  AutomationDb -> AutomationLifecycle.lc_resp op * AutomationDb :=
  match op return AutomationDb -> AutomationLifecycle.lc_resp op * AutomationDb with
  | AutomationLifecycle.Lc_automation_run id => fun db => (Ok (ad_runs db !! id), db)
  | AutomationLifecycle.Lc_automation_version id number => fun db =>
      (map_err Be_Storage (load_version db id number), db)
  | AutomationLifecycle.Lc_automation_trace id after limit => fun db =>
      (map_err Be_Storage (load_trace db id after limit), db)
  | AutomationLifecycle.Lc_recoverable_automation_work limit => fun db => (Ok (recover db limit), db)
  | AutomationLifecycle.Lc_commit_automation_step write => fun db => sc_write (commit_step db write) db
  | AutomationLifecycle.Lc_now => fun db => (now, db)
  | AutomationLifecycle.Lc_wake => fun db => (Ok tt, db)
  | AutomationLifecycle.Lc_scheduler op => fun db => ((sc_exec now op db).1, db)
  | AutomationLifecycle.Lc_random => fun db => (EmptyString, db)
  | _ => fun db => (Err Be_Transport, db)
  end.

Definition sys_exec (op : SysOp) : AutomationDb -> sys_resp op * AutomationDb :=
  match op return AutomationDb -> sys_resp op * AutomationDb with
  | So_runtime op => rt_exec op
  | So_scheduler op => sc_exec now op
  | So_lifecycle op => lc_exec op
  end.

Lemma sys_exec_answers op db : answers db op (sys_exec op db).1 (sys_exec op db).2.
Proof.
  assert (Htx : forall tx, transacted tx (sc_write tx db).1 db (sc_write tx db).2).
  { intros [db'|error]; [right|left]; simpl; eauto. }
  destruct op as [op|op|op]; destruct op; simpl; try apply Htx; try done; split; auto.
Qed.

(** Nothing is deleted. *)
Definition grows (db db' : AutomationDb) : Prop :=
  (forall key, is_Some (ad_versions db !! key) -> is_Some (ad_versions db' !! key))
  /\ (forall k, is_Some (ad_runs db !! k) -> is_Some (ad_runs db' !! k)).

Lemma grows_insert db db' k run :
  ad_versions db' = ad_versions db -> ad_runs db' = <[k := run]> (ad_runs db) -> grows db db'.
Proof. intros Hv Hr. split; [by rewrite Hv|]. intros k' Hk. rewrite Hr, lookup_insert_is_Some'. by right. Qed.

Lemma grows_same db db' : ad_versions db' = ad_versions db -> ad_runs db' = ad_runs db -> grows db db'.
Proof. intros Hv Hr. split; [by rewrite Hv|by rewrite Hr]. Qed.

Lemma sc_write_grows tx db : (forall db', tx = Ok db' -> grows db db') -> grows db (sc_write tx db).2.
Proof. intros Htx. destruct tx as [db'|error]; simpl; [auto|by apply grows_same]. Qed.

Lemma commit_step_grows db write db' : commit_step db write = Ok db' -> grows db db'.
Proof.
  intros Hop. pose proof (commit_step_versions _ _ _ Hop) as Hv. apply commit_step_run in Hop as (db1 & Hop & Hr).
  apply transition_run_spec in Hop as (old & event & _ & _ & _ & _ & _ & _ & _ & _ & _ & ->).
  by apply (grows_insert _ _ (ru_id (sw_run write)) (sw_run write)).
Qed.

Lemma create_run_grows db run db' : create_run db run = Ok db' -> grows db db'.
Proof.
  unfold create_run. intros Hop. destruct (N.eqb (ru_revision run) 0); [|discriminate].
  destruct (ad_runs db !! ru_id run) as [existing|].
  - case_bool_decide; [|discriminate]. injection Hop as <-. by apply grows_same.
  - apply result_bind_ok in Hop as (? & _ & Hop).
    match type of Hop with (if ?b then _ else _) = _ => destruct b; [|discriminate] end. injection Hop as <-.
    by apply (grows_insert _ _ (ru_id run) run).
Qed.

Lemma sys_exec_grows op db : grows db (sys_exec op db).2.
Proof.
  destruct op as [op|op|op]; destruct op; simpl; try (by apply grows_same);
    apply sc_write_grows; intros db' Hop;
    first [by eapply commit_step_grows|by eapply create_run_grows|apply grows_same].
  - unfold create_occurrence in Hop. case_match; ok_inv; [case_match; by ok_inv|done].
  - by eapply create_occurrence_runs.
  - unfold transition_occurrence in Hop. by ok_inv.
  - by eapply transition_occurrence_runs.
  - by eapply transition_timer_versions.
  - by eapply transition_timer_runs.
Qed.

(** Everything in the history is still stored. *)
Definition undeleted (h : History) : Prop :=
  (forall key, is_Some (hs_plans h !! key) -> is_Some (ad_versions (hs_db h) !! key))
  /\ (forall run, run ∈ hs_log h -> is_Some (ad_runs (hs_db h) !! ru_id run)).

Lemma observe_undeleted h db :
  adb_wf db -> undeleted h -> grows (hs_db h) db -> undeleted (observe h db).
Proof.
  intros Hwf [Hv Hr] [Hgv Hgr]. split; simpl.
  - intros key [plan Hplan]. apply lookup_union_Some_raw in Hplan as [Hplan|[_ Hplan]]; [|eauto].
    rewrite lookup_fmap in Hplan. apply fmap_Some in Hplan as (version & Hversion & _). eauto.
  - intros run [Hin|Hin]%elem_of_app; [|eauto]. unfold written in Hin.
    apply list_elem_of_In, in_map_iff in Hin as ([k r] & <- & Hin%list_elem_of_In).
    apply elem_of_map_to_list, map_lookup_filter_Some in Hin as [Hk _]. simpl.
    destruct (wf_runs _ Hwf) as [Hids _]. destruct (Hids _ _ Hk) as (-> & _). eauto.
Qed.

(** A task that runs alone to its end. *)
Lemma alone_reachable i m s :
  sys_reachable s -> undeleted (sy_history s) -> sy_tasks s !! i = Some m ->
  exists s', sys_reachable s' /\ undeleted (sy_history s')
    /\ hs_db (sy_history s') = (Effects.run sys_exec m (hs_db (sy_history s))).2.
Proof.
  revert s. induction m as [[]|op k IH]; intros s Hs Hun Hi; [by exists s|].
  pose proof (sys_exec_answers op (hs_db (sy_history s))) as Hans.
  pose proof (sys_exec_grows op (hs_db (sy_history s))) as Hgrows. simpl.
  destruct (sys_exec op (hs_db (sy_history s))) as [r db]. simpl in Hans, Hgrows.
  assert (Hnew : not_reused (sy_history s) db).
  { destruct Hun as [Hv Hr]. split; auto. }
  set (s' := mk_sys (observe (sy_history s) db) (<[i := k r]> (sy_tasks s))).
  assert (Hs' : sys_reachable s').
  { destruct Hs as (s0 & Hs0 & Hsteps). exists s0. split; [done|]. eapply rtc_r; [exact Hsteps|].
    by eapply Ss_perform. }
  assert (Hun' : undeleted (sy_history s')).
  { apply observe_undeleted; [|done|done]. exact (ho_wf _ (proj1 (reachable_ok _ Hs'))). }
  destruct (IH r s' Hs' Hun') as (s2 & Hs2 & Hun2 & Hdb).
  { simpl. apply list_lookup_insert_eq. by eapply lookup_lt_Some. }
  exists s2. by rewrite Hdb.
Qed.

Lemma spawned_reachable m s :
  (forall s, sys_step s (spawn s m)) -> sys_reachable s -> undeleted (sy_history s) ->
  exists s', sys_reachable s' /\ undeleted (sy_history s')
    /\ hs_db (sy_history s') = (Effects.run sys_exec m (hs_db (sy_history s))).2.
Proof.
  intros Hspawn (s0 & Hs0 & Hsteps) Hun.
  apply (alone_reachable (length (sy_tasks s)) m (spawn s m)); [|done|].
  - exists s0. split; [done|]. eapply rtc_r; [exact Hsteps|apply Hspawn].
  - simpl. by rewrite lookup_app_r, Nat.sub_diag by lia.
Qed.
End Alone.

Definition fresh (db : AutomationDb) : Sys := mk_sys (mk_history db (sv_plan <$> ad_versions db) []) [].

Lemma fresh_reachable db :
  adb_reachable db -> ad_runs db = ∅ -> sys_reachable (fresh db) /\ undeleted (sy_history (fresh db)).
Proof.
  intros Hdb Hruns. split; [exists (fresh db); split; [by split_and!|constructor]|].
  split; simpl; [|intros run Hin; by apply not_elem_of_nil in Hin]. intros key.
  rewrite lookup_fmap. by rewrite fmap_is_Some.
Qed.

(** A tick, then a step of a run and its cancellation, each alone. *)
Lemma in_turn now db from through commands run_id fuel actor :
  adb_reachable db -> ad_runs db = ∅ ->
  exists s, sys_reachable s /\ undeleted (sy_history s) /\ hs_db (sy_history s)
    = (Effects.run (sys_exec now) (canceller fuel actor run_id)
        (Effects.run (sys_exec now) (interpreter commands run_id)
          (Effects.run (sys_exec now) (scheduler from through) db).2).2).2.
Proof.
  intros Hdb Hruns. destruct (fresh_reachable db Hdb Hruns) as [Hs0 Hun0].
  destruct (spawned_reachable now _ _ (fun s => Ss_schedule s from through) Hs0 Hun0) as (s1 & Hs1 & Hun1 & Hdb1).
  destruct (spawned_reachable now _ _ (fun s => Ss_interpret s commands run_id) Hs1 Hun1)
    as (s2 & Hs2 & Hun2 & Hdb2).
  destruct (spawned_reachable now _ _ (fun s => Ss_cancel s fuel actor run_id) Hs2 Hun2)
    as (s3 & Hs3 & Hun3 & Hdb3).
  exists s3. by rewrite Hdb3, Hdb2, Hdb1.
Qed.

End System.

(** ** The run of the gate: started by the scheduler, taken up by an interpreter
    and cancelled by its owner *)

Section Gate.
#[local] Existing Instance integer_json.
#[local] Existing Instance ranged_chrono.

Definition ready_db : AutomationDb := match gate_ready with Ok db => db | Err _ => empty_adb end.

Definition gate_run_id : AutomationRunId := AutomationRunId.from_occurrence "occurrence".

Definition started_db : AutomationDb := (Effects.run (sys_exec now0) (scheduler now0 now0) ready_db).2.
Definition advanced_db : AutomationDb :=
  (Effects.run (sys_exec now0) (interpreter true gate_run_id) started_db).2.
Definition cancelled_db : AutomationDb :=
  (Effects.run (sys_exec now0) (canceller 2 alice gate_run_id) advanced_db).2.

Definition cancelled_run : AutomationRun :=
  match ad_runs cancelled_db !! gate_run_id with Some run => run | None => gate_run Run_Pending 0 1 end.

Lemma gate_cancelled : exists s version, sys_reachable s
  /\ ad_runs (hs_db (sy_history s)) !! gate_run_id = Some cancelled_run
  /\ ad_versions (hs_db (sy_history s)) !! run_version_key cancelled_run = Some version
  /\ sv_plan version = plan_of gate_document.
Proof.
  assert (Hready : gate_ready = Ok ready_db).
  { unfold ready_db. assert (Hok : is_ok gate_ready = true) by (vm_compute; reflexivity).
    by destruct gate_ready. }
  assert (Hempty : ad_runs ready_db = ∅) by (vm_compute; reflexivity).
  assert (Hrun : ad_runs cancelled_db !! gate_run_id = Some cancelled_run) by (vm_compute; reflexivity).
  assert (Hplan : sv_plan <$> ad_versions cancelled_db !! run_version_key cancelled_run
    = Some (plan_of gate_document)) by (vm_compute; reflexivity).
  apply fmap_Some in Hplan as (version & Hversion & Hplan).
  destruct (in_turn now0 ready_db now0 now0 true gate_run_id 2 alice (gate_ready_reachable _ Hready) Hempty)
    as (s & Hs & _ & Hdb).
  fold started_db in Hdb. fold advanced_db in Hdb. fold cancelled_db in Hdb.
  exists s, version. rewrite Hdb. split; [exact Hs|]. split; [exact Hrun|]. split; [exact Hversion|].
  symmetry. exact Hplan.
Qed.

Lemma interpreters_follow_plan_witness : exists s rows, sys_reachable s
  /\ rows_of (hs_log (sy_history s)) gate_run_id = cancelled_run :: rows /\ length rows = 2
  /\ follows (plan_of gate_document) (cancelled_run :: rows).
Proof.
  destruct gate_cancelled as (s & version & Hs & Hrun & Hversion & Hplan).
  destruct (interpreters_follow_plan s gate_run_id cancelled_run Hs Hrun)
    as (version' & rows & Hversion' & Hrows & Hf).
  rewrite Hversion' in Hversion. injection Hversion as ->. rewrite Hplan in Hf.
  exists s, rows. split; [exact Hs|]. split; [exact Hrows|]. split; [|exact Hf].
  pose proof (follows_revision _ _ 0 cancelled_run Hf eq_refl) as Hlen.
  assert (Hrev : ru_revision cancelled_run = 2%N) by (vm_compute; reflexivity).
  rewrite Hrev in Hlen. injection Hlen as Hlen. symmetry. exact Hlen.
Defined.

Lemma run_bounded_witness : exists s rows, sys_reachable s
  /\ rows_of (hs_log (sy_history s)) gate_run_id = cancelled_run :: rows
  /\ (N.of_nat (position_changes (cancelled_run :: rows))
       <= cost (plan_of gate_document) (pl_entry (plan_of gate_document)) + 2)%N.
Proof.
  destruct gate_cancelled as (s & version & Hs & Hrun & Hversion & Hplan).
  destruct (reachable_ok s Hs) as [Hh _]. destruct (ho_newest _ Hh _ _ Hrun) as [rows Hrows].
  pose proof (ho_plans _ Hh _ _ Hversion) as Hkept. rewrite Hplan in Hkept.
  assert (Hc : compile gate_document hall = Ok (plan_of gate_document)) by (vm_compute; reflexivity).
  assert (Hu : retries_u16 (plan_of gate_document)) by (apply retries_fit_u16; vm_compute; reflexivity).
  exists s, rows. split; [exact Hs|]. split; [exact Hrows|].
  exact (run_bounded s gate_run_id cancelled_run rows (plan_of gate_document) gate_document hall Hs Hrows Hkept Hc Hu).
Defined.
End Gate.

(** * Properties of the interpreter's commands and traces: which keys its commands
    carry, and what the page limit of the store does to a long trace. *)

(** ** Keys *)

Lemma command_key_inj run n index attempt run' n' index' attempt' :
  no_colon run = true -> no_colon run' = true ->
  command_key run n index attempt = command_key run' n' index' attempt' ->
  run = run' /\ n = n' /\ index = index' /\ attempt = attempt'.
Proof.
  intros Hr Hr' Heq. unfold command_key in Heq. apply (inj (String.append "automation:")) in Heq.
  simpl in Heq. apply colon_split in Heq as [-> Heq]; [|done..].
  apply colon_split in Heq as [Hn Heq]; [|apply show_N_no_colon..].
  apply colon_split in Heq as [Hi Heq]; [|apply show_N_no_colon..].
  apply show_N_inj in Hn as ->; apply show_N_inj in Hi as ->; by apply show_N_inj in Heq as ->.
Qed.

(** two commands the interpreter sends carry the same idempotency key only
    for the same run, the same node and the same attempt, and under the same plan
    only for the same target, where run identities hold no colon, as the text of
    a UUID does: an attempt can be sent again after a crash without a second
    command, and a retry is always a new command. *)
Theorem command_keys_distinct run plan request run' plan' request' :
  legal_request run plan request -> legal_request run' plan' request' ->
  no_colon (ru_id run) = true -> no_colon (ru_id run') = true ->
  rq_idempotency_key request = rq_idempotency_key request' ->
  ru_id run = ru_id run' /\ ru_node_id run = ru_node_id run'
  /\ attempt_number (attempt_of run) = attempt_number (attempt_of run')
  /\ (plan = plan' -> rq_device_id request = rq_device_id request'
        /\ rq_endpoint_id request = rq_endpoint_id request' /\ rq_payload request = rq_payload request').
Proof.
  intros (n & ts & p & g & r & f & x & index & t & Hn & Hk & Ht & Hd & He & Hp & _ & Hkey & _)
    (n' & ts' & p' & g' & r' & f' & x' & index' & t' & Hn' & Hk' & Ht' & Hd' & He' & Hp' & _ & Hkey' & _)
    Hc Hc' Heq.
  rewrite Heq, Hkey' in Hkey. symmetry in Hkey. apply command_key_inj in Hkey as (Hr & Hnn & Hi & Ha); [|done..].
  subst n' index'. split_and!; [done|congruence|done|]. intros <-. rewrite Hk in Hk'. simplify_eq.
  split_and!; congruence.
Qed.

(** ** Long traces *)

Lemma create_timer_trace `{Uuids} db timer db' : create_timer db timer = Ok db' -> ad_trace db' = ad_trace db.
Proof. unfold create_timer. intros Hop. case_match; ok_inv; [case_match; by ok_inv|done]. Qed.

Lemma transition_timer_trace `{Uuids} db timer db' :
  transition_timer db timer = Ok db' -> ad_trace db' = ad_trace db.
Proof. unfold transition_timer. intros Hop. by ok_inv. Qed.

(** The first row of a commit continues the trace of its run. *)
Lemma commit_step_sequence `{Uuids} db write db' step rest :
  commit_step db write = Ok db' -> sw_trace write = step :: rest ->
  tt_sequence step = match last_sequence db (tt_run_id step) with
                     | Some sequence => (sequence + 1)%N | None => 0%N end.
Proof.
  unfold commit_step. intros Hop Htrace. destruct (_ && _); [|discriminate].
  apply result_bind_ok in Hop as (db1 & Hr & Hop). apply result_bind_ok in Hop as (db2 & Hc & Hop).
  apply result_bind_ok in Hop as (db3 & Ht & Hop). rewrite Htrace in Hop. simpl in Hop.
  apply result_bind_ok in Hop as (db4 & Ha & _). apply append_trace_spec in Ha as (_ & _ & Hseq & _).
  assert (Heq : ad_trace db3 = ad_trace db).
  { rewrite (each_row_frame _ _ _ _ _ transition_timer_trace Ht),
      (each_row_frame _ _ _ _ _ create_timer_trace Hc).
    by apply transition_run_spec in Hr as (old & event & _ & _ & _ & _ & _ & _ & _ & _ & _ & ->). }
  unfold last_sequence in *. by rewrite Heq in Hseq.
Qed.

(** C33: the store reads at most a thousand rows of a trace, and the interpreter
    takes their number for the next sequence: once the trace of a run that has
    not ended holds more, no write that is a move of the run and continues the
    trace as read is accepted, so the run can neither go on nor end, although the
    trace budget may allow up to a hundred thousand rows. *)
Theorem long_trace_stuck `{Uuids} `{Sha256} `{AutomationEncoding} db stored limit trace read run plan write :
  adb_reachable db -> ad_runs db !! ru_id run = Some stored ->
  AutomationRunState.is_terminal (ru_state stored) = false ->
  MAX_QUERY_PAGE < length (trace_of (ad_trace db) (ru_id run)) ->
  load_trace db (ru_id run) None limit = Ok trace ->
  legal_write read run plan (N.of_nat (length trace)) write ->
  forall db', commit_step db write <> Ok db'.
Proof.
  intros Hdb%adb_reachable_wf Hrun Hterm Hlong Hload Hw db' Hop.
  destruct (lw_trace _ _ _ _ _ Hw) as (step & Htrace & Hid & Hseq & _).
  pose proof (commit_step_sequence _ _ _ _ _ Hop Htrace) as Hnext.
  destruct (wf_trace _ Hdb) as (_ & _ & Hcont). specialize (Hcont _ _ Hrun Hterm).
  rewrite Hid, Hseq, last_sequence_contiguous in Hnext by done.
  rewrite load_trace_contiguous in Hload by done. injection Hload as <-.
  rewrite length_take in Hnext. lia.
Qed.

(** ** Witnesses *)

Definition gate_command_request (run : AutomationRun) (attempt : N) : CommandRequest :=
  mk_request "b-gate" "main" (Pl_OnOff (Oo_Set true)) (mk_key (command_key (ru_id run) 1 0 attempt)) now0 None
    false "correlation" None (Some (mk_causation (ru_automation_id run) (ru_version run) (ru_id run))).

Lemma gate_request_legal run :
  ru_node_id run = Some 1%N -> ru_command_attempt run = None ->
  legal_request run (plan_of gate_document) (gate_command_request run 0).
Proof.
  intros Hn Ha. exists 1%N. do 7 eexists. exists (mk_resolved "b-gate" "main" "on_off.v1").
  split; [exact Hn|]. split; [vm_compute; reflexivity|]. split; [instantiate (1 := 0%N); reflexivity|].
  do 4 (split; [reflexivity|]). unfold control_of. rewrite Ha. split; [reflexivity|]. split; [by left|reflexivity].
Qed.

Lemma command_keys_distinct_witness :
  attempt_number (attempt_of (gate_run Run_Pending 0 1)) = attempt_number (attempt_of (gate_run Run_Running 1 1)).
Proof.
  destruct (command_keys_distinct (gate_run Run_Pending 0 1) (plan_of gate_document)
    (gate_command_request (gate_run Run_Pending 0 1) 0) (gate_run Run_Running 1 1) (plan_of gate_document)
    (gate_command_request (gate_run Run_Running 1 1) 0)
    (gate_request_legal (gate_run Run_Pending 0 1) eq_refl eq_refl)
    (gate_request_legal (gate_run Run_Running 1 1) eq_refl eq_refl) eq_refl eq_refl eq_refl)
    as (_ & _ & Heq & _).
  exact Heq.
Defined.

Definition long_row (k : nat) : AutomationTraceStep :=
  mk_trace_step ("row-" +:+ show_N (N.of_nat k)) "run" (N.of_nat k) (Some 1%N) Tr_Command [] now0
    "correlation" None.

Lemma long_row_inj k k' : tt_id (long_row k) = tt_id (long_row k') -> k = k'.
Proof. intros Heq. apply (inj (String.append "row-")), show_N_inj in Heq. lia. Qed.

Lemma long_trace_of n : trace_of (map long_row (seq 0 n)) "run" = map long_row (seq 0 n).
Proof.
  unfold trace_of. generalize 0. induction n as [|n IH]; intros start; [done|]. simpl. by rewrite IH.
Qed.

(** The run of the gate script with as many rows of trace as one likes. *)
Lemma long_db n : (N.of_nat n <= 2000)%N -> exists db, adb_reachable db /\ ad_runs db = ad_runs gate_db
  /\ ad_trace db = map long_row (seq 0 n).
Proof.
  induction n as [|n IH]; intros Hn.
  { exists gate_db. split; [exact gate_db_reachable|]. split; [done|]. vm_compute. reflexivity. }
  destruct IH as (db & Hdb & Hr & Ht); [lia|].
  exists (set_trace db (ad_trace db ++ [long_row n])). split; [|split; [done|]].
  - eapply rtc_r; [exact Hdb|]. apply (Tx_append_trace _ (long_row n)). unfold append_trace.
    assert (Hrun : ad_runs gate_db !! "run"%string = Some (gate_run Run_Pending 0 1)) by (vm_compute; reflexivity).
    rewrite last_sequence_contiguous.
    2: { destruct (wf_trace _ (adb_reachable_wf _ Hdb)) as (_ & _ & Hc).
         by apply (Hc "run"%string (gate_run Run_Pending 0 1)); [rewrite Hr|]. }
    change (tt_run_id (long_row n)) with "run"%string. rewrite Ht, long_trace_of, length_map, length_seq.
    unfold to_i64, i64_try_from_u64. simpl tt_sequence.
    destruct (Z.leb_spec (Z.of_N (N.of_nat n)) i64_max) as [_|Hbig]; [|unfold i64_max in Hbig; lia].
    simpl. rewrite N.eqb_refl. simpl. rewrite Hr, Hrun, bool_decide_eq_true_2 by done. rewrite andb_true_r.
    replace (forallb _ _) with true; [done|]. symmetry. apply forallb_forall.
    intros row (k & <- & Hk%in_seq)%in_map_iff. apply negb_true_iff, String.eqb_neq.
    intros Heq%(long_row_inj k n). lia.
  - rewrite seq_S, map_app. simpl. by rewrite Ht.
Qed.

(** Its first move as the interpreter writes it after reading a full page. *)
Definition long_write : AutomationStepWrite :=
  mk_step_write (gate_run Run_Running 1 1) 0
    [mk_trace_step (AutomationTraceId.from_run_sequence "run" 1000) "run" 1000 (Some 1%N) Tr_Trigger []
       now0 "correlation" None] [] [].

Lemma long_write_legal :
  legal_write nothing_read (gate_run Run_Pending 0 1) (plan_of gate_document) 1000 long_write.
Proof.
  split; [exists true; constructor|done|done|done| |intros ? []%not_elem_of_nil|intros ? []%not_elem_of_nil].
  eexists. split; [reflexivity|done].
Qed.

Lemma long_trace_stuck_witness :
  exists db, adb_reachable db /\ length (trace_of (ad_trace db) "run") = 1001
  /\ forall db', commit_step db long_write <> Ok db'.
Proof.
  assert (Hle : (N.of_nat 1001 <= 2000)%N) by done.
  destruct (long_db 1001 Hle) as (db & Hdb & Hr & Ht). exists db.
  assert (Hrun : ad_runs db !! "run"%string = Some (gate_run Run_Pending 0 1)).
  { rewrite Hr. vm_compute. reflexivity. }
  assert (Hlen : length (trace_of (ad_trace db) "run") = 1001).
  { rewrite Ht, long_trace_of, length_map. apply length_seq. }
  destruct (wf_trace _ (adb_reachable_wf _ Hdb)) as (_ & _ & Hc). specialize (Hc _ _ Hrun eq_refl).
  pose proof (load_trace_contiguous _ _ 1000 Hc) as Hload.
  split; [exact Hdb|]. split; [exact Hlen|].
  assert (Htaken : length (take (Nat.min 1000 MAX_QUERY_PAGE) (trace_of (ad_trace db) "run")) = 1000).
  { rewrite length_take, Hlen. reflexivity. }
  assert (Hlong : MAX_QUERY_PAGE < length (trace_of (ad_trace db) "run")).
  { rewrite Hlen. unfold MAX_QUERY_PAGE. lia. }
  refine (long_trace_stuck db (gate_run Run_Pending 0 1) 1000
    (take (Nat.min 1000 MAX_QUERY_PAGE) (trace_of (ad_trace db) "run")) nothing_read (gate_run Run_Pending 0 1)
    (plan_of gate_document) long_write Hdb Hrun eq_refl Hlong Hload _).
  rewrite Htaken. exact long_write_legal.
Defined.
