(* ===== verification/ApplicationFixture.v ===== *)
(** A small house the witnesses of the device application run in: one plug of a
    Shelly integration, with one observation. *)

From S2P Require Import Prelude Text BTree Json Capability Lifecycle Device Command MatterState CommandStore CommandService Identity FoundationStore Reconciliation CommandFixture.

#[local] Existing Instance integer_json.

(** Identities that are the names they derive from. *)
#[export] Instance plain_uuids : Uuids :=
  {| uuid_v4 := fun n => "random-" +:+ show_N (N.of_nat n); uuid_v5 := fun _ name => name |}.

Definition plug_id : DeviceId := DeviceId.from_integration "shelly-1" "n1".

Definition plug_snapshot (name : string) (at_ : Instant) : DeviceSnapshot :=
  mk_snapshot plug_id "n1" "shelly" name "M" "X" []
    [mk_endpoint "main" None [Snapshot_OnOff false Risk_Comfort]] at_ [].

Definition plug : DeviceRecord :=
  mk_device "home" "shelly-1" (plug_snapshot "Plug" now0) Enrolled
    (mk_availability Av_Online now0 None) (mk_timestamps now0 now0 (Some now0)) ∅ ∅
    (descriptors (plug_snapshot "Plug" now0)).

Definition plug_switch : CapabilityObservation :=
  mk_observation plug_id "main" (mk_descriptor "on_off" 1 Risk_Comfort)
    [("on"%string, mk_observed (JBool true) now0)] now0 (mk_source "shelly-1" Src_Notification None).

Definition empty_db : FoundationDb :=
  mk_foundation_db (mk_db ∅ ∅ ∅ ∅ ∅ ∅ ∅ [] 1 ∅ ∅ ∅ ∅ ∅) ∅ ∅ ∅ ∅ ∅ ∅ ∅ ∅ [] 0 ∅.

Definition house_write : FoundationWrite :=
  mk_foundation_write [mk_installation "home" "Home" 0]
    [mk_integration "shelly-1" "home" "shelly" "default" "Shelly" None] [] [plug] [plug_switch] [] [].

Definition house_db : FoundationDb :=
  match apply empty_db house_write with Ok db => db | Err _ => empty_db end.

(** The same house with a Matter projection on the plug. *)
Definition plug_projection : StoredMatterProjection :=
  mk_projection "home" "fabric" 7 1 "projection" plug_id "main" "on_off.v1" 1
    (mk_projected "projection" None None None Mf_Fresh Mc_NoDesiredState None) 1 0.

Definition projected_db : FoundationDb :=
  FoundationStore.set_devices house_db
    (set_projections (fd_db house_db)
       {["projection"%string := mk_projection_row "home" 1 true plug_projection]})
    (fd_devices house_db).

(** What a scan of the house can find: the plug again, a bulb that is new, and a
    device under an identity that is not its own. *)
Definition found (native_id name : string) (id : DeviceId) (at_ : Instant) : DiscoveryCandidate :=
  mk_candidate "home" "shelly-1"
    (mk_snapshot id native_id "shelly" name "M" "X" []
       [mk_endpoint "main" None [Snapshot_OnOff true Risk_Comfort]] at_ []) at_ [].

Definition bulb_id : DeviceId := DeviceId.from_integration "shelly-1" "n2".

Definition scan_result : list DiscoveryCandidate :=
  [found "n1" "Plug" plug_id (now0 + 1)%Z; found "n2" "Bulb" bulb_id now0;
   found "n3" "Stranger" "somebody" now0].

Definition numbered_draws (prefix : string) (n : nat) : string := prefix +:+ show_N (N.of_nat n).
