(* ===== verification/ReconciliationProps.v ===== *)
(** What reconciliation promises: the devices it writes are those of a reference
    definition, its events replay to the states it stores, and reconciling the
    same candidates again changes nothing. *)

From S2P Require Import Prelude Text BTree Json Capability Lifecycle Device Command Effects CommandStore CommandService Identity FoundationStore Reconciliation CommandFixture ApplicationFixture.

(** ** The derived equality *)

Lemma list_eqb_trans {A} (eqb : A -> A -> bool) :
  (forall a b c, eqb a b = true -> eqb b c = true -> eqb a c = true) ->
  forall l k j, list_eqb eqb l k = true -> list_eqb eqb k j = true -> list_eqb eqb l j = true.
Proof.
  intros Ht l. induction l as [|a l IH]; intros [|b k] [|c j]; simpl; try done.
  intros [H1 H2]%andb_true_iff [H3 H4]%andb_true_iff. apply andb_true_iff. eauto.
Qed.

Lemma option_eqb_trans {A} (eqb : A -> A -> bool) :
  (forall a b c, eqb a b = true -> eqb b c = true -> eqb a c = true) ->
  forall a b c, option_eqb eqb a b = true -> option_eqb eqb b c = true -> option_eqb eqb a c = true.
Proof. intros Ht [a|] [b|] [c|]; simpl; try done. eauto. Qed.

Lemma f64_eqb_trans a b c : f64_eqb a b = true -> f64_eqb b c = true -> f64_eqb a c = true.
Proof.
  unfold f64_eqb. rewrite !andb_true_iff, !orb_true_iff, !andb_true_iff, !N.eqb_eq.
  intros [[Ha _] [->|[Ha0 Hb0]]] [[Hb Hc] [->|[Hb1 Hc0]]]; intuition congruence.
Qed.

Ltac eqb_trans :=
  repeat match goal with
  | H : andb _ _ = true |- _ => apply andb_true_iff in H as [? ?]
  | H : bool_decide _ = true |- _ => apply bool_decide_eq_true in H
  | H : String.eqb _ _ = true |- _ => apply String.eqb_eq in H
  | H : N.eqb _ _ = true |- _ => apply N.eqb_eq in H
  | H : Z.eqb _ _ = true |- _ => apply Z.eqb_eq in H
  | H : Bool.eqb _ _ = true |- _ => apply Bool.eqb_prop in H
  | |- andb _ _ = true => apply andb_true_iff; split
  | |- bool_decide _ = true => apply bool_decide_eq_true; congruence
  | |- String.eqb _ _ = true => apply String.eqb_eq; congruence
  | |- N.eqb _ _ = true => apply N.eqb_eq; congruence
  | |- Z.eqb _ _ = true => apply Z.eqb_eq; congruence
  | |- Bool.eqb _ _ = true => apply Bool.eqb_true_iff; congruence
  end;
  eauto using f64_eqb_trans, option_eqb_trans, list_eqb_trans.

Lemma capability_eqb_trans a b c :
  CapabilitySnapshot.eqb a b = true -> CapabilitySnapshot.eqb b c = true ->
  CapabilitySnapshot.eqb a c = true.
Proof. destruct a, b, c; simpl; try done; intros; eqb_trans. Qed.

Section Props.
Context `{SerdeJson} `{Uuids}.

Lemma snapshot_eqb_trans (a b c : DeviceSnapshot) :
  snapshot_eqb a b = true -> snapshot_eqb b c = true -> snapshot_eqb a c = true.
Proof.
  unfold snapshot_eqb. intros. eqb_trans.
  - eapply list_eqb_trans; [|eassumption|eassumption]. unfold network_eqb. intros. eqb_trans.
  - eapply list_eqb_trans; [|eassumption|eassumption]. unfold endpoint_eqb. intros. eqb_trans.
    eapply list_eqb_trans; [|eassumption|eassumption]. apply capability_eqb_trans.
Qed.

Lemma device_eqb_trans (a b c : DeviceRecord) :
  device_eqb a b = true -> device_eqb b c = true -> device_eqb a c = true.
Proof. unfold device_eqb. intros. eqb_trans. by eapply snapshot_eqb_trans. Qed.

(** The same record, up to what the program can tell apart. *)
Definition same_device (a b : DeviceRecord) : Prop := a = b \/ device_eqb a b = true.

#[export] Instance same_device_refl : Reflexive same_device.
Proof. intros a. by left. Qed.
#[export] Instance same_device_trans : Transitive same_device.
Proof.
  intros a b c [->|Hab] [->|Hbc]; [by left|by right|by right|].
  right. by eapply device_eqb_trans.
Qed.

(** ** The reference definition *)

Definition expected_id (c : DiscoveryCandidate) : DeviceId :=
  DeviceId.from_integration (dc_integration_id c) (ds_native_id (dc_snapshot c)).

Definition well_identified (c : DiscoveryCandidate) : bool :=
  String.eqb (ds_id (dc_snapshot c)) (expected_id c).

(** The record of a candidate seen for the first time. *)
Definition enrolled (c : DiscoveryCandidate) : DeviceRecord :=
  let s := dc_snapshot c in
  mk_device (dc_installation_id c) (dc_integration_id c) s Enrolled
    (mk_availability Av_Online (ds_observed_at s) None)
    (mk_timestamps (Z.min (dc_discovered_at c) (ds_observed_at s)) (ds_observed_at s)
       (Some (ds_observed_at s))) ∅ ∅ (descriptors s).

(** A known record that was seen again: the identities, the first sight, the
    aliases and the spaces stay. *)
Definition rediscovered (r : DeviceRecord) (c : DiscoveryCandidate) : DeviceRecord :=
  let s := dc_snapshot c in
  let snapshot := mk_snapshot (ds_id (dr_snapshot r)) (ds_native_id s) (ds_integration s) (ds_name s)
    (ds_manufacturer s) (ds_model s) (ds_network s) (ds_endpoints s) (ds_observed_at s)
    (ds_vendor_data s) in
  let ts := dr_timestamps r in
  mk_device (dr_installation_id r) (dr_integration_id r) snapshot Enrolled
    (if bool_decide (av_state (dr_availability r) = Av_Online /\ av_reason (dr_availability r) = None)
     then dr_availability r else mk_availability Av_Online (ds_observed_at s) None)
    (mk_timestamps (ts_first_seen ts)
       (Z.max (Z.max (ts_last_seen ts) (dc_discovered_at c)) (ds_observed_at s))
       (Some (match ts_last_success ts with
              | None => ds_observed_at s
              | Some t => Z.max t (ds_observed_at s)
              end)))
    (dr_aliases r) (dr_spaces r) (descriptors snapshot).

(** Why a sight of a known record is refused: its clock lies before the first one. *)
Definition too_early (r : DeviceRecord) (c : DiscoveryCandidate) : option ApplicationError :=
  let first := ts_first_seen (dr_timestamps r) in
  let refuse t := Some (Ap_DomainInvariant (Inv_Timestamp (mk_timestamp_error first t))) in
  if (dc_discovered_at c <? first)%Z then refuse (dc_discovered_at c)
  else if (ds_observed_at (dc_snapshot c) <? first)%Z then refuse (ds_observed_at (dc_snapshot c))
  else None.

(** Absorbs one candidate into the devices by identity. *)
Definition absorb (m : gmap DeviceId DeviceRecord) (c : DiscoveryCandidate) :
  result (gmap DeviceId DeviceRecord) ApplicationError :=
  if negb (well_identified c) then Ok m
  else
    match m !! expected_id c with
    | None => Ok (<[expected_id c := enrolled c]> m)
    | Some r =>
        match too_early r c with
        | Some e => Err e
        | None => Ok (<[expected_id c := rediscovered r c]> m)
        end
    end.

(** What the events of a device say of its lifecycle and availability: [None]
    when one does not start where the last one ended or is no legal transition. *)
Definition DeviceState : Type := DeviceLifecycle * AvailabilityState.

Definition replay_event (state : option DeviceState) (event : DomainEvent) : option DeviceState :=
  match state, ev_kind event with
  | Some (lifecycle, availability), Ev_LifecycleChanged from to trigger =>
      if bool_decide (lifecycle = from)
         && bool_decide (result_ok (DeviceLifecycle.transition from trigger) = Some to)
      then Some (to, availability) else None
  | Some (lifecycle, availability), Ev_AvailabilityChanged from to _ =>
      if bool_decide (availability = from) then Some (lifecycle, to) else None
  | _, _ => None
  end.

Definition about (id : DeviceId) (event : DomainEvent) : bool :=
  bool_decide (ev_device_id event = Some id).

Definition replay (id : DeviceId) (start : DeviceState) (events : list DomainEvent) :
  option DeviceState := fold_left replay_event (List.filter (about id) events) (Some start).

Definition device_state (r : DeviceRecord) : DeviceState :=
  (dr_lifecycle r, av_state (dr_availability r)).

Definition state_before (known : option DeviceRecord) : DeviceState :=
  match known with Some r => device_state r | None => (Candidate, Av_Unknown) end.

(** ** One candidate *)

Lemma enroll_candidate_spec c : enroll_candidate c = Ok (enrolled c).
Proof.
  unfold enroll_candidate, enrolled, DeviceTimestamps.record_success,
    DeviceTimestamps.record_seen, DeviceTimestamps.validate. simpl.
  destruct (Z.ltb_spec (ds_observed_at (dc_snapshot c))
    (dc_discovered_at c `min` ds_observed_at (dc_snapshot c))%Z); [lia|]. simpl.
  unfold online, with_availability, with_timestamps. simpl. do 3 f_equal. lia.
Qed.

(** The events of a sight, from draw [n] on. *)
Definition sight_events (draws : nat -> string) (causation : CausationMetadata) (r : DeviceRecord)
  (c : DiscoveryCandidate) (n : nat) : list DomainEvent :=
  let trigger := if bool_decide (dr_lifecycle r = Candidate) then Enroll else Rediscover in
  let events :=
    if bool_decide (dr_lifecycle r = Enrolled) then []
    else [lifecycle_event (draws n) (rediscovered r c) (dr_lifecycle r) trigger causation] in
  events ++
    (if bool_decide (av_state (dr_availability r) = Av_Online) then []
     else [availability_event (draws (n + length events)) (rediscovered r c)
             (av_state (dr_availability r)) causation]).

Lemma update_record_spec draws causation r c n :
  update_record draws causation r c n
  = match too_early r c with
    | Some e => Err e
    | None => let events := sight_events draws causation r c n in
              Ok (rediscovered r c, events, n + length events)
    end.
Proof.
  unfold update_record, too_early, DeviceTimestamps.record_success, DeviceTimestamps.record_seen,
    DeviceTimestamps.validate, sight_events, rediscovered, lifecycle_event, availability_event. simpl.
  destruct (dc_discovered_at c <? _)%Z; [done|]. simpl.
  destruct (ds_observed_at (dc_snapshot c) <? _)%Z; [done|]. simpl.
  unfold online, with_availability, Availability.transition, replace_snapshot.
  destruct r as [inst int s l [st since reason] ts al sp de]. simpl.
  destruct l, st, reason; simpl; by rewrite ?Nat.add_0_r, ?Nat.add_1_r, ?Nat.add_succ_r, ?Nat.add_0_r.
Qed.

(** ** The loop follows the reference *)

Lemma replay_app id start events more :
  replay id start (events ++ more)
  = match replay id start events with Some state => replay id state more | None => None end.
Proof.
  unfold replay. rewrite List.filter_app, fold_left_app.
  destruct (fold_left replay_event (List.filter (about id) events) (Some start)) as [state|]; [done|].
  induction (List.filter (about id) more) as [|e l IH]; simpl; done.
Qed.

Lemma replay_other id start events :
  (forall e, In e events -> ev_device_id e <> Some id) -> replay id start events = Some start.
Proof.
  intros He. unfold replay. replace (List.filter (about id) events) with (@nil DomainEvent); [done|].
  induction events as [|e events IH]; simpl; [done|]. unfold about.
  rewrite bool_decide_eq_false_2 by (apply He; by left). apply IH. intros e' Hin. apply He. by right.
Qed.

Lemma sight_events_about draws causation r c n e :
  In e (sight_events draws causation r c n) -> ev_device_id e = Some (ds_id (dr_snapshot r)).
Proof.
  unfold sight_events. rewrite in_app_iff. intros [Hin|Hin]; revert Hin;
    case_bool_decide; simpl; by intros; destruct_or?; subst.
Qed.

Lemma sight_replay draws causation r c n :
  replay (ds_id (dr_snapshot r)) (device_state r) (sight_events draws causation r c n)
  = Some (Enrolled, Av_Online).
Proof.
  destruct r as [inst int s l [st since reason] ts al sp de].
  unfold replay, about, sight_events, device_state, rediscovered. simpl.
  destruct l, st, reason; simpl; repeat (rewrite bool_decide_eq_true_2 by done; simpl); done.
Qed.

Lemma rediscovered_settled r c :
  dr_lifecycle (rediscovered r c) = Enrolled /\ av_state (dr_availability (rediscovered r c)) = Av_Online /\
  av_reason (dr_availability (rediscovered r c)) = None.
Proof. unfold rediscovered. simpl. case_bool_decide as Hav; simpl; [|done]. by destruct Hav. Qed.

Definition candidate_key (c : DiscoveryCandidate) : string * string :=
  (dc_integration_id c, ds_native_id (dc_snapshot c)).

Definition derived_id (key : string * string) : DeviceId := DeviceId.from_integration key.1 key.2.

Definition settled (r : DeviceRecord) : Prop :=
  dr_lifecycle r = Enrolled /\ av_state (dr_availability r) = Av_Online /\
  av_reason (dr_availability r) = None.

Section Loop.
Context (draws : nat -> string) (causation : CausationMetadata)
  (known : gmap DeviceId DeviceRecord) (keys : list (string * string)).

(** The derived identities in play do not collide. *)
Hypothesis distinct : forall k k', In k keys -> In k' keys -> derived_id k = derived_id k' -> k = k'.

Definition record_ok (id : DeviceId) (r : DeviceRecord) : Prop :=
  ds_id (dr_snapshot r) = id /\ id = derived_id (native_key r) /\ In (native_key r) keys.

Record tracks (s : Reconciling) (m : gmap DeviceId DeviceRecord) : Prop := {
  tr_records id : bget id (rc_records s) = m !! id;
  tr_ok id r : m !! id = Some r -> record_ok id r;
  tr_native k id : rc_native s !! k = Some id <-> exists r, m !! id = Some r /\ native_key r = k;
  tr_sorted : bsorted (rc_changed s);
  tr_changed id r : bget id (rc_changed s) = Some r ->
    is_Some (m !! id) /\ ds_id (dr_snapshot r) = id /\ settled r;
  tr_devices id r : m !! id = Some r -> exists r',
    match bget id (rc_changed s) with Some r' => Some r' | None => known !! id end = Some r' /\
    same_device r r';
  tr_known id : is_Some (known !! id) -> is_Some (m !! id);
  tr_events id r : m !! id = Some r ->
    replay id (state_before (known !! id)) (rc_events s) = Some (device_state r);
  tr_about e : In e (rc_events s) -> exists id, ev_device_id e = Some id /\ is_Some (m !! id)
}.

(** The state after a candidate was taken, whatever its record was before. *)
Lemma tracks_insert s m id r changed events repairs accepted n :
  tracks s m -> record_ok id r ->
  (changed = binsert id r (rc_changed s) /\ settled r \/
   changed = rc_changed s /\ exists r0, m !! id = Some r0 /\ same_device r r0) ->
  (forall e, In e events -> ev_device_id e = Some id) ->
  replay id (state_before (m !! id)) events = Some (device_state r) ->
  tracks (mk_reconciling (binsert id r (rc_records s)) (<[native_key r := id]> (rc_native s))
            changed (rc_events s ++ events) repairs accepted n) (<[id := r]> m).
Proof.
  intros [Hrec Hok Hnat Hsort Hch Hdev Hkn Hev Hab] Hr Hchanged Habout Hreplay.
  assert (Hkey : forall id' r', m !! id' = Some r' -> native_key r' = native_key r -> id' = id).
  { intros id' r' (_ & -> & _)%Hok E. rewrite E. symmetry. apply Hr. }
  split; simpl.
  - intros id'. destruct (decide (id' = id)) as [->|Hne].
    + by rewrite bget_binsert_eq, lookup_insert_eq.
    + by rewrite bget_binsert_ne, lookup_insert_ne, Hrec by congruence.
  - intros id' r'. rewrite lookup_insert_Some. intros [[<- <-]|[_ Hm]]; [done|by apply Hok].
  - intros k id'. split.
    + rewrite lookup_insert_Some. intros [[<- <-]|[Hk (r' & Hm & Hn)%Hnat]].
      * exists r. by rewrite lookup_insert_eq.
      * destruct (decide (id' = id)) as [->|Hne]; [|exists r'; by rewrite lookup_insert_ne].
        destruct Hr as (_ & E & Hin), (Hok _ _ Hm) as (_ & E' & Hin').
        exists r. rewrite lookup_insert_eq. split; [done|]. subst k. apply distinct; congruence.
    + intros (r' & Hm & <-). revert Hm. rewrite lookup_insert_Some. intros [[<- <-]|[Hne Hm]].
      * by rewrite lookup_insert_eq.
      * rewrite lookup_insert_ne; [apply Hnat; eauto|]. intros E. by eapply Hne, eq_sym, Hkey.
  - destruct Hchanged as [[-> _]|[-> _]]; [by apply binsert_sorted|done].
  - intros id' r' Hb. destruct (decide (id' = id)) as [->|Hne].
    + rewrite lookup_insert_eq. split; [eauto|]. destruct Hchanged as [[-> Hs]|[-> _]].
      * rewrite bget_binsert_eq in Hb. simplify_eq. by split; [apply Hr|].
      * by apply Hch in Hb as [_ Hb].
    + rewrite lookup_insert_ne by done. apply Hch.
      destruct Hchanged as [[-> _]|[-> _]]; [by rewrite bget_binsert_ne in Hb|done].
  - intros id' r'. rewrite lookup_insert_Some. intros [[<- <-]|[Hne Hm]].
    + destruct Hchanged as [[-> _]|(-> & r0 & Hm & Hs)].
      * exists r. by rewrite bget_binsert_eq.
      * destruct (Hdev _ _ Hm) as (r' & E & Hs'). exists r'. split; [done|]. by etrans.
    + destruct Hchanged as [[-> _]|[-> _]]; [rewrite bget_binsert_ne by done|]; by apply Hdev.
  - intros id' Hk. destruct (decide (id' = id)) as [->|Hne];
      [rewrite lookup_insert_eq; eauto|]. rewrite lookup_insert_ne by done. by apply Hkn.
  - intros id' r'. rewrite replay_app, lookup_insert_Some. intros [[<- <-]|[Hne Hm]].
    + destruct (m !! id) as [r0|] eqn:Hm; [by rewrite (Hev _ _ Hm)|].
      rewrite (replay_other _ _ (rc_events s)).
      * destruct (known !! id) eqn:Ek; [|done]. destruct (Hkn id) as [? Hs]; [by rewrite Ek|congruence].
      * intros e Hin E. destruct (Hab _ Hin) as (id' & E' & Hs). rewrite E in E'.
        injection E' as <-. rewrite Hm in Hs. by apply is_Some_None in Hs.
    + rewrite (Hev _ _ Hm). apply replay_other. intros e Hin. rewrite (Habout _ Hin). congruence.
  - intros e [Hin|Hin]%in_app_iff.
    + destruct (Hab _ Hin) as (id' & E & Hs). exists id'. split; [done|].
      destruct (decide (id' = id)) as [->|Hne]; [rewrite lookup_insert_eq; eauto|].
      by rewrite lookup_insert_ne.
    + exists id. rewrite lookup_insert_eq. eauto.
Qed.

Lemma tracks_repairs s m repairs n : tracks s m -> tracks (set_repairs s repairs n) m.
Proof. by intros []. Qed.

(** The first candidate of an identity is the one the index does not know. *)
Lemma tracks_index s m c :
  tracks s m -> In (candidate_key c) keys ->
  rc_native s !! candidate_key c
  = match m !! expected_id c with Some _ => Some (expected_id c) | None => None end.
Proof.
  intros Ht Hin. destruct (rc_native s !! candidate_key c) as [id|] eqn:E.
  - apply (tr_native _ _ Ht) in E as (r & Hm & Hk). destruct (tr_ok _ _ Ht _ _ Hm) as (_ & Hid & _).
    rewrite Hk in Hid. change (id = expected_id c) in Hid. subst id. by rewrite Hm.
  - destruct (m !! expected_id c) as [r|] eqn:Hm; [|done].
    destruct (tr_ok _ _ Ht _ _ Hm) as (_ & Hid & Hr).
    assert (Hk : native_key r = candidate_key c) by (by apply distinct).
    assert (Hn : rc_native s !! candidate_key c = Some (expected_id c))
      by (apply (tr_native _ _ Ht); eauto).
    congruence.
Qed.

Lemma rediscovered_ok r c :
  record_ok (expected_id c) r -> In (candidate_key c) keys ->
  record_ok (expected_id c) (rediscovered r c) /\ native_key (rediscovered r c) = candidate_key c.
Proof.
  intros (Hid & Hn & Hr) Hin.
  assert (Hk : native_key r = candidate_key c) by (by apply distinct).
  assert (E : native_key (rediscovered r c) = candidate_key c).
  { unfold native_key, candidate_key in *. simpl. by injection Hk as <- _. }
  split; [|done]. unfold record_ok. by rewrite E.
Qed.

Lemma candidate_follows s m c :
  tracks s m -> In (candidate_key c) keys ->
  match reconcile_candidate draws causation s c, absorb m c with
  | Ok s', Ok m' => tracks s' m' /\
      rc_accepted s' = rc_accepted s + (if well_identified c then 1 else 0) /\
      length (rc_repairs s') = length (rc_repairs s) + length (dc_repairs c)
                               + (if well_identified c then 0 else 1)
  | Err e, Err e' => e = e'
  | _, _ => False
  end.
Proof.
  intros Ht Hin. unfold reconcile_candidate, absorb.
  change (DeviceId.from_integration (dc_integration_id c) (ds_native_id (dc_snapshot c)))
    with (expected_id c).
  change (String.eqb (ds_id (dc_snapshot c)) (expected_id c)) with (well_identified c).
  change (dc_integration_id c, ds_native_id (dc_snapshot c)) with (candidate_key c).
  destruct (well_identified c) eqn:Hw; simpl.
  2:{ split; [by apply tracks_repairs|]. rewrite !length_app. simpl. lia. }
  apply String.eqb_eq in Hw. rewrite (tracks_index s m c Ht Hin).
  destruct (m !! expected_id c) as [r|] eqn:Hm.
  - rewrite (tr_records _ _ Ht), Hm. cbn [ok_or result_bind].
    destruct (tr_ok _ _ Ht _ _ Hm) as (Hid & Hok). rewrite Hid, Hw, String.eqb_refl. cbn [negb].
    rewrite update_record_spec. destruct (too_early r c); [done|]. cbn [result_bind].
    destruct (rediscovered_ok r c) as [Hok' Hk]; [by split|done|].
    split; [|simpl; rewrite length_app; lia].
    rewrite <- (insert_id (rc_native s) (native_key (rediscovered r c)) (expected_id c))
      by (rewrite Hk, (tracks_index s m c Ht Hin); by rewrite Hm).
    apply tracks_insert; [done|done| | |].
    + destruct (device_eqb (rediscovered r c) r) eqn:Ee; [right|left]; (split; [done|]).
      * exists r. split; [done|by right].
      * apply rediscovered_settled.
    + intros e He%sight_events_about. by rewrite He, Hid.
    + rewrite Hm. simpl. rewrite <- Hid at 1. rewrite sight_replay. unfold device_state.
      by destruct (rediscovered_settled r c) as (-> & -> & _).
  - rewrite enroll_candidate_spec. cbn [result_bind]. simpl. rewrite Hw.
    split; [|rewrite length_app; lia].
    change (candidate_key c) with (native_key (enrolled c)).
    apply tracks_insert; [done| |by left| |].
    + by split.
    + simpl. by intros e [<-|[<-|[]]]; simpl; rewrite Hw.
    + rewrite Hm. unfold replay, about. simpl. rewrite Hw.
      by repeat (rewrite bool_decide_eq_true_2 by done; simpl).
Qed.

Lemma loop_follows cs s m :
  tracks s m -> (forall c, In c cs -> In (candidate_key c) keys) ->
  match try_fold (reconcile_candidate draws causation) s cs, try_fold absorb m cs with
  | Ok s', Ok m' => tracks s' m' /\
      rc_accepted s' = rc_accepted s + length (List.filter well_identified cs) /\
      length (rc_repairs s') = length (rc_repairs s) + length (flat_map dc_repairs cs)
                               + length (List.filter (fun c => negb (well_identified c)) cs)
  | Err e, Err e' => e = e'
  | _, _ => False
  end.
Proof.
  revert s m. induction cs as [|c cs IH]; intros s m Ht Hin; simpl; [split; [done|lia]|].
  pose proof (candidate_follows s m c Ht (Hin _ (or_introl eq_refl))) as Hc.
  destruct (reconcile_candidate draws causation s c) as [s'|e], (absorb m c) as [m'|e']; simpl; try done.
  destruct Hc as (Ht' & Ha & Hr). specialize (IH s' m' Ht' (fun c H => Hin _ (or_intror H))).
  destruct (try_fold _ s' cs) as [s''|e], (try_fold absorb m' cs) as [m''|e']; simpl; try done.
  destruct IH as (Ht'' & Ha' & Hr'). split; [done|]. rewrite Ha', Hr', Ha, Hr, length_app.
  destruct (well_identified c); simpl; lia.
Qed.
End Loop.

(** ** The start of the loop *)

Definition known_of (existing : list DeviceRecord) : gmap DeviceId DeviceRecord :=
  list_to_map (map (fun r => (ds_id (dr_snapshot r), r)) existing).

Definition known_ok (existing : list DeviceRecord) : Prop :=
  List.NoDup (map (fun r => ds_id (dr_snapshot r)) existing) /\
  forall r, In r existing -> ds_id (dr_snapshot r) = derived_id (native_key r).

Definition keys_in_play (existing : list DeviceRecord) (cs : list DiscoveryCandidate) :
  list (string * string) := map native_key existing ++ map candidate_key cs.

Definition no_collision (existing : list DeviceRecord) (cs : list DiscoveryCandidate) : Prop :=
  forall k k', In k (keys_in_play existing cs) -> In k' (keys_in_play existing cs) ->
    derived_id k = derived_id k' -> k = k'.

Lemma known_lookup existing id r :
  known_ok existing -> known_of existing !! id = Some r <-> In r existing /\ ds_id (dr_snapshot r) = id.
Proof.
  intros [Hnd _]. unfold known_of. rewrite <- elem_of_list_to_map.
  - rewrite list_elem_of_In, in_map_iff. split.
    + by intros (r' & [= <- <-] & Hin).
    + intros [Hin <-]. eauto.
  - apply NoDup_ListNoDup. change (list_fmap _ _ fst) with (@map (DeviceId * DeviceRecord) _ fst).
    by rewrite map_map.
Qed.

Lemma index_records_lookup existing id :
  known_ok existing -> bget id (index_records existing) = known_of existing !! id.
Proof.
  intros Hok. apply option_eq. intros r. unfold index_records.
  rewrite bcollect_lookup, in_map_iff, (known_lookup existing id r Hok).
  - split; [by intros (r' & [= <- <-] & Hin)|]. intros [Hin <-]. eauto.
  - rewrite map_map. apply Hok.
Qed.

Lemma index_natives_lookup (l : list (string * DeviceRecord)) k id :
  (forall a b, In a l -> In b l -> native_key a.2 = native_key b.2 ->
     ds_id (dr_snapshot a.2) = ds_id (dr_snapshot b.2)) ->
  index_natives l !! k = Some id <->
  exists a, In a l /\ native_key a.2 = k /\ ds_id (dr_snapshot a.2) = id.
Proof.
  intros Hf. unfold index_natives.
  enough (forall m : gmap (string * string) DeviceId, fold_left (fun index kv => <[native_key kv.2 := ds_id (dr_snapshot kv.2)]> index) l m !! k
      = Some id <-> (exists a, In a l /\ native_key a.2 = k /\ ds_id (dr_snapshot a.2) = id) \/
                    (~ (exists a, In a l /\ native_key a.2 = k) /\ m !! k = Some id)) as He.
  { rewrite He, lookup_empty. split; [by intros [?|[_ [=]]]|by left]. }
  induction l as [|a l IH]; simpl; intros m.
  { split; [|intros [(? & [] & _)|[_ Hm]]; exact Hm].
    intros Hm. right. split; [intros (? & [] & _)|exact Hm]. }
  rewrite IH by (intros b b' Hb Hb'; apply Hf; by right). rewrite lookup_insert_Some. split.
  - intros [(b & Hb & Hk)|[Hn [[<- <-]|[Hne Hm]]]]; [left; eauto|left; eauto|].
    right. split; [|done]. intros (b & [->|Hb] & Hk); [done|]. apply Hn. eauto.
  - intros [(b & [->|Hb] & Hk & Hid)|[Hn Hm]].
    + destruct (List.in_dec (fun x y : string * string => decide (x = y)) k
        (map (fun a : string * DeviceRecord => native_key a.2) l)) as [Hin|Hn].
      * apply in_map_iff in Hin as (a & Ha & Hin). left. exists a. split_and!; [done..|].
        rewrite <- Hid. apply Hf; [by right|by left|congruence].
      * right. split; [|by left]. intros (a & Ha & Hka). apply Hn, in_map_iff. eauto.
    + left. eauto.
    + right. split; [intros (b & Hb & Hk); apply Hn; eauto|]. right. split; [|done].
      intros Hk. apply Hn. eauto.
Qed.

Lemma tracks_start existing cs :
  known_ok existing ->
  tracks (known_of existing) (keys_in_play existing cs)
    (mk_reconciling (index_records existing) (index_natives (index_records existing)) [] [] [] 0 1)
    (known_of existing).
Proof.
  intros Hok. split; simpl.
  - intros id. by apply index_records_lookup.
  - intros id r (Hin & Hid)%known_lookup; [|done]. split; [done|]. split.
    + rewrite <- Hid. by apply Hok.
    + unfold keys_in_play. apply in_app_iff. left. apply in_map_iff. eauto.
  - assert (Hin : forall a, In a (index_records existing) <-> In a.2 existing /\ ds_id (dr_snapshot a.2) = a.1).
    { intros [id r]. simpl. rewrite <- known_lookup, <- index_records_lookup by done.
      apply bsorted_In, bcollect_sorted. }
    intros k id. rewrite index_natives_lookup.
    + split.
      * intros (a & [Ha _]%Hin & Hk & Hid). exists a.2. split; [|done]. by apply known_lookup.
      * intros (r & (Hr & Hid)%known_lookup & Hk); [|done]. exists (id, r). by rewrite Hin.
    + intros a b [Ha _]%Hin [Hb _]%Hin Hk. rewrite !(proj2 Hok) by done. by rewrite Hk.
  - constructor.
  - done.
  - intros id r Hr. exists r. by split; [|reflexivity].
  - done.
  - intros id r Hr. by rewrite Hr.
  - done.
Qed.

(** ** Reconciling again *)

(** A record that already holds what the candidate reports. *)
Definition carries (r : DeviceRecord) (c : DiscoveryCandidate) : Prop :=
  settled r /\ too_early r c = None /\
  (dc_discovered_at c <= ts_last_seen (dr_timestamps r))%Z /\
  (ds_observed_at (dc_snapshot c) <= ts_last_seen (dr_timestamps r))%Z /\
  (exists t, ts_last_success (dr_timestamps r) = Some t /\ (ds_observed_at (dc_snapshot c) <= t)%Z) /\
  snapshot_eqb (dc_snapshot c) (dr_snapshot r) = true /\
  dr_capability_descriptors r = descriptors (dc_snapshot c).

Lemma device_eqb_fields a b :
  device_eqb a b = true ->
  dr_installation_id a = dr_installation_id b /\ dr_integration_id a = dr_integration_id b /\
  snapshot_eqb (dr_snapshot a) (dr_snapshot b) = true /\ dr_lifecycle a = dr_lifecycle b /\
  dr_availability a = dr_availability b /\ dr_timestamps a = dr_timestamps b /\
  dr_capability_descriptors a = dr_capability_descriptors b.
Proof. unfold device_eqb. intros. by bool_inv. Qed.

Lemma snapshot_eqb_keys a b :
  snapshot_eqb a b = true -> ds_id a = ds_id b /\ ds_native_id a = ds_native_id b.
Proof. unfold snapshot_eqb. intros. by bool_inv. Qed.

Lemma carries_same r r' c : same_device r r' -> carries r c -> carries r' c.
Proof.
  intros [->|He]; [done|].
  apply device_eqb_fields in He as (_ & _ & Hs & Hl & Ha & Ht & Hd).
  unfold carries, settled, too_early. rewrite <- Hl, <- Ha, <- Ht, <- Hd.
  intros ((? & ? & ?) & ? & ? & ? & ? & Hsn & ?). split_and!; try done.
  by eapply snapshot_eqb_trans.
Qed.

Lemma enrolled_carries c :
  snapshot_eqb (dc_snapshot c) (dc_snapshot c) = true ->
  (dc_discovered_at c <= ds_observed_at (dc_snapshot c))%Z -> carries (enrolled c) c.
Proof.
  intros Hs Hle. unfold carries, settled, too_early, enrolled. simpl. split_and!; try done; try lia.
  - destruct (Z.ltb_spec (dc_discovered_at c) (dc_discovered_at c `min` ds_observed_at (dc_snapshot c)));
      [lia|].
    destruct (Z.ltb_spec (ds_observed_at (dc_snapshot c))
      (dc_discovered_at c `min` ds_observed_at (dc_snapshot c))); [lia|done].
  - eexists. split; [done|]. lia.
Qed.

Lemma rediscovered_carries r c :
  snapshot_eqb (dc_snapshot c) (dc_snapshot c) = true -> too_early r c = None ->
  ds_id (dr_snapshot r) = ds_id (dc_snapshot c) -> carries (rediscovered r c) c.
Proof.
  intros Hs He Hid. split; [apply rediscovered_settled|]. split; [exact He|].
  unfold too_early in He. simpl. split_and!; try lia.
  - eexists. split; [done|]. destruct (ts_last_success (dr_timestamps r)); lia.
  - rewrite Hid. revert Hs. unfold snapshot_eqb. simpl. done.
  - done.
Qed.

Lemma carries_stable draws causation r c n :
  ds_id (dr_snapshot r) = ds_id (dc_snapshot c) -> carries r c ->
  device_eqb (rediscovered r c) r = true /\ sight_events draws causation r c n = [].
Proof.
  intros Hid ((Hl & Ha & Hr) & He & Hd & Ho & (t & Ht & Hle) & Hs & Hde).
  split.
  - unfold device_eqb, rediscovered. simpl. rewrite Hl, Ht, !String.eqb_refl, Hde, Hid.
    rewrite (bool_decide_eq_true_2 (_ /\ _)) by done.
    replace (Z.max (Z.max (ts_last_seen (dr_timestamps r)) (dc_discovered_at c))
      (ds_observed_at (dc_snapshot c))) with (ts_last_seen (dr_timestamps r)) by lia.
    rewrite Z.max_l, <- Ht by lia.
    repeat match goal with |- andb _ _ = true => apply andb_true_iff; split end;
      try exact Hs; try done; apply bool_decide_eq_true_2; try done.
    by destruct (dr_timestamps r).
  - unfold sight_events. by rewrite Hl, Ha.
Qed.

Lemma absorb_other cs m m' id :
  try_fold absorb m cs = Ok m' -> ~ In id (map expected_id cs) -> m' !! id = m !! id.
Proof.
  revert m. induction cs as [|c cs IH]; simpl; intros m; [by intros [= <-]|].
  intros (m1 & Hc & Hcs)%result_bind_ok Hn. rewrite (IH m1) by tauto.
  unfold absorb in Hc. destruct (negb _); [by injection Hc as <-|].
  destruct (m !! expected_id c); [destruct (too_early _ c)|]; simplify_eq;
    rewrite lookup_insert_ne by tauto; done.
Qed.

Lemma absorb_carries cs m m' c :
  try_fold absorb m cs = Ok m' -> List.NoDup (map expected_id cs) ->
  (forall id r, m !! id = Some r -> ds_id (dr_snapshot r) = id) ->
  (forall c, In c cs -> snapshot_eqb (dc_snapshot c) (dc_snapshot c) = true) ->
  (forall c, In c cs -> m !! expected_id c = None ->
     (dc_discovered_at c <= ds_observed_at (dc_snapshot c))%Z) ->
  In c cs -> well_identified c = true ->
  exists r, m' !! expected_id c = Some r /\ ds_id (dr_snapshot r) = expected_id c /\ carries r c.
Proof.
  revert m. induction cs as [|c0 cs IH]; simpl; intros m; [done|].
  intros (m1 & Hc & Hcs)%result_bind_ok [Hn Hnd]%NoDup_cons_iff Hid Hnan Hdisc Hin Hw.
  destruct Hin as [->|Hin].
  - rewrite (absorb_other cs m1 m') by done. unfold absorb in Hc. rewrite Hw in Hc. simpl in Hc.
    apply String.eqb_eq in Hw. destruct (m !! expected_id c) as [r|] eqn:Hm.
    + destruct (too_early r c) eqn:He; simplify_eq. exists (rediscovered r c). rewrite lookup_insert_eq.
      split; [done|]. split; [simpl; by apply Hid|]. apply rediscovered_carries; auto.
      by rewrite (Hid _ _ Hm).
    + simplify_eq. exists (enrolled c). rewrite lookup_insert_eq. split; [done|]. split; [done|].
      apply enrolled_carries; auto.
  - assert (Hne : expected_id c <> expected_id c0)
      by (intros E; apply Hn; rewrite <- E; by apply in_map).
    apply (IH m1); auto.
    + intros id r Hm1. unfold absorb in Hc. destruct (well_identified c0) eqn:Hw0; simpl in Hc;
        [|simplify_eq; by apply Hid]. apply String.eqb_eq in Hw0.
      destruct (m !! expected_id c0) as [r0|] eqn:Hm; [destruct (too_early r0 c0)|];
        simplify_eq; apply lookup_insert_Some in Hm1 as [[<- <-]|[_ Hm1]]; auto.
      simpl. by apply Hid.
    + intros c' Hin' Hm1. apply Hdisc; [by right|]. rewrite <- Hm1. symmetry.
      apply (absorb_other [c0] m m1); [simpl; by rewrite Hc|]. simpl. intros [E|[]].
      apply Hn. rewrite E. by apply in_map.
Qed.

(** A candidate whose record carries it changes the index only. *)
Lemma carried_follows draws causation known keys s m c r :
  (forall k k', In k keys -> In k' keys -> derived_id k = derived_id k' -> k = k') ->
  tracks known keys s m -> In (candidate_key c) keys -> well_identified c = true ->
  m !! expected_id c = Some r -> carries r c ->
  exists s', reconcile_candidate draws causation s c = Ok s' /\
    tracks known keys s' (<[expected_id c := rediscovered r c]> m) /\
    rc_changed s' = rc_changed s /\ rc_events s' = rc_events s /\
    rc_accepted s' = S (rc_accepted s).
Proof.
  intros Hd Ht Hin Hw Hm Hc.
  pose proof (candidate_follows draws causation known keys Hd s m c Ht Hin) as Hf.
  unfold absorb in Hf. rewrite Hw, Hm in Hf. simpl in Hf.
  assert (Hid : ds_id (dr_snapshot r) = ds_id (dc_snapshot c)).
  { destruct (tr_ok _ _ _ _ Ht _ _ Hm) as [-> _]. apply String.eqb_eq in Hw. congruence. }
  rewrite (proj1 (proj2 Hc)) in Hf.
  destruct (reconcile_candidate draws causation s c) as [s'|e] eqn:E; [|done].
  exists s'. destruct Hf as (Ht' & Ha & _). split_and!; try done; [| |lia].
  all: unfold reconcile_candidate in E;
    change (DeviceId.from_integration (dc_integration_id c) (ds_native_id (dc_snapshot c)))
      with (expected_id c) in E;
    change (String.eqb (ds_id (dc_snapshot c)) (expected_id c)) with (well_identified c) in E;
    change (dc_integration_id c, ds_native_id (dc_snapshot c)) with (candidate_key c) in E;
    rewrite Hw, (tracks_index known keys Hd s m c Ht Hin), Hm in E; cbn [negb] in E;
    rewrite (tr_records _ _ _ _ Ht), Hm in E; cbn [ok_or result_bind] in E;
    rewrite Hid, String.eqb_refl in E; cbn [negb] in E; rewrite update_record_spec in E;
    rewrite (proj1 (proj2 Hc)) in E; cbn [result_bind] in E;
    destruct (carries_stable draws causation r c (rc_draws s) Hid Hc) as [He Hs];
    rewrite He, Hs, app_nil_r in E; by injection E as <-.
Qed.

Lemma carried_loop draws causation known keys cs s m :
  (forall k k', In k keys -> In k' keys -> derived_id k = derived_id k' -> k = k') ->
  tracks known keys s m -> (forall c, In c cs -> In (candidate_key c) keys) ->
  List.NoDup (map expected_id cs) ->
  (forall c, In c cs -> well_identified c = true ->
     exists r, m !! expected_id c = Some r /\ carries r c) ->
  exists s', try_fold (reconcile_candidate draws causation) s cs = Ok s' /\
    rc_changed s' = rc_changed s /\ rc_events s' = rc_events s /\
    rc_accepted s' = rc_accepted s + length (List.filter well_identified cs).
Proof.
  intros Hd. revert s m. induction cs as [|c cs IH]; simpl; intros s m Ht Hin.
  { intros _ _. exists s. by rewrite Nat.add_0_r. }
  intros [Hn Hnd]%NoDup_cons_iff Hc. destruct (well_identified c) eqn:Hw.
  - destruct (Hc c (or_introl eq_refl) Hw) as (r & Hm & Hcr).
    destruct (carried_follows draws causation known keys s m c r) as (s1 & -> & Ht1 & H1 & H2 & H3); auto.
    destruct (IH s1 (<[expected_id c := rediscovered r c]> m)) as (s2 & E & H4 & H5 & H6); auto.
    { intros c' Hin' Hw'. rewrite lookup_insert_ne; [by apply Hc; [right|]|].
      intros E. apply Hn. rewrite E. by apply in_map. }
    exists s2. simpl. rewrite E, H4, H5, H6, H1, H2, H3. split_and!; try done. simpl. lia.
  - pose proof (candidate_follows draws causation known keys Hd s m c Ht (Hin _ (or_introl eq_refl))) as Hf.
    unfold reconcile_candidate, absorb in *.
    change (String.eqb (ds_id (dc_snapshot c)) _) with (well_identified c) in *.
    rewrite Hw in *. simpl in Hf. simpl.
    destruct (IH _ m (proj1 Hf)) as (s2 & E & H4 & H5 & H6); auto.
    exists s2. by rewrite E, H4, H5, H6.
Qed.

(** ** The theorems *)

Lemma known_lookup_id existing id r :
  known_ok existing -> known_of existing !! id = Some r -> ds_id (dr_snapshot r) = id.
Proof. intros Hok Hr. by apply (known_lookup existing id r Hok) in Hr as [_ Hid]. Qed.

Lemma candidate_in_play existing cs c : In c cs -> In (candidate_key c) (keys_in_play existing cs).
Proof. intros Hin. unfold keys_in_play. rewrite in_app_iff. right. by apply in_map. Qed.

Lemma reconcile_tracks draws existing cs :
  known_ok existing -> no_collision existing cs ->
  match reconcile draws existing cs, try_fold absorb (known_of existing) cs with
  | Ok out, Ok m => exists s,
      tracks (known_of existing) (keys_in_play existing cs) s m /\
      ro_devices out = map snd (rc_changed s) /\ ro_events out = rc_events s /\
      ro_accepted out = length (List.filter well_identified cs) /\
      length (ro_repairs out) = length (flat_map dc_repairs cs)
                                + length (List.filter (fun c => negb (well_identified c)) cs)
  | Err e, Err e' => e = e'
  | _, _ => False
  end.
Proof.
  intros Hok Hd. unfold reconcile.
  pose proof (loop_follows draws (discovery_causation (draws 0)) (known_of existing)
    (keys_in_play existing cs) Hd cs _ _ (tracks_start existing cs Hok)
    (candidate_in_play existing cs)) as Hf.
  destruct (try_fold (reconcile_candidate _ _) _ cs) as [s|e], (try_fold absorb _ cs) as [m|e'];
    simpl; try done.
  destruct Hf as (Ht & Ha & Hr). exists s. by split_and!.
Qed.

Lemma upsert_changed known keys s m registry id :
  tracks known keys s m -> (forall id, bget id registry = known !! id) ->
  option_Forall2 same_device (m !! id)
    (bget id (DeviceRegistry.upsert_all registry (map snd (rc_changed s)))).
Proof.
  intros Ht Hreg. unfold DeviceRegistry.upsert_all.
  rewrite bget_fold_values; [|by eapply tr_sorted|].
  2:{ intros k v Hin. apply bsorted_In in Hin; [|by eapply tr_sorted].
      by apply (tr_changed _ _ _ _ Ht) in Hin as (_ & Hid & _). }
  rewrite Hreg. destruct (m !! id) as [r|] eqn:Hm.
  - destruct (tr_devices _ _ _ _ Ht _ _ Hm) as (r' & E & Hs). rewrite E. by constructor.
  - destruct (bget id (rc_changed s)) as [r|] eqn:Eb.
    { apply (tr_changed _ _ _ _ Ht) in Eb as ([? E] & _). congruence. }
    destruct (known !! id) eqn:Ek; [|constructor].
    destruct (tr_known _ _ _ _ Ht id) as [? E]; [by rewrite Ek|congruence].
Qed.

(** C14: reconciliation implements the reference definition that absorbs the
    candidates one by one into the devices of their identities: it fails exactly
    when and as the reference does, the registry holds the reference's devices
    once the returned ones are put into it, every returned device is enrolled and
    online, the events of every device replay from its state before to its state
    after along legal transitions, and every candidate is either accepted or
    answered by one repair. *)
Theorem reconcile_reference draws existing cs :
  known_ok existing -> no_collision existing cs ->
  match reconcile draws existing cs, try_fold absorb (known_of existing) cs with
  | Ok out, Ok m =>
      (forall registry, (forall id, bget id registry = known_of existing !! id) -> forall id,
         option_Forall2 same_device (m !! id)
           (bget id (DeviceRegistry.upsert_all registry (ro_devices out)))) /\
      (forall r, In r (ro_devices out) -> settled r /\ is_Some (m !! ds_id (dr_snapshot r))) /\
      (forall id r, m !! id = Some r ->
         replay id (state_before (known_of existing !! id)) (ro_events out) = Some (device_state r)) /\
      (forall e, In e (ro_events out) -> exists id, ev_device_id e = Some id /\ is_Some (m !! id)) /\
      ro_accepted out = length (List.filter well_identified cs) /\
      length (ro_repairs out) = length (flat_map dc_repairs cs) + (length cs - ro_accepted out)
  | Err e, Err e' => e = e'
  | _, _ => False
  end.
Proof.
  intros Hok Hd. pose proof (reconcile_tracks draws existing cs Hok Hd) as Hr.
  destruct (reconcile draws existing cs) as [out|e], (try_fold absorb _ cs) as [m|e']; try done.
  destruct Hr as (s & Ht & Hdev & Hev & Ha & Hrep). rewrite Hdev, Hev. split_and!; try done.
  - intros registry Hreg id. by eapply upsert_changed.
  - intros r (kv & <- & Hin)%in_map_iff. destruct kv as [id r]. simpl.
    apply bsorted_In, (tr_changed _ _ _ _ Ht) in Hin as (Hs & -> & Hr); [done|by eapply tr_sorted].
  - apply Ht.
  - apply Ht.
  - rewrite Hrep, Ha. f_equal. pose proof (List.filter_length well_identified cs). lia.
Qed.

Lemma same_device_identity a b :
  same_device a b -> ds_id (dr_snapshot a) = ds_id (dr_snapshot b) /\ native_key a = native_key b.
Proof.
  intros [->|He]; [done|]. apply device_eqb_fields in He as (_ & Hi & Hs & _).
  apply snapshot_eqb_keys in Hs as [Hid Hn]. unfold native_key. by rewrite Hi, Hn.
Qed.

(** The registry once the returned devices are in it. *)
Definition registry_after (existing : list DeviceRecord) (out : ReconciliationOutcome) :
  list (string * DeviceRecord) :=
  DeviceRegistry.upsert_all (DeviceRegistry.load existing) (ro_devices out).

Lemma registry_after_sorted existing out : bsorted (registry_after existing out).
Proof.
  unfold registry_after, DeviceRegistry.upsert_all, DeviceRegistry.load.
  apply (fold_binsert_sorted DeviceRegistry.record_id (fun r => r)), bcollect_sorted.
Qed.

(** What a registry that agrees with the tracked devices holds. *)
Lemma registry_records_ok known keys s m registry :
  tracks known keys s m -> bsorted registry ->
  (forall id, option_Forall2 same_device (m !! id) (bget id registry)) ->
  known_ok (DeviceRegistry.records registry) /\
  (forall k, In k (map native_key (DeviceRegistry.records registry)) -> In k keys) /\
  (forall id, known_of (DeviceRegistry.records registry) !! id = bget id registry).
Proof.
  intros Ht Hs Hm.
  assert (Hk : forall kv, In kv registry -> ds_id (dr_snapshot kv.2) = kv.1 /\
    kv.1 = derived_id (native_key kv.2) /\ In (native_key kv.2) keys).
  { intros [id r] Hin. apply bsorted_In in Hin; [|done]. simpl. pose proof (Hm id) as Hf.
    rewrite Hin in Hf. inversion Hf as [r0 ? Hsame E|]; subst. symmetry in E.
    apply (tr_ok _ _ _ _ Ht) in E. apply same_device_identity in Hsame as [<- <-]. exact E. }
  assert (Hok : known_ok (DeviceRegistry.records registry)).
  { unfold known_ok, DeviceRegistry.records. split.
    - rewrite map_map. erewrite List.map_ext_in; [|intros kv Hin; exact (proj1 (Hk kv Hin))].
      clear Hm Hk. induction Hs as [|kv l Hl IH Hall]; simpl; constructor; [|done].
      rewrite List.Forall_forall in Hall. intros (kv' & E & Hin)%in_map_iff.
      specialize (Hall _ Hin). simpl in Hall. by rewrite E, str_ltb_irrefl in Hall.
    - intros r (kv & <- & Hin)%in_map_iff. destruct (Hk _ Hin) as (-> & E & _). exact E. }
  split_and!; [done| |].
  - intros k (r & <- & (kv & <- & Hin)%in_map_iff)%in_map_iff. by apply Hk.
  - intros id. destruct (bget id registry) as [r|] eqn:Eb.
    + apply known_lookup; [done|]. apply bget_In in Eb. split; [|exact (proj1 (Hk _ Eb))].
      unfold DeviceRegistry.records. apply in_map_iff. by exists (id, r).
    + destruct (known_of _ !! id) as [r|] eqn:E; [|done].
      apply known_lookup in E as [Hin <-]; [|done]. exfalso.
      apply in_map_iff in Hin as ([k r'] & Heq & Hin). simpl in Heq. subst r'.
      destruct (Hk _ Hin) as (E & _). simpl in E. rewrite E in Eb.
      apply bsorted_In in Hin; [congruence|done].
Qed.

(** Once the devices of a successful reconciliation are in the registry,
    reconciling the same candidates again accepts the same candidates, writes no
    device and publishes no event, provided every device is reported once, no
    report holds a NaN, and no new device was discovered after it was observed. *)
Theorem reconcile_idempotent draws draws' existing cs out :
  known_ok existing -> no_collision existing cs -> List.NoDup (map expected_id cs) ->
  (forall c, In c cs -> snapshot_eqb (dc_snapshot c) (dc_snapshot c) = true) ->
  (forall c, In c cs -> known_of existing !! expected_id c = None ->
     (dc_discovered_at c <= ds_observed_at (dc_snapshot c))%Z) ->
  reconcile draws existing cs = Ok out ->
  exists out', reconcile draws' (DeviceRegistry.records (registry_after existing out)) cs = Ok out' /\
    ro_devices out' = [] /\ ro_events out' = [] /\ ro_accepted out' = ro_accepted out.
Proof.
  intros Hok Hd Hnd Hnan Hdisc Hout.
  pose proof (reconcile_tracks draws existing cs Hok Hd) as Hr. rewrite Hout in Hr.
  destruct (try_fold absorb (known_of existing) cs) as [m|] eqn:Hm; [|done].
  destruct Hr as (s & Ht & Hdev & _ & Ha & _).
  assert (Hreg : forall id, option_Forall2 same_device (m !! id) (bget id (registry_after existing out))).
  { intros id. unfold registry_after. rewrite Hdev. eapply upsert_changed; [done|].
    intros id'. by apply index_records_lookup. }
  destruct (registry_records_ok _ _ _ _ _ Ht (registry_after_sorted existing out) Hreg)
    as (Hok' & Hkeys & Hlook).
  set (existing' := DeviceRegistry.records (registry_after existing out)) in *.
  assert (Hd' : no_collision existing' cs).
  { assert (Hsub : forall k, In k (keys_in_play existing' cs) -> In k (keys_in_play existing cs)).
    { intros k [Hk|Hk]%in_app_iff; [by apply Hkeys|]. apply in_app_iff. by right. }
    intros k k' Hk%Hsub Hk'%Hsub. by apply Hd. }
  destruct (carried_loop draws' (discovery_causation (draws' 0)) (known_of existing')
    (keys_in_play existing' cs) cs _ _ Hd' (tracks_start existing' cs Hok')
    (candidate_in_play existing' cs) Hnd) as (s' & E & H1 & H2 & H3).
  - intros c Hin Hw.
    destruct (absorb_carries cs _ _ c Hm Hnd) as (r & Hmr & Hid & Hc); auto.
    { intros id r. by apply known_lookup_id. }
    pose proof (Hreg (expected_id c)) as Hf. rewrite Hmr, <- Hlook in Hf.
    inversion Hf as [? r' Hsame Er Er'|]; subst. exists r'. split; [done|]. by eapply carries_same.
  - eexists. unfold reconcile. rewrite E. simpl. split; [done|]. simpl.
    rewrite H1, H2, H3, Ha. by split_and!.
Qed.
End Props.

#[local] Existing Instance integer_json.

Lemma plug_known : known_ok [plug].
Proof. split; [repeat constructor; by intros []|]. by intros r [<-|[]]. Qed.

(** Collisions of the identities in play, decided. *)
Definition collision_free (keys : list (string * string)) : bool :=
  forallb (fun k => forallb (fun k' =>
    implb (String.eqb (derived_id k) (derived_id k')) (bool_decide (k = k'))) keys) keys.

Lemma collision_free_sound existing cs :
  collision_free (keys_in_play existing cs) = true -> no_collision existing cs.
Proof.
  unfold collision_free. intros Hc k k' Hk Hk' E. rewrite forallb_forall in Hc.
  specialize (Hc k Hk). rewrite forallb_forall in Hc. specialize (Hc k' Hk').
  rewrite E, String.eqb_refl in Hc. simpl in Hc. by bool_inv.
Qed.

Lemma scan_collision_free : no_collision [plug] scan_result.
Proof. apply collision_free_sound. vm_compute. reflexivity. Qed.

Lemma reconcile_reference_witness :
  known_ok [plug] /\ no_collision [plug] scan_result /\
  match reconcile (numbered_draws "d") [plug] scan_result with
  | Ok out => length (ro_devices out) = 2 /\ ro_accepted out = 2 /\ length (ro_repairs out) = 1 /\
      forall r, In r (ro_devices out) -> settled r
  | Err _ => False
  end.
Proof.
  split; [exact plug_known|]. split; [exact scan_collision_free|].
  pose proof (reconcile_reference (numbered_draws "d") [plug] scan_result plug_known
    scan_collision_free) as Hr.
  assert (Hok : is_ok (reconcile (numbered_draws "d") [plug] scan_result) = true
    /\ match reconcile (numbered_draws "d") [plug] scan_result with
       | Ok out => (length (ro_devices out), ro_accepted out, length (ro_repairs out)) = (2, 2, 1)
       | Err _ => True end) by (vm_compute; by split).
  destruct (reconcile (numbered_draws "d") [plug] scan_result) as [out|e]; [|by destruct Hok].
  destruct (try_fold absorb (known_of [plug]) scan_result) as [m|e]; [|done].
  destruct Hok as [_ [= H1 H2 H3]]. split_and!; [done..|]. intros r Hin. by apply Hr.
Defined.

Lemma reconcile_idempotent_witness :
  let cs := take 2 scan_result in
  exists out, reconcile (numbered_draws "d") [plug] cs = Ok out /\ length (ro_devices out) = 2 /\
  exists out', reconcile (numbered_draws "e") (DeviceRegistry.records (registry_after [plug] out)) cs
    = Ok out' /\ ro_devices out' = [].
Proof.
  intros cs.
  assert (Hok : is_ok (reconcile (numbered_draws "d") [plug] cs) = true
    /\ match reconcile (numbered_draws "d") [plug] cs with
       | Ok out => length (ro_devices out) = 2 | Err _ => True end) by (vm_compute; by split).
  destruct (reconcile (numbered_draws "d") [plug] cs) as [out|e] eqn:E; [|by destruct Hok].
  exists out. split; [done|]. split; [by destruct Hok|].
  destruct (reconcile_idempotent (numbered_draws "d") (numbered_draws "e") [plug] cs out plug_known)
    as (out' & E' & Hd & _).
  - apply collision_free_sound. vm_compute. reflexivity.
  - repeat constructor; intros Hin; vm_compute in Hin; by repeat destruct Hin as [Hin|Hin].
  - intros c [<-|[<-|[]]]; vm_compute; reflexivity.
  - intros c [<-|[<-|[]]] _; vm_compute; discriminate.
  - exact E.
  - exists out'. by split.
Defined.
