(* ===== verification/FoundationProps.v ===== *)
(** What a write of the device foundation does to the stored devices, their
    observations and the event log, and the references every reachable database
    keeps. *)

From stdpp Require Import sorting.
From S2P Require Import Prelude Text BTree Json Capability Lifecycle Device Command MatterState CommandStore CommandService Identity FoundationStore CommandFixture ApplicationFixture.

Section Props.
Context `{SerdeJson}.

Definition device_id (d : DeviceRecord) : DeviceId := ds_id (dr_snapshot d).

(** ** Frames *)

(** What stays when the children of device [id] are written. *)
Record child_frame (id : DeviceId) (db db' : FoundationDb) : Prop := {
  cf_installations : fd_installations db' = fd_installations db;
  cf_integrations : fd_integrations db' = fd_integrations db;
  cf_spaces : fd_spaces db' = fd_spaces db;
  cf_devices : fd_devices db' = fd_devices db;
  cf_observations : fd_observations db' = fd_observations db;
  cf_events : fd_events db' = fd_events db;
  cf_sequence : fd_sequence db' = fd_sequence db;
  cf_repairs : fd_repairs db' = fd_repairs db;
  cf_subjects : db_installations (fd_db db') = db_installations (fd_db db) /\
                db_devices (fd_db db') = db_devices (fd_db db) /\
                db_projections (fd_db db') = db_projections (fd_db db);
  cf_endpoints k : k.1 <> id -> k ∈ db_endpoints (fd_db db') <-> k ∈ db_endpoints (fd_db db);
  cf_grows : db_endpoints (fd_db db) ⊆ db_endpoints (fd_db db')
}.

#[export] Instance child_frame_refl id : Reflexive (child_frame id).
Proof. intros db. by split. Qed.
#[export] Instance child_frame_trans id : Transitive (child_frame id).
Proof.
  intros a b c [????????? He Hg] [????????? He' Hg']. split; try congruence.
  - destruct_and!. split_and!; congruence.
  - intros k Hk. by rewrite He', He.
  - set_solver.
Qed.

Lemma insert_capability_frame db id endpoint_id descriptor snapshot db' :
  insert_capability db id endpoint_id descriptor snapshot = Ok db' -> child_frame id db db'.
Proof. unfold insert_capability. intros. ok_inv. by split. Qed.

Lemma insert_endpoint_frame d db endpoint db' :
  insert_endpoint d db endpoint = Ok db' -> child_frame (device_id d) db db'.
Proof.
  unfold insert_endpoint. intros Hi. ok_inv.
  transitivity (set_children db
    (set_subjects (fd_db db) (db_installations (fd_db db)) (db_devices (fd_db db))
       ({[(ds_id (dr_snapshot d), es_id endpoint)]} ∪ db_endpoints (fd_db db)))
    (fd_capabilities db) (fd_aliases db) (fd_device_spaces db) (fd_observations db)).
  - split; simpl; try done; [|set_solver]. intros k Hk. rewrite elem_of_union, elem_of_singleton.
    split; [|by right]. by intros [->|].
  - eapply (try_fold_rel _ (child_frame (device_id d)) _ _ _ _ _ _ Hi).
    Unshelve. all: [> apply child_frame_refl | apply child_frame_trans | ].
    intros s a t. apply insert_capability_frame.
Qed.

Lemma insert_alias_frame id db alias db' :
  insert_alias id db alias = Ok db' -> child_frame id db db'.
Proof. unfold insert_alias. intros. ok_inv. by split. Qed.

Lemma insert_device_space_frame id db space db' :
  insert_device_space id db space = Ok db' -> child_frame id db db'.
Proof. unfold insert_device_space. intros. ok_inv. by split. Qed.

Lemma children_frame {A} (f : FoundationDb -> A -> result FoundationDb StorageError) id l db db' :
  (forall db a db', f db a = Ok db' -> child_frame id db db') ->
  try_fold f db l = Ok db' -> child_frame id db db'.
Proof.
  intros Hf. apply (try_fold_rel f (child_frame id)); [apply child_frame_refl| |done].
  apply child_frame_trans.
Qed.

(** ** One device *)

Definition is_of (id : DeviceId) (key : string * string * string * N) : bool :=
  String.eqb key.1.1.1 id.

(** The effect of one accepted device. *)
Record device_written (d : DeviceRecord) (db db' : FoundationDb) : Prop := {
  dw_row : exists row, fd_devices db' = <[device_id d := row]> (fd_devices db) /\ dv_payload row = d;
  dw_unreferenced : endpoint_referenced (fd_db db) (device_id d) = false;
  dw_observations key : fd_observations db' !! key
    = if is_of (device_id d) key then None else fd_observations db !! key;
  dw_events : fd_events db' = fd_events db /\ fd_sequence db' = fd_sequence db /\
              fd_repairs db' = fd_repairs db;
  dw_projections : db_projections (fd_db db') = db_projections (fd_db db);
  dw_endpoints k : k.1 <> device_id d ->
    k ∈ db_endpoints (fd_db db') <-> k ∈ db_endpoints (fd_db db)
}.

Lemma filter_observations (m : gmap (string * string * string * N) CapabilityObservation) id key :
  filter (fun kv => kv.1.1.1.1 <> id) m !! key = if is_of id key then None else m !! key.
Proof.
  unfold is_of. destruct (String.eqb_spec key.1.1.1 id) as [Hid|Hid].
  - apply map_lookup_filter_None. right. intros o _. simpl. tauto.
  - destruct (m !! key) as [o|] eqn:E.
    + by apply map_lookup_filter_Some.
    + apply map_lookup_filter_None. by left.
Qed.

Lemma upsert_device_written db d db' : upsert_device db d = Ok db' -> device_written d db db'.
Proof.
  unfold upsert_device. intros Hu.
  apply result_bind_ok in Hu as (db1 & H1 & Hu). apply result_bind_ok in Hu as (db2 & H2 & Hu).
  apply result_bind_ok in Hu as (db3 & H3 & Hu). apply result_bind_ok in Hu as (db4 & H4 & Hu).
  assert (Hf : child_frame (device_id d) db2 db').
  { transitivity db3; [|transitivity db4].
    - eapply children_frame; [|exact H3]. intros ???. apply insert_endpoint_frame.
    - eapply children_frame; [|exact H4]. intros ???. apply insert_alias_frame.
    - eapply children_frame; [|exact Hu]. intros ???. apply insert_device_space_frame. }
  assert (H1' : exists base row, db1 = set_devices db base (<[device_id d := row]> (fd_devices db)) /\
    dv_payload row = d /\ db_projections base = db_projections (fd_db db) /\
    db_endpoints base = db_endpoints (fd_db db)).
  { unfold upsert_device_row in H1. destruct (fd_devices db !! ds_id (dr_snapshot d)); ok_inv; eauto 8. }
  destruct H1' as (base & row & -> & Hrow & Hp & He). unfold delete_children in H2.
  destruct (negb _) eqn:Hn; [|done]. injection H2 as H2. apply negb_true_iff in Hn. simpl in Hn.
  split.
  - exists row. by rewrite (cf_devices _ _ _ Hf), <- H2.
  - unfold endpoint_referenced in *. by rewrite Hp, He in Hn.
  - intros key. rewrite (cf_observations _ _ _ Hf), <- H2. simpl. apply filter_observations.
  - by rewrite (cf_events _ _ _ Hf), (cf_sequence _ _ _ Hf), (cf_repairs _ _ _ Hf), <- H2.
  - destruct (cf_subjects _ _ _ Hf) as (_ & _ & ->). by rewrite <- H2.
  - intros k Hk. rewrite (cf_endpoints _ _ _ Hf) by done. rewrite <- H2. simpl.
    rewrite elem_of_filter, He. tauto.
Qed.

(** ** A write *)

(** The last written value of a key. *)
Definition last_device (l : list DeviceRecord) (id : DeviceId) : option DeviceRecord :=
  List.find (fun d => String.eqb (device_id d) id) (rev l).

Definition last_observation (l : list CapabilityObservation) (key : string * string * string * N) :
  option CapabilityObservation := List.find (fun o => bool_decide (observation_key o = key)) (rev l).

Definition device_payload (db : FoundationDb) (id : DeviceId) : option DeviceRecord :=
  dv_payload <$> fd_devices db !! id.

Definition writes_device (l : list DeviceRecord) (id : DeviceId) : bool :=
  existsb (fun d => String.eqb (device_id d) id) l.

Lemma endpoint_referenced_frame db db' id :
  db_projections (fd_db db') = db_projections (fd_db db) ->
  (forall k, k.1 = id -> k ∈ db_endpoints (fd_db db') <-> k ∈ db_endpoints (fd_db db)) ->
  endpoint_referenced (fd_db db') id = endpoint_referenced (fd_db db) id.
Proof.
  intros Hp He. unfold endpoint_referenced. rewrite Hp.
  induction (map_to_list (db_projections (fd_db db))) as [|kv l IH]; simpl; [done|]. rewrite IH. f_equal.
  destruct (String.eqb_spec (sp_device_id (pj_payload kv.2)) id); simpl; [|done].
  apply bool_decide_ext, He. done.
Qed.

(** What the accepted devices of a write did. *)
Record devices_written (l : list DeviceRecord) (db db' : FoundationDb) : Prop := {
  ws_devices id : device_payload db' id
    = match last_device l id with Some d => Some d | None => device_payload db id end;
  ws_unreferenced d : In d l -> endpoint_referenced (fd_db db) (device_id d) = false;
  ws_observations key : fd_observations db' !! key
    = if writes_device l key.1.1.1 then None else fd_observations db !! key;
  ws_events : fd_events db' = fd_events db /\ fd_sequence db' = fd_sequence db /\
              fd_repairs db' = fd_repairs db
}.

Lemma upsert_devices_written l db db' :
  try_fold upsert_device db l = Ok db' -> devices_written l db db'.
Proof.
  revert db. induction l as [|d l IH]; intros db; simpl; [by intros [= <-]; split|].
  intros (db1 & Hd & Hl)%result_bind_ok. apply IH in Hl as [Hdev Hun Hobs Hev].
  apply upsert_device_written in Hd as [(row & Hrow & Hpay) Href Hobs1 Hev1 Hproj Hend].
  split.
  - intros id. rewrite Hdev. unfold last_device, device_payload. simpl. rewrite find_app. simpl.
    destruct (List.find _ (rev l)); [done|]. rewrite Hrow.
    destruct (String.eqb_spec (device_id d) id) as [->|Hne];
      [by rewrite lookup_insert_eq; simpl; rewrite Hpay|by rewrite lookup_insert_ne].
  - intros d' [->|Hin]; [done|]. destruct (decide (device_id d' = device_id d)) as [->|Hne]; [done|].
    rewrite <- (Hun d' Hin). symmetry. apply endpoint_referenced_frame; [done|].
    intros k Hk. apply Hend. congruence.
  - intros key. rewrite Hobs, Hobs1. unfold is_of. rewrite String.eqb_sym. simpl.
    by destruct (String.eqb (device_id d) key.1.1.1), (writes_device l key.1.1.1).
  - destruct_and!. split_and!; congruence.
Qed.

(** The tables no later statement of a write touches. *)
Definition same_devices (db db' : FoundationDb) : Prop :=
  fd_devices db' = fd_devices db /\ fd_db db' = fd_db db.

Lemma upsert_observation_effect l db db' :
  try_fold upsert_observation db l = Ok db' ->
  same_devices db db' /\ fd_events db' = fd_events db /\ fd_sequence db' = fd_sequence db /\
  fd_repairs db' = fd_repairs db /\
  forall key, fd_observations db' !! key
    = match last_observation l key with Some o => Some o | None => fd_observations db !! key end.
Proof.
  revert db. induction l as [|o l IH]; intros db; simpl; [by intros [= <-]|].
  intros (db1 & Ho & Hl)%result_bind_ok. unfold upsert_observation in Ho. ok_inv.
  apply IH in Hl as ([Hd Hb] & He & Hs & Hr & Hk). split_and!; [done..|]. intros key.
  rewrite Hk. unfold last_observation. simpl. rewrite find_app. simpl.
  destruct (List.find _ (rev l)); [done|]. destruct (decide (observation_key o = key)) as [<-|Hne].
  - by rewrite bool_decide_eq_true_2, lookup_insert_eq.
  - by rewrite bool_decide_eq_false_2, lookup_insert_ne.
Qed.

(** The events with the cursors they are given. *)
Fixpoint numbered (cursor : N) (events : list DomainEvent) : list CursorEvent :=
  match events with
  | [] => []
  | event :: events => mk_cursor_event (cursor + 1) event :: numbered (cursor + 1) events
  end.

Lemma insert_events_effect l db db' :
  try_fold insert_event db l = Ok db' ->
  same_devices db db' /\ fd_observations db' = fd_observations db /\
  fd_repairs db' = fd_repairs db /\
  fd_events db' = fd_events db ++ numbered (fd_sequence db) l /\
  fd_sequence db' = (fd_sequence db + N.of_nat (length l))%N /\
  (forall e, In e l -> match ev_device_id e with
                       | None => True | Some id => is_Some (fd_devices db !! id) end).
Proof.
  revert db. induction l as [|e l IH]; intros db; simpl.
  { intros [= <-]. rewrite app_nil_r, N.add_0_r. by split_and!. }
  intros (db1 & He & Hl)%result_bind_ok. unfold insert_event in He. ok_inv.
  apply IH in Hl as ([Hd Hb] & Ho & Hr & Hv & Hs & Hf). simpl in *. split_and!; try done.
  - by rewrite Hv, <- app_assoc.
  - rewrite Hs. lia.
  - intros e' [<-|Hin]; [|by apply Hf]. destruct (ev_device_id e); [|done]. by bool_inv.
Qed.

Lemma upsert_repairs_effect l db db' :
  try_fold upsert_repair db l = Ok db' ->
  same_devices db db' /\ fd_observations db' = fd_observations db /\
  fd_events db' = fd_events db /\ fd_sequence db' = fd_sequence db /\
  (forall id, fd_repairs db' !! id
     = match List.find (fun r => String.eqb (rr_id r) id) (rev l) with
       | Some r => Some r | None => fd_repairs db !! id end) /\
  (forall r id, In r l -> (forall r', In r' l -> rr_id r' = rr_id r -> r' = r) ->
     rr_device_id r = Some id -> is_Some (fd_devices db !! id) \/ is_Some (fd_repairs db !! rr_id r)).
Proof.
  revert db. induction l as [|r l IH]; intros db; simpl; [by intros [= <-]|].
  intros (db1 & Hr & Hl)%result_bind_ok. unfold upsert_repair in Hr. ok_inv.
  apply IH in Hl as ([Hd Hb] & Ho & Hv & Hs & Hk & Hf). simpl in *. split_and!; try done.
  - intros id. rewrite Hk, find_app. simpl. destruct (List.find _ (rev l)); [done|].
    destruct (String.eqb_spec (rr_id r) id) as [->|Hne];
      [by rewrite lookup_insert_eq|by rewrite lookup_insert_ne].
  - intros r' id Hin Huniq Hid. destruct (decide (rr_id r = rr_id r')) as [Eid|Hne].
    + rewrite <- (Huniq r (or_introl eq_refl) Eid) in *. rewrite Hid in *.
      destruct (fd_repairs db !! rr_id r); [by right; eauto|left]. by bool_inv.
    + destruct Hin as [->|Hin]; [done|].
      destruct (Hf r' id Hin) as [|Hs']; [by auto|done|by left|right]. by rewrite lookup_insert_ne in Hs'.
Qed.

Lemma upsert_configuration_effect write db db' :
  (let? db := try_fold upsert_installation db (fw_installations write) in
   let? db := try_fold upsert_integration db (fw_integrations write) in
   try_fold upsert_space db (fw_spaces write)) = Ok db' ->
  fd_devices db' = fd_devices db /\ fd_observations db' = fd_observations db /\
  fd_events db' = fd_events db /\ fd_sequence db' = fd_sequence db /\
  fd_repairs db' = fd_repairs db /\
  db_projections (fd_db db') = db_projections (fd_db db) /\
  db_endpoints (fd_db db') = db_endpoints (fd_db db).
Proof.
  set (R := fun db db' : FoundationDb => fd_devices db' = fd_devices db /\
    fd_observations db' = fd_observations db /\ fd_events db' = fd_events db /\
    fd_sequence db' = fd_sequence db /\ fd_repairs db' = fd_repairs db /\
    db_projections (fd_db db') = db_projections (fd_db db) /\
    db_endpoints (fd_db db') = db_endpoints (fd_db db)).
  assert (HR : forall s, R s s) by (unfold R; by intros; split_and!).
  assert (HT : forall s t u, R s t -> R t u -> R s u).
  { unfold R. intros. destruct_and!. split_and!; congruence. }
  intros (db1 & H1 & (db2 & H2 & H3)%result_bind_ok)%result_bind_ok. change (R db db').
  apply (HT _ db1); [|apply (HT _ db2)].
  - eapply try_fold_rel; [done|done| |exact H1]. unfold upsert_installation, R. intros. ok_inv.
    by split_and!.
  - eapply try_fold_rel; [done|done| |exact H2]. unfold upsert_integration, R. intros. ok_inv.
    by split_and!.
  - eapply try_fold_rel; [done|done| |exact H3]. unfold upsert_space, R. intros. ok_inv.
    by split_and!.
Qed.

(** What an accepted write did, table by table. *)
Record write_applied (write : FoundationWrite) (db db' : FoundationDb) : Prop := {
  wa_devices id : device_payload db' id
    = match last_device (fw_devices write) id with Some d => Some d | None => device_payload db id end;
  wa_observations key : fd_observations db' !! key
    = match last_observation (fw_observations write) key with
      | Some o => Some o
      | None => if writes_device (fw_devices write) key.1.1.1 then None else fd_observations db !! key
      end;
  wa_unreferenced d : In d (fw_devices write) -> endpoint_referenced (fd_db db) (device_id d) = false;
  wa_events : fd_events db' = fd_events db ++ numbered (fd_sequence db) (fw_events write);
  wa_repairs r id : In r (fw_repairs write) ->
    (forall r', In r' (fw_repairs write) -> rr_id r' = rr_id r -> r' = r) ->
    rr_device_id r = Some id -> fd_repairs db !! rr_id r = None -> is_Some (device_payload db' id)
}.

Lemma apply_applied db write db' : apply db write = Ok db' -> write_applied write db db'.
Proof.
  unfold apply. intros Ha.
  apply result_bind_ok in Ha as (db1 & H1 & Ha). apply result_bind_ok in Ha as (db2 & H2 & Ha).
  apply result_bind_ok in Ha as (db3 & H3 & Ha). apply result_bind_ok in Ha as (db4 & H4 & Ha).
  apply result_bind_ok in Ha as (db5 & H5 & Ha). apply result_bind_ok in Ha as (db6 & H6 & H7).
  destruct (upsert_configuration_effect write db db3) as (Cd & Co & Ce & Cs & Cr & Cp & Cn).
  { by rewrite H1; simpl; rewrite H2. }
  apply upsert_devices_written in H4 as [Wd Wu Wo (We & Ws & Wr)].
  apply upsert_observation_effect in H5 as ([Od Ob] & Oe & Os & Or & Oo).
  apply insert_events_effect in H6 as ([Ed Eb] & Eo & Er & Ee & Es & _).
  apply upsert_repairs_effect in H7 as ([Rd Rb] & Ro & Re & Rs & _ & Rf).
  assert (Hdev : fd_devices db' = fd_devices db4) by congruence. split.
  - intros id. unfold device_payload in *. by rewrite Hdev, Wd, Cd.
  - intros key. by rewrite Ro, Eo, Oo, Wo, Co.
  - intros d Hd. rewrite <- (Wu d Hd). symmetry. apply endpoint_referenced_frame; [done|].
    intros k _. by rewrite Cn.
  - by rewrite Re, Ee, Oe, We, Ce, Os, Ws, Cs.
  - intros r id Hin Huniq Hid Hnone. unfold device_payload. rewrite Hdev.
    destruct (Rf r id Hin Huniq Hid) as [Hs|Hs].
    + rewrite Ed, Od in Hs. by apply fmap_is_Some.
    + rewrite Er, Or, Wr, Cr, Hnone in Hs. by apply is_Some_None in Hs.
Qed.

(** C16: an accepted write stores the last payload of every device it names and
    keeps every other device; of the observations of a named device only those of
    the write itself remain, because the endpoints are deleted and inserted again
    and observations reference them with a cascade; a device that a Matter
    projection references is never accepted; and the events follow the log with
    consecutive cursors. *)
Theorem foundation_write_effect db write db' :
  apply db write = Ok db' ->
  (forall id, device_payload db' id
     = match last_device (fw_devices write) id with Some d => Some d | None => device_payload db id end) /\
  (forall key, fd_observations db' !! key
     = match last_observation (fw_observations write) key with
       | Some o => Some o
       | None => if writes_device (fw_devices write) key.1.1.1 then None else fd_observations db !! key
       end) /\
  (forall d, In d (fw_devices write) -> endpoint_referenced (fd_db db) (device_id d) = false) /\
  fd_events db' = fd_events db ++ numbered (fd_sequence db) (fw_events write) /\
  (forall r id, In r (fw_repairs write) ->
     (forall r', In r' (fw_repairs write) -> rr_id r' = rr_id r -> r' = r) ->
     rr_device_id r = Some id -> fd_repairs db !! rr_id r = None -> is_Some (device_payload db' id)).
Proof. by intros []%apply_applied. Qed.
End Props.

#[local] Existing Instance integer_json.

(** The plug seen again: its observation is gone. *)
Definition plug_write : FoundationWrite := device_write [plug] [] [] [].

Lemma foundation_write_effect_witness : exists db,
  apply house_db plug_write = Ok db /\
  is_Some (fd_observations house_db !! observation_key plug_switch) /\
  fd_observations db !! observation_key plug_switch = None.
Proof.
  assert (Hok : is_ok (apply house_db plug_write) = true) by (vm_compute; reflexivity).
  destruct (apply house_db plug_write) as [db|] eqn:E; [|done]. exists db. split; [done|]. split.
  - assert (Hs : match fd_observations house_db !! observation_key plug_switch with
                | Some _ => true | None => false end = true) by (vm_compute; reflexivity).
    destruct (fd_observations house_db !! observation_key plug_switch); [by eexists|done].
  - destruct (foundation_write_effect _ _ _ E) as (_ & Hobs & _). rewrite Hobs.
    vm_compute. reflexivity.
Defined.
