(* ===== verification/ApplicationProps.v ===== *)
(** What the device application promises: its registry follows the repository,
    nothing is shown before it is stored, and what the interleaving of its calls
    and the Matter tables do to those promises. *)

From stdpp Require Import sorting relations.
From stdpp Require Import relations.
From S2P Require Import Prelude Text BTree Json Capability Lifecycle Device Command MatterState CommandStore Effects CommandService CommandFixture Identity FoundationStore Reconciliation Application ApplicationFixture FoundationProps.

(** * The device application in its world: the durable foundation, the registry,
    the repairs, the events that were fanned out and the candidates every scanner
    finds.  [legal] says what an
    operation can answer there and [after] what it does; tasks interleave at
    their operations ([app_step]). *)

Section System.
Context `{SerdeJson} `{Uuids}.

Record World := mk_world {
  w_db : FoundationDb;
  w_registry : list (string * DeviceRecord);
  w_repairs : list (string * RepairRecord);
  w_published : list DomainEvent;
  w_candidates : nat -> list DiscoveryCandidate
}.

Definition set_db (w : World) (db : FoundationDb) : World :=
  mk_world db (w_registry w) (w_repairs w) (w_published w) (w_candidates w).
Definition set_registry (w : World) (registry : list (string * DeviceRecord)) : World :=
  mk_world (w_db w) registry (w_repairs w) (w_published w) (w_candidates w).
Definition set_repair_map (w : World) (repairs : list (string * RepairRecord)) : World :=
  mk_world (w_db w) (w_registry w) repairs (w_published w) (w_candidates w).
Definition set_published (w : World) (published : list DomainEvent) : World :=
  mk_world (w_db w) (w_registry w) (w_repairs w) published (w_candidates w).

Definition extend_repairs (map : list (string * RepairRecord)) (repairs : list RepairRecord) :
  list (string * RepairRecord) :=
  fold_left (fun map repair => binsert (rr_id repair) repair map) repairs map.

(** Random identities do not repeat. *)
Definition fresh_draws (db : FoundationDb) (draws : nat -> string) : Prop :=
  (forall i j, draws i = draws j -> i = j) /\
  (forall i, fd_repairs db !! draws i = None) /\
  (forall i row, In row (fd_events db) -> ev_id (cev_event row) <> draws i).

(** A write answers [Ok] when its transaction is accepted; it may always fail
    without a trace.  The sessions, the event sink and the clock are free. *)
Definition legal (op : AppOp) : app_resp op -> World -> Prop :=
  match op with
  | Ao_load => fun r w => match r with Ok s => s = load (w_db w) | Err _ => True end
  | Ao_apply write => fun r w =>
      match r with Ok _ => is_ok (apply (w_db w) write) = true | Err _ => True end
  | Ao_events_after cursor limit => fun r w =>
      match r with Ok page => load_events_after (fd_events (w_db w)) cursor limit = Ok page
      | Err _ => True end
  | Ao_scan scanner => fun r w =>
      match r with Ok cs => cs = w_candidates w scanner | Err _ => True end
  | Ao_draws => fun r w => fresh_draws (w_db w) r
  | Ao_records => fun r w => r = DeviceRegistry.records (w_registry w)
  | Ao_get_record id => fun r w => r = DeviceRegistry.get_record (w_registry w) id
  | Ao_repairs => fun r w => r = map snd (w_repairs w)
  | Ao_repair id => fun r w => r = bget id (w_repairs w)
  | _ => fun _ _ => True
  end.

Definition after (op : AppOp) : app_resp op -> World -> World :=
  match op with
  | Ao_apply write => fun r w =>
      match r, apply (w_db w) write with Ok _, Ok db => set_db w db | _, _ => w end
  | Ao_publish events => fun r w => set_published w (w_published w ++ events)
  | Ao_registry_load records => fun _ w => set_registry w (DeviceRegistry.load records)
  | Ao_upsert_all records => fun _ w =>
      set_registry w (DeviceRegistry.upsert_all (w_registry w) records)
  | Ao_new_repairs repairs => fun _ w => set_repair_map w (extend_repairs [] repairs)
  | Ao_extend_repairs repairs => fun _ w => set_repair_map w (extend_repairs (w_repairs w) repairs)
  | _ => fun _ w => w
  end.

(** Every outcome of a task that runs alone. *)
Abbreviation alone m w Q := (always legal after m w Q).

(** ** Interleaving *)

(** A task and whether it succeeded. *)
Definition task {A E : Type} (m : Prog app_resp (result A E)) : Prog app_resp bool :=
  let! r := m in Ret (is_ok r).


(** ** The registry and the repository *)

(** The registry holds exactly the stored devices. *)
Definition synced (w : World) : Prop :=
  forall id, bget id (w_registry w) = device_payload (w_db w) id.

(** Every row is stored under the identity of its payload. *)
Definition keyed (db : FoundationDb) : Prop :=
  forall id d, device_payload db id = Some d -> device_id d = id.

Lemma bget_upsert_all registry l id :
  bget id (DeviceRegistry.upsert_all registry l)
  = match last_device l id with Some d => Some d | None => bget id registry end.
Proof. unfold DeviceRegistry.upsert_all. apply bget_fold_binsert. Qed.

Lemma last_device_id l id d : last_device l id = Some d -> In d l /\ device_id d = id.
Proof.
  unfold last_device. intros [Hin Hid]%List.find_some. apply List.in_rev in Hin.
  by apply String.eqb_eq in Hid.
Qed.

Lemma apply_keyed db write db' : apply db write = Ok db' -> keyed db -> keyed db'.
Proof.
  intros Ha%apply_applied Hk id d. rewrite (wa_devices _ _ _ Ha).
  destruct (last_device _ id) as [d'|] eqn:E; [|apply Hk].
  intros [= <-]. by apply last_device_id in E as [_ E].
Qed.
End System.

(** Tasks of the application, interleaved. *)
Abbreviation app_step := (world_step (A := bool) legal after).

(** * The promises *)

Section Props.
Context `{SerdeJson} `{Uuids}.

Abbreviation alone m w Q := (always legal after m w Q).
Abbreviation AppResult A := (Prog app_resp (result A ApplicationError)).

(** ** One call alone *)

Lemma synced_write w write db' :
  synced w -> apply (w_db w) write = Ok db' ->
  synced (set_registry (set_db w db') (DeviceRegistry.upsert_all (w_registry w) (fw_devices write))).
Proof.
  intros Hs Ha%apply_applied id. simpl. by rewrite bget_upsert_all, (wa_devices _ _ _ Ha), Hs.
Qed.

Lemma alone_io {A} op (k : app_resp op -> Prog app_resp A) w (Q : A -> World -> Prop) :
  (forall r, legal op r w -> alone (k r) (after op r w) Q) -> alone (bind (io op) k) w Q.
Proof. done. Qed.

Lemma alone_return {A B E} (r : result A E) (f : A -> Prog app_resp (result B E)) w
  (Q : result B E -> World -> Prop) :
  match r with Ok a => alone (f a) w Q | Err e => Q (Err e) w end -> alone (try_bind (Ret r) f) w Q.
Proof. by destruct r. Qed.

Lemma alone_call {A B E F} (m : Prog app_resp (result A E)) (wrap : E -> F)
  (f : A -> Prog app_resp (result B F)) w (Q : result B F -> World -> Prop) :
  alone m w (fun r w => match r with Ok a => alone (f a) w Q | Err e => Q (Err (wrap e)) w end) ->
  alone (try_bind (app_call m wrap) f) w Q.
Proof.
  intros Hm. apply always_try, always_bind. eapply always_mono; [exact Hm|]. by intros [a|e] w'.
Qed.

(** Takes the answer of an operation that may fail. *)
Ltac answer Hr :=
  let r := fresh "r" in
  intros r Hr; cbn [app_resp] in r;
  destruct r as [?|?]; cbn [legal after always] in Hr |- *; [|try done].

(** A write that is followed by the upsert of its devices. *)
Lemma alone_commit {A E} write (wrap : BoxError -> E) (rest : Prog app_resp (result A E)) w
  (Q : result A E -> World -> Prop) :
  synced w -> (forall e, Q (Err e) w) -> (forall w', synced w' -> alone rest w' Q) ->
  alone (try_bind (app_call (io (Ao_apply write)) wrap)
           (fun _ => bind (io (Ao_upsert_all (fw_devices write))) (fun _ => rest))) w Q.
Proof.
  intros Hs He Hrest. apply alone_call. answer Hr.
  destruct (apply (w_db w) write) as [db'|] eqn:Ha; [|done].
  apply alone_io. intros ? _. apply Hrest. exact (synced_write w write db' Hs Ha).
Qed.

(** A final delivery, after which nothing else happens. *)
Lemma alone_publish {A E} events (wrap : BoxError -> E) (f : unit -> Prog app_resp (result A E)) w
  (Q : result A E -> World -> Prop) :
  let w' := set_published w (w_published w ++ events) in
  (forall e, Q (Err (wrap e)) w') -> alone (f tt) w' Q ->
  alone (try_bind (app_call (io (Ao_publish events)) wrap) f) w Q.
Proof. intros w' He Hf. apply alone_call. answer Hr.
  by repeat match goal with x : unit |- _ => destruct x end.
Qed.

Ltac alone_step :=
  match goal with
  | |- always _ _ (bind (io _) _) _ _ => apply alone_io; intros ? _; cbn [after]
  | |- always _ _ (try_bind (Ret ?r) _) _ _ => apply alone_return; destruct r as [[]|?] eqn:?; [|done]
  end.

Lemma update_synced id update w :
  synced w -> alone (update_device_metadata id update) w (fun _ => synced).
Proof.
  intros Hs. unfold update_device_metadata. apply alone_io. intros found _; cbn [app_resp] in found; destruct found as [device|]; [|done].
  do 2 alone_step. apply always_try. apply (always_mono _ _ _ _ (fun _ => synced)).
  { unfold replace_spaces. destruct (mu_spaces update) as [spaces|]; [|done].
    apply alone_call. answer Hr.
    match goal with |- context [unknown_space ?s ?p] => destruct (unknown_space s p) end; [done|].
    by case_bool_decide. }
  intros [[device3 fields3]|e] w1 Hs1; [|done]. destruct fields3 as [|field fields3]; [done|].
  do 2 alone_step. apply (alone_commit (device_write [device3] [] [_] [])); [done|done|].
  intros w2 Hs2. by apply alone_publish.
Qed.

Lemma refresh_integration_synced self scanner integration w :
  synced w -> alone (refresh_integration self scanner integration) w (fun _ => synced).
Proof.
  intros Hs. unfold refresh_integration. apply alone_call. answer Hr.
  do 2 alone_step. apply alone_return. match goal with |- context [reconcile ?d ?k ?c] => destruct (reconcile d k c) as [out|e] end; [|done].
  apply (alone_commit (device_write (ro_devices out) [] (ro_events out) (ro_repairs out))); [done|done|].
  intros w1 Hs1. apply always_try. apply (always_mono _ _ _ _ (fun _ => synced)).
  { unfold start_sessions. destruct (app_sessions self); [|done].
    apply always_for_each; [|done]. intros device w2 _ Hs2. case_bool_decide; [|done].
    by intros ? _. }
  intros [[]|e] w2 Hs2; [|done]. alone_step. by apply alone_publish.
Qed.

Lemma refresh_synced self w : synced w -> alone (refresh self) w (fun _ => synced).
Proof.
  unfold refresh. generalize 0 (@nil IntegrationRefresh). generalize (app_scanners self).
  intros integrations. revert w.
  induction integrations as [|integration integrations IH]; intros w scanner summaries Hs; [done|].
  cbn [refresh_from]. apply always_try. eapply always_mono; [by apply refresh_integration_synced|].
  intros [summary|e] w' Hs'; [|done]. by apply IH.
Qed.

Lemma remove_synced self id actor w : synced w -> alone (remove_device self id actor) w (fun _ => synced).
Proof.
  intros Hs. unfold remove_device. apply alone_io. intros found _; cbn [app_resp] in found; destruct found as [record|]; [|done].
  case_bool_decide; [done|]. apply alone_return.
  destruct (lifecycle_error _) as [removed|e]; [|done]. do 2 alone_step.
  apply (alone_commit (device_write [_] [] [_; _] [])); [done|done|].
  intros w1 Hs1. apply always_try. destruct (app_sessions self).
  - intros [[]|e] _; [|done]. by intros ? _.
  - by intros ? _.
Qed.

Lemma evaluate_synced policy now w :
  synced w -> alone (evaluate_freshness policy now) w (fun _ => synced).
Proof.
  intros Hs. unfold evaluate_freshness. do 2 alone_step. apply alone_return.
  destruct (try_fold _ _ _) as [[[changed events] n]|e]; [|done].
  destruct changed as [|device changed]; [done|].
  apply (alone_commit (device_write (device :: changed) [] events [])); [done|done|].
  intros w1 Hs1. by apply alone_publish.
Qed.

Lemma live_publish_synced batch refresh_requests w :
  synced w ->
  alone (LiveSink.publish (LiveSink.mk_live_sink refresh_requests true) batch) w (fun _ => synced).
Proof.
  intros Hs. unfold LiveSink.publish. cbn [LiveSink.ls_registry]. apply always_try.
  apply (always_mono _ _ _ _ (fun _ => synced)).
  { generalize (LiveSink.successes (lb_observations batch)) (@nil DeviceRecord).
    intros l. revert w Hs. induction l as [|[device_id at_] l IH]; intros w Hs devices; [done|].
    cbn [LiveSink.reached_devices]. apply alone_io.
    intros found _; cbn [app_resp] in found; destruct found as [device|]; [|by apply IH].
    apply alone_return. destruct (LiveSink.reached device at_); [by apply IH|done]. }
  intros [devices|e] w1 Hs1; [|done]. apply always_try. answer Hr. destruct (apply (w_db w1) _) as [db'|] eqn:Ha; [|done].
  intros ? _ r _. exact (synced_write w1 (device_write devices _ _ []) db' Hs1 Ha).
Qed.

(** The registry that is loaded from the stored rows. *)
Lemma loaded_registry db id :
  keyed db -> bget id (DeviceRegistry.load (fs_devices (load db))) = device_payload db id.
Proof.
  intros Hk. apply option_eq. intros d. unfold DeviceRegistry.load. cbn [load fs_devices].
  set (rows := map snd (merge_sort key_le (map_to_list (fd_devices db)))).
  assert (Hrows : forall id row, In (id, row) (merge_sort key_le (map_to_list (fd_devices db))) <->
    fd_devices db !! id = Some row).
  { intros id' row. rewrite <- elem_of_map_to_list, <- list_elem_of_In, merge_sort_Permutation. done. }
  assert (Hid : forall id row, fd_devices db !! id = Some row -> device_id (dv_payload row) = id).
  { intros id' row Hr. apply Hk. unfold device_payload. by rewrite Hr. }
  rewrite bcollect_lookup, in_map_iff.
  - unfold device_payload. split.
    + intros (d' & [= <- <-] & (row & <- & ([id' row'] & <- & Hin)%in_map_iff)%in_map_iff).
      simpl. apply Hrows in Hin. unfold DeviceRegistry.record_id. fold (device_id (dv_payload row')).
      by rewrite (Hid _ _ Hin), Hin.
    + intros (row & Hrow & ->)%fmap_Some. exists (dv_payload row).
      split; [f_equal; by apply Hid|]. apply in_map, in_map_iff. exists (id, row). split; [done|].
      by apply Hrows.
  - unfold ordered. rewrite !map_map. unfold DeviceRegistry.record_id.
    erewrite (List.map_ext_in _ fst).
    + apply NoDup_ListNoDup.
      change (NoDup (fst <$> merge_sort key_le (map_to_list (fd_devices db)))).
      rewrite merge_sort_Permutation.
      apply NoDup_fst_map_to_list.
    + intros [id' row] Hin. simpl. by apply Hid, Hrows.
Qed.

(** the registry follows the repository: the registry loaded at startup holds
    exactly the stored devices, and every call of the service and of the live
    sink, running alone, keeps it that way whatever its operations answer and
    wherever it fails. *)
Theorem registry_follows_repository self w :
  (forall scanners, keyed (w_db w) ->
     alone (from_repository scanners) w (fun r w' => is_ok r = true -> synced w')) /\
  (synced w ->
    (forall id update, alone (update_device_metadata id update) w (fun _ => synced)) /\
    alone (refresh self) w (fun _ => synced) /\
    (forall id actor, alone (remove_device self id actor) w (fun _ => synced)) /\
    (forall policy now, alone (evaluate_freshness policy now) w (fun _ => synced)) /\
    (forall batch refresh_requests,
       alone (LiveSink.publish (LiveSink.mk_live_sink refresh_requests true) batch) w
         (fun _ => synced))).
Proof.
  split.
  - intros scanners Hk. unfold from_repository. apply alone_call. answer Hr. subst.
    do 2 alone_step. intros _ id. by apply loaded_registry.
  - intros Hs. split_and!; intros; [by apply update_synced|by apply refresh_synced|
      by apply remove_synced|by apply evaluate_synced|by apply live_publish_synced].
Qed.

(** ** Nothing is shown before it is stored *)

(** What the task has committed so far. *)
Record Committed := mk_committed {
  co_devices : list DeviceRecord;
  co_events : list DomainEvent;
  co_repairs : list RepairRecord
}.

Definition nothing : Committed := mk_committed [] [] [].

Definition commit (write : FoundationWrite) (t : Committed) : Committed :=
  mk_committed (fw_devices write ++ co_devices t) (fw_events write ++ co_events t)
    (fw_repairs write ++ co_repairs t).

(** What may be shown: to subscribers, in the registry and the repair map, and to
    the sessions, which start for enrolled devices and stop for removed ones. *)
Definition shown (op : AppOp) (t : Committed) : Prop :=
  match op with
  | Ao_publish events => incl events (co_events t)
  | Ao_upsert_all records => incl records (co_devices t)
  | Ao_extend_repairs repairs => incl repairs (co_repairs t)
  | Ao_session_start device => In device (co_devices t) /\ dr_lifecycle device = Enrolled
  | Ao_session_stop id => exists d, In d (co_devices t) /\ device_id d = id /\ dr_lifecycle d = Removed
  | _ => True
  end.

Definition commits (op : AppOp) : app_resp op -> Committed -> Committed :=
  match op with
  | Ao_apply write => fun r t => match r with Ok _ => commit write t | Err _ => t end
  | _ => fun _ t => t
  end.

(** The registry answers with a record of the identity it was asked for. *)
Definition keyed_answer (op : AppOp) : app_resp op -> Committed -> Prop :=
  match op with
  | Ao_get_record id => fun r _ => forall d, r = Some d -> device_id d = id
  | _ => fun _ _ => True
  end.

Abbreviation visible m t Q := (wp shown commits keyed_answer m t Q).

Lemma visible_io {A} op (k : app_resp op -> Prog app_resp A) t (Q : A -> Committed -> Prop) :
  shown op t -> (forall r, keyed_answer op r (commits op r t) -> visible (k r) (commits op r t) Q) ->
  visible (bind (io op) k) t Q.
Proof. by split. Qed.

Lemma visible_ret {A B E} (r : result A E) (f : A -> Prog app_resp (result B E)) t
  (Q : result B E -> Committed -> Prop) :
  match r with Ok a => visible (f a) t Q | Err e => Q (Err e) t end -> visible (try_bind (Ret r) f) t Q.
Proof. by destruct r. Qed.

Lemma visible_call {A B E F} (m : Prog app_resp (result A E)) (wrap : E -> F)
  (f : A -> Prog app_resp (result B F)) t (Q : result B F -> Committed -> Prop) :
  visible m t (fun r t => match r with Ok a => visible (f a) t Q | Err e => Q (Err (wrap e)) t end) ->
  visible (try_bind (app_call m wrap) f) t Q.
Proof.
  intros Hm. apply wp_try, wp_bind. eapply wp_mono; [exact Hm|]. by intros [a|e] t'.
Qed.

(** A write, the upsert of its devices, and what follows. *)
Lemma visible_commit {A E} write (wrap : BoxError -> E) (rest : Prog app_resp (result A E)) t
  (Q : result A E -> Committed -> Prop) :
  (forall e, Q (Err e) t) -> visible rest (commit write t) Q ->
  visible (try_bind (app_call (io (Ao_apply write)) wrap)
             (fun _ => bind (io (Ao_upsert_all (fw_devices write))) (fun _ => rest))) t Q.
Proof.
  intros He Hrest. apply visible_call. split; [exact I|]. intros r _. cbn [app_resp] in r.
  destruct r as [[]|e]; cbn [commits wp]; [|done]. apply visible_io; [|by intros].
  simpl. apply incl_appl, incl_refl.
Qed.

Lemma visible_publish {A E} events (wrap : BoxError -> E) (f : unit -> Prog app_resp (result A E)) t
  (Q : result A E -> Committed -> Prop) :
  incl events (co_events t) -> (forall e, Q (Err e) t) -> visible (f tt) t Q ->
  visible (try_bind (app_call (io (Ao_publish events)) wrap) f) t Q.
Proof.
  intros Hin He Hf. apply visible_call. split; [done|]. intros r _. cbn [app_resp] in r.
  by destruct r as [[]|e]; cbn [commits wp].
Qed.

(** A call that shows nothing before its own write. *)
Definition shows_committed {A} (m : Prog app_resp A) : Prop :=
  forall t, visible m t (fun _ _ => True).

Ltac visible_step :=
  match goal with
  | |- wp _ _ _ (bind (io _) _) _ _ => apply visible_io; [exact I|]; intros ? _; cbn [commits]
  | |- wp _ _ _ (try_bind (Ret ?r) _) _ _ => apply visible_ret; destruct r as [[]|?] eqn:?; [|done]
  | |- wp _ _ _ (try_bind (app_call (io _) _) _) _ _ =>
      apply visible_call; split; [exact I|]; let r := fresh "r" in intros r _;
      cbn [app_resp] in r; destruct r as [?|?]; cbn [commits wp]; [|done]
  end.

(** The answer to a lookup in the registry. *)
Ltac found_step device :=
  apply visible_io; [exact I|]; intros found Hfound; cbn [app_resp commits keyed_answer] in *;
  destruct found as [device|]; [|done].

Lemma update_shows id update : shows_committed (update_device_metadata id update).
Proof.
  intros t. unfold update_device_metadata. found_step device. do 2 visible_step.
  apply wp_try. apply (wp_mono _ _ _ _ _ (fun _ _ => True)).
  { unfold replace_spaces. destruct (mu_spaces update) as [spaces|]; [|done]. visible_step.
    match goal with |- context [unknown_space ?s ?p] => destruct (unknown_space s p) end; [done|].
    by case_bool_decide. }
  intros [[device3 fields3]|e] t1 _; [|done]. destruct fields3 as [|field fields3]; [done|].
  do 2 visible_step. apply (visible_commit (device_write [device3] [] [_] [])); [done|].
  apply visible_publish; [|done|done]. simpl. intros e [->|[]]. by left.
Qed.

Lemma evaluate_shows policy now : shows_committed (evaluate_freshness policy now).
Proof.
  intros t. unfold evaluate_freshness. do 2 visible_step. apply visible_ret.
  destruct (try_fold _ _ _) as [[[changed events] n]|e]; [|done].
  destruct changed as [|device changed]; [done|].
  apply (visible_commit (device_write (device :: changed) [] events [])); [done|].
  apply visible_publish; [|done|done]. simpl. apply incl_appl, incl_refl.
Qed.

Lemma remove_shows self id actor : shows_committed (remove_device self id actor).
Proof.
  intros t. unfold remove_device. found_step record. case_bool_decide as Hl; [done|].
  apply visible_ret. destruct (lifecycle_error _) as [removed|e] eqn:Hr; [|done]. do 2 visible_step.
  assert (Hrem : device_id removed = id /\ dr_lifecycle removed = Removed).
  { unfold Device.transition in Hr. destruct (DeviceLifecycle.transition _ Remove) as [l|] eqn:E;
      [|done]. injection Hr as <-. split; [exact (Hfound record eq_refl)|]. simpl.
    revert E. destruct (dr_lifecycle record); simpl; congruence. }
  apply (visible_commit (device_write [_] [] [_; _] [])); [done|]. apply wp_try.
  assert (Hpub : forall events t0, incl events (co_events t0) ->
    visible (app_publish events) t0 (fun _ _ => True)).
  { intros events t0 Hin. apply wp_bind. split; [done|]. by intros. }
  destruct (app_sessions self); [|by apply Hpub, incl_appl, incl_refl].
  apply wp_bind. split.
  - eexists. split; [by left|]. split; apply Hrem.
  - intros answer _. cbn [app_resp] in answer. destruct answer as [[]|e]; [|done].
    by apply Hpub, incl_appl, incl_refl.
Qed.

Lemma refresh_integration_shows self scanner integration :
  shows_committed (refresh_integration self scanner integration).
Proof.
  intros t. unfold refresh_integration. visible_step. do 2 visible_step. apply visible_ret.
  match goal with |- context [reconcile ?d ?k ?c] => destruct (reconcile d k c) as [out|e] end; [|done].
  apply (visible_commit (device_write (ro_devices out) [] (ro_events out) (ro_repairs out))); [done|].
  set (t1 := commit _ t). apply wp_try. apply (wp_mono _ _ _ _ _ (fun _ t2 => t2 = t1)).
  { unfold start_sessions. destruct (app_sessions self); [|done].
    apply (wp_for_each _ _ _ _ _ _ (fun t2 => t2 = t1)); [done| |done].
    intros device t2 Hin ->. case_bool_decide as Hl; [|done]. apply wp_bind. split.
    - split; [|done]. unfold t1. simpl. apply in_app_iff. by left.
    - intros answer _. cbn [app_resp] in answer. by destruct answer. }
  intros [[]|e] t2 ->; [|done]. apply visible_io.
  { unfold t1. simpl. apply incl_appl, incl_refl. }
  intros ? _. apply visible_publish; [|done|done]. unfold t1. simpl. apply incl_appl, incl_refl.
Qed.

Lemma refresh_shows self : shows_committed (refresh self).
Proof.
  unfold refresh. generalize 0 (@nil IntegrationRefresh). generalize (app_scanners self).
  intros integrations. induction integrations as [|integration integrations IH];
    intros scanner summaries t; [done|].
  cbn [refresh_from]. apply wp_try. eapply wp_mono; [apply refresh_integration_shows|].
  intros [summary|e] t' _; [|done]. apply IH.
Qed.

Lemma live_publish_shows sink batch : shows_committed (LiveSink.publish sink batch).
Proof.
  intros t. unfold LiveSink.publish. apply wp_try.
  apply (wp_mono _ _ _ _ _ (fun _ _ => True)).
  { destruct (LiveSink.ls_registry sink); [|done].
    generalize (LiveSink.successes (lb_observations batch)) (@nil DeviceRecord).
    intros l. revert t. induction l as [|[device_id at_] l IH]; intros t devices; [done|].
    cbn [LiveSink.reached_devices]. apply visible_io; [exact I|]. intros found _.
    cbn [app_resp] in found. destruct found as [device|]; [|apply IH].
    apply visible_ret. destruct (LiveSink.reached device at_); [apply IH|done]. }
  intros [devices|e] t1 _; [|done]. apply wp_try. split; [exact I|]. intros answer _.
  cbn [app_resp] in answer. destruct answer as [[]|e]; [|done]. cbn [commits wp].
  assert (Hpub : visible (io (Ao_publish (lb_events batch)))
    (commit (device_write devices (lb_observations batch) (lb_events batch) []) t1)
    (fun _ _ => True)).
  { split; [|done]. simpl. apply incl_appl, incl_refl. }
  destruct (LiveSink.ls_registry sink); [|done]. apply visible_io; [|done].
  simpl. apply incl_appl, incl_refl.
Qed.

(** C6: whatever its operations answer and however other tasks interleave, no call
    publishes an event, puts a record into the registry or a repair into the
    repair map, or starts or stops a session, unless the same call has committed
    that event, record or repair before; sessions start only for enrolled devices
    and stop only for removed ones. *)
Theorem shown_after_commit self sink :
  (forall id update, shows_committed (update_device_metadata id update)) /\
  shows_committed (refresh self) /\
  (forall id actor, shows_committed (remove_device self id actor)) /\
  (forall policy now, shows_committed (evaluate_freshness policy now)) /\
  (forall batch, shows_committed (LiveSink.publish sink batch)).
Proof.
  split_and!; intros; [apply update_shows|apply refresh_shows|apply remove_shows|
    apply evaluate_shows|apply live_publish_shows].
Qed.
End Props.

(** ** The small house *)

#[local] Existing Instance integer_json.

Definition house : World := mk_world house_db [(plug_id, plug)] [] [] (fun _ => scan_result).

Lemma house_payload id :
  device_payload house_db id = if String.eqb plug_id id then Some plug else None.
Proof.
  assert (Ha : apply empty_db house_write = Ok house_db).
  { unfold house_db. destruct (apply empty_db house_write) as [db|e] eqn:E; [done|].
    exfalso. assert (Hok : is_ok (apply empty_db house_write) = true) by (vm_compute; reflexivity).
    by rewrite E in Hok. }
  apply apply_applied in Ha. rewrite (wa_devices _ _ _ Ha). unfold device_payload.
  cbn [fd_devices empty_db]. rewrite lookup_empty. change (last_device (fw_devices house_write) id)
    with (if String.eqb plug_id id then Some plug else None).
  by destruct (String.eqb plug_id id).
Qed.

Lemma house_synced : synced house.
Proof. intros id. rewrite house_payload. simpl. by rewrite String.eqb_sym. Qed.

Lemma registry_follows_repository_witness :
  synced house /\ keyed house_db /\
  always legal after (refresh (mk_application ["shelly"%string] false FreshnessPolicy.default)) house
    (fun _ => synced).
Proof.
  split; [exact house_synced|]. split.
  - intros id d. rewrite house_payload. destruct (String.eqb_spec plug_id id) as [<-|]; [|done].
    by intros [= <-].
  - apply (registry_follows_repository (mk_application ["shelly"%string] false FreshnessPolicy.default)
      house). exact house_synced.
Defined.
