(* ===== verification/ApplicationFaults.v ===== *)
(** Freshness against its definition, and the writes that cannot succeed: what a
    Matter projection, an identity collision and an interleaved call do to the
    device application. *)

From stdpp Require Import sorting relations.
From S2P Require Import Prelude Text BTree Json Capability Lifecycle Device Command MatterState Effects CommandStore CommandService Identity FoundationStore Reconciliation Application ReconciliationProps FoundationProps ApplicationProps CommandFixture ApplicationFixture.

Section Freshness.
Context `{SerdeJson} `{Uuids}.

Abbreviation alone m w Q := (always legal after m w Q).

(** ** The reference definition of an assessment *)

(** The lifecycle, availability and reason a device should have. *)
Definition verdict (policy : FreshnessPolicy) (now : Instant) (d : DeviceRecord) :
  option (DeviceLifecycle * AvailabilityState * option string) :=
  match dr_lifecycle d with
  | Candidate | Removed => None
  | Enrolled | Stale =>
      match freshness_at d policy now with
      | Fr_Unknown | Fr_Sleeping => None
      | Fr_Fresh => Some (Enrolled, Av_Online, None)
      | Fr_Stale => Some (Stale, Av_Degraded, Some "stale"%string)
      | Fr_Offline => Some (Stale, Av_Offline, Some "freshness_timeout"%string)
      end
  end.

Definition changes (policy : FreshnessPolicy) (now : Instant) (d : DeviceRecord) : bool :=
  match verdict policy now d with
  | Some (lifecycle, state, _) => negb (bool_decide (device_state d = (lifecycle, state)))
  | None => false
  end.

Definition assessed (policy : FreshnessPolicy) (now : Instant) (d : DeviceRecord) : DeviceRecord :=
  match verdict policy now d with
  | Some (lifecycle, state, reason) =>
      mk_device (dr_installation_id d) (dr_integration_id d) (dr_snapshot d) lifecycle
        (Availability.transition (dr_availability d) state now reason) (dr_timestamps d)
        (dr_aliases d) (dr_spaces d) (dr_capability_descriptors d)
  | None => d
  end.

Lemma assess_spec policy now d :
  assess policy now d
  = Ok (match verdict policy now d with Some _ => Some (assessed policy now d) | None => None end).
Proof.
  unfold assess, assessed, verdict, with_availability, Device.transition.
  destruct d as [inst int s [] av ts al sp de]; simpl; try done;
    by destruct (freshness_at _ policy now).
Qed.

Lemma transition_state av state now reason :
  av_state (Availability.transition av state now reason) = state.
Proof.
  unfold Availability.transition. destruct (bool_decide _ && bool_decide _) eqn:E; [|done]. by bool_inv.
Qed.

Lemma assessed_state policy now d l st reason :
  verdict policy now d = Some (l, st, reason) -> device_state (assessed policy now d) = (l, st).
Proof.
  intros Hv. unfold assessed, device_state. rewrite Hv. simpl. by rewrite transition_state.
Qed.

(** The events of an assessment are there exactly when the device changes, and
    they replay its change. *)
Lemma assessment_events_spec draws causation policy now d n l st reason :
  verdict policy now d = Some (l, st, reason) ->
  let events := assessment_events draws causation now d (assessed policy now d) n in
  (events = [] <-> changes policy now d = false) /\
  (forall e, In e events -> ev_device_id e = Some (device_id d)) /\
  replay (device_id d) (device_state d) events = Some (l, st).
Proof.
  intros Hv. pose proof (assessed_state _ _ _ _ _ _ Hv) as Ha. unfold device_state in Ha.
  injection Ha as Hl Hs. unfold changes. rewrite Hv. unfold assessment_events. rewrite Hl, Hs.
  assert (Hid : ds_id (dr_snapshot (assessed policy now d)) = device_id d)
    by (unfold assessed; by rewrite Hv).
  rewrite Hid. unfold device_state.
  assert (Hleg : dr_lifecycle d <> l ->
    result_ok (DeviceLifecycle.transition (dr_lifecycle d)
      (if bool_decide (l = Stale) then MarkStale else Rediscover)) = Some l).
  { clear Hl Hs Hid. revert Hv. unfold verdict. destruct (dr_lifecycle d); [done| | |done];
      by destruct (freshness_at d policy now); intros; simplify_eq. }
  set (lc := if bool_decide (l = dr_lifecycle d) then [] else _).
  set (ac := if bool_decide (st = _) then [] else _).
  assert (Hlc : (lc = [] <-> dr_lifecycle d = l) /\
    replay (device_id d) (dr_lifecycle d, av_state (dr_availability d)) lc
      = Some (l, av_state (dr_availability d)) /\
    forall e, In e lc -> ev_device_id e = Some (device_id d)).
  { unfold lc, replay, about. destruct (decide (l = dr_lifecycle d)) as [El|El];
      [rewrite (bool_decide_eq_true_2 (l = dr_lifecycle d)) by done|
       rewrite (bool_decide_eq_false_2 (l = dr_lifecycle d)) by done]; simpl.
    - rewrite <- El. split; [by split|]. by split; [|intros e []].
    - rewrite (bool_decide_eq_true_2 (Some _ = Some _)) by done. simpl.
      rewrite (bool_decide_eq_true_2 (dr_lifecycle d = dr_lifecycle d)) by done.
      rewrite (bool_decide_eq_true_2 (result_ok _ = Some l)) by (apply Hleg; congruence). simpl.
      split; [split; congruence|]. split; [done|]. by intros e [<-|[]]. }
  assert (Hac : (ac = [] <-> av_state (dr_availability d) = st) /\
    replay (device_id d) (l, av_state (dr_availability d)) ac = Some (l, st) /\
    forall e, In e ac -> ev_device_id e = Some (device_id d)).
  { unfold ac, replay, about. destruct (decide (st = av_state (dr_availability d))) as [Es|Es];
      [rewrite (bool_decide_eq_true_2 (st = av_state (dr_availability d))) by done|
       rewrite (bool_decide_eq_false_2 (st = av_state (dr_availability d))) by done]; simpl.
    - rewrite <- Es. split; [done|]. by split; [|intros e []].
    - rewrite bool_decide_eq_true_2 by done. simpl. rewrite bool_decide_eq_true_2 by done. simpl.
      split; [split; congruence|]. split; [done|]. by intros e [<-|[]]. }
  destruct Hlc as (Hlc & Hlr & Hla), Hac as (Hac & Har & Haa). split; [|split].
  - split.
    + intros [H1%Hlc H2%Hac]%app_nil. apply negb_false_iff, bool_decide_eq_true_2. congruence.
    + intros E%negb_false_iff%bool_decide_eq_true. injection E as E1 E2.
      by rewrite (proj2 Hlc E1), (proj2 Hac E2).
  - intros e [Hin|Hin]%in_app_iff; auto.
  - rewrite replay_app, Hlr. exact Har.
Qed.

(** ** The evaluation of all devices *)

Definition refreshed (policy : FreshnessPolicy) (now : Instant) (d : DeviceRecord) : DeviceRecord :=
  if changes policy now d then assessed policy now d else d.

Lemma assessed_id policy now d : device_id (assessed policy now d) = device_id d.
Proof. unfold assessed. destruct (verdict policy now d) as [[[l st] reason]|]; done. Qed.

Lemma freshness_round_spec draws causation policy now changed events n d :
  exists news n', freshness_round draws causation policy now (changed, events, n) d
    = Ok (changed ++ (if changes policy now d then [assessed policy now d] else []), events ++ news, n').
Proof.
  unfold freshness_round. rewrite assess_spec. cbn [result_bind].
  destruct (verdict policy now d) as [[[l st] reason]|] eqn:Hv.
  - destruct (assessment_events_spec draws causation policy now d n l st reason Hv) as (Hnil & _).
    eexists _, _. do 3 f_equal. destruct (changes policy now d) eqn:Ec.
    + rewrite bool_decide_eq_false_2; [done|]. intros E'. apply Hnil in E'. congruence.
    + rewrite bool_decide_eq_true_2, app_nil_r; [done|]. by apply Hnil.
  - exists [], n. rewrite app_nil_r. unfold changes. by rewrite Hv, app_nil_r.
Qed.

Lemma freshness_fold draws causation policy now known changed events n :
  exists news n', try_fold (freshness_round draws causation policy now) (changed, events, n) known
    = Ok (changed ++ map (assessed policy now) (List.filter (changes policy now) known),
          events ++ news, n').
Proof.
  revert changed events n. induction known as [|d known IH]; intros changed events n;
    cbn [try_fold List.filter map].
  { exists [], n. by rewrite !app_nil_r. }
  destruct (freshness_round_spec draws causation policy now changed events n d) as (news & n1 & ->).
  cbn [result_bind]. destruct (IH (changed ++ (if changes policy now d then [assessed policy now d] else []))
    (events ++ news) n1) as (more & n2 & ->).
  exists (news ++ more), n2. rewrite <- !app_assoc. by destruct (changes policy now d).
Qed.

(** The devices an evaluation changes, after it. *)
Definition changed_devices (policy : FreshnessPolicy) (now : Instant) (known : list DeviceRecord) :
  list DeviceRecord := map (assessed policy now) (List.filter (changes policy now) known).

(** What an evaluation that was stored leaves. *)
Definition evaluated (policy : FreshnessPolicy) (now : Instant) (w w' : World) : Prop :=
  synced w' /\
  (forall id, bget id (w_registry w') = refreshed policy now <$> bget id (w_registry w)) /\
  (forall key d, bget key.1.1.1 (w_registry w) = Some d -> changes policy now d = true ->
     fd_observations (w_db w') !! key = None).

(** A registry in the order of the identities of its records. *)
Definition ordered_registry (registry : list (string * DeviceRecord)) : Prop :=
  bsorted registry /\ forall id d, bget id registry = Some d -> device_id d = id.

Lemma last_changed policy now registry id :
  ordered_registry registry ->
  last_device (changed_devices policy now (DeviceRegistry.records registry)) id
  = match bget id registry with
    | Some d => if changes policy now d then Some (assessed policy now d) else None
    | None => None
    end.
Proof.
  intros [Hs Hk]. destruct (last_device _ id) as [d'|] eqn:E.
  - apply last_device_id in E as [(d & <- & [Hin Hc]%List.filter_In)%in_map_iff Hid].
    apply in_map_iff in Hin as ([id' d0] & Heq & Hin). simpl in Heq. subst d0.
    apply bsorted_In in Hin; [|done]. rewrite assessed_id in Hid. rewrite (Hk _ _ Hin) in Hid.
    subst id'. by rewrite Hin, Hc.
  - destruct (bget id registry) as [d|] eqn:Eb; [|done].
    destruct (changes policy now d) eqn:Ec; [|done]. exfalso.
    assert (Hin : In (assessed policy now d)
      (rev (changed_devices policy now (DeviceRegistry.records registry)))).
    { rewrite <- List.in_rev. apply in_map, List.filter_In. split; [|done].
      apply in_map_iff. exists (id, d). split; [done|]. by apply bget_In. }
    apply (List.find_none _ _ E) in Hin. rewrite assessed_id, (Hk _ _ Eb), String.eqb_refl in Hin.
    done.
Qed.

Lemma evaluated_write policy now w write db' :
  synced w -> ordered_registry (w_registry w) ->
  fw_devices write = changed_devices policy now (DeviceRegistry.records (w_registry w)) ->
  fw_observations write = [] -> apply (w_db w) write = Ok db' ->
  evaluated policy now w
    (set_registry (set_db w db') (DeviceRegistry.upsert_all (w_registry w) (fw_devices write))).
Proof.
  intros Hs Ho Hw Hobs Ha. split; [by apply synced_write|]. apply apply_applied in Ha. split.
  - intros id. simpl. rewrite bget_upsert_all, Hw, last_changed by done.
    destruct (bget id (w_registry w)) as [d|]; [|done]. simpl. unfold refreshed.
    by destruct (changes policy now d).
  - intros key d Hb Hc. simpl. rewrite (wa_observations _ _ _ Ha), Hobs. simpl.
    replace (writes_device (fw_devices write) key.1.1.1) with true; [done|].
    symmetry. unfold writes_device. rewrite Hw. apply existsb_exists. exists (assessed policy now d).
    rewrite assessed_id, (proj2 Ho _ _ Hb), String.eqb_refl. split; [|done].
    apply in_map, List.filter_In. split; [|done]. apply in_map_iff. exists (key.1.1.1, d).
    split; [done|]. by apply bget_In.
Qed.

(** C12: an evaluation of freshness alone either fails before anything changed, or
    leaves every registered device, in the registry and in the repository, as the
    thresholds define it - also when only the delivery of the events fails - and
    counts the changed ones; the stored observations of a changed device are gone.
    One device to change that a Matter projection references makes every
    evaluation fail and leaves all devices as they were. *)
Theorem freshness_evaluation policy now w :
  synced w -> ordered_registry (w_registry w) ->
  let records := DeviceRegistry.records (w_registry w) in
  alone (evaluate_freshness policy now) w (fun r w' =>
    (match r with
     | Ok n => n = length (List.filter (changes policy now) records) /\ evaluated policy now w w'
     | Err (Ap_EventDelivery _) => evaluated policy now w w'
     | Err (Ap_Repository operation _) => operation = "freshness"%string /\ w' = w
     | Err _ => False
     end) /\
    forall d, In d records -> changes policy now d = true ->
      endpoint_referenced (fd_db (w_db w)) (device_id d) = true ->
      w' = w /\ exists source, r = Err (Ap_Repository "freshness" source)).
Proof.
  intros Hs Ho records. unfold evaluate_freshness. apply alone_io. intros draws _. cbn [after].
  apply alone_io. intros known Hknown. cbn [app_resp legal after] in *. subst known.
  destruct (freshness_fold draws (mk_metadata (draws 0) None (Some "system:freshness"%string) None)
    policy now (DeviceRegistry.records (w_registry w)) [] [] 1) as (news & n & ->).
  apply alone_return. simpl app. fold (changed_devices policy now (DeviceRegistry.records (w_registry w))).
  destruct (changed_devices policy now (DeviceRegistry.records (w_registry w))) as [|d0 l] eqn:Ec.
  - apply map_eq_nil in Ec. split.
    + unfold records. rewrite Ec. split; [done|]. split; [done|].
      assert (Hno : forall id d, bget id (w_registry w) = Some d -> changes policy now d = false).
      { intros id d Hb. apply not_true_iff_false. intros Hc.
        assert (Hin : In d (List.filter (changes policy now) (DeviceRegistry.records (w_registry w)))).
        { apply List.filter_In. split; [|done]. apply in_map_iff. exists (id, d). split; [done|].
          by apply bget_In. }
        by rewrite Ec in Hin. }
      split.
      * intros id. destruct (bget id (w_registry w)) as [d|] eqn:Hb; [|done]. simpl.
        unfold refreshed. by rewrite (Hno _ _ Hb).
      * intros key d Hb Hc. by rewrite (Hno _ _ Hb) in Hc.
    + intros d Hd Hc. assert (Hin : In d (List.filter (changes policy now) records))
        by by apply List.filter_In. unfold records in Hin. by rewrite Ec in Hin.
  - set (write := device_write (d0 :: l) [] news []).
    apply alone_call. intros r Hr. cbn [app_resp] in r. destruct r as [[]|e].
    2:{ split; [done|]. intros d _ _ _. eauto. }
    cbn [legal after] in *. destruct (apply (w_db w) write) as [db'|] eqn:Ha; [|done].
    pose proof (evaluated_write policy now w write db' Hs Ho (eq_sym Ec) eq_refl Ha) as Hev.
    apply alone_io. intros ? _. cbn [after].
    assert (Hun : forall d, In d records -> changes policy now d = true ->
      endpoint_referenced (fd_db (w_db w)) (device_id d) = true -> False).
    { intros d Hd Hc Href. apply apply_applied in Ha.
      assert (Hin : In (assessed policy now d) (fw_devices write)).
      { change (fw_devices write) with (d0 :: l). rewrite <- Ec. by apply in_map, List.filter_In. }
      apply (wa_unreferenced _ _ _ Ha) in Hin. rewrite assessed_id in Hin. congruence. }
    apply alone_publish; [intros e|]; split; try (intros d Hd Hc Href; by destruct (Hun d Hd Hc Href)).
    + exact Hev.
    + split; [|exact Hev]. apply (f_equal length) in Ec. unfold changed_devices in Ec.
      rewrite List.length_map in Ec. by symmetry.
Qed.
End Freshness.

(** ** The small house *)

#[local] Existing Instance integer_json.

(** The house with a Matter projection on its plug. *)
Definition projected_house : World :=
  mk_world projected_db [(plug_id, plug)] [] [] (fun _ => scan_result).

Definition later : Instant := (now0 + delta_seconds 200)%Z.

Lemma house_ordered : ordered_registry [(plug_id, plug)].
Proof.
  split; [repeat constructor|]. intros id d. simpl.
  destruct (String.eqb_spec id plug_id) as [->|]; [|done]. by intros [= <-].
Qed.

Lemma freshness_evaluation_witness :
  synced projected_house /\ ordered_registry (w_registry projected_house) /\
  always legal after (evaluate_freshness FreshnessPolicy.default later) projected_house
    (fun r w => w = projected_house /\ is_ok r = false).
Proof.
  split; [exact house_synced|]. split; [exact house_ordered|].
  eapply always_mono;
    [exact (freshness_evaluation FreshnessPolicy.default later projected_house house_synced house_ordered)|].
  intros r w [_ Hblocked]. destruct (Hblocked plug) as (-> & source & ->); [by left| | |done];
    vm_compute; reflexivity.
Defined.

Definition to_kitchen : DeviceMetadataUpdate :=
  mk_metadata_update (Some "Kitchen"%string) None None None.

Lemma numbered_draws_fresh prefix db :
  fd_repairs db = ∅ -> fd_events db = [] -> fresh_draws db (numbered_draws prefix).
Proof.
  intros Hr He. split; [|split].
  - intros i j E. unfold numbered_draws in E. apply (inj (String.app prefix)) in E.
    apply show_N_inj in E. lia.
  - intros i. rewrite Hr. apply lookup_empty.
  - intros i row Hin. by rewrite He in Hin.
Qed.

(** Two calls that start together, the assessment reading first. *)
Definition start_tasks : list (Prog app_resp bool) :=
  [task (update_device_metadata plug_id to_kitchen);
   task (evaluate_freshness FreshnessPolicy.default later)].

Definition name_of (r : option DeviceRecord) : option string := (fun d => ds_name (dr_snapshot d)) <$> r.

Ltac take_step i answer_ :=
  eapply (world_steps _ _ i); [reflexivity|instantiate (1 := answer_); cbn [legal]|].

(** a rename that was answered with success, stored and published can be lost:
    an assessment of freshness that read the device before the rename writes its
    whole record afterwards, and neither the repository nor the registry holds the
    new name any more. *)
Theorem metadata_update_lost :
  exists w', rtc app_step (house, start_tasks) (w', [Ret true; Ret true]) /\
    existsb (fun e => bool_decide (ev_device_id e = Some plug_id)
      && match ev_kind e with Ev_MetadataChanged ["name"%string] => true | _ => false end)
      (w_published w') = true /\
    name_of (device_payload (w_db w') plug_id) = Some "Plug"%string /\
    name_of (bget plug_id (w_registry w')) = Some "Plug"%string.
Proof.
  eexists. split.
  - unfold house, start_tasks.
    take_step 1 (numbered_draws "b").
    { apply numbered_draws_fresh; vm_compute; reflexivity. }
    take_step 1 [plug]; [reflexivity|].
    take_step 0 (Some plug); [reflexivity|].
    take_step 0 (numbered_draws "a").
    { apply numbered_draws_fresh; vm_compute; reflexivity. }
    take_step 0 later; [exact I|].
    take_step 0 (Ok (E := BoxError) tt); [vm_compute; reflexivity|].
    take_step 0 tt; [exact I|].
    take_step 0 (Ok (E := BoxError) tt); [exact I|].
    take_step 1 (Ok (E := BoxError) tt); [vm_compute; reflexivity|].
    take_step 1 tt; [exact I|].
    take_step 1 (Ok (E := BoxError) tt); [exact I|].
    apply rtc_refl.
  - vm_compute. split_and!; reflexivity.
Qed.
