(* ===== verification/MatterHome.v ===== *)
(** The Matter services over the deterministic controller: one program runs alone,
    the database answers every operation, and the controller is the simulator of
    MatterSimulator.v.  Such an execution is one of the running system of
    MatterSystem.v, so what holds there of every interleaving holds of it. *)

From S2P Require Import MatterSimulator.
From S2P Require Import Prelude Text Json Capability Lifecycle Device Command MatterState CommandStore MatterOperation MatterStore Identity Effects CommandService MatterDescriptor MatterController MatterRepository MatterHistory MatterAdministration MatterFabricWorkflow MatterNodeWorkflow MatterSubscription MatterExecution MatterTokens MatterSystem FoundationStore CommandFixture AutomationFixture ApplicationFixture.

Definition home_id (n : N) : string := "home-" +:+ show_N n.

Section Home.
Context `{SerdeJson} `{MatterRequestDigest} `{Uuids} `{Chrono} `{Sha256} `{SimulatorCodec}.
Context (policy : MatterSubscriptionRecoveryPolicy).

(** The world, the controller, and the number of the next identity. *)
Record Home := mk_home {
  hm_world : MatterWorld;
  hm_simulator : Simulator;
  hm_next : N
}.

Definition home_db (h : Home) : MatterDb := xw_db (hm_world h).

Definition in_world (h : Home) (w : MatterWorld) : Home := mk_home w (hm_simulator h) (hm_next h + 1).

Definition answers {A : Type} (h : Home) (v : result A StorageError) : result A BoxError * Home :=
  (map_err Be_Storage v, h).

Definition commits {A : Type} (h : Home) (m : result (MatterDb * A) StorageError)
  (note : A -> MatterWorld -> MatterWorld) : result A BoxError * Home :=
  match m with
  | Ok (db, a) => (Ok a, in_world h (note a (in_db (hm_world h) db)))
  | Err e => (Err (Be_Storage e), h)
  end.

(** A call of the controller; an effect is noted. *)
Definition controls {A : Type} (h : Home) (op : MatterOp)
  (m : Simulator -> result A MatterControllerError * Simulator) :
  result A MatterControllerError * Home :=
  let '(r, s) := m (hm_simulator h) in
  (r, mk_home match effect_id op with Some _ => performed (hm_world h) op | None => hm_world h end
        s (hm_next h)).

(** The answer of every operation; random bytes are zero, and the secret store takes
    every secret. *)
Definition home_exec (op : MatterOp) (h : Home) : matter_resp op * Home :=
  let db := home_db h in
  let id := home_id (hm_next h) in
  match op with
  | Wo_now => (sm_now (hm_simulator h), h)
  | Wo_new_id => (id, in_world h (draw (hm_world h) id))
  | Wo_random count => (repeat 0%N count, h)
  | Wo_actor_security actor_id =>
      let s := load_actor_security (base db) actor_id in
      (Ok s, in_world h (match s with Some s => grant (hm_world h) s | None => hm_world h end))
  | Wo_fabric_stage fabric_id => answers h (Ok (matter_fabric_stage db fabric_id))
  | Wo_store_fabric_stage stage expected =>
      commits h (as_unit (store_fabric_stage db stage expected)) quiet
  | Wo_delete_attached_stage fabric_id => commits h (as_unit (delete_attached_stage db fabric_id)) quiet
  | Wo_fabric fabric_id => answers h (Ok (matter_fabric db fabric_id))
  | Wo_store_fabric fabric expected => commits h (as_unit (store_fabric db fabric expected)) quiet
  | Wo_create_administration_operation o b p =>
      commits h (create_administration_operation db id o b p)
        (fun outcome w => match outcome with Oc_Created _ => bound_to b (stored o w) | _ => w end)
  | Wo_administration_operation operation_id => answers h (load_administration_operation db operation_id)
  | Wo_actor_operations actor_id limit => answers h (actor_operations db actor_id limit)
  | Wo_operation_node_result operation_id => answers h (Ok (matter_operation_node_result db operation_id))
  | Wo_transition_operation o expected p repair =>
      commits h (as_unit (transition_operation db id o expected p repair)) (noted o)
  | Wo_node_inventory installation_id fabric_id limit =>
      answers h (matter_node_inventory db installation_id fabric_id limit)
  | Wo_node_inventory_item installation_id fabric_id node_id =>
      answers h (matter_node_inventory_item db installation_id fabric_id node_id)
  | Wo_commit_commissioning commit expected =>
      commits h (as_unit (commit_commissioning db id commit expected)) (noted (cc_operation commit))
  | Wo_commit_cancellation commit =>
      commits h (as_unit (commit_matter_cancellation db id (id +:+ "-cancellation") commit))
        (fun _ w => stored (xc_cancellation commit) (stored (xc_commissioning commit) w))
  | Wo_commit_node_removal commit expected =>
      commits h (as_unit (commit_matter_node_removal db id commit expected)) (noted (rmc_operation commit))
  | Wo_commit_subscription_repair commit =>
      commits h (as_unit (commit_matter_subscription_repair db id commit)) (noted (rpc_operation commit))
  | Wo_store_subscription subscription expected =>
      commits h (as_unit (store_subscription db subscription expected)) quiet
  | Wo_recover_matter installation_id now limit => answers h (recover db installation_id now limit)
  | Wo_put_secret _ _ => (Ok tt, h)
  | Wo_implementation => (MatterSimulator.implementation, h)
  | Wo_fabric_status fabric_id =>
      controls h (Wo_fabric_status fabric_id) (MatterSimulator.fabric_status fabric_id)
  | Wo_create_fabric request => controls h (Wo_create_fabric request) (MatterSimulator.create_fabric request)
  | Wo_commission request => controls h (Wo_commission request) (MatterSimulator.commission request)
  | Wo_cancel_commissioning operation_id =>
      controls h (Wo_cancel_commissioning operation_id) (MatterSimulator.cancel_commissioning operation_id)
  | Wo_nodes fabric_id => controls h (Wo_nodes fabric_id) (MatterSimulator.nodes fabric_id)
  | Wo_node fabric_id node_id =>
      controls h (Wo_node fabric_id node_id) (MatterSimulator.node fabric_id node_id)
  | Wo_subscribe request => controls h (Wo_subscribe request) (MatterSimulator.subscribe request)
  | Wo_read request => controls h (Wo_read request) (MatterSimulator.read request)
  | Wo_remove_node request => controls h (Wo_remove_node request) (MatterSimulator.remove_node request)
  | Wo_export_fabric request => controls h (Wo_export_fabric request) (MatterSimulator.export_fabric request)
  | Wo_restore_fabric request =>
      controls h (Wo_restore_fabric request) (MatterSimulator.restore_fabric request)
  | Wo_events_after cursor limit =>
      controls h (Wo_events_after cursor limit) (MatterSimulator.events_after cursor limit)
  end.

(** The identities that are still to come are new. *)
Definition home_ok (h : Home) : Prop :=
  forall n, (hm_next h <= n)%N -> home_id n ∉ xw_issued (hm_world h).

Lemma home_id_inj m n : home_id m = home_id n -> m = n.
Proof. unfold home_id. intros Heq. by apply (inj (String.append "home-")), show_N_inj in Heq. Qed.

Lemma answers_step {A} h (v : result A StorageError) :
  reads (hm_world h) v (answers h v).1 (hm_world (answers h v).2).
Proof. split; [done | by left]. Qed.

Lemma commits_step {A} h (m : result (MatterDb * A) StorageError) note :
  writes (hm_world h) m note (commits h m note).1 (hm_world (commits h m note).2).
Proof. right. unfold commits. destruct m as [[db a]|e]; cbn; [split; [done | by left] | done]. Qed.

Lemma controls_step {A} h op (m : Simulator -> result A MatterControllerError * Simulator) :
  asks (hm_world h) op (hm_world (controls h op m).2).
Proof. unfold controls, asks. by destruct (m (hm_simulator h)). Qed.

(** Every answer is one the running system may give. *)
Lemma home_step op h :
  home_ok h -> op_step (hm_world h) op (home_exec op h).1 (hm_world (home_exec op h).2).
Proof.
  intros Hok. destruct op; cbn [home_exec op_step];
    try (by apply answers_step); try (by apply controls_step); try (by apply commits_step);
    try (by eexists; apply commits_step); try done.
  - split; [by apply Hok | done].
  - by right.
  - by do 2 eexists; apply commits_step.
Qed.

(** The world of an answer has no identity drawn but the one of the counter. *)
Lemma home_issued op h :
  xw_issued (hm_world (home_exec op h).2) ⊆ {[home_id (hm_next h)]} ∪ xw_issued (hm_world h) /\
  (hm_next h <= hm_next (home_exec op h).2)%N /\
  (home_id (hm_next h) ∈ xw_issued (hm_world (home_exec op h).2) ->
   home_id (hm_next h) ∈ xw_issued (hm_world h) \/ (hm_next h < hm_next (home_exec op h).2)%N).
Proof.
  destruct op; cbn [home_exec]; unfold commits, controls, answers;
    repeat match goal with
    | |- context [match ?x with Ok _ => _ | Err _ => _ end] => destruct x as [[]|]
    | |- context [let '(_, _) := ?x in _] => destruct x
    | |- context [match ?x with Some _ => _ | None => _ end] => destruct x
    | |- context [match ?x with Oc_Created _ => _ | _ => _ end] => destruct x
    end; cbn; (split; [set_solver | split; [lia | first [set_solver | right; lia | by left]]]).
Qed.

Lemma home_exec_ok op h : home_ok h -> home_ok (home_exec op h).2.
Proof.
  intros Hok n Hn Hin. destruct (home_issued op h) as (Hsub & Hle & Hnew).
  apply Hsub in Hin as Hin'. apply elem_of_union in Hin' as [Heq%elem_of_singleton|Hin'].
  - apply home_id_inj in Heq as ->. destruct (Hnew Hin) as [Hold|Hlt]; [|lia].
    by apply (Hok (hm_next h)).
  - apply (Hok n); [lia | done].
Qed.

Definition home_run {A : Type} (m : MatterProg A) (h : Home) : A * Home := Effects.run home_exec m h.

Lemma home_run_ok {A} (m : MatterProg A) h : home_ok h -> home_ok (home_run m h).2.
Proof.
  unfold home_run. revert h. induction m as [a|op k IH]; intros h Hok; [done|]. cbn.
  pose proof (home_exec_ok op h Hok). destruct (home_exec op h) as [r h'] eqn:E. by apply IH.
Qed.

(** A program that runs alone takes steps of the system. *)
Lemma home_run_steps (m : MatterProg unit) h :
  home_ok h -> reachable policy (mk_matter_system (hm_world h) [m]) ->
  reachable policy (mk_matter_system (hm_world (home_run m h).2) [Ret tt]).
Proof.
  unfold home_run. revert h. induction m as [[]|op k IH]; intros h Hok Hr; [done|]. cbn.
  pose proof (home_exec_ok op h Hok) as Hok'. pose proof (home_step op h Hok) as Hstep.
  destruct (home_exec op h) as [r h']. apply IH; [done|].
  eapply Reach_step; [exact Hr|]. by apply (Xs_op policy (hm_world h) [Io op k] 0 op k r (hm_world h')).
Qed.

(** Calls made one after the other reach a state of the system. *)
Lemma home_call h call :
  home_ok h -> reachable policy (mk_matter_system (hm_world h) []) ->
  reachable policy (mk_matter_system (hm_world (home_run (matter_call policy call) h).2) []).
Proof.
  intros Hok Hr. eapply Reach_step; [|apply Xs_crash]. apply home_run_steps; [done|].
  eapply Reach_step; [exact Hr|]. apply (Xs_call policy (hm_world h) [] call).
Qed.

Fixpoint home_calls (calls : list MatterCall) (h : Home) : Home :=
  match calls with
  | [] => h
  | call :: calls => home_calls calls (home_run (matter_call policy call) h).2
  end.

Lemma home_calls_reachable calls h :
  home_ok h -> reachable policy (mk_matter_system (hm_world h) []) ->
  home_ok (home_calls calls h) /\
  reachable policy (mk_matter_system (hm_world (home_calls calls h)) []).
Proof.
  revert h. induction calls as [|call calls IH]; intros h Hok Hr; cbn; [done|].
  apply IH; [by apply home_run_ok | by apply home_call].
Qed.
End Home.

(** ** A small house *)

(** Alice owns a house with no device yet, and may administer Matter. *)
#[local] Existing Instance integer_json.
#[local] Existing Instance ranged_chrono.

(** One digest for every kind of request. *)
Definition house_byte (kind : MatterOperationKind) : N :=
  match kind with
  | Mk_CreateFabric => 1 | Mk_CommissionNode => 2 | Mk_RemoveNode => 3 | Mk_ExportFabric => 4 | _ => 5
  end.

Definition house_bytes (kind : MatterOperationKind) : list N := repeat (house_byte kind) 32.

Lemma house_bytes_ok kind :
  length (house_bytes kind) = 32 /\ Forall (fun b => (b < 256)%N) (house_bytes kind).
Proof.
  split; [done|]. apply List.Forall_forall. intros b Hin. apply repeat_spec in Hin as ->. by destruct kind.
Qed.

Definition house_digest : MatterRequestDigest.
Proof.
  refine {| matter_request_digest := fun '(_, kind, _) => Some (house_bytes kind) |}.
  - intros [[? kind] ?] d Hd. injection Hd as <-. apply house_bytes_ok.
  - intros [[? kind] ?] d Hd. injection Hd as <-. apply house_bytes_ok.
Defined.
#[local] Existing Instance house_digest.

(** The encoders of a build that can encode one fabric and no state. *)
Definition one_fabric_codec (fabric : SimulatorFabric) : SimulatorCodec.
Proof.
  refine {| encode_fabric := fun f => if decide (f = fabric) then Some [1%N] else None;
            decode_fabric := fun _ => Some fabric;
            encode_state := fun _ => None; decode_state := fun _ => None |}.
  - intros f l. case_decide; [by subst | done].
  - done.
Defined.

Definition matter_actions : gset CommandAction :=
  list_to_set [Act_MatterRead; Act_MatterCreateFabric; Act_MatterCommissionNode;
               Act_MatterCancelOperation; Act_MatterRemoveNode; Act_MatterExportFabric;
               Act_MatterRestoreFabric; Act_MatterRepairSubscription].

Definition matter_grant : ActorGrant :=
  mk_grant "g1" "alice" matter_actions (Scope_Installation "home") Risk_Security true.

Definition matter_base : Db :=
  mk_db {["home"%string]} {["alice"%string := mk_actor_row "home" true 0 alice]} ∅
    {["g1"%string := matter_grant]} ∅ ∅ ∅ [] 1 ∅ ∅ ∅ ∅ ∅.

Definition matter_db : MatterDb :=
  mk_matter_db
    (mk_foundation_db matter_base {["home"%string := mk_installation "home" "Home" 0]}
       ∅ ∅ ∅ ∅ ∅ ∅ ∅ [] 0 ∅) ∅ ∅ ∅ ∅ ∅ [] ∅ ∅ ∅.

Definition house : Home :=
  mk_home (mk_matter_world matter_db ∅ [] [] [] []) (MatterSimulator.new now0) 0.

Definition house_policy : MatterSubscriptionRecoveryPolicy := MatterSubscriptionRecoveryPolicy.default.
