(* ===== verification/MatterSimulatorProps.v ===== *)
(** The deterministic controller keeps its promises: its log of events only grows,
    a reader that follows the cursors reads the log without a gap, and what it
    exports it restores. *)

From S2P Require Import Prelude Text BTree Json Capability Device Command MatterState CommandStore MatterOperation MatterStore Identity Effects CommandService MatterDescriptor MatterProjection MatterController MatterRepository MatterNodeWorkflow MatterExecution MatterTokens MatterSystem CommandFixture AutomationFixture ApplicationFixture MatterHome MatterSimulator MatterCommandAdapter.

(** ** Searching a list *)

Lemma find_app_none {A} (p : A -> bool) l a :
  List.find p l = None -> List.find p (l ++ [a]) = List.find p [a].
Proof. induction l as [|b l IH]; cbn; [done|]. destruct (p b); [done | exact IH]. Qed.

Lemma find_app_last {A} (p : A -> bool) l a :
  p a = false -> List.find p (l ++ [a]) = List.find p l.
Proof. intros Ha. induction l as [|b l IH]; cbn; [by rewrite Ha|]. by rewrite IH. Qed.

(** ** The log *)

Definition log_of (s : Simulator) : list MatterControllerEvent := sms_events (sm_state s).

(** A call leaves the events it found where they are. *)
Definition grows {A : Type} (m : Sim A) : Prop := forall s, log_of s `prefix_of` log_of (m s).2.

Definition grows_state (f : SimulatorState -> SimulatorState) : Prop :=
  forall s, sms_events s `prefix_of` sms_events (f s).

Lemma grows_read {A} (f : Simulator -> A) : grows (fun s => (f s, s)).
Proof. by intros s. Qed.

Lemma grows_try {A B} (m : SimResult A) (f : A -> SimResult B) :
  grows m -> (forall a, grows (f a)) -> grows (sim_try m f).
Proof.
  intros Hm Hf s. unfold sim_try. specialize (Hm s). destruct (m s) as [[a|e] s1]; [|done].
  etransitivity; [exact Hm | apply Hf].
Qed.

Lemma grows_locked {A} (f : Instant -> SimulatorState -> A * SimulatorState) :
  (forall now s, sms_events s `prefix_of` sms_events (f now s).2) -> grows (locked f).
Proof.
  intros Hf s. unfold locked, log_of. specialize (Hf (sm_now s) (sm_state s)). by destruct (f _ _).
Qed.

Lemma take_simple_events s p b s' : take_simple_fault s p = (b, s') -> sms_events s' = sms_events s.
Proof. unfold take_simple_fault. destruct (take_fault _ _) as [[]|]; by intros [= <- <-]. Qed.

Lemma take_report_events s r s' : take_report_fault s = (r, s') -> sms_events s' = sms_events s.
Proof. unfold take_report_fault. destruct (take_fault _ _) as [[]|]; by intros [= <- <-]. Qed.

Lemma take_loss_events s r s' : take_subscription_loss s = (r, s') -> sms_events s' = sms_events s.
Proof. unfold take_subscription_loss. destruct (take_fault _ _) as [[]|]; by intros [= <- <-]. Qed.

Section Log.
Context `{Uuids} `{Chrono}.

Lemma emit_events s fabric_id t kind : sms_events s `prefix_of` sms_events (emit_event s fabric_id t kind).
Proof. cbn. by apply prefix_app_r. Qed.

Lemma fold_grows {A} (f : SimulatorState -> A -> SimulatorState) l s :
  (forall s a, sms_events s `prefix_of` sms_events (f s a)) ->
  sms_events s `prefix_of` sms_events (fold_left f l s).
Proof.
  intros Hf. revert s. induction l as [|a l IH]; intros s; cbn; [done|].
  etransitivity; [apply Hf | apply IH].
Qed.

Lemma flush_events s now : sms_events s `prefix_of` sms_events (flush_due_reports s now).
Proof. unfold flush_due_reports. cbv zeta. etransitivity; [|apply fold_grows]; [done|]. intros; apply emit_events. Qed.

Lemma lose_events s now reason : sms_events s `prefix_of` sms_events (lose_subscriptions s now reason).
Proof.
  unfold lose_subscriptions. cbv zeta. cbn [trace sms_events].
  etransitivity; [|apply fold_grows]; [done|]. intros; apply emit_events.
Qed.

Lemma schedule_events s fabric_id report fault now :
  sms_events (schedule_report s fabric_id report fault now) = sms_events s.
Proof. unfold schedule_report. by destruct fault as [[]|]. Qed.

Lemma mutate_events s request now n : sms_events (mutate_for_invoke s request now n).2 = sms_events s.
Proof.
  unfold mutate_for_invoke. repeat case_match; done.
Qed.
End Log.

Create HintDb simulator discriminated.

Section Calls.
Context `{Uuids} `{Chrono} `{SimulatorCodec}.

(** A step on the state, taken apart. *)
Ltac grow :=
  repeat lazymatch goal with
  | |- grows (sim_try _ _) => apply grows_try; [|intros ?]
  | |- grows (locked _) => apply grows_locked; intros ? ?
  | |- grows (fun s => (_, s)) => apply grows_read
  | |- grows (match ?x with _ => _ end) => destruct x
  | |- grows _ => solve [auto with simulator]
  end; cbn [snd]; try done.

Lemma fail_if_scripted_grows operation : grows (fail_if_scripted operation).
Proof. unfold fail_if_scripted. grow. by repeat case_match. Qed.

Lemma operation_phase_grows fabric_id operation_id phase :
  grows (operation_phase fabric_id operation_id phase).
Proof.
  apply grows_locked. intros now s. cbv zeta.
  destruct (take_simple_fault _ _) as [b s2] eqn:E. apply take_simple_events in E.
  destruct b; [destruct (encode_state _)|]; cbn [snd with_restart trace sms_events]; rewrite E;
    by apply prefix_app_r.
Qed.
#[local] Hint Resolve fail_if_scripted_grows operation_phase_grows : simulator.

Lemma operation_phases_grows fabric_id operation_id phases :
  grows (operation_phases fabric_id operation_id phases).
Proof. induction phases as [|phase phases IH]; cbn; grow. Qed.
#[local] Hint Resolve operation_phases_grows : simulator.

Lemma fabric_status_grows fabric_id : grows (fabric_status fabric_id).
Proof. unfold fabric_status. grow. Qed.

Lemma create_fabric_grows request : grows (create_fabric request).
Proof. unfold create_fabric. grow. by repeat case_match. Qed.

Lemma commission_grows request : grows (commission request).
Proof. unfold commission, join_fabric. grow. by repeat case_match. Qed.

Lemma cancel_grows operation_id : grows (cancel_commissioning operation_id).
Proof.
  unfold cancel_commissioning. grow.
  destruct (take_simple_fault _ _) as [b s'] eqn:E. apply take_simple_events in E.
  by destruct b; cbn; rewrite E.
Qed.

Lemma nodes_grows fabric_id : grows (nodes fabric_id).
Proof. unfold nodes. grow. Qed.

Lemma node_grows fabric_id node_id : grows (node fabric_id node_id).
Proof. unfold node. grow. Qed.

Lemma subscribe_grows request : grows (subscribe request).
Proof. unfold subscribe. grow. by repeat case_match. Qed.

Lemma read_grows request : grows (read request).
Proof. unfold read. grow. by repeat case_match. Qed.

Lemma invoke_grows request : grows (invoke request).
Proof.
  unfold invoke. grow. destruct (u64_checked_add _ _) as [n|]; [|done].
  match goal with |- context [mutate_for_invoke ?s ?q ?t ?n] =>
    pose proof (mutate_events s q t n) as Hm; destruct (mutate_for_invoke s q t n) as [[report|e] s1] end;
    cbn in Hm; [|by rewrite <- Hm].
  destruct (take_report_fault s1) as [fault s2] eqn:E1. apply take_report_events in E1.
  destruct (take_subscription_loss s2) as [loss s3] eqn:E2. apply take_loss_events in E2.
  rewrite <- Hm, <- E1, <- E2. cbn [snd]. destruct loss.
  - etransitivity; [|apply lose_events]. done.
  - etransitivity; [|apply flush_events]. by rewrite schedule_events.
Qed.

Lemma remove_node_grows request : grows (remove_node request).
Proof.
  unfold remove_node, leave_fabric. grow.
  destruct (take_simple_fault _ _) as [b s'] eqn:E. apply take_simple_events in E.
  destruct b; cbn; rewrite <- E; [done|]. by repeat case_match.
Qed.

Lemma export_grows request : grows (export_fabric request).
Proof. unfold export_fabric. grow. by repeat case_match. Qed.

Lemma restore_grows request : grows (restore_fabric request).
Proof. unfold restore_fabric. grow. by repeat case_match. Qed.

Lemma events_after_grows cursor limit : grows (events_after cursor limit).
Proof. unfold events_after. grow. Qed.
End Calls.

#[export] Hint Resolve fabric_status_grows create_fabric_grows commission_grows cancel_grows nodes_grows
  node_grows subscribe_grows read_grows invoke_grows remove_node_grows export_grows restore_grows
  events_after_grows : simulator.

(** ** Pages of the log *)

(** The events with their cursors, after [start] earlier ones. *)
Definition numbered (start : N) (log : list MatterControllerEvent) : list MatterCursorEvent :=
  imap (fun index event => mk_matter_cursor_event (start + N.of_nat index + 1) event) log.

Lemma numbered_cons start event log :
  numbered start (event :: log) = mk_matter_cursor_event (start + 1) event :: numbered (start + 1) log.
Proof.
  unfold numbered. rewrite imap_cons. f_equal; [f_equal; lia|].
  apply imap_ext. intros i x _. cbn. f_equal. lia.
Qed.

Lemma after_numbered cursor start log :
  List.filter (fun event => (cursor <? mcv_cursor event)%N) (numbered start log) =
  drop (N.to_nat (cursor - start)) (numbered start log).
Proof.
  revert start. induction log as [|event log IH]; intros start; [cbn; by destruct (N.to_nat _)|].
  rewrite numbered_cons. cbn [List.filter mcv_cursor]. rewrite IH. destruct (N.ltb_spec cursor (start + 1)).
  - replace (cursor - start)%N with 0%N by lia. replace (cursor - (start + 1))%N with 0%N by lia. done.
  - replace (N.to_nat (cursor - start)) with (S (N.to_nat (cursor - (start + 1)))) by lia. done.
Qed.

Lemma numbered_prefix start log log' :
  log `prefix_of` log' -> numbered start log `prefix_of` numbered start log'.
Proof. intros [tail ->]. unfold numbered. rewrite imap_app. by apply prefix_app_r. Qed.

Section Pages.
Context `{Uuids} `{Chrono} `{SimulatorCodec}.

Lemma page_events s cursor limit page :
  (events_after cursor limit s).1 = Ok page ->
  mev_events page = take (Nat.min limit MAX_EVENT_PAGE) (drop (N.to_nat cursor) (numbered 0 (log_of s))).
Proof.
  unfold events_after, sim_try, fail_if_scripted, locked.
  destruct (take_fault _ _) as [[error faults]|]; [done|]. cbn [fst sm_state sm_now].
  assert (forall l, imap (fun index event => mk_matter_cursor_event (N.of_nat index + 1) event) l =
            numbered 0 l) as Hn by (intros l; by apply imap_ext).
  unfold log_of. rewrite Hn, after_numbered, N.sub_0_r.
  unfold MatterEventPage.new. intros Hp.
  destruct (MatterControllerItems.new _) as [items|] eqn:Hi; [|done]. cbn in Hp. injection Hp as <-.
  unfold MatterControllerItems.new in Hi. destruct (_ <? _); [done|]. by injection Hi as <-.
Qed.

Lemma events_after_same cursor limit s : log_of (events_after cursor limit s).2 = log_of s.
Proof.
  unfold events_after, sim_try, fail_if_scripted, locked, log_of.
  by destruct (take_fault _ _) as [[]|].
Qed.

(** ** A reader that follows the cursors *)

(** What others do between two pages: calls of the controller, and the controls of
    a test. *)
Inductive SimulatorCall :=
| Sc_fabric_status (fabric_id : MatterFabricId) | Sc_create_fabric (request : MatterCreateFabricRequest)
| Sc_commission (request : MatterCommissioningRequest) | Sc_cancel (operation_id : MatterOperationId)
| Sc_nodes (fabric_id : MatterFabricId) | Sc_node (fabric_id : MatterFabricId) (node_id : MatterNodeId)
| Sc_subscribe (request : MatterSubscriptionRequest) | Sc_read (request : MatterReadRequest)
| Sc_invoke (request : MatterInvokeRequest) | Sc_remove_node (request : MatterRemoveNodeRequest)
| Sc_export (request : MatterExportRequest) | Sc_restore (request : MatterRestoreRequest)
| Sc_events_after (cursor : N) (limit : nat) | Sc_inject (debug : TimeDelta -> string) (fault : SimulatorFault)
| Sc_advance (by_ : TimeDelta) | Sc_flush.

Definition after_call (call : SimulatorCall) (s : Simulator) : Simulator :=
  match call with
  | Sc_fabric_status fabric_id => (fabric_status fabric_id s).2
  | Sc_create_fabric request => (create_fabric request s).2
  | Sc_commission request => (commission request s).2
  | Sc_cancel operation_id => (cancel_commissioning operation_id s).2
  | Sc_nodes fabric_id => (nodes fabric_id s).2
  | Sc_node fabric_id node_id => (node fabric_id node_id s).2
  | Sc_subscribe request => (subscribe request s).2
  | Sc_read request => (read request s).2
  | Sc_invoke request => (invoke request s).2
  | Sc_remove_node request => (remove_node request s).2
  | Sc_export request => (export_fabric request s).2
  | Sc_restore request => (restore_fabric request s).2
  | Sc_events_after cursor limit => (events_after cursor limit s).2
  | Sc_inject debug fault => (inject_fault debug fault s).2
  | Sc_advance by_ => match advance by_ s with Ok s => s | Err _ => s end
  | Sc_flush => (flush_reports s).2
  end.

Lemma after_call_grows call s : log_of s `prefix_of` log_of (after_call call s).
Proof.
  destruct call; cbn [after_call];
    try (lazymatch goal with |- _ `prefix_of` log_of (?m s).2 =>
           assert (grows m) as Hm by auto with simulator; apply Hm end).
  - assert (grows (inject_fault debug fault)) as Hm by (by apply grows_locked). apply Hm.
  - unfold advance, advance_clock. destruct (_ <? _)%Z; [done|].
    destruct (checked_add_signed _ _); [|done]. cbn. apply flush_events.
  - assert (grows flush_reports) as Hm by (apply grows_locked; intros; apply flush_events). apply Hm.
Qed.

Definition after_calls (calls : list SimulatorCall) (s : Simulator) : Simulator :=
  fold_left (fun s call => after_call call s) calls s.

Lemma after_calls_grow calls s : log_of s `prefix_of` log_of (after_calls calls s).
Proof.
  revert s. induction calls as [|call calls IH]; intros s; cbn; [done|].
  etransitivity; [apply after_call_grows | apply IH].
Qed.

(** One page per round, after the cursor of the last event read. *)
Fixpoint follow (limit : nat) (rounds : list (list SimulatorCall)) (read : list MatterCursorEvent) :
  SimResult (list MatterCursorEvent) :=
  match rounds with
  | [] => fun s => (Ok read, s)
  | calls :: rounds => fun s =>
      match events_after (default 0%N (mcv_cursor <$> last read)) limit (after_calls calls s) with
      | (Ok page, s) => follow limit rounds (read ++ mev_events page) s
      | (Err error, s) => (Err error, s)
      end
  end.

(** What was read is the beginning of the log. *)
Definition read_from (s : Simulator) (read : list MatterCursorEvent) : Prop :=
  read `prefix_of` numbered 0 (log_of s).

Lemma last_cursor s read :
  read_from s read -> default 0%N (mcv_cursor <$> last read) = N.of_nat (length read).
Proof.
  intros Hr. destruct (last read) as [event|] eqn:Hl; cbn; [|by apply last_None in Hl as ->].
  rewrite last_lookup in Hl. pose proof (lookup_lt_Some _ _ _ Hl) as Hlen.
  pose proof (prefix_lookup_Some _ _ _ _ Hl Hr) as Hn. unfold numbered in Hn.
  rewrite list_lookup_imap in Hn. destruct (log_of s !! _); [|done]. injection Hn as <-. cbn.
  destruct read; cbn in *; lia.
Qed.

Lemma read_page s read limit page :
  read_from s read ->
  (events_after (default 0%N (mcv_cursor <$> last read)) limit s).1 = Ok page ->
  read_from s (read ++ mev_events page) /\
  length (read ++ mev_events page) =
    Nat.min (length read + Nat.min limit MAX_EVENT_PAGE) (length (log_of s)).
Proof.
  intros Hr Hp. rewrite (last_cursor _ _ Hr) in Hp. apply page_events in Hp.
  rewrite Nat2N.id in Hp. destruct Hr as [tail Hr]. rewrite Hp, Hr, drop_app_length. split.
  - exists (drop (Nat.min limit MAX_EVENT_PAGE) tail). rewrite Hr, <- app_assoc. by rewrite take_drop.
  - assert (length (log_of s) = length read + length tail) as ->.
    { rewrite <- length_app, <- Hr. unfold numbered. by rewrite length_imap. }
    rewrite length_app, length_take. lia.
Qed.

(** A reader of the simulator's log that asks for every page after the last
    cursor it has seen reads the log from its first event on, in order, without a
    gap and without a repetition, whatever calls run between the pages; the last
    page is full or ends at the end of the log. *)
Theorem log_followed limit rounds s read s' :
  follow limit rounds [] s = (Ok read, s') ->
  read_from s' read /\
  (rounds <> [] -> exists before page, read = before ++ page /\
     (length page = Nat.min limit MAX_EVENT_PAGE \/ length read = length (log_of s'))).
Proof.
  assert (read_from s []) as Hr by apply prefix_nil. revert Hr. generalize (@nil MatterCursorEvent) as read0.
  revert s. induction rounds as [|calls rounds IH]; intros s read0 Hr Hf; cbn [follow] in Hf.
  { injection Hf as <- <-. done. }
  assert (read_from (after_calls calls s) read0) as Hr1.
  { unfold read_from in *. etransitivity; [exact Hr|]. apply numbered_prefix, after_calls_grow. }
  destruct (events_after _ limit _) as [[page|e] s1] eqn:Hp; [|done].
  pose proof (events_after_same (default 0%N (mcv_cursor <$> last read0)) limit (after_calls calls s)) as Hlog.
  rewrite Hp in Hlog. cbn in Hlog.
  destruct (read_page (after_calls calls s) read0 limit page Hr1) as [Hr2 Hlen]; [by rewrite Hp|].
  assert (read_from s1 (read0 ++ mev_events page)) as Hr3 by (unfold read_from; by rewrite Hlog).
  destruct (IH s1 _ Hr3 Hf) as [Hread Hlast]. split; [done|]. intros _.
  destruct rounds as [|]; [|by apply Hlast]. cbn in Hf. injection Hf as <- <-.
  exists read0, (mev_events page). split; [done|]. rewrite Hlog, length_app in *. lia.
Qed.
End Pages.

(** ** Exports *)

Section Exports.
Context `{Uuids} `{Chrono} `{SimulatorCodec}.

Definition unscripted (s : Simulator) : Prop := sms_faults (sm_state s) = [].

(** The fabrics of a simulator and what is known of them. *)
Definition same_fabrics (s s' : Simulator) : Prop :=
  sms_fabrics (sm_state s') = sms_fabrics (sm_state s) /\ sm_now s' = sm_now s /\ unscripted s'.

Lemma unscripted_call operation s : unscripted s -> fail_if_scripted operation s = (Ok tt, s).
Proof.
  unfold unscripted, fail_if_scripted, locked. intros ->. by destruct s.
Qed.

Lemma unscripted_phase fabric_id operation_id phase s :
  unscripted s -> exists s', operation_phase fabric_id operation_id phase s = (Ok tt, s') /\ same_fabrics s s'.
Proof.
  unfold unscripted, operation_phase, locked, take_simple_fault. cbn [emit_event trace with_events sms_faults].
  intros Hs. rewrite Hs. eexists. split; [reflexivity|]. repeat split. exact Hs.
Qed.

Lemma exported_fabric request s export s' :
  export_fabric request s = (Ok export, s') ->
  exists found encoded, fabric (sm_state s) (xr_fabric_id request) = Some found /\
    encode_fabric found = Some encoded /\
    export = mk_fabric_export Xf_SimulatorV1 (EXPORT_PREFIX ++ encoded) RECOVERY_KEY.
Proof.
  unfold export_fabric, sim_try.
  destruct (fail_if_scripted Smo_ExportFabric s) as [[[]|] s1] eqn:E1; [|done].
  destruct (operation_phase _ _ _ s1) as [[[]|] s2] eqn:E2; [|done].
  assert (sms_fabrics (sm_state s2) = sms_fabrics (sm_state s)) as Hf.
  { unfold fail_if_scripted, locked in E1. unfold operation_phase, locked, take_simple_fault in E2.
    repeat case_match; simplify_eq/=; done. }
  unfold locked, fabric. rewrite Hf. destruct (List.find _ _) as [found|]; [|done].
  destruct (encode_fabric found) as [encoded|] eqn:He; [|done].
  intros [= <- <-]. by exists found, encoded.
Qed.

(** C21: What the simulator exports it restores: a controller that does not know the
    fabric has it, after a restore from the export, with the same nodes, values and
    secret references, and every other fabric as before. *)
Theorem export_restored request s export s1 operation_id s2 :
  export_fabric request s = (Ok export, s1) -> unscripted s2 ->
  fabric (sm_state s2) (xr_fabric_id request) = None ->
  exists found s3,
    restore_fabric (mk_restore operation_id (xr_fabric_id request) (fx_format export)
                      (fx_envelope export) (fx_recovery_key export)) s2 =
      (Ok (mk_fabric_status (xr_fabric_id request) Fs_Active (length (sfb_nodes found)) (sm_now s2)), s3) /\
    fabric (sm_state s) (xr_fabric_id request) = Some found /\
    fabric (sm_state s3) (xr_fabric_id request) = Some found /\
    forall other, other <> xr_fabric_id request -> fabric (sm_state s3) other = fabric (sm_state s2) other.
Proof.
  intros He Hs2 Hnone. apply exported_fabric in He as (found & encoded & Hfound & Henc & ->).
  assert (sfb_id found = xr_fabric_id request) as Hid.
  { unfold fabric in Hfound. apply List.find_some in Hfound as [_ Heq]. by apply String.eqb_eq in Heq. }
  unfold restore_fabric. cbn [rs_expected_fabric_id rs_operation_id rs_format rs_recovery_key rs_envelope
    fx_format fx_envelope fx_recovery_key].
  assert (is_export (EXPORT_PREFIX ++ encoded) = true) as ->.
  { unfold is_export. apply bool_decide_eq_true_2. rewrite firstn_app, firstn_all, Nat.sub_diag, firstn_O.
    by rewrite app_nil_r. }
  rewrite skipn_app, skipn_all, Nat.sub_diag, drop_0. cbn [app].
  rewrite (decode_encode_fabric _ _ Henc).
  rewrite Hid, String.eqb_refl, !bool_decide_eq_true_2 by done. cbn [negb orb].
  unfold sim_try. rewrite (unscripted_call _ _ Hs2).
  destruct (unscripted_phase (xr_fabric_id request) operation_id Mph_Restoring s2 Hs2) as (s3 & -> & Hf3).
  destruct (unscripted_phase (xr_fabric_id request) operation_id Mph_LoadingFabric s3) as (s4 & -> & Hf4);
    [apply Hf3|].
  destruct Hf3 as (Hf3 & Hn3 & _), Hf4 as (Hf4 & Hn4 & _).
  unfold locked, fabric in *. rewrite Hf4, Hf3, Hnone.
  exists found. eexists. split; [by rewrite Hn4, Hn3|]. split; [done|].
  cbn [sm_state trace with_fabrics sms_fabrics]. split.
  - rewrite find_app_none by done. cbn. by rewrite Hid, String.eqb_refl.
  - intros other Hne. rewrite find_app_last; [done|]. by apply String.eqb_neq; rewrite Hid.
Qed.
End Exports.

(** ** Commands over the simulator *)

Section Commands.
Context `{SerdeJson} `{Uuids} `{Chrono} `{SimulatorCodec}.

(** The tables of projections and slots, and the controller. *)
Record AdapterWorld := mk_adapter_world { aw_db : Db; aw_simulator : Simulator }.

Definition adapter_exec (op : AdapterOp) (w : AdapterWorld) : adapter_resp op * AdapterWorld :=
  match op with
  | Ado_now => (sm_now (aw_simulator w), w)
  | Ado_projection_for_target device_id endpoint_id schema =>
      (Ok (matter_projection_for_target (aw_db w) device_id endpoint_id schema), w)
  | Ado_desired_slot projection_id =>
      (map_err Be_Storage (matter_desired_slot (aw_db w) projection_id), w)
  | Ado_store_projection projection expected =>
      match store_projection (aw_db w) projection expected with
      | Ok db => (Ok tt, mk_adapter_world db (aw_simulator w))
      | Err e => (Err (Be_Storage e), w)
      end
  | Ado_invoke request =>
      let '(r, s) := invoke request (aw_simulator w) in (r, mk_adapter_world (aw_db w) s)
  | Ado_read request =>
      let '(r, s) := read request (aw_simulator w) in (r, mk_adapter_world (aw_db w) s)
  end.

Inductive AdapterCall :=
| Acl_dispatch (command : CommandEnvelope)
| Acl_confirm (command : CommandAggregate).

(** The answers of the confirmations, with their commands. *)
Fixpoint confirmations (calls : list AdapterCall) (w : AdapterWorld) :
  list (CommandAggregate * result CommandConfirmationOutcome MatterCommandAdapterError) :=
  match calls with
  | [] => []
  | Acl_dispatch command :: calls => confirmations calls (Effects.run adapter_exec (dispatch command) w).2
  | Acl_confirm command :: calls =>
      let '(r, w) := Effects.run adapter_exec (confirm command) w in
      (command, r) :: confirmations calls w
  end.

(** No attribute of a device holds the value that is read as locked. *)
Definition values_ok (l : list SimulatorFabric) : Prop :=
  forall fabric node attribute, In fabric l -> In node (sfb_nodes fabric) ->
    In attribute (smn_attributes node) -> sat_value attribute <> Mav_Unsigned 3.

Definition not_locked (reported : option MatterReportedState) : Prop :=
  forall r, reported = Some r -> mr_value r <> Mv_Lock Ml_Locked.

Definition never_locked (w : AdapterWorld) : Prop :=
  values_ok (sms_fabrics (sm_state (aw_simulator w))) /\
  forall id row, db_projections (aw_db w) !! id = Some row ->
    not_locked (mp_reported (sp_state (pj_payload row))).

(** The same, computed. *)
Definition never_locked_check (w : AdapterWorld) : bool :=
  forallb (fun fabric => forallb (fun node => forallb (fun attribute =>
      negb (bool_decide (sat_value attribute = Mav_Unsigned 3))) (smn_attributes node)) (sfb_nodes fabric))
    (sms_fabrics (sm_state (aw_simulator w)))
  && forallb (fun kv => match mp_reported (sp_state (pj_payload kv.2)) with
                        | Some r => negb (bool_decide (mr_value r = Mv_Lock Ml_Locked))
                        | None => true
                        end) (map_to_list (db_projections (aw_db w))).

Lemma never_locked_checked w : never_locked_check w = true -> never_locked w.
Proof.
  unfold never_locked_check. rewrite andb_true_iff, !forallb_forall. intros [Hv Hp]. split.
  - intros fabric node attribute Hf Hn Ha Heq. specialize (Hv _ Hf). rewrite forallb_forall in Hv.
    specialize (Hv _ Hn). rewrite forallb_forall in Hv. specialize (Hv _ Ha).
    by rewrite (bool_decide_eq_true_2 _ Heq) in Hv.
  - intros id row Hrow r Hr Heq. specialize (Hp (id, row)). cbn in Hp. rewrite Hr in Hp.
    rewrite (bool_decide_eq_true_2 _ Heq) in Hp. apply elem_of_map_to_list, list_elem_of_In in Hrow.
    by specialize (Hp Hrow).
Qed.

Lemma update_first_in {A} (p : A -> bool) (f : A -> A) l x :
  In x (update_first p f l) -> In x l \/ exists y, In y l /\ x = f y.
Proof.
  induction l as [|a l IH]; cbn; [done|]. destruct (p a); intros [<-|Hx].
  - right. exists a. by split; [left|].
  - by left; right.
  - by left; left.
  - destruct (IH Hx) as [|(y & Hy & ->)]; [by left; right|]. right. exists y. by split; [right|].
Qed.

(** A command writes no value that is read as locked. *)
Lemma mutate_values s request now n :
  values_ok (sms_fabrics s) -> values_ok (sms_fabrics (mutate_for_invoke s request now n).2).
Proof.
  intros Hv. unfold mutate_for_invoke. destruct (fabric _ _) as [found|]; [|done].
  destruct (node_of _ _) as [node|]; [|done].
  match goal with |- context [match ?m with Some _ => _ | None => _ end] =>
    destruct m as [[[cluster_id attribute_id] value]|] eqn:Hm end; [|done].
  assert (value <> Mav_Unsigned 3) as Hne.
  { destruct (iv_command request) as [| | | |[]]; try done; by injection Hm as <- <- <-. }
  destruct (attribute_of _ _) as [attribute|]; [|done].
  destruct (u32_checked_add _ _); cbn [snd with_fabrics sms_fabrics];
    intros fabric node' attribute' Hf Hn Ha;
    apply update_first_in in Hf as [Hf|(fabric0 & Hf & ->)]; try (by eapply Hv);
    cbn [sfb_nodes] in Hn; apply update_first_in in Hn as [Hn|(node0 & Hn & ->)]; try (by eapply Hv);
    cbn [smn_attributes] in Ha; apply update_first_in in Ha as [Ha|(attribute0 & Ha & ->)];
    try (by eapply Hv); done.
Qed.

Lemma fold_fabrics {A} (f : SimulatorState -> A -> SimulatorState) l s :
  (forall s a, sms_fabrics (f s a) = sms_fabrics s) -> sms_fabrics (fold_left f l s) = sms_fabrics s.
Proof.
  intros Hf. revert s. induction l as [|a l IH]; intros s; cbn; [done|]. by rewrite IH, Hf.
Qed.

Lemma fail_if_scripted_fabrics operation s :
  sms_fabrics (sm_state (fail_if_scripted operation s).2) = sms_fabrics (sm_state s).
Proof. unfold fail_if_scripted, locked. by repeat case_match; simplify_eq/=. Qed.

Lemma invoke_values request s :
  values_ok (sms_fabrics (sm_state s)) -> values_ok (sms_fabrics (sm_state (invoke request s).2)).
Proof.
  intros Hv. unfold invoke, sim_try. pose proof (fail_if_scripted_fabrics Smo_Invoke s) as Hf.
  destruct (fail_if_scripted Smo_Invoke s) as [[[]|e] s1]; cbn [snd] in *; [|by rewrite Hf].
  rewrite <- Hf in Hv. unfold locked. destruct (u64_checked_add _ _) as [n|]; [|done].
  pose proof (mutate_values (with_sequence (sm_state s1) n) request (sm_now s1) n Hv) as Hm.
  destruct (mutate_for_invoke _ _ _ _) as [[report|e] s2]; cbn [snd] in Hm; [|done].
  unfold take_report_fault, take_subscription_loss.
  repeat (match goal with |- context [take_fault ?g ?l] => destruct (take_fault g l) as [[? ?]|] end;
          cbn [sms_faults with_faults]);
    cbn [snd sm_state]; unfold lose_subscriptions, flush_due_reports; cbv zeta;
    cbn [trace sms_fabrics]; rewrite fold_fabrics by done; cbn [with_pending with_subscriptions sms_fabrics];
    try done; unfold schedule_report; repeat case_match; done.
Qed.
Lemma read_fabrics request s :
  sms_fabrics (sm_state (read request s).2) = sms_fabrics (sm_state s).
Proof.
  unfold read, sim_try. pose proof (fail_if_scripted_fabrics Smo_Read s) as Hf.
  destruct (fail_if_scripted Smo_Read s) as [[[]|e] s1]; cbn [snd] in *; [|done].
  unfold locked. by repeat case_match; simplify_eq/=.
Qed.

Lemma read_values request s reports s' :
  values_ok (sms_fabrics (sm_state s)) -> read request s = (Ok reports, s') ->
  forall report, In report reports -> rp_value report <> Mav_Unsigned 3.
Proof.
  intros Hv. unfold read, sim_try. pose proof (fail_if_scripted_fabrics Smo_Read s) as Hf.
  destruct (fail_if_scripted Smo_Read s) as [[[]|e] s1]; cbn [snd] in *; [|done].
  rewrite <- Hf in Hv. unfold locked. destruct (found_node _ _ _) as [node|e] eqn:Hn; [|done]. cbn [result_bind].
  destruct (try_fold _ _ _) as [items|e] eqn:Hfold; [|done]. intros Hr.
  unfold MatterControllerItems.new in Hr. destruct (_ <? _); [done|]. injection Hr as <- <-.
  assert (forall report, In report items -> In report [] \/ rp_value report <> Mav_Unsigned 3) as Hall;
    [|intros report Hin; by destruct (Hall report Hin)].
  eapply (try_fold_rel _ (fun l l' => forall report, In report l' ->
    In report l \/ rp_value report <> Mav_Unsigned 3)); [| | |exact Hfold].
  - intros l report Hin. by left.
  - intros a b c H1' H2' report Hin. destruct (H2' _ Hin); auto.
  - intros l path l' Hl report Hin. apply result_bind_ok in Hl as (item & Hitem & [= <-]).
    apply in_app_or in Hin as [Hin|[<-|[]]]; [by left|]. right.
    unfold read_attribute, attribute_of in Hitem. apply result_bind_ok in Hitem as (attribute & Ha & [= <-]).
    unfold found_node, node_of, fabric in Hn. apply result_bind_ok in Hn as (found & Hfound & Hn).
    repeat match goal with
    | Hx : ok_or _ _ = Ok _ |- _ => unfold ok_or in Hx
    | Hx : match ?o with Some _ => _ | None => _ end = Ok _ |- _ => destruct o eqn:?; simplify_eq
    | Hx : List.find _ _ = Some _ |- _ => apply List.find_some in Hx as [? _]
    end.
    by eapply Hv.
Qed.

(** A report is never read as locked. *)
Lemma normalized_not_locked rule report now current source causation reported observation causation' :
  rp_value report <> Mav_Unsigned 3 ->
  normalize_matter_report rule report now current source causation =
    Dec_Applied reported observation causation' -> mr_value reported <> Mv_Lock Ml_Locked.
Proof.
  unfold normalize_matter_report. intros Hne Hd. destruct (negb _); [done|].
  destruct (map_report_value _ _ _) as [[value values]|] eqn:Hm; [|done].
  assert (value <> Mv_Lock Ml_Locked) as Hvalue.
  { unfold map_report_value in Hm. destruct (cpj_rule rule), (rp_value report) as [|?|n|?|?|?]; simplify_eq; try done.
    unfold lock_state_of. intros Heq. destruct n as [|[[]|[]|]]; done. }
  assert (forall r, match MatterReportedState.new value (rp_data_version report) (rp_report_sequence report)
      (rp_observed_at report) now with Err _ => Dec_Rejected Rej_InvalidTime | Ok reported => r reported end =
      Dec_Applied reported observation causation' ->
      exists x, MatterReportedState.new value (rp_data_version report) (rp_report_sequence report)
        (rp_observed_at report) now = Ok x /\ r x = Dec_Applied reported observation causation') as Hnew.
  { intros r. destruct (MatterReportedState.new _ _ _ _ _) as [x|]; [|done]. by exists x. }
  assert (exists x, MatterReportedState.new value (rp_data_version report) (rp_report_sequence report)
      (rp_observed_at report) now = Ok x /\ reported = x) as (x & Hx & ->).
  { cbv zeta in Hd. destruct (_ <? _)%Z; [done|].
    destruct current; repeat (match goal with H : (if ?b then _ else _) = _ |- _ => destruct b; try done end);
      apply Hnew in Hd as (x & Hx & Hd); exists x; by injection Hd as <- _ _. }
  unfold MatterReportedState.new in Hx. ok_inv. by simplify_eq/=.
Qed.
(** ** What an adapter call leaves *)

Abbreviation adapted_alone := (alone adapter_exec).

Lemma adapted_rule {A E F} (f : E -> F) (m : AdapterProg (result A E)) w
  (Q : result A F -> AdapterWorld -> Prop) :
  adapted_alone m w (fun r w => Q (map_err f r) w) -> adapted_alone (adapted f m) w Q.
Proof. intros Hm. apply alone_bind. eapply alone_mono; [exact Hm|]. auto. Qed.

Lemma adapter_op op w (Q : adapter_resp op -> AdapterWorld -> Prop) :
  Q (adapter_exec op w).1 (adapter_exec op w).2 -> adapted_alone (aask op) w Q.
Proof. apply alone_op. Qed.

Lemma found_not_locked w device_id endpoint_id schema stored :
  never_locked w -> matter_projection_for_target (aw_db w) device_id endpoint_id schema = Some stored ->
  not_locked (mp_reported (sp_state stored)).
Proof.
  intros [_ Hp] Hf. unfold matter_projection_for_target in Hf.
  destruct (List.find _ _) as [[id row]|] eqn:Hfind; [|done]. injection Hf as <-.
  apply List.find_some in Hfind as [Hin%list_elem_of_In%elem_of_map_to_list _]. by eapply Hp.
Qed.

Lemma store_never_locked w projection expected :
  never_locked w -> not_locked (mp_reported (sp_state projection)) ->
  never_locked (adapter_exec (Ado_store_projection projection expected) w).2.
Proof.
  intros [Hv Hp] Hn. cbn [adapter_exec]. destruct (store_projection _ _ _) as [db|] eqn:Hs; [|done].
  assert (exists row, db_projections db = <[sp_projection_id projection := row]> (db_projections (aw_db w)) /\
    pj_payload row = projection) as (row & Hdb & Hpay).
  { unfold store_projection in Hs. cbv zeta in Hs. ok_inv. simplify_eq. by eexists. }
  split; [done|]. intros id row'. cbn [snd aw_db]. rewrite Hdb, lookup_insert_Some.
  intros [[_ <-]|[_ Hr]]; [by rewrite Hpay | by eapply Hp].
Qed.

Lemma dispatch_never_locked command w :
  never_locked w -> never_locked (Effects.run adapter_exec (dispatch command) w).2.
Proof.
  intros Hw. apply (alone_run adapter_exec _ w (fun _ w => never_locked w)).
  unfold dispatch. apply alone_try, alone_ret. destruct (map_command _); [|done].
  apply alone_try, adapted_rule, adapter_op. cbn [adapter_exec fst snd map_err].
  apply alone_try, alone_ret. destruct (ok_or _ _); [|done].
  apply alone_try, adapted_rule, adapter_op. cbn [adapter_exec fst snd].
  destruct (map_err _ (map_err _ _)); [|done].
  apply alone_try, alone_ret. destruct (ok_or _ _); [|done].
  apply alone_try, alone_ret. destruct (map_err _ _); [|done].
  apply alone_try, alone_ret. destruct (map_err _ _) as [request|]; [|done].
  apply alone_try, adapted_rule, adapter_op. cbn [adapter_exec].
  pose proof (invoke_values request (aw_simulator w) (proj1 Hw)) as Hv.
  destruct (invoke request (aw_simulator w)) as [r s]. cbn [fst snd] in *.
  assert (never_locked (mk_adapter_world (aw_db w) s)) by (split; [done | apply Hw]).
  by destruct (map_err _ r).
Qed.

(** What a confirmation leaves, and does not answer. *)
Definition unconfirmed (command : CommandAggregate)
  (r : result CommandConfirmationOutcome MatterCommandAdapterError) (w : AdapterWorld) : Prop :=
  never_locked w /\
  (ce_payload (ca_envelope command) = Pl_AccessControl Ac_Lock -> forall c, r <> Ok (Co_Confirmed c)).

Lemma apply_report_unconfirmed command stored reported causation now expected w :
  never_locked w -> mr_value reported <> Mv_Lock Ml_Locked ->
  expected_state (ce_payload (ca_envelope command)) = Some expected ->
  adapted_alone (apply_report (ca_envelope command) stored reported causation now expected) w
    (unconfirmed command).
Proof.
  intros Hw Hne Hexp. unfold apply_report. apply alone_try, alone_ret.
  destruct (advance_matter_projected_state _ _ _) as [state|] eqn:Hadv; cbn [map_err]; [|by split].
  assert (mp_reported state = Some reported) as Hrep.
  { unfold advance_matter_projected_state in Hadv. destruct (match mp_desired _ with Some _ => _ | None => _ end).
    unfold MatterProjectedState.new in Hadv. ok_inv. by simplify_eq/=. }
  apply alone_try, alone_ret. destruct (ok_or _ _) as [revision|]; [|by split].
  apply alone_try, adapted_rule, adapter_op.
  match goal with |- context [adapter_exec (Ado_store_projection ?p ?e) w] =>
    assert (never_locked (adapter_exec (Ado_store_projection p e) w).2) as Hw'
      by (apply store_never_locked; [done|]; cbn; rewrite Hrep; intros r [= <-]; done);
    destruct (adapter_exec (Ado_store_projection p e) w) as [r w'] end.
  cbn [fst snd] in *. destruct (map_err _ r); [|by split]. apply alone_ret. split; [done|].
  intros Hlock c. rewrite Hrep. rewrite Hlock in Hexp. injection Hexp as <-.
  rewrite (bool_decide_eq_false_2 (mr_value reported = _)) by done. by rewrite andb_false_r.
Qed.

Lemma confirm_unconfirmed command w :
  never_locked w -> adapted_alone (confirm command) w (unconfirmed command).
Proof.
  intros Hw. unfold confirm. apply alone_try, adapted_rule, adapter_op. cbn [adapter_exec fst snd map_err].
  destruct (matter_projection_for_target _ _ _ _) as [stored|] eqn:Hfound; [|by split].
  pose proof (found_not_locked _ _ _ _ _ Hw Hfound) as Hstored.
  apply alone_try, alone_ret.
  destruct (expected_state _) as [expected|] eqn:Hexp; cbn [ok_or]; [|by split].
  destruct (already_confirmed _ _ _) as [reported|] eqn:Hal.
  { apply alone_bind, adapter_op. split; [done|]. intros Hlock c _.
    rewrite Hlock in Hexp. injection Hexp as <-. unfold already_confirmed in Hal.
    destruct (mp_reported (sp_state stored)) as [r|] eqn:Hr; [|done].
    rewrite (bool_decide_eq_false_2 (mr_value r = _)) in Hal by (by apply Hstored).
    by rewrite andb_false_r in Hal. }
  apply alone_try, alone_ret. destruct (capability_projection _ _) as [rule|]; [|by split].
  apply alone_try, alone_ret. destruct (map_err _ _) as [selection|]; [|by split].
  apply alone_bind, adapter_op. cbn [adapter_exec].
  match goal with |- context [read ?q ?s] =>
    pose proof (read_fabrics q s) as Hf; destruct (read q s) as [r s'] eqn:Hread end.
  assert (never_locked (mk_adapter_world (aw_db w) s')) as Hw1.
  { split; [cbn [aw_simulator snd] in *; rewrite Hf|]; apply Hw. }
  cbn [fst snd]. destruct r as [reports|e]; [|by split].
  pose proof (read_values _ _ _ _ (proj1 Hw) Hread) as Hreports.
  destruct (List.find _ reports) as [report|] eqn:Hfind; [|by split].
  apply List.find_some in Hfind as [Hin _].
  apply alone_try, adapted_rule, adapter_op. cbn [adapter_exec fst snd].
  destruct (map_err _ (map_err _ _)) as [slot|]; [|by split].
  apply alone_bind, adapter_op. cbn [adapter_exec fst snd].
  destruct (normalize_matter_report _ _ _ _ _ _) as [reported observation causation'| |] eqn:Hnorm.
  - apply apply_report_unconfirmed; [done| |done]. by eapply normalized_not_locked; [apply Hreports|].
  - destruct (mp_reported (sp_state stored)) as [reported|] eqn:Hr; [|by split].
    apply apply_report_unconfirmed; [done| |done]. by apply Hstored.
  - by split.
Qed.

(** C17: A command to lock a door is never confirmed: the simulated lock reports a
    completed lock command with the value that the projection reads as not fully
    locked, so whatever is dispatched and confirmed over the simulator, no
    confirmation of a lock command succeeds. *)
Theorem lock_never_confirmed calls w command confirmation :
  never_locked w -> In (command, Ok (Co_Confirmed confirmation)) (confirmations calls w) ->
  ce_payload (ca_envelope command) <> Pl_AccessControl Ac_Lock.
Proof.
  revert w. induction calls as [|[envelope|aggregate] calls IH]; intros w Hw Hin; [done| |];
    cbn [confirmations] in Hin.
  - eapply IH; [|exact Hin]. by apply dispatch_never_locked.
  - pose proof (alone_run adapter_exec _ _ _ (confirm_unconfirmed aggregate w Hw)) as [Hw' Hno].
    destruct (Effects.run adapter_exec (confirm aggregate) w) as [r w']. cbn [fst snd] in *.
    cbn [In] in Hin. destruct Hin as [[= -> ->]|Hin]; [|by eapply IH]. intros Hlock. by apply (Hno Hlock confirmation).
Qed.
End Commands.

(** ** A simulated light *)

#[local] Existing Instance ranged_chrono.

Definition light_refs : MatterFabricSecretRefs := mk_secret_refs "ca" "key" "state".

(** A fabric with the built-in light. *)
Definition light_calls : list SimulatorCall :=
  [Sc_create_fabric (mk_create_fabric "o1" "home" light_refs);
   Sc_commission (mk_commissioning "o2" "home" SIMULATOR_LIGHT_SETUP)].

Definition light_simulator (codec : SimulatorCodec) : Simulator := after_calls light_calls (new now0).

Definition no_fabric : SimulatorFabric := mk_sim_fabric "" light_refs [].

Definition light_fabric : SimulatorFabric :=
  default no_fabric (fabric (sm_state (light_simulator (one_fabric_codec no_fabric))) "home").

Definition light_codec : SimulatorCodec := one_fabric_codec light_fabric.
#[local] Existing Instance light_codec.

Definition light_export : MatterFabricExport :=
  mk_fabric_export Xf_SimulatorV1 (EXPORT_PREFIX ++ [1%N]) RECOVERY_KEY.

Lemma log_followed_witness :
  let rounds := [light_calls; []; [Sc_flush]] in
  match follow 3 rounds [] (new now0) with
  | (Ok read, s) => length read = 7 /\ read_from s read
  | _ => False
  end.
Proof.
  intros rounds. destruct (follow 3 rounds [] (new now0)) as [[read|e] s] eqn:E.
  - split; [vm_compute in E; by injection E as <- _|].
    exact (proj1 (log_followed 3 rounds (new now0) read s E)).
  - vm_compute in E. discriminate E.
Defined.

Lemma export_restored_witness :
  exists s3, restore_fabric (mk_restore "o4" "home" Xf_SimulatorV1 (fx_envelope light_export) RECOVERY_KEY)
               (new now0) = (Ok (mk_fabric_status "home" Fs_Active 1 now0), s3) /\
    fabric (sm_state s3) "home" = Some light_fabric.
Proof.
  destruct (export_restored (mk_export_request "o3" "home") (light_simulator light_codec) light_export
    (export_fabric (mk_export_request "o3" "home") (light_simulator light_codec)).2 "o4" (new now0))
    as (found & s3 & Hr & Hf & Hf3 & _); [vm_compute; reflexivity|reflexivity|reflexivity|].
  assert (fabric (sm_state (light_simulator light_codec)) "home" = Some light_fabric) as Hl
    by (vm_compute; reflexivity).
  assert (found = light_fabric) as -> by (cbn [xr_fabric_id] in Hf; congruence).
  exists s3. split; [exact Hr | exact Hf3].
Defined.

(** ** A simulated lock *)

#[local] Existing Instance integer_json.
#[local] Existing Instance house_digest.

(** Alice creates the fabric and commissions the lock. *)
Definition lock_house : Home :=
  home_calls house_policy
    [Mc_start_create alice (mk_key "k1") now0; Mc_execute (Xq_Create alice "home-9");
     Mc_start_commission alice (mk_key "k2") now0;
     Mc_execute (Xq_Commission alice "home-18" (mk_commissioning_input SIMULATOR_LOCK_SETUP))] house.

(** Her command to lock the door, dispatched under its desired slot. *)
Definition lock_envelope : CommandEnvelope :=
  mk_envelope "c1" "alice" "home:matter:home:node:8193" "matter:1"
    (mk_descriptor "access_control" 1 Risk_Security) (Pl_AccessControl Ac_Lock) (mk_key "c1")
    (now0 + delta_seconds 30) None false "correlation" None None now0.

Definition lock_command : CommandAggregate :=
  mk_command lock_envelope (Cs_Dispatched) 3 None None None None now0.

Definition lock_db : Db :=
  let b := base (home_db lock_house) in
  set_desired b {["home:8193:1:access_control:1"%string := mk_slot_row 1 "c1" (Some now0) now0]}
    (db_unlocks b) (db_supersessions b).

Definition lock_world : AdapterWorld := mk_adapter_world lock_db (hm_simulator lock_house).

(** The controller accepts the command; the confirmation fails. *)
Lemma lock_never_confirmed_witness :
  (Effects.run adapter_exec (dispatch lock_envelope) lock_world).1 =
    Ok (mk_ack now0 "matter.invoke.accepted") /\
  confirmations [Acl_dispatch lock_envelope; Acl_confirm lock_command] lock_world =
    [(lock_command, Ok (failed Ce_ConfirmationMismatch))] /\
  forall calls confirmation,
    ~ In (lock_command, Ok (Co_Confirmed confirmation)) (confirmations calls lock_world).
Proof.
  split; [vm_compute; reflexivity|]. split; [vm_compute; reflexivity|].
  intros calls confirmation Hin.
  refine (lock_never_confirmed calls lock_world lock_command confirmation _ Hin eq_refl).
  apply never_locked_checked. vm_compute. reflexivity.
Defined.
