(* ===== verification/MatterWorkflowProps.v ===== *)
(** The properties of the Matter workflows: over the running system, the effects
    and the histories of operations; over the house with its simulated controller,
    what a commissioning can no longer do. *)

From S2P Require Import MatterSimulator MatterSimulatorProps.
From S2P Require Import Prelude Text Json Capability Lifecycle Device Command MatterState CommandStore MatterOperation MatterStore Identity Effects CommandService MatterDescriptor MatterController FoundationStore MatterRepository MatterHistory MatterAdministration MatterFabricWorkflow MatterNodeWorkflow MatterSubscription MatterExecution MatterTokens MatterSystem CommandFixture AutomationFixture ApplicationFixture MatterHome.

Section System.
Context `{SerdeJson} `{MatterRequestDigest} `{Uuids} `{Chrono} `{Sha256}.
Context (policy : MatterSubscriptionRecoveryPolicy).

(** C27: In every reachable state of the Matter services, with interleaved calls,
    failing and lost operations, dropped tasks, crashes and retention, the controller
    was asked for the effect of an operation at most once, and only after the first
    move of exactly that operation was stored, under a binding whose actor held the
    grant for it. *)
Theorem matter_effects_once s :
  reachable policy s ->
  let w := xs_world s in
  NoDup (effect_ids w) /\
  forall op, In op (xw_effects w) -> exists o0 o b security,
    effect_of op o /\ legal_move o0 o /\ mo_phase o0 = Mph_Requested /\
    In o0 (xw_versions w) /\ In o (xw_versions w) /\ In b (xw_bound w) /\
    In security (xw_grants w) /\ authorised o b security.
Proof.
  intros Hr. destruct (matter_reachable_inv policy s Hr) as [Hi _]. split; [apply Hi|].
  intros op Hop. destruct (xi_effect _ Hi op Hop) as (o & b & g & Hof & Ho & Hrev & Hb & Hg & Ha).
  destruct (xi_legal _ Hi _ Ho) as [[Hone _]|(o0 & Ho0 & Hl)]; [lia|].
  exists o0, o, b, g. destruct (legal_move_facts _ _ Hl) as (_ & _ & _ & _ & _ & Hr0).
  do 2 (split; [done|]). split; [|done].
  destruct (xi_legal _ Hi _ Ho0) as [[_ ?]|(o1 & Ho1 & Hl1)]; [done|].
  apply legal_move_facts in Hl1 as (_ & _ & _ & _ & _ & Hr1).
  destruct (xi_legal _ Hi _ Ho1) as [[? _]|(o2 & _ & Hl2)]; [lia|].
  apply legal_move_facts in Hl2 as (_ & _ & _ & _ & _ & Hr2). lia.
Qed.

(** C32: In every reachable state of the Matter services the progress stored for an
    operation is its complete history: one row per version, numbered from one without
    a gap, from its request through legal moves to the version the row holds. *)
Theorem matter_history_complete s id row :
  reachable policy s -> md_operations (xw_db (xs_world s)) !! id = Some row ->
  let history := progress_of (xw_db (xs_world s)) id in
  mo_id (opr_payload row) = id /\ recorded history (opr_payload row) /\
  map pg_revision history = map N.of_nat (seq 1 (length history)) /\
  mo_revision (opr_payload row) = N.of_nat (length history) /\
  Forall (fun p => pg_operation_id p = id) history.
Proof.
  intros Hr Hrow history. destruct (matter_reachable_inv policy s Hr) as [Hi _].
  destruct (hi_row _ (xi_history _ Hi) _ _ Hrow) as [Hid Hrec]. split; [done|]. split; [done|].
  split; [by eapply recorded_revisions|]. split; [by apply recorded_length|].
  rewrite <- Hid. by apply recorded_id.
Qed.
End System.

(** ** Rows of nodes *)

Section Nodes.
Context `{SerdeJson} `{MatterRequestDigest} `{Uuids} `{Chrono} `{Sha256}.

(** No row of a node is deleted. *)
Definition nodes_kept (db db' : MatterDb) : Prop :=
  forall key, is_Some (md_nodes db !! key) -> is_Some (md_nodes db' !! key).

#[local] Instance nodes_kept_refl : Reflexive nodes_kept.
Proof. by intros db key. Qed.
#[local] Instance nodes_kept_trans : Transitive nodes_kept.
Proof. intros a b c H1' H2' key Hk. auto. Qed.

Ltac kept := intros; ok_inv; simplify_eq/=; try done; try (by intros ?).

Lemma store_node_kept db node e db' : store_node db node e = Ok db' -> nodes_kept db db'.
Proof.
  unfold store_node, store_node_row. intros Hs key Hk. ok_inv. simplify_eq/=.
  destruct (decide (node_key node = key)) as [<-|Hne]; [by rewrite lookup_insert_eq|].
  by rewrite lookup_insert_ne.
Qed.

Lemma store_projection_kept db projection e db' :
  store_matter_projection db projection e = Ok db' -> nodes_kept db db'.
Proof. unfold store_matter_projection. kept. Qed.

Lemma store_subscription_kept db subscription e db' :
  store_subscription db subscription e = Ok db' -> nodes_kept db db'.
Proof. unfold store_subscription. cbv zeta. kept. Qed.

Lemma on_foundation_kept db f db' : on_foundation db f = Ok db' -> nodes_kept db db'.
Proof. unfold on_foundation. kept. Qed.

Lemma insert_result_kept db value db' : insert_node_result db value = Ok db' -> nodes_kept db db'.
Proof. unfold insert_node_result. kept. Qed.

Lemma transition_kept db event o expected p repair db' :
  transition_operation db event o expected p repair = Ok db' -> nodes_kept db db'.
Proof.
  unfold transition_operation, append_operation_event, insert_progress, store_repair. intros Ht key Hk.
  ok_inv. destruct repair; ok_inv; by simplify_eq/=.
Qed.

Lemma commissioning_kept db event commit expected db' :
  commit_commissioning db event commit expected = Ok db' -> nodes_kept db db'.
Proof.
  unfold commit_commissioning. intros Hc. ok_inv.
  repeat match goal with
  | Hf : on_foundation _ _ = Ok _ |- _ => apply on_foundation_kept in Hf
  | Hn : store_node _ _ _ = Ok _ |- _ => apply store_node_kept in Hn
  | Hs : store_subscription _ _ _ = Ok _ |- _ => apply store_subscription_kept in Hs
  | Hr : insert_node_result _ _ = Ok _ |- _ => apply insert_result_kept in Hr
  | Ht : transition_operation _ _ _ _ _ _ = Ok _ |- _ => apply transition_kept in Ht
  | Hf : try_fold _ _ _ = Ok _ |- _ =>
      apply (try_fold_rel _ nodes_kept) in Hf;
        [|apply nodes_kept_refl|apply nodes_kept_trans|intros ???; apply store_projection_kept]
  end.
  repeat (etransitivity; [eassumption|]). done.
Qed.

Lemma removal_kept db event commit expected db' :
  commit_matter_node_removal db event commit expected = Ok db' -> nodes_kept db db'.
Proof.
  unfold commit_matter_node_removal. intros Hc. ok_inv.
  repeat match goal with
  | Hf : on_foundation _ _ = Ok _ |- _ => apply on_foundation_kept in Hf
  | Ht : transition_operation _ _ _ _ _ _ = Ok _ |- _ => apply transition_kept in Ht
  end.
  repeat (etransitivity; [eassumption|]). done.
Qed.

Lemma repair_kept db event commit db' :
  commit_matter_subscription_repair db event commit = Ok db' -> nodes_kept db db'.
Proof.
  unfold commit_matter_subscription_repair. intros Hc. ok_inv. destruct (mo_target _); ok_inv.
  repeat match goal with
  | Hs : store_subscription _ _ _ = Ok _ |- _ => apply store_subscription_kept in Hs
  | Ht : transition_operation _ _ _ _ _ _ = Ok _ |- _ => apply transition_kept in Ht
  | Hf : try_fold _ _ _ = Ok _ |- _ =>
      apply (try_fold_rel _ nodes_kept) in Hf;
        [|apply nodes_kept_refl|apply nodes_kept_trans
         |intros ????; ok_inv; by eapply store_projection_kept]
  end.
  repeat (etransitivity; [eassumption|]). done.
Qed.

Lemma cancellation_kept db event event' commit db' :
  commit_matter_cancellation db event event' commit = Ok db' -> nodes_kept db db'.
Proof.
  unfold commit_matter_cancellation. intros Hc. ok_inv.
  etransitivity; by eapply transition_kept.
Qed.

Lemma create_kept db event o b p db' outcome :
  create_administration_operation db event o b p = Ok (db', outcome) -> nodes_kept db db'.
Proof.
  unfold create_administration_operation, create_operation, insert_progress, insert_binding,
    append_operation_event. intros Hc key Hk. ok_inv.
  destruct (binding_of_key _ _ _); ok_inv; by simplify_eq/=.
Qed.

Lemma step_kept w op r w' : op_step w op r w' -> nodes_kept (xw_db w) (xw_db w').
Proof.
  assert (forall A (m : result (MatterDb * A) StorageError) note (r : result A BoxError) w',
    writes w m note r w' -> (forall a v, xw_db (note a v) = xw_db v) ->
    (forall db a, m = Ok (db, a) -> nodes_kept (xw_db w) db) -> nodes_kept (xw_db w) (xw_db w')) as Hw.
  { intros A m note r1 w1 [(-> & _)|(db & a & Hm & -> & _)]%writes_cases Hn Hk; [done|].
    rewrite Hn. by eapply Hk. }
  assert (forall op w', asks w op w' -> nodes_kept (xw_db w) (xw_db w')) as Ha.
  { intros op1 w1 ->. by destruct (effect_id op1). }
  destruct op; cbn [op_step]; intros Hop; try (by eapply Ha); try (destruct Hop as [-> _]; done);
    try (destruct Hop as [_ ->]; reflexivity);
    try (destruct Hop as [event Hop]); try (destruct Hop as [event' Hop]);
    try (eapply Hw; [exact Hop|by intros|]; intros db' a Hm;
         first [apply as_unit_ok in Hm|idtac];
         first [by eapply transition_kept|by eapply commissioning_kept|by eapply removal_kept
               |by eapply repair_kept|by eapply cancellation_kept|by eapply store_subscription_kept
               |revert Hm; unfold store_fabric_stage, delete_attached_stage, store_fabric; kept]).
  - destruct Hop as [[_ ->]|[_ ->]]; [reflexivity|]. destruct (load_actor_security _ _); reflexivity.
  - eapply Hw; [exact Hop|by intros [] ?|]. intros db' a Hm. by eapply create_kept.
Qed.

(** A step of the services on the shared world, whatever it is answered. *)
Definition service_step (w w' : MatterWorld) : Prop := exists op r, op_step w op r w'.

(** A program that runs alone in the house takes such steps. *)
Lemma home_run_service `{SimulatorCodec} {A} (m : MatterProg A) h :
  home_ok h -> rtc service_step (hm_world h) (hm_world (home_run m h).2).
Proof.
  unfold home_run. revert h. induction m as [a|op k IH]; intros h Hok; [apply rtc_refl|]. cbn.
  pose proof (home_exec_ok op h Hok) as Hok'. pose proof (home_step op h Hok) as Hstep.
  destruct (home_exec op h) as [r h']. eapply rtc_l; [by exists op, r|]. by apply IH.
Qed.

Lemma home_calls_service `{SimulatorCodec} policy calls h :
  home_ok h -> rtc service_step (hm_world h) (hm_world (home_calls policy calls h)).
Proof.
  revert h. induction calls as [|call calls IH]; intros h Hok; cbn [home_calls]; [apply rtc_refl|].
  etransitivity; [by apply (home_run_service (matter_call policy call))|]. apply IH. by apply home_run_ok.
Qed.

(** C22: A removal does not free the identity of its node: once a node is stored,
    whatever the Matter services do, its removal included, the row stays, and every
    later commissioning that is answered with this node is refused. *)
Theorem removed_node_lost w w2 key :
  is_Some (md_nodes (xw_db w) !! key) -> rtc service_step w w2 ->
  is_Some (md_nodes (xw_db w2) !! key) /\
  forall commit expected r w3, node_key (cc_node commit) = key ->
    op_step w2 (Wo_commit_commissioning commit expected) r w3 -> w3 = w2 /\ exists e, r = Err e.
Proof.
  intros Hk Hs. assert (is_Some (md_nodes (xw_db w2) !! key)) as Hk2.
  { induction Hs as [|w w1 w2 (op & r & Hop) _ IH]; [done|]. apply IH. by apply (step_kept _ _ _ _ Hop). }
  split; [done|]. intros commit expected r w3 Hkey [event Hop].
  apply writes_cases in Hop as [(-> & He)|(db & [] & Hm & _)]; [done|]. exfalso.
  apply as_unit_ok in Hm. unfold commit_commissioning, store_node, store_node_row, on_foundation in Hm.
  ok_inv. simplify_eq/=. destruct Hk2 as [node Hn].
  match goal with Hv : validate_revision _ _ _ _ = Ok _ |- _ => rewrite Hn in Hv; by cbn in Hv end.
Qed.
End Nodes.

(** ** Commissioning over a long log *)

Section LongLog.
Context `{SerdeJson} `{MatterRequestDigest} `{Uuids} `{Chrono} `{Sha256} `{SimulatorCodec}.

Lemma controls_log {A} h op (m : SimResult A) :
  grows m -> log_of (hm_simulator h) `prefix_of` log_of (hm_simulator (controls h op m).2).
Proof. intros Hm. unfold controls. specialize (Hm (hm_simulator h)). by destruct (m _). Qed.

(** The log of the controller only grows, whatever operation is answered. *)
Lemma home_log op h :
  log_of (hm_simulator h) `prefix_of` log_of (hm_simulator (home_exec op h).2).
Proof.
  destruct op; cbn [home_exec]; try done; try (by apply controls_log; auto with simulator);
    unfold commits; repeat case_match; done.
Qed.

(** The first page of the log says nothing of the operation. *)
Definition log_full (id : MatterOperationId) (h : Home) : Prop :=
  256 <= length (log_of (hm_simulator h)) /\
  forall event phase, In event (take 256 (log_of (hm_simulator h))) ->
    mce_kind event <> Mek_OperationProgress id phase.

Lemma log_full_exec id op h : log_full id h -> log_full id (home_exec op h).2.
Proof.
  intros [Hlen Hno]. destruct (home_log op h) as [tail Htail]. split; rewrite Htail.
  - rewrite length_app. lia.
  - intros event phase. rewrite take_app_le by lia. apply Hno.
Qed.

Lemma full_page id h page :
  log_full id h -> (home_exec (Wo_events_after 0 CONTROLLER_EVENT_PAGE) h).1 = Ok page ->
  reported_phases id page = [].
Proof.
  intros [_ Hno] Hp. cbn [home_exec] in Hp. unfold controls in Hp.
  destruct (MatterSimulator.events_after _ _ _) as [r s] eqn:E. cbn [fst] in Hp. subst r.
  pose proof (page_events (hm_simulator h) 0 CONTROLLER_EVENT_PAGE page) as Hev.
  rewrite E in Hev. specialize (Hev eq_refl). rewrite drop_0 in Hev.
  unfold reported_phases. rewrite Hev. clear E Hev.
  change (Nat.min CONTROLLER_EVENT_PAGE MatterSimulator.MAX_EVENT_PAGE) with 256.
  unfold numbered. match goal with |- context [omap ?g _] => set (F := g) end.
  assert (forall n log (f : nat -> N),
    (forall event phase, In event (take n log) -> mce_kind event <> Mek_OperationProgress id phase) ->
    omap F (take n (imap (fun index event => mk_matter_cursor_event (f index) event) log)) = []) as Hall;
    [|exact (Hall 256 _ (fun index => (0 + N.of_nat index + 1)%N) Hno)].
  clear. induction n as [|n IH]; intros log f Hno; [done|].
  destruct log as [|event log]; [done|]. rewrite imap_cons.
  assert (omap F (take n (imap (fun index event => mk_matter_cursor_event (f (S index)) event) log)) = [])
    as Hrest by (apply (IH log (fun index => f (S index))); intros e p He; apply (Hno e p); by right).
  assert (F (mk_matter_cursor_event (f 0) event) = None) as Hfirst.
  { unfold F. cbn [mcv_event]. destruct (mce_kind event) eqn:Hk; try done.
    destruct (String.eqb_spec operation_id id) as [->|]; [|done].
    exfalso. apply (Hno event phase); [by left | done]. }
  cbn [take]. unfold omap in *. cbn [list_omap]. by rewrite Hfirst.
Qed.

Definition progress_about (id : MatterOperationId) (event : MatterControllerEvent) : bool :=
  match mce_kind event with
  | Mek_OperationProgress candidate _ => String.eqb candidate id
  | _ => false
  end.

Definition log_full_check (id : MatterOperationId) (h : Home) : bool :=
  (256 <=? length (log_of (hm_simulator h)))
  && forallb (fun event => negb (progress_about id event)) (take 256 (log_of (hm_simulator h))).

Lemma log_full_checked id h : log_full_check id h = true -> log_full id h.
Proof.
  unfold log_full_check. rewrite andb_true_iff, forallb_forall. intros [Hlen%Nat.leb_le Hall].
  split; [done|]. intros event phase Hin Hk. specialize (Hall event Hin). unfold progress_about in Hall.
  by rewrite Hk, String.eqb_refl in Hall.
Qed.

(** What holds of every outcome of a program in the house. *)
Abbreviation homely := (alone home_exec).

Lemma homely_log {A} id (m : MatterProg A) h : log_full id h -> homely m h (fun _ h' => log_full id h').
Proof.
  revert h. induction m as [a|op k IH]; intros h Hl; [done|]. intros r _. by apply IH, log_full_exec.
Qed.

Lemma homely_mapped {A E F} (f : E -> F) (m : MatterProg (result A E)) h
  (Q : result A F -> Home -> Prop) :
  homely m h (fun r h => Q (map_err f r) h) -> homely (mapped f m) h Q.
Proof. intros Hm. apply alone_bind. eapply alone_mono; [exact Hm|]. auto. Qed.

Lemma homely_op op h (Q : matter_resp op -> Home -> Prop) :
  Q (home_exec op h).1 (home_exec op h).2 -> homely (wask op) h Q.
Proof. apply alone_op. Qed.

(** A program after which only the log matters. *)
Lemma homely_then {A} id (m : MatterProg A) h (Q : A -> Home -> Prop) :
  log_full id h -> (forall a h', log_full id h' -> Q a h') -> homely m h Q.
Proof. intros Hl HQ. eapply alone_mono; [by apply (homely_log id)|]. auto. Qed.

(** The operation, under its identity, is not completed. *)
Definition unfinished (id : MatterOperationId) (h : Home) : Prop :=
  forall row, md_operations (home_db h) !! id = Some row ->
    mo_id (opr_payload row) = id /\ mo_phase (opr_payload row) <> Mph_Completed.

Lemma homely_owned actor id action h :
  log_full id h -> unfinished id h ->
  homely (owned_operation_for_action actor id action) h (fun r h' =>
    log_full id h' /\ match r with Ok o => mo_id o = id /\ mo_phase o <> Mph_Completed | Err _ => True end).
Proof.
  intros Hl Hu. unfold owned_operation_for_action, security, bound_operation, repository.
  apply alone_try, alone_try, homely_mapped. intros r ->.
  set (h1 := (home_exec _ h).2). assert (log_full id h1) as Hl1 by apply (log_full_exec id _ _ Hl).
  assert (home_db h1 = home_db h) as Hdb by (cbn; by destruct (load_actor_security _ _)).
  cbn [home_exec fst map_err]. destruct (load_actor_security _ _) as [security|]; [|done]. cbn [ok_or].
  apply alone_try. destruct (authorized security action) as [[]|e]; [|done].
  apply alone_try, alone_try, homely_mapped. intros r ->. cbn [home_exec answers fst snd].
  unfold load_administration_operation. rewrite Hdb.
  destruct (md_operations (home_db h) !! id) as [row|] eqn:Hrow; [|done].
  destruct (md_bindings (home_db h) !! id) as [binding|]; [|done].
  unfold decode_operation. destruct (MatterOperation.validate_persisted _) as [[]|e]; [|done].
  cbn. destruct (_ && _); cbn; [|done]. split; [done|]. by apply Hu.
Qed.

Lemma homely_move id o next now h :
  log_full id h -> mo_id o = id ->
  homely (MatterNodeWorkflow.transition o next now) h (fun r h' =>
    log_full id h' /\ match r with Ok o' => mo_id o' = id | Err _ => True end).
Proof.
  intros Hl Hid. unfold MatterNodeWorkflow.transition, move_operation. apply alone_try, alone_ret.
  destruct (MatterOperation.transition o next now) as [o'|] eqn:Hm; cbn [map_err]; [|done].
  apply alone_try, homely_mapped, (homely_then id); [done|]. intros [[]|e] h' Hl'; cbn [map_err]; [|done].
  apply alone_ret. split; [done|]. destruct (transition_facts _ _ _ _ Hm) as (_ & _ & Hid' & _). by rewrite Hid'.
Qed.

(** C35: The commissioning workflow reads the progress of the controller from the
    first page of its log; once that page is full of other events, no commissioning
    completes any more, whatever is commissioned. *)
Theorem commissioning_log_exhausted actor id input now h o value :
  log_full id h -> unfinished id h ->
  (home_run (run_commission actor id input now) h).1 <> Ok (Wf_Completed o value).
Proof.
  intros Hl Hu. apply (alone_run home_exec _ h (fun r _ => r <> Ok (Wf_Completed o value))).
  assert (forall error operation h, log_full id h ->
    homely (MatterNodeWorkflow.terminal_controller_error (T := MatterOperationNodeResult)
              actor operation error now) h (fun r _ => r <> Ok (Wf_Completed o value))) as Hend.
  { intros error operation h1 Hl1. apply alone_try, (homely_then id); [done|].
    intros [operation'|e] h2 _; [|done]. cbn. done. }
  unfold run_commission. apply alone_try, alone_bind, homely_op. cbn [home_exec fst snd].
  change (String.eqb MatterSimulator.implementation SIMULATOR_IMPLEMENTATION) with true. cbn iota.
  apply alone_try, homely_mapped. eapply alone_mono; [by apply homely_owned|].
  intros [operation|e] h1 [Hl1 Hop]; [|done]. destruct Hop as [Hid Hphase].
  cbn [map_err]. rewrite bool_decide_eq_false_2 by done.
  destruct (bool_decide (mo_phase operation = Mph_Requested)); [|done].
  apply alone_try. eapply alone_mono; [by apply homely_move|].
  intros [operation1|e] h2 [Hl2 Hid1]; [|done].
  apply alone_try, alone_ret. destruct (commissioning_fabric_id operation1) as [fabric_id|e]; [|done].
  apply alone_bind, (homely_then id); [done|]. intros [descriptor|error] h3 Hl3; [|by apply Hend].
  destruct (negb _); [by apply Hend|].
  apply alone_bind. unfold commissioning_progress. apply alone_try, homely_op.
  pose proof (log_full_exec id (Wo_events_after 0 CONTROLLER_EVENT_PAGE) _ Hl3) as Hl4.
  destruct (home_exec (Wo_events_after 0 CONTROLLER_EVENT_PAGE) h3).1 as [page|error] eqn:Hpage;
    [|by apply Hend].
  rewrite Hid1, (full_page id h3 page Hl3 Hpage). by apply Hend.
Qed.
End LongLog.

(** ** The story of the house *)

#[local] Existing Instance integer_json.
#[local] Existing Instance ranged_chrono.
#[local] Existing Instance house_digest.

(** The light of the house, as the simulator holds it. *)
Definition house_codec : SimulatorCodec := one_fabric_codec (mk_sim_fabric "home" (mk_secret_refs "" "" "") []).
#[local] Existing Instance house_codec.

Lemma house_ok : home_ok house.
Proof. intros n _. cbn. set_solver. Qed.

Lemma house_start : reachable house_policy (mk_matter_system (hm_world house) []).
Proof. apply Reach_start. by repeat split. Qed.

(** Alice creates the fabric, commissions a light, and removes it again. *)
Definition creation_calls : list MatterCall :=
  [Mc_start_create alice (mk_key "k1") now0; Mc_execute (Xq_Create alice "home-9")].
Definition commissioning_calls : list MatterCall :=
  [Mc_start_commission alice (mk_key "k2") now0;
   Mc_execute (Xq_Commission alice "home-18" (mk_commissioning_input SIMULATOR_LIGHT_SETUP))].
Definition removal_calls : list MatterCall :=
  [Mc_start_remove alice 4097 (mk_key "k3") now0; Mc_execute (Xq_Remove alice "home-30")].

Definition house_created : Home := home_calls house_policy creation_calls house.
Definition house_lit : Home := home_calls house_policy commissioning_calls house_created.
Definition house_end : Home := home_calls house_policy removal_calls house_lit.

Definition house_system : MatterSystem := mk_matter_system (hm_world house_end) [].

Lemma house_lit_reachable :
  home_ok house_lit /\ reachable house_policy (mk_matter_system (hm_world house_lit) []).
Proof.
  apply home_calls_reachable; apply home_calls_reachable; first [apply house_ok | apply house_start].
Qed.

Lemma house_reachable : reachable house_policy house_system.
Proof. apply home_calls_reachable; apply house_lit_reachable. Qed.

Lemma matter_effects_once_witness :
  effect_ids (xs_world house_system) = ["home-30"; "home-18"; "home-9"]%string /\
  NoDup (effect_ids (xs_world house_system)).
Proof.
  split; [vm_compute; reflexivity|].
  destruct (matter_effects_once house_policy house_system house_reachable) as [Hn _]. exact Hn.
Defined.

(** The commissioning of the light, in its eighth version. *)
Definition commissioning_row : OperationRow :=
  mk_operation_row "home" "home"
    (mk_operation "home-18" Mk_CommissionNode (Mt_Fabric "home") Mph_Completed 8 now0 now0).

Lemma matter_history_complete_witness :
  md_operations (xw_db (xs_world house_system)) !! "home-18"%string = Some commissioning_row /\
  recorded (progress_of (xw_db (xs_world house_system)) "home-18") (opr_payload commissioning_row).
Proof.
  assert (md_operations (xw_db (xs_world house_system)) !! "home-18"%string = Some commissioning_row) as Hrow
    by (vm_compute; reflexivity).
  split; [exact Hrow|].
  destruct (matter_history_complete house_policy house_system "home-18" _ house_reachable Hrow)
    as (_ & Hrec & _). exact Hrec.
Defined.

Lemma removed_node_lost_witness :
  is_Some (md_nodes (xw_db (hm_world house_end)) !! ("home"%string, 4097%N)).
Proof.
  apply (removed_node_lost (hm_world house_lit)); [vm_compute; by eexists|].
  apply (home_calls_service house_policy removal_calls house_lit), house_lit_reachable.
Defined.

(** The same house after a controller that has seen forty-three commissionings. *)
Definition old_commissioning (n : nat) : SimulatorCall :=
  Sc_commission (mk_commissioning ("old-" +:+ show_N (N.of_nat n)) "home" SIMULATOR_LIGHT_SETUP).

Definition long_house : Home :=
  let h := house_created in
  home_calls house_policy [Mc_start_commission alice (mk_key "k2") now0]
    (mk_home (hm_world h) (after_calls (map old_commissioning (seq 1 43)) (hm_simulator h)) (hm_next h)).

Definition new_commissioning : MatterProg (result (MatterWorkflowOutcome MatterOperationNodeResult) MatterNodeWorkflowError) :=
  run_commission alice "home-18" (mk_commissioning_input SIMULATOR_LOCK_SETUP) now0.

Lemma commissioning_log_exhausted_witness :
  match (home_run new_commissioning long_house).1 with
  | Ok (Wf_Terminal o) => mo_phase o = Mph_RepairRequired
  | _ => False
  end /\
  forall o value, (home_run new_commissioning long_house).1 <> Ok (Wf_Completed o value).
Proof.
  split; [vm_compute; reflexivity|]. intros o value. apply commissioning_log_exhausted.
  - apply log_full_checked. vm_compute. reflexivity.
  - intros row Hrow.
    assert (md_operations (home_db long_house) !! "home-18"%string = Some
      (mk_operation_row "home" "home"
         (mk_operation "home-18" Mk_CommissionNode (Mt_Fabric "home") Mph_Requested 1 now0 now0))) as Hr
      by (vm_compute; reflexivity).
    rewrite Hr in Hrow. injection Hrow as <-. by split.
Defined.
