(* ===== verification/ShellyProtocol.v ===== *)
(** What the Shelly adapter exchanges with a device,
    [crates/homemagic-shelly/src]: digest authentication (auth.rs), status and event
    notifications, the status cache of a session and the replay filter of its events
    (notification.rs). *)

From S2P Require Import Prelude Text Float BTree Json Capability.

(** ** Library code *)

(** Header values of the HTTP library: a value made of text reads back as it. *)
Class HttpHeaders := {
  HeaderValue : Type;
  header_from_str : string -> option HeaderValue;
  header_to_str : HeaderValue -> option string;
  header_roundtrip : forall text value, header_from_str text = Some value -> header_to_str value = Some text
}.

(** The numbers of the JSON library as the adapter uses them, and the encoding
    of a map. *)
Class ShellyJson `{SerdeJson} := {
  number_as_f64 : Number -> option F64;
  number_from_f64 : F64 -> option Number;
  number_from_u32 : N -> Number;
  map_to_string : list (string * Json) -> option string
}.

(** ** Rust text *)

(** [str::split_once(char)]. *)
Fixpoint split_once (sep : ascii) (s : string) : option (string * string) :=
  match s with
  | EmptyString => None
  | String a s =>
      if Ascii.eqb a sep then Some (EmptyString, s)
      else '(before, after) ← split_once sep s; Some (String a before, after)
  end.

Fixpoint trim_start_char (c : ascii) (s : string) : string :=
  match s with
  | String a rest => if Ascii.eqb a c then trim_start_char c rest else s
  | EmptyString => EmptyString
  end.

Fixpoint trim_end_char (c : ascii) (s : string) : string :=
  match s with
  | EmptyString => EmptyString
  | String a rest =>
      match trim_end_char c rest with
      | EmptyString => if Ascii.eqb a c then EmptyString else String a EmptyString
      | rest => String a rest
      end
  end.

(** [str::trim_matches(char)]. *)
Definition trim_matches (c : ascii) (s : string) : string := trim_end_char c (trim_start_char c s).

Definition eq_ignore_ascii_case (a b : string) : bool :=
  String.eqb (to_ascii_lowercase a) (to_ascii_lowercase b).

(** [str::from_utf8]: the well-formed byte sequences of Unicode. *)
Definition between (low high b : N) : bool := (N.leb low b && N.leb b high)%bool.

Fixpoint utf8_valid (bs : list N) : bool :=
  match bs with
  | [] => true
  | b :: rest =>
      if N.ltb b 128 then utf8_valid rest
      else match rest with
           | c :: rest =>
               if between 194 223 b then between 128 191 c && utf8_valid rest
               else match rest with
                    | d :: rest =>
                        if between 224 239 b then
                          between (if N.eqb b 224 then 160 else 128) (if N.eqb b 237 then 159 else 191) c
                          && between 128 191 d && utf8_valid rest
                        else match rest with
                             | e :: rest =>
                                 between 240 244 b
                                 && between (if N.eqb b 240 then 144 else 128) (if N.eqb b 244 then 143 else 191) c
                                 && between 128 191 d && between 128 191 e && utf8_valid rest
                             | [] => false
                             end
                    | [] => false
                    end
           | [] => false
           end
  end.

Definition string_of_bytes (bs : list N) : string :=
  String.string_of_list_ascii (map ascii_of_N bs).

Definition from_utf8 (bs : list N) : option string :=
  if utf8_valid bs then Some (string_of_bytes bs) else None.

(** [{value:08x}]. *)
Definition show_hex8 (value : N) : string :=
  hex [N.shiftr value 24; N.land (N.shiftr value 16) 255; N.land (N.shiftr value 8) 255;
       N.land value 255].

(** ** Digest authentication *)

Definition USERNAME : string := "admin".
Definition ALGORITHM : string := "SHA-256".
Definition QOP : string := "auth".

Inductive DigestError :=
| Dge_Missing | Dge_UnsupportedScheme | Dge_Malformed | Dge_UnsupportedAlgorithm
| Dge_UnsupportedQop | Dge_InvalidCredential | Dge_InvalidHeader.
#[export] Instance DigestError_eq_dec : EqDecision DigestError.
Proof. solve_decision. Defined.

Module DigestError.
Definition code (self : DigestError) : string :=
  match self with
  | Dge_Missing => "challenge_missing"
  | Dge_UnsupportedScheme => "unsupported_scheme"
  | Dge_Malformed => "challenge_malformed"
  | Dge_UnsupportedAlgorithm => "unsupported_algorithm"
  | Dge_UnsupportedQop => "unsupported_qop"
  | Dge_InvalidCredential => "invalid_credential"
  | Dge_InvalidHeader => "invalid_header"
  end.
End DigestError.

(** The double quote and a text between two of them. *)
Definition quote : ascii := "034".
Definition quoted (text : string) : string := String quote text +:+ String quote EmptyString.

(** The parameters between commas outside quotes; [None] when a quote is left
    open. *)
Fixpoint split_quoted (inside : bool) (s : string) : option (list string) :=
  match s with
  | EmptyString => if inside then None else Some [EmptyString]
  | String a s =>
      let inside := if Ascii.eqb a quote then negb inside else inside in
      pieces ← split_quoted inside s;
      if Ascii.eqb a "," && negb inside then Some (EmptyString :: pieces)
      else Some (match pieces with
                 | piece :: pieces => String a piece :: pieces
                 | [] => [String a EmptyString]
                 end)
  end.

Definition split_parameters (value : string) : result (list string) DigestError :=
  ok_or (map trim <$> split_quoted false value) Dge_Malformed.

(** The locals of the loop of [DigestChallenge::parse]. *)
Record ChallengeFields := mk_fields {
  cf_realm : option string;
  cf_nonce : option string;
  cf_algorithm : option string;
  cf_qop : option string;
  cf_stale : bool
}.

(** One parameter: a later one replaces an earlier one. *)
Definition read_parameter (fields : ChallengeFields) (parameter : string) :
  result ChallengeFields DigestError :=
  let '(mk_fields realm nonce algorithm qop stale) := fields in
  let? (key, value) := ok_or (split_once "=" parameter) Dge_Malformed in
  let value := trim_matches quote (trim value) in
  let key := to_ascii_lowercase (trim key) in
  Ok (if String.eqb key "realm" then mk_fields (Some value) nonce algorithm qop stale
      else if String.eqb key "nonce" then mk_fields realm (Some value) algorithm qop stale
      else if String.eqb key "algorithm" then mk_fields realm nonce (Some value) qop stale
      else if String.eqb key "qop" then mk_fields realm nonce algorithm (Some value) stale
      else if String.eqb key "stale"
      then mk_fields realm nonce algorithm qop (eq_ignore_ascii_case value "true")
      else fields).

Definition is_some_and {A : Type} (f : A -> bool) (o : option A) : bool :=
  match o with Some a => f a | None => false end.

Definition non_empty (o : option string) : option string :=
  value ← o; if String.eqb value EmptyString then None else Some value.

Section Protocol.
Context `{HttpHeaders} `{ShellyJson} `{Sha256}.

Record DigestChallenge := mk_challenge {
  dg_realm : string;
  dg_nonce : string;
  dg_rpc_nonce : Json;
  dg_stale : bool
}.

Definition challenge_of (fields : ChallengeFields) : result DigestChallenge DigestError :=
  guard? is_some_and (fun value => eq_ignore_ascii_case value ALGORITHM) (cf_algorithm fields)
    else Dge_UnsupportedAlgorithm in
  guard? is_some_and (fun value => existsb (fun item => String.eqb (trim item) QOP) (split_on "," value))
           (cf_qop fields) else Dge_UnsupportedQop in
  let? realm := ok_or (non_empty (cf_realm fields)) Dge_Malformed in
  let? nonce := ok_or (non_empty (cf_nonce fields)) Dge_Malformed in
  Ok (mk_challenge realm nonce (JString nonce) (cf_stale fields)).

Definition parse (value : option HeaderValue) : result DigestChallenge DigestError :=
  let? value := ok_or value Dge_Missing in
  let? value := ok_or (header_to_str value) Dge_Malformed in
  let? parameters := ok_or (strip_prefix "Digest " value) Dge_UnsupportedScheme in
  let? parameters := split_parameters parameters in
  let? fields := try_fold read_parameter (mk_fields None None None None false) parameters in
  challenge_of fields.

(** The fields an RPC error message decodes to. *)
Record RpcChallenge := mk_rpc_challenge {
  rc_auth_type : string;
  rc_nonce : Json;
  rc_realm : string;
  rc_algorithm : string;
  rc_stale : bool
}.

(** [from_rpc_message] after the decoding of its message. *)
Definition from_rpc_challenge (message : option RpcChallenge) : result DigestChallenge DigestError :=
  let? challenge := ok_or message Dge_Malformed in
  guard? String.eqb (rc_auth_type challenge) "digest" else Dge_UnsupportedScheme in
  guard? eq_ignore_ascii_case (rc_algorithm challenge) ALGORITHM else Dge_UnsupportedAlgorithm in
  guard? negb (String.eqb (rc_realm challenge) EmptyString) else Dge_Malformed in
  let? nonce := match rc_nonce challenge with
                | JString value => if String.eqb value EmptyString then Err Dge_Malformed else Ok value
                | JNumber value => Ok (number_to_string value)
                | _ => Err Dge_Malformed
                end in
  Ok (mk_challenge (rc_realm challenge) nonce (rc_nonce challenge) (rc_stale challenge)).

Definition sha256_hex (value : string) : string := hex (sha256 (bytes value)).

(** The digest response to a challenge. *)
Definition digest_response (self : DigestChallenge) (password nonce_count : string)
  (client_nonce : N) (ha2 : string) : string :=
  let ha1 := sha256_hex (USERNAME +:+ ":" +:+ dg_realm self +:+ ":" +:+ password) in
  sha256_hex (ha1 +:+ ":" +:+ dg_nonce self +:+ ":" +:+ nonce_count +:+ ":" +:+ show_N client_nonce
              +:+ ":" +:+ QOP +:+ ":" +:+ ha2).

(** The text of the header. *)
Definition authorization_text (self : DigestChallenge) (password method uri : string)
  (nonce_count client_nonce : N) : string :=
  let nonce_count := show_hex8 nonce_count in
  let response := digest_response self password nonce_count client_nonce
                    (sha256_hex (method +:+ ":" +:+ uri)) in
  "Digest username=" +:+ quoted USERNAME +:+ ", realm=" +:+ quoted (dg_realm self)
  +:+ ", nonce=" +:+ quoted (dg_nonce self) +:+ ", uri=" +:+ quoted uri
  +:+ ", algorithm=" +:+ ALGORITHM +:+ ", response=" +:+ quoted response
  +:+ ", qop=" +:+ QOP +:+ ", nc=" +:+ nonce_count +:+ ", cnonce=" +:+ quoted (show_N client_nonce).

Definition authorization (self : DigestChallenge) (password : list N) (method uri : string)
  (nonce_count client_nonce : N) : result HeaderValue DigestError :=
  let? password := ok_or (from_utf8 password) Dge_InvalidCredential in
  ok_or (header_from_str (authorization_text self password method uri nonce_count client_nonce))
    Dge_InvalidHeader.

Definition rpc_authorization (self : DigestChallenge) (password : list N)
  (nonce_count client_nonce : N) : result Json DigestError :=
  let? password := ok_or (from_utf8 password) Dge_InvalidCredential in
  let nonce_count := show_hex8 nonce_count in
  let response := digest_response self password nonce_count client_nonce
                    (sha256_hex "dummy_method:dummy_uri") in
  Ok (JObject (bcollect
    [("realm"%string, JString (dg_realm self)); ("username"%string, JString USERNAME);
     ("nonce"%string, dg_rpc_nonce self); ("cnonce"%string, JNumber (number_from_u32 client_nonce));
     ("nc"%string, JString nonce_count); ("response"%string, JString response);
     ("algorithm"%string, JString ALGORITHM)])).
End Protocol.

(** ** Notifications *)

Definition DEFAULT_EVENT_WINDOW : nat := 256.

(** [Map::remove]. *)
Fixpoint bremove {V : Type} (k : string) (m : list (string * V)) : list (string * V) :=
  match m with
  | [] => []
  | (k', v) :: m => if String.eqb k k' then m else (k', v) :: bremove k m
  end.

Inductive NotificationError :=
| Nfe_InvalidJson | Nfe_InvalidEnvelope | Nfe_UnsupportedMethod | Nfe_InvalidStatus | Nfe_InvalidEvent.
#[export] Instance NotificationError_eq_dec : EqDecision NotificationError.
Proof. solve_decision. Defined.

Section Notifications.
Context `{ShellyJson}.

Definition as_object (value : Json) : option (list (string * Json)) :=
  match value with JObject fields => Some fields | _ => None end.
Definition as_str (value : Json) : option string :=
  match value with JString text => Some text | _ => None end.
Definition as_bool (value : Json) : option bool :=
  match value with JBool b => Some b | _ => None end.
Definition as_array (value : Json) : option (list Json) :=
  match value with JArray values => Some values | _ => None end.
Definition as_i64 (value : Json) : option Z :=
  match value with JNumber n => number_as_i64 n | _ => None end.
Definition as_f64 (value : Json) : option F64 :=
  match value with JNumber n => number_as_f64 n | _ => None end.
Definition is_null (value : Json) : bool := match value with JNull => true | _ => false end.

Record StatusNotification := mk_status {
  sn_timestamp : F64;
  sn_full : bool;
  sn_components : list (string * Json)
}.

Record ShellyEvent := mk_shelly_event {
  se_component : string;
  se_event : string;
  se_timestamp : F64;
  se_data : list (string * Json)
}.

Inductive NotificationFrame :=
| Nf_Status (status : StatusNotification)
| Nf_Events (events : list ShellyEvent).

(** The RPC envelope a frame decodes to. *)
Record Envelope := mk_rpc_envelope {
  en_src : string;
  en_dst : string;
  en_method : string;
  en_params : Json
}.

Definition finite_timestamp (value : option Json) : option F64 :=
  bits ← value ≫= as_f64; if f64_is_finite (f64_of_bits bits) then Some bits else None.

Definition parse_status (params : Json) (full : bool) : result NotificationFrame NotificationError :=
  let? params := ok_or (as_object params) Nfe_InvalidStatus in
  let? timestamp := ok_or (finite_timestamp (bget "ts" params)) Nfe_InvalidStatus in
  let params := bremove "ts" params in
  guard? forallb (fun kv => bool_decide (is_Some (as_object kv.2))) params else Nfe_InvalidStatus in
  Ok (Nf_Status (mk_status timestamp full params)).

(** [take_string] removes a non-empty text. *)
Definition take_string (object : list (string * Json)) (key : string) :
  result (string * list (string * Json)) NotificationError :=
  let? text := ok_or (non_empty (bget key object ≫= as_str)) Nfe_InvalidEvent in
  Ok (text, bremove key object).

Definition parse_event (event : Json) : result ShellyEvent NotificationError :=
  let? event := ok_or (as_object event) Nfe_InvalidEvent in
  let? (component, event) := take_string event "component" in
  let? (name, event) := take_string event "event" in
  let? timestamp := ok_or (finite_timestamp (bget "ts" event)) Nfe_InvalidEvent in
  Ok (mk_shelly_event component name timestamp (bremove "ts" event)).

(** [collect::<Result<Vec<_>, _>>]. *)
Fixpoint collect_results {A B E : Type} (f : A -> result B E) (l : list A) : result (list B) E :=
  match l with
  | [] => Ok []
  | a :: l => let? b := f a in let? bs := collect_results f l in Ok (b :: bs)
  end.

Definition parse_events (params : Json) : result NotificationFrame NotificationError :=
  let? params := ok_or (as_object params) Nfe_InvalidEvent in
  let? events := ok_or (bget "events" params) Nfe_InvalidEvent in
  let? events := ok_or (as_array events) Nfe_InvalidEvent in
  let? events := collect_results parse_event events in
  Ok (Nf_Events events).

(** [parse_notification] after the decoding of the frame. *)
Definition parse_notification (frame : option Envelope) : result NotificationFrame NotificationError :=
  let? envelope := ok_or frame Nfe_InvalidJson in
  guard? negb (trim_is_empty (en_src envelope) || trim_is_empty (en_dst envelope))
    else Nfe_InvalidEnvelope in
  if String.eqb (en_method envelope) "NotifyStatus" then parse_status (en_params envelope) false
  else if String.eqb (en_method envelope) "NotifyFullStatus" then parse_status (en_params envelope) true
  else if String.eqb (en_method envelope) "NotifyEvent" then parse_events (en_params envelope)
  else Err Nfe_UnsupportedMethod.

(** ** The status cache *)

Record StatusApply := mk_apply {
  sa_changed_components : list string;
  sa_changed_fields : list (string * list string);
  sa_requires_refresh : bool
}.

Record StatusCache := mk_cache {
  sc_components : list (string * Json);
  sc_last_timestamp : option F64
}.

Definition empty_cache : StatusCache := mk_cache [] None.

(** [merge_value(&mut current, patch)] is the value it leaves. *)
Fixpoint merge_value (current patch : Json) {struct patch} : Json :=
  match patch with
  | JObject patch =>
      match current with
      | JObject current =>
          JObject
            ((fix go (patch current : list (string * Json)) : list (string * Json) :=
                match patch with
                | [] => current
                | (key, value) :: patch =>
                    go patch
                      (if is_null value then bremove key current
                       else match bget key current with
                            | Some existing => binsert key (merge_value existing value) current
                            | None => binsert key value current
                            end)
                end) patch current)
      | _ => JObject patch
      end
  | _ => patch
  end.

Definition merge_component (components : list (string * Json)) (component : string * Json) :
  list (string * Json) :=
  let '(component, patch) := component in
  match bget component components with
  | Some current => binsert component (merge_value current patch) components
  | None => binsert component patch components
  end.

(** The keys of two maps in the order of a [BTreeSet]. *)
Definition union_keys {V W : Type} (a : list (string * V)) (b : list (string * W)) : list string :=
  bkeys (bcollect (map (fun k => (k, tt)) (bkeys a ++ bkeys b))).

Definition changed_top_level_fields (before after : option Json) : list string :=
  let fields (value : option Json) := match value ≫= as_object with Some fields => fields | None => [] end in
  List.filter (fun key => negb (bool_decide (bget key (fields before) = bget key (fields after))))
    (union_keys (fields before) (fields after)).

(** The fields that differ, for every component that has one. *)
Definition changed_fields (before after : list (string * Json)) : list (string * list string) :=
  omap (fun component =>
    match changed_top_level_fields (bget component before) (bget component after) with
    | [] => None
    | fields => Some (component, fields)
    end) (union_keys before after).

End Notifications.

Module StatusCache.
Section StatusCache.
Context `{ShellyJson}.

Definition apply (self : StatusCache) (notification : StatusNotification) : StatusApply * StatusCache :=
  if is_some_and (fun accepted => f64_ltb (f64_of_bits (sn_timestamp notification)) (f64_of_bits accepted))
       (sc_last_timestamp self)
  then (mk_apply [] [] true, self)
  else
    let before := sc_components self in
    let components :=
      if sn_full notification then sn_components notification
      else fold_left merge_component (sn_components notification) before in
    let changed := changed_fields before components in
    (mk_apply (map fst changed) changed false, mk_cache components (Some (sn_timestamp notification))).
End StatusCache.
End StatusCache.

(** ** The replay filter *)

Record EventDeduplicator := mk_dedup {
  dd_capacity : nat;
  dd_order : list string;
  dd_fingerprints : gset string
}.

Definition event_fingerprint `{ShellyJson} (event : ShellyEvent) : string :=
  let data := match map_to_string (se_data event) with Some text => text | None => EmptyString end in
  se_component event +:+ ":" +:+ se_event event +:+ ":"
  +:+ show_f64 (f64_of_bits (se_timestamp event)) +:+ ":" +:+ data.

(** The [while] loop that expires the oldest fingerprints. *)
Fixpoint expire (capacity : nat) (order : list string) (fingerprints : gset string) :
  list string * gset string :=
  match order with
  | [] => ([], fingerprints)
  | expired :: rest =>
      if capacity <? length order then expire capacity rest (fingerprints ∖ {[expired]})
      else (order, fingerprints)
  end.

Module EventDeduplicator.
Section EventDeduplicator.
Context `{ShellyJson}.

Definition new (capacity : nat) : EventDeduplicator := mk_dedup (Nat.max capacity 1) [] ∅.

Definition default : EventDeduplicator := new DEFAULT_EVENT_WINDOW.

Definition accept (self : EventDeduplicator) (event : ShellyEvent) : bool * EventDeduplicator :=
  let fingerprint := event_fingerprint event in
  if bool_decide (fingerprint ∈ dd_fingerprints self) then (false, self)
  else
    let '(order, fingerprints) :=
      expire (dd_capacity self) (dd_order self ++ [fingerprint]) ({[fingerprint]} ∪ dd_fingerprints self) in
    (true, mk_dedup (dd_capacity self) order fingerprints).

(** The filter of a frame's events. *)
Fixpoint accept_all (self : EventDeduplicator) (events : list ShellyEvent) :
  list ShellyEvent * EventDeduplicator :=
  match events with
  | [] => ([], self)
  | event :: events =>
      let '(new, self) := accept self event in
      let '(accepted, self) := accept_all self events in
      (if new then event :: accepted else accepted, self)
  end.
End EventDeduplicator.
End EventDeduplicator.
