(* ===== verification/ShellyScanner.v ===== *)
(** Discovery and refresh of Shelly devices,
    [crates/homemagic-shelly/src/lib.rs]: the services a browse resolves, the
    authenticated reads of a device as programs over the requests they send, and
    the projection of its status onto capabilities.  The file starts with the
    network addresses of the Rust standard library. *)

From S2P Require Import Prelude Text BTree Json Capability Lifecycle Device Command CommandStore Identity Effects MatterAdministration ShellyProtocol.

(** ** Network addresses *)

Inductive IpAddr :=
| V4 (a b c d : N)
| V6 (segments : list N).
#[export] Instance IpAddr_eq_dec : EqDecision IpAddr.
Proof. solve_decision. Defined.

Fixpoint join (separator : string) (texts : list string) : string :=
  match texts with
  | [] => EmptyString
  | [text] => text
  | text :: texts => text +:+ separator +:+ join separator texts
  end.

Fixpoint trim_start_zeros (s : string) : string :=
  match s with
  | String a ((String _ _) as rest) => if Ascii.eqb a "0" then trim_start_zeros rest else s
  | _ => s
  end.

(** [{:x}] of a [u16]. *)
Definition show_hex (n : N) : string := trim_start_zeros (hex [N.shiftr n 8; N.land n 255]).

Definition show_v4 (a b c d : N) : string := join "." (map show_N [a; b; c; d]).

(** The length of the run of zeros at the head. *)
Fixpoint zero_run (segments : list N) : nat :=
  match segments with 0%N :: segments => S (zero_run segments) | _ => 0 end.

(** Start and length of the first longest run of zeros. *)
Fixpoint longest_zero_run (start : nat) (segments : list N) : nat * nat :=
  match segments with
  | [] => (start, 0)
  | _ :: rest =>
      let '(later, length) := longest_zero_run (S start) rest in
      if length <=? zero_run segments then (start, zero_run segments) else (later, length)
  end.

(** [Display]. *)
Definition show_ip (address : IpAddr) : string :=
  match address with
  | V4 a b c d => show_v4 a b c d
  | V6 [0; 0; 0; 0; 0; 65535; x; y]%N =>
      "::ffff:" +:+ show_v4 (N.shiftr x 8) (N.land x 255) (N.shiftr y 8) (N.land y 255)
  | V6 segments =>
      let '(start, length) := longest_zero_run 0 segments in
      if 1 <? length
      then join ":" (map show_hex (take start segments)) +:+ "::"
           +:+ join ":" (map show_hex (drop (start + length) segments))
      else join ":" (map show_hex segments)
  end.

Definition is_ipv4 (address : IpAddr) : bool :=
  match address with V4 _ _ _ _ => true | V6 _ => false end.

(** [SocketAddr]'s [Display]. *)
Definition show_socket (address : IpAddr) (port : N) : string :=
  match address with
  | V4 _ _ _ _ => show_ip address +:+ ":" +:+ show_N port
  | V6 _ => "[" +:+ show_ip address +:+ "]:" +:+ show_N port
  end.

(** The [Ord] of [IpAddr] and [DiscoveredShelly], on the numbers they hold. *)
Definition ip_key (address : IpAddr) : list N :=
  match address with V4 a b c d => [0; a; b; c; d]%N | V6 segments => 1%N :: segments end.

Fixpoint key_ltb (a b : list N) : bool :=
  match a, b with
  | [], [] => false
  | [], _ => true
  | _, [] => false
  | x :: a, y :: b => N.ltb x y || (N.eqb x y && key_ltb a b)
  end.

(** ** Reading an address *)

(** [char::to_digit]. *)
Definition to_digit (radix b : N) : option N :=
  let digit := if is_ascii_digit b then (b - 48)%N
               else if (N.leb 97 b && N.leb b 102)%bool then (b - 87)%N
               else if (N.leb 65 b && N.leb b 70)%bool then (b - 55)%N else 16%N in
  if N.ltb digit radix then Some digit else None.

Fixpoint read_digits (radix value : N) (count : nat) (bs : list N) : N * nat * list N :=
  match bs with
  | [] => (value, count, [])
  | b :: rest =>
      match to_digit radix b with
      | Some digit => read_digits radix (value * radix + digit) (S count) rest
      | None => (value, count, bs)
      end
  end.

(** The parser's [read_number]: between one digit and [max_digits], no more than
    [maximum], and a leading zero only where it is allowed. *)
Definition read_number (radix maximum : N) (max_digits : nat) (zero_prefix : bool) (bs : list N) :
  option (N * list N) :=
  let '(value, count, rest) := read_digits radix 0 0 bs in
  let leading_zero := match bs with 48%N :: _ => true | _ => false end in
  if (count =? 0) || (max_digits <? count) || (negb zero_prefix && leading_zero && (1 <? count))
     || N.ltb maximum value
  then None else Some (value, rest).

Definition read_char (c : N) (bs : list N) : option (list N) :=
  match bs with b :: rest => if N.eqb b c then Some rest else None | [] => None end.

Definition read_v4 (bs : list N) : option (N * N * N * N * list N) :=
  let octet := read_number 10 255 3 false in
  '(a, bs) ← octet bs; bs ← read_char 46 bs;
  '(b, bs) ← octet bs; bs ← read_char 46 bs;
  '(c, bs) ← octet bs; bs ← read_char 46 bs;
  '(d, bs) ← octet bs; Some (a, b, c, d, bs).

(** Groups of hexadecimal digits, [left] at most; an address with dots may take the
    last two, which ends them. *)
Fixpoint read_groups (left : nat) (first : bool) (bs : list N) : list N * bool * list N :=
  match left with
  | O => ([], false, bs)
  | S left' =>
      match (if first then Some bs else read_char 58 bs) with
      | None => ([], false, bs)
      | Some after =>
          match (if 1 <? left then read_v4 after else None) with
          | Some (a, b, c, d, rest) => ([a * 256 + b; c * 256 + d]%N, true, rest)
          | None =>
              match read_number 16 65535 4 true after with
              | None => ([], false, bs)
              | Some (group, rest) =>
                  let '(groups, dotted, rest) := read_groups left' false rest in
                  (group :: groups, dotted, rest)
              end
          end
      end
  end.

Definition read_v6 (bs : list N) : option (list N * list N) :=
  let '(front, dotted, bs) := read_groups 8 true bs in
  if length front =? 8 then Some (front, bs)
  else if dotted then None
  else
    bs ← read_char 58 bs; bs ← read_char 58 bs;
    let '(back, _, bs) := read_groups (8 - (length front + 1)) true bs in
    Some (front ++ replicate (8 - length front - length back) 0%N ++ back, bs).

(** [str::parse::<IpAddr>]. *)
Definition parse_ip (text : string) : option IpAddr :=
  let bs := bytes text in
  match (match read_v4 bs with
         | Some (a, b, c, d, rest) => Some (V4 a b c d, rest)
         | None => '(segments, rest) ← read_v6 bs; Some (V6 segments, rest)
         end) with
  | Some (address, []) => Some address
  | _ => None
  end.

Example addresses_read :
  map parse_ip ["192.168.1.20"; "192.168.01.2"; "::1"; "fe80::2:3:4:5"; "2001:db8::1:0:0:1"; "::ffff:192.168.1.20";
                "1:2:3:4:5:6:7:8"; "1::2::3"; "12345::"; "::"; "host"; "1.2.3.4 "]%string =
  [Some (V4 192 168 1 20); None; Some (V6 [0; 0; 0; 0; 0; 0; 0; 1]);
   Some (V6 [65152; 0; 0; 0; 2; 3; 4; 5]); Some (V6 [8193; 3512; 0; 0; 1; 0; 0; 1]);
   Some (V6 [0; 0; 0; 0; 0; 65535; 49320; 276]); Some (V6 [1; 2; 3; 4; 5; 6; 7; 8]); None; None;
   Some (V6 [0; 0; 0; 0; 0; 0; 0; 0]); None; None]%N.
Proof. vm_compute. reflexivity. Qed.

(** ** Discovered services *)

Record DiscoveredShelly := mk_discovered {
  sd_address : IpAddr;
  sd_port : N
}.
#[export] Instance DiscoveredShelly_eq_dec : EqDecision DiscoveredShelly.
Proof. solve_decision. Defined.

Definition target_key (target : DiscoveredShelly) : list N :=
  ip_key (sd_address target) ++ [sd_port target].

(** [BTreeSet::insert]. *)
Fixpoint target_insert (target : DiscoveredShelly) (set : list DiscoveredShelly) : list DiscoveredShelly :=
  match set with
  | [] => [target]
  | other :: rest =>
      if bool_decide (target = other) then set
      else if key_ltb (target_key target) (target_key other) then target :: set
      else other :: target_insert target rest
  end.

(** A service the mDNS library resolved: its name, port, addresses and the
    property [gen]. *)
Record ResolvedService := mk_service_info {
  rv_fullname : string;
  rv_port : N;
  rv_addresses : list IpAddr;
  rv_gen : option string
}.

Definition is_shelly_http_service (info : ResolvedService) : bool :=
  match rv_gen info with
  | Some gen => String.eqb gen "2" || String.eqb gen "3" || String.eqb gen "4"
  | None => false
  end
  || starts_with "shelly" (to_ascii_lowercase (rv_fullname info)).

(** The services one browse resolves before its window ends. *)
Definition discover_service (filter_shelly : bool) (resolved : list ResolvedService) :
  list DiscoveredShelly :=
  fold_left (fun discovered info =>
    if filter_shelly && negb (is_shelly_http_service info) then discovered
    else fold_left (fun discovered address =>
           target_insert (mk_discovered address (rv_port info)) discovered) (rv_addresses info) discovered)
    resolved [].

Definition prefer_ipv4 (discovered : list DiscoveredShelly) : list DiscoveredShelly :=
  match List.filter (fun target => is_ipv4 (sd_address target)) discovered with
  | [] => discovered
  | ipv4 => ipv4
  end.

(** The browse for HTTP services runs when no Shelly service resolved. *)
Definition discover_blocking (shelly http : list ResolvedService) : list DiscoveredShelly :=
  match discover_service false shelly with
  | [] => prefer_ipv4 (discover_service true http)
  | shelly => prefer_ipv4 shelly
  end.

Definition rpc_url (target : DiscoveredShelly) (method : string) : string :=
  "http://" +:+ show_socket (sd_address target) (sd_port target) +:+ "/rpc/" +:+ method.

Example urls :
  (rpc_url (mk_discovered (V4 192 168 1 20) 80) "Shelly.GetStatus",
   map show_ip [V6 [8193; 3512; 0; 0; 1; 0; 0; 1]%N; V6 [0; 0; 0; 0; 0; 0; 0; 1]%N;
                V6 [0; 0; 0; 0; 0; 65535; 49320; 276]%N; V6 [65152; 0; 0; 0; 2; 3; 4; 5]%N]) =
  ("http://192.168.1.20:80/rpc/Shelly.GetStatus",
   ["2001:db8::1:0:0:1"; "::1"; "::ffff:192.168.1.20"; "fe80::2:3:4:5"])%string.
Proof. vm_compute. reflexivity. Qed.

(** ** Projection of a status *)

Section Projection.
Context `{ShellyJson} `{Uuids}.

Record ShellyDeviceInfo := mk_info {
  si_id : string;
  si_mac : string;
  si_model : string;
  si_generation : N;
  si_fw_id : option string;
  si_ver : option string;
  si_app : option string;
  si_profile : option string;
  si_auth_en : bool;
  si_auth_domain : option string
}.

Definition json_option (text : option string) : Json :=
  match text with Some text => JString text | None => JNull end.

(** The derived [Serialize]. *)
Definition info_to_value (info : ShellyDeviceInfo) : Json :=
  JObject (bcollect
    [("id"%string, JString (si_id info)); ("mac"%string, JString (si_mac info));
     ("model"%string, JString (si_model info));
     ("gen"%string, JNumber (number_from_u32 (si_generation info)));
     ("fw_id"%string, json_option (si_fw_id info)); ("ver"%string, json_option (si_ver info));
     ("app"%string, json_option (si_app info)); ("profile"%string, json_option (si_profile info));
     ("auth_en"%string, JBool (si_auth_en info));
     ("auth_domain"%string, json_option (si_auth_domain info))]).

Abbreviation Component := (list (string * Json)) (only parsing).

Definition boolean (component : Component) (key : string) : option bool :=
  bget key component ≫= as_bool.
Definition number (component : Component) (key : string) : option F64 :=
  bget key component ≫= as_f64.
Definition string_of (component : Component) (key : string) : option string :=
  bget key component ≫= as_str.

Definition append_power_and_energy (component : Component) (capabilities : list CapabilitySnapshot) :
  list CapabilitySnapshot :=
  let watts := number component "apower" in
  let volts := number component "voltage" in
  let amperes := number component "current" in
  let capabilities :=
    if bool_decide (is_Some watts) || bool_decide (is_Some volts) || bool_decide (is_Some amperes)
    then capabilities ++ [Snapshot_Power watts volts amperes] else capabilities in
  match energy ← bget "aenergy" component ≫= as_object; number energy "total" with
  | Some watt_hours => capabilities ++ [Snapshot_Energy watt_hours]
  | None => capabilities
  end.

Definition project_switch (component : Component) : list CapabilitySnapshot :=
  append_power_and_energy component
    (match boolean component "output" with
     | Some on => [Snapshot_OnOff on Risk_Comfort]
     | None => []
     end).

Definition project_light (component : Component) : list CapabilitySnapshot :=
  let capabilities := project_switch component in
  match number component "brightness" with
  | Some percent => capabilities ++ [Snapshot_Level percent Risk_Comfort]
  | None => capabilities
  end.

Definition project_cover (component : Component) : list CapabilitySnapshot :=
  append_power_and_energy component
    [Snapshot_Position (number component "current_pos") (string_of component "state") Risk_Mechanical].

Definition project_component (entry : string * Json) : option EndpointSnapshot :=
  let '(key, value) := entry in
  '(kind, _) ← split_once ":" key;
  component ← as_object value;
  capabilities ←
    (if String.eqb kind "switch" then Some (project_switch component)
     else if String.eqb kind "light" then Some (project_light component)
     else if String.eqb kind "cover" then Some (project_cover component)
     else None);
  Some (mk_endpoint key None capabilities).

Definition project_components (status : Component) : list EndpointSnapshot :=
  omap project_component status.

Definition device_name (config : Component) : option string :=
  sys ← bget "sys" config ≫= as_object;
  device ← bget "device" sys ≫= as_object;
  name ← bget "name" device ≫= as_str;
  if trim_is_empty name then None else Some name.

Definition project_snapshot (target : DiscoveredShelly) (integration_id : IntegrationId)
  (info : ShellyDeviceInfo) (status config : option Component) (now : Instant) : DeviceSnapshot :=
  let endpoints :=
    mk_endpoint "device" None [Snapshot_Availability true; Snapshot_Diagnostics (si_ver info) []]
    :: match status with Some status => project_components status | None => [] end in
  let vendor_data := binsert "shelly.device_info" (info_to_value info) [] in
  let vendor_data :=
    match status with
    | Some status => binsert "shelly.status" (JObject status) vendor_data
    | None => if si_auth_en info then binsert "shelly.authentication_required" (JBool true) vendor_data
              else vendor_data
    end in
  let name := match config ≫= device_name with Some name => name | None => si_id info end in
  let vendor_data :=
    match config with
    | Some config => binsert "shelly.config" (JObject config) vendor_data
    | None => vendor_data
    end in
  mk_snapshot (DeviceId.from_integration integration_id (si_id info)) (si_id info) "shelly" name
    "Shelly" (si_model info) [mk_network (show_ip (sd_address target)) (sd_port target)] endpoints now
    vendor_data.
End Projection.

(** ** Reading a device *)

(** A response of the HTTP library: its status, the challenge header and the body,
    which may fail to arrive. *)
Record Response `{HttpHeaders} := mk_response {
  rs_status : N;
  rs_www_authenticate : option HeaderValue;
  rs_body : option string
}.

Definition UNAUTHORIZED : N := 401.
Definition is_unauthorized `{HttpHeaders} (response : Response) : bool :=
  N.eqb (rs_status response) UNAUTHORIZED.
Definition is_success `{HttpHeaders} (response : Response) : bool :=
  N.leb 200 (rs_status response) && N.ltb (rs_status response) 300.

(** What the JSON and URL libraries make of a text. *)
Class ShellyDecoding `{SerdeJson} := {
  info_from_str : string -> option ShellyDeviceInfo;
  map_from_str : string -> option (list (string * Json));
  url_path : string -> option string
}.

Inductive ShellyError :=
| She_Discovery | She_DiscoveryWorker
| She_Http (url : string)
| She_CredentialsMissing (host : string)
| She_CredentialsRejected (host : string)
| She_AuthenticationProtocol (host code : string)
| She_HttpStatus (host : string) (status : N).
#[export] Instance ShellyError_eq_dec : EqDecision ShellyError.
Proof. solve_decision. Defined.

(** Secret material is its bytes. *)
Abbreviation SecretValue := (list N) (only parsing).

Section Scanner.
Context `{HttpHeaders} `{ShellyJson} `{Sha256} `{Uuids} `{!ShellyDecoding}.

Inductive ScanOp :=
| Sh_send (url : string) (authorization : option HeaderValue)
| Sh_secret (reference : SecretRef)
| Sh_random
| Sh_now.

Definition scan_resp (op : ScanOp) : Type :=
  match op with
  | Sh_send _ _ => result Response unit
  | Sh_secret _ => result SecretValue SecretStoreError
  | Sh_random => N
  | Sh_now => Instant
  end.

Abbreviation ScanProg A := (Prog scan_resp A).

Record ShellyScanner := mk_scanner {
  sc_installation_id : InstallationId;
  sc_integration_id : IntegrationId;
  sc_credential_ref : option SecretRef;
  sc_secret_store : bool
}.

Definition send (url : string) (authorization : option HeaderValue) :
  ScanProg (result Response ShellyError) :=
  let! response := perform (resp := scan_resp) (Sh_send url authorization) in
  Ret (map_err (fun _ => She_Http url) response).

Definition decode_response {T : Type} (decode : string -> option T) (url : string) (response : Response) :
  result T ShellyError :=
  guard? is_success response else She_HttpStatus url (rs_status response) in
  ok_or (body ← rs_body response; decode body) (She_Http url).

Definition get_json {T : Type} (decode : string -> option T) (url : string) :
  ScanProg (result T ShellyError) :=
  try! response := send url None in
  Ret (guard? negb (is_unauthorized response) else She_CredentialsMissing url in
       decode_response decode url response).

Definition protocol_error {A : Type} (url : string) (r : result A DigestError) : result A ShellyError :=
  map_err (fun error => She_AuthenticationProtocol url (DigestError.code error)) r.

(** The loop over the two attempts. *)
Fixpoint get_attempts {T : Type} (decode : string -> option T) (url uri : string) (password : SecretValue)
  (challenge : DigestChallenge) (attempts : list nat) : ScanProg (result T ShellyError) :=
  match attempts with
  | [] => Ret (Err (She_CredentialsRejected url))
  | attempt :: attempts =>
      let! client_nonce := perform (resp := scan_resp) Sh_random in
      try! header := Ret (protocol_error url (authorization challenge password "GET" uri 1 client_nonce)) in
      try! response := send url (Some header) in
      if negb (is_unauthorized response) then Ret (decode_response decode url response)
      else
        try! refreshed := Ret (protocol_error url (parse (rs_www_authenticate response))) in
        if (attempt =? 0) && dg_stale refreshed then get_attempts decode url uri password refreshed attempts
        else Ret (Err (She_CredentialsRejected url))
  end.

Definition get_json_maybe_authenticated {T : Type} (decode : string -> option T) (url : string)
  (credential : option SecretValue) : ScanProg (result T ShellyError) :=
  match credential with
  | None => get_json decode url
  | Some password =>
      try! uri := Ret (ok_or (url_path url) (She_AuthenticationProtocol url "invalid_url")) in
      try! response := send url None in
      if negb (is_unauthorized response) then Ret (decode_response decode url response)
      else
        try! challenge := Ret (protocol_error url (parse (rs_www_authenticate response))) in
        get_attempts decode url uri password challenge [0; 1]
  end.

(** The candidate of a device that could only be identified. *)
Definition authentication_candidate (self : ShellyScanner) (target : DiscoveredShelly)
  (info : ShellyDeviceInfo) (kind : RepairKind) (condition summary : string) :
  ScanProg (result DiscoveryCandidate ShellyError) :=
  let! now := perform (resp := scan_resp) Sh_now in
  let snapshot := project_snapshot target (sc_integration_id self) info None None now in
  let snapshot :=
    mk_snapshot (ds_id snapshot) (ds_native_id snapshot) (ds_integration snapshot) (ds_name snapshot)
      (ds_manufacturer snapshot) (ds_model snapshot) (ds_network snapshot) (ds_endpoints snapshot)
      (ds_observed_at snapshot)
      (binsert "shelly.authentication" (JObject [("status"%string, JString condition)])
         (ds_vendor_data snapshot)) in
  let repair := repair_for_device_condition (ds_id snapshot) condition kind summary
                  (ds_observed_at snapshot) in
  Ret (Ok (mk_candidate (sc_installation_id self) (sc_integration_id self) snapshot
             (ds_observed_at snapshot) [repair])).

Definition missing_credentials (self : ShellyScanner) (target : DiscoveredShelly) (info : ShellyDeviceInfo) :
  ScanProg (result DiscoveryCandidate ShellyError) :=
  authentication_candidate self target info CredentialsMissing "credentials_missing"
    "Configure Shelly credentials".

(** The status and the configuration decide the candidate. *)
Definition candidate_of (self : ShellyScanner) (target : DiscoveredShelly) (info : ShellyDeviceInfo)
  (status config : result (list (string * Json)) ShellyError) :
  ScanProg (result DiscoveryCandidate ShellyError) :=
  match status, config with
  | Ok status, Ok config =>
      let! now := perform (resp := scan_resp) Sh_now in
      let snapshot := project_snapshot target (sc_integration_id self) info (Some status) (Some config) now in
      Ret (Ok (mk_candidate (sc_installation_id self) (sc_integration_id self) snapshot
                 (ds_observed_at snapshot) []))
  | Err (She_CredentialsRejected _), _ | _, Err (She_CredentialsRejected _) =>
      authentication_candidate self target info CredentialsRejected "credentials_rejected"
        "Update the rejected Shelly credentials"
  | Err error, _ | _, Err error => Ret (Err error)
  end.

(** Both reads of the device; the program joins them, here the status comes
    first. *)
Definition read_device (self : ShellyScanner) (target : DiscoveredShelly) (info : ShellyDeviceInfo)
  (credential : option SecretValue) : ScanProg (result DiscoveryCandidate ShellyError) :=
  let! status := get_json_maybe_authenticated map_from_str (rpc_url target "Shelly.GetStatus") credential in
  let! config := get_json_maybe_authenticated map_from_str (rpc_url target "Shelly.GetConfig") credential in
  candidate_of self target info status config.

Definition fetch_candidate (self : ShellyScanner) (target : DiscoveredShelly) :
  ScanProg (result DiscoveryCandidate ShellyError) :=
  try! info := get_json info_from_str (rpc_url target "Shelly.GetDeviceInfo") in
  if si_auth_en info then
    match sc_credential_ref self, sc_secret_store self with
    | Some reference, true =>
        let! secret := perform (resp := scan_resp) (Sh_secret reference) in
        match secret with
        | Ok value => read_device self target info (Some value)
        | Err error =>
            if String.eqb (sse_code error) "not_found" then missing_credentials self target info
            else authentication_candidate self target info (SecretStoreUnavailable (sse_backend error))
                   "secret_store_unavailable" "Restore access to the configured secret backend"
        end
    | _, _ => missing_credentials self target info
    end
  else read_device self target info None.

(** The results of the refresh tasks in the order they end: the last candidate of
    a device stays. *)
Definition collect_candidates (finished : list (result DiscoveryCandidate ShellyError)) :
  list DiscoveryCandidate :=
  map snd (fold_left (fun snapshots task =>
    match task with
    | Ok candidate => binsert (ds_id (dc_snapshot candidate)) candidate snapshots
    | Err _ => snapshots
    end) finished []).
End Scanner.
