(* ===== verification/ShellyCommand.v ===== *)
(** Commands over the Shelly RPC, [crates/homemagic-shelly/src/command.rs]: the
    typed calls a command maps to, the authenticated exchange, and the confirmation
    of its effect by pushed state or by a read of the component. *)

From S2P Require Import Prelude Text Float BTree Json Capability Lifecycle Device Command CommandStore Effects CommandService MatterAdministration ShellyProtocol ShellyScanner.

Definition ORIGIN_TAG : string := "homemagic".

Definition failure (code : CommandErrorCode) : CommandFailure := mk_failure code None.

(** ** Components *)

Inductive ComponentKind := Ck_Switch | Ck_Light | Ck_Cover.
#[export] Instance ComponentKind_eq_dec : EqDecision ComponentKind.
Proof. solve_decision. Defined.

Record Component := mk_component {
  cp_kind : ComponentKind;
  cp_id : N
}.

(** [str::parse::<u16>]: an optional sign, digits, no overflow. *)
Fixpoint u16_digits (value : N) (bs : list N) : option N :=
  match bs with
  | [] => Some value
  | b :: bs =>
      if is_ascii_digit b then
        let value := (10 * value + (b - 48))%N in
        if N.leb value u16_max then u16_digits value bs else None
      else None
  end.

Definition parse_u16 (text : string) : option N :=
  match bytes text with
  | [] => None
  | 43%N :: [] => None
  | 43%N :: bs => u16_digits 0 bs
  | bs => u16_digits 0 bs
  end.

Module Component.
Definition parse (value : string) : result Component CommandFailure :=
  let? (kind, id) := ok_or (split_once ":" value) (failure Ce_CapabilityMismatch) in
  let? kind :=
    if String.eqb kind "switch" then Ok Ck_Switch
    else if String.eqb kind "light" then Ok Ck_Light
    else if String.eqb kind "cover" then Ok Ck_Cover
    else Err (failure Ce_CapabilityMismatch) in
  let? id := ok_or (parse_u16 id) (failure Ce_CapabilityMismatch) in
  Ok (mk_component kind id).
End Component.

(** ** Failures *)

Definition normalize_rpc_error (code : Z) (message : string) : CommandFailure :=
  let message := to_ascii_lowercase message in
  failure
    (if contains "overtemp" message || contains "temperature" message then Ce_Overtemperature
     else if contains "obstruction" message then Ce_ObstructionDetected
     else if contains "safety" message || contains "overpower" message
             || contains "overcurrent" message || contains "overvoltage" message
             || contains "undervoltage" message
     then Ce_ProtectionActive
     else if Z.eqb code (-109) || contains "calibrat" message || contains "position unknown" message
     then Ce_UnsupportedConstraint
     else Ce_AdapterRejected).

(** ** Calls *)

Section Calls.
Context `{ShellyJson}.

Abbreviation Fields := (list (string * Json)) (only parsing).

Record ShellyRpcCall := mk_rpc_call {
  rpc_method : string;
  rpc_params : Fields
}.

Definition number_json (n : N) : Json := JNumber (number_from_u32 n).
Definition text_json (text : string) : Json := JString text.

(** [json!] of an [f64]. *)
Definition f64_json (x : F64) : Json :=
  match number_from_f64 x with Some n => JNumber n | None => JNull end.

Definition call (namespace operation : string) (params : Json) : result ShellyRpcCall CommandFailure :=
  let? params := ok_or (as_object params) (failure Ce_AdapterRejected) in
  let pair n o := String.eqb namespace n && String.eqb operation o in
  let? method :=
    if pair "Switch" "Set" then Ok "Switch.Set"%string
    else if pair "Switch" "Toggle" then Ok "Switch.Toggle"%string
    else if pair "Light" "Set" then Ok "Light.Set"%string
    else if pair "Light" "Toggle" then Ok "Light.Toggle"%string
    else if pair "Cover" "Open" then Ok "Cover.Open"%string
    else if pair "Cover" "Close" then Ok "Cover.Close"%string
    else if pair "Cover" "Stop" then Ok "Cover.Stop"%string
    else if pair "Cover" "GoToPosition" then Ok "Cover.GoToPosition"%string
    else Err (failure Ce_CapabilityMismatch) in
  Ok (mk_rpc_call method params).

(** The parameters every call has, with those of the operation. *)
Definition tagged (component : Component) (fields : Fields) : Json :=
  JObject (bcollect (("id"%string, number_json (cp_id component)) :: fields
                     ++ [("tag"%string, text_json ORIGIN_TAG)])).

Definition map_on_off (action : OnOffCommand) (component : Component) : result ShellyRpcCall CommandFailure :=
  let? namespace :=
    match cp_kind component with
    | Ck_Switch => Ok "Switch"%string
    | Ck_Light => Ok "Light"%string
    | Ck_Cover => Err (failure Ce_CapabilityMismatch)
    end in
  match action with
  | Oo_Set on => call namespace "Set" (tagged component [("on"%string, JBool on)])
  | Oo_Toggle => call namespace "Toggle" (tagged component [])
  end.

Definition map_level (level : LevelCommand) (component : Component) : ShellyRpcCall :=
  let params := bcollect
    [("id"%string, number_json (cp_id component)); ("on"%string, JBool (N.ltb 0 (lc_percent level)));
     ("brightness"%string, number_json (lc_percent level)); ("tag"%string, text_json ORIGIN_TAG)] in
  let params :=
    match lc_transition_ms level with
    | Some milliseconds =>
        binsert "transition_duration"
          (f64_json (bits_of_f64 (f64_div (f64_of_N milliseconds) (f64_of_N 1000)))) params
    | None => params
    end in
  mk_rpc_call "Light.Set" params.

Definition map_position (position : PositionCommand) (component : Component) :
  result ShellyRpcCall CommandFailure :=
  match position with
  | Pos_Open => call "Cover" "Open" (tagged component [])
  | Pos_Close => call "Cover" "Close" (tagged component [])
  | Pos_Stop => call "Cover" "Stop" (tagged component [])
  | Pos_GoTo percent => call "Cover" "GoToPosition" (tagged component [("pos"%string, number_json percent)])
  end.

Definition map_command (command : CommandEnvelope) : result ShellyRpcCall CommandFailure :=
  let? component := Component.parse (ce_endpoint_id command) in
  match ce_payload command, cp_kind component with
  | Pl_OnOff action, (Ck_Switch | Ck_Light) => map_on_off action component
  | Pl_Level level, Ck_Light => Ok (map_level level component)
  | Pl_Position position, Ck_Cover => map_position position component
  | _, _ => Err (failure Ce_CapabilityMismatch)
  end.

(** ** Confirmation by state *)

(** [(value - f64::from(target)).abs() <= tolerance]. *)
Definition within (value : F64) (target : N) (tolerance : f64) : bool :=
  f64_leb (f64_abs (f64_sub (f64_of_bits value) (f64_of_N target))) tolerance.

Definition position_matches (position : PositionCommand) (percent : option F64) (state : option string) :
  bool :=
  match position with
  | Pos_Open =>
      bool_decide (state = Some "open"%string)
      || is_some_and (fun value => f64_leb (f64_of_decimal false 995 (-1)) (f64_of_bits value)) percent
  | Pos_Close =>
      bool_decide (state = Some "closed"%string)
      || is_some_and (fun value => f64_leb (f64_of_bits value) f64_half) percent
  | Pos_Stop =>
      negb (bool_decide (state = Some "opening"%string) || bool_decide (state = Some "closing"%string)
            || bool_decide (state = Some "calibrating"%string))
  | Pos_GoTo target => is_some_and (fun value => within value target f64_one) percent
  end.

Definition snapshot_matches (payload : CommandPayload) (capability : CapabilitySnapshot) : bool :=
  match payload, capability with
  | Pl_OnOff (Oo_Set on), Snapshot_OnOff actual _ => Bool.eqb on actual
  | Pl_OnOff Oo_Toggle, Snapshot_OnOff _ _ => true
  | Pl_Level level, Snapshot_Level percent _ => within percent (lc_percent level) f64_half
  | Pl_Position position, Snapshot_Position percent motion _ => position_matches position percent motion
  | _, _ => false
  end.

Definition status_matches (payload : CommandPayload) (status : Fields) : bool :=
  match payload with
  | Pl_OnOff (Oo_Set on) => bool_decide (boolean status "output" = Some on)
  | Pl_OnOff Oo_Toggle => bool_decide (string_of status "tag" = Some ORIGIN_TAG)
  | Pl_Level level =>
      is_some_and (fun value => within value (lc_percent level) f64_half) (number status "brightness")
  | Pl_Position position =>
      position_matches position (number status "current_pos") (string_of status "state")
  | Pl_AccessControl _ => false
  end.

Definition status_failure (status : Fields) : option CommandFailure :=
  errors ← bget "errors" status;
  errors ← as_array errors;
  first ← find_map as_str errors;
  Some (normalize_rpc_error (-1) first).
End Calls.

(** ** The adapter *)

Record RpcError := mk_rpc_error {
  re_code : Z;
  re_message : string
}.

Section Adapter.
Context `{HttpHeaders} `{ShellyJson} `{Sha256}.

Record RpcResponse := mk_rpc_response {
  rr_result : option Json;
  rr_error : option RpcError
}.

(** What the JSON library makes of the body of a response. *)
Context (rpc_response_from_str : string -> option RpcResponse).

Record RpcRequest := mk_rpc_request {
  rq_id : N;
  rq_method : string;
  rq_params : list (string * Json)
}.

Inductive ShellyOp :=
| Sc_now
| Sc_random
| Sc_load
| Sc_secret (reference : SecretRef)
| Sc_send (url : string) (request : RpcRequest) (authorization : option HeaderValue).

Definition shelly_resp (op : ShellyOp) : Type :=
  match op with
  | Sc_now => Instant
  | Sc_random => N
  | Sc_load => result FoundationSnapshot BoxError
  | Sc_secret _ => result SecretValue SecretStoreError
  | Sc_send _ _ _ => result Response unit
  end.

Abbreviation ShellyProg A := (Prog shelly_resp A).

Definition ask (op : ShellyOp) : ShellyProg (shelly_resp op) := perform op.

(** [.map_err(|_| failure(code))]. *)
Definition or_failure {A E : Type} (code : CommandErrorCode) (m : ShellyProg (result A E)) :
  ShellyProg (result A CommandFailure) :=
  let! r := m in Ret (map_err (fun _ => failure code) r).

Record Target := mk_target {
  tg_url : string;
  tg_credential : option SecretValue
}.

(** [secret_store] tells whether a store is configured. *)
Context (secret_store : bool).

Definition target (command : CommandEnvelope) : ShellyProg (result Target CommandFailure) :=
  try! snapshot := or_failure Ce_TransportFailure (ask Sc_load) in
  try! device := Ret (ok_or
    (device ← List.find (fun device => String.eqb (ds_id (dr_snapshot device)) (ce_device_id command))
                (fs_devices snapshot);
     if String.eqb (ds_integration (dr_snapshot device)) "shelly" then Some device else None)
    (failure Ce_CapabilityMismatch)) in
  try! location := Ret (ok_or (head (ds_network (dr_snapshot device))) (failure Ce_TransportFailure)) in
  try! integration := Ret (ok_or
    (List.find (fun integration => String.eqb (ii_id integration) (dr_integration_id device))
       (fs_integrations snapshot)) (failure Ce_TransportFailure)) in
  try! credential :=
    match ii_credential_ref integration, secret_store with
    | Some reference, true =>
        try! secret := or_failure Ce_TransportFailure (ask (Sc_secret reference)) in
        Ret (Ok (Some secret))
    | Some _, false => Ret (Err (failure Ce_TransportFailure))
    | None, _ => Ret (Ok None)
    end in
  let host := if contains ":" (nl_host location) then "[" +:+ nl_host location +:+ "]"
              else nl_host location in
  Ret (Ok (mk_target ("http://" +:+ host +:+ ":" +:+ show_N (nl_port location) +:+ "/rpc") credential)).

Definition decode_rpc (response : Response) : result Json CommandFailure :=
  guard? is_success response else failure Ce_TransportFailure in
  let? response := ok_or (body ← rs_body response; rpc_response_from_str body)
                     (failure Ce_TransportFailure) in
  match rr_error response with
  | Some error => Err (normalize_rpc_error (re_code error) (re_message error))
  | None => Ok (match rr_result response with Some value => value | None => JNull end)
  end.

Definition send_rpc (url : string) (request : RpcRequest) (authorization : option HeaderValue) :
  ShellyProg (result Response CommandFailure) :=
  or_failure Ce_TransportFailure (ask (Sc_send url request authorization)).

Definition rejected {A E : Type} (r : result A E) : result A CommandFailure :=
  map_err (fun _ => failure Ce_AdapterRejected) r.

(** The loop over the two attempts. *)
Fixpoint rpc_attempts (url : string) (request : RpcRequest) (password : SecretValue)
  (challenge : DigestChallenge) (attempts : list nat) : ShellyProg (result Json CommandFailure) :=
  match attempts with
  | [] => Ret (Err (failure Ce_AdapterRejected))
  | attempt :: attempts =>
      let! client_nonce := ask Sc_random in
      try! header := Ret (rejected (authorization challenge password "POST" "/rpc" 1 client_nonce)) in
      try! response := send_rpc url request (Some header) in
      if negb (is_unauthorized response) then Ret (decode_rpc response)
      else
        try! refreshed := Ret (rejected (parse (rs_www_authenticate response))) in
        if (attempt =? 0) && dg_stale refreshed then rpc_attempts url request password refreshed attempts
        else Ret (Err (failure Ce_AdapterRejected))
  end.

Definition rpc (target : Target) (method : string) (params : list (string * Json)) :
  ShellyProg (result Json CommandFailure) :=
  let! id := ask Sc_random in
  let request := mk_rpc_request id method params in
  try! response := send_rpc (tg_url target) request None in
  if negb (is_unauthorized response) then Ret (decode_rpc response)
  else
    try! password := Ret (ok_or (tg_credential target) (failure Ce_AdapterRejected)) in
    try! challenge := Ret (rejected (parse (rs_www_authenticate response))) in
    rpc_attempts (tg_url target) request password challenge [0; 1].

(** The capability a confirmation looks at. *)
Definition pushed_capability (device : DeviceRecord) (envelope : CommandEnvelope) :
  option CapabilitySnapshot :=
  endpoint ← List.find (fun endpoint => String.eqb (es_id endpoint) (ce_endpoint_id envelope))
               (ds_endpoints (dr_snapshot device));
  List.find (fun capability => String.eqb (CapabilitySnapshot.schema capability)
                                 (CommandPayload.schema (ce_payload envelope)))
    (es_capabilities endpoint).

Definition pushed_confirmation (command : CommandAggregate) :
  ShellyProg (result (option ObservedConfirmation) CommandFailure) :=
  let envelope := ca_envelope command in
  try! snapshot := or_failure Ce_TransportFailure (ask Sc_load) in
  try! device := Ret (ok_or
    (List.find (fun device => String.eqb (ds_id (dr_snapshot device)) (ce_device_id envelope))
       (fs_devices snapshot)) (failure Ce_TransportFailure)) in
  if (ds_observed_at (dr_snapshot device) <? ce_received_at envelope)%Z then Ret (Ok None)
  else if is_some_and (snapshot_matches (ce_payload envelope)) (pushed_capability device envelope)
  then
    let! now := ask Sc_now in
    Ret (Ok (Some (mk_confirmation now (ds_observed_at (dr_snapshot device)))))
  else Ret (Ok None).

Definition dispatch (command : CommandEnvelope) :
  ShellyProg (result AdapterAcknowledgement CommandFailure) :=
  try! call := Ret (map_command command) in
  try! target := target command in
  try! _ := rpc target (rpc_method call) (rpc_params call) in
  let! now := ask Sc_now in
  Ret (Ok (mk_ack now "shelly_rpc_accepted")).

Definition status_method (kind : ComponentKind) : string :=
  match kind with
  | Ck_Switch => "Switch.GetStatus"
  | Ck_Light => "Light.GetStatus"
  | Ck_Cover => "Cover.GetStatus"
  end.

(** The read of the component decides: the part of [confirm] after a pushed
    confirmation is missing. *)
Definition read_confirmation (envelope : CommandEnvelope) :
  ShellyProg (result CommandConfirmationOutcome CommandFailure) :=
  try! component := Ret (Component.parse (ce_endpoint_id envelope)) in
  try! target := target envelope in
  try! status := rpc target (status_method (cp_kind component))
                   [("id"%string, number_json (cp_id component))] in
  try! status := Ret (ok_or (as_object status) (failure Ce_AdapterRejected)) in
  match status_failure status with
  | Some failure => Ret (Err failure)
  | None =>
      if status_matches (ce_payload envelope) status then
        let! now := ask Sc_now in Ret (Ok (Co_Confirmed (mk_confirmation now now)))
      else Ret (Ok Co_Pending)
  end.

Definition confirm (command : CommandAggregate) :
  ShellyProg (result CommandConfirmationOutcome BoxError) :=
  let! pushed := pushed_confirmation command in
  match pushed with
  | Ok (Some confirmation) => Ret (Ok (Co_Confirmed confirmation))
  | Ok None =>
      let! outcome := read_confirmation (ca_envelope command) in
      Ret (Ok (match outcome with Ok outcome => outcome | Err failure => Co_Failed failure end))
  | Err failure => Ret (Ok (Co_Failed failure))
  end.
End Adapter.
