(* ===== verification/ShellySession.v ===== *)
(** Live Shelly sessions, [crates/homemagic-shelly/src]: the reconnect policy and
    the supervisor that owns one session per device (session.rs), and one WebSocket
    session from its authenticated baseline to the notifications it publishes
    (websocket.rs). *)

From S2P Require Import Prelude Text Float BTree Json Capability Lifecycle Device Command CommandStore Identity Effects CommandService MatterAdministration Application ShellyProtocol ShellyScanner.

(** ** Reconnect policy *)

Record BackoffPolicy := mk_backoff {
  bp_base : Duration;
  bp_cap : Duration;
  bp_jitter_ratio : f64;
  bp_stable_reset : Duration
}.

Definition f64_zero : f64 := f64_of_N 0.

Module BackoffPolicy.
(** [None] is the error [BackoffPolicyError]. *)
Definition new (base cap : Duration) (jitter_ratio : f64) (stable_reset : Duration) : option BackoffPolicy :=
  if N.eqb base 0 || N.ltb cap base || N.eqb stable_reset 0
     || negb (f64_leb f64_zero jitter_ratio && f64_leb jitter_ratio f64_one)
  then None else Some (mk_backoff base cap jitter_ratio stable_reset).

Definition exponential (self : BackoffPolicy) (attempt : N) : Duration :=
  let multiplier := N.pow 2 (N.min attempt 31) in
  N.min (match duration_checked_mul (bp_base self) multiplier with
         | Some product => product
         | None => bp_cap self
         end) (bp_cap self).

(** [None] is a panic of the multiplication. *)
Definition delay (self : BackoffPolicy) (attempt : N) (jitter_sample : f64) : option Duration :=
  let exponential := exponential self attempt in
  jitter ← duration_mul_f64 exponential
             (f64_mul (bp_jitter_ratio self) (f64_clamp f64_zero f64_one jitter_sample));
  Some (N.min (duration_saturating_add exponential jitter) (bp_cap self)).

Definition next_attempt (self : BackoffPolicy) (attempt : N) (connected_for : Duration) : N :=
  if N.leb (bp_stable_reset self) connected_for then 0%N else u32_saturating_add attempt 1.

Definition default : BackoffPolicy :=
  mk_backoff (duration_secs 1) (duration_secs 60) (f64_of_decimal false 25 (-2)) (duration_secs 300).
End BackoffPolicy.

Example default_delays :
  map (fun attempt => BackoffPolicy.delay BackoffPolicy.default attempt f64_one) [0; 1; 5; 6; 4294967295]%N
  = map Some [1250000000; 2500000000; 40000000000; 60000000000; 60000000000]%N.
Proof. vm_compute. reflexivity. Qed.

(** ** Loops *)

(** How a round of a loop ends. *)
Inductive Flow (S B : Type) :=
| Continue (state : S)
| Break (value : B).
Arguments Continue {S B} state.
Arguments Break {S B} value.

(** [loop { .. }]: [None] when the rounds of the fuel are used up. *)
Fixpoint loop_for {Op : Type} {resp : Op -> Type} {S B : Type}
  (fuel : nat) (round : S -> Prog resp (Flow S B)) (state : S) : Prog resp (option B) :=
  match fuel with
  | O => Ret None
  | Datatypes.S fuel =>
      let! flow := round state in
      match flow with
      | Continue state => loop_for fuel round state
      | Break value => Ret (Some value)
      end
  end.

(** ** One supervised session *)

(** How the wait between two sessions ends: the delay passed, or the cancellation
    changed, with the sender gone or the value it has. *)
Inductive Waited := Wt_Slept | Wt_SenderGone | Wt_Changed (cancelled : bool).

(** The cancellation flag, one run of the adapter with its duration, a sample and
    the wait. *)
Inductive SuperviseOp :=
| Sv_cancelled
| Sv_run
| Sv_random
| Sv_wait (delay : Duration).

Definition supervise_resp (op : SuperviseOp) : Type :=
  match op with
  | Sv_cancelled => bool
  | Sv_run => bool * Duration
  | Sv_random => f64
  | Sv_wait _ => Waited
  end.

Abbreviation SuperviseProg A := (Prog supervise_resp A).
Definition sv (op : SuperviseOp) : SuperviseProg (supervise_resp op) := perform op.

(** The task of a session returns, or panics. *)
Inductive SessionEnd := End_Returned | End_Panicked.

(** One round of [supervise_session]: whether a run failed is only logged. *)
Definition supervise_round (backoff : BackoffPolicy) (attempt : N) : SuperviseProg (Flow N SessionEnd) :=
  let! cancelled := sv Sv_cancelled in
  if cancelled then Ret (Break End_Returned)
  else
    let! (_, elapsed) := sv Sv_run in
    let! cancelled := sv Sv_cancelled in
    if cancelled then Ret (Break End_Returned)
    else
      let attempt := BackoffPolicy.next_attempt backoff attempt elapsed in
      let! sample := sv Sv_random in
      match BackoffPolicy.delay backoff (N.pred attempt) sample with
      | None => Ret (Break End_Panicked)
      | Some delay =>
          let! waited := sv (Sv_wait delay) in
          Ret (match waited with
               | Wt_SenderGone | Wt_Changed true => Break End_Returned
               | Wt_Slept | Wt_Changed false => Continue attempt
               end)
      end.

Definition supervise_session (fuel : nat) (backoff : BackoffPolicy) : SuperviseProg (option SessionEnd) :=
  loop_for fuel (supervise_round backoff) 0%N.

(** ** The supervisor *)

(** A managed session is its task; the handle and the sender travel together. *)
Abbreviation TaskId := nat (only parsing).

(** The map lives behind a lock; a session is cancelled by its sender and joined
    by its handle. *)
Inductive SupervisorOp :=
| Su_lock
| Su_unlock
| Su_remove (device_id : DeviceId)
| Su_take
| Su_insert (device_id : DeviceId) (task : TaskId)
| Su_spawn (device_id : DeviceId)
| Su_cancel (task : TaskId)
| Su_join (task : TaskId).

Definition supervisor_resp (op : SupervisorOp) : Type :=
  match op with
  | Su_lock | Su_unlock | Su_insert _ _ | Su_cancel _ => unit
  | Su_remove _ => option TaskId
  | Su_take => list TaskId
  | Su_spawn _ => TaskId
  | Su_join _ => SessionEnd
  end.

Abbreviation SupervisorProg A := (Prog supervisor_resp A).
Definition su (op : SupervisorOp) : SupervisorProg (supervisor_resp op) := perform op.

(** A panicked task is the error of its join. *)
Definition cancel (managed : TaskId) : SupervisorProg (result unit SessionEnd) :=
  let! _ := su (Su_cancel managed) in
  let! ended := su (Su_join managed) in
  Ret (match ended with End_Returned => Ok tt | End_Panicked => Err End_Panicked end).

(** The guard is held to the end. *)
Definition start (device_id : DeviceId) : SupervisorProg (result unit SessionEnd) :=
  let! _ := su Su_lock in
  finally
    (let! previous := su (Su_remove device_id) in
     try! _ := match previous with
               | Some previous => cancel previous
               | None => Ret (Ok tt)
               end in
     let! task := su (Su_spawn device_id) in
     let! _ := su (Su_insert device_id task) in
     Ret (Ok tt))
    (su Su_unlock).

(** The guard is dropped before the session is cancelled. *)
Definition stop (device_id : DeviceId) : SupervisorProg (result unit SessionEnd) :=
  let! _ := su Su_lock in
  let! managed := finally (su (Su_remove device_id)) (su Su_unlock) in
  match managed with
  | Some managed => cancel managed
  | None => Ret (Ok tt)
  end.

(** Every session is cancelled; the first error is the answer. *)
Fixpoint cancel_all (managed : list TaskId) (first_error : option SessionEnd) :
  SupervisorProg (result unit SessionEnd) :=
  match managed with
  | [] => Ret (match first_error with Some error => Err error | None => Ok tt end)
  | session :: managed =>
      let! ended := cancel session in
      cancel_all managed
        (match ended, first_error with
         | Err error, None => Some error
         | _, _ => first_error
         end)
  end.

Definition shutdown : SupervisorProg (result unit SessionEnd) :=
  let! _ := su Su_lock in
  let! managed := finally (su Su_take) (su Su_unlock) in
  cancel_all managed None.

(** ** A WebSocket session *)

Definition SOURCE_PREFIX : string := "homemagic".

(** A panic ends the task of the session. *)
Inductive WebSocketSessionError :=
| Wse_MissingNetwork | Wse_Transport | Wse_InvalidBaseline | Wse_CredentialsMissing
| Wse_CredentialsRejected | Wse_Authentication (code : string) | Wse_RefreshRequired (reason : string)
| Wse_SecretStore (error : SecretStoreError) | Wse_Sink (error : BoxError) | Wse_Panic.

(** A message of the WebSocket library; the payload of a ping is not looked at. *)
Inductive Message :=
| Msg_Text (text : string) | Msg_Binary | Msg_Ping | Msg_Pong | Msg_Close | Msg_Frame.

(** What [select!] takes: a change of the cancellation (with its sender gone or its
    value), or what the socket yields. *)
Inductive Selected :=
| Sel_SenderGone
| Sel_Cancelled (cancelled : bool)
| Sel_Message (message : option (result Message unit)).

(** Conversion of a duration by the date library. *)
Class TimeDeltas := {
  time_delta_from_std : Duration -> option TimeDelta;
  time_delta_exact : forall d t, time_delta_from_std d = Some t -> t = Z.of_N d
}.

(** What the JSON library makes of a frame and of the message of a challenge. *)
Class FrameDecoding `{SerdeJson} := {
  frame_from_str : string -> option Json;
  envelope_from_str : string -> option Envelope;
  challenge_from_str : string -> option RpcChallenge
}.

Section WebSocket.
Context `{ShellyJson} `{Sha256} `{Chrono} `{TimeDeltas} `{!FrameDecoding}.

Inductive SocketOp :=
| Ws_connect (url : string)
| Ws_secret (reference : SecretRef)
| Ws_send (message : Json)
| Ws_pong
| Ws_close
| Ws_next
| Ws_select
| Ws_random
| Ws_uuid
| Ws_now
| Ws_publish (batch : LiveObservationBatch)
| Ws_refresh (device_id : DeviceId) (reason : string).

Definition socket_resp (op : SocketOp) : Type :=
  match op with
  | Ws_connect _ | Ws_send _ | Ws_pong | Ws_close => result unit unit
  | Ws_secret _ => result SecretValue SecretStoreError
  | Ws_next => option (result Message unit)
  | Ws_select => Selected
  | Ws_random => N
  | Ws_uuid => string
  | Ws_now => Instant
  | Ws_publish _ | Ws_refresh _ _ => result unit BoxError
  end.

Abbreviation SocketProg A := (Prog socket_resp A).
Definition ws (op : SocketOp) : SocketProg (socket_resp op) := perform op.

Abbreviation SocketResult A := (SocketProg (result A WebSocketSessionError)).

(** [.map_err(f)?]. *)
Definition ws_or {A E F : Type} (f : E -> F) (m : SocketProg (result A E)) : SocketProg (result A F) :=
  let! r := m in Ret (map_err f r).

Definition transport {A : Type} (m : SocketProg (result A unit)) : SocketResult A :=
  ws_or (fun _ => Wse_Transport) m.

Definition websocket_url (device : DeviceRecord) : result string WebSocketSessionError :=
  let? location := ok_or (head (ds_network (dr_snapshot device))) Wse_MissingNetwork in
  let? address := ok_or (parse_ip (nl_host location)) Wse_MissingNetwork in
  Ok ("ws://" +:+ show_socket address (nl_port location) +:+ "/rpc").

(** The runner's optional parts. *)
Record ShellyWebSocketRunner := mk_runner {
  wr_secret_store : bool;
  wr_credential_ref : option SecretRef
}.

Definition credential (self : ShellyWebSocketRunner) : SocketResult (option SecretValue) :=
  match wr_secret_store self, wr_credential_ref self with
  | true, Some reference =>
      try! secret := ws_or Wse_SecretStore (ws (Ws_secret reference)) in Ret (Ok (Some secret))
  | false, None => Ret (Ok None)
  | _, _ => Ret (Err Wse_CredentialsMissing)
  end.

(** ** The baseline *)

Definition status_request (source : string) : list (string * Json) :=
  bcollect [("id"%string, JNumber (number_from_u32 1)); ("src"%string, JString source);
            ("method"%string, JString "Shelly.GetStatus")].

(** [Value::get] on a frame. *)
Definition field (frame : Json) (key : string) : option Json :=
  fields ← as_object frame; bget key fields.

Abbreviation BaselineState := (N * list (string * Json))%type.

(** A challenge is answered with a further request. *)
Definition answer_challenge (secret : option SecretValue) (state : BaselineState) (error : list (string * Json)) :
  SocketResult BaselineState :=
  let '(attempts, request) := state in
  guard! bool_decide (bget "code" error ≫= as_i64 = Some 401%Z) else Wse_InvalidBaseline in
  guard! N.ltb attempts 2 else Wse_CredentialsRejected in
  try! password := Ret (ok_or secret Wse_CredentialsMissing) in
  try! message := Ret (ok_or (bget "message" error ≫= as_str) Wse_InvalidBaseline) in
  let authentication {A} (r : result A DigestError) :=
    map_err (fun error => Wse_Authentication (DigestError.code error)) r in
  try! challenge := Ret (authentication (from_rpc_challenge (challenge_from_str message))) in
  let! client_nonce := ws Ws_random in
  try! auth := Ret (authentication (rpc_authorization challenge password 1 client_nonce)) in
  let request := binsert "auth" auth request in
  try! _ := transport (ws (Ws_send (JObject request))) in
  Ret (Ok (attempts + 1, request))%N.

Definition baseline_round (secret : option SecretValue) (state : BaselineState) :
  SocketProg (Flow BaselineState (result (list (string * Json)) WebSocketSessionError)) :=
  let! next := ws Ws_next in
  match next with
  | None => Ret (Break (Err Wse_InvalidBaseline))
  | Some (Err _) => Ret (Break (Err Wse_Transport))
  | Some (Ok (Msg_Text text)) =>
      match frame_from_str text with
      | None => Ret (Break (Err Wse_InvalidBaseline))
      | Some frame =>
          if negb (bool_decide (field frame "id" = Some (JNumber (number_from_u32 1))))
          then Ret (Continue state)
          else match field frame "result" ≫= as_object with
               | Some result => Ret (Break (Ok result))
               | None =>
                   match field frame "error" ≫= as_object with
                   | None => Ret (Break (Err Wse_InvalidBaseline))
                   | Some error =>
                       let! answered := answer_challenge secret state error in
                       Ret (match answered with
                            | Ok state => Continue state
                            | Err error => Break (Err error)
                            end)
                   end
               end
      end
  | Some (Ok _) => Ret (Continue state)
  end.

(** ** Observations *)

(** [insert]: a field that is present and asked for. *)
Definition insert_field (full : bool) (changed : list string) (observed_at : Instant)
  (values : list (string * ObservedValue)) (entry : string * string * option Json) :
  list (string * ObservedValue) :=
  let '(raw, name, value) := entry in
  match value with
  | Some value =>
      if full || existsb (String.eqb raw) changed
      then binsert name (mk_observed value observed_at) values else values
  | None => values
  end.

Definition json_number (value : F64) : option Json := JNumber <$> number_from_f64 value.

(** The raw field, the name and the value of what a capability reports. *)
Definition capability_fields (capability : CapabilitySnapshot) : list (string * string * option Json) :=
  (match capability with
   | Snapshot_OnOff on _ => [("output", "on", Some (JBool on))]
   | Snapshot_Level percent _ => [("brightness", "percent", json_number percent)]
   | Snapshot_Position percent motion _ =>
       [("current_pos", "percent", percent ≫= json_number); ("state", "motion", JString <$> motion)]
   | Snapshot_Power watts volts amperes =>
       [("apower", "watts", watts ≫= json_number); ("voltage", "volts", volts ≫= json_number);
        ("current", "amperes", amperes ≫= json_number)]
   | Snapshot_Energy watt_hours => [("aenergy", "watt_hours", json_number watt_hours)]
   | Snapshot_Availability online => [("online", "online", Some (JBool online))]
   | Snapshot_Diagnostics firmware_version errors =>
       [("firmware_version", "firmware_version", JString <$> firmware_version);
        ("errors", "errors", Some (JArray (map JString errors)))]
   | Snapshot_AccessControl _ => []
   end)%string.

Definition observation_from_capability (device : DeviceRecord) (endpoint_id : EndpointId)
  (capability : CapabilitySnapshot) (raw_fields : list string) (observed_at : Instant) (full : bool) :
  SocketProg (option CapabilityObservation) :=
  match fold_left (insert_field full raw_fields observed_at) (capability_fields capability) [] with
  | [] => Ret None
  | values =>
      let! now := ws Ws_now in
      Ret (Some (mk_observation (ds_id (dr_snapshot device)) endpoint_id
                   (CapabilitySnapshot.descriptor capability) values now
                   (mk_source (dr_integration_id device)
                      (if full then Src_FullStatus else Src_Notification) None)))
  end.

(** The capabilities of the changed components, in the order they are reported. *)
Definition changed_capabilities (cache : StatusCache) (changed : list (string * list string)) :
  list (EndpointId * list string * CapabilitySnapshot) :=
  flat_map (fun endpoint =>
    match bget (es_id endpoint) changed with
    | Some raw_fields => map (fun capability => (es_id endpoint, raw_fields, capability)) (es_capabilities endpoint)
    | None => []
    end) (project_components (sc_components cache)).

Fixpoint observations_of (device : DeviceRecord) (observed_at : Instant) (full : bool)
  (capabilities : list (EndpointId * list string * CapabilitySnapshot)) :
  SocketProg (list CapabilityObservation) :=
  match capabilities with
  | [] => Ret []
  | (endpoint_id, raw_fields, capability) :: capabilities =>
      let! observation := observation_from_capability device endpoint_id capability raw_fields observed_at full in
      let! observations := observations_of device observed_at full capabilities in
      Ret (option_list observation ++ observations)
  end.

Definition status_batch (device : DeviceRecord) (cache : StatusCache) (changed : list (string * list string))
  (observed_at : Instant) (full : bool) : SocketProg LiveObservationBatch :=
  let! observations := observations_of device observed_at full (changed_capabilities cache changed) in
  Ret (mk_batch observations []).

(** [None] is a panic: an instant beyond the range of the date library. *)
Definition timestamp_to_utc (timestamp : F64) : SocketProg (option Instant) :=
  match duration ← try_from_secs_f64 (f64_of_bits timestamp); time_delta_from_std duration with
  | None => let! now := ws Ws_now in Ret (Some now)
  | Some delta => Ret (checked_add_signed 0%Z delta)
  end.

Fixpoint device_events (device : DeviceRecord) (correlation_id : CorrelationId) (events : list ShellyEvent) :
  SocketProg (option (list DomainEvent)) :=
  match events with
  | [] => Ret (Some [])
  | event :: events =>
      let! id := ws Ws_uuid in
      let! occurred_at := timestamp_to_utc (se_timestamp event) in
      match occurred_at with
      | None => Ret None
      | Some occurred_at =>
          let! rest := device_events device correlation_id events in
          Ret (rest ← rest;
               Some (mk_event id (Some (ds_id (dr_snapshot device))) occurred_at
                       (mk_metadata correlation_id None
                          (Some ("device:" +:+ ds_id (dr_snapshot device))) None)
                       (Ev_DeviceEvent (se_component event) (se_event event)) :: rest))
      end
  end.

Definition event_batch (device : DeviceRecord) (events : list ShellyEvent) :
  SocketProg (option LiveObservationBatch) :=
  let! correlation_id := ws Ws_uuid in
  let! events := device_events device correlation_id events in
  Ret (mk_batch [] <$> events).

(** ** The session *)

Definition publish_batch (batch : LiveObservationBatch) : SocketResult unit :=
  ws_or Wse_Sink (ws (Ws_publish batch)).

(** The session ends because a full refresh is needed, which it asks for. *)
Definition refresh_required (device : DeviceRecord) (reason : string) :
  SocketResult (StatusCache * EventDeduplicator) :=
  try! _ := ws_or Wse_Sink (ws (Ws_refresh (ds_id (dr_snapshot device)) reason)) in
  Ret (Err (Wse_RefreshRequired reason)).

Definition handle_status (device : DeviceRecord) (cache : StatusCache) (events : EventDeduplicator)
  (status : StatusNotification) : SocketResult (StatusCache * EventDeduplicator) :=
  let '(applied, cache) := StatusCache.apply cache status in
  if sa_requires_refresh applied then refresh_required device "timestamp_regression"
  else match sa_changed_fields applied with
       | [] => Ret (Ok (cache, events))
       | changed =>
           let! observed_at := timestamp_to_utc (sn_timestamp status) in
           match observed_at with
           | None => Ret (Err Wse_Panic)
           | Some observed_at =>
               let! batch := status_batch device cache changed observed_at (sn_full status) in
               try! _ := publish_batch batch in
               Ret (Ok (cache, events))
           end
       end.

Definition handle_events (device : DeviceRecord) (cache : StatusCache) (events : EventDeduplicator)
  (incoming : list ShellyEvent) : SocketResult (StatusCache * EventDeduplicator) :=
  let '(accepted, events) := EventDeduplicator.accept_all events incoming in
  match accepted with
  | [] => Ret (Ok (cache, events))
  | _ =>
      let! batch := event_batch device accepted in
      match batch with
      | None => Ret (Err Wse_Panic)
      | Some batch =>
          try! _ := publish_batch batch in
          Ret (Ok (cache, events))
      end
  end.

Definition handle_message (device : DeviceRecord) (cache : StatusCache) (events : EventDeduplicator)
  (message : Message) : SocketResult (StatusCache * EventDeduplicator) :=
  match message with
  | Msg_Text text =>
      match parse_notification (envelope_from_str text) with
      | Err _ => refresh_required device "malformed_notification"
      | Ok (Nf_Status status) => handle_status device cache events status
      | Ok (Nf_Events incoming) => handle_events device cache events incoming
      end
  | Msg_Ping => try! _ := transport (ws Ws_pong) in Ret (Ok (cache, events))
  | Msg_Close => refresh_required device "websocket_closed"
  | Msg_Binary => refresh_required device "binary_notification"
  | Msg_Pong | Msg_Frame => Ret (Ok (cache, events))
  end.

Definition session_round (device : DeviceRecord) (state : StatusCache * EventDeduplicator) :
  SocketProg (Flow (StatusCache * EventDeduplicator) (result unit WebSocketSessionError)) :=
  let '(cache, events) := state in
  let! selected := ws Ws_select in
  let continue (m : SocketResult (StatusCache * EventDeduplicator)) :=
    let! r := m in Ret (match r with Ok state => Continue state | Err error => Break (Err error) end) in
  match selected with
  | Sel_SenderGone | Sel_Cancelled true => let! _ := ws Ws_close in Ret (Break (Ok tt))
  | Sel_Cancelled false => Ret (Continue state)
  | Sel_Message None => continue (refresh_required device "websocket_closed")
  | Sel_Message (Some (Err _)) => Ret (Break (Err Wse_Transport))
  | Sel_Message (Some (Ok message)) => continue (handle_message device cache events message)
  end.

(** The baseline is published before the first notification is read. *)
Definition publish_baseline (device : DeviceRecord) (baseline : list (string * Json)) :
  SocketResult StatusCache :=
  let! observed_at := ws Ws_now in
  let '(applied, cache) := StatusCache.apply empty_cache (mk_status 0 true baseline) in
  let! batch := status_batch device cache (sa_changed_fields applied) observed_at true in
  try! _ := publish_batch batch in
  Ret (Ok cache).

(** [run], with the fuel of its two loops; [None] when one runs out of it. *)
Definition run (fuel : nat) (self : ShellyWebSocketRunner) (device : DeviceRecord) :
  SocketProg (option (result unit WebSocketSessionError)) :=
  let! connected :=
    (try! url := Ret (websocket_url device) in
     try! _ := transport (ws (Ws_connect url)) in
     let source := SOURCE_PREFIX +:+ "_" +:+ ds_id (dr_snapshot device) in
     try! secret := credential self in
     try! _ := transport (ws (Ws_send (JObject (status_request source)))) in
     Ret (Ok (secret, status_request source))) in
  match connected with
  | Err error => Ret (Some (Err error))
  | Ok (secret, request) =>
      let! baseline := loop_for fuel (baseline_round secret) (0%N, request) in
      match baseline with
      | None => Ret None
      | Some (Err error) => Ret (Some (Err error))
      | Some (Ok baseline) =>
          let! published := publish_baseline device baseline in
          match published with
          | Err error => Ret (Some (Err error))
          | Ok cache => loop_for fuel (session_round device) (cache, EventDeduplicator.default)
          end
      end
  end.
End WebSocket.
