(* ===== verification/ShellyProps.v ===== *)
(** What the Shelly adapter promises: the status cache reports exactly what
    changed, the replay filter is a window over the accepted events, the projected
    capabilities and the commands fit each other, a dispatch sends only its own call
    and credentials only against a challenge, reconnects stay within their bounds;
    and the session that cannot be cancelled. *)

From S2P Require Import Prelude Text Float BTree Json Capability Lifecycle Device Command CommandStore Identity Effects CommandService MatterAdministration Application ShellyProtocol ShellyScanner ShellyCommand ShellySession.

(** ** Maps *)

Section Maps.
Context {V : Type}.
Implicit Types m : list (string * V).

Lemma bremove_keys k m kv : In kv (bremove k m) -> In kv m.
Proof.
  induction m as [|[k' v'] m IH]; simpl; [done|]. destruct (String.eqb k k'); simpl; intuition.
Qed.

Lemma bremove_sorted k m : bsorted m -> bsorted (bremove k m).
Proof.
  induction 1 as [|[k' v'] m Hm IH Hall]; simpl; [constructor|]. destruct (String.eqb k k'); [done|].
  constructor; [done|]. rewrite List.Forall_forall in *. intros kv Hkv%bremove_keys. by apply Hall.
Qed.

Lemma bget_bremove k k2 m :
  bsorted m -> bget k2 (bremove k m) = if String.eqb k k2 then None else bget k2 m.
Proof.
  induction 1 as [|[k' v'] m Hm IH Hall]; simpl; [by destruct (String.eqb k k2)|].
  destruct (String.eqb k k') eqn:E.
  - apply String.eqb_eq in E as <-. rewrite (String.eqb_sym k2). destruct (String.eqb k k2) eqn:E2; [|done].
    apply String.eqb_eq in E2 as <-. by apply bget_below.
  - simpl. rewrite IH. destruct (String.eqb k2 k') eqn:E2; [|done].
    apply String.eqb_eq in E2 as ->. by rewrite E.
Qed.

(** A later entry of a sorted map has another key. *)
Lemma bsorted_head_fresh k (v : V) m : bsorted ((k, v) :: m) -> bget k m = None.
Proof. intros Hs. apply bget_below. by inversion Hs. Qed.

Lemma bsorted_tail kv m : bsorted (kv :: m) -> bsorted m.
Proof. by inversion 1. Qed.
End Maps.

Lemma bkeys_collect l k : In k (bkeys (bcollect (map (fun k => (k, tt)) l))) <-> In k l.
Proof.
  split.
  - intros ([k' u] & <- & Hin)%in_map_iff. apply bcollect_In in Hin.
    apply in_map_iff in Hin as (k2 & [= <- <-] & Hin). done.
  - intros Hin. apply bget_In_keys. unfold bcollect.
    enough (forall m : list (string * ()), is_Some (bget k m) \/ In k l ->
      is_Some (bget k (fold_left (fun m kv => binsert kv.1 kv.2 m) (map (fun k => (k, tt)) l) m))) as He by auto.
    clear Hin. induction l as [|k' l IH]; simpl; intros m [Hm|Hin]; [done|done| |].
    + apply IH. left. rewrite bget_binsert. by destruct (String.eqb k' k).
    + apply IH. rewrite bget_binsert. destruct Hin as [<-|Hin]; [|by right].
      left. by rewrite String.eqb_refl.
Qed.

Lemma union_keys_In {V W} (a : list (string * V)) (b : list (string * W)) k :
  In k (union_keys a b) <-> is_Some (bget k a) \/ is_Some (bget k b).
Proof. unfold union_keys. by rewrite bkeys_collect, in_app_iff, !bget_In_keys. Qed.

(** ** The status cache *)

Section Cache.
Context `{ShellyJson}.

Definition fields_of (value : option Json) : list (string * Json) :=
  match value ≫= as_object with Some fields => fields | None => [] end.

(** The fields of a component differ between two statuses. *)
Definition differs (before after : list (string * Json)) (component field : string) : Prop :=
  bget field (fields_of (bget component before)) <> bget field (fields_of (bget component after)).

Lemma changed_top_level_In before after field :
  In field (changed_top_level_fields before after)
  <-> bget field (fields_of before) <> bget field (fields_of after).
Proof.
  unfold changed_top_level_fields. fold (fields_of before) (fields_of after).
  rewrite List.filter_In, union_keys_In, negb_true_iff, bool_decide_eq_false.
  split; [tauto|]. intros Hne. split; [|done].
  destruct (bget field (fields_of before)); [left; eauto|].
  destruct (bget field (fields_of after)); [right; eauto|done].
Qed.

Lemma changed_fields_In before after component fields :
  In (component, fields) (changed_fields before after) ->
  fields = changed_top_level_fields (bget component before) (bget component after) /\ fields <> [].
Proof.
  unfold changed_fields. rewrite <- list_elem_of_In, list_elem_of_omap.
  intros (c & _ & Hc). destruct (changed_top_level_fields _ _) eqn:E; [done|].
  injection Hc as -> <-. rewrite E. done.
Qed.

Lemma changed_fields_complete before after component field :
  differs before after component field ->
  exists fields, In (component, fields) (changed_fields before after) /\ In field fields.
Proof.
  intros Hd. pose proof Hd as Hin. apply changed_top_level_In in Hin.
  exists (changed_top_level_fields (bget component before) (bget component after)). split; [|done].
  unfold changed_fields. rewrite <- list_elem_of_In, list_elem_of_omap. exists component. split.
  - rewrite list_elem_of_In, union_keys_In. unfold differs, fields_of in Hd.
    destruct (bget component before); [left; eauto|]. destruct (bget component after); [right; eauto|done].
  - destruct (changed_top_level_fields _ _); [done|done].
Qed.

Lemma changed_fields_exact before after :
  (forall component field,
     (exists fields, In (component, fields) (changed_fields before after) /\ In field fields)
     <-> differs before after component field) /\
  (forall component, In component (map fst (changed_fields before after))
     <-> exists field, differs before after component field).
Proof.
  assert (forall component field,
     (exists fields, In (component, fields) (changed_fields before after) /\ In field fields)
     <-> differs before after component field) as He.
  { intros component field. split; [|apply changed_fields_complete].
    intros (fields & [-> _]%changed_fields_In & Hin). by apply changed_top_level_In. }
  split; [exact He|]. intros component. rewrite in_map_iff. split.
  - intros ([c fields] & <- & Hin). pose proof Hin as [_ Hne]%changed_fields_In.
    destruct fields as [|field fields]; [done|]. exists field. apply He. eexists. split; [exact Hin|by left].
  - intros (field & (fields & Hin & _)%He). by exists (component, fields).
Qed.

(** What a patch of an object does to a field. *)
Definition patched (current patch : option Json) : option Json :=
  match patch with
  | None => current
  | Some JNull => None
  | Some value => match current with
                  | Some existing => Some (merge_value existing value)
                  | None => Some value
                  end
  end.

Lemma merge_object_lookup patch current field :
  bsorted patch -> bsorted current ->
  exists merged, merge_value (JObject current) (JObject patch) = JObject merged /\ bsorted merged /\
    bget field merged = patched (bget field current) (bget field patch).
Proof.
  intros Hp. revert current. simpl. induction patch as [|[k v] patch IH]; intros current Hc.
  { by exists current. }
  pose proof (bsorted_head_fresh _ _ _ Hp) as Hfresh. apply bsorted_tail in Hp.
  set (next := if is_null v then bremove k current else
    match bget k current with
    | Some existing => binsert k (merge_value existing v) current
    | None => binsert k v current end).
  assert (bsorted next) as Hn.
  { unfold next. destruct (is_null v); [by apply bremove_sorted|].
    destruct (bget k current); by apply binsert_sorted. }
  destruct (IH Hp next Hn) as (merged & Hm & Hs & Hg).
  exists merged. split; [exact Hm|]. split; [done|]. rewrite Hg. simpl.
  destruct (String.eqb field k) eqn:E.
  - apply String.eqb_eq in E as ->. rewrite Hfresh. simpl. unfold next.
    destruct v; simpl;
      first [by rewrite bget_bremove, String.eqb_refl
            | destruct (bget k current) eqn:Ek; by rewrite bget_binsert_eq].
  - assert (bget field next = bget field current) as ->; [|done].
    unfold next. rewrite String.eqb_sym in E.
    destruct (is_null v); [by rewrite bget_bremove, E|].
    destruct (bget k current); by rewrite bget_binsert, E.
Qed.

Lemma merge_component_lookup components entry component :
  bget component (merge_component components entry)
  = if String.eqb entry.1 component
    then match bget component components with
         | Some current => Some (merge_value current entry.2)
         | None => Some entry.2
         end
    else bget component components.
Proof.
  destruct entry as [k patch]. simpl. destruct (String.eqb k component) eqn:E.
  - apply String.eqb_eq in E as ->. destruct (bget component components); by rewrite bget_binsert_eq.
  - destruct (bget k components); by rewrite bget_binsert, E.
Qed.

Lemma merge_components_lookup patches components component :
  bsorted patches ->
  bget component (fold_left merge_component patches components)
  = match bget component patches with
    | None => bget component components
    | Some patch => match bget component components with
                    | Some current => Some (merge_value current patch)
                    | None => Some patch
                    end
    end.
Proof.
  revert components. induction patches as [|[k patch] patches IH]; intros components Hs; [done|].
  cbn [fold_left]. rewrite IH by (by apply bsorted_tail in Hs). rewrite merge_component_lookup. simpl.
  rewrite String.eqb_sym. destruct (String.eqb component k) eqn:E; [|done].
  apply String.eqb_eq in E as <-. apply bsorted_head_fresh in Hs. by rewrite Hs.
Qed.

(** Statuses as they are decoded: ordered maps of components that are objects. *)
Definition status_ok (components : list (string * Json)) : Prop :=
  bsorted components /\
  forall component value, bget component components = Some value ->
    exists fields, value = JObject fields /\ bsorted fields.

Lemma merge_component_ok components component patch :
  status_ok components -> bsorted patch ->
  status_ok (merge_component components (component, JObject patch)).
Proof.
  intros [Hs Hv] Hp. split.
  - simpl. destruct (bget component components); by apply binsert_sorted.
  - intros c v. rewrite merge_component_lookup. simpl. destruct (String.eqb component c); [|apply Hv].
    destruct (bget c components) as [current|] eqn:E; intros [= <-]; [|eauto].
    destruct (Hv _ _ E) as (fields & -> & Hf).
    destruct (merge_object_lookup patch fields component Hp Hf) as (merged & Hm & Hms & _).
    exists merged. split; [exact Hm | exact Hms].
Qed.

Lemma merge_components_ok patches components :
  status_ok patches -> status_ok components -> status_ok (fold_left merge_component patches components).
Proof.
  intros [Hs Hv]. revert components. induction patches as [|[k patch] patches IH]; intros components Hc; [done|].
  cbn [fold_left]. destruct (Hv k patch) as (fields & -> & Hf); [simpl; by rewrite String.eqb_refl|].
  pose proof (bsorted_head_fresh _ _ _ Hs) as Hfresh. apply IH.
  - by apply bsorted_tail in Hs.
  - intros c v Hg. apply (Hv c v). simpl. destruct (String.eqb c k) eqn:E; [|done].
    apply String.eqb_eq in E as ->. by rewrite Hfresh in Hg.
  - by apply merge_component_ok.
Qed.

(** The notification is older than the last one that was accepted. *)
Definition regresses (self : StatusCache) (notification : StatusNotification) : Prop :=
  exists accepted, sc_last_timestamp self = Some accepted /\
    f64_ltb (f64_of_bits (sn_timestamp notification)) (f64_of_bits accepted) = true.

(** A field after a notification: a full one replaces, a partial one patches the
    components it names. *)
Definition field_after (before : list (string * Json)) (notification : StatusNotification)
  (component field : string) : option Json :=
  let incoming := bget component (sn_components notification) in
  if sn_full notification then bget field (fields_of incoming)
  else match incoming, bget component before with
       | None, current => bget field (fields_of current)
       | Some _, None => bget field (fields_of incoming)
       | Some _, current => patched (bget field (fields_of current)) (bget field (fields_of incoming))
       end.

Lemma apply_fields self notification component field :
  status_ok (sc_components self) -> status_ok (sn_components notification) ->
  bget field (fields_of (bget component
    (if sn_full notification then sn_components notification
     else fold_left merge_component (sn_components notification) (sc_components self))))
  = field_after (sc_components self) notification component field.
Proof.
  intros [Hs Hv] [Hns Hnv]. unfold field_after. destruct (sn_full notification); [done|].
  rewrite merge_components_lookup by done.
  destruct (bget component (sn_components notification)) as [patch|] eqn:Ep; [|done].
  destruct (bget component (sc_components self)) as [current|] eqn:Ec; [|done].
  destruct (Hnv _ _ Ep) as (fp & -> & Hfp), (Hv _ _ Ec) as (fc & -> & Hfc).
  destruct (merge_object_lookup fp fc field Hfp Hfc) as (merged & Hm & _ & Hg).
  rewrite Hm. exact Hg.
Qed.

(** C26: A notification older than the last accepted one changes nothing and asks
    for a refresh.  Any other one leaves the cache well formed with the fields of a
    full replacement or of a patch, and reports exactly the top-level fields whose
    values differ, under exactly the components that have one. *)
Theorem status_cache_applied self notification applied next :
  status_ok (sc_components self) -> status_ok (sn_components notification) ->
  StatusCache.apply self notification = (applied, next) ->
  (regresses self notification -> next = self /\ applied = mk_apply [] [] true) /\
  (~ regresses self notification ->
   sa_requires_refresh applied = false /\
   sc_last_timestamp next = Some (sn_timestamp notification) /\
   status_ok (sc_components next) /\
   (forall component field,
      bget field (fields_of (bget component (sc_components next)))
      = field_after (sc_components self) notification component field) /\
   (forall component field,
      (exists fields, In (component, fields) (sa_changed_fields applied) /\ In field fields)
      <-> differs (sc_components self) (sc_components next) component field) /\
   (forall component, In component (sa_changed_components applied)
      <-> exists field, differs (sc_components self) (sc_components next) component field)).
Proof.
  intros Hc Hn. unfold StatusCache.apply, regresses, is_some_and.
  destruct (sc_last_timestamp self) as [accepted|] eqn:El; cycle 1.
  all: try destruct (f64_ltb _ _) eqn:Et; intros [= <- <-].
  all: split; [try by (intros (? & [= <-] & ?); congruence)|].
  all: try by (intros Hr; destruct Hr; eauto).
  all: intros _; split; [done|]; split; [done|]; split;
    [by destruct (sn_full notification); [|apply merge_components_ok]|];
    split; [intros; by apply apply_fields|].
  all: apply changed_fields_exact.
Qed.
End Cache.

(** ** The replay filter *)

(** The last [n] elements. *)
Definition last_of {A : Type} (n : nat) (l : list A) : list A := drop (length l - n) l.

Lemma last_of_all {A} n (l : list A) : length l <= n -> last_of n l = l.
Proof. intros Hl. unfold last_of. by replace (length l - n) with 0 by lia. Qed.

Lemma last_of_snoc {A} n (l : list A) a : last_of n (last_of n l ++ [a]) = last_of n (l ++ [a]).
Proof.
  unfold last_of. rewrite !length_app, length_drop. simpl.
  destruct (decide (length l <= n)) as [Hle|Hgt].
  - replace (length l - n) with 0 by lia. by rewrite Nat.sub_0_r.
  - replace (length l - (length l - n) + 1 - n) with (n + 1 - n) by lia.
    destruct (decide (n = 0)) as [->|Hn].
    { replace (length l - 0) with (length l) by lia. rewrite drop_all. simpl.
      replace (length l + 1 - 0) with (length (l ++ [a])) by (rewrite length_app; simpl; lia).
      by rewrite drop_all. }
    rewrite <- (drop_app_le l [a] (length l - n)) by lia. rewrite drop_drop. f_equal. lia.
Qed.

Lemma last_of_NoDup {A} n (l : list A) : NoDup l -> NoDup (last_of n l).
Proof. intros Hl. apply (sublist_NoDup _ _ Hl), sublist_drop. Qed.

(** Expiry keeps the last fingerprints, and the set follows the order. *)
Lemma expire_last capacity order :
  NoDup order ->
  expire capacity order (list_to_set order) = (last_of capacity order, list_to_set (last_of capacity order)).
Proof.
  induction 1 as [|fingerprint order Hfresh Hnd IH]; [done|]. cbn [expire].
  destruct (Nat.ltb_spec capacity (length (fingerprint :: order))) as [Hlt|Hge].
  - assert ((list_to_set (fingerprint :: order) : gset string) ∖ {[fingerprint]} = list_to_set order) as ->.
    { cbn [list_to_set foldr]. apply set_eq. intros x. rewrite elem_of_difference, elem_of_union, !elem_of_singleton.
      split; [intros [[->|Hx] Hne]; done|]. intros Hx. split; [by right|]. intros ->.
      by apply elem_of_list_to_set in Hx. }
    rewrite IH. unfold last_of. simpl in Hlt |- *. by replace (S (length order) - capacity) with (S (length order - capacity)) by lia.
  - by rewrite last_of_all.
Qed.

Section Replay.
Context `{ShellyJson}.

(** The reference: an event is accepted unless its fingerprint is among those of
    the last [window] accepted events. *)
Fixpoint accept_reference (window : nat) (history : list string) (events : list ShellyEvent) :
  list ShellyEvent :=
  match events with
  | [] => []
  | event :: events =>
      if bool_decide (event_fingerprint event ∈ last_of window history)
      then accept_reference window history events
      else event :: accept_reference window (history ++ [event_fingerprint event]) events
  end.

(** The filter holds the window of its history. *)
Record holds_window (self : EventDeduplicator) (history : list string) : Prop := {
  hw_order : dd_order self = last_of (dd_capacity self) history;
  hw_set : dd_fingerprints self = list_to_set (dd_order self);
  hw_nodup : NoDup (dd_order self)
}.

Lemma accept_window self history event accepted next :
  holds_window self history -> EventDeduplicator.accept self event = (accepted, next) ->
  dd_capacity next = dd_capacity self /\
  accepted = negb (bool_decide (event_fingerprint event ∈ last_of (dd_capacity self) history)) /\
  holds_window next (if accepted then history ++ [event_fingerprint event] else history).
Proof.
  intros [Ho Hset Hnd]. unfold EventDeduplicator.accept.
  rewrite Hset, (bool_decide_ext _ (event_fingerprint event ∈ dd_order self)) by apply elem_of_list_to_set.
  rewrite <- Ho. destruct (bool_decide _) eqn:Ein; [by intros [= <- <-]|].
  apply bool_decide_eq_false in Ein.
  assert (NoDup (dd_order self ++ [event_fingerprint event])) as Hnd'.
  { apply NoDup_app. split; [done|]. split; [|apply NoDup_singleton].
    intros x Hx ->%list_elem_of_singleton. done. }
  assert ({[event_fingerprint event]} ∪ list_to_set (dd_order self)
          = (list_to_set (dd_order self ++ [event_fingerprint event]) : gset string)) as ->.
  { rewrite list_to_set_app_L. simpl. set_solver. }
  rewrite expire_last by done. intros [= <- <-]. split; [done|]. split; [done|].
  split; simpl; [|done|by apply last_of_NoDup].
  rewrite Ho. apply last_of_snoc.
Qed.

(** The replay filter of a session accepts exactly the events of the reference,
    whatever frames it is given: an event is dropped exactly when its fingerprint is
    among those of the last accepted events, as many as its capacity, which is at
    least one; and it never holds more of them. *)
Theorem replay_filter_reference capacity events :
  let window := Nat.max capacity 1 in
  let '(accepted, filter) := EventDeduplicator.accept_all (EventDeduplicator.new capacity) events in
  accepted = accept_reference window [] events /\
  dd_order filter = last_of window (map event_fingerprint accepted) /\
  NoDup (dd_order filter) /\ length (dd_order filter) <= window /\
  forall fingerprint, fingerprint ∈ dd_fingerprints filter <-> fingerprint ∈ dd_order filter.
Proof.
  intros window.
  enough (forall events self history, holds_window self history -> dd_capacity self = window ->
    let '(accepted, filter) := EventDeduplicator.accept_all self events in
    accepted = accept_reference window history events /\
    holds_window filter (history ++ map event_fingerprint accepted) /\ dd_capacity filter = window) as He.
  { specialize (He events (EventDeduplicator.new capacity) []).
    destruct (EventDeduplicator.accept_all _ events) as [accepted filter].
    destruct He as (Ha & [Ho Hset Hnd] & Hcap); [|done|].
    { split; simpl; [by unfold last_of; rewrite drop_nil|done|constructor]. }
    rewrite Hcap in Ho. split; [done|]. split; [done|]. split; [done|]. split.
    - rewrite Ho. unfold last_of. rewrite length_drop. lia.
    - intros fingerprint. rewrite Hset. apply elem_of_list_to_set. }
  clear events. intros events. induction events as [|event events IH]; intros self history Hw Hcap.
  { simpl. by rewrite app_nil_r. }
  cbn [EventDeduplicator.accept_all accept_reference].
  destruct (EventDeduplicator.accept self event) as [new next] eqn:Ea.
  destruct (accept_window _ _ _ _ _ Hw Ea) as (Hc & Hnew & Hw').
  rewrite Hcap in Hnew. specialize (IH next _ Hw'). rewrite Hc in IH. specialize (IH Hcap).
  destruct (EventDeduplicator.accept_all next events) as [accepted filter].
  destruct IH as (-> & Hf & Hcf). subst new.
  destruct (bool_decide _); simpl in *; (split; [done|]; split; [|done]); [done|].
  by rewrite <- app_assoc in Hf.
Qed.
End Replay.

(** ** Projected capabilities and commands *)

Section Fit.
Context `{ShellyJson} `{Uuids}.

Definition project_kind (kind : ComponentKind) (component : list (string * Json)) : list CapabilitySnapshot :=
  match kind with
  | Ck_Switch => project_switch component
  | Ck_Light => project_light component
  | Ck_Cover => project_cover component
  end.

Definition kind_name (kind : ComponentKind) : string :=
  match kind with Ck_Switch => "switch" | Ck_Light => "light" | Ck_Cover => "cover" end.

Definition kind_namespace (kind : ComponentKind) : string :=
  match kind with Ck_Switch => "Switch." | Ck_Light => "Light." | Ck_Cover => "Cover." end.

(** The capability of a component that a payload addresses. *)
Definition addressed (payload : CommandPayload) (capability : CapabilitySnapshot) : bool :=
  String.eqb (CapabilitySnapshot.schema capability) (CommandPayload.schema payload).

Lemma find_append component capabilities (payload : CommandPayload) :
  List.find (addressed payload) (append_power_and_energy component capabilities)
  = List.find (addressed payload) capabilities.
Proof.
  unfold append_power_and_energy.
  assert (forall l c, addressed payload c = false ->
    List.find (addressed payload) (l ++ [c]) = List.find (addressed payload) l) as Hskip.
  { intros l c Hc. rewrite find_app. simpl. rewrite Hc. by destruct (List.find _ l). }
  destruct (_ ≫= _) as [energy|]; [rewrite Hskip by (by destruct payload)|].
  all: destruct (_ || _); [|done]; by rewrite Hskip by (by destruct payload).
Qed.

Lemma find_projected kind component payload :
  List.find (addressed payload) (project_kind kind component)
  = match payload, kind with
    | Pl_OnOff _, (Ck_Switch | Ck_Light) =>
        (fun on => Snapshot_OnOff on Risk_Comfort) <$> boolean component "output"
    | Pl_Level _, Ck_Light =>
        (fun percent => Snapshot_Level percent Risk_Comfort) <$> number component "brightness"
    | Pl_Position _, Ck_Cover =>
        Some (Snapshot_Position (number component "current_pos") (string_of component "state") Risk_Mechanical)
    | _, _ => None
    end.
Proof.
  assert (List.find (addressed payload) (project_switch component)
    = match payload with
      | Pl_OnOff _ => (fun on => Snapshot_OnOff on Risk_Comfort) <$> boolean component "output"
      | _ => None end) as Hsw.
  { unfold project_switch. rewrite find_append. by destruct (boolean component "output"), payload. }
  destruct kind; simpl.
  - rewrite Hsw. by destruct payload.
  - unfold project_light. destruct (number component "brightness") eqn:E.
    + rewrite find_app, Hsw. destruct payload; simpl; try rewrite E; try done.
      by destruct (boolean component "output").
    + rewrite Hsw. destruct payload; simpl; by rewrite ?E.
  - unfold project_cover. rewrite find_append. by destruct payload.
Qed.

(** A projected component is of one of the three kinds. *)
Lemma project_component_kind key component endpoint :
  project_component (key, JObject component) = Some endpoint <->
  exists kind id, split_once ":" key = Some (kind_name kind, id) /\
    endpoint = mk_endpoint key None (project_kind kind component).
Proof.
  unfold project_component. simpl. split.
  - destruct (split_once ":" key) as [[name id]|]; [|done]. simpl.
    destruct (String.eqb name "switch") eqn:E1; [|destruct (String.eqb name "light") eqn:E2;
      [|destruct (String.eqb name "cover") eqn:E3; [|done]]]; bool_inv; subst name; simpl; intros [= <-].
    + by exists Ck_Switch, id.
    + by exists Ck_Light, id.
    + by exists Ck_Cover, id.
  - intros (kind & id & -> & ->). by destruct kind.
Qed.

Lemma component_parse key component :
  Component.parse key = Ok component <->
  exists id, split_once ":" key = Some (kind_name (cp_kind component), id) /\
    parse_u16 id = Some (cp_id component).
Proof.
  unfold Component.parse. destruct component as [kind n]. simpl. split.
  - destruct (split_once ":" key) as [[name id]|]; [|done]. simpl.
    destruct (String.eqb name "switch") eqn:E1; [|destruct (String.eqb name "light") eqn:E2;
      [|destruct (String.eqb name "cover") eqn:E3; [|done]]]; bool_inv; subst name; simpl;
      destruct (parse_u16 id) as [m|] eqn:Em; try done; intros [= <- <-]; exists id; done.
  - intros (id & -> & Hid). simpl. destruct kind; simpl; by rewrite Hid.
Qed.

Lemma find_component key status value :
  bsorted status -> bget key status = Some value ->
  List.find (fun endpoint => String.eqb (es_id endpoint) key) (project_components status)
  = project_component (key, value).
Proof.
  assert (forall entry endpoint, project_component entry = Some endpoint -> es_id endpoint = entry.1) as Hid.
  { intros [k v] endpoint. unfold project_component.
    destruct (split_once ":" k) as [[name id]|]; [|done]. simpl. destruct (as_object v); [|done]. simpl.
    destruct (if String.eqb name "switch" then _ else _); [|done]. by intros [= <-]. }
  intros Hs. revert value. induction Hs as [|[k v] status Hs IH Hall]; intros value; [done|].
  unfold project_components in *. cbn [bget]. rewrite String.eqb_sym.
  change (omap project_component ((k, v) :: status)) with
    (match project_component (k, v) with
     | Some endpoint => endpoint :: omap project_component status
     | None => omap project_component status
     end).
  destruct (String.eqb k key) eqn:E.
  - apply String.eqb_eq in E as ->. intros [= ->].
    destruct (project_component (key, value)) as [endpoint|] eqn:Ep; cbn [List.find].
    + by rewrite (Hid _ _ Ep), String.eqb_refl.
    + destruct (List.find _ _) as [endpoint|] eqn:Ef; [|done]. exfalso.
      apply List.find_some in Ef as [Hin Hk%String.eqb_eq].
      apply list_elem_of_In, list_elem_of_omap in Hin as ([k' v'] & Hk' & Hp).
      rewrite (Hid _ _ Hp) in Hk. simpl in Hk. subst k'.
      rewrite List.Forall_forall in Hall. apply list_elem_of_In, Hall in Hk'. simpl in Hk'.
      by rewrite str_ltb_irrefl in Hk'.
  - intros Hg. destruct (project_component (k, v)) as [endpoint|] eqn:Ep; cbn [List.find]; [|by apply IH].
    rewrite (Hid _ _ Ep). simpl. rewrite E. by apply IH.
Qed.

(** The device whose snapshot was projected from a status that holds the
    component. *)
Definition projected_from (device : DeviceRecord) (key : string) (component : list (string * Json)) : Prop :=
  exists target integration_id info status config now,
    dr_snapshot device = project_snapshot target integration_id info (Some status) config now /\
    bsorted status /\ bget key status = Some (JObject component).

Lemma pushed_projected device key component envelope :
  projected_from device key component -> ce_endpoint_id envelope = key ->
  pushed_capability device envelope
  = match project_component (key, JObject component) with
    | Some endpoint => List.find (addressed (ce_payload envelope)) (es_capabilities endpoint)
    | None => None
    end.
Proof.
  intros (target & integration_id & info & status & config & now & Hd & Hs & Hk) <-.
  unfold pushed_capability. rewrite Hd. cbn [ds_endpoints project_snapshot List.find es_id].
  destruct (String.eqb "device" (ce_endpoint_id envelope)) eqn:E.
  - apply String.eqb_eq in E as <-. simpl. by destruct (ce_payload envelope).
  - rewrite (find_component _ _ _ Hs Hk). by destruct (project_component _).
Qed.

(** The key names a component whose number is a [u16]. *)
Definition numbered (key : string) (n : N) : Prop :=
  exists kind id, split_once ":" key = Some (kind, id) /\ parse_u16 id = Some n.

(** C19: A capability that was projected from the status of a device accepts every
    command of its schema exactly when the component has a 16-bit number; the call
    then goes to the namespace of the component, with its number and the origin tag;
    and except for toggles the projected state confirms the command exactly when
    the status does. *)
Theorem commands_fit_projection device key component envelope :
  projected_from device key component -> ce_endpoint_id envelope = key ->
  (is_Some (pushed_capability device envelope) ->
   (exists call, map_command envelope = Ok call) <-> exists n, numbered key n) /\
  (forall call, map_command envelope = Ok call ->
   exists kind id n,
     split_once ":" key = Some (kind_name kind, id) /\ parse_u16 id = Some n /\
     starts_with (kind_namespace kind) (rpc_method call) = true /\
     bget "id" (rpc_params call) = Some (JNumber (number_from_u32 n)) /\
     bget "tag" (rpc_params call) = Some (JString ORIGIN_TAG) /\
     (ce_payload envelope <> Pl_OnOff Oo_Toggle ->
      is_some_and (snapshot_matches (ce_payload envelope)) (pushed_capability device envelope)
      = status_matches (ce_payload envelope) component)).
Proof.
  intros Hp Hkey. rewrite (pushed_projected _ _ _ _ Hp Hkey). split.
  - intros Hsome. destruct (project_component (key, JObject component)) as [endpoint|] eqn:Ep;
      [|by destruct Hsome]. apply project_component_kind in Ep as (kind & id & Hsplit & ->).
    cbn [es_capabilities] in Hsome. rewrite find_projected in Hsome. unfold map_command. rewrite Hkey. split.
    + intros (call & (c & Hc & _)%result_bind_ok). apply component_parse in Hc as (id' & Hs' & Hn).
      exists (cp_id c), (kind_name (cp_kind c)), id'. done.
    + intros (n & name & id' & Hs' & Hn). rewrite Hsplit in Hs'. injection Hs' as <- <-.
      assert (Component.parse key = Ok (mk_component kind n)) as -> by (apply component_parse; by exists id).
      simpl. destruct (ce_payload envelope) as [[on|]| level |[]|], kind;
        first [by destruct Hsome | by eexists].
  - unfold map_command. rewrite Hkey. intros call (c & Hc & Hcall)%result_bind_ok.
    apply component_parse in Hc as (id & Hsplit & Hn). exists (cp_kind c), id, (cp_id c).
    split; [done|]. split; [done|].
    assert (project_component (key, JObject component)
      = Some (mk_endpoint key None (project_kind (cp_kind c) component))) as ->
      by (apply project_component_kind; eauto).
    cbn [es_capabilities]. rewrite find_projected. destruct c as [kind n]. simpl in Hcall |- *.
    destruct (ce_payload envelope) as [[on|]| level |[]|], kind; try discriminate Hcall;
      injection Hcall as <-; (split; [done|]);
      try (split; [reflexivity|]; split; [reflexivity|]; intros Ht; try done).
    all: try (simpl; by destruct (boolean component "output") as [[]|], on).
    split; [|split].
    + unfold map_level. by destruct (lc_transition_ms level).
    + unfold map_level. by destruct (lc_transition_ms level).
    + intros _. simpl. by destruct (number component "brightness").
Qed.
End Fit.

(** ** What a dispatch sends *)

Section Dispatch.
Context `{HttpHeaders} `{ShellyJson} `{Sha256}.
Context (rpc_response_from_str : string -> option RpcResponse) (secret_store : bool).

(** What a dispatch has learnt: the devices it loaded, the secret, the last random
    number, and the requests it sent with the last answer. *)
Record Exchange := mk_exchange {
  xc_snapshot : option FoundationSnapshot;
  xc_secret : option (SecretRef * SecretValue);
  xc_nonce : option N;
  xc_sends : nat;
  xc_last : option (string * RpcRequest * Response)
}.

Definition learn (op : ShellyOp) : shelly_resp op -> Exchange -> Exchange :=
  match op with
  | Sc_now => fun _ t => t
  | Sc_random => fun n t => mk_exchange (xc_snapshot t) (xc_secret t) (Some n) (xc_sends t) (xc_last t)
  | Sc_load => fun r t => mk_exchange (result_ok r) (xc_secret t) (xc_nonce t) (xc_sends t) (xc_last t)
  | Sc_secret reference => fun r t =>
      mk_exchange (xc_snapshot t) (secret ← result_ok r; Some (reference, secret)) (xc_nonce t) (xc_sends t)
        (xc_last t)
  | Sc_send url request _ => fun r t =>
      mk_exchange (xc_snapshot t) (xc_secret t) (xc_nonce t) (S (xc_sends t))
        (response ← result_ok r; Some (url, request, response))
  end.

(** The device of a command among those loaded, with its place in the network and
    the secret of its integration. *)
Definition device_of (snapshot : FoundationSnapshot) (command : CommandEnvelope) (device : DeviceRecord) : Prop :=
  List.find (fun device => String.eqb (ds_id (dr_snapshot device)) (ce_device_id command))
    (fs_devices snapshot) = Some device /\ ds_integration (dr_snapshot device) = "shelly".

Definition device_url (device : DeviceRecord) : option string :=
  location ← head (ds_network (dr_snapshot device));
  Some ("http://" +:+ (if contains ":" (nl_host location) then "[" +:+ nl_host location +:+ "]"
                       else nl_host location) +:+ ":" +:+ show_N (nl_port location) +:+ "/rpc").

Definition secret_of (snapshot : FoundationSnapshot) (device : DeviceRecord) : option SecretRef :=
  integration ← List.find (fun integration => String.eqb (ii_id integration) (dr_integration_id device))
                  (fs_integrations snapshot);
  ii_credential_ref integration.

(** An authorization answers the challenge of the last response to the same
    request, which was unauthorised, with the secret of the device and a number
    just drawn; the second one only a challenge that says the first was stale. *)
Definition answers_challenge (snapshot : FoundationSnapshot) (device : DeviceRecord) (url : string)
  (request : RpcRequest) (header : HeaderValue) (t : Exchange) : Prop :=
  exists reference password response challenge nonce,
    secret_of snapshot device = Some reference /\ xc_secret t = Some (reference, password) /\
    xc_last t = Some (url, request, response) /\ is_unauthorized response = true /\
    parse (rs_www_authenticate response) = Ok challenge /\ xc_nonce t = Some nonce /\
    authorization challenge password "POST" "/rpc" 1 nonce = Ok header /\
    (2 <= xc_sends t -> dg_stale challenge = true).

(** What an operation of a dispatch rests on. *)
Definition justified (command : CommandEnvelope) (op : ShellyOp) (t : Exchange) : Prop :=
  match op with
  | Sc_now | Sc_random | Sc_load => True
  | Sc_secret reference =>
      exists snapshot device, xc_snapshot t = Some snapshot /\ device_of snapshot command device /\
        secret_of snapshot device = Some reference
  | Sc_send url request header =>
      exists call snapshot device,
        map_command command = Ok call /\ rq_method request = rpc_method call /\
        rq_params request = rpc_params call /\
        xc_snapshot t = Some snapshot /\ device_of snapshot command device /\
        device_url device = Some url /\ xc_sends t < 3 /\
        match header with
        | None => xc_sends t = 0
        | Some header => answers_challenge snapshot device url request header t
        end
  end.

Abbreviation governed command m t Q := (wp (justified command) learn (fun _ _ _ => True) m t Q).

(** The last request was answered with a result. *)
Definition accepted (value : Json) (t : Exchange) : Prop :=
  exists url request response, xc_last t = Some (url, request, response) /\
    is_success response = true /\ decode_rpc rpc_response_from_str response = Ok value.

Definition answered (r : result Json CommandFailure) (t : Exchange) : Prop :=
  match r with Ok value => accepted value t | Err _ => True end.

(** The parts that stay the same during the requests. *)
Record exchanging (command : CommandEnvelope) (target : Target) (request : RpcRequest)
  (snapshot : FoundationSnapshot) (device : DeviceRecord) (t : Exchange) : Prop := {
  xg_call : exists call, map_command command = Ok call /\ rq_method request = rpc_method call /\
              rq_params request = rpc_params call;
  xg_snapshot : xc_snapshot t = Some snapshot;
  xg_device : device_of snapshot command device;
  xg_url : device_url device = Some (tg_url target);
  xg_secret : forall password, tg_credential target = Some password ->
    exists reference, secret_of snapshot device = Some reference /\ xc_secret t = Some (reference, password)
}.

Lemma decode_accepted response value :
  decode_rpc rpc_response_from_str response = Ok value -> is_success response = true.
Proof. unfold decode_rpc. by destruct (is_success response). Qed.

Lemma attempts_governed command target request snapshot device password challenge response attempts t :
  exchanging command target request snapshot device t -> tg_credential target = Some password ->
  xc_last t = Some (tg_url target, request, response) -> is_unauthorized response = true ->
  parse (rs_www_authenticate response) = Ok challenge -> xc_sends t + length attempts <= 3 ->
  (2 <= xc_sends t -> dg_stale challenge = true) ->
  governed command (rpc_attempts rpc_response_from_str (tg_url target) request password challenge attempts) t answered.
Proof.
  revert challenge response t. induction attempts as [|attempt attempts IH];
    intros challenge response t Hx Hpw Hlast H401 Hparse Hsends Hstale; [exact I|].
  simpl. split; [exact I|]. intros nonce _.
  destruct (authorization challenge password "POST" "/rpc" 1 nonce) as [header|] eqn:Eh; [|exact I].
  simpl. split.
  - destruct (xg_call _ _ _ _ _ _ Hx) as (call & Hcall & Hm & Hpar). destruct (xg_secret _ _ _ _ _ _ Hx _ Hpw) as (reference & Hr & Hs).
    exists call, snapshot, device. split; [done|]. split; [done|]. split; [done|].
    split; [apply Hx|]. split; [apply Hx|]. split; [apply Hx|]. simpl in Hsends. split; [simpl; lia|].
    exists reference, password, response, challenge, nonce. repeat (split; [done|]). done.
  - intros [response'|e] _; [|exact I]. simpl. destruct (is_unauthorized response') eqn:E401; simpl.
    + destruct (parse (rs_www_authenticate response')) as [refreshed|e] eqn:Er; unfold try_bind; simpl; [|exact I].
      destruct (attempt =? 0); simpl; [|exact I]. destruct (dg_stale refreshed) eqn:Est; simpl; [|exact I].
      apply (IH refreshed response'); simpl; try done.
      * destruct Hx as [? ? ? ? Hs]. by split.
      * simpl in Hsends. lia.
    + unfold answered. destruct (decode_rpc _ response') as [value|] eqn:Ed; [|exact I].
      exists (tg_url target), request, response'. split; [done|]. split; [by eapply decode_accepted | done].
Qed.

Lemma rpc_governed command target call snapshot device t :
  (forall request, rq_method request = rpc_method call -> rq_params request = rpc_params call ->
    exchanging command target request snapshot device t) ->
  xc_sends t = 0 ->
  governed command (rpc rpc_response_from_str target (rpc_method call) (rpc_params call)) t answered.
Proof.
  intros Hx Hsends. unfold rpc, ask, send_rpc, or_failure, try_bind. cbn -[rpc_attempts]. split; [exact I|]. intros id _.
  set (request := mk_rpc_request id (rpc_method call) (rpc_params call)).
  specialize (Hx request eq_refl eq_refl). split.
  - destruct (xg_call _ _ _ _ _ _ Hx) as (call' & Hcall & Hm & Hpar).
    exists call', snapshot, device. split; [done|]. split; [done|]. split; [done|].
    split; [apply Hx|]. split; [apply Hx|]. split; [apply Hx|]. simpl. rewrite Hsends. split; [lia|done].
  - intros [response|e] _; [|exact I]. cbn -[rpc_attempts].
    destruct (is_unauthorized response) eqn:E401; cbn -[rpc_attempts].
    + destruct (tg_credential target) as [password|] eqn:Epw; cbn -[rpc_attempts]; [|exact I].
      destruct (parse (rs_www_authenticate response)) as [challenge|e] eqn:Ep; cbn -[rpc_attempts]; [|exact I].
      apply (attempts_governed _ _ _ snapshot device _ _ response); simpl; try done; try lia.
      destruct Hx as [? ? ? ? Hs]. by split.
    + unfold answered. destruct (decode_rpc _ response) as [value|] eqn:Ed; [|exact I].
      exists (tg_url target), request, response. split; [done|]. split; [by eapply decode_accepted | done].
Qed.

(** The target of a command is the place of its device, with its secret. *)
Lemma target_governed command t :
  xc_sends t = 0 ->
  governed command (target secret_store command) t (fun r t => xc_sends t = 0 /\
    match r with
    | Ok target => exists snapshot device, xc_snapshot t = Some snapshot /\ device_of snapshot command device /\
        device_url device = Some (tg_url target) /\
        forall password, tg_credential target = Some password ->
          exists reference, secret_of snapshot device = Some reference /\ xc_secret t = Some (reference, password)
    | Err _ => True
    end).
Proof.
  intros Hsends. simpl. split; [exact I|]. intros [snapshot|e] _; [|done]. unfold try_bind. simpl.
  destruct (List.find _ (fs_devices snapshot)) as [device|] eqn:Ed; simpl; [|done].
  destruct (String.eqb (ds_integration _) "shelly") eqn:Ei; simpl; [|done]. apply String.eqb_eq in Ei.
  destruct (head (ds_network _)) as [location|] eqn:El; simpl; [|done].
  destruct (List.find _ (fs_integrations snapshot)) as [integration|] eqn:En; simpl; [|done].
  assert (device_url device = Some ("http://" +:+ (if contains ":" (nl_host location)
    then "[" +:+ nl_host location +:+ "]" else nl_host location) +:+ ":" +:+ show_N (nl_port location) +:+ "/rpc"))
    as Hurl by (unfold device_url; by rewrite El).
  destruct (ii_credential_ref integration) as [reference|] eqn:Er; simpl.
  - assert (secret_of snapshot device = Some reference) as Hr by (unfold secret_of; by rewrite En; simpl).
    destruct secret_store; simpl; [|done]. split; [by exists snapshot, device|].
    intros [password|e] _; simpl; [|done]. split; [done|].
    exists snapshot, device. split; [done|]. split; [done|]. split; [done|].
    intros p [= <-]. by exists reference.
  - split; [done|]. exists snapshot, device. split; [done|]. split; [done|]. by split.
Qed.

(** C30: Whatever its operations answer, a dispatch sends only the call its command
    maps to, to the Shelly device that was loaded for it, in at most three requests;
    it reads only the secret of that device's integration and sends an authorization
    only as the answer to the challenge of the same unanswered request, the second
    one only when the first was stale; and it acknowledges only a result of the
    device. *)
Theorem shelly_dispatch_governed command :
  governed command (dispatch rpc_response_from_str secret_store command) (mk_exchange None None None 0 None)
    (fun r t => match r with Ok _ => exists value, accepted value t | Err _ => True end).
Proof.
  unfold dispatch. apply wp_try. cbn [wp]. destruct (map_command command) as [call|e] eqn:Ec; [|exact I].
  apply wp_try. eapply wp_mono; [by apply target_governed|].
  intros [target|e] t [Hsends Ht]; [|exact I]. destruct Ht as (snapshot & device & Hs & Hd & Hu & Hp).
  apply wp_try. eapply wp_mono.
  - apply (rpc_governed command target call snapshot device); [|done]. intros request Hm Hpar.
    split; try done. by exists call.
  - intros [value|e] t' Ha; [|exact I]. split; [exact I|]. intros now _. by exists value.
Qed.
End Dispatch.

(** ** The session that cannot be cancelled *)

(** The sessions in their world: the lock of the map, the map, and of every task
    that was spawned whether it is cancelled and how it ended. *)
Record Sessions := mk_sessions {
  ss_locked : bool;
  ss_map : gmap DeviceId TaskId;
  ss_tasks : list (bool * option SessionEnd)
}.

Definition no_sessions : Sessions := mk_sessions false ∅ [].

(** A lock is granted when nobody holds it, and a task is joined when it has ended. *)
Definition sup_legal (op : SupervisorOp) : supervisor_resp op -> Sessions -> Prop :=
  match op with
  | Su_lock => fun _ w => ss_locked w = false
  | Su_remove device_id => fun r w => r = ss_map w !! device_id
  | Su_take => fun r w => r ≡ₚ (map_to_list (ss_map w)).*2
  | Su_spawn _ => fun r w => r = length (ss_tasks w)
  | Su_join task => fun r w => exists cancelled, ss_tasks w !! task = Some (cancelled, Some r)
  | _ => fun _ _ => True
  end.

Definition sup_after (op : SupervisorOp) : supervisor_resp op -> Sessions -> Sessions :=
  match op with
  | Su_lock => fun _ w => mk_sessions true (ss_map w) (ss_tasks w)
  | Su_unlock => fun _ w => mk_sessions false (ss_map w) (ss_tasks w)
  | Su_remove device_id => fun _ w => mk_sessions (ss_locked w) (delete device_id (ss_map w)) (ss_tasks w)
  | Su_take => fun _ w => mk_sessions (ss_locked w) ∅ (ss_tasks w)
  | Su_insert device_id task => fun _ w =>
      mk_sessions (ss_locked w) (<[device_id := task]> (ss_map w)) (ss_tasks w)
  | Su_spawn _ => fun _ w => mk_sessions (ss_locked w) (ss_map w) (ss_tasks w ++ [(false, None)])
  | Su_cancel task => fun _ w =>
      mk_sessions (ss_locked w) (ss_map w) (alter (fun state => (true, state.2)) task (ss_tasks w))
  | Su_join _ => fun _ w => w
  end.

Inductive SupervisorCall := Call_Start (device_id : DeviceId) | Call_Stop (device_id : DeviceId) | Call_Shutdown.

Definition call_program (c : SupervisorCall) : SupervisorProg unit :=
  let! _ := match c with
            | Call_Start device_id => start device_id
            | Call_Stop device_id => stop device_id
            | Call_Shutdown => shutdown
            end in Ret tt.

(** The calls interleave at their operations, and sessions end, all but those of
    [silent]. *)
Inductive sup_step (silent : TaskId -> Prop) :
  Sessions * list (SupervisorProg unit) -> Sessions * list (SupervisorProg unit) -> Prop :=
| sup_call s s' : world_step sup_legal sup_after s s' -> sup_step silent s s'
| sup_end task cancelled ended w calls :
    ~ silent task -> ss_tasks w !! task = Some (cancelled, None) ->
    sup_step silent (w, calls)
      (mk_sessions (ss_locked w) (ss_map w) (<[task := (cancelled, Some ended)]> (ss_tasks w)), calls).

(** What is left of a start that waits for the previous session of its device. *)
Definition start_joining (device_id : DeviceId) (previous : TaskId) : SupervisorProg unit :=
  let! _ :=
    finally
      (try! _ :=
         (let! ended := su (Su_join previous) in
          Ret (match ended with End_Returned => Ok tt | End_Panicked => Err End_Panicked end)) in
       let! task := su (Su_spawn device_id) in
       let! _ := su (Su_insert device_id task) in
       Ret (Ok tt))
      (su Su_unlock) in
  Ret tt.

(** The token of the lock. *)
Definition lock_needs (op : SupervisorOp) (t : bool) : Prop :=
  match op with Su_lock => t = false | Su_unlock => t = true | _ => True end.
Definition lock_gives (op : SupervisorOp) (_ : supervisor_resp op) (t : bool) : bool :=
  match op with Su_lock => true | Su_unlock => false | _ => t end.
Definition lock_held (w : Sessions) (t : bool) : Prop := t = true -> ss_locked w = true.
Definition lock_apart (t u : bool) : Prop := ~ (t = true /\ u = true).

Abbreviation lock_wp m t Q := (wp lock_needs lock_gives (fun _ _ _ => True) m t Q).
Abbreviation locks_ok w calls toks :=
  (tasks_ok lock_needs lock_gives (fun _ _ _ => True) lock_held lock_apart w calls toks).

Lemma cancel_lock managed t (Q : _ -> _ -> Prop) :
  (forall r, Q r t) -> lock_wp (cancel managed) t Q.
Proof. intros HQ. repeat (split; [exact I|]; intros ? _). apply HQ. Qed.

Lemma cancel_all_lock managed error :
  lock_wp (cancel_all managed error) false (fun _ _ => True).
Proof.
  revert error. induction managed as [|session managed IH]; intros error; [exact I|].
  apply wp_bind, cancel_lock. intros r. apply IH.
Qed.

Lemma call_safe c : lock_wp (call_program c) false (fun _ _ => True).
Proof.
  apply wp_bind. eapply wp_mono with (Q := fun _ _ => True); [|done].
  destruct c as [device_id|device_id|].
  - split; [done|]. intros [] _. apply wp_finally. split; [exact I|]. intros previous _.
    apply wp_try. eapply wp_mono with (Q := fun _ t => t = true).
    + destruct previous; [by apply cancel_lock|done].
    + intros [u|e] t ->; [|split; [done|]; by intros [] _].
      repeat (split; [exact I|]; intros ? _). split; [done|]. by intros [] _.
  - split; [done|]. intros [] _. split; [exact I|]. intros previous _.
    split; [done|]. intros [] _. destruct previous; [by apply cancel_lock|done].
  - split; [done|]. intros [] _. split; [exact I|]. intros managed _.
    split; [done|]. intros [] _. apply cancel_all_lock.
Qed.

Lemma lock_apart_sym t u : lock_apart t u -> lock_apart u t.
Proof. unfold lock_apart. tauto. Qed.

Lemma sup_after_locked op r w :
  op <> Su_lock -> op <> Su_unlock -> ss_locked (sup_after op r w) = ss_locked w.
Proof. by destruct op. Qed.

Lemma locks_step silent w calls w' calls' toks :
  locks_ok w calls toks -> sup_step silent (w, calls) (w', calls') -> exists toks', locks_ok w' calls' toks'.
Proof.
  intros Hk Hs. inversion Hs as [? ? Hw|task c ended ? ? Hsil Ht]; subst.
  - inversion Hw as [i op k r ? ? Hi Hr]; subst.
    destruct (tasks_ok_head _ _ _ _ _ _ _ _ _ _ _ Hk Hi) as (t & Ht & Hheld & Hneeds & Hk').
    exists (<[i := lock_gives op r t]> toks).
    apply (tasks_ok_insert _ _ _ _ _ lock_apart_sym w _ calls toks i _ t); [done|done| |by apply Hk'|].
    + destruct op; simpl in *; try exact Hheld; by intros ?.
    + unfold lock_held, lock_apart in *. intros u Hu Ha. simpl in Hneeds.
      destruct op; simpl in *; subst; try (split; [done|tauto]).
      * destruct u; [specialize (Hu eq_refl); congruence|]. split; [done|]. by intros [].
      * destruct u; [by destruct Ha|]. split; [done|]. by intros [].
  - exists toks. eapply tasks_ok_world; [exact Hk|]. done.
Qed.

Lemma locks_start starts :
  locks_ok no_sessions (map call_program starts) (map (fun _ => false) starts).
Proof.
  split.
  - apply Forall2_same_length_lookup. rewrite !length_map. split; [done|].
    intros i m t. rewrite !list_lookup_fmap. destruct (starts !! i) as [c|]; [|done].
    intros [= <-] [= <-]. split; [done|]. apply call_safe.
  - intros i j t u Hne. rewrite list_lookup_fmap. destruct (starts !! i); [|done].
    intros [= <-] _ [? _]. done.
Qed.

Lemma locks_reachable silent s s' :
  rtc (sup_step silent) s s' -> (exists toks, locks_ok s.1 s.2 toks) -> exists toks, locks_ok s'.1 s'.2 toks.
Proof.
  induction 1 as [s|[w calls] [w1 calls1] s' Hstep _ IH]; [done|].
  intros (toks & Hk). apply IH. by eapply locks_step.
Qed.

(** The session stays as it is while it is silent. *)
Lemma session_kept op r w task cancelled :
  ss_tasks w !! task = Some (cancelled, None) ->
  exists cancelled', ss_tasks (sup_after op r w) !! task = Some (cancelled', None).
Proof.
  intros Ht. destruct op; simpl; try by exists cancelled.
  - exists cancelled. by apply lookup_app_l_Some.
  - destruct (decide (task0 = task)) as [->|Hne].
    + rewrite list_lookup_alter_eq, Ht. by exists true.
    + rewrite list_lookup_alter_ne by done. by exists cancelled.
Qed.

(** A start that joins a session holds the lock. *)
Lemma joining_locked w calls toks i device_id previous :
  locks_ok w calls toks -> calls !! i = Some (start_joining device_id previous) -> ss_locked w = true.
Proof.
  intros Hk Hi. destruct (tasks_ok_head _ _ _ _ _ _ _ _ _ _ _ Hk Hi) as (t & _ & Hheld & _ & Hk').
  apply Hheld. specialize (Hk' End_Panicked I). simpl in Hk'. by destruct Hk'.
Qed.

Lemma loop_all_ops {Op : Type} {resp : Op -> Type} {S B : Type} (P : Op -> Prop) fuel
  (round : S -> Prog resp (Flow S B)) state :
  (forall state, all_ops P (round state) (fun _ => True)) ->
  all_ops P (loop_for fuel round state) (fun _ => True).
Proof.
  intros Hround. revert state. induction fuel as [|fuel IH]; intros state; [exact I|].
  apply all_ops_bind. eapply all_ops_mono; [apply Hround|]. intros [next|value] _; [apply IH|exact I].
Qed.

Section Silent.
Context `{ShellyJson} `{Sha256} `{Chrono} `{TimeDeltas} `{!FrameDecoding}.

(** The operation by which a session sees its cancellation. *)
Definition never (op : SocketOp) : Prop := op <> Ws_select.

(** Reading the baseline never looks at the cancellation. *)
Lemma baseline_uncancelled fuel secret state :
  all_ops never (loop_for fuel (baseline_round secret) state) (fun _ => True).
Proof.
  apply loop_all_ops. clear state. intros state. split; [done|]. intros [[[text| | | | |]|e]|]; try exact I.
  cbn [bind]. destruct (frame_from_str text) as [frame|]; [|exact I]. destruct (negb _); [exact I|].
  destruct (field frame "result" ≫= as_object) as [result|]; [exact I|].
  destruct (field frame "error" ≫= as_object) as [error|]; [|exact I].
  apply all_ops_bind. eapply all_ops_mono with (Q := fun _ => True); [|by intros [] _].
  destruct state as [attempts request]. unfold answer_challenge.
  destruct (bool_decide _); [|exact I]. destruct (N.ltb attempts 2); [|exact I].
  destruct secret as [password|]; [|exact I]. destruct (bget "message" error ≫= as_str) as [message|]; [|exact I].
  apply all_ops_try. cbn [all_ops]. apply all_ops_try. cbn [all_ops ok_or].
  apply all_ops_try. destruct (from_rpc_challenge _); [|exact I]. split; [done|]. intros nonce.
  apply all_ops_try. destruct (rpc_authorization _ _ _ _); [|exact I]. split; [done|].
  intros [u|e]; exact I.
Qed.

(** C28: A session that waits for its baseline performs no operation that sees its
    cancellation, however many frames it reads.  A start that waits for such a
    session to end therefore holds the lock of the supervisor: as long as the device
    stays silent the start does not proceed, and no call that has not begun yet, for
    whatever device, does anything. *)
Theorem silent_session_blocks starts w calls i device_id previous cancelled w' calls' :
  rtc (sup_step (fun _ => False)) (no_sessions, map call_program starts) (w, calls) ->
  calls !! i = Some (start_joining device_id previous) ->
  ss_tasks w !! previous = Some (cancelled, None) ->
  rtc (sup_step (fun task => task = previous)) (w, calls) (w', calls') ->
  (forall fuel secret state, all_ops never (loop_for fuel (baseline_round secret) state) (fun _ => True)) /\
  ss_locked w' = true /\ calls' !! i = Some (start_joining device_id previous) /\
  forall j c, calls !! j = Some (call_program c) -> calls' !! j = Some (call_program c).
Proof.
  intros Hr Hi Ht Hs. split; [exact baseline_uncancelled|].
  destruct (locks_reachable _ _ _ Hr) as (toks & Hk); [eexists; apply locks_start|].
  cbn [fst snd] in Hk. clear Hr.
  remember (w, calls) as s eqn:E. remember (w', calls') as s' eqn:E'.
  revert w calls toks cancelled E E' Hi Ht Hk.
  induction Hs as [s|s [w1 calls1] s' Hstep _ IH]; intros w calls toks cancelled -> E' Hi Ht Hk.
  { injection E' as <- <-. split; [by eapply joining_locked|done]. }
  pose proof (joining_locked _ _ _ _ _ _ Hk Hi) as Hlocked.
  assert (calls1 !! i = Some (start_joining device_id previous) /\
    (exists cancelled', ss_tasks w1 !! previous = Some (cancelled', None)) /\
    forall j c, calls !! j = Some (call_program c) -> calls1 !! j = Some (call_program c)) as (Hi1 & (c1 & Ht1) & Hj1).
  { inversion Hstep as [? ? Hw|task c ended ? ? Hsil Htask]; subst.
    - inversion Hw as [j op k r ? ? Hj Hlegal]; subst.
      split; [|split; [by eapply session_kept|]].
      + destruct (decide (j = i)) as [->|Hne]; [|by rewrite list_lookup_insert_ne].
        exfalso. rewrite Hi in Hj. injection Hj as <- _. simpl in Hlegal.
        destruct Hlegal as (c & Hc). congruence.
      + intros j' c Hc. destruct (decide (j = j')) as [->|Hne]; [|by rewrite list_lookup_insert_ne].
        exfalso. rewrite Hc in Hj. destruct c; injection Hj as <- _; simpl in Hlegal; congruence.
    - split; [done|]. split; [|done]. exists cancelled. simpl. by rewrite list_lookup_insert_ne by congruence. }
  destruct (locks_step _ _ _ _ _ _ Hk Hstep) as (toks1 & Hk1).
  destruct (IH w1 calls1 toks1 c1 eq_refl E' Hi1 Ht1 Hk1) as (? & ? & Hj).
  split; [done|]. split; [done|]. intros j c Hc. by apply Hj, Hj1.
Qed.
End Silent.

(** ** Reconnects *)

(** C15: Under a validated policy with a cap of at most [2 ^ 32] seconds the delay
    before a reconnect exists, so the multiplication never panics, for every attempt
    and every sample that is a number; it lies between the doubled base of the
    attempt and the cap, and never below the base. *)
Theorem reconnect_delay_bounded base cap ratio stable policy attempt sample :
  BackoffPolicy.new base cap ratio stable = Some policy ->
  (cap <= duration_secs (2 ^ 32))%N ->
  SpecFloat.valid_binary f64_prec f64_emax ratio = true ->
  SpecFloat.valid_binary f64_prec f64_emax sample = true -> sample <> SpecFloat.S754_nan ->
  exists delay, BackoffPolicy.delay policy attempt sample = Some delay /\
    (base <= N.min (base * 2 ^ N.min attempt 31) cap <= delay)%N /\ (delay <= cap)%N.
Proof.
  unfold BackoffPolicy.new. destruct (_ || _) eqn:E; [done|]. intros [= <-] Hcap Hr Hs Hn.
  apply orb_false_iff in E as [E Hratio]. apply negb_false_iff, andb_true_iff in Hratio as [Hr0 Hr1].
  apply orb_false_iff in E as [E _]. apply orb_false_iff in E as [Hb%N.eqb_neq Hcb%N.ltb_ge].
  assert (duration_secs (2 ^ 32) <= duration_max)%N as Hmax by done.
  assert (BackoffPolicy.exponential (mk_backoff base cap ratio stable) attempt
          = N.min (base * 2 ^ N.min attempt 31) cap) as He.
  { unfold BackoffPolicy.exponential, duration_checked_mul. simpl bp_base. simpl bp_cap.
    destruct (N.leb_spec (base * 2 ^ N.min attempt 31) duration_max); lia. }
  assert (base <= base * 2 ^ N.min attempt 31)%N as Hdouble.
  { pose proof (N.pow_nonzero 2 (N.min attempt 31)). nia. }
  unfold BackoffPolicy.delay. rewrite He. simpl bp_jitter_ratio. simpl bp_cap.
  set (exponential := N.min (base * 2 ^ N.min attempt 31) cap) in *.
  destruct (below_duration 40 (f64_mul (f64_mul ratio (f64_clamp f64_zero f64_one sample))
    (as_secs_f64 exponential))) as [jitter Hj]; [|lia|].
  { change 40%Z with (3 + 36 + 1)%Z. apply f64_mul_below; [|apply secs_below; lia|lia].
    change 3%Z with (1 + 1 + 1)%Z. apply f64_mul_below; [|by apply clamp_unit|lia].
    rewrite f64_one_is in Hr1. by eapply unit_below; [|exact Hr|exact Hr0|exact Hr1]. }
  unfold duration_mul_f64. rewrite Hj. simpl. eexists. split; [done|].
  unfold duration_saturating_add. lia.
Qed.

(** ** Concrete devices *)

#[local] Existing Instance integer_json.

(** Numbers that are integers, and an encoding that names the keys of a map. *)
#[local] Instance integer_numbers : ShellyJson :=
  {| number_as_f64 := fun z => Some (bits_of_f64 (f64_of_Z z));
     number_from_f64 := fun bits =>
       match f64_of_bits bits with
       | SpecFloat.S754_zero _ => Some 0%Z
       | SpecFloat.S754_finite s m e =>
           let n := if (0 <=? e)%Z then (Zpos m * 2 ^ e)%Z else (Zpos m / 2 ^ (- e))%Z in
           Some (if s then (- n)%Z else n)
       | _ => None
       end;
     number_from_u32 := Z.of_N;
     map_to_string := fun m => Some (join "," (bkeys m)) |}.

(** Conversion of durations within the range of the date library. *)
Definition ranged_delta (d : Duration) : option TimeDelta :=
  if (Z.of_N d <=? i64_max * nanos_per_milli)%Z then Some (Z.of_N d) else None.

Lemma ranged_delta_exact d t : ranged_delta d = Some t -> t = Z.of_N d.
Proof. unfold ranged_delta. case_match; congruence. Qed.

#[local] Instance ranged_deltas : TimeDeltas :=
  {| time_delta_from_std := ranged_delta; time_delta_exact := ranged_delta_exact |}.

#[local] Existing Instance ranged_chrono.

#[local] Instance named_uuids : Uuids :=
  {| uuid_v4 := fun n => "random-" +:+ show_N (N.of_nat n); uuid_v5 := fun _ name => name |}.

Definition seconds_bits (seconds : Z) : F64 := bits_of_f64 (f64_of_Z seconds).

Definition lamp_fields (output : bool) : list (string * Json) :=
  [("brightness"%string, JNumber 40%Z); ("output"%string, JBool output)].

Definition lamp_status : list (string * Json) := [("light:0"%string, JObject (lamp_fields false))].

Definition lamp_cache : StatusCache := mk_cache lamp_status (Some (seconds_bits 100)).

(** The lamp is switched on and a relay appears. *)
Definition lamp_on : StatusNotification :=
  mk_status (seconds_bits 101) false
    [("light:0"%string, JObject [("output"%string, JBool true)]);
     ("switch:1"%string, JObject [("output"%string, JBool false)])].

Ltac concrete_status :=
  split; [repeat constructor|];
  intros ? ?; simpl; repeat (case_match; [intros [= <-]; eexists; split; [reflexivity|repeat constructor]|]);
  discriminate.

Lemma status_cache_applied_witness :
  sa_changed_fields (StatusCache.apply lamp_cache lamp_on).1
  = [("light:0", ["output"]); ("switch:1", ["output"])]%string /\
  (exists fields, In ("light:0"%string, fields) (sa_changed_fields (StatusCache.apply lamp_cache lamp_on).1)
     /\ In "output"%string fields) /\
  bget "brightness" (fields_of (bget "light:0" (sc_components (StatusCache.apply lamp_cache lamp_on).2)))
  = Some (JNumber 40%Z).
Proof.
  split; [vm_compute; reflexivity|].
  destruct (status_cache_applied lamp_cache lamp_on (StatusCache.apply lamp_cache lamp_on).1
    (StatusCache.apply lamp_cache lamp_on).2) as [_ Hok]; [concrete_status|concrete_status|by apply surjective_pairing|].
  destruct Hok as (_ & _ & _ & Hf & Hc & _).
  - intros (accepted & [= <-] & Hlt). vm_compute in Hlt. discriminate Hlt.
  - split; [apply Hc; vm_compute; discriminate|]. rewrite Hf. vm_compute. reflexivity.
Defined.

(** A patch that names a component for the first time keeps its nulls, so the same
    frame again is reported as another change. *)
Theorem replayed_patch_changes :
  let frame := mk_status (seconds_bits 101) false [("switch:0"%string, JObject [("errors"%string, JNull)])] in
  let '(first, cache) := StatusCache.apply empty_cache frame in
  let '(second, cache') := StatusCache.apply cache frame in
  sa_changed_fields first = [("switch:0", ["errors"])]%string /\
  sa_changed_fields second = [("switch:0", ["errors"])]%string /\ cache <> cache'.
Proof. vm_compute. split; [reflexivity|]. split; [reflexivity|discriminate]. Qed.

(** A frame with a finite timestamp beyond the range of the date library is
    accepted, and its instant panics the session. *)
Theorem far_timestamp_panics :
  parse_notification (Some (mk_rpc_envelope "shelly" "homemagic" "NotifyStatus"
    (JObject [("light:0"%string, JObject (lamp_fields true)); ("ts"%string, JNumber 10000000000000%Z)])))
  = Ok (Nf_Status (mk_status (seconds_bits 10000000000000) false
          [("light:0"%string, JObject (lamp_fields true))])) /\
  timestamp_to_utc (seconds_bits 10000000000000) = Ret None.
Proof. vm_compute. split; reflexivity. Qed.

Definition lamp_device : DeviceRecord :=
  mk_device "home" "shelly-1"
    (project_snapshot (mk_discovered (V4 192 168 1 20) 80) "shelly-1"
       (mk_info "lamp" "AABBCC" "SNDM" 2 None None None None false None) (Some lamp_status) None 0)
    Enrolled (mk_availability Av_Online 0 None) (mk_timestamps 0 0 (Some 0%Z)) ∅ ∅ [].

Definition lamp_command : CommandEnvelope :=
  mk_envelope "command" "actor" "lamp" "light:0" (mk_descriptor "on_off" 1 Risk_Comfort)
    (Pl_OnOff (Oo_Set true)) (mk_key "key") 10 None false "correlation" None None 0.

Lemma commands_fit_projection_witness :
  (exists call, map_command lamp_command = Ok call /\ rpc_method call = "Light.Set"%string) /\
  (exists call, map_command lamp_command = Ok call) /\
  is_some_and (snapshot_matches (Pl_OnOff (Oo_Set true))) (pushed_capability lamp_device lamp_command) = false.
Proof.
  split; [eexists; split; [reflexivity|reflexivity]|].
  destruct (commands_fit_projection lamp_device "light:0" (lamp_fields false) lamp_command) as [Haccept Hagree].
  - exists (mk_discovered (V4 192 168 1 20) 80), "shelly-1"%string,
      (mk_info "lamp" "AABBCC" "SNDM" 2 None None None None false None), lamp_status, None, 0%Z.
    split; [reflexivity|]. split; [repeat constructor|reflexivity].
  - reflexivity.
  - assert (exists call, map_command lamp_command = Ok call) as [call Hcall].
    { apply Haccept; [vm_compute; eauto|]. exists 0%N, "light"%string, "0"%string. split; reflexivity. }
    split; [by exists call|]. destruct (Hagree _ Hcall) as (kind & id & n & _ & _ & _ & _ & _ & Heq).
    change (ce_payload lamp_command) with (Pl_OnOff (Oo_Set true)) in Heq.
    rewrite Heq by discriminate. reflexivity.
Defined.

Lemma reconnect_delay_bounded_witness :
  exists delay, BackoffPolicy.delay BackoffPolicy.default 3 f64_half = Some delay /\
    (duration_secs 8 <= delay <= duration_secs 60)%N.
Proof.
  destruct (reconnect_delay_bounded (duration_secs 1) (duration_secs 60) (f64_of_decimal false 25 (-2))
    (duration_secs 300) BackoffPolicy.default 3 f64_half) as (delay & Hd & Hl & Hu);
    [vm_compute; reflexivity|vm_compute; discriminate|vm_compute; reflexivity|vm_compute; reflexivity|vm_compute; discriminate|].
  exists delay. split; [exact Hd|]. split; [|exact Hu].
  change (N.min _ _) with (duration_secs 8) in Hl. apply Hl.
Defined.

(** Two starts of a lamp, and a start of a plug that comes after them. *)
Definition three_starts : list SupervisorCall := [Call_Start "lamp"; Call_Start "lamp"; Call_Start "plug"].

Definition silent_lamp : Sessions := mk_sessions true ∅ [(true, None)].

Lemma sup_call_op silent i op k (r : supervisor_resp op) w calls s :
  calls !! i = Some (Io op k) -> sup_legal op r w ->
  rtc (sup_step silent) (sup_after op r w, <[i := k r]> calls) s -> rtc (sup_step silent) (w, calls) s.
Proof. intros Hi Hr Hs. eapply rtc_l; [|exact Hs]. apply sup_call. by eapply world_step_op. Qed.

Ltac sup_take i r :=
  eapply (sup_call_op _ i); [reflexivity|instantiate (1 := r); first [reflexivity|exact I]|].

Lemma silent_lamp_reachable :
  rtc (sup_step (fun _ => False)) (no_sessions, map call_program three_starts)
    (silent_lamp, [Ret tt; start_joining "lamp" 0; call_program (Call_Start "plug")]).
Proof.
  sup_take 0 tt. sup_take 0 (None : option nat). sup_take 0 0. sup_take 0 tt. sup_take 0 tt.
  sup_take 1 tt. sup_take 1 (Some 0). sup_take 1 tt.
  exact (rtc_refl _ (silent_lamp, [Ret tt; start_joining "lamp" 0; call_program (Call_Start "plug")])).
Qed.

#[local] Instance zero_sha : Sha256.
Proof.
  refine {| sha256 := fun _ => replicate 32 0%N |}; intros _; [done|]. by apply Forall_replicate.
Defined.

(** Frames that cannot be read. *)
#[local] Instance unreadable_frames : FrameDecoding :=
  {| frame_from_str := fun _ => None; envelope_from_str := fun _ => None; challenge_from_str := fun _ => None |}.

Lemma silent_session_blocks_witness :
  ss_locked silent_lamp = true /\
  forall w' calls',
    rtc (sup_step (fun task => task = 0))
      (silent_lamp, [Ret tt; start_joining "lamp" 0; call_program (Call_Start "plug")]) (w', calls') ->
    calls' !! 1 = Some (start_joining "lamp" 0) /\ calls' !! 2 = Some (call_program (Call_Start "plug")).
Proof.
  split; [reflexivity|]. intros w' calls' Hs.
  destruct (silent_session_blocks
    three_starts _ _ 1 "lamp" 0 true w' calls' silent_lamp_reachable) as (_ & _ & H1 & H2);
    [reflexivity|reflexivity|exact Hs|]. split; [exact H1|by apply H2].
Defined.
